(* ===== verification/_CoqProject ===== *)
-Q . S2P
Prelude.v
RustStr.v
RustText.v
RustFloat.v
PerfTypes.v
PerfVersion.v
PerfAppVersion.v
PerfPlanner.v
PerfValidation.v
PerfEmergency.v
TaskExclusion.v
TaskOwner.v
TaskProjection.v
PhysSemaphore.v
PhysicalWork.v
PhysicalWorkInv.v
PhysicalWorkProps.v
McPortablePath.v
AppPortablePath.v
Effect.v
ContentModel.v
ContentUrl.v
ContentPackPath.v
ContentProvenance.v
ContentManifest.v
ContentVersions.v
ContentProvider.v
ContentResolve.v
ContentOutcome.v
ContentTermination.v
ContentConsistency.v
SettingsModel.v
InterfacePreferences.v
Storage.v
SettingsStore.v
SettingsProps.v
InstanceModel.v
InstanceRegistry.v
InstanceHistory.v
InstanceProps.v
PerfGraph.v
PerfInstallPlan.v
PerfInstallState.v
McVersionId.v
McVersionMeta.v
McLoaderIdentity.v
McRules.v
McLaunch.v
McCompose.v
McCommand.v
ContentPlan.v
ContentDemo.v
ContentCompat.v
InstallModel.v
InstallQueue.v
InstallQueueInv.v
InstallQueueProps.v
LaunchCrash.v
LaunchOutcome.v
LaunchLogs.v
LaunchRedact.v
LaunchCollector.v
LaunchReports.v
LaunchReportProps.v
LaunchSnapshot.v
LaunchModel.v
LaunchTables.v
LaunchTablesProps.v
LaunchIntents.v
LaunchIntentsProps.v
LaunchRecovery.v
LaunchDemo.v
AccountModel.v
AccountDirectory.v
AccountProps.v
AccountHistory.v
CredentialStore.v
CredentialSteps.v
CredentialProps.v
CredentialRecovery.v
