(* ===== verification/Prelude.v ===== *)
(** * Axial: a verification library for the launcher's core logic

    Axial is a Minecraft launcher.  Its logic lives in Rust crates under
    [src/core]: [minecraft] (versions, loaders, paths, the launch model),
    [performance] (which performance mods an instance gets, and the sealed
    plan of their installation), [app] (the application services over both,
    with the task primitives they share), [fs] and [resource] (filesystem
    capabilities and admission of physical work).  [src/apps] holds the HTTP
    API and the desktop shell, [src/frontend] the user interface.

    The library translates the parts that decide something into executable
    definitions and proves what the rest of the program relies on.  Rust's
    [Result] is [result], its [?] the monadic bind; [Option] is [option]; a
    loop with early returns is [try_fold] or a fixpoint; integers are [Z] with
    the bounds and the checked additions written out; a text is the [string]
    of its UTF-8 bytes, and a [char] the string of its encoding; maps and sets
    are stdpp's [gmap] and [gset]; concurrent code is a world whose locked
    blocks are atomic steps in any interleaving.

    ** The files

    Shared ground:
    - [Prelude]: results, loops, comparison functions and their preorders,
      stable sorting, sets of keys, machine bounds.
    - [RustStr], [RustText]: the string functions the source uses, with their
      laws; [RustFloat]: [f64] arithmetic; [Effect]: the monad of code that
      talks to the world.

    Performance mods ([src/core/performance/src]):
    - [PerfTypes] (types/mod.rs, resolve/model.rs): manifests and requests.
    - [PerfVersion] (resolve/version.rs): game versions, families and ranges;
      families are intervals, ranges mean what they read as.
    - [PerfAppVersion] (resolve/app_version.rs): the gate on the running
      version, which is monotone.
    - [PerfPlanner] (resolve/planner.rs): [resolve_plan].  The nested loops
      with their fallback state implement a plain search for the first
      eligible composition, and respect the emergency disables in force.
    - [PerfValidation] (resolve/validation.rs): [validate_manifest] accepts
      exactly the well-formed manifests, a specification stated without loops.
    - [PerfEmergency]: validation and planning together: a validated disable
      takes effect, as far as identifiers are ASCII.
    - [PerfGraph] (install/plan.rs): the walk over a dependency graph and the
      bytes its digest is taken over, which determine the graph.
    - [PerfInstallPlan] (install/plan.rs): [seal] accepts exactly the
      consistent plans, in whatever order they were discovered.
    - [PerfInstallState] (install/plan.rs, install/artifact.rs): the state
      recorded for a sealed plan passes the check made when it is read again.

    Tasks ([src/core/app/src/tasks]):
    - [TaskExclusion] (exclusion.rs): leases on targets and artifacts; mutual
      exclusion over every reachable state, and exact admission.
    - [TaskOwner] (owner.rs, cancellation.rs): accepted work, its supervisors,
      waiters and shutdown calls.  Guards outlive the work, an empty owner has
      settled everything, a closed owner drains.
    - [TaskProjection] (projection.rs): publication by expected revision, and
      subscriptions that miss nothing.

    Physical work ([src/core/resource/src/lib.rs]):
    - [PhysSemaphore]: what the code asks of a semaphore of the async runtime,
      as a class with its laws, and a counter with its queue that has them.
    - [PhysicalWork]: admissions, groups, deadlines and drops as steps of the
      calls in progress; [PhysicalWorkInv]: the invariant that accounts for
      every permit; [PhysicalWorkProps]: the limits hold, all work completes,
      immediate admission is all or nothing, a drained group stays drained.

    Minecraft ([src/core/minecraft/src]):
    - [McPortablePath] (portable_path.rs): names and relative paths that stay
      under their root on every platform.
    - [McVersionId] (version_meta/tokenize.rs, parse.rs) and [McVersionMeta]
      (version_meta/mod.rs, lifecycle.rs): identifiers, their order and what
      is derived from them.
    - [McLoaderIdentity] (loaders/api.rs): the codecs of installed-version and
      build identifiers, without aliases.
    - [McRules] (rules/mod.rs), [McLaunch] and [McCommand] (launch/mod.rs,
      paths/mod.rs): rules, inheritance of version descriptions, libraries,
      class path and arguments.
    - [McCompose] (loaders/compose.rs): loader profiles, and that a composed
      profile resolves.

    Content ([src/core/app/src/content], [files/portable.rs]):
    - [AppPortablePath] (files/portable.rs): the application's copy of the
      portable names, equivalent to [McPortablePath].
    - [ContentModel] (model.rs), [ContentUrl] and [ContentPackPath] (packs.rs):
      the records of the catalog, admissible download addresses, destinations
      of modpack files.
    - [ContentProvenance] (provenance.rs) and [ContentManifest]: the ownership
      record of an instance's content; its files never collide.
    - [ContentVersions] (resolve.rs, install.rs): ranking and choosing versions.
    - [ContentProvider] (provider.rs, catalog.rs): reading Modrinth.
    - [ContentResolve] (resolve.rs): the resolver's queue, passes and budgets.  [ContentOutcome] describes a round as a relation,
      [ContentTermination] shows that every resolution answers within its
      limits, [ContentConsistency] what an answer without conflicts guarantees,
      [ContentDemo] runs resolutions and plans over a small catalog.
    - [ContentPlan] (resolve.rs): plans bound to an observed state, available
      updates; [ContentCompat] (compatibility.rs): scoring of targets.

    Settings and instances ([src/core/app/src]):
    - [SettingsModel] (settings/model.rs), [InterfacePreferences]
      (settings/preferences.rs): preferences, patches and validation.
    - [Storage] (storage/mod.rs): transactions, reads and migrations of the
      metadata database.
    - [SettingsStore] (settings/mod.rs, flags.rs, preferences.rs) and
      [SettingsProps]: mutations are compare-and-set on a revision, in every
      interleaving.
    - [InstanceModel] (instances/model.rs, duplicate.rs), [InstanceRegistry]
      (instances/directory.rs): instance records and the statements run on
      their table.  [InstanceHistory] gives an abstract registry and its
      refinement, [InstanceProps] the histories of the store.

    Installs ([src/core/app/src/install]):
    - [InstallModel] (model.rs, queue.rs): requests, targets, statuses and what
      is shown of them.
    - [InstallQueue] (queue.rs): the table of intents, the queue in memory, and
      every operation on both, from admission to recovery; [QueueOp] and
      [run_op] are its histories, with failing transactions and restarts.
      [InstallQueueInv] is the invariant that ties memory, table and tasks
      together; [InstallQueueProps] shows that both agree, that one fenced
      task works at a time, that a restart rebuilds the queue, that an
      admission is all or nothing and an offered retry is accepted.

    Launches ([src/core/app/src/launch], [runtime/model.rs]):
    - [LaunchLogs] (logs.rs), [LaunchRedact] and [LaunchCollector]: output is
      split into lines, redacted and kept in a bounded history, the same for
      every chunking; private texts are not published.
    - [LaunchOutcome] (outcome.rs): failure classes and outcomes, independent
      of the order of the output.  [LaunchCrash] (reports.rs): the evidence
      taken from crash artifacts.
    - [LaunchReports] (reports.rs) and [LaunchReportProps]: the report of a
      session, its sanitisation, encoding and comparison.
    - [LaunchSnapshot] (session.rs): snapshots and settlements of sessions.
    - [LaunchModel] (coordinator.rs, runtime/model.rs): requests and errors.
      [LaunchTables] and [LaunchTablesProps]: the stored reports and the rows
      of intents.  [LaunchIntents] (coordinator.rs): the operations on intents;
      [LaunchIntentsProps] shows over histories with restarts that an intent
      authorises one process, [LaunchRecovery] what a restart finds,
      [LaunchDemo] compares reports and runs one launch.

    Accounts ([src/core/app/src/accounts]):
    - [AccountModel] (model.rs, microsoft.rs), [AccountDirectory] (directory.rs,
      selection.rs): identities, records, the tables, every mutation and the
      captures.  [AccountProps]: the mutations keep the directory valid;
      [AccountHistory]: a command is its mutation, and what a capture
      remembers over a history.
    - [CredentialStore] (credentials.rs, credential_store.rs): bundles of
      tokens, the heads that record their changes, and the operations as calls
      of a keyring that may refuse them or fail after carrying them out.
      [CredentialSteps] gives the transitions they amount to,
      [CredentialProps] that no fault orphans a secret and that a saved
      bundle is loaded, [CredentialRecovery] that signing out works from any
      state, and that the heads it writes have room in the keyring.

    ** How the parts interact

    [PerfPlanner], [PerfValidation] and [PerfInstallPlan] share [PerfTypes]
    and the version model; [PerfEmergency] and [PerfInstallState] join two of
    them, as the services of [src/core/app] do.  [McLaunch] asks
    [McLoaderIdentity] whether a profile is the one its identifier names, and
    [McCompose] makes such profiles; [McCommand] uses the rules and the merged
    libraries of [McLaunch].  [PhysicalWork] is written against the class
    [Semaphore]; its theorems need the laws [SemaphoreLaws] only.  The
    resolver, the update check and the compatibility scores read the provider
    through [ContentProvider.ContentService]; [ContentPlan] joins a resolution
    with the manifest of [ContentProvenance].  [SettingsStore],
    [InstanceRegistry], [AccountDirectory], [InstallQueue], [LaunchTables] and
    [LaunchIntents] run their operations in the transactions of [Storage]; a report that is
    recorded acknowledges the intent of its session in the same transaction.
    Reports carry the entries of [LaunchLogs], the outcomes of [LaunchOutcome]
    and the evidence of [LaunchCrash].  The install queue learns the answers of
    the task owner, the exclusions, the library and the registry of instances
    from the environment of each operation; what an install did is the argument
    of the operation that ends it.  A recovery of a content install takes the
    queue's lock twice; both parts are operations of a history, and what is
    shown of histories asks that the second finds the lease the first read
    ([InstallQueueProps.op_ok]; [ContentRaceDemo] runs one where it does not).
    That the order of the queue survives a restart asks in addition for a wall
    clock that does not step back ([clock_advances]).

    ** Parameters

    Code outside the repository is a parameter: Unicode tables beyond ASCII
    (the classes [Unicode] and [UnicodeNorm]), the RFC 3339, URL, UUID and
    digest functions, base64 (with its documented round trip), regular
    expressions that the source reads from its data, and reading and parsing a
    version file; the JSON codecs of the stored documents ([ManifestJson],
    [ResolutionJson], [SettingsJson], [PreferencesJson], [RecordJson],
    [ReportJson], [IntentJson], [AccountJson], [InstallJson],
    [CredentialCodec], by their
    round trips where a theorem needs them, and a head by its JSON,
    [HeadJsonLaws]); HTTP ([Transport]); SQLite's calls
    and whether a statement fails ([SqliteCall], [fault]); the answers of the
    keyring ([KeyringAnswer]); the semaphores of the async runtime by their
    documented fairness ([PhysSemaphore.SemaphoreLaws]).  Fixed regular
    expressions are written out.

    ** Recursion and bounds

    Every definition is total.  The walk over a dependency graph gets one more
    round than there are artifacts, enough to reach every one
    ([PerfGraph.walk_enough]); the removal of [.disabled] suffixes gets one
    round per byte; inheritance counts down the eleven levels that the
    source's depth check allows.  The queue loop of the resolver gets 4353
    rounds, more than its budgets allow ([ContentTermination]), and its passes
    34, each of which but the last records a new exact requirement.  Additions
    on [u64] are checked where the source checks them; counters carry their
    bounds in the invariants ([TaskOwner.Inv], [TaskExclusion.Inv],
    [TaskProjection.Inv]); the scan of a restart gets one round more than its
    limit of rows, at which it stops itself; the atomic counters of
    [PhysicalWork] wrap as the source's do.

    ** What is not modelled

    The filesystem capabilities ([src/core/fs]) and the transactions over them
    ([managed_fs], [managed_component_*]), downloads, Java runtimes, the
    execution of loader installers, signing in over the Microsoft services, the
    directories of instances, the execution of content transactions, the
    settlement of an install's publication and the installed versions it
    records, the preparation of a launch and the supervision of its process,
    and the outer applications: most of it is input and output around the logic
    above. *)


From Stdlib Require Export ZArith Lia Ascii String.
From stdpp Require Export base tactics list strings gmap sorting numbers option.


#[export] Set Warnings "-clear-no-such-hyp,-level-tolerance".

(** ** Results *)

(** Rust's [Result<A, E>]; [?] is the monadic bind. *)
Inductive result (E A : Type) : Type :=
| Ok (a : A)
| Err (e : E).
Arguments Ok {E A} a.
Arguments Err {E A} e.

#[global] Instance result_ret E : MRet (result E) := λ A, @Ok E A.
#[global] Instance result_bind E : MBind (result E) := λ A B k m,
  match m with Ok a => k a | Err e => Err e end.
#[global] Instance result_fmap E : FMap (result E) := λ A B f m,
  match m with Ok a => Ok (f a) | Err e => Err e end.

#[global] Instance result_eq_dec `{EqDecision E, EqDecision A} : EqDecision (result E A).
Proof. solve_decision. Defined.

(** [Result::map_err]. *)
Definition map_err {E F A} (f : E → F) (m : result E A) : result F A :=
  match m with Ok a => Ok a | Err e => Err (f e) end.

(** [Option::ok_or]. *)
Definition ok_or {E A} (e : E) (m : option A) : result E A :=
  match m with Some a => Ok a | None => Err e end.

(** [Option::is_none_or], [Option::is_some_and], [Option::is_none]. *)
Definition is_none_or {A} (o : option A) (p : A → bool) : bool :=
  match o with Some v => p v | None => true end.
Definition is_some_and {A} (o : option A) (p : A → bool) : bool :=
  match o with Some v => p v | None => false end.
Definition is_none {A} (o : option A) : bool := match o with None => true | Some _ => false end.

Definition is_ok {E A} (m : result E A) : bool :=
  match m with Ok _ => true | Err _ => false end.

(** [if cond { return Err(e) }]. *)
Definition err_if {E} (cond : bool) (e : E) : result E unit :=
  if cond then Err e else Ok tt.

(** A [for] loop over a list whose body may return early with an error. *)
Fixpoint try_fold {E S A} (f : S → A → result E S) (s : S) (l : list A) : result E S :=
  match l with
  | [] => Ok s
  | x :: l => s' ← f s x; try_fold f s' l
  end.

Fixpoint try_for_each {E A} (f : A → result E unit) (l : list A) : result E unit :=
  match l with
  | [] => Ok tt
  | x :: l => f x ;; try_for_each f l
  end.

(** [iter().map(f).collect::<Result<Vec<_>, _>>()]. *)
Fixpoint try_map {E A B} (f : A → result E B) (l : list A) : result E (list B) :=
  match l with
  | [] => Ok []
  | x :: l => y ← f x; ys ← try_map f l; Ok (y :: ys)
  end.

Section result_lemmas.
Context {E A B : Type}.
Implicit Types (m : result E A) (k : A → result E B).

Lemma bind_ok m k b : m ≫= k = Ok b ↔ ∃ a, m = Ok a ∧ k a = Ok b.
Proof.
  destruct m as [a|e]; simpl; split; [eauto|by intros (? & [= ->] & ?)|done|by intros (? & ? & _)].
Qed.

Lemma bind_ok_unit (m : result E unit) (k : unit → result E B) b :
  m ≫= k = Ok b ↔ m = Ok tt ∧ k tt = Ok b.
Proof. destruct m as [[]|e]; simpl; split; [done|by intros [_ ?]|done|by intros [? _]]. Qed.

Lemma err_if_ok (c : bool) (e : E) (u : unit) : err_if c e = Ok u ↔ c = false.
Proof. by destruct c, u. Qed.

Lemma map_err_ok {F} (f : E → F) m a : map_err f m = Ok a ↔ m = Ok a.
Proof. destruct m; simpl; split; congruence. Qed.

Lemma ok_or_ok (e : E) (o : option A) a : ok_or e o = Ok a ↔ o = Some a.
Proof. destruct o; simpl; split; congruence. Qed.

Lemma is_ok_true m : is_ok m = true ↔ ∃ a, m = Ok a.
Proof. destruct m; simpl; split; [eauto|done|done|by intros [??]]. Qed.
End result_lemmas.

Lemma try_for_each_ok {E A} (f : A → result E unit) l u :
  try_for_each f l = Ok u ↔ Forall (λ x, f x = Ok tt) l.
Proof.
  destruct u. induction l as [|x l IH]; simpl; [by rewrite list.Forall_nil|].
  rewrite list.Forall_cons, <-IH. apply bind_ok_unit.
Qed.

Lemma try_map_ok {E A B} (f : A → result E B) l k :
  try_map f l = Ok k ↔ Forall2 (λ x y, f x = Ok y) l k.
Proof.
  revert k. induction l as [|x l IH]; intros k; simpl.
  { split; [intros [= <-]; constructor|]. by inversion 1. }
  split.
  - intros (y & Hy & (ys & Hys & [= <-])%bind_ok)%bind_ok. constructor; [done|]. by apply IH.
  - inversion 1 as [|? y ? ys Hy Hys]; subst. apply bind_ok. exists y. split; [done|].
    apply bind_ok. exists ys. split; [by apply IH|done].
Qed.

Section try_fold_lemmas.
Context {E S A : Type}.
Implicit Types (f : S → A → result E S).

Lemma try_fold_app f s l1 l2 :
  try_fold f s (l1 ++ l2) = s' ← try_fold f s l1; try_fold f s' l2.
Proof.
  revert s. induction l1 as [|x l1 IH]; intros s; simpl; [done|].
  destruct (f s x); simpl; [apply IH|done].
Qed.

(** An invariant over the processed prefix holds when the loop succeeds. *)
Lemma try_fold_inv f (P : list A → S → Prop) s l s' :
  P [] s →
  (∀ done x t t', P done t → f t x = Ok t' → P (done ++ [x]) t') →
  try_fold f s l = Ok s' → P l s'.
Proof.
  intros H0 Hstep.
  cut (∀ done t, P done t → try_fold f t l = Ok s' → P (done ++ l) s').
  { intros H. apply (H [] s H0). }
  induction l as [|x l IH]; intros done t HP; simpl.
  - intros [= <-]. by rewrite app_nil_r.
  - intros (t' & Hf & Hl)%bind_ok.
    specialize (IH (done ++ [x]) t' (Hstep _ _ _ _ HP Hf) Hl).
    by rewrite <-app_assoc in IH.
Qed.
End try_fold_lemmas.

(** ** Lists and sets of keys *)

Lemma NoDup_fmap_inj {A B} (f : A → B) l x y :
  NoDup (f <$> l) → x ∈ l → y ∈ l → f x = f y → x = y.
Proof.
  induction l as [|z l IH]; simpl; [by intros _ ?%elem_of_nil|].
  intros [Hz Hnd]%list.NoDup_cons Hx Hy E.
  apply elem_of_cons in Hx as [->|Hx], Hy as [->|Hy]; [done| | |by apply IH].
  - destruct Hz. rewrite E. by apply list_elem_of_fmap_2.
  - destruct Hz. rewrite <-E. by apply list_elem_of_fmap_2.
Qed.


Lemma omap_ext_elem {A B} (f g : A → option B) (l : list A) :
  (∀ x, x ∈ l → f x = g x) → omap f l = omap g l.
Proof.
  induction l as [|x l IH]; intros Hfg; [done|]. simpl. rewrite (Hfg x) by left.
  destruct (g x); [f_equal|]; apply IH; intros y Hy; apply Hfg; by right.
Qed.

Lemma filter_ext_elem {A} (P Q : A → Prop) `{∀ x, Decision (P x), ∀ x, Decision (Q x)} (l : list A) :
  (∀ x, x ∈ l → P x ↔ Q x) → filter P l = filter Q l.
Proof.
  induction l as [|x l IH]; intros Hpq; [done|]. rewrite !filter_cons.
  assert (filter P l = filter Q l) as -> by (apply IH; intros y Hy; apply Hpq; by right).
  pose proof (Hpq x (list_elem_of_here _ _)). do 2 case_decide; naive_solver.
Qed.

(** [seen.insert(value)] on a set, failing when the value is already there. *)
Definition insert_new `{Countable K} {E} (e : E) (seen : gset K) (key : K) :
    result E (gset K) :=
  if bool_decide (key ∈ seen) then Err e else Ok ({[key]} ∪ seen).

(** *** Keyed checks

    A loop body that checks an item and records its key, refusing a key it
    has seen, accepts exactly the lists of good items with distinct keys. *)

Section keyed.
Context {A T K : Type} `{Countable K} {E : Type}.
Variables (key : A → K) (seen : T → gset K) (upd : T → A → T).
Hypothesis seen_upd : ∀ s x, seen (upd s x) = {[key x]} ∪ seen s.

Definition keyed_check (f : T → A → result E T) (P : A → Prop) : Prop :=
  ∀ s x s', f s x = Ok s' ↔ (P x ∧ key x ∉ seen s ∧ s' = upd s x).

Lemma keyed_fold_ok f P l s s' :
  keyed_check f P →
  try_fold f s l = Ok s' ↔
  (Forall P l ∧ NoDup (key <$> l) ∧ (∀ x, x ∈ l → key x ∉ seen s) ∧ s' = foldl upd s l).
Proof.
  intros Hf. revert s. induction l as [|x l IH]; intros s; simpl.
  { split.
    - intros [= ->]. split_and!; [done|constructor|by intros ? ?%elem_of_nil|done].
    - by intros (_ & _ & _ & ->). }
  rewrite bind_ok, list.Forall_cons, list.NoDup_cons. split.
  - intros (t & (HP & Hx & ->)%Hf & (HPl & Hnd & Hseen & ->)%IH).
    split_and!; [done|done| |done| |done].
    + intros (y & Hxy & Hy)%list_elem_of_fmap. apply (Hseen y Hy).
      rewrite seen_upd. set_solver.
    + intros y [->|Hy]%elem_of_cons; [done|]. specialize (Hseen y Hy).
      rewrite seen_upd in Hseen. set_solver.
  - intros ((HP & HPl) & (Hkx & Hnd) & Hseen & ->).
    exists (upd s x). split; [apply Hf; split_and!; [done|apply Hseen; left|done]|].
    apply IH. split_and!; [done|done| |done].
    intros y Hy. assert (key y ∈ key <$> l) as Hky by by apply list_elem_of_fmap_2.
    assert (key y ∉ seen s) by (apply Hseen; by right).
    assert (key y ≠ key x) by (intros E'; by rewrite E' in Hky).
    rewrite seen_upd. set_solver.
Qed.

Lemma seen_foldl l s : seen (foldl upd s l) = list_to_set (key <$> l) ∪ seen s.
Proof.
  revert s. induction l as [|x l IH]; intros s; simpl; [set_solver|].
  rewrite IH, seen_upd. set_solver.
Qed.
End keyed.

Lemma insert_new_ok `{Countable K} {E} (e : E) (seen : gset K) (k : K) seen' :
  insert_new e seen k = Ok seen' ↔ (k ∉ seen ∧ seen' = {[k]} ∪ seen).
Proof. unfold insert_new. case_bool_decide; split; naive_solver. Qed.

Section keyed_set.
Context {A K : Type} `{Countable K} {E : Type} (key : A → K).
Definition add_key (s : gset K) (x : A) : gset K := {[key x]} ∪ s.

Lemma keyed_set_ok (f : gset K → A → result E (gset K)) P l s' :
  keyed_check key id add_key f P →
  try_fold f ∅ l = Ok s' ↔
  (Forall P l ∧ NoDup (key <$> l) ∧ s' = list_to_set (key <$> l)).
Proof.
  intros Hf. assert (∀ s x, id (add_key s x) = {[key x]} ∪ id s) as Hu by done.
  rewrite (keyed_fold_ok key id add_key Hu f P l ∅ s' Hf).
  pose proof (seen_foldl key id add_key Hu l ∅) as Hs. simpl in Hs.
  rewrite (right_id_L ∅ (∪)) in Hs. rewrite <-Hs. unfold id. set_solver.
Qed.

Lemma keyed_unit_ok (f : gset K → A → result E (gset K)) P l :
  keyed_check key id add_key f P →
  (try_fold f ∅ l ;; Ok tt) = Ok tt ↔ (Forall P l ∧ NoDup (key <$> l)).
Proof.
  intros Hf. rewrite bind_ok. split.
  - by intros (s & (? & ? & _)%(keyed_set_ok f P l _ Hf) & _).
  - intros [? ?]. exists (list_to_set (key <$> l)). by rewrite (keyed_set_ok f P l _ Hf).
Qed.
End keyed_set.

(** ** Ordering: Rust's [Ordering] is [comparison]. *)

Definition then_with (c d : comparison) : comparison :=
  match c with Eq => d | _ => c end.

Definition is_lt (c : comparison) : bool := match c with Lt => true | _ => false end.
Definition is_gt (c : comparison) : bool := match c with Gt => true | _ => false end.
Definition is_eq (c : comparison) : bool := match c with Eq => true | _ => false end.

(** What [slice::sort_by] demands of its comparator: a total preorder. *)
Class CmpPreorder {A} (f : A → A → comparison) : Prop := {
  cmp_antisym x y : f y x = CompOpp (f x y);
  cmp_trans x y z : f x y ≠ Gt → f y z ≠ Gt → f x z ≠ Gt;
}.

Arguments cmp_antisym {A} f {_} x y.
Arguments cmp_trans {A} f {_} x y z _ _.

(** A comparator whose [Equal] is equality, as for a derived [Ord]. *)
Class CmpTotal {A} (f : A → A → comparison) : Prop := {
  cmp_total_pre :: CmpPreorder f;
  cmp_eq x y : f x y = Eq → x = y;
}.

Arguments cmp_eq {A} f {_} x y _.

Definition cmp_rev {A} (f : A → A → comparison) : A → A → comparison := λ x y, f y x.
Definition cmp_on {A B} (g : A → B) (f : B → B → comparison) : A → A → comparison :=
  λ x y, f (g x) (g y).
Definition cmp_then {A} (f g : A → A → comparison) : A → A → comparison :=
  λ x y, then_with (f x y) (g x y).

#[global] Typeclasses Opaque cmp_rev cmp_on cmp_then.

Lemma cmp_preorder_ext {A} (f g : A → A → comparison) :
  (∀ x y, f x y = g x y) → CmpPreorder g → CmpPreorder f.
Proof.
  intros Heq Hg. split.
  - intros x y. rewrite !Heq. apply (cmp_antisym g).
  - intros x y z. rewrite !Heq. apply (cmp_trans g).
Qed.

Section cmp.
Context {A : Type} (f : A → A → comparison) `{!CmpPreorder f}.

Lemma cmp_refl x : f x x = Eq.
Proof. pose proof (cmp_antisym f x x) as H. by destruct (f x x). Qed.

Lemma cmp_gt_lt x y : f x y = Gt ↔ f y x = Lt.
Proof. rewrite (cmp_antisym f x y). by destruct (f x y). Qed.

Lemma cmp_eq_sym x y : f x y = Eq → f y x = Eq.
Proof. intros H. by rewrite (cmp_antisym f x y), H. Qed.

(** Equal elements compare alike. *)
Lemma cmp_eq_l x y z : f x y = Eq → f x z = f y z.
Proof.
  intros Hxy. pose proof (cmp_eq_sym _ _ Hxy) as Hyx.
  pose proof (cmp_trans f x y z). pose proof (cmp_trans f y x z).
  pose proof (cmp_trans f z x y). pose proof (cmp_trans f z y x).
  pose proof (cmp_antisym f x z) as E1. pose proof (cmp_antisym f y z) as E2.
  rewrite E1, E2, Hxy, Hyx in *.
  destruct (f x z), (f y z); simpl in *; try done; exfalso; naive_solver.
Qed.

Lemma cmp_eq_r x y z : f y z = Eq → f x y = f x z.
Proof.
  intros Hyz. rewrite (cmp_antisym f y x), (cmp_antisym f z x).
  by rewrite (cmp_eq_l y z x Hyz).
Qed.

Lemma cmp_lt_trans x y z : f x y = Lt → f y z ≠ Gt → f x z = Lt.
Proof.
  intros Hxy Hyz. destruct (f x z) eqn:Hxz; [|done|].
  - exfalso. pose proof (cmp_eq_l _ _ y Hxz) as H.
    apply Hyz. apply cmp_gt_lt. congruence.
  - exfalso. apply (cmp_trans f x y z); [by rewrite Hxy|done|done].
Qed.

Lemma cmp_lt_trans_r x y z : f x y ≠ Gt → f y z = Lt → f x z = Lt.
Proof.
  intros Hxy Hyz. destruct (f x z) eqn:Hxz; [|done|].
  - exfalso. pose proof (cmp_eq_r y x z Hxz) as H.
    apply Hxy. apply cmp_gt_lt. congruence.
  - exfalso. apply (cmp_trans f x y z); [done|by rewrite Hyz|done].
Qed.

#[global] Instance cmp_rev_preorder : CmpPreorder (cmp_rev f).
Proof.
  split; unfold cmp_rev.
  - intros x y. apply (cmp_antisym f).
  - intros x y z Hxy Hyz. by apply (cmp_trans f z y x).
Qed.

#[global] Instance cmp_on_preorder {B} (g : B → A) : CmpPreorder (cmp_on g f).
Proof.
  split; unfold cmp_on.
  - intros x y. apply (cmp_antisym f).
  - intros x y z. apply (cmp_trans f).
Qed.

#[global] Instance cmp_then_preorder (g : A → A → comparison) `{!CmpPreorder g} :
  CmpPreorder (cmp_then f g).
Proof.
  split; unfold cmp_then.
  - intros x y. rewrite (cmp_antisym f x y), (cmp_antisym g x y).
    by destruct (f x y).
  - intros x y z Hxy Hyz.
    destruct (f x y) eqn:E1; simpl in *; [| |done].
    + rewrite (cmp_eq_l _ _ z E1).
      destruct (f y z); simpl in *; [|done|done].
      by apply (cmp_trans g x y z).
    + rewrite (cmp_lt_trans x y z E1); [done|]. by destruct (f y z).
Qed.
End cmp.

#[global] Instance Z_compare_total : CmpTotal Z.compare.
Proof.
  split; [split|].
  - intros x y. apply Z.compare_antisym.
  - intros x y z. rewrite !Z.compare_gt_iff. lia.
  - intros x y. by rewrite Z.compare_eq_iff.
Qed.

#[global] Instance N_compare_total : CmpTotal N.compare.
Proof.
  split; [split|].
  - intros x y. apply N.compare_antisym.
  - intros x y z. rewrite !N.compare_gt_iff. lia.
  - intros x y. by rewrite N.compare_eq_iff.
Qed.

#[global] Instance nat_compare_total : CmpTotal Nat.compare.
Proof.
  split; [split|].
  - intros x y. apply Nat.compare_antisym.
  - intros x y z. rewrite !Nat.compare_gt_iff. lia.
  - intros x y. by rewrite Nat.compare_eq_iff.
Qed.

(** [slice::sort_by], a stable sort: each element goes before the first later
    element it does not exceed. *)
Fixpoint sort_insert {A} (f : A → A → comparison) (x : A) (l : list A) : list A :=
  match l with
  | [] => [x]
  | y :: l' => match f x y with Gt => y :: sort_insert f x l' | _ => x :: l end
  end.

Fixpoint sort_by {A} (f : A → A → comparison) (l : list A) : list A :=
  match l with
  | [] => []
  | x :: l => sort_insert f x (sort_by f l)
  end.

Section sort.
Context {A : Type} (f : A → A → comparison).

Lemma sort_insert_perm x l : sort_insert f x l ≡ₚ x :: l.
Proof.
  induction l as [|y l IH]; simpl; [done|].
  destruct (f x y); [done|done|]. rewrite IH. apply Permutation_swap.
Qed.

Lemma sort_by_perm l : sort_by f l ≡ₚ l.
Proof. induction l as [|x l IH]; simpl; [done|]. by rewrite sort_insert_perm, IH. Qed.

Context `{!CmpPreorder f}.
Let le x y := f x y ≠ Gt.

Lemma sort_insert_sorted x l :
  StronglySorted le l → StronglySorted le (sort_insert f x l).
Proof.
  induction 1 as [|y l Hs IH Hall]; simpl; [by repeat constructor|].
  destruct (f x y) eqn:E.
  1,2: constructor; [by constructor|]; constructor; [by unfold le; rewrite E|];
    eapply list.Forall_impl; [exact Hall|]; intros z Hz;
    apply (cmp_trans f x y z); [by rewrite E|exact Hz].
  constructor; [done|]. rewrite sort_insert_perm. constructor; [|done].
  unfold le. apply (cmp_gt_lt f) in E. by rewrite E.
Qed.

Lemma sort_by_sorted l : StronglySorted le (sort_by f l).
Proof. induction l as [|x l IH]; simpl; [constructor|]. by apply sort_insert_sorted. Qed.

Lemma sort_by_id l : StronglySorted le l → sort_by f l = l.
Proof.
  induction 1 as [|x l Hs IH Hall]; simpl; [done|]. rewrite IH.
  destruct l as [|y l]; simpl; [done|].
  inversion Hall as [|?? Hxy _]; subst. unfold le in Hxy. by destruct (f x y).
Qed.

(** When equal keys are impossible the sorted list is determined by the set. *)
Lemma sort_by_unique l1 l2 :
  (∀ x y, x ∈ l1 → y ∈ l1 → f x y = Eq → x = y) →
  l1 ≡ₚ l2 → sort_by f l1 = sort_by f l2.
Proof.
  intros Hinj Hp.
  pose proof (sort_by_sorted l1) as S1. pose proof (sort_by_sorted l2) as S2.
  assert (sort_by f l1 ≡ₚ sort_by f l2) as Hpp by by rewrite !sort_by_perm.
  assert (∀ x y, x ∈ sort_by f l1 → y ∈ sort_by f l1 → f x y = Eq → x = y) as Hinj'.
  { intros x y. rewrite !sort_by_perm. apply Hinj. }
  clear Hinj Hp. revert S1 S2 Hpp Hinj'.
  generalize (sort_by f l1) as k1, (sort_by f l2) as k2. clear l1 l2.
  induction k1 as [|x k1 IH]; intros k2 S1 S2 Hpp Hinj.
  { symmetry in Hpp. apply Permutation_nil_r in Hpp. done. }
  destruct k2 as [|y k2]; [by apply Permutation_nil_r in Hpp|].
  apply StronglySorted_inv in S1 as [S1 H1]. apply StronglySorted_inv in S2 as [S2 H2].
  assert (x = y) as <-.
  { assert (x ∈ y :: k2) as Hx by (rewrite <-Hpp; left).
    assert (y ∈ x :: k1) as Hy by (rewrite Hpp; left).
    apply elem_of_cons in Hx as [->|Hx]; [done|].
    apply elem_of_cons in Hy as [->|Hy]; [done|].
    rewrite list.Forall_forall in H1, H2.
    specialize (H1 y Hy). specialize (H2 x Hx). unfold le in *.
    apply Hinj; [left|right; exact Hy|].
    rewrite (cmp_antisym f x y) in H2. by destruct (f x y). }
  f_equal. apply IH; [done|done|by apply Permutation_cons_inv in Hpp|].
  intros a b Ha Hb. apply Hinj; by right.
Qed.
End sort.

(** [Iterator::min_by] keeps the first of equal minima, [max_by] the last of
    equal maxima. *)
Definition min_by {A} (f : A → A → comparison) (l : list A) : option A :=
  match l with
  | [] => None
  | x :: l => Some (fold_left (λ m y, match f m y with Gt => y | _ => m end) l x)
  end.

Definition max_by {A} (f : A → A → comparison) (l : list A) : option A :=
  match l with
  | [] => None
  | x :: l => Some (fold_left (λ m y, match f m y with Gt => m | _ => y end) l x)
  end.

Lemma min_by_ext {A} (f g : A → A → comparison) l :
  (∀ x y, x ∈ l → y ∈ l → f x y = g x y) → min_by f l = min_by g l.
Proof.
  destruct l as [|m l]; [done|]. intros H. simpl. f_equal. revert m H.
  induction l as [|y l IH]; intros m H; simpl; [done|].
  rewrite (H m y); [|by left|by right; left]. apply IH.
  intros a b Ha Hb. apply H; destruct (g m y); rewrite !elem_of_cons in *; naive_solver.
Qed.

Lemma min_by_spec {A} (f : A → A → comparison) `{!CmpPreorder f} l m :
  min_by f l = Some m → m ∈ l ∧ ∀ y, y ∈ l → f m y ≠ Gt.
Proof.
  destruct l as [|x l]; simpl; [done|]. intros [= <-]. revert x.
  induction l as [|y l IH]; intros x; simpl.
  - split; [by left|]. intros ? ->%list_elem_of_singleton. by rewrite (cmp_refl f).
  - destruct (IH (match f x y with Gt => y | _ => x end)) as [Hin Hle].
    set (m := fold_left _ _ _) in *. split.
    { rewrite !elem_of_cons in *. destruct (f x y); naive_solver. }
    intros z [->|[->|Hz]%elem_of_cons]%elem_of_cons.
    + assert (f m (match f x y with Gt => y | _ => x end) ≠ Gt) as H by (apply Hle; by left).
      destruct (f x y) eqn:E; [done|done|]. apply (cmp_gt_lt f) in E.
      intros G. rewrite (cmp_lt_trans_r f m y x) in G; done.
    + assert (f m (match f x y with Gt => y | _ => x end) ≠ Gt) as H by (apply Hle; by left).
      destruct (f x y) eqn:E; [| |done]; apply (cmp_trans f m x y); rewrite ?E; done.
    + apply Hle. by right.
Qed.

Lemma max_by_spec {A} (f : A → A → comparison) `{!CmpPreorder f} l m :
  max_by f l = Some m → m ∈ l ∧ ∀ y, y ∈ l → f m y ≠ Lt.
Proof.
  destruct l as [|x l]; simpl; [done|]. intros [= <-]. revert x.
  induction l as [|y l IH]; intros x; simpl.
  - split; [by left|]. intros ? ->%list_elem_of_singleton. by rewrite (cmp_refl f).
  - destruct (IH (match f x y with Gt => x | _ => y end)) as [Hin Hle].
    set (m := fold_left _ _ _) in *. split.
    { rewrite !elem_of_cons in *. destruct (f x y); naive_solver. }
    assert (f m (match f x y with Gt => x | _ => y end) ≠ Lt) as H by (apply Hle; by left).
    rewrite <-(cmp_gt_lt f) in H.
    intros z [->|[->|Hz]%elem_of_cons]%elem_of_cons; [| |apply Hle; by right]; rewrite <-(cmp_gt_lt f).
    + destruct (f x y) eqn:E; [| |done]; apply (cmp_trans f x y m); rewrite ?E; done.
    + destruct (f x y) eqn:E; [done|done|]. apply (cmp_trans f y x m); [|done].
      rewrite (cmp_antisym f x y), E. done.
Qed.

Lemma max_by_none {A} (f : A → A → comparison) (l : list A) : max_by f l = None ↔ l = [].
Proof. by destruct l. Qed.

(** The derived order of [Option]: [None] is least. *)
Definition opt_cmp {A} (f : A → A → comparison) (a b : option A) : comparison :=
  match a, b with
  | None, None => Eq
  | None, Some _ => Lt
  | Some _, None => Gt
  | Some a, Some b => f a b
  end.

#[global] Instance opt_cmp_total {A} (f : A → A → comparison) `{!CmpTotal f} : CmpTotal (opt_cmp f).
Proof.
  split; [split|].
  - intros [x|] [y|]; simpl; [apply (cmp_antisym f)|done..].
  - intros [x|] [y|] [z|]; simpl; try done. apply (cmp_trans f).
  - intros [x|] [y|]; simpl; try done. by intros ->%(cmp_eq f).
Qed.

(** ** Machine integers *)

Open Scope string_scope.
Open Scope list_scope.
Open Scope Z_scope.

Definition u32_max : Z := 4294967295.
Definition i32_max : Z := 2147483647.
Definition i32_min : Z := -2147483648.
Definition u64_max : Z := 18446744073709551615.

(** [u64::checked_add] and, on the 64-bit targets, [usize::checked_add]. *)
Definition checked_add_u64 (a b : Z) : option Z :=
  if a + b <=? u64_max then Some (a + b) else None.

Definition saturating_add_u64 (a b : Z) : Z := Z.min (a + b) u64_max.

Definition sum_Z (l : list Z) : Z := foldr Z.add 0 l.

Lemma sum_Z_app l1 l2 : sum_Z (l1 ++ l2) = sum_Z l1 + sum_Z l2.
Proof. induction l1 as [|x l1 IH]; simpl; [done|]. rewrite IH. lia. Qed.

Lemma sum_Z_perm l1 l2 : l1 ≡ₚ l2 → sum_Z l1 = sum_Z l2.
Proof. induction 1; simpl; lia. Qed.

(** ** Automation *)

Create HintDb axial.
Create Rewrite HintDb axial.
#[export] Hint Rewrite @bind_ok_unit @err_if_ok @map_err_ok @ok_or_ok
  @try_for_each_ok : axial.
#[export] Hint Rewrite orb_false_iff andb_true_iff negb_true_iff negb_false_iff : axial.

(** Turn a successful chain of guards into its conjuncts. *)
Ltac ok_inv :=
  repeat match goal with
  | H : Ok _ = Ok _ |- _ => injection H as H; try subst
  | H : Err _ = Ok _ |- _ => discriminate H
  | H : Ok _ = Err _ |- _ => discriminate H
  | H : err_if _ _ = Ok _ |- _ => apply err_if_ok in H
  | H : map_err _ _ = Ok _ |- _ => apply map_err_ok in H
  | H : ok_or _ _ = Ok _ |- _ => apply ok_or_ok in H
  | H : @mbind (result _) _ unit _ _ _ = Ok _ |- _ =>
      apply bind_ok_unit in H; destruct H
  | H : @mbind (result _) _ _ _ _ _ = Ok _ |- _ =>
      apply bind_ok in H; destruct H as (? & ? & ?)
  | H : _ ∧ _ |- _ => destruct H
  | H : _ || _ = false |- _ => apply orb_false_iff in H
  | H : _ && _ = true |- _ => apply andb_true_iff in H
  | H : negb _ = false |- _ => apply negb_false_iff in H
  | H : negb _ = true |- _ => apply negb_true_iff in H
  end.

(** Decide an equation between closed terms in the virtual machine, without
    reading the values back. *)
Ltac vm_eq :=
  match goal with |- _ = ?y => vm_cast_no_check (@eq_refl _ y) end.
