(* ===== verification/RustStr.v ===== *)
(** * Rust's [str], as far as the modelled code uses it

    A [str] is a Stdlib [string] read as its UTF-8 bytes: [String.length] is
    [str::len] and [String.compare] is the bytewise [Ord].  A [char] is the
    string of its encoding, and [chars] cuts a string before every byte that
    is not a continuation byte, which on UTF-8 gives the scalar values.
    Unicode data beyond the [White_Space] and [Cc] properties (full case
    mapping, the decimal digits of the regex class [\d]) is a parameter, the
    class [Unicode]; it is consulted on non-ASCII text only. *)

From S2P Require Import Prelude.


#[global] Arguments String.append !s1 s2 /.

(** ** Bytes *)

Definition byte_n (c : ascii) : N := N_of_ascii c.

Definition is_ascii_byte (c : ascii) : bool := (byte_n c <? 128)%N.
Definition is_digit (c : ascii) : bool := (48 <=? byte_n c)%N && (byte_n c <=? 57)%N.
Definition is_upper (c : ascii) : bool := (65 <=? byte_n c)%N && (byte_n c <=? 90)%N.
Definition is_lower (c : ascii) : bool := (97 <=? byte_n c)%N && (byte_n c <=? 122)%N.
Definition is_alpha (c : ascii) : bool := is_upper c || is_lower c.
Definition is_alphanumeric (c : ascii) : bool := is_alpha c || is_digit c.
Definition is_ascii_control (c : ascii) : bool := (byte_n c <? 32)%N || (byte_n c =? 127)%N.
(** [u8::is_ascii_whitespace]: tab, LF, FF, CR and space. *)
Definition is_ascii_whitespace (c : ascii) : bool :=
  existsb (N.eqb (byte_n c)) [9; 10; 12; 13; 32]%N.

Definition lower_byte (c : ascii) : ascii :=
  if is_upper c then ascii_of_N (byte_n c + 32) else c.
Definition upper_byte (c : ascii) : ascii :=
  if is_lower c then ascii_of_N (byte_n c - 32) else c.

Fixpoint smap (f : ascii → ascii) (s : string) : string :=
  match s with "" => "" | String c s => String (f c) (smap f s) end.

Fixpoint sforall (p : ascii → bool) (s : string) : bool :=
  match s with "" => true | String c s => p c && sforall p s end.

Definition sexists (p : ascii → bool) (s : string) : bool := negb (sforall (negb ∘ p) s).

Definition is_ascii (s : string) : bool := sforall is_ascii_byte s.
Definition to_ascii_lowercase (s : string) : string := smap lower_byte s.
Definition to_ascii_uppercase (s : string) : string := smap upper_byte s.
Definition eq_ignore_ascii_case (a b : string) : bool :=
  String.eqb (to_ascii_lowercase a) (to_ascii_lowercase b).

Definition is_empty (s : string) : bool := match s with "" => true | _ => false end.

(** [str::len], in bytes. *)
Definition str_len (s : string) : Z := Z.of_nat (String.length s).

Definition str_eqb : string → string → bool := String.eqb.

(** [Option<&str> == Some(value)]. *)
Definition opt_eqb (o : option string) (value : string) : bool :=
  match o with Some v => str_eqb v value | None => false end.

(** [str::cmp]. *)
Definition str_cmp : string → string → comparison := String.compare.

(** ** Searching *)

Fixpoint strip_prefix (p s : string) : option string :=
  match p, s with
  | "", _ => Some s
  | String a p, String b s => if Ascii.eqb a b then strip_prefix p s else None
  | _, _ => None
  end.

Definition starts_with (p s : string) : bool :=
  match strip_prefix p s with Some _ => true | None => false end.

Fixpoint strip_suffix (p s : string) : option string :=
  if String.eqb p s then Some "" else
  match s with "" => None | String c s => String c <$> strip_suffix p s end.

Definition ends_with (p s : string) : bool :=
  match strip_suffix p s with Some _ => true | None => false end.

(** [haystack.contains(needle)]. *)
Fixpoint contains (needle s : string) : bool :=
  starts_with needle s ||
  match s with "" => false | String _ s => contains needle s end.

(** [str::split] at an ASCII character: always at least one part. *)
Fixpoint split_on (sep : ascii) (s : string) : list string :=
  match s with
  | "" => [""]
  | String c s =>
      if Ascii.eqb c sep then "" :: split_on sep s
      else match split_on sep s with
           | p :: ps => String c p :: ps
           | [] => [String c ""]
           end
  end.

(** [str::split_once] at an ASCII character. *)
Fixpoint split_once (sep : ascii) (s : string) : option (string * string) :=
  match s with
  | "" => None
  | String c s =>
      if Ascii.eqb c sep then Some ("", s)
      else '(a, b) ← split_once sep s; Some (String c a, b)
  end.

Fixpoint str_join (sep : string) (l : list string) : string :=
  match l with
  | [] => ""
  | [x] => x
  | x :: l => x +:+ sep +:+ str_join sep l
  end.

Fixpoint str_concat (l : list string) : string :=
  match l with [] => "" | x :: l => x +:+ str_concat l end.

(** ** Characters *)

Definition is_continuation (c : ascii) : bool :=
  (128 <=? byte_n c)%N && (byte_n c <? 192)%N.

Definition starts_with_continuation (s : string) : bool :=
  match s with String c _ => is_continuation c | "" => false end.

Fixpoint chars (s : string) : list string :=
  match s with
  | "" => []
  | String c s' =>
      match chars s' with
      | d :: ds => if starts_with_continuation d then String c d :: ds
                   else String c "" :: d :: ds
      | [] => [String c ""]
      end
  end.

(** A test on a [char] that holds of ASCII characters only. *)
Definition char_is (p : ascii → bool) (ch : string) : bool :=
  match ch with String c "" => is_ascii_byte c && p c | _ => false end.

Definition char_in (l : list string) (ch : string) : bool := existsb (String.eqb ch) l.

Definition byte (n : N) : string := String (ascii_of_N n) "".
Definition bytes (l : list N) : string := str_concat (byte <$> l).

(** The [White_Space] property, [char::is_whitespace]. *)
Definition whitespace_chars : list string :=
  (bytes <$> [[9]; [10]; [11]; [12]; [13]; [32]; [194; 133]; [194; 160]; [225; 154; 128]])%N ++
  ((λ n, bytes [226; 128; n]) <$> [128; 129; 130; 131; 132; 133; 134; 135; 136; 137; 138;
                                   168; 169; 175])%N ++
  (bytes <$> [[226; 129; 159]; [227; 128; 128]])%N.

Definition is_whitespace (ch : string) : bool := char_in whitespace_chars ch.

(** The general category [Cc], [char::is_control]. *)
Definition is_control (ch : string) : bool :=
  match ch with
  | String c "" => is_ascii_control c
  | String a (String b "") =>
      (byte_n a =? 194)%N && (128 <=? byte_n b)%N && (byte_n b <=? 159)%N
  | _ => false
  end.

Definition has_control (s : string) : bool := existsb is_control (chars s).

Definition chars_count (s : string) : nat := length (chars s).

Fixpoint drop_while {A} (p : A → bool) (l : list A) : list A :=
  match l with [] => [] | x :: l' => if p x then drop_while p l' else l end.

Definition drop_while_end {A} (p : A → bool) (l : list A) : list A :=
  reverse (drop_while p (reverse l)).

Definition trim_chars (l : list string) : list string :=
  drop_while_end is_whitespace (drop_while is_whitespace l).

(** [str::trim]. *)
Definition trim (s : string) : string := str_concat (trim_chars (chars s)).

Definition trim_end_matches (p : string → bool) (s : string) : string :=
  str_concat (drop_while_end p (chars s)).

Definition trim_start_matches (p : string → bool) (s : string) : string :=
  str_concat (drop_while p (chars s)).

(** The maximal runs of characters that do not satisfy [p]. *)
Fixpoint runs (p : string → bool) (l : list string) : list (list string) :=
  match l with
  | [] => []
  | c :: l =>
      if p c then runs p l
      else match l with
           | [] => [[c]]
           | d :: _ => if p d then [c] :: runs p l
                       else match runs p l with
                            | r :: rs => (c :: r) :: rs
                            | [] => [[c]]
                            end
           end
  end.

(** [str::split_whitespace]. *)
Definition split_whitespace (s : string) : list string :=
  str_concat <$> runs is_whitespace (chars s).

(** ** Numbers *)

Definition digit_value (c : ascii) : Z := Z.of_N (byte_n c) - 48.

Definition digits_value (s : string) : Z :=
  (fix go acc s := match s with "" => acc | String c s => go (10 * acc + digit_value c) s end) 0 s.

Definition all_digits (s : string) : bool := negb (is_empty s) && sforall is_digit s.

(** [str::parse] at an unsigned type: an optional [+], then decimal digits
    whose value fits. *)
Definition parse_unsigned (max : Z) (s : string) : option Z :=
  let body := match s with String "+" s' => s' | _ => s end in
  if all_digits body && (digits_value body <=? max) then Some (digits_value body) else None.

Definition parse_u32 : string → option Z := parse_unsigned u32_max.
Definition parse_u64 : string → option Z := parse_unsigned u64_max.

(** [str::parse::<i32>]. *)
Definition parse_i32 (s : string) : option Z :=
  match s with
  | String "-" body =>
      if all_digits body && (i32_min <=? - digits_value body)
      then Some (- digits_value body) else None
  | _ => parse_unsigned i32_max s
  end.

(** The decimal form [Display] prints for an integer that is not negative. *)
Fixpoint nat_digits (fuel : nat) (n : Z) (acc : string) : string :=
  match fuel with
  | O => acc
  | S fuel =>
      let acc := String (ascii_of_N (Z.to_N (n mod 10) + 48)) acc in
      if n <? 10 then acc else nat_digits fuel (n / 10) acc
  end.

Definition display_Z (n : Z) : string := nat_digits 20 n "".
Definition display_nat (n : nat) : string := display_Z (Z.of_nat n).

(** ** Unicode data *)

Class Unicode := {
  (** [str::to_lowercase] and [str::to_uppercase] of text that is not ASCII. *)
  nonascii_to_lowercase : string → string;
  nonascii_to_uppercase : string → string;
  (** Membership in the general category [Nd] of a non-ASCII character. *)
  nonascii_is_decimal : string → bool;
}.

(** The instance with no case pairs and no digits beyond ASCII. *)
Definition ascii_unicode : Unicode := {|
  nonascii_to_lowercase := to_ascii_lowercase;
  nonascii_to_uppercase := to_ascii_uppercase;
  nonascii_is_decimal _ := false;
|}.

Section unicode.
Context `{Unicode}.

Definition to_lowercase (s : string) : string :=
  if is_ascii s then to_ascii_lowercase s else nonascii_to_lowercase s.

Definition to_uppercase (s : string) : string :=
  if is_ascii s then to_ascii_uppercase s else nonascii_to_uppercase s.

(** The class [\d] of the [regex] crate. *)
Definition regex_digit (ch : string) : bool :=
  match ch with
  | String c "" => if is_ascii_byte c then is_digit c else nonascii_is_decimal ch
  | _ => nonascii_is_decimal ch
  end.

(** A whole-string match of [\d+]. *)
Definition regex_digits (s : string) : bool :=
  negb (is_empty s) && forallb regex_digit (chars s).
End unicode.

(** ** Identifiers *)

(** [Uuid::parse_str(value)] rendered in its canonical form. *)
Class UuidParser := uuid_canonical : string → option string.
Definition nil_uuid : string := "00000000-0000-0000-0000-000000000000".

(** ** Laws *)

Lemma byte_n_inj a b : byte_n a = byte_n b → a = b.
Proof.
  unfold byte_n. intros H.
  by rewrite <-(ascii_N_embedding a), <-(ascii_N_embedding b), H.
Qed.

Lemma byte_n_bound a : (byte_n a < 256)%N.
Proof. apply N_ascii_bounded. Qed.

Lemma str_cmp_cons a s b t :
  str_cmp (String a s) (String b t) = then_with (N.compare (byte_n a) (byte_n b)) (str_cmp s t).
Proof.
  unfold str_cmp, byte_n. simpl. unfold Ascii.compare. by destruct (N.compare _ _).
Qed.

#[global] Instance str_cmp_total : CmpTotal str_cmp.
Proof.
  split; [split|].
  - intros x. induction x as [|a x IH]; intros [|b y]; try done.
    rewrite !str_cmp_cons, (cmp_antisym N.compare (byte_n a) (byte_n b)), IH.
    by destruct (N.compare _ _).
  - intros x. induction x as [|a x IH]; intros [|b y] [|c z]; try done.
    rewrite !str_cmp_cons. intros Hxy Hyz.
    pose proof (cmp_trans N.compare (byte_n a) (byte_n b) (byte_n c)) as Ht.
    destruct (N.compare (byte_n a) (byte_n b)) eqn:E1; simpl in *; [| |done].
    + apply (cmp_eq N.compare) in E1. rewrite E1.
      destruct (N.compare (byte_n b) (byte_n c)); simpl in *; [|done|done]. by apply (IH y).
    + rewrite (cmp_lt_trans N.compare _ _ _ E1); [done|]. by destruct (N.compare (byte_n b) _).
  - intros x. induction x as [|a x IH]; intros [|b y]; try done.
    rewrite str_cmp_cons. destruct (N.compare _ _) eqn:E; simpl; try done.
    intros Hs. f_equal; [|by apply IH]. apply byte_n_inj. by apply (cmp_eq N.compare).
Qed.

Lemma str_eqb_spec a b : str_eqb a b = true ↔ a = b.
Proof. apply String.eqb_eq. Qed.

Lemma str_eqb_false a b : str_eqb a b = false ↔ a ≠ b.
Proof. apply String.eqb_neq. Qed.

Lemma opt_eqb_spec o value : opt_eqb o value = true ↔ o = Some value.
Proof. destruct o as [v|]; simpl; [|done]. rewrite str_eqb_spec. naive_solver. Qed.

Lemma is_empty_spec s : is_empty s = true ↔ s = "".
Proof. by destruct s. Qed.

Lemma is_empty_false s : is_empty s = false ↔ s ≠ "".
Proof. by destruct s. Qed.

Lemma str_app_nil_r s : s +:+ "" = s.
Proof. induction s as [|c s IH]; simpl; [done|]. by rewrite IH. Qed.

Lemma str_app_assoc a b c : (a +:+ b) +:+ c = a +:+ (b +:+ c).
Proof. induction a as [|x a IH]; simpl; [done|]. by rewrite IH. Qed.

Lemma str_app_length a b : String.length (a +:+ b) = (String.length a + String.length b)%nat.
Proof. induction a as [|x a IH]; simpl; [done|]. by rewrite IH. Qed.

Lemma str_app_inj a b c d :
  String.length a = String.length c → a +:+ b = c +:+ d → a = c ∧ b = d.
Proof.
  revert c. induction a as [|x a IH]; intros [|y c] Hl H; simpl in *; try done.
  injection H as <- H. injection Hl as Hl. destruct (IH _ Hl H) as [-> ->]. done.
Qed.

Lemma str_concat_app l1 l2 : str_concat (l1 ++ l2) = str_concat l1 +:+ str_concat l2.
Proof. induction l1 as [|x l IH]; simpl; [done|]. by rewrite IH, str_app_assoc. Qed.

Lemma str_concat_chars s : str_concat (chars s) = s.
Proof.
  induction s as [|c s IH]; [done|]. simpl.
  destruct (chars s) as [|d ds]; simpl in *; [by subst|].
  destruct (starts_with_continuation d); simpl; by rewrite IH.
Qed.

Lemma eq_ignore_ascii_case_spec a b :
  eq_ignore_ascii_case a b = true ↔ to_ascii_lowercase a = to_ascii_lowercase b.
Proof. apply String.eqb_eq. Qed.

Lemma eq_ignore_ascii_case_refl a : eq_ignore_ascii_case a a = true.
Proof. by apply eq_ignore_ascii_case_spec. Qed.

Lemma strip_prefix_spec p s r : strip_prefix p s = Some r ↔ s = p +:+ r.
Proof.
  revert s. induction p as [|a p IH]; intros s; simpl; [split; congruence|].
  destruct s as [|b s]; [done|].
  destruct (Ascii.eqb_spec a b) as [->|Hne]; [rewrite IH|]; split; congruence.
Qed.

Lemma starts_with_spec p s : starts_with p s = true ↔ ∃ r, s = p +:+ r.
Proof.
  unfold starts_with. destruct (strip_prefix p s) as [r|] eqn:E.
  - apply strip_prefix_spec in E. split; [eauto|done].
  - split; [done|]. intros [r Hr%strip_prefix_spec]. congruence.
Qed.

Lemma strip_suffix_spec p s r : strip_suffix p s = Some r ↔ s = r +:+ p.
Proof.
  revert r. induction s as [|c s IH]; intros r; simpl.
  - destruct (String.eqb_spec p "") as [->|Hne]; destruct r; simpl; split; done || congruence.
  - destruct (String.eqb_spec p (String c s)) as [->|Hne].
    + destruct r as [|d r]; simpl; [done|]. split; [done|]. intros H. exfalso.
      apply (f_equal String.length) in H. simpl in H.
      rewrite str_app_length in H. simpl in H. lia.
    + destruct r as [|d r]; simpl.
      { split; [|congruence]. by destruct (strip_suffix p s). }
      destruct (strip_suffix p s) as [q|] eqn:E; simpl.
      * specialize (IH q) as [IH _]. specialize (IH eq_refl). subst s.
        split; [intros [= -> ->]; done|]. intros [= -> H]. f_equal. f_equal.
        apply str_app_inj in H as [-> _]; [done|].
        apply (f_equal String.length) in H. rewrite !str_app_length in H. lia.
      * split; [done|]. intros [= -> H]. by apply IH in H.
Qed.

Lemma ends_with_spec p s : ends_with p s = true ↔ ∃ r, s = r +:+ p.
Proof.
  unfold ends_with. destruct (strip_suffix p s) as [r|] eqn:E.
  - apply strip_suffix_spec in E. split; [eauto|done].
  - split; [done|]. intros [r Hr%strip_suffix_spec]. congruence.
Qed.

(** *** Characters and their concatenation *)

Definition chunk_ok (ch : string) : Prop :=
  match ch with "" => False | String _ r => sforall is_continuation r = true end.
Definition boundary (s : string) : Prop := starts_with_continuation s = false.

Lemma chars_ok s :
  Forall chunk_ok (chars s) ∧ Forall boundary (tail (chars s)) ∧
  (∀ d ds, chars s = d :: ds → starts_with_continuation d = starts_with_continuation s).
Proof.
  induction s as [|c s (IH1 & IH2 & IH3)]; simpl; [done|].
  destruct (chars s) as [|d ds] eqn:E; simpl in *.
  { split_and!; [by repeat constructor|constructor|by intros ?? [= <- <-]]. }
  apply list.Forall_cons in IH1 as [Hd Hds].
  destruct (starts_with_continuation d) eqn:Ed; simpl.
  - split_and!; [constructor; [|done]|done|by intros ?? [= <- <-]].
    destruct d as [|b d]; [done|]. simpl in *. by rewrite Ed.
  - split_and!; [by repeat constructor|by constructor|by intros ?? [= <- <-]].
Qed.

Lemma chars_append_cont c s r :
  sforall is_continuation r = true → boundary s → chars (String c r +:+ s) = String c r :: chars s.
Proof.
  intros Hr Hs. revert c Hr. induction r as [|b r IH]; intros c Hr; simpl in *.
  - destruct (chars s) as [|d ds] eqn:E; [done|].
    destruct (chars_ok s) as (_ & _ & Hhd). rewrite (Hhd _ _ E).
    unfold boundary in Hs. by rewrite Hs.
  - apply andb_true_iff in Hr as [Hb Hr]. rewrite (IH b Hr). simpl. by rewrite Hb.
Qed.

Lemma boundary_concat l : Forall boundary l → Forall chunk_ok l → boundary (str_concat l).
Proof.
  destruct l as [|d l]; [done|]. intros [Hd _]%list.Forall_cons [Hc _]%list.Forall_cons.
  by destruct d.
Qed.

(** [chars] inverts concatenation on lists of well-formed characters. *)
Lemma chars_str_concat l :
  Forall chunk_ok l → Forall boundary (tail l) → chars (str_concat l) = l.
Proof.
  induction l as [|d l IH]; intros Hc Hb; [done|]. simpl in *.
  apply list.Forall_cons in Hc as [Hd Hc]. destruct d as [|c r]; [done|].
  rewrite chars_append_cont, IH; [done|done| |done|by apply boundary_concat].
  destruct l; simpl in *; [done|]. by apply list.Forall_cons in Hb as [_ ?].
Qed.

Lemma chars_sublist l s :
  (∃ a b, chars s = a ++ l ++ b) → chars (str_concat l) = l.
Proof.
  intros (a & b & E). destruct (chars_ok s) as (Hc & Hb & _). rewrite E in *.
  apply chars_str_concat.
  - apply Forall_app in Hc as [_ Hc]. by apply Forall_app in Hc as [Hc _].
  - destruct a as [|x a]; simpl in *.
    + destruct l as [|y l]; simpl in *; [done|]. by apply Forall_app in Hb as [Hb _].
    + apply Forall_app in Hb as [_ Hb]. apply Forall_app in Hb as [Hb _].
      destruct l; simpl; [done|]. by apply list.Forall_cons in Hb as [_ ?].
Qed.

Lemma drop_while_suffix {A} (p : A → bool) l :
  ∃ pre, l = pre ++ drop_while p l ∧ Forall (λ x, p x = true) pre.
Proof.
  induction l as [|x l (pre & E & Hp)]; simpl; [by exists []|].
  destruct (p x) eqn:Ex; [|by exists []].
  exists (x :: pre). simpl. rewrite <-E. split; [done|by constructor].
Qed.

Lemma drop_while_head {A} (p : A → bool) l x r : drop_while p l = x :: r → p x = false.
Proof.
  induction l as [|y l IH]; simpl; [done|]. destruct (p y) eqn:E; [done|].
  by intros [= -> ->].
Qed.

Lemma drop_while_id {A} (p : A → bool) l x : p x = false → drop_while p (x :: l) = x :: l.
Proof. intros H. simpl. by rewrite H. Qed.

Lemma drop_while_idemp {A} (p : A → bool) l : drop_while p (drop_while p l) = drop_while p l.
Proof.
  destruct (drop_while p l) as [|x r] eqn:E; [done|].
  apply drop_while_id. by eapply drop_while_head.
Qed.

Lemma drop_while_end_prefix {A} (p : A → bool) l :
  ∃ suf, l = drop_while_end p l ++ suf ∧ Forall (λ x, p x = true) suf.
Proof.
  destruct (drop_while_suffix p (reverse l)) as (pre & E & Hp).
  exists (reverse pre). unfold drop_while_end. split.
  - rewrite <-reverse_app, <-E. by rewrite reverse_involutive.
  - by rewrite reverse_Permutation.
Qed.

Lemma drop_while_end_snoc {A} (p : A → bool) l x :
  p x = false → drop_while_end p (l ++ [x]) = l ++ [x].
Proof.
  intros H. unfold drop_while_end. rewrite reverse_app. simpl. rewrite H.
  rewrite reverse_cons. rewrite reverse_involutive. done.
Qed.

Lemma trim_chars_split l :
  ∃ a b, l = a ++ trim_chars l ++ b ∧
    Forall (λ c, is_whitespace c = true) a ∧ Forall (λ c, is_whitespace c = true) b.
Proof.
  destruct (drop_while_suffix is_whitespace l) as (a & Ea & Ha).
  destruct (drop_while_end_prefix is_whitespace (drop_while is_whitespace l)) as (b & Eb & Hb).
  exists a, b. unfold trim_chars. by rewrite <-Eb, <-Ea.
Qed.

Lemma chars_trim s : chars (trim s) = trim_chars (chars s).
Proof.
  apply (chars_sublist _ s). destruct (trim_chars_split (chars s)) as (a & b & E & _ & _). eauto.
Qed.

Lemma chars_app s t : boundary t → chars (s +:+ t) = chars s ++ chars t.
Proof.
  intros Ht. rewrite <-(str_concat_chars s) at 1.
  destruct (chars_ok s) as (Hc & Hb & _). revert Hc Hb.
  induction (chars s) as [|d l IH]; intros Hc Hb; simpl in *; [done|].
  apply list.Forall_cons in Hc as [Hd Hc]. destruct d as [|c r]; [done|].
  assert (chars (str_concat l +:+ t) = l ++ chars t) as E.
  { apply IH; [done|]. destruct l; simpl in *; [done|]. by apply list.Forall_cons in Hb as [_ ?]. }
  rewrite str_app_assoc, chars_append_cont, E; [done|done|].
  destruct l as [|d l]; simpl in *; [done|]. apply list.Forall_cons in Hb as [Hb _].
  apply list.Forall_cons in Hc as [Hc _]. by destruct d.
Qed.

(** *** Trimming and splitting at white space *)

Lemma runs_skip_l p a l : Forall (λ c, p c = true) a → runs p (a ++ l) = runs p l.
Proof. induction 1 as [|x a Hx _ IH]; simpl; [done|]. by rewrite Hx. Qed.

Lemma runs_app_sep p l x r : p x = true → runs p (l ++ x :: r) = runs p l ++ runs p r.
Proof.
  intros Hx. induction l as [|c l IH]; simpl; [by rewrite Hx|].
  destruct (p c) eqn:Ec; [done|].
  destruct l as [|d l]; simpl in *; [by rewrite Hx|].
  destruct (p d) eqn:Ed; [by rewrite IH|]. rewrite IH.
  destruct (match l with [] => _ | _ => _ end) as [|r1 rs] eqn:E; [|done].
  exfalso. destruct l as [|e l]; [done|]. destruct (p e); [done|]. by destruct (runs p (e :: l)).
Qed.

Lemma runs_skip_r p l b : Forall (λ c, p c = true) b → runs p (l ++ b) = runs p l.
Proof.
  destruct b as [|x b]; [by rewrite app_nil_r|].
  intros [Hx Hb]%list.Forall_cons. rewrite runs_app_sep by done.
  rewrite <-(app_nil_r b), runs_skip_l by done. simpl. by rewrite app_nil_r.
Qed.

Lemma split_whitespace_trim s : split_whitespace (trim s) = split_whitespace s.
Proof.
  unfold split_whitespace. rewrite chars_trim.
  destruct (trim_chars_split (chars s)) as (a & b & E & Ha & Hb). rewrite E at 2.
  by rewrite runs_skip_l, runs_skip_r.
Qed.

Lemma split_whitespace_app s t :
  boundary t → split_whitespace (s +:+ " " +:+ t) = split_whitespace s ++ split_whitespace t.
Proof.
  intros Ht. unfold split_whitespace. rewrite (chars_app s) by done.
  change (" " +:+ t) with (String " " "" +:+ t).
  rewrite (chars_append_cont " " t "") by done.
  rewrite runs_app_sep by done. apply fmap_app.
Qed.

Lemma trim_empty_split s : trim s = "" → split_whitespace s = [].
Proof. intros H. by rewrite <-split_whitespace_trim, H. Qed.

Lemma trim_chars_idemp l : trim_chars (trim_chars l) = trim_chars l.
Proof.
  unfold trim_chars at 2 3.
  destruct (drop_while_end_prefix is_whitespace (drop_while is_whitespace l)) as (b & E & _).
  remember (drop_while_end is_whitespace (drop_while is_whitespace l)) as k eqn:Hk.
  unfold trim_chars. destruct k as [|x k]; [done|].
  assert (is_whitespace x = false) as Hx by (by eapply drop_while_head).
  rewrite drop_while_id by done. rewrite Hk. unfold drop_while_end.
  by rewrite reverse_involutive, drop_while_idemp.
Qed.

Lemma trim_idemp s : trim (trim s) = trim s.
Proof. unfold trim at 1. rewrite chars_trim, trim_chars_idemp. done. Qed.

(** *** ASCII text *)

Lemma lower_byte_ascii c : is_ascii_byte (lower_byte c) = is_ascii_byte c.
Proof. by destruct c as [[] [] [] [] [] [] [] []]. Qed.

Lemma is_ascii_lower s : is_ascii (to_ascii_lowercase s) = is_ascii s.
Proof.
  unfold is_ascii, to_ascii_lowercase. induction s as [|c s IH]; simpl; [done|].
  by rewrite IH, lower_byte_ascii.
Qed.

Lemma ascii_not_continuation c : is_ascii_byte c = true → is_continuation c = false.
Proof.
  unfold is_ascii_byte, is_continuation. rewrite N.ltb_lt. intros H.
  apply andb_false_iff. left. by apply N.leb_gt.
Qed.

Lemma sforall_impl (p q : ascii → bool) s :
  (∀ c, p c = true → q c = true) → sforall p s = true → sforall q s = true.
Proof.
  intros Hpq. induction s as [|c s IH]; simpl; [done|].
  intros [Hc Hs]%andb_true_iff. by rewrite Hpq, IH.
Qed.

Lemma sforall_app p s t : sforall p (s +:+ t) = sforall p s && sforall p t.
Proof. induction s as [|c s IH]; simpl; [done|]. by rewrite IH, andb_assoc. Qed.

Lemma is_ascii_boundary s : is_ascii s = true → boundary s.
Proof.
  unfold is_ascii, boundary. destruct s as [|c s]; simpl; [done|].
  intros [Hc _]%andb_true_iff. by apply ascii_not_continuation.
Qed.

Fixpoint bytes_of (s : string) : list ascii :=
  match s with "" => [] | String c s => c :: bytes_of s end.

Definition char1 (c : ascii) : string := String c "".

Lemma chars_ascii s : is_ascii s = true → chars s = char1 <$> bytes_of s.
Proof.
  induction s as [|c s IH]; [done|]. unfold is_ascii in *. simpl.
  intros [Hc Hs]%andb_true_iff. rewrite IH by done.
  destruct s as [|d s]; simpl in *; [done|].
  apply andb_true_iff in Hs as [Hd _]. by rewrite ascii_not_continuation.
Qed.

(** An ASCII word: no white space. *)
Definition plain_word (s : string) : bool :=
  sforall (λ c, is_ascii_byte c && negb (is_whitespace (char1 c))) s.

Lemma plain_word_ascii s : plain_word s = true → is_ascii s = true.
Proof. apply sforall_impl. intros c. by intros [? _]%andb_true_iff. Qed.

Lemma plain_word_chars s :
  plain_word s = true → Forall (λ c, is_whitespace c = false) (chars s).
Proof.
  intros Hs. rewrite (chars_ascii s) by (by apply plain_word_ascii).
  induction s as [|c s IH]; simpl; [constructor|]. unfold plain_word in Hs. simpl in Hs.
  apply andb_true_iff in Hs as [Hc Hs]. apply andb_true_iff in Hc as [_ Hc].
  constructor; [by apply negb_true_iff|]. by apply IH.
Qed.

Lemma runs_word p l : l ≠ [] → Forall (λ c, p c = false) l → runs p l = [l].
Proof.
  intros Hne H. induction H as [|x l Hx Hl IH]; [done|]. simpl. rewrite Hx.
  destruct l as [|y l]; [done|]. pose proof Hl as Hl'.
  apply list.Forall_cons in Hl' as [Hy _]. rewrite Hy, IH; done.
Qed.

Lemma split_whitespace_word s : plain_word s = true → s ≠ "" → split_whitespace s = [s].
Proof.
  intros Hs Hne. unfold split_whitespace. rewrite runs_word.
  - simpl. by rewrite str_concat_chars.
  - intros E. apply Hne. by rewrite <-(str_concat_chars s), E.
  - by apply plain_word_chars.
Qed.

Lemma drop_while_none {A} (p : A → bool) l : Forall (λ x, p x = false) l → drop_while p l = l.
Proof. destruct 1 as [|x l Hx _]; [done|]. simpl. by rewrite Hx. Qed.

Lemma trim_plain_word s : plain_word s = true → trim s = s.
Proof.
  intros Hs. apply plain_word_chars in Hs. unfold trim, trim_chars, drop_while_end.
  rewrite (drop_while_none _ (chars s)) by done. rewrite drop_while_none by
    by rewrite reverse_Permutation.
  by rewrite reverse_involutive, str_concat_chars.
Qed.

(** *** Splitting at a separator and joining again *)

Definition no_byte (sep : ascii) (s : string) : bool := sforall (λ c, negb (Ascii.eqb c sep)) s.

Lemma split_on_ne sep s : split_on sep s ≠ [].
Proof.
  induction s as [|c s IH]; simpl; [done|]. destruct (Ascii.eqb c sep); [done|].
  by destruct (split_on sep s).
Qed.

Lemma split_on_parts sep s : Forall (λ p, no_byte sep p = true) (split_on sep s).
Proof.
  unfold no_byte. induction s as [|c s IH]; simpl; [by repeat constructor|].
  destruct (Ascii.eqb c sep) eqn:E; [by constructor|].
  pose proof (split_on_ne sep s) as Hne. destruct (split_on sep s) as [|p ps]; [done|].
  apply list.Forall_cons in IH as [Hp Hps]. constructor; [|done]. simpl. by rewrite E, Hp.
Qed.

Lemma split_on_cons_sep sep s : split_on sep (String sep s) = "" :: split_on sep s.
Proof. simpl. by rewrite Ascii.eqb_refl. Qed.

Lemma split_on_app sep p s :
  no_byte sep p = true → split_on sep (p +:+ String sep s) = p :: split_on sep s.
Proof.
  unfold no_byte. induction p as [|c p IH]; simpl; intros Hp; [by rewrite Ascii.eqb_refl|].
  apply andb_true_iff in Hp as [Hc Hp]. apply negb_true_iff in Hc. by rewrite Hc, IH.
Qed.

Lemma split_on_single sep p : no_byte sep p = true → split_on sep p = [p].
Proof.
  unfold no_byte. induction p as [|c p IH]; simpl; intros Hp; [done|].
  apply andb_true_iff in Hp as [Hc Hp]. apply negb_true_iff in Hc. by rewrite Hc, IH.
Qed.

Lemma str_join_cons sep p q l : str_join sep (p :: q :: l) = p +:+ sep +:+ str_join sep (q :: l).
Proof. done. Qed.

Lemma split_on_join sep l :
  l ≠ [] → Forall (λ p, no_byte sep p = true) l → split_on sep (str_join (char1 sep) l) = l.
Proof.
  intros Hne Hl. induction Hl as [|p l Hp Hl IH]; [done|].
  destruct l as [|q l]; [by apply split_on_single|].
  rewrite str_join_cons. change (char1 sep +:+ ?r) with (String sep r).
  rewrite split_on_app by done. by rewrite IH.
Qed.

Lemma join_split_on sep s : str_join (char1 sep) (split_on sep s) = s.
Proof.
  induction s as [|c s IH]; simpl; [done|].
  pose proof (split_on_ne sep s) as Hne.
  destruct (Ascii.eqb c sep) eqn:E.
  - apply Ascii.eqb_eq in E as ->. destruct (split_on sep s) as [|p ps]; [done|].
    rewrite str_join_cons, IH. done.
  - destruct (split_on sep s) as [|p ps]; [done|]. destruct ps as [|q ps].
    + simpl in *. by rewrite IH.
    + rewrite str_join_cons in *. simpl. by rewrite <-IH.
Qed.

Lemma contains_byte c s : contains (char1 c) s = negb (no_byte c s).
Proof.
  unfold no_byte. induction s as [|d s IH]; simpl; [done|].
  rewrite IH. unfold starts_with. simpl. rewrite (Ascii.eqb_sym c d).
  by destruct (Ascii.eqb d c).
Qed.

Lemma no_byte_join c sep l :
  no_byte c sep = true → Forall (λ p, no_byte c p = true) l → no_byte c (str_join sep l) = true.
Proof.
  intros Hs Hl. induction Hl as [|p l Hp Hl IH]; [done|].
  destruct l as [|q l]; [done|]. rewrite str_join_cons. unfold no_byte in *.
  by rewrite !sforall_app, Hp, Hs, IH.
Qed.

Lemma to_ascii_lowercase_app a b :
  to_ascii_lowercase (a +:+ b) = to_ascii_lowercase a +:+ to_ascii_lowercase b.
Proof. unfold to_ascii_lowercase. induction a as [|c a IH]; simpl; [done|]. by rewrite IH. Qed.

Lemma is_ascii_app a b : is_ascii (a +:+ b) = is_ascii a && is_ascii b.
Proof. apply sforall_app. Qed.

Lemma str_len_nonneg s : 0 ≤ str_len s.
Proof. unfold str_len. lia. Qed.

(** *** Decimal numbers *)

Fixpoint digits_from (acc : Z) (s : string) : Z :=
  match s with "" => acc | String c s => digits_from (10 * acc + digit_value c) s end.

Lemma digits_value_from s : digits_value s = digits_from 0 s.
Proof. done. Qed.

Lemma digits_from_app a s t : digits_from a (s +:+ t) = digits_from (digits_from a s) t.
Proof. revert a. induction s as [|c s IH]; intros a; simpl; [done|]. apply IH. Qed.

Lemma digit_of_N n :
  0 ≤ n < 10 →
  is_digit (ascii_of_N (Z.to_N n + 48)) = true ∧ digit_value (ascii_of_N (Z.to_N n + 48)) = n.
Proof.
  intros Hn. unfold is_digit, digit_value, byte_n.
  rewrite N_ascii_embedding by lia. rewrite andb_true_iff, !N.leb_le. lia.
Qed.

Lemma nat_digits_spec fuel n acc :
  0 ≤ n < 10 ^ Z.of_nat fuel →
  (0 < fuel)%nat →
  ∃ d, nat_digits fuel n acc = d +:+ acc ∧ all_digits d = true ∧ digits_value d = n.
Proof.
  revert n acc. induction fuel as [|fuel IH]; intros n acc Hn Hf; [lia|].
  cbn [nat_digits]. set (c := ascii_of_N (Z.to_N (n mod 10) + 48)).
  pose proof (Z.mod_pos_bound n 10) as Hm.
  destruct (digit_of_N (n mod 10)) as [Hd Hv]; [lia|]. fold c in Hd, Hv.
  destruct (n <? 10) eqn:E.
  - apply Z.ltb_lt in E. exists (char1 c). split; [done|].
    unfold all_digits, digits_value. cbn [is_empty char1 sforall negb andb].
    rewrite Hd, Hv, Z.mod_small by lia. split; [done|lia].
  - apply Z.ltb_ge in E. rewrite Nat2Z.inj_succ, Z.pow_succ_r in Hn by lia.
    assert (0 < n / 10) by (apply Z.div_str_pos; lia).
    assert (n / 10 < 10 ^ Z.of_nat fuel) by (apply Z.div_lt_upper_bound; lia).
    destruct fuel as [|fuel]; [change (10 ^ Z.of_nat 0) with 1 in *; lia|].
    destruct (IH (n / 10) (String c acc)) as (d & -> & Ha & Hval); [lia|lia|].
    exists (d +:+ char1 c). split; [by rewrite str_app_assoc|].
    apply andb_true_iff in Ha as [Hne Ha]. split.
    + unfold all_digits. rewrite sforall_app, Ha. cbn [sforall char1]. rewrite Hd. by destruct d.
    + rewrite digits_value_from, digits_from_app, <-digits_value_from, Hval.
      cbn [digits_from char1]. rewrite Hv. rewrite (Z.div_mod n 10) at 3 by lia. lia.
Qed.

Lemma display_Z_spec n :
  0 ≤ n ≤ u64_max → all_digits (display_Z n) = true ∧ digits_value (display_Z n) = n.
Proof.
  intros Hn. destruct (nat_digits_spec 20 n "") as (d & E & ? & ?).
  - unfold u64_max in Hn. change (10 ^ Z.of_nat 20) with 100000000000000000000. lia.
  - lia.
  - unfold display_Z. rewrite E, str_app_nil_r. done.
Qed.

Lemma parse_unsigned_display max n :
  0 ≤ n ≤ max → max ≤ u64_max → parse_unsigned max (display_Z n) = Some n.
Proof.
  intros Hn Hmax. destruct (display_Z_spec n) as [Ha Hv]; [lia|].
  unfold parse_unsigned. destruct (display_Z n) as [|c s] eqn:E; [done|].
  assert (is_digit c = true) as Hc.
  { unfold all_digits in Ha. simpl in Ha. by apply andb_true_iff in Ha as [? _]. }
  assert (match String c s with String "+" s' => s' | _ => String c s end = String c s) as ->.
  { by destruct c as [[] [] [] [] [] [] [] []]. }
  rewrite Ha, Hv. by rewrite (proj2 (Z.leb_le n max)) by lia.
Qed.

(** ** Integers as bytes *)

(** [to_be_bytes] of an integer of that many bytes. *)
Fixpoint be_bytes (width : nat) (n : Z) : string :=
  match width with
  | O => ""
  | S width => be_bytes width (n / 256) +:+ String (ascii_of_N (Z.to_N (n mod 256))) ""
  end.

Fixpoint from_be_bytes_acc (acc : Z) (s : string) : Z :=
  match s with "" => acc | String c s => from_be_bytes_acc (acc * 256 + Z.of_N (byte_n c)) s end.

(** [from_be_bytes]. *)
Definition from_be_bytes (s : string) : Z := from_be_bytes_acc 0 s.

Lemma be_bytes_length w n : String.length (be_bytes w n) = w.
Proof.
  revert n. induction w as [|w IH]; intros n; [done|]. cbn [be_bytes].
  rewrite str_app_length, IH. simpl. lia.
Qed.

Lemma ascii_of_N_inj a b : (a < 256)%N → (b < 256)%N → ascii_of_N a = ascii_of_N b → a = b.
Proof. intros Ha Hb E. by rewrite <-(N_ascii_embedding a Ha), E, N_ascii_embedding. Qed.

Lemma be_bytes_inj w m n :
  0 ≤ m < 256 ^ Z.of_nat w → 0 ≤ n < 256 ^ Z.of_nat w → be_bytes w m = be_bytes w n → m = n.
Proof.
  revert m n. induction w as [|w IH]; intros m n Hm Hn.
  { change (256 ^ Z.of_nat 0) with 1 in *. lia. }
  rewrite Nat2Z.inj_succ, Z.pow_succ_r in Hm, Hn by lia. cbn [be_bytes].
  intros [E1 E2]%str_app_inj; [|by rewrite !be_bytes_length].
  injection E2 as E2.
  pose proof (Z.mod_pos_bound m 256). pose proof (Z.mod_pos_bound n 256).
  apply ascii_of_N_inj in E2; [|lia..].
  assert (m / 256 = n / 256) as Eq.
  { apply IH; [split; [apply Z.div_pos; lia|apply Z.div_lt_upper_bound; lia]..|done]. }
  rewrite (Z.div_mod m 256), (Z.div_mod n 256) by lia. lia.
Qed.

Lemma from_be_bytes_acc_app acc s t :
  from_be_bytes_acc acc (s +:+ t) = from_be_bytes_acc (from_be_bytes_acc acc s) t.
Proof. revert acc. induction s as [|c s IH]; intros acc; simpl; [done|apply IH]. Qed.

Lemma from_to_be_bytes w n : 0 ≤ n < 256 ^ Z.of_nat w → from_be_bytes (be_bytes w n) = n.
Proof.
  unfold from_be_bytes. revert n. induction w as [|w IH]; intros n Hn.
  { change (256 ^ Z.of_nat 0) with 1 in *. simpl. lia. }
  rewrite Nat2Z.inj_succ, Z.pow_succ_r in Hn by lia. cbn [be_bytes].
  rewrite from_be_bytes_acc_app, IH.
  - cbn [from_be_bytes_acc]. unfold byte_n. pose proof (Z.mod_pos_bound n 256).
    rewrite N_ascii_embedding by lia. rewrite Z2N.id by lia. rewrite (Z.div_mod n 256) at 3 by lia. lia.
  - split; [apply Z.div_pos; lia|apply Z.div_lt_upper_bound; lia].
Qed.

(** [str::from_utf8] succeeds on these bytes. *)
Definition in_bytes (c : ascii) (lo hi : N) : bool := (lo <=? byte_n c)%N && (byte_n c <=? hi)%N.

Fixpoint valid_utf8 (s : string) : bool :=
  match s with
  | "" => true
  | String a s =>
      if is_ascii_byte a then valid_utf8 s
      else
        match s with
        | "" => false
        | String b s =>
            if in_bytes a 194 223 && in_bytes b 128 191 then valid_utf8 s
            else
              match s with
              | "" => false
              | String c s =>
                  if ((in_bytes a 224 224 && in_bytes b 160 191) ||
                      (in_bytes a 225 236 && in_bytes b 128 191) ||
                      (in_bytes a 237 237 && in_bytes b 128 159) ||
                      (in_bytes a 238 239 && in_bytes b 128 191)) && in_bytes c 128 191
                  then valid_utf8 s
                  else
                    match s with
                    | "" => false
                    | String d s =>
                        ((in_bytes a 240 240 && in_bytes b 144 191) ||
                         (in_bytes a 241 243 && in_bytes b 128 191) ||
                         (in_bytes a 244 244 && in_bytes b 128 143)) &&
                        in_bytes c 128 191 && in_bytes d 128 191 && valid_utf8 s
                    end
              end
        end
  end.

(** [split_at], for an index within the text. *)
Fixpoint split_at (n : nat) (s : string) : string * string :=
  match n, s with
  | S n, String c s => let '(l, r) := split_at n s in (String c l, r)
  | _, _ => ("", s)
  end.

Lemma split_at_app a b : split_at (String.length a) (a +:+ b) = (a, b).
Proof. induction a as [|c a IH]; simpl; [by destruct b|]. by rewrite IH. Qed.

Lemma split_at_spec n s l r : split_at n s = (l, r) → s = l +:+ r.
Proof.
  revert s l. induction n as [|n IH]; intros [|c s] l; simpl; try (by intros [= <- <-]).
  destruct (split_at n s) as [l' r'] eqn:E. intros [= <- <-]. simpl. by rewrite (IH s l').
Qed.

(** ** Replacing *)

(** [str::replace] for a pattern that is not empty: the occurrences from the
    left, none overlapping another; [skip] bytes of the last one are left. *)
Fixpoint replace_from (pat by_ : string) (skip : nat) (s : string) : string :=
  match s with
  | "" => ""
  | String c s' =>
      match skip with
      | S skip => replace_from pat by_ skip s'
      | O =>
          if starts_with pat s then by_ +:+ replace_from pat by_ (pred (String.length pat)) s'
          else String c (replace_from pat by_ 0 s')
      end
  end.

Definition str_replace (s pat by_ : string) : string := replace_from pat by_ 0 s.

Lemma replace_skip pat by_ a s : replace_from pat by_ (String.length a) (a +:+ s) = replace_from pat by_ 0 s.
Proof. induction a as [|c a IH]; simpl; [by destruct s|done]. Qed.

(** A pattern at the front is replaced. *)
Lemma replace_at pat by_ s :
  pat ≠ "" → str_replace (pat +:+ s) pat by_ = by_ +:+ str_replace s pat by_.
Proof.
  intros Hp. unfold str_replace. destruct pat as [|c pat]; [done|].
  assert (starts_with (String c pat) (String c pat +:+ s) = true) as Hs
    by (apply starts_with_spec; by exists s).
  change (String c pat +:+ s) with (String c (pat +:+ s)) in *. cbn [replace_from]. rewrite Hs.
  cbn [String.length pred]. by rewrite replace_skip.
Qed.

(** Text without the pattern's first byte is copied. *)
Lemma replace_copy c pat by_ a s :
  no_byte c a = true →
  str_replace (a +:+ s) (String c pat) by_ = a +:+ str_replace s (String c pat) by_.
Proof.
  unfold str_replace, no_byte. induction a as [|d a IH]; [done|]. cbn [sforall String.append].
  intros [Hd Ha]%andb_true_iff. cbn [replace_from].
  assert (starts_with (String c pat) (String d (a +:+ s)) = false) as ->.
  { apply not_true_is_false. intros [r Hr]%starts_with_spec. injection Hr as Hr _.
    apply negb_true_iff, Ascii.eqb_neq in Hd. congruence. }
  f_equal. by apply IH.
Qed.

(** The front byte is copied where the pattern does not match. *)
Lemma replace_step pat by_ c s :
  starts_with pat (String c s) = false →
  str_replace (String c s) pat by_ = String c (str_replace s pat by_).
Proof. unfold str_replace. cbn [replace_from]. by intros ->. Qed.
