(* ===== verification/RustText.v ===== *)
(** * More of Rust's string functions

    Searching for substrings, lines, lossy decoding and splitting at predicates, used by the
    code that reads what the game prints.  Texts are the [string]s of their
    bytes, as in [RustStr]. *)

From S2P Require Import Prelude RustStr.

Open Scope string_scope.
Open Scope list_scope.
Open Scope Z_scope.

(** ** Searching *)

(** [str::split_once] at a text: the parts around its first occurrence. *)
Fixpoint split_once_at (pat s : string) : option (string * string) :=
  match strip_prefix pat s with
  | Some r => Some ("", r)
  | None =>
      match s with
      | "" => None
      | String c s => '(a, b) ← split_once_at pat s; Some (String c a, b)
      end
  end.

(** [str::rsplit_once] at a text: the parts around its last occurrence. *)
Fixpoint rsplit_once_at (pat s : string) : option (string * string) :=
  match s with
  | "" => (λ r, ("", r)) <$> strip_prefix pat ""
  | String c s' =>
      match rsplit_once_at pat s' with
      | Some (a, b) => Some (String c a, b)
      | None => (λ r, ("", r)) <$> strip_prefix pat s
      end
  end.

(** Some needle occurs. *)
Definition contains_any (needles : list string) (s : string) : bool :=
  existsb (λ needle, contains needle s) needles.

(** ** Splitting *)

(** [str::split] at every character that satisfies [p]. *)
Fixpoint split_chars (p : string → bool) (l : list string) : list (list string) :=
  match l with
  | [] => [[]]
  | c :: l =>
      if p c then [] :: split_chars p l
      else match split_chars p l with
           | r :: rs => (c :: r) :: rs
           | [] => [[c]]
           end
  end.

Definition split_by (p : string → bool) (s : string) : list string :=
  str_concat <$> split_chars p (chars s).

(** [str::split_ascii_whitespace]. *)
Definition split_ascii_whitespace (s : string) : list string :=
  str_concat <$> runs (char_is is_ascii_whitespace) (chars s).

(** [str::trim_matches]. *)
Definition trim_matches (p : string → bool) (s : string) : string :=
  str_concat (drop_while_end p (drop_while p (chars s))).

Definition newline : ascii := "010"%char.
Definition carriage_return : ascii := "013"%char.

(** A terminated line without its terminator, [\n] or [\r\n]. *)
Definition strip_return (line : string) : string :=
  default line (strip_suffix (char1 carriage_return) line).

(** The lines of the parts between newlines: the last part has no
    terminator, and is no line when it is empty. *)
Fixpoint lines_of (parts : list string) : list string :=
  match parts with
  | [] => []
  | [last] => if is_empty last then [] else [last]
  | p :: ps => strip_return p :: lines_of ps
  end.

(** [str::lines]. *)
Definition str_lines (s : string) : list string := lines_of (split_on newline s).

(** [chars().take(n).collect()]. *)
Definition take_chars (n : nat) (s : string) : string := str_concat (take n (chars s)).

(** [slice[..slice.len().min(n)]] of bytes. *)
Definition take_bytes (n : Z) (s : string) : string := (split_at (Z.to_nat n) s).1.

(** ** Lossy decoding *)

(** U+FFFD. *)
Definition replacement : string := bytes [239; 191; 189]%N.

(** The second byte fits a lead byte of a sequence of three, of four. *)
Definition second_of_three (a b : ascii) : bool :=
  (in_bytes a 224 224 && in_bytes b 160 191) || (in_bytes a 225 236 && in_bytes b 128 191) ||
  (in_bytes a 237 237 && in_bytes b 128 159) || (in_bytes a 238 239 && in_bytes b 128 191).
Definition second_of_four (a b : ascii) : bool :=
  (in_bytes a 240 240 && in_bytes b 144 191) || (in_bytes a 241 243 && in_bytes b 128 191) ||
  (in_bytes a 244 244 && in_bytes b 128 143).

(** [String::from_utf8_lossy]: every maximal prefix of a sequence that does
    not go on becomes one replacement character. *)
Fixpoint from_utf8_lossy (s : string) : string :=
  match s with
  | "" => ""
  | String a s =>
      if is_ascii_byte a then String a (from_utf8_lossy s)
      else
        match s with
        | "" => replacement
        | String b s1 =>
            if in_bytes a 194 223 && in_bytes b 128 191 then
              String a (String b (from_utf8_lossy s1))
            else if second_of_three a b then
              match s1 with
              | "" => replacement
              | String c s2 =>
                  if in_bytes c 128 191 then String a (String b (String c (from_utf8_lossy s2)))
                  else replacement +:+ from_utf8_lossy s1
              end
            else if second_of_four a b then
              match s1 with
              | "" => replacement
              | String c s2 =>
                  if in_bytes c 128 191 then
                    match s2 with
                    | "" => replacement
                    | String d s3 =>
                        if in_bytes d 128 191 then
                          String a (String b (String c (String d (from_utf8_lossy s3))))
                        else replacement +:+ from_utf8_lossy s2
                    end
                  else replacement +:+ from_utf8_lossy s1
              end
            else replacement +:+ from_utf8_lossy s
        end
  end.

(** ** Laws of searching *)

Lemma contains_spec needle s : contains needle s = true ↔ ∃ a b, s = a +:+ needle +:+ b.
Proof.
  induction s as [|c s IH]; cbn [contains]; rewrite orb_true_iff, starts_with_spec.
  - split; [intros [[r Hr]|]; [by exists "", r|done]|].
    intros (a & b & E). left. destruct a; [by exists b|done].
  - rewrite IH. split.
    + intros [[r ->]|(a & b & ->)]; [by exists "", r|by exists (String c a), b].
    + intros ([|c' a] & b & E); [left; by exists b|]. injection E as -> ->. right. by exists a, b.
Qed.

Lemma contains_app_l needle a s : contains needle s = true → contains needle (a +:+ s) = true.
Proof.
  rewrite !contains_spec. intros (x & y & ->). exists (a +:+ x), y. by rewrite str_app_assoc.
Qed.

Lemma contains_app_r needle a s : contains needle s = true → contains needle (s +:+ a) = true.
Proof.
  rewrite !contains_spec. intros (x & y & ->). exists x, (y +:+ a).
  by rewrite <-!str_app_assoc, !(str_app_assoc _ y a).
Qed.

Lemma contains_trans a b s : contains a b = true → contains b s = true → contains a s = true.
Proof.
  intros Hab (x & y & ->)%contains_spec. by apply contains_app_l, contains_app_r.
Qed.

Lemma split_once_at_spec pat s a b : split_once_at pat s = Some (a, b) → s = a +:+ pat +:+ b.
Proof.
  revert a b. induction s as [|c s IH]; intros a b; cbn [split_once_at].
  - destruct (strip_prefix pat "") as [r|] eqn:E; [|done].
    intros [= <- <-]. by apply strip_prefix_spec in E.
  - destruct (strip_prefix pat (String c s)) as [r|] eqn:E.
    { intros [= <- <-]. by apply strip_prefix_spec in E. }
    destruct (split_once_at pat s) as [[a' b']|]; [|done]. simpl. intros [= <- <-].
    simpl. f_equal. by apply IH.
Qed.

Lemma rsplit_once_at_spec pat s a b : rsplit_once_at pat s = Some (a, b) → s = a +:+ pat +:+ b.
Proof.
  revert a b. induction s as [|c s IH]; intros a b; cbn [rsplit_once_at].
  - destruct (strip_prefix pat "") as [r|] eqn:E; [|done].
    intros [= <- <-]. by apply strip_prefix_spec in E.
  - destruct (rsplit_once_at pat s) as [[a' b']|].
    { intros [= <- <-]. simpl. f_equal. by apply IH. }
    destruct (strip_prefix pat (String c s)) as [r|] eqn:E; [|done].
    intros [= <- <-]. by apply strip_prefix_spec in E.
Qed.

(** ** Laws of decoding *)

Lemma from_utf8_lossy_valid s : valid_utf8 s = true → from_utf8_lossy s = s.
Proof.
  remember (String.length s) as n eqn:Hn.
  revert s Hn. induction (lt_wf n) as [n _ IH]. intros s -> Hs.
  assert (∀ r, (String.length r < String.length s)%nat → valid_utf8 r = true →
    from_utf8_lossy r = r) as IH' by (intros r Hr; by apply (IH _ Hr)).
  clear IH. destruct s as [|a s]; [done|]. cbn [valid_utf8 from_utf8_lossy] in *.
  destruct (is_ascii_byte a) eqn:Ea. { f_equal. apply IH'; [simpl; lia|done]. }
  destruct s as [|b s]; [done|].
  destruct (in_bytes a 194 223 && in_bytes b 128 191) eqn:E2.
  { do 2 f_equal. apply IH'; [simpl; lia|done]. }
  destruct s as [|c s]; [done|].
  fold (second_of_three a b) in Hs. destruct (second_of_three a b) eqn:E3; cbn [andb] in Hs.
  - destruct (in_bytes c 128 191) eqn:Ec.
    { do 3 f_equal. apply IH'; [simpl; lia|done]. }
    exfalso. destruct s as [|d s]; [done|]. by rewrite andb_false_r in Hs.
  - destruct s as [|d s]; [done|].
    fold (second_of_four a b) in Hs. apply andb_true_iff in Hs as [[[-> ->]%andb_true_iff Hd]%andb_true_iff Hs].
    rewrite Hd. do 4 f_equal. apply IH'; [simpl; lia|done].
Qed.

(** A text does not start within a character. *)
Lemma valid_utf8_boundary s : valid_utf8 s = true → boundary s.
Proof.
  destruct s as [|a s]; [done|]. cbn [valid_utf8]. unfold boundary. cbn [starts_with_continuation].
  intros Hs. apply not_true_iff_false. unfold is_continuation. intros [H1 H2]%andb_true_iff.
  apply N.leb_le in H1. apply N.ltb_lt in H2.
  assert (is_ascii_byte a = false) as Ha by (apply N.ltb_ge; lia). rewrite Ha in Hs.
  assert (∀ lo hi, (192 ≤ lo)%N → in_bytes a lo hi = false) as Hlo.
  { intros lo hi Hl. unfold in_bytes. apply andb_false_iff. left. apply N.leb_gt. lia. }
  destruct s as [|b s]; [done|]. rewrite !Hlo in Hs by lia. cbn [andb orb] in Hs.
  destruct s as [|c s]; [done|]. rewrite ?Hlo in Hs by lia. cbn [andb orb] in Hs.
  by destruct s.
Qed.
