(* ===== verification/RustFloat.v ===== *)
(** * Rust's [f64]

    Binary64 floats as in the standard library's specification ([SpecFloat]),
    which computes their operations. *)

From Stdlib Require Import SpecFloat.
From S2P Require Import Prelude.

Definition f64 : Type := spec_float.
#[global] Instance f64_eq_dec : EqDecision f64.
Proof. solve_decision. Defined.

(** The float of an integer: a literal, or [as f64]. *)
Definition f64_of_Z (n : Z) : f64 := binary_normalize 53 1024 n 0 false.

Definition is_finite (value : f64) : bool :=
  match value with S754_zero _ | S754_finite _ _ _ => true | _ => false end.

Definition f64_mul : f64 → f64 → f64 := SFmul 53 1024.
Definition f64_div : f64 → f64 → f64 := SFdiv 53 1024.

(** [==], which identifies the zeros and no NaN with anything. *)
Definition f64_eqb : f64 → f64 → bool := SFeqb.

Lemma f64_eqb_refl x : is_finite x = true → f64_eqb x x = true.
Proof.
  unfold f64_eqb, SFeqb, SFcompare. destruct x as [s| | |[] m e]; try done; intros _;
    rewrite Z.compare_refl; cbn; by rewrite Pos.compare_cont_refl.
Qed.
