(* ===== verification/PerfTypes.v ===== *)
(** * Data of the performance crate ([core/performance/src/types/mod.rs])

    The plan, manifest and installed-state types that the resolver, the
    validator, the status view and the install planner share.  [i32] and
    [u64] fields are [Z]; serialisation is not modelled. *)

From S2P Require Import Prelude RustStr.

Inductive VersionFamily := FamilyA | FamilyB | FamilyC | FamilyD | FamilyE | FamilyF.
Inductive PerformanceMode := Managed | Vanilla | Custom.
Inductive CompositionTier := Extended | Core | VanillaEnhanced.
Inductive ManagedArtifactRole := Root | RequiredDependency.
Inductive ModCondition := Always | Hardware | VersionRange | Recommend.
Inductive EmergencyDisableTarget := Composition | Artifact.
Inductive OwnershipClass := CompositionManaged | UserManaged.
Inductive ManagedArtifactType := Mod.
Inductive ManagedArtifactProvider := Modrinth.
Inductive ManagedArtifactChecksumPolicy := ProviderSha512.

#[global] Instance VersionFamily_eq_dec : EqDecision VersionFamily.
Proof. solve_decision. Defined.
#[global] Instance PerformanceMode_eq_dec : EqDecision PerformanceMode.
Proof. solve_decision. Defined.
#[global] Instance CompositionTier_eq_dec : EqDecision CompositionTier.
Proof. solve_decision. Defined.
#[global] Instance ManagedArtifactRole_eq_dec : EqDecision ManagedArtifactRole.
Proof. solve_decision. Defined.
#[global] Instance ModCondition_eq_dec : EqDecision ModCondition.
Proof. solve_decision. Defined.
#[global] Instance EmergencyDisableTarget_eq_dec : EqDecision EmergencyDisableTarget.
Proof. solve_decision. Defined.
#[global] Instance OwnershipClass_eq_dec : EqDecision OwnershipClass.
Proof. solve_decision. Defined.
#[global] Instance ManagedArtifactType_eq_dec : EqDecision ManagedArtifactType.
Proof. solve_decision. Defined.
#[global] Instance ManagedArtifactProvider_eq_dec : EqDecision ManagedArtifactProvider.
Proof. solve_decision. Defined.
#[global] Instance ManagedArtifactChecksumPolicy_eq_dec :
  EqDecision ManagedArtifactChecksumPolicy.
Proof. solve_decision. Defined.

Record ManagedArtifactSource := { source_provider : ManagedArtifactProvider }.

Record ManagedArtifactDefinitionSource := {
  ds_provider : ManagedArtifactProvider;
  ds_project_id : string;
  ds_slug : string;
}.

Record ManagedArtifactDefinition := {
  ad_id : string;
  ad_artifact_type : ManagedArtifactType;
  ad_source : ManagedArtifactDefinitionSource;
  ad_checksum_policy : ManagedArtifactChecksumPolicy;
  ad_ownership_class : OwnershipClass;
}.

Record ManagedArtifactIntegrity := { int_sha512 : string }.

Record HardwareRequirement := {
  req_gpu_vendor : string;
  req_gpu_arch_min : Z;
  req_min_ram_mb : Z;
  req_min_cores : Z;
}.

Record ManagedMod := {
  mm_artifact_id : string;
  mm_project_id : string;
  mm_slug : string;
  mm_name : string;
  mm_condition : ModCondition;
  mm_version_range : string;
  mm_exact_game_versions : list string;
  mm_hardware_req : option HardwareRequirement;
  mm_mutual_exclusions : list string;
}.

Record CompositionPlan := {
  plan_composition_id : string;
  plan_family : VersionFamily;
  plan_loader : string;
  plan_mode : PerformanceMode;
  plan_tier : CompositionTier;
  plan_mods : list ManagedMod;
  plan_jvm_preset : string;
  plan_warnings : list string;
  plan_fallback_reason : string;
}.

Record HardwareProfile := {
  hw_total_ram_mb : Z;
  hw_logical_cores : Z;
  hw_gpu_vendor : string;
  hw_gpu_arch : Z;
}.

Record ResolutionRequest := {
  rr_game_version : string;
  rr_loader : string;
  rr_mode : PerformanceMode;
  rr_hardware : HardwareProfile;
  rr_installed_mods : list string;
}.

Record CompositionDef := {
  cd_id : string;
  cd_display_name : string;
  cd_description : string;
  cd_families : list VersionFamily;
  cd_loaders : list string;
  cd_tier : CompositionTier;
  cd_mods : list ManagedMod;
  cd_jvm_preset : string;
}.

Record EmergencyDisable := {
  ed_id : string;
  ed_target : EmergencyDisableTarget;
  ed_target_id : string;
  ed_reason : string;
  ed_families : list VersionFamily;
  ed_loaders : list string;
  ed_tiers : list CompositionTier;
}.

Record Manifest := {
  mf_schema_version : Z;
  mf_generated_at : string;
  mf_minimum_app_version : string;
  mf_rule_channel : string;
  mf_artifacts : list ManagedArtifactDefinition;
  mf_compositions : list CompositionDef;
  mf_emergency_disables : list EmergencyDisable;
}.

Record InstalledMod := {
  im_project_id : string;
  im_version_id : string;
  im_filename : string;
  im_role : ManagedArtifactRole;
  im_size : Z;
  im_ownership_class : OwnershipClass;
  im_source : ManagedArtifactSource;
  im_integrity : ManagedArtifactIntegrity;
}.

Record ManagedDependencyStateEdge := {
  se_parent_project_id : string;
  se_child_project_id : string;
  se_child_version_id : string;
}.

Record CompositionState := {
  cs_composition_id : string;
  cs_family : VersionFamily;
  cs_tier : CompositionTier;
  cs_game_version : string;
  cs_loader : string;
  cs_graph_sha512 : string;
  cs_dependency_edges : list ManagedDependencyStateEdge;
  cs_installed_mods : list InstalledMod;
  cs_installed_at : string;
}.

#[global] Instance HardwareRequirement_eq_dec : EqDecision HardwareRequirement.
Proof. solve_decision. Defined.
#[global] Instance ManagedMod_eq_dec : EqDecision ManagedMod.
Proof. solve_decision. Defined.
#[global] Instance CompositionDef_eq_dec : EqDecision CompositionDef.
Proof. solve_decision. Defined.
#[global] Instance EmergencyDisable_eq_dec : EqDecision EmergencyDisable.
Proof. solve_decision. Defined.
#[global] Instance ManagedDependencyStateEdge_eq_dec : EqDecision ManagedDependencyStateEdge.
Proof. solve_decision. Defined.

(** The order in which [CompositionTier]s are tried, fastest first. *)
Definition all_tiers : list CompositionTier := [Extended; Core; VanillaEnhanced].
Definition all_families : list VersionFamily :=
  [FamilyA; FamilyB; FamilyC; FamilyD; FamilyE; FamilyF].

(** [contains] on a [Vec] of a type with decidable equality. *)
Definition vec_contains `{EqDecision A} (x : A) (l : list A) : bool := bool_decide (x ∈ l).

Lemma vec_contains_spec `{EqDecision A} (x : A) l : vec_contains x l = true ↔ x ∈ l.
Proof. apply bool_decide_eq_true. Qed.

(** [resolve/model.rs]; a parse failure of the built-in JSON is not modelled. *)
Inductive ResolveError :=
| UnsupportedSchema
| ManifestBound (field : string)
| MissingMinimumAppVersion
| InvalidMinimumAppVersion (value : string)
| InvalidRunningAppVersion (value : string)
| UnsupportedAppVersion (required running : string)
| MissingRuleChannel
| UnsupportedRuleChannel (channel : string)
| MissingArtifactId
| DuplicateArtifactId (id : string)
| MissingArtifactProjectId (id : string)
| MissingArtifactSlug (id : string)
| InvalidArtifactOwnership (id : string)
| MissingManagedModArtifactId
| UnknownManagedModArtifact (id : string)
| ManagedModProjectMismatch (artifact_id expected actual : string)
| ManagedModSlugMismatch (artifact_id expected actual : string)
| InvalidManagedModVersionRange (artifact_id version_range : string)
| ConflictingManagedModVersionSelectors (artifact_id : string)
| InvalidManagedModExactGameVersion (artifact_id game_version : string)
| DuplicateManagedModExactGameVersion (artifact_id game_version : string)
| InvalidManagedModHardwareRequirement (artifact_id field : string) (value : Z)
| InvalidManagedModMutualExclusion (artifact_id field value : string)
| MissingCompositionId
| DuplicateCompositionId (id : string)
| MissingEmergencyDisableId
| MissingEmergencyDisableTargetId
| MissingEmergencyDisableReason
| DuplicateEmergencyDisableId (id : string)
| UnknownEmergencyDisableComposition (target_id : string)
| UnknownEmergencyDisableArtifact (target_id : string).

#[global] Instance ResolveError_eq_dec : EqDecision ResolveError.
Proof. solve_decision. Defined.
