(* ===== verification/PerfVersion.v ===== *)
(** * Game versions of the performance rules ([core/performance/src/resolve/version.rs])

    Parsing, comparison and range matching of Minecraft version ids, and the
    families the planner classifies them into ([planner.rs]).  The two regular
    expressions are matched on the character list. *)

From S2P Require Import Prelude RustStr PerfTypes.

Record MCVersion := {
  mv_major : Z;
  mv_minor : Z;
  mv_patch : Z;
  mv_is_snapshot : bool;
  mv_raw : string;
}.

Definition take_while {A} (p : A → bool) : list A → list A :=
  fix go l := match l with [] => [] | x :: l => if p x then x :: go l else [] end.

Section versions.
Context `{Unicode}.

(** [^\d+w\d+[a-z]$] *)
Definition snapshot_pattern (s : string) : bool :=
  let cs := chars s in
  match take_while regex_digit cs, drop_while regex_digit cs with
  | _ :: _, "w" :: rest =>
      match take_while regex_digit rest, drop_while regex_digit rest with
      | _ :: _, [c] => char_is is_lower c
      | _, _ => false
      end
  | _, _ => false
  end.

(** [^(\d+)\.(\d+)(?:\.(\d+))?$], with its captures. *)
Definition release_pattern (s : string) : option (string * string * option string) :=
  match split_on "." s with
  | [a; b] => if regex_digits a && regex_digits b then Some (a, b, None) else None
  | [a; b; c] =>
      if regex_digits a && regex_digits b && regex_digits c then Some (a, b, Some c) else None
  | _ => None
  end.

Definition parse_version (value : string) : option MCVersion :=
  let trimmed := trim value in
  if is_empty trimmed then None
  else if snapshot_pattern (to_lowercase trimmed) then
    Some {| mv_major := 0; mv_minor := 0; mv_patch := 0;
            mv_is_snapshot := true; mv_raw := trimmed |}
  else
    '(a, b, c) ← release_pattern trimmed;
    major ← parse_i32 a;
    minor ← parse_i32 b;
    Some {| mv_major := major; mv_minor := minor;
            mv_patch := default 0 (c ≫= parse_i32);
            mv_is_snapshot := false; mv_raw := trimmed |}.

(** The loop over the component orderings: the first one that is not equal. *)
Fixpoint first_difference (l : list comparison) : Z :=
  match l with
  | [] => 0
  | Lt :: _ => -1
  | Gt :: _ => 1
  | Eq :: l => first_difference l
  end.

Definition compare_versions (left right : MCVersion) : Z :=
  if mv_is_snapshot left && negb (mv_is_snapshot right) then 1
  else if negb (mv_is_snapshot left) && mv_is_snapshot right then -1
  else if mv_is_snapshot left && mv_is_snapshot right then
    match str_cmp (to_lowercase (mv_raw left)) (to_lowercase (mv_raw right)) with
    | Lt => -1 | Eq => 0 | Gt => 1
    end
  else
    first_difference [Z.compare (mv_major left) (mv_major right);
                      Z.compare (mv_minor left) (mv_minor right);
                      Z.compare (mv_patch left) (mv_patch right)].

Definition compare_release_version (version : MCVersion) (major minor patch : Z) : Z :=
  compare_versions version
    {| mv_major := major; mv_minor := minor; mv_patch := patch;
       mv_is_snapshot := false; mv_raw := "" |}.

(** The loop over the operators, most specific first. *)
Fixpoint split_operator (operators : list string) (condition : string) : string * string :=
  match operators with
  | [] => ("=", condition)
  | operator :: operators =>
      match strip_prefix operator condition with
      | Some rest => (operator, trim rest)
      | None => split_operator operators condition
      end
  end.

Definition split_range_condition (condition : string) : string * string :=
  split_operator [">="; "<="; ">"; "<"; "="] condition.

(** One turn of the loop of [version_in_range]: [true] to continue. *)
Definition condition_matches (version : MCVersion) (condition : string) : bool :=
  let '(operator, raw_target) := split_range_condition condition in
  match parse_version raw_target with
  | None => false
  | Some target =>
      let compare := compare_versions version target in
      if str_eqb operator ">" then 0 <? compare
      else if str_eqb operator ">=" then 0 <=? compare
      else if str_eqb operator "<" then compare <? 0
      else if str_eqb operator "<=" then compare <=? 0
      else if str_eqb operator "=" then compare =? 0
      else false
  end.

Definition version_in_range (version : MCVersion) (range : string) : bool :=
  let trimmed := trim range in
  if is_empty trimmed then true
  else forallb (condition_matches version) (split_whitespace trimmed).

Definition classify_version (mc_version : string) : VersionFamily :=
  match parse_version mc_version with
  | None => FamilyF
  | Some version =>
      if mv_is_snapshot version then FamilyF
      else if compare_release_version version 1 6 0 <? 0 then FamilyA
      else if compare_release_version version 1 7 10 <=? 0 then FamilyB
      else if compare_release_version version 1 12 2 <=? 0 then FamilyC
      else if compare_release_version version 1 15 2 <=? 0 then FamilyD
      else if compare_release_version version 1 20 1 <=? 0 then FamilyE
      else FamilyF
  end.
End versions.

(** ** Ordering *)

Section order.
Context `{Unicode}.

(** [compare_versions] read as an [Ordering]. *)
Definition mv_cmp (a b : MCVersion) : comparison := Z.compare (compare_versions a b) 0.

Definition mv_rank (v : MCVersion) : Z := if mv_is_snapshot v then 1 else 0.
Definition mv_snapshot_key (v : MCVersion) : string :=
  if mv_is_snapshot v then to_lowercase (mv_raw v) else "".
Definition mv_component (f : MCVersion → Z) (v : MCVersion) : Z :=
  if mv_is_snapshot v then 0 else f v.

(** The comparison is lexicographic: releases before snapshots, then the
    numeric components or the lower-cased snapshot id. *)
Lemma mv_cmp_lexicographic a b :
  mv_cmp a b =
  cmp_then (cmp_on mv_rank Z.compare)
    (cmp_then (cmp_on mv_snapshot_key str_cmp)
      (cmp_then (cmp_on (mv_component mv_major) Z.compare)
        (cmp_then (cmp_on (mv_component mv_minor) Z.compare)
                  (cmp_on (mv_component mv_patch) Z.compare)))) a b.
Proof.
  unfold mv_cmp, compare_versions, cmp_then, cmp_on, mv_rank, mv_snapshot_key, mv_component.
  destruct (mv_is_snapshot a), (mv_is_snapshot b); simpl; try done.
  - by destruct (str_cmp _ _).
  - by destruct (Z.compare (mv_major a) _), (Z.compare (mv_minor a) _),
      (Z.compare (mv_patch a) _).
Qed.

#[global] Instance mv_cmp_preorder : CmpPreorder mv_cmp.
Proof.
  apply (cmp_preorder_ext _ _ mv_cmp_lexicographic). apply _.
Qed.

Lemma mv_cmp_le a b : compare_versions a b ≤ 0 ↔ mv_cmp a b ≠ Gt.
Proof. unfold mv_cmp. by rewrite Z.compare_gt_iff, Z.nlt_ge. Qed.

Lemma mv_cmp_lt a b : compare_versions a b < 0 ↔ mv_cmp a b = Lt.
Proof. unfold mv_cmp. by rewrite Z.compare_lt_iff. Qed.

Lemma compare_le_trans a b c :
  compare_versions a b ≤ 0 → compare_versions b c ≤ 0 → compare_versions a c ≤ 0.
Proof. rewrite !mv_cmp_le. apply cmp_trans. apply _. Qed.

Lemma compare_le_lt_trans a b c :
  compare_versions a b ≤ 0 → compare_versions b c < 0 → compare_versions a c < 0.
Proof. rewrite mv_cmp_le, !mv_cmp_lt. apply cmp_lt_trans_r. apply _. Qed.

Definition family_index (f : VersionFamily) : Z :=
  match f with
  | FamilyA => 0 | FamilyB => 1 | FamilyC => 2 | FamilyD => 3 | FamilyE => 4 | FamilyF => 5
  end.

Lemma family_index_bounds f : 0 ≤ family_index f ≤ 5.
Proof. destruct f; simpl; lia. Qed.

(** The shape of the classification: the first test that succeeds. *)
Lemma family_chain_monotone (a1 a2 a3 a4 a5 b1 b2 b3 b4 b5 : bool) :
  (b1 = true → a1 = true) → (b2 = true → a2 = true) → (b3 = true → a3 = true) →
  (b4 = true → a4 = true) → (b5 = true → a5 = true) →
  family_index (if a1 then FamilyA else if a2 then FamilyB else if a3 then FamilyC
                else if a4 then FamilyD else if a5 then FamilyE else FamilyF) ≤
  family_index (if b1 then FamilyA else if b2 then FamilyB else if b3 then FamilyC
                else if b4 then FamilyD else if b5 then FamilyE else FamilyF).
Proof.
  intros H1 H2 H3 H4 H5.
  destruct b1; [rewrite H1 by done; simpl; lia|]. destruct a1; [apply family_index_bounds|].
  destruct b2; [rewrite H2 by done; simpl; lia|].
  destruct a2; [destruct b3, b4, b5; simpl; lia|].
  destruct b3; [rewrite H3 by done; simpl; lia|].
  destruct a3; [destruct b4, b5; simpl; lia|].
  destruct b4; [rewrite H4 by done; simpl; lia|].
  destruct a4; [destruct b5; simpl; lia|].
  destruct b5; [rewrite H5 by done; simpl; lia|]. destruct a5; simpl; lia.
Qed.

(** Families are intervals: a later game version never falls into an
    earlier family. *)
Theorem classify_version_monotone a b va vb :
  parse_version a = Some va → parse_version b = Some vb →
  compare_versions va vb ≤ 0 →
  family_index (classify_version a) ≤ family_index (classify_version b).
Proof.
  intros Ha Hb Hle. unfold classify_version. rewrite Ha, Hb.
  unfold compare_release_version.
  destruct (mv_is_snapshot vb) eqn:Sb; [apply family_index_bounds|].
  assert (mv_is_snapshot va = false) as ->.
  { revert Hle. unfold compare_versions. rewrite Sb.
    destruct (mv_is_snapshot va); simpl; [lia|done]. }
  apply family_chain_monotone; rewrite ?Z.ltb_lt, ?Z.leb_le;
    eauto using compare_le_trans, compare_le_lt_trans.
Qed.
End order.

(** ** Ranges *)

Section ranges.
Context `{Unicode}.

Lemma parse_version_trim s : parse_version (trim s) = parse_version s.
Proof. unfold parse_version. by rewrite trim_idemp. Qed.

Lemma version_in_range_forallb v r :
  version_in_range v r = forallb (condition_matches v) (split_whitespace r).
Proof.
  unfold version_in_range. rewrite split_whitespace_trim.
  destruct (is_empty (trim r)) eqn:E; [|done].
  apply is_empty_spec in E. by rewrite (trim_empty_split _ E).
Qed.

(** Juxtaposed ranges intersect. *)
Lemma version_in_range_app v r1 r2 :
  boundary r2 →
  version_in_range v (r1 +:+ " " +:+ r2) = version_in_range v r1 && version_in_range v r2.
Proof.
  intros Hb. rewrite !version_in_range_forallb, split_whitespace_app by done.
  apply forallb_app.
Qed.

Lemma version_in_range_single v c :
  plain_word c = true → c ≠ "" → version_in_range v c = condition_matches v c.
Proof.
  intros Hw Hne. rewrite version_in_range_forallb, split_whitespace_word by done.
  simpl. apply andb_true_r.
Qed.

Lemma condition_ge v t a :
  parse_version t = Some a →
  condition_matches v (">=" +:+ t) = (0 <=? compare_versions v a).
Proof.
  intros Ht. unfold condition_matches, split_range_condition. simpl.
  by rewrite parse_version_trim, Ht.
Qed.

Lemma condition_lt v t a :
  parse_version t = Some a → starts_with "=" t = false →
  condition_matches v ("<" +:+ t) = (compare_versions v a <? 0).
Proof.
  intros Ht Heq. unfold condition_matches, split_range_condition. cbn [split_operator].
  assert (strip_prefix "<=" ("<" +:+ t) = None) as ->.
  { unfold starts_with in Heq. change (strip_prefix "=" t = None).
    by destruct (strip_prefix "=" t). }
  change (strip_prefix ">=" ("<" +:+ t)) with (@None string).
  change (strip_prefix ">" ("<" +:+ t)) with (@None string).
  change (strip_prefix "<" ("<" +:+ t)) with (Some t).
  cbn iota. by rewrite parse_version_trim, Ht.
Qed.

(** The usual two-sided range is the half-open interval it reads as. *)
Theorem version_in_range_interval v lo hi a b :
  plain_word lo = true → plain_word hi = true → starts_with "=" hi = false →
  parse_version lo = Some a → parse_version hi = Some b →
  version_in_range v (">=" +:+ lo +:+ " <" +:+ hi) = true ↔
  0 ≤ compare_versions v a ∧ compare_versions v b < 0.
Proof.
  intros Hlo Hhi Heq Ha Hb.
  change (">=" +:+ lo +:+ " <" +:+ hi) with ((">=" +:+ lo) +:+ " " +:+ ("<" +:+ hi)).
  rewrite version_in_range_app by done.
  rewrite !version_in_range_single by done.
  rewrite (condition_ge _ _ _ Ha), (condition_lt _ _ _ Hb Heq).
  rewrite andb_true_iff, Z.leb_le, Z.ltb_lt. done.
Qed.
End ranges.

(** ** Witnesses *)

Lemma classify_version_monotone_witness :
  let _ := ascii_unicode in
  family_index (classify_version "1.12.2") ≤ family_index (classify_version "1.16").
Proof.
  intros U. eapply (@classify_version_monotone U); [by vm_compute|by vm_compute|].
  by vm_compute.
Defined.

Lemma version_in_range_interval_witness :
  let _ := ascii_unicode in
  ∃ v a b, parse_version "1.19.4" = Some v ∧ parse_version "1.16" = Some a ∧
    parse_version "1.20" = Some b ∧
    (version_in_range v ">=1.16 <1.20" = true ↔
     0 ≤ compare_versions v a ∧ compare_versions v b < 0).
Proof.
  intros U. eexists _, _, _. split_and!; [by vm_compute..|].
  apply (@version_in_range_interval U _ "1.16" "1.20"); by vm_compute.
Defined.
