(* ===== verification/PerfAppVersion.v ===== *)
(** * Application versions ([core/performance/src/resolve/app_version.rs])

    The gate that refuses a rules manifest whose [minimum_app_version] is
    later than the running launcher. *)

From S2P Require Import Prelude RustStr PerfTypes.

Record AppVersion := {
  av_major : Z;
  av_minor : Z;
  av_patch : Z;
  av_pre_release : option string;
}.

(** [env!("CARGO_PKG_VERSION")], from the workspace [Cargo.toml]. *)
Definition RUNNING_APP_VERSION : string := "0.4.0-rc.1".

Definition valid_pre_release (value : string) : bool :=
  negb (is_empty value) &&
  forallb (λ part, negb (is_empty part) &&
                   forallb (char_is (λ c, is_alphanumeric c || Ascii.eqb c "-")) (chars part))
    (split_on "." value).

Definition parse_app_part (trimmed part : string) : result ResolveError Z :=
  if is_empty part || negb (forallb (char_is is_digit) (chars part))
  then Err (InvalidMinimumAppVersion trimmed)
  else ok_or (InvalidMinimumAppVersion trimmed) (parse_u64 part).

Definition parse_app_version (value : string) : result ResolveError AppVersion :=
  let trimmed := trim value in
  err_if (is_empty trimmed) MissingMinimumAppVersion ;;
  '(release, pre_release) ←
    match split_once "-" trimmed with
    | Some (release, pre_release) =>
        err_if (is_empty release || negb (valid_pre_release pre_release))
          (InvalidMinimumAppVersion trimmed) ;;
        Ok (release, Some pre_release)
    | None => Ok (trimmed, None)
    end;
  match split_on "." release with
  | [p0; p1; p2] =>
      major ← parse_app_part trimmed p0;
      minor ← parse_app_part trimmed p1;
      patch ← parse_app_part trimmed p2;
      Ok {| av_major := major; av_minor := minor; av_patch := patch;
            av_pre_release := pre_release |}
  | _ => Err (InvalidMinimumAppVersion trimmed)
  end.

Definition prerelease_channel_rank (pre_release : string) : Z :=
  let channel := default "" (head (split_on "." pre_release)) in
  if str_eqb channel "dev" then 0
  else if str_eqb channel "alpha" then 1
  else if str_eqb channel "beta" then 2
  else if str_eqb channel "rc" then 3
  else 0.

Definition compare_app_versions (left right : AppVersion) : comparison :=
  then_with (Z.compare (av_major left) (av_major right))
    (then_with (Z.compare (av_minor left) (av_minor right))
      (then_with (Z.compare (av_patch left) (av_patch right))
        match av_pre_release left, av_pre_release right with
        | None, None => Eq
        | None, Some _ => Gt
        | Some _, None => Lt
        | Some l, Some r =>
            then_with (Z.compare (prerelease_channel_rank l) (prerelease_channel_rank r))
              (str_cmp l r)
        end)).

Definition validate_app_version_compatibility_with_running
    (minimum_app_version running_app_version : string) : result ResolveError unit :=
  minimum ← parse_app_version minimum_app_version;
  running ← map_err (λ _, InvalidRunningAppVersion (trim running_app_version))
              (parse_app_version running_app_version);
  err_if (is_gt (compare_app_versions minimum running))
    (UnsupportedAppVersion (trim minimum_app_version) running_app_version).

Definition validate_app_version_compatibility (minimum_app_version : string) :
    result ResolveError unit :=
  validate_app_version_compatibility_with_running minimum_app_version RUNNING_APP_VERSION.

(** ** Ordering *)

Definition pre_key (v : AppVersion) : Z :=
  match av_pre_release v with None => 1 | Some _ => 0 end.
Definition pre_channel (v : AppVersion) : Z :=
  match av_pre_release v with None => 0 | Some p => prerelease_channel_rank p end.
Definition pre_text (v : AppVersion) : string := default "" (av_pre_release v).

Lemma compare_app_versions_lexicographic a b :
  compare_app_versions a b =
  cmp_then (cmp_on av_major Z.compare)
    (cmp_then (cmp_on av_minor Z.compare)
      (cmp_then (cmp_on av_patch Z.compare)
        (cmp_then (cmp_on pre_key Z.compare)
          (cmp_then (cmp_on pre_channel Z.compare) (cmp_on pre_text str_cmp))))) a b.
Proof.
  unfold compare_app_versions, cmp_then, cmp_on, pre_key, pre_channel, pre_text.
  by destruct (av_pre_release a), (av_pre_release b).
Qed.

#[global] Instance compare_app_versions_preorder : CmpPreorder compare_app_versions.
Proof. apply (cmp_preorder_ext _ _ compare_app_versions_lexicographic). apply _. Qed.

Lemma validate_app_version_ok minimum running :
  validate_app_version_compatibility_with_running minimum running = Ok tt ↔
  ∃ m r, parse_app_version minimum = Ok m ∧ parse_app_version running = Ok r ∧
         compare_app_versions m r ≠ Gt.
Proof.
  unfold validate_app_version_compatibility_with_running. split.
  - intros H. ok_inv. eexists _, _. split_and!; [done|done|]. by destruct (compare_app_versions _ _).
  - intros (m & r & -> & -> & Hc). simpl. by destruct (compare_app_versions m r).
Qed.

(** The gate is monotone: raising the running version or lowering the
    required one never turns an accepted manifest away. *)
Theorem validate_app_version_monotone minimum minimum' running running' m m' r r' :
  parse_app_version minimum = Ok m → parse_app_version minimum' = Ok m' →
  parse_app_version running = Ok r → parse_app_version running' = Ok r' →
  compare_app_versions m' m ≠ Gt → compare_app_versions r r' ≠ Gt →
  validate_app_version_compatibility_with_running minimum running = Ok tt →
  validate_app_version_compatibility_with_running minimum' running' = Ok tt.
Proof.
  intros Hm Hm' Hr Hr' Hmm Hrr (m0 & r0 & E1 & E2 & Hc)%validate_app_version_ok.
  assert (m0 = m) as -> by congruence. assert (r0 = r) as -> by congruence.
  apply validate_app_version_ok. exists m', r'. split_and!; [done|done|].
  apply (cmp_trans _ m' m r'); [done|]. by apply (cmp_trans _ m r r').
Qed.

(** Pre-release identifiers after the channel are compared as text, so the
    tenth candidate comes before the second one. *)
Theorem release_candidate_ten_before_two :
  validate_app_version_compatibility_with_running "0.4.0-rc.2" "0.4.0-rc.10" =
  Err (UnsupportedAppVersion "0.4.0-rc.2" "0.4.0-rc.10").
Proof. vm_compute. reflexivity. Qed.

Lemma validate_app_version_monotone_witness :
  validate_app_version_compatibility_with_running "0.3.9" "0.4.0" = Ok tt.
Proof.
  eapply (validate_app_version_monotone "0.4.0-rc.1" _ "0.4.0-rc.1"); by vm_compute.
Defined.
