(* ===== verification/PerfPlanner.v ===== *)
(** * The composition planner ([core/performance/src/resolve/planner.rs])

    [resolve_plan] walks the tiers from the fastest to the safest and, inside
    a tier, the manifest's compositions that match the instance; it returns
    the first one that is not disabled and keeps at least two mods (the
    vanilla-enhanced tier needs none), and explains what it passed over. *)

From S2P Require Import Prelude RustStr PerfTypes PerfVersion.

Definition vanilla_enhanced_plan (family : VersionFamily) (loader : string)
    (mode : PerformanceMode) : CompositionPlan := {|
  plan_composition_id := "";
  plan_family := family;
  plan_loader := loader;
  plan_mode := mode;
  plan_tier := VanillaEnhanced;
  plan_mods := [];
  plan_jvm_preset := "";
  plan_warnings := [];
  plan_fallback_reason := "";
|}.

Definition matching_compositions (manifest : Manifest) (family : VersionFamily)
    (loader : string) (tier : CompositionTier) : list CompositionDef :=
  List.filter (λ definition,
    if negb (bool_decide (cd_tier definition = tier)) then false
    else if negb (vec_contains family (cd_families definition)) then false
    else existsb (λ candidate, eq_ignore_ascii_case candidate loader) (cd_loaders definition))
  (mf_compositions manifest).

Definition disable_applies (disable : EmergencyDisable) (family : VersionFamily)
    (loader : string) (tier : CompositionTier) : bool :=
  (bool_decide (ed_families disable = []) || vec_contains family (ed_families disable)) &&
  (bool_decide (ed_loaders disable = []) ||
   existsb (λ candidate, eq_ignore_ascii_case candidate loader) (ed_loaders disable)) &&
  (bool_decide (ed_tiers disable = []) || vec_contains tier (ed_tiers disable)).

Definition artifact_target_matches (manifest : Manifest) (disable : EmergencyDisable)
    (managed_mod : ManagedMod) : bool :=
  match List.find (λ artifact, eq_ignore_ascii_case (ad_id artifact) (mm_artifact_id managed_mod))
          (mf_artifacts manifest) with
  | None => false
  | Some artifact =>
      eq_ignore_ascii_case (ed_target_id disable) (ad_id artifact) ||
      eq_ignore_ascii_case (ed_target_id disable) (ds_project_id (ad_source artifact))
  end.

Definition active_composition_disable (manifest : Manifest) (definition : CompositionDef)
    (family : VersionFamily) (loader : string) : option EmergencyDisable :=
  List.find (λ disable,
    bool_decide (ed_target disable = Composition) &&
    str_eqb (ed_target_id disable) (cd_id definition) &&
    disable_applies disable family loader (cd_tier definition))
  (mf_emergency_disables manifest).

Definition active_artifact_disable (manifest : Manifest) (managed_mod : ManagedMod)
    (family : VersionFamily) (loader : string) (tier : CompositionTier) :
    option EmergencyDisable :=
  List.find (λ disable,
    bool_decide (ed_target disable = Artifact) &&
    artifact_target_matches manifest disable managed_mod &&
    disable_applies disable family loader tier)
  (mf_emergency_disables manifest).

Definition composition_disable_warning (disable : EmergencyDisable) (composition_id : string) :
    string :=
  composition_id +:+ " skipped by emergency disable " +:+ ed_id disable +:+ ": " +:+
  ed_reason disable.

Definition artifact_disable_warning (disable : EmergencyDisable) (managed_mod : ManagedMod) :
    string :=
  mm_slug managed_mod +:+ " skipped by emergency disable " +:+ ed_id disable +:+ ": " +:+
  ed_reason disable.

Definition push_unique_warning (warnings : list string) (warning : string) : list string :=
  if existsb (λ existing, str_eqb existing warning) warnings then warnings
  else warnings ++ [warning].

Definition satisfies_hardware (managed_mod : ManagedMod) (hardware : HardwareProfile) :
    bool * string :=
  let slug := mm_slug managed_mod in
  match mm_hardware_req managed_mod with
  | None => (true, "")
  | Some requirement =>
      if negb (is_empty (req_gpu_vendor requirement)) &&
         negb (eq_ignore_ascii_case (hw_gpu_vendor hardware) (req_gpu_vendor requirement)) then
        if eq_ignore_ascii_case (req_gpu_vendor requirement) "nvidia" then
          (false, slug +:+ " skipped: no NVIDIA Turing+ GPU detected")
        else (false, slug +:+ " skipped: unsupported GPU vendor")
      else if (0 <? req_gpu_arch_min requirement) &&
              (hw_gpu_arch hardware <? req_gpu_arch_min requirement) then
        (false, slug +:+ " skipped: no NVIDIA Turing+ GPU detected")
      else if (0 <? req_min_ram_mb requirement) &&
              (hw_total_ram_mb hardware <? req_min_ram_mb requirement) then
        (false, slug +:+ " skipped: not enough system RAM")
      else if (0 <? req_min_cores requirement) &&
              (hw_logical_cores hardware <? req_min_cores requirement) then
        (false, slug +:+ " skipped: not enough CPU cores")
      else (true, "")
  end.

Section planner.
Context `{Unicode}.

Definition normalize_loader (loader : string) : string :=
  let trimmed := to_lowercase (trim loader) in
  if is_empty trimmed then "vanilla" else trimmed.

Definition parse_mode (raw : string) : option PerformanceMode :=
  let mode := to_lowercase (trim raw) in
  if str_eqb mode "managed" then Some Managed
  else if str_eqb mode "vanilla" then Some Vanilla
  else if str_eqb mode "custom" then Some Custom
  else None.

Definition should_include_mod (managed_mod : ManagedMod) (game_version : string)
    (hardware : HardwareProfile) (installed : gset string) : bool * string :=
  if negb (bool_decide (mm_exact_game_versions managed_mod = [])) &&
     negb (existsb (λ candidate, str_eqb candidate game_version)
             (mm_exact_game_versions managed_mod)) then (false, "")
  else if negb (is_empty (trim (mm_version_range managed_mod))) &&
          negb match parse_version game_version with
               | None => false
               | Some version => version_in_range version (mm_version_range managed_mod)
               end then (false, "")
  else if bool_decide (mm_condition managed_mod = Recommend) then (false, "")
  else
    let '(ok, warning) := satisfies_hardware managed_mod hardware in
    if negb ok then (false, warning)
    else
      match List.find (λ exclusion, bool_decide (to_lowercase exclusion ∈ installed))
              (mm_mutual_exclusions managed_mod) with
      | Some exclusion =>
          (false, mm_slug managed_mod +:+ " skipped: incompatible with managed mod " +:+
                  exclusion)
      | None => (true, "")
      end.

(** The warnings and the reason collected for the compositions passed over. *)
Record Fallback := {
  fallback_warnings : list string;
  fallback_reason : string;
}.

Definition no_fallback : Fallback := {| fallback_warnings := []; fallback_reason := "" |}.

Definition reason_disabled : string :=
  "A faster performance bundle is temporarily unavailable, so Axial chose the safest available option.".
Definition reason_incompatible : string :=
  "A faster performance bundle is not compatible with this instance, so Axial chose a safer option.".
Definition reason_unavailable : string :=
  "Managed performance bundles are temporarily unavailable, so Axial will only tune launcher settings.".

Definition set_reason (reason new_reason : string) : string :=
  if is_empty reason then new_reason else reason.

(** The state of the loop over a definition's mods. *)
Record ModScan := {
  active_mods : list ManagedMod;
  scan_warnings : list string;
  inactive_warnings : list string;
}.

Section resolve.
Variable manifest : Manifest.
Variable request : ResolutionRequest.

Let family : VersionFamily := classify_version (rr_game_version request).
Let loader : string := normalize_loader (rr_loader request).
Let installed_set : gset string :=
  list_to_set (to_lowercase <$> rr_installed_mods request).

Definition scan_mod (tier : CompositionTier) (scan : ModScan) (managed_mod : ManagedMod) :
    ModScan :=
  match active_artifact_disable manifest managed_mod family loader tier with
  | Some disable =>
      let warning := artifact_disable_warning disable managed_mod in
      {| active_mods := active_mods scan;
         scan_warnings := push_unique_warning (scan_warnings scan) warning;
         inactive_warnings := push_unique_warning (inactive_warnings scan) warning |}
  | None =>
      let '(include, warning) :=
        should_include_mod managed_mod (rr_game_version request) (rr_hardware request)
          installed_set in
      let warned := negb (is_empty warning) in
      {| active_mods := if include then active_mods scan ++ [managed_mod]
                        else active_mods scan;
         scan_warnings :=
           if warned then push_unique_warning (scan_warnings scan) warning
           else scan_warnings scan;
         inactive_warnings :=
           if warned then push_unique_warning (inactive_warnings scan) warning
           else inactive_warnings scan |}
  end.

(** The body of the loop over the definitions of a tier: the returned
    plan, or the fallback state with which the search goes on. *)
Definition try_definition (tier : CompositionTier) (fallback : Fallback)
    (definition : CompositionDef) : CompositionPlan + Fallback :=
  match active_composition_disable manifest definition family loader with
  | Some disable =>
      inr {| fallback_warnings :=
               push_unique_warning (fallback_warnings fallback)
                 (composition_disable_warning disable (cd_id definition));
             fallback_reason := set_reason (fallback_reason fallback) reason_disabled |}
  | None =>
      let scan :=
        fold_left (scan_mod (cd_tier definition)) (cd_mods definition)
          {| active_mods := []; scan_warnings := fallback_warnings fallback;
             inactive_warnings := [] |} in
      if (2 <=? Z.of_nat (length (active_mods scan))) || bool_decide (tier = VanillaEnhanced)
      then
        inl {| plan_composition_id := cd_id definition;
               plan_family := family;
               plan_loader := loader;
               plan_mode := rr_mode request;
               plan_tier := cd_tier definition;
               plan_mods := active_mods scan;
               plan_jvm_preset := cd_jvm_preset definition;
               plan_warnings := scan_warnings scan;
               plan_fallback_reason := fallback_reason fallback |}
      else if negb (bool_decide (tier = VanillaEnhanced)) then
        inr {| fallback_warnings :=
                 push_unique_warning
                   (fold_left push_unique_warning (inactive_warnings scan)
                      (fallback_warnings fallback))
                   (cd_id definition +:+
                    " skipped: not enough compatible performance mods for this instance");
               fallback_reason := set_reason (fallback_reason fallback) reason_incompatible |}
      else inr fallback
  end.

Fixpoint try_definitions (tier : CompositionTier) (definitions : list CompositionDef)
    (fallback : Fallback) : CompositionPlan + Fallback :=
  match definitions with
  | [] => inr fallback
  | definition :: definitions =>
      match try_definition tier fallback definition with
      | inl plan => inl plan
      | inr fallback => try_definitions tier definitions fallback
      end
  end.

Fixpoint try_tiers (tiers : list CompositionTier) (fallback : Fallback) :
    CompositionPlan + Fallback :=
  match tiers with
  | [] => inr fallback
  | tier :: tiers =>
      match try_definitions tier (matching_compositions manifest family loader tier)
              fallback with
      | inl plan => inl plan
      | inr fallback => try_tiers tiers fallback
      end
  end.
End resolve.

Definition resolve_plan (manifest : option Manifest) (request : ResolutionRequest) :
    CompositionPlan :=
  let family := classify_version (rr_game_version request) in
  let loader := normalize_loader (rr_loader request) in
  let mode := rr_mode request in
  match mode with
  | Vanilla | Custom => vanilla_enhanced_plan family loader mode
  | Managed =>
      match manifest with
      | None => vanilla_enhanced_plan family loader mode
      | Some manifest =>
          match try_tiers manifest request all_tiers
                  no_fallback with
          | inl plan => plan
          | inr fallback =>
              let plan := vanilla_enhanced_plan family loader mode in
              {| plan_composition_id := plan_composition_id plan;
                 plan_family := plan_family plan;
                 plan_loader := plan_loader plan;
                 plan_mode := plan_mode plan;
                 plan_tier := plan_tier plan;
                 plan_mods := plan_mods plan;
                 plan_jvm_preset := plan_jvm_preset plan;
                 plan_warnings := fallback_warnings fallback;
                 plan_fallback_reason :=
                   if bool_decide (fallback_warnings fallback = [])
                   then plan_fallback_reason plan
                   else if is_empty (fallback_reason fallback) then reason_unavailable
                   else fallback_reason fallback |}
          end
      end
  end.
End planner.

(** ** Specification of the search *)

Section spec.
Context `{Unicode}.
Variable manifest : Manifest.
Variable request : ResolutionRequest.

Definition request_family : VersionFamily := classify_version (rr_game_version request).
Definition request_loader : string := normalize_loader (rr_loader request).
Definition request_installed : gset string :=
  list_to_set (to_lowercase <$> rr_installed_mods request).

(** A mod survives when no emergency disable hits it and it is included. *)
Definition mod_active (tier : CompositionTier) (m : ManagedMod) : bool :=
  match active_artifact_disable manifest m request_family request_loader tier with
  | Some _ => false
  | None =>
      fst (should_include_mod m (rr_game_version request) (rr_hardware request)
             request_installed)
  end.

Definition surviving_mods (d : CompositionDef) : list ManagedMod :=
  List.filter (mod_active (cd_tier d)) (cd_mods d).

Definition eligible (d : CompositionDef) : bool :=
  match active_composition_disable manifest d request_family request_loader with
  | Some _ => false
  | None =>
      (2 <=? Z.of_nat (length (surviving_mods d))) ||
      bool_decide (cd_tier d = VanillaEnhanced)
  end.

(** All matching compositions, fastest tier first, manifest order inside. *)
Definition candidates_in (tiers : list CompositionTier) : list CompositionDef :=
  concat (matching_compositions manifest request_family request_loader <$> tiers).

Definition plan_selection (p : CompositionPlan) :
    string * CompositionTier * list ManagedMod * string :=
  (plan_composition_id p, plan_tier p, plan_mods p, plan_jvm_preset p).

Definition selection_of (d : option CompositionDef) :
    string * CompositionTier * list ManagedMod * string :=
  match d with
  | Some d => (cd_id d, cd_tier d, surviving_mods d, cd_jvm_preset d)
  | None => ("", VanillaEnhanced, [], "")
  end.

Lemma scan_mods_active tier mods scan :
  active_mods (fold_left (scan_mod manifest request tier) mods scan) =
  active_mods scan ++ List.filter (mod_active tier) mods.
Proof.
  revert scan. induction mods as [|m mods IH]; intros scan; simpl; [by rewrite app_nil_r|].
  rewrite IH. clear IH. unfold scan_mod, mod_active, request_installed.
  destruct (active_artifact_disable _ _ _ _ _); simpl; [done|].
  destruct (should_include_mod _ _ _ _) as [[] w]; simpl; [|done].
  by rewrite <-app_assoc.
Qed.

Lemma try_definition_eligible fb d :
  eligible d = true →
  ∃ p, try_definition manifest request (cd_tier d) fb d = inl p ∧
       plan_selection p = selection_of (Some d) ∧
       plan_fallback_reason p = fallback_reason fb.
Proof.
  unfold eligible, try_definition, request_family, request_loader.
  destruct (active_composition_disable _ _ _ _); [done|].
  intros Hel. rewrite scan_mods_active. simpl. fold (surviving_mods d). rewrite Hel.
  eexists. split; [done|]. by split.
Qed.

Lemma push_unique_ne l w : push_unique_warning l w ≠ [].
Proof.
  unfold push_unique_warning. destruct (existsb _ l) eqn:E; [by destruct l|].
  by destruct l.
Qed.

Lemma try_definition_ineligible fb d :
  eligible d = false →
  ∃ fb', try_definition manifest request (cd_tier d) fb d = inr fb' ∧
         fallback_reason fb' ≠ "" ∧ fallback_warnings fb' ≠ [].
Proof.
  assert (∀ r n, n ≠ "" → set_reason r n ≠ "") as Hset by (intros r n; by destruct r).
  unfold eligible, try_definition, request_family, request_loader.
  destruct (active_composition_disable _ _ _ _); intros Hel.
  { eexists. split; [done|]. split; [by apply Hset|apply push_unique_ne]. }
  rewrite scan_mods_active. simpl. fold (surviving_mods d). rewrite Hel.
  apply orb_false_iff in Hel as [_ ->].
  eexists. split; [done|]. split; [by apply Hset|apply push_unique_ne].
Qed.

Lemma matching_compositions_tier tier d :
  d ∈ matching_compositions manifest request_family request_loader tier → cd_tier d = tier.
Proof.
  unfold matching_compositions. rewrite list_elem_of_In, filter_In. intros [_ Hf].
  case_bool_decide; done.
Qed.

Fixpoint search (cands : list CompositionDef) (fb : Fallback) : CompositionPlan + Fallback :=
  match cands with
  | [] => inr fb
  | d :: cands =>
      match try_definition manifest request (cd_tier d) fb d with
      | inl p => inl p
      | inr fb => search cands fb
      end
  end.

Lemma search_app c1 c2 fb :
  search (c1 ++ c2) fb =
  match search c1 fb with inl p => inl p | inr fb => search c2 fb end.
Proof.
  revert fb. induction c1 as [|d c1 IH]; intros fb; simpl; [done|].
  by destruct (try_definition _ _ _ _ _).
Qed.

Lemma try_definitions_search tier defs fb :
  Forall (λ d, cd_tier d = tier) defs →
  try_definitions manifest request tier defs fb = search defs fb.
Proof.
  intros Hall. revert fb. induction Hall as [|d defs Hd _ IH]; intros fb; simpl; [done|].
  rewrite Hd. by destruct (try_definition _ _ _ _ _).
Qed.

(** The two nested loops are one search through the candidates. *)
Lemma try_tiers_search tiers fb :
  try_tiers manifest request tiers fb = search (candidates_in tiers) fb.
Proof.
  revert fb. induction tiers as [|tier tiers IH]; intros fb; simpl; [done|].
  unfold candidates_in. simpl. fold (candidates_in tiers). rewrite search_app.
  fold request_family request_loader. rewrite try_definitions_search; [by destruct (search _ _)|].
  apply list.Forall_forall. intros d. apply matching_compositions_tier.
Qed.

Lemma search_selects cands fb :
  match search cands fb with
  | inl p => ∃ d, List.find eligible cands = Some d ∧ plan_selection p = selection_of (Some d)
  | inr _ => List.find eligible cands = None
  end.
Proof.
  revert fb. induction cands as [|d cands IH]; intros fb; simpl; [done|].
  destruct (eligible d) eqn:E.
  - destruct (try_definition_eligible fb d E) as (p & -> & Hp & _). eauto.
  - destruct (try_definition_ineligible fb d E) as (fb' & -> & _). apply IH.
Qed.

Definition result_reason (r : CompositionPlan + Fallback) : string :=
  match r with inl p => plan_fallback_reason p | inr fb => fallback_reason fb end.

Lemma search_keeps_reason cands fb :
  fallback_reason fb ≠ "" → result_reason (search cands fb) ≠ "".
Proof.
  revert fb. induction cands as [|d cands IH]; intros fb; simpl; [done|].
  destruct (eligible d) eqn:E; intros Hfb.
  - destruct (try_definition_eligible fb d E) as (p & -> & _ & Hr). simpl. by rewrite Hr.
  - destruct (try_definition_ineligible fb d E) as (fb' & -> & Hr & _). by apply IH.
Qed.

Lemma search_keeps_warnings cands fb fb' :
  search cands fb = inr fb' → cands ≠ [] ∨ fallback_warnings fb ≠ [] →
  fallback_warnings fb' ≠ [].
Proof.
  revert fb. induction cands as [|d cands IH]; intros fb; simpl.
  { intros [= <-]. by intros [?|?]. }
  destruct (eligible d) eqn:E.
  - by destruct (try_definition_eligible fb d E) as (p & -> & _).
  - destruct (try_definition_ineligible fb d E) as (fb1 & -> & _ & Hw). intros Hs _.
    apply (IH fb1 Hs). by right.
Qed.

Lemma managed_plan_selection :
  rr_mode request = Managed →
  plan_selection (resolve_plan (Some manifest) request) =
  selection_of (List.find eligible (candidates_in all_tiers)).
Proof.
  intros Hm. unfold resolve_plan. rewrite Hm, try_tiers_search.
  pose proof (search_selects (candidates_in all_tiers) no_fallback) as Hs.
  destruct (search _ _) as [p|fb].
  - by destruct Hs as (d & -> & Hp).
  - by rewrite Hs.
Qed.

(** C3: In managed mode the plan is the first eligible candidate, fastest tier
    first and manifest order inside: the nested loops with their accumulated
    fallback state implement a plain search. *)
Theorem resolve_plan_selects_first_eligible :
  rr_mode request = Managed →
  plan_selection (resolve_plan (Some manifest) request) =
  selection_of (List.find eligible (candidates_in all_tiers)).
Proof. apply managed_plan_selection. Qed.

(** A fallback reason is reported exactly when some candidate was passed over. *)
Theorem resolve_plan_fallback_reason :
  rr_mode request = Managed →
  plan_fallback_reason (resolve_plan (Some manifest) request) = "" ↔
  match candidates_in all_tiers with [] => True | d :: _ => eligible d = true end.
Proof.
  intros Hm. unfold resolve_plan. rewrite Hm, try_tiers_search.
  destruct (candidates_in all_tiers) as [|d cands]; [by simpl|]. simpl.
  destruct (eligible d) eqn:E.
  { by destruct (try_definition_eligible no_fallback d E) as (p & -> & _ & Hr). }
  destruct (try_definition_ineligible no_fallback d E) as (fb1 & -> & Hr & Hw).
  pose proof (search_keeps_reason cands fb1 Hr) as Hk.
  destruct (search cands fb1) as [p|fb] eqn:Es; simpl in *; [split; [done|congruence]|].
  pose proof (search_keeps_warnings cands fb1 fb Es (or_intror Hw)) as Hw'.
  rewrite bool_decide_eq_false_2 by done.
  destruct (is_empty (fallback_reason fb)) eqn:Ee; [|split; [done|congruence]].
  by apply is_empty_spec in Ee.
Qed.
End spec.

(** ** Consequences *)

Section consequences.
Context `{Unicode}.
Variable manifest : Manifest.
Variable request : ResolutionRequest.

Let family := request_family request.
Let loader := request_loader request.

Lemma candidates_in_spec tiers d :
  d ∈ candidates_in manifest request tiers →
  d ∈ mf_compositions manifest ∧ cd_tier d ∈ tiers ∧ family ∈ cd_families d ∧
  existsb (λ l, eq_ignore_ascii_case l loader) (cd_loaders d) = true.
Proof.
  unfold candidates_in. rewrite list_elem_of_In, in_concat. intros (l & Hl & Hd).
  apply in_map_iff in Hl as (t & <- & Ht). apply filter_In in Hd as [Hd Hf].
  case_bool_decide as Htier; [|done]. simpl in Hf.
  destruct (vec_contains _ _) eqn:Ef; [|done]. apply vec_contains_spec in Ef.
  rewrite !list_elem_of_In. subst t. split_and!; try done. by apply list_elem_of_In.
Qed.

Lemma find_none_some {A} (p : A → bool) l x : List.find p l = None → In x l → p x = false.
Proof. intros Hf Hx. by apply (find_none _ _ Hf). Qed.

Lemma plan_mod_origin disable m :
  let plan := resolve_plan (Some manifest) request in
  m ∈ plan_mods plan → disable ∈ mf_emergency_disables manifest →
  disable_applies disable family loader (plan_tier plan) = true →
  ∃ d, d ∈ mf_compositions manifest ∧ plan_composition_id plan = cd_id d ∧
       family ∈ cd_families d ∧ m ∈ cd_mods d ∧
       ¬ (ed_target disable = Composition ∧ ed_target_id disable = cd_id d) ∧
       ¬ (ed_target disable = Artifact ∧ artifact_target_matches manifest disable m = true).
Proof.
  intros plan Hm Hdis Happ. subst plan.
  destruct (decide (rr_mode request = Managed)) as [Hmode|Hmode]; last first.
  { exfalso. revert Hm. unfold resolve_plan.
    destruct (rr_mode request); [done| |]; by rewrite elem_of_nil. }
  pose proof (managed_plan_selection manifest request Hmode) as Hs.
  destruct (List.find _ _) as [d|] eqn:Ef; simpl in Hs; unfold plan_selection in Hs;
    injection Hs as Hid Htier Hmods Hpre; last first.
  { rewrite Hmods in Hm. by apply elem_of_nil in Hm. }
  apply find_some in Ef as [Hd Hel].
  apply list_elem_of_In, candidates_in_spec in Hd as (Hd & _ & Hfam & _).
  rewrite Hmods in Hm. rewrite Htier in Happ.
  unfold surviving_mods in Hm. apply list_elem_of_In, filter_In in Hm as [Hm Hact].
  exists d. split_and!; [done|done|done|by apply list_elem_of_In| |].
  - intros [Ht Hi]. unfold eligible in Hel.
    destruct (active_composition_disable _ _ _ _) eqn:Ea; [done|].
    apply (find_none_some _ _ disable) in Ea; [|by apply list_elem_of_In]. cbv beta in Ea.
    rewrite bool_decide_eq_true_2 in Ea by done.
    rewrite Hi in Ea. unfold str_eqb in Ea. rewrite String.eqb_refl in Ea.
    unfold family, loader in Happ. by rewrite Happ in Ea.
  - intros [Ht Hi]. unfold mod_active in Hact.
    destruct (active_artifact_disable _ _ _ _ _) eqn:Ea; [done|].
    apply (find_none_some _ _ disable) in Ea; [|by apply list_elem_of_In]. cbv beta in Ea.
    rewrite bool_decide_eq_true_2 in Ea by done. rewrite Hi in Ea.
    unfold family, loader in Happ. by rewrite Happ in Ea.
Qed.

(** The mods of a plan come from one composition of the manifest that
    serves the instance, and no emergency disable in force names that
    composition or hits any of the mods. *)
Theorem resolve_plan_respects_disables disable m :
  let plan := resolve_plan (Some manifest) request in
  m ∈ plan_mods plan → disable ∈ mf_emergency_disables manifest →
  disable_applies disable family loader (plan_tier plan) = true →
  ∃ d, d ∈ mf_compositions manifest ∧ plan_composition_id plan = cd_id d ∧
       family ∈ cd_families d ∧ m ∈ cd_mods d ∧
       ¬ (ed_target disable = Composition ∧ ed_target_id disable = cd_id d) ∧
       ¬ (ed_target disable = Artifact ∧ artifact_target_matches manifest disable m = true).
Proof. apply plan_mod_origin. Qed.
End consequences.

(** *** Warnings *)

Section warnings.
Context `{Unicode}.

Lemma push_unique_elem l w x : x ∈ push_unique_warning l w ↔ x ∈ l ∨ x = w.
Proof.
  unfold push_unique_warning. destruct (existsb _ l) eqn:E.
  - apply existsb_exists in E as (y & Hy & Heq). apply str_eqb_spec in Heq. subst y.
    apply list_elem_of_In in Hy. split; [auto|]. by intros [?| ->].
  - by rewrite elem_of_app, list_elem_of_singleton.
Qed.

Lemma push_unique_nodup l w : NoDup l → NoDup (push_unique_warning l w).
Proof.
  intros Hl. unfold push_unique_warning. destruct (existsb _ l) eqn:E; [done|].
  apply list.NoDup_app. split_and!; [done| |apply list.NoDup_singleton].
  intros x Hx Hw. apply list_elem_of_singleton in Hw as ->.
  assert (existsb (λ e, str_eqb e w) l = true); [|congruence].
  apply existsb_exists. exists w. rewrite <-list_elem_of_In. split; [done|].
  by apply str_eqb_spec.
Qed.

Lemma push_all_nodup ws l : NoDup l → NoDup (fold_left push_unique_warning ws l).
Proof.
  revert l. induction ws as [|w ws IH]; intros l Hl; simpl; [done|].
  by apply IH, push_unique_nodup.
Qed.

Lemma scan_mod_nodup manifest request tier scan m :
  NoDup (scan_warnings scan) → NoDup (scan_warnings (scan_mod manifest request tier scan m)).
Proof.
  intros Hs. unfold scan_mod.
  destruct (active_artifact_disable _ _ _ _ _); simpl; [by apply push_unique_nodup|].
  destruct (should_include_mod _ _ _ _) as [i w]; simpl.
  destruct (negb _); [by apply push_unique_nodup|done].
Qed.

Lemma scan_mods_nodup manifest request tier mods scan :
  NoDup (scan_warnings scan) →
  NoDup (scan_warnings (fold_left (scan_mod manifest request tier) mods scan)).
Proof.
  revert scan. induction mods as [|m mods IH]; intros scan Hs; simpl; [done|].
  by apply IH, scan_mod_nodup.
Qed.

Definition result_warnings (r : CompositionPlan + Fallback) : list string :=
  match r with inl p => plan_warnings p | inr fb => fallback_warnings fb end.

Lemma search_nodup manifest request cands fb :
  NoDup (fallback_warnings fb) → NoDup (result_warnings (search manifest request cands fb)).
Proof.
  revert fb. induction cands as [|d cands IH]; intros fb Hfb; simpl; [done|].
  unfold try_definition. destruct (active_composition_disable _ _ _ _).
  { apply IH. by apply push_unique_nodup. }
  destruct (_ || _); simpl; [by apply scan_mods_nodup|].
  destruct (negb _); apply IH; simpl; [|done].
  by apply push_unique_nodup, push_all_nodup.
Qed.

(** No warning is reported twice. *)
Theorem resolve_plan_warnings_nodup manifest request :
  NoDup (plan_warnings (resolve_plan manifest request)).
Proof.
  unfold resolve_plan. destruct (rr_mode request), manifest as [m|]; try by constructor.
  rewrite try_tiers_search.
  pose proof (search_nodup m request (candidates_in m request all_tiers)
    no_fallback (NoDup_nil_2)) as Hs.
  by destruct (search _ _ _ _).
Qed.
End warnings.

(** ** A concrete manifest *)

Definition sample_artifact (id project slug : string) : ManagedArtifactDefinition := {|
  ad_id := id; ad_artifact_type := Mod;
  ad_source := {| ds_provider := Modrinth; ds_project_id := project; ds_slug := slug |};
  ad_checksum_policy := ProviderSha512; ad_ownership_class := CompositionManaged |}.

Definition sample_mod (id project slug : string) : ManagedMod := {|
  mm_artifact_id := id; mm_project_id := project; mm_slug := slug; mm_name := slug;
  mm_condition := Always; mm_version_range := ">=1.16 <2.0"; mm_exact_game_versions := [];
  mm_hardware_req := None; mm_mutual_exclusions := [] |}.

Definition sample_disable (target : string) : EmergencyDisable := {|
  ed_id := "crash"; ed_target := Artifact; ed_target_id := target;
  ed_reason := "crashes on start"; ed_families := []; ed_loaders := ["Fabric"]; ed_tiers := [] |}.

Definition sample_manifest (id target : string) : Manifest := {|
  mf_schema_version := 3; mf_generated_at := "2026-01-01T00:00:00Z";
  mf_minimum_app_version := "0.3.0"; mf_rule_channel := "bundled";
  mf_artifacts := [sample_artifact id "AANobbMI" "sodium"; sample_artifact "lithium" "gvQqBUqZ" "lithium";
                   sample_artifact "ferrite" "uXXizFIs" "ferrite-core"];
  mf_compositions := [
    {| cd_id := "core-fabric"; cd_display_name := "Core"; cd_description := "";
       cd_families := all_families; cd_loaders := ["fabric"]; cd_tier := Core;
       cd_mods := [sample_mod id "AANobbMI" "sodium"; sample_mod "lithium" "gvQqBUqZ" "lithium";
                   sample_mod "Ferrite" "uXXizFIs" "ferrite-core"];
       cd_jvm_preset := "g1" |}];
  mf_emergency_disables := [sample_disable target] |}.

Definition sample_request : ResolutionRequest := {|
  rr_game_version := "1.20.1"; rr_loader := " Fabric "; rr_mode := Managed;
  rr_hardware := {| hw_total_ram_mb := 8192; hw_logical_cores := 8; hw_gpu_vendor := "";
                    hw_gpu_arch := 0 |};
  rr_installed_mods := [] |}.

Lemma resolve_plan_selects_first_eligible_witness :
  let _ := ascii_unicode in
  plan_selection (resolve_plan (Some (sample_manifest "sodium" "SODIUM")) sample_request) =
  ("core-fabric", Core,
   [sample_mod "lithium" "gvQqBUqZ" "lithium"; sample_mod "Ferrite" "uXXizFIs" "ferrite-core"], "g1").
Proof.
  intros U.
  rewrite (@resolve_plan_selects_first_eligible U (sample_manifest "sodium" "SODIUM") sample_request
             eq_refl).
  by vm_compute.
Defined.

Lemma resolve_plan_fallback_reason_witness :
  let _ := ascii_unicode in
  plan_fallback_reason (resolve_plan (Some (sample_manifest "sodium" "SODIUM")) sample_request) = "".
Proof.
  intros U. apply (@resolve_plan_fallback_reason U _ sample_request eq_refl). by vm_compute.
Defined.

Lemma resolve_plan_respects_disables_witness :
  let _ := ascii_unicode in
  ¬ artifact_target_matches (sample_manifest "sodium" "SODIUM") (sample_disable "SODIUM")
      (sample_mod "lithium" "gvQqBUqZ" "lithium") = true.
Proof.
  intros U Hm.
  destruct (@resolve_plan_respects_disables U (sample_manifest "sodium" "SODIUM") sample_request
    (sample_disable "SODIUM") (sample_mod "lithium" "gvQqBUqZ" "lithium"))
    as (d & _ & _ & _ & _ & _ & Hn).
  - apply list_elem_of_In. vm_compute. auto.
  - apply list_elem_of_In. vm_compute. auto.
  - by vm_compute.
  - by apply Hn.
Defined.
