(* ===== verification/PerfValidation.v ===== *)
(** * Manifest validation ([core/performance/src/resolve/validation.rs])

    [validate_manifest] runs its checks in the source's order and returns the
    first failure.  Whether [generated_at] is an RFC 3339 timestamp is decided
    by the [chrono] crate and is the parameter [rfc3339]. *)

From S2P Require Import Prelude RustStr PerfTypes PerfVersion PerfAppVersion.

Definition KNOWN_RULE_CHANNELS : list string := ["bundled"; "local"; "remote"].
Definition MAX_MANIFEST_ITEMS : nat := 256.
Definition MAX_FILTER_ITEMS : nat := 64.
Definition MAX_ID_CHARS : nat := 128.
Definition MAX_NAME_CHARS : nat := 256.
Definition MAX_DESCRIPTION_CHARS : nat := 1024.
Definition MAX_VERSION_RANGE_CHARS : nat := 256.
Definition MAX_EXACT_GAME_VERSION_CHARS : nat := 64.
Definition MAX_HARDWARE_VALUE : Z := 1048576.
Definition MODRINTH_PROJECT_ID_CHARS : nat := 8.
Definition PERFORMANCE_MANIFEST_SCHEMA_VERSION : Z := 3.

Definition validate_count (actual max : nat) (field : string) : result ResolveError unit :=
  err_if (max <? actual)%nat (ManifestBound field).

Definition validate_text (value : string) (max : nat) (field : string) :
    result ResolveError unit :=
  err_if ((max <? chars_count value)%nat || has_control value) (ManifestBound field).

Definition validate_optional_text (value : string) (max : nat) (field : string) :
    result ResolveError unit :=
  if is_empty value then Ok tt else validate_text value max field.

Definition validate_modrinth_project_id (project_id field : string) :
    result ResolveError unit :=
  err_if (negb (Nat.eqb (String.length project_id) MODRINTH_PROJECT_ID_CHARS) ||
          negb (sforall is_alphanumeric project_id)) (ManifestBound field).

Definition validate_unique_text (values : list string) (field : string) :
    result ResolveError unit :=
  try_fold (λ seen value,
    insert_new (ManifestBound field) seen (to_ascii_lowercase value))
    (∅ : gset string) values ;;
  Ok tt.

Definition validate_rule_channel (rule_channel : string) : result ResolveError unit :=
  err_if (is_empty (trim rule_channel)) MissingRuleChannel ;;
  err_if (negb (existsb (str_eqb rule_channel) KNOWN_RULE_CHANNELS))
    (UnsupportedRuleChannel rule_channel).

Definition validate_managed_mod_hardware_req (managed_mod : ManagedMod) :
    result ResolveError unit :=
  match mm_hardware_req managed_mod with
  | None => Ok tt
  | Some requirement =>
      validate_optional_text (req_gpu_vendor requirement) 64
        "managed mod hardware gpu vendor" ;;
      try_for_each (λ '(field, value),
        err_if (negb ((0 <=? value) && (value <=? MAX_HARDWARE_VALUE)))
          (InvalidManagedModHardwareRequirement (mm_artifact_id managed_mod) field value))
        [("gpu_arch_min", req_gpu_arch_min requirement);
         ("min_ram_mb", req_min_ram_mb requirement);
         ("min_cores", req_min_cores requirement)]
  end.

Section validation.
Context `{Unicode} (rfc3339 : string → bool).

Definition validate_artifact
    (acc : gset string * gmap string ManagedArtifactDefinition)
    (artifact : ManagedArtifactDefinition) :
    result ResolveError (gset string * gmap string ManagedArtifactDefinition) :=
  let '(ids, by_id) := acc in
  let id := ad_id artifact in
  let source := ad_source artifact in
  validate_text id MAX_ID_CHARS "artifact id" ;;
  validate_text (ds_project_id source) MAX_ID_CHARS "artifact project id" ;;
  validate_text (ds_slug source) MAX_ID_CHARS "artifact slug" ;;
  err_if (is_empty (trim id)) MissingArtifactId ;;
  let normalized_id := to_lowercase id in
  ids ← insert_new (DuplicateArtifactId id) ids normalized_id;
  err_if (is_empty (trim (ds_project_id source))) (MissingArtifactProjectId id) ;;
  validate_modrinth_project_id (ds_project_id source) "artifact Modrinth project id" ;;
  err_if (is_empty (trim (ds_slug source))) (MissingArtifactSlug id) ;;
  err_if (negb (str_eqb (trim (ds_slug source)) (ds_slug source)))
    (ManifestBound "artifact slug padding") ;;
  err_if (negb (bool_decide (ad_ownership_class artifact = CompositionManaged)))
    (InvalidArtifactOwnership id) ;;
  Ok (ids, <[normalized_id := artifact]> by_id).

Definition validate_artifacts (artifacts : list ManagedArtifactDefinition) :
    result ResolveError (gmap string ManagedArtifactDefinition) :=
  '(_, by_id) ← try_fold validate_artifact (∅, ∅) artifacts;
  Ok by_id.

Definition validate_managed_mod_version_range (managed_mod : ManagedMod) :
    result ResolveError unit :=
  let trimmed := trim (mm_version_range managed_mod) in
  if is_empty trimmed then Ok tt
  else
    try_for_each (λ condition,
      let '(_, raw_target) := split_range_condition condition in
      match parse_version raw_target with
      | None => Err (InvalidManagedModVersionRange (mm_artifact_id managed_mod) trimmed)
      | Some _ => Ok tt
      end) (split_whitespace trimmed).

Definition validate_managed_mod_exact_game_versions (managed_mod : ManagedMod) :
    result ResolveError unit :=
  let artifact_id := mm_artifact_id managed_mod in
  err_if (negb (is_empty (trim (mm_version_range managed_mod))) &&
          negb (bool_decide (mm_exact_game_versions managed_mod = [])))
    (ConflictingManagedModVersionSelectors artifact_id) ;;
  try_fold (λ seen game_version,
    validate_text game_version MAX_EXACT_GAME_VERSION_CHARS
      "managed mod exact game version" ;;
    err_if (is_empty game_version || negb (str_eqb (trim game_version) game_version) ||
            match parse_version game_version with None => true | Some _ => false end)
      (InvalidManagedModExactGameVersion artifact_id game_version) ;;
    insert_new (DuplicateManagedModExactGameVersion artifact_id game_version)
      seen game_version)
    (∅ : gset string) (mm_exact_game_versions managed_mod) ;;
  Ok tt.

Definition validate_managed_mod_mutual_exclusions (managed_mod : ManagedMod) :
    result ResolveError unit :=
  let artifact_id := mm_artifact_id managed_mod in
  validate_count (length (mm_mutual_exclusions managed_mod)) MAX_FILTER_ITEMS
    "managed mod mutual exclusion count" ;;
  try_fold (λ exclusions exclusion,
    let trimmed := trim exclusion in
    err_if (is_empty trimmed || negb (str_eqb trimmed exclusion))
      (InvalidManagedModMutualExclusion artifact_id "entry" exclusion) ;;
    validate_text exclusion MAX_ID_CHARS "managed mod mutual exclusion" ;;
    insert_new (InvalidManagedModMutualExclusion artifact_id "duplicate" exclusion)
      exclusions (to_lowercase exclusion))
    (∅ : gset string) (mm_mutual_exclusions managed_mod) ;;
  Ok tt.

Definition validate_managed_mod_artifact
    (artifacts : gmap string ManagedArtifactDefinition) (managed_mod : ManagedMod) :
    result ResolveError unit :=
  let artifact_id := mm_artifact_id managed_mod in
  validate_text artifact_id MAX_ID_CHARS "managed mod artifact id" ;;
  validate_text (mm_project_id managed_mod) MAX_ID_CHARS "managed mod project id" ;;
  validate_text (mm_slug managed_mod) MAX_ID_CHARS "managed mod slug" ;;
  validate_text (mm_name managed_mod) MAX_NAME_CHARS "managed mod name" ;;
  validate_optional_text (mm_version_range managed_mod) MAX_VERSION_RANGE_CHARS
    "managed mod version range" ;;
  validate_count (length (mm_exact_game_versions managed_mod)) MAX_FILTER_ITEMS
    "managed mod exact game version count" ;;
  err_if (is_empty (trim artifact_id)) MissingManagedModArtifactId ;;
  artifact ← ok_or (UnknownManagedModArtifact artifact_id)
               (artifacts !! to_lowercase artifact_id);
  validate_modrinth_project_id (mm_project_id managed_mod) "managed mod Modrinth project id" ;;
  err_if (negb (str_eqb (trim (mm_slug managed_mod)) (mm_slug managed_mod)))
    (ManifestBound "managed mod slug padding") ;;
  err_if (negb (str_eqb (mm_project_id managed_mod) (ds_project_id (ad_source artifact))))
    (ManagedModProjectMismatch artifact_id (ds_project_id (ad_source artifact))
       (mm_project_id managed_mod)) ;;
  err_if (negb (str_eqb (mm_slug managed_mod) (ds_slug (ad_source artifact))))
    (ManagedModSlugMismatch artifact_id (ds_slug (ad_source artifact))
       (mm_slug managed_mod)) ;;
  validate_managed_mod_version_range managed_mod ;;
  validate_managed_mod_exact_game_versions managed_mod ;;
  validate_managed_mod_hardware_req managed_mod ;;
  validate_managed_mod_mutual_exclusions managed_mod.

Definition declared_artifact_targets (artifacts : list ManagedArtifactDefinition) :
    gset string :=
  fold_left (λ targets artifact,
    {[to_lowercase (ds_project_id (ad_source artifact))]} ∪
    ({[to_lowercase (ad_id artifact)]} ∪ targets)) artifacts ∅.

(** The body of the loop over the compositions. *)
Definition validate_composition (ids : gset string) (composition : CompositionDef) :
    result ResolveError (gset string) :=
  validate_text (cd_id composition) MAX_ID_CHARS "composition id" ;;
  validate_text (cd_display_name composition) MAX_NAME_CHARS "composition display name" ;;
  validate_text (cd_description composition) MAX_DESCRIPTION_CHARS
    "composition description" ;;
  validate_optional_text (cd_jvm_preset composition) MAX_NAME_CHARS
    "composition jvm preset" ;;
  validate_count (length (cd_families composition)) MAX_FILTER_ITEMS
    "composition family count" ;;
  validate_count (length (cd_loaders composition)) MAX_FILTER_ITEMS
    "composition loader count" ;;
  validate_count (length (cd_mods composition)) MAX_MANIFEST_ITEMS
    "composition mod count" ;;
  validate_unique_text (cd_loaders composition) "composition loaders" ;;
  try_for_each (λ loader, validate_text loader MAX_ID_CHARS "composition loader")
    (cd_loaders composition) ;;
  err_if (is_empty (cd_id composition)) MissingCompositionId ;;
  insert_new (DuplicateCompositionId (cd_id composition)) ids (cd_id composition).

(** The body of the loop over the emergency disables. *)
Definition validate_disable (ids artifact_targets : gset string)
    (disable_ids : gset string) (disable : EmergencyDisable) :
    result ResolveError (gset string) :=
  validate_text (ed_id disable) MAX_ID_CHARS "emergency disable id" ;;
  validate_text (ed_target_id disable) MAX_ID_CHARS "emergency disable target" ;;
  validate_text (ed_reason disable) MAX_DESCRIPTION_CHARS "emergency disable reason" ;;
  validate_count (length (ed_families disable)) MAX_FILTER_ITEMS "emergency family count" ;;
  validate_count (length (ed_loaders disable)) MAX_FILTER_ITEMS "emergency loader count" ;;
  validate_count (length (ed_tiers disable)) MAX_FILTER_ITEMS "emergency tier count" ;;
  validate_unique_text (ed_loaders disable) "emergency loaders" ;;
  try_for_each (λ loader, validate_text loader MAX_ID_CHARS "emergency loader")
    (ed_loaders disable) ;;
  err_if (is_empty (trim (ed_id disable))) MissingEmergencyDisableId ;;
  disable_ids ← insert_new (DuplicateEmergencyDisableId (ed_id disable))
                  disable_ids (ed_id disable);
  err_if (is_empty (trim (ed_target_id disable))) MissingEmergencyDisableTargetId ;;
  err_if (is_empty (trim (ed_reason disable))) MissingEmergencyDisableReason ;;
  match ed_target disable with
  | Composition =>
      err_if (negb (bool_decide (ed_target_id disable ∈ ids)))
        (UnknownEmergencyDisableComposition (ed_target_id disable))
  | Artifact =>
      err_if (negb (bool_decide (to_lowercase (ed_target_id disable) ∈ artifact_targets)))
        (UnknownEmergencyDisableArtifact (ed_target_id disable))
  end ;;
  Ok disable_ids.

Definition validate_manifest (manifest : Manifest) : result ResolveError unit :=
  err_if (negb (mf_schema_version manifest =? PERFORMANCE_MANIFEST_SCHEMA_VERSION))
    UnsupportedSchema ;;
  validate_text (mf_generated_at manifest) 64 "generated_at" ;;
  err_if (negb (rfc3339 (mf_generated_at manifest))) (ManifestBound "generated_at") ;;
  validate_text (mf_minimum_app_version manifest) 64 "minimum_app_version" ;;
  validate_text (mf_rule_channel manifest) 32 "rule_channel" ;;
  validate_count (length (mf_artifacts manifest)) MAX_MANIFEST_ITEMS "artifact count" ;;
  validate_count (length (mf_compositions manifest)) MAX_MANIFEST_ITEMS
    "composition count" ;;
  validate_count (length (mf_emergency_disables manifest)) MAX_MANIFEST_ITEMS
    "emergency disable count" ;;
  validate_app_version_compatibility (mf_minimum_app_version manifest) ;;
  validate_rule_channel (mf_rule_channel manifest) ;;
  artifacts ← validate_artifacts (mf_artifacts manifest);
  ids ← try_fold validate_composition ∅ (mf_compositions manifest);
  try_for_each (λ composition,
    try_for_each (validate_managed_mod_artifact artifacts) (cd_mods composition))
    (mf_compositions manifest) ;;
  let artifact_targets := declared_artifact_targets (mf_artifacts manifest) in
  try_fold (validate_disable ids artifact_targets) ∅ (mf_emergency_disables manifest) ;;
  Ok tt.
End validation.

(** ** What a valid manifest is *)

Definition text_ok (value : string) (max : nat) : Prop :=
  (chars_count value ≤ max)%nat ∧ has_control value = false.

Definition project_id_ok (id : string) : Prop :=
  String.length id = 8%nat ∧ sforall is_alphanumeric id = true.

(** Neither blank nor padded. *)
Definition trimmed_ok (s : string) : Prop := s ≠ "" ∧ trim s = s.

Definition loaders_ok (loaders : list string) : Prop :=
  Forall (λ l, text_ok l 128) loaders ∧ NoDup (to_ascii_lowercase <$> loaders).

Definition hardware_ok (h : HardwareRequirement) : Prop :=
  text_ok (req_gpu_vendor h) 64 ∧
  0 ≤ req_gpu_arch_min h ≤ 1048576 ∧ 0 ≤ req_min_ram_mb h ≤ 1048576 ∧
  0 ≤ req_min_cores h ≤ 1048576.

Definition composition_ok (c : CompositionDef) : Prop :=
  cd_id c ≠ "" ∧ text_ok (cd_id c) 128 ∧ text_ok (cd_display_name c) 256 ∧
  text_ok (cd_description c) 1024 ∧ text_ok (cd_jvm_preset c) 256 ∧
  (length (cd_families c) ≤ 64)%nat ∧ (length (cd_loaders c) ≤ 64)%nat ∧
  (length (cd_mods c) ≤ 256)%nat ∧ loaders_ok (cd_loaders c).

Definition artifact_ok (a : ManagedArtifactDefinition) : Prop :=
  trim (ad_id a) ≠ "" ∧ text_ok (ad_id a) 128 ∧
  text_ok (ds_project_id (ad_source a)) 128 ∧ project_id_ok (ds_project_id (ad_source a)) ∧
  text_ok (ds_slug (ad_source a)) 128 ∧ trimmed_ok (ds_slug (ad_source a)) ∧
  ad_ownership_class a = CompositionManaged.

Section spec.
Context `{Unicode} (rfc3339 : string → bool).

Definition version_range_ok (range : string) : Prop :=
  Forall (λ c, parse_version (split_range_condition c).2 ≠ None)
    (split_whitespace (trim range)).

Definition exact_version_ok (v : string) : Prop :=
  text_ok v 64 ∧ trimmed_ok v ∧ parse_version v ≠ None.

Definition exclusions_ok (l : list string) : Prop :=
  (length l ≤ 64)%nat ∧ Forall (λ e, trimmed_ok e ∧ text_ok e 128) l ∧
  NoDup (to_lowercase <$> l).

(** A mod is tied to a declared artifact, and its selectors make sense. *)
Definition mod_ok (artifacts : list ManagedArtifactDefinition) (m : ManagedMod) : Prop :=
  trim (mm_artifact_id m) ≠ "" ∧
  text_ok (mm_artifact_id m) 128 ∧ text_ok (mm_project_id m) 128 ∧ text_ok (mm_slug m) 128 ∧
  text_ok (mm_name m) 256 ∧ text_ok (mm_version_range m) 256 ∧
  (∃ a, a ∈ artifacts ∧ to_lowercase (ad_id a) = to_lowercase (mm_artifact_id m) ∧
        mm_project_id m = ds_project_id (ad_source a) ∧
        mm_slug m = ds_slug (ad_source a)) ∧
  version_range_ok (mm_version_range m) ∧
  (length (mm_exact_game_versions m) ≤ 64)%nat ∧
  (trim (mm_version_range m) ≠ "" → mm_exact_game_versions m = []) ∧
  Forall exact_version_ok (mm_exact_game_versions m) ∧ NoDup (mm_exact_game_versions m) ∧
  (∀ h, mm_hardware_req m = Some h → hardware_ok h) ∧
  exclusions_ok (mm_mutual_exclusions m).

Definition disable_target_ok (manifest : Manifest) (d : EmergencyDisable) : Prop :=
  match ed_target d with
  | Composition => ∃ c, c ∈ mf_compositions manifest ∧ cd_id c = ed_target_id d
  | Artifact =>
      ∃ a, a ∈ mf_artifacts manifest ∧
        (to_lowercase (ad_id a) = to_lowercase (ed_target_id d) ∨
         to_lowercase (ds_project_id (ad_source a)) = to_lowercase (ed_target_id d))
  end.

Definition disable_ok (manifest : Manifest) (d : EmergencyDisable) : Prop :=
  trim (ed_id d) ≠ "" ∧ trim (ed_target_id d) ≠ "" ∧ trim (ed_reason d) ≠ "" ∧
  text_ok (ed_id d) 128 ∧ text_ok (ed_target_id d) 128 ∧ text_ok (ed_reason d) 1024 ∧
  (length (ed_families d) ≤ 64)%nat ∧ (length (ed_loaders d) ≤ 64)%nat ∧
  (length (ed_tiers d) ≤ 64)%nat ∧ loaders_ok (ed_loaders d) ∧
  disable_target_ok manifest d.

Definition manifest_ok (m : Manifest) : Prop :=
  mf_schema_version m = 3 ∧
  text_ok (mf_generated_at m) 64 ∧ rfc3339 (mf_generated_at m) = true ∧
  text_ok (mf_minimum_app_version m) 64 ∧
  is_ok (validate_app_version_compatibility (mf_minimum_app_version m)) = true ∧
  mf_rule_channel m ∈ ["bundled"; "local"; "remote"] ∧
  (length (mf_artifacts m) ≤ 256)%nat ∧ (length (mf_compositions m) ≤ 256)%nat ∧
  (length (mf_emergency_disables m) ≤ 256)%nat ∧
  Forall artifact_ok (mf_artifacts m) ∧ NoDup (to_lowercase ∘ ad_id <$> mf_artifacts m) ∧
  Forall composition_ok (mf_compositions m) ∧ NoDup (cd_id <$> mf_compositions m) ∧
  Forall (λ c, Forall (mod_ok (mf_artifacts m)) (cd_mods c)) (mf_compositions m) ∧
  Forall (disable_ok m) (mf_emergency_disables m) ∧ NoDup (ed_id <$> mf_emergency_disables m).
End spec.

(** ** The checks decide their specifications *)

Lemma bool_guard_nat (m n : nat) : (m <? n)%nat = false ↔ (n ≤ m)%nat.
Proof. rewrite Nat.ltb_ge. done. Qed.

Lemma validate_count_ok n max f u : validate_count n max f = Ok u ↔ (n ≤ max)%nat.
Proof. unfold validate_count. by rewrite err_if_ok, bool_guard_nat. Qed.

Lemma validate_text_ok v max f u : validate_text v max f = Ok u ↔ text_ok v max.
Proof. unfold validate_text, text_ok. by rewrite err_if_ok, orb_false_iff, bool_guard_nat. Qed.

Lemma validate_optional_text_ok v max f : validate_optional_text v max f = Ok tt ↔ text_ok v max.
Proof.
  unfold validate_optional_text. destruct (is_empty v) eqn:E; [|apply validate_text_ok].
  apply is_empty_spec in E as ->. split; [|done]. intros _. split; [|done]. cbn. lia.
Qed.

Lemma validate_modrinth_project_id_ok v f u :
  validate_modrinth_project_id v f = Ok u ↔ project_id_ok v.
Proof.
  unfold validate_modrinth_project_id, project_id_ok.
  by rewrite err_if_ok, orb_false_iff, !negb_false_iff, Nat.eqb_eq.
Qed.

Lemma not_empty_ok {E} s (e : E) u : err_if (is_empty s) e = Ok u ↔ s ≠ "".
Proof. by rewrite err_if_ok, is_empty_false. Qed.

Lemma eqb_guard_ok {E} a b (e : E) u : err_if (negb (str_eqb a b)) e = Ok u ↔ a = b.
Proof. by rewrite err_if_ok, negb_false_iff, str_eqb_spec. Qed.

Lemma decide_guard_ok {E} (P : Prop) `{Decision P} (e : E) u :
  err_if (negb (bool_decide P)) e = Ok u ↔ P.
Proof. by rewrite err_if_ok, negb_false_iff, bool_decide_eq_true. Qed.

Lemma z_guard_ok {E} a b v (e : E) u :
  err_if (negb ((a <=? v) && (v <=? b))) e = Ok u ↔ a ≤ v ≤ b.
Proof. rewrite err_if_ok, negb_false_iff, andb_true_iff, !Z.leb_le. done. Qed.

Create Rewrite HintDb validation.
#[export] Hint Rewrite validate_count_ok validate_text_ok validate_optional_text_ok
  validate_modrinth_project_id_ok @not_empty_ok @eqb_guard_ok @decide_guard_ok @z_guard_ok :
  validation.

(** Reduce a sequence of checks to the conjunction of what they decide. *)
Ltac decide_checks :=
  repeat first
    [ rewrite bind_ok_unit
    | rewrite try_for_each_ok
    | progress autorewrite with validation ].

Lemma validate_unique_text_ok l f u :
  validate_unique_text l f = Ok u ↔ NoDup (to_ascii_lowercase <$> l).
Proof.
  destruct u. unfold validate_unique_text. rewrite (keyed_unit_ok to_ascii_lowercase _ (λ _, True)).
  - split; [by intros [_ ?]|]. split; [|done]. by apply list.Forall_forall.
  - intros s x s'. rewrite insert_new_ok. unfold id, add_key. naive_solver.
Qed.

Lemma validate_hardware_ok m :
  validate_managed_mod_hardware_req m = Ok tt ↔
  (∀ h, mm_hardware_req m = Some h → hardware_ok h).
Proof.
  unfold validate_managed_mod_hardware_req. destruct (mm_hardware_req m) as [h|]; [|naive_solver].
  unfold hardware_ok. decide_checks. rewrite !list.Forall_cons, list.Forall_nil.
  unfold MAX_HARDWARE_VALUE. autorewrite with validation. naive_solver.
Qed.

Lemma validate_rule_channel_ok c u :
  validate_rule_channel c = Ok u ↔ c ∈ ["bundled"; "local"; "remote"].
Proof.
  unfold validate_rule_channel. rewrite bind_ok_unit, not_empty_ok, err_if_ok, negb_false_iff.
  rewrite existsb_exists. split.
  - intros [_ (x & Hx & E%str_eqb_spec)]. subst x. by apply list_elem_of_In.
  - intros Hc. split; [|exists c; split; [by apply list_elem_of_In|by apply str_eqb_spec]].
    rewrite !elem_of_cons in Hc. destruct Hc as [->|[->|[->|[]%elem_of_nil]]]; by vm_compute.
Qed.

Lemma alphanumeric_plain c :
  is_alphanumeric c = true → is_ascii_byte c && negb (is_whitespace (char1 c)) = true.
Proof. by destruct c as [[] [] [] [] [] [] [] []]; vm_compute. Qed.

Lemma project_id_not_blank id : project_id_ok id → trim id ≠ "".
Proof.
  intros [Hl Ha]. rewrite trim_plain_word; [by destruct id|].
  eapply sforall_impl, Ha. apply alphanumeric_plain.
Qed.

Lemma rule_channel_text c : c ∈ ["bundled"; "local"; "remote"] → text_ok c 32.
Proof.
  rewrite !elem_of_cons. intros [->|[->|[->|[]%elem_of_nil]]]; (split; [by apply Nat.leb_le; vm_compute|by vm_compute]).
Qed.

Section checks.
Context `{Unicode}.

Lemma validate_version_range_ok m :
  validate_managed_mod_version_range m = Ok tt ↔ version_range_ok (mm_version_range m).
Proof.
  unfold validate_managed_mod_version_range, version_range_ok.
  destruct (is_empty (trim (mm_version_range m))) eqn:E.
  { apply is_empty_spec in E. rewrite E. split; [|done]. intros _. apply Forall_nil_2. }
  rewrite try_for_each_ok. apply Forall_iff. intros c; cbv beta.
  destruct (split_range_condition c) as [o t]. simpl. by destruct (parse_version t).
Qed.

Lemma validate_exact_versions_ok m :
  validate_managed_mod_exact_game_versions m = Ok tt ↔
  ((trim (mm_version_range m) ≠ "" → mm_exact_game_versions m = []) ∧
   Forall exact_version_ok (mm_exact_game_versions m) ∧ NoDup (mm_exact_game_versions m)).
Proof.
  unfold validate_managed_mod_exact_game_versions.
  rewrite bind_ok_unit, err_if_ok, andb_false_iff, !negb_false_iff, is_empty_spec, bool_decide_eq_true.
  rewrite (keyed_unit_ok id _ exact_version_ok).
  - rewrite list_fmap_id. destruct (decide (trim (mm_version_range m) = "")); naive_solver.
  - intros s x s'. rewrite !bind_ok_unit, insert_new_ok, validate_text_ok, err_if_ok.
    rewrite !orb_false_iff, negb_false_iff, str_eqb_spec, is_empty_false.
    unfold exact_version_ok, trimmed_ok, id, add_key.
    destruct (parse_version x); naive_solver.
Qed.

Lemma validate_exclusions_ok m :
  validate_managed_mod_mutual_exclusions m = Ok tt ↔ exclusions_ok (mm_mutual_exclusions m).
Proof.
  unfold validate_managed_mod_mutual_exclusions, exclusions_ok. decide_checks.
  rewrite (keyed_unit_ok to_lowercase _ (λ e, trimmed_ok e ∧ text_ok e 128)); [done|].
  intros s x s'. rewrite !bind_ok_unit, insert_new_ok, validate_text_ok, err_if_ok.
  rewrite orb_false_iff, negb_false_iff, str_eqb_spec, is_empty_false.
  unfold trimmed_ok, id, add_key. split.
  - intros ((Hn & Ht) & ? & ? & ?). rewrite Ht in Hn. done.
  - intros (((Hn & Ht) & ?) & ? & ?). rewrite Ht. done.
Qed.

(** The artifacts by lower-case identifier. *)
Definition artifact_key (a : ManagedArtifactDefinition) : string := to_lowercase (ad_id a).
Definition add_artifact (acc : gset string * gmap string ManagedArtifactDefinition)
    (a : ManagedArtifactDefinition) := ({[artifact_key a]} ∪ acc.1, <[artifact_key a := a]> acc.2).

Lemma validate_artifact_check : keyed_check artifact_key fst add_artifact validate_artifact artifact_ok.
Proof.
  intros [ids by_id] a s'. unfold validate_artifact, artifact_ok, trimmed_ok, add_artifact.
  fold (artifact_key a). simpl. decide_checks. rewrite bind_ok.
  setoid_rewrite insert_new_ok. split.
  - intros (? & ? & ? & ? & ids' & (Hk & ->) & Hrest). revert Hrest. decide_checks.
    intros (? & ? & Ht & Hs & ? & [= <-]). rewrite Hs in Ht. naive_solver.
  - intros ((? & ? & ? & ? & ? & (? & Hs) & ?) & Hk & ->). split_and!; try done.
    exists ({[artifact_key a]} ∪ ids). split; [done|]. decide_checks. rewrite Hs.
    split_and!; try done. by apply project_id_not_blank.
Qed.

Lemma lookup_artifacts l m k a :
  NoDup (artifact_key <$> l) →
  (∀ x, x ∈ l → m !! artifact_key x = None) →
  (foldl add_artifact (∅, m) l).2 !! k = Some a ↔ (a ∈ l ∧ artifact_key a = k) ∨ m !! k = Some a.
Proof.
  generalize (∅ : gset string) as s. intros s. revert s m.
  induction l as [|x l IH]; intros s m; simpl.
  { intros _ _. split; [by right|]. by intros [[?%elem_of_nil _]|?]. }
  change (add_artifact (s, m) x) with ({[artifact_key x]} ∪ s, <[artifact_key x := x]> m).
  intros [Hx Hnd]%list.NoDup_cons Hm. rewrite IH; [|done|].
  - rewrite lookup_insert_Some. split.
    + intros [[? ?]|[[<- <-]|[? ?]]]; [left; split; [by right|done]|left; split; [left|done]|by right].
    + intros [[[->|?]%elem_of_cons <-]|Hk]; [naive_solver|naive_solver|].
      right. right. split; [|done]. intros <-.
      rewrite (Hm x) in Hk; [done|left].
  - intros y Hy. apply lookup_insert_None. split; [apply Hm; by right|].
    intros E. apply Hx. rewrite E. by apply list_elem_of_fmap_2.
Qed.

Lemma validate_artifacts_ok l by_id :
  validate_artifacts l = Ok by_id ↔
  (Forall artifact_ok l ∧ NoDup (artifact_key <$> l) ∧ by_id = (foldl add_artifact (∅, ∅) l).2).
Proof.
  unfold validate_artifacts. rewrite bind_ok.
  pose proof (keyed_fold_ok artifact_key fst add_artifact (λ s x, eq_refl)
    validate_artifact artifact_ok l (∅, ∅)) as Hf. split.
  - intros ([ids m] & (? & ? & _ & Em)%(Hf _ validate_artifact_check) & [= <-]).
    by rewrite <-Em.
  - intros (? & ? & ->). exists (foldl add_artifact (∅, ∅) l). split.
    + apply Hf; [apply validate_artifact_check|]. by split_and!.
    + by destruct (foldl _ _ _).
Qed.

Lemma validated_artifact_lookup l by_id k a :
  validate_artifacts l = Ok by_id → by_id !! k = Some a ↔ (a ∈ l ∧ artifact_key a = k).
Proof.
  intros (_ & Hnd & ->)%validate_artifacts_ok. rewrite lookup_artifacts; [|done|by intros].
  rewrite lookup_empty. naive_solver.
Qed.

Lemma validate_mod_ok l by_id m :
  validate_artifacts l = Ok by_id →
  validate_managed_mod_artifact by_id m = Ok tt ↔ mod_ok l m.
Proof.
  intros Hl. unfold validate_managed_mod_artifact, mod_ok. decide_checks. rewrite bind_ok.
  setoid_rewrite ok_or_ok. setoid_rewrite (validated_artifact_lookup _ _ _ _ Hl).
  unfold MAX_ID_CHARS, MAX_NAME_CHARS, MAX_VERSION_RANGE_CHARS, MAX_FILTER_ITEMS. split.
  - intros (? & ? & ? & ? & ? & ? & ? & a & (? & ?) & Hrest). revert Hrest. decide_checks.
    rewrite validate_version_range_ok, validate_exact_versions_ok, validate_hardware_ok,
      validate_exclusions_ok.
    intros (_ & _ & ? & ? & ? & (? & ? & ?) & ? & ?). split_and!; try done.
    exists a. by split_and!.
  - intros (? & ? & ? & ? & ? & ? & (a & Ha & ? & Hp & Hs) & ? & ? & ? & ? & ? & ? & ?).
    split_and!; try done. exists a. split; [done|]. decide_checks.
    rewrite validate_version_range_ok, validate_exact_versions_ok, validate_hardware_ok,
      validate_exclusions_ok.
    apply validate_artifacts_ok in Hl as (Hall & _). rewrite list.Forall_forall in Hall.
    destruct (Hall a Ha) as (_ & _ & _ & ? & _ & (_ & ?) & _).
    rewrite Hp, Hs. by split_and!.
Qed.

Lemma validate_composition_check :
  keyed_check cd_id id (add_key cd_id) validate_composition composition_ok.
Proof.
  intros s c s'. unfold validate_composition, composition_ok, loaders_ok, id, add_key.
  decide_checks. rewrite insert_new_ok, validate_unique_text_ok.
  setoid_rewrite validate_text_ok. tauto.
Qed.

Lemma declared_targets_spec l k :
  k ∈ declared_artifact_targets l ↔
  ∃ a, a ∈ l ∧ (to_lowercase (ad_id a) = k ∨ to_lowercase (ds_project_id (ad_source a)) = k).
Proof.
  unfold declared_artifact_targets.
  enough (∀ s, k ∈ fold_left (λ t a, {[to_lowercase (ds_project_id (ad_source a))]} ∪
      ({[to_lowercase (ad_id a)]} ∪ t)) l s ↔ k ∈ s ∨
    ∃ a, a ∈ l ∧ (to_lowercase (ad_id a) = k ∨
      to_lowercase (ds_project_id (ad_source a)) = k)) as E by (rewrite E; set_solver).
  induction l as [|x l IH]; intros s; simpl; [set_solver|].
  rewrite IH. set_solver.
Qed.

Lemma validate_disable_check manifest ids :
  ids = list_to_set (cd_id <$> mf_compositions manifest) →
  keyed_check ed_id id (add_key ed_id)
    (validate_disable ids (declared_artifact_targets (mf_artifacts manifest)))
    (disable_ok manifest).
Proof.
  intros -> s d s'. unfold validate_disable, disable_ok, disable_target_ok, loaders_ok, id, add_key.
  decide_checks. rewrite bind_ok. setoid_rewrite insert_new_ok.
  rewrite validate_unique_text_ok. setoid_rewrite validate_text_ok.
  assert (∀ ids' : gset string,
    (err_if (is_empty (trim (ed_target_id d))) MissingEmergencyDisableTargetId ;;
     err_if (is_empty (trim (ed_reason d))) MissingEmergencyDisableReason ;;
     match ed_target d with
     | Composition =>
         err_if (negb (bool_decide
           (ed_target_id d ∈@{gset string} list_to_set (cd_id <$> mf_compositions manifest))))
           (UnknownEmergencyDisableComposition (ed_target_id d))
     | Artifact =>
         err_if (negb (bool_decide (to_lowercase (ed_target_id d)
           ∈ declared_artifact_targets (mf_artifacts manifest))))
           (UnknownEmergencyDisableArtifact (ed_target_id d))
     end ;; Ok ids') = Ok s' ↔
    (trim (ed_target_id d) ≠ "" ∧ trim (ed_reason d) ≠ "" ∧ disable_target_ok manifest d ∧
     ids' = s')) as Hrest.
  { intros ids'. unfold disable_target_ok. destruct (ed_target d); decide_checks.
    - rewrite elem_of_list_to_set, list_elem_of_fmap. naive_solver.
    - rewrite declared_targets_spec. naive_solver. }
  setoid_rewrite Hrest. unfold disable_target_ok, MAX_ID_CHARS, MAX_DESCRIPTION_CHARS, MAX_FILTER_ITEMS.
  naive_solver.
Qed.
End checks.

Section manifest.
Context `{Unicode} (rfc3339 : string → bool).

Lemma validate_app_ok v :
  validate_app_version_compatibility v = Ok tt ↔
  is_ok (validate_app_version_compatibility v) = true.
Proof. by destruct (validate_app_version_compatibility v) as [[]|]. Qed.

Lemma validate_compositions_mods l by_id (cs : list CompositionDef) :
  validate_artifacts l = Ok by_id →
  try_for_each (λ c, try_for_each (validate_managed_mod_artifact by_id) (cd_mods c)) cs = Ok tt ↔
  Forall (λ c, Forall (mod_ok l) (cd_mods c)) cs.
Proof.
  intros Hl. rewrite try_for_each_ok. apply Forall_iff. intros c. cbv beta.
  rewrite try_for_each_ok. apply Forall_iff. intros m. by apply validate_mod_ok.
Qed.

Lemma validate_manifest_tail m :
  (artifacts ← validate_artifacts (mf_artifacts m);
   ids ← try_fold validate_composition ∅ (mf_compositions m);
   try_for_each (λ c, try_for_each (validate_managed_mod_artifact artifacts) (cd_mods c))
     (mf_compositions m) ;;
   try_fold (validate_disable ids (declared_artifact_targets (mf_artifacts m))) ∅
     (mf_emergency_disables m) ;;
   Ok tt) = Ok tt ↔
  (Forall artifact_ok (mf_artifacts m) ∧ NoDup (to_lowercase ∘ ad_id <$> mf_artifacts m) ∧
   Forall composition_ok (mf_compositions m) ∧ NoDup (cd_id <$> mf_compositions m) ∧
   Forall (λ c, Forall (mod_ok (mf_artifacts m)) (cd_mods c)) (mf_compositions m) ∧
   Forall (disable_ok m) (mf_emergency_disables m) ∧ NoDup (ed_id <$> mf_emergency_disables m)).
Proof.
  pose proof (λ s, keyed_set_ok cd_id _ _ (mf_compositions m) s validate_composition_check) as Hc.
  rewrite bind_ok. split.
  - intros (by_id & Ha & (ids & (? & ? & ->)%Hc & [Hm Hd]%bind_ok_unit)%bind_ok).
    apply (validate_compositions_mods _ _ _ Ha) in Hm.
    apply (keyed_unit_ok ed_id _ _ _ (validate_disable_check m _ eq_refl)) in Hd as [? ?].
    apply validate_artifacts_ok in Ha as (? & ? & _). by split_and!.
  - intros (? & ? & ? & ? & Hm & ? & ?).
    assert (validate_artifacts (mf_artifacts m) = Ok (foldl add_artifact (∅, ∅) (mf_artifacts m)).2)
      as Ha by by apply validate_artifacts_ok.
    eexists. split; [exact Ha|]. apply bind_ok. eexists. split; [by apply Hc|].
    apply bind_ok_unit. split; [by apply (validate_compositions_mods _ _ _ Ha)|].
    by apply (keyed_unit_ok ed_id _ _ _ (validate_disable_check m _ eq_refl)).
Qed.

Lemma validate_manifest_ok m : validate_manifest rfc3339 m = Ok tt ↔ manifest_ok rfc3339 m.
Proof.
  unfold validate_manifest, manifest_ok. rewrite !bind_ok_unit, validate_manifest_tail.
  rewrite !validate_text_ok, !validate_count_ok, validate_rule_channel_ok, validate_app_ok.
  rewrite !err_if_ok, !negb_false_iff, Z.eqb_eq.
  unfold PERFORMANCE_MANIFEST_SCHEMA_VERSION, MAX_MANIFEST_ITEMS.
  pose proof (rule_channel_text (mf_rule_channel m)). tauto.
Qed.

(** C37: Validation accepts a manifest exactly when it is well formed. *)
Theorem validate_manifest_iff m : validate_manifest rfc3339 m = Ok tt ↔ manifest_ok rfc3339 m.
Proof. apply validate_manifest_ok. Qed.
End manifest.
