(* ===== verification/PerfEmergency.v ===== *)
(** * Emergency disables, from the validated manifest to the plan

    The validator ([resolve/validation.rs]) and the planner
    ([resolve/planner.rs]) each decide which artifact an emergency disable
    names: the first by Unicode lower case, the second by ASCII case folding.
    On ASCII identifiers the two agree and a validated disable always takes
    effect; beyond ASCII they part. *)

From S2P Require Import Prelude RustStr PerfTypes PerfVersion PerfAppVersion PerfPlanner PerfValidation.

(** The composition [d] with which a plan was built, and what it says of a mod. *)
Section effect.
Context `{Unicode} (rfc3339 : string → bool).
Variable manifest : Manifest.

(** On ASCII text the two notions of equality up to case agree. *)
Lemma eq_ignore_case_ascii a b :
  is_ascii a = true → is_ascii b = true →
  eq_ignore_ascii_case a b = true ↔ to_lowercase a = to_lowercase b.
Proof.
  intros Ha Hb. unfold to_lowercase. rewrite Ha, Hb. apply eq_ignore_ascii_case_spec.
Qed.

Lemma eq_ignore_case_is_ascii a b :
  eq_ignore_ascii_case a b = true → is_ascii a = is_ascii b.
Proof. intros E%eq_ignore_ascii_case_spec. by rewrite <-is_ascii_lower, E, is_ascii_lower. Qed.

(** The artifact the planner finds for a mod is the one the validator tied
    it to. *)
Lemma planner_finds_artifact a m :
  NoDup (to_lowercase ∘ ad_id <$> mf_artifacts manifest) →
  a ∈ mf_artifacts manifest → is_ascii (ad_id a) = true → is_ascii (mm_artifact_id m) = true →
  to_lowercase (ad_id a) = to_lowercase (mm_artifact_id m) →
  List.find (λ artifact, eq_ignore_ascii_case (ad_id artifact) (mm_artifact_id m))
    (mf_artifacts manifest) = Some a.
Proof.
  intros Hnd Ha Has Hms E.
  destruct (List.find _ _) as [b|] eqn:Ef.
  - apply find_some in Ef as [Hb Hbm]. apply list_elem_of_In in Hb. f_equal.
    apply (NoDup_fmap_inj _ _ b a Hnd); [done|done|]. simpl. rewrite E.
    apply eq_ignore_case_ascii; [|done|done].
    by rewrite (eq_ignore_case_is_ascii _ _ Hbm).
  - exfalso. apply (find_none _ _) with (x := a) in Ef; [|by apply list_elem_of_In].
    simpl in Ef. rewrite (proj2 (eq_ignore_case_ascii _ _ Has Hms)) in Ef; done.
Qed.

(** A validated disable that names the artifact or the project of a mod, up
    to ASCII case, matches the mod. *)
Lemma validated_target_matches disable m c :
  validate_manifest rfc3339 manifest = Ok tt →
  c ∈ mf_compositions manifest → m ∈ cd_mods c →
  (∀ a, a ∈ mf_artifacts manifest → is_ascii (ad_id a) = true) →
  is_ascii (mm_artifact_id m) = true →
  eq_ignore_ascii_case (ed_target_id disable) (mm_artifact_id m) = true ∨
  eq_ignore_ascii_case (ed_target_id disable) (mm_project_id m) = true →
  artifact_target_matches manifest disable m = true.
Proof.
  rewrite validate_manifest_ok.
  intros (_ & _ & _ & _ & _ & _ & _ & _ & _ & _ & Hnd & _ & _ & Hmods & _) Hc Hm Hasc Hma Ht.
  rewrite list.Forall_forall in Hmods. specialize (Hmods c Hc).
  rewrite list.Forall_forall in Hmods. specialize (Hmods m Hm).
  destruct Hmods as (_ & _ & _ & _ & _ & _ & (a & Ha & Hid & Hp & _) & _).
  unfold artifact_target_matches.
  rewrite (planner_finds_artifact a m); try done; [|by apply Hasc].
  rewrite <-Hp. apply orb_true_iff. destruct Ht as [Ht|Ht]; [left|by right].
  apply eq_ignore_ascii_case_spec in Ht. apply eq_ignore_ascii_case_spec. rewrite Ht.
  assert (eq_ignore_ascii_case (ad_id a) (mm_artifact_id m) = true) as E.
  { apply eq_ignore_case_ascii; [by apply Hasc|done|done]. }
  by apply eq_ignore_ascii_case_spec in E.
Qed.

(** When the manifest validates and its identifiers are ASCII, an
    emergency disable in force that names a mod's artifact or project, in
    whatever case, keeps that mod out of the plan. *)
Theorem validated_disable_effective request disable m :
  let plan := resolve_plan (Some manifest) request in
  validate_manifest rfc3339 manifest = Ok tt →
  (∀ a, a ∈ mf_artifacts manifest → is_ascii (ad_id a) = true) →
  is_ascii (mm_artifact_id m) = true →
  disable ∈ mf_emergency_disables manifest → ed_target disable = Artifact →
  disable_applies disable (request_family request) (request_loader request)
    (plan_tier plan) = true →
  eq_ignore_ascii_case (ed_target_id disable) (mm_artifact_id m) = true ∨
  eq_ignore_ascii_case (ed_target_id disable) (mm_project_id m) = true →
  m ∉ plan_mods plan.
Proof.
  intros plan Hv Hasc Hma Hd Hart Happ Ht Hm.
  destruct (plan_mod_origin manifest request disable m Hm Hd Happ)
    as (c & Hc & _ & _ & Hmc & _ & Hn).
  apply Hn. split; [done|]. by apply (validated_target_matches disable m c).
Qed.
End effect.

Lemma validated_disable_effective_witness :
  let _ := ascii_unicode in
  sample_mod "sodium" "AANobbMI" "sodium"
    ∉ plan_mods (resolve_plan (Some (sample_manifest "sodium" "SODIUM")) sample_request).
Proof.
  intros U.
  apply (@validated_disable_effective U (λ _, true) _ _ (sample_disable "SODIUM")).
  - by vm_compute.
  - intros a. simpl. rewrite !elem_of_cons. intros [->|[->|[->|[]%elem_of_nil]]]; by vm_compute.
  - by vm_compute.
  - left.
  - done.
  - by vm_compute.
  - left. by vm_compute.
Defined.

(** ** Beyond ASCII *)

(** The lower case of one non-ASCII letter, [U+00C9], is [U+00E9]. *)
Fixpoint lower_e_acute (s : string) : string :=
  match s with
  | String a s' =>
      if (byte_n a =? 195)%N
      then match s' with
           | String b s =>
               String a (String (if (byte_n b =? 137)%N then ascii_of_N 169 else b)
                 (lower_e_acute s))
           | "" => s
           end
      else String (lower_byte a) (lower_e_acute s')
  | "" => ""
  end.

Definition e_acute_unicode : Unicode := {|
  nonascii_to_lowercase := lower_e_acute;
  nonascii_to_uppercase := to_ascii_uppercase;
  nonascii_is_decimal _ := false |}.

Definition upper_id : string := "Sodium" +:+ bytes [195; 137]%N.
Definition lower_id : string := "sodium" +:+ bytes [195; 169]%N.

(** The validator accepts an emergency disable whose target differs from
    the artifact's identifier in the case of a non-ASCII letter, the disable
    is in force, and the planner still hands out the mod. *)
Theorem non_ascii_disable_ignored :
  let _ := e_acute_unicode in
  let manifest := sample_manifest upper_id lower_id in
  let m := sample_mod upper_id "AANobbMI" "sodium" in
  let plan := resolve_plan (Some manifest) sample_request in
  validate_manifest (λ _, true) manifest = Ok tt ∧
  to_lowercase lower_id = to_lowercase (mm_artifact_id m) ∧
  disable_applies (sample_disable lower_id) (request_family sample_request)
    (request_loader sample_request) (plan_tier plan) = true ∧
  m ∈ plan_mods plan.
Proof.
  split; [by vm_compute|]. split; [by vm_compute|]. split; [by vm_compute|].
  apply list_elem_of_In. vm_compute. auto.
Qed.
