(* ===== verification/TaskExclusion.v ===== *)
(** * Exclusion leases ([core/app/src/tasks/exclusion.rs])

    [Exclusions] keeps, under one mutex, the map from reserved keys to how
    they are held.  [acquire] reserves a whole key set at once; dropping the
    last clone of a lease releases it.  The store of reference-counted
    reservations is explicit: [ex_reservations] maps the identity of an
    [Arc<Reservation>] to its value and strong count.  Collecting the keys
    touches no shared state and the rest of [acquire] and the whole of
    [Drop::drop] run under the mutex, so one operation is one step and the
    interleavings of threads are the sequences of steps.  [belongs_to], a
    pointer comparison between tables, is not modelled: there is one table. *)

From S2P Require Import Prelude RustStr.

Definition MAX_KEYS_PER_LEASE : nat := 256.
Definition MAX_IDENTITY_BYTES : Z := 512.

Record ArtifactKey := { ak_root : string; ak_artifact : string }.

Inductive Key :=
| Target (target : string)
| ArtifactK (artifact : ArtifactKey).

Inductive ArtifactAccess := Read | Write.

Inductive Held :=
| Exclusive
| Readers (count : Z).

Inductive ExclusionError := InvalidIdentity | TooManyKeys | Busy.

#[global] Instance ArtifactKey_eq_dec : EqDecision ArtifactKey.
Proof. solve_decision. Defined.
#[global] Instance Key_eq_dec : EqDecision Key.
Proof. solve_decision. Defined.
#[global] Instance ArtifactAccess_eq_dec : EqDecision ArtifactAccess.
Proof. solve_decision. Defined.
#[global] Instance Key_countable : Countable Key.
Proof.
  refine (inj_countable'
    (λ k, match k with Target t => inl t | ArtifactK a => inr (ak_root a, ak_artifact a) end)
    (λ s, match s with inl t => Target t | inr (r, a) => ArtifactK {| ak_root := r; ak_artifact := a |} end) _).
  by intros [t|[r a]].
Defined.

Record Reservation := { res_keys : gset Key; res_access : ArtifactAccess }.

(** An [Arc<Reservation>]: the value and the number of leases that share it. *)
Record ArcReservation := { arc_strong : Z; arc_value : Reservation }.

Record Exclusions := {
  ex_held : gmap Key Held;
  ex_reservations : gmap nat ArcReservation;
  ex_next : nat;
}.

Definition new_exclusions : Exclusions :=
  {| ex_held := ∅; ex_reservations := ∅; ex_next := 0 |}.

Definition valid_identity (value : string) : bool :=
  negb (is_empty value) && (str_len value <=? MAX_IDENTITY_BYTES) &&
  negb (existsb is_control (chars value)).

Definition valid_key (key : Key) : bool :=
  match key with
  | Target target => valid_identity target
  | ArtifactK artifact => valid_identity (ak_root artifact) && valid_identity (ak_artifact artifact)
  end.

(** The loop that checks and collects the requested keys. *)
Fixpoint collect_keys (index : nat) (requested : list Key) (keys : gset Key) :
    result ExclusionError (gset Key) :=
  match requested with
  | [] => Ok keys
  | key :: requested =>
      err_if (MAX_KEYS_PER_LEASE <=? index)%nat TooManyKeys ;;
      err_if (negb (valid_key key)) InvalidIdentity ;;
      collect_keys (S index) requested ({[key]} ∪ keys)
  end.

Definition requested_keys (targets : list string) (artifacts : list ArtifactKey) : list Key :=
  (Target <$> targets) ++ (ArtifactK <$> artifacts).

(** The test that refuses a key. *)
Definition conflicts (access : ArtifactAccess) (held : gmap Key Held) (key : Key) : bool :=
  match key, access, held !! key with
  | _, _, None => false
  | ArtifactK _, Read, Some (Readers count) =>
      match checked_add_u64 count 1 with None => true | Some _ => false end
  | _, _, _ => true
  end.

(** Publishing one key; [None] is the [unreachable!] panic. *)
Definition reserve_key (access : ArtifactAccess) (held : gmap Key Held) (key : Key) :
    option (gmap Key Held) :=
  match key, access with
  | ArtifactK _, Read =>
      match held !! key with
      | None => Some (<[key := Readers (0 + 1)]> held)
      | Some (Readers count) => Some (<[key := Readers (count + 1)]> held)
      | Some Exclusive => None
      end
  | _, _ => Some (<[key := Exclusive]> held)
  end.

Fixpoint reserve_keys (access : ArtifactAccess) (held : gmap Key Held) (keys : list Key) :
    option (gmap Key Held) :=
  match keys with
  | [] => Some held
  | key :: keys => held ← reserve_key access held key; reserve_keys access held keys
  end.

(** [None] is a panic; a lease is the identity of its reservation. *)
Definition acquire (targets : list string) (artifacts : list ArtifactKey)
    (access : ArtifactAccess) (self : Exclusions) :
    option (result ExclusionError nat * Exclusions) :=
  match collect_keys 0 (requested_keys targets artifacts) ∅ with
  | Err error => Some (Err error, self)
  | Ok keys =>
      if existsb (conflicts access (ex_held self)) (elements keys) then Some (Err Busy, self)
      else
        held ← reserve_keys access (ex_held self) (elements keys);
        let id := ex_next self in
        Some (Ok id,
          {| ex_held := held;
             ex_reservations :=
               <[id := {| arc_strong := 1;
                          arc_value := {| res_keys := keys; res_access := access |} |}]>
                 (ex_reservations self);
             ex_next := S id |})
  end.

Definition try_acquire (targets : list string) (artifacts : list ArtifactKey) :
    Exclusions → option (result ExclusionError nat * Exclusions) :=
  acquire targets artifacts Write.

Definition try_acquire_read_artifacts (targets : list string) (artifacts : list ArtifactKey) :
    Exclusions → option (result ExclusionError nat * Exclusions) :=
  acquire targets artifacts Read.

(** [Drop::drop] of a reservation. *)
Definition release_key (held : gmap Key Held) (key : Key) : gmap Key Held :=
  match held !! key with
  | Some (Readers count) => if 1 <? count then <[key := Readers (count - 1)]> held else delete key held
  | _ => delete key held
  end.

Definition drop_reservation (held : gmap Key Held) (reservation : Reservation) : gmap Key Held :=
  fold_left release_key (elements (res_keys reservation)) held.

(** [ExclusionLease::clone]. *)
Definition clone_lease (lease : nat) (self : Exclusions) : option Exclusions :=
  arc ← ex_reservations self !! lease;
  Some {| ex_held := ex_held self;
          ex_reservations :=
            <[lease := {| arc_strong := arc_strong arc + 1; arc_value := arc_value arc |}]>
              (ex_reservations self);
          ex_next := ex_next self |}.

(** Dropping an [ExclusionLease]: the last one drops the reservation. *)
Definition drop_lease (lease : nat) (self : Exclusions) : option Exclusions :=
  arc ← ex_reservations self !! lease;
  Some
    (if arc_strong arc =? 1 then
       {| ex_held := drop_reservation (ex_held self) (arc_value arc);
          ex_reservations := delete lease (ex_reservations self);
          ex_next := ex_next self |}
     else
       {| ex_held := ex_held self;
          ex_reservations :=
            <[lease := {| arc_strong := arc_strong arc - 1; arc_value := arc_value arc |}]>
              (ex_reservations self);
          ex_next := ex_next self |}).

Definition covers_target (reservation : Reservation) (target : string) : bool :=
  bool_decide (Target target ∈ res_keys reservation).

Definition covers_artifact (reservation : Reservation) (artifact : ArtifactKey) : bool :=
  bool_decide (ArtifactK artifact ∈ res_keys reservation).

Definition covers_artifact_write (reservation : Reservation) (artifact : ArtifactKey) : bool :=
  bool_decide (res_access reservation = Write) && covers_artifact reservation artifact.

Definition target_count (reservation : Reservation) : nat :=
  length (List.filter (λ key, match key with Target _ => true | _ => false end)
            (elements (res_keys reservation))).

Definition artifact_count (reservation : Reservation) : nat :=
  size (res_keys reservation) - target_count reservation.

(** ** The table describes the live reservations *)

(** Whether access to a key is shared: artifacts read, nothing else. *)
Definition shared_on (access : ArtifactAccess) (key : Key) : bool :=
  match key, access with ArtifactK _, Read => true | _, _ => false end.

Definition holds (key : Key) (arc : ArcReservation) : Prop := key ∈ res_keys (arc_value arc).

#[global] Instance holds_dec key arc : Decision (holds key arc).
Proof. unfold holds. apply _. Defined.

(** The live reservations that cover a key. *)
Definition holders (self : Exclusions) (key : Key) : gmap nat ArcReservation :=
  filter (λ p, holds key p.2) (ex_reservations self).

(** What the table must say of a key, given the reservations that cover it. *)
Definition entry_ok (hs : gmap nat ArcReservation) (key : Key) (entry : option Held) : Prop :=
  match entry with
  | None => hs = ∅
  | Some Exclusive =>
      ∃ id arc, hs = {[id := arc]} ∧ shared_on (res_access (arc_value arc)) key = false
  | Some (Readers count) =>
      hs ≠ ∅ ∧ count = Z.of_nat (size hs) ∧
      map_Forall (λ _ arc, shared_on (res_access (arc_value arc)) key = true) hs
  end.

Record Inv (self : Exclusions) : Prop := {
  inv_entries key : entry_ok (holders self key) key (ex_held self !! key);
  inv_fresh id : (ex_next self ≤ id)%nat → ex_reservations self !! id = None;
  inv_strong : map_Forall (λ _ arc, 1 ≤ arc_strong arc) (ex_reservations self);
}.

(** One operation of some thread. *)
Inductive step (self : Exclusions) : Exclusions → Prop :=
| step_acquire targets artifacts access r self' :
    acquire targets artifacts access self = Some (r, self') → step self self'
| step_clone lease self' : clone_lease lease self = Some self' → step self self'
| step_drop lease self' : drop_lease lease self = Some self' → step self self'.

Inductive reachable : Exclusions → Prop :=
| reachable_new : reachable new_exclusions
| reachable_step self self' : reachable self → step self self' → reachable self'.

Section invariant.

Lemma collect_keys_ok index requested keys keys' :
  collect_keys index requested keys = Ok keys' ↔
  ((index + length requested ≤ MAX_KEYS_PER_LEASE)%nat ∨ requested = []) ∧
  Forall (λ key, valid_key key = true) requested ∧ keys' = list_to_set requested ∪ keys.
Proof.
  revert index keys. induction requested as [|key l IH]; intros index keys; cbn [collect_keys length].
  - cbn [list_to_set]. rewrite (left_id_L ∅ (∪)). split; [intros [= ->]; split_and!; auto|by intros (_ & _ & ->)].
  - rewrite !bind_ok_unit, !err_if_ok, negb_false_iff, IH, list.Forall_cons, Nat.leb_gt.
    cbn [list_to_set]. assert (list_to_set l ∪ ({[key]} ∪ keys) = {[key]} ∪ list_to_set l ∪ keys) as ->
      by (apply set_eq; set_solver).
    split.
    + intros (? & ? & [?| ->] & ? & ?); split_and!; try done; left; simpl; lia.
    + intros ([?|?] & [? ?] & ?); [|done]. split_and!; try done; [lia|left; lia].
Qed.

(** What a table entry becomes when the key is reserved, and when a
    reservation of it is dropped. *)
Definition reserved (access : ArtifactAccess) (key : Key) (entry : option Held) : Held :=
  if shared_on access key then
    Readers (match entry with Some (Readers count) => count + 1 | _ => 1 end)
  else Exclusive.

Definition released (entry : option Held) : option Held :=
  match entry with
  | Some (Readers count) => if 1 <? count then Some (Readers (count - 1)) else None
  | _ => None
  end.

Lemma conflicts_false access held key :
  conflicts access held key = false ↔
  held !! key = None ∨
  shared_on access key = true ∧ ∃ n, held !! key = Some (Readers n) ∧ n + 1 ≤ u64_max.
Proof.
  unfold conflicts, shared_on, checked_add_u64.
  destruct key as [t|a], access; destruct (held !! _) as [[|n]|];
    try (split; [by auto|by intros [?|[? _]]]); try (split; [done|by intros [?|(_ & ? & ? & _)]]).
  destruct (n + 1 <=? u64_max) eqn:E; [apply Z.leb_le in E|apply Z.leb_gt in E]; [naive_solver|].
  split; [done|]. intros [?|(_ & m & [= ->] & ?)]; [done|lia].
Qed.

Lemma reserve_key_spec access held key :
  conflicts access held key = false →
  reserve_key access held key = Some (<[key := reserved access key (held !! key)]> held).
Proof.
  unfold conflicts, reserve_key, reserved, shared_on.
  by destruct key, access, (held !! _) as [[|n]|].
Qed.

Lemma conflicts_insert access held key key' entry :
  key ≠ key' → conflicts access (<[key := entry]> held) key' = conflicts access held key'.
Proof. intros Hne. unfold conflicts. destruct key', access; by rewrite lookup_insert_ne. Qed.

Lemma reserve_keys_spec access held keys :
  NoDup keys → Forall (λ key, conflicts access held key = false) keys →
  ∃ held', reserve_keys access held keys = Some held' ∧
    ∀ key, held' !! key = if bool_decide (key ∈ keys)
                          then Some (reserved access key (held !! key)) else held !! key.
Proof.
  intros Hnd. revert held. induction Hnd as [|key keys Hkey Hnd IH]; intros held Hc; simpl.
  { exists held. done. }
  apply list.Forall_cons in Hc as [Hk Hc]. rewrite reserve_key_spec by done. simpl.
  destruct (IH (<[key := reserved access key (held !! key)]> held)) as (held' & -> & Hl).
  { rewrite list.Forall_forall in Hc |- *. intros k Hin. rewrite conflicts_insert; [by apply Hc|].
    by intros ->. }
  exists held'. split; [done|]. intros k. rewrite Hl.
  destruct (decide (k = key)) as [->|Hne].
  - rewrite bool_decide_eq_false_2, bool_decide_eq_true_2 by (done || left).
    by rewrite lookup_insert_eq.
  - rewrite lookup_insert_ne by done.
    by rewrite (bool_decide_ext (k ∈ key :: keys) (k ∈ keys)) by (rewrite elem_of_cons; naive_solver).
Qed.

Lemma release_key_lookup held key key' :
  release_key held key !! key' = if bool_decide (key' = key) then released (held !! key) else held !! key'.
Proof.
  unfold release_key, released. case_bool_decide as E.
  - subst key'. destruct (held !! key) as [[|n]|]; try apply lookup_delete_eq.
    destruct (1 <? n); [apply lookup_insert_eq|apply lookup_delete_eq].
  - destruct (held !! key) as [[|n]|]; try by apply lookup_delete_ne.
    destruct (1 <? n); [by apply lookup_insert_ne|by apply lookup_delete_ne].
Qed.

Lemma release_keys_lookup held keys key :
  NoDup keys →
  fold_left release_key keys held !! key =
  if bool_decide (key ∈ keys) then released (held !! key) else held !! key.
Proof.
  intros Hnd. revert held. induction Hnd as [|k keys Hk Hnd IH]; intros held; simpl; [done|].
  rewrite IH, release_key_lookup. destruct (decide (key = k)) as [->|Hne].
  - by rewrite (bool_decide_eq_false_2 (k ∈ keys)), !bool_decide_eq_true_2 by (done || left).
  - rewrite (bool_decide_eq_false_2 (key = k)) by done.
    by rewrite (bool_decide_ext (key ∈ k :: keys) (key ∈ keys)) by (rewrite elem_of_cons; naive_solver).
Qed.

Lemma holders_lookup self key id arc :
  holders self key !! id = Some arc ↔ ex_reservations self !! id = Some arc ∧ holds key arc.
Proof. unfold holders. by rewrite map_lookup_filter_Some. Qed.

Lemma entry_ok_value hs key entry id arc arc' :
  hs !! id = Some arc → arc_value arc' = arc_value arc →
  entry_ok hs key entry → entry_ok (<[id := arc']> hs) key entry.
Proof.
  intros Hid Hv. destruct entry as [[|n]|]; simpl.
  - intros (i & a & -> & Hs). apply lookup_singleton_Some in Hid as [-> ->].
    exists id, arc'. split; [by rewrite insert_singleton_eq|by rewrite Hv].
  - intros (Hne & Hn & Hs). split_and!.
    + apply insert_non_empty.
    + rewrite map_size_insert_Some; [done|]. by eexists.
    + apply map_Forall_insert_2; [|done]. rewrite Hv. by apply (Hs id).
  - intros ->. by rewrite lookup_empty in Hid.
Qed.

Lemma entry_ok_add hs key access held id arc :
  conflicts access held key = false → res_access (arc_value arc) = access → hs !! id = None →
  entry_ok hs key (held !! key) →
  entry_ok (<[id := arc]> hs) key (Some (reserved access key (held !! key))).
Proof.
  intros [-> | (Hs & n & -> & _)]%conflicts_false Ha Hid; unfold reserved; simpl.
  - intros ->. destruct (shared_on access key) eqn:Es; simpl.
    + split_and!; [apply insert_non_empty|by rewrite insert_empty, map_size_singleton|].
      apply map_Forall_insert_2; [by rewrite Ha|apply map_Forall_empty].
    + exists id, arc. by rewrite insert_empty, Ha.
  - rewrite Hs. intros (_ & Hn & Hall). split_and!; [apply insert_non_empty| |].
    + rewrite map_size_insert_None by done. lia.
    + apply map_Forall_insert_2; [by rewrite Ha|done].
Qed.

Lemma entry_ok_drop hs key entry id arc :
  hs !! id = Some arc → entry_ok hs key entry → entry_ok (delete id hs) key (released entry).
Proof.
  intros Hid. destruct entry as [[|n]|]; simpl.
  - intros (i & a & -> & _). apply lookup_singleton_Some in Hid as [-> ->].
    apply delete_singleton_eq.
  - intros (_ & Hn & Hs).
    assert (size hs = S (size (delete id hs))) as Hsz.
    { rewrite map_size_delete_Some by (by eexists).
      assert (size hs ≠ 0%nat); [|lia]. intros ->%map_size_empty_iff. by rewrite lookup_empty in Hid. }
    destruct (1 <? n) eqn:E.
    + apply Z.ltb_lt in E. simpl. split_and!; [|lia|by apply map_Forall_delete].
      intros Hemp. rewrite Hemp, map_size_empty in Hsz. lia.
    + apply Z.ltb_ge in E. apply map_size_empty_inv. lia.
  - intros ->. by rewrite lookup_empty in Hid.
Qed.

Lemma inv_new : Inv new_exclusions.
Proof. split; [intros key; done|done|apply map_Forall_empty]. Qed.

(** A successful [acquire] in detail: in a state that satisfies the invariant
    it never panics. *)
Lemma acquire_result self targets artifacts access :
  (∃ e, acquire targets artifacts access self = Some (Err e, self)) ∨
  (∃ keys held',
    collect_keys 0 (requested_keys targets artifacts) ∅ = Ok keys ∧
    Forall (λ key, conflicts access (ex_held self) key = false) (elements keys) ∧
    (∀ key, held' !! key = if bool_decide (key ∈ keys)
       then Some (reserved access key (ex_held self !! key)) else ex_held self !! key) ∧
    acquire targets artifacts access self = Some (Ok (ex_next self),
      {| ex_held := held';
         ex_reservations := <[ex_next self := {| arc_strong := 1;
           arc_value := {| res_keys := keys; res_access := access |} |}]> (ex_reservations self);
         ex_next := S (ex_next self) |})).
Proof.
  unfold acquire. destruct (collect_keys _ _ _) as [keys|e]; [|left; by eexists].
  destruct (existsb _ _) eqn:Ec; [left; by eexists|]. right.
  assert (Forall (λ key, conflicts access (ex_held self) key = false) (elements keys)) as Hall.
  { apply list.Forall_forall. intros k Hk. apply not_true_is_false. intros Hc.
    assert (existsb (conflicts access (ex_held self)) (elements keys) = true); [|congruence].
    apply existsb_exists. exists k. split; [by apply list_elem_of_In|done]. }
  destruct (reserve_keys_spec access (ex_held self) (elements keys)) as (held' & Hr & Hl);
    [apply NoDup_elements|done|].
  exists keys, held'. split_and!; [done|done| |by rewrite Hr].
  intros key. rewrite Hl. by rewrite (bool_decide_ext (key ∈ elements keys) (key ∈ keys))
    by apply elem_of_elements.
Qed.

Lemma inv_acquire self targets artifacts access r self' :
  Inv self → acquire targets artifacts access self = Some (r, self') → Inv self'.
Proof.
  intros [He Hf Hs]. destruct (acquire_result self targets artifacts access)
    as [(e & ->)|(keys & held' & _ & Hc & Hl & ->)]; intros [= _ <-]; [done|].
  assert (ex_reservations self !! ex_next self = None) as Hfresh by by apply Hf.
  split; simpl.
  - intros key. rewrite Hl. unfold holders; simpl. case_bool_decide as Hk.
    + rewrite map_filter_insert_True by done. apply entry_ok_add; [|done| |apply He].
      * rewrite list.Forall_forall in Hc. by apply Hc, elem_of_elements.
      * apply map_lookup_filter_None. by left.
    + rewrite map_filter_insert_not' ; [apply He|done|].
      by rewrite Hfresh.
  - intros id Hid. rewrite lookup_insert_ne by lia. apply Hf. lia.
  - apply map_Forall_insert_2; [simpl; lia|done].
Qed.

Lemma inv_recount self lease arc arc' :
  Inv self → ex_reservations self !! lease = Some arc → arc_value arc' = arc_value arc →
  1 ≤ arc_strong arc' →
  Inv {| ex_held := ex_held self; ex_reservations := <[lease := arc']> (ex_reservations self);
         ex_next := ex_next self |}.
Proof.
  intros [He Hf Hs] Hl Hv Hc. split; simpl.
  - intros key. unfold holders; simpl. destruct (decide (holds key arc)) as [Hk|Hk].
    + rewrite map_filter_insert_True by (unfold holds in *; simpl; by rewrite Hv).
      apply (entry_ok_value _ _ _ _ arc); [by apply holders_lookup|done|apply He].
    + rewrite map_filter_insert_not'; [apply He| |].
      * unfold holds in *. simpl. by rewrite Hv.
      * intros a. rewrite Hl. by intros [= <-].
  - intros id Hid. rewrite lookup_insert_ne; [by apply Hf|].
    intros ->. by rewrite Hf in Hl.
  - by apply map_Forall_insert_2.
Qed.

Lemma inv_clone self lease self' : Inv self → clone_lease lease self = Some self' → Inv self'.
Proof.
  intros HI. unfold clone_lease. destruct (ex_reservations self !! lease) as [arc|] eqn:El; simpl; [|done].
  intros [= <-]. apply (inv_recount self lease arc); [done|done|done|]. simpl.
  pose proof (inv_strong _ HI lease arc El). simpl in *. lia.
Qed.

Lemma inv_drop self lease self' : Inv self → drop_lease lease self = Some self' → Inv self'.
Proof.
  intros HI. unfold drop_lease. destruct (ex_reservations self !! lease) as [arc|] eqn:El; simpl; [|done].
  pose proof (inv_strong _ HI lease arc El) as Hstrong. simpl in Hstrong.
  destruct (arc_strong arc =? 1) eqn:E1; intros [= <-].
  - destruct HI as [He Hf Hs]. split; simpl.
    + intros key. unfold holders, drop_reservation; simpl. rewrite map_filter_delete.
      rewrite release_keys_lookup by apply NoDup_elements. case_bool_decide as Hk.
      * apply (entry_ok_drop _ _ _ _ arc); [|apply He]. apply holders_lookup.
        split; [done|]. by apply elem_of_elements in Hk.
      * rewrite delete_id; [apply He|]. apply map_lookup_filter_None. right.
        intros a. rewrite El. intros [= <-] Hh. apply Hk. by apply elem_of_elements.
    + intros id Hid. rewrite lookup_delete_None. right. by apply Hf.
    + by apply map_Forall_delete.
  - apply Z.eqb_neq in E1. apply (inv_recount self lease arc); [done|done|done|]. simpl. lia.
Qed.

Lemma inv_reachable self : reachable self → Inv self.
Proof.
  induction 1 as [|self self' _ IH Hstep]; [apply inv_new|].
  destruct Hstep; eauto using inv_acquire, inv_clone, inv_drop.
Qed.
End invariant.

(** ** What the leases guarantee *)

Section guarantees.

Lemma entry_two_holders hs key entry i a j b :
  entry_ok hs key entry → hs !! i = Some a → hs !! j = Some b → i ≠ j →
  shared_on (res_access (arc_value a)) key = true ∧ shared_on (res_access (arc_value b)) key = true.
Proof.
  destruct entry as [[|n]|]; simpl.
  - intros (k & c & -> & _) Hi Hj Hne. apply lookup_singleton_Some in Hi as [<- _].
    by apply lookup_singleton_Some in Hj as [<- _].
  - intros (_ & _ & Hs) Hi Hj _. split; [by apply (Hs i)|by apply (Hs j)].
  - intros -> Hi. by rewrite lookup_empty in Hi.
Qed.

(** When [conflicts] lets a key through, in terms of the live reservations. *)
Lemma conflicts_holders self access key :
  Inv self →
  conflicts access (ex_held self) key = false ↔
  (∀ id arc, ex_reservations self !! id = Some arc → holds key arc →
     shared_on access key = true ∧ shared_on (res_access (arc_value arc)) key = true ∧
     Z.of_nat (size (holders self key)) < u64_max).
Proof.
  intros HI. pose proof (inv_entries _ HI key) as He. rewrite conflicts_false. split.
  - intros [E|(Hs & n & E & Hn)] id arc Hid Hh; rewrite E in He; simpl in He.
    + assert (holders self key !! id = Some arc) as Hl by by apply holders_lookup.
      by rewrite He, lookup_empty in Hl.
    + destruct He as (_ & -> & Hall). split_and!; [done| |lia].
      apply (Hall id). by apply holders_lookup.
  - intros Hall. destruct (ex_held self !! key) as [[|n]|]; simpl in He; [| |by left].
    + destruct He as (id & arc & Hhs & Hns).
      assert (holders self key !! id = Some arc) as Hl by by rewrite Hhs, lookup_singleton_eq.
      apply holders_lookup in Hl as [Hid Hh]. destruct (Hall id arc Hid Hh) as (_ & Hs & _).
      congruence.
    + destruct He as (Hne & Hn & _). apply map_choose in Hne as (id & arc & Hl).
      apply holders_lookup in Hl as [Hid Hh]. destruct (Hall id arc Hid Hh) as (? & _ & ?).
      right. split; [done|]. exists n. split; [done|lia].
Qed.

Lemma collect_requested targets artifacts keys :
  collect_keys 0 (requested_keys targets artifacts) ∅ = Ok keys ↔
  (length (requested_keys targets artifacts) ≤ 256)%nat ∧
  Forall (λ key, valid_key key = true) (requested_keys targets artifacts) ∧
  keys = list_to_set (requested_keys targets artifacts).
Proof.
  rewrite collect_keys_ok, (right_id_L ∅ (∪)). unfold MAX_KEYS_PER_LEASE. split; [|naive_solver].
  intros ([?|E] & ? & ->); [done|]. rewrite E. simpl. split_and!; [lia|by apply Forall_nil_2|done].
Qed.

(** C4: Mutual exclusion.  Whatever the operations and their interleaving, two
    live leases that cover the same key both hold it shared: it is an
    artifact and both only read it. *)
Theorem exclusion_mutual self i a j b key :
  reachable self →
  ex_reservations self !! i = Some a → ex_reservations self !! j = Some b → i ≠ j →
  key ∈ res_keys (arc_value a) → key ∈ res_keys (arc_value b) →
  shared_on (res_access (arc_value a)) key = true ∧ shared_on (res_access (arc_value b)) key = true.
Proof.
  intros Hr Hi Hj Hne Ha Hb. pose proof (inv_entries _ (inv_reachable _ Hr) key) as He.
  by apply (entry_two_holders (holders self key) key _ i a j b He); [apply holders_lookup..|].
Qed.

(** [acquire] succeeds exactly when the request is well formed and every
    live lease on a requested key shares it with the request. *)
Theorem acquire_succeeds_iff self targets artifacts access :
  reachable self →
  (∃ id self', acquire targets artifacts access self = Some (Ok id, self')) ↔
  (length (requested_keys targets artifacts) ≤ 256)%nat ∧
  Forall (λ key, valid_key key = true) (requested_keys targets artifacts) ∧
  (∀ key id arc, key ∈ requested_keys targets artifacts →
     ex_reservations self !! id = Some arc → key ∈ res_keys (arc_value arc) →
     shared_on access key = true ∧ shared_on (res_access (arc_value arc)) key = true ∧
     Z.of_nat (size (holders self key)) < u64_max).
Proof.
  intros Hr. pose proof (inv_reachable _ Hr) as HI. split.
  - intros (id & self' & Hacq).
    destruct (acquire_result self targets artifacts access)
      as [(e & He)|(keys & held' & Hk & Hc & _ & _)]; [congruence|].
    apply collect_requested in Hk as (? & ? & ->). split_and!; [done|done|].
    intros key i arc Hkey Hi Hh. rewrite list.Forall_forall in Hc.
    specialize (Hc key). rewrite elem_of_elements, elem_of_list_to_set in Hc.
    apply (proj1 (conflicts_holders self access key HI) (Hc Hkey) i arc Hi Hh).
  - intros (Hlen & Hv & Hall).
    assert (collect_keys 0 (requested_keys targets artifacts) ∅ =
            Ok (list_to_set (requested_keys targets artifacts))) as Hk by by apply collect_requested.
    destruct (acquire_result self targets artifacts access)
      as [(e & He)|(keys & held' & _ & _ & _ & ->)]; [|by eexists _, _].
    exfalso. unfold acquire in He. rewrite Hk in He.
    destruct (existsb _ _) eqn:Ec; [|by destruct (reserve_keys _ _ _)].
    apply existsb_exists in Ec as (key & Hkey & Hc).
    apply list_elem_of_In, elem_of_elements, elem_of_list_to_set in Hkey.
    rewrite (proj2 (conflicts_holders self access key HI)) in Hc; [done|].
    intros i arc. by apply Hall.
Qed.

(** [acquire] never reaches its [unreachable!] arm, and when it refuses it
    leaves the table and the leases as they were. *)
Theorem acquire_refusal_reserves_nothing self targets artifacts access :
  ∃ r self', acquire targets artifacts access self = Some (r, self') ∧
             (is_ok r = false → self' = self).
Proof.
  destruct (acquire_result self targets artifacts access)
    as [(e & ->)|(keys & held' & _ & _ & _ & ->)]; by eexists _, _.
Qed.

(** Dropping a lease right after acquiring it restores the table and the
    set of live leases exactly. *)
Theorem acquire_drop_restores self targets artifacts access id self' :
  reachable self → acquire targets artifacts access self = Some (Ok id, self') →
  ∃ self'', drop_lease id self' = Some self'' ∧ ex_held self'' = ex_held self ∧
            ex_reservations self'' = ex_reservations self.
Proof.
  intros HI%inv_reachable Hacq.
  destruct (acquire_result self targets artifacts access)
    as [(e & He)|(keys & held' & _ & Hc & Hl & He)]; rewrite He in Hacq; [done|].
  injection Hacq as <- <-. unfold drop_lease; simpl. rewrite lookup_insert_eq. simpl.
  eexists. split; [done|]. simpl. split.
  - apply map_eq. intros key. unfold drop_reservation; simpl.
    rewrite release_keys_lookup by apply NoDup_elements. rewrite Hl.
    rewrite (bool_decide_ext (key ∈ elements keys) (key ∈ keys)) by apply elem_of_elements.
    case_bool_decide as Hk; [|done].
    rewrite list.Forall_forall in Hc. specialize (Hc key (proj2 (elem_of_elements _ _) Hk)).
    apply conflicts_false in Hc. pose proof (inv_entries _ HI key) as Hent. unfold reserved.
    destruct Hc as [E|(Hs & n & E & _)]; rewrite E in Hent |- *; [by destruct (shared_on _ _)|].
    rewrite Hs. simpl. destruct Hent as (Hne & Hn & _).
    assert (size (holders self key) ≠ 0%nat) by by rewrite map_size_empty_iff.
    rewrite (proj2 (Z.ltb_lt _ _)) by lia. do 2 f_equal. lia.
  - rewrite delete_insert_eq, delete_id; [done|]. by apply (inv_fresh _ HI).
Qed.

(** No key leaks.  A key is in the table exactly while some live lease
    covers it. *)
Theorem held_iff_leased self key :
  reachable self →
  is_Some (ex_held self !! key) ↔
  ∃ id arc, ex_reservations self !! id = Some arc ∧ key ∈ res_keys (arc_value arc).
Proof.
  intros HI%inv_reachable. pose proof (inv_entries _ HI key) as He. split.
  - intros [h E]. rewrite E in He.
    assert (holders self key ≠ ∅) as (id & arc & [? ?]%holders_lookup)%map_choose.
    { destruct h as [|n]; simpl in He.
      - destruct He as (? & ? & -> & _). apply map_non_empty_singleton.
      - by destruct He. }
    by exists id, arc.
  - intros (id & arc & Hid & Hk). destruct (ex_held self !! key) as [h|]; [by eexists|].
    simpl in He. assert (holders self key !! id = Some arc) as Hl by by apply holders_lookup.
    by rewrite He, lookup_empty in Hl.
Qed.
End guarantees.

(** ** Witnesses: two sessions that read one library *)

Definition runtime : ArtifactKey := {| ak_root := "l"; ak_artifact := "j" |}.

Definition after (r : option (result ExclusionError nat * Exclusions)) : Exclusions :=
  match r with Some (_, self) => self | None => new_exclusions end.

Lemma after_eq r e : fst <$> r = Some e → r = Some (e, after r).
Proof. destruct r as [[e' s]|]; simpl; congruence. Qed.

Definition one_reader : Exclusions :=
  after (try_acquire_read_artifacts ["a"] [runtime] new_exclusions).
Definition two_readers : Exclusions :=
  after (try_acquire_read_artifacts ["b"] [runtime] one_reader).

Lemma two_readers_reachable : reachable two_readers.
Proof.
  apply (reachable_step one_reader); [apply (reachable_step new_exclusions); [constructor|]|].
  - apply (step_acquire _ ["a"] [runtime] Read (Ok 0%nat)), after_eq. vm_eq.
  - apply (step_acquire _ ["b"] [runtime] Read (Ok 1%nat)), after_eq. vm_eq.
Qed.

Definition reader_arc (target : string) : ArcReservation :=
  {| arc_strong := 1;
     arc_value := {| res_keys := {[ArtifactK runtime]} ∪ ({[Target target]} ∪ ∅);
                     res_access := Read |} |}.

Lemma reader_arc_holds target : ArtifactK runtime ∈ res_keys (arc_value (reader_arc target)).
Proof. simpl. set_solver. Qed.

Lemma exclusion_mutual_witness :
  shared_on (res_access (arc_value (reader_arc "a"))) (ArtifactK runtime) = true ∧
  shared_on (res_access (arc_value (reader_arc "b"))) (ArtifactK runtime) = true.
Proof.
  apply (exclusion_mutual two_readers 0 _ 1); [apply two_readers_reachable|vm_eq|vm_eq|done| |];
    apply reader_arc_holds.
Defined.

Lemma acquire_succeeds_iff_witness :
  ¬ ∃ id self', try_acquire ["c"] [runtime] two_readers = Some (Ok id, self').
Proof.
  unfold try_acquire. rewrite (acquire_succeeds_iff two_readers ["c"] [runtime] Write)
    by apply two_readers_reachable.
  intros (_ & _ & H). destruct (H (ArtifactK runtime) 0%nat (reader_arc "a")) as [Hs _].
  - right. left.
  - vm_eq.
  - apply reader_arc_holds.
  - discriminate Hs.
Defined.

Lemma acquire_drop_restores_witness :
  ∃ self'', drop_lease 2 (after (try_acquire_read_artifacts ["c"] [runtime] two_readers)) = Some self'' ∧
    ex_held self'' = ex_held two_readers ∧ ex_reservations self'' = ex_reservations two_readers.
Proof.
  apply (acquire_drop_restores two_readers ["c"] [runtime] Read);
    [apply two_readers_reachable|apply after_eq; vm_eq].
Defined.

Lemma held_iff_leased_witness :
  ¬ ∃ id arc, ex_reservations two_readers !! id = Some arc ∧ Target "c" ∈ res_keys (arc_value arc).
Proof.
  rewrite <-(held_iff_leased two_readers) by apply two_readers_reachable.
  intros [h Hh]. assert (ex_held two_readers !! Target "c" = None) as E by vm_eq. congruence.
Defined.
