(* ===== verification/TaskOwner.v ===== *)
(** * Task ownership ([core/app/src/tasks/{owner,cancellation}.rs])

    The bounded owner of accepted work.  A [World] holds one owner's state
    (behind its mutex), the process-wide identity counter, the cancellation
    tokens, and what lives outside the mutex: the supervisor of each accepted
    task at the point it has reached, the outcomes sent to the waiters, the
    guards that were dropped, and the running calls of [shutdown].

    The mutex makes each locked block atomic; everything between two locked
    blocks may interleave.  [exec] performs one such step, [None] when it is
    not enabled.  The type [G] of the retained guards and the type [V] of the
    results are those of the caller. *)

From S2P Require Import Prelude RustStr.

(** ** Data *)

Inductive SpawnError := InvalidCapacity | AtCapacity | Closed | NoRuntime | IdentityExhausted.

Inductive TaskJoinError := Panicked | Interrupted | OwnerLost.

Record OwnerSnapshot := {
  snap_closing : bool;
  snap_running : list Z;
  snap_unsettled : list Z;
}.

Definition is_idle (self : OwnerSnapshot) : bool :=
  bool_decide (snap_running self = []) && bool_decide (snap_unsettled self = []).

(** A token is an index into the tokens of the world. *)
Record TaskRecord {G : Type} := {
  rec_cancellation : nat;
  rec_unsettled : bool;
  rec_retained : option G;
}.
Arguments TaskRecord : clear implicits.

Record State {G : Type} := {
  closing : bool;
  tasks : gmap Z (TaskRecord G);
}.
Arguments State : clear implicits.

(** Where a supervisor is: awaiting the work, about to drop the guards it took
    from the record, about to remove the record, about to send the outcome. *)
Inductive Supervisor {G V : Type} :=
| Joining
| Releasing (value : V) (retained : option G)
| Removing (value : V)
| Reporting (outcome : result TaskJoinError V)
| Finished.
Arguments Supervisor : clear implicits.

(** Where a call of [shutdown] is: requesting cancellation, at the head of its
    loop, waiting for a change or the deadline, returned. *)
Inductive Shutdown :=
| Cancelling (tokens : list nat)
| Looping
| Selecting
| Returned (r : result OwnerSnapshot unit).

Record World {G V : Type} := {
  next_task_id : Z;
  capacity : Z;
  state : State G;
  tokens : list bool;
  supervisors : gmap Z (Supervisor G V);
  outcomes : gmap Z (result TaskJoinError V);
  dropped_guards : list (Z * G);
  shutdowns : list Shutdown;
}.
Arguments World : clear implicits.

Section owner.
Context {G V : Type}.
Implicit Types (w : World G V) (s : State G).

Definition with_state w s : World G V :=
  {| next_task_id := next_task_id w; capacity := capacity w; state := s; tokens := tokens w;
     supervisors := supervisors w; outcomes := outcomes w; dropped_guards := dropped_guards w;
     shutdowns := shutdowns w |}.

Definition with_tokens w (l : list bool) : World G V :=
  {| next_task_id := next_task_id w; capacity := capacity w; state := state w; tokens := l;
     supervisors := supervisors w; outcomes := outcomes w; dropped_guards := dropped_guards w;
     shutdowns := shutdowns w |}.

Definition with_supervisor w (id : Z) (sup : Supervisor G V) : World G V :=
  {| next_task_id := next_task_id w; capacity := capacity w; state := state w; tokens := tokens w;
     supervisors := <[id := sup]> (supervisors w); outcomes := outcomes w;
     dropped_guards := dropped_guards w; shutdowns := shutdowns w |}.

Definition with_shutdowns w (l : list Shutdown) : World G V :=
  {| next_task_id := next_task_id w; capacity := capacity w; state := state w; tokens := tokens w;
     supervisors := supervisors w; outcomes := outcomes w; dropped_guards := dropped_guards w;
     shutdowns := l |}.

Definition close_state s : State G := {| closing := true; tasks := tasks s |}.

Definition with_tasks s (m : gmap Z (TaskRecord G)) : State G :=
  {| closing := closing s; tasks := m |}.

(** ** The owner's state *)

(** The keys of a [BTreeMap] in order. *)
Definition ids_of (m : gmap Z (TaskRecord G)) : list Z := sort_by Z.compare (elements (dom m)).

Definition task_unsettled s (id : Z) : bool :=
  match tasks s !! id with Some record => rec_unsettled record | None => false end.

Definition snapshot s : OwnerSnapshot := {|
  snap_closing := closing s;
  snap_running := List.filter (λ id, negb (task_unsettled s id)) (ids_of (tasks s));
  snap_unsettled := List.filter (task_unsettled s) (ids_of (tasks s));
|}.

Definition mark_unsettled (record : TaskRecord G) : TaskRecord G := {|
  rec_cancellation := rec_cancellation record;
  rec_unsettled := true;
  rec_retained := rec_retained record |}.

Definition take_retained (record : TaskRecord G) : TaskRecord G := {|
  rec_cancellation := rec_cancellation record;
  rec_unsettled := rec_unsettled record;
  rec_retained := None |}.

(** ** Operations *)

Definition owner_new (max_active : Z) : result SpawnError (World G V) :=
  if max_active =? 0 then Err InvalidCapacity
  else Ok {| next_task_id := 1; capacity := max_active;
             state := {| closing := false; tasks := ∅ |}; tokens := []; supervisors := ∅;
             outcomes := ∅; dropped_guards := []; shutdowns := [] |}.

(** [CancellationToken::cancel]. *)
Definition token_cancel (token : nat) (l : list bool) : bool * list bool :=
  match l !! token with
  | Some false => (true, <[token := true]> l)
  | _ => (false, l)
  end.

(** [runtime] tells whether the caller runs inside a Tokio runtime.  The
    supervisor exists, awaiting the work, as soon as the record does. *)
Definition try_spawn (runtime : bool) (retained : G) w : result SpawnError Z * World G V :=
  if negb runtime then (Err NoRuntime, w)
  else if closing (state w) then (Err Closed, w)
  else if capacity w <=? Z.of_nat (size (tasks (state w))) then (Err AtCapacity, w)
  else
    match checked_add_u64 (next_task_id w) 1 with
    | None => (Err IdentityExhausted, w)
    | Some next =>
        let id := next_task_id w in
        let token := length (tokens w) in
        (Ok id,
         {| next_task_id := next;
            capacity := capacity w;
            state := with_tasks (state w)
              (<[id := {| rec_cancellation := token; rec_unsettled := false;
                          rec_retained := Some retained |}]> (tasks (state w)));
            tokens := tokens w ++ [false];
            supervisors := <[id := Joining]> (supervisors w);
            outcomes := outcomes w;
            dropped_guards := dropped_guards w;
            shutdowns := shutdowns w |})
    end.

(** Another owner of the process takes an identity. *)
Definition other_spawn w : option (World G V) :=
  next ← checked_add_u64 (next_task_id w) 1;
  Some {| next_task_id := next; capacity := capacity w; state := state w; tokens := tokens w;
          supervisors := supervisors w; outcomes := outcomes w;
          dropped_guards := dropped_guards w; shutdowns := shutdowns w |}.

(** The work returned [value]: the supervisor takes the guards. *)
Definition work_returned (id : Z) (value : V) w : option (World G V) :=
  match supervisors w !! id with
  | Some Joining =>
      let retained := record ← tasks (state w) !! id; rec_retained record in
      Some (with_supervisor
              (with_state w (with_tasks (state w) (alter take_retained id (tasks (state w)))))
              id (Releasing value retained))
  | _ => None
  end.

(** [drop(retained)], outside the mutex. *)
Definition drop_guards (id : Z) w : option (World G V) :=
  match supervisors w !! id with
  | Some (Releasing value retained) =>
      Some (with_supervisor
        {| next_task_id := next_task_id w; capacity := capacity w; state := state w;
           tokens := tokens w; supervisors := supervisors w; outcomes := outcomes w;
           dropped_guards := dropped_guards w ++ match retained with Some g => [(id, g)] | None => [] end;
           shutdowns := shutdowns w |} id (Removing value))
  | _ => None
  end.

Definition remove_record (id : Z) w : option (World G V) :=
  match supervisors w !! id with
  | Some (Removing value) =>
      Some (with_supervisor (with_state w (with_tasks (state w) (delete id (tasks (state w)))))
              id (Reporting (Ok value)))
  | _ => None
  end.

(** The inner task panicked or was interrupted. *)
Definition work_failed (id : Z) (is_panic : bool) w : option (World G V) :=
  match supervisors w !! id with
  | Some Joining =>
      Some (with_supervisor
              (with_state w (with_tasks (state w) (alter mark_unsettled id (tasks (state w)))))
              id (Reporting (Err (if is_panic then Panicked else Interrupted))))
  | _ => None
  end.

Definition send_outcome (id : Z) (outcome : result TaskJoinError V) w : World G V :=
  with_supervisor
    {| next_task_id := next_task_id w; capacity := capacity w; state := state w;
       tokens := tokens w; supervisors := supervisors w;
       outcomes := <[id := outcome]> (outcomes w); dropped_guards := dropped_guards w;
       shutdowns := shutdowns w |} id Finished.

(** [Supervisor::complete]. *)
Definition complete (id : Z) w : option (World G V) :=
  match supervisors w !! id with
  | Some (Reporting outcome) => Some (send_outcome id outcome w)
  | _ => None
  end.

(** [Supervisor::drop] with the sender in place. *)
Definition drop_supervisor (id : Z) w : World G V :=
  send_outcome id (Err Interrupted)
    (with_state w (with_tasks (state w) (alter mark_unsettled id (tasks (state w))))).

(** The runtime drops the supervisor at its await point, or a guard's
    destructor unwinds through it. *)
Definition supervisor_lost (id : Z) w : option (World G V) :=
  match supervisors w !! id with
  | Some Joining | Some (Releasing _ _) => Some (drop_supervisor id w)
  | _ => None
  end.

Definition status w : OwnerSnapshot := snapshot (state w).

(** Whether [shutdown_receipt] gives a receipt. *)
Definition shutdown_receipt w : bool :=
  closing (state w) && bool_decide (tasks (state w) = ∅).

Definition cancel (id : Z) w : bool * World G V :=
  match tasks (state w) !! id with
  | Some record =>
      let '(first, l) := token_cancel (rec_cancellation record) (tokens w) in (first, with_tokens w l)
  | None => (false, w)
  end.

(** [TaskHandle::cancel]. *)
Definition handle_cancel (token : nat) w : bool * World G V :=
  let '(first, l) := token_cancel token (tokens w) in (first, with_tokens w l).

Definition try_close_idle w : result OwnerSnapshot unit * World G V :=
  if negb (bool_decide (tasks (state w) = ∅)) then (Err (snapshot (state w)), w)
  else (Ok tt, with_state w (close_state (state w))).

Definition close_admission w : World G V := with_state w (close_state (state w)).

(** [TaskHandle::join]: [None] while it waits. *)
Definition join (id : Z) w : option (result TaskJoinError V) :=
  match outcomes w !! id with
  | Some outcome => Some outcome
  | None =>
      match supervisors w !! id with
      | Some Finished | None => Some (Err OwnerLost)
      | _ => None
      end
  end.

(** *** [shutdown] *)

Definition set_shutdown (call : nat) (phase : Shutdown) w : World G V :=
  with_shutdowns w (<[call := phase]> (shutdowns w)).

Definition shutdown_begin w : World G V :=
  let s := close_state (state w) in
  let ts := omap (λ id, rec_cancellation <$> tasks s !! id) (ids_of (tasks s)) in
  with_shutdowns (with_state w s) (shutdowns w ++ [Cancelling ts]).

Definition shutdown_cancel (call : nat) w : option (World G V) :=
  match shutdowns w !! call with
  | Some (Cancelling (token :: rest)) =>
      Some (set_shutdown call (Cancelling rest) (with_tokens w (token_cancel token (tokens w)).2))
  | Some (Cancelling []) => Some (set_shutdown call Looping w)
  | _ => None
  end.

(** The head of the loop. *)
Definition shutdown_loop (call : nat) w : option (World G V) :=
  match shutdowns w !! call with
  | Some Looping =>
      let snapshot := status w in
      Some (set_shutdown call
              (if is_idle snapshot then Returned (Ok tt)
               else if bool_decide (snap_running snapshot = []) then Returned (Err snapshot)
               else Selecting) w)
  | _ => None
  end.

(** The two arms of [select!]; the sender of the changes lives in the owner,
    so waiting for a change does not fail. *)
Definition shutdown_changed (call : nat) w : option (World G V) :=
  match shutdowns w !! call with
  | Some Selecting => Some (set_shutdown call Looping w)
  | _ => None
  end.

Definition shutdown_deadline (call : nat) w : option (World G V) :=
  match shutdowns w !! call with
  | Some Selecting =>
      let snapshot := status w in
      Some (set_shutdown call (Returned (if is_idle snapshot then Ok tt else Err snapshot)) w)
  | _ => None
  end.

(** *** Steps *)

Inductive Op :=
| OpSpawn (runtime : bool) (retained : G)
| OpOtherSpawn
| OpReturn (id : Z) (value : V)
| OpDropGuards (id : Z)
| OpRemove (id : Z)
| OpFail (id : Z) (is_panic : bool)
| OpComplete (id : Z)
| OpLost (id : Z)
| OpCancel (id : Z)
| OpHandleCancel (token : nat)
| OpTryClose
| OpClose
| OpShutdown
| OpShutdownCancel (call : nat)
| OpShutdownLoop (call : nat)
| OpShutdownChanged (call : nat)
| OpShutdownDeadline (call : nat).

Definition exec (op : Op) w : option (World G V) :=
  match op with
  | OpSpawn runtime retained => Some (try_spawn runtime retained w).2
  | OpOtherSpawn => other_spawn w
  | OpReturn id value => work_returned id value w
  | OpDropGuards id => drop_guards id w
  | OpRemove id => remove_record id w
  | OpFail id is_panic => work_failed id is_panic w
  | OpComplete id => complete id w
  | OpLost id => supervisor_lost id w
  | OpCancel id => Some (cancel id w).2
  | OpHandleCancel token => Some (handle_cancel token w).2
  | OpTryClose => Some (try_close_idle w).2
  | OpClose => Some (close_admission w)
  | OpShutdown => Some (shutdown_begin w)
  | OpShutdownCancel call => shutdown_cancel call w
  | OpShutdownLoop call => shutdown_loop call w
  | OpShutdownChanged call => shutdown_changed call w
  | OpShutdownDeadline call => shutdown_deadline call w
  end.

Fixpoint run (ops : list Op) w : option (World G V) :=
  match ops with
  | [] => Some w
  | op :: ops => w' ← exec op w; run ops w'
  end.

Inductive reachable : World G V → Prop :=
| reachable_new max_active w : 0 ≤ max_active → owner_new max_active = Ok w → reachable w
| reachable_exec op w w' : reachable w → exec op w = Some w' → reachable w'.
End owner.

(** ** The invariant *)

Section invariant.
Context {G V : Type}.
Implicit Types (w : World G V).

(** The guards of a task that were dropped. *)
Definition guards_of w (id : Z) : list G :=
  snd <$> List.filter (λ p, p.1 =? id) (dropped_guards w).

(** What the supervisor's place says of the record, the outcome and the
    guards of its task. *)
Definition task_ok (sup : option (Supervisor G V)) (record : option (TaskRecord G))
    (outcome : option (result TaskJoinError V)) (dropped : list G) : Prop :=
  match sup with
  | None => record = None ∧ outcome = None ∧ dropped = []
  | Some Joining =>
      outcome = None ∧ dropped = [] ∧
      ∃ token g, record = Some {| rec_cancellation := token; rec_unsettled := false;
                                  rec_retained := Some g |}
  | Some (Releasing _ retained) =>
      outcome = None ∧ dropped = [] ∧ is_Some retained ∧
      ∃ token, record = Some {| rec_cancellation := token; rec_unsettled := false;
                                rec_retained := None |}
  | Some (Removing _) =>
      outcome = None ∧ (∃ g, dropped = [g]) ∧
      ∃ token, record = Some {| rec_cancellation := token; rec_unsettled := false;
                                rec_retained := None |}
  | Some (Reporting (Ok _)) => outcome = None ∧ (∃ g, dropped = [g]) ∧ record = None
  | Some (Reporting (Err error)) =>
      outcome = None ∧ dropped = [] ∧ error ≠ OwnerLost ∧
      ∃ token g, record = Some {| rec_cancellation := token; rec_unsettled := true;
                                  rec_retained := Some g |}
  | Some Finished =>
      (∃ v, outcome = Some (Ok v) ∧ (∃ g, dropped = [g]) ∧ record = None) ∨
      (∃ error, outcome = Some (Err error) ∧ dropped = [] ∧ error ≠ OwnerLost ∧
         ∃ token retained, record = Some {| rec_cancellation := token; rec_unsettled := true;
                                            rec_retained := retained |} ∧
                           (error = Panicked → is_Some retained))
  end.

Definition task_inv w (id : Z) : Prop :=
  task_ok (supervisors w !! id) (tasks (state w) !! id) (outcomes w !! id) (guards_of w id).

Definition shutdown_ok w (phase : Shutdown) : Prop :=
  closing (state w) = true ∧ (phase = Returned (Ok tt) → tasks (state w) = ∅).

Record Inv w : Prop := {
  inv_next : 1 ≤ next_task_id w ≤ u64_max;
  inv_fresh id : next_task_id w ≤ id → supervisors w !! id = None;
  inv_capacity : 0 < capacity w ∧ Z.of_nat (size (tasks (state w))) ≤ capacity w;
  inv_task id : task_inv w id;
  inv_shutdown : Forall (shutdown_ok w) (shutdowns w);
}.

Lemma size_alter (f : TaskRecord G → TaskRecord G) id (m : gmap Z (TaskRecord G)) : size (alter f id m) = size m.
Proof. by rewrite <-!size_dom, dom_alter_L. Qed.

Lemma size_delete_le id (m : gmap Z (TaskRecord G)) : (size (delete id m) ≤ size m)%nat.
Proof. rewrite <-!size_dom. apply subseteq_size. rewrite dom_delete_L. set_solver. Qed.

Lemma guards_of_snoc id id' g (l : list (Z * G)) :
  snd <$> List.filter (λ p, p.1 =? id') (l ++ [(id, g)]) =
  (snd <$> List.filter (λ p, p.1 =? id') l) ++ (if id =? id' then [g] else []).
Proof. rewrite List.filter_app, fmap_app. simpl. by destruct (id =? id'). Qed.

(** A step of one supervisor that leaves the closing and the calls alone. *)
Lemma inv_supervisor_step w w' id :
  Inv w → is_Some (supervisors w !! id) →
  next_task_id w' = next_task_id w → capacity w' = capacity w → shutdowns w' = shutdowns w →
  closing (state w') = closing (state w) →
  (∀ id', id' ≠ id → supervisors w' !! id' = supervisors w !! id' ∧
     tasks (state w') !! id' = tasks (state w) !! id' ∧ outcomes w' !! id' = outcomes w !! id' ∧
     guards_of w' id' = guards_of w id') →
  (size (tasks (state w')) ≤ size (tasks (state w)))%nat →
  (tasks (state w) = ∅ → tasks (state w') = ∅) →
  task_inv w' id → Inv w'.
Proof.
  intros [] Hsome Hn Hc Hs Hcl Hframe Hsize Hempty Hid.
  assert (id < next_task_id w) as Hlt.
  { destruct (Z.lt_ge_cases id (next_task_id w)) as [?|Hge]; [done|].
    rewrite inv_fresh0 in Hsome by done. by destruct Hsome. }
  split.
  - by rewrite Hn.
  - intros id' Hid'. rewrite Hn in Hid'. destruct (Hframe id' ltac:(lia)) as [-> _]. by apply inv_fresh0.
  - rewrite Hc. split; [apply inv_capacity0|]. destruct inv_capacity0. lia.
  - intros id'. destruct (decide (id' = id)) as [->|Hne]; [done|].
    unfold task_inv. destruct (Hframe id' Hne) as (-> & -> & -> & ->). apply inv_task0.
  - rewrite Hs. eapply list.Forall_impl; [exact inv_shutdown0|]. intros p [? ?].
    split; [by rewrite Hcl|]. intros Hp. apply Hempty. auto.
Qed.

(** Closing, tokens and calls do not concern the tasks. *)
Lemma inv_other_step w w' :
  Inv w → 1 ≤ next_task_id w' ≤ u64_max → next_task_id w ≤ next_task_id w' →
  capacity w' = capacity w →
  tasks (state w') = tasks (state w) → supervisors w' = supervisors w →
  outcomes w' = outcomes w → dropped_guards w' = dropped_guards w →
  Forall (shutdown_ok w') (shutdowns w') → Inv w'.
Proof.
  intros [] Hn Hle Hc Ht Hs Ho Hd Hsh. split; [done| | | |done].
  - intros id Hid. rewrite Hs. apply inv_fresh0. lia.
  - by rewrite Hc, Ht.
  - intros id. unfold task_inv, guards_of. rewrite Hs, Ht, Ho, Hd. apply inv_task0.
Qed.

Lemma shutdown_ok_closed w w' :
  (closing (state w) = true → closing (state w') = true) → tasks (state w') = tasks (state w) →
  Forall (shutdown_ok w) (shutdowns w) → Forall (shutdown_ok w') (shutdowns w).
Proof.
  intros Hc Ht H. eapply list.Forall_impl; [exact H|]. intros p [? ?]. unfold shutdown_ok.
  rewrite Ht. auto.
Qed.

Lemma alter_empty (f : TaskRecord G → TaskRecord G) (id : Z) : alter f id ∅ = (∅ : gmap Z (TaskRecord G)).
Proof. apply map_eq. intros i. rewrite lookup_alter. case_decide; by rewrite lookup_empty. Qed.

(** The frame of a supervisor's step: other tasks are as they were. *)
Ltac supervisor_step w id Hi Hsup :=
  apply (inv_supervisor_step w _ id Hi);
  [ by rewrite Hsup | done | done | done | done
  | intros id' Hne; unfold guards_of; simpl;
    rewrite ?lookup_insert_ne, ?lookup_alter_ne, ?lookup_delete_ne by done; split_and!; try done
  | simpl; rewrite ?size_alter; first [apply size_delete_le|done]
  | simpl; intros ->; rewrite ?alter_empty, ?delete_empty; done
  | unfold task_inv; simpl;
    rewrite ?lookup_insert_eq, ?lookup_alter_eq, ?lookup_delete_eq; simpl ].

Lemma work_returned_inv id v w w' : Inv w → work_returned id v w = Some w' → Inv w'.
Proof.
  intros Hi. unfold work_returned. destruct (supervisors w !! id) as [[]|] eqn:Hsup; try done.
  intros [= <-]. pose proof (inv_task w Hi id) as Ht. unfold task_inv in Ht. rewrite Hsup in Ht.
  destruct Ht as (Ho & Hg & token & g & Hr).
  supervisor_step w id Hi Hsup. rewrite Hr. naive_solver.
Qed.

Lemma drop_guards_inv id w w' : Inv w → drop_guards id w = Some w' → Inv w'.
Proof.
  intros Hi. unfold drop_guards. destruct (supervisors w !! id) as [[]|] eqn:Hsup; try done.
  intros [= <-]. pose proof (inv_task w Hi id) as Ht. unfold task_inv in Ht. rewrite Hsup in Ht.
  destruct Ht as (Ho & Hg & [g ->] & token & Hr). unfold guards_of in Hg.
  supervisor_step w id Hi Hsup.
  - rewrite guards_of_snoc. rewrite (proj2 (Z.eqb_neq id id')) by done. by rewrite app_nil_r.
  - unfold guards_of. simpl. rewrite guards_of_snoc, Hg, Z.eqb_refl, Hr. naive_solver.
Qed.

Lemma remove_record_inv id w w' : Inv w → remove_record id w = Some w' → Inv w'.
Proof.
  intros Hi. unfold remove_record. destruct (supervisors w !! id) as [[]|] eqn:Hsup; try done.
  intros [= <-]. pose proof (inv_task w Hi id) as Ht. unfold task_inv in Ht. rewrite Hsup in Ht.
  destruct Ht as (Ho & Hg & token & Hr). supervisor_step w id Hi Hsup. naive_solver.
Qed.

Lemma work_failed_inv id is_panic w w' : Inv w → work_failed id is_panic w = Some w' → Inv w'.
Proof.
  intros Hi. unfold work_failed. destruct (supervisors w !! id) as [[]|] eqn:Hsup; try done.
  intros [= <-]. pose proof (inv_task w Hi id) as Ht. unfold task_inv in Ht. rewrite Hsup in Ht.
  destruct Ht as (Ho & Hg & token & g & Hr). supervisor_step w id Hi Hsup. rewrite Hr.
  split_and!; [done|done|by destruct is_panic|]. by exists token, g.
Qed.

Lemma complete_inv id w w' : Inv w → complete id w = Some w' → Inv w'.
Proof.
  intros Hi. unfold complete. destruct (supervisors w !! id) as [[]|] eqn:Hsup; try done.
  intros [= <-]. pose proof (inv_task w Hi id) as Ht. unfold task_inv in Ht. rewrite Hsup in Ht.
  supervisor_step w id Hi Hsup. destruct outcome as [v|error]; [left|right]; naive_solver.
Qed.

Lemma supervisor_lost_inv id w w' : Inv w → supervisor_lost id w = Some w' → Inv w'.
Proof.
  intros Hi. unfold supervisor_lost. destruct (supervisors w !! id) as [[]|] eqn:Hsup; try done;
    intros [= <-]; pose proof (inv_task w Hi id) as Ht; unfold task_inv in Ht; rewrite Hsup in Ht;
    supervisor_step w id Hi Hsup; right; exists Interrupted.
  - destruct Ht as (_ & Hg & token & g & Hr). rewrite Hr. naive_solver.
  - destruct Ht as (_ & Hg & _ & token & Hr). rewrite Hr. naive_solver.
Qed.

Lemma try_spawn_inv runtime g w : Inv w → Inv (try_spawn runtime g w).2.
Proof.
  intros Hi. unfold try_spawn. destruct runtime; [simpl|done].
  destruct (closing (state w)) eqn:Hcl; [done|].
  destruct (Z.leb_spec (capacity w) (Z.of_nat (size (tasks (state w))))) as [|Hcap]; [done|].
  unfold checked_add_u64. destruct (Z.leb_spec (next_task_id w + 1) u64_max) as [Hn|]; [simpl|done].
  destruct Hi as [Hnext Hfresh [Hc0 Hc] Ht Hsh].
  assert (tasks (state w) !! next_task_id w = None ∧ outcomes w !! next_task_id w = None ∧
          guards_of w (next_task_id w) = []) as (Hn1 & Hn2 & Hn3).
  { pose proof (Ht (next_task_id w)) as H. unfold task_inv in H. by rewrite Hfresh in H by lia. }
  split; simpl.
  - lia.
  - intros id Hid. rewrite lookup_insert_ne by lia. apply Hfresh. lia.
  - split; [done|]. rewrite map_size_insert_None by done. lia.
  - intros id. unfold task_inv, guards_of. simpl. destruct (decide (next_task_id w = id)) as [<-|Hne].
    + rewrite !lookup_insert_eq. simpl. unfold guards_of in Hn3. rewrite Hn3. naive_solver.
    + rewrite !lookup_insert_ne by done. apply Ht.
  - destruct (shutdowns w) as [|p l] eqn:E; [constructor|].
    apply list.Forall_cons in Hsh as [[Hp _] _]. by rewrite Hcl in Hp.
Qed.

Lemma shutdown_set w call phase :
  Forall (shutdown_ok w) (shutdowns w) → shutdown_ok w phase →
  Forall (shutdown_ok w) (<[call := phase]> (shutdowns w)).
Proof. intros Hl Hp. by apply list.Forall_insert. Qed.

Lemma is_idle_spec w : is_idle (status w) = true ↔ tasks (state w) = ∅.
Proof.
  unfold is_idle, status, snapshot. simpl. rewrite andb_true_iff, !bool_decide_eq_true. split.
  - intros [H1 H2]. apply map_eq. intros id. rewrite lookup_empty.
    destruct (tasks (state w) !! id) as [r|] eqn:Hr; [|done]. exfalso.
    assert (id ∈ ids_of (tasks (state w))) as Hin.
    { unfold ids_of. rewrite sort_by_perm. apply elem_of_elements, elem_of_dom. by rewrite Hr. }
    apply list_elem_of_In in Hin. destruct (task_unsettled (state w) id) eqn:Hu.
    + assert (In id []) as []. rewrite <-H2. apply filter_In. done.
    + assert (In id []) as []. rewrite <-H1. apply filter_In. by rewrite Hu.
  - intros Ht. unfold ids_of, task_unsettled. rewrite Ht, dom_empty_L, elements_empty. done.
Qed.

(** Steps that leave the tasks alone. *)
Ltac other_step Hi :=
  refine (inv_other_step _ _ Hi _ _ _ _ _ _ _ _); try done; try apply (inv_next _ Hi); try lia.

Lemma with_tokens_inv w l : Inv w → Inv (with_tokens w l).
Proof. intros Hi. other_step Hi. apply (inv_shutdown _ Hi). Qed.

Lemma close_inv w : Inv w → Inv (with_state w (close_state (state w))).
Proof.
  intros Hi. other_step Hi. simpl. by apply (shutdown_ok_closed w), inv_shutdown.
Qed.

Lemma other_spawn_inv w w' : Inv w → other_spawn w = Some w' → Inv w'.
Proof.
  intros Hi. unfold other_spawn, checked_add_u64. destruct (Z.leb_spec (next_task_id w + 1) u64_max);
    [|done]. intros [= <-]. pose proof (inv_next _ Hi). other_step Hi; simpl; try lia.
  apply (inv_shutdown _ Hi).
Qed.

Lemma set_shutdown_inv w call phase :
  Inv w → shutdown_ok w phase → Inv (set_shutdown call phase w).
Proof. intros Hi Hp. other_step Hi. apply (shutdown_set w); [apply (inv_shutdown _ Hi)|done]. Qed.

Lemma shutdown_begin_inv w : Inv w → Inv (shutdown_begin w).
Proof.
  intros Hi. other_step Hi. simpl. apply list.Forall_app. split.
  - by apply (shutdown_ok_closed w), inv_shutdown.
  - repeat constructor. done.
Qed.

Lemma shutdown_closing w call phase :
  Inv w → shutdowns w !! call = Some phase → closing (state w) = true.
Proof.
  intros Hi Hc. pose proof (inv_shutdown _ Hi) as Hs. rewrite list.Forall_lookup in Hs.
  by destruct (Hs call phase Hc).
Qed.

Lemma shutdown_steps_inv call w w' :
  Inv w →
  shutdown_cancel call w = Some w' ∨ shutdown_loop call w = Some w' ∨
  shutdown_changed call w = Some w' ∨ shutdown_deadline call w = Some w' → Inv w'.
Proof.
  intros Hi. unfold shutdown_cancel, shutdown_loop, shutdown_changed, shutdown_deadline.
  destruct (shutdowns w !! call) as [phase|] eqn:Hc; [|naive_solver].
  pose proof (shutdown_closing w call phase Hi Hc) as Hcl.
  assert (∀ r, (r = Ok tt → is_idle (status w) = true) → shutdown_ok w (Returned r)) as Hret.
  { intros r Hr. split; [done|]. intros [= ->]. apply is_idle_spec. auto. }
  destruct phase as [[|token rest]| | |r]; intros [H|[H|[H|H]]]; try done; injection H as <-.
  - by apply set_shutdown_inv.
  - apply set_shutdown_inv; [by apply with_tokens_inv|done].
  - apply set_shutdown_inv; [done|]. destruct (is_idle (status w)) eqn:E; [by apply Hret|].
    case_bool_decide; [by apply Hret|done].
  - by apply set_shutdown_inv.
  - apply set_shutdown_inv; [done|]. apply Hret. by destruct (is_idle (status w)).
Qed.

Lemma exec_inv op w w' : Inv w → exec op w = Some w' → Inv w'.
Proof.
  intros Hi. destruct op; simpl; try (intros [= <-]).
  - by apply try_spawn_inv.
  - by apply other_spawn_inv.
  - by apply work_returned_inv.
  - by apply drop_guards_inv.
  - by apply remove_record_inv.
  - by apply work_failed_inv.
  - by apply complete_inv.
  - by apply supervisor_lost_inv.
  - unfold cancel. destruct (tasks (state w) !! id); [|done].
    destruct (token_cancel _ _). by apply with_tokens_inv.
  - unfold handle_cancel. destruct (token_cancel _ _). by apply with_tokens_inv.
  - unfold try_close_idle. case_bool_decide; simpl; [by apply close_inv|done].
  - by apply close_inv.
  - by apply shutdown_begin_inv.
  - intros H. apply (shutdown_steps_inv call w); auto.
  - intros H. apply (shutdown_steps_inv call w); auto.
  - intros H. apply (shutdown_steps_inv call w); auto.
  - intros H. apply (shutdown_steps_inv call w); auto.
Qed.

Lemma new_inv max_active w : 0 ≤ max_active → owner_new max_active = Ok w → Inv w.
Proof.
  unfold owner_new. intros H. destruct (Z.eqb_spec max_active 0); [done|]. intros [= <-].
  split; simpl.
  - done.
  - intros id _. apply lookup_empty.
  - rewrite map_size_empty. lia.
  - intros id. unfold task_inv. simpl. by rewrite !lookup_empty.
  - constructor.
Qed.

Lemma reachable_inv w : reachable w → Inv w.
Proof. induction 1; [by eapply new_inv|by eapply exec_inv]. Qed.

Lemma reachable_task w id : reachable w → task_inv w id.
Proof. intros H. apply inv_task, reachable_inv, H. Qed.
End invariant.

(** ** What the owner promises *)

Section promises.
Context {G V : Type}.
Implicit Types (w : World G V).

Lemma run_reachable ops w w' : reachable w → run ops w = Some w' → reachable w'.
Proof.
  revert w. induction ops as [|op ops IH]; simpl; intros w Hr; [by intros [= <-]|].
  destruct (exec op w) as [w1|] eqn:He; [|done]. apply IH. by apply (reachable_exec op w).
Qed.

(** [try_spawn] accepts exactly when it is called inside a runtime, the
    owner is open, has a free place and an identity is left.  The identity is
    new, the guards are in the record, nobody else's record changes, and the
    number of accepted tasks that are not settled never exceeds the capacity. *)
Theorem try_spawn_accepts_iff w runtime retained id w' :
  reachable w →
  (Z.of_nat (size (tasks (state w))) ≤ capacity w) ∧
  (try_spawn runtime retained w = (Ok id, w') →
     supervisors w !! id = None ∧ join id w' = None ∧
     tasks (state w') =
       <[id := {| rec_cancellation := length (tokens w); rec_unsettled := false;
                  rec_retained := Some retained |}]> (tasks (state w))) ∧
  (is_ok (try_spawn runtime retained w).1 = true ↔
     runtime = true ∧ closing (state w) = false ∧
     Z.of_nat (size (tasks (state w))) < capacity w ∧ next_task_id w < u64_max).
Proof.
  intros Hi%reachable_inv. split; [apply (inv_capacity _ Hi)|]. unfold try_spawn, checked_add_u64.
  destruct runtime; simpl; [|naive_solver].
  destruct (closing (state w)) eqn:Hcl; simpl; [naive_solver|].
  destruct (Z.leb_spec (capacity w) (Z.of_nat (size (tasks (state w)))));
    [simpl; naive_solver lia|].
  destruct (Z.leb_spec (next_task_id w + 1) u64_max); simpl; [|naive_solver lia].
  split; [|naive_solver lia]. intros [= <- <-]. simpl.
  assert (supervisors w !! next_task_id w = None) as Hs by (apply (inv_fresh _ Hi); lia).
  split_and!; [done| |done]. pose proof (inv_task _ Hi (next_task_id w)) as Ht.
  unfold task_inv in Ht. rewrite Hs in Ht. destruct Ht as (_ & Ho & _).
  unfold join. simpl. by rewrite Ho, lookup_insert_eq.
Qed.

(** Whether the record of a task holds its guards. *)
Definition guards_held w (id : Z) : Prop :=
  ∃ record g, tasks (state w) !! id = Some record ∧ rec_retained record = Some g.

(** C8: Guards are dropped once and only for work that returned: as long as
    the work runs, and for ever after it panicked, the record keeps them. *)
Theorem guards_kept_until_return w id :
  reachable w →
  (∀ g, (id, g) ∈ dropped_guards w →
     guards_of w id = [g] ∧
     ((∃ v, supervisors w !! id = Some (Removing v)) ∨
      (∃ v, supervisors w !! id = Some (Reporting (Ok v))) ∨
      (∃ v, supervisors w !! id = Some Finished ∧ join id w = Some (Ok v)))) ∧
  match supervisors w !! id with
  | Some Joining | Some (Reporting (Err _)) => guards_held w id
  | Some Finished => join id w = Some (Err Panicked) → guards_held w id
  | _ => True
  end.
Proof.
  intros Ht%(reachable_task w id). unfold guards_held. split.
  - intros g Hin. assert (g ∈ guards_of w id) as Hg.
    { unfold guards_of. apply list_elem_of_fmap. exists (id, g). split; [done|].
      apply list_elem_of_In, filter_In. split; [by apply list_elem_of_In|apply Z.eqb_refl]. }
    assert (guards_of w id ≠ []) as Hne by (intros E; rewrite E in Hg; by apply elem_of_nil in Hg).
    assert (∀ g', guards_of w id = [g'] → guards_of w id = [g]) as Hsame.
    { intros g' E. rewrite E in *. by apply list_elem_of_singleton in Hg as ->. }
    clear Hg. unfold task_inv, join in *.
    destruct (supervisors w !! id) as [[| | |[]|]|]; simpl in Ht; try naive_solver.
    destruct Ht as [(v & -> & [g' Hd] & _)|(? & _ & ? & _)]; [|done]. split; [eauto|].
    right; right. eauto.
  - unfold task_inv, join in *.
    destruct (supervisors w !! id) as [[| | |[v|error]|]|]; simpl in Ht; try done.
    + destruct Ht as (_ & _ & token & g & Hr). eauto.
    + destruct Ht as (_ & _ & _ & token & g & Hr). eauto.
    + intros Hj. destruct Ht as [(v & Ho & _)|(error & Ho & _ & _ & token & r & Hr & Hp)];
        rewrite Ho in Hj; [done|]. injection Hj as ->. destruct (Hp eq_refl) as [g ->]. eauto.
Qed.

(** Nothing accepted is lost.  When the owner holds no record, every task
    it ever accepted has returned a value and its guards were dropped. *)
Theorem empty_owner_settled_all w id :
  reachable w → tasks (state w) = ∅ → is_Some (supervisors w !! id) →
  ∃ g v, guards_of w id = [g] ∧
    (supervisors w !! id = Some (Reporting (Ok v)) ∨ join id w = Some (Ok v)).
Proof.
  intros Ht%(reachable_task w id) He [sup Hs]. unfold task_inv, join in *.
  rewrite He, lookup_empty, Hs in *. destruct sup as [|v r|v|[v|error]|]; simpl in Ht.
  - by destruct Ht as (_ & _ & ? & ? & ?).
  - by destruct Ht as (_ & _ & _ & ? & ?).
  - by destruct Ht as (_ & _ & ? & ?).
  - destruct Ht as (_ & [g Hg] & _). exists g, v. auto.
  - by destruct Ht as (_ & _ & _ & ? & ? & ?).
  - destruct Ht as [(v & -> & [g Hg] & _)|(? & _ & _ & _ & ? & ? & ? & _)]; [|done].
    exists g, v. auto.
Qed.

(** A waiter learns what happened.  [join] answers a value only after the
    guards were dropped and the record removed, an error only while the record
    stays, unsettled, and never that the owner was lost. *)
Theorem join_tells_settlement w id outcome :
  reachable w → is_Some (supervisors w !! id) → join id w = Some outcome →
  match outcome with
  | Ok _ => tasks (state w) !! id = None ∧ ∃ g, guards_of w id = [g]
  | Err error => error ≠ OwnerLost ∧ task_unsettled (state w) id = true ∧ guards_of w id = []
  end.
Proof.
  intros Ht%(reachable_task w id) [sup Hs]. unfold task_inv, join, task_unsettled in *.
  rewrite Hs in *.
  destruct sup as [|v r|v|[v|error]|]; simpl in Ht; try (by destruct Ht as [-> _]).
  destruct Ht as [(v & -> & Hg & Hr)|(error & -> & Hg & Hne & token & r & Hr & _)]; intros [= <-];
    [done|]. by rewrite Hr.
Qed.

Lemma receipt_exec op w w' :
  shutdown_receipt w = true → exec op w = Some w' → shutdown_receipt w' = true.
Proof.
  unfold shutdown_receipt. rewrite !andb_true_iff, !bool_decide_eq_true. intros [Hc Ht].
  assert (∀ (f : TaskRecord G → TaskRecord G) id, alter f id (tasks (state w)) = ∅) as Ha
    by (intros; by rewrite Ht, alter_empty).
  assert (∀ id, delete id (tasks (state w)) = ∅) as Hd by (intros; by rewrite Ht, delete_empty).
  destruct op; simpl; unfold try_spawn, other_spawn, work_returned, drop_guards, remove_record,
    work_failed, complete, supervisor_lost, cancel, handle_cancel, try_close_idle,
    shutdown_cancel, shutdown_loop, shutdown_changed, shutdown_deadline, checked_add_u64;
    rewrite ?Hc; intros H; repeat (case_match; simpl in H; try done); simplify_eq/=; auto.
Qed.

(** A shutdown receipt stays valid: whatever happens next, the owner
    remains closed and without tasks. *)
Theorem shutdown_receipt_permanent ops w w' :
  shutdown_receipt w = true → run ops w = Some w' → shutdown_receipt w' = true.
Proof.
  revert w. induction ops as [|op ops IH]; simpl; intros w Hr; [by intros [= <-]|].
  destruct (exec op w) as [w1|] eqn:He; [|done]. by apply IH, (receipt_exec op w).
Qed.

(** A call of [shutdown] that returned success left a closed owner with
    nothing accepted and unsettled, and [try_close_idle] refuses without
    closing exactly when there is such work. *)
Theorem shutdown_success_sound w call :
  reachable w →
  (shutdowns w !! call = Some (Returned (Ok tt)) → shutdown_receipt w = true) ∧
  (if decide (tasks (state w) = ∅)
   then ∃ w', try_close_idle w = (Ok tt, w') ∧ shutdown_receipt w' = true
   else try_close_idle w = (Err (status w), w)).
Proof.
  intros Hi%reachable_inv. unfold shutdown_receipt, try_close_idle. split.
  - intros Hc. pose proof (inv_shutdown _ Hi) as Hs. rewrite list.Forall_lookup in Hs.
    destruct (Hs call _ Hc) as [-> Ht]. simpl. apply bool_decide_eq_true. auto.
  - destruct (decide (tasks (state w) = ∅)) as [He|He].
    + rewrite bool_decide_eq_true_2 by done. simpl. eexists. split; [done|]. simpl.
      by apply bool_decide_eq_true.
    + by rewrite bool_decide_eq_false_2.
Qed.

(** *** Progress *)

Definition settling (op : @Op G V) : bool :=
  match op with OpReturn _ _ | OpDropGuards _ | OpRemove _ | OpComplete _ => true | _ => false end.

Lemma run_app ops ops' w :
  run (ops ++ ops') w = w' ← run ops w; run ops' w'.
Proof.
  revert w. induction ops as [|op ops IH]; intros w; simpl; [done|].
  destruct (exec op w); simpl; [apply IH|done].
Qed.

Lemma run_inv ops w w' : Inv w → run ops w = Some w' → Inv w'.
Proof.
  revert w. induction ops as [|op ops IH]; simpl; intros w Hi; [by intros [= <-]|].
  destruct (exec op w) as [w1|] eqn:He; [|done]. by apply IH, (exec_inv op w).
Qed.

(** What a task that is not settled still has to do, when its work returns. *)
Definition remaining (v : V) (id : Z) (sup : Supervisor G V) : list (@Op G V) :=
  match sup with
  | Joining => [OpReturn id v; OpDropGuards id; OpRemove id]
  | Releasing _ _ => [OpDropGuards id; OpRemove id]
  | Removing _ => [OpRemove id]
  | _ => []
  end.

Lemma delete_alter (f : TaskRecord G → TaskRecord G) (id : Z) (m : gmap Z (TaskRecord G)) :
  delete id (alter f id m) = delete id m.
Proof.
  apply map_eq. intros i. rewrite !lookup_delete. case_decide; [done|]. by rewrite lookup_alter_ne.
Qed.

Lemma settle_one (v : V) w id record :
  Inv w → tasks (state w) !! id = Some record → rec_unsettled record = false →
  ∃ ops w', Forall (λ op, settling op = true) ops ∧ run ops w = Some w' ∧
    tasks (state w') = delete id (tasks (state w)) ∧ closing (state w') = closing (state w) ∧
    shutdowns w' = shutdowns w.
Proof.
  intros Hi Hr Hu. pose proof (inv_task _ Hi id) as Ht. unfold task_inv in Ht. rewrite Hr in Ht.
  destruct (supervisors w !! id) as [sup|] eqn:Hs; [|by destruct Ht].
  exists (remaining v id sup). destruct sup as [|x r|x|[x|error]|]; simpl in Ht |- *.
  - unfold work_returned. rewrite Hs. simpl. unfold drop_guards at 1. simpl.
    rewrite lookup_insert_eq. simpl. unfold remove_record at 1. simpl. rewrite lookup_insert_eq.
    eexists. split_and!; [by repeat constructor|done| |done|done]. apply delete_alter.
  - unfold drop_guards. rewrite Hs. simpl. unfold remove_record at 1. simpl.
    rewrite lookup_insert_eq. eexists. by split_and!; [repeat constructor| | | |].
  - unfold remove_record. rewrite Hs. simpl. eexists.
    by split_and!; [repeat constructor| | | |].
  - by destruct Ht as (_ & _ & ?).
  - destruct Ht as (_ & _ & _ & ? & ? & [= ->]). done.
  - destruct Ht as [(? & _ & _ & ?)|(? & _ & _ & _ & ? & ? & [= ->] & _)]; done.
Qed.

(** Shutdown gets there.  When a closed owner has no task left unsettled
    by a panic and the work it accepted returns, its supervisors can always
    run to the point where the receipt is given and a waiting call of
    [shutdown] returns success. *)
Theorem closed_owner_drains (v : V) w :
  reachable w → closing (state w) = true → (∀ id, task_unsettled (state w) id = false) →
  ∃ ops w', Forall (λ op, settling op = true) ops ∧ run ops w = Some w' ∧
    shutdown_receipt w' = true ∧
    ∀ call, shutdowns w !! call = Some Looping →
      ∃ w'', shutdown_loop call w' = Some w'' ∧ shutdowns w'' !! call = Some (Returned (Ok tt)).
Proof.
  intros Hi%reachable_inv. remember (size (tasks (state w))) as n eqn:Hn.
  revert w Hi Hn. induction n as [|n IH]; intros w Hi Hn Hc Hu.
  - exists [], w. symmetry in Hn. apply map_size_empty_inv in Hn.
    split_and!; [constructor|done| |].
    + unfold shutdown_receipt. rewrite Hc, bool_decide_eq_true_2; done.
    + intros call Hcall. unfold shutdown_loop. rewrite Hcall.
      rewrite (proj2 (is_idle_spec w)) by done. eexists. split; [done|]. simpl.
      apply list_lookup_insert_eq. by eapply lookup_lt_Some.
  - destruct (map_choose (tasks (state w))) as (id & record & Hr).
    { intros E. rewrite E, map_size_empty in Hn. done. }
    destruct (settle_one v w id record Hi Hr) as (ops & w1 & Hf & Hrun & Ht & Hcl & Hsh).
    { specialize (Hu id). unfold task_unsettled in Hu. by rewrite Hr in Hu. }
    destruct (IH w1) as (ops' & w' & Hf' & Hrun' & Hrec & Hcalls).
    + by eapply run_inv.
    + rewrite Ht, map_size_delete, Hr, <-Hn. simpl. lia.
    + by rewrite Hcl.
    + intros id'. unfold task_unsettled. rewrite Ht, lookup_delete. case_decide; [done|]. apply Hu.
    + exists (ops ++ ops'), w'. rewrite run_app, Hrun. rewrite Hsh in Hcalls.
      split_and!; [by apply list.Forall_app|done|done|done].
Qed.
End promises.

(** ** Sample runs *)

(** An owner of capacity two; the first task returns 7, the second panics. *)
Definition sample_new : World string Z :=
  {| next_task_id := 1; capacity := 2; state := {| closing := false; tasks := ∅ |}; tokens := [];
     supervisors := ∅; outcomes := ∅; dropped_guards := []; shutdowns := [] |}.

Definition sample_ops : list (@Op string Z) :=
  [OpSpawn true "library pin"; OpSpawn true "lease"; OpReturn 1 7; OpDropGuards 1; OpRemove 1;
   OpComplete 1; OpFail 2 true; OpComplete 2].

Definition sample_run (ops : list (@Op string Z)) : World string Z :=
  default sample_new (run ops sample_new).

Lemma sample_reachable ops : reachable (sample_run ops).
Proof.
  assert (reachable sample_new) as Hn by (by apply (reachable_new 2)).
  unfold sample_run. destruct (run ops sample_new) as [w|] eqn:E; simpl; [|done].
  by apply (run_reachable ops sample_new).
Qed.

Lemma try_spawn_accepts_iff_witness :
  let w := sample_run sample_ops in
  is_ok (try_spawn true "second lease" w).1 = true ∧
  (try_spawn true "second lease" w = (Ok 3, (try_spawn true "second lease" w).2) →
   join 3 (try_spawn true "second lease" w).2 = None).
Proof.
  intros w.
  destruct (try_spawn_accepts_iff w true "second lease" 3 (try_spawn true "second lease" w).2)
    as (_ & Hj & Hiff); [apply sample_reachable|]. split.
  - apply Hiff. split_and!; vm_compute; reflexivity.
  - intros E. by destruct (Hj E) as (_ & ? & _).
Defined.

Lemma guards_kept_until_return_witness :
  guards_of (sample_run sample_ops) 1 = ["library pin"] ∧ guards_held (sample_run sample_ops) 2.
Proof.
  split.
  - apply (guards_kept_until_return (sample_run sample_ops) 1 (sample_reachable _)).
    vm_compute. constructor.
  - destruct (guards_kept_until_return (sample_run sample_ops) 2 (sample_reachable _)) as [_ H].
    assert (supervisors (sample_run sample_ops) !! 2 = Some Finished) as E by (vm_compute; reflexivity).
    rewrite E in H. apply H. vm_compute. reflexivity.
Defined.

Lemma empty_owner_settled_all_witness :
  ∃ g v, guards_of (sample_run (take 6 sample_ops ++ [OpReturn 2 8; OpDropGuards 2; OpRemove 2])) 2 = [g] ∧
    (supervisors (sample_run (take 6 sample_ops ++ [OpReturn 2 8; OpDropGuards 2; OpRemove 2])) !! 2 =
       Some (Reporting (Ok v)) ∨
     join 2 (sample_run (take 6 sample_ops ++ [OpReturn 2 8; OpDropGuards 2; OpRemove 2])) = Some (Ok v)).
Proof.
  apply (empty_owner_settled_all
           (sample_run (take 6 sample_ops ++ [OpReturn 2 8; OpDropGuards 2; OpRemove 2])) 2).
  - apply sample_reachable.
  - vm_eq.
  - exists (Reporting (Ok 8)). vm_compute. reflexivity.
Defined.

Lemma join_tells_settlement_witness :
  join 2 (sample_run sample_ops) = Some (Err Panicked) ∧
  task_unsettled (state (sample_run sample_ops)) 2 = true.
Proof.
  assert (join 2 (sample_run sample_ops) = Some (Err Panicked)) as E by (vm_compute; reflexivity).
  split; [exact E|].
  assert (is_Some (supervisors (sample_run sample_ops) !! 2)) as Hs
    by (exists Finished; vm_compute; reflexivity).
  exact (proj1 (proj2 (join_tells_settlement _ 2 (Err Panicked) (sample_reachable _) Hs E))).
Defined.

Lemma shutdown_receipt_permanent_witness :
  shutdown_receipt (sample_run [OpTryClose; OpSpawn true "late"; OpShutdown]) = true.
Proof.
  apply (shutdown_receipt_permanent [OpSpawn true "late"; OpShutdown] (sample_run [OpTryClose]));
    vm_compute; reflexivity.
Defined.

Lemma shutdown_success_sound_witness :
  shutdown_receipt (sample_run [OpShutdown; OpShutdownCancel 0; OpShutdownLoop 0]) = true.
Proof.
  apply (shutdown_success_sound (sample_run [OpShutdown; OpShutdownCancel 0; OpShutdownLoop 0]) 0).
  - apply sample_reachable.
  - vm_compute. reflexivity.
Defined.

Lemma closed_owner_drains_witness :
  let w := sample_run (take 3 sample_ops ++ [OpShutdown; OpShutdownCancel 0; OpShutdownCancel 0;
                         OpShutdownCancel 0]) in
  ∃ ops w', Forall (λ op, settling op = true) ops ∧ run ops w = Some w' ∧ shutdown_receipt w' = true.
Proof.
  intros w. destruct (closed_owner_drains 8 w) as (ops & w' & ? & ? & ? & _).
  - apply sample_reachable.
  - vm_compute. reflexivity.
  - intros id. unfold task_unsettled. subst w.
    assert (tasks (state (sample_run (take 3 sample_ops ++ [OpShutdown; OpShutdownCancel 0;
        OpShutdownCancel 0; OpShutdownCancel 0]))) =
      <[1 := {| rec_cancellation := 0; rec_unsettled := false; rec_retained := None |}]>
        (<[2 := {| rec_cancellation := 1; rec_unsettled := false;
                   rec_retained := Some "lease" |}]> ∅)) as -> by vm_eq.
    destruct (decide (id = 1)) as [->|?]; [by rewrite lookup_insert_eq|].
    rewrite lookup_insert_ne by done.
    destruct (decide (id = 2)) as [->|?]; [by rewrite lookup_insert_eq|].
    by rewrite lookup_insert_ne, lookup_empty.
  - by exists ops, w'.
Defined.
