(* ===== verification/TaskProjection.v ===== *)
(** * Latest projections ([core/app/src/tasks/projection.rs])

    A value with a revision, replaced under a lock by publishers that name the
    revision they expect, and the subscriptions that read the latest one.  The
    watch channel keeps its latest value and a version that grows with every
    send; a receiver remembers the version it has seen. *)

From S2P Require Import Prelude RustStr.

(** ** Data *)

Record Revisioned {T : Type} := { revision : Z; value : T }.
Arguments Revisioned : clear implicits.

Inductive ProjectionError :=
| StaleRevision (current : Z)
| AlreadyFinished
| RevisionExhausted.

Record Projection {T : Type} := {
  current : Revisioned T;
  finished : bool;
  latest : Revisioned T;
  latest_version : nat;
}.
Arguments Projection : clear implicits.

Section projection.
Context {T : Type}.
Implicit Types (self : Projection T) (v : T).

(** ** Operations *)

Definition projection_new v : Projection T :=
  let current := {| revision := 1; value := v |} in
  {| current := current; finished := false; latest := current; latest_version := 0 |}.

Definition projection_snapshot self : Revisioned T := current self.

(** The snapshot and the version the new subscription has seen. *)
Definition subscribe self : Revisioned T * nat := (current self, latest_version self).

Definition replace (expected : Z) (v : T) (finish : bool) self :
    result ProjectionError (Revisioned T) * Projection T :=
  if finished self then (Err AlreadyFinished, self)
  else if negb (revision (current self) =? expected) then
    (Err (StaleRevision (revision (current self))), self)
  else
    match checked_add_u64 expected 1 with
    | None => (Err RevisionExhausted, self)
    | Some next =>
        let c := {| revision := next; value := v |} in
        (Ok c, {| current := c; finished := finish; latest := c;
                  latest_version := S (latest_version self) |})
    end.

Definition publish (expected : Z) v self := replace expected v false self.

Definition finish (expected : Z) v self := replace expected v true self.

(** [changed]: [None] while it waits; the version seen moves to the latest. *)
Definition changed (seen : nat) self : option (Revisioned T * nat) :=
  if bool_decide (seen = latest_version self) then None else Some (latest self, latest_version self).

(** A publication: whether it finishes, the revision it expects, its value. *)
Definition apply (self : Projection T) (call : bool * Z * T) : Projection T :=
  let '(finishing, expected, v) := call in
  (if finishing : bool then finish expected v self else publish expected v self).2.

Definition applied (v : T) (calls : list (bool * Z * T)) : Projection T :=
  fold_left apply calls (projection_new v).

(** ** Properties *)

Record Inv self : Prop := {
  inv_latest : latest self = current self;
  inv_version : revision (current self) = 1 + Z.of_nat (latest_version self);
  inv_revision : revision (current self) ≤ u64_max;
}.

Lemma apply_eq self finishing expected v :
  apply self (finishing, expected, v) = (replace expected v finishing self).2.
Proof. by destruct finishing. Qed.

Lemma replace_cases self expected v finishing :
  (∃ error, replace expected v finishing self = (Err error, self)) ∨
  (finished self = false ∧ revision (current self) = expected ∧ expected < u64_max ∧
   replace expected v finishing self =
     (Ok {| revision := expected + 1; value := v |},
      {| current := {| revision := expected + 1; value := v |}; finished := finishing;
         latest := {| revision := expected + 1; value := v |};
         latest_version := S (latest_version self) |})).
Proof.
  unfold replace, checked_add_u64. destruct (finished self); [left; eauto|].
  destruct (Z.eqb_spec (revision (current self)) expected); simpl; [|left; eauto].
  destruct (Z.leb_spec (expected + 1) u64_max); [|left; eauto]. right. split_and!; try done. lia.
Qed.

Lemma apply_inv self call : Inv self → Inv (apply self call).
Proof.
  destruct call as [[finishing expected] v]. intros [H1 H2 H3]. rewrite apply_eq.
  destruct (replace_cases self expected v finishing) as [[error ->]|(Hf & Hr & Hlt & ->)]; [by split|].
  split; cbn [latest current revision latest_version snd]; [done|lia|lia].
Qed.

Lemma applied_from_inv self calls : Inv self → Inv (fold_left apply calls self).
Proof. revert self. induction calls as [|call calls IH]; simpl; eauto using apply_inv. Qed.

Lemma applied_inv v calls : Inv (applied v calls).
Proof. by apply applied_from_inv. Qed.

Lemma version_grows self calls :
  (latest_version self ≤ latest_version (fold_left apply calls self))%nat ∧
  (latest_version (fold_left apply calls self) = latest_version self →
   fold_left apply calls self = self) ∧
  (finished self = true → fold_left apply calls self = self).
Proof.
  revert self. induction calls as [|[[finishing expected] v] calls IH]; intros self; cbn [fold_left]; [done|].
  destruct (IH (apply self (finishing, expected, v))) as (H1 & H2 & H3). rewrite apply_eq in *.
  destruct (replace_cases self expected v finishing) as [[error E]|(Hf & Hr & Hlt & E)];
    rewrite E in *; cbn [snd latest_version] in *; [done|].
  split_and!; [lia|intros; lia|by rewrite Hf].
Qed.

(** Publications are decided by the revision they expect.  A publication
    succeeds exactly when nothing has finished, it expects the current
    revision and a further one exists; then the revision grows by one, the
    reader's snapshot and the subscriptions' latest value are the published
    one; otherwise nothing changes. *)
Theorem replace_succeeds_iff v calls expected new finishing :
  let self := applied v calls in
  let '(outcome, self') := replace expected new finishing self in
  latest self' = current self' ∧
  (is_ok outcome = true ↔
     finished self = false ∧ revision (current self) = expected ∧ expected < u64_max) ∧
  match outcome with
  | Ok published =>
      published = {| revision := revision (current self) + 1; value := new |} ∧
      current self' = published ∧ finished self' = finishing
  | Err _ => self' = self
  end.
Proof.
  intros self. pose proof (applied_inv v calls) as [Hl _ _]. fold self in Hl.
  unfold replace, checked_add_u64. destruct (finished self); [naive_solver|].
  destruct (Z.eqb_spec (revision (current self)) expected) as [->|]; simpl; [|naive_solver].
  destruct (Z.leb_spec (expected + 1) u64_max); simpl; naive_solver lia.
Qed.

(** A finished projection is final: no later publication, whatever it
    expects, changes it. *)
Theorem finished_is_final v calls later :
  finished (applied v calls) = true → applied v (calls ++ later) = applied v calls.
Proof. intros H. unfold applied. rewrite fold_left_app. by apply version_grows. Qed.

(** A subscription misses nothing.  Subscribing returns the current value;
    afterwards a wait ends exactly when something was published since, with
    the then latest value and a greater revision, however many publications
    the subscriber slept through. *)
Theorem subscription_has_no_gap v calls later :
  let '(initial, seen) := subscribe (applied v calls) in
  let now := applied v (calls ++ later) in
  match changed seen now with
  | None => current now = initial
  | Some (value, _) => value = current now ∧ revision initial < revision value
  end.
Proof.
  unfold subscribe, changed, applied. rewrite fold_left_app. fold (applied v calls).
  pose proof (applied_inv v calls) as Hi. set (self := applied v calls) in *.
  destruct (version_grows self later) as (H1 & H2 & _).
  destruct (applied_from_inv self later Hi) as [Hl Hv _]. destruct Hi as [_ Hv' _].
  case_bool_decide as E; [by rewrite H2 by done|]. split; [done|]. rewrite Hl. lia.
Qed.
End projection.

Lemma finished_is_final_witness :
  applied "queued" [(false, 1, "running"); (true, 2, "completed"); (true, 3, "failed")] =
  applied "queued" [(false, 1, "running"); (true, 2, "completed")].
Proof.
  apply (finished_is_final "queued" [(false, 1, "running"); (true, 2, "completed")]
           [(true, 3, "failed")]). reflexivity.
Defined.
