(* ===== verification/PhysSemaphore.v ===== *)
(** * What the admission of physical work asks of a semaphore

    [src/core/resource/src/lib.rs] builds on the semaphores of the async
    runtime.  [Semaphore] has the operations it calls, and [SemaphoreLaws]
    their documented behaviour: a counter of permits whose waiting requests
    are served in the order they were made, a request for many permits at the
    front holding back those behind it.  [FifoSemaphore] is a concrete
    counter with its queue, at which the theorems are instantiated. *)

From S2P Require Import Prelude.

Inductive TryAcquireError := TryClosed | TryNoPermits.

(** A request in the queue has the ticket of its future.  [free] and
    [waiting] are what a client reasons with: the permits no completed
    acquisition holds, and the requests not completed yet. *)
Class Semaphore (sem : Type) := {
  semaphore_new : Z → sem;
  available_permits : sem → Z;
  try_acquire_many_owned : Z → sem → result TryAcquireError sem;
  (* [acquire_many_owned(n)] polled for the first time *)
  acquire_enqueue : Z → Z → sem → sem;
  (* polled again: [None] while it is pending, [Err] once closed *)
  acquire_poll : Z → sem → option (result unit sem);
  (* dropped while pending *)
  acquire_forget : Z → sem → sem;
  (* a permit of this many units is dropped *)
  permit_drop : Z → sem → sem;
  free : sem → Z;
  waiting : sem → list (Z * Z);
}.

(** Units asked for by the requests of a queue. *)
Definition asked (l : list (Z * Z)) : Z := sum_Z (snd <$> l).

Class SemaphoreLaws (sem : Type) `{Semaphore sem} : Prop := {
  new_free n : 0 ≤ n → free (semaphore_new n) = n;
  new_waiting n : 0 ≤ n → waiting (semaphore_new n) = [];
  available_free s : waiting s = [] → available_permits s = free s;
  try_acquire_ok n s s' : try_acquire_many_owned n s = Ok s' →
    n ≤ free s ∧ free s' = free s - n ∧ waiting s' = waiting s;
  try_acquire_err n s e : try_acquire_many_owned n s = Err e →
    e = TryNoPermits ∧ (waiting s = [] → free s < n);
  enqueue_free t n s : free (acquire_enqueue t n s) = free s;
  enqueue_waiting t n s : waiting (acquire_enqueue t n s) = waiting s ++ [(t, n)];
  poll_front t n l s : waiting s = (t, n) :: l → n ≤ free s → is_Some (acquire_poll t s);
  poll_ok t s s' : acquire_poll t s = Some (Ok s') →
    ∃ l n l', waiting s = l ++ (t, n) :: l' ∧ asked l + n ≤ free s ∧
              free s' = free s - n ∧ waiting s' = l ++ l';
  poll_open t s : acquire_poll t s ≠ Some (Err tt);
  forget_free t s : free (acquire_forget t s) = free s;
  forget_waiting t s :
    waiting (acquire_forget t s) = List.filter (λ r, negb (r.1 =? t)) (waiting s);
  drop_free n s : 0 ≤ n → free (permit_drop n s) = free s + n;
  drop_waiting n s : waiting (permit_drop n s) = waiting s;
}.

(** ** A counter with its queue *)

Record FifoSemaphore := { fifo_permits : Z; fifo_queue : list (Z * Z) }.

(** The request with ticket [t], the units asked for before it, and the rest. *)
Fixpoint fifo_find (t : Z) (l : list (Z * Z)) : option (Z * Z * list (Z * Z)) :=
  match l with
  | [] => None
  | (t', n) :: l =>
      if t' =? t then Some (0, n, l)
      else '(before, m, l') ← fifo_find t l; Some (n + before, m, (t', n) :: l')
  end.

#[export] Instance fifo_semaphore : Semaphore FifoSemaphore := {
  semaphore_new n := {| fifo_permits := n; fifo_queue := [] |};
  available_permits := fifo_permits;
  try_acquire_many_owned n s :=
    if bool_decide (fifo_queue s = []) && (n <=? fifo_permits s)
    then Ok {| fifo_permits := fifo_permits s - n; fifo_queue := [] |} else Err TryNoPermits;
  acquire_enqueue t n s :=
    {| fifo_permits := fifo_permits s; fifo_queue := fifo_queue s ++ [(t, n)] |};
  acquire_poll t s :=
    '(before, n, l) ← fifo_find t (fifo_queue s);
    if before + n <=? fifo_permits s
    then Some (Ok {| fifo_permits := fifo_permits s - n; fifo_queue := l |}) else None;
  acquire_forget t s :=
    {| fifo_permits := fifo_permits s;
       fifo_queue := List.filter (λ r, negb (r.1 =? t)) (fifo_queue s) |};
  permit_drop n s := {| fifo_permits := fifo_permits s + n; fifo_queue := fifo_queue s |};
  free := fifo_permits;
  waiting := fifo_queue;
}.

Lemma fifo_find_some t l before n rest :
  fifo_find t l = Some (before, n, rest) →
  ∃ l1 l2, l = l1 ++ (t, n) :: l2 ∧ before = asked l1 ∧ rest = l1 ++ l2.
Proof.
  revert before n rest. induction l as [|[t' m] l IH]; simpl; intros before n rest; [done|].
  destruct (t' =? t) eqn:Ht.
  - intros [= <- <- <-]. apply Z.eqb_eq in Ht as ->. by exists [], l.
  - destruct (fifo_find t l) as [[[b k] r]|]; simpl; [|done]. intros [= <- <- <-].
    destruct (IH b k r eq_refl) as (l1 & l2 & -> & -> & ->).
    by exists ((t', m) :: l1), l2.
Qed.

#[export] Instance fifo_semaphore_laws : SemaphoreLaws FifoSemaphore.
Proof.
  split; try done.
  - intros n s s'. simpl. case_match eqn:E; [|done]. intros [= <-].
    apply andb_true_iff in E as [E1%bool_decide_eq_true E2%Z.leb_le]. by rewrite E1.
  - intros n s e. simpl. case_match eqn:E; [done|]. intros [= <-]. split; [done|]. intros Hw.
    rewrite Hw in E. apply Z.leb_gt in E. exact E.
  - intros t n l s. simpl. intros -> Hn. simpl. rewrite Z.eqb_refl. simpl.
    destruct (0 + n <=? fifo_permits s) eqn:E; [done|]. apply Z.leb_gt in E. lia.
  - intros t s s'. simpl. destruct (fifo_find t (fifo_queue s)) as [[[b n] r]|] eqn:E; simpl; [|done].
    case_match eqn:Hle; [|done]. intros [= <-]. apply Z.leb_le in Hle.
    apply fifo_find_some in E as (l1 & l2 & -> & -> & ->). by exists l1, n, l2.
  - intros t s. simpl. destruct (fifo_find t (fifo_queue s)) as [[[b n] r]|]; simpl; [|done].
    by case_match.
Qed.
