(* ===== verification/PhysicalWork.v ===== *)
(** * Admission of physical work ([core/resource/src/lib.rs])

    The process admits blocking work by permits of five semaphores: scratch
    memory in units of a MiB, background work, crash collection, heavy
    input/output, and workers.  A [World] holds the owner's semaphores and
    counters, the groups, and every call in progress at the point it has
    reached: a run in a group, a direct admission, a reservation of scratch
    memory, or inline work.  [exec] performs one step of one of them; between
    two steps anything else may happen.  The semaphore is the interface of
    [PhysSemaphore]; what the work computes is left out of its result. *)

From S2P Require Import Prelude PhysSemaphore.

(** ** Data *)

Definition SCRATCH_UNIT_BYTES : Z := Z.shiftl 1 20.

Record PhysicalWorkLimits := {
  limit_workers : Z;
  limit_background : Z;
  limit_crash : Z;
  limit_heavy : Z;
  limit_scratch_bytes : Z;
}.

Definition PROCESS_LIMITS : PhysicalWorkLimits := {|
  limit_workers := 4;
  limit_background := 2;
  limit_crash := 2;
  limit_heavy := 1;
  limit_scratch_bytes := Z.shiftl 512 20;
|}.

Inductive PhysicalWorkClass := Foreground | Background | CrashCollection.

#[export] Instance class_eq_dec : EqDecision PhysicalWorkClass.
Proof. solve_decision. Defined.

Definition class_index (class : PhysicalWorkClass) : nat :=
  match class with Foreground => 0 | Background => 1 | CrashCollection => 2 end.

Inductive PhysicalIoClass := Metadata | Read | Write | Heavy.

#[export] Instance io_eq_dec : EqDecision PhysicalIoClass.
Proof. solve_decision. Defined.

Record PhysicalWorkRequest := {
  req_class : PhysicalWorkClass;
  req_io : PhysicalIoClass;
  req_scratch_bytes : Z;
  req_parallelism : Z;
}.

Definition foreground_parallel (io : PhysicalIoClass) (scratch_bytes parallelism : Z) :=
  {| req_class := Foreground; req_io := io; req_scratch_bytes := scratch_bytes;
     req_parallelism := parallelism |}.

Definition foreground (io : PhysicalIoClass) (scratch_bytes : Z) : PhysicalWorkRequest :=
  {| req_class := Foreground; req_io := io; req_scratch_bytes := scratch_bytes;
     req_parallelism := 1 |}.

Definition background_work (io : PhysicalIoClass) (scratch_bytes : Z) : PhysicalWorkRequest :=
  {| req_class := Background; req_io := io; req_scratch_bytes := scratch_bytes;
     req_parallelism := 1 |}.

Definition crash_collection (scratch_bytes : Z) : PhysicalWorkRequest :=
  {| req_class := CrashCollection; req_io := Read; req_scratch_bytes := scratch_bytes;
     req_parallelism := 1 |}.

Record PhysicalWorkSnapshot := {
  active_admissions : Z;
  running_workers : Z;
  available_workers : Z;
  available_scratch_bytes : Z;
}.

Inductive PhysicalWorkError :=
| Closed | ScratchLimit | Unavailable | WorkerLimit | Cancelled | Deadline | TaskStopped.

(** The semaphores in the order an admission acquires them. *)
Inductive Gate := GScratch | GBackground | GCrash | GHeavy | GWorkers.

#[export] Instance gate_eq_dec : EqDecision Gate.
Proof. solve_decision. Defined.

(** An [OwnedSemaphorePermit]. *)
Record Permit := { permit_gate : Gate; permit_units : Z }.

Record PhysicalWorkAdmission := {
  adm_class : PhysicalWorkClass;
  adm_class_permits : list Permit;
  adm_scratch : option Permit;
  adm_heavy : option Permit;
  adm_worker : Permit;
  adm_parallelism : Z;
}.

Record Owner {sem : Type} := {
  workers : sem;
  worker_limit : Z;
  background : sem;
  crash : sem;
  heavy : sem;
  scratch : sem;
  scratch_limit_bytes : Z;
  active : list Z;
  running : list Z;
}.
Arguments Owner : clear implicits.

(** *** Calls in progress *)

(** The locals of [admit] while it acquires. *)
Record Locals := {
  l_scratch : option Permit;
  l_class_permits : list Permit;
  l_heavy : option Permit;
}.

Definition no_locals : Locals :=
  {| l_scratch := None; l_class_permits := []; l_heavy := None |}.

(** A [RunningWorker]. *)
Record RunningWorker := { rw_class : PhysicalWorkClass; rw_count : Z }.

(** Where a call is.  [Entering], [Registered] and [Subscribing] are in
    [run_inner] before the admission; [Waiting] is at the acquisition of a
    gate, before or after its first poll; [Holding] and [Reserved] are with the
    caller; [Spawned], [Checking] and [Working] in the blocking closure; the
    last three drop what the call holds. *)
Inductive Phase :=
| Entering
| Registered
| Subscribing
| Starting
| Waiting (gate : Gate) (queued : bool) (locals : Locals)
| Holding (admission : PhysicalWorkAdmission)
| Reserved (permit : option Permit)
| Spawned (admission : PhysicalWorkAdmission)
| Checking (admission : PhysicalWorkAdmission)
| Working (admission : PhysicalWorkAdmission)
| Dropping (admission : PhysicalWorkAdmission) (worker : option RunningWorker)
    (outcome : option (result PhysicalWorkError unit))
| Releasing (permits : list Permit) (worker : option RunningWorker)
    (outcome : option (result PhysicalWorkError unit))
| Leaving (outcome : option (result PhysicalWorkError unit)).

Inductive Purpose := GroupRun (group : Z) | Admit | Reserve | Inline.

(** A reservation reads only the scratch bytes of its request. *)
Record Call := {
  c_purpose : Purpose;
  c_request : PhysicalWorkRequest;
  c_deadline : option Z;
  c_phase : Phase;
  c_seen : Z;
  c_spawned : bool;
  c_awaited : bool;
  c_task_cancelled : bool;
}.

(** [g_version] counts the values sent on the [cancellation] channel. *)
Record Group := { g_cancelled : bool; g_version : Z; g_active_count : Z }.

Record World {sem : Type} := {
  owner : Owner sem;
  groups : gmap Z Group;
  calls : gmap Z Call;
  outcomes : gmap Z (result PhysicalWorkError unit);
  clock : Z;
}.
Arguments World : clear implicits.

Inductive Outcome (A : Type) := Blocked | Aborted | Stepped (a : A).
Arguments Blocked {A}.
Arguments Aborted {A}.
Arguments Stepped {A} a.

(** ** The owner *)

Section owner.
Context {sem : Type} `{!Semaphore sem}.
Implicit Types (o : Owner sem).

Definition div_ceil (a b : Z) : Z := (a + b - 1) `div` b.

Definition owner_new (limits : PhysicalWorkLimits) : Owner sem :=
  let scratch_units := div_ceil (limit_scratch_bytes limits) SCRATCH_UNIT_BYTES in
  {| workers := semaphore_new (limit_workers limits);
     worker_limit := limit_workers limits;
     background := semaphore_new (limit_background limits);
     crash := semaphore_new (limit_crash limits);
     heavy := semaphore_new (limit_heavy limits);
     scratch := semaphore_new scratch_units;
     scratch_limit_bytes := limit_scratch_bytes limits;
     active := [0; 0; 0];
     running := [0; 0; 0] |}.

Definition gate_sem (g : Gate) o : sem :=
  match g with
  | GScratch => scratch o
  | GBackground => background o
  | GCrash => crash o
  | GHeavy => heavy o
  | GWorkers => workers o
  end.

Definition with_gate (g : Gate) (s : sem) o : Owner sem := {|
  workers := if decide (g = GWorkers) then s else workers o;
  worker_limit := worker_limit o;
  background := if decide (g = GBackground) then s else background o;
  crash := if decide (g = GCrash) then s else crash o;
  heavy := if decide (g = GHeavy) then s else heavy o;
  scratch := if decide (g = GScratch) then s else scratch o;
  scratch_limit_bytes := scratch_limit_bytes o;
  active := active o;
  running := running o |}.

(** [AtomicUsize::fetch_add], which wraps; a decrement adds the opposite. *)
Definition fetch_add (n : Z) (class : PhysicalWorkClass) (l : list Z) : list Z :=
  alter (λ x, (x + n) `mod` (u64_max + 1)) (class_index class) l.

Definition add_active (n : Z) (class : PhysicalWorkClass) o : Owner sem := {|
  workers := workers o; worker_limit := worker_limit o; background := background o;
  crash := crash o; heavy := heavy o; scratch := scratch o;
  scratch_limit_bytes := scratch_limit_bytes o;
  active := fetch_add n class (active o); running := running o |}.

Definition add_running (n : Z) (class : PhysicalWorkClass) o : Owner sem := {|
  workers := workers o; worker_limit := worker_limit o; background := background o;
  crash := crash o; heavy := heavy o; scratch := scratch o;
  scratch_limit_bytes := scratch_limit_bytes o;
  active := active o; running := fetch_add n class (running o) |}.

Definition drop_permit (p : Permit) o : Owner sem :=
  with_gate (permit_gate p) (permit_drop (permit_units p) (gate_sem (permit_gate p) o)) o.

Definition snapshot (class : PhysicalWorkClass) o : PhysicalWorkSnapshot := {|
  active_admissions := nth (class_index class) (active o) 0;
  running_workers := nth (class_index class) (running o) 0;
  available_workers := available_permits (workers o);
  available_scratch_bytes := available_permits (scratch o) * SCRATCH_UNIT_BYTES;
|}.

Definition validate_parallelism o (parallelism : Z) : result PhysicalWorkError unit :=
  err_if ((parallelism =? 0) || (worker_limit o <? parallelism)) WorkerLimit.

Definition map_try_acquire_error (e : TryAcquireError) : PhysicalWorkError :=
  match e with TryClosed => Closed | TryNoPermits => Unavailable end.

(** *** Immediate admission

    The state of an attempt is the owner with the permits the locals hold so
    far, the latest first; when it fails they are dropped. *)

Definition Attempt (A : Type) : Type :=
  list Permit * Owner sem → result PhysicalWorkError A * (list Permit * Owner sem).

Definition attempt_ret {A} (a : A) : Attempt A := λ s, (Ok a, s).

Definition attempt_bind {A B} (m : Attempt A) (k : A → Attempt B) : Attempt B := λ s,
  match m s with
  | (Ok a, s') => k a s'
  | (Err e, s') => (Err e, s')
  end.

Definition try_acquire (g : Gate) (n : Z) : Attempt Permit := λ '(held, o),
  match try_acquire_many_owned n (gate_sem g o) with
  | Ok s => let p := {| permit_gate := g; permit_units := n |} in
            (Ok p, (p :: held, with_gate g s o))
  | Err e => (Err (map_try_acquire_error e), (held, o))
  end.

Definition try_acquire_one (g : Gate) : Attempt Permit := try_acquire g 1.

Definition attempt_fail {A} (e : PhysicalWorkError) : Attempt A := λ s, (Err e, s).

Definition try_acquire_many (g : Gate) (count : Z) : Attempt Permit :=
  if u32_max <? count then attempt_fail WorkerLimit else try_acquire g count.

Definition attempt_some (m : Attempt Permit) : Attempt (option Permit) :=
  attempt_bind m (λ p, attempt_ret (Some p)).

Definition attempt_when (b : bool) (m : Attempt Permit) : Attempt (option Permit) :=
  if b then attempt_some m else attempt_ret None.

Definition try_reserve_scratch_inner (bytes : Z) : Attempt (option Permit) := λ '(held, o),
  if scratch_limit_bytes o <? bytes then (Err ScratchLimit, (held, o))
  else if bytes =? 0 then (Ok None, (held, o))
  else
    let units := div_ceil bytes SCRATCH_UNIT_BYTES in
    if u32_max <? units then (Err ScratchLimit, (held, o))
    else attempt_some (try_acquire GScratch units) (held, o).

Definition is_background (class : PhysicalWorkClass) : bool :=
  match class with Background | CrashCollection => true | Foreground => false end.

Definition is_crash (class : PhysicalWorkClass) : bool := bool_decide (class = CrashCollection).

Definition is_heavy (io : PhysicalIoClass) : bool := bool_decide (io = Heavy).

Definition option_permits (p : option Permit) : list Permit :=
  match p with Some p => [p] | None => [] end.

Definition try_admit_permits (request : PhysicalWorkRequest) : Attempt PhysicalWorkAdmission :=
  attempt_bind (try_reserve_scratch_inner (req_scratch_bytes request)) (λ sc,
  attempt_bind (attempt_when (is_background (req_class request)) (try_acquire_one GBackground)) (λ bg,
  attempt_bind (attempt_when (is_crash (req_class request)) (try_acquire_one GCrash)) (λ cr,
  attempt_bind (attempt_when (is_heavy (req_io request)) (try_acquire_one GHeavy)) (λ hv,
  attempt_bind (try_acquire_many GWorkers (req_parallelism request)) (λ worker,
  attempt_ret
    {| adm_class := req_class request;
       adm_class_permits := option_permits bg ++ option_permits cr;
       adm_scratch := sc;
       adm_heavy := hv;
       adm_worker := worker;
       adm_parallelism := req_parallelism request |}))))).

Definition drop_permits (ps : list Permit) o : Owner sem := foldl (λ o p, drop_permit p o) o ps.

Definition try_admit (request : PhysicalWorkRequest) o :
    result PhysicalWorkError PhysicalWorkAdmission * Owner sem :=
  match validate_parallelism o (req_parallelism request) with
  | Err e => (Err e, o)
  | Ok _ =>
      match try_admit_permits request ([], o) with
      | (Ok admission, (_, o')) => (Ok admission, add_active 1 (req_class request) o')
      | (Err e, (held, o')) => (Err e, drop_permits held o')
      end
  end.

Definition try_reserve_scratch (bytes : Z) o : result PhysicalWorkError (option Permit) * Owner sem :=
  match try_reserve_scratch_inner bytes ([], o) with
  | (r, (_, o')) => (r, o')
  end.
End owner.

(** ** Scoped jobs

    What a scope makes of each job: its thread could not be spawned, it
    panicked, or it returned a value. *)

Inductive JobFate (T : Type) := NotSpawned | JobPanicked | JobReturned (value : T).
Arguments NotSpawned {T}.
Arguments JobPanicked {T}.
Arguments JobReturned {T} value.

(** The workers of the jobs that could be spawned, in order, with their index. *)
Fixpoint spawn_scoped {T} (index : nat) (failed : bool) (jobs : list (JobFate T)) :
    bool * list (nat * JobFate T) :=
  match jobs with
  | [] => (failed, [])
  | NotSpawned :: jobs => spawn_scoped (S index) true jobs
  | job :: jobs => let '(failed', l) := spawn_scoped (S index) failed jobs in (failed', (index, job) :: l)
  end.

(** Joining them fills the results by index. *)
Fixpoint join_scoped {T} (failed : bool) (results : list (option T)) (l : list (nat * JobFate T)) :
    bool * list (option T) :=
  match l with
  | [] => (failed, results)
  | (index, JobReturned v) :: l => join_scoped failed (<[index := Some v]> results) l
  | _ :: l => join_scoped true results l
  end.

Definition run_scoped {T} (workers : Z) (jobs : list (JobFate T)) : result PhysicalWorkError (list T) :=
  if workers <? Z.of_nat (length jobs) then Err WorkerLimit
  else
    let '(failed, spawned) := spawn_scoped 0 false jobs in
    let '(failed, results) := join_scoped failed (replicate (length jobs) None) spawned in
    if failed then Err TaskStopped else ok_or TaskStopped (mapM id results).

(** ** Calls in any interleaving *)

Section machine.
Context {sem : Type} `{!Semaphore sem}.
Implicit Types (w : World sem) (o : Owner sem) (c : Call).

Definition with_owner o w : World sem :=
  {| owner := o; groups := groups w; calls := calls w; outcomes := outcomes w; clock := clock w |}.

Definition with_group (g : Z) (gr : Group) w : World sem :=
  {| owner := owner w; groups := <[g := gr]> (groups w); calls := calls w;
     outcomes := outcomes w; clock := clock w |}.

Definition put_call (id : Z) (oc : option Call) w : World sem :=
  {| owner := owner w; groups := groups w; calls := partial_alter (λ _, oc) id (calls w);
     outcomes := outcomes w; clock := clock w |}.

Definition put_outcome (id : Z) (r : option (result PhysicalWorkError unit)) w : World sem :=
  {| owner := owner w; groups := groups w; calls := calls w;
     outcomes := match r with Some r => <[id := r]> (outcomes w) | None => outcomes w end;
     clock := clock w |}.

Definition with_phase (phase : Phase) c : Call :=
  {| c_purpose := c_purpose c; c_request := c_request c; c_deadline := c_deadline c;
     c_phase := phase; c_seen := c_seen c; c_spawned := c_spawned c; c_awaited := c_awaited c;
     c_task_cancelled := c_task_cancelled c |}.

Definition with_seen (version : Z) c : Call :=
  {| c_purpose := c_purpose c; c_request := c_request c; c_deadline := c_deadline c;
     c_phase := c_phase c; c_seen := version; c_spawned := c_spawned c; c_awaited := c_awaited c;
     c_task_cancelled := c_task_cancelled c |}.

(** [spawn_blocking]: the closure owns the admission from here. *)
Definition spawn (admission : PhysicalWorkAdmission) c : Call :=
  {| c_purpose := c_purpose c; c_request := c_request c; c_deadline := c_deadline c;
     c_phase := Spawned admission; c_seen := c_seen c; c_spawned := true;
     c_awaited := c_awaited c; c_task_cancelled := c_task_cancelled c |}.

(** The future of the run goes away: [CancelOnDrop] is armed. *)
Definition stop_awaiting c : Call :=
  {| c_purpose := c_purpose c; c_request := c_request c; c_deadline := c_deadline c;
     c_phase := c_phase c; c_seen := c_seen c; c_spawned := c_spawned c;
     c_awaited := false; c_task_cancelled := true |}.

Definition new_call (purpose : Purpose) (request : PhysicalWorkRequest)
    (deadline : option Z) (phase : Phase) : Call :=
  {| c_purpose := purpose; c_request := request; c_deadline := deadline; c_phase := phase;
     c_seen := 0; c_spawned := false; c_awaited := true; c_task_cancelled := false |}.

Definition set_phase (id : Z) c (phase : Phase) w : Outcome (World sem) :=
  Stepped (put_call id (Some (with_phase phase c)) w).

(** Locals drop in reverse order; the fields of an admission in theirs. *)
Definition locals_permits (l : Locals) : list Permit :=
  option_permits (l_heavy l) ++ l_class_permits l ++ option_permits (l_scratch l).

Definition admission_permits (a : PhysicalWorkAdmission) : list Permit :=
  adm_class_permits a ++ option_permits (adm_scratch a) ++ option_permits (adm_heavy a) ++
  [adm_worker a].

Definition fail (id : Z) c (e : PhysicalWorkError) (l : Locals) w : Outcome (World sem) :=
  set_phase id c (Releasing (locals_permits l) None (Some (Err e))) w.

(** *** [admit] *)

Definition after_crash (request : PhysicalWorkRequest) : Gate :=
  if is_heavy (req_io request) then GHeavy else GWorkers.

Definition after_background (request : PhysicalWorkRequest) : Gate :=
  if is_crash (req_class request) then GCrash else after_crash request.

Definition after_scratch (request : PhysicalWorkRequest) : Gate :=
  if is_background (req_class request) then GBackground else after_background request.

(** Permits asked of a gate. *)
Definition units_needed (request : PhysicalWorkRequest) (g : Gate) : Z :=
  match g with
  | GScratch => div_ceil (req_scratch_bytes request) SCRATCH_UNIT_BYTES
  | GWorkers => req_parallelism request
  | _ => 1
  end.

Definition is_reserve (p : Purpose) : bool :=
  match p with Reserve => true | _ => false end.

(** The first poll, up to the first acquisition: [validate_parallelism] (not
    for a reservation) and the guards of [reserve_scratch_inner]. *)
Definition start (id : Z) c w : Outcome (World sem) :=
  let request := c_request c in
  let bytes := req_scratch_bytes request in
  match (if is_reserve (c_purpose c) then Ok tt
         else validate_parallelism (owner w) (req_parallelism request)) with
  | Err e => fail id c e no_locals w
  | Ok _ =>
      if scratch_limit_bytes (owner w) <? bytes then fail id c ScratchLimit no_locals w
      else if bytes =? 0 then
        set_phase id c (if is_reserve (c_purpose c) then Reserved None
                        else Waiting (after_scratch request) false no_locals) w
      else set_phase id c (Waiting GScratch false no_locals) w
  end.

Definition admission_done (id : Z) c (l : Locals) (worker : Permit) w : Outcome (World sem) :=
  let request := c_request c in
  let admission := {| adm_class := req_class request;
                      adm_class_permits := l_class_permits l;
                      adm_scratch := l_scratch l;
                      adm_heavy := l_heavy l;
                      adm_worker := worker;
                      adm_parallelism := req_parallelism request |} in
  let w' := with_owner (add_active 1 (req_class request) (owner w)) w in
  match c_purpose c with
  | GroupRun _ => Stepped (put_call id (Some (spawn admission c)) w')
  | _ => set_phase id c (Holding admission) w'
  end.

(** The acquisition at [g] gave [p]. *)
Definition granted (id : Z) c (g : Gate) (l : Locals) (p : Permit) w : Outcome (World sem) :=
  let request := c_request c in
  let class_permit := {| l_scratch := l_scratch l; l_class_permits := l_class_permits l ++ [p];
                         l_heavy := l_heavy l |} in
  match g with
  | GScratch =>
      if is_reserve (c_purpose c) then set_phase id c (Reserved (Some p)) w
      else set_phase id c (Waiting (after_scratch request) false
             {| l_scratch := Some p; l_class_permits := l_class_permits l; l_heavy := l_heavy l |}) w
  | GBackground => set_phase id c (Waiting (after_background request) false class_permit) w
  | GCrash => set_phase id c (Waiting (after_crash request) false class_permit) w
  | GHeavy => set_phase id c (Waiting GWorkers false
      {| l_scratch := l_scratch l; l_class_permits := l_class_permits l; l_heavy := Some p |}) w
  | GWorkers => admission_done id c l p w
  end.

Definition poll_gate (id : Z) c (g : Gate) (queued : bool) (l : Locals) w : Outcome (World sem) :=
  let n := units_needed (c_request c) g in
  if queued then
    match acquire_poll id (gate_sem g (owner w)) with
    | None => Blocked
    | Some (Err _) => fail id c Closed l w
    | Some (Ok s) =>
        granted id c g l {| permit_gate := g; permit_units := n |}
          (with_owner (with_gate g s (owner w)) w)
    end
  else if u32_max <? n then
    fail id c (if decide (g = GScratch) then ScratchLimit else WorkerLimit) l w
  else
    set_phase id c (Waiting g true l)
      (with_owner (with_gate g (acquire_enqueue id n (gate_sem g (owner w))) (owner w)) w).

(** *** [register] *)

Definition enter (id : Z) c (g : Z) w : Outcome (World sem) :=
  match groups w !! g with
  | None => Blocked
  | Some gr =>
      match checked_add_u64 (g_active_count gr) 1 with
      | None => Aborted
      | Some n =>
          set_phase id c Registered
            (with_group g {| g_cancelled := g_cancelled gr; g_version := g_version gr;
                             g_active_count := n |} w)
      end
  end.

Definition recheck (id : Z) c (g : Z) w : Outcome (World sem) :=
  match groups w !! g with
  | None => Blocked
  | Some gr => set_phase id c (if g_cancelled gr then Leaving (Some (Err Cancelled)) else Subscribing) w
  end.

Definition subscribe (id : Z) c (g : Z) w : Outcome (World sem) :=
  match groups w !! g with
  | None => Blocked
  | Some gr => set_phase id (with_seen (g_version gr) c) Starting w
  end.

(** *** The blocking closure *)

Definition group_cancelled c w : bool :=
  match c_purpose c with
  | GroupRun g => match groups w !! g with Some gr => g_cancelled gr | None => false end
  | _ => false
  end.

Definition is_cancelled c w : bool :=
  c_task_cancelled c || group_cancelled c w ||
  match c_deadline c with Some deadline => deadline <=? clock w | None => false end.

Definition running_of (a : PhysicalWorkAdmission) : RunningWorker :=
  {| rw_class := adm_class a; rw_count := adm_parallelism a |}.

Definition begin_running (id : Z) c (a : PhysicalWorkAdmission) w : Outcome (World sem) :=
  set_phase id c (Checking a)
    (with_owner (add_running (adm_parallelism a) (adm_class a) (owner w)) w).

Definition check_cancelled (id : Z) c (a : PhysicalWorkAdmission) w : Outcome (World sem) :=
  set_phase id c
    (if is_cancelled c w then Dropping a (Some (running_of a)) (Some (Err Cancelled)) else Working a) w.

(** The work returned or panicked; a panic of inline work reaches the caller. *)
Definition work_end (id : Z) (is_panic : bool) w : Outcome (World sem) :=
  match calls w !! id with
  | Some c =>
      match c_phase c with
      | Working a =>
          let r := match c_purpose c, is_panic with
                   | Inline, true => None
                   | _, true => Some (Err TaskStopped)
                   | _, false => Some (Ok tt)
                   end in
          set_phase id c (Dropping a (Some (running_of a)) r) w
      | _ => Blocked
      end
  | None => Blocked
  end.

(** *** Dropping *)

(** [PhysicalWorkAdmission::drop]; its fields follow. *)
Definition drop_admission (id : Z) c (a : PhysicalWorkAdmission) worker r w : Outcome (World sem) :=
  set_phase id c (Releasing (admission_permits a) worker r)
    (with_owner (add_active (-1) (adm_class a) (owner w)) w).

Definition release (id : Z) c (ps : list Permit) (worker : option RunningWorker) r w :
    Outcome (World sem) :=
  match ps, worker with
  | p :: ps, _ => set_phase id c (Releasing ps worker r) (with_owner (drop_permit p (owner w)) w)
  | [], Some rw =>
      set_phase id c (Releasing [] None r)
        (with_owner (add_running (- rw_count rw) (rw_class rw) (owner w)) w)
  | [], None => set_phase id c (Leaving r) w
  end.

(** The group's registration goes last; the outcome reaches whoever waits. *)
Definition leave (id : Z) c (r : option (result PhysicalWorkError unit)) w : Outcome (World sem) :=
  let w' := put_outcome id (if c_awaited c then r else None) (put_call id None w) in
  match c_purpose c with
  | GroupRun g =>
      match groups w !! g with
      | None => Blocked
      | Some gr =>
          if g_active_count gr =? 0 then Aborted
          else Stepped (with_group g {| g_cancelled := g_cancelled gr; g_version := g_version gr;
                                        g_active_count := g_active_count gr - 1 |} w')
      end
  | _ => Stepped w'
  end.

(** What a call does next of its own. *)
Definition advance (id : Z) w : Outcome (World sem) :=
  match calls w !! id with
  | None => Blocked
  | Some c =>
      match c_phase c, c_purpose c with
      | Entering, GroupRun g => enter id c g w
      | Registered, GroupRun g => recheck id c g w
      | Subscribing, GroupRun g => subscribe id c g w
      | Starting, _ => start id c w
      | Waiting g queued l, _ => poll_gate id c g queued l w
      | Spawned a, _ => begin_running id c a w
      | Checking a, _ => check_cancelled id c a w
      | Dropping a worker r, _ => drop_admission id c a worker r w
      | Releasing ps worker r, _ => release id c ps worker r w
      | Leaving r, _ => leave id c r w
      | _, _ => Blocked
      end
  end.

(** *** Entry points *)

Definition fresh (id : Z) w : bool :=
  bool_decide (calls w !! id = None) && bool_decide (outcomes w !! id = None).

Definition new_group (g : Z) w : Outcome (World sem) :=
  match groups w !! g with
  | Some _ => Blocked
  | None => Stepped (with_group g {| g_cancelled := false; g_version := 0; g_active_count := 0 |} w)
  end.

(** [PhysicalWorkGroup::run] and [run_until], up to the first check of
    [register]. *)
Definition run_in_group (id g : Z) (request : PhysicalWorkRequest) (deadline : option Z) w :
    Outcome (World sem) :=
  if negb (fresh id w) then Blocked
  else
    match groups w !! g with
    | None => Blocked
    | Some gr =>
        if g_cancelled gr then Stepped (put_outcome id (Some (Err Cancelled)) w)
        else Stepped (put_call id
               (Some (new_call (GroupRun g) request ((λ d, clock w + d) <$> deadline) Entering)) w)
    end.

Definition admit_call (id : Z) (request : PhysicalWorkRequest) w : Outcome (World sem) :=
  if negb (fresh id w) then Blocked
  else Stepped (put_call id (Some (new_call Admit request None Starting)) w).

Definition reserve_scratch (id bytes : Z) w : Outcome (World sem) :=
  if negb (fresh id w) then Blocked
  else Stepped (put_call id (Some (new_call Reserve (foreground Metadata bytes) None Starting)) w).

Definition try_reserve (id bytes : Z) w : Outcome (World sem) :=
  if negb (fresh id w) then Blocked
  else
    match try_reserve_scratch bytes (owner w) with
    | (Ok p, o) =>
        Stepped (put_call id
          (Some (new_call Reserve (foreground Metadata bytes) None (Reserved p))) (with_owner o w))
    | (Err e, o) => Stepped (put_outcome id (Some (Err e)) (with_owner o w))
    end.

Definition try_run_inline (id : Z) (request : PhysicalWorkRequest) w : Outcome (World sem) :=
  if negb (fresh id w) then Blocked
  else
    match try_admit request (owner w) with
    | (Ok a, o) =>
        Stepped (put_call id (Some (new_call Inline request None (Spawned a))) (with_owner o w))
    | (Err e, o) => Stepped (put_outcome id (Some (Err e)) (with_owner o w))
    end.

(** [PhysicalWorkAdmission::run_parallel]. *)
Definition run_admission (id : Z) w : Outcome (World sem) :=
  match calls w !! id with
  | Some c => match c_phase c with
              | Holding a => Stepped (put_call id (Some (spawn a c)) w)
              | _ => Blocked
              end
  | None => Blocked
  end.

(** The caller drops an admission it did not run, or a reservation. *)
Definition drop_held (id : Z) w : Outcome (World sem) :=
  match calls w !! id with
  | Some c => match c_phase c with
              | Holding a => set_phase id c (Dropping a None None) w
              | Reserved p => set_phase id c (Releasing (option_permits p) None None) w
              | _ => Blocked
              end
  | None => Blocked
  end.

(** *** Cancellation, deadlines and dropped futures *)

(** [cancel] stores the flag, then sends to the subscribers. *)
Definition cancel_store (g : Z) w : Outcome (World sem) :=
  match groups w !! g with
  | Some gr => Stepped (with_group g {| g_cancelled := true; g_version := g_version gr;
                                        g_active_count := g_active_count gr |} w)
  | None => Blocked
  end.

Definition cancel_send (g : Z) w : Outcome (World sem) :=
  match groups w !! g with
  | Some gr =>
      if g_cancelled gr then
        Stepped (with_group g {| g_cancelled := true; g_version := g_version gr + 1;
                                 g_active_count := g_active_count gr |} w)
      else Blocked
  | None => Blocked
  end.

(** The admission's future is dropped at one of its await points. *)
Definition drop_admit (id : Z) c (r : option (result PhysicalWorkError unit)) w :
    Outcome (World sem) :=
  match c_phase c with
  | Starting => set_phase id c (Releasing [] None r) w
  | Waiting g true l =>
      set_phase id c (Releasing (locals_permits l) None r)
        (with_owner (with_gate g (acquire_forget id (gate_sem g (owner w))) (owner w)) w)
  | _ => Blocked
  end.

(** The arm [cancelled.changed()] of the [select!] in [run_inner]. *)
Definition select_cancelled (id : Z) w : Outcome (World sem) :=
  match calls w !! id with
  | Some c =>
      match c_purpose c with
      | GroupRun g =>
          match groups w !! g with
          | Some gr => if g_version gr =? c_seen c then Blocked
                       else drop_admit id c (Some (Err Cancelled)) w
          | None => Blocked
          end
      | _ => Blocked
      end
  | None => Blocked
  end.

(** The deadline, in the [select!] or at [timeout_at]. *)
Definition deadline_passed (id : Z) w : Outcome (World sem) :=
  match calls w !! id with
  | Some c =>
      if negb match c_deadline c with Some d => d <=? clock w | None => false end then Blocked
      else if negb (c_spawned c) then drop_admit id c (Some (Err Deadline)) w
      else if c_awaited c then
        Stepped (put_outcome id (Some (Err Deadline)) (put_call id (Some (stop_awaiting c)) w))
      else Blocked
  | None => Blocked
  end.

(** The caller drops the future of a run, an admission or a reservation. *)
Definition abandon (id : Z) w : Outcome (World sem) :=
  match calls w !! id with
  | Some c =>
      if negb (c_spawned c) then drop_admit id c None w
      else if c_awaited c then Stepped (put_call id (Some (stop_awaiting c)) w)
      else Blocked
  | None => Blocked
  end.

Definition tick (dt : Z) w : Outcome (World sem) :=
  if dt <? 0 then Blocked
  else Stepped {| owner := owner w; groups := groups w; calls := calls w;
                  outcomes := outcomes w; clock := clock w + dt |}.

(** [PhysicalWorkGroup::drain] returns when the count it reads is zero. *)
Definition drained (g : Z) w : bool :=
  match groups w !! g with Some gr => g_active_count gr =? 0 | None => false end.

(** *** Steps *)

Inductive Op :=
| OpGroup (g : Z)
| OpRun (id g : Z) (request : PhysicalWorkRequest) (deadline : option Z)
| OpAdmit (id : Z) (request : PhysicalWorkRequest)
| OpReserve (id bytes : Z)
| OpTryReserve (id bytes : Z)
| OpTryInline (id : Z) (request : PhysicalWorkRequest)
| OpCancelStore (g : Z)
| OpCancelSend (g : Z)
| OpSelectCancelled (id : Z)
| OpDeadline (id : Z)
| OpAbandon (id : Z)
| OpTick (dt : Z)
| OpRunAdmission (id : Z)
| OpDropHeld (id : Z)
| OpWorkEnd (id : Z) (is_panic : bool)
| OpAdvance (id : Z).

Definition exec (op : Op) w : Outcome (World sem) :=
  match op with
  | OpGroup g => new_group g w
  | OpRun id g request deadline => run_in_group id g request deadline w
  | OpAdmit id request => admit_call id request w
  | OpReserve id bytes => reserve_scratch id bytes w
  | OpTryReserve id bytes => try_reserve id bytes w
  | OpTryInline id request => try_run_inline id request w
  | OpCancelStore g => cancel_store g w
  | OpCancelSend g => cancel_send g w
  | OpSelectCancelled id => select_cancelled id w
  | OpDeadline id => deadline_passed id w
  | OpAbandon id => abandon id w
  | OpTick dt => tick dt w
  | OpRunAdmission id => run_admission id w
  | OpDropHeld id => drop_held id w
  | OpWorkEnd id is_panic => work_end id is_panic w
  | OpAdvance id => advance id w
  end.

Fixpoint run (ops : list Op) w : Outcome (World sem) :=
  match ops with
  | [] => Stepped w
  | op :: ops =>
      match exec op w with
      | Stepped w' => run ops w'
      | Blocked => Blocked
      | Aborted => Aborted
      end
  end.

(** The arguments have their machine types. *)
Definition request_typed (request : PhysicalWorkRequest) : Prop :=
  0 ≤ req_scratch_bytes request ≤ u64_max ∧ 0 ≤ req_parallelism request ≤ u64_max.

Definition op_typed (op : Op) : Prop :=
  match op with
  | OpRun _ _ request _ | OpAdmit _ request | OpTryInline _ request => request_typed request
  | OpReserve _ bytes | OpTryReserve _ bytes => 0 ≤ bytes ≤ u64_max
  | _ => True
  end.

Definition initial (limits : PhysicalWorkLimits) : World sem :=
  {| owner := owner_new limits; groups := ∅; calls := ∅; outcomes := ∅; clock := 0 |}.

Inductive reachable (limits : PhysicalWorkLimits) : World sem → Prop :=
| reachable_initial : reachable limits (initial limits)
| reachable_exec op w w' :
    reachable limits w → op_typed op → exec op w = Stepped w' → reachable limits w'.
End machine.
