(* ===== verification/PhysicalWorkInv.v ===== *)
(** * What the admission of physical work guarantees

    The invariant of [PhysicalWork]: the permits of every gate are those free
    and those the calls hold, each queue has exactly the calls that wait in
    it, and the counters count what they say.  From it: the limits of the
    process are never exceeded, the fixed order of the gates rules out
    deadlock, a cancelled group that has drained stays so. *)

From S2P Require Import Prelude PhysSemaphore PhysicalWork.

(** ** Sums over the calls *)

Definition total (f : Call → Z) (m : gmap Z Call) : Z := map_fold (λ _ c acc, f c + acc) 0 m.

Definition oget (f : Call → Z) (oc : option Call) : Z :=
  match oc with Some c => f c | None => 0 end.

Lemma total_empty f : total f ∅ = 0.
Proof. apply map_fold_empty. Qed.

Lemma total_delete f id m : total f m = oget f (m !! id) + total f (delete id m).
Proof.
  destruct (m !! id) as [c|] eqn:E; simpl.
  - unfold total. rewrite (map_fold_delete_L _ _ id c m); [done| |done]. intros. lia.
  - by rewrite delete_id.
Qed.

Lemma total_put f id oc m :
  total f (partial_alter (λ _, oc) id m) = total f m - oget f (m !! id) + oget f oc.
Proof.
  rewrite (total_delete f id m), (total_delete f id (partial_alter _ _ _)).
  rewrite lookup_partial_alter_eq, delete_partial_alter_eq. lia.
Qed.

Lemma total_insert f id c m : m !! id = None → total f (<[id := c]> m) = f c + total f m.
Proof. intros Hid. unfold total. rewrite map_fold_insert_L; [done| |done]. intros. lia. Qed.

Lemma total_ind (P : Z → Prop) (f : Call → Z) m :
  P 0 → (∀ a b id c, m !! id = Some c → P b → a = f c → P (a + b)) → P (total f m).
Proof.
  intros H0 Hstep. unfold total. revert Hstep.
  apply (map_fold_weak_ind (λ r m', (∀ a b id c, m' !! id = Some c → P b → a = f c → P (a + b)) → P r));
    [done|].
  intros id c m' r Hid IH Hstep. apply (Hstep _ _ id c); [by rewrite lookup_insert_eq| |done].
  apply IH. intros a b id' c' Hl. apply Hstep with id'. rewrite lookup_insert_ne; [done|].
  intros ->. congruence.
Qed.

Lemma total_nonneg f m : (∀ id c, m !! id = Some c → 0 ≤ f c) → 0 ≤ total f m.
Proof. intros H. apply total_ind; [lia|]. intros a b id c Hc Hb ->. specialize (H id c Hc). lia. Qed.

Lemma total_zero f m : (∀ id c, m !! id = Some c → f c = 0) → total f m = 0.
Proof. intros H. apply (total_ind (λ r, r = 0)); [done|]. intros a b id c Hc -> ->. by rewrite (H id c Hc). Qed.

Lemma total_ge f id c m :
  (∀ id c, m !! id = Some c → 0 ≤ f c) → m !! id = Some c → f c ≤ total f m.
Proof.
  intros H Hc. rewrite (total_delete f id), Hc. simpl.
  assert (0 ≤ total f (delete id m)); [|lia]. apply total_nonneg. intros id' c' Hl.
  apply (H id'). by apply lookup_delete_Some in Hl as [_ ?].
Qed.

Lemma total_le f g m : (∀ id c, m !! id = Some c → f c ≤ g c) → total f m ≤ total g m.
Proof.
  intros H. assert (total f m = total g m + - total (λ c, g c - f c) m) as ->.
  { clear H. induction m as [|i c m Hi IH] using map_ind; [by rewrite !total_empty|].
    rewrite !total_insert by done. cbv beta. lia. }
  assert (0 ≤ total (λ c, g c - f c) m); [|lia].
  apply total_nonneg. intros id c Hc. specialize (H id c Hc). lia.
Qed.

(** ** What a call holds *)

Definition permits_at (g : Gate) (ps : list Permit) : Z :=
  sum_Z (permit_units <$> List.filter (λ p, bool_decide (permit_gate p = g)) ps).

Lemma permits_at_cons g p ps :
  permits_at g (p :: ps) = (if decide (permit_gate p = g) then permit_units p else 0) + permits_at g ps.
Proof. unfold permits_at. simpl. rewrite bool_decide_decide. by destruct (decide _). Qed.

Lemma permits_at_app g ps ps' : permits_at g (ps ++ ps') = permits_at g ps + permits_at g ps'.
Proof. unfold permits_at. by rewrite List.filter_app, fmap_app, sum_Z_app. Qed.

Definition call_permits (c : Call) : list Permit :=
  match c_phase c with
  | Waiting _ _ l => locals_permits l
  | Holding a | Spawned a | Checking a | Working a | Dropping a _ _ => admission_permits a
  | Reserved p => option_permits p
  | Releasing ps _ _ => ps
  | _ => []
  end.

(** The units of a gate a call holds. *)
Definition held (g : Gate) (c : Call) : Z := permits_at g (call_permits c).

Definition admission_in (c : Call) : option PhysicalWorkAdmission :=
  match c_phase c with
  | Holding a | Spawned a | Checking a | Working a | Dropping a _ _ => Some a
  | _ => None
  end.

(** Whether a call has an admission of the class. *)
Definition active_in (class : PhysicalWorkClass) (c : Call) : Z :=
  match admission_in c with
  | Some a => if decide (adm_class a = class) then 1 else 0
  | None => 0
  end.

Definition worker_in (c : Call) : option RunningWorker :=
  match c_phase c with
  | Checking a | Working a => Some (running_of a)
  | Dropping _ worker _ | Releasing _ worker _ => worker
  | _ => None
  end.

(** The workers of the class a call counts as running. *)
Definition running_in (class : PhysicalWorkClass) (c : Call) : Z :=
  match worker_in c with
  | Some rw => if decide (rw_class rw = class) then rw_count rw else 0
  | None => 0
  end.

(** Whether a call is registered with the group. *)
Definition member (g : Z) (c : Call) : Z :=
  match c_purpose c, c_phase c with
  | GroupRun g', Entering => 0
  | GroupRun g', _ => if decide (g' = g) then 1 else 0
  | _, _ => 0
  end.

Definition queued_at (c : Call) : option (Gate * Z) :=
  match c_phase c with
  | Waiting g true _ => Some (g, units_needed (c_request c) g)
  | _ => None
  end.

(** ** What a call's place says *)

Definition gate_limit (L : PhysicalWorkLimits) (g : Gate) : Z :=
  match g with
  | GScratch => div_ceil (limit_scratch_bytes L) SCRATCH_UNIT_BYTES
  | GBackground => limit_background L
  | GCrash => limit_crash L
  | GHeavy => limit_heavy L
  | GWorkers => limit_workers L
  end.

Definition limits_ok (L : PhysicalWorkLimits) : Prop :=
  1 ≤ limit_workers L ∧ 1 ≤ limit_background L ∧ 1 ≤ limit_crash L ∧ 1 ≤ limit_heavy L ∧
  0 ≤ limit_scratch_bytes L.

(** Whether an admission passes the gate. *)
Definition needs (request : PhysicalWorkRequest) (g : Gate) : bool :=
  match g with
  | GScratch => negb (req_scratch_bytes request =? 0)
  | GBackground => is_background (req_class request)
  | GCrash => is_crash (req_class request)
  | GHeavy => is_heavy (req_io request)
  | GWorkers => true
  end.

Definition gate_rank (g : Gate) : Z :=
  match g with GScratch => 0 | GBackground => 1 | GCrash => 2 | GHeavy => 3 | GWorkers => 4 end.

Definition permit_for (request : PhysicalWorkRequest) (g : Gate) : option Permit :=
  if needs request g then Some {| permit_gate := g; permit_units := units_needed request g |} else None.

(** The permits taken before the gate. *)
Definition permit_before (request : PhysicalWorkRequest) (gate g : Gate) : option Permit :=
  if gate_rank g <? gate_rank gate then permit_for request g else None.

Definition locals_before (request : PhysicalWorkRequest) (gate : Gate) : Locals := {|
  l_scratch := permit_before request gate GScratch;
  l_class_permits := option_permits (permit_before request gate GBackground) ++
                     option_permits (permit_before request gate GCrash);
  l_heavy := permit_before request gate GHeavy |}.

Definition admission_for (request : PhysicalWorkRequest) : PhysicalWorkAdmission := {|
  adm_class := req_class request;
  adm_class_permits := option_permits (permit_for request GBackground) ++
                       option_permits (permit_for request GCrash);
  adm_scratch := permit_for request GScratch;
  adm_heavy := permit_for request GHeavy;
  adm_worker := {| permit_gate := GWorkers; permit_units := req_parallelism request |};
  adm_parallelism := req_parallelism request |}.

Definition scratch_ok (L : PhysicalWorkLimits) (request : PhysicalWorkRequest) : Prop :=
  0 ≤ req_scratch_bytes request ≤ limit_scratch_bytes L.

Definition parallelism_ok (L : PhysicalWorkLimits) (request : PhysicalWorkRequest) : Prop :=
  1 ≤ req_parallelism request ≤ limit_workers L.

Definition admission_ok (L : PhysicalWorkLimits) (c : Call) (a : PhysicalWorkAdmission) : Prop :=
  a = admission_for (c_request c) ∧ is_reserve (c_purpose c) = false ∧
  scratch_ok L (c_request c) ∧ parallelism_ok L (c_request c).

Definition phase_ok (L : PhysicalWorkLimits) (c : Call) : Prop :=
  match c_phase c with
  | Entering | Registered | Subscribing => ∃ g, c_purpose c = GroupRun g
  | Starting => True
  | Waiting g _ l =>
      l = locals_before (c_request c) g ∧ needs (c_request c) g = true ∧ scratch_ok L (c_request c) ∧
      if is_reserve (c_purpose c) then g = GScratch else parallelism_ok L (c_request c)
  | Holding a | Spawned a | Checking a | Working a => admission_ok L c a
  | Reserved p => p = permit_for (c_request c) GScratch ∧ scratch_ok L (c_request c)
  | Dropping a worker _ => admission_ok L c a ∧ (worker = None ∨ worker = Some (running_of a))
  | Releasing ps _ _ => Forall (λ p, 0 < permit_units p) ps
  | Leaving _ => True
  end.

Definition call_ok (L : PhysicalWorkLimits) (groups : gmap Z Group) (c : Call) : Prop :=
  request_typed (c_request c) ∧
  (match c_purpose c with GroupRun g => is_Some (groups !! g) | _ => True end) ∧
  phase_ok L c.

(** ** The invariant *)

Definition count_mod (l : list Z) (class : PhysicalWorkClass) (n : Z) : Prop :=
  l !! class_index class = Some (n `mod` (u64_max + 1)).

Record Inv {sem} `{!Semaphore sem} (L : PhysicalWorkLimits) (w : World sem) : Prop := {
  inv_free g : free (gate_sem g (owner w)) + total (held g) (calls w) = gate_limit L g;
  inv_free_nonneg g : 0 ≤ free (gate_sem g (owner w));
  inv_queue g : NoDup (waiting (gate_sem g (owner w))).*1 ∧
    ∀ id n, (id, n) ∈ waiting (gate_sem g (owner w)) ↔ (calls w !! id) ≫= queued_at = Some (g, n);
  inv_active class : count_mod (active (owner w)) class (total (active_in class) (calls w));
  inv_running class : count_mod (running (owner w)) class (total (running_in class) (calls w));
  inv_members g gr : groups w !! g = Some gr →
    g_active_count gr = total (member g) (calls w);
  inv_calls id c : calls w !! id = Some c → call_ok L (groups w) c;
  inv_limits : worker_limit (owner w) = limit_workers L ∧
               scratch_limit_bytes (owner w) = limit_scratch_bytes L;
}.

Section steps.
Context {sem : Type} `{!Semaphore sem, !SemaphoreLaws sem} (L : PhysicalWorkLimits).
Implicit Types (w : World sem) (o : Owner sem) (c : Call).

(** *** The owner's parts *)

Lemma gate_sem_with_gate g g' s o :
  gate_sem g (with_gate g' s o) = if decide (g = g') then s else gate_sem g o.
Proof. by destruct g, g'. Qed.

Lemma gate_sem_add_active g n class o : gate_sem g (add_active n class o) = gate_sem g o.
Proof. by destruct g. Qed.

Lemma gate_sem_add_running g n class o : gate_sem g (add_running n class o) = gate_sem g o.
Proof. by destruct g. Qed.

Lemma count_mod_add l class class' m n :
  count_mod l class m → count_mod (fetch_add n class' l) class (m + if decide (class' = class) then n else 0).
Proof.
  unfold count_mod, fetch_add. intros H. destruct (decide (class' = class)) as [->|Hne].
  - rewrite list_lookup_alter_eq, H. simpl. by rewrite Zplus_mod_idemp_l.
  - rewrite list_lookup_alter_ne; [by rewrite H, Z.add_0_r|]. by destruct class, class'.
Qed.

(** The queue of a gate after a step of the call [id]. *)
Definition queue_put (g : Gate) (id : Z) (oc' : option Call) (q q' : list (Z * Z)) : Prop :=
  NoDup q'.*1 ∧ (∀ n, (id, n) ∈ q' ↔ oc' ≫= queued_at = Some (g, n)) ∧
  ∀ id' n, id' ≠ id → (id', n) ∈ q' ↔ (id', n) ∈ q.

(** A step of one call, told by what it adds to each sum. *)
Lemma inv_put w w' id oc' :
  Inv L w →
  calls w' = partial_alter (λ _, oc') id (calls w) →
  (∀ g, free (gate_sem g (owner w')) + oget (held g) oc' =
        free (gate_sem g (owner w)) + oget (held g) (calls w !! id)) →
  (∀ g, 0 ≤ free (gate_sem g (owner w'))) →
  (∀ g, queue_put g id oc' (waiting (gate_sem g (owner w))) (waiting (gate_sem g (owner w')))) →
  (∀ class, count_mod (active (owner w')) class
     (total (active_in class) (calls w) - oget (active_in class) (calls w !! id) + oget (active_in class) oc')) →
  (∀ class, count_mod (running (owner w')) class
     (total (running_in class) (calls w) - oget (running_in class) (calls w !! id) + oget (running_in class) oc')) →
  (∀ g gr, groups w' !! g = Some gr →
     g_active_count gr = total (member g) (calls w) - oget (member g) (calls w !! id) + oget (member g) oc') →
  (∀ g, is_Some (groups w !! g) → is_Some (groups w' !! g)) →
  worker_limit (owner w') = worker_limit (owner w) →
  scratch_limit_bytes (owner w') = scratch_limit_bytes (owner w) →
  (∀ c', oc' = Some c' → call_ok L (groups w') c') →
  Inv L w'.
Proof.
  intros [] Hcalls Hfree Hnonneg Hq Ha Hr Hm Hg Hwl Hsl Hok. split.
  - intros g. rewrite Hcalls, total_put. specialize (Hfree g). specialize (inv_free0 g). lia.
  - done.
  - intros g. destruct (Hq g) as (Hnd & Hid & Hother). split; [done|]. intros id' n. rewrite Hcalls.
    destruct (decide (id' = id)) as [->|Hne].
    + rewrite lookup_partial_alter_eq. apply Hid.
    + rewrite lookup_partial_alter_ne by done. rewrite Hother by done. apply inv_queue0.
  - intros class. rewrite Hcalls, total_put. apply Ha.
  - intros class. rewrite Hcalls, total_put. apply Hr.
  - intros g gr Hgr. rewrite Hcalls, total_put. by apply Hm.
  - intros id' c'. rewrite Hcalls, lookup_partial_alter. case_decide as Hd.
    + intros ->. by apply Hok.
    + intros Hc'. destruct (inv_calls0 id' c' Hc') as (Ht & Hp & Hph). split; [done|]. split; [|done].
      destruct (c_purpose c'); try done. by apply Hg.
  - by rewrite Hwl, Hsl.
Qed.

Lemma queue_put_same w g id oc' :
  Inv L w → oc' ≫= queued_at = (calls w !! id) ≫= queued_at →
  queue_put g id oc' (waiting (gate_sem g (owner w))) (waiting (gate_sem g (owner w))).
Proof.
  intros [] Hq. destruct (inv_queue0 g) as [Hnd Hin]. split; [done|]. split; [|done].
  intros n. rewrite Hq. apply Hin.
Qed.

(** A step that moves one call and touches neither owner nor groups. *)
Lemma inv_move w w' id oc' :
  Inv L w →
  calls w' = partial_alter (λ _, oc') id (calls w) → owner w' = owner w → groups w' = groups w →
  (∀ g, oget (held g) oc' = oget (held g) (calls w !! id)) →
  oc' ≫= queued_at = (calls w !! id) ≫= queued_at →
  (∀ class, oget (active_in class) oc' = oget (active_in class) (calls w !! id)) →
  (∀ class, oget (running_in class) oc' = oget (running_in class) (calls w !! id)) →
  (∀ g, oget (member g) oc' = oget (member g) (calls w !! id)) →
  (∀ c', oc' = Some c' → call_ok L (groups w) c') →
  Inv L w'.
Proof.
  intros Hi Hc Ho Hg Hh Hq Ha Hr Hm Hok.
  apply (inv_put w w' id oc' Hi Hc); rewrite ?Ho, ?Hg; try done.
  - intros g. by rewrite Hh.
  - apply (inv_free_nonneg L w Hi).
  - intros g. by apply queue_put_same.
  - intros class. rewrite Ha. replace (_ - _ + _) with (total (active_in class) (calls w)) by lia.
    apply (inv_active L w Hi).
  - intros class. rewrite Hr. replace (_ - _ + _) with (total (running_in class) (calls w)) by lia.
    apply (inv_running L w Hi).
  - intros g gr Hgr. rewrite Hm. rewrite (inv_members L w Hi g gr Hgr). lia.
Qed.

Lemma active_same w oc id :
  Inv L w → (∀ class, oget (active_in class) oc = oget (active_in class) (calls w !! id)) →
  ∀ class, count_mod (active (owner w)) class
    (total (active_in class) (calls w) - oget (active_in class) (calls w !! id) + oget (active_in class) oc).
Proof.
  intros Hi Ha class. rewrite Ha. replace (_ - _ + _) with (total (active_in class) (calls w)) by lia.
  apply (inv_active L w Hi).
Qed.

Lemma running_same w oc id :
  Inv L w → (∀ class, oget (running_in class) oc = oget (running_in class) (calls w !! id)) →
  ∀ class, count_mod (running (owner w)) class
    (total (running_in class) (calls w) - oget (running_in class) (calls w !! id) + oget (running_in class) oc).
Proof.
  intros Hi Ha class. rewrite Ha. replace (_ - _ + _) with (total (running_in class) (calls w)) by lia.
  apply (inv_running L w Hi).
Qed.

(** A step that changes the semaphore of one gate with the call. *)
Lemma inv_gate w w' id oc' g s o' :
  Inv L w → calls w' = partial_alter (λ _, oc') id (calls w) → groups w' = groups w →
  owner w' = o' →
  (∀ g', gate_sem g' o' = if decide (g' = g) then s else gate_sem g' (owner w)) →
  running o' = running (owner w) →
  worker_limit o' = worker_limit (owner w) ∧ scratch_limit_bytes o' = scratch_limit_bytes (owner w) →
  free s + oget (held g) oc' = free (gate_sem g (owner w)) + oget (held g) (calls w !! id) →
  0 ≤ free s →
  (∀ g', g' ≠ g → oget (held g') oc' = oget (held g') (calls w !! id)) →
  queue_put g id oc' (waiting (gate_sem g (owner w))) (waiting s) →
  (∀ g' n, g' ≠ g → oc' ≫= queued_at = Some (g', n) ↔ (calls w !! id) ≫= queued_at = Some (g', n)) →
  (∀ class, count_mod (active o') class
     (total (active_in class) (calls w) - oget (active_in class) (calls w !! id) + oget (active_in class) oc')) →
  (∀ class, oget (running_in class) oc' = oget (running_in class) (calls w !! id)) →
  (∀ g, oget (member g) oc' = oget (member g) (calls w !! id)) →
  (∀ c', oc' = Some c' → call_ok L (groups w) c') →
  Inv L w'.
Proof.
  intros Hi Hc Hg Ho Hs Hru [Hwl Hsl] Hf Hn Hh Hq Hqo Ha Hr Hm Hok.
  apply (inv_put w w' id oc' Hi Hc); rewrite ?Ho, ?Hg, ?Hru; try done.
  - intros g'. rewrite Hs. case_decide as Hd; [by subst|]. by rewrite Hh.
  - intros g'. rewrite Hs. case_decide; [done|]. apply (inv_free_nonneg L w Hi).
  - intros g'. rewrite Hs. case_decide as Hd; [by subst|].
    destruct (inv_queue L w Hi g') as [Hnd Hin]. split; [done|]. split; [|done].
    intros n. rewrite Hqo by done. apply Hin.
  - by apply running_same.
  - intros g' gr Hgr. rewrite Hm. rewrite (inv_members L w Hi g' gr Hgr). lia.
Qed.

(** *** Queues *)

Lemma not_queued w id g :
  Inv L w → (calls w !! id) ≫= queued_at = None → id ∉ (waiting (gate_sem g (owner w))).*1.
Proof.
  intros Hi Hq ((? & n) & -> & Hin)%list_elem_of_fmap. apply (inv_queue L w Hi g) in Hin.
  simpl in *. congruence.
Qed.

Lemma queue_put_enqueue w id g n oc' q' :
  Inv L w → (calls w !! id) ≫= queued_at = None → oc' ≫= queued_at = Some (g, n) →
  q' = waiting (gate_sem g (owner w)) ++ [(id, n)] →
  queue_put g id oc' (waiting (gate_sem g (owner w))) q'.
Proof.
  intros Hi Hq Hq' ->. pose proof (not_queued w id g Hi Hq) as Hnot. split; [|split].
  - rewrite fmap_app. apply list.NoDup_app. split_and!; [apply (inv_queue L w Hi)| |apply list.NoDup_singleton].
    intros x Hx ->%list_elem_of_singleton. done.
  - intros m. rewrite Hq', elem_of_app, list_elem_of_singleton. split.
    + intros [Hin|Heq]; [|by simplify_eq]. destruct Hnot. by apply (list_elem_of_fmap_2 fst _ (id, m)).
    + intros [= <-]. by right.
  - intros id' m Hne. rewrite elem_of_app, list_elem_of_singleton. naive_solver.
Qed.

Lemma queue_put_grant w id g n oc' l l' :
  Inv L w → waiting (gate_sem g (owner w)) = l ++ (id, n) :: l' → oc' ≫= queued_at = None →
  queue_put g id oc' (waiting (gate_sem g (owner w))) (l ++ l').
Proof.
  intros Hi Hw Hq'. pose proof (proj1 (inv_queue L w Hi g)) as Hnd. rewrite Hw in *.
  rewrite fmap_app in Hnd. simpl in Hnd. apply list.NoDup_app in Hnd as (Hl & Hd & Hl').
  apply list.NoDup_cons in Hl' as [Hid Hl']. split; [|split].
  - rewrite fmap_app. apply list.NoDup_app. split_and!; [done| |done]. intros x Hx Hx'.
    apply (Hd x Hx). by right.
  - intros m. rewrite Hq'. split; [|done]. intros [Hin|Hin]%elem_of_app;
      apply (list_elem_of_fmap_2 fst) in Hin; [|done]. destruct (Hd _ Hin). by left.
  - intros id' m Hne. rewrite !elem_of_app, elem_of_cons. naive_solver.
Qed.

Lemma queue_put_forget w id g oc' :
  Inv L w → oc' ≫= queued_at = None →
  queue_put g id oc' (waiting (gate_sem g (owner w)))
    (List.filter (λ r, negb (r.1 =? id)) (waiting (gate_sem g (owner w)))).
Proof.
  intros Hi Hq'. pose proof (proj1 (inv_queue L w Hi g)) as Hnd.
  generalize dependent (waiting (gate_sem g (owner w))). intros q Hnd. split; [|split].
  - induction q as [|[t m] q IH]; simpl; [done|]. simpl in Hnd. apply list.NoDup_cons in Hnd as [Ht Hnd].
    case_match; simpl; [|by apply IH]. apply list.NoDup_cons. split; [|by apply IH].
    intros (x & -> & Hx)%list_elem_of_fmap. apply Ht. apply list_elem_of_fmap. exists x. split; [done|].
    apply list_elem_of_In, filter_In in Hx as [Hx _]. by apply list_elem_of_In.
  - intros m. rewrite Hq', list_elem_of_In, filter_In. simpl. rewrite Z.eqb_refl. naive_solver.
  - intros id' m Hne. rewrite !list_elem_of_In, filter_In. simpl.
    rewrite (proj2 (Z.eqb_neq id' id)) by done. naive_solver.
Qed.


(** *** The locals and the request *)

Ltac request_cases request :=
  destruct request as [[] [] bytes par]; unfold locals_before, permit_before, permit_for, admission_for;
  simpl in *; try done.

Lemma needs_after_scratch request : needs request (after_scratch request) = true.
Proof. by request_cases request. Qed.

Lemma needs_after_background request :
  is_background (req_class request) = true → needs request (after_background request) = true.
Proof. by request_cases request. Qed.

Lemma needs_after_crash request : needs request (after_crash request) = true.
Proof. by request_cases request. Qed.

Lemma locals_before_scratch request : locals_before request GScratch = no_locals.
Proof. done. Qed.

Lemma locals_no_scratch request :
  needs request GScratch = false → locals_before request (after_scratch request) = no_locals.
Proof. intros H. request_cases request; by rewrite H. Qed.

(** Taking the permit of a gate leads to the locals of the next. *)
Lemma locals_take_scratch request l :
  l = locals_before request GScratch → needs request GScratch = true →
  {| l_scratch := Some {| permit_gate := GScratch; permit_units := units_needed request GScratch |};
     l_class_permits := l_class_permits l; l_heavy := l_heavy l |} =
  locals_before request (after_scratch request).
Proof. intros -> H. request_cases request; by rewrite H. Qed.

Definition take_class (g : Gate) (l : Locals) : Locals :=
  {| l_scratch := l_scratch l;
     l_class_permits := l_class_permits l ++ [{| permit_gate := g; permit_units := 1 |}];
     l_heavy := l_heavy l |}.

Lemma locals_take_background request l :
  l = locals_before request GBackground → needs request GBackground = true →
  take_class GBackground l = locals_before request (after_background request).
Proof. intros -> H. by request_cases request. Qed.

Lemma locals_take_crash request l :
  l = locals_before request GCrash → needs request GCrash = true →
  take_class GCrash l = locals_before request (after_crash request).
Proof. intros -> H. by request_cases request. Qed.

Lemma locals_take_heavy request l :
  l = locals_before request GHeavy → needs request GHeavy = true →
  {| l_scratch := l_scratch l; l_class_permits := l_class_permits l;
     l_heavy := Some {| permit_gate := GHeavy; permit_units := 1 |} |} =
  locals_before request GWorkers.
Proof. intros -> H. by request_cases request. Qed.

Lemma locals_complete request l :
  l = locals_before request GWorkers →
  {| adm_class := req_class request; adm_class_permits := l_class_permits l;
     adm_scratch := l_scratch l; adm_heavy := l_heavy l;
     adm_worker := {| permit_gate := GWorkers; permit_units := req_parallelism request |};
     adm_parallelism := req_parallelism request |} = admission_for request.
Proof. by intros ->. Qed.

(** Permits are for a positive number of units. *)
Definition positive (ps : list Permit) : Prop := Forall (λ p, 0 < permit_units p) ps.

Lemma div_ceil_pos a b : 0 < a → 0 < b → 0 < div_ceil a b.
Proof. intros Ha Hb. unfold div_ceil. apply Z.div_str_pos. lia. Qed.

Lemma units_positive request g :
  needs request g = true → 0 ≤ req_scratch_bytes request → 1 ≤ req_parallelism request ∨ g = GScratch →
  0 < units_needed request g.
Proof.
  intros Hn Hs Hp. destruct g; simpl in *; try lia.
  - apply div_ceil_pos; [|done]. apply negb_true_iff, Z.eqb_neq in Hn. lia.
  - destruct Hp; [lia|done].
Qed.

Lemma permit_for_positive request g :
  scratch_ok L request → g ≠ GWorkers → positive (option_permits (permit_for request g)).
Proof.
  intros Hs Hg. unfold permit_for. destruct (needs request g) eqn:Hn; [|constructor].
  constructor; [|constructor]. simpl.
  destruct g; try (simpl; lia); [|congruence]. apply units_positive; [done|apply Hs|by right].
Qed.

Lemma permit_before_positive request gate g :
  scratch_ok L request → g ≠ GWorkers → positive (option_permits (permit_before request gate g)).
Proof.
  intros Hs Hg. unfold permit_before. case_match; [|constructor]. by apply permit_for_positive.
Qed.

Lemma locals_positive request g :
  scratch_ok L request → positive (locals_permits (locals_before request g)).
Proof.
  intros Hs. unfold positive, locals_permits. simpl.
  repeat apply list.Forall_app_2; by apply permit_before_positive.
Qed.

Lemma admission_positive c a : admission_ok L c a → positive (admission_permits a).
Proof.
  intros (-> & _ & Hs & Hp). unfold positive, admission_permits. simpl.
  repeat apply list.Forall_app_2; try by apply permit_for_positive.
  constructor; [|done]. simpl. unfold parallelism_ok in Hp. lia.
Qed.

Lemma permits_at_nonneg g ps : positive ps → 0 ≤ permits_at g ps.
Proof.
  induction 1 as [|p ps Hp _ IH]; [done|]. rewrite permits_at_cons. case_decide; lia.
Qed.

Lemma call_positive gs c : call_ok L gs c → positive (call_permits c).
Proof.
  intros (_ & _ & H). unfold phase_ok in H. unfold call_permits.
  destruct (c_phase c); try (by constructor); try (by apply (admission_positive c));
    try (by apply (admission_positive c), H); try done.
  - destruct H as (-> & _ & Hs & _). by apply locals_positive.
  - destruct H as (-> & Hs). by apply permit_for_positive.
Qed.

Lemma held_nonneg gs g c : call_ok L gs c → 0 ≤ held g c.
Proof. intros H. by eapply permits_at_nonneg, call_positive. Qed.

Lemma call_ok_move gs c c' :
  call_ok L gs c → c_purpose c' = c_purpose c → c_request c' = c_request c → phase_ok L c' →
  call_ok L gs c'.
Proof. intros (Ht & Hp & _) H1 H2 H3. unfold call_ok. by rewrite H1, H2. Qed.

(** *** Each step *)

Ltac footprint Hc Hph :=
  intros; rewrite ?Hc; simpl;
  unfold held, call_permits, active_in, admission_in, running_in, worker_in, member, queued_at;
  simpl; rewrite ?Hph; simpl; try done.

Ltac move_call w id Hi Hc Hph :=
  eapply (inv_move w _ id (Some _) Hi);
  [ reflexivity | reflexivity | reflexivity | footprint Hc Hph | footprint Hc Hph
  | footprint Hc Hph | footprint Hc Hph | footprint Hc Hph
  | let Hok := fresh "Hok" in
    intros ? [= <-]; pose proof (inv_calls L w Hi id _ Hc) as Hok;
    apply (call_ok_move _ _ _ Hok); [done|done|];
    destruct Hok as (_ & _ & Hok); unfold phase_ok in Hok; rewrite Hph in Hok;
    unfold phase_ok; simpl ].

Lemma fail_inv id c e l w w' :
  Inv L w → calls w !! id = Some c → call_permits c = locals_permits l → queued_at c = None →
  (∀ g, member g (with_phase (Leaving None) c) = member g c) →
  admission_in c = None → worker_in c = None →
  fail id c e l w = Stepped w' → Inv L w'.
Proof.
  intros Hi Hc Hp Hq Hm Ha Hr [= <-].
  eapply (inv_move w _ id (Some _) Hi); [reflexivity|reflexivity|reflexivity|..]; rewrite ?Hc; simpl.
  - intros g. unfold held. by rewrite Hp.
  - by rewrite Hq.
  - intros cl. unfold active_in. by rewrite Ha.
  - intros cl. unfold running_in. by rewrite Hr.
  - intros g. by rewrite <-Hm.
  - intros ? [= <-]. pose proof (inv_calls L w Hi id _ Hc) as Hok.
    apply (call_ok_move _ _ _ Hok); [done|done|]. unfold phase_ok. simpl.
    apply call_positive in Hok. by rewrite Hp in Hok.
Qed.

Lemma start_inv id c w w' :
  Inv L w → calls w !! id = Some c → c_phase c = Starting → start id c w = Stepped w' → Inv L w'.
Proof.
  intros Hi Hc Hph Hs. unfold start in Hs.
  assert (∀ e, fail id c e no_locals w = Stepped w' → Inv L w') as Hfail.
  { intros e. apply fail_inv; [done|done|..]; footprint Hc Hph. }
  destruct (if is_reserve (c_purpose c) then _ else _) as [u|e] eqn:Hv; [|by apply (Hfail e)].
  case_match eqn:Hl; [by apply (Hfail ScratchLimit)|]. apply Z.ltb_ge in Hl.
  destruct (inv_limits L w Hi) as [Hwl Hsl].
  assert (scratch_ok L (c_request c)) as Hsok.
  { split; [apply (inv_calls L w Hi id c Hc)|]. by rewrite <-Hsl. }
  assert (is_reserve (c_purpose c) = false → parallelism_ok L (c_request c)) as Hpar.
  { intros Hr. rewrite Hr in Hv. unfold validate_parallelism in Hv. ok_inv.
    pose proof (inv_calls L w Hi id c Hc) as ((_ & Ht) & _). unfold parallelism_ok. lia. }
  destruct (_ =? 0) eqn:Hz.
  - assert (needs (c_request c) GScratch = false) as Hn by (simpl; by rewrite Hz).
    destruct (is_reserve (c_purpose c)) eqn:Hres; injection Hs as <-; move_call w id Hi Hc Hph.
    + split; [|done]. unfold permit_for. by rewrite Hn.
    + rewrite locals_no_scratch, needs_after_scratch, Hres by done. auto.
  - injection Hs as <-. move_call w id Hi Hc Hph. rewrite Hz. split_and!; try done.
    destruct (is_reserve _); auto.
Qed.

Lemma enqueue_inv id c g l w w' :
  Inv L w → calls w !! id = Some c → c_phase c = Waiting g false l →
  poll_gate id c g false l w = Stepped w' → Inv L w'.
Proof.
  intros Hi Hc Hph. unfold poll_gate. case_match.
  { apply fail_inv; [done|done|..]; footprint Hc Hph. }
  intros [= <-].
  eapply (inv_gate w _ id _ g (acquire_enqueue id (units_needed (c_request c) g) (gate_sem g (owner w))) _ Hi);
    [reflexivity|reflexivity|reflexivity| |done|done|..]; simpl.
  - intros g'. by rewrite gate_sem_with_gate.
  - rewrite enqueue_free. footprint Hc Hph.
  - rewrite enqueue_free. apply (inv_free_nonneg L w Hi).
  - footprint Hc Hph.
  - eapply queue_put_enqueue; [done|..|apply enqueue_waiting]; footprint Hc Hph.
  - footprint Hc Hph. naive_solver.
  - apply (active_same w (Some _) id Hi). footprint Hc Hph.
  - footprint Hc Hph.
  - footprint Hc Hph.
  - intros ? [= <-]. pose proof (inv_calls L w Hi id _ Hc) as Hok.
    apply (call_ok_move _ _ _ Hok); [done|done|]. destruct Hok as (_ & _ & Hok).
    unfold phase_ok in *. rewrite Hph in Hok. by simpl.
Qed.

(** What the call [c], waiting at [g] with the locals [l], gets there. *)
Lemma grant_inv id c g l s w w' c' o' :
  Inv L w → calls w !! id = Some c → c_phase c = Waiting g true l →
  acquire_poll id (gate_sem g (owner w)) = Some (Ok s) →
  calls w' = partial_alter (λ _, Some c') id (calls w) → groups w' = groups w → owner w' = o' →
  (∀ g', gate_sem g' o' = if decide (g' = g) then s else gate_sem g' (owner w)) →
  running o' = running (owner w) →
  worker_limit o' = worker_limit (owner w) ∧ scratch_limit_bytes o' = scratch_limit_bytes (owner w) →
  (∀ g', held g' c' = permits_at g' (locals_permits l) +
                      if decide (g = g') then units_needed (c_request c) g else 0) →
  queued_at c' = None → worker_in c' = None → (∀ g, member g c' = member g c) →
  (∀ class, count_mod (active o') class (total (active_in class) (calls w) + active_in class c')) →
  call_ok L (groups w) c' →
  Inv L w'.
Proof.
  intros Hi Hc Hph Hp Hcalls Hgr Ho Hs Hru Hlim Hh Hq Hw Hm Ha Hok.
  apply poll_ok in Hp as (q & n & q' & Hqueue & Hle & Hfree & Hwait).
  assert (∀ r, r ∈ waiting (gate_sem g (owner w)) → 0 < r.2) as Hpos.
  { intros [id' n'] Hin. apply (inv_queue L w Hi g) in Hin. simpl.
    destruct (calls w !! id') as [c0|] eqn:Hc0; simpl in Hin; [|done].
    pose proof (inv_calls L w Hi id' c0 Hc0) as (_ & _ & H0). unfold queued_at in Hin. unfold phase_ok in H0.
    destruct (c_phase c0) as [| | | |g0 [] l0| | | | | | | |]; try done. injection Hin as -> <-.
    destruct H0 as (_ & Hn & Hsc & Hpar). apply units_positive; [done|apply Hsc|].
    destruct (is_reserve (c_purpose c0)); [by right|]. left. apply Hpar. }
  assert (n = units_needed (c_request c) g) as ->.
  { assert ((id, n) ∈ waiting (gate_sem g (owner w))) as Hin.
    { rewrite Hqueue. apply elem_of_app. right. by left. }
    apply (inv_queue L w Hi g) in Hin. rewrite Hc in Hin. simpl in Hin.
    unfold queued_at in Hin. rewrite Hph in Hin. by injection Hin. }
  assert (0 ≤ asked q) as Hasked.
  { rewrite Hqueue in Hpos. clear -Hpos. induction q as [|r q IH]; [done|].
    change (asked (r :: q)) with (r.2 + asked q).
    assert (0 < r.2) by (apply Hpos; by left).
    assert (0 ≤ asked q); [|lia]. apply IH. intros r' Hr'. apply Hpos. by right. }
  eapply (inv_gate w w' id (Some c') g s o' Hi); try done.
  - rewrite Hc. simpl. rewrite Hh, decide_True by done. unfold held, call_permits. rewrite Hph. lia.
  - lia.
  - intros g' Hne. rewrite Hc. simpl. rewrite Hh, decide_False by done.
    unfold held, call_permits. rewrite Hph. lia.
  - rewrite Hwait. by eapply queue_put_grant.
  - intros g' m Hne. rewrite Hc. simpl. rewrite Hq. unfold queued_at. rewrite Hph. naive_solver.
  - intros class. rewrite Hc. simpl. specialize (Ha class).
    assert (active_in class c = 0) as -> by (unfold active_in, admission_in; by rewrite Hph).
    by rewrite Z.sub_0_r.
  - intros class. rewrite Hc. simpl. unfold running_in. rewrite Hw. unfold worker_in. by rewrite Hph.
  - intros g'. rewrite Hc. simpl. apply Hm.
  - by intros ? [= <-].
Qed.

Lemma permits_at_nil g : permits_at g [] = 0.
Proof. done. Qed.

Ltac permits_tac :=
  intros; unfold held, call_permits, locals_permits, admission_permits; simpl;
  rewrite ?permits_at_app, ?permits_at_cons, ?permits_at_nil; simpl;
  rewrite ?permits_at_app, ?permits_at_cons, ?permits_at_nil; simpl;
  try lia.

(** A grant at a gate before the workers. *)
Lemma granted_before_inv id c g l s phase w w' :
  Inv L w → calls w !! id = Some c → c_phase c = Waiting g true l →
  acquire_poll id (gate_sem g (owner w)) = Some (Ok s) →
  set_phase id c phase (with_owner (with_gate g s (owner w)) w) = Stepped w' →
  (∀ g', permits_at g' (call_permits (with_phase phase c)) =
         permits_at g' (locals_permits l) + if decide (g = g') then units_needed (c_request c) g else 0) →
  (match phase with Waiting _ false _ | Reserved _ => True | _ => False end) →
  phase_ok L (with_phase phase c) →
  Inv L w'.
Proof.
  intros Hi Hc Hph Hp [= <-] Hh Hphase Hok.
  eapply (grant_inv id c g l s w _ (with_phase phase c)); try done.
  - intros g'. simpl. by rewrite gate_sem_with_gate.
  - unfold queued_at. simpl. by destruct phase as [| | | |? []| | | | | | | |].
  - unfold worker_in. simpl. by destruct phase as [| | | |? []| | | | | | | |].
  - intros g'. unfold member. simpl. rewrite Hph. by destruct phase as [| | | |? []| | | | | | | |].
  - intros class. simpl.
    assert (active_in class (with_phase phase c) = 0) as ->.
    { unfold active_in, admission_in. simpl. by destruct phase as [| | | |? []| | | | | | | |]. }
    rewrite Z.add_0_r. apply (inv_active L w Hi).
  - apply (call_ok_move _ c); [by apply (inv_calls L w Hi id)|done..].
Qed.

Lemma granted_workers_inv id c l s w w' :
  Inv L w → calls w !! id = Some c → c_phase c = Waiting GWorkers true l →
  acquire_poll id (workers (owner w)) = Some (Ok s) →
  admission_done id c l {| permit_gate := GWorkers; permit_units := req_parallelism (c_request c) |}
    (with_owner (with_gate GWorkers s (owner w)) w) = Stepped w' →
  Inv L w'.
Proof.
  intros Hi Hc Hph Hp Hd. pose proof (inv_calls L w Hi id c Hc) as Hok.
  pose proof Hok as (_ & _ & Hpok). unfold phase_ok in Hpok. rewrite Hph in Hpok.
  destruct Hpok as (Hl & _ & Hsc & Hpar).
  assert (is_reserve (c_purpose c) = false ∧ parallelism_ok L (c_request c)) as [Hres Hpar'].
  { by destruct (is_reserve (c_purpose c)). }
  unfold admission_done in Hd. rewrite (locals_complete (c_request c) l Hl) in Hd.
  set (a := admission_for (c_request c)) in Hd.
  assert (∀ c', c_purpose c' = c_purpose c → c_request c' = c_request c →
    c_phase c' = Spawned a ∨ c_phase c' = Holding a →
    w' = put_call id (Some c') (with_owner (add_active 1 (req_class (c_request c))
           (with_gate GWorkers s (owner w))) w) → Inv L w') as Hgen.
  { intros c' Hpu Hre Hph' ->. eapply (grant_inv id c GWorkers l s w _ c'); try done.
    - intros g'. simpl. by rewrite gate_sem_add_active, gate_sem_with_gate.
    - intros g'. unfold held, call_permits. rewrite Hl.
      destruct Hph' as [-> | ->]; unfold a; permits_tac; unfold permit_before; simpl; lia.
    - unfold queued_at. by destruct Hph' as [-> | ->].
    - unfold worker_in. by destruct Hph' as [-> | ->].
    - intros g'. unfold member. rewrite Hpu, Hph. by destruct Hph' as [-> | ->].
    - intros class. replace (active_in class c') with (if decide (req_class (c_request c) = class) then 1 else 0).
      + apply count_mod_add, (inv_active L w Hi).
      + unfold active_in, admission_in. by destruct Hph' as [-> | ->].
    - apply (call_ok_move _ c); [done..|]. unfold phase_ok.
      assert (admission_ok L c' a) by (unfold admission_ok; by rewrite Hpu, Hre).
      by destruct Hph' as [-> | ->]. }
  destruct (c_purpose c) eqn:Hpu; injection Hd as <-;
    (eapply Hgen; [| | |reflexivity]; [done|done|by (left + right)]).
Qed.

Lemma poll_gate_inv id c g l w w' :
  Inv L w → calls w !! id = Some c → c_phase c = Waiting g true l →
  poll_gate id c g true l w = Stepped w' → Inv L w'.
Proof.
  intros Hi Hc Hph. unfold poll_gate.
  destruct (acquire_poll id (gate_sem g (owner w))) as [[s|[]]|] eqn:Hp; [| |done].
  2: by destruct (poll_open _ _ Hp).
  pose proof (inv_calls L w Hi id c Hc) as (_ & _ & Hok). unfold phase_ok in Hok. rewrite Hph in Hok.
  destruct Hok as (Hl & Hn & Hsc & Hpar). unfold granted.
  destruct g; intros Hd;
    [destruct (is_reserve (c_purpose c)) eqn:Hres|..|by eapply granted_workers_inv];
    (eapply granted_before_inv; [done|done|done|done|exact Hd|..|]; [|done|]);
    try (rewrite Hl; destruct (c_request c) as [[] [] bytes par]; permits_tac; fail).
  all: unfold phase_ok; simpl; try (split; [unfold permit_for; by rewrite Hn|done]).
  all: destruct (is_reserve (c_purpose c)); try discriminate.
  all: split_and!; [|auto using needs_after_scratch, needs_after_background, needs_after_crash|done|done].
  - by apply locals_take_scratch.
  - by apply (locals_take_background _ l).
  - by apply (locals_take_crash _ l).
  - by apply (locals_take_heavy _ l).
Qed.

(** *** Registration *)

Lemma inv_group w w' id c (oc : option Call) g gr n :
  Inv L w → calls w !! id = Some c → groups w !! g = Some gr → owner w' = owner w →
  calls w' = partial_alter (λ _, oc) id (calls w) →
  (∃ b v, groups w' = <[g := {| g_cancelled := b; g_version := v; g_active_count := n |}]> (groups w)) →
  call_permits c = [] → queued_at c = None → admission_in c = None → worker_in c = None →
  (∀ c0, oc = Some c0 → call_permits c0 = [] ∧ queued_at c0 = None ∧ admission_in c0 = None ∧
     worker_in c0 = None ∧ call_ok L (groups w) c0) →
  (∀ g', oget (member g') oc = member g' c + if decide (g = g') then n - g_active_count gr else 0) →
  Inv L w'.
Proof.
  intros Hi Hc Hg Ho Hcalls (b & v & Hgroups) Hp Hq Ha Hr Hc' Hm.
  assert (∀ f, f c = 0 → (∀ c0, oc = Some c0 → f c0 = 0) → oget f oc = oget f (calls w !! id)) as Hz.
  { intros f H0 H1. rewrite Hc. simpl. destruct oc as [c0|]; simpl; [|done]. rewrite H0. by apply H1. }
  apply (inv_put w w' id oc Hi Hcalls); rewrite ?Ho; try done.
  - intros g'. rewrite (Hz (held g')); [done|unfold held; by rewrite Hp|].
    intros c0 H0. unfold held. by destruct (Hc' c0 H0) as [-> _].
  - apply (inv_free_nonneg L w Hi).
  - intros g'. apply queue_put_same; [done|]. rewrite Hc. simpl. rewrite Hq.
    destruct oc as [c0|]; [|done]. simpl. by destruct (Hc' c0 eq_refl) as (_ & -> & _).
  - apply (active_same w oc id Hi). intros class. apply Hz; [unfold active_in; by rewrite Ha|].
    intros c0 H0. unfold active_in. by destruct (Hc' c0 H0) as (_ & _ & -> & _).
  - apply (running_same w oc id Hi). intros class. apply Hz; [unfold running_in; by rewrite Hr|].
    intros c0 H0. unfold running_in. by destruct (Hc' c0 H0) as (_ & _ & _ & -> & _).
  - intros g' gr' Hg'. rewrite Hgroups in Hg'. rewrite Hc, Hm. simpl.
    destruct (decide (g = g')) as [<-|Hne].
    + rewrite lookup_insert_eq in Hg'. injection Hg' as <-. simpl.
      rewrite (inv_members L w Hi g gr Hg). lia.
    + rewrite lookup_insert_ne in Hg' by done. rewrite (inv_members L w Hi g' gr' Hg'). lia.
  - intros g' Hs. rewrite Hgroups. destruct (decide (g = g')) as [<-|Hne];
      [by rewrite lookup_insert_eq|by rewrite lookup_insert_ne].
  - intros c0 H0. destruct (Hc' c0 H0) as (_ & _ & _ & _ & Ht & Hpu & Hph). split; [done|]. split; [|done].
    rewrite Hgroups. destruct (c_purpose c0) as [g'| | |]; try done.
    destruct (decide (g = g')) as [<-|Hne]; [by rewrite lookup_insert_eq|by rewrite lookup_insert_ne].
Qed.

Lemma enter_inv id c g w w' :
  Inv L w → calls w !! id = Some c → c_phase c = Entering → c_purpose c = GroupRun g →
  enter id c g w = Stepped w' → Inv L w'.
Proof.
  intros Hi Hc Hph Hpu. unfold enter. destruct (groups w !! g) as [gr|] eqn:Hg; [|done].
  destruct (checked_add_u64 _ 1) as [n|] eqn:Hn; [|done]. intros [= <-].
  unfold checked_add_u64 in Hn. case_match; [|done]. injection Hn as <-.
  eapply (inv_group w _ id c (Some _) g gr _ Hi Hc Hg); [reflexivity|reflexivity|by repeat eexists|..];
    try (by footprint Hc Hph).
  - intros c0 [= <-]. split_and!; try done. apply (call_ok_move _ c); [by apply (inv_calls L w Hi id)|done..|].
    unfold phase_ok. simpl. by exists g.
  - intros g'. simpl. unfold member. simpl. rewrite Hpu, Hph. destruct (decide (g = g')); lia.
Qed.

Lemma leave_inv id c r w w' :
  Inv L w → calls w !! id = Some c → c_phase c = Leaving r →
  leave id c r w = Stepped w' → Inv L w'.
Proof.
  intros Hi Hc Hph. unfold leave.
  destruct (c_purpose c) as [g| | |] eqn:Hpu;
    [destruct (groups w !! g) as [gr|] eqn:Hg; [|done]; case_match; [done|]|..]; intros [= <-].
  1: { eapply (inv_group w _ id c None g gr _ Hi Hc Hg);
         [reflexivity|reflexivity|by repeat eexists|..]; try (by footprint Hc Hph).
       intros g'. unfold member. rewrite Hpu, Hph. simpl. destruct (decide (g = g')); lia. }
  all: apply (inv_move w _ id None Hi); try done; footprint Hc Hph; by rewrite Hpu.
Qed.

Lemma recheck_inv id c g w w' :
  Inv L w → calls w !! id = Some c → c_phase c = Registered → c_purpose c = GroupRun g →
  recheck id c g w = Stepped w' → Inv L w'.
Proof.
  intros Hi Hc Hph Hpu. unfold recheck. destruct (groups w !! g) as [gr|]; [|done]. intros [= <-].
  destruct (g_cancelled gr); move_call w id Hi Hc Hph; done.
Qed.

Lemma subscribe_inv id c g w w' :
  Inv L w → calls w !! id = Some c → c_phase c = Subscribing → c_purpose c = GroupRun g →
  subscribe id c g w = Stepped w' → Inv L w'.
Proof.
  intros Hi Hc Hph Hpu. unfold subscribe. destruct (groups w !! g) as [gr|]; [|done]. intros [= <-].
  move_call w id Hi Hc Hph. done.
Qed.

(** *** The closure and the drops *)

(** A step that changes the counters with the call. *)
Lemma inv_counters w w' id c c' o' :
  Inv L w → calls w !! id = Some c → calls w' = partial_alter (λ _, Some c') id (calls w) →
  groups w' = groups w → owner w' = o' → (∀ g, gate_sem g o' = gate_sem g (owner w)) →
  worker_limit o' = worker_limit (owner w) ∧ scratch_limit_bytes o' = scratch_limit_bytes (owner w) →
  call_permits c' = call_permits c → queued_at c' = queued_at c →
  (∀ class, count_mod (active o') class
     (total (active_in class) (calls w) - active_in class c + active_in class c')) →
  (∀ class, count_mod (running o') class
     (total (running_in class) (calls w) - running_in class c + running_in class c')) →
  (∀ g, member g c' = member g c) → call_ok L (groups w) c' →
  Inv L w'.
Proof.
  intros Hi Hc Hcalls Hg Ho Hs [Hwl Hsl] Hp Hq Ha Hr Hm Hok.
  apply (inv_put w w' id (Some c') Hi Hcalls); rewrite ?Ho, ?Hg, ?Hc; try done.
  - intros g. rewrite Hs. simpl. unfold held. by rewrite Hp.
  - intros g. rewrite Hs. apply (inv_free_nonneg L w Hi).
  - intros g. rewrite Hs. apply queue_put_same; [done|]. rewrite Hc. simpl. by rewrite Hq.
  - intros g gr Hgr. simpl. rewrite Hm, (inv_members L w Hi g gr Hgr). lia.
  - by intros ? [= <-].
Qed.

Lemma counters_active w c c' class :
  Inv L w → active_in class c' = active_in class c →
  count_mod (active (owner w)) class
    (total (active_in class) (calls w) - active_in class c + active_in class c').
Proof.
  intros Hi ->. replace (_ - _ + _) with (total (active_in class) (calls w)) by lia.
  apply (inv_active L w Hi).
Qed.

Lemma counters_running w c c' class :
  Inv L w → running_in class c' = running_in class c →
  count_mod (running (owner w)) class
    (total (running_in class) (calls w) - running_in class c + running_in class c').
Proof.
  intros Hi ->. replace (_ - _ + _) with (total (running_in class) (calls w)) by lia.
  apply (inv_running L w Hi).
Qed.

Lemma begin_running_inv id c a w w' :
  Inv L w → calls w !! id = Some c → c_phase c = Spawned a →
  begin_running id c a w = Stepped w' → Inv L w'.
Proof.
  intros Hi Hc Hph [= <-].
  eapply (inv_counters w _ id c (with_phase (Checking a) c) _ Hi Hc); [done|done|reflexivity|..];
    try (by footprint Hc Hph).
  - intros class. simpl. apply counters_active; [done|]. by footprint Hc Hph.
  - intros class. simpl.
    replace (_ - _ + _) with
      (total (running_in class) (calls w) + if decide (adm_class a = class) then adm_parallelism a else 0).
    + apply count_mod_add, (inv_running L w Hi).
    + unfold running_in, worker_in. simpl. rewrite Hph. simpl. lia.
  - apply (call_ok_move _ c); [by apply (inv_calls L w Hi id)|done..|].
    pose proof (inv_calls L w Hi id c Hc) as (_ & _ & Hok). unfold phase_ok in *. by rewrite Hph in Hok.
Qed.

Lemma check_cancelled_inv id c a w w' :
  Inv L w → calls w !! id = Some c → c_phase c = Checking a →
  check_cancelled id c a w = Stepped w' → Inv L w'.
Proof.
  intros Hi Hc Hph [= <-]. destruct (is_cancelled c w); move_call w id Hi Hc Hph; auto.
Qed.

Lemma drop_admission_inv id c a worker r w w' :
  Inv L w → calls w !! id = Some c → c_phase c = Dropping a worker r →
  drop_admission id c a worker r w = Stepped w' → Inv L w'.
Proof.
  intros Hi Hc Hph [= <-]. pose proof (inv_calls L w Hi id c Hc) as Hok.
  pose proof Hok as (_ & _ & Hp). unfold phase_ok in Hp. rewrite Hph in Hp.
  eapply (inv_counters w _ id c (with_phase (Releasing (admission_permits a) worker r) c) _ Hi Hc);
    [done|done|reflexivity|..]; try (by footprint Hc Hph).
  - intros class. simpl.
    replace (_ - _ + _) with
      (total (active_in class) (calls w) + if decide (adm_class a = class) then -1 else 0).
    + apply count_mod_add, (inv_active L w Hi).
    + unfold active_in, admission_in. simpl. rewrite Hph. simpl. case_decide; lia.
  - intros class. simpl. apply counters_running; [done|]. by footprint Hc Hph.
  - apply (call_ok_move _ c); [done..|]. unfold phase_ok. simpl. by apply (admission_positive c), Hp.
Qed.

Lemma release_inv id c ps worker r w w' :
  Inv L w → calls w !! id = Some c → c_phase c = Releasing ps worker r →
  release id c ps worker r w = Stepped w' → Inv L w'.
Proof.
  intros Hi Hc Hph. pose proof (inv_calls L w Hi id c Hc) as Hok.
  pose proof Hok as (_ & _ & Hp). unfold phase_ok in Hp. rewrite Hph in Hp. unfold release.
  destruct ps as [|p ps]; [destruct worker as [rw|]|]; intros [= <-].
  - eapply (inv_counters w _ id c (with_phase (Releasing [] None r) c) _ Hi Hc);
      [done|done|reflexivity|..]; try (by footprint Hc Hph).
    + intros class. simpl. apply counters_active; [done|]. by footprint Hc Hph.
    + intros class. simpl.
      replace (_ - _ + _) with
        (total (running_in class) (calls w) + if decide (rw_class rw = class) then - rw_count rw else 0).
      * apply count_mod_add, (inv_running L w Hi).
      * unfold running_in, worker_in. simpl. rewrite Hph. simpl. case_decide; lia.
    + apply (call_ok_move _ c); [done..|]. constructor.
  - move_call w id Hi Hc Hph. done.
  - apply list.Forall_cons in Hp as [Hp Hps].
    eapply (inv_gate w _ id (Some (with_phase (Releasing ps worker r) c)) (permit_gate p) _ _ Hi);
      [reflexivity|reflexivity|reflexivity|intros g'; apply gate_sem_with_gate|done|done|..];
      try (by footprint Hc Hph).
    + rewrite drop_free by lia. footprint Hc Hph. rewrite permits_at_cons, decide_True by done. lia.
    + rewrite drop_free by lia. pose proof (inv_free_nonneg L w Hi (permit_gate p)). lia.
    + intros g' Hne. footprint Hc Hph. by rewrite permits_at_cons, decide_False by done.
    + rewrite drop_waiting. apply queue_put_same; [done|]. footprint Hc Hph.
    + apply (active_same w (Some _) id Hi). footprint Hc Hph.
    + intros ? [= <-]. by apply (call_ok_move _ c).
Qed.

Lemma advance_inv id w w' : Inv L w → advance id w = Stepped w' → Inv L w'.
Proof.
  intros Hi. unfold advance. destruct (calls w !! id) as [c|] eqn:Hc; [|done].
  destruct (c_phase c) as [| | | |g [] l| | | | | | | |] eqn:Hph; try done.
  - destruct (c_purpose c) eqn:Hpu; [|done..]. by apply enter_inv.
  - destruct (c_purpose c) eqn:Hpu; [|done..]. by apply recheck_inv.
  - destruct (c_purpose c) eqn:Hpu; [|done..]. by apply subscribe_inv.
  - by apply start_inv.
  - by eapply poll_gate_inv.
  - by eapply enqueue_inv.
  - by apply begin_running_inv.
  - by apply check_cancelled_inv.
  - by apply drop_admission_inv.
  - by apply release_inv.
  - by apply leave_inv.
Qed.

Lemma drop_admit_inv id c r w w' :
  Inv L w → calls w !! id = Some c → drop_admit id c r w = Stepped w' → Inv L w'.
Proof.
  intros Hi Hc. unfold drop_admit. pose proof (inv_calls L w Hi id c Hc) as Hok.
  destruct (c_phase c) as [| | | |g [] l| | | | | | | |] eqn:Hph; try done; intros [= <-].
  - move_call w id Hi Hc Hph. constructor.
  - eapply (inv_gate w _ id (Some (with_phase (Releasing (locals_permits l) None r) c)) g _ _ Hi);
      [reflexivity|reflexivity|reflexivity|intros g'; apply gate_sem_with_gate|done|done|..];
      try (by footprint Hc Hph).
    + rewrite forget_free. footprint Hc Hph.
    + rewrite forget_free. apply (inv_free_nonneg L w Hi).
    + rewrite forget_waiting. by apply queue_put_forget.
    + intros g' n Hne. footprint Hc Hph. naive_solver.
    + apply (active_same w (Some _) id Hi). footprint Hc Hph.
    + intros ? [= <-]. apply (call_ok_move _ c); [done..|].
      apply call_positive in Hok. unfold call_permits in Hok. by rewrite Hph in Hok.
Qed.

(** *** Immediate attempts *)

(** From [o] to [o'] exactly the permits [ps] were taken. *)
Record taken o o' (ps : list Permit) : Prop := {
  taken_free g : free (gate_sem g o') = free (gate_sem g o) - permits_at g ps;
  taken_waiting g : waiting (gate_sem g o') = waiting (gate_sem g o);
  taken_active : active o' = active o;
  taken_running : running o' = running o;
  taken_worker_limit : worker_limit o' = worker_limit o;
  taken_scratch_limit : scratch_limit_bytes o' = scratch_limit_bytes o;
}.

Lemma taken_refl o : taken o o [].
Proof. split; try done. intros g. rewrite permits_at_nil. lia. Qed.

Lemma taken_trans o1 o2 o3 ps qs : taken o1 o2 ps → taken o2 o3 qs → taken o1 o3 (qs ++ ps).
Proof.
  intros [] []. split; try congruence.
  intros g. rewrite taken_free1, taken_free0, permits_at_app. lia.
Qed.

Lemma taken_ext o o' ps qs :
  (∀ g, permits_at g ps = permits_at g qs) → taken o o' ps → taken o o' qs.
Proof. intros Hp []. split; try done. intros g. by rewrite <-Hp. Qed.

Lemma taken_drop o o' p ps : 0 ≤ permit_units p → taken o o' (p :: ps) → taken o (drop_permit p o') ps.
Proof.
  intros Hp []. unfold drop_permit. split; try done.
  - intros g. rewrite gate_sem_with_gate. specialize (taken_free0 g). rewrite permits_at_cons in taken_free0.
    destruct (decide (g = permit_gate p)) as [->|Hne].
    + rewrite drop_free by done. rewrite decide_True in taken_free0 by done. lia.
    + rewrite decide_False in taken_free0 by congruence. lia.
  - intros g. rewrite gate_sem_with_gate. case_decide; [subst; by rewrite drop_waiting|done].
Qed.

Lemma taken_drops o o' ps : positive ps → taken o o' ps → taken o (drop_permits ps o') [].
Proof.
  unfold drop_permits. intros Hps. revert o'. induction Hps as [|p ps Hp _ IH]; intros o' Ht; [done|].
  simpl. apply IH, taken_drop; [lia|done].
Qed.

(** The permits are there. *)
Definition fits o (ps : list Permit) : Prop :=
  ∀ g, 0 < permits_at g ps → permits_at g ps ≤ free (gate_sem g o).

Lemma fits_app o o' ps qs :
  positive ps → positive qs → taken o o' ps → fits o (qs ++ ps) ↔ fits o ps ∧ fits o' qs.
Proof.
  intros Hps Hqs Ht. unfold fits. split.
  - intros H. split; intros g Hg; specialize (H g); rewrite permits_at_app in H;
      pose proof (permits_at_nonneg g _ Hps); pose proof (permits_at_nonneg g _ Hqs);
      rewrite ?(taken_free _ _ _ Ht); lia.
  - intros [H1 H2] g. rewrite permits_at_app. specialize (H1 g). specialize (H2 g).
    rewrite (taken_free _ _ _ Ht) in H2.
    pose proof (permits_at_nonneg g _ Hps). pose proof (permits_at_nonneg g _ Hqs). lia.
Qed.

Definition idle_queues o : Prop := ∀ g, waiting (gate_sem g o) = [].

(** An attempt that takes the permits [ps], the latest first, and gives a value
    with [P]; or fails holding what it took so far, which with empty queues
    happens only when [valid] does not hold or the permits are not there. *)
Definition attempts {A} (limit : Z) (m : Attempt A) (valid : Prop) (ps : list Permit) (P : A → Prop) : Prop :=
  positive ps ∧
  ∀ held o, scratch_limit_bytes o = limit →
    match m (held, o) with
    | (Ok a, (held', o')) => P a ∧ valid ∧ held' = ps ++ held ∧ taken o o' ps ∧ fits o ps
    | (Err e, (held', o')) =>
        ∃ qs, held' = qs ++ held ∧ taken o o' qs ∧ positive qs ∧
              (idle_queues o → valid → fits o ps → False)
    end.

Lemma attempts_ret {A} limit (a : A) (P : A → Prop) : P a → attempts limit (attempt_ret a) True [] P.
Proof. intros Ha. split; [constructor|]. intros held o _. split_and!; try done. apply taken_refl. Qed.

Lemma attempts_bind {A B} limit (m : Attempt A) (k : A → Attempt B) v1 v2 ps qs P Q :
  attempts limit m v1 ps P → (∀ a, P a → attempts limit (k a) v2 qs Q) → positive qs →
  attempts limit (attempt_bind m k) (v1 ∧ v2) (qs ++ ps) Q.
Proof.
  intros [Hps Hm] Hk Hqs. split; [by apply list.Forall_app_2|]. intros held o Hl. specialize (Hm held o Hl).
  unfold attempt_bind. destruct (m (held, o)) as [[a|e] [held1 o1]].
  - destruct Hm as (Ha & Hv & -> & Ht & Hf). destruct (Hk a Ha) as [_ Hka].
    specialize (Hka (ps ++ held) o1). rewrite (taken_scratch_limit _ _ _ Ht) in Hka. specialize (Hka Hl).
    destruct (k a (ps ++ held, o1)) as [[b|e] [held2 o2]].
    + destruct Hka as (Hb & Hv2 & -> & Ht2 & Hf2). rewrite app_assoc. split_and!; try done.
      * by eapply taken_trans.
      * by apply (fits_app o o1).
    + destruct Hka as (rs & -> & Ht2 & Hrs & Hno). exists (rs ++ ps). rewrite app_assoc. split_and!; try done.
      * by eapply taken_trans.
      * by apply list.Forall_app_2.
      * intros Hi [_ Hv2] Hfit. apply (fits_app o o1) in Hfit as [_ Hfit]; [|done..].
        apply Hno; [|done|done]. intros g. by rewrite (taken_waiting _ _ _ Ht).
  - destruct Hm as (rs & -> & Ht & Hrs & Hno). exists rs. split_and!; try done.
    intros Hi [Hv _] Hfit. apply Hno; [done|done|]. intros g Hg. specialize (Hfit g).
    rewrite permits_at_app in Hfit. pose proof (permits_at_nonneg g _ Hqs). lia.
Qed.

Lemma permits_at_single g g' n :
  permits_at g [{| permit_gate := g'; permit_units := n |}] = if decide (g' = g) then n else 0.
Proof. rewrite permits_at_cons, permits_at_nil. simpl. lia. Qed.

Lemma attempts_acquire limit g n :
  0 < n → attempts limit (try_acquire g n) True [{| permit_gate := g; permit_units := n |}]
            (λ p, p = {| permit_gate := g; permit_units := n |}).
Proof.
  intros Hn. split; [by repeat constructor|]. intros held o _. unfold try_acquire.
  destruct (try_acquire_many_owned n (gate_sem g o)) as [s|e] eqn:E.
  - apply try_acquire_ok in E as (Hle & Hf & Hw). split_and!; try done.
    + split; try done.
      * intros g'. rewrite gate_sem_with_gate, permits_at_single.
        destruct (decide (g' = g)) as [->|]; [rewrite decide_True by done; lia|].
        rewrite decide_False by congruence. lia.
      * intros g'. rewrite gate_sem_with_gate. case_decide; [by subst|done].
    + intros g'. rewrite permits_at_single. destruct (decide (g = g')) as [<-|]; lia.
  - apply try_acquire_err in E as [_ Hno]. exists []. split_and!; try done; [apply taken_refl|constructor|].
    intros Hi _ Hfit. specialize (Hfit g). rewrite permits_at_single, decide_True in Hfit by done.
    specialize (Hno (Hi g)). lia.
Qed.

Lemma attempts_weaken {A} limit (m : Attempt A) v v' ps (P Q : A → Prop) :
  (v ↔ v') → (∀ a, P a → Q a) → attempts limit m v ps P → attempts limit m v' ps Q.
Proof.
  intros Hv HPQ [Hps Hm]. split; [done|]. intros held o Hl. specialize (Hm held o Hl).
  destruct (m (held, o)) as [[a|e] [held1 o1]]; naive_solver.
Qed.

Lemma attempts_guard {A} limit (b : bool) e (m : Attempt A) v ps P :
  attempts limit m v ps P → attempts limit (if b then attempt_fail e else m) (b = false ∧ v) ps P.
Proof.
  intros Hm. destruct b.
  - split; [apply Hm|]. intros held o _. exists []. split_and!; try done; [apply taken_refl|constructor|].
    by intros _ [? _].
  - eapply attempts_weaken; [|done|exact Hm]. naive_solver.
Qed.

Lemma attempts_some limit m v p P :
  attempts limit m v [p] P →
  attempts limit (attempt_some m) v [p] (λ op, ∃ q, op = Some q ∧ P q).
Proof.
  intros Hm. apply (attempts_weaken _ _ (v ∧ True) v _ (λ op, ∃ q, op = Some q ∧ P q)); [tauto|done|].
  eapply (attempts_bind limit m _ v True [p] [] P); [done| |constructor].
  intros a Ha. apply attempts_ret. eauto.
Qed.

Lemma attempts_gate limit request g :
  (units_needed request g = 1) →
  attempts limit (attempt_when (needs request g) (try_acquire_one g)) True
    (option_permits (permit_for request g)) (λ p, p = permit_for request g).
Proof.
  intros Hu. unfold attempt_when. destruct (needs request g) eqn:Hn.
  - eapply attempts_weaken; [reflexivity| |].
    2:{ unfold permit_for. rewrite Hn, Hu. simpl. apply attempts_some, attempts_acquire. lia. }
    intros op (q & -> & ->). unfold permit_for. by rewrite Hn, Hu.
  - unfold permit_for. rewrite Hn. by apply attempts_ret.
Qed.

Definition scratch_valid (limit : Z) (request : PhysicalWorkRequest) : Prop :=
  req_scratch_bytes request ≤ limit ∧ units_needed request GScratch ≤ u32_max.

Lemma attempts_scratch limit request :
  0 ≤ req_scratch_bytes request →
  attempts limit (try_reserve_scratch_inner (req_scratch_bytes request)) (scratch_valid limit request)
    (option_permits (permit_for request GScratch)) (λ p, p = permit_for request GScratch).
Proof.
  intros Hb. set (bytes := req_scratch_bytes request) in *. split.
  { unfold permit_for. case_match eqn:Hn; constructor; [|constructor]. simpl in *.
    apply div_ceil_pos; [|done]. apply negb_true_iff, Z.eqb_neq in Hn. unfold bytes in *. lia. }
  intros held o Hl. unfold try_reserve_scratch_inner. rewrite Hl. unfold scratch_valid. fold bytes.
  destruct (limit <? bytes) eqn:Hlim.
  { exists []. split_and!; try done; [apply taken_refl|constructor|]. apply Z.ltb_lt in Hlim. lia. }
  apply Z.ltb_ge in Hlim. unfold permit_for. simpl. fold bytes. destruct (bytes =? 0) eqn:Hz; simpl.
  - split_and!; try done; [|apply taken_refl]. apply Z.eqb_eq in Hz. by rewrite Hz.
  - destruct (u32_max <? div_ceil bytes SCRATCH_UNIT_BYTES) eqn:Hu.
    { exists []. split_and!; try done; [apply taken_refl|constructor|]. apply Z.ltb_lt in Hu. lia. }
    apply Z.ltb_ge in Hu. apply Z.eqb_neq in Hz.
    assert (0 < div_ceil bytes SCRATCH_UNIT_BYTES) as Hpos by (apply div_ceil_pos; [lia|done]).
    pose proof (attempts_some limit _ _ _ _ (attempts_acquire limit GScratch _ Hpos)) as [_ Ha].
    specialize (Ha held o Hl).
    destruct (attempt_some _ (held, o)) as [[a|e] [held1 o1]]; naive_solver.
Qed.

Definition request_valid (limit : Z) (request : PhysicalWorkRequest) : Prop :=
  scratch_valid limit request ∧ req_parallelism request ≤ u32_max.

(** The permits of an admission, the latest first. *)
Definition permits_for (request : PhysicalWorkRequest) : list Permit :=
  {| permit_gate := GWorkers; permit_units := req_parallelism request |} ::
  option_permits (permit_for request GHeavy) ++ option_permits (permit_for request GCrash) ++
  option_permits (permit_for request GBackground) ++ option_permits (permit_for request GScratch).

Lemma attempts_admission limit request :
  0 ≤ req_scratch_bytes request → 1 ≤ req_parallelism request →
  attempts limit (try_admit_permits request) (request_valid limit request) (permits_for request)
    (λ a, a = admission_for request).
Proof.
  intros Hb Hp.
  assert (∀ g, g = GHeavy ∨ g = GCrash ∨ g = GBackground →
    positive (option_permits (permit_for request g))) as Hpos.
  { intros g Hg. unfold permit_for. case_match; constructor; [|constructor]. simpl.
    destruct Hg as [-> |[-> | ->]]; done. }
  set (worker := {| permit_gate := GWorkers; permit_units := req_parallelism request |}).
  assert (positive [worker]) as Hw by (repeat constructor; simpl; lia).
  pose proof (Hpos GHeavy ltac:(auto)) as H3. pose proof (Hpos GCrash ltac:(auto)) as H2.
  pose proof (Hpos GBackground ltac:(auto)) as H1.
  eapply (attempts_weaken _ _ (scratch_valid limit request ∧ True ∧ True ∧ True ∧
    ((u32_max <? req_parallelism request) = false ∧ True) ∧ True));
    [unfold request_valid; rewrite Z.ltb_ge; tauto|intros a Ha; exact Ha|].
  assert (permits_for request = ((((([] ++ [worker]) ++ option_permits (permit_for request GHeavy)) ++
    option_permits (permit_for request GCrash)) ++ option_permits (permit_for request GBackground)) ++
    option_permits (permit_for request GScratch))) as ->.
  { unfold permits_for. by rewrite <-!app_assoc. }
  unfold try_admit_permits.
  eapply attempts_bind; [by apply attempts_scratch| |by repeat apply list.Forall_app_2]. intros sc ->.
  eapply attempts_bind; [by apply (attempts_gate limit request GBackground)| |by repeat apply list.Forall_app_2].
  intros bg ->.
  eapply attempts_bind; [by apply (attempts_gate limit request GCrash)| |by repeat apply list.Forall_app_2].
  intros cr ->.
  eapply attempts_bind; [by apply (attempts_gate limit request GHeavy)| |by repeat apply list.Forall_app_2].
  intros hv ->.
  eapply attempts_bind; [apply attempts_guard, attempts_acquire; lia| |constructor]. intros p ->.
  by apply attempts_ret.
Qed.

Lemma permits_for_at g request :
  permits_at g (permits_for request) = permits_at g (admission_permits (admission_for request)).
Proof. unfold permits_for. permits_tac. Qed.

(** Whether an admission can be given at once. *)
Definition admissible o (request : PhysicalWorkRequest) : Prop :=
  1 ≤ req_parallelism request ≤ worker_limit o ∧ req_parallelism request ≤ u32_max ∧
  scratch_valid (scratch_limit_bytes o) request ∧
  ∀ g, needs request g = true → units_needed request g ≤ free (gate_sem g o).

Lemma permits_at_option g g' request :
  permits_at g (option_permits (permit_for request g')) =
  if needs request g' then if decide (g' = g) then units_needed request g' else 0 else 0.
Proof. unfold permit_for. destruct (needs request g'); [|done]. apply permits_at_single. Qed.

Lemma admission_permits_at g request :
  permits_at g (admission_permits (admission_for request)) =
  if needs request g then units_needed request g else 0.
Proof.
  unfold admission_permits, admission_for. simpl.
  rewrite !permits_at_app, !permits_at_option, permits_at_single. destruct g; simpl; repeat case_match; try lia; done.
Qed.

Lemma try_admit_spec request o r o' :
  request_typed request → try_admit request o = (r, o') →
  match r with
  | Ok a => a = admission_for request ∧ admissible o request ∧
            ∃ o1, taken o o1 (admission_permits a) ∧ o' = add_active 1 (req_class request) o1
  | Err _ => taken o o' [] ∧ (idle_queues o → ¬ admissible o request)
  end.
Proof.
  intros [[Hb _] [Hp0 _]]. unfold try_admit, admissible.
  destruct (validate_parallelism o _) as [u|e] eqn:Hv.
  2:{ intros [= <- <-]. split; [apply taken_refl|]. intros _ [Hpar _]. revert Hv.
      unfold validate_parallelism, err_if. case_match eqn:E; [|done]. intros _.
      apply orb_true_iff in E as [E%Z.eqb_eq|E%Z.ltb_lt]; lia. }
  unfold validate_parallelism in Hv. ok_inv. assert (1 ≤ req_parallelism request) as Hp1 by lia.
  pose proof (attempts_admission (scratch_limit_bytes o) request Hb Hp1) as [_ Ha].
  specialize (Ha [] o eq_refl).
  destruct (try_admit_permits request ([], o)) as [[a|e] [held o1]]; intros [= <- <-].
  - destruct Ha as (-> & [Hsv Hpu] & _ & Ht & Hf). split_and!; try done; try lia.
    + intros g Hn. specialize (Hf g). rewrite permits_for_at, admission_permits_at, Hn in Hf.
      apply Hf, units_positive; auto.
    + exists o1. split; [|done]. eapply taken_ext; [|exact Ht]. intros g. apply permits_for_at.
  - destruct Ha as (qs & -> & Ht & Hqs & Hno). rewrite app_nil_r. split; [by apply taken_drops|].
    intros Hi (_ & Hpu & Hsv & Hfit). apply Hno; [done|done|]. intros g.
    rewrite permits_for_at, admission_permits_at. destruct (needs request g) eqn:Hn; [|lia]. auto.
Qed.

(** *** Entry points *)

Lemma fresh_none id w : negb (fresh id w) = false → calls w !! id = None.
Proof.
  unfold fresh. rewrite negb_false_iff, andb_true_iff. intros [H%bool_decide_eq_true _]. done.
Qed.

(** A new call, with the permits it starts with taken from the owner. *)
Lemma inv_new_call w w' id c' o' l ps :
  Inv L w → calls w !! id = None → calls w' = partial_alter (λ _, Some c') id (calls w) →
  groups w' = groups w → owner w' = o' →
  taken (owner w) {| workers := workers o'; worker_limit := worker_limit o';
    background := background o'; crash := crash o'; heavy := heavy o'; scratch := scratch o';
    scratch_limit_bytes := scratch_limit_bytes o'; active := l; running := running o' |} ps →
  (∀ g, permits_at g ps ≤ free (gate_sem g (owner w))) →
  (∀ g, held g c' = permits_at g ps) → queued_at c' = None → worker_in c' = None →
  (∀ class, count_mod (active o') class (total (active_in class) (calls w) + active_in class c')) →
  (∀ g, member g c' = 0) → call_ok L (groups w) c' →
  Inv L w'.
Proof.
  intros Hi Hc Hcalls Hg Ho Ht Hle Hh Hq Hr Ha Hm Hok.
  apply (inv_put w w' id (Some c') Hi Hcalls); rewrite ?Ho, ?Hg, ?Hc; simpl; try done.
  - intros g. rewrite Hh. pose proof (taken_free _ _ _ Ht g) as H. destruct g; simpl in *; lia.
  - intros g. specialize (Hle g). pose proof (taken_free _ _ _ Ht g) as H. destruct g; simpl in *; lia.
  - intros g. pose proof (taken_waiting _ _ _ Ht g) as H.
    replace (waiting (gate_sem g o')) with (waiting (gate_sem g (owner w))) by (by destruct g).
    apply queue_put_same; [done|]. by rewrite Hc.
  - intros class. by rewrite Z.sub_0_r.
  - intros class. pose proof (taken_running _ _ _ Ht) as H. simpl in H. rewrite H.
    unfold running_in. rewrite Hr, Z.sub_0_r, Z.add_0_r. apply (inv_running L w Hi).
  - intros g gr Hgr. rewrite Hm, (inv_members L w Hi g gr Hgr). lia.
  - apply (taken_worker_limit _ _ _ Ht).
  - apply (taken_scratch_limit _ _ _ Ht).
  - by intros ? [= <-].
Qed.

(** A failed attempt leaves the owner as it was. *)
Lemma inv_failed_attempt w w' id :
  Inv L w → calls w !! id = None → calls w' = calls w → groups w' = groups w →
  taken (owner w) (owner w') [] → Inv L w'.
Proof.
  intros Hi Hc Hcalls Hg Ht.
  apply (inv_put w w' id None Hi); rewrite ?Hg, ?(taken_active _ _ _ Ht), ?(taken_running _ _ _ Ht); try done.
  - rewrite Hcalls. symmetry. exact (delete_id _ _ Hc).
  - intros g. by rewrite (taken_free _ _ _ Ht), permits_at_nil, Z.sub_0_r, Hc.
  - intros g. rewrite (taken_free _ _ _ Ht), permits_at_nil, Z.sub_0_r. apply (inv_free_nonneg L w Hi).
  - intros g. rewrite (taken_waiting _ _ _ Ht). apply queue_put_same; [done|]. by rewrite Hc.
  - apply (active_same w None id Hi). by rewrite Hc.
  - apply (running_same w None id Hi). by rewrite Hc.
  - intros g gr Hgr. rewrite (inv_members L w Hi g gr Hgr), Hc. simpl. lia.
  - apply (taken_worker_limit _ _ _ Ht).
  - apply (taken_scratch_limit _ _ _ Ht).
Qed.

Lemma try_run_inline_inv id request w w' :
  Inv L w → request_typed request → try_run_inline id request w = Stepped w' → Inv L w'.
Proof.
  intros Hi Hty. unfold try_run_inline. destruct (negb (fresh id w)) eqn:Hf; [done|].
  apply fresh_none in Hf. destruct (try_admit request (owner w)) as [r o'] eqn:Ht.
  pose proof (try_admit_spec request (owner w) r o' Hty Ht) as Hspec. clear Ht.
  destruct r as [a|e]; intros [= <-].
  - destruct Hspec as (-> & (Hpar & _ & Hsv & Hfit) & o1 & Htk & ->).
    destruct (inv_limits L w Hi) as [Hwl Hsl].
    eapply (inv_new_call w _ id _ _ (active o1) (admission_permits (admission_for request)));
      [done|done|reflexivity|reflexivity|reflexivity|by destruct o1|..]; try done.
    + intros g. rewrite admission_permits_at. destruct (needs request g) eqn:Hn; [by apply Hfit|].
      apply (inv_free_nonneg L w Hi).
    + intros class. simpl. rewrite (taken_active _ _ _ Htk).
      apply (count_mod_add _ class (req_class request)), (inv_active L w Hi).
    + split; [done|]. split; [done|]. unfold phase_ok, admission_ok, scratch_ok, parallelism_ok. simpl.
      rewrite <-Hwl, <-Hsl. destruct Hty as [[] _], Hsv. split_and!; try done; lia.
  - destruct Hspec as [Htk _]. by apply (inv_failed_attempt w _ id).
Qed.

Lemma scratch_err_owner bytes held o e held' o' :
  try_reserve_scratch_inner bytes (held, o) = (Err e, (held', o')) → o' = o.
Proof.
  unfold try_reserve_scratch_inner, attempt_some, attempt_bind, try_acquire, attempt_ret.
  repeat case_match; intros; by simplify_eq.
Qed.

Lemma try_reserve_inv id bytes w w' :
  Inv L w → 0 ≤ bytes ≤ u64_max → try_reserve id bytes w = Stepped w' → Inv L w'.
Proof.
  intros Hi Hb. unfold try_reserve. destruct (negb (fresh id w)) eqn:Hf; [done|].
  apply fresh_none in Hf. unfold try_reserve_scratch.
  set (request := foreground Metadata bytes).
  pose proof (attempts_scratch (scratch_limit_bytes (owner w)) request (proj1 Hb)) as [Hpos Ha].
  specialize (Ha [] (owner w) eq_refl). change (req_scratch_bytes request) with bytes in Ha.
  destruct (try_reserve_scratch_inner bytes ([], owner w)) as [[p|e] [held' o']] eqn:E; intros [= <-].
  - destruct Ha as (-> & Hsv & _ & Ht & Hfit). destruct (inv_limits L w Hi) as [Hwl Hsl].
    assert (∀ g, permits_at g (option_permits (permit_for request GScratch)) ≤ free (gate_sem g (owner w))) as Hle.
    { intros g. pose proof (permits_at_nonneg g _ Hpos). pose proof (inv_free_nonneg L w Hi g).
      specialize (Hfit g). lia. }
    eapply (inv_new_call w _ id _ _ (active o') _);
      [done|done|reflexivity|reflexivity|reflexivity|destruct o'; exact Ht|..]; try done.
    + intros class. simpl. rewrite (taken_active _ _ _ Ht), Z.add_0_r. apply (inv_active L w Hi).
    + split; [split; simpl; [lia|split; [done|unfold u64_max; lia]]|]. split; [done|].
      split; [done|]. destruct Hsv. unfold scratch_ok. simpl in *. lia.
  - apply scratch_err_owner in E as ->. apply (inv_failed_attempt w _ id); try done. apply taken_refl.
Qed.

(** *** The remaining steps *)

Lemma inv_new_idle w id c' :
  Inv L w → calls w !! id = None →
  call_permits c' = [] → queued_at c' = None → admission_in c' = None → worker_in c' = None →
  (∀ g, member g c' = 0) → call_ok L (groups w) c' → Inv L (put_call id (Some c') w).
Proof.
  intros Hi Hc Hp Hq Ha Hw Hm Hok. apply (inv_move w _ id (Some c') Hi); try done; rewrite ?Hc; simpl.
  - intros g. unfold held. by rewrite Hp.
  - done.
  - intros class. unfold active_in. by rewrite Ha.
  - intros class. unfold running_in. by rewrite Hw.
  - done.
  - by intros ? [= <-].
Qed.

Lemma inv_outcome id r w : Inv L w → Inv L (put_outcome id r w).
Proof. by intros []. Qed.

Lemma inv_tick dt w w' : Inv L w → tick dt w = Stepped w' → Inv L w'.
Proof. unfold tick. case_match; [done|]. by intros [] [= <-]. Qed.

(** A group's cancellation leaves its count alone. *)
Lemma inv_with_group w g gr b v :
  Inv L w → groups w !! g = Some gr →
  Inv L (with_group g {| g_cancelled := b; g_version := v; g_active_count := g_active_count gr |} w).
Proof.
  intros Hi Hg. destruct Hi. split; try done; simpl.
  - intros g' gr'. destruct (decide (g = g')) as [<-|Hne].
    + rewrite lookup_insert_eq. intros [= <-]. simpl. by apply inv_members0.
    + rewrite lookup_insert_ne by done. apply inv_members0.
  - intros id c Hc. destruct (inv_calls0 id c Hc) as (Ht & Hp & Hph). split; [done|]. split; [|done].
    destruct (c_purpose c) as [g'| | |]; try done.
    destruct (decide (g = g')) as [<-|Hne]; [by rewrite lookup_insert_eq|by rewrite lookup_insert_ne].
Qed.

Lemma new_group_inv g w w' : Inv L w → new_group g w = Stepped w' → Inv L w'.
Proof.
  intros Hi. unfold new_group. destruct (groups w !! g) as [gr|] eqn:Hg; [done|]. intros [= <-].
  destruct Hi. split; try done; simpl.
  - intros g' gr'. destruct (decide (g = g')) as [<-|Hne].
    + rewrite lookup_insert_eq. intros [= <-]. simpl. symmetry. apply total_zero.
      intros id c Hc. destruct (inv_calls0 id c Hc) as (_ & Hp & _). unfold member.
      destruct (c_purpose c) as [g'| | |]; [|done..].
      assert (g' ≠ g) as Hne by (intros ->; rewrite Hg in Hp; by destruct Hp).
      destruct (c_phase c); try done; by rewrite decide_False.
    + rewrite lookup_insert_ne by done. apply inv_members0.
  - intros id c Hc. destruct (inv_calls0 id c Hc) as (Ht & Hp & Hph). split; [done|]. split; [|done].
    destruct (c_purpose c) as [g'| | |]; try done.
    destruct (decide (g = g')) as [<-|Hne]; [by rewrite lookup_insert_eq|by rewrite lookup_insert_ne].
Qed.

Lemma run_in_group_inv id g request deadline w w' :
  Inv L w → request_typed request → run_in_group id g request deadline w = Stepped w' → Inv L w'.
Proof.
  intros Hi Hty. unfold run_in_group. case_match eqn:Hf; [done|]. apply fresh_none in Hf.
  destruct (groups w !! g) as [gr|] eqn:Hg; [|done]. case_match; intros [= <-].
  - by apply inv_outcome.
  - apply inv_new_idle; try done. split; [done|]. split; [by simpl; rewrite Hg|]. unfold phase_ok. simpl. eauto.
Qed.

Lemma admit_inv id request w w' :
  Inv L w → request_typed request → admit_call id request w = Stepped w' → Inv L w'.
Proof.
  intros Hi Hty. unfold admit_call. case_match eqn:Hf; [done|]. apply fresh_none in Hf.
  intros [= <-]. by apply inv_new_idle.
Qed.

Lemma reserve_inv id bytes w w' :
  Inv L w → 0 ≤ bytes ≤ u64_max → reserve_scratch id bytes w = Stepped w' → Inv L w'.
Proof.
  intros Hi Hb. unfold reserve_scratch. case_match eqn:Hf; [done|]. apply fresh_none in Hf.
  intros [= <-]. by apply inv_new_idle.
Qed.

Lemma run_admission_inv id w w' : Inv L w → run_admission id w = Stepped w' → Inv L w'.
Proof.
  intros Hi. unfold run_admission. destruct (calls w !! id) as [c|] eqn:Hc; [|done].
  destruct (c_phase c) eqn:Hph; try done. intros [= <-]. move_call w id Hi Hc Hph. done.
Qed.

Lemma drop_held_inv id w w' : Inv L w → drop_held id w = Stepped w' → Inv L w'.
Proof.
  intros Hi. unfold drop_held. destruct (calls w !! id) as [c|] eqn:Hc; [|done].
  destruct (c_phase c) eqn:Hph; try done; intros [= <-]; move_call w id Hi Hc Hph; [by auto|].
  destruct Hok as [-> Hs]. by apply permit_for_positive.
Qed.

Lemma work_end_inv id b w w' : Inv L w → work_end id b w = Stepped w' → Inv L w'.
Proof.
  intros Hi. unfold work_end. destruct (calls w !! id) as [c|] eqn:Hc; [|done].
  destruct (c_phase c) eqn:Hph; try done. intros [= <-]. move_call w id Hi Hc Hph. auto.
Qed.

Lemma stop_awaiting_inv id c w :
  Inv L w → calls w !! id = Some c → Inv L (put_call id (Some (stop_awaiting c)) w).
Proof.
  intros Hi Hc. apply (inv_move w _ id (Some (stop_awaiting c)) Hi); try done; rewrite ?Hc; try done.
  intros ? [= <-]. by apply (inv_calls L w Hi id c).
Qed.

Lemma physical_exec_inv op w w' : Inv L w → op_typed op → exec op w = Stepped w' → Inv L w'.
Proof.
  intros Hi Hty. destruct op; simpl in *.
  - by apply new_group_inv.
  - by apply run_in_group_inv.
  - by apply admit_inv.
  - by apply reserve_inv.
  - by apply try_reserve_inv.
  - by apply try_run_inline_inv.
  - unfold cancel_store. case_match eqn:Hg; [|done]. intros [= <-]. by apply inv_with_group.
  - unfold cancel_send. case_match eqn:Hg; [|done]. case_match; [|done]. intros [= <-].
    by apply inv_with_group.
  - unfold select_cancelled. case_match eqn:Hc; [|done]. repeat (case_match; try done).
    by eapply drop_admit_inv.
  - unfold deadline_passed. destruct (calls w !! id) as [c|] eqn:Hc; [|done].
    destruct (negb match c_deadline c with Some _ => _ | None => _ end); [done|].
    case_match; [by eapply drop_admit_inv|]. case_match; [|done]. intros [= <-].
    by apply inv_outcome, stop_awaiting_inv.
  - unfold abandon. case_match eqn:Hc; [|done].
    case_match; [by eapply drop_admit_inv|]. case_match; [|done]. intros [= <-].
    by apply stop_awaiting_inv.
  - by apply inv_tick.
  - by apply run_admission_inv.
  - by apply drop_held_inv.
  - by apply work_end_inv.
  - by apply advance_inv.
Qed.

Lemma initial_inv : limits_ok L → Inv L (initial L : World sem).
Proof.
  intros (Hw & Hb & Hcr & Hh & Hs).
  assert (∀ g, 0 ≤ gate_limit L g) as Hlim.
  { intros []; simpl; try lia. unfold div_ceil. change SCRATCH_UNIT_BYTES with 1048576. apply Z.div_pos; lia. }
  assert (∀ g, gate_sem g (owner (initial L : World sem)) = semaphore_new (gate_limit L g)) as Hg
    by (by intros []).
  split.
  - intros g. simpl. rewrite total_empty, Hg, new_free by done. lia.
  - intros g. by rewrite Hg, new_free.
  - intros g. rewrite Hg, new_waiting by done. split; [constructor|]. intros id n. simpl.
    rewrite lookup_empty. set_solver.
  - by intros [].
  - by intros [].
  - intros g gr. simpl. by rewrite lookup_empty.
  - intros id c. simpl. by rewrite lookup_empty.
  - done.
Qed.

Lemma physical_reachable_inv w : limits_ok L → reachable L w → Inv L w.
Proof. intros HL. induction 1; [by apply initial_inv|by eapply physical_exec_inv]. Qed.
End steps.
