(* ===== verification/PhysicalWorkProps.v ===== *)
(** * The promises of physical work admission

    What the rest of the program relies on: the limits of the process hold at
    every moment, immediate admission takes everything or nothing, the order
    of the gates rules out deadlock so that all work completes, and a
    cancelled group that has drained never holds anything again. *)

From S2P Require Import Prelude PhysSemaphore PhysicalWork PhysicalWorkInv.

Section props.
Context {sem : Type} `{!Semaphore sem, !SemaphoreLaws sem} (L : PhysicalWorkLimits).
Implicit Types (w : World sem) (o : Owner sem) (c : Call).

(** ** Capacity *)

(** The sum of [f] over the requests of the calls that have an admission. *)
Definition admitted (f : PhysicalWorkRequest → Z) w : Z :=
  total (λ c, match admission_in c with Some _ => f (c_request c) | None => 0 end) (calls w).

(** The scratch bytes behind admissions and reservations. *)
Definition scratch_in_use w : Z :=
  total (λ c, match c_phase c with
              | Reserved (Some _) => req_scratch_bytes (c_request c)
              | _ => match admission_in c with
                     | Some _ => req_scratch_bytes (c_request c)
                     | None => 0
                     end
              end) (calls w).

Definition indicator (b : bool) : Z := if b then 1 else 0.

Lemma admission_in_ok c a : phase_ok L c → admission_in c = Some a →
  admission_ok L c a ∧ call_permits c = admission_permits a.
Proof.
  unfold phase_ok, admission_in, call_permits. destruct (c_phase c); try done; intros H [= <-]; tauto.
Qed.

Lemma held_admitted g w f :
  Inv L w → (∀ request, needs request g = true → f request ≤ units_needed request g) →
  (∀ request, needs request g = false → f request ≤ 0) →
  admitted f w ≤ gate_limit L g.
Proof.
  intros Hi Hf Hf0. pose proof (inv_free L w Hi g) as Hsum. pose proof (inv_free_nonneg L w Hi g).
  assert (admitted f w ≤ total (held g) (calls w)); [|lia].
  apply total_le. intros id c Hc. pose proof (inv_calls L w Hi id c Hc) as Hok.
  destruct (admission_in c) as [a|] eqn:Ha.
  - destruct (admission_in_ok c a) as [(-> & _) Hp]; [apply Hok|done|].
    unfold held. rewrite Hp, admission_permits_at.
    destruct (needs (c_request c) g) eqn:Hn; [by apply Hf|by apply Hf0].
  - by eapply held_nonneg.
Qed.

Lemma bytes_within_units request :
  0 ≤ req_scratch_bytes request →
  req_scratch_bytes request ≤ (if needs request GScratch then units_needed request GScratch else 0) * SCRATCH_UNIT_BYTES.
Proof.
  intros Hb. simpl. destruct (_ =? 0) eqn:Hz; simpl; [apply Z.eqb_eq in Hz; lia|].
  unfold div_ceil. change SCRATCH_UNIT_BYTES with 1048576.
  pose proof (Z.div_mod (req_scratch_bytes request + 1048576 - 1) 1048576 ltac:(done)).
  pose proof (Z.mod_pos_bound (req_scratch_bytes request + 1048576 - 1) 1048576 ltac:(done)). lia.
Qed.

Lemma scratch_in_use_le w : Inv L w →
  scratch_in_use w ≤ total (λ c, held GScratch c * SCRATCH_UNIT_BYTES) (calls w).
Proof.
  intros Hi. apply total_le. intros id c Hc. pose proof (inv_calls L w Hi id c Hc) as Hok.
  pose proof (held_nonneg L _ GScratch c Hok) as Hnn.
  assert (0 ≤ held GScratch c * SCRATCH_UNIT_BYTES) as Hnn'.
  { change SCRATCH_UNIT_BYTES with 1048576. lia. }
  destruct Hok as (Hty & _ & Hph).
  assert (∀ a, admission_in c = Some a →
    req_scratch_bytes (c_request c) ≤ held GScratch c * SCRATCH_UNIT_BYTES) as Hadm.
  { intros a Ha. destruct (admission_in_ok c a) as [(-> & _) Hp]; [done|done|].
    unfold held. rewrite Hp, admission_permits_at. apply bytes_within_units, Hty. }
  destruct (admission_in c) as [a|] eqn:Ha.
  - unfold admission_in in Ha. destruct (c_phase c) as [| | | | | |[]| | | | | |]; try done; by apply (Hadm a).
  - destruct (c_phase c) as [| | | | | |[p|]| | | | | |] eqn:Hp; try done.
    unfold phase_ok in Hph. rewrite Hp in Hph. destruct Hph as [Hperm _].
    unfold held, call_permits. rewrite Hp. simpl option_permits.
    pose proof (bytes_within_units (c_request c) (proj1 (proj1 Hty))) as Hb.
    unfold permit_for in Hperm. destruct (needs (c_request c) GScratch); [|done].
    injection Hperm as ->. rewrite permits_at_single, decide_True by done. done.
Qed.

Lemma total_scale f k m : total (λ c, f c * k) m = total f m * k.
Proof.
  induction m as [|i c m Hi IH] using map_ind; [by rewrite !total_empty|].
  rewrite !total_insert by done. cbv beta. lia.
Qed.

(** C10: The limits of the process hold in every reachable state: the parallelism of
    the admissions given stays within the workers, at most so many of them are
    background (crash collection, heavy) work, and the scratch memory of
    admissions and reservations together stays within its limit. *)
Theorem capacity_never_exceeded w :
  limits_ok L → (SCRATCH_UNIT_BYTES | limit_scratch_bytes L) → reachable L w →
  admitted req_parallelism w ≤ limit_workers L ∧
  admitted (λ r, indicator (is_background (req_class r))) w ≤ limit_background L ∧
  admitted (λ r, indicator (is_crash (req_class r))) w ≤ limit_crash L ∧
  admitted (λ r, indicator (is_heavy (req_io r))) w ≤ limit_heavy L ∧
  scratch_in_use w ≤ limit_scratch_bytes L.
Proof.
  intros HL [k Hk] Hr. pose proof (physical_reachable_inv L w HL Hr) as Hi.
  split_and!.
  - by apply (held_admitted GWorkers w req_parallelism Hi).
  - apply (held_admitted GBackground w _ Hi); simpl; intros r ->; done.
  - apply (held_admitted GCrash w _ Hi); simpl; intros r ->; done.
  - apply (held_admitted GHeavy w _ Hi); simpl; intros r ->; done.
  - pose proof (scratch_in_use_le w Hi) as H. rewrite total_scale in H.
    pose proof (inv_free L w Hi GScratch) as Hsum. pose proof (inv_free_nonneg L w Hi GScratch).
    simpl in *. unfold div_ceil in Hsum. rewrite Hk in Hsum |- *.
    change SCRATCH_UNIT_BYTES with 1048576 in *.
    replace (k * 1048576 + 1048576 - 1) with (1048575 + k * 1048576) in Hsum by lia.
    rewrite Z.div_add in Hsum by done. change (1048575 `div` 1048576) with 0 in Hsum. lia.
Qed.

(** ** Progress *)

(** The steps that finish what has begun: a call's own next step, the end of
    its work, and its caller using up or dropping what it was given. *)
Definition internal (op : Op) : bool :=
  match op with
  | OpAdvance _ | OpWorkEnd _ _ | OpRunAdmission _ | OpDropHeld _ => true
  | _ => false
  end.

(** A bound on the internal steps a call has left. *)
Definition steps_left (c : Call) : Z :=
  match c_phase c with
  | Entering => 40
  | Registered => 39
  | Subscribing => 38
  | Starting => 37
  | Waiting g queued _ => 20 + 2 * (5 - gate_rank g) + (if queued then 0 else 1)
  | Holding _ => 19
  | Spawned _ => 18
  | Checking _ => 17
  | Working _ => 16
  | Dropping _ _ _ => 15
  | Reserved _ => 10
  | Releasing ps worker _ => 2 + Z.of_nat (length ps) + (if worker then 1 else 0)
  | Leaving _ => 1
  end.

Definition measure w : Z := total steps_left (calls w).

Lemma steps_left_nonneg c : 0 ≤ steps_left c.
Proof. unfold steps_left. destruct (c_phase c) as [| | | |[] []| | | | | |? []|? []|]; simpl; lia. Qed.

Lemma measure_nonneg w : 0 ≤ measure w.
Proof. apply total_nonneg. intros. apply steps_left_nonneg. Qed.

Lemma permit_for_length request g : (length (option_permits (permit_for request g)) ≤ 1)%nat.
Proof. unfold permit_for. case_match; simpl; lia. Qed.

Lemma permit_before_length request g g' :
  (length (option_permits (permit_before request g g')) ≤ 1)%nat.
Proof. unfold permit_before. case_match; [apply permit_for_length|simpl; lia]. Qed.

Lemma locals_length request g : (length (locals_permits (locals_before request g)) ≤ 4)%nat.
Proof.
  unfold locals_permits. simpl. rewrite !length_app.
  pose proof (permit_before_length request g GHeavy). pose proof (permit_before_length request g GBackground).
  pose proof (permit_before_length request g GCrash). pose proof (permit_before_length request g GScratch). lia.
Qed.

Lemma admission_length request : (length (admission_permits (admission_for request)) ≤ 5)%nat.
Proof.
  unfold admission_permits. simpl. rewrite !length_app. simpl.
  pose proof (permit_for_length request GHeavy). pose proof (permit_for_length request GBackground).
  pose proof (permit_for_length request GCrash). pose proof (permit_for_length request GScratch). lia.
Qed.

(** One call moved on and has fewer steps left. *)
Definition moved_on w w' : Prop :=
  ∃ id c oc', calls w !! id = Some c ∧ calls w' = partial_alter (λ _, oc') id (calls w) ∧
              oget steps_left oc' < steps_left c.

Lemma moved_on_phase w w' id c c' o phase :
  calls w !! id = Some c → c_phase c' = phase →
  w' = put_call id (Some c') (with_owner o w) →
  steps_left c' < steps_left c → moved_on w w'.
Proof. intros Hc _ -> Hlt. by exists id, c, (Some c'). Qed.

Ltac moved id c := eexists id, c, _; split_and!; [done|reflexivity|]; unfold steps_left; simpl.

Lemma poll_moves id c g queued l w w' :
  Inv L w → calls w !! id = Some c → c_phase c = Waiting g queued l →
  poll_gate id c g queued l w = Stepped w' → moved_on w w'.
Proof.
  intros Hi Hc Hph. pose proof (inv_calls L w Hi id c Hc) as (_ & _ & Hok).
  unfold phase_ok in Hok. rewrite Hph in Hok. destruct Hok as (-> & _).
  pose proof (locals_length (c_request c) g) as Hlen. unfold poll_gate.
  assert (∀ e w', fail id c e (locals_before (c_request c) g) w = Stepped w' → moved_on w w') as Hfail.
  { intros e w0 [= <-]. moved id c. rewrite Hph. destruct g, queued; simpl in *; lia. }
  destruct queued.
  - destruct (acquire_poll _ _) as [[s|]|]; [|by apply Hfail|done].
    unfold granted, admission_done.
    destruct g; [destruct (is_reserve _)|..|destruct (c_purpose c)]; intros [= <-]; moved id c; rewrite Hph;
      unfold after_scratch, after_background, after_crash; simpl; repeat case_match; simpl; lia.
  - case_match; [by apply Hfail|]. intros [= <-]. moved id c. rewrite Hph. lia.
Qed.

Lemma start_moves id c w w' :
  calls w !! id = Some c → c_phase c = Starting → start id c w = Stepped w' → moved_on w w'.
Proof.
  intros Hc Hph. unfold start, fail.
  repeat case_match; intros [= <-]; moved id c; rewrite Hph; simpl; try lia.
  destruct (after_scratch _); simpl; lia.
Qed.

Lemma leave_moves id c r w w' :
  calls w !! id = Some c → c_phase c = Leaving r → leave id c r w = Stepped w' → moved_on w w'.
Proof.
  intros Hc Hph. unfold leave. repeat (case_match; try done); intros [= <-];
    (exists id, c, None; split_and!; [done|reflexivity|]; simpl; unfold steps_left; rewrite Hph; lia).
Qed.

Lemma advance_moves id w w' : Inv L w → advance id w = Stepped w' → moved_on w w'.
Proof.
  intros Hi. unfold advance. destruct (calls w !! id) as [c|] eqn:Hc; [|done].
  pose proof (inv_calls L w Hi id c Hc) as (_ & _ & Hok). unfold phase_ok in Hok.
  destruct (c_phase c) as [| | | |g q l| | | | | |a worker|ps worker|] eqn:Hph; try done.
  - destruct (c_purpose c); try done. unfold enter. repeat (case_match; try done). intros [= <-].
    moved id c. rewrite Hph. lia.
  - destruct (c_purpose c); try done. unfold recheck. case_match; [|done]. intros [= <-].
    moved id c. rewrite Hph. destruct (g_cancelled _); lia.
  - destruct (c_purpose c); try done. unfold subscribe. case_match; [|done]. intros [= <-].
    moved id c. rewrite Hph. lia.
  - by apply start_moves.
  - by eapply poll_moves.
  - intros [= <-]. moved id c. rewrite Hph. lia.
  - intros [= <-]. moved id c. rewrite Hph. destruct (is_cancelled c w); lia.
  - intros [= <-]. destruct Hok as [[-> _] _]. pose proof (admission_length (c_request c)).
    moved id c. rewrite Hph. destruct worker; lia.
  - unfold release. destruct ps as [|p ps]; [destruct worker|]; intros [= <-]; moved id c; rewrite Hph;
      simpl; try destruct worker; lia.
  - by apply leave_moves.
Qed.

Lemma internal_moves op w w' :
  Inv L w → internal op = true → exec op w = Stepped w' → moved_on w w'.
Proof.
  intros Hi Hop. destruct op; try done; simpl.
  - unfold run_admission. destruct (calls w !! id) as [c|] eqn:Hc; [|done].
    destruct (c_phase c) eqn:Hph; try done. intros [= <-]. moved id c. rewrite Hph. lia.
  - unfold drop_held. destruct (calls w !! id) as [c|] eqn:Hc; [|done].
    destruct (c_phase c) as [| | | | | |p| | | | | |] eqn:Hph; try done; intros [= <-]; moved id c; rewrite Hph;
      [lia|destruct p; simpl; lia].
  - unfold work_end. destruct (calls w !! id) as [c|] eqn:Hc; [|done].
    destruct (c_phase c) eqn:Hph; try done. intros [= <-]. moved id c. rewrite Hph. lia.
  - by apply advance_moves.
Qed.

Lemma moved_on_measure w w' : moved_on w w' → measure w' < measure w.
Proof.
  intros (id & c & oc' & Hc & Hcalls & Hlt). unfold measure. rewrite Hcalls, total_put, Hc. simpl. lia.
Qed.

Lemma moved_on_size w w' : moved_on w w' → (size (calls w') ≤ size (calls w))%nat.
Proof.
  intros (id & c & oc' & Hc & -> & _). rewrite <-!size_dom. apply subseteq_size. intros i.
  rewrite !elem_of_dom, lookup_partial_alter. case_decide as Hd; [subst; by rewrite Hc|done].
Qed.

(** The permits taken before [g]. *)
Lemma locals_before_at g g' request :
  permits_at g (locals_permits (locals_before request g')) =
  if (gate_rank g <? gate_rank g') && needs request g then units_needed request g else 0.
Proof.
  unfold locals_permits. simpl. rewrite !permits_at_app. unfold permit_before.
  destruct g'; simpl; rewrite ?permits_at_option, ?permits_at_nil; destruct g; simpl; repeat case_match; try lia; done.
Qed.

Lemma units_within_limit request g :
  limits_ok L → scratch_ok L request → g = GScratch ∨ parallelism_ok L request →
  units_needed request g ≤ gate_limit L g.
Proof.
  intros (? & ? & ? & ? & ?) Hs Hp. destruct g; simpl; try lia.
  - unfold div_ceil. change SCRATCH_UNIT_BYTES with 1048576. apply Z.div_le_mono; [done|].
    unfold scratch_ok in Hs. lia.
  - destruct Hp as [?|Hp]; [done|]. unfold parallelism_ok in Hp. lia.
Qed.

(** A call waits at the gate, in its queue. *)
Definition waits_at (g : Gate) c : bool :=
  match c_phase c with Waiting g' true _ => bool_decide (g' = g) | _ => false end.

(** When all calls wait, and none beyond the gate [g], the first of its queue
    is served. *)
Lemma front_served g w :
  limits_ok L → Inv L w →
  (∀ id c, calls w !! id = Some c → ∃ g', waits_at g' c = true ∧ gate_rank g' ≤ gate_rank g) →
  waiting (gate_sem g (owner w)) ≠ [] →
  ∃ id w', advance id w = Stepped w'.
Proof.
  intros HL Hi Hall Hne. destruct (waiting (gate_sem g (owner w))) as [|[id n] q] eqn:Hq; [done|].
  assert (free (gate_sem g (owner w)) = gate_limit L g) as Hfree.
  { pose proof (inv_free L w Hi g) as H. rewrite total_zero in H; [lia|].
    intros id' c' Hc'. destruct (Hall id' c' Hc') as (g' & Hw & Hrank). unfold waits_at in Hw.
    pose proof (inv_calls L w Hi id' c' Hc') as (_ & _ & Hok). unfold phase_ok in Hok. unfold held, call_permits.
    destruct (c_phase c') as [| | | |g0 [] l| | | | | | | |]; try done. apply bool_decide_eq_true in Hw as ->.
    destruct Hok as (-> & _). rewrite locals_before_at, (proj2 (Z.ltb_ge _ _)) by done. done. }
  assert ((id, n) ∈ waiting (gate_sem g (owner w))) as Hin by (rewrite Hq; left).
  apply (inv_queue L w Hi g) in Hin. destruct (calls w !! id) as [c|] eqn:Hc; [|done]. simpl in Hin.
  unfold queued_at in Hin. destruct (c_phase c) as [| | | |g0 [] l| | | | | | | |] eqn:Hph; try done.
  injection Hin as -> <-. pose proof (inv_calls L w Hi id c Hc) as (_ & _ & Hok). unfold phase_ok in Hok.
  rewrite Hph in Hok. destruct Hok as (_ & _ & Hs & Hp).
  assert (units_needed (c_request c) g ≤ free (gate_sem g (owner w))) as Hle.
  { rewrite Hfree. apply units_within_limit; [done|done|]. destruct (is_reserve _); [by left|by right]. }
  destruct (poll_front id _ q _ Hq Hle) as [[s|[]] Hpoll]; [|by destruct (poll_open _ _ Hpoll)].
  exists id. unfold advance. rewrite Hc, Hph. unfold poll_gate. rewrite Hpoll.
  unfold granted, admission_done. destruct g; repeat case_match; by eexists.
Qed.

Lemma all_wait_progress w :
  limits_ok L → Inv L w → calls w ≠ ∅ →
  (∀ id c, calls w !! id = Some c → ∃ g, waits_at g c = true) →
  ∃ id w', advance id w = Stepped w'.
Proof.
  intros HL Hi Hne Hall.
  assert (∀ g, waiting (gate_sem g (owner w)) = [] →
    ∀ id c, calls w !! id = Some c → waits_at g c = false) as Hempty.
  { intros g Hg id c Hc. destruct (waits_at g c) eqn:Hw; [|done]. unfold waits_at in Hw.
    destruct (c_phase c) as [| | | |g0 [] l| | | | | | | |] eqn:Hph; try done.
    apply bool_decide_eq_true in Hw as ->.
    assert ((id, units_needed (c_request c) g) ∈ waiting (gate_sem g (owner w))) as Hin.
    { apply (inv_queue L w Hi g). rewrite Hc. simpl. unfold queued_at. by rewrite Hph. }
    rewrite Hg in Hin. set_solver. }
  assert (∀ g, (∀ g', gate_rank g < gate_rank g' → waiting (gate_sem g' (owner w)) = []) →
    waiting (gate_sem g (owner w)) ≠ [] → ∃ id w', advance id w = Stepped w') as Hserve.
  { intros g Hhigh Hq. apply (front_served g); [done|done| |done]. intros id c Hc.
    destruct (Hall id c Hc) as [g' Hw]. exists g'. split; [done|].
    destruct (Z.le_gt_cases (gate_rank g') (gate_rank g)) as [?|Hgt]; [done|].
    specialize (Hhigh g' ltac:(lia)). by rewrite (Hempty g' Hhigh id c Hc) in Hw. }
  destruct (decide (waiting (gate_sem GWorkers (owner w)) = [])) as [H4|H4].
  2: { apply (Hserve GWorkers); [|done]. intros []; simpl; lia. }
  destruct (decide (waiting (gate_sem GHeavy (owner w)) = [])) as [H3|H3].
  2: { apply (Hserve GHeavy); [|done]. intros []; simpl; try lia; done. }
  destruct (decide (waiting (gate_sem GCrash (owner w)) = [])) as [H2|H2].
  2: { apply (Hserve GCrash); [|done]. intros []; simpl; try lia; done. }
  destruct (decide (waiting (gate_sem GBackground (owner w)) = [])) as [H1|H1].
  2: { apply (Hserve GBackground); [|done]. intros []; simpl; try lia; done. }
  apply (Hserve GScratch); [intros []; simpl; try lia; done|]. intros H0.
  destruct (map_choose (calls w) Hne) as (id & c & Hc). destruct (Hall id c Hc) as [[] Hw].
  - by rewrite (Hempty _ H0 id c Hc) in Hw.
  - by rewrite (Hempty _ H1 id c Hc) in Hw.
  - by rewrite (Hempty _ H2 id c Hc) in Hw.
  - by rewrite (Hempty _ H3 id c Hc) in Hw.
  - by rewrite (Hempty _ H4 id c Hc) in Hw.
Qed.

Lemma member_le g c : 0 ≤ member g c ≤ 1.
Proof. unfold member. destruct (c_purpose c), (c_phase c); try case_decide; lia. Qed.

Lemma members_below_size g id c w :
  Inv L w → calls w !! id = Some c → member g c = 0 → total (member g) (calls w) + 1 ≤ Z.of_nat (size (calls w)).
Proof.
  intros Hi Hc Hm. rewrite (total_delete (member g) id), Hc. simpl. rewrite Hm.
  rewrite <-(insert_delete_id (calls w) id c Hc) at 2.
  rewrite map_size_insert_None by apply lookup_delete_eq.
  assert (total (member g) (delete id (calls w)) ≤ Z.of_nat (size (delete id (calls w)))); [|lia].
  generalize (delete id (calls w)). intros m. induction m as [|i c' m Hm' IH] using map_ind.
  - by rewrite total_empty.
  - rewrite total_insert, map_size_insert_None by done. pose proof (member_le g c'). lia.
Qed.

(** A call that is not in a queue takes its next step at once. *)
Lemma unqueued_progress w id c :
  Inv L w → calls w !! id = Some c → (∀ g, waits_at g c = false) →
  Z.of_nat (size (calls w)) ≤ u64_max → ∃ op w', internal op = true ∧ exec op w = Stepped w'.
Proof.
  intros Hi Hc Hw Hsize. pose proof (inv_calls L w Hi id c Hc) as (_ & Hgr & Hok). unfold phase_ok in Hok.
  assert ((∃ w', advance id w = Stepped w') → ∃ op w', internal op = true ∧ exec op w = Stepped w') as Hadv.
  { intros [w' H]. by exists (OpAdvance id), w'. }
  assert (∀ g, c_purpose c = GroupRun g → ∃ gr, groups w !! g = Some gr ∧
    g_active_count gr = total (member g) (calls w)) as Hgroup.
  { intros g Hpu. rewrite Hpu in Hgr. destruct Hgr as [gr Hg]. exists gr. split; [done|].
    by apply (inv_members L w Hi). }
  destruct (c_phase c) as [| | | |g [] l|a|p|a|a|a|a worker r|ps worker r|r] eqn:Hph;
    try (apply Hadv; unfold advance; rewrite Hc, Hph;
         match goal with |- ∃ _, Blocked = _ => fail 1 | _ => idtac end).
  - destruct Hok as [g Hpu]. destruct (Hgroup g Hpu) as (gr & Hg & Hcount). rewrite Hpu.
    unfold enter, checked_add_u64. rewrite Hg.
    pose proof (members_below_size g id c w Hi Hc ltac:(unfold member; by rewrite Hpu, Hph)).
    rewrite (proj2 (Z.leb_le _ _)) by lia. by eexists.
  - destruct Hok as [g Hpu]. destruct (Hgroup g Hpu) as (gr & Hg & _). rewrite Hpu.
    unfold recheck. rewrite Hg. by eexists.
  - destruct Hok as [g Hpu]. destruct (Hgroup g Hpu) as (gr & Hg & _). rewrite Hpu.
    unfold subscribe. rewrite Hg. by eexists.
  - unfold start, fail. repeat case_match; by eexists.
  - specialize (Hw g). unfold waits_at in Hw. rewrite Hph, bool_decide_eq_true_2 in Hw; done.
  - unfold poll_gate, fail. destruct (u32_max <? _); by eexists.
  - exists (OpRunAdmission id). simpl. unfold run_admission. rewrite Hc, Hph. by eexists.
  - exists (OpDropHeld id). simpl. unfold drop_held. rewrite Hc, Hph. by eexists.
  - by eexists.
  - by eexists.
  - exists (OpWorkEnd id false). simpl. unfold work_end. rewrite Hc, Hph. by eexists.
  - by eexists.
  - unfold release. destruct ps, worker; by eexists.
  - unfold leave. destruct (c_purpose c) as [g| | |] eqn:Hpu; [|by eexists..].
    destruct (Hgroup g eq_refl) as (gr & -> & Hcount).
    assert (1 ≤ total (member g) (calls w)) as Hone.
    { transitivity (member g c); [unfold member; by rewrite Hpu, Hph, decide_True|].
      apply (total_ge _ id); [|done]. intros. apply member_le. }
    rewrite (proj2 (Z.eqb_neq _ _)) by lia. by eexists.
Qed.

Lemma progress w :
  limits_ok L → Inv L w → calls w ≠ ∅ → Z.of_nat (size (calls w)) ≤ u64_max →
  ∃ op w', internal op = true ∧ exec op w = Stepped w'.
Proof.
  intros HL Hi Hne Hsize.
  destruct (decide (map_Forall (λ _ c, existsb (λ g, waits_at g c)
    [GScratch; GBackground; GCrash; GHeavy; GWorkers] = true) (calls w))) as [Hall|Hsome].
  - destruct (all_wait_progress w HL Hi Hne) as (id & w' & H); [|by exists (OpAdvance id), w'].
    intros id c Hc. specialize (Hall id c Hc). apply existsb_exists in Hall as (g & _ & Hg). by exists g.
  - apply map_not_Forall in Hsome as (id & c & Hc & Hw); [|solve_decision].
    apply (unqueued_progress w id c); try done. intros g. apply not_true_is_false. intros Hg. apply Hw.
    apply existsb_exists. exists g. split; [destruct g; simpl; tauto|done].
Qed.

Lemma run_internal ops w w' :
  Inv L w → Forall (λ op, internal op = true) ops → run ops w = Stepped w' →
  Inv L w' ∧ (size (calls w') ≤ size (calls w))%nat ∧ measure w' + Z.of_nat (length ops) ≤ measure w.
Proof.
  revert w. induction ops as [|op ops IH]; intros w Hi Hops; simpl.
  - intros [= <-]. split_and!; [done|done|lia].
  - apply list.Forall_cons in Hops as [Hop Hops]. destruct (exec op w) as [| |w1] eqn:E; try done.
    intros Hrun. pose proof (internal_moves op w w1 Hi Hop E) as Hm.
    assert (Inv L w1) as Hi1 by (eapply physical_exec_inv; [done| |done]; by destruct op).
    destruct (IH w1 Hi1 Hops Hrun) as (? & ? & ?). pose proof (moved_on_measure w w1 Hm).
    pose proof (moved_on_size w w1 Hm). split_and!; [done|lia|lia].
Qed.

(** C11: All work completes.  However its steps are scheduled, what has begun runs
    for at most [measure] further steps, and whenever no step is left no call
    is in progress and every permit is free: the order in which an admission
    acquires the gates rules out deadlock. *)
Theorem all_work_completes w ops w' :
  limits_ok L → reachable L w → Z.of_nat (size (calls w)) ≤ u64_max →
  Forall (λ op, internal op = true) ops → run ops w = Stepped w' →
  Z.of_nat (length ops) ≤ measure w ∧
  ((∃ op w'', internal op = true ∧ exec op w' = Stepped w'') ∨
   (calls w' = ∅ ∧ ∀ g, free (gate_sem g (owner w')) = gate_limit L g)).
Proof.
  intros HL Hr Hsize Hops Hrun. pose proof (physical_reachable_inv L w HL Hr) as Hi.
  destruct (run_internal ops w w' Hi Hops Hrun) as (Hi' & Hsize' & Hle).
  pose proof (measure_nonneg w'). split; [lia|].
  destruct (decide (calls w' = ∅)) as [He|Hne].
  - right. split; [done|]. intros g. pose proof (inv_free L w' Hi' g) as H'. rewrite He, total_empty in H'. lia.
  - left. apply progress; [done..|lia].
Qed.

(** ** Groups *)

(** The calls of a cancelled group are still at the door, or on their way out
    with nothing. *)
Definition turned_away (g : Z) w : Prop :=
  (∃ gr, groups w !! g = Some gr ∧ g_cancelled gr = true) ∧
  ∀ id c, calls w !! id = Some c → c_purpose c = GroupRun g →
    c_phase c = Entering ∨ c_phase c = Registered ∨ ∃ r, c_phase c = Leaving r.

(** A step that changes at most the call [id], into one that is turned away too
    if it belongs to the group. *)
Lemma turned_away_put g id oc w w' :
  turned_away g w → calls w' = partial_alter (λ _, oc) id (calls w) →
  (∃ gr, groups w' !! g = Some gr ∧ g_cancelled gr = true) →
  (∀ c, oc = Some c → c_purpose c = GroupRun g →
    c_phase c = Entering ∨ c_phase c = Registered ∨ ∃ r, c_phase c = Leaving r) →
  turned_away g w'.
Proof.
  intros [_ Hall] Hcalls Hg Hoc. split; [done|]. intros id' c. rewrite Hcalls, lookup_partial_alter.
  case_decide; [auto|]. apply Hall.
Qed.

Lemma cancelled_insert g g' gr b v n w :
  groups w !! g = Some gr → g_cancelled gr = true →
  (g' = g → b = true) →
  ∃ gr', <[g' := {| g_cancelled := b; g_version := v; g_active_count := n |}]> (groups w) !! g = Some gr' ∧
         g_cancelled gr' = true.
Proof.
  intros Hg Hc Hb. destruct (decide (g' = g)) as [->|Hne].
  - rewrite lookup_insert_eq. eexists. split; [done|]. simpl. auto.
  - rewrite lookup_insert_ne by done. eauto.
Qed.

Lemma turned_away_calls g w w' :
  turned_away g w → calls w' = calls w →
  (∃ gr, groups w' !! g = Some gr ∧ g_cancelled gr = true) → turned_away g w'.
Proof. intros [_ H] Hc Hg. split; [done|]. by rewrite Hc. Qed.

(** A call whose phase is not among those of a turned-away call is not of the
    group. *)
Ltac other_group Htw Hc Hph :=
  let Hpu := fresh in let H := fresh in
  intros ? [= <-] Hpu; simpl in Hpu;
  pose proof (proj2 Htw _ _ Hc Hpu) as H; rewrite Hph in H;
  exfalso; destruct H as [H|[H|[? H]]]; discriminate H.

Lemma advance_turned_away g id w w' :
  turned_away g w → advance id w = Stepped w' → turned_away g w'.
Proof.
  intros Htw. pose proof Htw as [(gr & Hg & Hcan) _]. unfold advance.
  destruct (calls w !! id) as [c|] eqn:Hc; [|done].
  destruct (c_phase c) as [| | | |g0 q l|a|p|a|a|a|a worker r|ps worker r|r] eqn:Hph; try done.
  - destruct (c_purpose c) as [g0| | |] eqn:Hpu; try done. unfold enter.
    destruct (groups w !! g0) as [gr0|] eqn:Hg0; [|done]. case_match; [|done]. intros [= <-].
    eapply (turned_away_put g id _ w _ Htw); [reflexivity| |].
    + simpl. eapply cancelled_insert; [done|done|]. intros ->. congruence.
    + intros ? [= <-] _. auto.
  - destruct (c_purpose c) as [g0| | |] eqn:Hpu; try done. unfold recheck.
    destruct (groups w !! g0) as [gr0|] eqn:Hg0; [|done]. intros [= <-].
    eapply (turned_away_put g id _ w _ Htw); [reflexivity|by eauto|].
    intros ? [= <-] Hpu'. simpl in Hpu'. assert (gr0 = gr) as -> by congruence. rewrite Hcan. simpl. eauto.
  - destruct (c_purpose c) as [g0| | |] eqn:Hpu; try done. unfold subscribe. case_match; [|done]. intros [= <-].
    eapply (turned_away_put g id _ w _ Htw); [reflexivity|by eauto|]. other_group Htw Hc Hph.
  - unfold start, fail.
    repeat case_match; intros [= <-];
      (eapply (turned_away_put g id _ w _ Htw); [reflexivity|by eauto|other_group Htw Hc Hph]).
  - unfold poll_gate, fail, granted, admission_done.
    repeat (case_match; try done); intros [= <-];
      (eapply (turned_away_put g id _ w _ Htw); [reflexivity|by eauto|other_group Htw Hc Hph]).
  - intros [= <-]. eapply (turned_away_put g id _ w _ Htw); [reflexivity|by eauto|other_group Htw Hc Hph].
  - intros [= <-]. eapply (turned_away_put g id _ w _ Htw); [reflexivity|by eauto|other_group Htw Hc Hph].
  - intros [= <-]. eapply (turned_away_put g id _ w _ Htw); [reflexivity|by eauto|other_group Htw Hc Hph].
  - unfold release. repeat case_match; intros [= <-];
      (eapply (turned_away_put g id _ w _ Htw); [reflexivity|by eauto|other_group Htw Hc Hph]).
  - unfold leave. destruct (c_purpose c) as [g0| | |] eqn:Hpu;
      [destruct (groups w !! g0) as [gr0|] eqn:Hg0; [|done]; case_match; [done|]|..];
      intros [= <-]; (eapply (turned_away_put g id None w _ Htw); [reflexivity| |by intros ?]); simpl; eauto.
    eapply cancelled_insert; [done|done|]. intros ->. congruence.
Qed.

Lemma drop_admit_turned_away g id c r w w' :
  turned_away g w → calls w !! id = Some c → drop_admit id c r w = Stepped w' → turned_away g w'.
Proof.
  intros Htw Hc. pose proof Htw as [Hg _]. unfold drop_admit.
  destruct (c_phase c) as [| | | |g0 [] l| | | | | | | |] eqn:Hph; try done; intros [= <-];
    (eapply (turned_away_put g id _ w _ Htw); [reflexivity|exact Hg|other_group Htw Hc Hph]).
Qed.

Lemma stop_awaiting_turned_away g id c w :
  turned_away g w → calls w !! id = Some c → turned_away g (put_call id (Some (stop_awaiting c)) w).
Proof.
  intros Htw Hc. eapply (turned_away_put g id _ w _ Htw); [reflexivity|apply Htw|].
  intros ? [= <-] Hpu. exact (proj2 Htw _ _ Hc Hpu).
Qed.

Lemma new_call_turned_away g id c o w :
  turned_away g w → c_purpose c ≠ GroupRun g → turned_away g (put_call id (Some c) (with_owner o w)).
Proof.
  intros Htw Hc. eapply (turned_away_put g id _ w _ Htw); [reflexivity|apply Htw|]. by intros ? [= <-] ?.
Qed.

Lemma exec_turned_away g op w w' : turned_away g w → exec op w = Stepped w' → turned_away g w'.
Proof.
  intros Htw. pose proof Htw as [(gr & Hg & Hcan) _].
  destruct op as [g0|id g0 request deadline|id request|id bytes|id bytes|id request|g0|g0|id|id|id|dt|id|id|id b|id]; simpl.
  - unfold new_group. destruct (groups w !! g0) as [gr0|] eqn:Hg0; [done|]. intros [= <-].
    apply (turned_away_calls g w _ Htw); [done|]. simpl. eapply cancelled_insert; [done|done|]. intros ->. congruence.
  - unfold run_in_group. case_match; [done|]. destruct (groups w !! g0) as [gr0|] eqn:Hg0; [|done].
    destruct (g_cancelled gr0) eqn:Hc0; intros [= <-].
    + apply (turned_away_calls g w _ Htw); [done|]. simpl. eauto.
    + apply (new_call_turned_away g id _ (owner w) w Htw). simpl. intros [= ->]. congruence.
  - unfold admit_call. case_match; [done|]. intros [= <-].
    by apply (new_call_turned_away g id _ (owner w) w Htw).
  - unfold reserve_scratch. case_match; [done|]. intros [= <-].
    by apply (new_call_turned_away g id _ (owner w) w Htw).
  - unfold try_reserve. case_match; [done|]. destruct (try_reserve_scratch bytes (owner w)) as [[p|e] o];
      intros [= <-]; [by apply new_call_turned_away|].
    apply (turned_away_calls g w _ Htw); [done|]. simpl. eauto.
  - unfold try_run_inline. case_match; [done|]. destruct (try_admit request (owner w)) as [[p|e] o];
      intros [= <-]; [by apply new_call_turned_away|].
    apply (turned_away_calls g w _ Htw); [done|]. simpl. eauto.
  - unfold cancel_store. destruct (groups w !! g0) as [gr0|] eqn:Hg0; [|done]. intros [= <-].
    apply (turned_away_calls g w _ Htw); [done|]. simpl. by eapply cancelled_insert.
  - unfold cancel_send. destruct (groups w !! g0) as [gr0|] eqn:Hg0; [|done]. case_match; [|done]. intros [= <-].
    apply (turned_away_calls g w _ Htw); [done|]. simpl. by eapply cancelled_insert.
  - unfold select_cancelled. destruct (calls w !! id) as [c|] eqn:Hc; [|done]. repeat (case_match; try done).
    by apply drop_admit_turned_away.
  - unfold deadline_passed. destruct (calls w !! id) as [c|] eqn:Hc; [|done].
    destruct (negb match c_deadline c with Some _ => _ | None => _ end); [done|].
    case_match; [by apply drop_admit_turned_away|]. case_match; [|done]. intros [= <-].
    apply (turned_away_calls g (put_call id (Some (stop_awaiting c)) w)); [|done|simpl; eauto].
    by apply stop_awaiting_turned_away.
  - unfold abandon. destruct (calls w !! id) as [c|] eqn:Hc; [|done].
    case_match; [by apply drop_admit_turned_away|]. case_match; [|done]. intros [= <-].
    by apply stop_awaiting_turned_away.
  - unfold tick. case_match; [done|]. intros [= <-]. by apply (turned_away_calls g w _ Htw); [|simpl; eauto].
  - unfold run_admission. destruct (calls w !! id) as [c|] eqn:Hc; [|done]. destruct (c_phase c) eqn:Hph; try done.
    intros [= <-]. eapply (turned_away_put g id _ w _ Htw); [reflexivity|by eauto|other_group Htw Hc Hph].
  - unfold drop_held. destruct (calls w !! id) as [c|] eqn:Hc; [|done]. destruct (c_phase c) eqn:Hph; try done;
    intros [= <-]; (eapply (turned_away_put g id _ w _ Htw); [reflexivity|by eauto|other_group Htw Hc Hph]).
  - unfold work_end. destruct (calls w !! id) as [c|] eqn:Hc; [|done]. destruct (c_phase c) eqn:Hph; try done.
    intros [= <-]. eapply (turned_away_put g id _ w _ Htw); [reflexivity|by eauto|other_group Htw Hc Hph].
  - by apply advance_turned_away.
Qed.

Lemma run_turned_away g ops w w' : turned_away g w → run ops w = Stepped w' → turned_away g w'.
Proof.
  revert w. induction ops as [|op ops IH]; intros w Htw; simpl; [by intros [= <-]|].
  destruct (exec op w) as [| |w1] eqn:E; try done. apply IH. by eapply exec_turned_away.
Qed.

(** Once a group is cancelled and [drain] has returned, no call of the group
    ever again holds a permit or an admission, whatever happens next: the
    calls still entering are turned away. *)
Theorem drained_group_stays_drained g gr w ops w' id c :
  limits_ok L → reachable L w → groups w !! g = Some gr → g_cancelled gr = true → drained g w = true →
  run ops w = Stepped w' → calls w' !! id = Some c → c_purpose c = GroupRun g →
  call_permits c = [] ∧ admission_in c = None ∧ worker_in c = None.
Proof.
  intros HL Hr Hg Hcan Hd Hrun Hc Hpu. pose proof (physical_reachable_inv L w HL Hr) as Hi.
  assert (turned_away g w) as Htw.
  { split; [by eauto|]. intros id' c' Hc' Hpu'. left. unfold drained in Hd. rewrite Hg in Hd.
    apply Z.eqb_eq in Hd. rewrite (inv_members L w Hi g gr Hg) in Hd.
    assert (member g c' ≤ 0) as Hm.
    { rewrite <-Hd. apply (total_ge _ id'); [|done]. intros. apply member_le. }
    unfold member in Hm. rewrite Hpu' in Hm. destruct (c_phase c'); [done|..];
      rewrite decide_True in Hm by done; lia. }
  destruct (run_turned_away g ops w w' Htw Hrun) as [_ Hall].
  unfold call_permits, admission_in, worker_in.
  destruct (Hall id c Hc Hpu) as [-> |[-> |[r ->]]]; done.
Qed.

(** ** Immediate admission *)

(** Immediate admission takes everything or nothing.  When no one waits it
    succeeds exactly when the request is within the limits and every gate it
    passes has the units; it then takes those units and counts one admission,
    and a failure leaves every gate and counter as they were. *)
Theorem try_admit_all_or_nothing request o r o' :
  request_typed request → idle_queues o → try_admit request o = (r, o') →
  (is_ok r = true ↔ admissible o request) ∧
  (∀ g, free (gate_sem g o') =
        free (gate_sem g o) - if is_ok r && needs request g then units_needed request g else 0) ∧
  active o' = (if is_ok r then fetch_add 1 (req_class request) (active o) else active o) ∧
  running o' = running o.
Proof.
  intros Hty Hidle Ht. pose proof (try_admit_spec request o r o' Hty Ht) as Hspec. destruct r as [a|e].
  - destruct Hspec as (-> & Hadm & o1 & Htk & ->). simpl. split_and!; try done.
    + intros g. rewrite gate_sem_add_active, (taken_free _ _ _ Htk), admission_permits_at. by destruct (needs _ _).
    + by rewrite (taken_active _ _ _ Htk).
    + apply (taken_running _ _ _ Htk).
  - destruct Hspec as [Htk Hno]. simpl. split_and!.
    + split; [done|]. intros H. by destruct (Hno Hidle).
    + intros g. by rewrite (taken_free _ _ _ Htk), permits_at_nil.
    + apply (taken_active _ _ _ Htk).
    + apply (taken_running _ _ _ Htk).
Qed.

(** ** The snapshot *)

Lemma active_le_workers class w :
  Inv L w → 0 ≤ total (active_in class) (calls w) ≤ limit_workers L.
Proof.
  intros Hi. split.
  - apply total_nonneg. intros id c _. unfold active_in. repeat case_match; lia.
  - pose proof (inv_free L w Hi GWorkers) as Hsum. pose proof (inv_free_nonneg L w Hi GWorkers).
    assert (total (active_in class) (calls w) ≤ total (held GWorkers) (calls w)); [|simpl in *; lia].
    apply total_le. intros id c Hc. pose proof (inv_calls L w Hi id c Hc) as Hok. unfold active_in.
    destruct (admission_in c) as [a|] eqn:Ha; [|by eapply held_nonneg].
    destruct (admission_in_ok c a) as [(-> & _ & _ & Hp) Hperm]; [apply Hok|done|].
    unfold held. rewrite Hperm, admission_permits_at. simpl. unfold parallelism_ok in Hp. case_decide; lia.
Qed.

(** A snapshot tells the admissions in being, and, of a gate nobody waits at,
    exactly what the calls leave of its limit. *)
Theorem snapshot_exact class w :
  limits_ok L → limit_workers L ≤ u64_max → reachable L w →
  active_admissions (snapshot class (owner w)) = total (active_in class) (calls w) ∧
  (waiting (workers (owner w)) = [] →
   available_workers (snapshot class (owner w)) = limit_workers L - total (held GWorkers) (calls w)) ∧
  (waiting (scratch (owner w)) = [] →
   available_scratch_bytes (snapshot class (owner w)) =
   (gate_limit L GScratch - total (held GScratch) (calls w)) * SCRATCH_UNIT_BYTES).
Proof.
  intros HL Hmax Hr. pose proof (physical_reachable_inv L w HL Hr) as Hi. split_and!.
  - pose proof (active_le_workers class w Hi). simpl. rewrite (nth_lookup_Some _ _ _ _ (inv_active L w Hi class)).
    apply Z.mod_small. lia.
  - intros Hq. simpl. rewrite available_free by done. pose proof (inv_free L w Hi GWorkers) as H. simpl in H. lia.
  - intros Hq. simpl. rewrite available_free by done. pose proof (inv_free L w Hi GScratch) as H. simpl in H.
    f_equal. lia.
Qed.


(** The expectations of [increment_group_count] and [decrement_group_count]
    hold: no step aborts. *)
Theorem exec_never_aborts op w :
  limits_ok L → reachable L w → Z.of_nat (size (calls w)) ≤ u64_max → exec op w ≠ Aborted.
Proof.
  intros HL Hr Hsize. pose proof (physical_reachable_inv L w HL Hr) as Hi.
  assert (∀ id c r, drop_admit id c r w ≠ Aborted) as Hd.
  { intros id c r. unfold drop_admit. repeat case_match; done. }
  destruct op; simpl; try (unfold new_group, run_in_group, admit_call, reserve_scratch, try_reserve,
    try_run_inline, cancel_store, cancel_send, run_admission, drop_held, work_end, tick;
    repeat case_match; done).
  - unfold select_cancelled. repeat (case_match; try done).
  - unfold deadline_passed. destruct (calls w !! id) as [c|]; [|done].
    destruct (negb match c_deadline c with Some _ => _ | None => _ end); [done|].
    repeat (case_match; try done).
  - unfold abandon. repeat (case_match; try done).
  - unfold advance. destruct (calls w !! id) as [c|] eqn:Hc; [|done].
    destruct (c_phase c) as [| | | |g q l| | | | | |a worker r|ps worker r|r] eqn:Hph; try done.
    + destruct (c_purpose c) as [g| | |] eqn:Hpu; try done. unfold enter, checked_add_u64.
      destruct (groups w !! g) as [gr|] eqn:Hg; [|done].
      pose proof (members_below_size g id c w Hi Hc ltac:(unfold member; by rewrite Hpu, Hph)) as H.
      rewrite <-(inv_members L w Hi g gr Hg) in H. by rewrite (proj2 (Z.leb_le _ _)) by lia.
    + destruct (c_purpose c); try done. unfold recheck. by case_match.
    + destruct (c_purpose c); try done. unfold subscribe. by case_match.
    + unfold start, fail. by repeat case_match.
    + unfold poll_gate, fail, granted, admission_done. by repeat case_match.
    + unfold release. by repeat case_match.
    + unfold leave. destruct (c_purpose c) as [g| | |] eqn:Hpu; try done.
      destruct (groups w !! g) as [gr|] eqn:Hg; [|done].
      assert (1 ≤ g_active_count gr) as Hone.
      { rewrite (inv_members L w Hi g gr Hg). transitivity (member g c);
          [unfold member; by rewrite Hpu, Hph, decide_True|].
        apply (total_ge _ id); [|done]. intros. apply member_le. }
      by rewrite (proj2 (Z.eqb_neq _ _)) by lia.
Qed.
End props.

Section runs.
Context {sem : Type} `{!Semaphore sem} (L : PhysicalWorkLimits).

Lemma reachable_run ops (w w' : World sem) :
  reachable L w → Forall op_typed ops → run ops w = Stepped w' → reachable L w'.
Proof.
  revert w. induction ops as [|op ops IH]; intros w Hr Hops; simpl; [by intros [= <-]|].
  apply list.Forall_cons in Hops as [Hop Hops]. destruct (exec op w) as [| |w1] eqn:E; try done.
  apply IH; [|done]. by eapply reachable_exec.
Qed.
End runs.

(** ** Instances *)

Module Demo.
(** A heavy run of group 1 at work, another waiting for the heavy gate, and a
    direct admission of two workers. *)
Definition ops : list Op :=
  [OpGroup 1;
   OpRun 10 1 (foreground Heavy 3000000) (Some 100); OpRun 11 1 (background_work Heavy 5) None] ++
  replicate 12 (OpAdvance 10) ++ replicate 9 (OpAdvance 11) ++
  [OpAdmit 12 (foreground_parallel Read 0 2)] ++ replicate 3 (OpAdvance 12).

Definition world : World FifoSemaphore :=
  match run ops (initial PROCESS_LIMITS) with Stepped w => w | _ => initial PROCESS_LIMITS end.

(** A cancelled group with a run still entering. *)
Definition door_ops : list Op := [OpGroup 1; OpRun 10 1 (foreground Heavy 3000000) None; OpCancelStore 1].

Definition door : World FifoSemaphore :=
  match run door_ops (initial PROCESS_LIMITS) with Stepped w => w | _ => initial PROCESS_LIMITS end.

Example world_phases :
  (c_phase <$> calls world !! 10, c_phase <$> calls world !! 11, c_phase <$> calls world !! 12) =
  (Some (Working (admission_for (foreground Heavy 3000000))),
   Some (Waiting GHeavy true (locals_before (background_work Heavy 5) GHeavy)),
   Some (Holding (admission_for (foreground_parallel Read 0 2)))).
Proof. vm_compute. reflexivity. Qed.

Lemma limits : limits_ok PROCESS_LIMITS.
Proof. repeat split; vm_compute; discriminate. Qed.

Lemma typed (l : list Op) :
  forallb (λ op, match op with
    | OpRun _ _ r _ | OpAdmit _ r | OpTryInline _ r =>
        (0 <=? req_scratch_bytes r) && (req_scratch_bytes r <=? u64_max) &&
        (0 <=? req_parallelism r) && (req_parallelism r <=? u64_max)
    | OpReserve _ b | OpTryReserve _ b => (0 <=? b) && (b <=? u64_max)
    | _ => true end) l = true → Forall op_typed l.
Proof.
  intros H. apply List.Forall_forall. intros op Hop. rewrite forallb_forall in H. specialize (H op Hop).
  destruct op; simpl; unfold request_typed; try done; ok_inv; lia.
Qed.

Lemma reached : reachable PROCESS_LIMITS world.
Proof.
  apply (reachable_run _ ops (initial PROCESS_LIMITS)); [constructor|by apply typed|vm_compute; reflexivity].
Qed.

Lemma door_reached : reachable PROCESS_LIMITS door.
Proof.
  apply (reachable_run _ door_ops (initial PROCESS_LIMITS)); [constructor|by apply typed|vm_compute; reflexivity].
Qed.
End Demo.

Lemma capacity_never_exceeded_witness :
  admitted req_parallelism Demo.world = 3 ∧ admitted req_parallelism Demo.world ≤ 4.
Proof.
  split; [vm_compute; reflexivity|].
  apply (capacity_never_exceeded PROCESS_LIMITS Demo.world Demo.limits);
    [by exists 512|exact Demo.reached].
Defined.

Definition demo_end : list Op := [OpWorkEnd 10 false] ++ replicate 7 (OpAdvance 10).

Lemma all_work_completes_witness :
  ∃ w', run demo_end Demo.world = Stepped w' ∧ outcomes w' !! 10 = Some (Ok tt) ∧ 8 ≤ measure Demo.world.
Proof.
  eexists. split; [vm_compute; reflexivity|]. split; [vm_compute; reflexivity|].
  eapply (all_work_completes PROCESS_LIMITS Demo.world demo_end _ Demo.limits Demo.reached);
    [vm_compute; discriminate|by repeat constructor|vm_compute; reflexivity].
Defined.

Lemma drained_group_stays_drained_witness :
  ∃ w' c, run [OpAdvance 10] Demo.door = Stepped w' ∧ calls w' !! 10 = Some c ∧ call_permits c = [].
Proof.
  eexists _, _. split; [vm_compute; reflexivity|]. split; [vm_compute; reflexivity|].
  eapply (drained_group_stays_drained PROCESS_LIMITS 1 _ Demo.door [OpAdvance 10] _ 10 _ Demo.limits
    Demo.door_reached); vm_compute; reflexivity.
Defined.

Lemma try_admit_all_or_nothing_witness :
  let o0 : Owner FifoSemaphore := owner_new PROCESS_LIMITS in
  (try_admit (foreground Heavy 5) o0).1 = Ok (admission_for (foreground Heavy 5)) ∧
  free (heavy (try_admit (foreground Heavy 5) o0).2) = 0.
Proof.
  intros o0. split; [vm_compute; reflexivity|].
  destruct (try_admit (foreground Heavy 5) o0) as [r o'] eqn:E.
  destruct (try_admit_all_or_nothing (foreground Heavy 5) o0 r o') as (_ & Hf & _).
  - split; vm_compute; split; discriminate.
  - by intros [].
  - exact E.
  - change (free (gate_sem GHeavy o') = 0). rewrite (Hf GHeavy). assert (r = Ok (admission_for (foreground Heavy 5))) as ->.
    { apply (f_equal fst) in E. by vm_compute in E. }
    vm_compute. reflexivity.
Defined.

Lemma snapshot_exact_witness :
  active_admissions (snapshot Foreground (owner Demo.world)) = 2 ∧
  available_workers (snapshot Foreground (owner Demo.world)) = 4 - 3.
Proof.
  destruct (snapshot_exact PROCESS_LIMITS Foreground Demo.world Demo.limits) as (Ha & Hw & _);
    [vm_compute; discriminate|exact Demo.reached|].
  rewrite Ha, Hw by (vm_compute; reflexivity). split; vm_compute; reflexivity.
Defined.

Lemma exec_never_aborts_witness : exec (OpAdvance 11) Demo.world ≠ Aborted.
Proof.
  apply (exec_never_aborts PROCESS_LIMITS (OpAdvance 11) Demo.world Demo.limits Demo.reached).
  vm_compute. discriminate.
Defined.

(** ** Scoped jobs *)

Section scoped.
Context {T : Type}.
Implicit Types (jobs : list (JobFate T)).

Lemma spawn_ok i failed jobs l :
  spawn_scoped i failed jobs = (false, l) → failed = false ∧ l.*2 = jobs.
Proof.
  revert i failed l. induction jobs as [|job jobs IH]; intros i failed l; simpl; [by intros [= -> <-]|].
  destruct job.
  - by intros [? _]%IH.
  - destruct (spawn_scoped (S i) failed jobs) as [f l'] eqn:E. intros [= -> <-].
    apply IH in E as [? <-]. done.
  - destruct (spawn_scoped (S i) failed jobs) as [f l'] eqn:E. intros [= -> <-].
    apply IH in E as [? <-]. done.
Qed.

Lemma join_ok failed results (l : list (nat * JobFate T)) results' :
  join_scoped failed results l = (false, results') →
  failed = false ∧ ∃ vs, l.*2 = JobReturned <$> vs.
Proof.
  revert failed results. induction l as [|[i job] l IH]; intros failed results; simpl.
  - intros [= -> _]. split; [done|]. by exists [].
  - destruct job as [| |v]; intros [Hf (vs & Hl)]%IH; [done|done|]. split; [done|].
    exists (v :: vs). rewrite !fmap_cons. by f_equal.
Qed.

Lemma spawn_returned i (vs : list T) :
  spawn_scoped i false (JobReturned <$> vs) = (false, imap (λ k v, ((i + k)%nat, JobReturned v)) vs).
Proof.
  revert i. induction vs as [|v vs IH]; intros i; simpl; [done|]. rewrite IH, Nat.add_0_r.
  do 2 f_equal. apply imap_ext. intros k x _. simpl. f_equal. lia.
Qed.

Lemma join_returned i (vs : list T) (known rest : list (option T)) :
  length known = i → length rest = length vs →
  join_scoped false (known ++ rest) (imap (λ k v, ((i + k)%nat, JobReturned v)) vs) =
  (false, known ++ (Some <$> vs)).
Proof.
  revert i known rest. induction vs as [|v vs IH]; intros i known rest Hd Hr; simpl.
  - by destruct rest.
  - destruct rest as [|r rest]; [done|]. rewrite <-Hd, insert_app_r. simpl.
    change (known ++ Some v :: rest) with (known ++ [Some v] ++ rest). rewrite app_assoc.
    rewrite (imap_ext _ (λ k v0, ((S i + k)%nat, JobReturned v0))).
    + rewrite IH; [by rewrite <-app_assoc|rewrite length_app; simpl; lia|simpl in Hr; lia].
    + intros k x _. simpl. f_equal. lia.
Qed.

Lemma mapM_some (vs : list T) : mapM id (Some <$> vs) = Some vs.
Proof. induction vs as [|v vs IH]; [done|]. rewrite fmap_cons. cbn [mapM]. simpl in *. by rewrite IH. Qed.

(** Scoped jobs give their values exactly when there are at most as many as
    admitted workers and every one of them was spawned and returned; the
    values then are in the order of the jobs. *)
Theorem run_scoped_iff workers jobs (vs : list T) :
  run_scoped workers jobs = Ok vs ↔ Z.of_nat (length jobs) ≤ workers ∧ jobs = JobReturned <$> vs.
Proof.
  unfold run_scoped. split.
  - case_match eqn:Hw; [done|]. apply Z.ltb_ge in Hw.
    destruct (spawn_scoped 0 false jobs) as [f l] eqn:Hs.
    destruct (join_scoped f (replicate (length jobs) None) l) as [f' rs] eqn:Hj.
    destruct f'; [done|]. intros Hm. split; [done|].
    pose proof (join_ok _ _ _ _ Hj) as [-> (vs' & Hl)].
    pose proof (spawn_ok _ _ _ _ Hs) as [_ Hl']. rewrite Hl in Hl'. subst jobs.
    rewrite spawn_returned in Hs. injection Hs as <-.
    pose proof (join_returned 0 vs' [] (replicate (length (JobReturned <$> vs')) None) eq_refl) as Hj'.
    rewrite length_replicate, length_fmap in Hj'. specialize (Hj' eq_refl). rewrite !app_nil_l in Hj'.
    rewrite length_fmap in Hj. simpl in Hj', Hj. rewrite Hj' in Hj. injection Hj as <-.
    rewrite mapM_some in Hm. by injection Hm as ->.
  - intros [Hw ->]. rewrite (proj2 (Z.ltb_ge _ _) Hw), spawn_returned.
    pose proof (join_returned 0 vs [] (replicate (length (JobReturned <$> vs)) None) eq_refl) as Hj'.
    rewrite length_replicate, length_fmap in Hj'. specialize (Hj' eq_refl). rewrite !app_nil_l in Hj'.
    rewrite length_fmap, Hj'. simpl. by rewrite mapM_some.
Qed.
End scoped.
