(* ===== verification/McPortablePath.v ===== *)
(** * Portable file names and paths ([core/minecraft/src/portable_path.rs])

    File names that are valid on every platform, in Unicode NFC, and the keys
    by which they collide on case-insensitive file systems.  Normalization and
    case folding of text that is not ASCII come from the
    [unicode-normalization] and [unicode-casefold] crates: the class
    [UnicodeNorm].  A [Path] is the list of its components when it is read and
    its Unix spelling when it is built. *)

From S2P Require Import Prelude RustStr.

Definition MAX_PORTABLE_FILE_NAME_BYTES : Z := 255.
Definition MAX_PORTABLE_FILE_NAME_UTF16_UNITS : Z := 255.
Definition MAX_PORTABLE_RELATIVE_PATH_BYTES : Z := 512.
Definition MAX_PORTABLE_RELATIVE_PATH_UTF16_UNITS : Z := 512.

Definition DISABLED_SUFFIX : string := ".disabled".
Definition MANAGED_CONTENT_EXACT_NAMES : list string := ["axial.content.json"; ".axial-publication"].
Definition MANAGED_CONTENT_PREFIXES : list string :=
  [".axial-content-"; ".axial-pack-"; ".axial-replacement-"].

Inductive PortablePathError := NonUtf8 | Unsafe.

(** [value.nfc().collect()] and [value.case_fold().collect()] of text that is
    not ASCII. *)
Class UnicodeNorm := {
  unicode_nfc : string → string;
  unicode_case_fold : string → string;
}.

(** [encode_utf16().count()]: characters beyond the BMP take two units. *)
Definition utf16_units (ch : string) : Z :=
  match ch with String c _ => if (240 <=? byte_n c)%N then 2 else 1 | "" => 0 end.
Definition utf16_len (s : string) : Z := sum_Z (utf16_units <$> chars s).

(** The bytes of [<>:DQUOTE/\|?*]. *)
Definition is_reserved_byte (c : ascii) : bool :=
  existsb (N.eqb (byte_n c)) [60; 62; 58; 34; 47; 92; 124; 63; 42]%N.

Definition split_last_char (value : string) : option (string * string) :=
  match reverse (chars value) with
  | [] => None
  | last :: prefix => Some (str_concat (reverse prefix), last)
  end.

Definition device_names : list string :=
  ["CON"; "PRN"; "AUX"; "NUL"; "CLOCK$"; "CONIN$"; "CONOUT$"].

(** The superscript digits one, two and three. *)
Definition superscript_digits : list string := bytes <$> [[194; 185]; [194; 178]; [194; 179]]%N.

Definition is_device_basename (basename : string) : bool :=
  if existsb (eq_ignore_ascii_case basename) device_names then true
  else match split_last_char basename with
       | None => false
       | Some (prefix, digit) =>
           (char_is is_digit digit || char_in superscript_digits digit) &&
           (eq_ignore_ascii_case prefix "COM" || eq_ignore_ascii_case prefix "LPT")
       end.

Definition windows_device_name (value : string) : bool :=
  is_device_basename
    (trim_end_matches (char_in ["."; " "]) (hd value (split_on "." value))).

Definition windows_file_name_is_safe (value : string) : bool :=
  negb (is_empty value) &&
  negb (str_eqb value ".") &&
  negb (str_eqb value "..") &&
  sforall (λ c, negb (is_reserved_byte c)) value &&
  negb (existsb is_control (chars value)) &&
  negb (ends_with "." value || ends_with " " value) &&
  negb (windows_device_name value).

Definition validate_file_name (value : string) : result PortablePathError unit :=
  err_if ((MAX_PORTABLE_FILE_NAME_BYTES <? str_len value) ||
          (MAX_PORTABLE_FILE_NAME_UTF16_UNITS <? utf16_len value) ||
          negb (windows_file_name_is_safe value)) Unsafe.

Definition validate_relative_path_bound (value : string) : result PortablePathError unit :=
  err_if ((MAX_PORTABLE_RELATIVE_PATH_BYTES <? str_len value) ||
          (MAX_PORTABLE_RELATIVE_PATH_UTF16_UNITS <? utf16_len value)) Unsafe.

(** A [std::path::Component]; a normal one whose name is not UTF-8 is [Normal None]. *)
Inductive PathComponent :=
| Normal (name : option string)
| OtherComponent.

(** [Path::join] on Unix. *)
Definition path_join (path name : string) : string :=
  if starts_with "/" name then name
  else if is_empty path || ends_with "/" path then path +:+ name
  else path +:+ "/" +:+ name.

Section portable.
Context `{UnicodeNorm}.

Definition nfc (value : string) : string :=
  if is_ascii value then value else unicode_nfc value.

(** A [PortableFileName] and a [PortableRelativePath] are their spellings. *)
Definition file_name_new (value : string) : result PortablePathError string :=
  let spelling := nfc value in
  validate_file_name spelling ;;
  Ok spelling.

Definition file_name_new_exact (value : string) : result PortablePathError string :=
  name ← file_name_new value;
  err_if (negb (str_eqb name value)) Unsafe ;;
  Ok name.

Definition key_from_normalized (value : string) : string :=
  if is_ascii value then to_ascii_lowercase value
  else nfc (unicode_case_fold value).

Definition file_name_key (name : string) : string := key_from_normalized name.

Definition with_suffix (name suffix : string) : result PortablePathError string :=
  file_name_new (name +:+ suffix).

Definition relative_path_new (value : string) : result PortablePathError string :=
  err_if (is_empty value || contains "\" value) Unsafe ;;
  names ← try_map file_name_new (split_on "/" value);
  let spelling := str_join "/" names in
  validate_relative_path_bound spelling ;;
  Ok spelling.

Definition relative_path_new_exact (value : string) : result PortablePathError string :=
  path ← relative_path_new value;
  err_if (negb (str_eqb path value)) Unsafe ;;
  Ok path.

Definition relative_path_from_path (components : list PathComponent) :
    result PortablePathError string :=
  names ← try_map (λ component,
    match component with
    | OtherComponent => Err Unsafe
    | Normal name => name ← ok_or NonUtf8 name; file_name_new name
    end) components;
  err_if (bool_decide (names = [])) Unsafe ;;
  let spelling := str_join "/" names in
  validate_relative_path_bound spelling ;;
  Ok spelling.

Definition join_under (path root : string) : string :=
  fold_left path_join (split_on "/" path) root.

Definition relative_path_key (path : string) : string := key_from_normalized path.

(** [rsplit('/').next()]. *)
Definition file_name (path : string) : string := List.last (split_on "/" path) "".

(** The [while let] loop; every round shortens the text. *)
Fixpoint strip_disabled (fuel : nat) (base : string) : string :=
  match fuel with
  | O => base
  | S fuel =>
      match strip_suffix DISABLED_SUFFIX base with
      | Some enabled => strip_disabled fuel enabled
      | None => base
      end
  end.

Definition managed_content_name_key (name : string) : string :=
  let key := file_name_key name in
  strip_disabled (S (String.length key)) key.

Definition managed_content_name_is_reserved (name : string) : bool :=
  let base := managed_content_name_key name in
  existsb (str_eqb base) MANAGED_CONTENT_EXACT_NAMES ||
  existsb (λ prefix, starts_with prefix base) MANAGED_CONTENT_PREFIXES.
End portable.

(** Text that is already normalized, and no case beyond ASCII. *)
Definition plain_norm : UnicodeNorm := {|
  unicode_nfc value := value;
  unicode_case_fold := to_ascii_lowercase;
|}.

(** ** Laws *)

(** A component that names an entry of its directory and nothing else. *)
Definition plain_component (name : string) : Prop :=
  name ≠ "" ∧ name ≠ "." ∧ name ≠ ".." ∧ no_byte "/" name = true ∧ no_byte "\" name = true ∧
  Forall (λ c, is_control c = false) (chars name).

Lemma reserved_byte_free c s :
  is_reserved_byte c = true →
  sforall (λ c, negb (is_reserved_byte c)) s = true → no_byte c s = true.
Proof.
  intros Hc. apply sforall_impl. intros d Hd. apply negb_true_iff, Ascii.eqb_neq.
  intros ->. by rewrite Hc in Hd.
Qed.

Lemma safe_name_plain name : windows_file_name_is_safe name = true → plain_component name.
Proof.
  unfold windows_file_name_is_safe. rewrite !andb_true_iff, !negb_true_iff.
  intros ((((((He & H1) & H2) & Hr) & Hc) & _) & _).
  apply is_empty_false in He. apply str_eqb_false in H1, H2.
  split_and!; [done|done|done|by apply reserved_byte_free|by apply reserved_byte_free|].
  apply list.Forall_forall. intros c Hin. apply not_true_is_false. intros E.
  assert (existsb is_control (chars name) = true); [|congruence].
  apply existsb_exists. exists c. split; [by apply list_elem_of_In|done].
Qed.

Lemma validate_file_name_safe name u :
  validate_file_name name = Ok u →
  windows_file_name_is_safe name = true ∧ str_len name ≤ 255 ∧ utf16_len name ≤ 255.
Proof.
  unfold validate_file_name, MAX_PORTABLE_FILE_NAME_BYTES, MAX_PORTABLE_FILE_NAME_UTF16_UNITS.
  rewrite err_if_ok, !orb_false_iff, negb_false_iff, !Z.ltb_ge. naive_solver.
Qed.

Definition as_dir (root : string) : string :=
  if is_empty root || ends_with "/" root then root else root +:+ "/".

Lemma path_join_plain root name :
  plain_component name → path_join root name = as_dir root +:+ name.
Proof.
  intros (Hne & _ & _ & Hslash & _). unfold path_join, as_dir.
  destruct name as [|c name]; [done|]. unfold no_byte in Hslash. simpl in Hslash.
  apply andb_true_iff in Hslash as [Hc _]. apply negb_true_iff in Hc.
  assert (starts_with "/" (String c name) = false) as ->.
  { unfold starts_with. cbn [strip_prefix]. by rewrite Ascii.eqb_sym, Hc. }
  destruct (is_empty root || ends_with "/" root); [done|]. by rewrite str_app_assoc.
Qed.

Lemma as_dir_app root name : plain_component name → as_dir (root +:+ name) = root +:+ name +:+ "/".
Proof.
  intros (Hne & _ & _ & Hslash & _). unfold as_dir.
  assert (is_empty (root +:+ name) = false) as -> by (destruct root, name; done).
  destruct (ends_with "/" (root +:+ name)) eqn:E; [|simpl; by rewrite str_app_assoc].
  exfalso. apply ends_with_spec in E as [r Hr].
  assert (∃ n, name = n +:+ "/") as [n ->].
  { clear Hslash. revert r Hr. induction root as [|c root IH]; intros r Hr; simpl in Hr; [by exists r|].
    destruct r as [|d r]; simpl in Hr; injection Hr as -> Hr; [|by apply (IH r)].
    by destruct root, name. }
  unfold no_byte in Hslash. rewrite sforall_app in Hslash. by apply andb_true_iff in Hslash as [_ ?].
Qed.

Lemma join_components root names :
  names ≠ [] → Forall plain_component names →
  fold_left path_join names root = as_dir root +:+ str_join "/" names.
Proof.
  intros Hne Hn. revert root Hne. induction Hn as [|n names Hn Hall IH]; intros root Hne; [done|].
  cbn [fold_left]. rewrite path_join_plain by done.
  destruct names as [|m names]; [done|]. rewrite IH by done.
  rewrite as_dir_app, str_join_cons, !str_app_assoc by done. done.
Qed.

(** *** Stripping [.disabled] *)

Lemma strip_disabled_fuel f1 f2 s :
  (String.length s < f1)%nat → (String.length s < f2)%nat → strip_disabled f1 s = strip_disabled f2 s.
Proof.
  revert f2 s. induction f1 as [|f1 IH]; intros f2 s H1 H2; [lia|].
  destruct f2 as [|f2]; [lia|]. cbn [strip_disabled].
  destruct (strip_suffix DISABLED_SUFFIX s) as [r|] eqn:E; [|done].
  apply strip_suffix_spec in E as ->. rewrite str_app_length in H1, H2. cbn in H1, H2.
  apply IH; lia.
Qed.

Lemma strip_disabled_done f s :
  (String.length s < f)%nat → strip_suffix DISABLED_SUFFIX (strip_disabled f s) = None.
Proof.
  revert s. induction f as [|f IH]; intros s Hf; [lia|]. cbn [strip_disabled].
  destruct (strip_suffix DISABLED_SUFFIX s) as [r|] eqn:E; [|done].
  apply strip_suffix_spec in E as ->. rewrite str_app_length in Hf. cbn in Hf. apply IH. lia.
Qed.

Section laws.
Context `{UnicodeNorm}.

Lemma file_name_new_ok value name :
  file_name_new value = Ok name ↔ name = nfc value ∧ validate_file_name name = Ok tt.
Proof.
  unfold file_name_new. rewrite bind_ok_unit. split; [by intros [? [= <-]]|by intros [-> ?]].
Qed.

Lemma file_name_new_plain value name : file_name_new value = Ok name → plain_component name.
Proof. intros [_ [? _]%validate_file_name_safe]%file_name_new_ok. by apply safe_name_plain. Qed.

Lemma relative_path_new_ok value path :
  relative_path_new value = Ok path →
  ∃ names, Forall2 (λ v n, file_name_new v = Ok n) (split_on "/" value) names ∧
    path = str_join "/" names ∧ split_on "/" path = names ∧ names ≠ [] ∧
    Forall plain_component names ∧ validate_relative_path_bound path = Ok tt.
Proof.
  unfold relative_path_new. intros (_ & (names & Hn%try_map_ok & Hr)%bind_ok)%bind_ok_unit.
  apply bind_ok_unit in Hr as [Hb [= <-]]. exists names.
  assert (names ≠ []) as Hne.
  { intros ->. apply Forall2_nil_inv_r in Hn. by apply (split_on_ne "/" value). }
  assert (Forall plain_component names) as Hp.
  { clear -Hn. induction Hn as [|v n vs ns Hv Hn IH]; constructor; [|done].
    by apply (file_name_new_plain v). }
  split_and!; [done|done| |done|done|done].
  apply (split_on_join "/"); [done|]. eapply list.Forall_impl; [exact Hp|].
  by intros n (_ & _ & _ & ? & _).
Qed.

(** C38: A relative path never leaves the directory it is joined under: each of
    its components is the name of an entry (not empty, not a dot name, free of
    separators and control characters), the joined path is the directory, one
    separator and the path, and its length is bounded. *)
Theorem relative_path_stays_under value path root :
  relative_path_new value = Ok path →
  Forall plain_component (split_on "/" path) ∧
  join_under path root = as_dir root +:+ path ∧ str_len path ≤ 512.
Proof.
  intros (names & _ & Hj & Hs & Hne & Hp & Hb)%relative_path_new_ok.
  split_and!; [by rewrite Hs| |].
  - unfold join_under. rewrite Hs, join_components by done. by rewrite <-Hj.
  - revert Hb. unfold validate_relative_path_bound, MAX_PORTABLE_RELATIVE_PATH_BYTES.
    rewrite err_if_ok, orb_false_iff, !Z.ltb_ge. tauto.
Qed.

(** Normalization settles.  If NFC is idempotent, the spelling of an
    accepted path is itself accepted, as an exact spelling and unchanged. *)
Theorem relative_path_new_settles value path :
  (∀ s, nfc (nfc s) = nfc s) →
  relative_path_new value = Ok path → relative_path_new_exact path = Ok path.
Proof.
  intros Hnfc (names & Hn & Hj & Hs & Hne & Hp & Hb)%relative_path_new_ok.
  unfold relative_path_new_exact, relative_path_new. rewrite Hs.
  assert (try_map file_name_new names = Ok names) as ->.
  { apply try_map_ok. clear -Hn Hnfc. induction Hn as [|v n vs ns Hv Hn IH]; constructor; [|done].
    apply file_name_new_ok in Hv as [-> Hv]. apply file_name_new_ok. by rewrite Hnfc. }
  assert (is_empty path || contains "\" path = false) as ->.
  { apply orb_false_iff. split.
    - subst path. destruct names as [|n names]; [done|]. apply list.Forall_cons in Hp as [(Hn0 & _) _].
      apply is_empty_false. by destruct names as [|m names], n.
    - change (contains (char1 "\") path = false). rewrite contains_byte, negb_false_iff, Hj.
      apply no_byte_join; [done|]. eapply list.Forall_impl; [exact Hp|].
      by intros n (_ & _ & _ & _ & ? & _). }
  simpl. rewrite <-Hj, Hb. simpl. unfold str_eqb. by rewrite String.eqb_refl.
Qed.

(** The collision key of a name that may be disabled any number of times
    carries no [.disabled] suffix: the loop ran to its end. *)
Theorem managed_content_name_key_enabled name :
  ends_with DISABLED_SUFFIX (managed_content_name_key name) = false.
Proof.
  unfold ends_with, managed_content_name_key. rewrite strip_disabled_done; [done|lia].
Qed.

(** Disabling a file does not change whether its name is reserved for
    managed content. *)
Theorem disabling_keeps_reservation name disabled :
  is_ascii name = true → with_suffix name DISABLED_SUFFIX = Ok disabled →
  managed_content_name_is_reserved disabled = managed_content_name_is_reserved name.
Proof.
  intros Ha [-> _]%file_name_new_ok.
  unfold managed_content_name_is_reserved, managed_content_name_key, file_name_key, key_from_normalized, nfc.
  assert (is_ascii (name +:+ DISABLED_SUFFIX) = true) as E by by rewrite is_ascii_app, Ha.
  rewrite E, E, Ha, to_ascii_lowercase_app. set (low := to_ascii_lowercase name).
  change (to_ascii_lowercase DISABLED_SUFFIX) with DISABLED_SUFFIX.
  assert (strip_suffix DISABLED_SUFFIX (low +:+ DISABLED_SUFFIX) = Some low) as Hs
    by by apply strip_suffix_spec.
  cbn [strip_disabled]. rewrite Hs.
  rewrite (strip_disabled_fuel (String.length (low +:+ DISABLED_SUFFIX)) (S (String.length low)) low);
    [done|rewrite str_app_length; cbn; lia|lia].
Qed.
End laws.

(** ** Witnesses *)

Lemma relative_path_stays_under_witness :
  let _ := plain_norm in
  join_under "mods/Sodium.jar" "/games/axial" = "/games/axial/" +:+ "mods/Sodium.jar".
Proof.
  intros U. apply (@relative_path_stays_under U "mods/Sodium.jar" "mods/Sodium.jar" "/games/axial").
  vm_eq.
Defined.

Lemma relative_path_new_settles_witness :
  let _ := plain_norm in relative_path_new_exact "config/a b.toml" = Ok "config/a b.toml".
Proof.
  intros U. apply (@relative_path_new_settles U "config/a b.toml"); [|vm_eq].
  assert (∀ s, @nfc plain_norm s = s) as Hn by (intros s; unfold nfc; simpl; by destruct (is_ascii s)).
  intros s. exact (Hn _).
Defined.

Lemma disabling_keeps_reservation_witness :
  let _ := plain_norm in
  managed_content_name_is_reserved "Axial.Content.JSON.disabled.disabled" =
  managed_content_name_is_reserved "Axial.Content.JSON.disabled".
Proof.
  intros U. apply (@disabling_keeps_reservation U "Axial.Content.JSON.disabled"); vm_eq.
Defined.
