(* ===== verification/AppPortablePath.v ===== *)
(** * The application's portable names ([core/app/src/files/portable.rs])

    The application crate has its own copy of the portable file names of
    [core/minecraft] ([McPortablePath]), without the shortcuts that copy takes
    on ASCII text.  The definitions here translate the application's copy; the
    theorem at the end shows that both accept the same names with the same
    spellings and keys, so that a name one crate admits means the same file
    to the other. *)

From S2P Require Import Prelude RustStr.
From S2P Require McPortablePath.
Import McPortablePath (UnicodeNorm, unicode_nfc, unicode_case_fold, PathComponent, Normal, OtherComponent).

Definition MAX_PORTABLE_FILE_NAME_BYTES : Z := 255.
Definition MAX_PORTABLE_FILE_NAME_UTF16_UNITS : Z := 255.
Definition MAX_PORTABLE_RELATIVE_PATH_BYTES : Z := 512.
Definition MAX_PORTABLE_RELATIVE_PATH_UTF16_UNITS : Z := 512.

Definition DISABLED_SUFFIX : string := ".disabled".
Definition MANAGED_CONTENT_EXACT_NAMES : list string := ["axial.content.json"; ".axial-publication"].
Definition MANAGED_CONTENT_PREFIXES : list string :=
  [".axial-content-"; ".axial-pack-"; ".axial-replacement-"].

Inductive PortablePathError := NonUtf8 | Unsafe.

(** The bytes of [<>:DQUOTE/\|?*]. *)
Definition forbidden_byte (c : ascii) : bool :=
  existsb (N.eqb (byte_n c)) [60; 62; 58; 34; 47; 92; 124; 63; 42]%N.

Definition split_last_char (value : string) : option (string * string) :=
  match reverse (chars value) with
  | [] => None
  | last :: prefix => Some (str_concat (reverse prefix), last)
  end.

Definition windows_device_name (value : string) : bool :=
  let basename := trim_end_matches (char_in ["."; " "]) (hd value (split_on "." value)) in
  if existsb (eq_ignore_ascii_case basename)
       ["CON"; "PRN"; "AUX"; "NUL"; "CLOCK$"; "CONIN$"; "CONOUT$"] then true
  else
    match split_last_char basename with
    | None => false
    | Some (prefix, digit) =>
        (char_is is_digit digit || char_in (bytes <$> [[194; 185]; [194; 178]; [194; 179]]%N) digit) &&
        (eq_ignore_ascii_case prefix "COM" || eq_ignore_ascii_case prefix "LPT")
    end.

Definition validate_file_name (value : string) : result PortablePathError unit :=
  err_if (is_empty value || str_eqb value "." || str_eqb value ".." ||
          (MAX_PORTABLE_FILE_NAME_BYTES <? str_len value) ||
          (MAX_PORTABLE_FILE_NAME_UTF16_UNITS <? McPortablePath.utf16_len value) ||
          sexists forbidden_byte value ||
          existsb is_control (chars value) ||
          (ends_with "." value || ends_with " " value) ||
          windows_device_name value) Unsafe.

Definition validate_relative_path_bound (value : string) : result PortablePathError unit :=
  err_if ((MAX_PORTABLE_RELATIVE_PATH_BYTES <? str_len value) ||
          (MAX_PORTABLE_RELATIVE_PATH_UTF16_UNITS <? McPortablePath.utf16_len value)) Unsafe.

Section portable.
Context `{UnicodeNorm}.

Definition nfc (value : string) : string := unicode_nfc value.

Definition file_name_new (value : string) : result PortablePathError string :=
  let spelling := nfc value in
  validate_file_name spelling ;;
  Ok spelling.

Definition file_name_new_exact (value : string) : result PortablePathError string :=
  name ← file_name_new value;
  err_if (negb (str_eqb name value)) Unsafe ;;
  Ok name.

Definition key_from_normalized (value : string) : string :=
  let folded := unicode_case_fold value in
  unicode_nfc folded.

Definition file_name_key (name : string) : string := key_from_normalized name.

Definition with_suffix (name suffix : string) : result PortablePathError string :=
  file_name_new (name +:+ suffix).

Definition relative_path_new (value : string) : result PortablePathError string :=
  err_if (is_empty value || contains "\" value) Unsafe ;;
  names ← try_map file_name_new (split_on "/" value);
  let spelling := str_join "/" names in
  validate_relative_path_bound spelling ;;
  Ok spelling.

Definition relative_path_new_exact (value : string) : result PortablePathError string :=
  path ← relative_path_new value;
  err_if (negb (str_eqb path value)) Unsafe ;;
  Ok path.

Definition relative_path_from_path (components : list PathComponent) :
    result PortablePathError string :=
  names ← try_map (λ component,
    match component with
    | OtherComponent => Err Unsafe
    | Normal name => name ← ok_or NonUtf8 name; file_name_new name
    end) components;
  err_if (bool_decide (names = [])) Unsafe ;;
  let spelling := str_join "/" names in
  validate_relative_path_bound spelling ;;
  Ok spelling.

Definition relative_path_key (path : string) : string := key_from_normalized path.

(** [rsplit('/').next()]. *)
Definition file_name (path : string) : string := List.last (split_on "/" path) "".

(** The [while let] loop; every round shortens the text. *)
Fixpoint strip_disabled (fuel : nat) (base : string) : string :=
  match fuel with
  | O => base
  | S fuel =>
      match strip_suffix DISABLED_SUFFIX base with
      | Some enabled => strip_disabled fuel enabled
      | None => base
      end
  end.

Definition managed_content_name_key (name : string) : string :=
  let key := file_name_key name in
  strip_disabled (S (String.length key)) key.

Definition managed_content_name_is_reserved (name : string) : bool :=
  let base := managed_content_name_key name in
  existsb (str_eqb base) MANAGED_CONTENT_EXACT_NAMES ||
  existsb (λ prefix, starts_with prefix base) MANAGED_CONTENT_PREFIXES.
End portable.

(** ** Agreement of the two copies *)

(** The Unicode functions leave ASCII text normalized and fold its letters. *)
Class UnicodeNormLaws `{UnicodeNorm} : Prop := {
  nfc_ascii value : is_ascii value = true → unicode_nfc value = value;
  case_fold_ascii value : is_ascii value = true → unicode_case_fold value = to_ascii_lowercase value;
}.

Definition core_error (e : PortablePathError) : McPortablePath.PortablePathError :=
  match e with NonUtf8 => McPortablePath.NonUtf8 | Unsafe => McPortablePath.Unsafe end.

Section agreement.
Context `{UnicodeNormLaws}.

Lemma nfc_agrees value : nfc value = McPortablePath.nfc value.
Proof. unfold nfc, McPortablePath.nfc. destruct (is_ascii value) eqn:E; [by apply nfc_ascii|done]. Qed.

Lemma key_agrees value : key_from_normalized value = McPortablePath.key_from_normalized value.
Proof.
  unfold key_from_normalized, McPortablePath.key_from_normalized. destruct (is_ascii value) eqn:E.
  - rewrite case_fold_ascii by done. apply nfc_ascii. by rewrite is_ascii_lower.
  - apply nfc_agrees.
Qed.

Lemma sexists_negb p s : sexists p s = negb (sforall (λ c, negb (p c)) s).
Proof. done. Qed.

Lemma validate_file_name_agrees value :
  map_err core_error (validate_file_name value) = McPortablePath.validate_file_name value.
Proof.
  unfold validate_file_name, McPortablePath.validate_file_name, McPortablePath.windows_file_name_is_safe, err_if.
  change (McPortablePath.windows_device_name value) with (windows_device_name value).
  change (McPortablePath.is_reserved_byte) with forbidden_byte. rewrite sexists_negb.
  change McPortablePath.MAX_PORTABLE_FILE_NAME_BYTES with MAX_PORTABLE_FILE_NAME_BYTES.
  change McPortablePath.MAX_PORTABLE_FILE_NAME_UTF16_UNITS with MAX_PORTABLE_FILE_NAME_UTF16_UNITS.
  destruct (is_empty value), (str_eqb value "."), (str_eqb value ".."),
    (MAX_PORTABLE_FILE_NAME_BYTES <? str_len value),
    (MAX_PORTABLE_FILE_NAME_UTF16_UNITS <? McPortablePath.utf16_len value),
    (sforall (λ c, negb (forbidden_byte c)) value), (existsb is_control (chars value)),
    (ends_with "." value || ends_with " " value), (windows_device_name value); reflexivity.
Qed.

Lemma map_err_bind {A B} (m : result PortablePathError A) (k : A → result PortablePathError B) :
  map_err core_error (m ≫= k) = map_err core_error m ≫= (λ a, map_err core_error (k a)).
Proof. by destruct m. Qed.

Lemma map_err_err_if b : map_err core_error (err_if b Unsafe) = err_if b McPortablePath.Unsafe.
Proof. by destruct b. Qed.

Lemma try_map_agrees {A B} (f : A → result PortablePathError B) g l :
  (∀ a, map_err core_error (f a) = g a) → map_err core_error (try_map f l) = try_map g l.
Proof.
  intros Hfg. induction l as [|a l IH]; simpl; [done|]. rewrite map_err_bind, Hfg. destruct (g a); simpl; [|done].
  rewrite map_err_bind, IH. by destruct (try_map g l).
Qed.

Lemma file_name_new_agrees value :
  map_err core_error (file_name_new value) = McPortablePath.file_name_new value.
Proof.
  unfold file_name_new, McPortablePath.file_name_new. rewrite map_err_bind, validate_file_name_agrees, nfc_agrees.
  by destruct (McPortablePath.validate_file_name _).
Qed.

Lemma relative_path_new_agrees value :
  map_err core_error (relative_path_new value) = McPortablePath.relative_path_new value.
Proof.
  unfold relative_path_new, McPortablePath.relative_path_new. rewrite map_err_bind, map_err_err_if.
  destruct (err_if _ _); simpl; [|done]. rewrite map_err_bind, (try_map_agrees _ _ _ file_name_new_agrees).
  destruct (try_map _ _) as [names|]; simpl; [|done]. rewrite map_err_bind. unfold validate_relative_path_bound.
  rewrite map_err_err_if. unfold McPortablePath.validate_relative_path_bound.
  change McPortablePath.MAX_PORTABLE_RELATIVE_PATH_BYTES with MAX_PORTABLE_RELATIVE_PATH_BYTES.
  change McPortablePath.MAX_PORTABLE_RELATIVE_PATH_UTF16_UNITS with MAX_PORTABLE_RELATIVE_PATH_UTF16_UNITS.
  by destruct (err_if _ _).
Qed.

(** The application and the core crate agree on portable names: on any text
    both copies give the same name or path or both refuse it for the same
    reason, and the same key by which names collide. *)
Theorem portable_copies_agree value :
  map_err core_error (file_name_new value) = McPortablePath.file_name_new value ∧
  map_err core_error (file_name_new_exact value) = McPortablePath.file_name_new_exact value ∧
  map_err core_error (relative_path_new value) = McPortablePath.relative_path_new value ∧
  map_err core_error (relative_path_new_exact value) = McPortablePath.relative_path_new_exact value ∧
  file_name_key value = McPortablePath.file_name_key value ∧
  managed_content_name_is_reserved value = McPortablePath.managed_content_name_is_reserved value.
Proof.
  split_and!.
  - apply file_name_new_agrees.
  - unfold file_name_new_exact, McPortablePath.file_name_new_exact. rewrite map_err_bind, file_name_new_agrees.
    destruct (McPortablePath.file_name_new value); simpl; [|done]. rewrite map_err_bind, map_err_err_if.
    by destruct (err_if _ _).
  - apply relative_path_new_agrees.
  - unfold relative_path_new_exact, McPortablePath.relative_path_new_exact.
    rewrite map_err_bind, relative_path_new_agrees.
    destruct (McPortablePath.relative_path_new value); simpl; [|done]. rewrite map_err_bind, map_err_err_if.
    by destruct (err_if _ _).
  - apply key_agrees.
  - unfold managed_content_name_is_reserved, McPortablePath.managed_content_name_is_reserved,
      managed_content_name_key, McPortablePath.managed_content_name_key, file_name_key, McPortablePath.file_name_key.
    rewrite key_agrees. done.
Qed.
End agreement.

#[export] Instance plain_norm_laws : @UnicodeNormLaws McPortablePath.plain_norm.
Proof. by split. Qed.

Lemma portable_copies_agree_witness :
  map_err core_error (@file_name_new_exact McPortablePath.plain_norm "sodium-0.6.jar") = Ok "sodium-0.6.jar" ∧
  map_err core_error (@file_name_new_exact McPortablePath.plain_norm "con.jar") =
  @McPortablePath.file_name_new_exact McPortablePath.plain_norm "con.jar".
Proof.
  split; [vm_compute; reflexivity|].
  exact (proj1 (proj2 (@portable_copies_agree McPortablePath.plain_norm plain_norm_laws "con.jar"))).
Defined.
