(* ===== verification/Effect.v ===== *)
(** * Effectful code

    Code that talks to the world and may fail: a function of the world's state
    [W] to a result and the next state.  The asynchronous functions of the
    application are translated with it; an [await] is a step of the world. *)

From S2P Require Import Prelude.

Definition eff (W E A : Type) : Type := W → result E A * W.

#[global] Instance eff_ret W E : MRet (eff W E) := λ A a w, (Ok a, w).
#[global] Instance eff_bind W E : MBind (eff W E) := λ A B k m w,
  match m w with
  | (Ok a, w) => k a w
  | (Err e, w) => (Err e, w)
  end.

(** A computation that does not touch the world. *)
Definition lift {W E A} (r : result E A) : eff W E A := λ w, (r, w).

(** [map_err] and the conversions of [?]. *)
Definition eff_map_err {W E F A} (f : E → F) (m : eff W E A) : eff W F A := λ w,
  match m w with (r, w) => (map_err f r, w) end.

(** The error as a value, for code that inspects it. *)
Definition eff_try {W E F A} (m : eff W E A) : eff W F (result E A) := λ w,
  match m w with (r, w) => (Ok r, w) end.

Fixpoint eff_fold {W E S A} (f : S → A → eff W E S) (s : S) (l : list A) : eff W E S :=
  match l with
  | [] => mret s
  | x :: l => s' ← f s x; eff_fold f s' l
  end.

Section lemmas.
Context {W E : Type}.

Lemma eff_ret_ok {A} (a b : A) (w w' : W) : (mret a : eff W E A) w = (Ok b, w') ↔ a = b ∧ w = w'.
Proof. unfold mret, eff_ret. split; [by intros [= -> ->]|by intros [-> ->]]. Qed.

Lemma eff_bind_ok {A B} (m : eff W E A) (k : A → eff W E B) b w w' :
  (m ≫= k) w = (Ok b, w') ↔ ∃ a w1, m w = (Ok a, w1) ∧ k a w1 = (Ok b, w').
Proof.
  unfold mbind, eff_bind. destruct (m w) as [[a|e] w1]; split.
  - intros Hk. by exists a, w1.
  - by intros (? & ? & [= -> ->] & ?).
  - done.
  - by intros (? & ? & [=] & _).
Qed.

Lemma lift_ok {A} (r : result E A) a (w w' : W) : lift r w = (Ok a, w') ↔ r = Ok a ∧ w = w'.
Proof. unfold lift. split; [by intros [= -> ->]|by intros [-> ->]]. Qed.

(** Running a computation whose first step is known. *)
Lemma eff_bind_run {A B} (m : eff W E A) (k : A → eff W E B) r w w1 :
  m w = (r, w1) → (m ≫= k) w = match r with Ok a => k a w1 | Err e => (Err e, w1) end.
Proof. intros Hm. unfold mbind, eff_bind. rewrite Hm. by destruct r. Qed.

Lemma lift_bind_run {A B} (r : result E A) (k : A → eff W E B) w :
  (lift r ≫= k) w = match r with Ok a => k a w | Err e => (Err e, w) end.
Proof. by destruct r. Qed.

Lemma eff_map_err_ok {F A} (f : F → E) (m : eff W F A) a w w' :
  eff_map_err f m w = (Ok a, w') ↔ m w = (Ok a, w').
Proof. unfold eff_map_err. destruct (m w) as [[x|e] w1]; simpl; split; congruence. Qed.

Lemma eff_try_ok {F A} (m : eff W F A) r w w' : eff_try (F := E) m w = (Ok r, w') → m w = (r, w').
Proof. unfold eff_try. destruct (m w) as [r1 w1]. congruence. Qed.

(** An invariant over the processed prefix holds when the loop succeeds. *)
Lemma eff_fold_inv {S A} (f : S → A → eff W E S) (P : list A → S → Prop) s l s' w w' :
  P [] s →
  (∀ done x t t' v v', P done t → f t x v = (Ok t', v') → P (done ++ [x]) t') →
  eff_fold f s l w = (Ok s', w') → P l s'.
Proof.
  intros H0 Hstep.
  cut (∀ done t v, P done t → eff_fold f t l v = (Ok s', w') → P (done ++ l) s').
  { intros H. apply (H [] s w H0). }
  induction l as [|x l IH]; intros done t v HP; simpl.
  - intros [<- _]%eff_ret_ok. by rewrite app_nil_r.
  - intros (t' & v' & Hf & Hl)%eff_bind_ok. specialize (IH (done ++ [x]) t' v' (Hstep _ _ _ _ _ _ HP Hf) Hl).
    by rewrite <-app_assoc in IH.
Qed.
End lemmas.

(** Turn a successful run into the runs of its parts. *)
Ltac eff_inv :=
  repeat match goal with
  | H : (_ ≫= _) _ = (Ok _, _) |- _ => apply eff_bind_ok in H; destruct H as (? & ? & ? & ?)
  | H : (mret _ : eff _ _ _) _ = (Ok _, _) |- _ => apply eff_ret_ok in H; destruct H; subst
  | H : @lift _ _ _ _ _ = (Ok _, _) |- _ => apply lift_ok in H; destruct H; subst
  | H : @eff_map_err _ _ _ _ _ _ _ = (Ok _, _) |- _ => apply eff_map_err_ok in H
  | H : @eff_try _ _ _ _ _ _ = (Ok _, _) |- _ => apply eff_try_ok in H
  | H : match ?x with _ => _ end _ = (Ok _, _) |- _ =>
      match type of x with
      | (_ * _)%type => first [is_var x; destruct x | destruct x eqn:?]
      end
  end.
