(* ===== verification/ContentModel.v ===== *)
(** * The content model ([core/app/src/content/model.rs])

    Provider-neutral records of the catalog: kinds, canonical identities,
    file references, dependencies and versions, with the operations the
    resolver, the manifest and the provider client share, and the errors of
    the catalog and its transport.  [u64] fields are [Z]; serialisation is not
    modelled. *)

From S2P Require Import Prelude RustStr.

Inductive ContentKind := KindMod | KindModpack | KindResourcePack | KindShaderPack.
Inductive ProviderId := ProviderModrinth.
Inductive DependencyKind := Required | Optional | Incompatible | Embedded.
Inductive ReleaseChannel := Release | Beta | Alpha.

#[global] Instance ContentKind_eq_dec : EqDecision ContentKind.
Proof. solve_decision. Defined.
#[global] Instance ProviderId_eq_dec : EqDecision ProviderId.
Proof. solve_decision. Defined.
#[global] Instance DependencyKind_eq_dec : EqDecision DependencyKind.
Proof. solve_decision. Defined.
#[global] Instance ReleaseChannel_eq_dec : EqDecision ReleaseChannel.
Proof. solve_decision. Defined.

Definition kind_code (kind : ContentKind) : nat :=
  match kind with KindMod => 0 | KindModpack => 1 | KindResourcePack => 2 | KindShaderPack => 3 end.

Definition kind_of_code (code : nat) : option ContentKind :=
  match code with
  | 0%nat => Some KindMod | 1%nat => Some KindModpack
  | 2%nat => Some KindResourcePack | 3%nat => Some KindShaderPack | _ => None
  end.

#[global] Program Instance ContentKind_countable : Countable ContentKind :=
  inj_countable kind_code kind_of_code _.
Next Obligation. by intros []. Qed.

Definition kind_as_str (self : ContentKind) : string :=
  match self with
  | KindMod => "mod"
  | KindModpack => "modpack"
  | KindResourcePack => "resource_pack"
  | KindShaderPack => "shader_pack"
  end.

Definition install_subdir (self : ContentKind) : option string :=
  match self with
  | KindMod => Some "mods"
  | KindResourcePack => Some "resourcepacks"
  | KindShaderPack => Some "shaderpacks"
  | KindModpack => None
  end.

Definition filters_by_loader (self : ContentKind) : bool :=
  match self with KindMod | KindModpack => true | _ => false end.

Definition requires_mod_loader (self : ContentKind) : bool :=
  match self with KindMod => true | _ => false end.

Definition provider_as_str (self : ProviderId) : string :=
  match self with ProviderModrinth => "modrinth" end.

Record LoaderGameFilter := {
  filter_loader : option string;
  filter_game_version : option string;
}.

(** The newtype [CanonicalId(String)]. *)
Definition CanonicalId : Type := string.

Definition for_project (provider : ProviderId) (project_id : string) : CanonicalId :=
  provider_as_str provider +:+ ":" +:+ project_id.

Definition project_id (self : CanonicalId) : string :=
  match split_once ":" self with Some (_, id) => id | None => self end.

Record FileRef := {
  file_url : string;
  file_filename : string;
  file_sha1 : option string;
  file_sha512 : option string;
  file_size : option Z;
  file_primary : bool;
}.

Record ContentDependency := {
  dep_project_id : option string;
  dep_version_id : option string;
  dep_kind : DependencyKind;
}.

#[global] Instance FileRef_eq_dec : EqDecision FileRef.
Proof. solve_decision. Defined.
#[global] Instance ContentDependency_eq_dec : EqDecision ContentDependency.
Proof. solve_decision. Defined.

Definition requires_project (self : ContentDependency) (project_id current_version_id : string) : bool :=
  if bool_decide (dep_kind self ≠ Required) then false
  else match dep_project_id self with
       | Some required_project => str_eqb required_project project_id
       | None => opt_eqb (dep_version_id self) current_version_id
       end.

Definition rejects_required_version (self : ContentDependency)
    (project_id current_version_id candidate_version_id : string) : bool :=
  requires_project self project_id current_version_id &&
  is_some_and (dep_version_id self) (λ required, negb (str_eqb required candidate_version_id)).

Record ContentVersion := {
  version_id : string;
  version_name : string;
  version_number : string;
  version_game_versions : list string;
  version_loaders : list string;
  version_channel : ReleaseChannel;
  version_published : option string;
  version_downloads : Z;
  version_files : list FileRef;
  version_dependencies : list ContentDependency;
}.

Definition primary_file (self : ContentVersion) : option FileRef :=
  let primaries := filter (λ file, file_primary file = true) (version_files self) in
  match primaries, version_files self with
  | [file], _ => Some file
  | [], [file] => Some file
  | _, _ => None
  end.

Record ProjectMetadata := {
  meta_kind : ContentKind;
  meta_title : string;
}.

Record VersionIdentity := {
  ident_provider : ProviderId;
  ident_project_id : string;
  ident_version_id : string;
  ident_game_versions : list string;
  ident_loaders : list string;
  ident_dependencies : list ContentDependency;
  ident_title : option string;
}.

#[global] Instance ContentVersion_eq_dec : EqDecision ContentVersion.
Proof. solve_decision. Defined.

(** The transport's errors ([network/policy.rs]); they carry no provider text. *)
Inductive DownloadError :=
| InvalidUrl | InsecureOrigin | OriginNotAllowed | InvalidPolicy | InvalidChecksum
| RedirectLimit | InvalidRedirect | RedirectMethod | HttpStatus (status : Z)
| Timeout | DownloadCancelled | Network
| EncodedLimitExceeded (limit : Z) | DecodedLimitExceeded (limit : Z)
| UnsupportedEncoding | InvalidEncoding | IncompleteBody | SizeMismatch
| ChecksumMismatch | RequestBodyTooLarge | AllocationFailed.

(** [ContentError] ([content/catalog.rs]); the decoder's own message is dropped. *)
Inductive ContentError :=
| Parse
| Provider (e : DownloadError)
| ProviderMetadataInvalid (message : string)
| Invalid (message : string)
| Unavailable.

#[global] Instance DownloadError_eq_dec : EqDecision DownloadError.
Proof. solve_decision. Defined.
#[global] Instance ContentError_eq_dec : EqDecision ContentError.
Proof. solve_decision. Defined.

(** ** Lemmas *)

Lemma project_id_for_project provider id : project_id (for_project provider id) = id.
Proof. by destruct provider. Qed.

Lemma for_project_inj provider id id' :
  for_project provider id = for_project provider id' → id = id'.
Proof. intros E. by rewrite <-(project_id_for_project provider id), E, project_id_for_project. Qed.

(** A version authorises a file only when there is no choice: the file is its
    only primary, or its only file. *)
Lemma primary_file_spec version file :
  primary_file version = Some file ↔
  filter (λ f, file_primary f = true) (version_files version) = [file] ∨
  version_files version = [file] ∧ file_primary file = false.
Proof.
  unfold primary_file. destruct (filter _ (version_files version)) as [|f [|f' l]] eqn:E; split.
  - destruct (version_files version) as [|g [|g' k]] eqn:F; try done. intros [= <-]. right. split; [done|].
    rewrite filter_cons in E. destruct (decide _) as [|H]; [done|]. by destruct (file_primary g).
  - intros [?|[-> ?]]; done.
  - intros [= <-]. by left.
  - intros [[= <-]|[F P]]; [done|]. rewrite F, filter_cons_False in E; [done|]. by rewrite P.
  - by destruct (version_files version).
  - intros [?|[F P]]; [done|]. rewrite F, filter_cons_False in E; [done|]. by rewrite P.
Qed.

Lemma primary_file_elem version file : primary_file version = Some file → file ∈ version_files version.
Proof.
  intros [E|[-> _]]%primary_file_spec; [|by left].
  assert (file ∈ filter (λ f, file_primary f = true) (version_files version)) as H by (rewrite E; left).
  by apply list_elem_of_filter in H as [_ ?].
Qed.
