(* ===== verification/ContentUrl.v ===== *)
(** * Download destinations ([core/app/src/content/packs.rs])

    The address checks of [validate_download_url]: an HTTPS URL without
    credentials or fragment whose host is a dotted domain name or an address
    outside the special-purpose blocks.  URL parsing ([url::Url]) is a
    parameter; an IPv4 address is its four octets, an IPv6 address its eight
    16-bit segments.  The block list is stated again in CIDR notation, over the
    32-bit value of an address, and both are shown to agree. *)

From S2P Require Import Prelude RustStr ContentModel.
From Stdlib Require Import Btauto.

Record Ipv4Addr := { v4_first : Z; v4_second : Z; v4_third : Z; v4_fourth : Z }.
Record Ipv6Addr := { v6_0 : Z; v6_1 : Z; v6_2 : Z; v6_3 : Z; v6_4 : Z; v6_5 : Z; v6_6 : Z; v6_7 : Z }.

Inductive IpAddr := V4 (address : Ipv4Addr) | V6 (address : Ipv6Addr).
Inductive Host := Domain (domain : string) | HostIpv4 (ip : Ipv4Addr) | HostIpv6 (ip : Ipv6Addr).

(** What the code reads of a parsed [Url]. *)
Record Url := {
  url_scheme : string;
  url_username : string;
  url_password : option string;
  url_fragment : option string;
  url_host : option Host;
}.

Class UrlParser := url_parse : string → option Url.

(** [PackError] ([content/packs.rs]). *)
Inductive PackError :=
| PackInvalid (message : string)
| Unsupported
| TooLarge
| SelectionChanged
| Conflict (destination : string)
| Integrity
| PackCancelled
| Download
| PackProvider.

#[global] Instance PackError_eq_dec : EqDecision PackError.
Proof. solve_decision. Defined.

Definition in_range (lo hi x : Z) : bool := (lo <=? x) && (x <=? hi).

Definition public_ipv4 (address : Ipv4Addr) : bool :=
  let first := v4_first address in
  let second := v4_second address in
  let third := v4_third address in
  negb ((first =? 0)
     || (first =? 10)
     || (first =? 127)
     || (224 <=? first)
     || (first =? 100) && in_range 64 127 second
     || (first =? 169) && (second =? 254)
     || (first =? 172) && in_range 16 31 second
     || (first =? 192) && (second =? 168)
     || (first =? 192) && (second =? 0) && ((third =? 0) || (third =? 2))
     || (first =? 198) && ((second =? 18) || (second =? 19))
     || (first =? 198) && (second =? 51) && (third =? 100)
     || (first =? 203) && (second =? 0) && (third =? 113)).

(** [Ipv6Addr::to_ipv4_mapped]. *)
Definition to_ipv4_mapped (address : Ipv6Addr) : option Ipv4Addr :=
  if (v6_0 address =? 0) && (v6_1 address =? 0) && (v6_2 address =? 0) && (v6_3 address =? 0) &&
     (v6_4 address =? 0) && (v6_5 address =? 65535)
  then Some {| v4_first := Z.shiftr (v6_6 address) 8; v4_second := Z.land (v6_6 address) 255;
               v4_third := Z.shiftr (v6_7 address) 8; v4_fourth := Z.land (v6_7 address) 255 |}
  else None.

Definition public_ipv6 (address : Ipv6Addr) : bool :=
  match to_ipv4_mapped address with
  | Some mapped => public_ipv4 mapped
  | None =>
      (Z.land (v6_0 address) 0xe000 =? 0x2000)
      && negb (v6_0 address =? 0x2002)
      && negb ((v6_0 address =? 0x2001) && ((v6_1 address <=? 0x01ff) || (v6_1 address =? 0x0db8)))
  end.

Definition is_public_ip (address : IpAddr) : bool :=
  match address with
  | V4 address => public_ipv4 address
  | V6 address => public_ipv6 address
  end.

Definition public_host (host : option Host) : bool :=
  match host with
  | Some (HostIpv4 ip) => is_public_ip (V4 ip)
  | Some (HostIpv6 ip) => is_public_ip (V6 ip)
  | Some (Domain domain) =>
      negb (str_eqb domain "localhost") && negb (ends_with ".localhost" domain) &&
      negb (ends_with ".local" domain) && contains "." domain
  | None => false
  end.

Definition validate_download_url `{UrlParser} (raw : string) : result PackError Url :=
  url ← ok_or (PackInvalid "download URL is invalid") (url_parse raw);
  err_if (negb (str_eqb (url_scheme url) "https") || negb (is_empty (url_username url)) ||
          negb (is_none (url_password url)) || negb (is_none (url_fragment url)))
    (PackInvalid "downloads require a public HTTPS URL") ;;
  err_if (negb (public_host (url_host url))) (PackInvalid "download destination is not public") ;;
  Ok url.

(** ** The blocks in CIDR notation *)

Definition v4_value (a : Ipv4Addr) : Z :=
  Z.lor (Z.shiftl (v4_first a) 24) (Z.lor (Z.shiftl (v4_second a) 16)
    (Z.lor (Z.shiftl (v4_third a) 8) (v4_fourth a))).

Definition octet (x : Z) : Prop := 0 ≤ x < 256.
Definition v4_ok (a : Ipv4Addr) : Prop :=
  octet (v4_first a) ∧ octet (v4_second a) ∧ octet (v4_third a) ∧ octet (v4_fourth a).

Definition v4_addr (a b c d : Z) : Ipv4Addr :=
  {| v4_first := a; v4_second := b; v4_third := c; v4_fourth := d |}.

(** An address is in [network/length] when their first [length] bits agree. *)
Definition in_cidr (a : Ipv4Addr) (block : Ipv4Addr * Z) : bool :=
  let shift := 32 - block.2 in
  Z.shiftr (v4_value a) shift =? Z.shiftr (v4_value block.1) shift.

(** "This network", private, shared, loopback, link-local, protocol
    assignments, documentation and benchmarking blocks, then multicast and
    everything above it. *)
Definition special_blocks : list (Ipv4Addr * Z) := [
  (v4_addr 0 0 0 0, 8); (v4_addr 10 0 0 0, 8); (v4_addr 127 0 0 0, 8);
  (v4_addr 100 64 0 0, 10); (v4_addr 169 254 0 0, 16); (v4_addr 172 16 0 0, 12);
  (v4_addr 192 168 0 0, 16); (v4_addr 192 0 0 0, 24); (v4_addr 192 0 2 0, 24);
  (v4_addr 198 18 0 0, 15); (v4_addr 198 51 100 0, 24); (v4_addr 203 0 113 0, 24);
  (v4_addr 224 0 0 0, 4); (v4_addr 240 0 0 0, 4)].

Lemma lor_shiftl_add a b n : 0 ≤ n → 0 ≤ b < 2 ^ n → Z.lor (Z.shiftl a n) b = a * 2 ^ n + b.
Proof.
  intros Hn Hb. rewrite <-Z.add_nocarry_lor; [by rewrite Z.shiftl_mul_pow2|].
  apply Z.bits_inj'. intros i Hi. rewrite Z.land_spec, Z.bits_0, Z.shiftl_spec by done.
  destruct (decide (i < n)) as [Hlt|Hge]; [by rewrite Z.testbit_neg_r by lia|].
  destruct (decide (b = 0)) as [->|Hb0]; [by rewrite Z.bits_0, andb_false_r|].
  assert (Z.log2 b < i); [|by rewrite (Z.bits_above_log2 b i), andb_false_r by lia].
  apply Z.lt_le_trans with n; [|lia]. apply Z.log2_lt_pow2; lia.
Qed.

Lemma v4_value_sum a :
  v4_ok a →
  v4_value a = v4_first a * 16777216 + v4_second a * 65536 + v4_third a * 256 + v4_fourth a.
Proof.
  intros (H1 & H2 & H3 & H4). unfold octet, v4_value in *.
  rewrite (lor_shiftl_add _ (v4_fourth a) 8) by (simpl; lia).
  rewrite (lor_shiftl_add _ _ 16) by (simpl; lia). rewrite (lor_shiftl_add _ _ 24) by (simpl; lia).
  simpl. lia.
Qed.

Lemma in_cidr_iff a net len low :
  v4_ok a → v4_ok net → 0 ≤ len ≤ 32 → v4_value net = low * 2 ^ (32 - len) →
  in_cidr a (net, len) = true ↔ low * 2 ^ (32 - len) ≤ v4_value a < (low + 1) * 2 ^ (32 - len).
Proof.
  intros Ha Hn Hl E. unfold in_cidr. cbn [fst snd]. rewrite Z.eqb_eq, !Z.shiftr_div_pow2, E by lia.
  assert (0 < 2 ^ (32 - len)) by (apply Z.pow_pos_nonneg; lia).
  rewrite Z.div_mul by lia. split.
  - intros Hd. pose proof (Z.mod_pos_bound (v4_value a) (2 ^ (32 - len))).
    pose proof (Z.div_mod (v4_value a) (2 ^ (32 - len))). nia.
  - intros [??]. symmetry. apply Z.div_unique with (v4_value a - low * 2 ^ (32 - len)); lia.
Qed.

Lemma in_cidr_bounds a net len (lo hi : Z) guard :
  v4_ok a → v4_ok net → 0 ≤ len ≤ 32 → v4_value net = lo → 2 ^ (32 - len) = hi - lo →
  lo = lo / (hi - lo) * (hi - lo) →
  (guard = true ↔ lo ≤ v4_first a * 16777216 + v4_second a * 65536 + v4_third a * 256 + v4_fourth a < hi) →
  in_cidr a (net, len) = guard.
Proof.
  intros Ha Hn Hl Hv Hp Hd Hg. apply eq_iff_eq_true. rewrite Hg, <-v4_value_sum by done.
  rewrite (in_cidr_iff a net len (lo / (hi - lo))) by (done || rewrite Hp; lia).
  rewrite Hp. nia.
Qed.

Ltac octets := repeat split; vm_compute; congruence.

(** [in_cidr a block] is the given guard, by the interval the block covers. *)
Ltac cidr lo hi :=
  apply (in_cidr_bounds _ _ _ lo hi);
  [done|octets|lia|reflexivity|reflexivity|reflexivity
  |rewrite ?andb_true_iff, ?orb_true_iff, ?andb_true_iff, ?Z.eqb_eq, ?Z.leb_le; lia].

Section blocks.
Context (a : Ipv4Addr) (Ha : v4_ok a).
Let H1 : 0 ≤ v4_first a < 256 := proj1 Ha.
Let H2 : 0 ≤ v4_second a < 256 := proj1 (proj2 Ha).
Let H3 : 0 ≤ v4_third a < 256 := proj1 (proj2 (proj2 Ha)).
Let H4 : 0 ≤ v4_fourth a < 256 := proj2 (proj2 (proj2 Ha)).

Lemma cidr_8 x : octet x → in_cidr a (v4_addr x 0 0 0, 8) = (v4_first a =? x).
Proof.
  intros Hx. unfold octet in Hx. apply (in_cidr_bounds _ _ _ (x * 16777216) ((x + 1) * 16777216)); [done| |lia| | | |].
  - by repeat split; simpl; try lia.
  - rewrite v4_value_sum; [simpl; lia|]. by repeat split; simpl; try lia.
  - simpl. lia.
  - replace ((x + 1) * 16777216 - x * 16777216) with 16777216 by lia. by rewrite Z.div_mul by lia.
  - rewrite Z.eqb_eq. lia.
Qed.

Lemma cidr_100_64 : in_cidr a (v4_addr 100 64 0 0, 10) = (v4_first a =? 100) && in_range 64 127 (v4_second a).
Proof. unfold in_range. cidr 1681915904 1686110208. Qed.
Lemma cidr_169_254 : in_cidr a (v4_addr 169 254 0 0, 16) = (v4_first a =? 169) && (v4_second a =? 254).
Proof. cidr 2851995648 2852061184. Qed.
Lemma cidr_172_16 : in_cidr a (v4_addr 172 16 0 0, 12) = (v4_first a =? 172) && in_range 16 31 (v4_second a).
Proof. unfold in_range. cidr 2886729728 2887778304. Qed.
Lemma cidr_192_168 : in_cidr a (v4_addr 192 168 0 0, 16) = (v4_first a =? 192) && (v4_second a =? 168).
Proof. cidr 3232235520 3232301056. Qed.
Lemma cidr_24 x y z : octet x → octet y → octet z →
  in_cidr a (v4_addr x y z 0, 24) = (v4_first a =? x) && (v4_second a =? y) && (v4_third a =? z).
Proof.
  intros Hx Hy Hz. unfold octet in *. set (lo := x * 16777216 + y * 65536 + z * 256).
  apply (in_cidr_bounds _ _ _ lo (lo + 256)); [done| |lia| | | |].
  - by repeat split; simpl; try lia.
  - rewrite v4_value_sum; [simpl; lia|]. by repeat split; simpl; try lia.
  - simpl. lia.
  - replace (lo + 256 - lo) with 256 by lia. unfold lo.
    replace (x * 16777216 + y * 65536 + z * 256) with ((x * 65536 + y * 256 + z) * 256) by lia.
    by rewrite Z.div_mul by lia.
  - unfold lo. rewrite !andb_true_iff, !Z.eqb_eq. lia.
Qed.
Lemma cidr_198_18 :
  in_cidr a (v4_addr 198 18 0 0, 15) = (v4_first a =? 198) && ((v4_second a =? 18) || (v4_second a =? 19)).
Proof. cidr 3323068416 3323199488. Qed.
Lemma cidr_224 :
  in_cidr a (v4_addr 224 0 0 0, 4) || in_cidr a (v4_addr 240 0 0 0, 4) = (224 <=? v4_first a).
Proof.
  assert (in_cidr a (v4_addr 224 0 0 0, 4) = in_range 224 239 (v4_first a)) as ->
    by (unfold in_range; cidr 3758096384 4026531840).
  assert (in_cidr a (v4_addr 240 0 0 0, 4) = (240 <=? v4_first a)) as -> by (cidr 4026531840 4294967296).
  unfold in_range. lia.
Qed.
End blocks.

(** Every guard of the address check is the membership in one block, so the
    check admits exactly the addresses outside all of them. *)
Lemma public_ipv4_iff_no_special_block a :
  v4_ok a → public_ipv4 a = negb (existsb (in_cidr a) special_blocks).
Proof.
  intros Ha. unfold special_blocks. cbn [existsb]. rewrite !cidr_8 by (done || unfold octet; lia).
  rewrite !cidr_24 by (done || unfold octet; lia).
  rewrite cidr_100_64, cidr_169_254, cidr_172_16, cidr_192_168, cidr_198_18 by done.
  rewrite orb_false_r, cidr_224 by done. unfold public_ipv4.
  repeat match goal with |- context [?x =? ?y] => generalize (x =? y); intros ? end.
  generalize (in_range 64 127 (v4_second a)), (in_range 16 31 (v4_second a)), (224 <=? v4_first a).
  intros. btauto.
Qed.

(** ** IPv6 and the whole check *)

Definition segment (x : Z) : Prop := 0 ≤ x < 65536.
Definition v6_ok (a : Ipv6Addr) : Prop :=
  Forall segment [v6_0 a; v6_1 a; v6_2 a; v6_3 a; v6_4 a; v6_5 a; v6_6 a; v6_7 a].

Lemma global_unicast_mask x : segment x → Z.land x 0xe000 = 0x2000 ↔ 8192 ≤ x < 16384.
Proof.
  intros Hx. unfold segment in Hx.
  assert (Z.land x 0xe000 = Z.shiftl (Z.shiftr x 13) 13) as ->.
  { apply Z.bits_inj'. intros i Hi. rewrite Z.land_spec, Z.shiftl_spec by done.
    destruct (decide (i < 13)) as [Hlt|Hge].
    { rewrite (Z.testbit_neg_r (Z.shiftr x 13)) by lia. change 57344 with (Z.shiftl 7 13).
      by rewrite Z.shiftl_spec_low, andb_false_r by done. }
    rewrite Z.shiftr_spec by lia. replace (i - 13 + 13) with i by lia.
    change 57344 with (Z.shiftl 7 13). rewrite Z.shiftl_spec by lia.
    destruct (decide (i < 16)) as [Hlt|Hge'].
    - assert (i = 13 ∨ i = 14 ∨ i = 15) as [->|[->| ->]] by lia; by rewrite andb_true_r.
    - destruct (decide (x = 0)) as [->|Hx0]; [by rewrite Z.bits_0|].
      rewrite (Z.bits_above_log2 x i); [done|lia|].
      apply Z.lt_le_trans with 16; [|lia]. apply Z.log2_lt_pow2; simpl; lia. }
  rewrite Z.shiftl_mul_pow2, Z.shiftr_div_pow2 by lia. change (2 ^ 13) with 8192.
  pose proof (Z.div_mod x 8192). pose proof (Z.mod_pos_bound x 8192). lia.
Qed.

Lemma low_byte x : octet (Z.land x 255).
Proof.
  change 255 with (Z.ones 8). rewrite Z.land_ones by lia. unfold octet. change (2 ^ 8) with 256.
  apply Z.mod_pos_bound. lia.
Qed.

Lemma high_byte x : segment x → octet (Z.shiftr x 8).
Proof.
  unfold segment, octet. rewrite Z.shiftr_div_pow2 by lia. change (2 ^ 8) with 256. intros Hx.
  pose proof (Z.div_mod x 256). pose proof (Z.mod_pos_bound x 256). lia.
Qed.

Lemma mapped_ok a m : v6_ok a → to_ipv4_mapped a = Some m → v4_ok m.
Proof.
  unfold v6_ok, to_ipv4_mapped. rewrite !list.Forall_cons. intros (_ & _ & _ & _ & _ & _ & H6 & H7 & _).
  destruct (_ && _); [|done]. intros [= <-]. split_and!; simpl; auto using low_byte, high_byte.
Qed.

(** The destinations a download may have. *)
Definition public_destination (host : Host) : Prop :=
  match host with
  | Domain domain =>
      domain ≠ "localhost" ∧ ends_with ".localhost" domain = false ∧
      ends_with ".local" domain = false ∧ contains "." domain = true
  | HostIpv4 a => ∀ block, block ∈ special_blocks → in_cidr a block = false
  | HostIpv6 a =>
      (∃ m, to_ipv4_mapped a = Some m ∧ ∀ block, block ∈ special_blocks → in_cidr m block = false) ∨
      to_ipv4_mapped a = None ∧ 0x2000 ≤ v6_0 a < 0x4000 ∧ v6_0 a ≠ 0x2002 ∧
      (v6_0 a = 0x2001 → 0x01ff < v6_1 a ∧ v6_1 a ≠ 0x0db8)
  end.

(** The parser yields octets and 16-bit segments. *)
Definition host_ok (host : Host) : Prop :=
  match host with Domain _ => True | HostIpv4 a => v4_ok a | HostIpv6 a => v6_ok a end.

Lemma public_ipv4_spec a :
  v4_ok a → public_ipv4 a = true ↔ ∀ block, block ∈ special_blocks → in_cidr a block = false.
Proof.
  intros Ha. rewrite public_ipv4_iff_no_special_block, negb_true_iff by done.
  rewrite <-not_true_iff_false, existsb_exists. setoid_rewrite list_elem_of_In. split.
  - intros H block Hb. apply not_true_iff_false. intros E. apply H. by exists block.
  - intros H (block & Hb & E). rewrite (H block Hb) in E. done.
Qed.

Lemma public_host_spec host :
  host_ok host → public_host (Some host) = true ↔ public_destination host.
Proof.
  destruct host as [domain|a|a]; intros Hok; simpl in *.
  - rewrite !andb_true_iff, !negb_true_iff, str_eqb_false. naive_solver.
  - by apply public_ipv4_spec.
  - unfold public_ipv6. destruct (to_ipv4_mapped a) as [m|] eqn:E.
    + rewrite public_ipv4_spec by eauto using mapped_ok. naive_solver.
    + assert (segment (v6_0 a)) as H0 by (by apply list.Forall_cons in Hok as [? _]).
      rewrite !andb_true_iff, !negb_true_iff, andb_false_iff, orb_false_iff, Z.eqb_eq.
      rewrite global_unicast_mask, !Z.eqb_neq, Z.leb_gt by done. split.
      * intros ((? & ?) & ?). right. split_and!; [done|lia|lia|lia|lia].
      * intros [(? & ? & _)|(_ & ? & ? & ?)]; [done|]. split_and!; [lia|lia|lia|].
        destruct (decide (v6_0 a = 8193)); [right|left]; naive_solver.
Qed.

(** A URL is admitted for download exactly when it is an HTTPS URL without
    credentials or fragment whose host is a public destination: no address of
    a private, local, documentation or multicast block is ever contacted, not
    even as an IPv4 address mapped into IPv6. *)
Theorem validate_download_url_iff `{UrlParser} raw url :
  (∀ host, url_host url = Some host → host_ok host) →
  validate_download_url raw = Ok url ↔
  url_parse raw = Some url ∧ url_scheme url = "https" ∧ url_username url = "" ∧
  url_password url = None ∧ url_fragment url = None ∧
  ∃ host, url_host url = Some host ∧ public_destination host.
Proof.
  intros Hok. unfold validate_download_url. split.
  - intros Hv. ok_inv. split_and!; try done.
    + by apply str_eqb_spec.
    + by apply is_empty_spec.
    + by destruct (url_password url).
    + by destruct (url_fragment url).
    + destruct (url_host url) as [host|]; [|done]. exists host. split; [done|].
      apply public_host_spec; [by apply Hok|done].
  - intros (-> & Hs & Hu & Hp & Hf & host & Hh & Hd). cbn. rewrite Hs, Hu, Hp, Hf. cbn.
    apply public_host_spec in Hd; [|by apply Hok]. by rewrite Hh, Hd.
Qed.

(** A table in place of the parser, for evaluation. *)
Definition demo_host (host : Host) : Url :=
  {| url_scheme := "https"; url_username := ""; url_password := None; url_fragment := None;
     url_host := Some host |}.

Definition demo_parser : UrlParser := λ raw,
  if str_eqb raw "https://cdn.modrinth.com/a.jar" then Some (demo_host (Domain "cdn.modrinth.com"))
  else if str_eqb raw "https://[::ffff:10.0.0.1]/a.jar" then
    Some (demo_host (HostIpv6 {| v6_0 := 0; v6_1 := 0; v6_2 := 0; v6_3 := 0; v6_4 := 0;
                                 v6_5 := 65535; v6_6 := 2560; v6_7 := 1 |}))
  else None.

Lemma validate_download_url_iff_witness :
  is_ok (@validate_download_url demo_parser "https://cdn.modrinth.com/a.jar") = true ∧
  is_ok (@validate_download_url demo_parser "https://[::ffff:10.0.0.1]/a.jar") = false ∧
  public_destination (Domain "cdn.modrinth.com").
Proof.
  split_and!; [vm_compute; reflexivity|vm_compute; reflexivity|].
  destruct (proj1 (@validate_download_url_iff demo_parser "https://cdn.modrinth.com/a.jar"
    (demo_host (Domain "cdn.modrinth.com")) ltac:(by intros host [= <-]))
    ltac:(vm_compute; reflexivity)) as (_ & _ & _ & _ & _ & host & E & H).
  injection E as <-. exact H.
Defined.

(** The edges of two blocks. *)
Example private_mapped_refused :
  public_ipv4 (v4_addr 10 0 0 1) = false ∧ public_ipv4 (v4_addr 1 1 1 1) = true ∧
  public_ipv4 (v4_addr 198 19 255 255) = false ∧ public_ipv4 (v4_addr 198 20 0 0) = true.
Proof. vm_compute. done. Qed.
