(* ===== verification/ContentPackPath.v ===== *)
(** * Destinations of pack files ([core/app/src/content/packs.rs])

    The paths a modpack may write to: [validate_pack_path],
    [validate_destinations] and what a [PackFile] derives from its path.  The
    checks build on the portable names of [AppPortablePath], whose Unicode
    functions are its parameter. *)

From S2P Require Import Prelude RustStr ContentModel ContentUrl.
From S2P Require McPortablePath AppPortablePath.
Import McPortablePath (UnicodeNorm).
Import AppPortablePath (file_name, file_name_key, file_name_new, file_name_new_exact, with_suffix,
  relative_path_new, relative_path_new_exact, relative_path_key, managed_content_name_is_reserved,
  DISABLED_SUFFIX).

(** [str::rsplit_once] at an ASCII character. *)
Fixpoint rsplit_once (sep : ascii) (s : string) : option (string * string) :=
  match s with
  | "" => None
  | String c s =>
      match rsplit_once sep s with
      | Some (a, b) => Some (String c a, b)
      | None => if Ascii.eqb c sep then Some ("", s) else None
      end
  end.

Record PackFile := {
  pack_path : string;
  pack_url : string;
  pack_sha1 : option string;
  pack_sha512 : option string;
  pack_size : option Z;
}.

Definition managed_directory (key : string) : bool :=
  str_eqb key "mods" || str_eqb key "resourcepacks" || str_eqb key "shaderpacks".

Section paths.
Context `{UnicodeNorm}.

(** [new_exact(..).expect(..)]; the other branch, a panic in the code, is never
    taken ([pack_components_portable]). *)
Definition portable_component (component : string) : string :=
  match file_name_new_exact component with Ok name => name | Err _ => component end.

Definition validate_pack_path (value : string) : result PackError string :=
  path ← map_err (λ _, PackInvalid "file uses an invalid portable path") (relative_path_new_exact value);
  let components := split_on "/" value in
  err_if (64 <? length components)%nat (PackInvalid "file path is too deeply nested") ;;
  let first := hd "" components in
  let first_key := file_name_key (portable_component first) in
  let managed := managed_directory first_key in
  err_if (managed && negb (str_eqb first first_key))
    (PackInvalid "managed directory spelling is not canonical") ;;
  let direct_managed := managed && (length components =? 2)%nat in
  err_if (direct_managed &&
          (ends_with DISABLED_SUFFIX (file_name_key (file_name path)) ||
           negb (is_ok (with_suffix (file_name path) DISABLED_SUFFIX))))
    (PackInvalid "managed file name is reserved") ;;
  err_if (existsb (λ '(position, component),
            ((position =? 0)%nat || direct_managed) &&
            managed_content_name_is_reserved (portable_component component))
            (imap pair components))
    (PackInvalid "launcher metadata paths are reserved") ;;
  Ok path.

(** [expect("validated portable path")]; the other branch is never taken for a
    path [validate_pack_path] admits. *)
Definition path_key (value : string) : string :=
  match relative_path_new_exact value with
  | Ok path => relative_path_key path
  | Err _ => value
  end.

(** The first loop of [validate_destinations]: the [BTreeMap] of keys. *)
Fixpoint destination_keys (keys : gmap string string) (destinations : list string) :
    result PackError (gmap string string) :=
  match destinations with
  | [] => Ok keys
  | destination :: destinations =>
      validate_pack_path destination ;;
      let key := path_key destination in
      err_if (bool_decide (is_Some (keys !! key))) (Conflict destination) ;;
      destination_keys (<[key := destination]> keys) destinations
  end.

(** The [while let] loop over the parents of a key; every round shortens it. *)
Fixpoint has_parent (fuel : nat) (keys : gmap string string) (parent : string) : bool :=
  match fuel with
  | O => false
  | S fuel =>
      match rsplit_once "/" parent with
      | Some (next, _) => bool_decide (is_Some (keys !! next)) || has_parent fuel keys next
      | None => false
      end
  end.

Definition key_order : string * string → string * string → comparison := cmp_on fst str_cmp.

Definition validate_destinations (destinations : list string) : result PackError unit :=
  keys ← destination_keys ∅ destinations;
  try_for_each (λ '(key, destination),
    err_if (has_parent (S (String.length key)) keys key) (Conflict destination))
    (sort_by key_order (map_to_list keys)).

Definition pack_filename (self : PackFile) : string := file_name (pack_path self).

Definition pack_kind (self : PackFile) : option ContentKind :=
  match validate_pack_path (pack_path self) with
  | Err _ => None
  | Ok _ =>
      '(directory, _) ← rsplit_once "/" (pack_path self);
      if str_eqb directory "mods" then Some KindMod
      else if str_eqb directory "resourcepacks" then Some KindResourcePack
      else if str_eqb directory "shaderpacks" then Some KindShaderPack
      else None
  end.

(** ** Lemmas *)

Lemma rsplit_once_spec sep s a b :
  rsplit_once sep s = Some (a, b) ↔ s = a +:+ char1 sep +:+ b ∧ no_byte sep b = true.
Proof.
  revert a b. induction s as [|c s IH]; intros a b; simpl.
  { split; [done|]. intros [E _]. by destruct a. }
  destruct (rsplit_once sep s) as [[a' b']|] eqn:E.
  - destruct (proj1 (IH a' b') eq_refl) as [-> Hb]. split.
    + intros [= <- <-]. done.
    + intros [E' Hb']. destruct a as [|c' a]; simpl in E'.
      * injection E' as -> E'. subst b. unfold no_byte in Hb'. rewrite !sforall_app in Hb'. simpl in Hb'.
        rewrite Ascii.eqb_refl in Hb'. simpl in Hb'. by rewrite andb_false_r in Hb'.
      * injection E' as -> E'. by pose proof (proj2 (IH a b) (conj E' Hb')) as [= -> ->].
  - assert (∀ a b, s = a +:+ char1 sep +:+ b → no_byte sep b = true → False) as Hno.
    { intros a' b' Es Hb. by apply (conj Es), IH in Hb. }
    destruct (Ascii.eqb_spec c sep) as [->|Hne]; split.
    + intros [= <- <-]. split; [done|]. apply not_false_iff_true. intros Hs.
      assert (∃ a' b', s = a' +:+ char1 sep +:+ b' ∧ no_byte sep b' = true) as (a' & b' & ? & ?); [|by eapply Hno].
      clear -Hs. induction s as [|c s IH]; [done|]. unfold no_byte in *. simpl in Hs.
      destruct (sforall (λ c, negb (Ascii.eqb c sep)) s) eqn:E.
      * exists "", s. destruct (Ascii.eqb_spec c sep) as [->|]; [done|]. by simpl in Hs.
      * destruct (IH eq_refl) as (a' & b' & -> & ?). by exists (String c a'), b'.
    + intros [E' Hb]. destruct a as [|c' a]; simpl in E'; [by injection E' as ->|].
      injection E' as -> E'. destruct (Hno a b E' Hb).
    + done.
    + intros [E' Hb]. destruct a as [|c' a]; simpl in E'; injection E' as -> E'; [done|].
      destruct (Hno a b E' Hb).
Qed.

Lemma file_name_new_no_slash value name : file_name_new value = Ok name → no_byte "/" name = true.
Proof.
  unfold file_name_new. intros H0. ok_inv. subst. unfold AppPortablePath.validate_file_name in *. ok_inv.
  unfold sexists in *. ok_inv. eapply sforall_impl; [|eassumption].
  intros c. destruct (Ascii.eqb_spec c "/") as [->|]; done.
Qed.

(** The components of an exact relative path are exact names, so the
    [expect]s of the pack checks hold. *)
Lemma pack_components_portable value path :
  relative_path_new_exact value = Ok path →
  path = value ∧ Forall (λ c, file_name_new_exact c = Ok c) (split_on "/" value).
Proof.
  unfold relative_path_new_exact, relative_path_new. intros H0. ok_inv.
  rename select (str_eqb _ _ = true) into E. apply str_eqb_spec in E. subst.
  split; [done|]. rename select (try_map _ _ = _) into Hm. apply try_map_ok in Hm.
  rename select (list string) into names.
  set (value := str_join "/" names) in *.
  assert (split_on "/" value = names) as Hs.
  { apply split_on_join.
    - intros ->. apply Forall2_nil_inv_r in Hm. by apply split_on_ne in Hm.
    - eapply Forall2_Forall_r; [exact Hm|]. apply list.Forall_forall. intros c _ y. apply file_name_new_no_slash. }
  rewrite Hs in *. clear -Hm. apply list.Forall_forall. intros c Hc.
  apply list_elem_of_lookup in Hc as [i Hi]. eapply Forall2_lookup_lr in Hm; [|exact Hi|exact Hi].
  unfold file_name_new_exact. rewrite Hm. simpl. by rewrite (proj2 (str_eqb_spec c c) eq_refl).
Qed.

Lemma slash_split p r q b :
  p +:+ "/" +:+ r = q +:+ "/" +:+ b → no_byte "/" b = true →
  p = q ∨ ∃ r', q = p +:+ "/" +:+ r'.
Proof.
  intros E Hb. assert (rsplit_once "/" (p +:+ "/" +:+ r) = Some (q, b)) as Hq by by apply rsplit_once_spec.
  destruct (rsplit_once "/" r) as [[a b']|] eqn:Hr.
  - apply rsplit_once_spec in Hr as [-> Hb'].
    assert (rsplit_once "/" (p +:+ "/" +:+ a +:+ "/" +:+ b') = Some (p +:+ "/" +:+ a, b')) as Hq'.
    { apply rsplit_once_spec. split; [|done]. by rewrite !str_app_assoc. }
    change (char1 "/") with "/" in Hq. rewrite Hq' in Hq. injection Hq as <- <-. right. by exists a.
  - left. assert (no_byte "/" r = true) as Hnb.
    { destruct (no_byte "/" r) eqn:Hs; [done|]. exfalso. clear -Hs Hr.
      induction r as [|c r IH]; [done|]. unfold no_byte in *. simpl in *.
      destruct (rsplit_once "/" r) as [[]|]; [done|]. destruct (Ascii.eqb c "/"); [done|]. by apply IH. }
    assert (rsplit_once "/" (p +:+ "/" +:+ r) = Some (p, r)) as Hp by by apply rsplit_once_spec.
    rewrite Hp in Hq. by injection Hq.
Qed.

Lemma has_parent_spec fuel keys s :
  (String.length s < fuel)%nat →
  has_parent fuel keys s = true ↔ ∃ p r, s = p +:+ "/" +:+ r ∧ is_Some (keys !! p).
Proof.
  revert s. induction fuel as [|fuel IH]; intros s Hf; [lia|]. simpl.
  destruct (rsplit_once "/" s) as [[next b]|] eqn:E.
  - apply rsplit_once_spec in E as [-> Hb]. rewrite orb_true_iff, bool_decide_eq_true.
    rewrite !str_app_length in Hf. simpl in Hf. rewrite IH by lia. split.
    + intros [H0|(p & r & -> & H0)]; [by exists next, b|]. exists p, (r +:+ "/" +:+ b).
      by rewrite !str_app_assoc.
    + intros (p & r & E & H0). symmetry in E. apply slash_split in E as [->|[r' ->]]; [by left| |done].
      right. by exists p, r'.
  - split; [done|]. intros (p & r & -> & _). exfalso.
    destruct (rsplit_once "/" r) as [[a b]|] eqn:Hr.
    + apply rsplit_once_spec in Hr as [-> Hb].
      assert (rsplit_once "/" (p +:+ "/" +:+ a +:+ "/" +:+ b) = Some (p +:+ "/" +:+ a, b)) as H1.
      { apply rsplit_once_spec. split; [|done]. by rewrite !str_app_assoc. }
      by pose proof (eq_trans (eq_sym H1) E).
    + destruct (no_byte "/" r) eqn:Hs.
      * assert (rsplit_once "/" (p +:+ "/" +:+ r) = Some (p, r)) as H1 by by apply rsplit_once_spec.
        by pose proof (eq_trans (eq_sym H1) E).
      * clear -Hs Hr. induction r as [|c r IH]; [done|]. unfold no_byte in *. simpl in *.
        destruct (rsplit_once "/" r) as [[]|]; [done|]. destruct (Ascii.eqb c "/"); [done|]. by apply IH.
Qed.

Lemma destination_keys_ok keys ds keys' :
  destination_keys keys ds = Ok keys' ↔
  Forall (λ d, is_ok (validate_pack_path d) = true) ds ∧
  NoDup (path_key <$> ds) ∧ (∀ d, d ∈ ds → keys !! path_key d = None) ∧
  keys' = foldl (λ m d, <[path_key d := d]> m) keys ds.
Proof.
  revert keys. induction ds as [|d ds IH]; intros keys; simpl.
  { split; [intros [= <-]|by intros (_ & _ & _ & ->)]. split_and!; try constructor. by intros ? ?%elem_of_nil. }
  rewrite list.Forall_cons, list.NoDup_cons. destruct (validate_pack_path d) as [path|e]; simpl.
  2: { split; [done|]. by intros [[? _] _]. }
  rewrite bind_ok_unit, err_if_ok, bool_decide_eq_false, <-eq_None_not_Some, IH. split.
  - intros (Hd & Hv & Hn & Hk & ->). split_and!; try done.
    + intros (d' & E & Hd')%list_elem_of_fmap. specialize (Hk d' Hd'). by rewrite <-E, lookup_insert_eq in Hk.
    + intros d' [->|Hd']%elem_of_cons; [done|]. specialize (Hk d' Hd').
      by apply lookup_insert_None in Hk as [? _].
  - intros ((_ & Hv) & (Hd & Hn) & Hk & ->). split_and!; try done; [apply Hk; left|].
    intros d' Hd'. apply lookup_insert_None. split; [apply Hk; by right|].
    intros E. apply Hd. rewrite E. by apply list_elem_of_fmap_2.
Qed.

Lemma destination_keys_lookup ds (keys : gmap string string) k :
  is_Some (foldl (λ m d, <[path_key d := d]> m) keys ds !! k) ↔ k ∈ path_key <$> ds ∨ is_Some (keys !! k).
Proof.
  revert keys. induction ds as [|d ds IH]; intros keys; simpl; [set_solver|].
  rewrite IH, lookup_insert_is_Some, elem_of_cons. destruct (decide (path_key d = k)); naive_solver.
Qed.

(** The destinations of a pack are admitted exactly when each is a valid pack
    path, no two have the same key, and none lies below another: the files can
    all exist at once, whatever the case and normalization rules of the file
    system. *)
Theorem validate_destinations_iff ds :
  validate_destinations ds = Ok tt ↔
  Forall (λ d, is_ok (validate_pack_path d) = true) ds ∧
  NoDup (path_key <$> ds) ∧
  (∀ d d' r, d ∈ ds → d' ∈ ds → path_key d' ≠ path_key d +:+ "/" +:+ r).
Proof.
  unfold validate_destinations. rewrite bind_ok. setoid_rewrite destination_keys_ok.
  set (keys := foldl (λ m d, <[path_key d := d]> m) (∅ : gmap string string) ds).
  assert (∀ k, is_Some (keys !! k) ↔ k ∈ path_key <$> ds) as Hkeys.
  { intros k. unfold keys. rewrite destination_keys_lookup, lookup_empty. split; [|by left].
    by intros [?|[? ?]]. }
  assert (∀ m : gmap string string, try_for_each (λ '(key, destination),
      err_if (has_parent (S (String.length key)) keys key) (Conflict destination)) (sort_by key_order (map_to_list m)) = Ok tt ↔
      ∀ k d r p, m !! k = Some d → p ∈ path_key <$> ds → k ≠ p +:+ "/" +:+ r) as Hloop.
  { intros m. rewrite try_for_each_ok, sort_by_perm, list.Forall_forall. split.
    - intros Hall k d r p Hk Hp E. specialize (Hall (k, d)). rewrite elem_of_map_to_list in Hall.
      specialize (Hall Hk). apply err_if_ok in Hall. apply not_true_iff_false in Hall. apply Hall.
      apply has_parent_spec; [lia|]. exists p, r. split; [done|]. by apply Hkeys.
    - intros Hall [k d] Hk%elem_of_map_to_list. apply err_if_ok, not_true_iff_false.
      rewrite has_parent_spec by lia. intros (p & r & -> & Hp%Hkeys). by eapply Hall. }
  split.
  - intros (m & (Hv & Hn & _ & ->) & Hl). split_and!; [done|done|]. fold keys in Hl.
    intros d d' r Hd Hd'. destruct (proj2 (Hkeys (path_key d'))) as [d0 Hd0]; [by apply list_elem_of_fmap_2|].
    apply (proj1 (Hloop keys) Hl _ d0 r _ Hd0). by apply list_elem_of_fmap_2.
  - intros (Hv & Hn & Hsep). exists keys. split; [by split_and!|]. apply Hloop.
    intros k d r p Hk (d1 & -> & Hd1)%list_elem_of_fmap E.
    assert (k ∈ path_key <$> ds) as (d2 & -> & Hd2)%list_elem_of_fmap by (apply Hkeys; eauto).
    by apply (Hsep d1 d2 r).
Qed.
End paths.

(** Two spellings of one file, a file below a file, and a good pair. *)
Example destinations_examples :
  is_ok (@validate_destinations McPortablePath.plain_norm ["config/a.toml"; "mods/sodium.jar"]) = true ∧
  is_ok (@validate_destinations McPortablePath.plain_norm ["config/A.toml"; "config/a.toml"]) = false ∧
  is_ok (@validate_destinations McPortablePath.plain_norm ["config"; "config/a.toml"]) = false ∧
  is_ok (@validate_destinations McPortablePath.plain_norm ["../a.toml"]) = false.
Proof. vm_compute. done. Qed.
