(* ===== verification/ContentProvenance.v ===== *)
(** * The content manifest ([core/app/src/content/provenance.rs])

    The ownership record of an instance's content: the names a managed file
    may have, the entries with their validation, and the manifest with its
    insertion, removal, enabling, encoding and decoding.  The JSON codec
    (serde_json with the derived implementations), the RFC 3339 parser, the
    clock and the Unicode functions are parameters.  Operations that the code
    performs on [&mut self] return the new manifest; on an error the caller
    keeps the old one, as the code's does. *)

From S2P Require Import Prelude RustStr ContentModel ContentUrl ContentPackPath.
From S2P Require McPortablePath AppPortablePath.
Import McPortablePath (UnicodeNorm).
Import AppPortablePath (PortablePathError, Unsafe, file_name_key, file_name_new_exact, with_suffix,
  managed_content_name_is_reserved).

Definition MAX_MANIFEST_BYTES : Z := 4 * 1024 * 1024.
Definition MAX_MANIFEST_ENTRIES : nat := 4096.
Definition MAX_PACK_FILE_BYTES : Z := Z.shiftl 512 20.

Record ManagedContentFileName := { name_enabled : string; name_disabled : string }.

Record PackInstalledFile := { installed_path : string; installed_size : Z; installed_sha512 : string }.
Record PackInstallation := { pack_fingerprint : string; pack_files : list PackInstalledFile }.

Record ManifestEntry := {
  entry_canonical_id : CanonicalId;
  entry_provider : ProviderId;
  entry_project_id : string;
  entry_version_id : string;
  entry_kind : ContentKind;
  entry_filename : option ManagedContentFileName;
  entry_sha512 : option string;
  entry_size : option Z;
  entry_dependencies : list ContentDependency;
  entry_enabled : bool;
  entry_installed_at : string;
  entry_title : option string;
  entry_pack_installation : option PackInstallation;
}.

Record ContentManifest := { schema_version : Z; entries : list ManifestEntry }.

#[global] Instance ManagedContentFileName_eq_dec : EqDecision ManagedContentFileName.
Proof. solve_decision. Defined.
#[global] Instance PackInstalledFile_eq_dec : EqDecision PackInstalledFile.
Proof. solve_decision. Defined.
#[global] Instance PackInstallation_eq_dec : EqDecision PackInstallation.
Proof. solve_decision. Defined.
#[global] Instance ManifestEntry_eq_dec : EqDecision ManifestEntry.
Proof. solve_decision. Defined.
#[global] Instance ContentManifest_eq_dec : EqDecision ContentManifest.
Proof. solve_decision. Defined.

(** [serde_json::to_vec_pretty] of a manifest, and [serde_json::from_slice]
    into its schema version and entries. *)
Class ManifestJson := {
  to_vec_pretty : ContentManifest → option string;
  from_slice : string → option (Z * list ManifestEntry);
}.

(** [DateTime::parse_from_rfc3339(..).is_ok()]. *)
Class Rfc3339 := parses_rfc3339 : string → bool.

Definition valid_sha512 (value : string) : bool :=
  (str_len value =? 128) && sforall (λ c, is_digit c || (97 <=? byte_n c)%N && (byte_n c <=? 102)%N) value.

Definition is_hexdigit (c : ascii) : bool :=
  is_digit c || (97 <=? byte_n c)%N && (byte_n c <=? 102)%N || (65 <=? byte_n c)%N && (byte_n c <=? 70)%N.

Definition validate_text (value : string) (maximum : Z) : result ContentError unit :=
  err_if (is_empty value || (maximum <? str_len value) || negb (no_byte "000" value))
    (Invalid "invalid content identity text").

(** Assignments to the fields of an entry. *)
Definition set_enabled_flag (entry : ManifestEntry) (enabled : bool) : ManifestEntry := {|
  entry_canonical_id := entry_canonical_id entry; entry_provider := entry_provider entry;
  entry_project_id := entry_project_id entry; entry_version_id := entry_version_id entry;
  entry_kind := entry_kind entry; entry_filename := entry_filename entry;
  entry_sha512 := entry_sha512 entry; entry_size := entry_size entry;
  entry_dependencies := entry_dependencies entry; entry_enabled := enabled;
  entry_installed_at := entry_installed_at entry; entry_title := entry_title entry;
  entry_pack_installation := entry_pack_installation entry |}.

Definition set_pack_installation (entry : ManifestEntry) (proof : PackInstallation) : ManifestEntry := {|
  entry_canonical_id := entry_canonical_id entry; entry_provider := entry_provider entry;
  entry_project_id := entry_project_id entry; entry_version_id := entry_version_id entry;
  entry_kind := entry_kind entry; entry_filename := entry_filename entry;
  entry_sha512 := entry_sha512 entry; entry_size := entry_size entry;
  entry_dependencies := entry_dependencies entry; entry_enabled := entry_enabled entry;
  entry_installed_at := entry_installed_at entry; entry_title := entry_title entry;
  entry_pack_installation := Some proof |}.

Definition set_file (entry : ManifestEntry) (size : Z) (sha512 : string) : ManifestEntry := {|
  entry_canonical_id := entry_canonical_id entry; entry_provider := entry_provider entry;
  entry_project_id := entry_project_id entry; entry_version_id := entry_version_id entry;
  entry_kind := entry_kind entry; entry_filename := entry_filename entry;
  entry_sha512 := Some sha512; entry_size := Some size;
  entry_dependencies := entry_dependencies entry; entry_enabled := entry_enabled entry;
  entry_installed_at := entry_installed_at entry; entry_title := entry_title entry;
  entry_pack_installation := entry_pack_installation entry |}.

Definition default_manifest : ContentManifest := {| schema_version := 3; entries := [] |}.

Definition find_entry (self : ContentManifest) (id : CanonicalId) : option ManifestEntry :=
  List.find (λ entry, str_eqb (entry_canonical_id entry) id) (entries self).

(** [entries.iter().position(..)]. *)
Fixpoint position_of (id : CanonicalId) (entries : list ManifestEntry) : option nat :=
  match entries with
  | [] => None
  | entry :: entries =>
      if str_eqb (entry_canonical_id entry) id then Some O else S <$> position_of id entries
  end.

Definition LiveManagedContent : Type := gmap CanonicalId ManifestEntry.

Definition live_contains (self : LiveManagedContent) (entry : ManifestEntry) : bool :=
  bool_decide (self !! entry_canonical_id entry = Some entry).

Definition live_from_entries (entries : list ManifestEntry) : LiveManagedContent :=
  foldl (λ m entry, <[entry_canonical_id entry := entry]> m) ∅ entries.

Section provenance.
Context `{UnicodeNorm} `{ManifestJson} `{Rfc3339}.

Definition managed_name_new_exact (value : string) : result PortablePathError ManagedContentFileName :=
  enabled ← file_name_new_exact value;
  err_if (ends_with ".disabled" (file_name_key enabled) || managed_content_name_is_reserved enabled) Unsafe ;;
  disabled ← with_suffix enabled ".disabled";
  Ok {| name_enabled := enabled; name_disabled := disabled |}.

Definition managed_name_key (self : ManagedContentFileName) : string := file_name_key (name_enabled self).

Definition pack_installation_validate (self : PackInstallation) : result ContentError unit :=
  err_if (negb (str_len (pack_fingerprint self) =? 64) || negb (sforall is_hexdigit (pack_fingerprint self)) ||
          (20000 <? length (pack_files self))%nat ||
          existsb (λ file, (MAX_PACK_FILE_BYTES <? installed_size file) ||
                           negb (valid_sha512 (installed_sha512 file))) (pack_files self))
    (Invalid "invalid pack installation evidence") ;;
  map_err (λ _, Invalid "invalid pack installation destinations")
    (validate_destinations (installed_path <$> pack_files self)).

(** The part of [validate] that depends on the kind of content. *)
Definition validate_ownership (self : ManifestEntry) : result ContentError unit :=
  if bool_decide (entry_kind self = KindModpack) then
    err_if (negb (is_none (entry_filename self)) || negb (is_none (entry_sha512 self)) ||
            negb (is_none (entry_size self))) (Invalid "modpack provenance cannot own a file") ;;
    match entry_pack_installation self with
    | Some proof => pack_installation_validate proof
    | None => Ok tt
    end
  else
    err_if (negb (is_none (entry_pack_installation self)))
      (Invalid "only modpacks can record pack installation evidence") ;;
    filename ← ok_or (Invalid "missing content filename") (entry_filename self);
    err_if (bool_decide (entry_kind self = KindMod) && negb (ends_with ".jar" (managed_name_key filename)))
      (Invalid "managed mod filename must end in .jar") ;;
    err_if (negb (is_some_and (entry_sha512 self) valid_sha512) ||
            is_none_or (entry_size self) (λ size, size =? 0))
      (Invalid "content ownership requires SHA-512 and an exact positive size").

Definition validate_dependency (dependency : ContentDependency) : result ContentError unit :=
  err_if (is_none (dep_project_id dependency) && is_none (dep_version_id dependency))
    (Invalid "content dependency has no identity") ;;
  try_for_each (λ value, validate_text value 512)
    (option_list (dep_project_id dependency) ++ option_list (dep_version_id dependency)).

Definition entry_validate (self : ManifestEntry) : result ContentError unit :=
  try_for_each (λ value, validate_text value 512)
    [entry_canonical_id self; entry_project_id self; entry_version_id self] ;;
  err_if (negb (str_eqb (entry_canonical_id self) (for_project (entry_provider self) (entry_project_id self))))
    (Invalid "content canonical identity disagrees with provider project") ;;
  validate_ownership self ;;
  err_if (256 <? length (entry_dependencies self))%nat (Invalid "too many content dependencies") ;;
  try_for_each validate_dependency (entry_dependencies self) ;;
  validate_text (entry_installed_at self) 64 ;;
  err_if (negb (parses_rfc3339 (entry_installed_at self))) (Invalid "invalid content installation timestamp") ;;
  err_if (is_some_and (entry_title self) (λ title, 1024 <? str_len title)) (Invalid "content title exceeds its bound").

(** [now] is [Utc::now().to_rfc3339()]. *)
Definition managed_file (now : string) (canonical_id : CanonicalId) (provider : ProviderId)
    (project_id version_id : string) (kind : ContentKind) (filename : ManagedContentFileName)
    (sha512 : option string) (size : option Z) (dependencies : list ContentDependency)
    (title : option string) : result ContentError ManifestEntry :=
  let entry := {|
    entry_canonical_id := canonical_id; entry_provider := provider; entry_project_id := project_id;
    entry_version_id := version_id; entry_kind := kind; entry_filename := Some filename;
    entry_sha512 := sha512; entry_size := size; entry_dependencies := dependencies;
    entry_enabled := true; entry_installed_at := now; entry_title := title;
    entry_pack_installation := None |} in
  map_err (λ _, ProviderMetadataInvalid "invalid content ownership metadata") (entry_validate entry) ;;
  Ok entry.

Definition managed (now : string) (canonical_id : CanonicalId) (provider : ProviderId)
    (project_id version_id : string) (kind : ContentKind) (file : FileRef)
    (dependencies : list ContentDependency) (title : option string) : result ContentError ManifestEntry :=
  filename ← map_err (λ _, Invalid "invalid content filename") (managed_name_new_exact (file_filename file));
  managed_file now canonical_id provider project_id version_id kind filename
    (file_sha512 file) (file_size file) dependencies title.

Definition provenance (now : string) (canonical_id : CanonicalId) (provider : ProviderId)
    (project_id version_id : string) (title : option string) : result ContentError ManifestEntry :=
  let entry := {|
    entry_canonical_id := canonical_id; entry_provider := provider; entry_project_id := project_id;
    entry_version_id := version_id; entry_kind := KindModpack; entry_filename := None;
    entry_sha512 := None; entry_size := None; entry_dependencies := [];
    entry_enabled := true; entry_installed_at := now; entry_title := title;
    entry_pack_installation := None |} in
  entry_validate entry ;;
  Ok entry.

Definition record_pack_installation (self : ManifestEntry) (proof : PackInstallation) :
    result ContentError ManifestEntry :=
  let candidate := set_pack_installation self proof in
  entry_validate candidate ;;
  Ok candidate.

Definition record_authenticated_file (self : ManifestEntry) (size : Z) (sha512 : string) :
    result ContentError ManifestEntry :=
  let candidate := set_file self size sha512 in
  entry_validate candidate ;;
  Ok candidate.

(** One round of the loop of [ContentManifest::validate], over the identities
    and names seen so far. *)
Definition check_entry (seen : gset CanonicalId * gset (ContentKind * string)) (entry : ManifestEntry) :
    result ContentError (gset CanonicalId * gset (ContentKind * string)) :=
  let '(identities, names) := seen in
  entry_validate entry ;;
  identities ← insert_new (Invalid "duplicate content identity") identities (entry_canonical_id entry);
  match entry_filename entry with
  | Some filename =>
      names ← insert_new (Invalid "duplicate portable content path") names (entry_kind entry, managed_name_key filename);
      Ok (identities, names)
  | None => Ok (identities, names)
  end.

Definition manifest_validate (self : ContentManifest) : result ContentError unit :=
  err_if (negb (schema_version self =? 3) || (MAX_MANIFEST_ENTRIES <? length (entries self))%nat)
    (Invalid "unsupported or oversized content manifest") ;;
  try_fold check_entry (∅, ∅) (entries self) ;;
  Ok tt.

Definition decode_managed (bytes : option string) : result ContentError ContentManifest :=
  match bytes with
  | None => Ok default_manifest
  | Some bytes =>
      err_if (MAX_MANIFEST_BYTES <? str_len bytes) (Invalid "content manifest exceeds its byte bound") ;;
      wire ← ok_or Parse (from_slice bytes);
      let manifest := {| schema_version := wire.1; entries := wire.2 |} in
      manifest_validate manifest ;;
      Ok manifest
  end.

Definition encode_managed (self : ContentManifest) : result ContentError string :=
  manifest_validate self ;;
  bytes ← ok_or Parse (to_vec_pretty self);
  err_if (MAX_MANIFEST_BYTES <? str_len bytes) (Invalid "content manifest exceeds its byte bound") ;;
  Ok bytes.

(** One addition: replace the entry of the same identity in place, or append;
    a replaced entry whose file name or kind changes is displaced. *)
Definition upsert_entry (state : gset CanonicalId * list ManifestEntry * list ManifestEntry)
    (entry : ManifestEntry) :
    result ContentError (gset CanonicalId * list ManifestEntry * list ManifestEntry) :=
  let '(ids, candidate, displaced) := state in
  ids ← insert_new (Invalid "duplicate content identity") ids (entry_canonical_id entry);
  match index ← position_of (entry_canonical_id entry) candidate; pair index <$> candidate !! index with
  | Some (index, old) =>
      let displaced :=
        if negb (bool_decide (entry_filename old = entry_filename entry)) ||
           negb (bool_decide (entry_kind old = entry_kind entry))
        then displaced ++ [old] else displaced in
      Ok (ids, <[index := entry]> candidate, displaced)
  | None => Ok (ids, candidate ++ [entry], displaced)
  end.

Definition try_upsert_batch (self : ContentManifest) (additions : list ManifestEntry) :
    result ContentError (list ManifestEntry * ContentManifest) :=
  err_if (MAX_MANIFEST_ENTRIES <? length additions)%nat (Invalid "too many content entries") ;;
  state ← try_fold upsert_entry (∅, entries self, []) additions;
  let '(_, candidate, displaced) := state in
  let candidate := {| schema_version := schema_version self; entries := candidate |} in
  encode_managed candidate ;;
  Ok (displaced, candidate).

Definition try_upsert (self : ContentManifest) (entry : ManifestEntry) :
    result ContentError (option ManifestEntry * ContentManifest) :=
  '(displaced, manifest) ← try_upsert_batch self [entry];
  Ok (head displaced, manifest).

Definition remove (self : ContentManifest) (id : CanonicalId) : option ManifestEntry * ContentManifest :=
  match index ← position_of id (entries self); pair index <$> entries self !! index with
  | Some (index, entry) =>
      (Some entry, {| schema_version := schema_version self; entries := base.delete index (entries self) |})
  | None => (None, self)
  end.

Definition try_set_enabled (self : ContentManifest) (id : CanonicalId) (enabled : bool) :
    result ContentError (option bool * ContentManifest) :=
  match index ← position_of id (entries self); pair index <$> entries self !! index with
  | None => Ok (None, self)
  | Some (index, entry) =>
      if Bool.eqb (entry_enabled entry) enabled then Ok (Some false, self)
      else
        let candidate := {| schema_version := schema_version self;
                            entries := <[index := set_enabled_flag entry enabled]> (entries self) |} in
        encode_managed candidate ;;
        Ok (Some true, candidate)
  end.

Definition validate_provider_entry (self : ContentManifest) (entry : ManifestEntry) : result ContentError unit :=
  map_err (λ _, ProviderMetadataInvalid "invalid provider content entry") (entry_validate entry).

Definition validate_provider_projection (self : ContentManifest) : result ContentError unit :=
  map_err (λ _, ProviderMetadataInvalid "provider content exceeds manifest bounds")
    ((λ _, tt) <$> encode_managed self).
End provenance.
