(* ===== verification/ContentManifest.v ===== *)
(** * What the content manifest guarantees

    Theorems about [ContentProvenance]: which manifests [validate] accepts,
    that the operations keep a manifest valid and do to it exactly what they
    promise, and that the files of a valid manifest never collide on disk,
    enabled or disabled. *)

From S2P Require Import Prelude RustStr ContentModel ContentUrl ContentPackPath ContentProvenance.
From S2P Require McPortablePath AppPortablePath.
Import McPortablePath (UnicodeNorm, unicode_nfc, unicode_case_fold).

Section manifest.
Context `{UnicodeNorm} `{ManifestJson} `{Rfc3339}.

(** The place an entry takes below its kind's directory. *)
Definition entry_slot (entry : ManifestEntry) : option (ContentKind * string) :=
  pair (entry_kind entry) ∘ managed_name_key <$> entry_filename entry.

Definition entry_valid (entry : ManifestEntry) : Prop := entry_validate entry = Ok tt.

Record entries_valid (l : list ManifestEntry) : Prop := {
  ev_entries : Forall entry_valid l;
  ev_identities : NoDup (entry_canonical_id <$> l);
  ev_slots : NoDup (omap entry_slot l);
}.

Record manifest_valid (m : ContentManifest) : Prop := {
  mv_schema : schema_version m = 3;
  mv_length : (length (entries m) ≤ 4096)%nat;
  mv_entries : entries_valid (entries m);
}.

(** *** Validation *)

Lemma check_entry_ok ids names e s' :
  check_entry (ids, names) e = Ok s' ↔
  entry_valid e ∧ entry_canonical_id e ∉ ids ∧ (∀ slot, entry_slot e = Some slot → slot ∉ names) ∧
  s' = ({[entry_canonical_id e]} ∪ ids, (if entry_slot e is Some slot then {[slot]} else ∅) ∪ names).
Proof.
  unfold check_entry, entry_slot, entry_valid. rewrite bind_ok_unit, bind_ok.
  setoid_rewrite insert_new_ok. destruct (entry_filename e) as [f|]; simpl.
  - setoid_rewrite bind_ok. setoid_rewrite insert_new_ok. split.
    + intros (Hv & ? & (Hi & ->) & ? & (Hn & ->) & [= <-]). split_and!; [done..| |done]. by intros ? [= <-].
    + intros (Hv & Hi & Hn & ->). split; [done|]. eexists. split; [done|]. eexists. split; [|done].
      split; [by apply Hn|done].
  - split.
    + intros (Hv & ? & (Hi & ->) & [= <-]). split_and!; [done..|]. by rewrite (left_id_L ∅ (∪)).
    + intros (Hv & Hi & _ & ->). split; [done|]. eexists. split; [done|]. by rewrite (left_id_L ∅ (∪)).
Qed.

Lemma check_entries_ok l ids names :
  (∃ s, try_fold check_entry (ids, names) l = Ok s) ↔
  entries_valid l ∧ (∀ e, e ∈ l → entry_canonical_id e ∉ ids) ∧
  (∀ e slot, e ∈ l → entry_slot e = Some slot → slot ∉ names).
Proof.
  revert ids names. induction l as [|e l IH]; intros ids names; simpl.
  { split; [|by eexists]. intros _. split_and!; [split; constructor|by intros ? ?%elem_of_nil|by intros ? ? ?%elem_of_nil]. }
  assert (∀ slot, slot ∈ omap entry_slot l ↔ ∃ e, e ∈ l ∧ entry_slot e = Some slot) as Hslots
    by (intros; apply list_elem_of_omap).
  split.
  - intros (s & (t & (Hv & Hi & Hn & ->)%check_entry_ok & Hl)%bind_ok).
    destruct (proj1 (IH _ _) (ex_intro _ s Hl)) as ([Hvl Hil Hsl] & Hids & Hnames). split_and!; [split| |].
    + by constructor.
    + simpl. constructor; [|done]. intros (e' & E & He')%list_elem_of_fmap. specialize (Hids e' He'). set_solver.
    + simpl. destruct (entry_slot e) as [slot|] eqn:Es; simpl; [|done]. constructor; [|done].
      intros (e' & He' & E)%Hslots. specialize (Hnames e' slot He' E). set_solver.
    + intros e' [->|He']%elem_of_cons; [done|]. specialize (Hids e' He'). set_solver.
    + intros e' slot [->|He']%elem_of_cons E; [by apply Hn|]. specialize (Hnames e' slot He' E). set_solver.
  - intros ([Hv Hi Hs] & Hids & Hnames). apply list.Forall_cons in Hv as [Hv Hvl].
    simpl in Hi. apply list.NoDup_cons in Hi as [Hi Hil].
    destruct (proj2 (IH ({[entry_canonical_id e]} ∪ ids)
      ((if entry_slot e is Some slot then {[slot]} else ∅) ∪ names))) as [s Hl].
    { split_and!.
      - split; [done|done|]. simpl in Hs. destruct (entry_slot e); [|done]. by apply list.NoDup_cons in Hs as [_ ?].
      - intros e' He'. assert (entry_canonical_id e' ≠ entry_canonical_id e).
        { intros E. apply Hi. rewrite <-E. by apply list_elem_of_fmap_2. }
        assert (entry_canonical_id e' ∉ ids) by (apply Hids; by right). set_solver.
      - intros e' slot He' E. assert (slot ∉ names) by (apply (Hnames e'); [by right|done]).
        simpl in Hs. destruct (entry_slot e) as [slot'|]; [|set_solver].
        apply list.NoDup_cons in Hs as [Hs _]. assert (slot ≠ slot'); [|set_solver].
        intros ->. apply Hs, Hslots. eauto. }
    exists s. apply bind_ok. eexists. split; [|exact Hl]. apply check_entry_ok.
    split_and!; [done|apply Hids; by left| |done]. intros slot. apply Hnames. by left.
Qed.

(** [validate] accepts exactly the manifests of schema 3 with at most 4096
    entries, each valid, no two of one identity, and no two of one kind whose
    file names have the same portable key. *)
Theorem manifest_validate_iff m : manifest_validate m = Ok tt ↔ manifest_valid m.
Proof.
  unfold manifest_validate, MAX_MANIFEST_ENTRIES. rewrite bind_ok_unit, err_if_ok, orb_false_iff, negb_false_iff.
  rewrite Z.eqb_eq, Nat.ltb_ge, bind_ok. split.
  - intros ((Hs & Hl) & s & Hf & _). split; [done|done|].
    by destruct (proj1 (check_entries_ok _ _ _) (ex_intro _ s Hf)).
  - intros [Hs Hl Hv]. split; [done|]. destruct (proj2 (check_entries_ok (entries m) ∅ ∅)) as [s Hf]; [|by exists s].
    split_and!; [done|set_solver|set_solver].
Qed.

Lemma encode_managed_valid m bytes : encode_managed m = Ok bytes → manifest_valid m.
Proof. unfold encode_managed. intros H2. ok_inv. by apply manifest_validate_iff. Qed.

Lemma decode_managed_valid bytes m : decode_managed bytes = Ok m → manifest_valid m.
Proof.
  destruct bytes as [bytes|]; simpl; intros H2; ok_inv; [by apply manifest_validate_iff|].
  split; [done|simpl; lia|]. split; constructor.
Qed.

(** *** Entries by identity *)

Definition entry_at (l : list ManifestEntry) (id : CanonicalId) : option ManifestEntry :=
  List.find (λ entry, str_eqb (entry_canonical_id entry) id) l.

Lemma entry_at_some l id e : entry_at l id = Some e → e ∈ l ∧ entry_canonical_id e = id.
Proof.
  intros [Hin E]%List.find_some. split; [by apply list_elem_of_In|by apply str_eqb_spec].
Qed.

Lemma entry_at_none l id : entry_at l id = None ↔ id ∉ entry_canonical_id <$> l.
Proof.
  unfold entry_at. induction l as [|e l IH]; simpl; [set_solver|].
  destruct (str_eqb _ _) eqn:E; [apply str_eqb_spec in E|apply str_eqb_false in E]; [set_solver|].
  rewrite IH. set_solver.
Qed.

Lemma entry_at_elem l e :
  NoDup (entry_canonical_id <$> l) → e ∈ l → entry_at l (entry_canonical_id e) = Some e.
Proof.
  intros Hn He. destruct (entry_at l (entry_canonical_id e)) as [e'|] eqn:E.
  - apply entry_at_some in E as [He' E]. f_equal. by eapply NoDup_fmap_inj.
  - apply entry_at_none in E. destruct E. by apply list_elem_of_fmap_2.
Qed.

(** [position] finds the entry [find] finds. *)
Lemma position_of_spec id l :
  match position_of id l with
  | Some i => ∃ l1 e l2, l = l1 ++ e :: l2 ∧ i = length l1 ∧ entry_canonical_id e = id ∧
      id ∉ entry_canonical_id <$> l1 ∧ entry_at l id = Some e
  | None => entry_at l id = None
  end.
Proof.
  induction l as [|e l IH]; simpl; [done|]. destruct (str_eqb _ _) eqn:E.
  - apply str_eqb_spec in E. exists [], e, l. split_and!; [done..|set_solver|done].
  - apply str_eqb_false in E. destruct (position_of id l) as [i|]; simpl; [|done].
    destruct IH as (l1 & e' & l2 & -> & -> & Hid & Hn & Hf). exists (e :: l1), e', l2.
    split_and!; [done..| |done]. simpl. set_solver.
Qed.

Lemma position_cases id l :
  (entry_at l id = None ∧
   (index ← position_of id l; pair index <$> l !! index) = None) ∨
  (∃ l1 e l2, l = l1 ++ e :: l2 ∧ entry_canonical_id e = id ∧ entry_at l id = Some e ∧
   id ∉ entry_canonical_id <$> l1 ∧
   (index ← position_of id l; pair index <$> l !! index) = Some (length l1, e)).
Proof.
  pose proof (position_of_spec id l) as Hp. destruct (position_of id l) as [i|]; simpl; [|by left].
  destruct Hp as (l1 & e & l2 & -> & -> & Hid & Hn & Hf). right. exists l1, e, l2.
  split_and!; try done. rewrite lookup_app_r, Nat.sub_diag by lia. done.
Qed.

Lemma entry_at_app l1 l2 id :
  entry_at (l1 ++ l2) id = match entry_at l1 id with Some e => Some e | None => entry_at l2 id end.
Proof. unfold entry_at. induction l1 as [|e l1 IH]; simpl; [done|]. by destruct (str_eqb _ _). Qed.

(** *** Insertion *)

(** The old entry an addition displaces. *)
Definition displaced_by (l : list ManifestEntry) (addition : ManifestEntry) : option ManifestEntry :=
  old ← entry_at l (entry_canonical_id addition);
  if bool_decide (entry_filename old = entry_filename addition ∧ entry_kind old = entry_kind addition)
  then None else Some old.

Definition new_identities (l additions : list ManifestEntry) : list CanonicalId :=
  filter (λ id, id ∉ entry_canonical_id <$> l) (entry_canonical_id <$> additions).

Lemma upsert_entry_ok ids l displaced e state :
  upsert_entry (ids, l, displaced) e = Ok state →
  ∃ l', state = ({[entry_canonical_id e]} ∪ ids, l', displaced ++ option_list (displaced_by l e)) ∧
  entry_canonical_id e ∉ ids ∧
  (∀ id, entry_at l' id = if decide (entry_canonical_id e = id) then Some e else entry_at l id) ∧
  entry_canonical_id <$> l' = (entry_canonical_id <$> l) ++ new_identities l [e].
Proof.
  unfold upsert_entry. intros (ids' & (Hi & ->)%insert_new_ok & Hs)%bind_ok.
  assert (∀ k, entry_at (e :: k) (entry_canonical_id e) = Some e) as Hhead.
  { intros k. unfold entry_at. simpl. by rewrite (proj2 (str_eqb_spec _ _) eq_refl). }
  assert (∀ k id, entry_canonical_id e ≠ id → entry_at (e :: k) id = entry_at k id) as Htail.
  { intros k id Hne. unfold entry_at. simpl. by rewrite (proj2 (str_eqb_false _ _)). }
  unfold displaced_by, new_identities. simpl. destruct (position_cases (entry_canonical_id e) l)
    as [(Hf & Ep)|(l1 & old & l2 & El & Hid & Hf & Hn & Ep)]; rewrite Ep in Hs; injection Hs as <-.
  - exists (l ++ [e]). rewrite Hf. simpl. rewrite app_nil_r. split_and!; [done|done| |].
    + intros id. rewrite entry_at_app. destruct (decide _) as [<-|Hne]; [by rewrite Hf, Hhead|].
      rewrite Htail by done. by destruct (entry_at l id).
    + rewrite filter_cons_True by by apply entry_at_none. by rewrite fmap_app.
  - exists (<[length l1 := e]> l). rewrite Hf. simpl. split_and!; [|done| |].
    + f_equal. case_bool_decide; case_bool_decide; case_bool_decide; simpl; rewrite ?app_nil_r; naive_solver.
    + intros id. subst l. rewrite list.insert_app_r_alt, Nat.sub_diag by lia. simpl. rewrite !entry_at_app.
      destruct (decide _) as [<-|Hne].
      * rewrite (proj2 (entry_at_none l1 _)) by done. apply Hhead.
      * destruct (entry_at l1 id); [done|]. rewrite Htail by done. unfold entry_at. simpl.
        rewrite (proj2 (str_eqb_false (entry_canonical_id old) id)); [done|congruence].
    + rewrite filter_cons_False, filter_nil, app_nil_r.
      2: { intros Hc. apply Hc. subst l. rewrite fmap_app. simpl. rewrite Hid. set_solver. }
      subst l. rewrite list.insert_app_r_alt, Nat.sub_diag by lia. rewrite !fmap_app. simpl. by rewrite Hid.
Qed.

(** What a batch of additions does to the entries: the new entry of every
    identity added, the old one of every other, the identities in their old
    order with the new ones after them. *)
Record upserted (l additions l' displaced : list ManifestEntry) : Prop := {
  ups_distinct : NoDup (entry_canonical_id <$> additions);
  ups_entry id : entry_at l' id = match entry_at additions id with Some e => Some e | None => entry_at l id end;
  ups_order : entry_canonical_id <$> l' = (entry_canonical_id <$> l) ++ new_identities l additions;
  ups_displaced : displaced = omap (displaced_by l) additions;
}.

Lemma displaced_by_ext l l' e :
  entry_at l (entry_canonical_id e) = entry_at l' (entry_canonical_id e) → displaced_by l e = displaced_by l' e.
Proof. unfold displaced_by. by intros ->. Qed.

Lemma upsert_fold_ok additions ids l displaced state :
  try_fold upsert_entry (ids, l, displaced) additions = Ok state →
  (∀ e, e ∈ additions → entry_canonical_id e ∉ ids) ∧
  ∃ ids' l' d, state = (ids', l', displaced ++ d) ∧ upserted l additions l' d.
Proof.
  revert ids l displaced. induction additions as [|e additions IH]; intros ids l displaced; simpl.
  { intros [= <-]. split; [by intros ? ?%elem_of_nil|]. exists ids, l, []. rewrite app_nil_r.
    split; [done|]. split; try done; [constructor|]. unfold new_identities. simpl. by rewrite app_nil_r. }
  intros (t & (l1 & -> & Hi & Hat & Hord)%upsert_entry_ok & Hrest)%bind_ok.
  apply IH in Hrest as (Hfresh & ids' & l' & d & -> & [Hnd Hent Ho Hd]). split.
  { intros e' [->|He']%elem_of_cons; [done|]. specialize (Hfresh e' He'). set_solver. }
  assert (entry_canonical_id e ∉ entry_canonical_id <$> additions) as He.
  { intros (e' & E & He')%list_elem_of_fmap. specialize (Hfresh e' He'). set_solver. }
  exists ids', l', (option_list (displaced_by l e) ++ d). split; [by rewrite app_assoc|]. split.
  - simpl. by constructor.
  - intros id. rewrite Hent, Hat. unfold entry_at. simpl. destruct (decide _) as [<-|Hne].
    + rewrite (proj2 (str_eqb_spec _ _) eq_refl). fold (entry_at additions (entry_canonical_id e)).
      by rewrite (proj2 (entry_at_none _ _) He).
    + by rewrite (proj2 (str_eqb_false _ _) Hne).
  - rewrite Ho, Hord, <-app_assoc. f_equal. unfold new_identities. simpl.
    rewrite !filter_cons. rewrite filter_nil.
    assert (filter (λ id, id ∉ entry_canonical_id <$> l1) (entry_canonical_id <$> additions) =
            filter (λ id, id ∉ entry_canonical_id <$> l) (entry_canonical_id <$> additions)) as ->.
    { apply filter_ext_elem. intros id Hid. rewrite Hord. unfold new_identities. simpl.
      assert (id ≠ entry_canonical_id e) by congruence. rewrite filter_cons. case_decide; set_solver. }
    by case_decide.
  - subst d. simpl. destruct (displaced_by l e); simpl; [f_equal|]; apply omap_ext_elem;
      intros e' He'; apply displaced_by_ext; rewrite Hat; (rewrite decide_False; [done|]);
      intros E; apply He; rewrite E; by apply list_elem_of_fmap_2.
Qed.

(** A successful batch upsert leaves a valid manifest that holds exactly the
    entries added and, under every other identity, the entry it held; it
    reports the replaced entries whose file has to go, and the order of the
    old entries stays. *)
Theorem try_upsert_batch_spec m additions displaced m' :
  try_upsert_batch m additions = Ok (displaced, m') →
  manifest_valid m' ∧ schema_version m' = schema_version m ∧
  upserted (entries m) additions (entries m') displaced.
Proof.
  unfold try_upsert_batch. intros H2. ok_inv. destruct x as [[ids l'] d]. ok_inv.
  rename select (try_fold _ _ _ = _) into Hf. rename select (encode_managed _ = _) into He.
  apply upsert_fold_ok in Hf as (_ & ids' & l1 & d' & [= -> -> ->] & Hu).
  apply encode_managed_valid in He. by split_and!.
Qed.

(** *** Removal and enabling *)

Lemma entries_valid_delete l1 e l2 : entries_valid (l1 ++ e :: l2) → entries_valid (l1 ++ l2).
Proof.
  intros [Hv Hi Hs]. split.
  - apply list.Forall_app in Hv as [? [_ ?]%list.Forall_cons]. by apply list.Forall_app.
  - rewrite !fmap_app in *. simpl in Hi. rewrite list.NoDup_app in *. rewrite list.NoDup_cons in Hi. set_solver.
  - rewrite !omap_app in *. simpl in Hs. destruct (entry_slot e); [|done].
    rewrite list.NoDup_app in *. rewrite list.NoDup_cons in Hs. set_solver.
Qed.

Lemma delete_middle {A} (l1 : list A) x l2 : base.delete (length l1) (l1 ++ x :: l2) = l1 ++ l2.
Proof. induction l1 as [|y l1 IH]; simpl; [done|]. by f_equal. Qed.

(** Removal takes away the entry of the identity and nothing else. *)
Theorem remove_spec m id entry m' :
  remove m id = (entry, m') → manifest_valid m →
  manifest_valid m' ∧ entry = find_entry m id ∧ find_entry m' id = None ∧
  ∀ id', id' ≠ id → find_entry m' id' = find_entry m id'.
Proof.
  unfold remove, find_entry. fold (entry_at (entries m) id). intros Hr [Hs Hl Hv].
  destruct (position_cases id (entries m)) as [(Hf & Ep)|(l1 & e & l2 & El & Hid & Hf & Hn & Ep)];
    rewrite Ep in Hr; injection Hr as <- <-; [by split_and!|]. simpl. rewrite El, delete_middle.
  rewrite El in Hl, Hv. rewrite length_app in Hl. simpl in Hl. pose proof (ev_identities _ Hv) as Hi.
  rewrite fmap_app in Hi. simpl in Hi. rewrite Hid in Hi. apply list.NoDup_app in Hi as (_ & _ & Hi).
  apply list.NoDup_cons in Hi as [Hi2 _]. split_and!.
  - split; [done|simpl; rewrite length_app; lia|]. by apply entries_valid_delete in Hv.
  - by rewrite <-El.
  - apply (entry_at_none (l1 ++ l2) id). rewrite fmap_app. set_solver.
  - intros id' Hne. rewrite <-El. change (entry_at (l1 ++ l2) id' = entry_at (entries m) id').
    rewrite El, !entry_at_app. destruct (entry_at l1 id'); [done|]. unfold entry_at. simpl.
    rewrite (proj2 (str_eqb_false (entry_canonical_id e) id')); [done|congruence].
Qed.

(** Enabling changes one flag of one entry. *)
Theorem try_set_enabled_spec m id enabled changed m' :
  try_set_enabled m id enabled = Ok (changed, m') → manifest_valid m →
  manifest_valid m' ∧
  (∀ id', id' ≠ id → find_entry m' id' = find_entry m id') ∧
  find_entry m' id = flip set_enabled_flag enabled <$> find_entry m id ∧
  changed = (λ e, negb (Bool.eqb (entry_enabled e) enabled)) <$> find_entry m id.
Proof.
  unfold try_set_enabled, find_entry. fold (entry_at (entries m) id). intros Hr Hv.
  destruct (position_cases id (entries m)) as [(Hf & Ep)|(l1 & e & l2 & El & Hid & Hf & Hn & Ep)];
    rewrite Ep in Hr; simpl in Hr.
  { injection Hr as <- <-. rewrite Hf. split_and!; [done|done|exact Hf|done]. }
  rewrite Hf. simpl. destruct (Bool.eqb (entry_enabled e) enabled) eqn:Eb.
  { injection Hr as <- <-. split_and!; [done|done| |done]. fold (entry_at (entries m) id). rewrite Hf. f_equal.
    apply eqb_prop in Eb. subst enabled. by destruct e. }
  ok_inv. rename select (encode_managed _ = _) into He. apply encode_managed_valid in He. subst. simpl.
  rewrite El. rewrite list.insert_app_r_alt, Nat.sub_diag by lia. simpl.
  split_and!; [by rewrite El, list.insert_app_r_alt, Nat.sub_diag in He by lia| | |done].
  - intros id' Hne. change (entry_at (l1 ++ set_enabled_flag e enabled :: l2) id' = entry_at (l1 ++ e :: l2) id').
    rewrite !entry_at_app. destruct (entry_at l1 id'); [done|]. unfold entry_at. simpl.
    by rewrite (proj2 (str_eqb_false (entry_canonical_id e) id')) by congruence.
  - change (entry_at (l1 ++ set_enabled_flag e enabled :: l2) (entry_canonical_id e) = Some (set_enabled_flag e enabled)).
    rewrite entry_at_app, (proj2 (entry_at_none _ _) Hn). unfold entry_at. simpl.
    by rewrite (proj2 (str_eqb_spec _ _) eq_refl).
Qed.

(** *** Files on disk *)

(** A name the code can hold: every one comes from [new_exact], which the
    derived deserialiser goes through too. *)
Definition name_formed (name : ManagedContentFileName) : Prop :=
  ∃ value, managed_name_new_exact value = Ok name.

Definition names_formed (m : ContentManifest) : Prop :=
  ∀ e name, e ∈ entries m → entry_filename e = Some name → name_formed name.

(** The manifests a run can hold: decoded ones and what the operations make
    of them. *)
Inductive manifest_reachable : ContentManifest → Prop :=
| reach_decode bytes m :
    decode_managed bytes = Ok m → names_formed m → manifest_reachable m
| reach_upsert m additions displaced m' :
    manifest_reachable m → (∀ e name, e ∈ additions → entry_filename e = Some name → name_formed name) →
    try_upsert_batch m additions = Ok (displaced, m') → manifest_reachable m'
| reach_remove m id entry m' :
    manifest_reachable m → remove m id = (entry, m') → manifest_reachable m'
| reach_enable m id enabled changed m' :
    manifest_reachable m → try_set_enabled m id enabled = Ok (changed, m') → manifest_reachable m'.

Lemma entry_source m' e :
  manifest_valid m' → e ∈ entries m' → find_entry m' (entry_canonical_id e) = Some e.
Proof. intros [_ _ Hv] He. by apply entry_at_elem; [apply Hv|]. Qed.

Lemma manifest_reachable_inv m : manifest_reachable m → manifest_valid m ∧ names_formed m.
Proof.
  induction 1 as [bytes m Hd Hn|m adds displaced m' _ [Hv Hn] Ha Hu|m id entry m' _ [Hv Hn] Hr
    |m id enabled changed m' _ [Hv Hn] Hs].
  - by apply decode_managed_valid in Hd.
  - apply try_upsert_batch_spec in Hu as (Hv' & _ & [_ Hent _ _]). split; [done|].
    intros e name He Hf. pose proof (entry_source m' e Hv' He) as Hs. unfold find_entry in Hs.
    fold (entry_at (entries m') (entry_canonical_id e)) in Hs. rewrite Hent in Hs.
    destruct (entry_at adds _) as [a|] eqn:Ea.
    + injection Hs as ->. apply entry_at_some in Ea as [Ea _]. by eapply Ha.
    + apply entry_at_some in Hs as [Hs _]. by eapply Hn.
  - apply remove_spec in Hr as (Hv' & _ & Hno & Hother); [|done]. split; [done|]. intros e name He Hf.
    pose proof (entry_source m' e Hv' He) as Hs. assert (entry_canonical_id e ≠ id) as Hne by congruence.
    rewrite Hother in Hs by done. apply (entry_at_some (entries m)) in Hs as [Hs _]. by eapply Hn.
  - apply try_set_enabled_spec in Hs as (Hv' & Hother & Hsame & _); [|done]. split; [done|]. intros e name He Hf.
    pose proof (entry_source m' e Hv' He) as Hs. destruct (decide (entry_canonical_id e = id)) as [<-|Hne].
    + rewrite Hsame in Hs. destruct (find_entry m _) as [e0|] eqn:E0; [|done]. injection Hs as <-.
      apply (entry_at_some (entries m)) in E0 as [E0 _]. by eapply (Hn e0).
    + rewrite Hother in Hs by done. apply (entry_at_some (entries m)) in Hs as [Hs _]. by eapply Hn.
Qed.

(** Neither normalization nor case folding crosses the boundary before the
    suffix: a full stop is a starter that composes with nothing. *)
Class UnicodeSuffixLaws : Prop := {
  nfc_disabled s : unicode_nfc (s +:+ ".disabled") = unicode_nfc s +:+ ".disabled";
  case_fold_disabled s : unicode_case_fold (s +:+ ".disabled") = unicode_case_fold s +:+ ".disabled";
}.

Context `{UnicodeSuffixLaws}.

Lemma name_formed_keys name :
  name_formed name →
  ends_with ".disabled" (managed_name_key name) = false ∧
  AppPortablePath.file_name_key (name_disabled name) = managed_name_key name +:+ ".disabled".
Proof.
  intros [value Hv]. unfold managed_name_new_exact in Hv. ok_inv. subst. unfold managed_name_key. simpl.
  split; [done|]. rename select (AppPortablePath.with_suffix _ _ = _) into Hd.
  rename select (AppPortablePath.file_name_new_exact _ = _) into He.
  unfold AppPortablePath.with_suffix, AppPortablePath.file_name_new in Hd. ok_inv. subst.
  unfold AppPortablePath.file_name_new_exact, AppPortablePath.file_name_new in He. ok_inv. subst.
  rename select (str_eqb _ _ = true) into E. apply str_eqb_spec in E.
  unfold AppPortablePath.file_name_key, AppPortablePath.key_from_normalized, AppPortablePath.nfc in *.
  rewrite nfc_disabled. rewrite E, E. by rewrite case_fold_disabled, nfc_disabled.
Qed.

Definition disk_names (name : ManagedContentFileName) : list string := [name_enabled name; name_disabled name].

(** C35: Files of different entries never share a place: in every manifest a run
    can hold, two entries of one kind keep different portable keys whichever
    of them is enabled or disabled, and an entry's own two names differ. *)
Theorem managed_files_never_collide m e1 e2 f1 f2 n1 n2 :
  manifest_reachable m → e1 ∈ entries m → e2 ∈ entries m → entry_kind e1 = entry_kind e2 →
  entry_filename e1 = Some f1 → entry_filename e2 = Some f2 →
  n1 ∈ disk_names f1 → n2 ∈ disk_names f2 →
  AppPortablePath.file_name_key n1 = AppPortablePath.file_name_key n2 → e1 = e2 ∧ n1 = n2.
Proof.
  intros [Hv Hn]%manifest_reachable_inv He1 He2 Hk Hf1 Hf2 Hn1 Hn2 Hkey.
  destruct (name_formed_keys f1 (Hn _ _ He1 Hf1)) as [Hs1 Hd1].
  destruct (name_formed_keys f2 (Hn _ _ He2 Hf2)) as [Hs2 Hd2].
  assert (managed_name_key f1 = managed_name_key f2 ∧ (n1 = name_enabled f1 ↔ n2 = name_enabled f2)) as [Hsame Hiff].
  { assert (∀ a b, a = b +:+ ".disabled" → ends_with ".disabled" a = true) as Hend
      by (intros a b ->; apply ends_with_spec; by exists b).
    assert (name_enabled f1 ≠ name_disabled f1) as Hne1.
    { intros E. pose proof (Hend _ _ Hd1) as H4. rewrite <-E in H4. unfold managed_name_key in Hs1. congruence. }
    assert (name_enabled f2 ≠ name_disabled f2) as Hne2.
    { intros E. pose proof (Hend _ _ Hd2) as H4. rewrite <-E in H4. unfold managed_name_key in Hs2. congruence. }
    unfold disk_names in Hn1, Hn2. rewrite !elem_of_cons, elem_of_nil in Hn1, Hn2.
    destruct Hn1 as [->|[->|[]]], Hn2 as [->|[->|[]]]; unfold managed_name_key in *.
    - done.
    - exfalso. rewrite Hd2 in Hkey. by rewrite (Hend _ _ Hkey) in Hs1.
    - exfalso. rewrite Hd1 in Hkey. by rewrite (Hend _ _ (eq_sym Hkey)) in Hs2.
    - rewrite Hd1, Hd2 in Hkey. apply str_app_inj in Hkey as [Hkey _]; [split; [done|]; by split; intros E; exfalso; eauto|].
      apply (f_equal String.length) in Hkey. rewrite !str_app_length in Hkey. lia. }
  assert (e1 = e2) as <-.
  { destruct Hv as [_ _ [_ _ Hslots]].
    assert (∀ l, NoDup (omap entry_slot l) → e1 ∈ l → e2 ∈ l → e1 = e2) as Hinj; [|by apply (Hinj (entries m))].
    assert (entry_slot e1 = Some (entry_kind e1, managed_name_key f1)) as Es1 by (unfold entry_slot; by rewrite Hf1).
    assert (entry_slot e2 = Some (entry_kind e1, managed_name_key f1)) as Es2
      by (unfold entry_slot; by rewrite Hf2, Hk, Hsame).
    clear -Es1 Es2. induction l as [|e l IH]; intros Hnd H4 H5; [by apply elem_of_nil in H4|].
    simpl in Hnd. apply elem_of_cons in H4 as [->|H4], H5 as [->|H5]; [done| | |].
    - rewrite Es1 in Hnd. apply list.NoDup_cons in Hnd as [[] _]. apply list_elem_of_omap. eauto.
    - rewrite Es2 in Hnd. apply list.NoDup_cons in Hnd as [[] _]. apply list_elem_of_omap. eauto.
    - apply IH; [|done|done]. destruct (entry_slot e); [|done]. by apply list.NoDup_cons in Hnd as [_ ?]. }
  split; [done|]. rewrite Hf1 in Hf2. injection Hf2 as <-. unfold disk_names in Hn1, Hn2.
  rewrite !elem_of_cons, elem_of_nil in Hn1, Hn2. naive_solver.
Qed.
End manifest.

(** ** Evaluation *)

#[export] Instance plain_suffix_laws : @UnicodeSuffixLaws McPortablePath.plain_norm.
Proof.
  split; [done|]. intros s. cbn [unicode_case_fold McPortablePath.plain_norm].
  by rewrite to_ascii_lowercase_app.
Qed.

Module Demo.
#[local] Existing Instance McPortablePath.plain_norm.
#[local] Instance demo_json : ManifestJson := {| to_vec_pretty := λ _, Some "{}"; from_slice := λ _, None |}.
#[local] Instance demo_rfc3339 : Rfc3339 := λ _, true.

Fixpoint repeat_byte (n : nat) (c : ascii) : string :=
  match n with O => "" | S n => String c (repeat_byte n c) end.

Definition demo_file (filename : string) : FileRef := {|
  file_url := "https://cdn.modrinth.com/a.jar"; file_filename := filename; file_sha1 := None;
  file_sha512 := Some (repeat_byte 128 "a"); file_size := Some 3; file_primary := true |}.

Definition demo_entry (project : string) (filename : string) : result ContentError ManifestEntry :=
  managed "2024-02-29T12:34:56Z" (for_project ProviderModrinth project) ProviderModrinth project "v1"
    KindMod (demo_file filename) [] (Some "title").

Definition demo_manifest : result ContentError ContentManifest :=
  a ← demo_entry "AABBCC" "sodium.jar"; b ← demo_entry "DDEEFF" "iris.jar";
  state ← try_upsert_batch default_manifest [a; b]; Ok state.2.

(** A file name that differs only in case is refused. *)
Example demo_collision :
  (m ← demo_manifest; c ← demo_entry "GGHHII" "Iris.JAR"; state ← try_upsert m c; Ok state.2) =
  Err (Invalid "duplicate portable content path").
Proof. vm_compute. done. Qed.

Example demo_disabled_name_refused : is_ok (demo_entry "AABBCC" "sodium.jar.disabled") = false.
Proof. vm_compute. done. Qed.

Definition demo_pair : list ManifestEntry :=
  match demo_entry "AABBCC" "sodium.jar", demo_entry "DDEEFF" "iris.jar" with
  | Ok a, Ok b => [a; b]
  | _, _ => []
  end.

Definition demo_upserted : list ManifestEntry * ContentManifest :=
  match try_upsert_batch default_manifest demo_pair with
  | Ok state => state
  | Err _ => ([], default_manifest)
  end.

Lemma demo_upsert_ok : try_upsert_batch default_manifest demo_pair = Ok (demo_upserted.1, demo_upserted.2).
Proof. vm_compute. reflexivity. Qed.

Lemma try_upsert_batch_spec_witness :
  manifest_valid demo_upserted.2 ∧
  is_ok (try_upsert_batch default_manifest demo_pair) = true ∧
  entry_canonical_id <$> entries demo_upserted.2 = ["modrinth:AABBCC"; "modrinth:DDEEFF"].
Proof.
  destruct (try_upsert_batch_spec default_manifest demo_pair demo_upserted.1 demo_upserted.2 demo_upsert_ok)
    as (Hv & _ & [_ _ Ho _]).
  split; [exact Hv|]. split; [vm_compute; reflexivity|exact Ho].
Defined.

Lemma demo_names_formed e name : e ∈ demo_pair → entry_filename e = Some name → name_formed name.
Proof.
  intros He Hn. eapply list_elem_of_In in He. vm_compute in He.
  destruct He as [<-|[<-|[]]]; injection Hn as <-; [exists "sodium.jar"|exists "iris.jar"]; vm_compute; reflexivity.
Qed.

Lemma demo_reachable : manifest_reachable demo_upserted.2.
Proof.
  apply (reach_upsert default_manifest demo_pair demo_upserted.1); [|apply demo_names_formed|apply demo_upsert_ok].
  apply (reach_decode None); [done|]. intros e name He. by apply elem_of_nil in He.
Qed.

Definition blank_entry : ManifestEntry := {|
  entry_canonical_id := ""; entry_provider := ProviderModrinth; entry_project_id := "";
  entry_version_id := ""; entry_kind := KindModpack; entry_filename := None; entry_sha512 := None;
  entry_size := None; entry_dependencies := []; entry_enabled := false; entry_installed_at := "";
  entry_title := None; entry_pack_installation := None |}.

Definition demo_nth (i : nat) : ManifestEntry := nth i (entries demo_upserted.2) blank_entry.

Lemma managed_files_never_collide_witness :
  AppPortablePath.file_name_key "sodium.jar.disabled" ≠ AppPortablePath.file_name_key "iris.jar.disabled".
Proof.
  intros E.
  destruct (managed_files_never_collide demo_upserted.2 (demo_nth 0) (demo_nth 1)
    {| name_enabled := "sodium.jar"; name_disabled := "sodium.jar.disabled" |}
    {| name_enabled := "iris.jar"; name_disabled := "iris.jar.disabled" |}
    "sodium.jar.disabled" "iris.jar.disabled" demo_reachable) as [_ H].
  - apply list_elem_of_In. vm_compute. by left.
  - apply list_elem_of_In. vm_compute. right. by left.
  - vm_compute. reflexivity.
  - vm_compute. reflexivity.
  - vm_compute. reflexivity.
  - right. left.
  - right. left.
  - exact E.
  - discriminate H.
Defined.
End Demo.
