(* ===== verification/ContentVersions.v ===== *)
(** * Choosing versions and reading dependencies
    ([core/app/src/content/resolve.rs], [install.rs])

    The pure decisions of the resolver: which kinds a target accepts, which
    provider versions match it, how versions rank, which one is picked or
    offered as an update, how dependency records are canonicalised and
    ordered, when two pieces of content exclude each other, and which
    published file may be installed. *)

From S2P Require Import Prelude RustStr ContentModel ContentUrl ContentPackPath ContentProvenance.
From S2P Require McPortablePath AppPortablePath.
Import McPortablePath (UnicodeNorm).

Record ResolutionTarget := {
  target_loader : string;
  target_game_version : string;
  supports_mods : bool;
}.

#[global] Instance ResolutionTarget_eq_dec : EqDecision ResolutionTarget.
Proof. solve_decision. Defined.

Definition filter_for (self : ResolutionTarget) (kind : ContentKind) : LoaderGameFilter := {|
  filter_loader := if filters_by_loader kind && supports_mods self then Some (target_loader self) else None;
  filter_game_version := if is_empty (target_game_version self) then None else Some (target_game_version self);
|}.

Definition release_channel_rank (channel : ReleaseChannel) : nat :=
  match channel with Release => 2 | Beta => 1 | Alpha => 0 end.

Definition compare_version_rank (left right : ContentVersion) : comparison :=
  then_with (Nat.compare (release_channel_rank (version_channel left)) (release_channel_rank (version_channel right)))
    (then_with (opt_cmp str_cmp (version_published left) (version_published right))
      (str_cmp (version_id left) (version_id right))).

Definition version_matches_filter (version : ContentVersion) (filter : LoaderGameFilter) : bool :=
  is_none_or (filter_game_version filter) (λ game_version,
    existsb (λ candidate, str_eqb candidate game_version) (version_game_versions version)) &&
  is_none_or (filter_loader filter) (λ loader,
    existsb (λ candidate, str_eqb candidate loader) (version_loaders version)).

Definition version_matches_target (version : ContentVersion) (target : ResolutionTarget) (kind : ContentKind) : bool :=
  version_matches_filter version (filter_for target kind).

Definition has_primary (version : ContentVersion) : bool :=
  match primary_file version with Some _ => true | None => false end.

Definition pick_version (versions : list ContentVersion) (forced : option string) : option ContentVersion :=
  match forced with
  | Some forced => List.find (λ version, str_eqb (version_id version) forced && has_primary version) versions
  | None => max_by compare_version_rank (filter (λ version, has_primary version = true) versions)
  end.

Definition pick_compatible_version (versions : list ContentVersion) (forced : option string)
    (target : ResolutionTarget) (kind : ContentKind) : option ContentVersion :=
  match forced with
  | Some forced =>
      List.find (λ version, str_eqb (version_id version) forced && version_matches_target version target kind) versions
  | None =>
      max_by compare_version_rank
        (filter (λ version, has_primary version = true)
          (filter (λ version, version_matches_target version target kind = true) versions))
  end.

Definition newer_version (versions : list ContentVersion) (current_version_id : string) : option ContentVersion :=
  picked ← pick_version versions None;
  if str_eqb (version_id picked) current_version_id then None
  else match List.find (λ version, str_eqb (version_id version) current_version_id) versions with
       | Some current => if is_gt (compare_version_rank picked current) then Some picked else None
       | None => Some picked
       end.

Definition dependency_kind_rank (kind : DependencyKind) : nat :=
  match kind with Required => 0 | Incompatible => 1 | Optional => 2 | Embedded => 3 end.

Definition compare_dependencies (left right : ContentDependency) : comparison :=
  then_with (Nat.compare (dependency_kind_rank (dep_kind left)) (dependency_kind_rank (dep_kind right)))
    (then_with (opt_cmp str_cmp (dep_project_id left) (dep_project_id right))
      (opt_cmp str_cmp (dep_version_id left) (dep_version_id right))).

Definition canonicalize_dependency (versions : gmap string VersionIdentity)
    (dependency : ContentDependency) : ContentDependency :=
  match dep_project_id dependency, dep_version_id dependency ≫= (λ version_id, versions !! version_id) with
  | None, Some identity =>
      {| dep_project_id := Some (ident_project_id identity);
         dep_version_id := dep_version_id dependency; dep_kind := dep_kind dependency |}
  | _, _ => dependency
  end.

Definition canonicalize_version_only_dependencies (dependencies : list ContentDependency)
    (versions : gmap string VersionIdentity) : list ContentDependency :=
  canonicalize_dependency versions <$> dependencies.

Definition has_unresolved_version_only_incompatibility (dependencies : list ContentDependency) : bool :=
  existsb (λ dependency,
    bool_decide (dep_kind dependency = Incompatible) && is_none (dep_project_id dependency) &&
    negb (is_none (dep_version_id dependency))) dependencies.

Definition incompatible_dependency_matches (dependency : ContentDependency) (project_id version_id : string) : bool :=
  if bool_decide (dep_kind dependency ≠ Incompatible) then false
  else match dep_project_id dependency with
       | Some exact_project =>
           str_eqb exact_project project_id &&
           is_none_or (dep_version_id dependency) (λ exact_version, str_eqb exact_version version_id)
       | None => opt_eqb (dep_version_id dependency) version_id
       end.

Definition version_conflicts_with_installed (version : ContentVersion) (own_id : CanonicalId)
    (installed : list ManifestEntry) : bool :=
  let current_version_id :=
    match List.find (λ entry, str_eqb (entry_canonical_id entry) own_id) installed with
    | Some entry => entry_version_id entry
    | None => ""
    end in
  let candidate_declares_conflict :=
    existsb (λ dependency,
      existsb (λ entry,
        negb (str_eqb (entry_canonical_id entry) own_id) &&
        incompatible_dependency_matches dependency (entry_project_id entry) (entry_version_id entry)) installed)
      (version_dependencies version) in
  if candidate_declares_conflict then true
  else existsb (λ entry,
    negb (str_eqb (entry_canonical_id entry) own_id) &&
    existsb (λ dependency,
      incompatible_dependency_matches dependency (project_id own_id) (version_id version) ||
      rejects_required_version dependency (project_id own_id) current_version_id (version_id version))
      (entry_dependencies entry)) installed.

Definition resolved_install_state (existing : option ManifestEntry) (live_content : LiveManagedContent)
    (resolved_version_id : string) : bool * bool :=
  let already_installed := is_some_and existing (live_contains live_content) in
  let update := already_installed &&
    is_some_and existing (λ entry, negb (str_eqb (entry_version_id entry) resolved_version_id)) in
  (already_installed, update).

Definition installed_entries_incompatible_with (manifest : ContentManifest) (candidate : CanonicalId)
    (candidate_version_id : string) (live_content : LiveManagedContent) : list ManifestEntry :=
  filter (λ entry,
    existsb (λ dependency, incompatible_dependency_matches dependency (project_id candidate) candidate_version_id)
      (entry_dependencies entry) = true)
    (filter (λ entry, live_contains live_content entry = true)
      (filter (λ entry, negb (str_eqb (entry_canonical_id entry) candidate) = true) (entries manifest))).

Definition MAX_CONTENT_FILE_BYTES : Z := 512 * 1024 * 1024.

Section artifacts.
Context `{UnicodeNorm} `{UrlParser}.

(** [install.rs]; the loopback URLs of the test-support build are not
    admitted. *)
Definition validate_planned_artifact (kind : ContentKind) (file : FileRef) :
    result ContentError (Z * ManagedContentFileName) :=
  let invalid := ProviderMetadataInvalid "content artifact has invalid path, size, or integrity metadata" in
  err_if (is_none (install_subdir kind)) invalid ;;
  name ← map_err (λ _, invalid) (managed_name_new_exact (file_filename file));
  err_if (bool_decide (kind = KindMod) && negb (ends_with ".jar" (managed_name_key name))) invalid ;;
  size ← ok_or invalid
    (size ← file_size file; if in_range 1 MAX_CONTENT_FILE_BYTES size then Some size else None);
  err_if (negb (is_some_and (file_sha512 file) valid_sha512) ||
          is_some_and (file_sha1 file) (λ hash, negb (str_len hash =? 40) || negb (sforall is_hexdigit hash)))
    invalid ;;
  err_if (negb (is_ok (validate_download_url (file_url file)))) invalid ;;
  Ok (size, name).

Record PlannedFile := {
  planned_canonical_id : CanonicalId;
  planned_provider : ProviderId;
  planned_project_id : string;
  planned_version_id : string;
  planned_kind : ContentKind;
  planned_file : FileRef;
  planned_dependencies : list ContentDependency;
  planned_title : option string;
}.

Definition planned_new `{Rfc3339} (now : string) (canonical_id : CanonicalId) (provider : ProviderId)
    (project_id version_id : string) (kind : ContentKind) (file : FileRef)
    (dependencies : list ContentDependency) (title : option string) : result ContentError PlannedFile :=
  validate_planned_artifact kind file ;;
  managed now canonical_id provider project_id version_id kind file dependencies title ;;
  Ok {| planned_canonical_id := canonical_id; planned_provider := provider; planned_project_id := project_id;
        planned_version_id := version_id; planned_kind := kind; planned_file := file;
        planned_dependencies := dependencies; planned_title := title |}.

Definition planned_entry `{Rfc3339} (now : string) (self : PlannedFile) : result ContentError ManifestEntry :=
  managed now (planned_canonical_id self) (planned_provider self) (planned_project_id self)
    (planned_version_id self) (planned_kind self) (planned_file self) (planned_dependencies self)
    (planned_title self).
End artifacts.

(** ** Lemmas *)

#[global] Instance compare_version_rank_preorder : CmpPreorder compare_version_rank.
Proof.
  apply (cmp_preorder_ext _ (cmp_then (cmp_on (release_channel_rank ∘ version_channel) Nat.compare)
    (cmp_then (cmp_on version_published (opt_cmp str_cmp)) (cmp_on version_id str_cmp)))); [done|apply _].
Qed.

#[global] Instance compare_dependencies_preorder : CmpPreorder compare_dependencies.
Proof.
  apply (cmp_preorder_ext _ (cmp_then (cmp_on (dependency_kind_rank ∘ dep_kind) Nat.compare)
    (cmp_then (cmp_on dep_project_id (opt_cmp str_cmp)) (cmp_on dep_version_id (opt_cmp str_cmp))))); [done|apply _].
Qed.

(** Versions that rank alike are the same version of the project. *)
Lemma compare_version_rank_eq a b : compare_version_rank a b = Eq → version_id a = version_id b.
Proof.
  unfold compare_version_rank. destruct (Nat.compare _ _); simpl; [|done..].
  destruct (opt_cmp _ _ _); simpl; [|done..]. apply (cmp_eq str_cmp).
Qed.

(** The order of dependencies is total, so sorting gives one order whatever
    order the provider used. *)
Lemma compare_dependencies_eq a b : compare_dependencies a b = Eq → a = b.
Proof.
  unfold compare_dependencies. destruct (Nat.compare _ _) eqn:Ek; simpl; [|done..].
  destruct (opt_cmp _ _ _) eqn:Ep; simpl; [|done..]. intros Ev.
  apply (cmp_eq Nat.compare) in Ek. apply (cmp_eq (opt_cmp str_cmp)) in Ep, Ev.
  destruct a as [pa va ka], b as [pb vb kb]. simpl in *. subst. f_equal. by destruct ka, kb.
Qed.

Lemma has_primary_spec version : has_primary version = true ↔ ∃ file, primary_file version = Some file.
Proof. unfold has_primary. destruct (primary_file version); naive_solver. Qed.

Lemma pick_compatible_version_spec versions forced target kind version :
  pick_compatible_version versions forced target kind = Some version →
  version ∈ versions ∧ version_matches_target version target kind = true ∧
  (∀ v, forced = Some v → version_id version = v).
Proof.
  destruct forced as [v|]; simpl.
  - intros [Hin E]%List.find_some. apply andb_true_iff in E as [E ?]. apply str_eqb_spec in E.
    split_and!; [by apply list_elem_of_In|done|congruence].
  - intros [Hin _]%(max_by_spec _). rewrite !list_elem_of_filter in Hin. naive_solver.
Qed.

Lemma incompatible_matches_kind dependency p v :
  incompatible_dependency_matches dependency p v = true → dep_kind dependency = Incompatible.
Proof. unfold incompatible_dependency_matches. case_bool_decide as Hk; [done|]. by destruct (dep_kind dependency). Qed.

(** ** Choosing does not depend on the provider's order *)

Lemma max_by_perm {A} (f : A → A → comparison) `{!CmpPreorder f} l k :
  (∀ x y, x ∈ l → y ∈ l → f x y = Eq → x = y) → l ≡ₚ k → max_by f l = max_by f k.
Proof.
  intros Hinj Hp. destruct (max_by f l) as [x|] eqn:El.
  - destruct (max_by f k) as [y|] eqn:Ek.
    + apply (max_by_spec f) in El as [Hx Hlx]. apply (max_by_spec f) in Ek as [Hy Hly].
      f_equal. apply Hinj; [done|by rewrite Hp|].
      specialize (Hlx y ltac:(by rewrite Hp)). specialize (Hly x ltac:(by rewrite <-Hp)).
      rewrite (cmp_antisym f x y) in Hly. by destruct (f x y).
    + apply max_by_none in Ek as ->. by apply Permutation_nil_r in Hp; subst l.
  - apply max_by_none in El as ->. by apply Permutation_nil_l in Hp; subst k.
Qed.

Lemma find_id_perm versions versions' id :
  NoDup (version_id <$> versions) → versions ≡ₚ versions' →
  List.find (λ version, str_eqb (version_id version) id) versions =
  List.find (λ version, str_eqb (version_id version) id) versions'.
Proof.
  intros Hn Hp.
  assert (∀ l v, List.find (λ version, str_eqb (version_id version) id) l = Some v → v ∈ l ∧ version_id v = id) as Hs.
  { intros l v [Hin E]%List.find_some. split; [by apply list_elem_of_In|by apply str_eqb_spec]. }
  assert (∀ l v, List.find (λ version, str_eqb (version_id version) id) l = None → v ∈ l → version_id v ≠ id) as Hno.
  { intros l v Hf Hin%list_elem_of_In. apply str_eqb_false. apply (List.find_none _ _ Hf v Hin). }
  destruct (List.find _ versions) as [v|] eqn:E1, (List.find _ versions') as [v'|] eqn:E2; try done.
  - apply Hs in E1 as [H1 I1], E2 as [H2 I2]. f_equal. rewrite <-Hp in H2.
    eapply (NoDup_fmap_inj version_id versions); [done|done|done|congruence].
  - apply Hs in E1 as [H1 I1]. rewrite Hp in H1. by eapply Hno in E2.
  - apply Hs in E2 as [H1 I1]. rewrite <-Hp in H1. by eapply Hno in E1.
Qed.

Lemma rank_inj versions x y :
  NoDup (version_id <$> versions) → x ∈ versions → y ∈ versions → compare_version_rank x y = Eq → x = y.
Proof. intros Hn Hx Hy E%compare_version_rank_eq. by eapply NoDup_fmap_inj. Qed.

Lemma pick_version_perm versions versions' :
  NoDup (version_id <$> versions) → versions ≡ₚ versions' →
  pick_version versions None = pick_version versions' None.
Proof.
  intros Hn Hp. unfold pick_version. apply (max_by_perm _); [|by rewrite Hp].
  intros x y [_ Hx]%list_elem_of_filter [_ Hy]%list_elem_of_filter. by apply rank_inj with versions.
Qed.

(** What [newer_version] offers. *)
Lemma newer_version_some versions current version :
  NoDup (version_id <$> versions) → newer_version versions current = Some version →
  version ∈ versions ∧ has_primary version = true ∧ version_id version ≠ current ∧
  (∀ other, other ∈ versions → has_primary other = true → compare_version_rank version other ≠ Lt) ∧
  (∀ other, other ∈ versions → version_id other = current → compare_version_rank version other = Gt).
Proof.
  intros Hn Hv. unfold newer_version in Hv. apply bind_Some in Hv as (picked & Hpick & Hv).
  apply (max_by_spec _) in Hpick as [Hin Hmax]. apply list_elem_of_filter in Hin as [Hprim Hin].
  destruct (str_eqb (version_id picked) current) eqn:Eid; [done|]. apply str_eqb_false in Eid.
  assert (picked = version) as ->.
  { destruct (List.find _ versions); [destruct (is_gt _)|]; naive_solver. }
  split_and!; [done|done|done| |].
  - intros other Ho Hpo. apply Hmax. by apply list_elem_of_filter.
  - intros other Ho Hid. destruct (List.find (λ v, str_eqb (version_id v) current) versions) as [found|] eqn:Ef.
    + apply List.find_some in Ef as [Hf Hfid]. apply str_eqb_spec in Hfid. apply list_elem_of_In in Hf.
      assert (found = other) as -> by (eapply (NoDup_fmap_inj version_id); [done..|congruence]).
      by destruct (compare_version_rank version other).
    + apply list_elem_of_In in Ho. apply (List.find_none _ _ Ef) in Ho. by apply str_eqb_false in Ho.
Qed.

(** The update offered for an installed version is the best installable
    version of the project: nothing installable ranks above it, it ranks
    strictly above the installed version wherever the provider still lists
    that, and the order of the provider's answer does not matter. *)
Theorem newer_version_best versions versions' current version :
  NoDup (version_id <$> versions) → versions ≡ₚ versions' →
  newer_version versions current = Some version →
  newer_version versions' current = Some version ∧
  version ∈ versions ∧ has_primary version = true ∧ version_id version ≠ current ∧
  (∀ other, other ∈ versions → has_primary other = true → compare_version_rank version other ≠ Lt) ∧
  (∀ other, other ∈ versions → version_id other = current → compare_version_rank version other = Gt).
Proof.
  intros Hn Hp Hv. split; [|by apply newer_version_some]. rewrite <-Hv. unfold newer_version.
  by rewrite (pick_version_perm _ _ Hn Hp), (find_id_perm _ _ current Hn Hp).
Qed.

(** ** The artifact admitted for installation *)

Lemma validate_planned_artifact_ok `{UnicodeNorm, UrlParser} kind file size name :
  validate_planned_artifact kind file = Ok (size, name) →
  kind ≠ KindModpack ∧ file_size file = Some size ∧ 1 ≤ size ≤ MAX_CONTENT_FILE_BYTES ∧
  managed_name_new_exact (file_filename file) = Ok name ∧
  is_some_and (file_sha512 file) valid_sha512 = true ∧
  is_ok (validate_download_url (file_url file)) = true.
Proof.
  unfold validate_planned_artifact. intros H1. ok_inv. subst.
  rename select (_ = Some size) into Hs. apply bind_Some in Hs as (s & Hs & Hr).
  destruct (in_range 1 MAX_CONTENT_FILE_BYTES s) eqn:E; [|done]. injection Hr as ->.
  unfold in_range in E. split_and!; try done; [by destruct kind|lia..].
Qed.
