(* ===== verification/ContentProvider.v ===== *)
(** * The provider client ([core/app/src/content/provider.rs], [catalog.rs])

    Reading Modrinth: the decoded responses, their validation and their
    translation into the content model, and the batched reads of the content
    service.  HTTP, URL joining and JSON decoding are the parameter
    [Transport]; what the code does with their results is translated.  The
    [test-support] build, which also admits loopback URLs, is not. *)

From S2P Require Import Prelude RustStr Effect ContentModel ContentUrl ContentProvenance.

Definition MAX_PROVIDER_METADATA_BYTES : Z := 4 * 1024 * 1024.
Definition MAX_PROVIDER_BATCH_ITEMS : nat := 4096.
Definition MAX_PROVIDER_ID_BYTES : Z := 256.
Definition MAX_BULK_IDS : nat := 100.

(** ** Responses ([dto]) *)

Record Project := {
  project_dto_id : string;
  project_dto_title : string;
  project_dto_type : string;
}.

Inductive DependencyType := TypeRequired | TypeOptional | TypeIncompatible | TypeEmbedded.

Record Dependency := {
  dto_version_id : option string;
  dto_project_id : option string;
  dto_file_name : option string;
  dto_dependency_type : DependencyType;
}.

Record VersionFile := {
  vfile_sha1 : option string;
  vfile_sha512 : option string;
  vfile_url : string;
  vfile_filename : string;
  vfile_primary : bool;
  vfile_size : option Z;
}.

Record Version := {
  vdto_id : string;
  vdto_project_id : string;
  vdto_name : string;
  vdto_version_number : string;
  vdto_dependencies : list Dependency;
  vdto_game_versions : list string;
  vdto_version_type : string;
  vdto_loaders : list string;
  vdto_downloads : Z;
  vdto_date_published : option string;
  vdto_files : list VersionFile;
}.

(** ** Validation and mapping *)

Definition kind_from_project_type (project_type : string) : option ContentKind :=
  if str_eqb project_type "mod" then Some KindMod
  else if str_eqb project_type "modpack" then Some KindModpack
  else if str_eqb project_type "resourcepack" then Some KindResourcePack
  else if str_eqb project_type "shader" then Some KindShaderPack
  else None.

Definition valid_provider_identity (value : string) : bool :=
  negb (is_empty value) && (str_len value <=? MAX_PROVIDER_ID_BYTES) &&
  sforall (λ c, is_alphanumeric c || Ascii.eqb c "-" || Ascii.eqb c "_") value.

Definition valid_hash (value : string) (length : Z) : bool :=
  (str_len value =? length) && sforall (λ c, is_digit c || (97 <=? byte_n c)%N && (byte_n c <=? 102)%N) value.

Definition validate_provider_identity (label value : string) : result ContentError unit :=
  err_if (negb (valid_provider_identity value))
    (ProviderMetadataInvalid ("content " +:+ label +:+ " identity is invalid")).

Definition validate_facet (value : string) : result ContentError unit :=
  err_if ((128 <? str_len value) || existsb (λ ch, is_control ch || str_eqb ch ":") (chars value))
    (Invalid "invalid content search filter").

Definition validate_filter (filter : LoaderGameFilter) : result ContentError unit :=
  try_for_each validate_facet (option_list (filter_loader filter) ++ option_list (filter_game_version filter)).

Definition validate_batch_item_count (count : nat) : result ContentError unit :=
  err_if (MAX_PROVIDER_BATCH_ITEMS <? count)%nat
    (Invalid "content provider batch input exceeds its item bound").

Definition duplicate_batch_input (label : string) : ContentError :=
  Invalid ("content provider batch contains a duplicate " +:+ label +:+ " input").

Definition validate_unique_identity_inputs (label : string) (values : list string) : result ContentError unit :=
  try_fold (λ seen value,
    err_if (negb (valid_provider_identity value))
      (Invalid ("content provider " +:+ label +:+ " input is invalid")) ;;
    insert_new (duplicate_batch_input label) seen value) (∅ : gset string) values ;;
  Ok tt.

Definition validate_unique_hash_inputs (values : list string) : result ContentError unit :=
  try_fold (λ seen value,
    err_if (negb (valid_hash value 128)) (Invalid "content provider hash input is invalid") ;;
    insert_new (duplicate_batch_input "hash") seen value) (∅ : gset string) values ;;
  Ok tt.

Definition validate_batch_result_identity (label value : string) (requested : list string) (seen : gset string) :
    result ContentError (gset string) :=
  let identity_valid :=
    if str_eqb label "hash" then valid_hash value 128 else valid_provider_identity value in
  err_if (negb identity_valid || negb (existsb (str_eqb value) requested))
    (ProviderMetadataInvalid ("content provider returned an unexpected " +:+ label +:+ " identity")) ;;
  insert_new (ProviderMetadataInvalid ("content provider returned a duplicate " +:+ label +:+ " identity")) seen value.

Definition project_id_of (id : CanonicalId) : result ContentError string :=
  ok_or (Invalid "invalid Modrinth project identity")
    (rest ← strip_prefix "modrinth:" id; if valid_provider_identity rest then Some rest else None).

Definition release_channel (version_type : string) : result ContentError ReleaseChannel :=
  if str_eqb version_type "release" then Ok Release
  else if str_eqb version_type "beta" then Ok Beta
  else if str_eqb version_type "alpha" then Ok Alpha
  else Err (ProviderMetadataInvalid "content version has an unknown release channel").

Definition map_file `{UrlParser} (file : VersionFile) : result ContentError FileRef :=
  err_if ((8192 <? str_len (vfile_url file)) || is_empty (vfile_filename file) ||
          (1024 <? str_len (vfile_filename file))) (ProviderMetadataInvalid "invalid content file reference") ;;
  url ← ok_or (ProviderMetadataInvalid "invalid content file URL") (url_parse (vfile_url file));
  err_if (negb (str_eqb (url_scheme url) "https") || is_none (url_host url) ||
          negb (is_empty (url_username url)) || negb (is_none (url_password url)) ||
          negb (is_none (url_fragment url))) (ProviderMetadataInvalid "invalid content file URL") ;;
  err_if (is_some_and (vfile_sha1 file) (λ value, negb (valid_hash value 40)) ||
          is_some_and (vfile_sha512 file) (λ value, negb (valid_hash value 128)))
    (ProviderMetadataInvalid "invalid content file checksum") ;;
  Ok {| file_url := vfile_url file; file_filename := vfile_filename file; file_sha1 := vfile_sha1 file;
        file_sha512 := vfile_sha512 file; file_size := vfile_size file; file_primary := vfile_primary file |}.

Definition dependency_kind (type : DependencyType) : DependencyKind :=
  match type with
  | TypeRequired => Required | TypeOptional => Optional
  | TypeIncompatible => Incompatible | TypeEmbedded => Embedded
  end.

(** A dependency without identity: an embedded file needs none, a named
    required one is kept so that installation can refuse it. *)
Definition map_dependency (dependency : Dependency) : result ContentError (option ContentDependency) :=
  let kind := dependency_kind (dto_dependency_type dependency) in
  try_for_each (validate_provider_identity "dependency project") (option_list (dto_project_id dependency)) ;;
  try_for_each (validate_provider_identity "dependency version") (option_list (dto_version_id dependency)) ;;
  let mapped := Some {| dep_project_id := dto_project_id dependency;
                        dep_version_id := dto_version_id dependency; dep_kind := kind |} in
  if is_none (dto_project_id dependency) && is_none (dto_version_id dependency) then
    let named := is_some_and (dto_file_name dependency) (λ label,
      negb (is_empty (trim label)) && (str_len label <=? 1024) && negb (has_control label)) in
    match kind with
    | Embedded =>
        if named || is_none (dto_file_name dependency) then Ok None
        else Err (ProviderMetadataInvalid "content dependency has no project or version identity")
    | Required =>
        if named then Ok mapped
        else Err (ProviderMetadataInvalid "content dependency has no project or version identity")
    | _ => Err (ProviderMetadataInvalid "content dependency has no project or version identity")
    end
  else Ok mapped.

(** [filter_map(|dependency| map_dependency(dependency).transpose())
    .collect::<Result<_, _>>()]. *)
Definition map_dependencies (dependencies : list Dependency) : result ContentError (list ContentDependency) :=
  mapped ← try_map map_dependency dependencies;
  Ok (omap (λ dependency, dependency) (mapped : list (option ContentDependency))).

Definition map_version `{UrlParser} (version : Version) : result ContentError ContentVersion :=
  validate_provider_identity "version" (vdto_id version) ;;
  validate_provider_identity "project" (vdto_project_id version) ;;
  err_if ((256 <? length (vdto_dependencies version))%nat || (256 <? length (vdto_files version))%nat)
    (ProviderMetadataInvalid "too many content version records") ;;
  channel ← release_channel (vdto_version_type version);
  files ← try_map map_file (vdto_files version);
  dependencies ← map_dependencies (vdto_dependencies version);
  Ok {| version_id := vdto_id version; version_name := vdto_name version;
        version_number := vdto_version_number version; version_game_versions := vdto_game_versions version;
        version_loaders := vdto_loaders version; version_channel := channel;
        version_published := vdto_date_published version; version_downloads := vdto_downloads version;
        version_files := files; version_dependencies := dependencies |}.

Definition map_project_versions `{UrlParser} (requested_project_id : string) (versions : list Version) :
    result ContentError (list ContentVersion) :=
  err_if (MAX_PROVIDER_BATCH_ITEMS <? length versions)%nat (ProviderMetadataInvalid "too many content versions") ;;
  state ← try_fold (λ '(seen, mapped) version,
    err_if (negb (str_eqb (vdto_project_id version) requested_project_id))
      (ProviderMetadataInvalid "content provider returned a version for a different project") ;;
    seen ← insert_new (ProviderMetadataInvalid "content provider returned a duplicate version identity")
      seen (vdto_id version);
    mapped_version ← map_version version;
    Ok (seen, mapped ++ [mapped_version])) ((∅ : gset string), []) versions;
  Ok state.2.

Definition map_identity (version : Version) : result ContentError VersionIdentity :=
  validate_provider_identity "version" (vdto_id version) ;;
  validate_provider_identity "project" (vdto_project_id version) ;;
  err_if (256 <? length (vdto_dependencies version))%nat (ProviderMetadataInvalid "too many content dependencies") ;;
  dependencies ← map_dependencies (vdto_dependencies version);
  Ok {| ident_provider := ProviderModrinth; ident_project_id := vdto_project_id version;
        ident_version_id := vdto_id version; ident_game_versions := vdto_game_versions version;
        ident_loaders := vdto_loaders version; ident_dependencies := dependencies;
        ident_title := Some (vdto_name version) |}.

(** ** The content service *)

Record ProviderRequest := {
  request_url : string;
  request_body : option string;
  request_max_bytes : Z;
}.

(** HTTP, [Url::join] with query pairs, and serde_json. *)
Class Transport (W : Type) := {
  url_join : string → list (string * string) → option string;
  fetch : ProviderRequest → eff W DownloadError string;
  json_string_array : list string → string;
  json_hashes_body : list string → string;
  decode_projects : string → option (list Project);
  decode_versions : string → option (list Version);
  decode_version : string → option Version;
  decode_version_files : string → option (list (string * Version));
}.

Arguments url_join {W} {_} _ _.
Arguments json_string_array {W} {_} _.
Arguments json_hashes_body {W} {_} _.
Arguments decode_projects {W} {_} _.
Arguments decode_versions {W} {_} _.
Arguments decode_version {W} {_} _.
Arguments decode_version_files {W} {_} _.

(** [slice::chunks]. *)
Fixpoint chunks_from {A} (fuel n : nat) (l : list A) : list (list A) :=
  match fuel, l with
  | S fuel, _ :: _ => take n l :: chunks_from fuel n (drop n l)
  | _, _ => []
  end.
Definition chunks {A} (n : nat) (l : list A) : list (list A) := chunks_from (length l) n l.

(** [ProviderBatchBudget::admit]: [checked_sub] on the remaining bytes. *)
Definition budget_admit (remaining bytes : Z) : result ContentError Z :=
  err_if (remaining <? bytes)
    (ProviderMetadataInvalid "content provider batch exceeded its aggregate size bound") ;;
  Ok (remaining - bytes).

Definition filter_selects (wanted : option string) (available : list string) : bool :=
  is_none_or wanted (λ value, is_empty value || existsb (str_eqb value) available).

Section service.
Context `{UrlParser} {W : Type} `{Transport W}.

Definition endpoint (path : string) (query : list (string * string)) : result ContentError string :=
  ok_or (Invalid "invalid content provider endpoint") (url_join path query).

Definition read {T} (decode : string → option T) (path : string) (query : list (string * string))
    (body : option string) (max_bytes : Z) : eff W ContentError (T * Z) :=
  lift (err_if (max_bytes =? 0)
    (ProviderMetadataInvalid "content provider batch exceeded its aggregate size bound")) ;;
  url ← lift (endpoint path query);
  bytes ← eff_map_err Provider
    (fetch {| request_url := url; request_body := body; request_max_bytes := max_bytes |});
  value ← lift (ok_or (ProviderMetadataInvalid "content provider returned malformed JSON") (decode bytes));
  mret (value, str_len bytes).

Definition query_parameter (name : string) (value : option string) : list (string * string) :=
  match value with
  | Some value => if is_empty value then [] else [(name, json_string_array [value])]
  | None => []
  end.

Definition service_versions (id : CanonicalId) (filter : LoaderGameFilter) :
    eff W ContentError (list ContentVersion) :=
  project ← lift (project_id_of id);
  lift (validate_filter filter) ;;
  let params := query_parameter "loaders" (filter_loader filter) ++
                query_parameter "game_versions" (filter_game_version filter) in
  '(versions, _) ← read decode_versions ("project/" +:+ project +:+ "/version") params None
    MAX_PROVIDER_METADATA_BYTES;
  versions ← lift (map_project_versions project versions);
  mret (base.filter (λ version,
    filter_selects (filter_loader filter) (version_loaders version) &&
    filter_selects (filter_game_version filter) (version_game_versions version) = true) versions).

Definition service_version (version_id : string) : eff W ContentError (CanonicalId * ContentVersion) :=
  lift (validate_unique_identity_inputs "version" [version_id]) ;;
  '(version, _) ← read decode_version ("version/" +:+ version_id) [] None MAX_PROVIDER_METADATA_BYTES;
  lift (err_if (negb (str_eqb (vdto_id version) version_id))
    (ProviderMetadataInvalid "content provider returned a different version")) ;;
  let project := for_project ProviderModrinth (vdto_project_id version) in
  version ← lift (map_version version);
  mret (project, version).

(** One batched read: every chunk is requested within the remaining budget and
    every record of its answer has to be one that was asked for, once. *)
Definition read_chunks {T V} (label : string) (request : list string → Z → eff W ContentError (list T * Z))
    (identity : T → string) (record : T → result ContentError (string * V)) (inputs : list string) :
    eff W ContentError (gmap string V) :=
  '(answer, _, _) ← eff_fold (λ '(answer, seen, budget) chunk,
    '(records, bytes) ← request chunk budget;
    budget ← lift (budget_admit budget bytes);
    state ← lift (try_fold (λ '(answer, seen) item,
      seen ← validate_batch_result_identity label (identity item) chunk seen;
      entry ← record item;
      Ok (<[entry.1 := entry.2]> answer, seen)) (answer, seen) records);
    mret (state.1, state.2, budget))
    ((∅ : gmap string V), (∅ : gset string), MAX_PROVIDER_METADATA_BYTES) (chunks MAX_BULK_IDS inputs);
  mret answer.

Definition project_record (project : Project) : result ContentError (string * ProjectMetadata) :=
  kind ← ok_or (ProviderMetadataInvalid "unknown content project type")
    (kind_from_project_type (project_dto_type project));
  Ok (for_project ProviderModrinth (project_dto_id project),
      {| meta_kind := kind; meta_title := project_dto_title project |}).

Definition service_metadata (ids : list CanonicalId) : eff W ContentError (gmap CanonicalId ProjectMetadata) :=
  lift (validate_batch_item_count (length ids)) ;;
  projects ← lift (try_map project_id_of ids);
  lift (validate_unique_identity_inputs "project" projects) ;;
  read_chunks "project"
    (λ chunk budget, read decode_projects "projects" [("ids", json_string_array chunk)] None budget)
    project_dto_id project_record projects.

Definition identity_record (version : Version) : result ContentError (string * VersionIdentity) :=
  identity ← map_identity version;
  Ok (vdto_id version, identity).

Definition service_version_identities (ids : list string) : eff W ContentError (gmap string VersionIdentity) :=
  lift (validate_batch_item_count (length ids)) ;;
  lift (validate_unique_identity_inputs "version" ids) ;;
  read_chunks "version"
    (λ chunk budget, read decode_versions "versions" [("ids", json_string_array chunk)] None budget)
    vdto_id identity_record ids.

Definition hash_record (entry : string * Version) : result ContentError (string * VersionIdentity) :=
  err_if (negb (existsb (λ file, opt_eqb (vfile_sha512 file) entry.1) (vdto_files entry.2)))
    (ProviderMetadataInvalid "content hash identity has no matching published file") ;;
  identity ← map_identity entry.2;
  Ok (entry.1, identity).

Definition service_identify (hashes : list string) : eff W ContentError (gmap string VersionIdentity) :=
  lift (validate_batch_item_count (length hashes)) ;;
  lift (validate_unique_hash_inputs hashes) ;;
  read_chunks "hash"
    (λ chunk budget, read decode_version_files "version_files" [] (Some (json_hashes_body chunk)) budget)
    fst hash_record hashes.
End service.

(** ** The interface the resolver uses *)

Class ContentService (W : Type) := {
  metadata : list CanonicalId → eff W ContentError (gmap CanonicalId ProjectMetadata);
  versions : CanonicalId → LoaderGameFilter → eff W ContentError (list ContentVersion);
  version_identities : list string → eff W ContentError (gmap string VersionIdentity);
}.

(** What the resolver relies on: metadata is keyed by canonical identities of
    projects, and versions come with distinct identities. *)
Class ContentServiceLaws (W : Type) `{ContentService W} : Prop := {
  metadata_keys ids w m w' id p :
    metadata ids w = (Ok m, w') → m !! id = Some p → id ∈ ids ∧ id = for_project ProviderModrinth (project_id id);
  versions_distinct id filter w l w' :
    versions id filter w = (Ok l, w') → NoDup (version_id <$> l);
  identities_requested ids w m w' id i :
    version_identities ids w = (Ok m, w') → m !! id = Some i → id ∈ ids ∧ ident_version_id i = id;
}.

#[export] Instance modrinth_service `{UrlParser} {W} `{Transport W} : ContentService W := {|
  metadata := service_metadata;
  versions := service_versions;
  version_identities := service_version_identities;
|}.

(** ** The client keeps the interface's promises *)

Lemma chunks_elem {A} n (l chunk : list A) x : chunk ∈ chunks n l → x ∈ chunk → x ∈ l.
Proof.
  unfold chunks. generalize (length l). intros fuel. revert l. induction fuel as [|fuel IH]; intros l Hc Hx; simpl in *.
  - by apply elem_of_nil in Hc.
  - destruct l as [|y l]; [by apply elem_of_nil in Hc|]. rewrite <-(take_drop n (y :: l)), elem_of_app.
    apply elem_of_cons in Hc as [->|Hc]; [by left|right; by apply IH].
Qed.

Lemma batch_identity_ok label value requested seen seen' :
  validate_batch_result_identity label value requested seen = Ok seen' →
  value ∈ requested ∧ (label ≠ "hash" → valid_provider_identity value = true) ∧
  value ∉ seen ∧ seen' = {[value]} ∪ seen.
Proof.
  unfold validate_batch_result_identity. intros Hv. ok_inv.
  rename select (insert_new _ _ _ = _) into Hi. apply insert_new_ok in Hi as [? ->].
  rename select (existsb _ _ = true) into He. apply existsb_exists in He as (v & Hv & E).
  apply str_eqb_spec in E as <-. split_and!; [by apply list_elem_of_In| |done|done].
  intros Hl. destruct (str_eqb label "hash") eqn:E; [by apply str_eqb_spec in E|done].
Qed.

Section laws.
Context `{UrlParser} {W : Type} `{Transport W}.

Lemma read_chunks_ok {T V} label request (identity : T → string) (record : T → result ContentError (string * V))
    inputs (w : W) m w' k v :
  read_chunks label request identity record inputs w = (Ok m, w') → m !! k = Some v →
  ∃ item, identity item ∈ inputs ∧ record item = Ok (k, v).
Proof.
  unfold read_chunks. intros Hr. eff_inv.
  rename select (eff_fold _ _ _ _ = _) into Hf.
  set (P := λ (done : list (list string)) (s : gmap string V * gset string * Z),
    ∀ k v, s.1.1 !! k = Some v → ∃ item chunk, chunk ∈ done ∧ identity item ∈ chunk ∧ record item = Ok (k, v)).
  apply (eff_fold_inv _ P) in Hf.
  - intros Hk. destruct (Hf k v Hk) as (item & chunk & Hc & Hin & Hrec). exists item. split; [|done].
    by eapply chunks_elem.
  - intros k' v'. simpl. by rewrite lookup_empty.
  - clear. intros done chunk [[answer seen] budget] s' u u' HP Hs. eff_inv.
    rename select (try_fold _ _ _ = _) into Hf.
    set (Q := λ (_ : list T) (s : gmap string V * gset string), ∀ k v, s.1 !! k = Some v →
      ∃ item chunk', chunk' ∈ done ++ [chunk] ∧ identity item ∈ chunk' ∧ record item = Ok (k, v)).
    apply (try_fold_inv _ Q) in Hf.
    + exact Hf.
    + intros k v Hk. destruct (HP k v Hk) as (item & c & ? & ? & ?). exists item, c. set_solver.
    + intros d1 item [answer1 seen1] s1 HQ Hs. ok_inv. subst.
      rename select (validate_batch_result_identity _ _ _ _ = _) into Hb. apply batch_identity_ok in Hb as (Hb & _).
      intros k1 v1. simpl. match goal with |- context [<[?e.1 := _]> _] => destruct e as [k0 v0] end. cbn [fst snd]. rewrite lookup_insert_Some.
      intros [[-> ->]|[_ Hk]]; [|by apply HQ]. exists item, chunk. set_solver.
Qed.

Lemma project_id_of_ok id project : project_id_of id = Ok project → id = for_project ProviderModrinth project.
Proof.
  unfold project_id_of. intros Hp. ok_inv. apply bind_Some in Hp as (rest & Hs & Hr).
  destruct (valid_provider_identity rest); [|done]. injection Hr as ->.
  by apply strip_prefix_spec in Hs.
Qed.

Lemma map_version_id version v : map_version version = Ok v → version_id v = vdto_id version.
Proof. unfold map_version. intros Hm. ok_inv. by subst. Qed.

Lemma map_project_versions_distinct project l mapped :
  map_project_versions project l = Ok mapped → NoDup (version_id <$> mapped).
Proof.
  unfold map_project_versions. intros Hm. ok_inv. destruct x as [seen mapped']. subst. simpl.
  rename select (try_fold _ _ _ = _) into Hf.
  set (P := λ (_ : list Version) (s : gset string * list ContentVersion),
    NoDup (version_id <$> s.2) ∧ ∀ id, id ∈ version_id <$> s.2 → id ∈ s.1).
  apply (try_fold_inv _ P) in Hf; [by destruct Hf|split; [constructor|by intros ? ?%elem_of_nil]|].
  clear. intros d version [seen mapped] s [Hn Hs] Hstep. ok_inv. subst.
  rename select (insert_new _ _ _ = _) into Hi. apply insert_new_ok in Hi as [Hi ->].
  rename select (map_version _ = _) into Hv. apply map_version_id in Hv. simpl in *.
  split; simpl; rewrite fmap_app; simpl; rewrite Hv.
  - apply list.NoDup_app. split_and!; [done| |apply NoDup_singleton]. intros id Hid ->%list_elem_of_singleton. auto.
  - intros id [Hid| ->%list_elem_of_singleton]%elem_of_app; [|set_solver]. specialize (Hs id Hid). set_solver.
Qed.

Lemma NoDup_fmap_filter {A B} (f : A → B) (P : A → Prop) `{∀ x, Decision (P x)} l :
  NoDup (f <$> l) → NoDup (f <$> base.filter P l).
Proof.
  induction l as [|x l IH]; [done|]. intros [Hx Hn]%list.NoDup_cons. rewrite filter_cons.
  case_decide; [|by apply IH]. simpl. apply list.NoDup_cons. split; [|by apply IH].
  intros (y & E & [_ Hy]%list_elem_of_filter)%list_elem_of_fmap. apply Hx. rewrite E. by apply list_elem_of_fmap_2.
Qed.
End laws.

(** The client that reads Modrinth satisfies what the resolver relies on,
    whatever the network answers. *)
#[export] Instance modrinth_service_laws `{UrlParser} {W} `{Transport W} : ContentServiceLaws W.
Proof.
  split.
  - intros ids w m w' id p Hr Hk. unfold metadata, modrinth_service, service_metadata in Hr. eff_inv.
    rename select (try_map _ _ = _) into Hm.
    edestruct @read_chunks_ok as (item & Hin & Hrec); [eassumption|exact Hk|].
    unfold project_record in Hrec. ok_inv. subst. split; [|done].
    apply try_map_ok in Hm. apply list_elem_of_lookup in Hin as [i Hi].
    destruct (Forall2_lookup_r _ _ _ _ _ Hm Hi) as (id & Hid & E).
    apply project_id_of_ok in E as <-. by eapply list_elem_of_lookup_2.
  - intros id filter w l w' Hr. unfold versions, modrinth_service, service_versions in Hr. eff_inv.
    apply NoDup_fmap_filter.
    by eapply map_project_versions_distinct.
  - intros ids w m w' id i Hr Hk. unfold version_identities, modrinth_service, service_version_identities in Hr.
    eff_inv. edestruct @read_chunks_ok as (item & Hin & Hrec); [eassumption|exact Hk|].
    unfold identity_record, map_identity in Hrec. ok_inv. by subst.
Qed.
