(* ===== verification/ContentResolve.v ===== *)
(** * Content resolution ([core/app/src/content/resolve.rs])

    The resolver turns selected content into a dependency closure: a queue of
    projects to visit, a version for each, the conflicts found on the way, and
    budgets that bound the work.  [resolve_pass] runs the queue once under the
    exact requirements known so far; [resolve_content_with_pack] repeats it
    while exact requirements are still being discovered.  The provider is the
    interface [ContentService], JSON lengths come from the parameter
    [ResolutionJson].  The body of the queue loop is split into the functions
    [dequeue], [visit] and [admit_version], in the order of the code; a
    [continue] returns the state.  A [HashSet] collected into a [Vec] has no
    order in the code; here it is [elements]. *)

From S2P Require Import Prelude RustStr Effect ContentModel ContentUrl ContentPackPath ContentProvenance.
From S2P Require Import ContentProvider ContentVersions.
From S2P Require McPortablePath AppPortablePath.
Import McPortablePath (UnicodeNorm).

Definition MAX_RESOLUTION_SELECTIONS : Z := 256.
Definition MAX_RESOLUTION_NODES : Z := 256.
Definition MAX_RESOLUTION_DEPTH : Z := 32.
Definition MAX_DEPENDENCIES_PER_NODE : Z := 256.
Definition MAX_RESOLUTION_EDGES : Z := 4096.
Definition MAX_RESOLUTION_QUEUE : Z := MAX_RESOLUTION_SELECTIONS + MAX_RESOLUTION_EDGES.
Definition MAX_RESOLUTION_CONFLICTS : Z := 256.
Definition MAX_RESOLUTION_OUTPUT_BYTES : Z := 4 * 1024 * 1024.
Definition MAX_CONTENT_GRAPH_BYTES : Z := 512 * 1024 * 1024.

Inductive ResolutionReason := Selected | DependencyReason.
Inductive ResolutionConflictKind := ConflictUnavailable | ConflictIncompatible.

Inductive ResolutionConflictReason :=
| NoCompatibleVersion
| RequiredDependencyUnidentified
| StabilizationFailed
| ExactVersionConflict (chosen_version_id required_version_id : string)
| SelectedIncompatibility (other_project_id : string)
| InstalledIncompatibility (installed_project_id : string) (installed_title : option string).

Definition reason_kind (self : ResolutionConflictReason) : ResolutionConflictKind :=
  match self with
  | SelectedIncompatibility _ | InstalledIncompatibility _ _ => ConflictIncompatible
  | NoCompatibleVersion | RequiredDependencyUnidentified | StabilizationFailed
  | ExactVersionConflict _ _ => ConflictUnavailable
  end.

Record ResolutionConflict := {
  conflict_canonical_id : option CanonicalId;
  conflict_subject_title : option string;
  conflict_reason : ResolutionConflictReason;
}.

#[global] Instance ResolutionConflictKind_eq_dec : EqDecision ResolutionConflictKind.
Proof. solve_decision. Defined.

Record ResolutionSelection := {
  selection_canonical_id : string;
  selection_kind : ContentKind;
  selection_version_id : option string;
}.

Inductive ResolutionLimitKind :=
| LimitSelections | LimitNodes | LimitDepth | LimitDependenciesPerNode | LimitEdges | LimitQueue
| LimitConflicts | LimitGraphBytes | LimitStructuredOutput.

Inductive ResolutionError :=
| NoSelection
| SelectedKindChanged
| DuplicateSelection
| ModpackRequiresInstance
| ModLoaderRequired
| InstalledDependencyUnidentified
| LimitExceeded (kind : ResolutionLimitKind) (maximum observed : Z)
| ResolutionProvider (e : ContentError)
| ResolutionPack (e : PackError).

Record ResolvedContentItem := {
  item_canonical_id : CanonicalId;
  item_provider : ProviderId;
  item_project_id : string;
  item_kind : ContentKind;
  item_version_id : string;
  item_version_number : string;
  item_title : string;
  item_file : FileRef;
  item_dependencies : list ContentDependency;
  item_reason : ResolutionReason;
  item_already_installed : bool;
  item_update : bool;
}.

Record ContentResolution := {
  items : list ResolvedContentItem;
  conflicts : list ResolutionConflict;
}.

(** [serde_json::to_writer]: the lengths of the chunks it writes, and whether
    the value can be represented at all. *)
Class ResolutionJson := {
  item_writes : ResolvedContentItem → list Z * bool;
  resolution_writes : ContentResolution → list Z * bool;
  version_writes : ContentVersion → list Z * bool;
}.

(** ** Budgets *)

Record ResolutionBudget := {
  nodes : Z;
  edges : Z;
  graph_bytes : Z;
  structured_bytes : Z;
}.

Definition default_budget : ResolutionBudget :=
  {| nodes := 0; edges := 0; graph_bytes := 0; structured_bytes := 0 |}.

Definition ensure_within_limit (kind : ResolutionLimitKind) (observed maximum : Z) : result ResolutionError unit :=
  err_if (maximum <? observed) (LimitExceeded kind maximum observed).

Definition admit_node (self : ResolutionBudget) (depth : Z) : result ResolutionError ResolutionBudget :=
  ensure_within_limit LimitDepth depth MAX_RESOLUTION_DEPTH ;;
  let nodes := saturating_add_u64 (nodes self) 1 in
  ensure_within_limit LimitNodes nodes MAX_RESOLUTION_NODES ;;
  Ok {| nodes := nodes; edges := edges self; graph_bytes := graph_bytes self;
        structured_bytes := structured_bytes self |}.

Definition admit_dependencies (self : ResolutionBudget) (count : Z) : result ResolutionError ResolutionBudget :=
  ensure_within_limit LimitDependenciesPerNode count MAX_DEPENDENCIES_PER_NODE ;;
  let edges := saturating_add_u64 (edges self) count in
  ensure_within_limit LimitEdges edges MAX_RESOLUTION_EDGES ;;
  Ok {| nodes := nodes self; edges := edges; graph_bytes := graph_bytes self;
        structured_bytes := structured_bytes self |}.

Definition admit_artifact (self : ResolutionBudget) (size : Z) : result ResolutionError ResolutionBudget :=
  let graph_bytes := saturating_add_u64 (graph_bytes self) size in
  ensure_within_limit LimitGraphBytes graph_bytes MAX_CONTENT_GRAPH_BYTES ;;
  Ok {| nodes := nodes self; edges := edges self; graph_bytes := graph_bytes;
        structured_bytes := structured_bytes self |}.

Definition validate_structured_output_length (encoded_len : Z) : result ResolutionError unit :=
  ensure_within_limit LimitStructuredOutput encoded_len MAX_RESOLUTION_OUTPUT_BYTES.

Definition admit_output_len (self : ResolutionBudget) (encoded_len : Z) : result ResolutionError ResolutionBudget :=
  let structured_bytes := saturating_add_u64 (structured_bytes self) encoded_len in
  validate_structured_output_length structured_bytes ;;
  Ok {| nodes := nodes self; edges := edges self; graph_bytes := graph_bytes self;
        structured_bytes := structured_bytes |}.

Definition admit_provider_text (self : ResolutionBudget) (value : string) :
    result ResolutionError (ResolutionBudget * Z) :=
  budget ← admit_output_len self (str_len value);
  Ok (budget, str_len value).

Record BoundedCountingWriter := { written : Z; writer_maximum : Z; overflowed : bool }.

(** [Write::write]: [None] is the error. *)
Definition counting_write (self : BoundedCountingWriter) (length : Z) : BoundedCountingWriter * option Z :=
  let remaining := Z.max 0 (writer_maximum self - written self) in
  if remaining <? length
  then ({| written := written self; writer_maximum := writer_maximum self; overflowed := true |}, None)
  else ({| written := written self + length; writer_maximum := writer_maximum self;
           overflowed := overflowed self |}, Some length).

(** The serializer writes chunk after chunk and stops at the first error. *)
Fixpoint to_writer (writer : BoundedCountingWriter) (chunks : list Z) : BoundedCountingWriter * bool :=
  match chunks with
  | [] => (writer, true)
  | chunk :: chunks =>
      match counting_write writer chunk with
      | (writer, Some _) => to_writer writer chunks
      | (writer, None) => (writer, false)
      end
  end.

Definition bounded_serialized_len (writes : list Z * bool) (maximum : Z) : result ResolutionError Z :=
  let '(writer, complete) :=
    to_writer {| written := 0; writer_maximum := maximum; overflowed := false |} writes.1 in
  if complete && writes.2 then Ok (written writer)
  else if overflowed writer then
    Err (LimitExceeded LimitStructuredOutput MAX_RESOLUTION_OUTPUT_BYTES (MAX_RESOLUTION_OUTPUT_BYTES + 1))
  else Err (ResolutionProvider (ProviderMetadataInvalid "content resolution could not be represented")).

Definition admit_output (self : ResolutionBudget) (writes : list Z * bool) :
    result ResolutionError (ResolutionBudget * Z) :=
  let remaining := Z.max 0 (MAX_RESOLUTION_OUTPUT_BYTES - structured_bytes self) in
  encoded_len ← bounded_serialized_len writes remaining;
  budget ← admit_output_len self encoded_len;
  Ok (budget, encoded_len).

(** ** Conflicts *)

Definition push_conflict (conflicts : list ResolutionConflict) (conflict : ResolutionConflict) :
    result ResolutionError (list ResolutionConflict) :=
  ensure_within_limit LimitConflicts (saturating_add_u64 (Z.of_nat (length conflicts)) 1) MAX_RESOLUTION_CONFLICTS ;;
  Ok (conflicts ++ [conflict]).

Definition unavailable_conflict (canonical_id : CanonicalId) : ResolutionConflict :=
  {| conflict_canonical_id := Some canonical_id; conflict_subject_title := None;
     conflict_reason := NoCompatibleVersion |}.

Definition exact_dependency_conflict (canonical_id : CanonicalId) (chosen_version required_version : string) :
    ResolutionConflict :=
  {| conflict_canonical_id := Some canonical_id; conflict_subject_title := None;
     conflict_reason := ExactVersionConflict chosen_version required_version |}.

Definition incompatible_conflict (canonical_id : CanonicalId) (installed : ManifestEntry) : ResolutionConflict :=
  {| conflict_canonical_id := Some canonical_id; conflict_subject_title := None;
     conflict_reason := InstalledIncompatibility (entry_project_id installed) (entry_title installed) |}.

Definition insert_exact_requirement (requirements : gmap CanonicalId string) (canonical_id : CanonicalId)
    (version_id : string) : gmap CanonicalId string * option ResolutionConflict :=
  (<[canonical_id := version_id]> requirements,
   previous ← requirements !! canonical_id;
   if str_eqb previous version_id then None
   else Some (exact_dependency_conflict canonical_id previous version_id)).

Definition exact_requirement_needs_retry (exact_requirements : gmap CanonicalId string)
    (canonical_id : CanonicalId) : bool :=
  bool_decide (exact_requirements !! canonical_id = None).

(** ** Selections *)

Definition require_installable_kind (kind : ContentKind) (target : ResolutionTarget) : result ResolutionError unit :=
  err_if (bool_decide (kind = KindModpack)) ModpackRequiresInstance ;;
  err_if (negb (supports_mods target) && requires_mod_loader kind) ModLoaderRequired.

Definition validate_selected_kinds (selections : list ResolutionSelection)
    (metadata : gmap CanonicalId ProjectMetadata) (target : ResolutionTarget) : result ResolutionError unit :=
  err_if ((length selections =? 0)%nat) NoSelection ;;
  try_for_each (λ selection,
    match metadata !! selection_canonical_id selection with
    | None => Ok tt
    | Some authoritative =>
        err_if (negb (bool_decide (selection_kind selection = meta_kind authoritative))) SelectedKindChanged ;;
        require_installable_kind (meta_kind authoritative) target
    end) selections.

Definition unambiguous_install_artifact (version : ContentVersion) : result ResolutionError FileRef :=
  ok_or (ResolutionProvider (ProviderMetadataInvalid "content version does not identify one unambiguous artifact"))
    (primary_file version).

(** ** Files selected from a pack ([packs.rs]) *)

(** A selection of reviewed pack files: what it selects and, in the same
    order, the files of its plan. *)
Record PackFileSelection := {
  plan_files : list PackFile;
  pack_selections : list ResolutionSelection;
}.

Section pack.
Context `{UnicodeNorm}.

Definition artifact_for (self : PackFileSelection) (canonical_id : CanonicalId) (kind : ContentKind)
    (version : ContentVersion) : result PackError (option FileRef) :=
  match List.find (λ '(selection, _), str_eqb (selection_canonical_id selection) canonical_id)
          (zip (pack_selections self) (plan_files self)) with
  | None => Ok None
  | Some (selection, file) =>
      err_if (negb (opt_eqb (selection_version_id selection) (version_id version)) ||
              negb (bool_decide (selection_kind selection = kind)) ||
              negb (bool_decide (pack_kind file = Some kind))) SelectionChanged ;;
      hash ← ok_or SelectionChanged (pack_sha512 file);
      published ← ok_or SelectionChanged
        (List.find (λ published, bool_decide (file_sha512 published = Some hash)) (version_files version));
      err_if (match pack_size file, file_size published with
              | Some declared, Some published => negb (declared =? published)
              | _, _ => false
              end) SelectionChanged ;;
      Ok (Some {| file_filename := pack_filename file; file_url := pack_url file;
                  file_size := match pack_size file with Some size => Some size | None => file_size published end;
                  file_sha512 := pack_sha512 file; file_sha1 := pack_sha1 file; file_primary := true |})
  end.

Definition finish_matches (item : ResolvedContentItem) (selected : option PackFile) : bool :=
  is_some_and selected (λ file,
    bool_decide (pack_kind file = Some (item_kind item)) &&
    str_eqb (pack_filename file) (file_filename (item_file item)) &&
    negb (is_none (pack_sha512 file)) &&
    bool_decide (pack_sha512 file = file_sha512 (item_file item)) &&
    is_none_or (pack_size file) (λ size, bool_decide (file_size (item_file item) = Some size))).

(** The versions of a pack's selections are exact; [expect] is the panic. *)
Definition selection_identity (selection : ResolutionSelection) : option (string * string) :=
  version ← selection_version_id selection; Some (selection_canonical_id selection, version).

Definition finish (self : PackFileSelection) (resolution : ContentResolution) : result PackError (list PackFile) :=
  err_if (negb (length (conflicts resolution) =? 0)%nat) SelectionChanged ;;
  let expected : gset (string * string) := list_to_set (omap selection_identity (pack_selections self)) in
  matched ← try_fold (λ matched item,
    let identity := (item_canonical_id item, item_version_id item) in
    if bool_decide (identity ∈ expected) then
      let selected := snd <$> List.find (λ '(selection, _),
        str_eqb (selection_canonical_id selection) (item_canonical_id item) &&
        opt_eqb (selection_version_id selection) (item_version_id item))
        (zip (pack_selections self) (plan_files self)) in
      err_if (negb (finish_matches item selected)) SelectionChanged ;;
      Ok ({[identity]} ∪ matched)
    else
      err_if (negb (item_already_installed item) || item_update item) SelectionChanged ;;
      Ok matched) (∅ : gset (string * string)) (items resolution);
  err_if (negb (bool_decide (matched = expected))) SelectionChanged ;;
  Ok (plan_files self).
End pack.

(** ** The state of a pass *)

Record QueueItem := {
  queued_id : CanonicalId;
  queued_version : option string;
  queued_reason : ResolutionReason;
  queued_depth : Z;
}.

Record PassState := {
  pass_metadata : gmap CanonicalId ProjectMetadata;
  pass_metadata_requested : gset CanonicalId;
  resolved_versions : gmap CanonicalId string;
  visited : gset CanonicalId;
  pass_items : list ResolvedContentItem;
  pass_conflicts : list ResolutionConflict;
  incompatibilities : gset (CanonicalId * CanonicalId);
  dependency_versions : gmap string VersionIdentity;
  dependency_versions_requested : gset string;
  budget : ResolutionBudget;
  work_budget : ResolutionBudget;
  retry_with_exact : gmap CanonicalId string;
  retry_pin_conflict : bool;
  queue : list QueueItem;
}.

Definition set_conflicts (s : PassState) (conflicts : list ResolutionConflict) : PassState := {|
  pass_metadata := pass_metadata s; pass_metadata_requested := pass_metadata_requested s;
  resolved_versions := resolved_versions s; visited := visited s; pass_items := pass_items s;
  pass_conflicts := conflicts; incompatibilities := incompatibilities s;
  dependency_versions := dependency_versions s;
  dependency_versions_requested := dependency_versions_requested s; budget := budget s;
  work_budget := work_budget s; retry_with_exact := retry_with_exact s;
  retry_pin_conflict := retry_pin_conflict s; queue := queue s |}.

Definition set_retry (s : PassState) (retry : gmap CanonicalId string) (conflicts : list ResolutionConflict) (pin_conflict : bool) : PassState := {|
  pass_metadata := pass_metadata s; pass_metadata_requested := pass_metadata_requested s;
  resolved_versions := resolved_versions s; visited := visited s; pass_items := pass_items s;
  pass_conflicts := conflicts; incompatibilities := incompatibilities s;
  dependency_versions := dependency_versions s;
  dependency_versions_requested := dependency_versions_requested s; budget := budget s;
  work_budget := work_budget s; retry_with_exact := retry; retry_pin_conflict := pin_conflict;
  queue := queue s |}.

Definition set_visited (s : PassState) (seen : gset CanonicalId) (own : ResolutionBudget) (work : ResolutionBudget) : PassState := {|
  pass_metadata := pass_metadata s; pass_metadata_requested := pass_metadata_requested s;
  resolved_versions := resolved_versions s; visited := seen; pass_items := pass_items s;
  pass_conflicts := pass_conflicts s; incompatibilities := incompatibilities s;
  dependency_versions := dependency_versions s;
  dependency_versions_requested := dependency_versions_requested s; budget := own; work_budget := work;
  retry_with_exact := retry_with_exact s; retry_pin_conflict := retry_pin_conflict s; queue := queue s |}.

Definition set_metadata (s : PassState) (known : gmap CanonicalId ProjectMetadata) (requested : gset CanonicalId) : PassState := {|
  pass_metadata := known; pass_metadata_requested := requested; resolved_versions := resolved_versions s;
  visited := visited s; pass_items := pass_items s; pass_conflicts := pass_conflicts s;
  incompatibilities := incompatibilities s; dependency_versions := dependency_versions s;
  dependency_versions_requested := dependency_versions_requested s; budget := budget s;
  work_budget := work_budget s; retry_with_exact := retry_with_exact s;
  retry_pin_conflict := retry_pin_conflict s; queue := queue s |}.

Definition set_resolved (s : PassState) (resolved : gmap CanonicalId string) (own : ResolutionBudget) (work : ResolutionBudget) : PassState := {|
  pass_metadata := pass_metadata s; pass_metadata_requested := pass_metadata_requested s;
  resolved_versions := resolved; visited := visited s; pass_items := pass_items s;
  pass_conflicts := pass_conflicts s; incompatibilities := incompatibilities s;
  dependency_versions := dependency_versions s;
  dependency_versions_requested := dependency_versions_requested s; budget := own; work_budget := work;
  retry_with_exact := retry_with_exact s; retry_pin_conflict := retry_pin_conflict s; queue := queue s |}.

Definition set_dependency_versions (s : PassState) (known : gmap string VersionIdentity) (requested : gset string) : PassState := {|
  pass_metadata := pass_metadata s; pass_metadata_requested := pass_metadata_requested s;
  resolved_versions := resolved_versions s; visited := visited s; pass_items := pass_items s;
  pass_conflicts := pass_conflicts s; incompatibilities := incompatibilities s; dependency_versions := known;
  dependency_versions_requested := requested; budget := budget s; work_budget := work_budget s;
  retry_with_exact := retry_with_exact s; retry_pin_conflict := retry_pin_conflict s; queue := queue s |}.

Definition set_findings (s : PassState) (pending : list QueueItem) (conflicts : list ResolutionConflict) (pairs : gset (CanonicalId * CanonicalId)) : PassState := {|
  pass_metadata := pass_metadata s; pass_metadata_requested := pass_metadata_requested s;
  resolved_versions := resolved_versions s; visited := visited s; pass_items := pass_items s;
  pass_conflicts := conflicts; incompatibilities := pairs; dependency_versions := dependency_versions s;
  dependency_versions_requested := dependency_versions_requested s; budget := budget s;
  work_budget := work_budget s; retry_with_exact := retry_with_exact s;
  retry_pin_conflict := retry_pin_conflict s; queue := pending |}.

Definition set_items (s : PassState) (items : list ResolvedContentItem) (own : ResolutionBudget) (work : ResolutionBudget) : PassState := {|
  pass_metadata := pass_metadata s; pass_metadata_requested := pass_metadata_requested s;
  resolved_versions := resolved_versions s; visited := visited s; pass_items := items;
  pass_conflicts := pass_conflicts s; incompatibilities := incompatibilities s;
  dependency_versions := dependency_versions s;
  dependency_versions_requested := dependency_versions_requested s; budget := own; work_budget := work;
  retry_with_exact := retry_with_exact s; retry_pin_conflict := retry_pin_conflict s; queue := queue s |}.

Definition set_queue (s : PassState) (pending : list QueueItem) : PassState := {|
  pass_metadata := pass_metadata s; pass_metadata_requested := pass_metadata_requested s;
  resolved_versions := resolved_versions s; visited := visited s; pass_items := pass_items s;
  pass_conflicts := pass_conflicts s; incompatibilities := incompatibilities s;
  dependency_versions := dependency_versions s;
  dependency_versions_requested := dependency_versions_requested s; budget := budget s;
  work_budget := work_budget s; retry_with_exact := retry_with_exact s;
  retry_pin_conflict := retry_pin_conflict s; queue := pending |}.

(** ** One round of the queue *)

Section pass.
Context `{UnicodeNorm} `{UrlParser} `{ResolutionJson} {W : Type} `{ContentService W}.
Context (target : ResolutionTarget) (manifest : ContentManifest) (live_content : LiveManagedContent).
Context (exact_requirements : gmap CanonicalId string) (pack : option PackFileSelection).

Notation M := (eff W ResolutionError).

(** The [?] on a provider error. *)
Definition from_provider {A} (m : eff W ContentError A) : M A := eff_map_err ResolutionProvider m.

(** Fetch the metadata of a project together with that of every queued one. *)
Definition fetch_metadata (s : PassState) (canonical_id : CanonicalId) : M PassState :=
  if bool_decide (canonical_id ∈ pass_metadata_requested s) then mret s
  else
    let missing_ids : gset CanonicalId :=
      {[canonical_id]} ∪ (list_to_set (queued_id <$> queue s) ∖ pass_metadata_requested s) in
    let missing_ids := elements missing_ids in
    fetched ← from_provider (metadata missing_ids);
    mret (set_metadata s (fetched ∪ pass_metadata s) (list_to_set missing_ids ∪ pass_metadata_requested s)).

(** [filter(|version_id| requested.insert(..))]. *)
Fixpoint missing_versions (requested : gset string) (ids : list string) : list string * gset string :=
  match ids with
  | [] => ([], requested)
  | id :: ids =>
      if bool_decide (id ∈ requested) then missing_versions requested ids
      else let '(missing, requested) := missing_versions ({[id]} ∪ requested) ids in (id :: missing, requested)
  end.

Definition version_only_ids (dependencies : list ContentDependency) : list string :=
  omap dep_version_id (filter (λ dependency, dep_project_id dependency = None) dependencies).

(** Ask for the projects of dependencies known by their version only. *)
Definition fetch_dependency_versions (s : PassState) (version : ContentVersion) : M PassState :=
  let '(missing, requested) :=
    missing_versions (dependency_versions_requested s) (version_only_ids (version_dependencies version)) in
  if (length missing =? 0)%nat then mret (set_dependency_versions s (dependency_versions s) requested)
  else
    fetched ← from_provider (version_identities missing);
    mret (set_dependency_versions s (fetched ∪ dependency_versions s) requested).

(** The installed entry a dependency declares itself incompatible with. *)
Definition installed_incompatible (dependency : ContentDependency) (project : string) : option ManifestEntry :=
  entry ← find_entry manifest (for_project ProviderModrinth project);
  if live_contains live_content entry &&
     incompatible_dependency_matches dependency (entry_project_id entry) (entry_version_id entry)
  then Some entry else None.

(** [incompatibilities.insert(..)] and, when it was new, the conflict. *)
Definition note_incompatible (canonical_id : CanonicalId)
    (found : list ResolutionConflict * gset (CanonicalId * CanonicalId)) (entry : ManifestEntry) :
    result ResolutionError (list ResolutionConflict * gset (CanonicalId * CanonicalId)) :=
  let '(conflicts, pairs) := found in
  let pair := (canonical_id, entry_canonical_id entry) in
  if bool_decide (pair ∈ pairs) then Ok (conflicts, pairs)
  else conflicts ← push_conflict conflicts (incompatible_conflict canonical_id entry);
       Ok (conflicts, {[pair]} ∪ pairs).

Definition follow_dependency (canonical_id : CanonicalId) (depth : Z)
    (found : list QueueItem * (list ResolutionConflict * gset (CanonicalId * CanonicalId)))
    (dependency : ContentDependency) :
    result ResolutionError (list QueueItem * (list ResolutionConflict * gset (CanonicalId * CanonicalId))) :=
  let '(pending, (conflicts, pairs)) := found in
  match dep_kind dependency with
  | Required =>
      match dep_project_id dependency with
      | Some project =>
          ensure_within_limit LimitQueue (saturating_add_u64 (Z.of_nat (length pending)) 1) MAX_RESOLUTION_QUEUE ;;
          Ok (pending ++ [{| queued_id := for_project ProviderModrinth project;
                             queued_version := dep_version_id dependency;
                             queued_reason := DependencyReason;
                             queued_depth := saturating_add_u64 depth 1 |}], (conflicts, pairs))
      | None =>
          conflicts ← push_conflict conflicts
            {| conflict_canonical_id := Some canonical_id; conflict_subject_title := None;
               conflict_reason := RequiredDependencyUnidentified |};
          Ok (pending, (conflicts, pairs))
      end
  | Incompatible =>
      match dep_project_id dependency ≫= installed_incompatible dependency with
      | Some entry =>
          found ← note_incompatible canonical_id (conflicts, pairs) entry;
          Ok (pending, found)
      | None => Ok (pending, (conflicts, pairs))
      end
  | Optional | Embedded => Ok (pending, (conflicts, pairs))
  end.

(** Whether a file chosen from a pack differs from the one installed. *)
Definition pack_file_differs (kind : ContentKind) (file : FileRef) (entry : ManifestEntry) : bool :=
  negb (bool_decide (entry_kind entry = kind)) ||
  negb (bool_decide (name_enabled <$> entry_filename entry = Some (file_filename file))) ||
  negb (bool_decide (entry_sha512 entry = file_sha512 file)) ||
  negb (bool_decide (entry_size entry = file_size file)).

(** The rest of a round, once a version has been picked: its file, its
    budgets, its dependencies, the incompatibilities and the item. *)
Definition admit_version (s : PassState) (canonical_id : CanonicalId) (reason : ResolutionReason) (depth : Z)
    (project : ProjectMetadata) (version : ContentVersion) : M PassState :=
  let kind := meta_kind project in
  pack_file ← lift (map_err ResolutionPack
    match pack with
    | Some pack => artifact_for pack canonical_id kind version
    | None => Ok None
    end);
  let selected_pack := negb (is_none pack_file) in
  file ← lift match pack_file with
              | Some file => Ok file
              | None => unambiguous_install_artifact version
              end;
  '(artifact_bytes, _) ← lift (map_err ResolutionProvider (validate_planned_artifact kind file));
  let count := Z.of_nat (length (version_dependencies version)) in
  own ← lift (admit_artifact (budget s) artifact_bytes);
  work ← lift (admit_artifact (work_budget s) artifact_bytes);
  own ← lift (admit_dependencies own count);
  work ← lift (admit_dependencies work count);
  let s := set_resolved s (<[canonical_id := version_id version]> (resolved_versions s)) own work in
  s ← fetch_dependency_versions s version;
  let dependencies := sort_by compare_dependencies
    (canonicalize_version_only_dependencies (version_dependencies version) (dependency_versions s)) in
  found ← lift (try_fold (follow_dependency canonical_id depth)
    (queue s, (pass_conflicts s, incompatibilities s)) dependencies);
  let '(pending, found) := found in
  found ← lift (try_fold (note_incompatible canonical_id) found
    (installed_entries_incompatible_with manifest canonical_id (version_id version) live_content));
  let s := set_findings s pending found.1 found.2 in
  let existing := find_entry manifest canonical_id in
  let '(already_installed, update) := resolved_install_state existing live_content (version_id version) in
  let update := update || (selected_pack && already_installed &&
                           is_some_and existing (pack_file_differs kind file)) in
  let item := {|
    item_canonical_id := canonical_id; item_provider := ProviderModrinth;
    item_project_id := project_id canonical_id; item_kind := kind; item_version_id := version_id version;
    item_version_number := version_number version;
    item_title := if is_empty (trim (meta_title project)) then version_name version else meta_title project;
    item_file := file; item_dependencies := dependencies; item_reason := reason;
    item_already_installed := already_installed; item_update := update |} in
  '(own, encoded_len) ← lift (admit_output (budget s) (item_writes item));
  work ← lift (admit_output_len (work_budget s) encoded_len);
  mret (set_items s (pass_items s ++ [item]) own work).

Definition unavailable (s : PassState) (canonical_id : CanonicalId) : M PassState :=
  conflicts ← lift (push_conflict (pass_conflicts s) (unavailable_conflict canonical_id));
  mret (set_conflicts s conflicts).

(** HTTP status 404. *)
Definition not_found (error : ContentError) : bool :=
  match error with Provider (HttpStatus status) => status =? 404 | _ => false end.

(** A project seen for the first time. *)
Definition visit (s : PassState) (canonical_id : CanonicalId) (forced_version : option string)
    (reason : ResolutionReason) (depth : Z) : M PassState :=
  own ← lift (admit_node (budget s) depth);
  work ← lift (admit_node (work_budget s) depth);
  let s := set_visited s ({[canonical_id]} ∪ visited s) own work in
  s ← fetch_metadata s canonical_id;
  match pass_metadata s !! canonical_id with
  | None => unavailable s canonical_id
  | Some project =>
      let kind := meta_kind project in
      lift (require_installable_kind kind target) ;;
      answer ← eff_try (versions canonical_id (filter_for target kind));
      match answer with
      | Err error => if not_found error then unavailable s canonical_id else lift (Err (ResolutionProvider error))
      | Ok versions =>
          match pick_compatible_version versions forced_version target kind with
          | None => unavailable s canonical_id
          | Some version => admit_version s canonical_id reason depth project version
          end
      end
  end.

(** A round after the pinned version has been applied: a project that is
    resolved already keeps its version, or asks for another pass when the
    version required of it is another one and nothing pins it yet. *)
Definition round (s : PassState) (next : QueueItem) (forced_version : option string) : M PassState :=
  let canonical_id := queued_id next in
  match resolved_versions s !! canonical_id with
  | Some chosen_version =>
      match forced_version with
      | Some required_version =>
          if str_eqb required_version chosen_version then mret s
          else if exact_requirement_needs_retry exact_requirements canonical_id then
            let '(retry, conflict) :=
              insert_exact_requirement (retry_with_exact s) canonical_id required_version in
            match conflict with
            | Some conflict =>
                conflicts ← lift (push_conflict (pass_conflicts s) conflict);
                mret (set_retry s retry conflicts true)
            | None => mret (set_retry s retry (pass_conflicts s) (retry_pin_conflict s))
            end
          else
            conflicts ← lift (push_conflict (pass_conflicts s)
              (exact_dependency_conflict canonical_id chosen_version required_version));
            mret (set_conflicts s conflicts)
      | None => mret s
      end
  | None =>
      if bool_decide (canonical_id ∈ visited s) then mret s
      else visit s canonical_id forced_version (queued_reason next) (queued_depth next)
  end.

(** One item of the queue, taken off it. *)
Definition dequeue (s : PassState) (next : QueueItem) : M PassState :=
  let pinned_version := exact_requirements !! queued_id next in
  match queued_version next, pinned_version with
  | Some forced_version, Some pinned_version =>
      if str_eqb forced_version pinned_version then round s next (Some forced_version)
      else
        conflicts ← lift (push_conflict (pass_conflicts s)
          (exact_dependency_conflict (queued_id next) forced_version pinned_version));
        mret (set_conflicts s conflicts)
  | Some forced_version, None => round s next (Some forced_version)
  | None, pinned_version => round s next pinned_version
  end.

(** The [while let] loop; [None] is running out of fuel, which
    [ContentTermination] shows not to happen. *)
Fixpoint drain (fuel : nat) (s : PassState) : M (option PassState) :=
  match fuel with
  | O => mret None
  | S fuel =>
      match queue s with
      | [] => mret (Some s)
      | next :: rest => s ← dequeue (set_queue s rest) next; drain fuel s
      end
  end.

(** ** After the queue *)

Definition selected_incompatibility (item : ResolvedContentItem) (other : string) : ResolutionConflict :=
  {| conflict_canonical_id := Some (item_canonical_id item); conflict_subject_title := None;
     conflict_reason := SelectedIncompatibility other |}.

Definition check_selected_dependency (resolved_projects : gmap string ResolvedContentItem)
    (item : ResolvedContentItem) (found : list ResolutionConflict * gset (string * string))
    (dependency : ContentDependency) :
    result ResolutionError (list ResolutionConflict * gset (string * string)) :=
  let '(conflicts, pairs) := found in
  match project ← dep_project_id dependency; pair project <$> resolved_projects !! project with
  | None => Ok found
  | Some (project, candidate) =>
      if negb (incompatible_dependency_matches dependency (item_project_id candidate) (item_version_id candidate))
      then Ok found
      else
        let key := (item_project_id item, project) in
        if bool_decide (key ∈ pairs) then Ok found
        else conflicts ← push_conflict conflicts (selected_incompatibility item project);
             Ok (conflicts, {[key]} ∪ pairs)
  end.

Definition append_selected_incompatibility_conflicts (items : list ResolvedContentItem)
    (conflicts : list ResolutionConflict) : result ResolutionError (list ResolutionConflict) :=
  let resolved_projects : gmap string ResolvedContentItem :=
    foldl (λ m item, <[item_project_id item := item]> m) ∅ items in
  found ← try_fold (λ found item,
    try_fold (check_selected_dependency resolved_projects item) found (item_dependencies item))
    (conflicts, ∅) items;
  Ok found.1.

Definition apply_title (metadata : gmap CanonicalId ProjectMetadata)
    (state : list ResolutionConflict * ResolutionBudget * ResolutionBudget) (conflict : ResolutionConflict) :
    result ResolutionError (list ResolutionConflict * ResolutionBudget * ResolutionBudget) :=
  let '(done, own, work) := state in
  match conflict_canonical_id conflict ≫= (λ id, metadata !! id) with
  | Some project =>
      '(own, encoded_len) ← admit_provider_text own (meta_title project);
      work ← admit_output_len work encoded_len;
      Ok (done ++ [{| conflict_canonical_id := conflict_canonical_id conflict;
                      conflict_subject_title := Some (meta_title project);
                      conflict_reason := conflict_reason conflict |}], own, work)
  | None => Ok (done ++ [conflict], own, work)
  end.

Definition apply_metadata_titles (metadata : gmap CanonicalId ProjectMetadata)
    (conflicts : list ResolutionConflict) (own work : ResolutionBudget) :
    result ResolutionError (list ResolutionConflict * ResolutionBudget * ResolutionBudget) :=
  try_fold (apply_title metadata) ([], own, work) conflicts.

(** ** A pass *)

Record ResolvePass := {
  pass_resolution : ContentResolution;
  pass_retries : list (CanonicalId * string);
}.

Definition initial_item (selection : ResolutionSelection) : QueueItem := {|
  queued_id := selection_canonical_id selection;
  queued_version := match selection_version_id selection with
                    | Some version_id => Some version_id
                    | None => exact_requirements !! selection_canonical_id selection
                    end;
  queued_reason := Selected; queued_depth := 0 |}.

Definition initial_state (selections : list ResolutionSelection) (known : gmap CanonicalId ProjectMetadata)
    (work : ResolutionBudget) : PassState := {|
  pass_metadata := known; pass_metadata_requested := list_to_set (selection_canonical_id <$> selections);
  resolved_versions := ∅; visited := ∅; pass_items := []; pass_conflicts := []; incompatibilities := ∅;
  dependency_versions := ∅; dependency_versions_requested := ∅; budget := default_budget;
  work_budget := work; retry_with_exact := ∅; retry_pin_conflict := false;
  queue := initial_item <$> selections |}.

(** Every project visited pays for the edges it adds to the queue. *)
Definition queue_fuel : nat := Z.to_nat (MAX_RESOLUTION_QUEUE + 1).

Definition retry_order : CanonicalId * string → CanonicalId * string → comparison := cmp_on fst str_cmp.

Definition finish_pass (s : PassState) : result ResolutionError (ResolvePass * ResolutionBudget) :=
  conflicts ← append_selected_incompatibility_conflicts (pass_items s) (pass_conflicts s);
  '(conflicts, _, work) ← apply_metadata_titles (pass_metadata s) conflicts (budget s) (work_budget s);
  Ok ({| pass_resolution := {| items := pass_items s; conflicts := conflicts |};
         pass_retries := if retry_pin_conflict s then []
                         else sort_by retry_order (map_to_list (retry_with_exact s)) |}, work).

Definition resolve_pass (selections : list ResolutionSelection) (work : ResolutionBudget) :
    M (option (ResolvePass * ResolutionBudget)) :=
  known ← from_provider (metadata (selection_canonical_id <$> selections));
  lift (validate_selected_kinds selections known target) ;;
  drained ← drain queue_fuel (initial_state selections known work);
  match drained with
  | None => mret None
  | Some s => answer ← lift (finish_pass s); mret (Some answer)
  end.
End pass.

(** ** Resolving a selection

    The passes composed: the exact versions that installed content already
    requires, the selection's own, and passes repeated while they discover
    further exact requirements. *)

Import McPortablePath (UnicodeNorm).

(** Entries recorded and observed in place. *)
Definition live_entries (manifest : ContentManifest) (live_content : LiveManagedContent)
    (replacing : gset CanonicalId) : list ManifestEntry :=
  filter (λ entry, live_contains live_content entry = true)
    (filter (λ entry, entry_canonical_id entry ∉ replacing) (entries manifest)).

Definition required_dependencies (entry : ManifestEntry) : list ContentDependency :=
  filter (λ dependency, dep_kind dependency = Required) (entry_dependencies entry).

(** [.map(|entry| (entry.version_id(), entry)).collect::<HashMap<_, _>>()]. *)
Definition installed_versions (live : list ManifestEntry) : gmap string ManifestEntry :=
  foldl (λ m entry, <[entry_version_id entry := entry]> m) ∅ live.

Section closure.
Context `{UnicodeNorm} `{UrlParser} `{ResolutionJson} {W : Type} `{ContentService W}.

Notation M := (eff W ResolutionError).

Definition unresolved_version_ids (live : list ManifestEntry) : gset string :=
  list_to_set (filter (λ version_id, installed_versions live !! version_id = None)
    (omap dep_version_id (filter (λ dependency, dep_project_id dependency = None)
      (live ≫= required_dependencies)))).

(** The project an installed entry's exact requirement is about. *)
Definition requirement_of (live : list ManifestEntry) (identities : gmap string VersionIdentity)
    (dependency : ContentDependency) : result ResolutionError (option (CanonicalId * string)) :=
  match dep_version_id dependency with
  | None => Ok None
  | Some version_id =>
      canonical_id ←
        match dep_project_id dependency with
        | Some project_id => Ok (for_project ProviderModrinth project_id)
        | None =>
            ok_or InstalledDependencyUnidentified
              match installed_versions live !! version_id with
              | Some installed => Some (entry_canonical_id installed)
              | None => identity ← identities !! version_id;
                        Some (for_project (ident_provider identity) (ident_project_id identity))
              end
        end;
      Ok (Some (canonical_id, version_id))
  end.

Definition installed_exact_requirements (manifest : ContentManifest) (live_content : LiveManagedContent)
    (replacing : gset CanonicalId) (work : ResolutionBudget) :
    M (list (CanonicalId * string) * ResolutionBudget) :=
  let live := live_entries manifest live_content replacing in
  let installed_edges :=
    foldl (λ total entry, saturating_add_u64 total (Z.of_nat (length (entry_dependencies entry)))) 0 live in
  work ← lift (try_fold (λ work entry, admit_dependencies work (Z.of_nat (length (entry_dependencies entry))))
    work live);
  lift (ensure_within_limit LimitEdges installed_edges MAX_RESOLUTION_EDGES) ;;
  let unresolved := elements (unresolved_version_ids live) in
  identities ← (if (length unresolved =? 0)%nat then mret ∅
                else from_provider (version_identities unresolved) : M (gmap string VersionIdentity));
  requirements ← lift (try_map (requirement_of live identities) (live ≫= required_dependencies));
  mret (omap (λ requirement, requirement) (requirements : list (option (CanonicalId * string))), work).

(** The two loops over [insert_exact_requirement], which stop at the first
    contradiction. *)
Fixpoint insert_requirements (requirements : gmap CanonicalId string) (new : list (CanonicalId * string)) :
    gmap CanonicalId string + ResolutionConflict :=
  match new with
  | [] => inl requirements
  | (canonical_id, version_id) :: new =>
      match insert_exact_requirement requirements canonical_id version_id with
      | (requirements, None) => insert_requirements requirements new
      | (_, Some conflict) => inr conflict
      end
  end.

Definition validate_resolution_output (resolution : ContentResolution) : result ResolutionError unit :=
  bounded_serialized_len (resolution_writes resolution) MAX_RESOLUTION_OUTPUT_BYTES ;;
  Ok tt.

(** Return a resolution after checking its size. *)
Definition answer (resolution : ContentResolution) : M (option ContentResolution) :=
  lift (validate_resolution_output resolution) ;;
  mret (Some resolution).

Definition only_conflict (conflict : ResolutionConflict) : ContentResolution :=
  {| items := []; conflicts := [conflict] |}.

Definition stabilization_failed : ResolutionConflict :=
  {| conflict_canonical_id := None; conflict_subject_title := None; conflict_reason := StabilizationFailed |}.

(** [for _ in 0..=(MAX_RESOLUTION_DEPTH + 1)]. *)
Definition resolution_passes : nat := Z.to_nat (MAX_RESOLUTION_DEPTH + 2).

Section passes.
Context (target : ResolutionTarget) (manifest : ContentManifest) (live_content : LiveManagedContent)
  (pack : option PackFileSelection) (selections : list ResolutionSelection).

Fixpoint run_passes (passes : nat) (exact_requirements : gmap CanonicalId string) (work : ResolutionBudget) :
    M (option ContentResolution) :=
  match passes with
  | O => answer (only_conflict stabilization_failed)
  | S passes =>
      pass ← resolve_pass target manifest live_content exact_requirements pack selections work;
      match pass with
      | None => mret None
      | Some (pass, work) =>
          match pass_retries pass with
          | [] => answer (pass_resolution pass)
          | retries =>
              run_passes passes
                (foldl (λ m '(canonical_id, version_id), <[canonical_id := version_id]> m) exact_requirements retries)
                work
          end
      end
  end.
End passes.

Definition selected_requirements (selections : list ResolutionSelection) : list (CanonicalId * string) :=
  omap (λ selection, pair (selection_canonical_id selection) <$> selection_version_id selection) selections.

Definition resolve_content_with_pack (target : ResolutionTarget) (selections : list ResolutionSelection)
    (manifest : ContentManifest) (live_content : LiveManagedContent) (pack : option PackFileSelection) :
    M (option ContentResolution) :=
  lift (err_if (length selections =? 0)%nat NoSelection) ;;
  lift (ensure_within_limit LimitSelections (Z.of_nat (length selections)) MAX_RESOLUTION_SELECTIONS) ;;
  lift (try_fold (insert_new DuplicateSelection) (∅ : gset string) (selection_canonical_id <$> selections)) ;;
  let replacing : gset CanonicalId := list_to_set (selection_canonical_id <$> selections) in
  '(installed, work) ← installed_exact_requirements manifest live_content replacing default_budget;
  match insert_requirements ∅ installed with
  | inr conflict => answer (only_conflict conflict)
  | inl exact_requirements =>
      match insert_requirements exact_requirements (selected_requirements selections) with
      | inr conflict => answer (only_conflict conflict)
      | inl exact_requirements =>
          run_passes target manifest live_content pack selections resolution_passes exact_requirements work
      end
  end.

Definition resolve_content (target : ResolutionTarget) (selections : list ResolutionSelection)
    (manifest : ContentManifest) (live_content : LiveManagedContent) : M (option ContentResolution) :=
  resolve_content_with_pack target selections manifest live_content None.
End closure.
