(* ===== verification/ContentOutcome.v ===== *)
(** * What a round of the resolver does

    The successful rounds of [ContentResolve.dequeue] as an inductive relation
    between the states before and after: nothing to do, a conflict, a request
    for another pass, an unavailable project, or a version admitted.  The
    invariants of [ContentTermination] and [ContentConsistency] go by cases on
    it. *)

From S2P Require Import Prelude RustStr Effect ContentModel ContentUrl ContentPackPath ContentProvenance.
From S2P Require Import ContentProvider ContentVersions ContentResolve.
From S2P Require McPortablePath.
Import McPortablePath (UnicodeNorm).

(** ** Budgets *)

Definition budget_ok (b : ResolutionBudget) : Prop :=
  0 ≤ nodes b ≤ MAX_RESOLUTION_NODES ∧ 0 ≤ edges b ≤ MAX_RESOLUTION_EDGES ∧
  0 ≤ graph_bytes b ≤ MAX_CONTENT_GRAPH_BYTES.

Lemma ensure_ok kind observed maximum u : ensure_within_limit kind observed maximum = Ok u ↔ observed ≤ maximum.
Proof. unfold ensure_within_limit. rewrite err_if_ok. lia. Qed.

Lemma saturating_small a b bound :
  saturating_add_u64 a b ≤ bound → bound < u64_max → saturating_add_u64 a b = a + b.
Proof. unfold saturating_add_u64, u64_max. lia. Qed.

Lemma admit_node_ok b depth b' :
  admit_node b depth = Ok b' →
  nodes b' = nodes b + 1 ∧ nodes b' ≤ MAX_RESOLUTION_NODES ∧ depth ≤ MAX_RESOLUTION_DEPTH ∧
  edges b' = edges b ∧ graph_bytes b' = graph_bytes b.
Proof.
  unfold admit_node. intros Hb. ok_inv. rewrite ensure_ok in *. subst. simpl in *.
  rewrite (saturating_small _ _ MAX_RESOLUTION_NODES) in * by done. done.
Qed.

Lemma admit_dependencies_ok b count b' :
  admit_dependencies b count = Ok b' →
  edges b' = edges b + count ∧ edges b' ≤ MAX_RESOLUTION_EDGES ∧ count ≤ MAX_DEPENDENCIES_PER_NODE ∧
  nodes b' = nodes b ∧ graph_bytes b' = graph_bytes b.
Proof.
  unfold admit_dependencies. intros Hb. ok_inv. rewrite ensure_ok in *. subst. simpl in *.
  rewrite (saturating_small _ _ MAX_RESOLUTION_EDGES) in * by done. done.
Qed.

Lemma admit_artifact_ok b size b' :
  admit_artifact b size = Ok b' →
  graph_bytes b' = graph_bytes b + size ∧ graph_bytes b' ≤ MAX_CONTENT_GRAPH_BYTES ∧
  nodes b' = nodes b ∧ edges b' = edges b.
Proof.
  unfold admit_artifact. intros Hb. ok_inv. rewrite ensure_ok in *. subst. simpl in *.
  rewrite (saturating_small _ _ MAX_CONTENT_GRAPH_BYTES) in * by done. done.
Qed.

Lemma admit_output_len_ok b n b' :
  admit_output_len b n = Ok b' → nodes b' = nodes b ∧ edges b' = edges b ∧ graph_bytes b' = graph_bytes b.
Proof. unfold admit_output_len. intros Hb. ok_inv. by subst. Qed.

Lemma admit_output_ok b writes b' n :
  admit_output b writes = Ok (b', n) → nodes b' = nodes b ∧ edges b' = edges b ∧ graph_bytes b' = graph_bytes b.
Proof. unfold admit_output. intros Hb. ok_inv. subst. by eapply admit_output_len_ok. Qed.

Lemma push_conflict_ok l c l' :
  push_conflict l c = Ok l' ↔ l' = l ++ [c] ∧ Z.of_nat (length l') ≤ MAX_RESOLUTION_CONFLICTS.
Proof.
  unfold push_conflict. rewrite bind_ok_unit, ensure_ok. unfold MAX_RESOLUTION_CONFLICTS, saturating_add_u64, u64_max.
  split.
  - intros [Hl [= <-]]. rewrite length_app. simpl. split; [done|]. lia.
  - intros [-> Hl]. rewrite length_app in Hl. simpl in Hl. split; [lia|done].
Qed.

(** ** Outcomes *)

Section outcome.
Context `{UnicodeNorm} `{UrlParser} `{ResolutionJson} {W : Type} `{ContentService W}.
Context (target : ResolutionTarget) (manifest : ContentManifest) (live_content : LiveManagedContent).
Context (exact_requirements : gmap CanonicalId string) (pack : option PackFileSelection).

(** A version of a project that the provider listed. *)
Definition published (canonical_id : CanonicalId) (kind : ContentKind) (version : ContentVersion) : Prop :=
  ∃ w w' listed, versions canonical_id (filter_for target kind) w = (Ok listed, w') ∧ version ∈ listed.

(** What the provider answered when it was asked for the project of a version,
    and that it answers for no other version. *)
Definition identified (version_id : string) (answer : option VersionIdentity) : Prop :=
  ∃ ids w m w', version_identities ids w = (Ok m, w') ∧ version_id ∈ ids ∧ m !! version_id = answer.
Definition only_requested : Prop :=
  ∀ ids w m w' id i, version_identities ids w = (Ok m, w') → m !! id = Some i → id ∈ ids.

(** The state knows the answers for the versions it asked for. *)
Definition asked (s : PassState) : Prop := ∀ version_id,
  (version_id ∈ dependency_versions_requested s → identified version_id (dependency_versions s !! version_id)) ∧
  (version_id ∉ dependency_versions_requested s → dependency_versions s !! version_id = None).

(** The version [forced] asks for, if any. *)
Definition satisfies (forced : option string) (version_id : string) : Prop :=
  ∀ required, forced = Some required → version_id = required.

(** The state once the project has been entered as visited and its metadata
    fetched. *)
Record entered (s : PassState) (canonical_id : CanonicalId) (depth : Z) (s1 : PassState) : Prop := {
  en_visited : visited s1 = {[canonical_id]} ∪ visited s;
  en_nodes : nodes (budget s1) = nodes (budget s) + 1;
  en_nodes_bound : nodes (budget s1) ≤ MAX_RESOLUTION_NODES;
  en_edges : edges (budget s1) = edges (budget s);
  en_graph : graph_bytes (budget s1) = graph_bytes (budget s);
  en_queue : queue s1 = queue s;
  en_items : pass_items s1 = pass_items s;
  en_resolved : resolved_versions s1 = resolved_versions s;
  en_conflicts : pass_conflicts s1 = pass_conflicts s;
  en_pairs : incompatibilities s1 = incompatibilities s;
  en_retry : retry_with_exact s1 = retry_with_exact s;
  en_pin : retry_pin_conflict s1 = retry_pin_conflict s;
  en_versions : dependency_versions s1 = dependency_versions s;
  en_versions_requested : dependency_versions_requested s1 = dependency_versions_requested s;
  en_requested : pass_metadata_requested s ⊆ pass_metadata_requested s1;
  en_metadata : pass_metadata s1 = pass_metadata s ∨
    ∃ ids w m w', metadata ids w = (Ok m, w') ∧ pass_metadata s1 = m ∪ pass_metadata s ∧
      ∀ id, id ∈ ids → id ∉ pass_metadata_requested s ∧ id ∈ pass_metadata_requested s1;
}.

(** What [admit_version] does to the state [s1] and to the item it adds. *)
Record admitted (s1 : PassState) (canonical_id : CanonicalId) (forced : option string)
    (reason : ResolutionReason) (depth : Z) (s' : PassState) (item : ResolvedContentItem) : Prop := {
  ad_visited : visited s' = visited s1;
  ad_nodes : nodes (budget s') = nodes (budget s1);
  ad_edges : edges (budget s') = edges (budget s1) + Z.of_nat (length (item_dependencies item));
  ad_edges_bound : edges (budget s') ≤ MAX_RESOLUTION_EDGES;
  ad_graph : ∃ size, file_size (item_file item) = Some size ∧ 1 ≤ size ∧
    graph_bytes (budget s') = graph_bytes (budget s1) + size ∧ graph_bytes (budget s') ≤ MAX_CONTENT_GRAPH_BYTES;
  ad_items : pass_items s' = pass_items s1 ++ [item];
  ad_resolved : resolved_versions s' = <[canonical_id := item_version_id item]> (resolved_versions s1);
  ad_retry : retry_with_exact s' = retry_with_exact s1;
  ad_pin : retry_pin_conflict s' = retry_pin_conflict s1;
  ad_metadata : pass_metadata s' = pass_metadata s1;
  ad_requested : pass_metadata_requested s' = pass_metadata_requested s1;
  ad_known : ∃ project, pass_metadata s1 !! canonical_id = Some project ∧ item_kind item = meta_kind project;
  ad_findings : ∃ found, try_fold (follow_dependency manifest live_content canonical_id depth)
      (queue s1, (pass_conflicts s1, incompatibilities s1)) (item_dependencies item) =
      Ok (queue s', found) ∧
    try_fold (note_incompatible canonical_id) found
      (installed_entries_incompatible_with manifest canonical_id (item_version_id item) live_content) =
      Ok (pass_conflicts s', incompatibilities s');
  ad_id : item_canonical_id item = canonical_id;
  ad_project : item_project_id item = project_id canonical_id;
  ad_provider : item_provider item = ProviderModrinth;
  ad_reason : item_reason item = reason;
  ad_version : satisfies forced (item_version_id item);
  ad_installable : require_installable_kind (item_kind item) target = Ok tt;
  ad_artifact : is_ok (validate_planned_artifact (item_kind item) (item_file item)) = true;
  ad_published : ∃ version identities, published canonical_id (item_kind item) version ∧
    version_matches_target version target (item_kind item) = true ∧ version_id version = item_version_id item ∧
    item_dependencies item ≡ₚ canonicalize_version_only_dependencies (version_dependencies version) identities ∧
    (only_requested → asked s1 → ∀ vid, vid ∈ version_only_ids (version_dependencies version) →
      identified vid (identities !! vid));
  ad_asked : only_requested → asked s1 → asked s';
}.

Inductive outcome (s : PassState) (next : QueueItem) : PassState → Prop :=
| outcome_nothing :
    (∃ chosen, resolved_versions s !! queued_id next = Some chosen ∧ satisfies (queued_version next) chosen) ∨
    resolved_versions s !! queued_id next = None ∧ queued_id next ∈ visited s →
    outcome s next s
| outcome_conflict conflict :
    Z.of_nat (length (pass_conflicts s ++ [conflict])) ≤ MAX_RESOLUTION_CONFLICTS →
    outcome s next (set_conflicts s (pass_conflicts s ++ [conflict]))
| outcome_retry required :
    exact_requirements !! queued_id next = None →
    outcome s next (set_retry s (<[queued_id next := required]> (retry_with_exact s)) (pass_conflicts s)
      (retry_pin_conflict s))
| outcome_retry_conflict required conflict :
    Z.of_nat (length (pass_conflicts s ++ [conflict])) ≤ MAX_RESOLUTION_CONFLICTS →
    exact_requirements !! queued_id next = None →
    outcome s next (set_retry s (<[queued_id next := required]> (retry_with_exact s))
      (pass_conflicts s ++ [conflict]) true)
| outcome_unavailable s1 conflict :
    queued_id next ∉ visited s → resolved_versions s !! queued_id next = None →
    entered s (queued_id next) (queued_depth next) s1 →
    Z.of_nat (length (pass_conflicts s ++ [conflict])) ≤ MAX_RESOLUTION_CONFLICTS →
    outcome s next (set_conflicts s1 (pass_conflicts s ++ [conflict]))
| outcome_admitted s1 s' item forced :
    queued_id next ∉ visited s → resolved_versions s !! queued_id next = None →
    entered s (queued_id next) (queued_depth next) s1 →
    (∀ v, queued_version next = Some v → forced = Some v) →
    (∀ v, exact_requirements !! queued_id next = Some v → forced = Some v) →
    admitted s1 (queued_id next) forced (queued_reason next) (queued_depth next) s' item →
    outcome s next s'.

(** ** The code does one of them *)

Lemma fetch_metadata_ok s id w s1 w' :
  fetch_metadata s id w = (Ok s1, w') →
  s1 = s ∨ ∃ ids v m v' requested, metadata ids v = (Ok m, v') ∧
    s1 = set_metadata s (m ∪ pass_metadata s) requested ∧ pass_metadata_requested s ⊆ requested ∧
    ∀ id, id ∈ ids → id ∉ pass_metadata_requested s ∧ id ∈ requested.
Proof.
  unfold fetch_metadata, from_provider. case_bool_decide; intros Hf; eff_inv; [by left|]. right.
  do 5 eexists. split; [eassumption|]. split; [done|]. split; [set_solver|].
  intros id'. rewrite elem_of_elements. set_solver.
Qed.

Lemma missing_versions_ok requested ids missing requested' :
  missing_versions requested ids = (missing, requested') →
  requested' = list_to_set missing ∪ requested ∧ (∀ id, id ∈ missing → id ∉ requested) ∧ ∀ id, id ∈ ids → id ∈ requested'.
Proof.
  revert requested missing requested'. induction ids as [|id ids IH]; intros requested missing requested'; simpl.
  { intros [= <- <-]. set_solver. }
  case_bool_decide as Hid.
  - intros Hm. destruct (IH _ _ _ Hm) as (-> & Hnew & Hall). set_solver.
  - destruct (missing_versions ({[id]} ∪ requested) ids) as [missing1 requested1] eqn:Hm. intros [= <- <-].
    destruct (IH _ _ _ Hm) as (-> & Hnew & Hall). set_solver.
Qed.

Lemma fetch_dependency_versions_ok s version w s1 w' :
  fetch_dependency_versions s version w = (Ok s1, w') →
  (∃ known requested, s1 = set_dependency_versions s known requested) ∧
  (only_requested → asked s → asked s1 ∧
    ∀ vid, vid ∈ version_only_ids (version_dependencies version) → vid ∈ dependency_versions_requested s1).
Proof.
  unfold fetch_dependency_versions, from_provider. destruct (missing_versions _ _) as [missing requested] eqn:Em.
  apply missing_versions_ok in Em as (-> & Hnew & Hall).
  destruct (_ =? _)%nat eqn:Elen; intros Hf; eff_inv.
  - split; [by eauto|]. intros _ Ha. split; [|done].
    apply Nat.eqb_eq, nil_length_inv in Elen as ->. intros vid. destruct (Ha vid). cbn. set_solver.
  - split; [by eauto|]. intros Hlaw Ha. split; [|done]. intros vid. destruct (Ha vid) as [Hin Hout]. cbn.
    rename select (version_identities _ _ = _) into Hi. rename select (gmap string VersionIdentity) into m.
    assert (vid ∉ missing → m !! vid = None) as Hnone.
    { intros Hn. apply eq_None_not_Some. intros [i Hv]. by apply Hn, (Hlaw _ _ _ _ _ _ Hi Hv). }
    split.
    + rewrite elem_of_union, elem_of_list_to_set. intros [Hv|Hv].
      * do 4 eexists. split; [exact Hi|]. split; [done|]. symmetry. apply lookup_union_l, Hout. by apply Hnew.
      * assert (vid ∉ missing) as Hn by (intros Hv'; by apply (Hnew vid)).
        rewrite lookup_union_r by by apply Hnone. by apply Hin.
    + rewrite elem_of_union, elem_of_list_to_set. intros Hn. rewrite lookup_union_r; [|apply Hnone; tauto]. apply Hout. tauto.
Qed.

Lemma sorted_dependencies_length l known :
  length (sort_by compare_dependencies (canonicalize_version_only_dependencies l known)) = length l.
Proof. rewrite sort_by_perm. unfold canonicalize_version_only_dependencies. apply length_fmap. Qed.

Lemma admit_version_ok s id forced reason depth project version w s' w' :
  admit_version manifest live_content pack s id reason depth project version w = (Ok s', w') →
  pass_metadata s !! id = Some project →
  require_installable_kind (meta_kind project) target = Ok tt →
  published id (meta_kind project) version →
  version_matches_target version target (meta_kind project) = true →
  satisfies forced (version_id version) →
  ∃ item, admitted s id forced reason depth s' item.
Proof.
  unfold admit_version. intros Hr Hp Hk Hpub Hm Hsat. eff_inv.
  match goal with |- ∃ _, admitted _ _ _ _ _ (set_items _ (_ ++ [?i]) _ _) _ => set (item := i) in *; exists item end.
  rename select (fetch_dependency_versions _ _ _ = _) into Hf.
  apply fetch_dependency_versions_ok in Hf as [(known & requested & ->) Hasked].
  rename select (admit_output _ _ = _) into Ho. apply admit_output_ok in Ho as (On & Oe & Og).
  repeat match goal with
  | H : admit_artifact (budget s) _ = Ok _ |- _ => apply admit_artifact_ok in H; destruct H as (Ag & Ab & An & Ae)
  | H : admit_dependencies ?b _ = Ok ?c, _ : nodes ?b = nodes (budget s) |- _ =>
      apply admit_dependencies_ok in H; destruct H as (De & Db & _ & Dn & Dg)
  end.
  rename select (map_err ResolutionProvider _ = _) into Ha. apply map_err_ok in Ha.
  pose proof (validate_planned_artifact_ok _ _ _ _ Ha) as (_ & Hsize & Hpos & _).
  simpl in *. split; simpl; try done.
  - by rewrite On, Dn, An.
  - by rewrite Oe, De, Ae, sorted_dependencies_length.
  - by rewrite Oe.
  - eexists. split; [exact Hsize|]. rewrite Og, Dg, Ag in *. lia.
  - eauto.
  - match goal with Hn : try_fold (note_incompatible _) ?p _ = Ok ?found |- _ =>
      exists p; split; [done|]; by destruct found end.
  - by rewrite Ha.
  - exists version, known. split_and!; try done; [apply sort_by_perm|].
    intros Hlaw Hs1 vid Hvid. destruct (Hasked Hlaw Hs1) as [Hs2 Hreq]. by apply (Hs2 vid), Hreq.
  - intros Hlaw Hs1. by apply (Hasked Hlaw Hs1).
Qed.

Lemma unavailable_ok s id (w : W) s' w' :
  unavailable s id w = (Ok s', w') →
  s' = set_conflicts s (pass_conflicts s ++ [unavailable_conflict id]) ∧
  Z.of_nat (length (pass_conflicts s ++ [unavailable_conflict id])) ≤ MAX_RESOLUTION_CONFLICTS.
Proof.
  unfold unavailable. intros Hu. eff_inv. rename select (push_conflict _ _ = _) into Hc.
  by apply push_conflict_ok in Hc as [-> ?].
Qed.

Lemma unavailable_conflict_ok s id (w : W) s' w' :
  unavailable s id w = (Ok s', w') →
  ∃ conflict, s' = set_conflicts s (pass_conflicts s ++ [conflict]) ∧
    Z.of_nat (length (pass_conflicts s ++ [conflict])) ≤ MAX_RESOLUTION_CONFLICTS.
Proof. intros [-> ?]%unavailable_ok. eauto. Qed.

Lemma visit_ok s next forced w s' w' :
  visit target manifest live_content pack s (queued_id next) forced (queued_reason next) (queued_depth next) w = (Ok s', w') →
  ∃ s1, entered s (queued_id next) (queued_depth next) s1 ∧
  ((∃ conflict, s' = set_conflicts s1 (pass_conflicts s ++ [conflict]) ∧
      Z.of_nat (length (pass_conflicts s ++ [conflict])) ≤ MAX_RESOLUTION_CONFLICTS) ∨
   ∃ item, admitted s1 (queued_id next) forced (queued_reason next) (queued_depth next) s' item).
Proof.
  unfold visit. intros Hr. eff_inv. rename select (fetch_metadata _ _ _ = _) into Hf.
  repeat match goal with
  | H : admit_node (budget s) _ = Ok _ |- _ => apply admit_node_ok in H; destruct H as (Bn & Bb & _ & Be & Bg)
  end.
  match type of Hf with fetch_metadata ?s0 _ _ = (Ok ?s1, _) =>
    assert (entered s (queued_id next) (queued_depth next) s1 ∧ pass_conflicts s1 = pass_conflicts s) as [Hent Hconf];
    [apply fetch_metadata_ok in Hf as [->|(ids & v & m & v' & requested & Hm & -> & Hsub & Hnew)]
    |exists s1; split; [exact Hent|]] end.
  1,2: split; [split; simpl; eauto 10|done].
  rewrite <-Hconf. destruct (pass_metadata _ !! queued_id next) as [project|] eqn:Hp.
  2: { left. by eapply unavailable_conflict_ok. }
  eff_inv. match goal with Hv : @versions _ _ _ _ _ = (?answer, _) |- _ => destruct answer as [listed|error] end.
  2: { left. destruct (not_found error); eff_inv; [|done]. by eapply unavailable_conflict_ok. }
  destruct (pick_compatible_version _ _ _ _) as [version|] eqn:Epick.
  2: { left. by eapply unavailable_conflict_ok. }
  right. apply pick_compatible_version_spec in Epick as (Hin & Hm & Hsat).
  eapply admit_version_ok; [eassumption|exact Hp| | |exact Hm|exact Hsat].
  - match goal with Hk : require_installable_kind _ _ = Ok ?u |- _ => by destruct u end.
  - unfold published. eauto.
Qed.

Lemma round_outcome s next forced w s' w' :
  (∀ v, queued_version next = Some v → forced = Some v) →
  (∀ v, exact_requirements !! queued_id next = Some v → forced = Some v) →
  round target manifest live_content exact_requirements pack s next forced w = (Ok s', w') →
  outcome s next s'.
Proof.
  intros Hq Hx. unfold round. destruct (resolved_versions s !! queued_id next) as [chosen|] eqn:Er.
  - assert (∀ v, forced = None ∨ forced = Some chosen → queued_version next = Some v → chosen = v) as Hsat.
    { intros v [->| ->] Hv; apply Hq in Hv; congruence. }
    destruct forced as [required|].
    + destruct (str_eqb required chosen) eqn:E.
      { intros Hr. eff_inv. apply str_eqb_spec in E as ->. apply outcome_nothing. left. exists chosen.
        split; [done|]. intros v. apply Hsat. by right. }
      unfold exact_requirement_needs_retry, insert_exact_requirement. case_bool_decide as Hn.
      * destruct (retry_with_exact s !! queued_id next ≫= _) as [conflict|]; intros Hr; eff_inv.
        -- rename select (push_conflict _ _ = _) into Hc. apply push_conflict_ok in Hc as [-> Hc].
           by apply outcome_retry_conflict.
        -- by apply outcome_retry.
      * intros Hr. eff_inv. rename select (push_conflict _ _ = _) into Hc. apply push_conflict_ok in Hc as [-> Hc].
        by apply outcome_conflict.
    + intros Hr. eff_inv. apply outcome_nothing. left. exists chosen. split; [done|]. intros v. apply Hsat. by left.
  - case_bool_decide as Hv.
    + intros Hr. eff_inv. apply outcome_nothing. by right.
    + intros (s1 & Hent & [(conflict & -> & Hc)|[item Had]])%visit_ok.
      * by apply outcome_unavailable.
      * by eapply outcome_admitted.
Qed.

(** Every successful round is one of the outcomes. *)
Lemma dequeue_outcome s next w s' w' :
  dequeue target manifest live_content exact_requirements pack s next w = (Ok s', w') → outcome s next s'.
Proof.
  unfold dequeue. destruct (queued_version next) as [v|] eqn:Eq, (exact_requirements !! queued_id next) as [p|] eqn:Ep.
  - destruct (str_eqb v p) eqn:E.
    + apply str_eqb_spec in E as ->. apply round_outcome; intros ?; congruence.
    + intros Hr. eff_inv. rename select (push_conflict _ _ = _) into Hc. apply push_conflict_ok in Hc as [-> Hc].
      by apply outcome_conflict.
  - apply round_outcome; intros ?; congruence.
  - apply round_outcome; intros ?; congruence.
  - apply round_outcome; intros ?; congruence.
Qed.

(** Rule induction over the rounds of a drained queue. *)
Lemma drain_inv (P : PassState → Prop) fuel s w s' w' :
  (∀ s next rest s', queue s = next :: rest → P s → outcome (set_queue s rest) next s' → P s') →
  P s → drain target manifest live_content exact_requirements pack fuel s w = (Ok (Some s'), w') →
  P s' ∧ queue s' = [].
Proof.
  intros Hstep. revert s w. induction fuel as [|fuel IH]; intros s w HP; simpl.
  { intros Hr. eff_inv. discriminate. }
  destruct (queue s) as [|next rest] eqn:Eq; intros Hr; eff_inv.
  { rename select (Some _ = Some _) into E. injection E as ->. done. }
  rename select (dequeue _ _ _ _ _ _ _ _ = _) into Hd. apply dequeue_outcome in Hd.
  eapply IH; [|eassumption]. by eapply Hstep.
Qed.
End outcome.
