(* ===== verification/ContentTermination.v ===== *)
(** * Bounds and termination of content resolution

    The invariant that the budgets of a pass account for what it has done; the
    fuel of the queue loop is enough; so a resolution always answers, and
    every answer is within the declared limits. *)

From S2P Require Import Prelude RustStr Effect ContentModel ContentUrl ContentPackPath ContentProvenance.
From S2P Require Import ContentProvider ContentVersions ContentResolve ContentOutcome.
From S2P Require McPortablePath.
Import McPortablePath (UnicodeNorm).

Section bounds.
Context `{UnicodeNorm} `{UrlParser} `{ResolutionJson} {W : Type} `{ContentService W}.
Context (target : ResolutionTarget) (manifest : ContentManifest) (live_content : LiveManagedContent).

Definition item_size (item : ResolvedContentItem) : Z := default 0 (file_size (item_file item)).

Record bounded (s : PassState) : Prop := {
  bd_nodes : nodes (budget s) = Z.of_nat (size (visited s));
  bd_nodes_max : nodes (budget s) ≤ MAX_RESOLUTION_NODES;
  bd_edges : 0 ≤ edges (budget s) ≤ MAX_RESOLUTION_EDGES;
  bd_graph : graph_bytes (budget s) = sum_Z (item_size <$> pass_items s);
  bd_graph_max : graph_bytes (budget s) ≤ MAX_CONTENT_GRAPH_BYTES;
  bd_items : NoDup (item_canonical_id <$> pass_items s);
  bd_visited : ∀ item, item ∈ pass_items s → item_canonical_id item ∈ visited s;
  bd_conflicts : Z.of_nat (length (pass_conflicts s)) ≤ MAX_RESOLUTION_CONFLICTS;
}.

(** The rounds left: the queue, and the edges that may still be added to it. *)
Definition weight (s : PassState) : Z := Z.of_nat (length (queue s)) + (MAX_RESOLUTION_EDGES - edges (budget s)).

(** What following the dependencies of one version adds to the queue. *)
Definition queued_dependency (depth : Z) (dependency : ContentDependency) : option QueueItem :=
  match dep_kind dependency, dep_project_id dependency with
  | Required, Some project =>
      Some {| queued_id := for_project ProviderModrinth project; queued_version := dep_version_id dependency;
              queued_reason := DependencyReason; queued_depth := saturating_add_u64 depth 1 |}
  | _, _ => None
  end.

Lemma note_incompatible_ok id found entry found' :
  note_incompatible id found entry = Ok found' →
  (found' = found ∧ (id, entry_canonical_id entry) ∈ found.2) ∨
  (found' = (found.1 ++ [incompatible_conflict id entry], {[(id, entry_canonical_id entry)]} ∪ found.2) ∧
   Z.of_nat (length found'.1) ≤ MAX_RESOLUTION_CONFLICTS).
Proof.
  destruct found as [conflicts pairs]. unfold note_incompatible. case_bool_decide as Hin.
  - intros [= <-]. by left.
  - intros Hn. ok_inv. rename select (push_conflict _ _ = _) into Hc. apply push_conflict_ok in Hc as [-> Hc].
    subst. by right.
Qed.

(** A dependency that gives no new conflict. *)
Definition quiet (id : CanonicalId) (pairs : gset (CanonicalId * CanonicalId)) (d : ContentDependency) : Prop :=
  (dep_kind d = Required → is_Some (dep_project_id d)) ∧
  (dep_kind d = Incompatible → ∀ e, dep_project_id d ≫= installed_incompatible manifest live_content d = Some e →
    (id, entry_canonical_id e) ∈ pairs).

Lemma follow_dependency_ok id depth q found d q' found' :
  follow_dependency manifest live_content id depth (q, found) d = Ok (q', found') →
  q' = q ++ option_list (queued_dependency depth d) ∧
  ((found' = found ∧ quiet id found.2 d) ∨
   ∃ c, found'.1 = found.1 ++ [c] ∧ Z.of_nat (length found'.1) ≤ MAX_RESOLUTION_CONFLICTS).
Proof.
  destruct found as [c p]. unfold follow_dependency, queued_dependency, quiet.
  destruct (dep_kind d).
  - destruct (dep_project_id d); intros Hf; ok_inv; subst.
    + simpl. split; [done|left]. split; [done|]. split; [eauto|done].
    + rename select (push_conflict _ _ = _) into Hc. apply push_conflict_ok in Hc as [-> Hc].
      rewrite app_nil_r. split; [done|right]. by eexists.
  - intros [= <- <-]. rewrite app_nil_r. split; [done|]. by left.
  - destruct (dep_project_id d ≫= _) as [e|]; intros Hf; ok_inv; subst; simpl; rewrite app_nil_r; (split; [done|]).
    + rename select (note_incompatible _ _ _ = _) into Hn.
      apply note_incompatible_ok in Hn as [[-> Hin]|[-> ?]]; [left|right; by eexists].
      split; [done|]. split; [done|]. by intros _ e' [= <-].
    + left. done.
  - intros [= <- <-]. rewrite app_nil_r. split; [done|]. by left.
Qed.

Lemma follow_fold_ok id depth q found deps q' found' :
  try_fold (follow_dependency manifest live_content id depth) (q, found) deps = Ok (q', found') →
  q' = q ++ omap (queued_dependency depth) deps ∧
  (found' = found ∨ Z.of_nat (length found'.1) ≤ MAX_RESOLUTION_CONFLICTS).
Proof.
  revert q found. induction deps as [|d deps IH]; intros q found; simpl.
  { intros [= <- <-]. rewrite app_nil_r. split; [done|by left]. }
  intros ([q1 found1] & Hd & Hrest)%bind_ok. apply follow_dependency_ok in Hd as [-> Hb].
  apply IH in Hrest as [-> Hb']. split; [|naive_solver].
  rewrite <-app_assoc. f_equal. by destruct (queued_dependency depth d).
Qed.

Lemma note_fold_bound id found l found' :
  try_fold (note_incompatible id) found l = Ok found' →
  found' = found ∨ Z.of_nat (length found'.1) ≤ MAX_RESOLUTION_CONFLICTS.
Proof.
  revert found. induction l as [|e l IH]; intros found; simpl; [intros [= <-]; by left|].
  intros (f1 & Hn & Hrest)%bind_ok. apply IH in Hrest. apply note_incompatible_ok in Hn. naive_solver.
Qed.

Lemma length_omap_le {A B} (f : A → option B) (l : list A) : (length (omap f l) ≤ length l)%nat.
Proof. induction l as [|x l IH]; simpl; [done|]. destruct (f x); [by apply le_n_S|by apply le_S]. Qed.

Context (exact_requirements : gmap CanonicalId string).

Lemma entered_bounded s id depth s1 :
  bounded s → id ∉ visited s → entered s id depth s1 → bounded s1.
Proof.
  intros [Bn Bm Be Bg Bx Bi Bv Bc] Hid Hent. destruct Hent. split.
  - rewrite en_nodes, en_visited, Bn, size_union, size_singleton by set_solver. lia.
  - done.
  - by rewrite en_edges.
  - by rewrite en_graph, en_items.
  - by rewrite en_graph.
  - by rewrite en_items.
  - rewrite en_items, en_visited. intros item Hin. specialize (Bv item Hin). set_solver.
  - by rewrite en_conflicts.
Qed.

Lemma admitted_findings s1 id forced reason depth s' item :
  admitted target manifest live_content s1 id forced reason depth s' item →
  queue s' = queue s1 ++ omap (queued_dependency depth) (item_dependencies item) ∧
  (pass_conflicts s' = pass_conflicts s1 ∨ Z.of_nat (length (pass_conflicts s')) ≤ MAX_RESOLUTION_CONFLICTS).
Proof.
  intros Had. destruct (ad_findings _ _ _ _ _ _ _ _ _ _ Had) as (found & Hf & Hn).
  apply follow_fold_ok in Hf as [Hq Hb]. apply note_fold_bound in Hn. split; [done|].
  destruct Hn as [E|Hn]; [|by right]. destruct Hb as [->|Hb]; [left; by injection E|right].
  by subst found.
Qed.

Lemma admitted_bounded s1 id forced reason depth s' item :
  bounded s1 → id ∈ visited s1 → (∀ i, i ∈ pass_items s1 → item_canonical_id i ≠ id) →
  admitted target manifest live_content s1 id forced reason depth s' item → bounded s'.
Proof.
  intros [Bn Bm Be Bg Bx Bi Bv Bc] Hid Hnew Had.
  pose proof (admitted_findings _ _ _ _ _ _ _ Had) as [_ Hc]. destruct Had.
  destruct ad_graph as (sz & Hs & Hpos & Hg & Hgm). split.
  - by rewrite ad_nodes, ad_visited.
  - by rewrite ad_nodes.
  - rewrite ad_edges in *. lia.
  - rewrite Hg, Bg, ad_items, fmap_app, sum_Z_app. simpl.
    assert (item_size item = sz) as -> by (unfold item_size; by rewrite Hs). lia.
  - done.
  - rewrite ad_items, fmap_app. apply list.NoDup_app. split_and!; [done| |apply NoDup_singleton].
    intros i (i' & -> & Hi)%list_elem_of_fmap Hin. apply list_elem_of_singleton in Hin.
    apply (Hnew i' Hi). congruence.
  - rewrite ad_items, ad_visited. intros i [Hi| ->%list_elem_of_singleton]%elem_of_app; [by apply Bv|congruence].
  - by destruct Hc as [->|Hc].
Qed.

(** Every round keeps the accounts and uses up weight. *)
Lemma outcome_bounded s next rest s' :
  queue s = next :: rest → bounded s →
  outcome target manifest live_content exact_requirements (set_queue s rest) next s' →
  bounded s' ∧ weight s' < weight s.
Proof.
  intros Eq Hb. assert (bounded (set_queue s rest)) as Hb0 by (destruct Hb; by split).
  unfold weight. rewrite Eq. simpl length.
  assert (∀ s0 c, bounded s0 → Z.of_nat (length (pass_conflicts s0 ++ [c])) ≤ MAX_RESOLUTION_CONFLICTS →
    bounded (set_conflicts s0 (pass_conflicts s0 ++ [c]))) as Hconf by (intros ? ? []; by split).
  intros [_|conflict Hc|required _|required conflict Hc _|s1 conflict Hv _ Hent Hc|s1 s1' item forced Hv _ Hent _ _ Had].
  - split; [done|simpl; lia].
  - split; [by apply Hconf|simpl; lia].
  - split; [destruct Hb0; by split|simpl; lia].
  - split; [destruct Hb0; by split|simpl; lia].
  - pose proof (entered_bounded _ _ _ _ Hb0 Hv Hent) as Hb1. destruct Hent. simpl in *.
    rewrite <-en_conflicts in *. split; [by apply Hconf|]. rewrite en_queue, en_edges. lia.
  - pose proof (entered_bounded _ _ _ _ Hb0 Hv Hent) as Hb1.
    pose proof (admitted_findings _ _ _ _ _ _ _ Had) as [Hq _]. split.
    + eapply admitted_bounded; [done| | |exact Had].
      * rewrite (en_visited _ _ _ _ Hent). set_solver.
      * intros i Hi Ei. apply Hv. rewrite <-Ei. apply (bd_visited _ Hb0). by rewrite (en_items _ _ _ _ Hent) in Hi.
    + rewrite Hq, length_app, (ad_edges _ _ _ _ _ _ _ _ _ _ Had), (en_queue _ _ _ _ Hent), (en_edges _ _ _ _ Hent).
      simpl. pose proof (length_omap_le (queued_dependency (queued_depth next)) (item_dependencies item)). lia.
Qed.

Context (pack : option PackFileSelection).

Lemma drain_enough fuel s w w' :
  bounded s → weight s < Z.of_nat fuel →
  drain target manifest live_content exact_requirements pack fuel s w ≠ (Ok None, w').
Proof.
  revert s w. induction fuel as [|fuel IH]; intros s w Hb Hw Hd.
  { unfold weight in Hw. pose proof (bd_edges _ Hb). lia. }
  simpl in Hd. destruct (queue s) as [|next rest] eqn:Eq; eff_inv; [done|].
  match goal with Ho : dequeue _ _ _ _ _ _ _ _ = _ |- _ => apply dequeue_outcome in Ho;
    destruct (outcome_bounded _ _ _ _ Eq Hb Ho) as [Hb' Hw'] end.
  eapply IH; [exact Hb'|lia|eassumption].
Qed.

Lemma initial_bounded selections known work : bounded (initial_state exact_requirements selections known work).
Proof. split; simpl; try done. - constructor. - by intros ? ?%elem_of_nil. Qed.

Lemma resolve_pass_enough selections work w w' :
  Z.of_nat (length selections) ≤ MAX_RESOLUTION_SELECTIONS →
  resolve_pass target manifest live_content exact_requirements pack selections work w ≠ (Ok None, w').
Proof.
  intros Hlen Hr. unfold resolve_pass in Hr. eff_inv.
  match goal with Hd : drain _ _ _ _ _ _ _ _ = (Ok ?d, _) |- _ => destruct d as [s|]; eff_inv; [done|] end.
  match goal with Hd : drain _ _ _ _ _ _ _ _ = _ |- _ => revert Hd end.
  apply drain_enough; [apply initial_bounded|]. unfold weight, queue_fuel, MAX_RESOLUTION_QUEUE. simpl.
  rewrite length_fmap. unfold MAX_RESOLUTION_EDGES, MAX_RESOLUTION_SELECTIONS in *. lia.
Qed.
End bounds.

(** ** Whole resolutions *)

Lemma to_writer_fits chunks writer writer' :
  to_writer writer chunks = (writer', true) → written writer ≤ writer_maximum writer →
  written writer' = written writer + sum_Z chunks ∧ written writer' ≤ writer_maximum writer.
Proof.
  revert writer. induction chunks as [|n chunks IH]; intros writer; simpl.
  { intros [= <-] ?. split; lia. }
  unfold counting_write. destruct (_ <? n) eqn:E; [done|]. intros Ht Hb.
  apply IH in Ht as [Hw Hm]; simpl in *; lia.
Qed.

(** A length within the bound is the length of the whole value. *)
Lemma bounded_len_ok writes maximum n :
  0 ≤ maximum → bounded_serialized_len writes maximum = Ok n → n = sum_Z writes.1 ∧ n ≤ maximum.
Proof.
  intros Hm. unfold bounded_serialized_len. destruct (to_writer _ _) as [writer complete] eqn:E.
  destruct (complete && writes.2) eqn:Ec; [|by destruct (overflowed writer)]. intros [= <-].
  apply andb_true_iff in Ec as [-> _]. apply to_writer_fits in E; simpl in *; [|done]. lia.
Qed.

Section resolution.
Context `{UnicodeNorm} `{UrlParser} `{ResolutionJson} {W : Type} `{ContentService W}.

Lemma answer_ok r (w : W) o w' :
  answer r w = (Ok o, w') → o = Some r ∧ is_ok (validate_resolution_output r) = true.
Proof.
  unfold answer. intros Ha. eff_inv. split; [done|].
  match goal with Hv : validate_resolution_output r = Ok _ |- _ => by rewrite Hv end.
Qed.

Definition add_retries (exact : gmap CanonicalId string) (retries : list (CanonicalId * string)) :
    gmap CanonicalId string :=
  foldl (λ m '(canonical_id, version_id), <[canonical_id := version_id]> m) exact retries.

(** Induction over the passes: [Q] holds of the exact requirements of every
    pass, [P] of the pass whose resolution is returned. *)
Lemma run_passes_ok (Q : gmap CanonicalId string → Prop) (P : ResolvePass → Prop) target manifest live_content pack selections passes exact work
    (w : W) o w' :
  Z.of_nat (length selections) ≤ MAX_RESOLUTION_SELECTIONS →
  (∀ exact work v pass work' v', Q exact →
    resolve_pass target manifest live_content exact pack selections work v = (Ok (Some (pass, work')), v') →
    (pass_retries pass = [] → P pass) ∧ Q (add_retries exact (pass_retries pass))) →
  Q exact → run_passes target manifest live_content pack selections passes exact work w = (Ok o, w') →
  ∃ r, o = Some r ∧ is_ok (validate_resolution_output r) = true ∧
    (r = only_conflict stabilization_failed ∨ ∃ pass, P pass ∧ r = pass_resolution pass).
Proof.
  intros Hlen HP. revert exact work w. induction passes as [|passes IH]; intros exact work w HQ; simpl.
  { intros Ha. apply answer_ok in Ha as [-> Hv]. eauto 10. }
  intros Hr. eff_inv. match goal with Hp : resolve_pass _ _ _ _ _ _ _ _ = (Ok ?p, _) |- _ =>
    rename Hp into Hpass; destruct p as [[pass work1]|] end.
  2: { by apply resolve_pass_enough in Hpass. }
  destruct (HP _ _ _ _ _ _ HQ Hpass) as [HPp HQ'].
  destruct (pass_retries pass) as [|retry retries] eqn:Er; [|by eapply IH].
  match goal with Ha : answer _ _ = _ |- _ => apply answer_ok in Ha as [-> Hv] end. eauto 10.
Qed.

(** The cases in which a resolution is returned; the passes run under
    requirements that hold every installed exact requirement. *)
Lemma resolve_cases (Q : gmap CanonicalId string → Prop) (P : ResolvePass → Prop) target selections manifest live_content pack (w : W) o w' :
  (∀ installed exact exact' work v v', 
    installed_exact_requirements manifest live_content (list_to_set (selection_canonical_id <$> selections))
      default_budget v = (Ok (installed, work), v') →
    insert_requirements ∅ installed = inl exact →
    insert_requirements exact (selected_requirements selections) = inl exact' → Q exact') →
  (∀ exact work v pass work' v', Q exact →
    resolve_pass target manifest live_content exact pack selections work v = (Ok (Some (pass, work')), v') →
    (pass_retries pass = [] → P pass) ∧ Q (add_retries exact (pass_retries pass))) →
  resolve_content_with_pack target selections manifest live_content pack w = (Ok o, w') →
  ∃ r, o = Some r ∧ is_ok (validate_resolution_output r) = true ∧
    ((∃ conflict, r = only_conflict conflict) ∨ ∃ pass, P pass ∧ r = pass_resolution pass).
Proof.
  intros HQ HP. unfold resolve_content_with_pack. intros Hr. eff_inv.
  match goal with Hl : ensure_within_limit _ _ _ = Ok _ |- _ => apply ensure_ok in Hl as Hlen end.
  destruct (insert_requirements ∅ _) as [exact|conflict] eqn:Ei.
  2: { match goal with Ha : answer _ _ = _ |- _ => apply answer_ok in Ha as [-> Hv] end. eauto 10. }
  destruct (insert_requirements exact _) as [exact'|conflict] eqn:Es.
  2: { match goal with Ha : answer _ _ = _ |- _ => apply answer_ok in Ha as [-> Hv] end. eauto 10. }
  edestruct (run_passes_ok Q P) as (r' & -> & Hv & Hc); [exact Hlen|exact HP|by eapply HQ|eassumption|].
  exists r'. split; [done|]. split; [done|]. destruct Hc as [->|Hc]; eauto.
Qed.

(** C2: A resolution always comes to an end: whatever the provider answers, the
    queue of a pass runs dry within one round for every selection and every
    edge the budget allows, and the passes are bounded. *)
Theorem resolution_always_answers target selections manifest live_content pack (w : W) :
  ∃ w', (∃ e, resolve_content_with_pack target selections manifest live_content pack w = (Err e, w')) ∨
        (∃ r, resolve_content_with_pack target selections manifest live_content pack w = (Ok (Some r), w')).
Proof.
  destruct (resolve_content_with_pack _ _ _ _ _ w) as [[o|e] w'] eqn:E; exists w'; [right|left; eauto].
  eapply (resolve_cases (λ _, True) (λ _, True)) in E as (r & -> & _); [by exists r|done|done].
Qed.

Lemma append_selected_bound items conflicts conflicts' :
  append_selected_incompatibility_conflicts items conflicts = Ok conflicts' →
  Z.of_nat (length conflicts) ≤ MAX_RESOLUTION_CONFLICTS → Z.of_nat (length conflicts') ≤ MAX_RESOLUTION_CONFLICTS.
Proof.
  unfold append_selected_incompatibility_conflicts. intros Ha Hb. ok_inv. subst.
  rename select (try_fold _ _ _ = _) into Hf.
  apply (try_fold_inv _ (λ _ f, Z.of_nat (length f.1) ≤ MAX_RESOLUTION_CONFLICTS)) in Hf; [done|done|].
  clear. intros _ item f f' Hb Hf.
  apply (try_fold_inv _ (λ _ f, Z.of_nat (length f.1) ≤ MAX_RESOLUTION_CONFLICTS)) in Hf; [done|done|].
  clear. intros _ d [c p] f' Hb Hf. unfold check_selected_dependency in Hf.
  destruct (project ← dep_project_id d; _) as [[project candidate]|]; [|by injection Hf as <-].
  destruct (negb _); [by injection Hf as <-|]. case_bool_decide; [by injection Hf as <-|]. ok_inv. subst.
  rename select (push_conflict _ _ = _) into Hc. by apply push_conflict_ok in Hc as [-> ?].
Qed.

Lemma apply_titles_spec metadata conflicts own work conflicts' own' work' :
  apply_metadata_titles metadata conflicts own work = Ok (conflicts', own', work') →
  conflict_reason <$> conflicts' = conflict_reason <$> conflicts ∧
  conflict_canonical_id <$> conflicts' = conflict_canonical_id <$> conflicts.
Proof.
  intros Ha.
  set (P := λ (l : list ResolutionConflict) (s : list ResolutionConflict * ResolutionBudget * ResolutionBudget),
    conflict_reason <$> s.1.1 = conflict_reason <$> l ∧
    conflict_canonical_id <$> s.1.1 = conflict_canonical_id <$> l).
  apply (try_fold_inv _ P) in Ha; [done|done|]. clear.
  intros l c [[d own] work] s [Hr Hi] Hs. unfold apply_title in Hs. simpl in *.
  destruct (conflict_canonical_id c ≫= _) as [p|].
  - ok_inv. destruct x as [b n]. ok_inv. subst. split; simpl; rewrite !fmap_app; simpl; congruence.
  - injection Hs as <-. split; simpl; rewrite !fmap_app; simpl; congruence.
Qed.

(** The declared limits of an answer. *)
Record within_limits (r : ContentResolution) : Prop := {
  wl_items : Z.of_nat (length (items r)) ≤ MAX_RESOLUTION_NODES;
  wl_distinct : NoDup (item_canonical_id <$> items r);
  wl_conflicts : Z.of_nat (length (conflicts r)) ≤ MAX_RESOLUTION_CONFLICTS;
  wl_bytes : sum_Z (item_size <$> items r) ≤ MAX_CONTENT_GRAPH_BYTES;
}.

Lemma bounded_items s : bounded s → Z.of_nat (length (pass_items s)) ≤ MAX_RESOLUTION_NODES.
Proof.
  intros [Bn Bm _ _ _ Bi Bv _]. rewrite Bn in Bm. rewrite <-(length_fmap item_canonical_id).
  assert (length (item_canonical_id <$> pass_items s) ≤ size (visited s))%nat; [|lia].
  rewrite <-(size_list_to_set (C := gset CanonicalId) (item_canonical_id <$> pass_items s)) by done.
  apply subseteq_size. intros id (i & -> & Hi)%elem_of_list_to_set%list_elem_of_fmap. by apply Bv.
Qed.

(** C36: Whatever the provider answers, an answer holds at most 256 items, each
    project once, of at most 512 MiB together, at most 256 conflicts, and its
    JSON fits in 4 MiB. *)
Theorem resolution_within_limits target selections manifest live_content pack (w : W) r w' :
  resolve_content_with_pack target selections manifest live_content pack w = (Ok (Some r), w') →
  within_limits r ∧ sum_Z (resolution_writes r).1 ≤ MAX_RESOLUTION_OUTPUT_BYTES.
Proof.
  intros Hr. apply (resolve_cases (λ _, True) (λ pass, within_limits (pass_resolution pass))) in Hr; [|done|].
  - destruct Hr as (r' & [= <-] & Hv & Hc). split.
    + destruct Hc as [[c ->]|(pass & Hp & ->)]; [|done]. split; simpl; try done. constructor.
    + unfold validate_resolution_output in Hv. destruct (bounded_serialized_len _ _) as [n|] eqn:E; [|done].
      by apply bounded_len_ok in E as [-> ?].
  - clear. intros exact work v pass work' v' _ Hp. split; [intros _|done]. unfold resolve_pass in Hp. eff_inv.
    match goal with Hd : drain _ _ _ _ _ _ _ _ = (Ok ?d, _) |- _ => destruct d as [s|]; eff_inv; [|done] end.
    match goal with Hd : drain _ _ _ _ _ _ _ _ = _ |- _ => apply (drain_inv _ _ _ _ _ bounded) in Hd as [Hb _] end.
    2: { intros s0 next rest s1 Eq Hb Ho. by eapply outcome_bounded. }
    2: { apply initial_bounded. }
    match goal with E : Some _ = Some _ |- _ => injection E as -> end.
    rename select (finish_pass s = _) into Hf. unfold finish_pass in Hf. ok_inv.
    match goal with Ht : apply_metadata_titles _ _ _ _ = Ok ?t |- _ => destruct t as [[c own] work1] end.
    ok_inv. subst. simpl. rename select (append_selected_incompatibility_conflicts _ _ = _) into Ha.
    rename select (apply_metadata_titles _ _ _ _ = _) into Ht. apply apply_titles_spec in Ht as [Ht _].
    apply (f_equal length) in Ht. rewrite !length_fmap in Ht. pose proof (append_selected_bound _ _ _ Ha (bd_conflicts _ Hb)).
    split; simpl; [by apply bounded_items|apply Hb|by rewrite Ht|]. rewrite <-(bd_graph _ Hb). apply Hb.
Qed.
End resolution.
