(* ===== verification/ContentConsistency.v ===== *)
(** * What a resolution without conflicts guarantees

    The resolver reports conflicts instead of failing, and callers install
    what it returns when it reports none.  Here is what they rely on: such a
    resolution holds every selection and is closed under required
    dependencies, fits the target, and brings together nothing that excludes
    each other by a dependency whose project is known.  A dependency that names
    a version only stands for the project the provider gives for it; a required
    one without an answer is a conflict, an incompatible one is skipped. *)

From S2P Require Import Prelude RustStr Effect ContentModel ContentUrl ContentPackPath ContentProvenance.
From S2P Require Import ContentProvider ContentVersions ContentResolve ContentOutcome ContentTermination.
From S2P Require McPortablePath.
Import McPortablePath (UnicodeNorm).

(** ** Following dependencies without a conflict *)

Section clean_folds.
Context (manifest : ContentManifest) (live_content : LiveManagedContent).

Lemma note_fold_clean id l p :
  try_fold (note_incompatible id) ([], ∅) l = Ok ([], p) → l = [] ∧ p = ∅.
Proof.
  destruct l as [|e l]; [by intros [= <-]|]. cbn [try_fold]. intros (f & Hn & Hrest)%bind_ok. exfalso.
  apply note_incompatible_ok in Hn as [[_ Hin]|[-> _]]; [by apply not_elem_of_empty in Hin|].
  apply (try_fold_inv _ (λ _ f, f.1 ≠ [])) in Hrest; [done|done|]. clear.
  intros _ e [c p] f' Hf Hn. apply note_incompatible_ok in Hn as [[-> _]|[-> _]]; [done|].
  simpl. by destruct c.
Qed.

Lemma follow_fold_grows id depth q f deps q' f' :
  try_fold (follow_dependency manifest live_content id depth) (q, f) deps = Ok (q', f') →
  (f.1 ≠ [] → f'.1 ≠ []) ∧ (f'.1 = [] → f' = f).
Proof.
  revert q f. induction deps as [|d deps IH]; intros q f; simpl; [by intros [= <- <-]|].
  intros ([q1 f1] & Hd & Hrest)%bind_ok. apply IH in Hrest as [H1 H2].
  apply follow_dependency_ok in Hd as [_ [[-> _]|(c & E & _)]]; [naive_solver|].
  assert (f1.1 ≠ []) by (rewrite E; by destruct f.1). naive_solver.
Qed.

Lemma note_fold_grows id f l f' :
  try_fold (note_incompatible id) f l = Ok f' → f.1 ≠ [] → f'.1 ≠ [].
Proof.
  intros Hf Hne. apply (try_fold_inv _ (λ _ f, f.1 ≠ [])) in Hf; [done|done|]. clear.
  intros _ e [c p] f' Hf Hn. apply note_incompatible_ok in Hn as [[-> _]|[-> _]]; [done|]. simpl. by destruct c.
Qed.

(** Dependencies followed without a conflict: the required ones name their
    project, and no incompatible one meets installed content. *)
Lemma follow_fold_clean id depth q deps q' p :
  try_fold (follow_dependency manifest live_content id depth) (q, ([], ∅)) deps = Ok (q', ([], p)) →
  p = ∅ ∧ ∀ d, d ∈ deps →
    (dep_kind d = Required → is_Some (dep_project_id d)) ∧
    (dep_kind d = Incompatible → dep_project_id d ≫= installed_incompatible manifest live_content d = None).
Proof.
  intros Hf. pose proof (follow_fold_grows _ _ _ _ _ _ _ Hf) as [_ Hsame]. specialize (Hsame eq_refl).
  injection Hsame as ->. split; [done|]. revert q Hf. induction deps as [|d deps IH]; intros q; cbn [try_fold].
  { by intros _ ? ?%elem_of_nil. }
  intros ([q1 f1] & Hd & Hrest)%bind_ok. pose proof (follow_fold_grows _ _ _ _ _ _ _ Hrest) as [_ Hsame].
  specialize (Hsame eq_refl). subst f1. intros d' [->|Hd']%elem_of_cons; [|by eapply IH].
  apply follow_dependency_ok in Hd as [_ [[_ [Hreq Hinc]]|(c & E & _)]]; [|done].
  split; [done|]. intros Hk. destruct (dep_project_id d ≫= _) as [e|] eqn:Ee; [|done].
  specialize (Hinc Hk e eq_refl). set_solver.
Qed.
End clean_folds.

(** ** The invariant of a pass *)

Section pass.
Context `{UnicodeNorm} `{UrlParser} `{ResolutionJson} {W : Type} `{ContentServiceLaws W}.
Context (target : ResolutionTarget) (manifest : ContentManifest) (live_content : LiveManagedContent).
Context (exact_requirements : gmap CanonicalId string) (selections : list ResolutionSelection).

Notation outcome := (outcome target manifest live_content exact_requirements).

(** A project required in some version is resolved to it, or still queued. *)
Definition obligation (s : PassState) (id : CanonicalId) (version : option string) : Prop :=
  (∃ v, resolved_versions s !! id = Some v ∧ satisfies version v) ∨
  (∃ q, q ∈ queue s ∧ queued_id q = id ∧ queued_version q = version).

(** What holds of an item by itself. *)
Record item_good (item : ResolvedContentItem) : Prop := {
  ig_id : item_canonical_id item = for_project ProviderModrinth (item_project_id item);
  ig_installable : require_installable_kind (item_kind item) target = Ok tt;
  ig_artifact : is_ok (validate_planned_artifact (item_kind item) (item_file item)) = true;
  ig_published : ∃ version identities, published target (item_canonical_id item) (item_kind item) version ∧
    version_matches_target version target (item_kind item) = true ∧ version_id version = item_version_id item ∧
    item_dependencies item ≡ₚ canonicalize_version_only_dependencies (version_dependencies version) identities ∧
    ∀ vid, vid ∈ version_only_ids (version_dependencies version) → identified vid (identities !! vid);
  ig_exact : satisfies (exact_requirements !! item_canonical_id item) (item_version_id item);
  ig_required d : d ∈ item_dependencies item → dep_kind d = Required → is_Some (dep_project_id d);
  ig_declares d : d ∈ item_dependencies item → dep_kind d = Incompatible →
    dep_project_id d ≫= installed_incompatible manifest live_content d = None;
  ig_declared :
    installed_entries_incompatible_with manifest (item_canonical_id item) (item_version_id item) live_content = [];
}.

Record good (s : PassState) : Prop := {
  gd_pairs : incompatibilities s = ∅;
  gd_visited id : id ∈ visited s → is_Some (resolved_versions s !! id);
  gd_resolved id v : resolved_versions s !! id = Some v →
    ∃ item, item ∈ pass_items s ∧ item_canonical_id item = id ∧ item_version_id item = v;
  gd_items item : item ∈ pass_items s →
    resolved_versions s !! item_canonical_id item = Some (item_version_id item) ∧ item_good item;
  gd_required item d p : item ∈ pass_items s → d ∈ item_dependencies item → dep_kind d = Required →
    dep_project_id d = Some p → obligation s (for_project ProviderModrinth p) (dep_version_id d);
  gd_selected sel : sel ∈ selections →
    obligation s (selection_canonical_id sel) (queued_version (initial_item exact_requirements sel));
}.

Definition clean (s : PassState) : Prop := pass_conflicts s = [] ∧ retry_with_exact s = ∅.

Record pass_core (s : PassState) : Prop := {
  pi_metadata id p : pass_metadata s !! id = Some p → id = for_project ProviderModrinth (project_id id);
  pi_kinds sel p : sel ∈ selections → pass_metadata s !! selection_canonical_id sel = Some p →
    meta_kind p = selection_kind sel;
  pi_requested sel : sel ∈ selections → selection_canonical_id sel ∈ pass_metadata_requested s;
  pi_known id : is_Some (pass_metadata s !! id) → id ∈ pass_metadata_requested s;
  pi_item_kinds item : item ∈ pass_items s →
    ∃ p, pass_metadata s !! item_canonical_id item = Some p ∧ item_kind item = meta_kind p;
  pi_pin : retry_pin_conflict s = true → pass_conflicts s ≠ [];
  pi_retry id : is_Some (retry_with_exact s !! id) → exact_requirements !! id = None;
  pi_resolved id : is_Some (resolved_versions s !! id) → id ∈ visited s;
  pi_asked : asked s;
}.

Record pass_inv (s : PassState) : Prop := {
  pi_core : pass_core s;
  pi_good : clean s → good s;
}.

Lemma answers_requested : only_requested (W := W).
Proof. intros ids w m w' id i Hm Hi. by apply (identities_requested _ _ _ _ _ _ Hm Hi). Qed.

(** Fetching metadata never changes what is known already. *)
Lemma entered_known s id depth s1 id' p :
  pass_core s → entered s id depth s1 → pass_metadata s !! id' = Some p → pass_metadata s1 !! id' = Some p.
Proof.
  intros Hi Hent Hp. destruct (en_metadata _ _ _ _ Hent) as [->|(ids & w & m & w' & Hm & -> & Hids)]; [done|].
  rewrite lookup_union_r; [done|]. apply eq_None_not_Some. intros [p' Hp'].
  destruct (metadata_keys _ _ _ _ _ _ Hm Hp') as [Hin _]. destruct (Hids _ Hin) as [Hnew _].
  apply Hnew, (pi_known _ Hi). eauto.
Qed.

Lemma entered_lookup s id depth s1 id' p :
  entered s id depth s1 → pass_metadata s1 !! id' = Some p →
  pass_metadata s !! id' = Some p ∨
  (id' = for_project ProviderModrinth (project_id id') ∧
   id' ∉ pass_metadata_requested s ∧ id' ∈ pass_metadata_requested s1).
Proof.
  intros Hent Hp. destruct (en_metadata _ _ _ _ Hent) as [E|(ids & w & m & w' & Hm & E & Hids)]; rewrite E in Hp.
  - by left.
  - apply lookup_union_Some_raw in Hp as [Hp|[_ Hp]]; [right|by left].
    destruct (metadata_keys _ _ _ _ _ _ Hm Hp) as [Hin Hid]. by destruct (Hids _ Hin).
Qed.

Lemma entered_core s id depth s1 : pass_core s → entered s id depth s1 → pass_core s1.
Proof.
  intros Hi Hent. pose proof (fun id' p => entered_known s id depth s1 id' p Hi Hent) as Hknown.
  pose proof (fun id' p => entered_lookup s id depth s1 id' p Hent) as Hlook. split; try done.
  - intros id' p Hp. destruct (Hlook _ _ Hp) as [Hp'|[? _]]; [by eapply (pi_metadata _ Hi)|done].
  - intros sel p Hsel Hp. destruct (Hlook _ _ Hp) as [Hp'|(_ & Hn & _)]; [by apply (pi_kinds _ Hi)|].
    by destruct Hn; apply (pi_requested _ Hi).
  - intros sel Hsel. apply (en_requested _ _ _ _ Hent), (pi_requested _ Hi), Hsel.
  - intros id' [p Hp]. destruct (Hlook _ _ Hp) as [Hp'|(_ & _ & ?)]; [|done].
    apply (en_requested _ _ _ _ Hent), (pi_known _ Hi). eauto.
  - rewrite (en_items _ _ _ _ Hent). intros item Hin. destruct (pi_item_kinds _ Hi item Hin) as (p & Hp & Hk). eauto.
  - rewrite (en_pin _ _ _ _ Hent), (en_conflicts _ _ _ _ Hent). apply (pi_pin _ Hi).
  - rewrite (en_retry _ _ _ _ Hent). apply (pi_retry _ Hi).
  - rewrite (en_resolved _ _ _ _ Hent), (en_visited _ _ _ _ Hent). intros id' Hr.
    apply (pi_resolved _ Hi) in Hr. set_solver.
  - pose proof (pi_asked _ Hi) as Ha. unfold asked in *.
    by rewrite (en_versions _ _ _ _ Hent), (en_versions_requested _ _ _ _ Hent).
Qed.

(** A version admitted without a conflict. *)
Lemma admitted_clean s1 id forced reason depth s' item :
  admitted target manifest live_content s1 id forced reason depth s' item → clean s' →
  (clean s1 → incompatibilities s1 = ∅) →
  clean s1 ∧ incompatibilities s' = ∅ ∧
  installed_entries_incompatible_with manifest id (item_version_id item) live_content = [] ∧
  (∀ d, d ∈ item_dependencies item →
    (dep_kind d = Required → is_Some (dep_project_id d)) ∧
    (dep_kind d = Incompatible → dep_project_id d ≫= installed_incompatible manifest live_content d = None)).
Proof.
  intros Had [Hc Hr] Hpairs. destruct (ad_findings _ _ _ _ _ _ _ _ _ _ Had) as (found & Hf & Hn).
  rewrite (ad_retry _ _ _ _ _ _ _ _ _ _ Had) in Hr.
  assert (pass_conflicts s1 = []) as Hc1.
  { destruct (pass_conflicts s1) as [|c cs] eqn:E; [done|]. exfalso.
    apply follow_fold_grows in Hf as [Hg _]. apply note_fold_grows in Hn; [done|]. by apply Hg. }
  assert (clean s1) as Hclean by done. specialize (Hpairs Hclean). rewrite Hc1, Hpairs in Hf. rewrite Hc in Hn.
  destruct found as [c p]. assert (c = []) as -> by (destruct c; [done|by apply note_fold_grows in Hn]).
  apply follow_fold_clean in Hf as [-> Hdeps]. apply note_fold_clean in Hn as [Hl ->]. done.
Qed.

Lemma admitted_item_good s1 id forced reason depth s' item :
  pass_core s1 → admitted target manifest live_content s1 id forced reason depth s' item →
  (∀ v, exact_requirements !! id = Some v → forced = Some v) →
  installed_entries_incompatible_with manifest id (item_version_id item) live_content = [] →
  (∀ d, d ∈ item_dependencies item →
    (dep_kind d = Required → is_Some (dep_project_id d)) ∧
    (dep_kind d = Incompatible → dep_project_id d ≫= installed_incompatible manifest live_content d = None)) →
  item_good item.
Proof.
  intros Hi [] Hx Hl Hdeps. destruct ad_known as (p & Hp & _). split; rewrite ?ad_id, ?ad_project in *; try done.
  - by eapply (pi_metadata _ Hi).
  - destruct ad_published as (version & known & ? & ? & ? & ? & Hknown). exists version, known. split_and!; try done.
    apply Hknown; [apply answers_requested|apply (pi_asked _ Hi)].
  - intros v Hv. by apply ad_version, Hx.
  - intros d Hd. by apply (Hdeps d Hd).
  - intros d Hd. by apply (Hdeps d Hd).
Qed.

Lemma obligation_step s next rest s' id version :
  queue s = next :: rest → obligation s id version →
  (∀ i v, resolved_versions s !! i = Some v → resolved_versions s' !! i = Some v) →
  (∀ q, q ∈ rest → q ∈ queue s') →
  (∃ v, resolved_versions s' !! queued_id next = Some v ∧ satisfies (queued_version next) v) →
  obligation s' id version.
Proof.
  intros Eq [(v & Hv & Hs)|(q & Hq & <- & <-)] Hkeep Hrest Hnext; [left; eauto|].
  rewrite Eq in Hq. apply elem_of_cons in Hq as [->|Hq]; [by left|right; eauto].
Qed.

Lemma admitted_good s next rest s1 s' item forced :
  queue s = next :: rest → pass_inv s →
  resolved_versions s !! queued_id next = None →
  entered (set_queue s rest) (queued_id next) (queued_depth next) s1 → pass_core s1 →
  (∀ v, queued_version next = Some v → forced = Some v) →
  (∀ v, exact_requirements !! queued_id next = Some v → forced = Some v) →
  admitted target manifest live_content s1 (queued_id next) forced (queued_reason next) (queued_depth next) s' item →
  clean s' → good s'.
Proof.
  intros Eq [Hi Hgood] Hnone Hent Hi1 Hq Hx Had Hclean.
  assert (clean s1 → clean s) as Hback.
  { intros [Hc Hr]. rewrite (en_conflicts _ _ _ _ Hent), (en_retry _ _ _ _ Hent) in *. done. }
  destruct (admitted_clean _ _ _ _ _ _ _ Had Hclean) as (Hc1 & Hp' & Hl & Hdeps).
  { intros Hc1. rewrite (en_pairs _ _ _ _ Hent). apply (gd_pairs _ (Hgood (Hback Hc1))). }
  pose proof (Hgood (Hback Hc1)) as Hg. pose proof (admitted_findings _ _ _ _ _ _ _ _ _ _ Had) as [Hqueue _].
  assert (resolved_versions s' = <[queued_id next := item_version_id item]> (resolved_versions s)) as Hres.
  { by rewrite (ad_resolved _ _ _ _ _ _ _ _ _ _ Had), (en_resolved _ _ _ _ Hent). }
  assert (pass_items s' = pass_items s ++ [item]) as Hitems.
  { by rewrite (ad_items _ _ _ _ _ _ _ _ _ _ Had), (en_items _ _ _ _ Hent). }
  assert (queue s' = rest ++ omap (queued_dependency (queued_depth next)) (item_dependencies item)) as Hqs.
  { by rewrite Hqueue, (en_queue _ _ _ _ Hent). }
  assert (∀ i v, resolved_versions s !! i = Some v → resolved_versions s' !! i = Some v) as Hkeep.
  { intros i v Hv. rewrite Hres, lookup_insert_ne; [done|]. intros <-. congruence. }
  assert (∀ i ver, obligation s i ver → obligation s' i ver) as Hob.
  { intros i ver Ho. eapply obligation_step; [exact Eq|exact Ho|exact Hkeep| |].
    - intros q Hin. rewrite Hqs. set_solver.
    - exists (item_version_id item). rewrite Hres, lookup_insert_eq. split; [done|].
      intros v Hv. apply (ad_version _ _ _ _ _ _ _ _ _ _ Had). by apply Hq. }
  pose proof (ad_id _ _ _ _ _ _ _ _ _ _ Had) as Hid.
  split.
  - done.
  - intros id. rewrite (ad_visited _ _ _ _ _ _ _ _ _ _ Had), (en_visited _ _ _ _ Hent), Hres. simpl.
    rewrite lookup_insert_is_Some, elem_of_union, elem_of_singleton. intros [->|Hv]; [by left|].
    destruct (decide (queued_id next = id)); [by left|right]. split; [done|]. by apply (gd_visited _ Hg).
  - intros id v. rewrite Hres, Hitems, lookup_insert_Some. intros [[<- <-]|[_ Hv]].
    + exists item. set_solver.
    + destruct (gd_resolved _ Hg _ _ Hv) as (i & ? & ? & ?). exists i. set_solver.
  - rewrite Hitems. intros i [Hin| ->%list_elem_of_singleton]%elem_of_app.
    + destruct (gd_items _ Hg i Hin) as [Hr Higood]. by split; [apply Hkeep|].
    + split; [by rewrite Hid, Hres, lookup_insert_eq|]. by eapply admitted_item_good.
  - rewrite Hitems. intros i d p [Hin| ->%list_elem_of_singleton]%elem_of_app Hd Hk Hp.
    + by eapply Hob, (gd_required _ Hg).
    + right. exists {| queued_id := for_project ProviderModrinth p; queued_version := dep_version_id d;
                      queued_reason := DependencyReason;
                      queued_depth := saturating_add_u64 (queued_depth next) 1 |}.
      split; [|done]. rewrite Hqs, elem_of_app. right. apply list_elem_of_omap. exists d. split; [done|].
      unfold queued_dependency. by rewrite Hk, Hp.
  - intros sel Hsel. by apply Hob, (gd_selected _ Hg).
Qed.

(** A change of the queue, the conflicts or the retries. *)
Lemma pass_core_frame s s' :
  pass_core s →
  pass_metadata s' = pass_metadata s → pass_metadata_requested s' = pass_metadata_requested s →
  pass_items s' = pass_items s → resolved_versions s' = resolved_versions s → visited s' = visited s →
  dependency_versions s' = dependency_versions s →
  dependency_versions_requested s' = dependency_versions_requested s →
  (retry_pin_conflict s' = true → pass_conflicts s' ≠ []) →
  (∀ id, is_Some (retry_with_exact s' !! id) → exact_requirements !! id = None) → pass_core s'.
Proof.
  intros [] E1 E2 E3 E4 E5 E6 E7 Hpin Hretry. split; rewrite ?E1, ?E2, ?E3, ?E4, ?E5; try done.
  unfold asked in *. by rewrite E6, E7.
Qed.

Lemma not_nil_snoc {A} (l : list A) x : l ++ [x] ≠ [].
Proof. by destruct l. Qed.

Lemma insert_retry s id required i :
  pass_core s → exact_requirements !! id = None →
  is_Some (<[id := required]> (retry_with_exact s) !! i) → exact_requirements !! i = None.
Proof. intros Hi Hx [->|[_ Hr]]%lookup_insert_is_Some; [done|]. by apply (pi_retry _ Hi). Qed.

Lemma admitted_core s1 id forced reason depth s' item :
  pass_core s1 → id ∈ visited s1 →
  admitted target manifest live_content s1 id forced reason depth s' item → pass_core s'.
Proof.
  intros Hi Hv Had. destruct (ad_findings _ _ _ _ _ _ _ _ _ _ Had) as (found & Hf & Hn).
  destruct Had as []. split; rewrite ?ad_metadata, ?ad_requested; try apply Hi.
  - rewrite ad_items. intros i [Hin| ->%list_elem_of_singleton]%elem_of_app; [by apply (pi_item_kinds _ Hi)|].
    by rewrite ad_id.
  - rewrite ad_pin. intros Hp%(pi_pin _ Hi). apply note_fold_grows in Hn; [done|].
    apply follow_fold_grows in Hf as [Hg _]. by apply Hg.
  - rewrite ad_retry. apply (pi_retry _ Hi).
  - rewrite ad_resolved, ad_visited. intros i [<-|[_ Hr]]%lookup_insert_is_Some; [done|]. by apply (pi_resolved _ Hi).
  - apply ad_asked; [apply answers_requested|apply (pi_asked _ Hi)].
Qed.

(** Every round keeps the invariant. *)
Lemma outcome_inv s next rest s' :
  queue s = next :: rest → pass_inv s → outcome (set_queue s rest) next s' → pass_inv s'.
Proof.
  intros Eq [Hi Hgood]. assert (pass_core (set_queue s rest)) as Hi0.
  { eapply pass_core_frame; [exact Hi|done..|apply (pi_pin _ Hi)|apply (pi_retry _ Hi)]. }
  intros [Hn|conflict Hc|required Hx|required conflict Hc Hx|s1 conflict Hv Hr Hent Hc|s1 s1' item forced Hv Hr Hent Hq Hx Had].
  - split; [done|]. intros Hclean. pose proof (Hgood Hclean) as Hg. simpl in Hn.
    assert (∃ v, resolved_versions s !! queued_id next = Some v ∧ satisfies (queued_version next) v) as Hnext.
    { destruct Hn as [Hn|[Hn Hv]]; [done|]. apply (gd_visited _ Hg) in Hv as [v Hv]. congruence. }
    destruct Hg. split; try done.
    + intros i d p Hin Hd Hk Hp. eapply obligation_step; [exact Eq|by eapply gd_required0|done|done|done].
    + intros sel Hsel. eapply obligation_step; [exact Eq|by apply gd_selected0|done|done|done].
  - split; [|intros [Hcl _]; by apply not_nil_snoc in Hcl].
    eapply pass_core_frame; [exact Hi|done..|simpl; intros _; apply not_nil_snoc|apply (pi_retry _ Hi)].
  - split; [|intros [_ Hcl]; simpl in Hcl; by apply insert_non_empty in Hcl].
    eapply pass_core_frame; [exact Hi|done..|apply (pi_pin _ Hi)|simpl; intros i; by apply insert_retry].
  - split; [|intros [Hcl _]; by apply not_nil_snoc in Hcl].
    eapply pass_core_frame; [exact Hi|done..|simpl; intros _; apply not_nil_snoc|simpl; intros i; by apply insert_retry].
  - pose proof (entered_core _ _ _ _ Hi0 Hent) as Hi1. split; [|intros [Hcl _]; by apply not_nil_snoc in Hcl].
    eapply pass_core_frame; [exact Hi1|done..|simpl; intros _; apply not_nil_snoc|apply (pi_retry _ Hi1)].
  - pose proof (entered_core _ _ _ _ Hi0 Hent) as Hi1. split.
    + eapply admitted_core; [exact Hi1| |exact Had]. rewrite (en_visited _ _ _ _ Hent). set_solver.
    + by eapply admitted_good.
Qed.

Lemma initial_pass_inv known work ids w w' :
  metadata ids w = (Ok known, w') → ids = selection_canonical_id <$> selections →
  validate_selected_kinds selections known target = Ok tt →
  pass_inv (initial_state exact_requirements selections known work).
Proof.
  intros Hm -> Hk. split; [split|]; simpl; try done.
  - intros id p Hp. by apply (metadata_keys _ _ _ _ _ _ Hm Hp).
  - intros sel p Hsel Hp. unfold validate_selected_kinds in Hk. ok_inv.
    rename select (try_for_each _ _ = _) into Hall. apply try_for_each_ok in Hall.
    rewrite list.Forall_forall in Hall. specialize (Hall sel Hsel). simpl in Hall. rewrite Hp in Hall. ok_inv.
    rename select (bool_decide _ = true) into E. apply bool_decide_eq_true in E. done.
  - intros sel Hsel. apply elem_of_list_to_set. by apply list_elem_of_fmap_2.
  - intros id [p Hp]. apply elem_of_list_to_set. by apply (metadata_keys _ _ _ _ _ _ Hm Hp).
  - by intros item ?%elem_of_nil.
  - intros id [? Hl]. by rewrite lookup_empty in Hl.
  - intros id [? Hl]. by rewrite lookup_empty in Hl.
  - intros _. split; simpl; try done.
    + by intros item ?%elem_of_nil.
    + by intros item d p ?%elem_of_nil.
    + intros sel Hsel. right. exists (initial_item exact_requirements sel). split; [|done].
      by apply list_elem_of_fmap_2.
Qed.
End pass.

(** ** After the queue *)

Lemma check_selected_ok resolved item found d found' :
  check_selected_dependency resolved item found d = Ok found' →
  (found' = found ∧ ∀ project candidate, dep_project_id d = Some project → resolved !! project = Some candidate →
    incompatible_dependency_matches d (item_project_id candidate) (item_version_id candidate) = true →
    (item_project_id item, project) ∈ found.2) ∨ found'.1 ≠ [].
Proof.
  destruct found as [c p]. unfold check_selected_dependency.
  destruct (dep_project_id d) as [project|]; simpl; [|intros [= <-]; by left].
  destruct (resolved !! project) as [candidate|] eqn:Er; simpl; [|intros [= <-]; left; split; [done|]; congruence].
  destruct (incompatible_dependency_matches _ _ _) eqn:Em; simpl.
  - case_bool_decide; [intros [= <-]; left; naive_solver|]. intros Hf. right. ok_inv. subst.
    rename select (push_conflict _ _ = _) into Hc. apply push_conflict_ok in Hc as [-> _]. simpl. by destruct c.
  - intros [= <-]. left. split; [done|]. congruence.
Qed.

Definition projects_of (items : list ResolvedContentItem) : gmap string ResolvedContentItem :=
  foldl (λ m item, <[item_project_id item := item]> m) ∅ items.

(** The state of the two loops: while no conflict has been found, nothing
    seen so far is incompatible. *)
Lemma append_selected_clean items conflicts :
  append_selected_incompatibility_conflicts items conflicts = Ok [] →
  conflicts = [] ∧ ∀ item d project candidate, item ∈ items → d ∈ item_dependencies item →
    dep_project_id d = Some project → projects_of items !! project = Some candidate →
    incompatible_dependency_matches d (item_project_id candidate) (item_version_id candidate) = false.
Proof.
  unfold append_selected_incompatibility_conflicts. fold (projects_of items). generalize (projects_of items) as resolved.
  intros resolved Ha. ok_inv. destruct x as [c p]. simpl in *. subst c. rename select (try_fold _ _ _ = _) into Hf.
  set (fine := λ d : ContentDependency, ∀ project candidate, dep_project_id d = Some project → resolved !! project = Some candidate →
    incompatible_dependency_matches d (item_project_id candidate) (item_version_id candidate) = false).
  set (P := λ (l : list ResolvedContentItem) (f : list ResolutionConflict * gset (string * string)),
    f.1 = [] → conflicts = [] ∧ f.2 = ∅ ∧ ∀ item d, item ∈ l → d ∈ item_dependencies item → fine d).
  apply (try_fold_inv _ P) in Hf.
  - destruct (Hf eq_refl) as (-> & _ & Hall). split; [done|]. intros item d project candidate Hi Hd. by apply (Hall item d).
  - intros E. split; [done|]. split; [done|]. by intros ? ? ?%elem_of_nil.
  - clear Hf. intros l item f f' HP Hin.
    set (Q := λ (ds : list ContentDependency) (f : list ResolutionConflict * gset (string * string)),
      f.1 = [] → conflicts = [] ∧ f.2 = ∅ ∧ (∀ i d, i ∈ l → d ∈ item_dependencies i → fine d) ∧
      ∀ d, d ∈ ds → fine d).
    apply (try_fold_inv _ Q) in Hin.
    + intros E. destruct (Hin E) as (-> & Hp & Hl & Hd). split_and!; [done..|].
      intros i d [Hi| ->%list_elem_of_singleton]%elem_of_app; [by apply Hl|by apply Hd].
    + intros E. destruct (HP E) as (-> & Hp & Hl). split_and!; [done..|]. by intros ? ?%elem_of_nil.
    + clear. intros ds d f f' HQ Hc E. apply check_selected_ok in Hc as [[-> Hc]|Hc]; [|done].
      destruct (HQ E) as (-> & Hp & Hl & Hd). split_and!; [done..|].
      intros d' [Hd'| ->%list_elem_of_singleton]%elem_of_app; [by apply Hd|].
      intros project candidate H1 H2. apply not_true_iff_false. intros Hm.
      specialize (Hc project candidate H1 H2 Hm). rewrite Hp in Hc. set_solver.
Qed.

Lemma projects_of_lookup l item :
  NoDup (item_project_id <$> l) → item ∈ l → projects_of l !! item_project_id item = Some item.
Proof.
  unfold projects_of. intros Hn Hin. revert Hn Hin. induction l as [|i l IH] using rev_ind; intros Hn Hin.
  { by apply elem_of_nil in Hin. }
  rewrite foldl_snoc. rewrite fmap_app in Hn. apply list.NoDup_app in Hn as (Hl & Hi & _).
  apply elem_of_app in Hin as [Hin| ->%list_elem_of_singleton]; [|apply lookup_insert_eq].
  rewrite lookup_insert_ne; [by apply IH|]. intros E.
  apply (Hi (item_project_id item)); [by apply list_elem_of_fmap_2|]. rewrite <-E. simpl. set_solver.
Qed.

(** ** The theorem *)

Section theorem.
Context `{UnicodeNorm} `{UrlParser} `{ResolutionJson} {W : Type} `{ContentServiceLaws W}.

(** What a caller may rely on when a resolution reports no conflict.  The
    dependencies of an item are those of its version, with the projects the
    provider gave for version-only ones. *)
Record consistent (target : ResolutionTarget) (selections : list ResolutionSelection)
    (manifest : ContentManifest) (live_content : LiveManagedContent) (r : ContentResolution) : Prop := {
  (** Every selection is there, in the kind and version asked for. *)
  co_selected sel : sel ∈ selections → ∃ item, item ∈ items r ∧
    item_canonical_id item = selection_canonical_id sel ∧ item_kind item = selection_kind sel ∧
    satisfies (selection_version_id sel) (item_version_id item);
  (** So is everything an item requires, in the version it requires. *)
  co_closed item d : item ∈ items r → d ∈ item_dependencies item → dep_kind d = Required →
    ∃ p item', dep_project_id d = Some p ∧ item' ∈ items r ∧ item_project_id item' = p ∧
      satisfies (dep_version_id d) (item_version_id item');
  (** One version of each project. *)
  co_distinct : NoDup (item_project_id <$> items r);
  (** Installed content that stays keeps the exact versions it requires of the
      projects it names. *)
  co_installed_exact entry d p v item :
    entry ∈ live_entries manifest live_content (list_to_set (selection_canonical_id <$> selections)) →
    d ∈ required_dependencies entry → dep_project_id d = Some p → dep_version_id d = Some v →
    item ∈ items r → item_project_id item = p → item_version_id item = v;
  (** No two items exclude each other by a dependency with a project. *)
  co_compatible item d item' : item ∈ items r → d ∈ item_dependencies item → item' ∈ items r →
    dep_project_id d = Some (item_project_id item') →
    incompatible_dependency_matches d (item_project_id item') (item_version_id item') = false;
  (** No item is excluded by installed content, and none excludes installed
      content by a dependency with a project. *)
  co_installed item : item ∈ items r →
    installed_entries_incompatible_with manifest (item_canonical_id item) (item_version_id item) live_content = [] ∧
    ∀ d, d ∈ item_dependencies item → dep_kind d = Incompatible →
      dep_project_id d ≫= installed_incompatible manifest live_content d = None;
  (** Every item is a version the provider lists for the target, with a file
      that may be installed; the provider was asked for the project of every
      dependency that names its version only, and what it answered is used. *)
  co_published item : item ∈ items r → ∃ version identities,
    published target (item_canonical_id item) (item_kind item) version ∧
    version_matches_target version target (item_kind item) = true ∧ version_id version = item_version_id item ∧
    item_dependencies item ≡ₚ canonicalize_version_only_dependencies (version_dependencies version) identities ∧
    (∀ vid, vid ∈ version_only_ids (version_dependencies version) → identified vid (identities !! vid)) ∧
    require_installable_kind (item_kind item) target = Ok tt ∧
    is_ok (validate_planned_artifact (item_kind item) (item_file item)) = true;
}.

Lemma satisfies_trans (a b : option string) v : (∀ x, a = Some x → b = Some x) → satisfies b v → satisfies a v.
Proof. intros Hab Hb x Hx. by apply Hb, Hab. Qed.

Lemma queue_done s id version :
  queue s = [] → obligation s id version → ∃ v, resolved_versions s !! id = Some v ∧ satisfies version v.
Proof. intros Eq [Hr|(q & Hq & _)]; [done|]. rewrite Eq in Hq. by apply elem_of_nil in Hq. Qed.

(** The exact versions required by installed content that stays. *)
Definition holds_installed (manifest : ContentManifest) (live_content : LiveManagedContent)
    (selections : list ResolutionSelection) (exact : gmap CanonicalId string) : Prop :=
  ∀ entry d p v,
    entry ∈ live_entries manifest live_content (list_to_set (selection_canonical_id <$> selections)) →
    d ∈ required_dependencies entry → dep_project_id d = Some p → dep_version_id d = Some v →
    exact !! for_project ProviderModrinth p = Some v.

Lemma drained_consistent target manifest live_content exact selections s :
  pass_inv target manifest live_content exact selections s → bounded s → queue s = [] → clean s →
  holds_installed manifest live_content selections exact →
  append_selected_incompatibility_conflicts (pass_items s) (pass_conflicts s) = Ok [] →
  ∀ r, items r = pass_items s → consistent target selections manifest live_content r.
Proof.
  intros [Hcore Hgood] Hb Hq Hclean Hinst Happ r Hr. pose proof (Hgood Hclean) as Hg.
  assert (∀ item, item ∈ pass_items s → item_canonical_id item = for_project ProviderModrinth (item_project_id item)) as Hid.
  { intros item Hin. apply (ig_id _ _ _ _ _ (proj2 (gd_items _ _ _ _ _ _ Hg item Hin))). }
  assert (NoDup (item_project_id <$> pass_items s)) as Hnd.
  { pose proof (bd_items _ Hb) as Hn.
    assert (item_canonical_id <$> pass_items s = for_project ProviderModrinth <$> (item_project_id <$> pass_items s)) as E.
    { rewrite <-list_fmap_compose. apply list_fmap_ext. intros i x Hx. by eapply Hid, list_elem_of_lookup_2. }
    rewrite E in Hn. by apply NoDup_fmap_1 in Hn. }
  apply append_selected_clean in Happ as [_ Hcompat].
  split; rewrite Hr.
  - intros sel Hsel. destruct (queue_done s _ _ Hq (gd_selected _ _ _ _ _ _ Hg sel Hsel)) as (v & Hv & Hs).
    destruct (gd_resolved _ _ _ _ _ _ Hg _ _ Hv) as (item & Hin & Hi & <-). exists item. split_and!; [done|done| |].
    + destruct (pi_item_kinds _ _ _ Hcore item Hin) as (p & Hp & ->). rewrite Hi in Hp.
      by eapply (pi_kinds _ _ _ Hcore).
    + eapply satisfies_trans; [|exact Hs]. intros x Hx. simpl. by rewrite Hx.
  - intros item d Hin Hd Hk. destruct (gd_items _ _ _ _ _ _ Hg item Hin) as [_ Hi].
    destruct (ig_required _ _ _ _ _ Hi d Hd Hk) as [p Hp].
    destruct (queue_done s _ _ Hq (gd_required _ _ _ _ _ _ Hg item d p Hin Hd Hk Hp)) as (v & Hv & Hs).
    destruct (gd_resolved _ _ _ _ _ _ Hg _ _ Hv) as (item' & Hin' & Hi' & <-). exists p, item'. split_and!; try done.
    rewrite (Hid _ Hin') in Hi'. by apply for_project_inj in Hi'.
  - done.
  - intros entry d p v item He Hd Hp Hv Hin <-. destruct (gd_items _ _ _ _ _ _ Hg item Hin) as [_ Hi].
    apply (ig_exact _ _ _ _ _ Hi). rewrite (Hid _ Hin). by eapply Hinst.
  - intros item d item' Hin Hd Hin' Hp. eapply Hcompat; [exact Hin|exact Hd|exact Hp|]. by apply projects_of_lookup.
  - intros item Hin. destruct (gd_items _ _ _ _ _ _ Hg item Hin) as [_ []]. done.
  - intros item Hin. destruct (gd_items _ _ _ _ _ _ Hg item Hin) as [_ []].
    destruct ig_published0 as (version & identities & ?). exists version, identities. naive_solver.
Qed.

Lemma add_retries_keeps exact retries id v :
  (∀ i x, (i, x) ∈ retries → exact !! i = None) → exact !! id = Some v → add_retries exact retries !! id = Some v.
Proof.
  unfold add_retries. intros Hr. revert exact Hr. induction retries as [|[i x] retries IH] using rev_ind; intros exact Hr He; [done|].
  rewrite foldl_snoc. rewrite lookup_insert_ne.
  - apply IH; [|done]. intros j y Hj. apply (Hr j y). set_solver.
  - intros ->. rewrite (Hr id x) in He; [done|set_solver].
Qed.

(** A pass whose resolution is returned without conflicts. *)
Lemma pass_consistent target manifest live_content exact pack selections work (w : W) pass work' w' :
  holds_installed manifest live_content selections exact →
  resolve_pass target manifest live_content exact pack selections work w = (Ok (Some (pass, work')), w') →
  (pass_retries pass = [] → conflicts (pass_resolution pass) = [] →
   consistent target selections manifest live_content (pass_resolution pass)) ∧
  holds_installed manifest live_content selections (add_retries exact (pass_retries pass)).
Proof.
  intros Hinst Hp. unfold resolve_pass in Hp. eff_inv.
  match goal with Hd : drain _ _ _ _ _ _ _ _ = (Ok ?d, _) |- _ => destruct d as [s|]; eff_inv; [|done] end.
  match goal with E : Some _ = Some _ |- _ => injection E as -> end.
  match goal with Hm : from_provider _ _ = _ |- _ => unfold from_provider in Hm; apply eff_map_err_ok in Hm as Hmeta end.
  match goal with Hk : validate_selected_kinds _ _ _ = Ok ?u |- _ => destruct u; rename Hk into Hkinds end.
  match goal with Hd : drain _ _ _ _ _ _ _ _ = _ |- _ =>
    apply (drain_inv _ _ _ _ _ (λ s, pass_inv target manifest live_content exact selections s ∧ bounded s))
      in Hd as [[Hi Hb] Hq] end.
  2: { intros s0 next rest s1 Eq [Hi Hb] Ho. split; [by eapply outcome_inv|by eapply outcome_bounded]. }
  2: { split; [by eapply initial_pass_inv|apply initial_bounded]. }
  rename select (finish_pass s = _) into Hf. unfold finish_pass in Hf. ok_inv.
  match goal with Ht : apply_metadata_titles _ _ _ _ = Ok ?t |- _ => destruct t as [[c own] work1]; rename Ht into Htitle end.
  ok_inv. subst. simpl. rename select (append_selected_incompatibility_conflicts _ _ = _) into Ha. split.
  - intros Hretry Hc. subst c. apply apply_titles_spec in Htitle as [Htitle _].
    apply (f_equal length) in Htitle. rewrite !length_fmap in Htitle. symmetry in Htitle. apply nil_length_inv in Htitle.
    rewrite Htitle in Ha. pose proof (append_selected_clean _ _ Ha) as [Hc _].
    eapply drained_consistent; [exact Hi|exact Hb|exact Hq| |exact Hinst|exact Ha|done]. split; [done|].
    destruct (retry_pin_conflict s) eqn:Epin; [by apply (pi_pin _ _ _ (pi_core _ _ _ _ _ _ Hi)) in Epin|].
    apply map_to_list_empty_iff. apply Permutation_nil_r. by rewrite <-Hretry, sort_by_perm.
  - intros entry d p v He Hd Hp Hv. apply add_retries_keeps; [|by eapply Hinst]. intros i y Hin.
    apply (pi_retry _ _ _ (pi_core _ _ _ _ _ _ Hi)). destruct (retry_pin_conflict s); [by apply elem_of_nil in Hin|].
    rewrite sort_by_perm in Hin. apply elem_of_map_to_list in Hin. eauto.
Qed.

(** ** Exact requirements of installed content *)

Lemma insert_requirements_ok new m m' :
  insert_requirements m new = inl m' →
  (∀ id v, m !! id = Some v → m' !! id = Some v) ∧ ∀ id v, (id, v) ∈ new → m' !! id = Some v.
Proof.
  revert m. induction new as [|[id v] new IH]; intros m; simpl.
  { intros [= <-]. split; [done|]. by intros ? ? ?%elem_of_nil. }
  destruct (m !! id ≫= _) as [conflict|] eqn:Ec; [done|]. intros Hi. apply IH in Hi as [Hkeep Hnew].
  assert (∀ x, m !! id = Some x → x = v) as Hsame.
  { intros x Hx. rewrite Hx in Ec. simpl in Ec. destruct (str_eqb x v) eqn:E; [by apply str_eqb_spec|done]. }
  split.
  - intros i x Hx. apply Hkeep. destruct (decide (id = i)) as [<-|Hne].
    + rewrite (Hsame x Hx). by rewrite lookup_insert_eq.
    + by rewrite lookup_insert_ne.
  - intros i x [[= -> ->]|Hin]%elem_of_cons; [|by apply Hnew]. apply Hkeep. by rewrite lookup_insert_eq.
Qed.

Lemma installed_requirements_ok manifest live_content replacing work (w : W) installed work' w' :
  installed_exact_requirements manifest live_content replacing work w = (Ok (installed, work'), w') →
  ∀ entry d p v, entry ∈ live_entries manifest live_content replacing → d ∈ required_dependencies entry →
    dep_project_id d = Some p → dep_version_id d = Some v → (for_project ProviderModrinth p, v) ∈ installed.
Proof.
  unfold installed_exact_requirements. intros Hr entry d p v He Hd Hp Hv. eff_inv.
  match goal with E : (_, _) = (installed, work') |- _ => injection E as <- <- end.
  rename select (try_map _ _ = _) into Hm. apply try_map_ok in Hm.
  assert (d ∈ live_entries manifest live_content replacing ≫= required_dependencies) as Hin
    by (apply list_elem_of_bind; eauto).
  apply list_elem_of_lookup in Hin as [i Hi]. destruct (Forall2_lookup_l _ _ _ _ _ Hm Hi) as (o & Ho & Hreq).
  unfold requirement_of in Hreq. rewrite Hv, Hp in Hreq. simpl in Hreq. injection Hreq as <-.
  apply list_elem_of_omap. exists (Some (for_project ProviderModrinth p, v)). split; [|done].
  by eapply list_elem_of_lookup_2.
Qed.

(** C1: A resolution that reports no conflict holds every selection, in the
    version asked for, is closed under required dependencies, in the version
    they require, and has one version of each project, all published for the
    target, whatever the provider answered.  Installed content that stays keeps
    the exact versions it requires of the projects it names.  No two items, and
    no item and installed content, exclude each other by a dependency whose
    project is known: named by it, or given by the provider, which is asked
    for every dependency that names a version only.  Such an incompatibility
    without an answer is not looked at, as in the code. *)
Theorem resolution_consistent target selections manifest live_content pack (w : W) r w' :
  resolve_content_with_pack target selections manifest live_content pack w = (Ok (Some r), w') →
  conflicts r = [] → consistent target selections manifest live_content r.
Proof.
  intros Hr Hc.
  apply (resolve_cases (holds_installed manifest live_content selections)
    (λ pass, conflicts (pass_resolution pass) = [] →
      consistent target selections manifest live_content (pass_resolution pass))) in Hr.
  - destruct Hr as (r' & [= <-] & _ & [[conflict ->]|(pass & Hp & ->)]); [done|by apply Hp].
  - clear Hc. intros installed exact exact' work v v' Hi He1 He2 entry d p x He Hd Hp Hv.
    apply insert_requirements_ok in He2 as [Hkeep _]. apply Hkeep.
    apply insert_requirements_ok in He1 as [_ Hnew]. apply Hnew. by eapply installed_requirements_ok.
  - clear Hc. intros exact work v pass work' v' HQ Hp. destruct (pass_consistent _ _ _ _ _ _ _ _ _ _ _ HQ Hp). auto.
Qed.
End theorem.
