(* ===== verification/SettingsModel.v ===== *)
(** * Preferences and instance settings ([core/app/src/settings/model.rs])

    The public preferences of the launcher, the patches that edit them, the
    overrides an instance may carry, and the settings a launch effectively
    uses.  [i32] fields are [Z]; texts are UTF-8, and their length in UTF-16
    counts two units for a character of four bytes.  Serialisation is not
    modelled. *)

From S2P Require Import Prelude RustStr.

Inductive ConfigLaunchAuthMode := AuthOffline | AuthOnline.
Inductive ConfigPerformanceMode := ModeManaged | ModeVanilla | ModeCustom.
Inductive ConfigTheme :=
| ThemeDefault | ThemeObsidian | ThemeDeepslate | ThemeNether | ThemeEnd | ThemeBirch | ThemeCustom.
Inductive ConfigJvmPreset :=
| Automatic | Smooth | PresetPerformance | UltraLowLatency | GraalVm | Legacy | LegacyPvp | LegacyHeavy.

#[global] Instance ConfigLaunchAuthMode_eq_dec : EqDecision ConfigLaunchAuthMode.
Proof. solve_decision. Defined.
#[global] Instance ConfigPerformanceMode_eq_dec : EqDecision ConfigPerformanceMode.
Proof. solve_decision. Defined.
#[global] Instance ConfigTheme_eq_dec : EqDecision ConfigTheme.
Proof. solve_decision. Defined.
#[global] Instance ConfigJvmPreset_eq_dec : EqDecision ConfigJvmPreset.
Proof. solve_decision. Defined.

Definition performance_mode_as_str (self : ConfigPerformanceMode) : string :=
  match self with ModeManaged => "managed" | ModeVanilla => "vanilla" | ModeCustom => "custom" end.

Definition performance_mode_parse (value : string) : option ConfigPerformanceMode :=
  if str_eqb value "managed" then Some ModeManaged
  else if str_eqb value "vanilla" then Some ModeVanilla
  else if str_eqb value "custom" then Some ModeCustom
  else None.

Definition jvm_preset_as_str (self : ConfigJvmPreset) : string :=
  match self with
  | Automatic => "" | Smooth => "smooth" | PresetPerformance => "performance"
  | UltraLowLatency => "ultra_low_latency" | GraalVm => "graalvm" | Legacy => "legacy"
  | LegacyPvp => "legacy_pvp" | LegacyHeavy => "legacy_heavy"
  end.

Definition jvm_preset_parse (value : string) : option ConfigJvmPreset :=
  List.find (λ preset, str_eqb value (jvm_preset_as_str preset))
    [Automatic; Smooth; PresetPerformance; UltraLowLatency; GraalVm; Legacy; LegacyPvp; LegacyHeavy].

(** [storage/mod.rs]; the database's own error is not inspected. *)
Inductive StorageError :=
| StorageCorrupt | Busy | BudgetExceeded | StorageClosed | Poisoned
| InvalidMigration (id : string) | WrongApplication | UnownedTransaction | InvalidLimits | Sqlite.

Inductive SettingsError :=
| Validation (message : string)
| SettingsConflict
| UnknownFlag
| SettingsCorrupt
| SettingsStorage (e : StorageError)
| SettingsUnavailable.

#[global] Instance StorageError_eq_dec : EqDecision StorageError.
Proof. solve_decision. Defined.
#[global] Instance SettingsError_eq_dec : EqDecision SettingsError.
Proof. solve_decision. Defined.

Record ConfigView := {
  cfg_revision : Z;
  cfg_account_selection_revision : Z;
  cfg_username : string;
  cfg_launch_auth_mode : ConfigLaunchAuthMode;
  cfg_max_memory_mb : Z;
  cfg_min_memory_mb : Z;
  cfg_java_path_override : string;
  cfg_window_width : Z;
  cfg_window_height : Z;
  cfg_onboarding_done : bool;
  cfg_jvm_preset : ConfigJvmPreset;
  cfg_performance_mode : ConfigPerformanceMode;
  cfg_theme : ConfigTheme;
  cfg_custom_hue : option Z;
  cfg_custom_vibrancy : option Z;
  cfg_lightness : option Z;
  cfg_telemetry_enabled : bool;
  cfg_discord_rpc_enabled : bool;
  cfg_discord_rpc_onboarding_seen : bool;
  cfg_music_enabled : option bool;
  cfg_music_volume : option Z;
  cfg_music_track : Z;
}.

#[global] Instance ConfigView_eq_dec : EqDecision ConfigView.
Proof. solve_decision. Defined.

Definition default_config : ConfigView := {|
  cfg_revision := 0; cfg_account_selection_revision := 0; cfg_username := "Player";
  cfg_launch_auth_mode := AuthOffline; cfg_max_memory_mb := 4096; cfg_min_memory_mb := 512;
  cfg_java_path_override := ""; cfg_window_width := 0; cfg_window_height := 0; cfg_onboarding_done := false;
  cfg_jvm_preset := Automatic; cfg_performance_mode := ModeManaged; cfg_theme := ThemeDefault;
  cfg_custom_hue := None; cfg_custom_vibrancy := None; cfg_lightness := None; cfg_telemetry_enabled := false;
  cfg_discord_rpc_enabled := true; cfg_discord_rpc_onboarding_seen := false; cfg_music_enabled := None;
  cfg_music_volume := None; cfg_music_track := 0 |}.

Inductive NullablePatch (T : Type) :=
| Unchanged
| SetTo (value : option T).
Arguments Unchanged {T}.
Arguments SetTo {T} value.

Record ConfigPatch := {
  patch_expected_revision : Z;
  patch_expected_account_selection_revision : option Z;
  patch_username : option string;
  patch_launch_auth_mode : option ConfigLaunchAuthMode;
  patch_max_memory_mb : option Z;
  patch_min_memory_mb : option Z;
  patch_java_path_override : option string;
  patch_window_width : option Z;
  patch_window_height : option Z;
  patch_onboarding_done : option bool;
  patch_jvm_preset : option ConfigJvmPreset;
  patch_performance_mode : option ConfigPerformanceMode;
  patch_theme : option ConfigTheme;
  patch_custom_hue : NullablePatch Z;
  patch_custom_vibrancy : NullablePatch Z;
  patch_lightness : NullablePatch Z;
  patch_telemetry_enabled : option bool;
  patch_discord_rpc_enabled : option bool;
  patch_discord_rpc_onboarding_seen : option bool;
  patch_music_enabled : NullablePatch bool;
  patch_music_volume : NullablePatch Z;
  patch_music_track : option Z;
}.

(** ** Validation *)

Definition ensure (valid : bool) (message : string) : result SettingsError unit :=
  err_if (negb valid) (Validation message).

(** [(low..=high).contains(&value)]. *)
Definition contains_range (low high value : Z) : bool := (low <=? value) && (value <=? high).

Definition name_byte (b : ascii) : bool := is_alphanumeric b || Ascii.eqb b "_".

Definition validate_username (value : string) : result SettingsError unit :=
  ensure (contains_range 3 16 (str_len value) && sforall name_byte value)
    "Username must contain 3 to 16 letters, numbers, or underscores.".

(** [encode_utf16().count()]. *)
Definition utf16_len (value : string) : Z :=
  sum_Z ((λ ch, if (String.length ch =? 4)%nat then 2 else 1) <$> chars value).

Definition validate_java_path (value : string) : result SettingsError unit :=
  ensure ((str_len value <=? 4096) && (utf16_len value <=? 4096) && negb (has_control value))
    "Java path override is invalid or exceeds 4096 bytes.".

Definition optional_range (value : option Z) (max : Z) (message : string) : result SettingsError unit :=
  ensure (is_none_or value (contains_range 0 max)) message.

Definition validate_preferences (self : ConfigView) : result SettingsError unit :=
  ensure (contains_range 512 32768 (cfg_max_memory_mb self)) "Maximum memory must be between 512 and 32768 MiB." ;;
  ensure (contains_range 256 (cfg_max_memory_mb self) (cfg_min_memory_mb self))
    "Minimum memory must be between 256 MiB and maximum memory." ;;
  ensure ((cfg_window_width self =? 0) && (cfg_window_height self =? 0) ||
          (contains_range 320 8192 (cfg_window_width self) && contains_range 320 8192 (cfg_window_height self)))
    "Window dimensions must both be zero or between 320 and 8192 pixels." ;;
  validate_java_path (cfg_java_path_override self) ;;
  optional_range (cfg_custom_hue self) 360 "Custom hue must be between 0 and 360." ;;
  optional_range (cfg_custom_vibrancy self) 100 "Custom vibrancy must be between 0 and 100." ;;
  optional_range (cfg_lightness self) 100 "Lightness must be between 0 and 100." ;;
  optional_range (cfg_music_volume self) 100 "Music volume must be between 0 and 100." ;;
  ensure (contains_range 0 1023 (cfg_music_track self)) "Music track must be between 0 and 1023.".

Definition config_validate (self : ConfigView) : result SettingsError unit :=
  match cfg_launch_auth_mode self with
  | AuthOffline => validate_username (cfg_username self)
  | AuthOnline =>
      ensure (contains_range 1 16 (str_len (cfg_username self)) && sforall name_byte (cfg_username self))
        "Authenticated profile name must contain 1 to 16 letters, numbers, or underscores."
  end ;;
  validate_preferences self.

Definition offline_username (self : ConfigView) : string :=
  if is_ok (validate_username (cfg_username self)) then cfg_username self else "Player".

(** ** Patching *)

(** The two macros of [apply]. *)
Definition set_field {T} (patch : option T) (current : T) : T := match patch with Some value => value | None => current end.
Definition set_nullable {T} (patch : NullablePatch T) (current : option T) : option T :=
  match patch with SetTo value => value | Unchanged => current end.

(** The configuration a patch leads to; it is returned in place of the [&mut]
    borrow, and a caller drops it on an error. *)
Definition config_apply (self : ConfigPatch) (config : ConfigView) : result SettingsError ConfigView :=
  match patch_username self with Some username => validate_username (trim username) | None => Ok tt end ;;
  let config := {|
    cfg_revision := cfg_revision config;
    cfg_account_selection_revision := cfg_account_selection_revision config;
    cfg_username := trim (set_field (patch_username self) (cfg_username config));
    cfg_launch_auth_mode := set_field (patch_launch_auth_mode self) (cfg_launch_auth_mode config);
    cfg_max_memory_mb := set_field (patch_max_memory_mb self) (cfg_max_memory_mb config);
    cfg_min_memory_mb := set_field (patch_min_memory_mb self) (cfg_min_memory_mb config);
    cfg_java_path_override := trim (set_field (patch_java_path_override self) (cfg_java_path_override config));
    cfg_window_width := set_field (patch_window_width self) (cfg_window_width config);
    cfg_window_height := set_field (patch_window_height self) (cfg_window_height config);
    cfg_onboarding_done := set_field (patch_onboarding_done self) (cfg_onboarding_done config);
    cfg_jvm_preset := set_field (patch_jvm_preset self) (cfg_jvm_preset config);
    cfg_performance_mode := set_field (patch_performance_mode self) (cfg_performance_mode config);
    cfg_theme := set_field (patch_theme self) (cfg_theme config);
    cfg_custom_hue := set_nullable (patch_custom_hue self) (cfg_custom_hue config);
    cfg_custom_vibrancy := set_nullable (patch_custom_vibrancy self) (cfg_custom_vibrancy config);
    cfg_lightness := set_nullable (patch_lightness self) (cfg_lightness config);
    cfg_telemetry_enabled := set_field (patch_telemetry_enabled self) (cfg_telemetry_enabled config);
    cfg_discord_rpc_enabled := set_field (patch_discord_rpc_enabled self) (cfg_discord_rpc_enabled config);
    cfg_discord_rpc_onboarding_seen :=
      set_field (patch_discord_rpc_onboarding_seen self) (cfg_discord_rpc_onboarding_seen config);
    cfg_music_enabled := set_nullable (patch_music_enabled self) (cfg_music_enabled config);
    cfg_music_volume := set_nullable (patch_music_volume self) (cfg_music_volume config);
    cfg_music_track := set_field (patch_music_track self) (cfg_music_track config) |} in
  validate_preferences config ;;
  Ok config.

(** ** Instance settings *)

Record InstanceSettings := {
  inst_max_memory_mb : Z;
  inst_min_memory_mb : Z;
  inst_java_path : string;
  inst_window_width : Z;
  inst_window_height : Z;
  inst_jvm_preset : string;
  inst_performance_mode : string;
  inst_extra_jvm_args : string;
  inst_auto_optimize : bool;
}.

#[global] Instance InstanceSettings_eq_dec : EqDecision InstanceSettings.
Proof. solve_decision. Defined.

Definition default_instance_settings : InstanceSettings := {|
  inst_max_memory_mb := 0; inst_min_memory_mb := 0; inst_java_path := ""; inst_window_width := 0;
  inst_window_height := 0; inst_jvm_preset := ""; inst_performance_mode := ""; inst_extra_jvm_args := "";
  inst_auto_optimize := false |}.

Inductive OverrideOrigin := OriginGlobal | OriginInstance.

Record EffectiveLaunchSettings := {
  es_global_config_revision : Z;
  es_max_memory_mb : Z;
  es_min_memory_mb : Z;
  es_min_memory_clamped : bool;
  es_java_path : string;
  es_java_override_origin : option OverrideOrigin;
  es_window_width : Z;
  es_window_height : Z;
  es_jvm_preset : ConfigJvmPreset;
  es_preset_override_origin : option OverrideOrigin;
  es_performance_mode : ConfigPerformanceMode;
  es_extra_jvm_args : string;
  es_raw_jvm_args_origin : option OverrideOrigin;
  es_auto_optimize : bool;
}.

Definition MAX_INSTANCE_MEMORY : Z := 1024 * 1024.

Definition instance_settings_validate (self : InstanceSettings) : result SettingsError unit :=
  ensure (contains_range 0 MAX_INSTANCE_MEMORY (inst_max_memory_mb self) &&
          contains_range 0 MAX_INSTANCE_MEMORY (inst_min_memory_mb self)) "Instance memory bounds are invalid." ;;
  ensure (contains_range 0 16384 (inst_window_width self) && contains_range 0 16384 (inst_window_height self))
    "Instance window bounds are invalid." ;;
  validate_java_path (inst_java_path self) ;;
  ensure (negb (is_none (jvm_preset_parse (trim (inst_jvm_preset self))))) "Unknown JVM preset." ;;
  ensure (is_empty (trim (inst_performance_mode self)) ||
          negb (is_none (performance_mode_parse (trim (inst_performance_mode self)))))
    "Unknown performance mode." ;;
  ensure ((chars_count (inst_extra_jvm_args self) <=? 8192)%nat && negb (has_control (inst_extra_jvm_args self)))
    "Instance JVM arguments are invalid or too long.".

Definition inherit (local fallback : Z) : Z := if 0 <? local then local else fallback.

Definition override_origin (local global : bool) : option OverrideOrigin :=
  if local then Some OriginInstance else if global then Some OriginGlobal else None.

Definition effective (self : InstanceSettings) (global : ConfigView) : result SettingsError EffectiveLaunchSettings :=
  instance_settings_validate self ;;
  config_validate global ;;
  let max_memory_mb := inherit (inst_max_memory_mb self) (cfg_max_memory_mb global) in
  let min_memory_mb := inherit (inst_min_memory_mb self) (cfg_min_memory_mb global) in
  let local_java := negb (is_empty (trim (inst_java_path self))) in
  let local_preset := negb (is_empty (trim (inst_jvm_preset self))) in
  jvm_preset ← (if negb local_preset then Ok (cfg_jvm_preset global)
                else ok_or (Validation "Unknown JVM preset.") (jvm_preset_parse (trim (inst_jvm_preset self))));
  performance_mode ←
    (if is_empty (trim (inst_performance_mode self)) then Ok (cfg_performance_mode global)
     else ok_or (Validation "Unknown performance mode.") (performance_mode_parse (trim (inst_performance_mode self))));
  Ok {|
    es_global_config_revision := cfg_revision global;
    es_max_memory_mb := max_memory_mb;
    es_min_memory_mb := Z.min min_memory_mb max_memory_mb;
    es_min_memory_clamped := max_memory_mb <? min_memory_mb;
    es_java_path := if negb local_java then trim (cfg_java_path_override global) else trim (inst_java_path self);
    es_java_override_origin := override_origin local_java (negb (is_empty (trim (cfg_java_path_override global))));
    es_window_width := inherit (inst_window_width self) (cfg_window_width global);
    es_window_height := inherit (inst_window_height self) (cfg_window_height global);
    es_jvm_preset := jvm_preset;
    es_preset_override_origin := override_origin local_preset (negb (bool_decide (cfg_jvm_preset global = Automatic)));
    es_performance_mode := performance_mode;
    es_extra_jvm_args := inst_extra_jvm_args self;
    es_raw_jvm_args_origin := if negb (is_empty (trim (inst_extra_jvm_args self))) then Some OriginInstance else None;
    es_auto_optimize := inst_auto_optimize self |}.

(** [launch/coordinator.rs]: the window a launch asks for; [None] is the
    refusal of the launch. *)
Definition launch_resolution (effective : EffectiveLaunchSettings) : option (option (Z * Z)) :=
  let width := es_window_width effective in
  let height := es_window_height effective in
  if (width =? 0) && (height =? 0) then Some None
  else if (0 <? width) && (0 <? height) then Some (Some (width, height))
  else None.

(** ** Lemmas *)

Lemma settings_ensure_ok valid message : ensure valid message = Ok tt ↔ valid = true.
Proof. unfold ensure. by destruct valid. Qed.

Lemma contains_range_spec low high value : contains_range low high value = true ↔ low ≤ value ≤ high.
Proof. unfold contains_range. lia. Qed.

Lemma name_byte_word value : sforall name_byte value = true → plain_word value = true.
Proof. apply sforall_impl. intros [[] [] [] [] [] [] [] []]; vm_compute; done. Qed.

Lemma validate_username_ok value :
  validate_username value = Ok tt ↔ 3 ≤ str_len value ≤ 16 ∧ sforall name_byte value = true.
Proof. unfold validate_username. by rewrite settings_ensure_ok, andb_true_iff, contains_range_spec. Qed.

Lemma performance_mode_parse_as_str mode : performance_mode_parse (performance_mode_as_str mode) = Some mode.
Proof. by destruct mode. Qed.

Lemma jvm_preset_parse_as_str preset : jvm_preset_parse (jvm_preset_as_str preset) = Some preset.
Proof. by destruct preset. Qed.

(** Trimming takes characters away at both ends, so a bounded text stays
    bounded. *)
Lemma trim_chars_sub s : ∃ a b, chars s = a ++ chars (trim s) ++ b.
Proof.
  rewrite chars_trim. destruct (trim_chars_split (chars s)) as (a & b & E & _). by exists a, b.
Qed.

Lemma trim_len s : str_len (trim s) ≤ str_len s.
Proof.
  destruct (trim_chars_sub s) as (a & b & E). apply (f_equal str_concat) in E.
  rewrite !str_concat_app, !str_concat_chars in E. apply (f_equal String.length) in E.
  rewrite !str_app_length in E. unfold str_len. lia.
Qed.

Lemma utf16_len_trim s : utf16_len (trim s) ≤ utf16_len s.
Proof.
  assert (∀ l : list string, 0 ≤ sum_Z ((λ ch, if (String.length ch =? 4)%nat then 2 else 1) <$> l)) as Hpos.
  { intros l. induction l as [|ch l IH]; [done|]. unfold sum_Z in *. cbn [fmap list_fmap foldr] in *.
    destruct (_ =? 4)%nat; lia. }
  unfold utf16_len. destruct (trim_chars_sub s) as (a & b & ->). rewrite !fmap_app, !sum_Z_app.
  pose proof (Hpos a). pose proof (Hpos b). lia.
Qed.

Lemma has_control_trim s : has_control s = false → has_control (trim s) = false.
Proof.
  unfold has_control. destruct (trim_chars_sub s) as (a & b & ->).
  rewrite !existsb_app. by intros [_ [? _]%orb_false_iff]%orb_false_iff.
Qed.

Lemma validate_java_path_ok value :
  validate_java_path value = Ok tt ↔ str_len value ≤ 4096 ∧ utf16_len value ≤ 4096 ∧ has_control value = false.
Proof.
  unfold validate_java_path. rewrite settings_ensure_ok, !andb_true_iff, !Z.leb_le, negb_true_iff. naive_solver.
Qed.

Lemma validate_java_path_trim value : validate_java_path value = Ok tt → validate_java_path (trim value) = Ok tt.
Proof.
  rewrite !validate_java_path_ok. intros (? & ? & ?). pose proof (trim_len value). pose proof (utf16_len_trim value).
  split_and!; [lia|lia|by apply has_control_trim].
Qed.

(** ** Patches keep the preferences well-formed *)

Lemma config_validate_ok config :
  config_validate config = Ok tt ↔
  (if bool_decide (cfg_launch_auth_mode config = AuthOffline) then 3 else 1) ≤ str_len (cfg_username config) ≤ 16 ∧
  sforall name_byte (cfg_username config) = true ∧ validate_preferences config = Ok tt.
Proof.
  unfold config_validate. rewrite bind_ok_unit. destruct (cfg_launch_auth_mode config).
  - rewrite validate_username_ok, bool_decide_true by done. tauto.
  - rewrite settings_ensure_ok, andb_true_iff, contains_range_spec, bool_decide_false by done. tauto.
Qed.

Lemma config_valid_name config :
  config_validate config = Ok tt → trim (cfg_username config) = cfg_username config.
Proof. rewrite config_validate_ok. intros (_ & Hb & _). by apply trim_plain_word, name_byte_word. Qed.

(** C40: A patch that is accepted leaves well-formed preferences, trimmed, under
    the same revisions.  The one exception the code allows for is a return to
    offline mode that leaves the name of the previous account in place. *)
Theorem patch_keeps_config_valid patch config config' :
  config_validate config = Ok tt → config_apply patch config = Ok config' →
  (patch_launch_auth_mode patch = Some AuthOffline →
    cfg_launch_auth_mode config = AuthOffline ∨ is_Some (patch_username patch)) →
  config_validate config' = Ok tt ∧
  cfg_revision config' = cfg_revision config ∧
  cfg_account_selection_revision config' = cfg_account_selection_revision config ∧
  trim (cfg_java_path_override config') = cfg_java_path_override config'.
Proof.
  intros Hv Ha Hmode. pose proof (config_valid_name _ Hv) as Htrim.
  apply config_validate_ok in Hv as (Hlen & Hbytes & _).
  unfold config_apply in Ha. destruct Hlen as [H1 H2]. ok_inv. rename select (validate_preferences _ = _) into Hp.
  split_and!; [|done|done|simpl; apply trim_idemp].
  apply config_validate_ok. cbn [cfg_username cfg_launch_auth_mode]. split_and!; [| | |exact Hp]; clear Hp.
  all: destruct (patch_username patch) as [name|]; cbn [set_field];
    [rename select (validate_username _ = _) into Hn; apply validate_username_ok in Hn as [Hn1 Hn2]|rewrite Htrim].
  all: try done; try lia; match goal with |- (if ?b then _ else _) ≤ _ => destruct b eqn:Hoff end; try lia.
  - apply bool_decide_eq_true in Hoff. destruct (patch_launch_auth_mode patch) as [[]|]; simpl in Hoff; try done.
    + destruct (Hmode eq_refl) as [Hm|[? ?]]; [|done]. by rewrite bool_decide_true in H1.
    + by rewrite bool_decide_true in H1.
  - destruct (bool_decide (cfg_launch_auth_mode config = AuthOffline)); lia.
Qed.

Lemma patch_keeps_config_valid_witness :
  let patch := {| patch_expected_revision := 0; patch_expected_account_selection_revision := None;
    patch_username := Some "  Steve_1 "; patch_launch_auth_mode := None; patch_max_memory_mb := Some 8192;
    patch_min_memory_mb := None; patch_java_path_override := None; patch_window_width := Some 640;
    patch_window_height := Some 480; patch_onboarding_done := None; patch_jvm_preset := None;
    patch_performance_mode := None; patch_theme := None; patch_custom_hue := SetTo (Some 360);
    patch_custom_vibrancy := Unchanged; patch_lightness := Unchanged; patch_telemetry_enabled := None;
    patch_discord_rpc_enabled := None; patch_discord_rpc_onboarding_seen := None;
    patch_music_enabled := Unchanged; patch_music_volume := Unchanged; patch_music_track := None |} in
  ∃ config', config_apply patch default_config = Ok config' ∧ cfg_username config' = "Steve_1" ∧
    config_validate config' = Ok tt.
Proof.
  intros patch. destruct (config_apply patch default_config) as [config'|e] eqn:E; [|vm_compute in E; discriminate E].
  destruct (patch_keeps_config_valid patch default_config config') as (Hv & _).
  - vm_compute. reflexivity.
  - exact E.
  - intros Hm. discriminate Hm.
  - exists config'. split; [reflexivity|]. split; [|exact Hv]. vm_compute in E. injection E as <-. reflexivity.
Defined.

(** ** Effective settings *)

Lemma jvm_preset_parse_blank value : trim value = "" → jvm_preset_parse (trim value) = Some Automatic.
Proof. by intros ->. Qed.

Lemma instance_settings_validate_ok s :
  instance_settings_validate s = Ok tt →
  (0 ≤ inst_max_memory_mb s ≤ MAX_INSTANCE_MEMORY ∧ 0 ≤ inst_min_memory_mb s ≤ MAX_INSTANCE_MEMORY) ∧
  (0 ≤ inst_window_width s ≤ 16384 ∧ 0 ≤ inst_window_height s ≤ 16384) ∧
  validate_java_path (inst_java_path s) = Ok tt ∧
  is_Some (jvm_preset_parse (trim (inst_jvm_preset s))) ∧
  (trim (inst_performance_mode s) = "" ∨ is_Some (performance_mode_parse (trim (inst_performance_mode s)))).
Proof.
  unfold instance_settings_validate. intros Hv. rewrite !bind_ok_unit, !settings_ensure_ok in Hv.
  rewrite !andb_true_iff, !contains_range_spec, orb_true_iff, is_empty_spec in Hv.
  destruct Hv as (Hm & Hw & Hj & Hp & Hpm & _). split_and!; try tauto.
  - by destruct (jvm_preset_parse _).
  - destruct Hpm as [?|Hpm]; [by left|right]. by destruct (performance_mode_parse _).
Qed.

Lemma inherit_spec local fallback : 0 ≤ local → inherit local fallback = if bool_decide (local = 0) then fallback else local.
Proof. unfold inherit. intros Hl. case_bool_decide; destruct (0 <? local) eqn:E; lia. Qed.

Lemma validate_preferences_ok config :
  validate_preferences config = Ok tt →
  512 ≤ cfg_max_memory_mb config ≤ 32768 ∧ 256 ≤ cfg_min_memory_mb config ≤ cfg_max_memory_mb config ∧
  (cfg_window_width config = 0 ∧ cfg_window_height config = 0 ∨
   320 ≤ cfg_window_width config ≤ 8192 ∧ 320 ≤ cfg_window_height config ≤ 8192) ∧
  validate_java_path (cfg_java_path_override config) = Ok tt.
Proof.
  unfold validate_preferences. rewrite !bind_ok_unit, !settings_ensure_ok, orb_true_iff, !andb_true_iff, !Z.eqb_eq,
    !contains_range_spec. tauto.
Qed.

(** Nothing fails beyond the two validations: the parses that follow them
    cannot. *)
Lemma effective_succeeds_iff s g :
  is_ok (effective s g) = is_ok (instance_settings_validate s) && is_ok (config_validate g).
Proof.
  unfold effective. destruct (instance_settings_validate s) as [[]|e] eqn:Es; [|done].
  destruct (config_validate g) as [[]|e] eqn:Eg; [|done]. simpl.
  apply instance_settings_validate_ok in Es as (_ & _ & _ & [preset ->] & Hmode).
  destruct (is_empty (trim (inst_jvm_preset s))), (is_empty (trim (inst_performance_mode s))) eqn:Em; try done;
    simpl; (destruct Hmode as [Hmode|[mode ->]]; [by rewrite Hmode in Em|done]).
Qed.

(** What a launch may rely on in the settings it is given. *)
Record effective_sound (s : InstanceSettings) (g : ConfigView) (e : EffectiveLaunchSettings) : Prop := {
  es_max_bounds : 1 ≤ es_max_memory_mb e ≤ MAX_INSTANCE_MEMORY;
  es_min_bounds : 1 ≤ es_min_memory_mb e ≤ es_max_memory_mb e;
  (** The minimum is the one asked for unless it is above the maximum. *)
  es_clamped : es_min_memory_clamped e = false →
    es_min_memory_mb e = if bool_decide (inst_min_memory_mb s = 0) then cfg_min_memory_mb g else inst_min_memory_mb s;
  es_clamped_only : es_min_memory_clamped e = true → es_min_memory_mb e = es_max_memory_mb e;
  es_window : 0 ≤ es_window_width e ≤ 16384 ∧ 0 ≤ es_window_height e ≤ 16384;
  es_path : trim (es_java_path e) = es_java_path e ∧ validate_java_path (es_java_path e) = Ok tt;
  (** An origin is reported for exactly what does not have its default. *)
  es_path_origin : es_java_override_origin e = None ↔ es_java_path e = "";
  es_preset_origin : es_preset_override_origin e = None → es_jvm_preset e = Automatic;
  (** An instance override that is not blank wins over the preferences. *)
  es_preset_local : trim (inst_jvm_preset s) ≠ "" → jvm_preset_as_str (es_jvm_preset e) = trim (inst_jvm_preset s);
  es_preset_global : trim (inst_jvm_preset s) = "" → es_jvm_preset e = cfg_jvm_preset g;
  es_mode_local : trim (inst_performance_mode s) ≠ "" →
    performance_mode_as_str (es_performance_mode e) = trim (inst_performance_mode s);
  es_mode_global : trim (inst_performance_mode s) = "" → es_performance_mode e = cfg_performance_mode g;
}.

Lemma jvm_preset_parse_ok value preset : jvm_preset_parse value = Some preset → jvm_preset_as_str preset = value.
Proof. intros [_ E]%List.find_some. by apply str_eqb_spec in E. Qed.

Lemma performance_mode_parse_ok value mode :
  performance_mode_parse value = Some mode → performance_mode_as_str mode = value.
Proof.
  unfold performance_mode_parse. repeat case_match; intros [= <-]; symmetry; by apply str_eqb_spec.
Qed.

Lemma override_origin_none local global : override_origin local global = None ↔ local = false ∧ global = false.
Proof. destruct local, global; naive_solver. Qed.

(** The settings a launch gets are within bounds whatever mixture of
    preferences and overrides they come from: the minimum does not exceed the
    maximum, paths are trimmed and admissible, origins are reported for what
    has been overridden, and an override that is not blank wins. *)
Theorem effective_settings_sound s g e : effective s g = Ok e → effective_sound s g e.
Proof.
  unfold effective. intros He. ok_inv.
  rename select (instance_settings_validate s = _) into Hs. rename select (config_validate g = _) into Hg.
  apply instance_settings_validate_ok in Hs as ([Hmax Hmin] & [Hww Hwh] & Hjava & _ & _).
  apply config_validate_ok in Hg as (_ & _ & (Hgmax & Hgmin & Hgw & Hgjava)%validate_preferences_ok).
  rename select (_ = Ok x) into Hp. rename select (_ = Ok x0) into Hm.
  assert (MAX_INSTANCE_MEMORY = 1048576) as Hb by done.
  split; cbn [es_max_memory_mb es_min_memory_mb es_min_memory_clamped es_java_path es_java_override_origin
    es_window_width es_window_height es_jvm_preset es_preset_override_origin es_performance_mode];
    rewrite ?negb_involutive, ?inherit_spec by lia.
  - case_bool_decide; lia.
  - repeat case_bool_decide; lia.
  - intros Hc%Z.ltb_ge. by rewrite Z.min_l.
  - intros Hc%Z.ltb_lt. rewrite Z.min_r by lia. done.
  - repeat case_bool_decide; lia.
  - destruct (is_empty (trim (inst_java_path s))); split; (apply trim_idemp || by apply validate_java_path_trim).
  - rewrite override_origin_none, !negb_false_iff.
    destruct (is_empty (trim (inst_java_path s))) eqn:El; rewrite !is_empty_spec; [tauto|].
    split; [by intros [? _]|]. by apply is_empty_false in El.
  - rewrite override_origin_none, !negb_false_iff, bool_decide_eq_true. intros [El Eg].
    rewrite El in Hp. simpl in Hp. by injection Hp as <-.
  - intros Hne%is_empty_false. rewrite Hne in Hp. simpl in Hp. apply ok_or_ok in Hp. by apply jvm_preset_parse_ok.
  - intros E%is_empty_spec. rewrite E in Hp. simpl in Hp. by injection Hp as <-.
  - intros Hne%is_empty_false. rewrite Hne in Hm. apply ok_or_ok in Hm. by apply performance_mode_parse_ok.
  - intros E%is_empty_spec. rewrite E in Hm. by injection Hm as <-.
Qed.

Definition demo_override : InstanceSettings := {|
  inst_max_memory_mb := 2048; inst_min_memory_mb := 3000; inst_java_path := " /opt/java "; inst_window_width := 400;
  inst_window_height := 0; inst_jvm_preset := "smooth"; inst_performance_mode := ""; inst_extra_jvm_args := "-Xint";
  inst_auto_optimize := true |}.

Lemma effective_settings_sound_witness :
  ∃ e, effective demo_override default_config = Ok e ∧ effective_sound demo_override default_config e ∧
    es_min_memory_mb e = 2048 ∧ es_java_path e = "/opt/java" ∧ es_jvm_preset e = Smooth.
Proof.
  destruct (effective demo_override default_config) as [e|err] eqn:E; [|vm_compute in E; discriminate E].
  exists e. split; [reflexivity|]. split; [exact (effective_settings_sound demo_override default_config e E)|].
  vm_compute in E. injection E as <-. split_and!; reflexivity.
Defined.

(** ** The window of a launch *)

Lemma launch_resolution_refuses e :
  0 ≤ es_window_width e → 0 ≤ es_window_height e →
  launch_resolution e = None ↔ (es_window_width e = 0 ↔ es_window_height e ≠ 0).
Proof.
  unfold launch_resolution. intros Hw Hh.
  destruct (es_window_width e =? 0) eqn:Ew, (es_window_height e =? 0) eqn:Eh; simpl;
    destruct (0 <? es_window_width e) eqn:Pw, (0 <? es_window_height e) eqn:Ph; simpl; split; intros; (done || lia).
Qed.

(** An instance may override one dimension of the window only.  Where the
    preferences leave the window to the game, its validation accepts the
    override and every launch of the instance is refused. *)
Theorem half_window_never_launches s g e :
  effective s g = Ok e → 0 < inst_window_width s → inst_window_height s = 0 → cfg_window_height g = 0 →
  launch_resolution e = None.
Proof.
  unfold effective. intros He Hw Hh Hg. ok_inv. unfold launch_resolution. cbn.
  unfold inherit. rewrite Hh, Hg. destruct (0 <? inst_window_width s) eqn:E; [|lia]. simpl.
  destruct (inst_window_width s =? 0) eqn:E0; [lia|]. simpl. by rewrite E.
Qed.

Lemma half_window_never_launches_witness :
  ∃ e, effective demo_override default_config = Ok e ∧ launch_resolution e = None.
Proof.
  destruct (effective demo_override default_config) as [e|err] eqn:E; [|vm_compute in E; discriminate E].
  exists e. split; [reflexivity|]. apply (half_window_never_launches demo_override default_config e E); reflexivity.
Defined.
