(* ===== verification/InterfacePreferences.v ===== *)
(** * Interface preferences ([core/app/src/settings/preferences.rs])

    The preferences the interface keeps in the profile, their validation and
    their size bound.  [f64] values are those of [RustFloat]. *)

From Stdlib Require Import SpecFloat.
From S2P Require Import Prelude RustStr RustFloat SettingsModel.

Record ShortcutBinding := {
  shortcut_key : string;
  shortcut_ctrl : option bool;
  shortcut_shift : option bool;
  shortcut_alt : option bool;
  shortcut_meta : option bool;
}.

Record OverlayPosition := {
  overlay_x : f64;
  overlay_y : f64;
  overlay_scale_x : option f64;
  overlay_scale_y : option f64;
}.

Record LocalPreferences := {
  local_theme : string;
  local_custom_hue : f64;
  local_custom_vibrancy : f64;
  local_lightness : f64;
  local_sounds : bool;
  local_hide_skin_nametag : bool;
  local_selected_skin : string;
  local_selected_skins_by_account : gmap string string;
  local_shortcuts : gmap string ShortcutBinding;
  local_overlay_positions : gmap string OverlayPosition;
  local_last_update_check_at : string;
  local_dismissed_update_version : string;
}.

Definition default_local_preferences : LocalPreferences := {|
  local_theme := "obsidian"; local_custom_hue := f64_of_Z 140; local_custom_vibrancy := f64_of_Z 100;
  local_lightness := f64_of_Z 0; local_sounds := true; local_hide_skin_nametag := false;
  local_selected_skin := ""; local_selected_skins_by_account := ∅; local_shortcuts := ∅;
  local_overlay_positions := ∅; local_last_update_check_at := ""; local_dismissed_update_version := "" |}.

Inductive InterfaceRoute :=
| RouteHome | RouteInstances
| RouteInstance (id : string)
| RouteDiscover (target : option string)
| RouteContent (id : string) (target : option string)
| RouteDevLab | RouteDownloads | RouteAccounts | RouteSettings.

Record InterfacePreferences := {
  interface_version : Z;
  interface_local : LocalPreferences;
  interface_route : option InterfaceRoute;
}.

#[global] Instance ShortcutBinding_eq_dec : EqDecision ShortcutBinding.
Proof. solve_decision. Defined.
#[global] Instance OverlayPosition_eq_dec : EqDecision OverlayPosition.
Proof. solve_decision. Defined.
#[global] Instance LocalPreferences_eq_dec : EqDecision LocalPreferences.
Proof. solve_decision. Defined.
#[global] Instance InterfaceRoute_eq_dec : EqDecision InterfaceRoute.
Proof. solve_decision. Defined.
#[global] Instance InterfacePreferences_eq_dec : EqDecision InterfacePreferences.
Proof. solve_decision. Defined.

Inductive InterfacePreferencesChange :=
| ChangeLocal (preferences : LocalPreferences)
| ChangeRoute (route : option InterfaceRoute)
| ChangeReplace (value : option InterfacePreferences).

Record InterfacePreferencesUpdate := {
  update_expected_revision : Z;
  update_change : InterfacePreferencesChange;
}.

(** [serde_json::to_writer]: the lengths of the chunks it writes. *)
Class PreferencesJson := {
  local_writes : LocalPreferences → list Z;
  interface_writes : InterfacePreferences → list Z;
}.

Definition MAX_INTERFACE_PREFERENCES_BYTES : Z := 2 * 1024 * 1024.
Definition MAX_ENTRIES : nat := 4096.

Definition invalid_preferences : SettingsError :=
  Validation "Interface preferences contain unsupported or invalid values.".

Definition refuse_if (condition : bool) : result SettingsError unit := err_if condition invalid_preferences.

(** A character up to U+001F is one byte. *)
Definition low_control (ch : string) : bool := char_is (λ c, (byte_n c <=? 31)%N) ch.

Definition text (value : string) (limit : Z) : result SettingsError unit :=
  refuse_if ((limit <? utf16_len value) || existsb low_control (chars value)).

Definition forbidden_key (key : string) : bool :=
  str_eqb key "__proto__" || str_eqb key "prototype" || str_eqb key "constructor".

Definition keys {A} (values : gmap string A) : result SettingsError unit :=
  refuse_if ((MAX_ENTRIES <? size values)%nat ||
    existsb (λ '(key, _), (1024 <? utf16_len key) || forbidden_key key) (map_to_list values)).

Definition number (value min max : f64) : result SettingsError unit :=
  refuse_if (negb (is_finite value) || negb (SFleb min value && SFleb value max)).

(** [Limit]: what is left of the bound after the chunks of the serializer. *)
Definition bounded_size (writes : list Z) : result SettingsError unit :=
  try_fold (λ remaining chunk, refuse_if (remaining <? chunk) ;; Ok (remaining - chunk))
    MAX_INTERFACE_PREFERENCES_BYTES writes ;;
  Ok tt.

Definition known_theme (theme : string) : bool :=
  existsb (str_eqb theme) ["obsidian"; "deepslate"; "nether"; "end"; "birch"; "custom"].

Definition validate_overlay (value : OverlayPosition) : result SettingsError unit :=
  number (overlay_x value) (f64_of_Z (-1000000)) (f64_of_Z 1000000) ;;
  number (overlay_y value) (f64_of_Z (-1000000)) (f64_of_Z 1000000) ;;
  try_for_each (λ scale, number scale (f64_of_Z 0) (f64_of_Z 1))
    (option_list (overlay_scale_x value) ++ option_list (overlay_scale_y value)).

Definition local_validate (self : LocalPreferences) : result SettingsError unit :=
  refuse_if (negb (known_theme (local_theme self))) ;;
  number (local_custom_hue self) (f64_of_Z 0) (f64_of_Z 360) ;;
  number (local_custom_vibrancy self) (f64_of_Z 0) (f64_of_Z 100) ;;
  number (local_lightness self) (f64_of_Z 0) (f64_of_Z 100) ;;
  try_for_each (λ value, text value 1024)
    [local_selected_skin self; local_last_update_check_at self; local_dismissed_update_version self] ;;
  keys (local_selected_skins_by_account self) ;;
  try_for_each (λ '(_, value), text value 1024) (map_to_list (local_selected_skins_by_account self)) ;;
  keys (local_shortcuts self) ;;
  try_for_each (λ '(_, value), text (shortcut_key value) 64 ;; refuse_if (is_empty (shortcut_key value)))
    (map_to_list (local_shortcuts self)) ;;
  keys (local_overlay_positions self) ;;
  try_for_each (λ '(_, value), validate_overlay value) (map_to_list (local_overlay_positions self)).

Definition validate_route (route : option InterfaceRoute) : result SettingsError unit :=
  match route with
  | Some (RouteInstance id) | Some (RouteContent id _) => text id 1024 ;; refuse_if (is_empty id)
  | _ => Ok tt
  end ;;
  match route with
  | Some (RouteDiscover (Some target)) | Some (RouteContent _ (Some target)) => text target 1024
  | _ => Ok tt
  end.

Section validation.
Context `{PreferencesJson}.

Definition interface_validate (self : InterfacePreferences) : result SettingsError unit :=
  refuse_if (negb (interface_version self =? 1)) ;;
  local_validate (interface_local self) ;;
  validate_route (interface_route self) ;;
  bounded_size (interface_writes self).

(** The checks of [update_interface_preferences] before its transaction. *)
Definition validate_change (change : InterfacePreferencesChange) : result SettingsError unit :=
  match change with
  | ChangeLocal preferences => local_validate preferences ;; bounded_size (local_writes preferences)
  | ChangeRoute route => validate_route route
  | ChangeReplace (Some value) => interface_validate value
  | ChangeReplace None => Ok tt
  end.
End validation.

Definition apply_change (change : InterfacePreferencesChange) (current : option InterfacePreferences) :
    result SettingsError (option InterfacePreferences) :=
  match change with
  | ChangeLocal preferences =>
      value ← ok_or invalid_preferences current;
      Ok (Some {| interface_version := interface_version value; interface_local := preferences;
                  interface_route := interface_route value |})
  | ChangeRoute route =>
      value ← ok_or invalid_preferences current;
      Ok (Some {| interface_version := interface_version value; interface_local := interface_local value;
                  interface_route := route |})
  | ChangeReplace value => Ok value
  end.

(** ** The bound on the encoded size *)

Lemma refuse_if_ok condition : refuse_if condition = Ok tt ↔ condition = false.
Proof. unfold refuse_if, err_if. by destruct condition. Qed.

Lemma bounded_size_iff writes :
  Forall (λ chunk, 0 ≤ chunk) writes →
  bounded_size writes = Ok tt ↔ sum_Z writes ≤ MAX_INTERFACE_PREFERENCES_BYTES.
Proof.
  intros Hw. unfold bounded_size. rewrite bind_ok.
  assert (0 ≤ MAX_INTERFACE_PREFERENCES_BYTES) as H0 by done. revert H0.
  generalize MAX_INTERFACE_PREFERENCES_BYTES. intros remaining.
  assert (∀ l : list Z, Forall (λ chunk, 0 ≤ chunk) l → 0 ≤ sum_Z l) as Hpos.
  { intros l. induction 1 as [|x l Hx _ IH]; simpl; lia. }
  revert remaining. induction Hw as [|chunk writes Hc Hw IH]; intros remaining Hr; simpl.
  { split; [done|]. by exists remaining. }
  specialize (Hpos _ Hw). split.
  - intros (a & (s & Hs & Hf)%bind_ok & _). ok_inv. rename select (refuse_if _ = _) into Hle.
    apply refuse_if_ok, Z.ltb_ge in Hle. assert (sum_Z writes ≤ remaining - chunk); [|lia].
    apply IH; [lia|]. by exists a.
  - intros Hs. destruct (proj2 (IH (remaining - chunk) ltac:(lia)) ltac:(lia)) as (a & Hf & _).
    exists a. split; [|done]. apply bind_ok. exists (remaining - chunk). split; [|done].
    apply bind_ok_unit. split; [|done]. apply refuse_if_ok. lia.
Qed.

(** A change that applies to valid preferences after its own checks leaves
    valid preferences, up to the bound on the size of the whole. *)
Lemma apply_change_parts `{PreferencesJson} change current value :
  validate_change change = Ok tt → (∀ v, current = Some v → interface_validate v = Ok tt) →
  apply_change change current = Ok (Some value) →
  interface_version value = 1 ∧ local_validate (interface_local value) = Ok tt ∧
  validate_route (interface_route value) = Ok tt.
Proof.
  intros Hv Hc Ha. destruct change as [preferences|route|[v|]]; simpl in *; ok_inv.
  - destruct current as [v|]; [|done]. specialize (Hc v eq_refl). rename select (Some v = Some _) into E.
    injection E as <-. unfold interface_validate, refuse_if in Hc.
    ok_inv. simpl. split_and!; [lia|done|done].
  - destruct current as [v|]; [|done]. specialize (Hc v eq_refl). rename select (Some v = Some _) into E.
    injection E as <-. unfold interface_validate, refuse_if in Hc.
    ok_inv. simpl. split_and!; [lia|done|done].
  - unfold interface_validate, refuse_if in Hv. ok_inv. split_and!; [lia|done|done].
  - done.
Qed.
