(* ===== verification/Storage.v ===== *)
(** * Metadata storage ([core/app/src/storage/mod.rs])

    One SQLite connection behind a mutex, used through short read callbacks
    and transactions.  What SQLite does in one call (whether beginning,
    committing and rolling back succeed, whether the integrity check passes
    and whether the connection is back in autocommit mode) is the parameter
    [SqliteCall], with its documented behaviour as hypotheses; what the store
    makes of it is translated.  A callback is a function of the tables it
    sees, and does not panic; a panic of another one is the step [interrupt].
    Opening the database and its execution budget are not modelled. *)

From S2P Require Import Prelude RustStr SettingsModel.

Record MetadataStore (D : Type) := {
  database : D;
  mutation_closed : bool;
  poisoned : bool;
}.
Arguments database {D} _.
Arguments mutation_closed {D} _.
Arguments poisoned {D} _.

(** The environment of one call. *)
Record SqliteCall := {
  begin_error : option StorageError;
  commit_error : option StorageError;
  rollback_fails : bool;
  query_only_error : option StorageError;
  query_only_off_error : option StorageError;
  integrity_fails : bool;
  (** [is_autocommit] afterwards, given whether a commit succeeded. *)
  autocommit : bool → bool;
}.

(** A call in which SQLite reports no error. *)
Definition quiet_call : SqliteCall := {|
  begin_error := None; commit_error := None; rollback_fails := false; query_only_error := None;
  query_only_off_error := None; integrity_fails := false; autocommit := λ _, true |}.

(** A commit that succeeds leaves the connection in autocommit mode. *)
Definition settles (call : SqliteCall) : Prop := autocommit call true = true.

Definition close {D} (store : MetadataStore D) : MetadataStore D :=
  {| database := database store; mutation_closed := true; poisoned := poisoned store |}.

Definition with_database {D} (store : MetadataStore D) (tables : D) : MetadataStore D :=
  {| database := tables; mutation_closed := mutation_closed store; poisoned := poisoned store |}.

(** A callback of some other call panics while it holds the mutex. *)
Definition interrupt {D} (store : MetadataStore D) : MetadataStore D :=
  {| database := database store; mutation_closed := mutation_closed store; poisoned := true |}.

(** [lock], which closes the store when the mutex is poisoned. *)
Definition lock {D} (store : MetadataStore D) : result StorageError unit * MetadataStore D :=
  if poisoned store then (Err Poisoned, close store) else (Ok tt, store).

(** [check_after_failed_callback], on a failed result. *)
Definition check_after_failed {D E T} (call : SqliteCall) (r : result E T) (store : MetadataStore D) : MetadataStore D :=
  if negb (is_ok r) && integrity_fails call then close store else store.

Definition read_callback {D E T} (from : StorageError → E) (call : SqliteCall) (read : D → result E T)
    (store : MetadataStore D) : result E T * MetadataStore D :=
  match lock store with
  | (Err e, store) => (Err (from e), store)
  | (Ok _, store) =>
      match query_only_error call with
      | Some e => (Err (from e), store)
      | None =>
          let r := read (database store) in
          if negb (autocommit call false) then (Err (from UnownedTransaction), close store)
          else match query_only_off_error call with
               | Some e => (Err (from e), close store)
               | None => (r, check_after_failed call r store)
               end
      end
  end.

(** Commit an [Ok] result, roll an error back. *)
Definition settle {D E T} (from : StorageError → E) (call : SqliteCall) (store : MetadataStore D)
    (r : result E T) (tables : D) : result E T * MetadataStore D :=
  match r with
  | Ok value =>
      match commit_error call with
      | None => (Ok value, with_database store tables)
      | Some e => (Err (from e), store)
      end
  | Err e => (Err e, if rollback_fails call then close store else store)
  end.

Definition transaction {D E T} (from : StorageError → E) (call : SqliteCall) (write : D → result E T * D)
    (store : MetadataStore D) : result E T * MetadataStore D :=
  match lock store with
  | (Err e, store) => (Err (from e), store)
  | (Ok _, store) =>
      if mutation_closed store then (Err (from StorageClosed), store)
      else match begin_error call with
           | Some e => (Err (from e), if bool_decide (e = StorageCorrupt) then close store else store)
           | None =>
               let '(r, tables) := write (database store) in
               let '(r, store) := settle from call store r tables in
               let store := check_after_failed call r store in
               if negb (autocommit call (is_ok r)) then (Err (from UnownedTransaction), close store)
               else (r, store)
           end
  end.

Definition check_integrity {D} (call : SqliteCall) (store : MetadataStore D) :
    result StorageError unit * MetadataStore D :=
  match lock store with
  | (Err e, store) => (Err e, store)
  | (Ok _, store) => if integrity_fails call then (Err StorageCorrupt, close store) else (Ok tt, store)
  end.

(** ** Migrations *)

Record Migration := { migration_id : string; migration_sql : string }.

(** The tables of features and the record of what was applied to them.
    Running a batch of SQL on the tables is SQLite's. *)
Record Schema (T : Type) := { applied : gmap string string; tables : T }.
Arguments applied {T} _.
Arguments tables {T} _.

Class Sql (T : Type) := execute_batch : string → T → result StorageError T.

Definition migration_byte (c : ascii) : bool :=
  is_alphanumeric c || Ascii.eqb c "." || Ascii.eqb c "_" || Ascii.eqb c "-".

Definition check_migration (ids : gset string) (migration : Migration) : result StorageError (gset string) :=
  err_if (is_empty (migration_id migration) || (128 <? str_len (migration_id migration)) ||
          negb (sforall migration_byte (migration_id migration)) || is_empty (migration_sql migration) ||
          (1048576 <? str_len (migration_sql migration))) (InvalidMigration (migration_id migration)) ;;
  insert_new (InvalidMigration (migration_id migration)) ids (migration_id migration).

Definition apply_migration {T} `{Sql T} (schema : Schema T) (migration : Migration) : result StorageError (Schema T) :=
  match applied schema !! migration_id migration with
  | Some sql =>
      if str_eqb sql (migration_sql migration) then Ok schema
      else Err (InvalidMigration (migration_id migration))
  | None =>
      changed ← execute_batch (migration_sql migration) (tables schema);
      Ok {| applied := <[migration_id migration := migration_sql migration]> (applied schema); tables := changed |}
  end.

(** The callback of [migrate]; an error keeps the tables for the rollback. *)
Definition apply_migrations {T} `{Sql T} (migrations : list Migration) (schema : Schema T) :
    result StorageError unit * Schema T :=
  match try_fold apply_migration schema migrations with
  | Ok schema => (Ok tt, schema)
  | Err e => (Err e, schema)
  end.

Definition migrate {T} `{Sql T} (call : SqliteCall) (migrations : list Migration) (store : MetadataStore (Schema T)) :
    result StorageError unit * MetadataStore (Schema T) :=
  match try_fold check_migration (∅ : gset string) migrations with
  | Err e => (Err e, store)
  | Ok _ => transaction (λ e, e) call (apply_migrations migrations) store
  end.

(** ** Transactions are atomic *)

Lemma check_after_failed_database {D E T} call (r : result E T) (store : MetadataStore D) :
  database (check_after_failed call r store) = database store ∧
  poisoned (check_after_failed call r store) = poisoned store ∧
  (mutation_closed store = true → mutation_closed (check_after_failed call r store) = true).
Proof. unfold check_after_failed. by destruct (negb _ && _). Qed.

(** Everything a transaction can come to. *)
Inductive transaction_outcome {D E T} (from : StorageError → E) (write : D → result E T * D)
    (store : MetadataStore D) : result E T → MetadataStore D → Prop :=
| Committed value changed store' :
    write (database store) = (Ok value, changed) → poisoned store = false → mutation_closed store = false →
    store' = with_database store changed → transaction_outcome from write store (Ok value) store'
| RolledBack e store' :
    database store' = database store → poisoned store' = poisoned store →
    (mutation_closed store = true → mutation_closed store' = true) →
    ((∃ storage, e = from storage) ∨ fst (write (database store)) = Err e) →
    transaction_outcome from write store (Err e) store'.

Lemma transaction_cases {D E T} (from : StorageError → E) call (write : D → result E T * D) store r store' :
  settles call → transaction from call write store = (r, store') → transaction_outcome from write store r store'.
Proof.
  intros Hsettles. unfold transaction, lock. destruct (poisoned store) eqn:Ep.
  { intros [= <- <-]. apply RolledBack; simpl; eauto. }
  destruct (mutation_closed store) eqn:Ec; [intros [= <- <-]; apply RolledBack; eauto|].
  destruct (begin_error call) as [e|].
  { intros [= <- <-]. apply RolledBack; try case_bool_decide; eauto; congruence. }
  destruct (write (database store)) as [[value|e] changed] eqn:Ew; simpl.
  - destruct (commit_error call) as [e|] eqn:Ecommit; simpl.
    + destruct (check_after_failed_database call (Err (from e) : result E T) store) as (Hd & Hp & _).
      destruct (autocommit call false); intros [= <- <-]; (apply RolledBack; [exact Hd|exact Hp|congruence|eauto]).
    + unfold check_after_failed. simpl. rewrite Hsettles. simpl. intros [= <- <-]. by eapply Committed.
  - set (store1 := if rollback_fails call then close store else store).
    destruct (check_after_failed_database call (Err e : result E T) store1) as (Hd & Hp & _).
    assert (database store1 = database store ∧ poisoned store1 = poisoned store) as [Hd1 Hp1]
      by (unfold store1; by destruct (rollback_fails call)).
    destruct (autocommit call false); intros [= <- <-];
      (apply RolledBack; simpl; [congruence|congruence|congruence|]); [right; by rewrite Ew|left; eauto].
Qed.

Lemma lock_step {D} (store store' : MetadataStore D) r :
  lock store = (r, store') →
  database store' = database store ∧ (mutation_closed store = true → mutation_closed store' = true).
Proof. unfold lock. destruct (poisoned store); intros [= <- <-]; by simpl. Qed.

(** A read leaves the tables alone and closes the store at most. *)
Lemma read_keeps {D E T} (from : StorageError → E) call (read : D → result E T) store r store' :
  read_callback from call read store = (r, store') →
  database store' = database store ∧ (mutation_closed store = true → mutation_closed store' = true) ∧
  (∀ value, r = Ok value → read (database store) = Ok value).
Proof.
  unfold read_callback. destruct (lock store) as [[[]|e] store1] eqn:El; apply lock_step in El as [Hd Hc].
  2: { intros [= <- <-]. by split_and!. }
  destruct (query_only_error call) as [e|]; [intros [= <- <-]; by split_and!|].
  destruct (autocommit call false); simpl.
  - destruct (query_only_off_error call) as [e|]; intros [= <- <-]; [by split_and!|]. rewrite <-Hd.
    destruct (check_after_failed_database call (read (database store1)) store1) as (? & _ & ?). by split_and!; auto.
  - intros [= <- <-]. by split_and!.
Qed.

Lemma with_database_same {D} (store : MetadataStore D) : with_database store (database store) = store.
Proof. by destruct store. Qed.

Lemma transaction_commits {D E T} (from : StorageError → E) (write : D → result E T * D) store value changed :
  poisoned store = false → mutation_closed store = false → write (database store) = (Ok value, changed) →
  transaction from quiet_call write store = (Ok value, with_database store changed).
Proof. unfold transaction, lock. intros -> -> ->. done. Qed.

(** ** Migrations are applied once, in order, verbatim *)

Section migrations.
Context {T : Type} `{Sql T}.

(** The tables after the migrations that are not recorded yet. *)
Definition pending (schema : Schema T) (migrations : list Migration) : list Migration :=
  filter (λ migration, applied schema !! migration_id migration = None) migrations.

Lemma apply_migration_ok schema migration schema' :
  apply_migration schema migration = Ok schema' →
  applied schema' !! migration_id migration = Some (migration_sql migration) ∧
  applied schema ⊆ applied schema' ∧
  (∀ id, id ≠ migration_id migration → applied schema' !! id = applied schema !! id) ∧
  (if bool_decide (applied schema !! migration_id migration = None)
   then execute_batch (migration_sql migration) (tables schema) = Ok (tables schema')
   else schema' = schema).
Proof.
  unfold apply_migration. destruct (applied schema !! migration_id migration) as [sql|] eqn:Ea.
  - destruct (str_eqb sql _) eqn:E; [|done]. intros [= <-]. apply str_eqb_spec in E as ->. by split_and!.
  - intros Hm. ok_inv. simpl. split_and!; [by rewrite lookup_insert_eq|by apply insert_subseteq| |done].
    intros id Hid. by rewrite lookup_insert_ne.
Qed.

Lemma apply_migrations_ok migrations schema schema' :
  try_fold apply_migration schema migrations = Ok schema' →
  applied schema ⊆ applied schema' ∧
  Forall (λ m, applied schema' !! migration_id m = Some (migration_sql m)) migrations ∧
  dom (applied schema') = dom (applied schema) ∪ list_to_set (migration_id <$> migrations) ∧
  (NoDup (migration_id <$> migrations) →
   try_fold (λ t m, execute_batch (migration_sql m) t) (tables schema) (pending schema migrations) =
   Ok (tables schema')).
Proof.
  revert schema. induction migrations as [|m migrations IH]; intros schema; simpl.
  { intros [= <-]. split_and!; [done|constructor|set_solver|done]. }
  intros (s1 & (H1 & Hsub & Hother & Hrun)%apply_migration_ok & (Hsub' & Hall & Hdom & Htab)%IH)%bind_ok.
  assert (dom (applied s1) = {[migration_id m]} ∪ dom (applied schema)) as Hd1.
  { apply set_eq. intros id. rewrite elem_of_union, elem_of_singleton, !elem_of_dom.
    destruct (decide (id = migration_id m)) as [->|Hne]; [rewrite H1; naive_solver|]. rewrite (Hother _ Hne). naive_solver. }
  split_and!.
  - by etrans.
  - constructor; [by eapply lookup_weaken|done].
  - rewrite Hdom, Hd1. set_solver.
  - intros [Hm Hnd]%list.NoDup_cons. specialize (Htab Hnd). unfold pending. rewrite filter_cons.
    assert (filter (λ x, applied schema !! migration_id x = None) migrations = pending s1 migrations) as ->.
    { apply filter_ext_elem. intros x Hx. rewrite Hother; [done|]. intros E. apply Hm. rewrite <-E.
      by apply list_elem_of_fmap_2. }
    cbv beta in *. case_decide as Hnone; [rewrite bool_decide_true in Hrun by done|rewrite bool_decide_false in Hrun by done].
    + simpl. by rewrite Hrun.
    + by subst s1.
Qed.

Lemma apply_migrations_rerun migrations schema :
  Forall (λ m, applied schema !! migration_id m = Some (migration_sql m)) migrations →
  try_fold apply_migration schema migrations = Ok schema.
Proof.
  induction 1 as [|m migrations Hm _ IH]; simpl; [done|]. assert (apply_migration schema m = Ok schema) as ->; [|done].
  unfold apply_migration. by rewrite Hm, (proj2 (str_eqb_spec _ _) eq_refl).
Qed.

Lemma check_migrations_distinct migrations ids :
  try_fold check_migration (∅ : gset string) migrations = Ok ids → NoDup (migration_id <$> migrations).
Proof.
  assert (∀ seen, try_fold check_migration seen migrations = Ok ids →
    NoDup (migration_id <$> migrations) ∧ ∀ id, id ∈ migration_id <$> migrations → id ∉ seen) as Hg.
  { induction migrations as [|m migrations IH]; intros seen; simpl.
    { intros _. split; [constructor|by intros ? ?%elem_of_nil]. }
    intros (s1 & Hc & [Hn Hs]%IH)%bind_ok. unfold check_migration in Hc. ok_inv.
    rename select (insert_new _ _ _ = _) into Hi. apply insert_new_ok in Hi as [Hi ->]. split.
    - constructor; [|done]. intros Hin. specialize (Hs _ Hin). set_solver.
    - intros id [->|Hin]%elem_of_cons; [done|]. specialize (Hs id Hin). set_solver. }
  intros Hc. by destruct (Hg ∅ Hc).
Qed.

(** C33: A migration that succeeds has recorded every migration of the group with
    its text and has run exactly those not recorded before, once and in
    order; running the group again changes nothing.  One that fails, because
    a recorded text was edited or for any other reason, leaves the tables and
    the record as they were. *)
Theorem migrate_applies_once call migrations store r store' :
  settles call → migrate call migrations store = (r, store') →
  match r with
  | Ok _ =>
      Forall (λ m, applied (database store') !! migration_id m = Some (migration_sql m)) migrations ∧
      applied (database store) ⊆ applied (database store') ∧
      dom (applied (database store')) = dom (applied (database store)) ∪ list_to_set (migration_id <$> migrations) ∧
      try_fold (λ t m, execute_batch (migration_sql m) t) (tables (database store))
        (pending (database store) migrations) = Ok (tables (database store')) ∧
      migrate quiet_call migrations store' = (Ok tt, store')
  | Err _ => database store' = database store
  end.
Proof.
  intros Hs. unfold migrate. destruct (try_fold check_migration _ _) as [ids|e] eqn:Ec.
  2: { by intros [= <- <-]. }
  intros Ht. apply transaction_cases in Ht; [|done]. destruct Ht as [[] changed st Hw Hp Hc ->|e st Hd _ _ _]; [|done].
  unfold apply_migrations in Hw. destruct (try_fold apply_migration _ _) as [schema|e] eqn:Ea; [|done].
  injection Hw as <-. pose proof Ea as (H1 & H2 & H3 & H4)%apply_migrations_ok. simpl.
  split_and!; [done|done|done|by eapply H4, check_migrations_distinct|].
  erewrite transaction_commits; [by rewrite with_database_same|done|done|].
  unfold apply_migrations. simpl. by rewrite apply_migrations_rerun.
Qed.
End migrations.

Module StorageDemo.
(** Tables that remember what ran on them. *)
#[local] Instance log_sql : Sql (list string) := λ sql log,
  if str_eqb sql "BAD" then Err Sqlite else Ok (log ++ [sql]).

Definition first_migration := {| migration_id := "settings_v1"; migration_sql := "CREATE a" |}.
Definition second_migration := {| migration_id := "accounts_v1"; migration_sql := "CREATE b" |}.

Definition demo_store : MetadataStore (Schema (list string)) :=
  {| database := {| applied := {["settings_v1" := "CREATE a"]}; tables := ["CREATE a"] |};
     mutation_closed := false; poisoned := false |}.

Lemma migrate_applies_once_witness :
  let '(r, store') := migrate quiet_call [first_migration; second_migration] demo_store in
  r = Ok tt ∧ tables (database store') = ["CREATE a"; "CREATE b"] ∧
  migrate quiet_call [first_migration; second_migration] store' = (Ok tt, store').
Proof.
  destruct (migrate quiet_call [first_migration; second_migration] demo_store) as [r store'] eqn:E.
  pose proof (migrate_applies_once quiet_call [first_migration; second_migration] demo_store r store' eq_refl E) as Hm.
  vm_compute in E. injection E as <- <-. split; [reflexivity|]. split; [reflexivity|].
  destruct Hm as (_ & _ & _ & _ & Hm). exact Hm.
Defined.

(** An edited text is refused, and nothing of the group is applied. *)
Example edited_migration_refused :
  migrate quiet_call [second_migration; {| migration_id := "settings_v1"; migration_sql := "CREATE c" |}] demo_store =
  (Err (InvalidMigration "settings_v1"), demo_store).
Proof. vm_compute. done. Qed.
End StorageDemo.
