(* ===== verification/SettingsStore.v ===== *)
(** * The settings store ([core/app/src/settings/mod.rs, flags.rs,
    preferences.rs])

    One document in one row of the metadata database, edited under an expected
    revision, and the channel on which the committed preferences are
    published.  The store works on the tables [Tables O]: its own row and
    those of the owners that commit together with it.  Encoding the document
    is the parameter [SettingsJson]; whether a statement fails is a part of
    the call's environment.  A fresh telemetry identity is an argument. *)

From S2P Require Import Prelude RustStr SettingsModel InterfacePreferences Storage.

Definition MAX_DOCUMENT_BYTES : Z := 64 * 1024.
Definition MAX_STORED_DOCUMENT_BYTES : Z := MAX_DOCUMENT_BYTES + MAX_INTERFACE_PREFERENCES_BYTES + 256.
Definition MAX_REVISION : Z := Z.shiftl 1 53 - 1.

Definition STATE_INSPECTOR_FLAG : string := "dev.state-inspector".

Definition known_flag (key : string) : bool := str_eqb key STATE_INSPECTOR_FLAG.

Definition flag_visible (key : string) (development_build : bool) : bool := known_flag key && development_build.

Record Document := {
  doc_config : ConfigView;
  doc_feature_overrides : gmap string bool;
  doc_telemetry_install_id : option string;
  doc_interface_revision : Z;
  doc_interface : option InterfacePreferences;
}.

#[global] Instance Document_eq_dec : EqDecision Document.
Proof. solve_decision. Defined.

Definition default_document : Document := {|
  doc_config := default_config; doc_feature_overrides := ∅; doc_telemetry_install_id := None;
  doc_interface_revision := 0; doc_interface := None |}.

(** serde_json on the document. *)
Class SettingsJson := {
  document_to_string : Document → option string;
  document_from_str : string → option Document;
}.

Record SettingsRow := { row_revision : Z; row_document : string }.

Record Tables (O : Type) := { settings_row : option SettingsRow; owner_tables : O }.
Arguments settings_row {O} _.
Arguments owner_tables {O} _.

Record SettingsCall := {
  sqlite : SqliteCall;
  select_error : option StorageError;
  update_error : option StorageError;
}.

Record SettingsStore (O : Type) := {
  metadata_store : MetadataStore (Tables O);
  published : ConfigView;
  changes_poisoned : bool;
  telemetry_identity_enabled : bool;
}.
Arguments metadata_store {O} _.
Arguments published {O} _.
Arguments changes_poisoned {O} _.
Arguments telemetry_identity_enabled {O} _.

(** ** Functions of the document *)

Definition set_config (document : Document) (config : ConfigView) : Document := {|
  doc_config := config; doc_feature_overrides := doc_feature_overrides document;
  doc_telemetry_install_id := doc_telemetry_install_id document;
  doc_interface_revision := doc_interface_revision document; doc_interface := doc_interface document |}.

Definition set_identity (document : Document) (identity : option string) : Document := {|
  doc_config := doc_config document; doc_feature_overrides := doc_feature_overrides document;
  doc_telemetry_install_id := identity;
  doc_interface_revision := doc_interface_revision document; doc_interface := doc_interface document |}.

Definition set_overrides (document : Document) (overrides : gmap string bool) : Document := {|
  doc_config := doc_config document; doc_feature_overrides := overrides;
  doc_telemetry_install_id := doc_telemetry_install_id document;
  doc_interface_revision := doc_interface_revision document; doc_interface := doc_interface document |}.

Definition set_interface (document : Document) (revision : Z) (value : option InterfacePreferences) : Document := {|
  doc_config := doc_config document; doc_feature_overrides := doc_feature_overrides document;
  doc_telemetry_install_id := doc_telemetry_install_id document;
  doc_interface_revision := revision; doc_interface := value |}.

Definition with_revision (config : ConfigView) (revision : Z) : ConfigView := {|
  cfg_revision := revision; cfg_account_selection_revision := cfg_account_selection_revision config;
  cfg_username := cfg_username config; cfg_launch_auth_mode := cfg_launch_auth_mode config;
  cfg_max_memory_mb := cfg_max_memory_mb config; cfg_min_memory_mb := cfg_min_memory_mb config;
  cfg_java_path_override := cfg_java_path_override config; cfg_window_width := cfg_window_width config;
  cfg_window_height := cfg_window_height config; cfg_onboarding_done := cfg_onboarding_done config;
  cfg_jvm_preset := cfg_jvm_preset config; cfg_performance_mode := cfg_performance_mode config;
  cfg_theme := cfg_theme config; cfg_custom_hue := cfg_custom_hue config;
  cfg_custom_vibrancy := cfg_custom_vibrancy config; cfg_lightness := cfg_lightness config;
  cfg_telemetry_enabled := cfg_telemetry_enabled config;
  cfg_discord_rpc_enabled := cfg_discord_rpc_enabled config;
  cfg_discord_rpc_onboarding_seen := cfg_discord_rpc_onboarding_seen config;
  cfg_music_enabled := cfg_music_enabled config; cfg_music_volume := cfg_music_volume config;
  cfg_music_track := cfg_music_track config |}.

Definition next_revision (revision : Z) : result SettingsError Z :=
  ok_or SettingsUnavailable
    (next ← checked_add_u64 revision 1; if next <=? MAX_REVISION then Some next else None).

Section store.
Context `{PreferencesJson} `{SettingsJson} `{UuidParser} {O : Type}.

(** The telemetry identity exists with the consent only. *)
Definition identity_matches (document : Document) : bool :=
  match cfg_telemetry_enabled (doc_config document), doc_telemetry_install_id document with
  | true, Some id => bool_decide (uuid_canonical id = Some id)
  | _, None => true
  | false, Some _ => false
  end.

Definition document_validate (self : Document) : result SettingsError unit :=
  map_err (λ _, SettingsCorrupt) (config_validate (doc_config self)) ;;
  err_if ((MAX_REVISION <? cfg_revision (doc_config self)) || (MAX_REVISION <? doc_interface_revision self) ||
          existsb (λ '(key, _), negb (known_flag key)) (map_to_list (doc_feature_overrides self))) SettingsCorrupt ;;
  map_err (λ _, SettingsCorrupt)
    match doc_interface self with Some preferences => interface_validate preferences | None => Ok tt end ;;
  err_if (negb (identity_matches self)) SettingsCorrupt.

Definition encode (document : Document) : result SettingsError string :=
  value ← ok_or SettingsUnavailable (document_to_string document);
  err_if (MAX_STORED_DOCUMENT_BYTES <? str_len value) SettingsUnavailable ;;
  Ok value.

Definition read_document (call : SettingsCall) (tables : Tables O) : result SettingsError (option Document) :=
  match select_error call with
  | Some e => Err (SettingsStorage e)
  | None =>
      match settings_row tables with
      | None => Ok None
      | Some row =>
          err_if ((row_revision row <? 0) || (MAX_STORED_DOCUMENT_BYTES <? str_len (row_document row)))
            SettingsCorrupt ;;
          document ← ok_or SettingsCorrupt (document_from_str (row_document row));
          err_if (negb (cfg_revision (doc_config document) =? row_revision row)) SettingsCorrupt ;;
          document_validate document ;;
          Ok (Some document)
      end
  end.

Definition required_document (call : SettingsCall) (tables : Tables O) : result SettingsError Document :=
  document ← read_document call tables; ok_or SettingsCorrupt document.

(** [UPDATE settings_config SET .. WHERE singleton = 1 AND revision = expected]
    and its count of changed rows. *)
Definition update_row (call : SettingsCall) (tables : Tables O) (expected : option Z) (row : SettingsRow → SettingsRow) :
    result SettingsError (Tables O) :=
  match update_error call with
  | Some e => Err (SettingsStorage e)
  | None =>
      match settings_row tables with
      | Some old =>
          err_if (negb (is_none_or expected (λ revision, row_revision old =? revision))) SettingsConflict ;;
          Ok {| settings_row := Some (row old); owner_tables := owner_tables tables |}
      | None => Err SettingsConflict
      end
  end.

Definition write_updated_document (call : SettingsCall) (tables : Tables O) (document : Document)
    (expected_revision : Z) : result SettingsError (Document * Tables O) :=
  revision ← next_revision expected_revision;
  let document := set_config document (with_revision (doc_config document) revision) in
  document_validate document ;;
  encoded ← encode document;
  tables ← update_row call tables (Some expected_revision)
    (λ _, {| row_revision := revision; row_document := encoded |});
  Ok (document, tables).

(** A callback that fails leaves its tables to the rollback. *)
Definition as_callback {A} (body : Tables O → result SettingsError (A * Tables O)) (tables : Tables O) :
    result SettingsError A * Tables O :=
  match body tables with Ok (value, tables) => (Ok value, tables) | Err e => (Err e, tables) end.

Definition with_metadata (store : SettingsStore O) (m : MetadataStore (Tables O)) : SettingsStore O := {|
  metadata_store := m; published := published store; changes_poisoned := changes_poisoned store;
  telemetry_identity_enabled := telemetry_identity_enabled store |}.

(** [changes.send_replace(..)]. *)
Definition publish_config (store : SettingsStore O) (config : ConfigView) : SettingsStore O := {|
  metadata_store := metadata_store store; published := config; changes_poisoned := changes_poisoned store;
  telemetry_identity_enabled := telemetry_identity_enabled store |}.

(** The transaction of [mutate]. *)
Definition mutate_body (call : SettingsCall) (expected_revision : Z)
    (apply : Tables O → Document → result SettingsError (Document * Tables O)) (tables : Tables O) :
    result SettingsError (Document * Tables O) :=
  document ← required_document call tables;
  err_if (negb (cfg_revision (doc_config document) =? expected_revision)) SettingsConflict ;;
  '(document, tables) ← apply tables document;
  write_updated_document call tables document expected_revision.

Definition mutate (call : SettingsCall) (expected_revision : Z)
    (apply : Tables O → Document → result SettingsError (Document * Tables O)) (store : SettingsStore O) :
    result SettingsError Document * SettingsStore O :=
  if changes_poisoned store then (Err SettingsUnavailable, store)
  else
    let '(r, m) := transaction SettingsStorage (sqlite call)
      (as_callback (mutate_body call expected_revision apply)) (metadata_store store) in
    let store := with_metadata store m in
    match r with
    | Ok document => (Ok document, publish_config store (doc_config document))
    | Err e => (Err e, store)
    end.

(** What the telemetry consent makes of the identity. *)
Definition settle_identity (enabled : bool) (fresh : string) (document : Document) : Document :=
  if cfg_telemetry_enabled (doc_config document) && enabled then
    set_identity document (Some (match doc_telemetry_install_id document with Some id => id | None => fresh end))
  else if negb (cfg_telemetry_enabled (doc_config document)) then set_identity document None
  else document.

(** The edit of [commit_with_transaction]. *)
Definition commit_edit (enabled : bool) (fresh : string) (patch : ConfigPatch)
    (owner_update : O → ConfigView → result SettingsError (ConfigView * O)) (tables : Tables O)
    (document : Document) : result SettingsError (Document * Tables O) :=
  config ← config_apply patch (doc_config document);
  '(config, owners) ← owner_update (owner_tables tables) config;
  config_validate config ;;
  Ok (settle_identity enabled fresh (set_config document config),
      {| settings_row := settings_row tables; owner_tables := owners |}).

Definition commit_with_transaction (call : SettingsCall) (fresh : string) (patch : ConfigPatch)
    (owner_update : O → ConfigView → result SettingsError (ConfigView * O)) (store : SettingsStore O) :
    result SettingsError (ConfigView * option string) * SettingsStore O :=
  let '(r, store) := mutate call (patch_expected_revision patch)
    (commit_edit (telemetry_identity_enabled store) fresh patch owner_update) store in
  (document ← r; Ok (doc_config document, doc_telemetry_install_id document), store).

Definition update_with_transaction (call : SettingsCall) (fresh : string) (patch : ConfigPatch)
    (owner_update : O → ConfigView → result SettingsError (ConfigView * O)) (store : SettingsStore O) :
    result SettingsError ConfigView * SettingsStore O :=
  let '(r, store) := commit_with_transaction call fresh patch owner_update store in
  (commit ← r; Ok commit.1, store).

Definition update (call : SettingsCall) (fresh : string) (patch : ConfigPatch) (store : SettingsStore O) :
    result SettingsError ConfigView * SettingsStore O :=
  update_with_transaction call fresh patch (λ owners config, Ok (config, owners)) store.

Definition flag_edit (key : string) (enabled : option bool) (tables : Tables O) (document : Document) :
    result SettingsError (Document * Tables O) :=
  Ok (set_overrides document (partial_alter (λ _, enabled) key (doc_feature_overrides document)), tables).

Definition update_flag_for_build (call : SettingsCall) (key : string) (expected_revision : Z)
    (enabled : option bool) (development_build : bool) (store : SettingsStore O) :
    result SettingsError Document * SettingsStore O :=
  if negb (flag_visible key development_build) then (Err UnknownFlag, store)
  else mutate call expected_revision (flag_edit key enabled) store.

(** The transaction of [update_interface_preferences]. *)
Definition interface_body (call : SettingsCall) (change : InterfacePreferencesUpdate) (tables : Tables O) :
    result SettingsError (Z * Tables O) :=
  document ← required_document call tables;
  err_if (negb (doc_interface_revision document =? update_expected_revision change)) SettingsConflict ;;
  value ← apply_change (update_change change) (doc_interface document);
  match value with Some value => interface_validate value | None => Ok tt end ;;
  revision ← next_revision (update_expected_revision change);
  encoded ← encode (set_interface document revision value);
  tables ← update_row call tables None (λ row, {| row_revision := row_revision row; row_document := encoded |});
  Ok (revision, tables).

Definition update_interface_preferences (call : SettingsCall) (change : InterfacePreferencesUpdate)
    (store : SettingsStore O) : result SettingsError Z * SettingsStore O :=
  match
    refuse_if (MAX_REVISION <? update_expected_revision change) ;;
    validate_change (update_change change)
  with
  | Err e => (Err e, store)
  | Ok _ =>
      let '(r, m) := transaction SettingsStorage (sqlite call)
        (as_callback (interface_body call change)) (metadata_store store) in
      (r, with_metadata store m)
  end.

(** Read one part of the document. *)
Definition read_part {A} (part : Tables O → Document → result SettingsError A) (call : SettingsCall)
    (store : SettingsStore O) : result SettingsError A * SettingsStore O :=
  let '(r, m) := read_callback SettingsStorage (sqlite call)
    (λ tables, document ← required_document call tables; part tables document) (metadata_store store) in
  (r, with_metadata store m).

Definition current : SettingsCall → SettingsStore O → result SettingsError ConfigView * SettingsStore O :=
  read_part (λ _ document, Ok (doc_config document)).

Definition telemetry_identity : SettingsCall → SettingsStore O →
    result SettingsError (option string) * SettingsStore O :=
  read_part (λ _ document, Ok (doc_telemetry_install_id document)).

Definition interface_preferences : SettingsCall → SettingsStore O →
    result SettingsError (Z * option InterfacePreferences) * SettingsStore O :=
  read_part (λ _ document, Ok (doc_interface_revision document, doc_interface document)).

Definition current_with_projection (project : O → ConfigView → result SettingsError ConfigView) :
    SettingsCall → SettingsStore O → result SettingsError ConfigView * SettingsStore O :=
  read_part (λ tables document,
    config ← project (owner_tables tables) (doc_config document);
    config_validate config ;;
    Ok config).

Definition validate_revision (call : SettingsCall) (revision : Z) (store : SettingsStore O) :
    result SettingsError unit * SettingsStore O :=
  let '(r, store) := current call store in
  (config ← r; err_if (negb (cfg_revision config =? revision)) SettingsConflict, store).

(** The receiver starts with the preferences just read. *)
Definition subscribe (call : SettingsCall) (store : SettingsStore O) : result SettingsError ConfigView * SettingsStore O :=
  if changes_poisoned store then (Err SettingsUnavailable, store)
  else match current call store with
       | (Ok config, store) => (Ok config, publish_config store config)
       | (Err e, store) => (Err e, store)
       end.

(** The transaction of the constructor, after its migration. *)
Definition open_body (call : SettingsCall) (exporter_configured : bool) (fresh : string) (tables : Tables O) :
    result SettingsError (ConfigView * Tables O) :=
  document ← read_document call tables;
  match document with
  | Some document =>
      if exporter_configured && cfg_telemetry_enabled (doc_config document) &&
         is_none (doc_telemetry_install_id document) then
        revision ← next_revision (cfg_revision (doc_config document));
        let document :=
          set_config (set_identity document (Some fresh)) (with_revision (doc_config document) revision) in
        encoded ← encode document;
        tables ← update_row call tables None (λ _, {| row_revision := revision; row_document := encoded |});
        Ok (doc_config document, tables)
      else Ok (doc_config document, tables)
  | None =>
      encoded ← encode default_document;
      match update_error call with
      | Some e => Err (SettingsStorage e)
      | None => Ok (default_config, {| settings_row := Some {| row_revision := 0; row_document := encoded |};
                                       owner_tables := owner_tables tables |})
      end
  end.

Definition new_with_telemetry_identity (call : SettingsCall) (exporter_configured : bool) (fresh : string)
    (m : MetadataStore (Tables O)) : result SettingsError (SettingsStore O) * MetadataStore (Tables O) :=
  let '(r, m) := transaction SettingsStorage (sqlite call)
    (as_callback (open_body call exporter_configured fresh)) m in
  (config ← r;
   Ok {| metadata_store := m; published := config; changes_poisoned := false;
         telemetry_identity_enabled := exporter_configured |}, m).
End store.
