(* ===== verification/SettingsProps.v ===== *)
(** * What the settings store promises

    Every mutation is a compare-and-set on the revision: it is applied to the
    document of that revision, stored under the next one and published, or
    nothing changes.  Over any interleaving of the store's operations the
    stored document stays valid, the published preferences are the stored
    ones, and one revision stands for one state of the preferences. *)

From S2P Require Import Prelude RustStr SettingsModel InterfacePreferences Storage SettingsStore.

(** Encoding is faithful on documents that pass validation: serde_json's
    documented round trip, with [float_roundtrip]. *)
Class SettingsJsonLaws `{PreferencesJson, SettingsJson, UuidParser} : Prop :=
  document_roundtrip d s : document_validate d = Ok tt → document_to_string d = Some s → document_from_str s = Some d.

Section props.
Context `{SettingsJsonLaws} {O : Type}.
Implicit Types (store : SettingsStore O) (t : Tables O).

(** The document the row stands for. *)
Definition holds t (d : Document) : Prop :=
  ∃ row, settings_row t = Some row ∧ 0 ≤ row_revision row ∧
    str_len (row_document row) ≤ MAX_STORED_DOCUMENT_BYTES ∧ document_from_str (row_document row) = Some d ∧
    cfg_revision (doc_config d) = row_revision row ∧ document_validate d = Ok tt.

Lemma holds_inj t d d' : holds t d → holds t d' → d = d'.
Proof. intros (row & E & _ & _ & F & _) (row' & E' & _ & _ & F' & _). congruence. Qed.

Lemma read_document_ok call t o :
  read_document call t = Ok o → match o with Some d => holds t d | None => settings_row t = None end.
Proof.
  unfold read_document. destruct (select_error call); [done|]. destruct (settings_row t) as [row|] eqn:E.
  - intros Hr. ok_inv. exists row. split_and!; try done; lia.
  - by intros [= <-].
Qed.

Lemma required_document_ok call t d : required_document call t = Ok d → holds t d.
Proof. unfold required_document. intros Hr. ok_inv. subst. by apply (read_document_ok call t (Some d)). Qed.

Lemma next_revision_ok revision next :
  next_revision revision = Ok next → next = revision + 1 ∧ next ≤ MAX_REVISION.
Proof.
  unfold next_revision, checked_add_u64. intros Hn. ok_inv. apply bind_Some in Hn as (n & Hn & Hm).
  destruct (_ <=? u64_max); [|done]. injection Hn as <-. destruct (_ <=? MAX_REVISION) eqn:E; [|done].
  injection Hm as <-. lia.
Qed.

Lemma encode_ok d s : encode d = Ok s → document_to_string d = Some s ∧ str_len s ≤ MAX_STORED_DOCUMENT_BYTES.
Proof. unfold encode. intros He. ok_inv. split; [done|lia]. Qed.

Lemma update_row_ok call t expected f t' :
  update_row call t expected f = Ok t' →
  ∃ old, settings_row t = Some old ∧ settings_row t' = Some (f old) ∧ owner_tables t' = owner_tables t.
Proof.
  unfold update_row. destruct (update_error call); [done|]. destruct (settings_row t) as [old|]; [|done].
  intros Hu. ok_inv. by exists old.
Qed.

Lemma write_updated_ok call t d expected d' t' :
  write_updated_document call t d expected = Ok (d', t') → 0 ≤ expected →
  d' = set_config d (with_revision (doc_config d) (expected + 1)) ∧ holds t' d' ∧ owner_tables t' = owner_tables t.
Proof.
  unfold write_updated_document. intros Hw Hpos. ok_inv. subst.
  rename select (next_revision _ = _) into Hn. apply next_revision_ok in Hn as [-> _].
  rename select (encode _ = _) into He. apply encode_ok in He as [Hs Hlen].
  rename select (update_row _ _ _ _ = _) into Hu. apply update_row_ok in Hu as (old & _ & Hrow & Ho).
  split; [done|]. split; [|done]. eexists. split; [exact Hrow|]. cbn [row_revision row_document].
  split_and!; [lia|done|by apply document_roundtrip|done|done].
Qed.

Lemma as_callback_ok {A} (body : Tables O → result SettingsError (A * Tables O)) t value t' :
  as_callback body t = (Ok value, t') → body t = Ok (value, t').
Proof. unfold as_callback. destruct (body t) as [[v t1]|e]; naive_solver. Qed.

(** C30: A mutation under an expected revision: it succeeds on the document of
    that revision only, which the edit and the next revision replace in the
    same transaction as the tables of other owners, and what is published is
    what was committed.  When it fails, the tables and what is published stay
    as they were. *)
Theorem mutate_compare_and_set call expected apply store r store' :
  settles (sqlite call) → mutate call expected apply store = (r, store') →
  match r with
  | Ok d' =>
      ∃ d edited tables, holds (database (metadata_store store)) d ∧ cfg_revision (doc_config d) = expected ∧
        apply (database (metadata_store store)) d = Ok (edited, tables) ∧
        d' = set_config edited (with_revision (doc_config edited) (expected + 1)) ∧
        holds (database (metadata_store store')) d' ∧
        owner_tables (database (metadata_store store')) = owner_tables tables ∧
        published store' = doc_config d'
  | Err _ => database (metadata_store store') = database (metadata_store store) ∧ published store' = published store
  end.
Proof.
  intros Hs. unfold mutate. destruct (changes_poisoned store); [by intros [= <- <-]|].
  destruct (transaction _ _ _ _) as [r1 m] eqn:Et. apply transaction_cases in Et; [|done].
  destruct Et as [d' changed m Hw _ _ ->|e m Hd _ _ _]; intros [= <- <-]; [|by split].
  apply as_callback_ok in Hw. unfold mutate_body in Hw. ok_inv.
  rename select (required_document _ _ = _) into Hr. apply required_document_ok in Hr.
  match goal with E : _ (database (metadata_store store)) _ = Ok ?p |- _ => destruct p as [edited tables] end.
  rename select (write_updated_document _ _ _ _ = _) into Hwr.
  pose proof Hr as (row & _ & Hpos & _ & _ & Erow & _).
  apply write_updated_ok in Hwr as (E & Hh & Ho); [|lia]. simpl.
  eexists _, edited, tables. split_and!; [exact Hr|lia|done|done|done|done|done].
Qed.

(** ** Histories *)

Definition edit : Type := Tables O → Document → result SettingsError (Document * Tables O).

(** What one operation of the store, or of an owner of other tables, does. *)
Inductive settings_step store store' : Prop :=
| StepCommit call fresh patch owner_update r :
    settles (sqlite call) → commit_with_transaction call fresh patch owner_update store = (r, store') →
    settings_step store store'
| StepFlag call key expected enabled development_build r :
    settles (sqlite call) → update_flag_for_build call key expected enabled development_build store = (r, store') →
    settings_step store store'
| StepInterface call change r :
    settles (sqlite call) → update_interface_preferences call change store = (r, store') →
    settings_step store store'
| StepRead {A} (part : Tables O → Document → result SettingsError A) call r :
    read_part part call store = (r, store') → settings_step store store'
| StepSubscribe call r : subscribe call store = (r, store') → settings_step store store'
| StepOwner tables :
    settings_row tables = settings_row (database (metadata_store store)) →
    store' = with_metadata store (with_database (metadata_store store) tables) → settings_step store store'
| StepInterrupt :
    store' = with_metadata store (interrupt (metadata_store store)) → settings_step store store'.

(** The later document of two: revisions only grow, and a revision that did
    not grow belongs to the same contents. *)
Record follows (d d' : Document) : Prop := {
  fo_revision : cfg_revision (doc_config d) ≤ cfg_revision (doc_config d');
  fo_same : cfg_revision (doc_config d) = cfg_revision (doc_config d') →
    doc_config d' = doc_config d ∧ doc_feature_overrides d' = doc_feature_overrides d ∧
    doc_telemetry_install_id d' = doc_telemetry_install_id d;
  fo_interface : doc_interface_revision d ≤ doc_interface_revision d';
  fo_interface_same : doc_interface_revision d = doc_interface_revision d' → doc_interface d' = doc_interface d;
}.

#[local] Instance follows_preorder : PreOrder follows.
Proof.
  split.
  - intros d. split; (done || lia).
  - intros d1 d2 d3 [A1 A2 A3 A4] [B1 B2 B3 B4]. split; [lia| |lia|].
    + intros E. destruct (B2 ltac:(lia)) as (-> & -> & ->). apply A2. lia.
    + intros E. rewrite B4 by lia. apply A4. lia.
Qed.

(** The store holds a valid document, whose preferences are published. *)
Definition coherent store (d : Document) : Prop :=
  holds (database (metadata_store store)) d ∧ published store = doc_config d.

(** Edits of the preferences leave the interface's part alone. *)
Definition keeps_interface (apply : edit) : Prop :=
  ∀ t d d' t', apply t d = Ok (d', t') →
    doc_interface_revision d' = doc_interface_revision d ∧ doc_interface d' = doc_interface d.

Lemma commit_edit_keeps enabled fresh patch owner_update : keeps_interface (commit_edit enabled fresh patch owner_update).
Proof.
  intros t d d' t' Hc. unfold commit_edit in Hc. ok_inv. destruct x0 as [config owners]. ok_inv.
  unfold settle_identity. destruct (_ && _); [done|]. by destruct (negb _).
Qed.

Lemma mutate_coherent call expected apply store r store' d :
  keeps_interface apply → settles (sqlite call) → coherent store d →
  mutate call expected apply store = (r, store') → ∃ d', coherent store' d' ∧ follows d d'.
Proof.
  intros Hk Hs [Hh Hp] Hm. apply mutate_compare_and_set in Hm; [|done]. destruct r as [d'|e].
  - destruct Hm as (d0 & edited & tables & Hd & Hrev & Ha & -> & Hh' & _ & Hp').
    rewrite (holds_inj _ _ _ Hd Hh) in *. apply Hk in Ha as [Hi1 Hi2].
    eexists. split; [by split|]. split; simpl; (lia || congruence).
  - destruct Hm as [Hd Hp']. exists d. split; [|done]. by split; congruence.
Qed.

Lemma document_validate_interface d revision value :
  document_validate d = Ok tt → revision ≤ MAX_REVISION →
  match value with Some value => interface_validate value | None => Ok tt end = Ok tt →
  document_validate (set_interface d revision value) = Ok tt.
Proof.
  unfold document_validate. rewrite !bind_ok_unit. intros (Hc & He & _ & Hi) Hr Hv. split_and!; [done| | |done].
  - apply err_if_ok in He. apply err_if_ok. simpl. apply orb_false_iff in He as [He1 He2].
    apply orb_false_iff in He1 as [He1 _]. rewrite He1, He2, orb_false_r. simpl. lia.
  - simpl. by rewrite Hv.
Qed.

Lemma interface_coherent call change store r store' d :
  settles (sqlite call) → coherent store d → update_interface_preferences call change store = (r, store') →
  ∃ d', coherent store' d' ∧ follows d d'.
Proof.
  intros Hs [Hh Hp]. unfold update_interface_preferences.
  destruct (_ ;; _) as [[]|e]; [|intros [= <- <-]; by exists d].
  destruct (transaction _ _ _ _) as [r1 m] eqn:Et. apply transaction_cases in Et; [|done].
  destruct Et as [revision changed m Hw _ _ ->|e m Hd _ _ _]; intros [= <- <-].
  2: { exists d. split; [|done]. split; [simpl; by rewrite Hd|done]. }
  apply as_callback_ok in Hw. unfold interface_body in Hw. ok_inv. subst.
  rename select (required_document _ _ = _) into Hr. apply required_document_ok in Hr.
  rewrite (holds_inj _ _ _ Hr Hh) in *. clear Hr.
  rename select (next_revision _ = _) into Hn. apply next_revision_ok in Hn as [-> Hmax].
  rename select (encode _ = _) into He. apply encode_ok in He as [Henc Hlen].
  rename select (update_row _ _ _ _ = _) into Hu. apply update_row_ok in Hu as (old & Hold & Hrow & _).
  destruct Hh as (row & Erow & Hpos & _ & _ & Hrev & Hv). rewrite Erow in Hold. injection Hold as <-.
  match type of Henc with document_to_string ?d' = _ => exists d' end. split; [split; [|exact Hp]|].
  - eexists. split; [exact Hrow|]. cbn [row_revision row_document].
    assert (document_validate (set_interface d (update_expected_revision change + 1) x0) = Ok tt) as Hv'
      by (by apply document_validate_interface).
    split_and!; [done|done|by apply document_roundtrip|done|done].
  - split; simpl; try done; try lia.
Qed.

Lemma read_part_coherent {A} (part : Tables O → Document → result SettingsError A) call store r store' d :
  read_part part call store = (r, store') → coherent store d → coherent store' d.
Proof.
  unfold read_part. destruct (read_callback _ _ _ _) as [r1 m] eqn:Er. intros [= <- <-] [Hh Hp].
  apply read_keeps in Er as (Hd & _). split; [simpl; by rewrite Hd|done].
Qed.

Lemma current_ok call store config store' d :
  current call store = (Ok config, store') → coherent store d → config = doc_config d.
Proof.
  unfold current, read_part. destruct (read_callback _ _ _ _) as [r1 m] eqn:Er. intros [= -> <-] [Hh _].
  apply read_keeps in Er as (_ & _ & Hr). specialize (Hr _ eq_refl). ok_inv. subst.
  rename select (required_document _ _ = _) into Hq. apply required_document_ok in Hq.
  by rewrite (holds_inj _ _ _ Hq Hh).
Qed.

Lemma step_coherent store store' d :
  settings_step store store' → coherent store d → ∃ d', coherent store' d' ∧ follows d d'.
Proof.
  intros Hstep Hc.
  destruct Hstep as [call fresh patch owner_update r Hs E|call key expected enabled build r Hs E|call change r Hs E
    |A part call r E|call r E|tables Et ->| ->].
  - unfold commit_with_transaction in E. destruct (mutate _ _ _ _) as [r1 s1] eqn:Em. injection E as <- <-.
    eapply mutate_coherent; eauto using commit_edit_keeps.
  - unfold update_flag_for_build in E. destruct (negb _); [injection E as <- <-; by exists d|].
    eapply mutate_coherent; [|done|done|done]. by intros t d0 d' t' [= <- <-].
  - by eapply interface_coherent.
  - exists d. split; [by eapply read_part_coherent|done].
  - exists d. split; [|done]. unfold subscribe in E. destruct (changes_poisoned store); [by injection E as <- <-|].
    destruct (current call store) as [[config|e] s1] eqn:Ec; injection E as <- <-.
    + pose proof (current_ok _ _ _ _ _ Ec Hc) as ->. apply read_part_coherent with (d := d) in Ec as [Hh _]; [|done].
      by split.
    + by eapply read_part_coherent.
  - exists d. split; [|done]. destruct Hc as [(row & Hr & Hrest) Hp]. split; [|done]. exists row. simpl. by rewrite Et.
  - exists d. split; [|done]. exact Hc.
Qed.

(** C29: However the operations of the store and of the other owners of its
    database are interleaved, failures and interrupted calls included, the
    stored document stays valid and its preferences are the published ones;
    its revisions only grow, and as long as a revision stands, so does what
    it was the revision of. *)
Theorem settings_history store store' d :
  rtc settings_step store store' → coherent store d →
  ∃ d', coherent store' d' ∧ follows d d'.
Proof.
  intros Hs. revert d. induction Hs as [store|store store1 store' Hstep _ IH]; intros d Hc; [by exists d|].
  destruct (step_coherent _ _ _ Hstep Hc) as (d1 & Hc1 & Hf). destruct (IH d1 Hc1) as (d' & Hc' & Hf').
  exists d'. split; [done|]. by etrans.
Qed.

(** Opening the store puts it in such a state, with the default preferences
    in a new profile. *)
Lemma new_coherent call exporter fresh m store m' :
  settles (sqlite call) → uuid_canonical fresh = Some fresh →
  new_with_telemetry_identity call exporter fresh m = (Ok store, m') → ∃ d, coherent store d.
Proof.
  intros Hs Hfresh. unfold new_with_telemetry_identity.
  destruct (transaction _ _ _ _) as [r m1] eqn:Et. apply transaction_cases in Et; [|done].
  destruct Et as [config changed m1 Hw _ _ ->|e m1 _ _ _ _]; [|done]. intros [= <- <-].
  apply as_callback_ok in Hw. unfold open_body in Hw. ok_inv. rename select (read_document _ _ = _) into Hr.
  apply read_document_ok in Hr. destruct x as [d|].
  - destruct (_ && _ && _) eqn:Eneed; ok_inv; [|by exists d].
    rename select (next_revision _ = _) into Hn. apply next_revision_ok in Hn as [-> Hmax].
    rename select (encode _ = _) into He. apply encode_ok in He as [Henc Hlen].
    rename select (update_row _ _ _ _ = _) into Hu. apply update_row_ok in Hu as (old & _ & Hrow & _).
    destruct Hr as (row & _ & Hpos & _ & _ & Hrev & Hv).
    assert (document_validate (set_config (set_identity d (Some fresh))
      (with_revision (doc_config d) (cfg_revision (doc_config d) + 1))) = Ok tt) as Hv'.
    { unfold document_validate in *. rewrite !bind_ok_unit in *. destruct Hv as (Hc & Hb & Hi & _).
      split_and!; [exact Hc| |exact Hi|].
      - apply err_if_ok in Hb. apply err_if_ok. simpl in *. apply orb_false_iff in Hb as [Hb1 Hb2].
        apply orb_false_iff in Hb1 as [_ Hb1]. rewrite Hb1, Hb2, !orb_false_r. lia.
      - apply err_if_ok. unfold identity_matches. simpl. rename select (cfg_telemetry_enabled _ = true) into Htel.
        by rewrite Htel, bool_decide_true. }
    eexists (set_config _ _). split; [|reflexivity]. eexists. split; [exact Hrow|]. cbn [row_revision row_document].
    split_and!; [lia|done|by apply document_roundtrip|done|done].
  - ok_inv. rename select (encode _ = _) into He. apply encode_ok in He as [Henc Hlen].
    destruct (update_error call); [done|]. ok_inv.
    assert (document_validate default_document = Ok tt) as Hv by (vm_compute; reflexivity).
    exists default_document. split; [|done]. eexists. split; [reflexivity|]. cbn [row_revision row_document].
    split_and!; [lia|done|by apply document_roundtrip|done|done].
Qed.
End props.

Module SettingsDemo.
#[local] Instance demo_preferences_json : PreferencesJson :=
  {| local_writes := λ _, [100]; interface_writes := λ _, [150] |}.
#[local] Instance demo_uuid : UuidParser := λ id, if str_len id =? 36 then Some id else None.

Definition no_patch (revision : Z) (theme : ConfigTheme) : ConfigPatch := {|
  patch_expected_revision := revision; patch_expected_account_selection_revision := None;
  patch_username := None; patch_launch_auth_mode := None; patch_max_memory_mb := None;
  patch_min_memory_mb := None; patch_java_path_override := None; patch_window_width := None;
  patch_window_height := None; patch_onboarding_done := None; patch_jvm_preset := None;
  patch_performance_mode := None; patch_theme := Some theme; patch_custom_hue := Unchanged;
  patch_custom_vibrancy := Unchanged; patch_lightness := Unchanged; patch_telemetry_enabled := None;
  patch_discord_rpc_enabled := None; patch_discord_rpc_onboarding_seen := None;
  patch_music_enabled := Unchanged; patch_music_volume := Unchanged; patch_music_track := None |}.

Definition nether_document : Document :=
  match config_apply (no_patch 0 ThemeNether) default_config with
  | Ok config => set_config default_document (with_revision config 1)
  | Err _ => default_document
  end.

(** Two documents and their texts. *)
#[local] Instance demo_settings_json : SettingsJson := {|
  document_to_string := λ d,
    if bool_decide (d = default_document) then Some "{default}"
    else if bool_decide (d = nether_document) then Some "{nether}" else None;
  document_from_str := λ s,
    if str_eqb s "{default}" then Some default_document
    else if str_eqb s "{nether}" then Some nether_document else None |}.

#[local] Instance demo_json_laws : SettingsJsonLaws.
Proof.
  intros d s _. simpl. case_bool_decide as E; [intros [= <-]; by rewrite E|].
  case_bool_decide as E'; [intros [= <-]; by rewrite E'|done].
Qed.

Definition demo_call : SettingsCall := {| sqlite := quiet_call; select_error := None; update_error := None |}.

Definition demo_store (document : string) (revision : Z) (config : ConfigView) : SettingsStore unit := {|
  metadata_store := {| database := {| settings_row := Some {| row_revision := revision; row_document := document |};
                                      owner_tables := tt |};
                       mutation_closed := false; poisoned := false |};
  published := config; changes_poisoned := false; telemetry_identity_enabled := true |}.

Definition before := demo_store "{default}" 0 default_config.
Definition after := demo_store "{nether}" 1 (doc_config nether_document).

Lemma demo_coherent : coherent before default_document.
Proof.
  split; [|reflexivity]. exists {| row_revision := 0; row_document := "{default}" |}.
  split_and!; [reflexivity|vm_compute; discriminate|vm_compute; discriminate|reflexivity|reflexivity|vm_compute; reflexivity].
Qed.

Lemma demo_mutate :
  mutate demo_call 0 (commit_edit true "" (no_patch 0 ThemeNether) (λ owners config, Ok (config, owners))) before =
  (Ok nether_document, after).
Proof. vm_compute. reflexivity. Qed.

(** The revision has moved on: the same patch is refused. *)
Example demo_stale_patch_refused :
  update demo_call "" (no_patch 0 ThemeNether) after = (Err SettingsConflict, after).
Proof. vm_compute. reflexivity. Qed.

Lemma mutate_compare_and_set_witness :
  published after = doc_config nether_document ∧ holds (database (metadata_store after)) nether_document.
Proof.
  destruct (mutate_compare_and_set demo_call 0 _ before (Ok nether_document) after eq_refl demo_mutate)
    as (d & edited & tables & _ & _ & _ & _ & Hh & _ & Hp).
  split; [exact Hp|exact Hh].
Defined.

Lemma demo_step : settings_step before after.
Proof.
  apply (StepCommit before after demo_call "" (no_patch 0 ThemeNether) (λ owners config, Ok (config, owners))
    (Ok (doc_config nether_document, None))); [reflexivity|vm_compute; reflexivity].
Qed.

Lemma settings_history_witness :
  ∃ d, coherent after d ∧ follows default_document d ∧ cfg_revision (doc_config d) = 1.
Proof.
  destruct (settings_history before after default_document (rtc_once _ _ demo_step) demo_coherent) as (d & Hc & Hf).
  exists d. split; [exact Hc|]. split; [exact Hf|]. destruct Hc as [_ Hp]. rewrite <-Hp. vm_compute. reflexivity.
Defined.
End SettingsDemo.
