(* ===== verification/InstanceModel.v ===== *)
(** * Instance metadata ([core/app/src/instances/model.rs, duplicate.rs])

    The records of instances, the patches that edit them, and the choice of a
    name for a copy.  A patch works on a borrowed instance and may fail after
    it has assigned some fields: it returns what the borrow was left with. *)

From S2P Require Import Prelude RustStr SettingsModel.

(** The newtype [InstanceId(String)]. *)
Definition InstanceId : Type := string.

Inductive JavaSelection := Inherited | JavaComponent (component : string) | CustomJava.
#[global] Instance JavaSelection_eq_dec : EqDecision JavaSelection.
Proof. solve_decision. Defined.

Record InstanceData := {
  instance_id : InstanceId;
  instance_name : string;
  instance_version_id : string;
  instance_created_at : string;
  instance_last_played_at : string;
  instance_art_seed : Z;
  instance_settings : InstanceSettings;
  instance_java_selection : option JavaSelection;
  instance_icon : string;
  instance_accent : string;
  instance_loader_key : string;
  instance_minecraft_version : string;
  instance_revision : Z;
}.

#[global] Instance InstanceData_eq_dec : EqDecision InstanceData.
Proof. solve_decision. Defined.

Inductive InstanceLifecycle := Reserved | Live | Deleting.
#[global] Instance InstanceLifecycle_eq_dec : EqDecision InstanceLifecycle.
Proof. solve_decision. Defined.

Definition lifecycle_as_str (self : InstanceLifecycle) : string :=
  match self with Reserved => "reserved" | Live => "live" | Deleting => "deleting" end.

Record InstanceRecord := {
  record_instance : InstanceData;
  record_revision : Z;
  record_lifecycle : InstanceLifecycle;
  record_library_id : string;
  record_directory_name : string;
  record_directory_receipt : option string;
}.

#[global] Instance InstanceRecord_eq_dec : EqDecision InstanceRecord.
Proof. solve_decision. Defined.

Record InstancePatch := {
  ip_expected_revision : option Z;
  ip_name : option string;
  ip_version_id : option string;
  ip_art_seed : option Z;
  ip_max_memory_mb : option Z;
  ip_min_memory_mb : option Z;
  ip_java_path : option string;
  ip_window_width : option Z;
  ip_window_height : option Z;
  ip_jvm_preset : option string;
  ip_performance_mode : option string;
  ip_extra_jvm_args : option string;
  ip_auto_optimize : option bool;
  ip_icon : option string;
  ip_accent : option string;
}.

Inductive InstanceError :=
| InvalidId | InvalidName | InvalidInput | InvalidSettings | NotFound | Conflict | NameConflict
| InstanceBusy | LibraryUnavailable | DirectoryUnavailable | SettlementRequired | InstanceClosed
| InstanceCancelled | VersionUnavailable | InstalledVersionsDegraded | ManagedDuplicateUnavailable
| SetupUnavailable | InstanceStorage (e : StorageError).

#[global] Instance InstanceError_eq_dec : EqDecision InstanceError.
Proof. solve_decision. Defined.

Definition instance_id_from_str `{UuidParser} (value : string) : result InstanceError InstanceId :=
  parsed ← ok_or InvalidId (uuid_canonical value);
  err_if (str_eqb parsed nil_uuid || negb (str_eqb parsed value)) InvalidId ;;
  Ok value.

Definition validate_name (value : string) : result InstanceError string :=
  let value := trim value in
  err_if (is_empty value || (128 <? chars_count value)%nat || has_control value) InvalidName ;;
  Ok value.

Definition validate_label (value : string) (max_bytes : Z) : result InstanceError unit :=
  err_if ((max_bytes <? str_len value) || has_control value) InvalidInput.

(** ** Patching *)

Definition set_instance_name (i : InstanceData) (name : string) : InstanceData := {|
  instance_id := instance_id i; instance_name := name; instance_version_id := instance_version_id i;
  instance_created_at := instance_created_at i; instance_last_played_at := instance_last_played_at i;
  instance_art_seed := instance_art_seed i; instance_settings := instance_settings i;
  instance_java_selection := instance_java_selection i; instance_icon := instance_icon i;
  instance_accent := instance_accent i; instance_loader_key := instance_loader_key i;
  instance_minecraft_version := instance_minecraft_version i; instance_revision := instance_revision i |}.

Definition set_look (i : InstanceData) (art_seed : Z) (icon accent : string) : InstanceData := {|
  instance_id := instance_id i; instance_name := instance_name i; instance_version_id := instance_version_id i;
  instance_created_at := instance_created_at i; instance_last_played_at := instance_last_played_at i;
  instance_art_seed := art_seed; instance_settings := instance_settings i;
  instance_java_selection := instance_java_selection i; instance_icon := icon;
  instance_accent := accent; instance_loader_key := instance_loader_key i;
  instance_minecraft_version := instance_minecraft_version i; instance_revision := instance_revision i |}.

Definition set_instance_settings (i : InstanceData) (settings : InstanceSettings) : InstanceData := {|
  instance_id := instance_id i; instance_name := instance_name i; instance_version_id := instance_version_id i;
  instance_created_at := instance_created_at i; instance_last_played_at := instance_last_played_at i;
  instance_art_seed := instance_art_seed i; instance_settings := settings;
  instance_java_selection := instance_java_selection i; instance_icon := instance_icon i;
  instance_accent := instance_accent i; instance_loader_key := instance_loader_key i;
  instance_minecraft_version := instance_minecraft_version i; instance_revision := instance_revision i |}.

(** The macro [assign!]. *)
Definition assign (self : InstancePatch) (s : InstanceSettings) : InstanceSettings := {|
  inst_max_memory_mb := set_field (ip_max_memory_mb self) (inst_max_memory_mb s);
  inst_min_memory_mb := set_field (ip_min_memory_mb self) (inst_min_memory_mb s);
  inst_java_path := set_field (ip_java_path self) (inst_java_path s);
  inst_window_width := set_field (ip_window_width self) (inst_window_width s);
  inst_window_height := set_field (ip_window_height self) (inst_window_height s);
  inst_jvm_preset := set_field (ip_jvm_preset self) (inst_jvm_preset s);
  inst_performance_mode := set_field (ip_performance_mode self) (inst_performance_mode s);
  inst_extra_jvm_args := set_field (ip_extra_jvm_args self) (inst_extra_jvm_args s);
  inst_auto_optimize := set_field (ip_auto_optimize self) (inst_auto_optimize s) |}.

(** A step of the body: what is left in the borrow, and whether to go on. *)
Definition patching : Type := InstanceData → result InstanceError unit * InstanceData.

Definition and_then (first second : patching) : patching := λ instance,
  match first instance with
  | (Ok _, instance) => second instance
  | (Err e, instance) => (Err e, instance)
  end.

Definition patch_revision (self : InstancePatch) : patching := λ instance,
  (err_if (negb (is_none_or (ip_expected_revision self) (λ v, v =? instance_revision instance)) ||
           negb (is_none_or (ip_version_id self) (λ v, str_eqb v (instance_version_id instance)))) Conflict,
   instance).

Definition patch_name (self : InstancePatch) : patching := λ instance,
  match ip_name self with
  | None => (Ok tt, instance)
  | Some name =>
      match validate_name name with
      | Ok name => (Ok tt, set_instance_name instance name)
      | Err e => (Err e, instance)
      end
  end.

Definition patch_art_seed (self : InstancePatch) : patching := λ instance,
  (Ok tt, set_look instance (set_field (ip_art_seed self) (instance_art_seed instance))
            (instance_icon instance) (instance_accent instance)).

Definition patch_icon (self : InstancePatch) : patching := λ instance,
  match ip_icon self with
  | None => (Ok tt, instance)
  | Some icon =>
      match validate_label icon 1024 with
      | Ok _ => (Ok tt, set_look instance (instance_art_seed instance) icon (instance_accent instance))
      | Err e => (Err e, instance)
      end
  end.

Definition patch_accent (self : InstancePatch) : patching := λ instance,
  match ip_accent self with
  | None => (Ok tt, instance)
  | Some accent =>
      match validate_label accent 64 with
      | Ok _ => (Ok tt, set_look instance (instance_art_seed instance) (instance_icon instance) accent)
      | Err e => (Err e, instance)
      end
  end.

Definition patch_settings (self : InstancePatch) : patching := λ instance,
  let instance := set_instance_settings instance (assign self (instance_settings instance)) in
  (map_err (λ _, InvalidSettings) (instance_settings_validate (instance_settings instance)), instance).

Definition instance_apply (self : InstancePatch) : patching :=
  and_then (patch_revision self)
    (and_then (patch_name self)
      (and_then (patch_art_seed self)
        (and_then (patch_icon self) (and_then (patch_accent self) (patch_settings self))))).

(** ** The name of a copy ([duplicate.rs]) *)

(** The names tried, from the suffix [index] on. *)
Fixpoint first_free_suffix (occupied : gset string) (base : string) (index : nat) (candidates : nat) : option string :=
  match candidates with
  | O => None
  | S candidates =>
      let name := base +:+ " " +:+ display_nat index in
      if bool_decide (name ∈ occupied) then first_free_suffix occupied base (S index) candidates else Some name
  end.

(** [2..=occupied.len().saturating_add(2)] is [occupied.len() + 1] candidates. *)
Definition choose_duplicate_name (source_name : string) (occupied : list string) (requested : option string) :
    option string :=
  let occupied : gset string := list_to_set occupied in
  match (name ← trim <$> requested; if is_empty name then None else Some name) with
  | Some name => if bool_decide (name ∈ occupied) then None else Some name
  | None =>
      let base := source_name +:+ " copy" in
      if negb (bool_decide (base ∈ occupied)) then Some base
      else first_free_suffix occupied base 2 (S (size occupied))
  end.

(** ** Well-formed instances *)

Definition name_ok (name : string) : Prop :=
  trim name = name ∧ name ≠ "" ∧ (chars_count name ≤ 128)%nat ∧ has_control name = false.

Definition label_ok (label : string) (max_bytes : Z) : Prop := str_len label ≤ max_bytes ∧ has_control label = false.

Record instance_ok (i : InstanceData) : Prop := {
  iok_name : name_ok (instance_name i);
  iok_icon : label_ok (instance_icon i) 1024;
  iok_accent : label_ok (instance_accent i) 64;
  iok_settings : instance_settings_validate (instance_settings i) = Ok tt;
}.

Lemma validate_name_ok value name : validate_name value = Ok name → name = trim value ∧ name_ok name.
Proof.
  unfold validate_name. intros Hv. ok_inv. split; [done|]. split_and!; [apply trim_idemp| |by apply Nat.ltb_ge|done].
  by apply is_empty_false.
Qed.

Lemma validate_name_id name : name_ok name → validate_name name = Ok name.
Proof.
  intros (Ht & Hne & Hl & Hc). unfold validate_name. rewrite Ht, Hc, (proj2 (is_empty_false _) Hne).
  by rewrite (proj2 (Nat.ltb_ge _ _) Hl).
Qed.

Lemma validate_label_ok value max : validate_label value max = Ok tt ↔ label_ok value max.
Proof. unfold validate_label, label_ok. rewrite err_if_ok, orb_false_iff, Z.ltb_ge. done. Qed.

(** Whatever a patch does before it fails, the identity, the version and the
    revision of the instance stay. *)
Lemma and_then_inv (P : InstanceData → InstanceData → Prop) first second i r i' :
  (∀ i1 i2 i3, P i1 i2 → P i2 i3 → P i1 i3) →
  (∀ i r i', first i = (r, i') → P i i') → (∀ i r i', second i = (r, i') → P i i') →
  and_then first second i = (r, i') → P i i'.
Proof.
  intros Htrans H1 H2. unfold and_then. destruct (first i) as [[[]|e] i1] eqn:E1.
  - intros E2. eapply Htrans; [by eapply H1|by eapply H2].
  - intros [= <- <-]. by eapply H1.
Qed.

Lemma and_then_ok first second i i' :
  and_then first second i = (Ok tt, i') ↔ ∃ i1, first i = (Ok tt, i1) ∧ second i1 = (Ok tt, i').
Proof. unfold and_then. destruct (first i) as [[[]|e] i1]; naive_solver. Qed.

Definition same_identity (i i' : InstanceData) : Prop :=
  instance_id i' = instance_id i ∧ instance_version_id i' = instance_version_id i ∧
  instance_created_at i' = instance_created_at i ∧ instance_last_played_at i' = instance_last_played_at i ∧
  instance_loader_key i' = instance_loader_key i ∧ instance_minecraft_version i' = instance_minecraft_version i ∧
  instance_revision i' = instance_revision i ∧ instance_java_selection i' = instance_java_selection i.

Lemma apply_same_identity patch i r i' : instance_apply patch i = (r, i') → same_identity i i'.
Proof.
  assert (∀ i1 i2 i3, same_identity i1 i2 → same_identity i2 i3 → same_identity i1 i3) as Htrans
    by (unfold same_identity; intuition congruence).
  unfold instance_apply. revert i r i'.
  assert (∀ f g : patching, (∀ i r i', f i = (r, i') → same_identity i i') →
    (∀ i r i', g i = (r, i') → same_identity i i') → ∀ i r i', and_then f g i = (r, i') → same_identity i i') as Hseq
    by (intros f g Hf Hg i r i'; by apply and_then_inv).
  repeat apply Hseq; intros i r i';
    [unfold patch_revision|unfold patch_name|unfold patch_art_seed|unfold patch_icon|unfold patch_accent
    |unfold patch_settings]; repeat case_match; intros [= <- <-]; by repeat split.
Qed.

(** What a patch makes of an instance when every check passes. *)
Definition patched (patch : InstancePatch) (i : InstanceData) : InstanceData :=
  set_instance_settings
    (set_look (set_instance_name i (match ip_name patch with Some name => trim name | None => instance_name i end))
       (set_field (ip_art_seed patch) (instance_art_seed i)) (set_field (ip_icon patch) (instance_icon i))
       (set_field (ip_accent patch) (instance_accent i)))
    (assign patch (instance_settings i)).

Record patch_accepted (patch : InstancePatch) (i : InstanceData) : Prop := {
  pa_revision : ∀ v, ip_expected_revision patch = Some v → v = instance_revision i;
  pa_version : ∀ v, ip_version_id patch = Some v → v = instance_version_id i;
  pa_name : ∀ name, ip_name patch = Some name → name_ok (trim name);
  pa_icon : ∀ icon, ip_icon patch = Some icon → label_ok icon 1024;
  pa_accent : ∀ accent, ip_accent patch = Some accent → label_ok accent 64;
  pa_settings : instance_settings_validate (assign patch (instance_settings i)) = Ok tt;
}.

Lemma validate_name_iff value name : validate_name value = Ok name ↔ name = trim value ∧ name_ok (trim value).
Proof.
  split; [by intros [-> ?]%validate_name_ok|]. intros [-> Hn]. pose proof (validate_name_id _ Hn) as E.
  unfold validate_name in *. by rewrite trim_idemp in E.
Qed.

Lemma patch_revision_ok patch i i' :
  patch_revision patch i = (Ok tt, i') ↔
  i' = i ∧ (∀ v, ip_expected_revision patch = Some v → v = instance_revision i) ∧
  (∀ v, ip_version_id patch = Some v → v = instance_version_id i).
Proof.
  unfold patch_revision. rewrite pair_equal_spec, err_if_ok, orb_false_iff, !negb_false_iff.
  destruct (ip_expected_revision patch) as [v|], (ip_version_id patch) as [w|]; simpl;
    rewrite ?Z.eqb_eq, ?str_eqb_spec; naive_solver.
Qed.

Lemma patch_name_iff patch i i' :
  patch_name patch i = (Ok tt, i') ↔
  i' = set_instance_name i (match ip_name patch with Some name => trim name | None => instance_name i end) ∧
  ∀ name, ip_name patch = Some name → name_ok (trim name).
Proof.
  unfold patch_name. destruct (ip_name patch) as [name|]; [|destruct i; naive_solver].
  pose proof (validate_name_iff name) as Hv. destruct (validate_name name) as [v|e].
  - destruct (proj1 (Hv v) eq_refl) as [-> ?]. naive_solver.
  - split; [done|]. intros [-> Hn]. assert (Err e = Ok (trim name) : Prop); [apply Hv; auto|done].
Qed.

Lemma patch_icon_iff patch i i' :
  patch_icon patch i = (Ok tt, i') ↔
  i' = set_look i (instance_art_seed i) (set_field (ip_icon patch) (instance_icon i)) (instance_accent i) ∧
  ∀ icon, ip_icon patch = Some icon → label_ok icon 1024.
Proof.
  unfold patch_icon. destruct (ip_icon patch) as [icon|]; simpl; [|destruct i; naive_solver].
  pose proof (validate_label_ok icon 1024) as Hv. destruct (validate_label icon 1024) as [[]|e]; naive_solver.
Qed.

Lemma patch_accent_iff patch i i' :
  patch_accent patch i = (Ok tt, i') ↔
  i' = set_look i (instance_art_seed i) (instance_icon i) (set_field (ip_accent patch) (instance_accent i)) ∧
  ∀ accent, ip_accent patch = Some accent → label_ok accent 64.
Proof.
  unfold patch_accent. destruct (ip_accent patch) as [accent|]; simpl; [|destruct i; naive_solver].
  pose proof (validate_label_ok accent 64) as Hv. destruct (validate_label accent 64) as [[]|e]; naive_solver.
Qed.

Lemma patch_settings_iff patch i i' :
  patch_settings patch i = (Ok tt, i') ↔
  i' = set_instance_settings i (assign patch (instance_settings i)) ∧
  instance_settings_validate (assign patch (instance_settings i)) = Ok tt.
Proof. unfold patch_settings. cbn [instance_settings set_instance_settings]. rewrite pair_equal_spec, map_err_ok. naive_solver. Qed.

Lemma instance_apply_iff patch i i' :
  instance_apply patch i = (Ok tt, i') ↔ i' = patched patch i ∧ patch_accepted patch i.
Proof.
  unfold instance_apply. rewrite and_then_ok. setoid_rewrite and_then_ok. setoid_rewrite and_then_ok.
  setoid_rewrite and_then_ok. setoid_rewrite and_then_ok. setoid_rewrite patch_revision_ok. setoid_rewrite patch_name_iff.
  setoid_rewrite patch_icon_iff. setoid_rewrite patch_accent_iff. setoid_rewrite patch_settings_iff. split.
  - intros (? & (-> & ? & ?) & ? & (-> & ?) & ? & [= <-] & ? & (-> & ?) & ? & (-> & ?) & -> & ?).
    split; [done|by constructor].
  - intros [-> []]. eexists; split; [by split_and!|]. eexists; split; [by split_and!|]. eexists; split; [done|].
    eexists; split; [by split_and!|]. eexists; split; [by split_and!|]. by split_and!.
Qed.

(** A patch that is accepted was written against this revision and version,
    and leaves a well-formed instance of the same identity; its name, if it
    has one, is taken trimmed, and what it does not mention stays. *)
Theorem instance_patch_keeps_ok patch i i' :
  instance_ok i → instance_apply patch i = (Ok tt, i') →
  instance_ok i' ∧ same_identity i i' ∧ i' = patched patch i ∧
  (∀ v, ip_expected_revision patch = Some v → v = instance_revision i) ∧
  (∀ v, ip_version_id patch = Some v → v = instance_version_id i).
Proof.
  intros [Hn Hi Ha Hs] Happ. pose proof (apply_same_identity _ _ _ _ Happ) as Hsame.
  apply instance_apply_iff in Happ as [-> [Hrev Hver Hname Hicon Haccent Hset]].
  split; [|by split_and!]. split; unfold patched; cbn; [destruct (ip_name patch)|destruct (ip_icon patch)
    |destruct (ip_accent patch)|]; cbn; auto.
Qed.

(** ** Names of copies *)

Lemma display_nat_inj n m :
  (Z.of_nat n ≤ u64_max) → (Z.of_nat m ≤ u64_max) → display_nat n = display_nat m → n = m.
Proof.
  unfold display_nat. intros Hn Hm E. apply (f_equal parse_u64) in E. unfold parse_u64 in E.
  rewrite !parse_unsigned_display in E by (unfold u64_max in *; lia). injection E as E. lia.
Qed.

Lemma first_free_suffix_spec occupied base index candidates :
  match first_free_suffix occupied base index candidates with
  | Some name => name ∉ occupied ∧ ∃ k, (index ≤ k < index + candidates)%nat ∧ name = base +:+ " " +:+ display_nat k ∧
      ∀ j, (index ≤ j < k)%nat → base +:+ " " +:+ display_nat j ∈ occupied
  | None => ∀ k, (index ≤ k < index + candidates)%nat → base +:+ " " +:+ display_nat k ∈ occupied
  end.
Proof.
  revert index. induction candidates as [|candidates IH]; intros index; simpl; [lia|].
  case_bool_decide as Hin.
  - specialize (IH (S index)). destruct (first_free_suffix _ _ _ _) as [name|].
    + destruct IH as (? & k & ? & ? & Hj). split; [done|]. exists k. split_and!; [lia|lia|done|].
      intros j Hj'. destruct (decide (j = index)) as [->|]; [done|]. apply Hj. lia.
    + intros k Hk. destruct (decide (k = index)) as [->|]; [done|]. apply IH. lia.
  - split; [done|]. exists index. split_and!; [lia|lia|done|lia].
Qed.

(** Among one more suffixes than there are names, one is free. *)
Lemma first_free_suffix_some occupied base :
  Z.of_nat (size occupied) + 3 ≤ u64_max → is_Some (first_free_suffix occupied base 2 (S (size occupied))).
Proof.
  intros Hb. pose proof (first_free_suffix_spec occupied base 2 (S (size occupied))) as Hs.
  destruct (first_free_suffix _ _ _ _) as [name|]; [by exists name|].
  set (names := (λ k, base +:+ " " +:+ display_nat k) <$> seq 2 (S (size occupied))).
  assert (NoDup names) as Hnd.
  { apply NoDup_fmap_2_strong; [|apply NoDup_seq]. intros j k Hj%elem_of_seq Hk%elem_of_seq E.
    apply (inj (String.append base)), (inj (String.append " ")) in E. apply display_nat_inj in E; lia. }
  assert (list_to_set names ⊆ occupied) as Hsub.
  { intros name (k & -> & Hk%elem_of_seq)%elem_of_list_to_set%list_elem_of_fmap. apply Hs. lia. }
  apply subseteq_size in Hsub. rewrite size_list_to_set in Hsub by done. unfold names in Hsub.
  rewrite length_fmap, length_seq in Hsub. lia.
Qed.

Lemma size_list_to_set_le (l : list string) : (size (list_to_set l : gset string) ≤ length l)%nat.
Proof.
  induction l as [|x l IH]; simpl; [done|]. rewrite size_union_alt, size_singleton.
  assert (size (list_to_set l ∖ {[x]} : gset string) ≤ size (list_to_set l : gset string))%nat
    by (apply subseteq_size; set_solver). lia.
Qed.

(** A copy always finds a name: without a request, or with a blank one, it is
    the name with [copy] or with the first number after it that no instance
    bears; a requested name is taken as it is, trimmed, or refused when some
    instance bears it. *)
Theorem duplicate_name_spec source occupied requested :
  Z.of_nat (length occupied) + 3 ≤ u64_max →
  match requested with
  | Some wanted => if is_empty (trim wanted) then
      choose_duplicate_name source occupied requested = choose_duplicate_name source occupied None
    else choose_duplicate_name source occupied requested =
      (if bool_decide (trim wanted ∈ occupied) then None else Some (trim wanted))
  | None => ∃ name, choose_duplicate_name source occupied None = Some name ∧ name ∉ occupied ∧
      (name = source +:+ " copy" ∨
       ∃ k, (2 ≤ k)%nat ∧ name = (source +:+ " copy") +:+ " " +:+ display_nat k ∧ source +:+ " copy" ∈ occupied ∧
         ∀ j, (2 ≤ j < k)%nat → (source +:+ " copy") +:+ " " +:+ display_nat j ∈ occupied)
  end.
Proof.
  intros Hb. unfold choose_duplicate_name. destruct requested as [wanted|]; cbn [fmap option_fmap option_map].
  - simpl. destruct (is_empty (trim wanted)); [done|]. by rewrite (bool_decide_ext _ _ (elem_of_list_to_set _ _)).
  - cbn [mbind option_bind]. pose proof (size_list_to_set_le occupied) as Hsize.
    assert (Z.of_nat (size (list_to_set occupied : gset string)) + 3 ≤ u64_max) as Hb' by lia.
    case_bool_decide as Hbase; cbn [negb]; rewrite elem_of_list_to_set in Hbase.
    + pose proof (first_free_suffix_spec (list_to_set occupied) (source +:+ " copy") 2
        (S (size (list_to_set occupied : gset string)))) as Hs.
      destruct (first_free_suffix_some (list_to_set occupied) (source +:+ " copy") Hb') as [name E].
      rewrite E in Hs |- *. exists name. rewrite elem_of_list_to_set in Hs.
      destruct Hs as (Hn & k & Hk & -> & Hj). setoid_rewrite elem_of_list_to_set in Hj.
      split_and!; [done|done|]. right. exists k. split_and!; [lia|done|done|exact Hj].
    + exists (source +:+ " copy"). split_and!; auto.
Qed.
