(* ===== verification/InstanceRegistry.v ===== *)
(** * The instance registry ([core/app/src/instances/directory.rs])

    The table of instances and the last launched one, and the operations that
    run on them inside a transaction of the metadata store.  A row keeps a few
    indexed columns beside the encoded record.  serde_json on records is the
    parameter [RecordJson] with its round trip as the law; whether SQLite runs
    a statement is the function [fault] of a call, and the constraints of the
    table are checked by the statements that write.  The time a copy is made
    is an argument. *)

From S2P Require Import Prelude RustStr Effect SettingsModel Storage InstanceModel.

Record InstanceRow := {
  row_id : string;
  row_name : string;
  row_revision : Z;
  row_lifecycle : string;
  row_library_id : string;
  row_directory_name : string;
  row_directory_receipt : option string;
  row_record_json : string;
}.

(** The rows in the order of their rowid, and the singleton row of
    [instance_selection]. *)
Record RegistryTables := {
  instances : list InstanceRow;
  selection : option (option InstanceId);
}.

(** The tables as the migration [instances.v1] creates them. *)
Definition migrated_tables : RegistryTables := {| instances := []; selection := Some None |}.

Definition set_instances (t : RegistryTables) (rows : list InstanceRow) : RegistryTables :=
  {| instances := rows; selection := selection t |}.

Definition set_selection (t : RegistryTables) (id : option InstanceId) : RegistryTables :=
  {| instances := instances t; selection := Some id |}.

Inductive Statement :=
| SelectRecord | SelectNames | SelectNameTaken | InsertInstance | UpdateInstance | DeleteInstance
| UpdateSelection | ClearSelection.

Class RecordJson := {
  record_to_string : InstanceRecord → option string;
  record_from_str : string → option InstanceRecord;
}.

Definition i64_max : Z := 9223372036854775807.

(** ** Records *)

Definition rebuild (i : InstanceData) (id : InstanceId) (created_at last_played_at : string) (art_seed : Z)
    (java_selection : option JavaSelection) (revision : Z) : InstanceData := {|
  instance_id := id; instance_name := instance_name i; instance_version_id := instance_version_id i;
  instance_created_at := created_at; instance_last_played_at := last_played_at;
  instance_art_seed := art_seed; instance_settings := instance_settings i;
  instance_java_selection := java_selection; instance_icon := instance_icon i;
  instance_accent := instance_accent i; instance_loader_key := instance_loader_key i;
  instance_minecraft_version := instance_minecraft_version i; instance_revision := revision |}.

Definition set_instance_revision (i : InstanceData) (revision : Z) : InstanceData :=
  rebuild i (instance_id i) (instance_created_at i) (instance_last_played_at i) (instance_art_seed i)
    (instance_java_selection i) revision.

Definition clear_java_selection (i : InstanceData) : InstanceData :=
  rebuild i (instance_id i) (instance_created_at i) (instance_last_played_at i) (instance_art_seed i) None
    (instance_revision i).

Definition set_last_played_at (i : InstanceData) (launched_at : string) : InstanceData :=
  rebuild i (instance_id i) (instance_created_at i) launched_at (instance_art_seed i) (instance_java_selection i)
    (instance_revision i).

Definition set_record_instance (r : InstanceRecord) (i : InstanceData) : InstanceRecord := {|
  record_instance := i; record_revision := record_revision r; record_lifecycle := record_lifecycle r;
  record_library_id := record_library_id r; record_directory_name := record_directory_name r;
  record_directory_receipt := record_directory_receipt r |}.

Definition set_lifecycle (r : InstanceRecord) (lifecycle : InstanceLifecycle) (receipt : option string) :
    InstanceRecord := {|
  record_instance := record_instance r; record_revision := record_revision r; record_lifecycle := lifecycle;
  record_library_id := record_library_id r; record_directory_name := record_directory_name r;
  record_directory_receipt := receipt |}.

Definition set_record_revision (r : InstanceRecord) (revision : Z) : InstanceRecord := {|
  record_instance := set_instance_revision (record_instance r) revision; record_revision := revision;
  record_lifecycle := record_lifecycle r;
  record_library_id := record_library_id r; record_directory_name := record_directory_name r;
  record_directory_receipt := record_directory_receipt r |}.

Definition require (record : InstanceRecord) (revision : Z) (state : InstanceLifecycle) : result InstanceError unit :=
  err_if (negb (record_revision record =? revision)) Conflict ;;
  err_if (negb (bool_decide (record_lifecycle record = state))) InstanceBusy.

Definition require_exact (record expected : InstanceRecord) (state : InstanceLifecycle) : result InstanceError unit :=
  require record (record_revision expected) state ;;
  err_if (negb (bool_decide (record = expected))) Conflict.

Definition advance (record : InstanceRecord) : result InstanceError InstanceRecord :=
  revision ← ok_or Conflict
    (next ← checked_add_u64 (record_revision record) 1; if next <=? i64_max then Some next else None);
  Ok (set_record_revision record revision).

Definition hex_value (c : ascii) : Z :=
  if is_digit c then digit_value c else Z.of_N (byte_n (lower_byte c)) - 87.

(** The first four bytes of the parsed identity, little-endian. *)
Definition new_art_seed (id : InstanceId) : Z :=
  match bytes_of id with
  | a :: b :: c :: d :: e :: f :: g :: h :: _ =>
      (16 * hex_value a + hex_value b) + 256 * (16 * hex_value c + hex_value d) +
      65536 * (16 * hex_value e + hex_value f) + 16777216 * (16 * hex_value g + hex_value h)
  | _ => 0
  end.

Section registry.
Context `{RecordJson}.

Definition decode (raw : string) : result InstanceError InstanceRecord :=
  record ← ok_or InvalidInput (record_from_str raw);
  err_if ((record_revision record =? 0) ||
          negb (record_revision record =? instance_revision (record_instance record)) ||
          negb (str_eqb (record_directory_name record) (instance_id (record_instance record)))) InvalidInput ;;
  validate_name (instance_name (record_instance record)) ;;
  map_err (λ _, InvalidSettings) (instance_settings_validate (instance_settings (record_instance record))) ;;
  Ok record.

Definition record_params (record : InstanceRecord) : result InstanceError InstanceRow :=
  json ← ok_or InvalidInput (record_to_string (set_record_instance record (clear_java_selection (record_instance record))));
  revision ← ok_or Conflict (if record_revision record <=? i64_max then Some (record_revision record) else None);
  Ok {| row_id := instance_id (record_instance record); row_name := instance_name (record_instance record);
        row_revision := revision; row_lifecycle := lifecycle_as_str (record_lifecycle record);
        row_library_id := record_library_id record; row_directory_name := record_directory_name record;
        row_directory_receipt := record_directory_receipt record; row_record_json := json |}.

(** ** Reading operations *)

Definition list_where (wanted : string → bool) (t : RegistryTables) : result InstanceError (list InstanceRecord) :=
  try_map (λ row, decode (row_record_json row)) (filter (λ row, wanted (row_lifecycle row) = true) (instances t)).

Definition list_live : RegistryTables → result InstanceError (list InstanceRecord) := list_where (str_eqb "live").

Definition list_pending : RegistryTables → result InstanceError (list InstanceRecord) :=
  list_where (λ lifecycle, negb (str_eqb lifecycle "live")).

Definition last_instance_id `{UuidParser} (t : RegistryTables) : result InstanceError (option InstanceId) :=
  raw ← ok_or (InstanceStorage Sqlite) (selection t);
  match raw with
  | None => Ok None
  | Some id => parsed ← instance_id_from_str id; Ok (Some parsed)
  end.

(** ** Statements *)

Definition has_id (id : InstanceId) (row : InstanceRow) : Prop := row_id row = id.
#[global] Instance has_id_dec id row : Decision (has_id id row).
Proof. unfold has_id. apply _. Defined.

Definition find_row (id : InstanceId) (rows : list InstanceRow) : option InstanceRow := head (filter (has_id id) rows).

(** What the constraints of the table ask of a row beside the [others]. *)
Definition constraints_hold (others : list InstanceRow) (row : InstanceRow) : bool :=
  (0 <? row_revision row) &&
  existsb (str_eqb (row_lifecycle row)) ["reserved"; "live"; "deleting"] &&
  bool_decide (row_id row ∉ row_id <$> others) &&
  bool_decide (row_name row ∉ row_name <$> others) &&
  bool_decide ((row_library_id row, row_directory_name row) ∉ (λ r, (row_library_id r, row_directory_name r)) <$> others).

Section transaction.
Context (fault : Statement → option StorageError).

Definition statement {A} (s : Statement) (run : RegistryTables → result InstanceError A * RegistryTables) :
    eff RegistryTables InstanceError A := λ t,
  match fault s with
  | Some e => (Err (InstanceStorage e), t)
  | None => run t
  end.

Definition insert_row (row : InstanceRow) : eff RegistryTables InstanceError unit :=
  statement InsertInstance (λ t,
    if constraints_hold (instances t) row then (Ok tt, set_instances t (instances t ++ [row]))
    else (Err (InstanceStorage Sqlite), t)).

(** The number of rows changed. *)
Definition update_row (row : InstanceRow) : eff RegistryTables InstanceError nat :=
  statement UpdateInstance (λ t,
    match find_row (row_id row) (instances t) with
    | None => (Ok 0%nat, t)
    | Some _ =>
        if constraints_hold (filter (λ r, ¬ has_id (row_id row) r) (instances t)) row then
          (Ok 1%nat, set_instances t ((λ r, if decide (has_id (row_id row) r) then row else r) <$> instances t))
        else (Err (InstanceStorage Sqlite), t)
    end).

Definition delete_row (id : InstanceId) : eff RegistryTables InstanceError unit :=
  statement DeleteInstance (λ t, (Ok tt, set_instances t (filter (λ r, ¬ has_id id r) (instances t)))).

(** The number of rows changed. *)
Definition update_selection (id : InstanceId) : eff RegistryTables InstanceError nat :=
  statement UpdateSelection (λ t,
    match selection t with
    | Some _ => (Ok 1%nat, set_selection t (Some id))
    | None => (Ok 0%nat, t)
    end).

Definition clear_selection (id : InstanceId) : eff RegistryTables InstanceError unit :=
  statement ClearSelection (λ t,
    (Ok tt, if bool_decide (selection t = Some (Some id)) then set_selection t None else t)).

Definition name_taken (name : string) (except : option InstanceId) : eff RegistryTables InstanceError bool :=
  statement SelectNameTaken (λ t,
    (Ok (existsb (λ row, str_eqb (row_name row) name &&
                         is_none_or except (λ id, negb (str_eqb (row_id row) id))) (instances t)), t)).

Definition get_in (id : InstanceId) : eff RegistryTables InstanceError InstanceRecord :=
  raw ← statement SelectRecord (λ t, (Ok (find_row id (instances t)), t));
  row ← lift (ok_or NotFound raw);
  record ← lift (decode (row_record_json row));
  lift (err_if (negb (str_eqb (instance_id (record_instance record)) id) ||
                negb (str_eqb (lifecycle_as_str (record_lifecycle record)) (row_lifecycle row))) InvalidInput) ;;
  mret record.

Definition write (record : InstanceRecord) : eff RegistryTables InstanceError unit :=
  row ← lift (record_params record);
  affected ← update_row row;
  lift (err_if (negb (affected =? 1)%nat) NotFound).

(** ** Operations inside a transaction *)

Definition reserve (instance : InstanceData) (library_id : string) : eff RegistryTables InstanceError InstanceRecord :=
  let instance := clear_java_selection instance in
  name ← lift (validate_name (instance_name instance));
  let instance := set_instance_name instance name in
  lift (map_err (λ _, InvalidSettings) (instance_settings_validate (instance_settings instance))) ;;
  lift (err_if (is_empty library_id || (128 <? str_len library_id)) InvalidInput) ;;
  taken ← name_taken (instance_name instance) None;
  lift (err_if taken NameConflict) ;;
  let record := {| record_instance := set_instance_revision instance 1; record_revision := 1;
                   record_lifecycle := Reserved; record_library_id := library_id;
                   record_directory_name := instance_id instance; record_directory_receipt := None |} in
  row ← lift (record_params record);
  insert_row row ;;
  mret record.

Definition reserve_duplicate (source : InstanceRecord) (new_id : InstanceId) (requested_name : option string)
    (library_id now : string) : eff RegistryTables InstanceError InstanceRecord :=
  current ← get_in (instance_id (record_instance source));
  lift (require current (record_revision source) Live) ;;
  lift (err_if (negb (bool_decide (current = source))) Conflict) ;;
  occupied ← statement SelectNames (λ t, (Ok (row_name <$> instances t), t));
  name ← lift (ok_or NameConflict
    (choose_duplicate_name (instance_name (record_instance source)) occupied requested_name));
  let instance := set_instance_name (record_instance source) name in
  reserve (rebuild instance new_id now "" (new_art_seed new_id) (instance_java_selection instance)
             (instance_revision instance)) library_id.

Definition commit_reserved (expected : InstanceRecord) (receipt : string) :
    eff RegistryTables InstanceError InstanceRecord :=
  lift (err_if (is_empty receipt || (4096 <? str_len receipt)) InvalidInput) ;;
  record ← get_in (instance_id (record_instance expected));
  lift (require_exact record expected Reserved) ;;
  record ← lift (advance (set_lifecycle record Live (Some receipt)));
  write record ;;
  mret record.

Definition abandon_reserved (expected : InstanceRecord) : eff RegistryTables InstanceError unit :=
  record ← get_in (instance_id (record_instance expected));
  lift (require_exact record expected Reserved) ;;
  delete_row (instance_id (record_instance record)).

Definition mark_deleting (id : InstanceId) (expected_revision : Z) : eff RegistryTables InstanceError InstanceRecord :=
  record ← get_in id;
  lift (require record expected_revision Live) ;;
  record ← lift (advance (set_lifecycle record Deleting (record_directory_receipt record)));
  write record ;;
  mret record.

Definition restore_live (expected : InstanceRecord) : eff RegistryTables InstanceError unit :=
  record ← get_in (instance_id (record_instance expected));
  lift (require_exact record expected Deleting) ;;
  record ← lift (advance (set_lifecycle record Live (record_directory_receipt record)));
  write record.

Definition remove (expected : InstanceRecord) : eff RegistryTables InstanceError unit :=
  record ← get_in (instance_id (record_instance expected));
  lift (require_exact record expected Deleting) ;;
  delete_row (instance_id (record_instance record)) ;;
  clear_selection (instance_id (record_instance record)).

(** ** Operations that are a transaction of their own *)

Definition launch_recorded (expected : InstanceRecord) (launched_at : string) : eff RegistryTables InstanceError unit :=
  record ← get_in (instance_id (record_instance expected));
  lift (require_exact record expected Live) ;;
  record ← lift (advance (set_record_instance record (set_last_played_at (record_instance record) launched_at)));
  write record ;;
  selected ← update_selection (instance_id (record_instance record));
  lift (err_if (negb (selected =? 1)%nat) Conflict).

Definition updated (id : InstanceId) (expected_revision : Z) (patch : InstancePatch) :
    eff RegistryTables InstanceError InstanceRecord :=
  record ← get_in id;
  lift (require record expected_revision Live) ;;
  patched ← lift (match instance_apply patch (record_instance record) with
                  | (Ok _, instance) => Ok (set_record_instance record instance)
                  | (Err e, _) => Err e
                  end);
  taken ← name_taken (instance_name (record_instance patched)) (Some id);
  lift (err_if taken NameConflict) ;;
  record ← lift (advance patched);
  write record ;;
  mret record.
End transaction.

Definition registry_get_record (call : SqliteCall) (fault : Statement → option StorageError) (id : InstanceId) :
    MetadataStore RegistryTables → result InstanceError InstanceRecord * MetadataStore RegistryTables :=
  read_callback InstanceStorage call (λ t, (get_in fault id t).1).

Definition registry_get_live (call : SqliteCall) (fault : Statement → option StorageError) (id : InstanceId)
    (store : MetadataStore RegistryTables) : result InstanceError InstanceRecord * MetadataStore RegistryTables :=
  let '(r, store) := registry_get_record call fault id store in
  (record ← r; err_if (negb (bool_decide (record_lifecycle record = Live))) InstanceBusy ;; Ok record, store).

Definition registry_list (call : SqliteCall) :
    MetadataStore RegistryTables → result InstanceError (list InstanceRecord) * MetadataStore RegistryTables :=
  read_callback InstanceStorage call list_live.

Definition registry_pending (call : SqliteCall) :
    MetadataStore RegistryTables → result InstanceError (list InstanceRecord) * MetadataStore RegistryTables :=
  read_callback InstanceStorage call list_pending.

Definition record_successful_launch (call : SqliteCall) (fault : Statement → option StorageError)
    (expected : InstanceRecord) (launched_at : string) :
    MetadataStore RegistryTables → result InstanceError unit * MetadataStore RegistryTables :=
  transaction InstanceStorage call (launch_recorded fault expected launched_at).

Definition registry_update (call : SqliteCall) (fault : Statement → option StorageError) (id : InstanceId)
    (expected_revision : Z) (patch : InstancePatch) :
    MetadataStore RegistryTables → result InstanceError InstanceRecord * MetadataStore RegistryTables :=
  transaction InstanceStorage call (updated fault id expected_revision patch).
End registry.
