(* ===== verification/InstanceHistory.v ===== *)
(** * What the instance registry keeps

    An abstract registry, a map from identities to records and the last
    launched identity, and its steps; the tables of [InstanceRegistry] with
    their invariant; and the refinement of one by the other. *)

From S2P Require Import Prelude RustStr Effect SettingsModel Storage InstanceModel InstanceRegistry.

(** Encoding a record is faithful (the selection of Java apart, which is not
    written), and a decoded identity has been parsed: [try_from] of
    [InstanceId]. *)
Class RecordJsonLaws `{RecordJson, UuidParser} : Prop := {
  record_roundtrip r s :
    instance_java_selection (record_instance r) = None → record_to_string r = Some s → record_from_str s = Some r;
  record_decoded_id r s :
    record_from_str s = Some r →
    instance_id_from_str (instance_id (record_instance r)) = Ok (instance_id (record_instance r));
}.

(** ** The abstract registry *)

Record RegistryView := {
  records : gmap InstanceId InstanceRecord;
  last_launched : option InstanceId;
}.

Definition record_id (r : InstanceRecord) : InstanceId := instance_id (record_instance r).
Definition record_name (r : InstanceRecord) : string := instance_name (record_instance r).

Definition put (v : RegistryView) (r : InstanceRecord) : RegistryView :=
  {| records := <[record_id r := r]> (records v); last_launched := last_launched v |}.

Definition bump (r : InstanceRecord) : InstanceRecord := set_record_revision r (record_revision r + 1).

(** [r] is what the registry holds under its identity, in [state], and its
    revision can still grow. *)
Definition current (v : RegistryView) (r : InstanceRecord) (state : InstanceLifecycle) : Prop :=
  records v !! record_id r = Some r ∧ record_lifecycle r = state ∧ record_revision r < i64_max.

Definition fresh_record (instance : InstanceData) (library_id : string) : InstanceRecord := {|
  record_instance := set_instance_revision
    (set_instance_name (clear_java_selection instance) (trim (instance_name instance))) 1;
  record_revision := 1; record_lifecycle := Reserved; record_library_id := library_id;
  record_directory_name := instance_id instance; record_directory_receipt := None |}.

Definition copy_of (source : InstanceData) (new_id : InstanceId) (name now : string) : InstanceData :=
  rebuild (set_instance_name source name) new_id now "" (new_art_seed new_id) (instance_java_selection source)
    (instance_revision source).

Inductive RegistryCommand :=
| ReserveInstance (instance : InstanceData) (library_id : string)
| ReserveDuplicate (source : InstanceRecord) (new_id : InstanceId) (requested_name : option string) (library_id now : string)
| CommitReserved (expected : InstanceRecord) (receipt : string)
| AbandonReserved (expected : InstanceRecord)
| MarkDeleting (id : InstanceId) (expected_revision : Z)
| RestoreLive (expected : InstanceRecord)
| RemoveInstance (expected : InstanceRecord)
| UpdateInstanceWith (id : InstanceId) (expected_revision : Z) (patch : InstancePatch)
| RecordLaunch (expected : InstanceRecord) (launched_at : string).

Inductive registry_step (v : RegistryView) : RegistryCommand → RegistryView → Prop :=
| step_reserve instance library_id :
    records v !! instance_id instance = None →
    (∀ id r, records v !! id = Some r → record_name r ≠ trim (instance_name instance)) →
    name_ok (trim (instance_name instance)) →
    instance_settings_validate (instance_settings instance) = Ok tt →
    0 < str_len library_id ≤ 128 →
    registry_step v (ReserveInstance instance library_id) (put v (fresh_record instance library_id))
| step_duplicate source new_id requested library_id now name occupied v' :
    records v !! record_id source = Some source → record_lifecycle source = Live →
    (∀ n, n ∈ occupied ↔ ∃ id r, records v !! id = Some r ∧ record_name r = n) →
    choose_duplicate_name (record_name source) occupied requested = Some name →
    registry_step v (ReserveInstance (copy_of (record_instance source) new_id name now) library_id) v' →
    registry_step v (ReserveDuplicate source new_id requested library_id now) v'
| step_commit expected receipt :
    current v expected Reserved → 0 < str_len receipt ≤ 4096 →
    registry_step v (CommitReserved expected receipt) (put v (bump (set_lifecycle expected Live (Some receipt))))
| step_abandon expected :
    records v !! record_id expected = Some expected → record_lifecycle expected = Reserved →
    registry_step v (AbandonReserved expected)
      {| records := delete (record_id expected) (records v); last_launched := last_launched v |}
| step_deleting id revision r :
    current v r Live → record_id r = id → record_revision r = revision →
    registry_step v (MarkDeleting id revision) (put v (bump (set_lifecycle r Deleting (record_directory_receipt r))))
| step_restore expected :
    current v expected Deleting →
    registry_step v (RestoreLive expected)
      (put v (bump (set_lifecycle expected Live (record_directory_receipt expected))))
| step_remove expected :
    records v !! record_id expected = Some expected → record_lifecycle expected = Deleting →
    registry_step v (RemoveInstance expected)
      {| records := delete (record_id expected) (records v);
         last_launched := if bool_decide (last_launched v = Some (record_id expected)) then None else last_launched v |}
| step_update id revision patch r instance :
    current v r Live → record_id r = id → record_revision r = revision →
    instance_apply patch (record_instance r) = (Ok tt, instance) →
    (∀ id' r', records v !! id' = Some r' → id' ≠ id → record_name r' ≠ instance_name instance) →
    registry_step v (UpdateInstanceWith id revision patch) (put v (bump (set_record_instance r instance)))
| step_launch expected launched_at :
    current v expected Live →
    registry_step v (RecordLaunch expected launched_at)
      {| records := <[record_id expected :=
           bump (set_record_instance expected (set_last_played_at (record_instance expected) launched_at))]> (records v);
         last_launched := Some (record_id expected) |}.

Definition run_command `{RecordJson} (fault : Statement → option StorageError) (c : RegistryCommand) :
    eff RegistryTables InstanceError unit :=
  match c with
  | ReserveInstance instance library_id => reserve fault instance library_id ;; mret tt
  | ReserveDuplicate source new_id requested library_id now =>
      reserve_duplicate fault source new_id requested library_id now ;; mret tt
  | CommitReserved expected receipt => commit_reserved fault expected receipt ;; mret tt
  | AbandonReserved expected => abandon_reserved fault expected
  | MarkDeleting id expected_revision => mark_deleting fault id expected_revision ;; mret tt
  | RestoreLive expected => restore_live fault expected
  | RemoveInstance expected => remove fault expected
  | UpdateInstanceWith id expected_revision patch => updated fault id expected_revision patch ;; mret tt
  | RecordLaunch expected launched_at => launch_recorded fault expected launched_at
  end.

(** ** The tables *)

Record record_ok (r : InstanceRecord) : Prop := {
  rok_revision : 0 < record_revision r ≤ i64_max;
  rok_instance_revision : instance_revision (record_instance r) = record_revision r;
  rok_directory : record_directory_name r = record_id r;
  rok_name : name_ok (record_name r);
  rok_settings : instance_settings_validate (instance_settings (record_instance r)) = Ok tt;
  rok_java : instance_java_selection (record_instance r) = None;
  rok_receipt : record_directory_receipt r = None ↔ record_lifecycle r = Reserved;
}.

(** What the columns of a row say of its record. *)
Definition columns (r : InstanceRecord) (json : string) : InstanceRow := {|
  row_id := record_id r; row_name := record_name r; row_revision := record_revision r;
  row_lifecycle := lifecycle_as_str (record_lifecycle r); row_library_id := record_library_id r;
  row_directory_name := record_directory_name r; row_directory_receipt := record_directory_receipt r;
  row_record_json := json |}.

Section tables.
Context `{RecordJsonLaws}.

Definition row_ok (row : InstanceRow) : Prop :=
  ∃ r, record_from_str (row_record_json row) = Some r ∧ row = columns r (row_record_json row) ∧ record_ok r.

Record rows_ok (rows : list InstanceRow) : Prop := {
  rows_ids : NoDup (row_id <$> rows);
  rows_names : NoDup (row_name <$> rows);
  rows_each : Forall row_ok rows;
}.

Definition row_record (row : InstanceRow) : option (InstanceId * InstanceRecord) :=
  pair (row_id row) <$> record_from_str (row_record_json row).

Definition view_rows (rows : list InstanceRow) : gmap InstanceId InstanceRecord :=
  list_to_map (omap row_record rows).

Definition view (t : RegistryTables) : RegistryView :=
  {| records := view_rows (instances t); last_launched := default None (selection t) |}.

(** The rows and the selection agree, and what is selected has been live. *)
Record tables_ok (t : RegistryTables) : Prop := {
  tok_rows : rows_ok (instances t);
  tok_singleton : is_Some (selection t);
  tok_selected : ∀ id, last_launched (view t) = Some id →
    ∃ r, records (view t) !! id = Some r ∧ record_lifecycle r ≠ Reserved;
}.

(** ** Rows and the map of records *)

Lemma row_ok_columns r json : record_from_str json = Some r → record_ok r → row_ok (columns r json).
Proof. intros E Hr. exists r. done. Qed.

Lemma view_cons row rows r :
  record_from_str (row_record_json row) = Some r →
  view_rows (row :: rows) = <[row_id row := r]> (view_rows rows).
Proof. intros E. unfold view_rows. simpl. unfold row_record at 1. by rewrite E. Qed.

Lemma view_none rows id : Forall row_ok rows → view_rows rows !! id = None ↔ id ∉ row_id <$> rows.
Proof.
  induction 1 as [|row rows (r & E & _) _ IH]; [unfold view_rows; simpl; set_solver|].
  rewrite (view_cons _ _ _ E), fmap_cons, not_elem_of_cons, <-IH. destruct (decide (id = row_id row)) as [->|Hne].
  - rewrite lookup_insert_eq. naive_solver.
  - rewrite lookup_insert_ne by done. naive_solver.
Qed.

(** A record is in the map when a row encodes it. *)
Lemma view_some rows id r :
  rows_ok rows → view_rows rows !! id = Some r ↔
  ∃ row, row ∈ rows ∧ row_id row = id ∧ record_from_str (row_record_json row) = Some r.
Proof.
  intros [Hnd _ Hall]. induction Hall as [|row rows (r1 & E & _) Hall IH].
  { unfold view_rows. simpl. set_solver. }
  apply list.NoDup_cons in Hnd as [Hn Hnd]. rewrite (view_cons _ _ _ E). destruct (decide (id = row_id row)) as [->|Hne].
  - rewrite lookup_insert_eq. split; [intros [= <-]; exists row; by split_and!; [left| |]|].
    intros (row' & [->|Hin]%elem_of_cons & Hid & Er); [congruence|]. destruct Hn. rewrite <-Hid. by apply list_elem_of_fmap_2.
  - rewrite lookup_insert_ne, (IH Hnd) by done. setoid_rewrite elem_of_cons. naive_solver.
Qed.

Lemma find_row_some rows id row : find_row id rows = Some row → row ∈ rows ∧ row_id row = id.
Proof.
  unfold find_row. intros Hh. assert (row ∈ filter (has_id id) rows) as Hin.
  { destruct (filter (has_id id) rows); [done|]. injection Hh as ->. left. }
  apply list_elem_of_filter in Hin as [? ?]. done.
Qed.

Lemma find_row_none rows id : find_row id rows = None ↔ id ∉ row_id <$> rows.
Proof.
  unfold find_row. destruct (filter (has_id id) rows) as [|row l] eqn:E; simpl.
  - split; [|done]. intros _ (row & -> & Hin)%list_elem_of_fmap.
    assert (row ∈ filter (has_id (row_id row)) rows) as Hf by (by apply list_elem_of_filter). rewrite E in Hf. set_solver.
  - split; [done|]. intros Hn. destruct Hn. assert (row ∈ filter (has_id id) rows) as Hin by (rewrite E; left).
    apply list_elem_of_filter in Hin as [<- Hin]. by apply list_elem_of_fmap_2.
Qed.

(** Decoding what an operation has written succeeds. *)
Lemma decode_ok raw r : record_from_str raw = Some r → record_ok r → decode raw = Ok r.
Proof.
  intros E [Hrev Hirev Hdir Hname Hset _ _]. unfold decode. rewrite E. simpl.
  unfold record_id in Hdir. rewrite Hirev, Z.eqb_refl, (proj2 (str_eqb_spec _ _) Hdir). simpl.
  rewrite (proj2 (Z.eqb_neq _ _)) by lia. simpl. fold (record_name r). rewrite (validate_name_id _ Hname). simpl.
  by rewrite Hset.
Qed.

Lemma get_in_spec fault id t r t' :
  rows_ok (instances t) → get_in fault id t = (r, t') →
  t' = t ∧ match r with
  | Ok record => records (view t) !! id = Some record ∧ record_id record = id ∧ record_ok record
  | Err e => e = NotFound ∧ records (view t) !! id = None ∨
      ∃ s, fault SelectRecord = Some s ∧ e = InstanceStorage s
  end.
Proof.
  intros Hok. unfold get_in, statement, mbind, eff_bind. destruct (fault SelectRecord); [intros [= <- <-]; eauto|].
  destruct (find_row id (instances t)) as [row|] eqn:Ef; simpl.
  2: { intros [= <- <-]. split; [done|]. left. split; [done|].
       apply view_none; [by apply rows_each|by apply find_row_none]. }
  pose proof Ef as [Hin Hid]%find_row_some.
  destruct (proj1 (list.Forall_forall _ _) (rows_each _ Hok) _ Hin) as (record & E & Hcols & Hr).
  unfold lift. rewrite (decode_ok _ _ E Hr). rewrite Hcols in Hid |- *. cbn [row_id columns row_lifecycle] in *.
  unfold record_id in Hid. rewrite (proj2 (str_eqb_spec _ id) Hid), (proj2 (str_eqb_spec _ _) eq_refl). simpl.
  intros [= <- <-]. split_and!; try done.
  apply view_some; [done|]. exists row. split_and!; [done|by rewrite Hcols|done].
Qed.

(** ** Statements that write *)

Lemma constraints_hold_spec others row :
  constraints_hold others row = true →
  0 < row_revision row ∧ row_id row ∉ row_id <$> others ∧ row_name row ∉ row_name <$> others.
Proof.
  unfold constraints_hold. rewrite !andb_true_iff, !bool_decide_eq_true. intros ((((? & _) & ?) & ?) & _).
  split_and!; [lia|done|done].
Qed.

Lemma rows_ok_cons rows row :
  rows_ok rows → row_ok row → constraints_hold rows row = true → rows_ok (row :: rows).
Proof.
  intros [Hi Hn He] Hr (_ & Hid & Hname)%constraints_hold_spec. by split; rewrite ?fmap_cons; constructor.
Qed.

Lemma rows_ok_perm rows rows' : rows ≡ₚ rows' → rows_ok rows → rows_ok rows'.
Proof. intros E [Hi Hn He]. split; by rewrite <-E. Qed.

Lemma view_perm rows rows' : rows ≡ₚ rows' → rows_ok rows → view_rows rows = view_rows rows'.
Proof.
  intros E Hok. pose proof (rows_ok_perm _ _ E Hok) as Hok'. apply map_eq. intros id. apply option_eq. intros r.
  rewrite !view_some by done. by setoid_rewrite E.
Qed.

Lemma rows_ok_filter rows id : rows_ok rows → rows_ok (filter (λ r, ¬ has_id id r) rows).
Proof.
  intros [Hi Hn He]. split.
  - eapply sublist_NoDup; [exact Hi|]. apply fmap_sublist, sublist_filter.
  - eapply sublist_NoDup; [exact Hn|]. apply fmap_sublist, sublist_filter.
  - rewrite list.Forall_forall in He |- *. intros r [_ Hin]%list_elem_of_filter. by apply He.
Qed.

Lemma view_filter rows id : rows_ok rows → view_rows (filter (λ r, ¬ has_id id r) rows) = delete id (view_rows rows).
Proof.
  intros Hok. apply map_eq. intros id'. apply option_eq. intros r.
  rewrite lookup_delete_Some, !view_some by (try apply rows_ok_filter; done).
  setoid_rewrite list_elem_of_filter. unfold has_id. naive_solver.
Qed.

Lemma update_perm rows row :
  NoDup (row_id <$> rows) → row_id row ∈ row_id <$> rows →
  (λ r, if decide (has_id (row_id row) r) then row else r) <$> rows ≡ₚ row :: filter (λ r, ¬ has_id (row_id row) r) rows.
Proof.
  induction rows as [|r rows IH]; [set_solver|]. rewrite !fmap_cons, filter_cons.
  intros [Hn Hnd]%list.NoDup_cons Hin. destruct (decide (has_id (row_id row) r)) as [Hr|Hr].
  - rewrite decide_False by tauto. constructor. unfold has_id in Hr. rewrite Hr in Hn. clear -Hn.
    induction rows as [|x rows IH]; [done|]. rewrite fmap_cons in Hn. apply not_elem_of_cons in Hn as [Hx Hn].
    rewrite fmap_cons, filter_cons, !decide_False, decide_True by (unfold has_id; congruence). by rewrite IH at 1.
  - rewrite decide_True by done. apply elem_of_cons in Hin as [Hin|Hin]; [by destruct Hr|].
    rewrite (IH Hnd Hin). constructor.
Qed.
(** What a successful write of a row leaves: the rows are well-formed, and
    their records are those before with the new one. *)
Lemma record_params_ok r row :
  record_params r = Ok row → record_ok r →
  row = columns r (row_record_json row) ∧ row_ok row ∧ record_from_str (row_record_json row) = Some r.
Proof.
  unfold record_params. intros Hp Hr. apply bind_ok in Hp as (json & Hj%ok_or_ok & Hp).
  apply bind_ok in Hp as (rev & Hrev%ok_or_ok & [= <-]).
  assert (set_record_instance r (clear_java_selection (record_instance r)) = r) as Eq.
  { destruct Hr as [_ _ _ _ _ Hjava _]. destruct r as [[] ? ? ? ? ?]. cbn in Hjava. by subst. }
  rewrite Eq in Hj. apply record_roundtrip in Hj; [|by apply rok_java].
  destruct (record_revision r <=? i64_max); [injection Hrev as <-|done].
  split_and!; [done| |done]. exists r. by split_and!.
Qed.

Lemma insert_row_ok fault row r t t' :
  rows_ok (instances t) → row_ok row → record_from_str (row_record_json row) = Some r →
  insert_row fault row t = (Ok tt, t') →
  rows_ok (instances t') ∧ selection t' = selection t ∧ row_id row ∉ row_id <$> instances t ∧
  view_rows (instances t') = <[row_id row := r]> (view_rows (instances t)).
Proof.
  intros Hok Hr E. unfold insert_row, statement. destruct (fault InsertInstance); [done|].
  destruct (constraints_hold _ _) eqn:Ec; [|done]. intros [= <-]. cbn [instances set_instances selection].
  assert (row :: instances t ≡ₚ instances t ++ [row]) as Hp by apply Permutation_cons_append.
  pose proof (rows_ok_cons _ _ Hok Hr Ec) as Hc. split_and!; [by eapply rows_ok_perm|done| |].
  - by apply constraints_hold_spec in Ec as (_ & ? & _).
  - rewrite <-(view_perm _ _ Hp Hc). by apply view_cons.
Qed.

Lemma write_ok fault r t t' :
  rows_ok (instances t) → record_ok r → write fault r t = (Ok tt, t') →
  rows_ok (instances t') ∧ selection t' = selection t ∧
  view_rows (instances t') = <[record_id r := r]> (view_rows (instances t)).
Proof.
  intros Hok Hr Hw. apply eff_bind_ok in Hw as (row & t1 & [Hp <-]%lift_ok & Hw).
  apply eff_bind_ok in Hw as (affected & t2 & Hupd & [Hn <-]%lift_ok).
  apply record_params_ok in Hp as (Hcols & Hrow & E); [|done].
  apply err_if_ok, negb_false_iff, Nat.eqb_eq in Hn as ->.
  unfold update_row, statement in Hupd. destruct (fault UpdateInstance); [done|].
  destruct (find_row _ _) as [old|] eqn:Ef; [|done]. apply find_row_some in Ef as [Hin Hid].
  destruct (constraints_hold _ _) eqn:Ec; [|done]. injection Hupd as <-. cbn [instances set_instances selection].
  assert (row_id row = record_id r) as Hrid by (by rewrite Hcols).
  assert (row_id row ∈ row_id <$> instances t) as Hin' by (rewrite <-Hid; by apply list_elem_of_fmap_2).
  pose proof (update_perm _ _ (rows_ids _ Hok) Hin') as Hperm. symmetry in Hperm.
  pose proof (rows_ok_cons _ _ (rows_ok_filter _ (row_id row) Hok) Hrow Ec) as Hc.
  split_and!; [by eapply rows_ok_perm|done|].
  rewrite <-(view_perm _ _ Hperm Hc), (view_cons _ _ _ E), view_filter, insert_delete_eq by done. by rewrite Hrid.
Qed.
(** ** Records between operations *)

Lemma require_ok r revision state :
  require r revision state = Ok tt ↔ record_revision r = revision ∧ record_lifecycle r = state.
Proof.
  unfold require. rewrite bind_ok_unit, !err_if_ok, !negb_false_iff, Z.eqb_eq, bool_decide_eq_true. done.
Qed.

Lemma require_exact_ok r expected state : require_exact r expected state = Ok tt ↔ r = expected ∧ record_lifecycle r = state.
Proof.
  unfold require_exact. rewrite bind_ok_unit, require_ok, err_if_ok, negb_false_iff, bool_decide_eq_true. naive_solver.
Qed.

Lemma advance_ok r r' : 0 < record_revision r → advance r = Ok r' ↔ record_revision r < i64_max ∧ r' = bump r.
Proof.
  intros Hpos. unfold advance, checked_add_u64, bump. unfold i64_max, u64_max in *. rewrite bind_ok. setoid_rewrite ok_or_ok.
  case_match; simpl; [|split; [naive_solver|lia]]. case_match; split; [|naive_solver|naive_solver|lia].
  intros (? & [= <-] & [= <-]). split; [lia|done].
Qed.

Lemma bump_ok r : record_ok r → record_revision r < i64_max → record_ok (bump r).
Proof. intros [] ?. split; cbn; try done; lia. Qed.

Lemma set_lifecycle_ok r lifecycle receipt :
  record_ok r → (receipt = None ↔ lifecycle = Reserved) → record_ok (set_lifecycle r lifecycle receipt).
Proof. intros [] ?. by split. Qed.

Lemma set_instance_ok r i :
  record_ok r → same_identity (record_instance r) (set_last_played_at i (instance_last_played_at (record_instance r))) →
  name_ok (instance_name i) → instance_settings_validate (instance_settings i) = Ok tt →
  record_ok (set_record_instance r i).
Proof.
  intros [] Hsame Hn Hs. destruct Hsame as (Hid & _ & _ & _ & _ & _ & Hrev & Hjava). unfold record_id in *.
  cbn [set_last_played_at rebuild instance_id instance_revision instance_java_selection] in *.
  split; unfold record_id, record_name;
    cbn [set_record_instance record_instance record_revision record_lifecycle record_directory_name
         record_directory_receipt]; congruence || done.
Qed.

(** ** Parts of operations *)

Lemma exact_bind {B} fault expected state (k : InstanceRecord → eff RegistryTables InstanceError B) t b t' :
  rows_ok (instances t) →
  (record ← get_in fault (instance_id (record_instance expected));
   lift (require_exact record expected state) ;; k record) t = (Ok b, t') →
  records (view t) !! record_id expected = Some expected ∧ record_ok expected ∧ record_lifecycle expected = state ∧
  k expected t = (Ok b, t').
Proof.
  intros Hok (record & t1 & Hg & Hk)%eff_bind_ok. apply get_in_spec in Hg as [-> (Hv & Hid & Hr)]; [|done].
  apply eff_bind_ok in Hk as ([] & t2 & [[-> Hl]%require_exact_ok <-]%lift_ok & Hk). done.
Qed.

Lemma revision_bind {B} fault id revision state (k : InstanceRecord → eff RegistryTables InstanceError B) t b t' :
  rows_ok (instances t) →
  (record ← get_in fault id; lift (require record revision state) ;; k record) t = (Ok b, t') →
  ∃ r, records (view t) !! record_id r = Some r ∧ record_id r = id ∧ record_ok r ∧ record_revision r = revision ∧
    record_lifecycle r = state ∧ k r t = (Ok b, t').
Proof.
  intros Hok (r & t1 & Hg & Hk)%eff_bind_ok. apply get_in_spec in Hg as [-> (Hv & Hid & Hr)]; [|done].
  apply eff_bind_ok in Hk as ([] & t2 & [[Hrev Hl]%require_ok <-]%lift_ok & Hk). exists r. by rewrite Hid.
Qed.

(** A record advanced and written takes its place in the map. *)
Lemma advance_write {B} fault r (k : InstanceRecord → eff RegistryTables InstanceError B) t b t' :
  rows_ok (instances t) → record_ok r →
  (record ← lift (advance r); write fault record ;; k record) t = (Ok b, t') →
  ∃ t1, record_revision r < i64_max ∧ rows_ok (instances t1) ∧ selection t1 = selection t ∧
    view_rows (instances t1) = <[record_id r := bump r]> (view_rows (instances t)) ∧ k (bump r) t1 = (Ok b, t').
Proof.
  intros Hok Hr (r' & t0 & [Hadv <-]%lift_ok & Hk)%eff_bind_ok.
  apply advance_ok in Hadv as [Hlt ->]; [|by apply rok_revision]. apply eff_bind_ok in Hk as ([] & t1 & Hw & Hk).
  apply write_ok in Hw as (Hok1 & Hsel & Hview); [|done|by apply bump_ok]. by exists t1.
Qed.

Lemma put_tables_ok t t' r :
  tables_ok t → rows_ok (instances t') → selection t' = selection t →
  view_rows (instances t') = <[record_id r := r]> (view_rows (instances t)) →
  record_lifecycle r ≠ Reserved ∨ records (view t) !! record_id r = None →
  tables_ok t' ∧ view t' = put (view t) r.
Proof.
  intros [_ Hsome Hsel] Hok Hs Hv Hcase.
  assert (view t' = put (view t) r) as Ev by (unfold view, put; cbn; by rewrite Hv, Hs).
  split; [|done]. split; [done|by rewrite Hs|]. intros id Hid. rewrite Ev in Hid |- *. cbn in Hid |- *.
  destruct (Hsel id Hid) as (r0 & Hr0 & Hl0). destruct (decide (id = record_id r)) as [->|Hne].
  - exists r. rewrite lookup_insert_eq. split; [done|]. destruct Hcase as [Hl|Hn]; [done|congruence].
  - exists r0. by rewrite lookup_insert_ne.
Qed.
Lemma names_of_view t n :
  rows_ok (instances t) → n ∈ row_name <$> instances t ↔ ∃ id r, records (view t) !! id = Some r ∧ record_name r = n.
Proof.
  intros Hok. rewrite list_elem_of_fmap. setoid_rewrite (view_some _ _ _ Hok). split.
  - intros (row & -> & Hin). destruct (proj1 (list.Forall_forall _ _) (rows_each _ Hok) _ Hin) as (r & E & Hc & _).
    exists (row_id row), r. split; [by exists row|by rewrite Hc].
  - intros (id & r & (row & Hin & _ & E) & <-). exists row. split; [|done].
    destruct (proj1 (list.Forall_forall _ _) (rows_each _ Hok) _ Hin) as (r' & E' & Hc & _).
    trans (record_name r'); [congruence|by rewrite Hc].
Qed.

Lemma name_taken_ok fault name except t b t' :
  rows_ok (instances t) → name_taken fault name except t = (Ok b, t') →
  t' = t ∧ (b = true ↔ ∃ id r, records (view t) !! id = Some r ∧ record_name r = name ∧ except ≠ Some id).
Proof.
  intros Hok. unfold name_taken, statement. destruct (fault SelectNameTaken); [done|]. intros [= <- <-]. split; [done|].
  rewrite existsb_exists. setoid_rewrite <-list_elem_of_In. setoid_rewrite (view_some _ _ _ Hok).
  setoid_rewrite andb_true_iff. setoid_rewrite str_eqb_spec. split.
  - intros (row & Hin & <- & He). destruct (proj1 (list.Forall_forall _ _) (rows_each _ Hok) _ Hin) as (r & E & Hc & _).
    exists (row_id row), r. split_and!; [by exists row|by rewrite Hc|]. intros ->. simpl in He.
    by rewrite (proj2 (str_eqb_spec _ _) eq_refl) in He.
  - intros (id & r & (row & Hin & <- & E) & <- & He). exists row. split; [done|].
    destruct (proj1 (list.Forall_forall _ _) (rows_each _ Hok) _ Hin) as (r' & E' & Hc & _).
    split; [trans (record_name r'); [by rewrite Hc|congruence]|]. destruct except as [id|]; [|done]. simpl.
    apply negb_true_iff, str_eqb_false. congruence.
Qed.

Lemma fresh_record_ok instance library_id :
  name_ok (trim (instance_name instance)) → instance_settings_validate (instance_settings instance) = Ok tt →
  record_ok (fresh_record instance library_id).
Proof. intros Hn Hs. split; cbn; try done. Qed.

Lemma library_id_ok id : (is_empty id || (128 <? str_len id)) = false ↔ 0 < str_len id ≤ 128.
Proof. rewrite orb_false_iff, Z.ltb_ge. unfold str_len. destruct id; simpl; [lia|]. intuition lia. Qed.

Lemma reserve_ok fault instance library_id t r t' :
  tables_ok t → reserve fault instance library_id t = (Ok r, t') →
  tables_ok t' ∧ registry_step (view t) (ReserveInstance instance library_id) (view t').
Proof.
  intros Hok Hrun. unfold reserve in Hrun. pose proof (tok_rows _ Hok) as Hrows.
  apply eff_bind_ok in Hrun as (name & t0 & [Hn <-]%lift_ok & Hrun). apply validate_name_ok in Hn as [-> Hn].
  apply eff_bind_ok in Hrun as ([] & t0 & [Hs%map_err_ok <-]%lift_ok & Hrun).
  apply eff_bind_ok in Hrun as ([] & t0 & [Hlib%err_if_ok%library_id_ok <-]%lift_ok & Hrun).
  apply eff_bind_ok in Hrun as (taken & t0 & Htaken & Hrun). apply name_taken_ok in Htaken as [-> Htaken]; [|done].
  apply eff_bind_ok in Hrun as ([] & t0 & [Hfree%err_if_ok <-]%lift_ok & Hrun).
  apply eff_bind_ok in Hrun as (row & t0 & [Hp <-]%lift_ok & Hrun).
  change (record_params (fresh_record instance library_id) = Ok row) in Hp.
  apply record_params_ok in Hp as (Hcols & Hrow & E); [|by apply fresh_record_ok].
  apply eff_bind_ok in Hrun as ([] & t1 & Hins & [_ ->]%eff_ret_ok).
  eapply insert_row_ok in Hins as (Hok1 & Hsel & Hid & Hv); [|done..].
  rewrite Hcols in Hid, Hv. cbn [columns row_id] in Hid, Hv. apply (view_none _ _ (rows_each _ Hrows)) in Hid.
  destruct (put_tables_ok t t' (fresh_record instance library_id)) as [Hok' ->]; [done..|by right|].
  split; [done|]. constructor; [done| |done|done|done]. intros id r1 Hr1 Hname.
  subst taken. assert (false = true) as Hf; [|done]. apply Htaken. exists id, r1. by split_and!.
Qed.

Lemma duplicate_ok fault source new_id requested library_id now t r t' :
  tables_ok t → reserve_duplicate fault source new_id requested library_id now t = (Ok r, t') →
  tables_ok t' ∧ registry_step (view t) (ReserveDuplicate source new_id requested library_id now) (view t').
Proof.
  intros Hok Hrun. unfold reserve_duplicate in Hrun. pose proof (tok_rows _ Hok) as Hrows.
  apply revision_bind in Hrun as (r0 & Hv & Hid & Hr & Hrev & Hl & Hrun); [|done].
  apply eff_bind_ok in Hrun as ([] & t0 & [Heq%err_if_ok%negb_false_iff%bool_decide_eq_true <-]%lift_ok & Hrun).
  subst r0. apply eff_bind_ok in Hrun as (occupied & t0 & Hocc & Hrun).
  unfold statement in Hocc. destruct (fault SelectNames); [done|]. injection Hocc as <- <-.
  apply eff_bind_ok in Hrun as (name & t0 & [Hname%ok_or_ok <-]%lift_ok & Hrun).
  apply reserve_ok in Hrun as [Hok' Hstep]; [|done]. split; [done|].
  econstructor; [done|done| |done|exact Hstep]. intros n. by apply names_of_view.
Qed.
(** An operation that ends by writing an advanced record. *)
Lemma advance_write_ok {A} fault r (k : InstanceRecord → A) t a t' :
  tables_ok t → record_ok r → record_lifecycle r ≠ Reserved →
  (record ← lift (advance r); write fault record ;; mret (k record)) t = (Ok a, t') →
  record_revision r < i64_max ∧ tables_ok t' ∧ view t' = put (view t) (bump r).
Proof.
  intros Hok Hr Hl Hrun. eapply (advance_write fault r (λ record, mret (k record))) in Hrun; [|by apply tok_rows|done].
  destruct Hrun as (t1 & Hlt & Hok1 & Hsel & Hview & [_ ->]%eff_ret_ok). split; [done|].
  by apply put_tables_ok; [| | | |left].
Qed.

Lemma write_unit fault r t t' :
  write fault r t = (Ok tt, t') → (write fault r ;; (mret tt : eff RegistryTables InstanceError unit)) t = (Ok tt, t').
Proof. intros Hw. apply eff_bind_ok. exists tt, t'. split; [done|by apply eff_ret_ok]. Qed.

(** Deleting a row that holds a record. *)
Lemma delete_row_ok fault r t u t' :
  rows_ok (instances t) → delete_row fault (record_id r) t = (Ok u, t') →
  rows_ok (instances t') ∧ selection t' = selection t ∧
  view_rows (instances t') = delete (record_id r) (view_rows (instances t)).
Proof.
  intros Hok. unfold delete_row, statement. destruct (fault DeleteInstance); [done|]. intros [= _ <-].
  cbn [instances set_instances selection]. split_and!; [by apply rows_ok_filter|done|by apply view_filter].
Qed.

Lemma abandon_ok fault expected t u t' :
  tables_ok t → abandon_reserved fault expected t = (Ok u, t') →
  tables_ok t' ∧ registry_step (view t) (AbandonReserved expected) (view t').
Proof.
  intros Hok Hrun. unfold abandon_reserved in Hrun. apply exact_bind in Hrun as (Hv & Hr & Hl & Hrun); [|by apply tok_rows].
  apply delete_row_ok in Hrun as (Hok' & Hsel & Hview); [|by apply tok_rows].
  assert (view t' = {| records := delete (record_id expected) (records (view t)); last_launched := last_launched (view t) |})
    as Ev by (unfold view; cbn; by rewrite Hview, Hsel).
  split; [|rewrite Ev; by constructor]. destruct Hok as [_ Hsome Hselected]. split; [done|by rewrite Hsel|].
  rewrite Ev. cbn. intros id Hid. destruct (Hselected id Hid) as (r0 & Hr0 & Hl0). exists r0. split; [|done].
  rewrite lookup_delete_ne; [done|]. intros <-. congruence.
Qed.

Lemma remove_ok fault expected t u t' :
  tables_ok t → remove fault expected t = (Ok u, t') →
  tables_ok t' ∧ registry_step (view t) (RemoveInstance expected) (view t').
Proof.
  intros Hok Hrun. unfold remove in Hrun. apply exact_bind in Hrun as (Hv & Hr & Hl & Hrun); [|by apply tok_rows].
  apply eff_bind_ok in Hrun as ([] & t1 & Hdel & Hclear).
  apply delete_row_ok in Hdel as (Hok1 & Hsel & Hview); [|by apply tok_rows].
  unfold clear_selection, statement in Hclear. destruct (fault ClearSelection); [done|]. injection Hclear as _ Ht'.
  destruct Hok as [_ [sel Hsome] Hselected].
  assert (instances t' = instances t1 ∧ is_Some (selection t') ∧ default None (selection t') =
    if bool_decide (last_launched (view t) = Some (record_id expected)) then None else last_launched (view t))
    as (Hinst & Hsome' & Hlast).
  { unfold view. cbn. rewrite Hsome. cbn. rewrite Hsel, Hsome in Ht'. unfold record_id. subst t'.
    destruct (decide (sel = Some (instance_id (record_instance expected)))) as [->|Hne].
    - rewrite !bool_decide_true by done. by cbn.
    - rewrite !bool_decide_false by congruence. by rewrite Hsel, Hsome. }
  assert (view t' = {| records := delete (record_id expected) (records (view t));
    last_launched := if bool_decide (last_launched (view t) = Some (record_id expected)) then None
                     else last_launched (view t) |}) as Ev.
  { unfold view at 1. by rewrite Hinst, Hview, Hlast. }
  split; [|rewrite Ev; by constructor]. split; [by rewrite Hinst|done|]. rewrite Ev. cbn.
  intros id Hid. case_bool_decide as Hsel'; [done|]. destruct (Hselected id Hid) as (r0 & Hr0 & Hl0). exists r0.
  split; [|done]. rewrite lookup_delete_ne; [done|]. intros <-. by rewrite <-Hid in Hsel'.
Qed.

Lemma launch_ok fault expected launched_at t u t' :
  tables_ok t → launch_recorded fault expected launched_at t = (Ok u, t') →
  tables_ok t' ∧ registry_step (view t) (RecordLaunch expected launched_at) (view t').
Proof.
  intros Hok Hrun. unfold launch_recorded in Hrun. apply exact_bind in Hrun as (Hv & Hr & Hl & Hrun); [|by apply tok_rows].
  set (r := set_record_instance expected (set_last_played_at (record_instance expected) launched_at)) in *.
  apply (advance_write fault r (λ record, selected ← update_selection fault (instance_id (record_instance record));
    lift (err_if (negb (selected =? 1)%nat) Conflict))) in Hrun; [|by apply tok_rows|].
  2: { apply set_instance_ok; [done|by repeat split|apply Hr|apply Hr]. }
  destruct Hrun as (t1 & Hlt & Hok1 & Hsel & Hview & Hrun). apply eff_bind_ok in Hrun as (n & t2 & Hupd & [_ <-]%lift_ok).
  unfold update_selection, statement in Hupd. destruct (fault UpdateSelection); [done|].
  destruct (tok_singleton _ Hok) as [sel Es]. rewrite Hsel, Es in Hupd. injection Hupd as _ <-.
  assert (view (set_selection t1 (Some (instance_id (record_instance expected)))) =
    {| records := <[record_id expected := bump r]> (records (view t)); last_launched := Some (record_id expected) |}) as Ev.
  { unfold view. cbn [instances set_selection records]. by rewrite Hview. }
  split; [|rewrite Ev; by constructor]. split; [done|by eexists|]. rewrite Ev. cbn. intros id [= <-].
  exists (bump r). rewrite lookup_insert_eq. split; [done|]. cbn. by rewrite Hl.
Qed.

Lemma patched_record_ok patch r i :
  record_ok r → instance_apply patch (record_instance r) = (Ok tt, i) → record_ok (set_record_instance r i).
Proof.
  intros Hr Ha. pose proof (apply_same_identity _ _ _ _ Ha) as Hsame. apply instance_apply_iff in Ha as [Hi Hacc].
  apply set_instance_ok; [done|by destruct Hsame as (? & ? & ? & ? & ? & ? & ? & ?)| |by rewrite Hi; apply Hacc].
  rewrite Hi. cbn. pose proof (pa_name _ _ Hacc) as Hname. destruct (ip_name patch); [by apply Hname|by apply rok_name].
Qed.

Lemma update_ok fault id revision patch t r' t' :
  tables_ok t → updated fault id revision patch t = (Ok r', t') →
  tables_ok t' ∧ registry_step (view t) (UpdateInstanceWith id revision patch) (view t').
Proof.
  intros Hok Hrun. unfold updated in Hrun.
  apply revision_bind in Hrun as (r & Hv & Hid & Hr & Hrev & Hl & Hrun); [|by apply tok_rows].
  apply eff_bind_ok in Hrun as (patched & t0 & [Hp <-]%lift_ok & Hrun).
  destruct (instance_apply patch (record_instance r)) as [[[]|e] i] eqn:Ha; [|done]. injection Hp as <-.
  pose proof (patched_record_ok _ _ _ Hr Ha) as Hr'. pose proof (apply_same_identity _ _ _ _ Ha) as [Hid' _].
  apply eff_bind_ok in Hrun as (taken & t0 & Htaken & Hrun). apply name_taken_ok in Htaken as [-> Htaken]; [|by apply tok_rows].
  apply eff_bind_ok in Hrun as ([] & t0 & [Hfree%err_if_ok <-]%lift_ok & Hrun).
  apply (advance_write_ok fault (set_record_instance r i) (λ record, record)) in Hrun as (Hlt & Hok' & ->);
    [|done|done|by cbn; rewrite Hl].
  split; [done|]. eapply step_update; [by split_and!|done|done|done|].
  intros id' r1 Hr1 Hne Hname. subst taken. assert (false = true) as Hf; [|done]. apply Htaken.
  exists id', r1. split_and!; [done|done|congruence].
Qed.
Lemma commit_ok fault expected receipt t r t' :
  tables_ok t → commit_reserved fault expected receipt t = (Ok r, t') →
  tables_ok t' ∧ registry_step (view t) (CommitReserved expected receipt) (view t').
Proof.
  intros Hok Hrun. apply eff_bind_ok in Hrun as ([] & t0 & [Hlen%err_if_ok <-]%lift_ok & Hrun).
  apply exact_bind in Hrun as (Hv & Hr & Hl & Hrun); [|by apply tok_rows].
  assert (0 < str_len receipt ≤ 4096) as Hlen'.
  { apply orb_false_iff in Hlen as [? ?%Z.ltb_ge]. destruct receipt; [done|]. unfold str_len in *. cbn in *. lia. }
  apply (advance_write_ok fault _ (λ record, record)) in Hrun as (Hlt & Hok' & ->); [|done| |done].
  2: { apply set_lifecycle_ok; [done|]. split; [|by intros]; by intros. }
  split; [done|]. constructor; [by split_and!|done].
Qed.

Lemma deleting_ok fault id revision t r' t' :
  tables_ok t → mark_deleting fault id revision t = (Ok r', t') →
  tables_ok t' ∧ registry_step (view t) (MarkDeleting id revision) (view t').
Proof.
  intros Hok Hrun. apply revision_bind in Hrun as (r & Hv & Hid & Hr & Hrev & Hl & Hrun); [|by apply tok_rows].
  apply (advance_write_ok fault _ (λ record, record)) in Hrun as (Hlt & Hok' & ->); [|done| |done].
  2: { apply set_lifecycle_ok; [done|]. rewrite (rok_receipt _ Hr), Hl. naive_solver. }
  split; [done|]. by apply step_deleting; [split_and!| |].
Qed.

Lemma restore_ok fault expected t t' :
  tables_ok t → restore_live fault expected t = (Ok tt, t') →
  tables_ok t' ∧ registry_step (view t) (RestoreLive expected) (view t').
Proof.
  intros Hok Hrun. apply exact_bind in Hrun as (Hv & Hr & Hl & Hrun); [|by apply tok_rows].
  apply eff_bind_ok in Hrun as (r' & t0 & [Hadv <-]%lift_ok & Hw%write_unit).
  assert ((record ← lift (advance (set_lifecycle expected Live (record_directory_receipt expected)));
    write fault record ;; mret tt) t = (Ok tt, t')) as Hrun.
  { apply eff_bind_ok. exists r', t. split; [by apply lift_ok|exact Hw]. }
  apply (advance_write_ok fault _ (λ _, tt)) in Hrun as (Hlt & Hok' & ->); [|done| |done].
  2: { apply set_lifecycle_ok; [done|]. rewrite (rok_receipt _ Hr), Hl. naive_solver. }
  split; [done|]. constructor. by split_and!.
Qed.

(** A command that succeeds is a step of the abstract registry, and keeps the
    tables well-formed. *)
Lemma run_command_refines fault c t t' :
  tables_ok t → run_command fault c t = (Ok tt, t') → tables_ok t' ∧ registry_step (view t) c (view t').
Proof.
  intros Hok. destruct c; cbn [run_command]; intros Hrun;
    try (apply eff_bind_ok in Hrun as (r' & t1 & Hrun & [_ ->]%eff_ret_ok));
    eauto using reserve_ok, duplicate_ok, commit_ok, abandon_ok, deleting_ok, restore_ok, remove_ok, update_ok, launch_ok.
Qed.
(** ** A valid command runs *)

Lemma get_in_runs fault id t r :
  fault SelectRecord = None → rows_ok (instances t) → records (view t) !! id = Some r →
  get_in fault id t = (Ok r, t).
Proof.
  intros Hf Hok Hv. destruct (get_in fault id t) as [[r'|e] t'] eqn:E.
  - apply get_in_spec in E as [-> (Hv' & _)]; [|done]. congruence.
  - apply get_in_spec in E as [-> [[-> Hn]|(s & Hs & _)]]; [congruence|congruence|done].
Qed.

Lemma record_params_runs r : record_ok r → is_Some (record_to_string r) → ∃ row, record_params r = Ok row.
Proof.
  intros Hr [json Hj]. unfold record_params.
  assert (set_record_instance r (clear_java_selection (record_instance r)) = r) as ->.
  { destruct Hr as [_ _ _ _ _ Hjava _]. destruct r as [[] ? ? ? ? ?]. cbn in Hjava. by subst. }
  rewrite Hj. cbn. rewrite (proj2 (Z.leb_le _ _)); [by eexists|]. apply Hr.
Qed.

Lemma constraints_run others r json :
  Forall row_ok others → record_ok r → record_id r ∉ row_id <$> others → record_name r ∉ row_name <$> others →
  constraints_hold others (columns r json) = true.
Proof.
  intros Hall Hr Hid Hname. unfold constraints_hold. cbn [columns row_revision row_lifecycle row_id row_name row_library_id row_directory_name].
  rewrite !andb_true_iff, !bool_decide_eq_true. split_and!; try done.
  - apply Z.ltb_lt, Hr.
  - by destruct (record_lifecycle r).
  - intros (row & Heq & Hin)%list_elem_of_fmap. destruct (proj1 (list.Forall_forall _ _) Hall _ Hin) as (r' & _ & Hc & Hr').
    apply Hid. assert (record_id r = row_id row) as ->; [|by apply list_elem_of_fmap_2].
    rewrite Hc in Heq |- *. cbn in Heq |- *. injection Heq as _ Heq. by rewrite (rok_directory _ Hr), (rok_directory _ Hr') in Heq.
Qed.

(** No other record bears the name. *)
Definition name_free (v : RegistryView) (id : InstanceId) (name : string) : Prop :=
  ∀ id' r', records v !! id' = Some r' → id' ≠ id → record_name r' ≠ name.

Lemma other_names rows id name :
  rows_ok rows → (∀ id' r', view_rows rows !! id' = Some r' → id' ≠ id → record_name r' ≠ name) →
  name ∉ row_name <$> filter (λ r, ¬ has_id id r) rows.
Proof.
  intros Hok Hfree (row & -> & [Hne Hin]%list_elem_of_filter)%list_elem_of_fmap.
  destruct (proj1 (list.Forall_forall _ _) (rows_each _ Hok) _ Hin) as (r & E & Hc & _).
  apply (Hfree (row_id row) r); [|done|by rewrite Hc]. apply view_some; [done|]. by exists row.
Qed.

Lemma write_runs fault r r0 t :
  (∀ s, fault s = None) → rows_ok (instances t) → record_ok r → is_Some (record_to_string r) →
  records (view t) !! record_id r = Some r0 → name_free (view t) (record_id r) (record_name r) →
  ∃ t', write fault r t = (Ok tt, t').
Proof.
  intros Hf Hok Hr Hj Hv Hfree. destruct (record_params_runs r Hr Hj) as [row Hp].
  pose proof (record_params_ok _ _ Hp Hr) as (Hc & _ & _). unfold write, lift, mbind, eff_bind. rewrite Hp.
  unfold update_row, statement. rewrite Hf.
  assert (row_id row = record_id r) as Hid by (by rewrite Hc).
  destruct (find_row (row_id row) (instances t)) as [old|] eqn:Eo.
  2: { apply find_row_none in Eo. rewrite Hid in Eo. apply view_none in Eo; [|by apply rows_each]. unfold view in Hv.
       cbn [records] in Hv. congruence. }
  pose proof (constraints_run (filter (λ r, ¬ has_id (row_id row) r) (instances t)) r (row_record_json row)) as Hrun.
  rewrite <-Hc in Hrun. rewrite Hrun; [by eexists| |done| |].
  - by apply rows_each, rows_ok_filter.
  - rewrite Hid. intros (row' & E & [Hne _]%list_elem_of_filter)%list_elem_of_fmap. by destruct Hne.
  - rewrite Hid. by apply other_names.
Qed.
Lemma view_record rows id r : rows_ok rows → view_rows rows !! id = Some r → record_id r = id ∧ record_ok r.
Proof.
  intros Hok (row & Hin & Hid & E)%view_some; [|done].
  destruct (proj1 (list.Forall_forall _ _) (rows_each _ Hok) _ Hin) as (r' & E' & Hc & Hr). rewrite E in E'.
  injection E' as <-. by rewrite Hc in Hid.
Qed.

Lemma view_names rows id r :
  rows_ok rows → view_rows rows !! id = Some r →
  ∀ id' r', view_rows rows !! id' = Some r' → id' ≠ id → record_name r' ≠ record_name r.
Proof.
  intros Hok (row & Hin & Hid & E)%view_some id' r' (row' & Hin' & Hid' & E')%view_some Hne Hname; [|done..].
  destruct (proj1 (list.Forall_forall _ _) (rows_each _ Hok) _ Hin) as (r1 & E1 & Hc & _).
  destruct (proj1 (list.Forall_forall _ _) (rows_each _ Hok) _ Hin') as (r2 & E2 & Hc' & _).
  assert (row' = row) as ->; [|congruence].
  apply (NoDup_fmap_inj row_name rows); [by apply rows_names|done|done|].
  trans (record_name r2); [by rewrite Hc'|]. trans (record_name r1); [congruence|by rewrite Hc].
Qed.

(** The records a command leaves can be written down. *)
Definition encodable (v : RegistryView) : Prop := map_Forall (λ _ r, is_Some (record_to_string r)) (records v).

Lemma registry_bind_run {A B} (m : eff RegistryTables InstanceError A) (k : A → eff RegistryTables InstanceError B) a t t1 :
  m t = (Ok a, t1) → (m ≫= k) t = k a t1.
Proof. unfold mbind, eff_bind. by intros ->. Qed.

Lemma held_runs {B} fault r revision state (k : InstanceRecord → eff RegistryTables InstanceError B) t :
  (∀ s, fault s = None) → rows_ok (instances t) → records (view t) !! record_id r = Some r →
  record_revision r = revision → record_lifecycle r = state →
  (record ← get_in fault (record_id r); lift (require record revision state) ;; k record) t = k r t ∧
  (record ← get_in fault (record_id r); lift (require_exact record r state) ;; k record) t = k r t.
Proof.
  intros Hf Hok Hv Hrev Hl. rewrite !(registry_bind_run _ _ r t t) by (by apply get_in_runs).
  split; (rewrite (registry_bind_run _ _ tt t t); [done|]).
  - unfold lift. by rewrite (proj2 (require_ok _ _ _)).
  - unfold lift. by rewrite (proj2 (require_exact_ok _ _ _)).
Qed.

Lemma advance_write_runs {B} fault r0 r (k : InstanceRecord → eff RegistryTables InstanceError B) t :
  (∀ s, fault s = None) → rows_ok (instances t) → records (view t) !! record_id r = Some r0 →
  record_ok r → record_revision r < i64_max → is_Some (record_to_string (bump r)) →
  name_free (view t) (record_id r) (record_name r) →
  ∃ t1, (record ← lift (advance r); write fault record ;; k record) t = k (bump r) t1 ∧ selection t1 = selection t.
Proof.
  intros Hf Hok Hv Hr Hlt Hj Hfree. pose proof (bump_ok _ Hr Hlt) as Hb.
  destruct (write_runs fault (bump r) r0 t) as [t1 Hw]; [done..|]. exists t1.
  rewrite (registry_bind_run _ _ (bump r) t t).
  2: { unfold lift. f_equal. apply advance_ok; [apply (rok_revision _ Hr)|done]. }
  rewrite (registry_bind_run _ _ tt t t1) by done. split; [done|]. by apply write_ok in Hw as (_ & ? & _).
Qed.

Lemma reserve_runs fault instance library_id t v' :
  (∀ s, fault s = None) → tables_ok t → encodable v' →
  registry_step (view t) (ReserveInstance instance library_id) v' → ∃ r t', reserve fault instance library_id t = (Ok r, t').
Proof.
  intros Hf Hok Henc Hstep. inversion Hstep as [? ? Hid Hname Hn Hs Hlib| | | | | | | |]; subst.
  pose proof (tok_rows _ Hok) as Hrows. pose proof (fresh_record_ok instance library_id Hn Hs) as Hr.
  destruct (record_params_runs _ Hr) as [row Hp].
  { apply (Henc (instance_id instance)). cbn. by rewrite lookup_insert_eq. }
  pose proof (record_params_ok _ _ Hp Hr) as (Hc & _ & _).
  unfold reserve. rewrite (registry_bind_run _ _ (trim (instance_name instance)) t t).
  2: { unfold lift. f_equal. by apply validate_name_iff. }
  rewrite (registry_bind_run _ _ tt t t).
  2: { unfold lift. cbn [set_instance_name clear_java_selection rebuild instance_settings]. by rewrite Hs. }
  rewrite (registry_bind_run _ _ tt t t) by (unfold lift; by rewrite (proj2 (library_id_ok _) Hlib)).
  destruct (name_taken fault (trim (instance_name instance)) None t) as [[b|e] t1] eqn:Et.
  2: { unfold name_taken, statement in Et. by rewrite Hf in Et. }
  pose proof Et as Et'. apply name_taken_ok in Et' as [-> Hb]; [|done]. rewrite (registry_bind_run _ _ b t t) by done.
  rewrite (registry_bind_run _ _ tt t t).
  2: { unfold lift. destruct b; [|done]. destruct (proj1 Hb eq_refl) as (id & r & Hr' & Hrn & _). by destruct (Hname id r). }
  rewrite (registry_bind_run _ _ row t t) by (unfold lift; exact (f_equal (λ x, (x, t)) Hp)).
  unfold insert_row, statement, mbind, eff_bind. rewrite Hf, Hc, constraints_run; [by eexists _, _|by apply rows_each|done| |].
  - by apply view_none; [apply rows_each|].
  - intros (id & r & Hr' & Hrn)%(names_of_view t _ Hrows). by destruct (Hname id r).
Qed.
Lemma choose_duplicate_name_ext source occupied occupied' requested :
  (∀ n, n ∈ occupied ↔ n ∈ occupied') →
  choose_duplicate_name source occupied requested = choose_duplicate_name source occupied' requested.
Proof.
  intros E. unfold choose_duplicate_name.
  assert (list_to_set occupied = (list_to_set occupied' : gset string)) as ->; [|done].
  apply set_eq. intros n. by rewrite !elem_of_list_to_set.
Qed.

Lemma reserve_step_iff v instance library_id v' :
  registry_step v (ReserveInstance instance library_id) v' → v' = put v (fresh_record instance library_id).
Proof. by inversion 1. Qed.

(** A command has at most one outcome. *)
Lemma registry_step_functional v c v1 v2 : registry_step v c v1 → registry_step v c v2 → v1 = v2.
Proof.
  intros Hs1 Hs2. destruct Hs1; inversion Hs2; subst; try done.
  - assert (name = name0) as ->.
    { rewrite (choose_duplicate_name_ext _ occupied occupied0) in * by (intros n; naive_solver). congruence. }
    repeat match goal with Hr : registry_step _ (ReserveInstance _ _) _ |- _ => apply reserve_step_iff in Hr end.
    congruence.
  - assert (r = r0) as -> by (unfold current in *; intuition congruence). done.
  - assert (r = r0) as -> by (unfold current in *; intuition congruence). congruence.
Qed.

Lemma set_lifecycle_runs {A} fault r lifecycle receipt (k : InstanceRecord → A) t :
  (∀ s, fault s = None) → rows_ok (instances t) → records (view t) !! record_id r = Some r →
  record_revision r < i64_max → (receipt = None ↔ lifecycle = Reserved) →
  encodable (put (view t) (bump (set_lifecycle r lifecycle receipt))) →
  ∃ b t', (record ← lift (advance (set_lifecycle r lifecycle receipt)); write fault record ;; mret (k record)) t = (Ok b, t').
Proof.
  intros Hf Hok Hv Hlt Hrec Henc. pose proof (view_record _ _ _ Hok Hv) as [_ Hr].
  edestruct (advance_write_runs fault r (set_lifecycle r lifecycle receipt) (λ record, mret (k record)) t) as (t1 & -> & _).
  - done.
  - done.
  - done.
  - by apply set_lifecycle_ok.
  - done.
  - apply (Henc (record_id r)). by apply lookup_insert_eq.
  - exact (view_names _ _ _ Hok Hv).
  - by eexists _, _.
Qed.
(** Each command the abstract registry takes runs, without a fault of SQLite. *)
Section runs.
Context (fault : Statement → option StorageError) (Hfault : ∀ s, fault s = None).
Context (t : RegistryTables) (Hok : tables_ok t).
Let Hrows : rows_ok (instances t) := tok_rows _ Hok.

Lemma duplicate_runs source new_id requested library_id now v' :
  encodable v' → registry_step (view t) (ReserveDuplicate source new_id requested library_id now) v' →
  ∃ r t', reserve_duplicate fault source new_id requested library_id now t = (Ok r, t').
Proof.
  intros Henc Hstep. inversion Hstep as [|? ? ? ? ? name occupied ? Hv Hl Hocc Hname Hres| | | | | | |]; subst.
  unfold reserve_duplicate. rewrite (proj1 (held_runs _ source _ _ _ _ Hfault Hrows Hv eq_refl Hl)).
  rewrite (registry_bind_run _ _ tt t t) by (unfold lift; by rewrite bool_decide_true).
  rewrite (registry_bind_run _ _ (row_name <$> instances t) t t) by (unfold statement; by rewrite Hfault).
  rewrite (registry_bind_run _ _ name t t); [by eapply reserve_runs|]. unfold lift.
  rewrite <-(choose_duplicate_name_ext _ occupied); [unfold record_name in Hname; by rewrite Hname|].
  intros n. rewrite Hocc. symmetry. by apply names_of_view.
Qed.

Lemma commit_runs expected receipt :
  current (view t) expected Reserved → 0 < str_len receipt ≤ 4096 →
  encodable (put (view t) (bump (set_lifecycle expected Live (Some receipt)))) →
  ∃ r t', commit_reserved fault expected receipt t = (Ok r, t').
Proof.
  intros (Hv & Hl & Hlt) Hlen Henc. unfold commit_reserved. rewrite (registry_bind_run _ _ tt t t).
  - rewrite (proj2 (held_runs _ expected _ _ _ _ Hfault Hrows Hv eq_refl Hl)).
    by apply (set_lifecycle_runs _ _ _ _ (λ r, r)).
  - unfold lift. rewrite (proj2 (Z.ltb_ge _ _)) by lia. rewrite orb_false_r.
    destruct receipt; [unfold str_len in Hlen; cbn in Hlen; lia|done].
Qed.

Lemma deleting_runs r :
  current (view t) r Live → encodable (put (view t) (bump (set_lifecycle r Deleting (record_directory_receipt r)))) →
  ∃ r' t', mark_deleting fault (record_id r) (record_revision r) t = (Ok r', t').
Proof.
  intros (Hv & Hl & Hlt) Henc. pose proof (view_record _ _ _ Hrows Hv) as [_ Hr]. unfold mark_deleting.
  rewrite (proj1 (held_runs _ r _ _ _ _ Hfault Hrows Hv eq_refl Hl)).
  apply (set_lifecycle_runs _ _ _ _ (λ r, r)); [done..| |done]. rewrite (rok_receipt _ Hr), Hl. naive_solver.
Qed.

Lemma restore_runs r :
  current (view t) r Deleting → encodable (put (view t) (bump (set_lifecycle r Live (record_directory_receipt r)))) →
  ∃ t', restore_live fault r t = (Ok tt, t').
Proof.
  intros (Hv & Hl & Hlt) Henc. pose proof (view_record _ _ _ Hrows Hv) as [_ Hr]. unfold restore_live.
  rewrite (proj2 (held_runs _ r _ _ _ _ Hfault Hrows Hv eq_refl Hl)).
  destruct (set_lifecycle_runs fault r Live (record_directory_receipt r) (λ _, tt) t) as ([] & t' & Hrun); [done..| |done|].
  { rewrite (rok_receipt _ Hr), Hl. naive_solver. }
  exists t'. apply eff_bind_ok in Hrun as (r' & t0 & Hadv & Hw).
  apply eff_bind_ok in Hw as ([] & t1 & Hw & [_ ->]%eff_ret_ok). by rewrite (registry_bind_run _ _ r' t t0).
Qed.

Lemma update_runs r patch i :
  current (view t) r Live → instance_apply patch (record_instance r) = (Ok tt, i) →
  name_free (view t) (record_id r) (instance_name i) → encodable (put (view t) (bump (set_record_instance r i))) →
  ∃ r' t', updated fault (record_id r) (record_revision r) patch t = (Ok r', t').
Proof.
  intros (Hv & Hl & Hlt) Ha Hfree Henc. pose proof (view_record _ _ _ Hrows Hv) as [_ Hr]. unfold updated.
  rewrite (proj1 (held_runs _ r _ _ _ _ Hfault Hrows Hv eq_refl Hl)).
  rewrite (registry_bind_run _ _ (set_record_instance r i) t t) by (unfold lift; by rewrite Ha).
  pose proof (patched_record_ok _ _ _ Hr Ha) as Hr'. pose proof (apply_same_identity _ _ _ _ Ha) as [Hid _].
  destruct (name_taken fault (instance_name i) (Some (record_id r)) t) as [[b|e] t1] eqn:Et.
  2: { unfold name_taken, statement in Et. by rewrite Hfault in Et. }
  pose proof Et as Et'. apply name_taken_ok in Et' as [-> Hb]; [|done]. rewrite (registry_bind_run _ _ b t t) by done.
  rewrite (registry_bind_run _ _ tt t t).
  2: { unfold lift. destruct b; [|done]. destruct (proj1 Hb eq_refl) as (id & r' & Hr0 & Hrn & Hne).
       destruct (Hfree id r' Hr0); congruence. }
  assert (record_id (set_record_instance r i) = record_id r) as Eid by exact Hid.
  destruct (advance_write_runs fault r (set_record_instance r i) (λ record, mret record) t) as (t1 & E & _);
    [done|done|by rewrite Eid|done|done| |by rewrite Eid|by rewrite E; eexists _, _].
  apply (Henc (record_id r)). cbn [put records]. rewrite <-Eid. apply lookup_insert_eq.
Qed.

Lemma launch_runs r launched_at :
  current (view t) r Live →
  is_Some (record_to_string (bump (set_record_instance r (set_last_played_at (record_instance r) launched_at)))) →
  ∃ t', launch_recorded fault r launched_at t = (Ok tt, t').
Proof.
  intros (Hv & Hl & Hlt) Henc. pose proof (view_record _ _ _ Hrows Hv) as [_ Hr]. unfold launch_recorded.
  rewrite (proj2 (held_runs _ r _ _ _ _ Hfault Hrows Hv eq_refl Hl)).
  edestruct (advance_write_runs fault r (set_record_instance r (set_last_played_at (record_instance r) launched_at))
    (λ record, selected ← update_selection fault (instance_id (record_instance record));
      lift (err_if (negb (selected =? 1)%nat) Conflict)) t) as (t1 & E & Hsel).
  - done.
  - done.
  - done.
  - apply set_instance_ok; [done|by repeat split|apply Hr|apply Hr].
  - done.
  - done.
  - exact (view_names _ _ _ Hrows Hv).
  - rewrite E. destruct (tok_singleton _ Hok) as [sel Es]. rewrite Es in Hsel.
    unfold update_selection, statement, mbind, eff_bind. rewrite Hfault, Hsel. by eexists.
Qed.

Lemma run_command_runs c v' :
  encodable v' → registry_step (view t) c v' → ∃ t', run_command fault c t = (Ok tt, t').
Proof.
  intros Henc Hstep.
  assert (∀ {A} (m : eff RegistryTables InstanceError A), (∃ a t', m t = (Ok a, t')) → ∃ t', (m ;; mret tt) t = (Ok tt, t'))
    as Hunit by (intros A m (a & t' & Hm); exists t'; by rewrite (registry_bind_run _ _ a t t')).
  pose proof Hstep as Hstep'. destruct Hstep as [| | |expected Hv Hl|id rev r Hcur <- <-| |expected Hv Hl
    |id rev patch r i Hcur <- <- Ha Hfree|expected at_ Hcur]; cbn [run_command].
  - apply Hunit. by eapply reserve_runs.
  - apply Hunit. by eapply duplicate_runs.
  - apply Hunit. by apply commit_runs.
  - unfold abandon_reserved. rewrite (proj2 (held_runs _ expected _ _ _ _ Hfault Hrows Hv eq_refl Hl)).
    unfold delete_row, statement. rewrite Hfault. by eexists.
  - apply Hunit. by apply deleting_runs.
  - by apply restore_runs.
  - unfold remove. rewrite (proj2 (held_runs _ expected _ _ _ _ Hfault Hrows Hv eq_refl Hl)).
    unfold delete_row, clear_selection, statement, mbind, eff_bind. rewrite !Hfault. by eexists.
  - apply Hunit. by eapply update_runs.
  - apply launch_runs; [done|]. apply (Henc (record_id expected)). apply lookup_insert_eq.
Qed.
End runs.
End tables.
