(* ===== verification/InstanceProps.v ===== *)
(** * Histories of the instance registry

    What transactions, reads and panicking callbacks can make of the registry
    in any order, and what its readers and editors may rely on. *)

From S2P Require Import Prelude RustStr Effect SettingsModel Storage InstanceModel InstanceRegistry InstanceHistory.

(** ** The life of an instance *)

(** A change to a record that stays. *)
Inductive life_step : InstanceRecord → InstanceRecord → Prop :=
| life_commit r receipt :
    record_lifecycle r = Reserved → life_step r (bump (set_lifecycle r Live (Some receipt)))
| life_edit r i :
    record_lifecycle r = Live → instance_id i = record_id r →
    instance_version_id i = instance_version_id (record_instance r) →
    instance_minecraft_version i = instance_minecraft_version (record_instance r) →
    life_step r (bump (set_record_instance r i))
| life_delete r :
    record_lifecycle r = Live → life_step r (bump (set_lifecycle r Deleting (record_directory_receipt r)))
| life_restore r :
    record_lifecycle r = Deleting → life_step r (bump (set_lifecycle r Live (record_directory_receipt r))).

(** An identity is reserved first, and goes as a reservation or from deletion. *)
Inductive life_edge : option InstanceRecord → option InstanceRecord → Prop :=
| life_reserved instance library_id : life_edge None (Some (fresh_record instance library_id))
| life_stays r r' : life_step r r' → life_edge (Some r) (Some r')
| life_gone r : record_lifecycle r = Reserved ∨ record_lifecycle r = Deleting → life_edge (Some r) None.

Definition reserved_id (c : RegistryCommand) : option InstanceId :=
  match c with
  | ReserveInstance instance _ => Some (instance_id instance)
  | ReserveDuplicate _ new_id _ _ _ => Some new_id
  | _ => None
  end.

Lemma life_step_revision r r' : life_step r r' → record_revision r' = record_revision r + 1 ∧ record_id r' = record_id r.
Proof. by destruct 1. Qed.

Lemma life_steps_revision r r' : rtc life_step r r' → record_revision r < record_revision r' ∨ r = r'.
Proof.
  induction 1 as [|r r1 r2 Hs _ IH]; [by right|]. apply life_step_revision in Hs as [Hs _]. left.
  destruct IH as [?| ->]; lia.
Qed.

(** What a command does to one identity: nothing, or one edge of its life; it
    comes into being by a reservation under it. *)
Definition touches (c : RegistryCommand) (id : InstanceId) (before after : option InstanceRecord) : Prop :=
  after = before ∨ life_edge before after ∧ (before = None → reserved_id c = Some id).

Lemma put_life v c r r' id :
  records v !! record_id r = Some r → record_id r' = record_id r → life_step r r' →
  touches c id (records v !! id) (<[record_id r' := r']> (records v) !! id).
Proof.
  intros Hr -> Hs. destruct (decide (id = record_id r)) as [->|Hne].
  - right. rewrite lookup_insert_eq, Hr. split; [by constructor|done].
  - left. by rewrite lookup_insert_ne.
Qed.

Lemma reserve_life v c instance library_id id :
  records v !! instance_id instance = None → reserved_id c = Some (instance_id instance) →
  touches c id (records v !! id) (records (put v (fresh_record instance library_id)) !! id).
Proof.
  intros Hn Hc. unfold put, record_id. cbn. destruct (decide (id = instance_id instance)) as [->|Hne].
  - right. rewrite lookup_insert_eq, Hn. split; [constructor|done].
  - left. by rewrite lookup_insert_ne.
Qed.

Lemma delete_life v c r id :
  records v !! record_id r = Some r → record_lifecycle r = Reserved ∨ record_lifecycle r = Deleting →
  touches c id (records v !! id) (delete (record_id r) (records v) !! id).
Proof.
  intros Hr Hl. destruct (decide (id = record_id r)) as [->|Hne].
  - right. rewrite lookup_delete_eq, Hr. split; [by constructor|done].
  - left. by rewrite lookup_delete_ne.
Qed.

Lemma step_life v c v' id : registry_step v c v' → touches c id (records v !! id) (records v' !! id).
Proof.
  destruct 1 as [instance lib Hn| ? ? ? ? ? ? ? ? ? ? ? ? Hres|expected receipt (Hv & Hl & _)|expected Hv Hl|? ? r (Hv & Hl & _)
    |expected (Hv & Hl & _)|expected Hv Hl|? ? patch r i (Hv & Hl & _) ? ? Ha|expected at_ (Hv & Hl & _)]; cbn [put records].
  - by apply reserve_life.
  - inversion Hres; subst. by apply reserve_life.
  - apply put_life with expected; [done|done|by constructor].
  - apply delete_life; auto.
  - apply put_life with r; [done|done|by constructor].
  - apply put_life with expected; [done|done|by constructor].
  - apply delete_life; auto.
  - apply apply_same_identity in Ha as (? & ? & _ & _ & _ & ? & _). apply put_life with r; [done|done|by constructor].
  - apply (put_life _ _ expected (bump (set_record_instance expected (set_last_played_at (record_instance expected) at_))));
      [done|done|by constructor].
Qed.

(** ** Histories *)

Section histories.
Context `{RecordJsonLaws}.

(** The callback of a transaction runs commands and stops at the first that
    fails. *)
Definition run_commands (commands : list ((Statement → option StorageError) * RegistryCommand)) :
    eff RegistryTables InstanceError unit :=
  eff_fold (λ _ '(fault, c), run_command fault c) tt commands.

(** A step of the store, with the commands it has committed. *)
Inductive store_step (s : MetadataStore RegistryTables) :
    list RegistryCommand → MetadataStore RegistryTables → Prop :=
| store_commits call commands s' :
    settles call → transaction InstanceStorage call (run_commands commands) s = (Ok tt, s') →
    store_step s (commands.*2) s'
| store_rolls_back call commands e s' :
    settles call → transaction InstanceStorage call (run_commands commands) s = (Err e, s') →
    store_step s [] s'
| store_reads {T} call (read : RegistryTables → result InstanceError T) r s' :
    read_callback InstanceStorage call read s = (r, s') → store_step s [] s'
| store_interrupted : store_step s [] (interrupt s).

Inductive store_history : MetadataStore RegistryTables → list RegistryCommand → MetadataStore RegistryTables → Prop :=
| history_nil s : store_history s [] s
| history_cons s cs s1 cs' s2 : store_step s cs s1 → store_history s1 cs' s2 → store_history s (cs ++ cs') s2.

Inductive registry_run : RegistryView → list RegistryCommand → RegistryView → Prop :=
| run_nil v : registry_run v [] v
| run_cons v c v1 cs v2 : registry_step v c v1 → registry_run v1 cs v2 → registry_run v (c :: cs) v2.

Lemma registry_run_app v cs v1 cs' v2 : registry_run v cs v1 → registry_run v1 cs' v2 → registry_run v (cs ++ cs') v2.
Proof. induction 1; simpl; [done|]. intros. econstructor; eauto. Qed.

Lemma run_commands_refines commands t t' :
  tables_ok t → run_commands commands t = (Ok tt, t') → tables_ok t' ∧ registry_run (view t) (commands.*2) (view t').
Proof.
  unfold run_commands. revert t. induction commands as [|[fault c] commands IH]; intros t Hok; simpl.
  - intros [= <-]. split; [done|constructor].
  - intros ([] & t1 & [Hok1 Hstep]%run_command_refines & [Hok' Hrun]%IH)%eff_bind_ok; [|done..].
    split; [done|]. by econstructor.
Qed.

Lemma store_step_refines s cs s' :
  tables_ok (database s) → store_step s cs s' →
  tables_ok (database s') ∧ registry_run (view (database s)) cs (view (database s')).
Proof.
  intros Hok. destruct 1 as [call commands s' Hs Ht|call commands e s' Hs Ht|T call read r s' Hr|].
  - apply transaction_cases in Ht; [|done]. inversion Ht as [value changed ? Hw _ _ ->|]; subst.
    by apply run_commands_refines.
  - apply transaction_cases in Ht; [|done]. inversion Ht as [|? ? Hd _ _ _]; subst. rewrite Hd. split; [done|constructor].
  - apply read_keeps in Hr as (Hd & _ & _). rewrite Hd. split; [done|constructor].
  - split; [done|constructor].
Qed.

Lemma store_history_refines s cs s' :
  tables_ok (database s) → store_history s cs s' →
  tables_ok (database s') ∧ registry_run (view (database s)) cs (view (database s')).
Proof.
  intros Hok Hh. induction Hh as [s|s cs s1 cs' s2 Hs _ IH]; [split; [done|constructor]|].
  apply store_step_refines in Hs as [Hok1 Hr1]; [|done]. destruct (IH Hok1) as [Hok2 Hr2].
  split; [done|]. by eapply registry_run_app.
Qed.

Lemma migrated_tables_ok : tables_ok migrated_tables.
Proof. split; [split; constructor|by eexists|done]. Qed.

(** While no command reserves it anew, an identity is where it was, has
    changed by steps of its life, or is gone. *)
Lemma registry_run_life v cs v' id :
  registry_run v cs v' → Forall (λ c, reserved_id c ≠ Some id) cs →
  match records v !! id, records v' !! id with
  | Some r, Some r' => rtc life_step r r'
  | None, Some _ => False
  | _, None => True
  end.
Proof.
  induction 1 as [v|v c v1 cs v2 Hs _ IH]; intros Hall.
  { destruct (records v !! id); [constructor|done]. }
  apply list.Forall_cons in Hall as [Hc Hall]. specialize (IH Hall).
  destruct (step_life _ _ _ id Hs) as [<-|[He Hr]]; [done|].
  inversion He as [instance lib E1 E2|r r' Hl E1 E2|r Hl E1 E2]; rewrite <-E2 in IH.
  - by destruct Hc; apply Hr.
  - destruct (records v2 !! id); [|done]. by eapply rtc_l.
  - by destruct (records v2 !! id).
Qed.
Lemma registry_run_edges v cs v' id : registry_run v cs v' → rtc life_edge (records v !! id) (records v' !! id).
Proof.
  induction 1 as [|v c v1 cs v2 Hs _ IH]; [constructor|]. destruct (step_life _ _ _ id Hs) as [<-|[He _]]; [done|].
  by eapply rtc_l.
Qed.

(** C15: From the migrated tables on, whatever transactions commit or roll back,
    whatever is read and wherever a callback panics: the committed commands
    are a run of the abstract registry, the rows decode to its records with
    their columns and distinct names, the selection names an instance that has
    been live, and every identity follows the edges of an instance's life. *)
Theorem registry_history_refines s cs s' :
  database s = migrated_tables → store_history s cs s' →
  tables_ok (database s') ∧ registry_run {| records := ∅; last_launched := None |} cs (view (database s')) ∧
  (∀ id, rtc life_edge None (records (view (database s')) !! id)) ∧
  (∀ id r id' r', records (view (database s')) !! id = Some r → records (view (database s')) !! id' = Some r' →
    record_name r = record_name r' → id = id').
Proof.
  intros Hd Hh. destruct (store_history_refines s cs s') as [Hok Hrun]; [rewrite Hd; apply migrated_tables_ok|done|].
  rewrite Hd in Hrun. change (view migrated_tables) with {| records := ∅; last_launched := None |} in Hrun.
  split_and!; [done|done| |].
  - intros id. apply (registry_run_edges _ _ _ id) in Hrun. cbn [records] in Hrun. by rewrite lookup_empty in Hrun.
  - intros id r id' r' Hr Hr' Hn. destruct (decide (id = id')) as [|Hne]; [done|].
    destruct (view_names _ _ _ (tok_rows _ Hok) Hr id' r' Hr'); [by intros ->|done].
Qed.

(** C17: Without a fault of SQLite, a command succeeds exactly when it is a step of
    the abstract registry, and leaves its outcome, as long as the records of
    the outcome can be encoded. *)
Theorem run_command_iff fault t c v' :
  tables_ok t → (∀ s, fault s = None) → encodable v' →
  (∃ t', run_command fault c t = (Ok tt, t') ∧ view t' = v') ↔ registry_step (view t) c v'.
Proof.
  intros Hok Hf Henc. split.
  - intros (t' & Hrun & <-). by eapply run_command_refines.
  - intros Hstep. destruct (run_command_runs fault Hf t Hok c v' Henc Hstep) as [t' Hrun]. exists t'. split; [done|].
    apply run_command_refines in Hrun as [_ Hstep']; [|done]. by eapply registry_step_functional.
Qed.

Lemma update_step_inv v id revision patch v' :
  registry_step v (UpdateInstanceWith id revision patch) v' →
  ∃ r i, records v !! id = Some r ∧ record_revision r = revision ∧ instance_apply patch (record_instance r) = (Ok tt, i) ∧
    v' = put v (bump (set_record_instance r i)).
Proof. inversion 1 as [| | | | | | |? ? ? r i (Hv & Hl & Hlt) <- Hrev Ha Hfree|]. by exists r, i. Qed.

(** C16: No lost update: an edit is accepted only against the record it was read
    from.  Whatever happens between reading a record and editing it under its
    revision, short of reserving the identity anew, an edit that succeeds
    replaces the record that was read. *)
Theorem no_lost_update s cs s1 call fault id patch r edited s2 :
  tables_ok (database s) → store_history s cs s1 → Forall (λ c, reserved_id c ≠ Some id) cs →
  records (view (database s)) !! id = Some r →
  settles call → registry_update call fault id (record_revision r) patch s1 = (Ok edited, s2) →
  records (view (database s1)) !! id = Some r ∧
  instance_apply patch (record_instance r) = (Ok tt, patched patch (record_instance r)) ∧
  view (database s2) = put (view (database s1)) (bump (set_record_instance r (patched patch (record_instance r)))).
Proof.
  intros Hok Hh Hres Hr Hcall Hup. apply store_history_refines in Hh as [Hok1 Hrun]; [|done].
  apply transaction_cases in Hup; [|done]. inversion Hup as [value t2 ? Hw _ _ Es|]; subst. cbn [database with_database].
  apply update_ok in Hw as [_ Hstep]; [|done].
  apply update_step_inv in Hstep as (r1 & i & Hv & Hrev & Ha & ->).
  pose proof (registry_run_life _ _ _ id Hrun Hres) as Hlife. rewrite Hr, Hv in Hlife.
  apply life_steps_revision in Hlife as [?|<-]; [lia|]. pose proof Ha as [-> _]%instance_apply_iff. done.
Qed.

(** ** Listing *)

Definition list_records (t : RegistryTables) : list InstanceRecord := omap (λ row, snd <$> row_record row) (instances t).

Lemma list_where_ok wanted t :
  rows_ok (instances t) →
  list_where wanted t = Ok (filter (λ r, wanted (lifecycle_as_str (record_lifecycle r)) = true) (list_records t)).
Proof.
  intros [_ _ Hall]. unfold list_where, list_records. induction Hall as [|row rows (r & E & Hc & Hr) _ IH]; [done|].
  rewrite filter_cons. assert (row_lifecycle row = lifecycle_as_str (record_lifecycle r)) as -> by (by rewrite Hc).
  cbn [omap list_omap]. unfold row_record at 1. rewrite E. cbn [fmap option_fmap option_map snd]. rewrite filter_cons.
  destruct (decide _); [|exact IH]. cbn [try_map]. rewrite (decode_ok _ _ E Hr). by rewrite IH.
Qed.

Lemma list_records_elem t r :
  rows_ok (instances t) → r ∈ list_records t ↔ records (view t) !! record_id r = Some r.
Proof.
  intros Hok. unfold list_records. rewrite list_elem_of_omap. unfold view. cbn [records]. rewrite view_some by done.
  split.
  - intros (row & Hin & Er). unfold row_record in Er. destruct (record_from_str _) as [r'|] eqn:E; [|done].
    injection Er as ->. exists row. split_and!; [done| |done].
    destruct (proj1 (list.Forall_forall _ _) (rows_each _ Hok) _ Hin) as (r' & E' & Hc & _). rewrite Hc. cbn. congruence.
  - intros (row & Hin & Hid & E). exists row. split; [done|]. unfold row_record. by rewrite E.
Qed.

Lemma list_records_ids t : rows_ok (instances t) → record_id <$> list_records t = row_id <$> instances t.
Proof.
  intros [_ _ Hall]. unfold list_records. induction Hall as [|row rows (r & E & Hc & _) _ IH]; [done|].
  cbn [omap list_omap]. unfold row_record at 1. rewrite E. cbn [fmap option_fmap option_map snd list_fmap].
  cbn [fmap] in IH. rewrite IH. f_equal. by rewrite Hc.
Qed.

(** Listing never fails, and shows every record once: the live ones to users,
    the others to recovery. *)
Theorem listing_partitions t :
  tables_ok t →
  ∃ live pending, list_live t = Ok live ∧ list_pending t = Ok pending ∧ NoDup (record_id <$> live ++ pending) ∧
  (∀ r, r ∈ live ↔ records (view t) !! record_id r = Some r ∧ record_lifecycle r = Live) ∧
  (∀ r, r ∈ pending ↔ records (view t) !! record_id r = Some r ∧ record_lifecycle r ≠ Live).
Proof.
  intros Hok. pose proof (tok_rows _ Hok) as Hrows. eexists _, _.
  split; [by apply list_where_ok|]. split; [by apply list_where_ok|].
  assert (∀ l : InstanceLifecycle, str_eqb "live" (lifecycle_as_str l) = true ↔ l = Live) as Hl1 by (by intros []).
  assert (∀ l : InstanceLifecycle, negb (str_eqb (lifecycle_as_str l) "live") = true ↔ l ≠ Live) as Hl2 by (by intros []).
  pose proof (rows_ids _ Hrows) as Hnd. rewrite <-list_records_ids in Hnd by done. split_and!.
  - rewrite fmap_app. apply list.NoDup_app. split_and!.
    + eapply sublist_NoDup; [exact Hnd|]. apply fmap_sublist, sublist_filter.
    + intros id (r & -> & [Hr Hin]%list_elem_of_filter)%list_elem_of_fmap
        (r' & E & [Hr' Hin']%list_elem_of_filter)%list_elem_of_fmap.
      assert (r' = r) as -> by (by eapply NoDup_fmap_inj). apply Hl1 in Hr. by apply Hl2 in Hr'.
    + eapply sublist_NoDup; [exact Hnd|]. apply fmap_sublist, sublist_filter.
  - intros r. by rewrite list_elem_of_filter, (list_records_elem _ _ Hrows), Hl1, (comm (∧)).
  - intros r. by rewrite list_elem_of_filter, (list_records_elem _ _ Hrows), Hl2, (comm (∧)).
Qed.
End histories.

Module InstanceDemo.
Definition uuid_a : string := "0f8fad5b-d9cb-469f-a165-70867728950e".

#[local] Instance demo_uuid : UuidParser := λ s, if str_eqb s uuid_a then Some uuid_a else None.

Definition survival : InstanceData := {|
  instance_id := uuid_a; instance_name := " Survival "; instance_version_id := "1.21.1"; instance_created_at := "2026-01-01";
  instance_last_played_at := ""; instance_art_seed := new_art_seed uuid_a; instance_settings := default_instance_settings;
  instance_java_selection := Some Inherited; instance_icon := ""; instance_accent := "#00aa00"; instance_loader_key := "vanilla";
  instance_minecraft_version := "1.21.1"; instance_revision := 7 |}.

Definition rename (name : string) : InstancePatch := {|
  ip_expected_revision := None; ip_name := Some name; ip_version_id := Some "1.21.1"; ip_art_seed := None;
  ip_max_memory_mb := Some 4096; ip_min_memory_mb := None; ip_java_path := None; ip_window_width := None;
  ip_window_height := None; ip_jvm_preset := None; ip_performance_mode := None; ip_extra_jvm_args := None;
  ip_auto_optimize := None; ip_icon := None; ip_accent := None |}.

Lemma instance_patch_keeps_ok_witness :
  let i := set_instance_name survival "Survival" in instance_ok i ∧ instance_ok (patched (rename " Hardcore ") i).
Proof.
  assert (instance_ok (set_instance_name survival "Survival")) as Hok.
  { split; unfold name_ok, label_ok; try split_and!; vm_compute; first [done|lia]. }
  split; [exact Hok|]. destruct (instance_patch_keeps_ok (rename " Hardcore ") _ (patched (rename " Hardcore ")
    (set_instance_name survival "Survival")) Hok) as [H _]; [vm_compute; reflexivity|exact H].
Defined.

Lemma duplicate_name_spec_witness :
  choose_duplicate_name "Survival" ["Survival"; "Survival copy"; "Survival copy 2"] (Some "  ") = Some "Survival copy 3".
Proof.
  pose proof (duplicate_name_spec "Survival" ["Survival"; "Survival copy"; "Survival copy 2"] (Some "  ")) as Hs.
  change (is_empty (trim "  ")) with true in Hs. rewrite Hs by (vm_compute; discriminate). vm_compute. reflexivity.
Defined.

(** The records of one instance's life and their texts. *)
Definition reserved : InstanceRecord := fresh_record survival "library".
Definition committed : InstanceRecord := bump (set_lifecycle reserved Live (Some "receipt")).
Definition renamed : InstanceRecord :=
  bump (set_record_instance committed (patched (rename "Hardcore") (record_instance committed))).

Definition texts : list (string * InstanceRecord) := [("{reserved}", reserved); ("{committed}", committed); ("{renamed}", renamed)].

#[local] Instance demo_json : RecordJson := {|
  record_to_string := λ r, fst <$> find (λ p, bool_decide (p.2 = r)) texts;
  record_from_str := λ s, snd <$> find (λ p, str_eqb p.1 s) texts |}.

#[local] Instance demo_laws : RecordJsonLaws.
Proof.
  split.
  - intros r s _. simpl. repeat (case_bool_decide as E; [intros [= <-]; subst r; reflexivity|]; clear E). done.
  - intros r s (p & [Hin _]%find_some & ->)%fmap_Some.
    destruct Hin as [<-|[<-|[<-|[]]]]; vm_compute; reflexivity.
Qed.

Definition no_fault (s : Statement) : option StorageError := None.

Definition demo_store (t : RegistryTables) : MetadataStore RegistryTables :=
  {| database := t; mutation_closed := false; poisoned := false |}.

Definition with_row (r : InstanceRecord) (text : string) : RegistryTables :=
  {| instances := [columns r text]; selection := Some None |}.

Definition creation : list ((Statement → option StorageError) * RegistryCommand) :=
  [(no_fault, ReserveInstance survival "library"); (no_fault, CommitReserved reserved "receipt")].

Lemma creation_commits :
  transaction InstanceStorage quiet_call (run_commands creation) (demo_store migrated_tables) =
  (Ok tt, demo_store (with_row committed "{committed}")).
Proof. vm_compute. reflexivity. Qed.

(** Deleting with a revision that has moved on rolls back. *)
Lemma stale_delete_rolls_back :
  transaction InstanceStorage quiet_call (run_commands [(no_fault, MarkDeleting uuid_a 1)])
    (demo_store (with_row committed "{committed}")) = (Err Conflict, demo_store (with_row committed "{committed}")).
Proof. vm_compute. reflexivity. Qed.

Lemma demo_history :
  store_history (demo_store migrated_tables) (creation.*2 ++ [] ++ []) (demo_store (with_row committed "{committed}")).
Proof.
  eapply history_cons; [exact (store_commits _ quiet_call creation _ eq_refl creation_commits)|].
  eapply history_cons; [exact (store_rolls_back _ quiet_call _ _ _ eq_refl stale_delete_rolls_back)|]. constructor.
Qed.

Lemma registry_history_refines_witness :
  tables_ok (with_row committed "{committed}") ∧
  registry_run {| records := ∅; last_launched := None |} (creation.*2) (view (with_row committed "{committed}")).
Proof.
  destruct (registry_history_refines (demo_store migrated_tables) _ _ eq_refl demo_history) as (Hok & Hrun & _ & _).
  split; [exact Hok|exact Hrun].
Defined.

Lemma committed_ok : tables_ok (with_row committed "{committed}").
Proof.
  destruct (store_history_refines (demo_store migrated_tables) _ _ migrated_tables_ok demo_history) as [Hok _]. exact Hok.
Qed.

Lemma run_command_iff_witness :
  registry_step (view migrated_tables) (ReserveInstance survival "library") (view (with_row reserved "{reserved}")).
Proof.
  apply (run_command_iff no_fault migrated_tables (ReserveInstance survival "library") (view (with_row reserved "{reserved}"))
    migrated_tables_ok (λ _, eq_refl)).
  - intros id r Hr. change (({[uuid_a := reserved]} : gmap string InstanceRecord) !! id = Some r) in Hr.
    apply lookup_singleton_Some in Hr as [<- <-]. by exists "{reserved}".
  - exists (with_row reserved "{reserved}"). split; [vm_compute; reflexivity|reflexivity].
Defined.

Lemma no_lost_update_witness :
  ∃ s2, registry_update quiet_call no_fault uuid_a 2 (rename "Hardcore") (demo_store (with_row committed "{committed}")) =
    (Ok renamed, s2) ∧ view (database s2) = put (view (with_row committed "{committed}")) renamed.
Proof.
  exists (demo_store (with_row renamed "{renamed}")).
  assert (registry_update quiet_call no_fault uuid_a 2 (rename "Hardcore") (demo_store (with_row committed "{committed}")) =
    (Ok renamed, demo_store (with_row renamed "{renamed}"))) as E by (vm_compute; reflexivity).
  split; [exact E|].
  destruct (no_lost_update (demo_store (with_row committed "{committed}")) [] (demo_store (with_row committed "{committed}"))
    quiet_call no_fault uuid_a (rename "Hardcore") committed renamed (demo_store (with_row renamed "{renamed}"))
    committed_ok (history_nil _) (List.Forall_nil _) eq_refl eq_refl E) as (_ & _ & Hv).
  exact Hv.
Defined.

Lemma listing_partitions_witness :
  ∃ live pending, list_live (with_row committed "{committed}") = Ok live ∧
    list_pending (with_row committed "{committed}") = Ok pending ∧ committed ∈ live ∧ committed ∉ pending.
Proof.
  destruct (listing_partitions _ committed_ok) as (live & pending & Hl & Hp & _ & Hlive & Hpending).
  exists live, pending. split; [exact Hl|]. split; [exact Hp|]. split.
  - apply Hlive. split; reflexivity.
  - intros Hin. apply Hpending in Hin as [_ Hin]. by apply Hin.
Defined.

(** A name of 124 characters cannot be duplicated: the name of its copy is
    longer than a name may be. *)
Definition long_name : string := str_concat (replicate 124 "a").

Example long_name_not_duplicated :
  validate_name long_name = Ok long_name ∧
  (λ name, validate_name name) <$> choose_duplicate_name long_name [long_name] None = Some (Err InvalidName).
Proof. vm_compute. done. Qed.
End InstanceDemo.
