(* ===== verification/PerfGraph.v ===== *)
(** * Dependency graphs and their canonical encoding

    Two parts that [core/performance/src/install/plan.rs] uses both for a
    plan being sealed and for an installed state being checked: the
    breadth-first walk from the roots, and the length-prefixed encoding that
    is hashed into the graph digest. *)

From S2P Require Import Prelude RustStr PerfTypes.

(** ** The walk from the roots *)

(** [BTreeMap<String, Vec<String>>]. *)
Notation Adjacency := (gmap string (list string)).

Definition children (adjacency : Adjacency) (project_id : string) : list string :=
  default [] (adjacency !! project_id).

(** [adjacency.entry(parent).or_default().push(child)]. *)
Definition push_child (adjacency : Adjacency) (parent child : string) : Adjacency :=
  <[parent := children adjacency parent ++ [child]]> adjacency.

Lemma push_child_elem adjacency p c x y :
  y ∈ children (push_child adjacency p c) x ↔ y ∈ children adjacency x ∨ p = x ∧ c = y.
Proof.
  unfold push_child. unfold children at 1. destruct (decide (p = x)) as [<-|Hne].
  - rewrite lookup_insert_eq. simpl. rewrite elem_of_app, list_elem_of_singleton. naive_solver.
  - rewrite lookup_insert_ne by done. fold (children adjacency x). naive_solver.
Qed.

(** [if reachable.insert(child) { queue.push_back(child) }]. *)
Definition visit (acc : gset string * list string) (child : string) : gset string * list string :=
  let '(reachable, queue) := acc in
  if bool_decide (child ∈ reachable) then acc else ({[child]} ∪ reachable, queue ++ [child]).

(** The [while let] loop; [walk_enough] shows how much fuel it needs. *)
Fixpoint walk (fuel : nat) (adjacency : Adjacency) (reachable : gset string)
    (queue : list string) : gset string :=
  match fuel with
  | O => reachable
  | S fuel =>
      match queue with
      | [] => reachable
      | project_id :: queue =>
          let '(reachable, queue) :=
            fold_left visit (children adjacency project_id) (reachable, queue) in
          walk fuel adjacency reachable queue
      end
  end.

Inductive reaches (adjacency : Adjacency) (roots : gset string) : string → Prop :=
| reaches_root x : x ∈ roots → reaches adjacency roots x
| reaches_child x y : reaches adjacency roots x → y ∈ children adjacency x → reaches adjacency roots y.

Lemma size_difference_insert c (nodes r : gset string) :
  c ∈ nodes → c ∉ r → size (nodes ∖ r) = S (size (nodes ∖ ({[c]} ∪ r))).
Proof.
  intros Hc Hr. assert (nodes ∖ r = {[c]} ∪ (nodes ∖ ({[c]} ∪ r))) as ->.
  { apply set_eq. intros y. rewrite elem_of_union, !elem_of_difference, elem_of_union, elem_of_singleton.
    destruct (decide (y = c)) as [->|]; tauto. }
  rewrite size_union, size_singleton; [done|]. intros y. set_solver.
Qed.

Section walk.
Context (adjacency : Adjacency) (roots nodes : gset string).
Hypothesis roots_nodes : roots ⊆ nodes.
Hypothesis children_nodes : ∀ x y, y ∈ children adjacency x → y ∈ nodes.

Lemma visit_all cs r q r' q' :
  fold_left visit cs (r, q) = (r', q') → (∀ y, y ∈ cs → y ∈ nodes) →
  r' = list_to_set cs ∪ r ∧
  (∀ y, y ∈ q' ↔ y ∈ q ∨ (y ∈ cs ∧ y ∉ r)) ∧
  (length q' + size (nodes ∖ r') = length q + size (nodes ∖ r))%nat.
Proof.
  revert r q. induction cs as [|c cs IH]; intros r q; simpl.
  { intros [= <- <-] _. rewrite (left_id_L ∅ (∪)). split_and!; [done| |done]. set_solver. }
  intros Hf Hin. case_bool_decide as Hc.
  - destruct (IH _ _ Hf) as (-> & Hq & Hlen); [set_solver|]. split_and!; [set_solver| |].
    + intros y. rewrite Hq. set_solver.
    + rewrite <-Hlen. f_equal.
  - assert (c ∈ nodes) as Hcn by (apply Hin; left).
    assert (∀ y, y ∈ cs → y ∈ nodes) as Hin' by (intros y Hy; apply Hin; by right).
    clear Hin. destruct (IH _ _ Hf Hin') as (-> & Hq & Hlen). clear IH Hf. split_and!.
    + by rewrite (assoc_L (∪)), (comm_L (∪) (list_to_set cs)).
    + clear Hlen Hin'. intros y. rewrite Hq, elem_of_app, !elem_of_cons, elem_of_nil.
      rewrite elem_of_union, elem_of_singleton. destruct (decide (y = c)) as [->|]; tauto.
    + rewrite length_app in Hlen. simpl in Hlen. rewrite Hlen.
      rewrite (size_difference_insert c nodes r) by done. lia.
Qed.

Lemma walk_closed fuel r q :
  r ⊆ nodes → (∀ y, y ∈ q → y ∈ r) →
  (∀ x, x ∈ r → reaches adjacency roots x) →
  (∀ x y, x ∈ r → x ∉ q → y ∈ children adjacency x → y ∈ r) →
  (length q + size (nodes ∖ r) < fuel)%nat →
  let w := walk fuel adjacency r q in
  r ⊆ w ∧ (∀ x, x ∈ w → reaches adjacency roots x) ∧
  (∀ x y, x ∈ w → y ∈ children adjacency x → y ∈ w).
Proof.
  revert r q. induction fuel as [|fuel IH]; intros r q Hr Hq Hre Hcl Hlen; [lia|].
  destruct q as [|p q]; simpl.
  { split_and!; [done|done|]. intros x y Hx. apply (Hcl x y Hx). apply not_elem_of_nil. }
  destruct (fold_left visit (children adjacency p) (r, q)) as [r' q'] eqn:Ef.
  destruct (visit_all _ _ _ _ _ Ef) as (-> & Hq' & Hl); [intros y; apply children_nodes|].
  assert (p ∈ r) as Hp by (apply Hq; left).
  destruct (IH (list_to_set (children adjacency p) ∪ r) q') as (Hsub & H1 & H2).
  - intros y [Hy%elem_of_list_to_set|Hy]%elem_of_union; [by apply (children_nodes p)|by apply Hr].
  - intros y [Hy|[Hy _]]%Hq'; [|set_solver]. apply elem_of_union_r, Hq. by right.
  - intros x [Hx%elem_of_list_to_set|Hx]%elem_of_union; [|by apply Hre].
    by apply (reaches_child _ _ p); [apply Hre|].
  - intros x y [Hx%elem_of_list_to_set|Hx]%elem_of_union Hnq Hy.
    + destruct (decide (x ∈ r)) as [Hxr|Hxr]; [|destruct Hnq; apply Hq'; by right].
      destruct (decide (x = p)) as [->|Hne]; [set_solver|].
      apply elem_of_union_r, (Hcl x y Hxr); [|done].
      intros [->|?]%elem_of_cons; [done|]. apply Hnq, Hq'. by left.
    + destruct (decide (x = p)) as [->|Hne]; [set_solver|].
      apply elem_of_union_r, (Hcl x y Hx); [|done].
      intros [->|?]%elem_of_cons; [done|]. apply Hnq, Hq'. by left.
  - simpl in Hlen. lia.
  - split_and!; [set_solver|done|done].
Qed.

(** With more fuel than there are nodes the loop ends with exactly the nodes
    that the roots reach. *)
Lemma walk_enough fuel x :
  (size nodes < fuel)%nat →
  x ∈ walk fuel adjacency roots (elements roots) ↔ reaches adjacency roots x.
Proof.
  intros Hfuel. destruct (walk_closed fuel roots (elements roots)) as (Hsub & H1 & H2).
  - done.
  - intros y. by rewrite elem_of_elements.
  - apply reaches_root.
  - intros y z Hy Hnq. destruct Hnq. by apply elem_of_elements.
  - change (length (elements roots)) with (size roots).
    rewrite <-size_union by set_solver.
    by replace (roots ∪ nodes ∖ roots) with nodes by (rewrite <-union_difference_L; set_solver).
  - split; [apply H1|]. induction 1 as [y Hy|y z _ IH Hz]; [by apply Hsub|by apply (H2 y)].
Qed.
End walk.

(** ** The canonical encoding *)

Definition u64_be (n : Z) : string := be_bytes 8 n.

(** The bytes that [hash_field] feeds to the hasher. *)
Definition hash_field (label value : string) : string :=
  u64_be (str_len label) +:+ label +:+ u64_be (str_len value) +:+ value.

Definition canonical_name (role : ManagedArtifactRole) : string :=
  match role with Root => "root" | RequiredDependency => "required_dependency" end.

Definition family_name (family : VersionFamily) : string :=
  match family with
  | FamilyA => "A" | FamilyB => "B" | FamilyC => "C"
  | FamilyD => "D" | FamilyE => "E" | FamilyF => "F"
  end.

Definition tier_name (tier : CompositionTier) : string :=
  match tier with
  | Extended => "extended" | Core => "core" | VanillaEnhanced => "vanilla_enhanced"
  end.

Record CanonicalGraphNode := {
  gn_project_id : string;
  gn_version_id : string;
  gn_filename : string;
  gn_role : ManagedArtifactRole;
  gn_size : Z;
  gn_sha512 : string;
}.

Record CanonicalGraphEdge := {
  ge_parent_project_id : string;
  ge_child_project_id : string;
  ge_child_version_id : string;
}.

Record CanonicalGraphDigestInputs := {
  gi_composition_id : string;
  gi_family : VersionFamily;
  gi_tier : CompositionTier;
  gi_game_version : string;
  gi_loader : string;
  gi_aggregate_bytes : Z;
}.

Definition encode_inputs (inputs : CanonicalGraphDigestInputs) : string :=
  hash_field "domain" "axial.managed-composition-install-plan.v1" +:+
  hash_field "composition" (gi_composition_id inputs) +:+
  hash_field "family" (family_name (gi_family inputs)) +:+
  hash_field "tier" (tier_name (gi_tier inputs)) +:+
  hash_field "game_version" (gi_game_version inputs) +:+
  hash_field "loader" (gi_loader inputs) +:+
  hash_field "aggregate_bytes" (u64_be (gi_aggregate_bytes inputs)).

Definition encode_node (pin : CanonicalGraphNode) : string :=
  hash_field "pin_project" (gn_project_id pin) +:+
  hash_field "pin_version" (gn_version_id pin) +:+
  hash_field "pin_filename" (gn_filename pin) +:+
  hash_field "pin_role" (canonical_name (gn_role pin)) +:+
  hash_field "pin_size" (u64_be (gn_size pin)) +:+
  hash_field "pin_sha512" (gn_sha512 pin).

Definition encode_edge (edge : CanonicalGraphEdge) : string :=
  hash_field "edge_parent" (ge_parent_project_id edge) +:+
  hash_field "edge_child" (ge_child_project_id edge) +:+
  hash_field "edge_child_version" (ge_child_version_id edge).

(** Everything that [graph_digest] hashes, in order. *)
Definition graph_preimage (inputs : CanonicalGraphDigestInputs)
    (pins : list CanonicalGraphNode) (edges : list CanonicalGraphEdge) : string :=
  encode_inputs inputs +:+
  hash_field "pin_count" (u64_be (Z.of_nat (length pins))) +:+
  str_concat (encode_node <$> pins) +:+
  hash_field "edge_count" (u64_be (Z.of_nat (length edges))) +:+
  str_concat (encode_edge <$> edges).

(** [hex::encode] of the SHA-512 digest, of the third-party crates. *)
Definition graph_digest (sha512_hex : string → string) (inputs : CanonicalGraphDigestInputs)
    (pins : list CanonicalGraphNode) (edges : list CanonicalGraphEdge) : string :=
  sha512_hex (graph_preimage inputs pins edges).

(** *** The encoding is injective *)

Definition u64_ok (n : Z) : Prop := 0 ≤ n ≤ u64_max.
Definition field_ok (s : string) : Prop := str_len s ≤ u64_max.

Lemma u64_be_inj m n : u64_ok m → u64_ok n → u64_be m = u64_be n → m = n.
Proof. unfold u64_ok, u64_max, u64_be. intros Hm Hn. apply be_bytes_inj; change (256 ^ Z.of_nat 8) with 18446744073709551616; lia. Qed.

(** A field determines its value and leaves the rest of the text. *)
Lemma hash_field_inj label v v' r r' :
  field_ok v → field_ok v' →
  hash_field label v +:+ r = hash_field label v' +:+ r' → v = v' ∧ r = r'.
Proof.
  intros Hv Hv'. unfold hash_field. rewrite !str_app_assoc.
  intros [_ E]%str_app_inj; [|done]. apply str_app_inj in E as [_ E]; [|done].
  apply str_app_inj in E as [E1 E]; [|unfold u64_be; by rewrite !be_bytes_length].
  apply u64_be_inj in E1; [|split; [apply str_len_nonneg|done]..].
  apply str_app_inj in E; [done|]. unfold str_len in E1. lia.
Qed.

Lemma hash_u64_inj label m n r r' :
  u64_ok m → u64_ok n →
  hash_field label (u64_be m) +:+ r = hash_field label (u64_be n) +:+ r' → m = n ∧ r = r'.
Proof.
  intros Hm Hn [E ->]%hash_field_inj.
  - split; [by apply u64_be_inj|done].
  - unfold field_ok, str_len, u64_be. rewrite be_bytes_length. unfold u64_max. lia.
  - unfold field_ok, str_len, u64_be. rewrite be_bytes_length. unfold u64_max. lia.
Qed.

Definition node_ok (pin : CanonicalGraphNode) : Prop :=
  field_ok (gn_project_id pin) ∧ field_ok (gn_version_id pin) ∧ field_ok (gn_filename pin) ∧
  u64_ok (gn_size pin) ∧ field_ok (gn_sha512 pin).
Definition edge_ok (edge : CanonicalGraphEdge) : Prop :=
  field_ok (ge_parent_project_id edge) ∧ field_ok (ge_child_project_id edge) ∧
  field_ok (ge_child_version_id edge).
Definition inputs_ok (inputs : CanonicalGraphDigestInputs) : Prop :=
  field_ok (gi_composition_id inputs) ∧ field_ok (gi_game_version inputs) ∧
  field_ok (gi_loader inputs) ∧ u64_ok (gi_aggregate_bytes inputs).

Lemma canonical_name_ok role : field_ok (canonical_name role).
Proof. by destruct role. Qed.
Lemma family_name_ok family : field_ok (family_name family).
Proof. by destruct family. Qed.
Lemma tier_name_ok tier : field_ok (tier_name tier).
Proof. by destruct tier. Qed.

Lemma encode_node_inj a b r r' :
  node_ok a → node_ok b → encode_node a +:+ r = encode_node b +:+ r' → a = b ∧ r = r'.
Proof.
  intros (?&?&?&?&?) (?&?&?&?&?). unfold encode_node. rewrite !str_app_assoc.
  intros [? E]%hash_field_inj; [|done..]. apply hash_field_inj in E as [? E]; [|done..].
  apply hash_field_inj in E as [? E]; [|done..].
  apply hash_field_inj in E as [Hr E]; [|apply canonical_name_ok..].
  apply hash_u64_inj in E as [? E]; [|done..]. apply hash_field_inj in E as [? ->]; [|done..].
  split; [|done]. destruct a as [????  sa ?], b as [???? sb ?]; simpl in *.
  by destruct gn_role0, gn_role1; simplify_eq.
Qed.

Lemma encode_edge_inj a b r r' :
  edge_ok a → edge_ok b → encode_edge a +:+ r = encode_edge b +:+ r' → a = b ∧ r = r'.
Proof.
  intros (?&?&?) (?&?&?). unfold encode_edge. rewrite !str_app_assoc.
  intros [? E]%hash_field_inj; [|done..]. apply hash_field_inj in E as [? E]; [|done..].
  apply hash_field_inj in E as [? ->]; [|done..].
  split; [|done]. destruct a, b; simpl in *; by simplify_eq.
Qed.

Lemma encode_inputs_inj a b r r' :
  inputs_ok a → inputs_ok b → encode_inputs a +:+ r = encode_inputs b +:+ r' → a = b ∧ r = r'.
Proof.
  intros (?&?&?&?) (?&?&?&?). unfold encode_inputs. rewrite !str_app_assoc.
  intros [_ E]%hash_field_inj; [|done..]. apply hash_field_inj in E as [? E]; [|done..].
  apply hash_field_inj in E as [Hf E]; [|apply family_name_ok..].
  apply hash_field_inj in E as [Ht E]; [|apply tier_name_ok..].
  apply hash_field_inj in E as [? E]; [|done..]. apply hash_field_inj in E as [? E]; [|done..].
  apply hash_u64_inj in E as [? ->]; [|done..]. split; [|done].
  destruct a as [? fa ta ???], b as [? fb tb ???]; simpl in *.
  assert (fa = fb) as -> by (by destruct fa, fb). assert (ta = tb) as -> by (by destruct ta, tb).
  by simplify_eq.
Qed.

(** A prefix-free item encoding extends to lists of known length. *)
Lemma encode_list_inj {A} (enc : A → string) (ok : A → Prop) :
  (∀ a b r r', ok a → ok b → enc a +:+ r = enc b +:+ r' → a = b ∧ r = r') →
  ∀ l l' r r', length l = length l' → Forall ok l → Forall ok l' →
  str_concat (enc <$> l) +:+ r = str_concat (enc <$> l') +:+ r' → l = l' ∧ r = r'.
Proof.
  intros Henc l. induction l as [|a l IH]; intros [|b l'] r r' Hlen Hl Hl'; try done.
  apply list.Forall_cons in Hl as [Ha Hl]. apply list.Forall_cons in Hl' as [Hb Hl'].
  cbn [fmap list_fmap str_concat]. rewrite !str_app_assoc.
  intros [-> E]%Henc; [|done..]. injection Hlen as Hlen.
  by destruct (IH l' r r' Hlen Hl Hl' E) as [-> ->].
Qed.

(** The digest separates graphs.  Two plans whose hashed bytes agree have
    the same target, the same artifacts and the same dependency edges. *)
Theorem graph_preimage_injective i i' ns ns' es es' :
  inputs_ok i → inputs_ok i' → Forall node_ok ns → Forall node_ok ns' →
  Forall edge_ok es → Forall edge_ok es' →
  u64_ok (Z.of_nat (length ns)) → u64_ok (Z.of_nat (length ns')) →
  u64_ok (Z.of_nat (length es)) → u64_ok (Z.of_nat (length es')) →
  graph_preimage i ns es = graph_preimage i' ns' es' → i = i' ∧ ns = ns' ∧ es = es'.
Proof.
  intros Hi Hi' Hn Hn' He He' Ln Ln' Le Le'. unfold graph_preimage.
  intros [-> E]%encode_inputs_inj; [|done..].
  apply hash_u64_inj in E as [El E]; [|done..].
  apply (encode_list_inj encode_node node_ok encode_node_inj) in E as [-> E]; [|lia|done..].
  apply hash_u64_inj in E as [Ee E]; [|done..].
  rewrite <-(str_app_nil_r (str_concat (_ <$> es))), <-(str_app_nil_r (str_concat (_ <$> es'))) in E.
  apply (encode_list_inj encode_edge edge_ok encode_edge_inj) in E as [-> _]; [done|lia|done..].
Qed.

Lemma graph_preimage_injective_witness :
  let i := {| gi_composition_id := "core"; gi_family := FamilyE; gi_tier := Core;
              gi_game_version := "1.20.1"; gi_loader := "fabric"; gi_aggregate_bytes := 7 |} in
  let n := {| gn_project_id := "AANobbMI"; gn_version_id := "OihdIimA"; gn_filename := "a.jar";
              gn_role := Root; gn_size := 7; gn_sha512 := "00" |} in
  i = i ∧ [n] = [n] ∧ @nil CanonicalGraphEdge = [].
Proof.
  intros i n.
  apply (graph_preimage_injective i i [n] [n] [] []); try done; repeat constructor; done.
Defined.
