(* ===== verification/PerfInstallPlan.v ===== *)
(** * Sealing an install plan ([core/performance/src/install/plan.rs])

    [seal] checks a composition's artifacts and dependency edges against each
    other and against the declared roots, sorts them and fixes the digest of
    the resulting graph.  URL parsing ([reqwest::Url]) and SHA-512 with its
    hex form ([sha2], [hex]) are parameters. *)

From S2P Require Import Prelude RustStr PerfTypes McPortablePath PerfGraph.

Definition MAX_MANAGED_PLAN_NODES : nat := 256.
Definition MAX_MANAGED_PLAN_EDGES : nat := 4096.
Definition MAX_COMPOSITION_ID_BYTES : Z := 256.
Definition MAX_TARGET_VALUE_BYTES : Z := 128.
Definition MAX_DOWNLOAD_URL_BYTES : Z := 8192.
Definition MODRINTH_ID_BYTES : nat := 8.
Definition SHA512_HEX_BYTES : nat := 128.
Definition MANAGED_ARTIFACT_MAX_BYTES : Z := Z.shiftl 512 20.

Record ManagedArtifactPin := {
  pin_project_id : string;
  pin_version_id : string;
  pin_filename : string;
  pin_download_url : string;
  pin_size : Z;
  pin_sha512 : string;
  pin_role : ManagedArtifactRole;
}.

Record ManagedDependencyEdge := {
  edge_parent_project_id : string;
  edge_child_project_id : string;
  edge_child_version_id : string;
}.

#[global] Instance ManagedArtifactPin_eq_dec : EqDecision ManagedArtifactPin.
Proof. solve_decision. Defined.
#[global] Instance ManagedDependencyEdge_eq_dec : EqDecision ManagedDependencyEdge.
Proof. solve_decision. Defined.
#[global] Instance ManagedDependencyEdge_countable : Countable ManagedDependencyEdge.
Proof.
  refine (inj_countable'
    (λ e, (edge_parent_project_id e, edge_child_project_id e, edge_child_version_id e))
    (λ '(p, c, v), {| edge_parent_project_id := p; edge_child_project_id := c;
                      edge_child_version_id := v |}) _).
  by intros [].
Defined.

(** The derived [Ord]. *)
Definition edge_cmp : ManagedDependencyEdge → ManagedDependencyEdge → comparison :=
  cmp_then (cmp_on edge_parent_project_id str_cmp)
    (cmp_then (cmp_on edge_child_project_id str_cmp) (cmp_on edge_child_version_id str_cmp)).

Definition pin_cmp : ManagedArtifactPin → ManagedArtifactPin → comparison :=
  cmp_on pin_project_id str_cmp.

Record ManagedCompositionInstallPlan := {
  ip_composition_id : string;
  ip_family : VersionFamily;
  ip_tier : CompositionTier;
  ip_game_version : string;
  ip_loader : string;
  ip_pins : list ManagedArtifactPin;
  ip_edges : list ManagedDependencyEdge;
  ip_aggregate_bytes : Z;
  ip_graph_digest : string;
}.

Inductive ManagedInstallPlanError :=
| ManagedModeRequired
| InvalidCompositionId
| InvalidTarget
| LoaderMismatch
| InvalidProjectId
| InvalidVersionId
| InvalidFilename
| InvalidDownloadUrl
| InvalidArtifactSize
| InvalidSha512
| TooManyRoots
| TooManyArtifacts
| TooManyEdges
| ArtifactBytesExceeded
| DuplicateRoot
| DuplicateArtifact
| DuplicateFilename
| RootSetMismatch
| UnexpectedEmptyRootGraph
| DuplicateEdge
| UnknownEdgeEndpoint
| DependencyVersionMismatch
| UnreachableDependency
| InvalidGraphDigest.

(** What the code reads of a parsed [Url]. *)
Record ParsedUrl := {
  url_scheme : string;
  url_has_host : bool;
  url_username : string;
  url_has_password : bool;
  url_has_fragment : bool;
}.

Definition validate_modrinth_id (value : string) : result unit unit :=
  if Nat.eqb (String.length value) MODRINTH_ID_BYTES && sforall is_alphanumeric value
  then Ok tt else Err tt.

Definition validate_required_text (value : string) (max_bytes : Z)
    (error : ManagedInstallPlanError) : result ManagedInstallPlanError unit :=
  err_if (is_empty value || (max_bytes <? str_len value) || negb (str_eqb (trim value) value) ||
          sexists is_ascii_control value) error.

Definition validate_target_value (value : string) : result ManagedInstallPlanError unit :=
  validate_required_text value MAX_TARGET_VALUE_BYTES InvalidTarget ;;
  err_if (negb (is_ascii value)) InvalidTarget.

Definition is_lower_hex (c : ascii) : bool :=
  is_digit c || ((97 <=? byte_n c)%N && (byte_n c <=? 102)%N).

Definition validate_sha512 (sha512 : string) : result ManagedInstallPlanError unit :=
  if Nat.eqb (String.length sha512) SHA512_HEX_BYTES && sforall is_lower_hex sha512
  then Ok tt else Err InvalidSha512.

Definition edge_validate (edge : ManagedDependencyEdge) : result ManagedInstallPlanError unit :=
  map_err (λ _, InvalidProjectId) (validate_modrinth_id (edge_parent_project_id edge)) ;;
  map_err (λ _, InvalidProjectId) (validate_modrinth_id (edge_child_project_id edge)) ;;
  map_err (λ _, InvalidVersionId) (validate_modrinth_id (edge_child_version_id edge)).

Definition edge_new (parent_project_id child_project_id child_version_id : string) :
    result ManagedInstallPlanError ManagedDependencyEdge :=
  let edge := {| edge_parent_project_id := parent_project_id;
                 edge_child_project_id := child_project_id;
                 edge_child_version_id := child_version_id |} in
  edge_validate edge ;;
  Ok edge.

Definition node_from_pin (pin : ManagedArtifactPin) : CanonicalGraphNode := {|
  gn_project_id := pin_project_id pin; gn_version_id := pin_version_id pin;
  gn_filename := pin_filename pin; gn_role := pin_role pin;
  gn_size := pin_size pin; gn_sha512 := pin_sha512 pin |}.

Definition edge_from_plan (edge : ManagedDependencyEdge) : CanonicalGraphEdge := {|
  ge_parent_project_id := edge_parent_project_id edge;
  ge_child_project_id := edge_child_project_id edge;
  ge_child_version_id := edge_child_version_id edge |}.

(** [aggregate.checked_add(size).filter(|bytes| bytes <= MAX)]. *)
Definition add_bytes (aggregate size : Z) : option Z :=
  bytes ← checked_add_u64 aggregate size;
  if bytes <=? MANAGED_ARTIFACT_MAX_BYTES then Some bytes else None.

Section plan.
Context `{UnicodeNorm} (url_parse : string → option ParsedUrl) (sha512_hex : string → string).

Definition portable_filename_key (filename : string) : result ManagedInstallPlanError string :=
  map_err (λ _, InvalidFilename) (filename ← file_name_new_exact filename; Ok (file_name_key filename)).

Definition validate_portable_jar_filename (filename : string) :
    result ManagedInstallPlanError unit :=
  key ← portable_filename_key filename;
  if ends_with ".jar" key then Ok tt else Err InvalidFilename.

Definition validate_download_url (url : string) : result ManagedInstallPlanError unit :=
  err_if (is_empty url || (MAX_DOWNLOAD_URL_BYTES <? str_len url) ||
          sexists (λ c, is_ascii_control c || is_ascii_whitespace c) url) InvalidDownloadUrl ;;
  parsed ← ok_or InvalidDownloadUrl (url_parse url);
  err_if (negb (str_eqb (url_scheme parsed) "https") || negb (url_has_host parsed) ||
          negb (is_empty (url_username parsed)) || url_has_password parsed ||
          url_has_fragment parsed) InvalidDownloadUrl.

Definition pin_validate (pin : ManagedArtifactPin) : result ManagedInstallPlanError unit :=
  map_err (λ _, InvalidProjectId) (validate_modrinth_id (pin_project_id pin)) ;;
  map_err (λ _, InvalidVersionId) (validate_modrinth_id (pin_version_id pin)) ;;
  validate_portable_jar_filename (pin_filename pin) ;;
  validate_download_url (pin_download_url pin) ;;
  err_if ((pin_size pin =? 0) || (MANAGED_ARTIFACT_MAX_BYTES <? pin_size pin)) InvalidArtifactSize ;;
  validate_sha512 (pin_sha512 pin).

Definition pin_new (project_id version_id filename download_url : string) (size : Z)
    (sha512 : string) (role : ManagedArtifactRole) :
    result ManagedInstallPlanError ManagedArtifactPin :=
  let pin := {| pin_project_id := project_id; pin_version_id := version_id;
                pin_filename := filename; pin_download_url := download_url; pin_size := size;
                pin_sha512 := sha512; pin_role := role |} in
  pin_validate pin ;;
  Ok pin.

(** The loop over the declared mods. *)
Definition collect_root (roots : gset string) (managed_mod : ManagedMod) :
    result ManagedInstallPlanError (gset string) :=
  map_err (λ _, InvalidProjectId) (validate_modrinth_id (mm_project_id managed_mod)) ;;
  insert_new DuplicateRoot roots (mm_project_id managed_mod).

(** The state of the loop over the pins: [pin_indices], [filenames] and
    [aggregate_bytes]. *)
Record PinScan := {
  ps_indices : gmap string nat;
  ps_filenames : gset string;
  ps_aggregate : Z;
}.

Definition scan_pin (scan : PinScan) (entry : nat * ManagedArtifactPin) :
    result ManagedInstallPlanError PinScan :=
  let '(index, pin) := entry in
  pin_validate pin ;;
  err_if (bool_decide (is_Some (ps_indices scan !! pin_project_id pin))) DuplicateArtifact ;;
  key ← portable_filename_key (pin_filename pin);
  filenames ← insert_new DuplicateFilename (ps_filenames scan) key;
  aggregate ← ok_or ArtifactBytesExceeded (add_bytes (ps_aggregate scan) (pin_size pin));
  Ok {| ps_indices := <[pin_project_id pin := index]> (ps_indices scan);
        ps_filenames := filenames;
        ps_aggregate := aggregate |}.

(** [iter().enumerate()]. *)
Fixpoint enumerate_from {A} (n : nat) (l : list A) : list (nat * A) :=
  match l with [] => [] | x :: l => (n, x) :: enumerate_from (S n) l end.
Definition enumerate {A} (l : list A) : list (nat * A) := enumerate_from 0 l.

(** The state of the loop over the edges: [unique_edges] and [adjacency].  A
    panic on an index out of range is impossible ([scan_indices] below) and
    reads as an unknown endpoint. *)
Definition scan_edge (pins : list ManagedArtifactPin) (indices : gmap string nat)
    (acc : gset ManagedDependencyEdge * Adjacency) (edge : ManagedDependencyEdge) :
    result ManagedInstallPlanError (gset ManagedDependencyEdge * Adjacency) :=
  let '(unique_edges, adjacency) := acc in
  edge_validate edge ;;
  unique_edges ← insert_new DuplicateEdge unique_edges edge;
  parent_index ← ok_or UnknownEdgeEndpoint (indices !! edge_parent_project_id edge);
  child_index ← ok_or UnknownEdgeEndpoint (indices !! edge_child_project_id edge);
  parent ← ok_or UnknownEdgeEndpoint (pins !! parent_index);
  child ← ok_or UnknownEdgeEndpoint (pins !! child_index);
  err_if (negb (str_eqb (pin_version_id child) (edge_child_version_id edge)))
    DependencyVersionMismatch ;;
  Ok (unique_edges, push_child adjacency (pin_project_id parent) (pin_project_id child)).

Definition seal (declarative : CompositionPlan) (game_version loader : string)
    (pins : list ManagedArtifactPin) (edges : list ManagedDependencyEdge) :
    result ManagedInstallPlanError ManagedCompositionInstallPlan :=
  err_if (negb (bool_decide (plan_mode declarative = Managed))) ManagedModeRequired ;;
  validate_required_text (plan_composition_id declarative) MAX_COMPOSITION_ID_BYTES
    InvalidCompositionId ;;
  validate_target_value game_version ;;
  validate_target_value loader ;;
  err_if (negb (str_eqb loader (plan_loader declarative))) LoaderMismatch ;;
  err_if (MAX_MANAGED_PLAN_NODES <? length pins)%nat TooManyArtifacts ;;
  err_if (MAX_MANAGED_PLAN_EDGES <? length edges)%nat TooManyEdges ;;
  err_if (MAX_MANAGED_PLAN_NODES <? length (plan_mods declarative))%nat TooManyRoots ;;
  roots ← try_fold collect_root ∅ (plan_mods declarative);
  scan ← try_fold scan_pin {| ps_indices := ∅; ps_filenames := ∅; ps_aggregate := 0 |}
           (enumerate pins);
  let pin_roots : gset string :=
    list_to_set (pin_project_id <$> List.filter (λ pin, bool_decide (pin_role pin = Root)) pins) in
  err_if (negb (bool_decide (roots = pin_roots))) RootSetMismatch ;;
  err_if (bool_decide (roots = ∅) &&
          (negb (bool_decide (pins = [])) || negb (bool_decide (edges = []))))
    UnexpectedEmptyRootGraph ;;
  '(_, adjacency) ← try_fold (scan_edge pins (ps_indices scan)) (∅, ∅) edges;
  let reachable := walk (S (length pins)) adjacency roots (elements roots) in
  err_if (existsb (λ pin,
            bool_decide (pin_role pin = RequiredDependency) &&
            negb (bool_decide (pin_project_id pin ∈ reachable))) pins)
    UnreachableDependency ;;
  let pins := sort_by pin_cmp pins in
  let edges := sort_by edge_cmp edges in
  Ok {| ip_composition_id := plan_composition_id declarative;
        ip_family := plan_family declarative;
        ip_tier := plan_tier declarative;
        ip_game_version := game_version;
        ip_loader := loader;
        ip_pins := pins;
        ip_edges := edges;
        ip_aggregate_bytes := ps_aggregate scan;
        ip_graph_digest :=
          graph_digest sha512_hex
            {| gi_composition_id := plan_composition_id declarative;
               gi_family := plan_family declarative;
               gi_tier := plan_tier declarative;
               gi_game_version := game_version;
               gi_loader := loader;
               gi_aggregate_bytes := ps_aggregate scan |}
            (node_from_pin <$> pins) (edge_from_plan <$> edges) |}.
End plan.

(** ** What sealing checks *)

(** Nodes that dependency edges link to the roots. *)
Inductive linked (edges : list ManagedDependencyEdge) (roots : gset string) : string → Prop :=
| linked_root x : x ∈ roots → linked edges roots x
| linked_edge e : linked edges roots (edge_parent_project_id e) → e ∈ edges →
    linked edges roots (edge_child_project_id e).

Definition pin_key `{UnicodeNorm} (pin : ManagedArtifactPin) : string :=
  file_name_key (pin_filename pin).

(** Both ends of an edge are pinned, the child at the version the edge names. *)
Definition edge_pinned (pins : list ManagedArtifactPin) (e : ManagedDependencyEdge) : Prop :=
  ∃ p c, p ∈ pins ∧ c ∈ pins ∧ pin_project_id p = edge_parent_project_id e ∧
         pin_project_id c = edge_child_project_id e ∧
         pin_version_id c = edge_child_version_id e.

Record graph_ok `{UnicodeNorm} (url_parse : string → option ParsedUrl) (roots : gset string)
    (pins : list ManagedArtifactPin) (edges : list ManagedDependencyEdge) : Prop := {
  go_pins : Forall (λ p, pin_validate url_parse p = Ok tt) pins;
  go_ids : NoDup (pin_project_id <$> pins);
  go_filenames : NoDup (pin_key <$> pins);
  go_bytes : sum_Z (pin_size <$> pins) ≤ MANAGED_ARTIFACT_MAX_BYTES;
  go_roots x : x ∈ roots ↔ ∃ p, p ∈ pins ∧ pin_role p = Root ∧ pin_project_id p = x;
  go_empty : roots = ∅ → pins = [] ∧ edges = [];
  go_edges : Forall (λ e, edge_validate e = Ok tt ∧ edge_pinned pins e) edges;
  go_edges_nodup : NoDup edges;
  go_linked : Forall (λ p, linked edges roots (pin_project_id p)) pins;
}.

Lemma max_bytes_value : MANAGED_ARTIFACT_MAX_BYTES = 536870912.
Proof. reflexivity. Qed.

Lemma add_bytes_spec a n r :
  0 ≤ a → 0 ≤ n → add_bytes a n = Some r ↔ r = a + n ∧ a + n ≤ MANAGED_ARTIFACT_MAX_BYTES.
Proof.
  intros Ha Hn. unfold add_bytes, checked_add_u64, u64_max. rewrite max_bytes_value.
  destruct (a + n <=? 18446744073709551615) eqn:E1; simpl.
  - destruct (a + n <=? 536870912) eqn:E2; [apply Z.leb_le in E2|apply Z.leb_gt in E2]; naive_solver lia.
  - apply Z.leb_gt in E1. split; [done|]. intros [_ ?]. lia.
Qed.

Lemma sum_Z_nonneg l : Forall (λ x, 0 ≤ x) l → 0 ≤ sum_Z l.
Proof. induction 1; simpl; lia. Qed.

Section seal.
Context `{UnicodeNorm} (url_parse : string → option ParsedUrl).


Definition sizes_ok (pins : list ManagedArtifactPin) : Prop :=
  Forall (λ p, u64_ok (pin_size p)) pins.

Lemma portable_filename_key_ok filename key :
  portable_filename_key filename = Ok key →
  key = file_name_key filename.
Proof.
  unfold portable_filename_key. rewrite map_err_ok, bind_ok. intros (n & Hn & [= <-]).
  revert Hn. unfold file_name_new_exact. rewrite bind_ok. intros (m & _ & Hm).
  apply bind_ok_unit in Hm as [He [= <-]]. rewrite err_if_ok, negb_false_iff, str_eqb_spec in He.
  by subst.
Qed.

Lemma pin_validate_key p :
  pin_validate url_parse p = Ok tt → portable_filename_key (pin_filename p) = Ok (pin_key p).
Proof.
  unfold pin_validate. rewrite !bind_ok_unit. intros (_ & _ & Hf & _).
  unfold validate_portable_jar_filename in Hf. apply bind_ok in Hf as (k & Hk & _).
  rewrite Hk. f_equal. by apply portable_filename_key_ok.
Qed.

Lemma pin_validate_bound p :
  pin_validate url_parse p = Ok tt → pin_size p ≤ MANAGED_ARTIFACT_MAX_BYTES.
Proof.
  unfold pin_validate. rewrite !bind_ok_unit, err_if_ok, orb_false_iff, Z.ltb_ge. tauto.
Qed.

(** The table of positions that the loop over the pins builds. *)
Fixpoint index_pins (n : nat) (pins : list ManagedArtifactPin) (m : gmap string nat) :
    gmap string nat :=
  match pins with
  | [] => m
  | p :: pins => index_pins (S n) pins (<[pin_project_id p := n]> m)
  end.

Lemma scan_pin_ok scan n p scan' :
  0 ≤ ps_aggregate scan → u64_ok (pin_size p) →
  scan_pin url_parse scan (n, p) = Ok scan' ↔
  (pin_validate url_parse p = Ok tt ∧ ps_indices scan !! pin_project_id p = None ∧
   pin_key p ∉ ps_filenames scan ∧ ps_aggregate scan + pin_size p ≤ MANAGED_ARTIFACT_MAX_BYTES ∧
   scan' = {| ps_indices := <[pin_project_id p := n]> (ps_indices scan);
              ps_filenames := {[pin_key p]} ∪ ps_filenames scan;
              ps_aggregate := ps_aggregate scan + pin_size p |}).
Proof.
  intros Ha [Hs _]. unfold scan_pin. rewrite !bind_ok_unit, err_if_ok, bool_decide_eq_false.
  rewrite <-eq_None_not_Some. split.
  - intros (Hv & Hi & (k & Hk & (f & Hf & (g & Hg & [= <-])%bind_ok)%bind_ok)%bind_ok).
    rewrite (pin_validate_key _ Hv) in Hk. injection Hk as <-.
    apply insert_new_ok in Hf as [? ->]. apply ok_or_ok, add_bytes_spec in Hg as [-> ?]; [|done..].
    done.
  - intros (Hv & Hi & Hk & Hb & ->). split_and!; [done|done|].
    rewrite (pin_validate_key _ Hv). simpl. apply bind_ok. eexists.
    split; [by apply insert_new_ok|]. apply bind_ok. eexists. split; [|done].
    by apply ok_or_ok, add_bytes_spec.
Qed.

Lemma scan_pins_ok n pins scan scan' :
  sizes_ok pins → 0 ≤ ps_aggregate scan ≤ MANAGED_ARTIFACT_MAX_BYTES →
  try_fold (scan_pin url_parse) scan (enumerate_from n pins) = Ok scan' ↔
  (Forall (λ p, pin_validate url_parse p = Ok tt) pins ∧
   (NoDup (pin_project_id <$> pins) ∧ ∀ p, p ∈ pins → ps_indices scan !! pin_project_id p = None) ∧
   (NoDup (pin_key <$> pins) ∧ ∀ p, p ∈ pins → pin_key p ∉ ps_filenames scan) ∧
   ps_aggregate scan + sum_Z (pin_size <$> pins) ≤ MANAGED_ARTIFACT_MAX_BYTES ∧
   scan' = {| ps_indices := index_pins n pins (ps_indices scan);
              ps_filenames := list_to_set (pin_key <$> pins) ∪ ps_filenames scan;
              ps_aggregate := ps_aggregate scan + sum_Z (pin_size <$> pins) |}).
Proof.
  intros Hs. revert n scan. induction Hs as [|p pins Hp Hs IH]; intros n scan Ha.
  { cbn [enumerate_from try_fold fmap list_fmap sum_Z foldr index_pins list_to_set].
    rewrite (left_id_L ∅ (∪)), Z.add_0_r. split.
    - intros [= <-]. destruct scan. split_and!; try done; try lia; try constructor;
        by intros ? ?%elem_of_nil.
    - intros (_ & _ & _ & _ & ->). by destruct scan. }
  cbn [enumerate_from try_fold]. rewrite bind_ok.
  assert (0 ≤ sum_Z (pin_size <$> pins)) as Hsum.
  { apply sum_Z_nonneg, Forall_fmap. eapply list.Forall_impl; [exact Hs|]. by intros q [? _]. }
  rewrite list.Forall_cons. cbn [fmap list_fmap index_pins list_to_set]. rewrite !list.NoDup_cons.
  change (sum_Z (pin_size p :: ?l)) with (pin_size p + sum_Z l).
  rewrite (comm_L (∪) {[pin_key p]} (list_to_set _)), <-(assoc_L (∪)).
  rewrite Z.add_assoc.
  split.
  - intros (t & (Hv & Hi & Hk & Hb & ->)%scan_pin_ok & Ht); [|lia|done].
    apply IH in Ht as (Hvs & (Hnd & His) & (Hnk & Hks) & Hb' & ->); simpl in *; [|destruct Hp; lia].
    split_and!; try done.
    + intros (q & E & Hq)%list_elem_of_fmap. specialize (His q Hq). rewrite E in His.
      by rewrite lookup_insert_eq in His.
    + intros q [->|Hq]%elem_of_cons; [done|]. specialize (His q Hq).
      by apply lookup_insert_None in His as [? _].
    + intros (q & E & Hq)%list_elem_of_fmap. specialize (Hks q Hq). rewrite E in Hks. set_solver.
    + intros q [->|Hq]%elem_of_cons; [done|]. specialize (Hks q Hq). set_solver.
  - intros ((Hv & Hvs) & ((Hip & Hnd) & His) & ((Hkp & Hnk) & Hks) & Hb & ->).
    eexists. split; [apply scan_pin_ok; [lia|done|]; split_and!; try done; [apply His; left|apply Hks; left|lia]|].
    apply IH; simpl; [destruct Hp; lia|]. split_and!; try done.
    + intros q Hq. apply lookup_insert_None. split; [apply His; by right|].
      intros E. apply Hip. rewrite E. by apply list_elem_of_fmap_2.
    + intros q Hq [E%elem_of_singleton|Hin]%elem_of_union.
      * apply Hkp. rewrite <-E. by apply list_elem_of_fmap_2.
      * revert Hin. apply Hks. by right.
Qed.

Lemma index_pins_lookup n pins m id i :
  NoDup (pin_project_id <$> pins) → (∀ p, p ∈ pins → m !! pin_project_id p = None) →
  index_pins n pins m !! id = Some i ↔
  (∃ p, (n ≤ i)%nat ∧ pins !! (i - n)%nat = Some p ∧ pin_project_id p = id) ∨ m !! id = Some i.
Proof.
  revert n m. induction pins as [|p pins IH]; intros n m; cbn [index_pins].
  { intros _ _. split; [by right|]. intros [(q & _ & Hq & _)|?]; [|done]. by rewrite lookup_nil in Hq. }
  intros [Hp Hnd]%list.NoDup_cons Hm. rewrite IH; [|done|].
  - rewrite lookup_insert_Some. split.
    + intros [(q & Hle & Hq & <-)|[[<- <-]|[Hne ?]]]; [left|left|by right].
      * exists q. split_and!; [lia| |done]. replace (i - n)%nat with (S (i - S n)) by lia. done.
      * exists p. by rewrite Nat.sub_diag.
    + intros [(q & Hle & Hq & <-)|Hi].
      * destruct (decide (i = n)) as [->|Hne].
        { rewrite Nat.sub_diag in Hq. injection Hq as ->. by right; left. }
        left. exists q. split_and!; [lia| |done].
        replace (i - n)%nat with (S (i - S n)) in Hq by lia. done.
      * right. right. split; [|done]. intros <-. rewrite (Hm p) in Hi; [done|left].
  - intros q Hq. apply lookup_insert_None. split; [apply Hm; by right|].
    intros E. apply Hp. rewrite E. by apply list_elem_of_fmap_2.
Qed.

Lemma scan_indices pins id i :
  NoDup (pin_project_id <$> pins) →
  index_pins 0 pins ∅ !! id = Some i ↔ ∃ p, pins !! i = Some p ∧ pin_project_id p = id.
Proof.
  intros Hnd. rewrite index_pins_lookup; [|done|done]. rewrite lookup_empty, Nat.sub_0_r.
  split; [intros [(p & _ & ?)|?]; [eauto|done]|].
  intros (p & ? & ?). left. exists p. split_and!; [lia|done|done].
Qed.

Definition add_plan_edge (acc : gset ManagedDependencyEdge * Adjacency) (e : ManagedDependencyEdge) :=
  ({[e]} ∪ acc.1, push_child acc.2 (edge_parent_project_id e) (edge_child_project_id e)).

Lemma scan_edge_check pins :
  NoDup (pin_project_id <$> pins) →
  keyed_check id fst add_plan_edge (scan_edge pins (index_pins 0 pins ∅))
    (λ e, edge_validate e = Ok tt ∧ edge_pinned pins e).
Proof.
  intros Hnd [u adj] e s'. unfold scan_edge, add_plan_edge, edge_pinned, id; simpl.
  rewrite bind_ok_unit. split.
  - intros (Hv & (u' & [Hu ->]%insert_new_ok & Hr)%bind_ok).
    apply bind_ok in Hr as (i & Hi%ok_or_ok & (j & Hj%ok_or_ok & Hr)%bind_ok).
    apply bind_ok in Hr as (p & Hp%ok_or_ok & (c & Hc%ok_or_ok & Hr)%bind_ok).
    apply bind_ok_unit in Hr as [Hver [= <-]]. rewrite err_if_ok, negb_false_iff, str_eqb_spec in Hver.
    apply scan_indices in Hi as (p' & Hp' & Hpid); [|done].
    apply scan_indices in Hj as (c' & Hc' & Hcid); [|done].
    rewrite Hp in Hp'. injection Hp' as <-. rewrite Hc in Hc'. injection Hc' as <-.
    rewrite Hpid, Hcid. split_and!; try done.
    exists p, c. split_and!; try done; by eapply list_elem_of_lookup_2.
  - intros ((Hv & p & c & Hp & Hc & Hpid & Hcid & Hver) & Hu & ->). split; [done|].
    apply bind_ok. eexists. split; [by apply insert_new_ok|].
    apply list_elem_of_lookup in Hp as [i Hi]. apply list_elem_of_lookup in Hc as [j Hj].
    assert (index_pins 0 pins ∅ !! edge_parent_project_id e = Some i) as -> by (apply scan_indices; eauto).
    assert (index_pins 0 pins ∅ !! edge_child_project_id e = Some j) as -> by (apply scan_indices; eauto).
    simpl. rewrite Hi, Hj. simpl. apply bind_ok_unit.
    rewrite err_if_ok, negb_false_iff, str_eqb_spec, Hpid, Hcid. done.
Qed.

Lemma plan_edges_children edges u adj x y :
  y ∈ children (foldl add_plan_edge (u, adj) edges).2 x ↔
  y ∈ children adj x ∨ ∃ e, e ∈ edges ∧ edge_parent_project_id e = x ∧ edge_child_project_id e = y.
Proof.
  revert u adj. induction edges as [|e edges IH]; intros u adj; simpl; [set_solver|].
  unfold add_plan_edge at 2; simpl. rewrite IH, push_child_elem.
  setoid_rewrite elem_of_cons. naive_solver.
Qed.

Lemma reaches_linked edges u roots x :
  reaches (foldl add_plan_edge (u, ∅) edges).2 roots x ↔ linked edges roots x.
Proof.
  split.
  - induction 1 as [y Hy|y z _ IH Hz]; [by apply linked_root|].
    apply plan_edges_children in Hz as [Hz|(e & He & <- & <-)]; [|by apply linked_edge].
    unfold children in Hz. rewrite lookup_empty in Hz. by apply elem_of_nil in Hz.
  - induction 1 as [y Hy|e _ IH He]; [by apply reaches_root|].
    apply (reaches_child _ _ (edge_parent_project_id e)); [done|].
    apply plan_edges_children. right. by exists e.
Qed.

(** The roots a composition declares. *)
Definition declared_roots (declarative : CompositionPlan) : gset string :=
  list_to_set (mm_project_id <$> plan_mods declarative).

(** The checks that do not look into the graph. *)
Record target_ok (declarative : CompositionPlan) (game_version loader : string)
    (pins : list ManagedArtifactPin) (edges : list ManagedDependencyEdge) : Prop := {
  to_mode : plan_mode declarative = Managed;
  to_composition : validate_required_text (plan_composition_id declarative)
    MAX_COMPOSITION_ID_BYTES InvalidCompositionId = Ok tt;
  to_game_version : validate_target_value game_version = Ok tt;
  to_loader : validate_target_value loader = Ok tt;
  to_loader_match : loader = plan_loader declarative;
  to_pins : (length pins ≤ 256)%nat;
  to_edges : (length edges ≤ 4096)%nat;
  to_mods : (length (plan_mods declarative) ≤ 256)%nat;
  to_root_ids : Forall (λ m, validate_modrinth_id (mm_project_id m) = Ok tt) (plan_mods declarative);
  to_root_nodup : NoDup (mm_project_id <$> plan_mods declarative);
}.

(** What sealing produces from checked input. *)
Definition sealed (sha512_hex : string → string) (declarative : CompositionPlan) (game_version loader : string)
    (pins : list ManagedArtifactPin) (edges : list ManagedDependencyEdge) :
    ManagedCompositionInstallPlan :=
  let pins := sort_by pin_cmp pins in
  let edges := sort_by edge_cmp edges in
  let bytes := sum_Z (pin_size <$> pins) in
  {| ip_composition_id := plan_composition_id declarative;
     ip_family := plan_family declarative;
     ip_tier := plan_tier declarative;
     ip_game_version := game_version;
     ip_loader := loader;
     ip_pins := pins;
     ip_edges := edges;
     ip_aggregate_bytes := bytes;
     ip_graph_digest :=
       graph_digest sha512_hex
         {| gi_composition_id := plan_composition_id declarative;
            gi_family := plan_family declarative;
            gi_tier := plan_tier declarative;
            gi_game_version := game_version;
            gi_loader := loader;
            gi_aggregate_bytes := bytes |}
         (node_from_pin <$> pins) (edge_from_plan <$> edges) |}.

Lemma collect_root_check :
  keyed_check mm_project_id id (add_key mm_project_id) collect_root
    (λ m, validate_modrinth_id (mm_project_id m) = Ok tt).
Proof.
  intros s m s'. unfold collect_root, id, add_key. rewrite bind_ok_unit, map_err_ok, insert_new_ok. done.
Qed.

Lemma pin_roots_spec pins x :
  x ∈ (list_to_set (pin_project_id <$> List.filter (λ p, bool_decide (pin_role p = Root)) pins)
        : gset string) ↔
  ∃ p, p ∈ pins ∧ pin_role p = Root ∧ pin_project_id p = x.
Proof.
  rewrite elem_of_list_to_set, list_elem_of_fmap. split.
  - intros (p & -> & Hp). apply list_elem_of_In, filter_In in Hp as [Hp Hr%bool_decide_eq_true].
    exists p. by rewrite list_elem_of_In.
  - intros (p & Hp & Hr & <-). exists p. split; [done|]. apply list_elem_of_In, filter_In.
    rewrite <-list_elem_of_In. split; [done|]. by apply bool_decide_eq_true.
Qed.

(** The walk finds exactly the linked artifacts. *)
Lemma walk_linked roots pins edges u x :
  NoDup (pin_project_id <$> pins) →
  Forall (λ e, edge_pinned pins e) edges →
  (∀ y, y ∈ roots → y ∈ pin_project_id <$> pins) →
  x ∈ walk (S (length pins)) (foldl add_plan_edge (u, ∅) edges).2 roots (elements roots) ↔
  linked edges roots x.
Proof.
  intros Hnd He Hr. rewrite <-reaches_linked with (u := u).
  apply (walk_enough _ _ (list_to_set (pin_project_id <$> pins))).
  - intros y Hy. apply elem_of_list_to_set. by apply Hr.
  - intros y z Hz. apply plan_edges_children in Hz as [Hz|(e & Hin & <- & <-)].
    + unfold children in Hz. rewrite lookup_empty in Hz. by apply elem_of_nil in Hz.
    + rewrite list.Forall_forall in He. destruct (He e Hin) as (p & c & _ & Hc & _ & <- & _).
      apply elem_of_list_to_set. by apply list_elem_of_fmap_2.
  - rewrite size_list_to_set by done. rewrite length_fmap. lia.
Qed.

Lemma unreachable_check pins (w : gset string) u e :
  err_if (E:=ManagedInstallPlanError) (existsb (λ p,
    bool_decide (pin_role p = RequiredDependency) && negb (bool_decide (pin_project_id p ∈ w))) pins) e = Ok u ↔
  (∀ p, p ∈ pins → pin_role p = RequiredDependency → pin_project_id p ∈ w).
Proof.
  rewrite err_if_ok. split.
  - intros Hn p Hp Hr. destruct (decide (pin_project_id p ∈ w)) as [|Hw]; [done|].
    assert (existsb (λ p, bool_decide (pin_role p = RequiredDependency) &&
      negb (bool_decide (pin_project_id p ∈ w))) pins = true); [|congruence].
    apply existsb_exists. exists p. split; [by apply list_elem_of_In|].
    by rewrite bool_decide_eq_true_2, bool_decide_eq_false_2.
  - intros Hall. apply not_true_is_false. intros (p & Hp & Hb)%existsb_exists.
    apply andb_true_iff in Hb as [Hr%bool_decide_eq_true Hw%negb_true_iff%bool_decide_eq_false].
    apply Hw, Hall; [by apply list_elem_of_In|done].
Qed.

Lemma empty_check (roots : gset string) (pins : list ManagedArtifactPin)
    (edges : list ManagedDependencyEdge) (e : ManagedInstallPlanError) u :
  err_if (bool_decide (roots = ∅) &&
    (negb (bool_decide (pins = [])) || negb (bool_decide (edges = [])))) e = Ok u ↔
  (roots = ∅ → pins = [] ∧ edges = []).
Proof.
  rewrite err_if_ok, andb_false_iff, orb_false_iff, !negb_false_iff, !bool_decide_eq_true,
    bool_decide_eq_false. destruct (decide (roots = ∅)); tauto.
Qed.

Lemma seal_sum pins : sum_Z (pin_size <$> sort_by pin_cmp pins) = sum_Z (pin_size <$> pins).
Proof. apply sum_Z_perm. by rewrite sort_by_perm. Qed.

(** The part of [seal] that looks at the graph. *)
Definition seal_graph (roots : gset string) (pins : list ManagedArtifactPin)
    (edges : list ManagedDependencyEdge) : result ManagedInstallPlanError Z :=
  scan ← try_fold (scan_pin url_parse) {| ps_indices := ∅; ps_filenames := ∅; ps_aggregate := 0 |}
           (enumerate pins);
  err_if (negb (bool_decide (roots = list_to_set (pin_project_id <$>
    List.filter (λ pin, bool_decide (pin_role pin = Root)) pins)))) RootSetMismatch ;;
  err_if (bool_decide (roots = ∅) &&
          (negb (bool_decide (pins = [])) || negb (bool_decide (edges = []))))
    UnexpectedEmptyRootGraph ;;
  '(_, adjacency) ← try_fold (scan_edge pins (ps_indices scan)) (∅, ∅) edges;
  err_if (existsb (λ pin,
            bool_decide (pin_role pin = RequiredDependency) &&
            negb (bool_decide (pin_project_id pin ∈
              walk (S (length pins)) adjacency roots (elements roots)))) pins)
    UnreachableDependency ;;
  Ok (ps_aggregate scan).

Lemma seal_graph_ok roots pins edges bytes :
  sizes_ok pins →
  seal_graph roots pins edges = Ok bytes ↔
  graph_ok url_parse roots pins edges ∧ bytes = sum_Z (pin_size <$> pins).
Proof.
  intros Hs. unfold seal_graph, enumerate. rewrite bind_ok.
  setoid_rewrite (scan_pins_ok 0 pins _ _ Hs); [|simpl; rewrite max_bytes_value; lia].
  cbn [ps_aggregate ps_indices ps_filenames]. rewrite Z.add_0_l.
  assert (∀ x, x ∈ roots → roots = list_to_set (pin_project_id <$>
    List.filter (λ pin, bool_decide (pin_role pin = Root)) pins) → x ∈ pin_project_id <$> pins) as Hrp.
  { intros x Hx E. rewrite E in Hx. apply pin_roots_spec in Hx as (p & Hp & _ & <-).
    by apply list_elem_of_fmap_2. }
  split.
  - intros (scan & (Hv & (Hid & _) & (Hfn & _) & Hb & ->) & Hr). simpl in Hr.
    apply bind_ok_unit in Hr as [Hroots Hr]. apply bind_ok_unit in Hr as [Hempty Hr].
    rewrite err_if_ok, negb_false_iff, bool_decide_eq_true in Hroots. rewrite empty_check in Hempty.
    apply bind_ok in Hr as ([u adj] & Hfold & Hr). apply bind_ok_unit in Hr as [Hreach [= <-]].
    apply (keyed_fold_ok id fst add_plan_edge (λ s x, eq_refl) _ _ _ _ _ (scan_edge_check pins Hid))
      in Hfold as (He & Hnd & _ & Hadj).
    assert (adj = (foldl add_plan_edge (∅, ∅) edges).2) as -> by by rewrite <-Hadj.
    rewrite unreachable_check in Hreach. rewrite list_fmap_id in Hnd.
    split; [|done]. split; try done.
    + intros x. rewrite Hroots at 1. apply pin_roots_spec.
    + apply list.Forall_forall. intros p Hp. destruct (pin_role p) eqn:Er.
      * apply linked_root. rewrite Hroots. apply pin_roots_spec. eauto.
      * apply (walk_linked roots pins edges ∅); [done| | |by apply Hreach].
        -- eapply list.Forall_impl; [exact He|]. by intros e [_ ?].
        -- intros y Hy. by apply Hrp.
  - intros [[Hv Hid Hfn Hb Hroots Hempty He Hnd Hl] ->].
    assert (roots = list_to_set (pin_project_id <$>
      List.filter (λ pin, bool_decide (pin_role pin = Root)) pins)) as Hre.
    { apply set_eq. intros x. by rewrite Hroots, pin_roots_spec. }
    eexists. split; [split_and!; done|]. simpl.
    apply bind_ok_unit. split; [by rewrite err_if_ok, negb_false_iff, bool_decide_eq_true|].
    apply bind_ok_unit. split; [by apply empty_check|].
    apply bind_ok. exists (foldl add_plan_edge (∅, ∅) edges). split.
    + apply (keyed_fold_ok id fst add_plan_edge (λ s x, eq_refl) _ _ _ _ _ (scan_edge_check pins Hid)).
      rewrite list_fmap_id. split_and!; try done.
    + destruct (foldl add_plan_edge (∅, ∅) edges) as [u adj] eqn:Ef. apply bind_ok_unit. split; [|done].
      apply unreachable_check. intros p Hp _.
      assert (adj = (foldl add_plan_edge (∅, ∅) edges).2) as -> by by rewrite Ef.
      apply (walk_linked roots pins edges ∅); [done| | |].
      * eapply list.Forall_impl; [exact He|]. by intros e [_ ?].
      * intros y Hy. by apply Hrp.
      * rewrite list.Forall_forall in Hl. by apply Hl.
Qed.

Lemma seal_factor sha512_hex declarative game_version loader pins edges plan :
  sizes_ok pins →
  seal url_parse sha512_hex declarative game_version loader pins edges = Ok plan ↔
  target_ok declarative game_version loader pins edges ∧
  seal_graph (declared_roots declarative) pins edges = Ok (sum_Z (pin_size <$> pins)) ∧
  plan = sealed sha512_hex declarative game_version loader pins edges.
Proof.
  intros Hs.
  pose proof (λ s, keyed_set_ok mm_project_id _ _ (plan_mods declarative) s collect_root_check) as Hc.
  fold (declared_roots declarative) in Hc.
  unfold seal. rewrite !bind_ok_unit, !err_if_ok, !Nat.ltb_ge, !negb_false_iff, bool_decide_eq_true, str_eqb_spec.
  split.
  - intros (? & ? & ? & ? & ? & ? & ? & ? & (roots & (? & ? & ->)%Hc & Hr)%bind_ok).
    split; [by split|]. unfold seal_graph. apply bind_ok in Hr as (scan & Hscan & Hr).
    rewrite Hscan. cbn [mbind result_bind].
    pose proof Hscan as Hagg. apply scan_pins_ok in Hagg as (_ & _ & _ & _ & Es); [|done|].
    2:{ simpl. rewrite max_bytes_value. lia. }
    assert (ps_aggregate scan = sum_Z (pin_size <$> pins)) as Ea by by rewrite Es.
    rewrite Ea in *. apply bind_ok_unit in Hr as [-> Hr]. apply bind_ok_unit in Hr as [-> Hr].
    cbn [mbind result_bind]. apply bind_ok in Hr as ([u adj] & -> & Hr).
    cbn [mbind result_bind]. apply bind_ok_unit in Hr as [-> [= <-]].
    cbn [mbind result_bind]. split; [done|]. unfold sealed. by rewrite seal_sum.
  - intros ([] & Hg & ->). split_and!; try done. apply bind_ok. eexists. split; [by apply Hc|].
    revert Hg. unfold seal_graph. rewrite bind_ok. intros (scan & Hscan & Hg).
    rewrite Hscan. cbn [mbind result_bind].
    apply bind_ok_unit in Hg as [-> Hg]. apply bind_ok_unit in Hg as [-> Hg].
    cbn [mbind result_bind]. apply bind_ok in Hg as ([u adj] & -> & Hg).
    cbn [mbind result_bind]. apply bind_ok_unit in Hg as [-> [= Ea]].
    cbn [mbind result_bind]. unfold sealed. by rewrite seal_sum, Ea.
Qed.

Lemma seal_spec sha512_hex declarative game_version loader pins edges plan :
  sizes_ok pins →
  seal url_parse sha512_hex declarative game_version loader pins edges = Ok plan ↔
  target_ok declarative game_version loader pins edges ∧
  graph_ok url_parse (declared_roots declarative) pins edges ∧
  plan = sealed sha512_hex declarative game_version loader pins edges.
Proof.
  intros Hs. rewrite seal_factor, seal_graph_ok by done. naive_solver.
Qed.
End seal.

(** ** Properties of sealing *)

#[global] Instance edge_cmp_preorder : CmpPreorder edge_cmp.
Proof. unfold edge_cmp. apply _. Qed.
#[global] Instance pin_cmp_preorder : CmpPreorder pin_cmp.
Proof. unfold pin_cmp. apply _. Qed.

Lemma pin_cmp_sorted pins :
  NoDup (pin_project_id <$> pins) →
  StronglySorted (λ p q, str_cmp (pin_project_id p) (pin_project_id q) = Lt) (sort_by pin_cmp pins).
Proof.
  intros Hnd. pose proof (sort_by_sorted pin_cmp pins) as Hs.
  assert (NoDup (pin_project_id <$> sort_by pin_cmp pins)) as Hnd' by by rewrite sort_by_perm.
  clear Hnd. induction Hs as [|p l Hs IH Hall]; [constructor|].
  apply list.NoDup_cons in Hnd' as [Hp Hnd']. constructor; [by apply IH|].
  rewrite list.Forall_forall in Hall |- *. intros q Hq. specialize (Hall q Hq). simpl in Hall.
  unfold pin_cmp, cmp_on in Hall. destruct (str_cmp _ _) eqn:E; [|done|done].
  destruct Hp. apply (cmp_eq str_cmp) in E. rewrite E. by apply list_elem_of_fmap_2.
Qed.

Lemma edge_cmp_eq e f : edge_cmp e f = Eq → e = f.
Proof.
  unfold edge_cmp, cmp_then, cmp_on. destruct e as [a b c], f as [a' b' c']; simpl.
  destruct (str_cmp a a') eqn:E1; simpl; try done.
  destruct (str_cmp b b') eqn:E2; simpl; try done. intros E3.
  apply (cmp_eq str_cmp) in E1, E2, E3. by subst.
Qed.

Lemma edge_cmp_sorted edges :
  NoDup edges → StronglySorted (λ e f, edge_cmp e f = Lt) (sort_by edge_cmp edges).
Proof.
  intros Hnd. pose proof (sort_by_sorted edge_cmp edges) as Hs.
  assert (NoDup (sort_by edge_cmp edges)) as Hnd' by by rewrite sort_by_perm.
  clear Hnd. induction Hs as [|p l Hs IH Hall]; [constructor|].
  apply list.NoDup_cons in Hnd' as [Hp Hnd']. constructor; [by apply IH|].
  rewrite list.Forall_forall in Hall |- *. intros q Hq. specialize (Hall q Hq). simpl in Hall.
  destruct (edge_cmp p q) eqn:E; [|done|done].
  apply edge_cmp_eq in E as ->. done.
Qed.

Lemma pin_cmp_inj pins p q :
  NoDup (pin_project_id <$> pins) → p ∈ pins → q ∈ pins → pin_cmp p q = Eq → p = q.
Proof. intros Hnd Hp Hq E%(cmp_eq str_cmp). by apply (NoDup_fmap_inj pin_project_id pins). Qed.

Section properties.
Context `{UnicodeNorm} (url_parse : string → option ParsedUrl) (sha512_hex : string → string).

Lemma linked_perm edges edges' roots x :
  edges ≡ₚ edges' → linked edges roots x → linked edges' roots x.
Proof.
  intros Hp. induction 1 as [y Hy|e _ IH He]; [by apply linked_root|].
  apply linked_edge; [done|by rewrite <-Hp].
Qed.

Lemma edge_pinned_perm pins pins' e : pins ≡ₚ pins' → edge_pinned pins e → edge_pinned pins' e.
Proof. intros Hp (p & c & ? & ? & ?). exists p, c. by rewrite <-Hp. Qed.

(** Nothing that sealing checks of the graph depends on the order given. *)
Lemma graph_ok_perm roots pins pins' edges edges' :
  pins ≡ₚ pins' → edges ≡ₚ edges' →
  graph_ok url_parse roots pins edges → graph_ok url_parse roots pins' edges'.
Proof.
  intros Hp He [Hv Hid Hfn Hb Hr Hem Hed Hnd Hl]. split.
  - by rewrite <-Hp.
  - by rewrite <-Hp.
  - by rewrite <-Hp.
  - rewrite <-(sum_Z_perm (pin_size <$> pins)); [done|by rewrite Hp].
  - intros x. rewrite Hr. by setoid_rewrite Hp.
  - intros E. destruct (Hem E) as [-> ->].
    apply Permutation_nil_l in Hp, He. by subst.
  - rewrite <-He. eapply list.Forall_impl; [exact Hed|]. intros e [? ?].
    split; [done|by apply (edge_pinned_perm pins)].
  - by rewrite <-He.
  - rewrite <-Hp. eapply list.Forall_impl; [exact Hl|]. intros p. by apply linked_perm.
Qed.

Lemma sealed_perm declarative game_version loader pins pins' edges edges' :
  NoDup (pin_project_id <$> pins) → pins ≡ₚ pins' → edges ≡ₚ edges' →
  sealed sha512_hex declarative game_version loader pins edges =
  sealed sha512_hex declarative game_version loader pins' edges'.
Proof.
  intros Hnd Hp He. unfold sealed.
  rewrite (sort_by_unique pin_cmp pins pins'); [|by intros p q Hpi Hqi; apply (pin_cmp_inj pins)|done].
  by rewrite (sort_by_unique edge_cmp edges edges' (λ e f _ _, edge_cmp_eq e f) He).
Qed.

(** C9: [seal] accepts exactly the consistent plans: managed mode, a bounded
    and trimmed target, well-formed pins with distinct projects and distinct
    portable file names, at most 512 MiB in all, exactly the declared roots,
    and distinct edges between pinned artifacts at the pinned version, from
    which every artifact is reachable.  The result is the sorted graph with
    its byte total and digest. *)
Theorem seal_succeeds_iff declarative game_version loader pins edges plan :
  sizes_ok pins →
  seal url_parse sha512_hex declarative game_version loader pins edges = Ok plan ↔
  target_ok declarative game_version loader pins edges ∧
  graph_ok url_parse (declared_roots declarative) pins edges ∧
  plan = sealed sha512_hex declarative game_version loader pins edges.
Proof. apply seal_spec. Qed.

(** The sealed plan, its digest included, does not depend on the order in
    which the artifacts and the edges were discovered. *)
Theorem seal_order_irrelevant declarative game_version loader pins pins' edges edges' plan :
  sizes_ok pins → pins ≡ₚ pins' → edges ≡ₚ edges' →
  seal url_parse sha512_hex declarative game_version loader pins edges = Ok plan →
  seal url_parse sha512_hex declarative game_version loader pins' edges' = Ok plan.
Proof.
  intros Hs Hp He (Ht & Hg & ->)%seal_spec; [|done].
  apply seal_spec; [by unfold sizes_ok; rewrite <-Hp|]. split_and!.
  - destruct Ht. split; try done; [by rewrite <-Hp|by rewrite <-He].
  - by apply (graph_ok_perm _ pins pins' edges edges').
  - apply sealed_perm; [by destruct Hg|done|done].
Qed.
End properties.

(** ** A concrete plan *)

Fixpoint zeros (n : nat) : string := match n with O => "" | S n => String "0" (zeros n) end.

Definition toy_url (url : string) : option ParsedUrl :=
  if starts_with "https://" url
  then Some {| url_scheme := "https"; url_has_host := true; url_username := "";
               url_has_password := false; url_has_fragment := false |}
  else None.

(** A stand-in for SHA-512. *)
Definition toy_hash (bytes : string) : string := display_nat (String.length bytes).

Definition root_pin : ManagedArtifactPin := {|
  pin_project_id := "AANobbMI"; pin_version_id := "OihdIimA"; pin_filename := "sodium.jar";
  pin_download_url := "https://cdn.example/sodium.jar"; pin_size := 1000; pin_sha512 := zeros 128;
  pin_role := Root |}.

Definition dependency_pin : ManagedArtifactPin := {|
  pin_project_id := "P7dR8mSH"; pin_version_id := "9YVrKY0Z"; pin_filename := "Fabric-API.jar";
  pin_download_url := "https://cdn.example/api.jar"; pin_size := 2000; pin_sha512 := zeros 128;
  pin_role := RequiredDependency |}.

Definition sample_edge : ManagedDependencyEdge := {|
  edge_parent_project_id := "AANobbMI"; edge_child_project_id := "P7dR8mSH";
  edge_child_version_id := "9YVrKY0Z" |}.

Definition sample_declarative : CompositionPlan := {|
  plan_composition_id := "core-fabric"; plan_family := FamilyE; plan_loader := "fabric";
  plan_mode := Managed; plan_tier := Core;
  plan_mods := [{| mm_artifact_id := "sodium"; mm_project_id := "AANobbMI"; mm_slug := "sodium";
                   mm_name := "Sodium"; mm_condition := Always; mm_version_range := "";
                   mm_exact_game_versions := []; mm_hardware_req := None;
                   mm_mutual_exclusions := [] |}];
  plan_jvm_preset := ""; plan_warnings := []; plan_fallback_reason := "" |}.

Definition seal_sample (pins : list ManagedArtifactPin) :
    result ManagedInstallPlanError ManagedCompositionInstallPlan :=
  @seal plain_norm toy_url toy_hash sample_declarative "1.20.1" "fabric" pins [sample_edge].

Definition sample_sealed : ManagedCompositionInstallPlan :=
  sealed toy_hash sample_declarative "1.20.1" "fabric" [root_pin; dependency_pin] [sample_edge].

Lemma sample_sizes_ok : sizes_ok [dependency_pin; root_pin].
Proof. repeat constructor; by vm_compute. Qed.

Lemma seal_succeeds_iff_witness :
  @graph_ok plain_norm toy_url (declared_roots sample_declarative) [dependency_pin; root_pin] [sample_edge].
Proof.
  apply (@seal_succeeds_iff plain_norm toy_url toy_hash sample_declarative "1.20.1" "fabric"
    [dependency_pin; root_pin] [sample_edge] sample_sealed); [apply sample_sizes_ok|vm_eq].
Defined.

Lemma seal_order_irrelevant_witness : seal_sample [root_pin; dependency_pin] = Ok sample_sealed.
Proof.
  apply (@seal_order_irrelevant plain_norm toy_url toy_hash sample_declarative "1.20.1" "fabric"
    [dependency_pin; root_pin] [root_pin; dependency_pin] [sample_edge] [sample_edge]);
    [apply sample_sizes_ok|apply Permutation_swap|done|vm_eq].
Defined.
