(* ===== verification/PerfInstallState.v ===== *)
(** * The installed state of a composition

    [canonical_state_graph_digest] and [validate_state_graph]
    ([core/performance/src/install/plan.rs]) check a stored state, and
    [state_from_plan] ([core/performance/src/install/artifact.rs]) makes one
    from a sealed plan.  A state made from a plan passes the check and carries
    the plan's digest. *)

From S2P Require Import Prelude RustStr PerfTypes McPortablePath PerfGraph PerfInstallPlan.

#[global] Instance ManagedDependencyStateEdge_countable : Countable ManagedDependencyStateEdge.
Proof.
  refine (inj_countable'
    (λ e, (se_parent_project_id e, se_child_project_id e, se_child_version_id e))
    (λ '(p, c, v), {| se_parent_project_id := p; se_child_project_id := c;
                      se_child_version_id := v |}) _).
  by intros [].
Defined.

(** The derived [Ord]. *)
Definition state_edge_cmp : ManagedDependencyStateEdge → ManagedDependencyStateEdge → comparison :=
  cmp_then (cmp_on se_parent_project_id str_cmp)
    (cmp_then (cmp_on se_child_project_id str_cmp) (cmp_on se_child_version_id str_cmp)).

Definition node_from_installed (installed : InstalledMod) : CanonicalGraphNode := {|
  gn_project_id := im_project_id installed; gn_version_id := im_version_id installed;
  gn_filename := im_filename installed; gn_role := im_role installed;
  gn_size := im_size installed; gn_sha512 := int_sha512 (im_integrity installed) |}.

Definition edge_from_state (edge : ManagedDependencyStateEdge) : CanonicalGraphEdge := {|
  ge_parent_project_id := se_parent_project_id edge;
  ge_child_project_id := se_child_project_id edge;
  ge_child_version_id := se_child_version_id edge |}.

(** [previous.is_some_and(|previous| previous >= current)]. *)
Definition not_above {A} (cmp : A → A → comparison) (previous : option A) (current : A) : bool :=
  match previous with None => false | Some previous => negb (is_lt (cmp previous current)) end.

(** The variables of the loop over the installed mods. *)
Record StateScan := {
  ss_projects : gmap string nat;
  ss_filenames : gset string;
  ss_bytes : Z;
  ss_roots : gset string;
  ss_previous : option string;
}.

Definition empty_scan : StateScan :=
  {| ss_projects := ∅; ss_filenames := ∅; ss_bytes := 0; ss_roots := ∅; ss_previous := None |}.

(** The variables of the loop over the edges. *)
Record EdgeScan := {
  es_unique : gset ManagedDependencyStateEdge;
  es_adjacency : Adjacency;
  es_previous : option ManagedDependencyStateEdge;
}.

Definition empty_edge_scan : EdgeScan :=
  {| es_unique := ∅; es_adjacency := ∅; es_previous := None |}.

Definition scan_state_edge (installed_mods : list InstalledMod) (projects : gmap string nat)
    (scan : EdgeScan) (edge : ManagedDependencyStateEdge) :
    result ManagedInstallPlanError EdgeScan :=
  err_if (not_above state_edge_cmp (es_previous scan) edge) DuplicateEdge ;;
  map_err (λ _, InvalidProjectId) (validate_modrinth_id (se_parent_project_id edge)) ;;
  map_err (λ _, InvalidProjectId) (validate_modrinth_id (se_child_project_id edge)) ;;
  map_err (λ _, InvalidVersionId) (validate_modrinth_id (se_child_version_id edge)) ;;
  unique_edges ← insert_new DuplicateEdge (es_unique scan) edge;
  child_index ← ok_or UnknownEdgeEndpoint (projects !! se_child_project_id edge);
  err_if (negb (bool_decide (is_Some (projects !! se_parent_project_id edge)))) UnknownEdgeEndpoint ;;
  child ← ok_or UnknownEdgeEndpoint (installed_mods !! child_index);
  err_if (negb (str_eqb (im_version_id child) (se_child_version_id edge)))
    DependencyVersionMismatch ;;
  Ok {| es_unique := unique_edges;
        es_adjacency :=
          push_child (es_adjacency scan) (se_parent_project_id edge) (se_child_project_id edge);
        es_previous := Some edge |}.

Section state.
Context `{UnicodeNorm} (sha512_hex : string → string).

Definition scan_installed (scan : StateScan) (entry : nat * InstalledMod) :
    result ManagedInstallPlanError StateScan :=
  let '(index, installed) := entry in
  let id := im_project_id installed in
  map_err (λ _, InvalidProjectId) (validate_modrinth_id id) ;;
  map_err (λ _, InvalidVersionId) (validate_modrinth_id (im_version_id installed)) ;;
  validate_portable_jar_filename (im_filename installed) ;;
  err_if ((im_size installed =? 0) || (MANAGED_ARTIFACT_MAX_BYTES <? im_size installed))
    InvalidArtifactSize ;;
  validate_sha512 (int_sha512 (im_integrity installed)) ;;
  err_if (not_above str_cmp (ss_previous scan) id) DuplicateArtifact ;;
  err_if (bool_decide (is_Some (ss_projects scan !! id))) DuplicateArtifact ;;
  key ← portable_filename_key (im_filename installed);
  filenames ← insert_new DuplicateFilename (ss_filenames scan) key;
  let roots := if bool_decide (im_role installed = Root) then {[id]} ∪ ss_roots scan
               else ss_roots scan in
  bytes ← ok_or ArtifactBytesExceeded (add_bytes (ss_bytes scan) (im_size installed));
  Ok {| ss_projects := <[id := index]> (ss_projects scan);
        ss_filenames := filenames;
        ss_bytes := bytes;
        ss_roots := roots;
        ss_previous := Some id |}.

Definition canonical_state_graph_digest (state : CompositionState) :
    result ManagedInstallPlanError string :=
  err_if (MAX_MANAGED_PLAN_NODES <? length (cs_installed_mods state))%nat TooManyArtifacts ;;
  err_if (MAX_MANAGED_PLAN_EDGES <? length (cs_dependency_edges state))%nat TooManyEdges ;;
  validate_required_text (cs_composition_id state) MAX_COMPOSITION_ID_BYTES InvalidCompositionId ;;
  validate_target_value (cs_game_version state) ;;
  validate_target_value (cs_loader state) ;;
  scan ← try_fold scan_installed empty_scan (enumerate (cs_installed_mods state));
  edges ← try_fold (scan_state_edge (cs_installed_mods state) (ss_projects scan)) empty_edge_scan
            (cs_dependency_edges state);
  let reachable :=
    walk (S (length (cs_installed_mods state))) (es_adjacency edges) (ss_roots scan)
      (elements (ss_roots scan)) in
  err_if (existsb (λ installed,
            bool_decide (im_role installed = RequiredDependency) &&
            negb (bool_decide (im_project_id installed ∈ reachable))) (cs_installed_mods state))
    UnreachableDependency ;;
  Ok (graph_digest sha512_hex
        {| gi_composition_id := cs_composition_id state;
           gi_family := cs_family state;
           gi_tier := cs_tier state;
           gi_game_version := cs_game_version state;
           gi_loader := cs_loader state;
           gi_aggregate_bytes := ss_bytes scan |}
        (node_from_installed <$> cs_installed_mods state)
        (edge_from_state <$> cs_dependency_edges state)).

Definition validate_state_graph (state : CompositionState) :
    result ManagedInstallPlanError unit :=
  digest ← canonical_state_graph_digest state;
  err_if (negb (str_eqb digest (cs_graph_sha512 state))) InvalidGraphDigest.
End state.

Definition installed_from_pin (pin : ManagedArtifactPin) : InstalledMod := {|
  im_project_id := pin_project_id pin;
  im_version_id := pin_version_id pin;
  im_filename := pin_filename pin;
  im_role := pin_role pin;
  im_size := pin_size pin;
  im_ownership_class := CompositionManaged;
  im_source := {| source_provider := Modrinth |};
  im_integrity := {| int_sha512 := pin_sha512 pin |};
|}.

Definition installed_graph_from_plan (plan : ManagedCompositionInstallPlan) : list InstalledMod :=
  installed_from_pin <$> ip_pins plan.

Definition state_edge (edge : ManagedDependencyEdge) : ManagedDependencyStateEdge := {|
  se_parent_project_id := edge_parent_project_id edge;
  se_child_project_id := edge_child_project_id edge;
  se_child_version_id := edge_child_version_id edge |}.

(** [installed_at] is the current time. *)
Definition state_from_plan (now : string) (plan : ManagedCompositionInstallPlan)
    (installed_mods : list InstalledMod) : CompositionState := {|
  cs_composition_id := ip_composition_id plan;
  cs_family := ip_family plan;
  cs_tier := ip_tier plan;
  cs_game_version := ip_game_version plan;
  cs_loader := ip_loader plan;
  cs_graph_sha512 := ip_graph_digest plan;
  cs_dependency_edges := state_edge <$> ip_edges plan;
  cs_installed_mods := installed_mods;
  cs_installed_at := now;
|}.

(** ** The state check simulates sealing on sorted input *)

Lemma sizes_ok_sort pins : sizes_ok pins → sizes_ok (sort_by pin_cmp pins).
Proof. unfold sizes_ok. by rewrite sort_by_perm. Qed.

Section simulation.
Context `{UnicodeNorm} (url_parse : string → option ParsedUrl) (sha512_hex : string → string).

Definition below {A B} (cmp : A → A → comparison) (key : B → A) (previous : option A)
    (l : list B) : Prop :=
  ∀ x, previous = Some x → Forall (λ y, cmp x (key y) = Lt) l.

Lemma below_cons {A B} (cmp : A → A → comparison) (key : B → A) previous y l :
  below cmp key previous (y :: l) → not_above cmp previous (key y) = false ∧ below cmp key previous l.
Proof.
  intros Hb. destruct previous as [x|]; [|split; [done|by intros ??]].
  pose proof (Hb x eq_refl) as Hx. apply list.Forall_cons in Hx as [Hy Hl]. simpl. rewrite Hy.
  split; [done|]. by intros z [= <-].
Qed.

(** The state scan that corresponds to a scan of pins. *)
Definition state_of_scan (scan : PinScan) (roots : gset string) (previous : option string) : StateScan :=
  {| ss_projects := ps_indices scan; ss_filenames := ps_filenames scan;
     ss_bytes := ps_aggregate scan; ss_roots := roots; ss_previous := previous |}.

Lemma scan_installed_step scan n p scan' roots previous :
  not_above str_cmp previous (pin_project_id p) = false →
  scan_pin url_parse scan (n, p) = Ok scan' →
  scan_installed (state_of_scan scan roots previous) (n, installed_from_pin p) =
  Ok (state_of_scan scan'
        (if bool_decide (pin_role p = Root) then {[pin_project_id p]} ∪ roots else roots)
        (Some (pin_project_id p))).
Proof.
  intros Hprev. unfold scan_pin, scan_installed. cbn -[validate_modrinth_id].
  rewrite bind_ok_unit. unfold pin_validate. rewrite !bind_ok_unit.
  intros ((-> & -> & -> & _ & Hsize & ->) & -> & Hr). cbn. rewrite Hsize, Hprev. cbn.
  apply bind_ok in Hr as (k & -> & Hr). cbn. apply bind_ok in Hr as (f & -> & Hr). cbn.
  apply bind_ok in Hr as (b & -> & [= <-]). done.
Qed.

Lemma scan_installed_sim pins n scan scan' roots previous :
  StronglySorted (λ p q, str_cmp (pin_project_id p) (pin_project_id q) = Lt) pins →
  below str_cmp pin_project_id previous pins →
  try_fold (scan_pin url_parse) scan (enumerate_from n pins) = Ok scan' →
  ∃ previous', try_fold scan_installed (state_of_scan scan roots previous)
    (enumerate_from n (installed_from_pin <$> pins)) =
    Ok (state_of_scan scan'
      (list_to_set (pin_project_id <$> List.filter (λ p, bool_decide (pin_role p = Root)) pins) ∪ roots)
      previous').
Proof.
  intros Hs. revert n scan roots previous. induction Hs as [|p pins Hs IH Hall];
    intros n scan roots previous Hb; cbn [enumerate_from fmap list_fmap try_fold].
  { intros [= <-]. exists previous. simpl. by rewrite (left_id_L ∅ (∪)). }
  intros (t & Ht & Hf)%bind_ok. apply below_cons in Hb as [Hna Hb].
  rewrite (scan_installed_step _ _ _ _ _ _ Hna Ht). cbn [mbind result_bind].
  edestruct (IH (S n) t (if bool_decide (pin_role p = Root) then {[pin_project_id p]} ∪ roots else roots)
    (Some (pin_project_id p))) as (previous' & E); [by intros x [= <-]|exact Hf|].
  exists previous'. cbn [fmap list_fmap] in E |- *. rewrite E. f_equal. unfold state_of_scan. f_equal.
  simpl. case_bool_decide; simpl; [|done]. set_solver.
Qed.

Lemma state_edge_inj e f : state_edge e = state_edge f → e = f.
Proof. destruct e, f. unfold state_edge. simpl. congruence. Qed.

Lemma scan_state_edge_step pins indices u adj e u' adj' v previous :
  not_above state_edge_cmp previous (state_edge e) = false →
  (∀ f, state_edge f ∈ v ↔ f ∈ u) →
  (∀ id i p, indices !! id = Some i → pins !! i = Some p → pin_project_id p = id) →
  scan_edge pins indices (u, adj) e = Ok (u', adj') →
  ∃ v', scan_state_edge (installed_from_pin <$> pins) indices
          {| es_unique := v; es_adjacency := adj; es_previous := previous |} (state_edge e) =
        Ok {| es_unique := v'; es_adjacency := adj'; es_previous := Some (state_edge e) |} ∧
        (∀ f, state_edge f ∈ v' ↔ f ∈ u').
Proof.
  intros Hprev Hv Hidx. unfold scan_edge, scan_state_edge. cbn -[validate_modrinth_id].
  rewrite bind_ok_unit. unfold edge_validate. rewrite !bind_ok_unit.
  intros ((-> & -> & ->) & Hr). rewrite Hprev. cbn.
  apply bind_ok in Hr as (u1 & [Hu ->]%insert_new_ok & Hr).
  apply bind_ok in Hr as (i & Hi%ok_or_ok & (j & Hj%ok_or_ok & Hr)%bind_ok).
  apply bind_ok in Hr as (p & Hp%ok_or_ok & (c & Hc%ok_or_ok & Hr)%bind_ok).
  apply bind_ok_unit in Hr as [Hver [= <- <-]].
  assert (insert_new DuplicateEdge v (state_edge e) = Ok ({[state_edge e]} ∪ v)) as ->
    by (apply insert_new_ok; by rewrite Hv).
  cbn -[push_child].
  rewrite Hi, Hj. cbn -[push_child].
  rewrite list_lookup_fmap, Hc. cbn -[push_child]. rewrite Hver. cbn -[push_child].
  rewrite (Hidx _ _ _ Hi Hp), (Hidx _ _ _ Hj Hc). eexists. split; [done|].
  intros f. rewrite !elem_of_union, !elem_of_singleton, Hv.
  split; (intros [E|?]; [left|by right]); [by apply state_edge_inj|by rewrite E].
Qed.

Lemma state_edge_cmp_map e f : state_edge_cmp (state_edge e) (state_edge f) = edge_cmp e f.
Proof. done. Qed.

Lemma scan_state_edges_sim pins indices edges u adj u' adj' v previous :
  StronglySorted (λ e f, edge_cmp e f = Lt) edges →
  below state_edge_cmp state_edge previous edges →
  (∀ f, state_edge f ∈ v ↔ f ∈ u) →
  (∀ id i p, indices !! id = Some i → pins !! i = Some p → pin_project_id p = id) →
  try_fold (scan_edge pins indices) (u, adj) edges = Ok (u', adj') →
  ∃ v' previous', try_fold (scan_state_edge (installed_from_pin <$> pins) indices)
    {| es_unique := v; es_adjacency := adj; es_previous := previous |} (state_edge <$> edges) =
    Ok {| es_unique := v'; es_adjacency := adj'; es_previous := previous' |}.
Proof.
  intros Hs. revert u adj v previous. induction Hs as [|e edges Hs IH Hall];
    intros u adj v previous Hb Hv Hidx; cbn [fmap list_fmap try_fold].
  { intros [= <- <-]. by eexists _, _. }
  intros ([u1 adj1] & He & Hf)%bind_ok. apply below_cons in Hb as [Hna Hb].
  destruct (scan_state_edge_step pins indices u adj e u1 adj1 v previous) as (v1 & -> & Hv1); try done.
  cbn [mbind result_bind]. apply (IH u1); [|done..].
  by intros x [= <-].
Qed.

Lemma seal_fields declarative game_version loader pins edges plan :
  seal url_parse sha512_hex declarative game_version loader pins edges = Ok plan →
  sizes_ok pins →
  plan = sealed sha512_hex declarative game_version loader pins edges ∧
  seal_graph url_parse (declared_roots declarative) (ip_pins plan) (ip_edges plan) =
    Ok (ip_aggregate_bytes plan) ∧
  NoDup (pin_project_id <$> ip_pins plan) ∧ NoDup (ip_edges plan) ∧
  target_ok declarative game_version loader pins edges.
Proof.
  intros Hseal Hs. apply seal_spec in Hseal as (Ht & Hg & ->); [|done].
  assert (graph_ok url_parse (declared_roots declarative) (sort_by pin_cmp pins) (sort_by edge_cmp edges))
    as Hg' by (apply (graph_ok_perm _ _ pins _ edges); [by rewrite sort_by_perm..|done]).
  simpl. split; [done|]. split; [|destruct Hg'; by split_and!].
  apply seal_graph_ok; [by apply sizes_ok_sort|done].
Qed.

Lemma unreachable_map (w : gset string) pins :
  existsb (λ i, bool_decide (im_role i = RequiredDependency) && negb (bool_decide (im_project_id i ∈ w)))
    (installed_from_pin <$> pins) =
  existsb (λ p, bool_decide (pin_role p = RequiredDependency) && negb (bool_decide (pin_project_id p ∈ w))) pins.
Proof. induction pins as [|p pins IH]; [done|]. exact (f_equal (orb _) IH). Qed.

(** The digest that the state check recomputes is the digest of the plan. *)
Lemma state_digest declarative game_version loader pins edges plan now :
  sizes_ok pins →
  seal url_parse sha512_hex declarative game_version loader pins edges = Ok plan →
  canonical_state_graph_digest sha512_hex
    (state_from_plan now plan (installed_graph_from_plan plan)) = Ok (ip_graph_digest plan).
Proof.
  intros Hs Hseal. destruct (seal_fields _ _ _ _ _ _ Hseal Hs) as (Ep & Hg & Hnd & Hnde & []).
  unfold seal_graph in Hg. apply bind_ok in Hg as (scan & Hscan & Hg).
  apply bind_ok_unit in Hg as [Hroots Hg]. apply bind_ok_unit in Hg as [_ Hg].
  apply bind_ok in Hg as ([u adj] & Hedges & Hg). apply bind_ok_unit in Hg as [Hreach [= Hbytes]].
  rewrite err_if_ok, negb_false_iff, bool_decide_eq_true in Hroots.
  assert (∀ id i p, ps_indices scan !! id = Some i → ip_pins plan !! i = Some p → pin_project_id p = id) as Hidx.
  { apply scan_pins_ok in Hscan as (_ & _ & _ & _ & ->); cycle 1.
    - subst plan. by apply sizes_ok_sort.
    - simpl. rewrite max_bytes_value. lia.
    - simpl. intros id i p Hi Hp. apply scan_indices in Hi as (q & Hq & <-); [|done].
      rewrite Hp in Hq. by injection Hq as ->. }
  destruct (scan_installed_sim (ip_pins plan) 0
    {| ps_indices := ∅; ps_filenames := ∅; ps_aggregate := 0 |} scan ∅ None) as (prev1 & Hsim);
    [| |exact Hscan|].
  { subst plan. apply pin_cmp_sorted. simpl in Hnd. by rewrite sort_by_perm in Hnd. }
  { by intros ??. }
  destruct (scan_state_edges_sim (ip_pins plan) (ps_indices scan) (ip_edges plan) ∅ ∅ u adj ∅ None)
    as (v & prev2 & Hesim); [| | |exact Hidx|exact Hedges|].
  { subst plan. apply edge_cmp_sorted. simpl in Hnde. by rewrite sort_by_perm in Hnde. }
  { by intros ??. }
  { set_solver. }
  rewrite (right_id_L ∅ (∪)), <-Hroots in Hsim.
  unfold canonical_state_graph_digest, state_from_plan, installed_graph_from_plan.
  cbn [cs_installed_mods cs_dependency_edges cs_composition_id cs_family cs_tier cs_game_version cs_loader].
  rewrite !bind_ok_unit, !err_if_ok, !Nat.ltb_ge, !length_fmap.
  split_and!; [subst plan; simpl; by rewrite sort_by_perm|subst plan; simpl; by rewrite sort_by_perm|
               by subst plan..|].
  apply bind_ok. eexists. split; [exact Hsim|].
  apply bind_ok. eexists. split; [exact Hesim|]. cbn [ss_roots es_adjacency state_of_scan ss_bytes].
  rewrite unreachable_map, Hreach. cbn [mbind result_bind]. f_equal.
  rewrite Hbytes. subst plan. unfold sealed, graph_digest. simpl. do 2 f_equal.
  - by rewrite <-list_fmap_compose.
  - by rewrite <-list_fmap_compose.
Qed.

(** What sealing wrote, the state check accepts: the state recorded for a
    sealed plan passes [validate_state_graph], whatever the time of
    installation. *)
Theorem sealed_state_validates declarative game_version loader pins edges plan now :
  sizes_ok pins →
  seal url_parse sha512_hex declarative game_version loader pins edges = Ok plan →
  validate_state_graph sha512_hex
    (state_from_plan now plan (installed_graph_from_plan plan)) = Ok tt.
Proof.
  intros Hs Hseal. unfold validate_state_graph. rewrite (state_digest _ _ _ _ _ _ _ Hs Hseal).
  simpl. apply err_if_ok. by rewrite negb_false_iff, str_eqb_spec.
Qed.
End simulation.

Lemma sealed_state_validates_witness :
  validate_state_graph (H := plain_norm) toy_hash
    (state_from_plan "2026-01-01T00:00:00Z" sample_sealed (installed_graph_from_plan sample_sealed)) = Ok tt.
Proof.
  apply (@sealed_state_validates plain_norm toy_url toy_hash sample_declarative "1.20.1" "fabric"
    [dependency_pin; root_pin] [sample_edge]); [apply sample_sizes_ok|vm_eq].
Defined.
