(* ===== verification/McVersionId.v ===== *)
(** * Version identifiers ([core/minecraft/src/version_meta/{tokenize,parse}.rs])

    The tokenizer of Minecraft version identifiers and the parser that reads
    their shape off the tokens.  A [char] is the string of its encoding. *)

From S2P Require Import Prelude RustStr.

(** ** Tokens *)

Inductive TokenKind :=
| Number
| Word
| Separator (ch : string).

#[global] Instance TokenKind_eq_dec : EqDecision TokenKind.
Proof. solve_decision. Defined.

Record VersionToken := {
  tok_kind : TokenKind;
  tok_raw : string;
  tok_normalized : string;
}.

Definition same_group (left right : TokenKind) : bool :=
  match left, right with
  | Number, Number | Word, Word => true
  | _, _ => false
  end.

Definition build_token (kind : TokenKind) (value : string) : VersionToken := {|
  tok_normalized :=
    match kind with
    | Number => value
    | Word => to_ascii_lowercase value
    | Separator _ => value
    end;
  tok_raw := value;
  tok_kind := kind;
|}.

(** The variables of the loop over the characters. *)
Record Tokenizer := {
  tz_tokens : list VersionToken;
  tz_current : string;
  tz_kind : option TokenKind;
}.

Definition token_step (st : Tokenizer) (ch : string) : Tokenizer :=
  if char_is is_alphanumeric ch then
    let next_kind := if char_is is_digit ch then Number else Word in
    let st :=
      match tz_kind st with
      | Some kind =>
          if negb (same_group kind next_kind) && negb (is_empty (tz_current st)) then
            {| tz_tokens := tz_tokens st ++ [build_token kind (tz_current st)];
               tz_current := ""; tz_kind := None |}
          else st
      | None => st
      end in
    {| tz_tokens := tz_tokens st; tz_current := tz_current st +:+ ch; tz_kind := Some next_kind |}
  else
    let st :=
      match tz_kind st with
      | Some kind =>
          if negb (is_empty (tz_current st)) then
            {| tz_tokens := tz_tokens st ++ [build_token kind (tz_current st)];
               tz_current := ""; tz_kind := None |}
          else {| tz_tokens := tz_tokens st; tz_current := tz_current st; tz_kind := None |}
      | None => st
      end in
    {| tz_tokens := tz_tokens st ++
         [{| tok_kind := Separator ch; tok_raw := ch; tok_normalized := ch |}];
       tz_current := tz_current st; tz_kind := tz_kind st |}.

Definition token_flush (st : Tokenizer) : list VersionToken :=
  match tz_kind st with
  | Some kind =>
      if negb (is_empty (tz_current st)) then tz_tokens st ++ [build_token kind (tz_current st)]
      else tz_tokens st
  | None => tz_tokens st
  end.

Definition tokenize_version_id (value : string) : list VersionToken :=
  token_flush (fold_left token_step (chars value)
    {| tz_tokens := []; tz_current := ""; tz_kind := None |}).

(** ** Shapes *)

Inductive VersionShape :=
| OldBeta (raw : string)
| OldAlpha (raw : string)
| Release (components : list Z)
| PreRelease (release label : string)
| ReleaseCandidate (release label : string)
| ReleaseSnapshot (release label : string)
| WeeklySnapshot (year week : Z) (channel : string) (is_potato : bool)
| CombatTest (release label : string)
| ExperimentalSnapshot (release label : string)
| DeepDarkExperimentalSnapshot (release label : string)
| UnknownShape.

Record ParsedVersionId := {
  base_id : string;
  variant_kind : string;
  shape : VersionShape;
}.

Definition base_release (self : VersionShape) : option string :=
  match self with
  | PreRelease release _ | ReleaseCandidate release _ | ReleaseSnapshot release _
  | CombatTest release _ | ExperimentalSnapshot release _
  | DeepDarkExperimentalSnapshot release _ => Some release
  | _ => None
  end.

Definition stage_label (self : VersionShape) : string :=
  match self with
  | PreRelease _ label | ReleaseCandidate _ label | ReleaseSnapshot _ label
  | CombatTest _ label | ExperimentalSnapshot _ label
  | DeepDarkExperimentalSnapshot _ label => label
  | WeeklySnapshot _ _ channel _ => channel
  | _ => ""
  end.

Definition is_separator (chs : list string) (token : VersionToken) : bool :=
  match tok_kind token with Separator ch => char_in chs ch | _ => false end.

Definition is_any_separator (token : VersionToken) : bool :=
  match tok_kind token with Separator _ => true | _ => false end.

(** [iter().position(p)]. *)
Fixpoint position {A} (p : A → bool) (l : list A) : option nat :=
  match l with
  | [] => None
  | x :: l => if p x then Some 0%nat else S <$> position p l
  end.

(** [iter().map(f).collect::<Option<Vec<_>>>()]. *)
Definition collect_option {A B} (f : A → option B) (l : list A) : option (list B) := mapM f l.

Definition matches_word (token : VersionToken) (expected : string) : bool :=
  bool_decide (tok_kind token = Word) && str_eqb (tok_normalized token) expected.

Definition matches_experimental_word (token : VersionToken) : bool :=
  bool_decide (tok_kind token = Word) &&
  existsb (str_eqb (tok_normalized token)) ["experimental"; "experimenta1"; "experimentai"].

Definition collect_compact_label (tokens : list VersionToken) : string :=
  str_concat (tok_raw <$> List.filter (λ token, negb (is_any_separator token)) tokens).

Definition parse_fixed_number (token : VersionToken) (width : nat) : option Z :=
  if negb (bool_decide (tok_kind token = Number)) ||
     negb (Nat.eqb (String.length (tok_raw token)) width) then None
  else parse_u32 (tok_raw token).

(** The loop of [reconstruct_release]. *)
Fixpoint release_loop (tokens : list VersionToken) (release : string) (expect_number : bool) :
    option string :=
  match tokens with
  | [] => if expect_number then None else Some release
  | token :: tokens =>
      match tok_kind token, expect_number with
      | Number, true => release_loop tokens (release +:+ tok_raw token) false
      | Separator ch, false =>
          if str_eqb ch "." then release_loop tokens (release +:+ ".") true else None
      | _, _ => None
      end
  end.

Definition reconstruct_release (tokens : list VersionToken) : option string :=
  match tokens with [] => None | _ => release_loop tokens "" true end.

Inductive StageKind := StagePreRelease | StageReleaseCandidate | StageSnapshot.

Record ParsedStage := { stage_kind : StageKind; parsed_label : string }.

Definition nonempty_stage (kind : StageKind) (suffix : string) : option ParsedStage :=
  if negb (is_empty suffix) then Some {| stage_kind := kind; parsed_label := suffix |} else None.

Definition parse_stage_marker (tokens : list VersionToken) : option ParsedStage :=
  match tokens with
  | [] => None
  | first :: rest =>
      match tok_kind first with
      | Word =>
          let word := tok_normalized first in
          match strip_prefix "pre" word with
          | Some label =>
              nonempty_stage StagePreRelease
                (if is_empty label then collect_compact_label rest else label)
          | None =>
              match strip_prefix "rc" word with
              | Some label =>
                  nonempty_stage StageReleaseCandidate
                    (if is_empty label then collect_compact_label rest else label)
              | None =>
                  if str_eqb word "snapshot"
                  then nonempty_stage StageSnapshot (collect_compact_label rest)
                  else None
              end
          end
      | _ => None
      end
  end.

Definition parse_old_channel (base_id : string) : option VersionShape :=
  if (1 <? str_len base_id) && starts_with "b" base_id then Some (OldBeta base_id)
  else if (1 <? str_len base_id) && starts_with "a" base_id then Some (OldAlpha base_id)
  else None.

Definition parse_release_stage (base_id : string) : option VersionShape :=
  let tokens := tokenize_version_id base_id in
  separator_index ← position (is_separator ["-"; "_"]) tokens;
  release ← reconstruct_release (take separator_index tokens);
  stage ← parse_stage_marker (drop (separator_index + 1) tokens);
  Some match stage_kind stage with
       | StagePreRelease => PreRelease release (parsed_label stage)
       | StageReleaseCandidate => ReleaseCandidate release (parsed_label stage)
       | StageSnapshot => ReleaseSnapshot release (parsed_label stage)
       end.

Definition parse_combat_test (base_id : string) : option VersionShape :=
  let tokens := tokenize_version_id base_id in
  underscore_index ← position (is_separator ["_"]) tokens;
  release ← reconstruct_release (take underscore_index tokens);
  match drop (underscore_index + 1) tokens with
  | t0 :: t1 :: ((_ :: _) as rest) =>
      if negb (matches_word t0 "combat") || negb (is_separator ["-"] t1) then None
      else
        let label := collect_compact_label rest in
        if is_empty label then None else Some (CombatTest release label)
  | _ => None
  end.

Inductive ExpectedPart :=
| ExpectWord (word : string)
| ExpectSeparator (ch : string).

Definition part_matches (token : VersionToken) (part : ExpectedPart) : bool :=
  match part with
  | ExpectWord value => matches_word token value
  | ExpectSeparator value => is_separator [value] token
  end.

(** The tokens after the expected parts; the source returns how many it
    consumed. *)
Fixpoint consume_prefix (tokens : list VersionToken) (expected : list ExpectedPart) : option nat :=
  match expected with
  | [] => Some 0%nat
  | part :: expected =>
      match tokens with
      | [] => None
      | token :: tokens =>
          if part_matches token part then S <$> consume_prefix tokens expected else None
      end
  end.

Definition deep_dark_parts : list ExpectedPart :=
  [ExpectWord "deep"; ExpectSeparator "_"; ExpectWord "dark"; ExpectSeparator "_";
   ExpectWord "experimental"; ExpectSeparator "_"; ExpectWord "snapshot"].

Definition parse_deep_dark_snapshot (base_id : string) : option VersionShape :=
  let tokens := tokenize_version_id base_id in
  underscore_index ← position (is_separator ["_"]) tokens;
  release ← reconstruct_release (take underscore_index tokens);
  let rest := drop (underscore_index + 1) tokens in
  consumed ← consume_prefix rest deep_dark_parts;
  let label :=
    match drop consumed rest with
    | token :: rest => if is_separator ["-"] token then collect_compact_label rest else ""
    | [] => ""
    end in
  Some (DeepDarkExperimentalSnapshot release label).

Definition parse_experimental_snapshot (base_id : string) : option VersionShape :=
  let tokens := tokenize_version_id base_id in
  underscore_index ← position (is_separator ["_"]) tokens;
  release ← reconstruct_release (take underscore_index tokens);
  match drop (underscore_index + 1) tokens with
  | t0 :: t1 :: t2 :: t3 :: rest =>
      if negb (matches_experimental_word t0) || negb (is_separator ["-"] t1) ||
         negb (matches_word t2 "snapshot") || negb (is_separator ["-"] t3) then None
      else
        let label := collect_compact_label rest in
        if is_empty label then None else Some (ExperimentalSnapshot release label)
  | _ => None
  end.

(** [or_else]. *)
Definition or_else {A} (x y : option A) : option A := match x with Some _ => x | None => y end.

Definition parse_special_snapshot_family (base_id : string) : option VersionShape :=
  or_else (parse_combat_test base_id)
    (or_else (parse_deep_dark_snapshot base_id) (parse_experimental_snapshot base_id)).

Definition parse_weekly_snapshot (base_id : string) : option VersionShape :=
  match tokenize_version_id base_id with
  | t0 :: t1 :: t2 :: ((_ :: _) as rest) =>
      year ← parse_fixed_number t0 2;
      if negb (matches_word t1 "w") then None
      else
        week ← parse_fixed_number t2 2;
        let channel := collect_compact_label rest in
        if is_empty channel then None
        else
          let is_potato := contains "potato" (to_ascii_lowercase channel) in
          Some (WeeklySnapshot year week channel is_potato)
  | _ => None
  end.

Definition parse_release (base_id : string) : option (list Z) :=
  release ← reconstruct_release (tokenize_version_id base_id);
  collect_option parse_u32 (split_on "." release).

Definition strip_variant_suffix (raw_id : string) : string * string :=
  match strip_suffix "_unobfuscated" raw_id with
  | Some stripped => (stripped, "unobfuscated")
  | None =>
      match strip_suffix "_original" raw_id with
      | Some stripped => (stripped, "original")
      | None => (raw_id, "")
      end
  end.

Definition parse_shape (base_id : string) : VersionShape :=
  default UnknownShape
    (or_else (parse_old_channel base_id)
      (or_else (parse_release_stage base_id)
        (or_else (parse_special_snapshot_family base_id)
          (or_else (parse_weekly_snapshot base_id)
            (Release <$> parse_release base_id))))).

Definition parse_version_id (raw_id : string) : ParsedVersionId :=
  let '(base_id, variant_kind) := strip_variant_suffix raw_id in
  {| base_id := base_id; variant_kind := variant_kind; shape := parse_shape base_id |}.

(** ** The tokenizer loses nothing *)

(** No text is pending without a kind. *)
Definition pending_ok (st : Tokenizer) : Prop := tz_kind st = None → tz_current st = "".

Definition emitted (st : Tokenizer) : string :=
  str_concat (tok_raw <$> tz_tokens st) +:+ tz_current st.

Lemma raws_snoc l t :
  str_concat (tok_raw <$> l ++ [t]) = str_concat (tok_raw <$> l) +:+ tok_raw t.
Proof. rewrite fmap_app, str_concat_app. simpl. by rewrite str_app_nil_r. Qed.

Lemma token_step_ok st ch :
  pending_ok st → pending_ok (token_step st ch) ∧ emitted (token_step st ch) = emitted st +:+ ch.
Proof.
  destruct st as [tokens current kind]. unfold pending_ok, emitted, token_step. simpl.
  intros Hp. destruct (char_is is_alphanumeric ch).
  - split; [done|]. destruct kind as [k|]; simpl; [|by rewrite str_app_assoc].
    destruct (_ && _); simpl; [|by rewrite str_app_assoc].
    by rewrite raws_snoc.
  - destruct kind as [k|]; simpl.
    + destruct (is_empty current) eqn:Ec; simpl.
      * apply is_empty_spec in Ec as ->. split; [done|].
        by rewrite raws_snoc, !str_app_nil_r.
      * split; [done|]. by rewrite !raws_snoc, str_app_nil_r.
    + rewrite Hp by done. split; [done|]. by rewrite raws_snoc, !str_app_nil_r.
Qed.

Lemma token_steps_ok chs st :
  pending_ok st →
  pending_ok (fold_left token_step chs st) ∧
  emitted (fold_left token_step chs st) = emitted st +:+ str_concat chs.
Proof.
  revert st. induction chs as [|ch chs IH]; intros st Hp; simpl; [by rewrite str_app_nil_r|].
  destruct (token_step_ok st ch Hp) as [Hp' He]. destruct (IH _ Hp') as [? ->].
  by rewrite He, str_app_assoc.
Qed.

Lemma token_flush_emitted st : pending_ok st → str_concat (tok_raw <$> token_flush st) = emitted st.
Proof.
  destruct st as [tokens current [k|]]; unfold pending_ok, emitted, token_flush; simpl; intros Hp.
  - destruct (is_empty current) eqn:E; simpl.
    + apply is_empty_spec in E as ->. by rewrite str_app_nil_r.
    + by rewrite raws_snoc.
  - rewrite Hp by done. by rewrite str_app_nil_r.
Qed.

Lemma tokenize_concat value : str_concat (tok_raw <$> tokenize_version_id value) = value.
Proof.
  unfold tokenize_version_id.
  destruct (token_steps_ok (chars value) {| tz_tokens := []; tz_current := ""; tz_kind := None |})
    as [Hp He]; [done|].
  rewrite token_flush_emitted by done. rewrite He. apply str_concat_chars.
Qed.

(** The tokens of an identifier, concatenated, give the identifier back. *)
Theorem tokenize_roundtrip value : str_concat (tok_raw <$> tokenize_version_id value) = value.
Proof. apply tokenize_concat. Qed.

(** ** Release numbers *)

Lemma digit_char_facts c :
  is_digit c = true → is_ascii_byte c = true ∧ is_alphanumeric c = true.
Proof. by destruct c as [[] [] [] [] [] [] [] []]. Qed.

Definition number_token (s : string) : VersionToken := build_token Number s.
Definition dot_token : VersionToken :=
  {| tok_kind := Separator "."; tok_raw := "."; tok_normalized := "." |}.

(** Digits extend the pending number. *)
Lemma token_step_digit tokens current c :
  is_digit c = true → current ≠ "" →
  token_step {| tz_tokens := tokens; tz_current := current; tz_kind := Some Number |} (char1 c) =
  {| tz_tokens := tokens; tz_current := current +:+ char1 c; tz_kind := Some Number |}.
Proof.
  intros Hc Hne. destruct (digit_char_facts c Hc) as [Ha Hn].
  unfold token_step, char_is, char1. simpl. by rewrite Ha, Hn, Hc.
Qed.

Lemma token_steps_digits s tokens current :
  sforall is_digit s = true → current ≠ "" →
  fold_left token_step (char1 <$> bytes_of s)
    {| tz_tokens := tokens; tz_current := current; tz_kind := Some Number |} =
  {| tz_tokens := tokens; tz_current := current +:+ s; tz_kind := Some Number |}.
Proof.
  revert current. induction s as [|c s IH]; intros current Hs Hne; simpl.
  { by rewrite str_app_nil_r. }
  simpl in Hs. apply andb_true_iff in Hs as [Hc Hs].
  rewrite token_step_digit, IH by (done || by destruct current).
  by rewrite str_app_assoc.
Qed.

Lemma token_steps_number s tokens :
  all_digits s = true →
  fold_left token_step (char1 <$> bytes_of s)
    {| tz_tokens := tokens; tz_current := ""; tz_kind := None |} =
  {| tz_tokens := tokens; tz_current := s; tz_kind := Some Number |}.
Proof.
  unfold all_digits. destruct s as [|c s]; [done|]. simpl. intros [Hc Hs]%andb_true_iff.
  destruct (digit_char_facts c Hc) as [Ha Hn].
  unfold token_step at 2, char_is, char1 at 2 3 4. simpl. rewrite Ha, Hn, Hc. simpl.
  by rewrite token_steps_digits.
Qed.

Lemma token_step_dot tokens s :
  s ≠ "" →
  token_step {| tz_tokens := tokens; tz_current := s; tz_kind := Some Number |} "." =
  {| tz_tokens := tokens ++ [number_token s; dot_token]; tz_current := ""; tz_kind := None |}.
Proof.
  intros Hs. unfold token_step. simpl. destruct (is_empty s) eqn:E; [by apply is_empty_spec in E|].
  simpl. by rewrite <-app_assoc.
Qed.

(** The tokens of a dotted number: its numbers with dots between. *)
Fixpoint dotted_tokens (parts : list string) : list VersionToken :=
  match parts with
  | [] => []
  | [s] => [number_token s]
  | s :: parts => number_token s :: dot_token :: dotted_tokens parts
  end.

Lemma bytes_of_app a b : bytes_of (a +:+ b) = bytes_of a ++ bytes_of b.
Proof. induction a as [|c a IH]; simpl; [done|]. by rewrite IH. Qed.

Lemma tokenize_dotted_from parts tokens :
  parts ≠ [] → Forall (λ s, all_digits s = true) parts →
  token_flush (fold_left token_step (char1 <$> bytes_of (str_join "." parts))
    {| tz_tokens := tokens; tz_current := ""; tz_kind := None |}) = tokens ++ dotted_tokens parts.
Proof.
  intros Hne Hp. revert tokens Hne.
  induction Hp as [|s parts Hs Hp IH]; intros tokens Hne; [done|].
  assert (s ≠ "") as Hs0 by by destruct s.
  assert (is_empty s = false) as Hse by by destruct s.
  destruct parts as [|t parts].
  - simpl. rewrite token_steps_number by done. unfold token_flush. simpl. by rewrite Hse.
  - rewrite str_join_cons, !bytes_of_app, !fmap_app, !fold_left_app, token_steps_number by done.
    cbn [bytes_of fmap list_fmap fold_left]. rewrite token_step_dot, IH by done.
    rewrite <-app_assoc. done.
Qed.

Lemma digits_ascii s : sforall is_digit s = true → is_ascii s = true.
Proof. apply sforall_impl. intros c Hc. by destruct (digit_char_facts c Hc). Qed.

Lemma dotted_ascii parts :
  Forall (λ s, all_digits s = true) parts → is_ascii (str_join "." parts) = true.
Proof.
  induction 1 as [|s parts Hs Hp IH]; [done|].
  apply andb_true_iff in Hs as [_ Hs%digits_ascii].
  destruct parts as [|t parts]; [done|]. rewrite str_join_cons, !is_ascii_app, Hs, IH. done.
Qed.

Lemma tokenize_dotted parts :
  parts ≠ [] → Forall (λ s, all_digits s = true) parts →
  tokenize_version_id (str_join "." parts) = dotted_tokens parts.
Proof.
  intros Hne Hp. unfold tokenize_version_id. rewrite chars_ascii by by apply dotted_ascii.
  by rewrite tokenize_dotted_from.
Qed.

Definition print_release (components : list Z) : string := str_join "." (display_Z <$> components).

Definition release_char (c : ascii) : bool := is_digit c || Ascii.eqb c ".".

Lemma dotted_chars parts :
  Forall (λ s, all_digits s = true) parts → sforall release_char (str_join "." parts) = true.
Proof.
  intros Hp. induction Hp as [|s parts Hs Hp IH]; [done|].
  assert (sforall release_char s = true) as Hs'.
  { apply andb_true_iff in Hs as [_ Hs]. revert Hs. apply sforall_impl.
    intros c Hc. unfold release_char. by rewrite Hc. }
  destruct parts as [|t parts]; [done|]. by rewrite str_join_cons, !sforall_app, Hs', IH.
Qed.

Lemma release_no_suffix s suffix :
  sforall release_char s = true → sforall release_char suffix = false → strip_suffix suffix s = None.
Proof.
  intros Hs Hf. destruct (strip_suffix suffix s) as [r|] eqn:E; [|done].
  apply strip_suffix_spec in E as ->. rewrite sforall_app in Hs.
  apply andb_true_iff in Hs as [_ Hs]. congruence.
Qed.

Lemma release_no_prefix s prefix :
  sforall release_char s = true → sforall release_char prefix = false → starts_with prefix s = false.
Proof.
  intros Hs Hf. apply not_true_is_false. intros [r ->]%starts_with_spec.
  rewrite sforall_app in Hs. apply andb_true_iff in Hs as [Hs _]. congruence.
Qed.

Lemma dotted_cons s t parts :
  dotted_tokens (s :: t :: parts) = number_token s :: dot_token :: dotted_tokens (t :: parts).
Proof. done. Qed.

Lemma dotted_position chs parts :
  char_in chs "." = false → position (is_separator chs) (dotted_tokens parts) = None.
Proof.
  intros Hc. induction parts as [|s parts IH]; [done|].
  destruct parts as [|t parts]; [done|]. rewrite dotted_cons. cbn [position].
  change (is_separator chs (number_token s)) with false.
  change (is_separator chs dot_token) with (char_in chs "."). rewrite Hc.
  cbn iota. by rewrite IH.
Qed.

Lemma release_loop_dotted parts acc :
  parts ≠ [] → release_loop (dotted_tokens parts) acc true = Some (acc +:+ str_join "." parts).
Proof.
  revert acc. induction parts as [|s parts IH]; intros acc Hne; [done|].
  destruct parts as [|t parts]; [done|].
  rewrite dotted_cons. cbn [release_loop]. change (tok_kind (number_token s)) with Number. cbn iota.
  change (tok_kind dot_token) with (Separator "."). cbn iota. change (str_eqb "." ".") with true.
  cbn iota. rewrite IH by done. rewrite str_join_cons, !str_app_assoc. done.
Qed.

Lemma reconstruct_dotted parts :
  parts ≠ [] → reconstruct_release (dotted_tokens parts) = Some (str_join "." parts).
Proof.
  intros Hne. unfold reconstruct_release.
  assert (dotted_tokens parts ≠ []) as Hd by (by destruct parts as [|? []]).
  destruct (dotted_tokens parts) eqn:E; [done|]. rewrite <-E. by rewrite release_loop_dotted.
Qed.

Lemma no_dot_digits s : all_digits s = true → no_byte "." s = true.
Proof.
  unfold all_digits. intros [_ Hs]%andb_true_iff. revert Hs. apply sforall_impl.
  by intros [[] [] [] [] [] [] [] []].
Qed.

Lemma digits_first_not c s :
  all_digits (String c s) = true → c ≠ "b"%char ∧ c ≠ "a"%char.
Proof.
  unfold all_digits. simpl. intros [Hc _]%andb_true_iff. split; intros ->; done.
Qed.

Section print.
Variable components : list Z.
Hypothesis components_ne : components ≠ [].
Hypothesis components_ok : Forall (λ n, 0 ≤ n ≤ u32_max) components.

Let parts := display_Z <$> components.

Lemma parts_digits : Forall (λ s, all_digits s = true) parts.
Proof.
  unfold parts. apply Forall_fmap. eapply list.Forall_impl; [exact components_ok|].
  intros n Hn. apply display_Z_spec. unfold u32_max, u64_max in *. lia.
Qed.

Lemma parts_ne : parts ≠ [].
Proof. unfold parts. by destruct components. Qed.

Lemma parse_release_print : parse_release (print_release components) = Some components.
Proof.
  unfold parse_release, print_release. fold parts.
  rewrite tokenize_dotted, reconstruct_dotted by (apply parts_ne || apply parts_digits).
  simpl. change "." with (char1 ".") at 1. rewrite split_on_join; [|apply parts_ne|].
  - unfold collect_option, parts. apply mapM_Some. apply Forall2_fmap_l, Forall_Forall2_diag.
    eapply list.Forall_impl; [exact components_ok|]. intros n Hn.
    apply parse_unsigned_display; [done|]. unfold u32_max, u64_max. lia.
  - eapply list.Forall_impl; [apply parts_digits|]. apply no_dot_digits.
Qed.

Lemma parse_version_print :
  parse_version_id (print_release components) =
  {| base_id := print_release components; variant_kind := ""; shape := Release components |}.
Proof.
  pose proof parts_digits as Hd.
  assert (sforall release_char (print_release components) = true) as Hch by apply (dotted_chars parts Hd).
  assert (tokenize_version_id (print_release components) = dotted_tokens parts) as Htok.
  { apply tokenize_dotted; [apply parts_ne|done]. }
  unfold parse_version_id, strip_variant_suffix.
  rewrite !release_no_suffix by done. f_equal. unfold parse_shape, parse_old_channel.
  rewrite !release_no_prefix, !andb_false_r by done. cbn [or_else].
  assert (parse_release_stage (print_release components) = None) as ->.
  { unfold parse_release_stage. by rewrite Htok, dotted_position. }
  assert (parse_special_snapshot_family (print_release components) = None) as ->.
  { unfold parse_special_snapshot_family, parse_combat_test, parse_deep_dark_snapshot,
      parse_experimental_snapshot. by rewrite Htok, dotted_position. }
  assert (parse_weekly_snapshot (print_release components) = None) as ->.
  { unfold parse_weekly_snapshot. rewrite Htok. destruct parts as [|a [|b [|c l]]]; try done.
    rewrite !dotted_cons. by destruct (parse_fixed_number (number_token a) 2). }
  cbn [or_else]. by rewrite parse_release_print.
Qed.
End print.

(** Printing the components of a release with dots and parsing the result
    gives the release back, with no variant. *)
Theorem release_roundtrip components :
  components ≠ [] → Forall (λ n, 0 ≤ n ≤ u32_max) components →
  parse_version_id (print_release components) =
  {| base_id := print_release components; variant_kind := ""; shape := Release components |}.
Proof. apply parse_version_print. Qed.

Lemma release_roundtrip_witness :
  parse_version_id "1.21.11" =
  {| base_id := "1.21.11"; variant_kind := ""; shape := Release [1; 21; 11] |}.
Proof. apply (release_roundtrip [1; 21; 11]); [done|]. repeat constructor; by vm_compute. Defined.
