(* ===== verification/McVersionMeta.v ===== *)
(** * Version metadata and ordering ([core/minecraft/src/version_meta/mod.rs])

    What the launcher derives from a version identifier: its lifecycle
    ([core/minecraft/src/lifecycle.rs]), its family, the release a snapshot
    leads to and the texts shown for it; and the orders in which versions are
    listed.  The loader attachment of a [VersionEntry] is not looked at by
    this code and is a type parameter. *)

From S2P Require Import Prelude RustStr McVersionId.

(** ** Lifecycle *)

Inductive LifecycleChannel := Stable | Preview | Experimental | Legacy | UnknownChannel.

Inductive LifecycleLabel :=
| LabelRelease | LabelRecommended | LabelLatest | LabelSnapshot | LabelPreRelease
| LabelReleaseCandidate | LabelBeta | LabelAlpha | LabelOldBeta | LabelOldAlpha
| LabelNightly | LabelDev | LabelUnknown.

#[global] Instance LifecycleLabel_eq_dec : EqDecision LifecycleLabel.
Proof. solve_decision. Defined.

Record LifecycleMeta := {
  lc_channel : LifecycleChannel;
  lc_labels : list LifecycleLabel;
  lc_default_rank : Z;
  lc_badge_text : string;
  lc_provider_terms : list string;
}.

Definition lifecycle_new (channel : LifecycleChannel) (labels : list LifecycleLabel)
    (default_rank : Z) (badge_text : string) (provider_terms : list string) : LifecycleMeta :=
  {| lc_channel := channel; lc_labels := labels; lc_default_rank := default_rank;
     lc_badge_text := badge_text; lc_provider_terms := provider_terms |}.

Definition has_label (self : LifecycleMeta) (label : LifecycleLabel) : bool :=
  bool_decide (label ∈ lc_labels self).

(** ** Data *)

Record ReleaseReference := { rel_id : string; rel_release_time : string }.

Record MinecraftVersionMeta := {
  meta_family : string;
  meta_base_id : string;
  meta_effective_version : string;
  meta_variant_of : string;
  meta_variant_kind : string;
  meta_display_name : string;
  meta_display_hint : string;
}.

Record AnalyzedMinecraftVersion := {
  analyzed_lifecycle : LifecycleMeta;
  analyzed_meta : MinecraftVersionMeta;
}.

Record ManifestEntry := {
  me_id : string;
  me_kind : string;
  me_url : string;
  me_time : string;
  me_release_time : string;
  me_sha1 : string;
  me_compliance_level : Z;
}.

Inductive VersionSubjectKind := InstalledVersion | MinecraftVersion.

Record LoaderGameVersion := {
  lg_subject_kind : VersionSubjectKind;
  lg_id : string;
  lg_release_time : string;
  lg_minecraft_meta : MinecraftVersionMeta;
  lg_lifecycle : LifecycleMeta;
  lg_stable_hint : option bool;
}.

Record VersionEntry {LoaderAttachment : Type} := {
  ve_subject_kind : VersionSubjectKind;
  ve_id : string;
  ve_raw_kind : string;
  ve_release_time : string;
  ve_minecraft_meta : MinecraftVersionMeta;
  ve_lifecycle : LifecycleMeta;
  ve_inherits_from : string;
  ve_launchable : bool;
  ve_installed : bool;
  ve_status : string;
  ve_status_detail : string;
  ve_needs_install : string;
  ve_java_component : string;
  ve_java_major : Z;
  ve_loader : option LoaderAttachment;
}.
Arguments VersionEntry : clear implicits.

(** ** Comparing *)

Definition normalize_numeric_label (label : string) : string :=
  smap (λ c, if existsb (Ascii.eqb c) ["O"; "o"]%char then "0"%char else c)
    (smap (λ c, if existsb (Ascii.eqb c) ["I"; "i"; "l"; "L"]%char then "1"%char else c) label).

Definition compare_token (left right : VersionToken) : comparison :=
  match tok_kind left, tok_kind right with
  | Number, Number =>
      Z.compare (default 0 (parse_u32 (tok_normalized left)))
        (default 0 (parse_u32 (tok_normalized right)))
  | Word, Word => str_cmp (tok_normalized left) (tok_normalized right)
  | Number, Word => Gt
  | Word, Number => Lt
  | _, _ => Eq
  end.

(** The loop over the positions of two lists: at the end of one, the shorter
    list is less. *)
Fixpoint compare_lists {A} (f : A → A → comparison) (left right : list A) : comparison :=
  match left, right with
  | [], [] => Eq
  | [], _ :: _ => Lt
  | _ :: _, [] => Gt
  | x :: xs, y :: ys => then_with (f x y) (compare_lists f xs ys)
  end.

Definition label_tokens (value : string) : list VersionToken :=
  List.filter (λ token, negb (is_any_separator token)) (tokenize_version_id value).

Definition compare_tokenized_like (left right : string) : comparison :=
  compare_lists compare_token (label_tokens left) (label_tokens right).

(** The loop pads the shorter series with zeros. *)
Fixpoint compare_zeros (right : list Z) : comparison :=
  match right with [] => Eq | y :: ys => then_with (Z.compare 0 y) (compare_zeros ys) end.

Fixpoint compare_numeric_series (left right : list Z) : comparison :=
  match left, right with
  | [], [] => Eq
  | [], y :: ys => then_with (Z.compare 0 y) (compare_zeros ys)
  | x :: xs, [] => then_with (Z.compare x 0) (compare_numeric_series xs [])
  | x :: xs, y :: ys => then_with (Z.compare x y) (compare_numeric_series xs ys)
  end.

Definition compare_label_like (left right : string) : comparison :=
  compare_tokenized_like (normalize_numeric_label left) (normalize_numeric_label right).

Definition parse_release_components (value : string) : option (list Z) :=
  collect_option (λ part, if is_empty part then None else parse_u32 part) (split_on "." value).

(** [&raw[1..]]. *)
Definition skip_byte (raw : string) : string := match raw with String _ s => s | "" => "" end.

Definition release_anchor (parsed : ParsedVersionId) : option (list Z) :=
  match shape parsed with
  | Release components => Some components
  | PreRelease release _ | ReleaseCandidate release _ | ReleaseSnapshot release _
  | CombatTest release _ | ExperimentalSnapshot release _
  | DeepDarkExperimentalSnapshot release _ => parse_release_components release
  | OldBeta raw | OldAlpha raw => parse_release_components (skip_byte raw)
  | _ => None
  end.

Definition stage_rank (shape : VersionShape) : Z :=
  match shape with
  | OldAlpha _ => 0
  | OldBeta _ => 1
  | WeeklySnapshot _ _ _ _ => 2
  | CombatTest _ _ => 3
  | DeepDarkExperimentalSnapshot _ _ => 4
  | ExperimentalSnapshot _ _ => 5
  | PreRelease _ _ => 6
  | ReleaseCandidate _ _ => 7
  | Release _ => 8
  | ReleaseSnapshot _ _ => 9
  | UnknownShape => 10
  end.

Definition compare_weekly_snapshots (left right : ParsedVersionId) : comparison :=
  match shape left, shape right with
  | WeeklySnapshot left_year left_week left_channel _,
    WeeklySnapshot right_year right_week right_channel _ =>
      then_with (Z.compare left_year right_year)
        (then_with (Z.compare left_week right_week)
          (compare_label_like left_channel right_channel))
  | _, _ => Eq
  end.

Definition compare_release_anchored_shapes (left right : ParsedVersionId) : comparison :=
  match release_anchor left, release_anchor right with
  | Some left_anchor, Some right_anchor =>
      then_with (compare_numeric_series left_anchor right_anchor)
        (then_with (Z.compare (stage_rank (shape left)) (stage_rank (shape right)))
          (compare_label_like (stage_label (shape left)) (stage_label (shape right))))
  | _, _ => Eq
  end.

Definition compare_special_shapes (left right : ParsedVersionId) : comparison :=
  then_with (compare_weekly_snapshots left right)
    (then_with (compare_release_anchored_shapes left right)
      (str_cmp (variant_kind left) (variant_kind right))).

Definition compare_version_like (left right : string) : comparison :=
  then_with (compare_special_shapes (parse_version_id left) (parse_version_id right))
    (then_with (compare_tokenized_like left right) (str_cmp left right)).

(** ** Classifying *)

Definition classify_lifecycle (parsed : ParsedVersionId) (raw_kind : string)
    (stable_hint : option bool) : LifecycleMeta :=
  match shape parsed with
  | OldBeta _ => lifecycle_new Legacy [LabelOldBeta] 200 "BETA" ["old_beta"]
  | OldAlpha _ => lifecycle_new Legacy [LabelOldAlpha] 100 "ALPH" ["old_alpha"]
  | ReleaseSnapshot _ _ => lifecycle_new Preview [LabelSnapshot] 400 "SNAP" ["snapshot"]
  | PreRelease _ _ => lifecycle_new Preview [LabelPreRelease] 430 "PRE" ["pre_release"]
  | ReleaseCandidate _ _ =>
      lifecycle_new Preview [LabelReleaseCandidate] 440 "RC" ["release_candidate"]
  | CombatTest _ _ | ExperimentalSnapshot _ _ | DeepDarkExperimentalSnapshot _ _ =>
      lifecycle_new Experimental [LabelSnapshot] 320 "EXP" ["experimental"]
  | WeeklySnapshot _ _ _ _ => lifecycle_new Preview [LabelSnapshot] 400 "SNAP" ["snapshot"]
  | Release _ =>
      if bool_decide (stable_hint = Some false)
      then lifecycle_new Preview [LabelBeta] 450 "BETA" ["loader_beta"]
      else lifecycle_new Stable [LabelRelease] 500 "REL" ["release"]
  | UnknownShape =>
      if str_eqb raw_kind "old_beta" then
        lifecycle_new Legacy [LabelOldBeta] 200 "BETA" [raw_kind]
      else if str_eqb raw_kind "old_alpha" then
        lifecycle_new Legacy [LabelOldAlpha] 100 "ALPH" [raw_kind]
      else if str_eqb raw_kind "snapshot" then
        lifecycle_new Preview [LabelSnapshot] 400 "SNAP" [raw_kind]
      else if bool_decide (stable_hint = Some false) then
        lifecycle_new Preview [LabelBeta] 450 "BETA" ["loader_beta"]
      else if str_eqb raw_kind "release" then
        lifecycle_new Stable [LabelRelease] 500 "REL" [raw_kind]
      else
        match stable_hint with
        | Some stable =>
            if stable : bool then lifecycle_new Stable [LabelRelease] 500 "REL" []
            else lifecycle_new Preview [LabelUnknown] 250 "PRE" []
        | None =>
            lifecycle_new UnknownChannel [LabelUnknown] 0 "?"
              (if is_empty (trim raw_kind) then [] else [raw_kind])
        end
  end.

Definition classify_version_family (parsed : ParsedVersionId) (raw_kind : string)
    (stable_hint : option bool) : string :=
  match shape parsed with
  | OldBeta _ => "old_beta"
  | OldAlpha _ => "old_alpha"
  | ReleaseCandidate _ _ => "release_candidate"
  | PreRelease _ _ => "pre_release"
  | ReleaseSnapshot _ _ => "release_snapshot"
  | CombatTest _ _ => "combat_test"
  | DeepDarkExperimentalSnapshot _ _ => "deep_dark_experimental_snapshot"
  | ExperimentalSnapshot _ _ => "experimental_snapshot"
  | WeeklySnapshot _ _ _ is_potato =>
      if is_potato : bool then "potato_snapshot" else "weekly_snapshot"
  | Release _ => "release"
  | UnknownShape =>
      if str_eqb raw_kind "old_beta" then "old_beta"
      else if str_eqb raw_kind "old_alpha" then "old_alpha"
      else if str_eqb raw_kind "snapshot" || bool_decide (stable_hint = Some false)
      then "snapshot"
      else "release"
  end.

Definition uses_estimated_target_release (family : string) : bool :=
  existsb (str_eqb family) ["weekly_snapshot"; "potato_snapshot"; "release_snapshot"; "snapshot"].

Definition next_release_after (release : string) (releases : list ReleaseReference) :
    option string :=
  rel_id <$>
    min_by (cmp_on rel_id compare_version_like)
      (List.filter (λ entry, is_gt (compare_version_like (rel_id entry) release)) releases).

Definition estimated_release_by_timeline (release_time : string)
    (releases : list ReleaseReference) : option ReleaseReference :=
  or_else
    (min_by (cmp_on rel_release_time str_cmp)
       (List.filter (λ entry, negb (is_lt (str_cmp (rel_release_time entry) release_time))) releases))
    (max_by (cmp_on rel_release_time str_cmp)
       (List.filter (λ entry, negb (is_gt (str_cmp (rel_release_time entry) release_time))) releases)).

Definition snapshot_technical_release (parsed : ParsedVersionId) : option string :=
  match shape parsed with ReleaseSnapshot release _ => Some release | _ => None end.

Definition snapshot_effective_version_for (parsed : ParsedVersionId) (release_time : string)
    (releases : list ReleaseReference) : string :=
  match snapshot_technical_release parsed with
  | Some release => default release (next_release_after release releases)
  | None =>
      if is_empty (trim release_time) || bool_decide (length releases = 0%nat) then ""
      else
        match estimated_release_by_timeline release_time releases with
        | None => ""
        | Some target =>
            if negb (is_gt (str_cmp (rel_release_time target) release_time))
            then default (rel_id target) (next_release_after (rel_id target) releases)
            else rel_id target
        end
  end.

Definition effective_version_for (parsed : ParsedVersionId) (family release_time : string)
    (releases : list ReleaseReference) : string :=
  if uses_estimated_target_release family then
    snapshot_effective_version_for parsed release_time releases
  else
    match base_release (shape parsed) with
    | Some base => base
    | None =>
        if existsb (str_eqb family) ["release"; "old_beta"; "old_alpha"] then base_id parsed else ""
    end.

Definition display_name_for (parsed : ParsedVersionId) : string :=
  match shape parsed with
  | OldBeta raw => "Beta " +:+ skip_byte raw
  | OldAlpha raw => "Alpha " +:+ skip_byte raw
  | PreRelease release _ => release
  | ReleaseCandidate release _ => release
  | ReleaseSnapshot release label => release +:+ " Snapshot " +:+ normalize_numeric_label label
  | CombatTest release label => release +:+ " Combat Test " +:+ normalize_numeric_label label
  | DeepDarkExperimentalSnapshot release label =>
      if is_empty label then release +:+ " Deep Dark Experimental Snapshot"
      else release +:+ " Deep Dark Experimental Snapshot " +:+ normalize_numeric_label label
  | ExperimentalSnapshot release label =>
      release +:+ " Experimental Snapshot " +:+ normalize_numeric_label label
  | _ => base_id parsed
  end.

(** [split] at any of several ASCII characters. *)
Fixpoint split_on_any (seps : list ascii) (s : string) : list string :=
  match s with
  | "" => [""]
  | String c s =>
      if existsb (Ascii.eqb c) seps then "" :: split_on_any seps s
      else match split_on_any seps s with
           | p :: ps => String c p :: ps
           | [] => [String c ""]
           end
  end.

Definition title_case (value : string) : string :=
  str_join " "
    ((λ part,
       match chars part with
       | first :: rest => to_ascii_uppercase first +:+ to_ascii_lowercase (str_concat rest)
       | [] => ""
       end) <$>
     List.filter (λ part, negb (is_empty part)) (split_on_any ["-"; "_"; " "]%char value)).

Definition variant_display_label (variant_kind : string) : string :=
  if str_eqb variant_kind "unobfuscated" then "Unobfuscated"
  else if str_eqb variant_kind "original" then "Original"
  else title_case variant_kind.

Definition display_hint_for (parsed : ParsedVersionId) (family effective_version : string) :
    string :=
  str_join ", "
    ((if uses_estimated_target_release family && negb (is_empty effective_version) &&
         negb (str_eqb effective_version (base_id parsed))
      then ["~ " +:+ effective_version] else []) ++
     match shape parsed with
     | PreRelease _ label => ["Pre-release " +:+ normalize_numeric_label label]
     | ReleaseCandidate _ label => ["RC " +:+ normalize_numeric_label label]
     | _ => []
     end ++
     (if negb (is_empty (variant_kind parsed)) then [variant_display_label (variant_kind parsed)]
      else [])).

Definition analyze_minecraft_version (id raw_kind release_time : string)
    (stable_hint : option bool) (releases : list ReleaseReference) : AnalyzedMinecraftVersion :=
  let parsed := parse_version_id id in
  let family := classify_version_family parsed raw_kind stable_hint in
  let effective_version := effective_version_for parsed family release_time releases in
  {| analyzed_lifecycle := classify_lifecycle parsed raw_kind stable_hint;
     analyzed_meta := {|
       meta_family := family;
       meta_base_id := base_id parsed;
       meta_effective_version := effective_version;
       meta_variant_of := if is_empty (variant_kind parsed) then "" else base_id parsed;
       meta_variant_kind := variant_kind parsed;
       meta_display_name := display_name_for parsed;
       meta_display_hint := display_hint_for parsed family effective_version |} |}.

Definition manifest_release_entries (entries : list ManifestEntry) : list ReleaseReference :=
  sort_by (cmp_on rel_release_time str_cmp)
    ((λ entry, {| rel_id := me_id entry; rel_release_time := me_release_time entry |}) <$>
     List.filter (λ entry, str_eqb (me_kind entry) "release") entries).

(** The body of the loop of [enrich_loader_game_versions]. *)
Definition enrich_loader_game_version (manifest_entries : list ManifestEntry)
    (releases : list ReleaseReference) (version : LoaderGameVersion) : LoaderGameVersion :=
  let manifest_entry := List.find (λ entry, str_eqb (me_id entry) (lg_id version)) manifest_entries in
  let metadata :=
    analyze_minecraft_version (lg_id version)
      (match manifest_entry with Some entry => me_kind entry | None => "" end)
      (match manifest_entry with Some entry => me_release_time entry | None => lg_release_time version end)
      (lg_stable_hint version) releases in
  {| lg_subject_kind := lg_subject_kind version;
     lg_id := lg_id version;
     lg_release_time :=
       match manifest_entry with Some entry => me_release_time entry | None => lg_release_time version end;
     lg_minecraft_meta := analyzed_meta metadata;
     lg_lifecycle := analyzed_lifecycle metadata;
     lg_stable_hint := lg_stable_hint version |}.

Definition enrich_loader_game_versions (versions : list LoaderGameVersion)
    (manifest_entries : list ManifestEntry) (releases : list ReleaseReference) :
    list LoaderGameVersion :=
  enrich_loader_game_version manifest_entries releases <$> versions.

Definition version_entry_analysis_id {L} (entry : VersionEntry L) : string :=
  if is_empty (trim (ve_inherits_from entry)) then ve_id entry else ve_inherits_from entry.

(** The body of the loop of [enrich_version_entries]. *)
Definition enrich_version_entry {L} (releases : list ReleaseReference) (entry : VersionEntry L) :
    VersionEntry L :=
  let analysis_id := version_entry_analysis_id entry in
  let release_reference := List.find (λ release, str_eqb (rel_id release) analysis_id) releases in
  let unnamed := is_empty (trim (ve_raw_kind entry)) in
  let raw_kind :=
    match release_reference with
    | Some _ => if unnamed then "release" else ve_raw_kind entry
    | None => ve_raw_kind entry
    end in
  let release_time :=
    match release_reference with
    | Some release => rel_release_time release
    | None => ve_release_time entry
    end in
  let analysis := analyze_minecraft_version analysis_id raw_kind release_time None releases in
  {| ve_subject_kind := ve_subject_kind entry;
     ve_id := ve_id entry;
     ve_raw_kind := raw_kind;
     ve_release_time :=
       match release_reference with
       | Some release =>
           if is_empty (trim (ve_release_time entry)) then rel_release_time release
           else ve_release_time entry
       | None => ve_release_time entry
       end;
     ve_minecraft_meta := analyzed_meta analysis;
     ve_lifecycle := analyzed_lifecycle analysis;
     ve_inherits_from := ve_inherits_from entry;
     ve_launchable := ve_launchable entry;
     ve_installed := ve_installed entry;
     ve_status := ve_status entry;
     ve_status_detail := ve_status_detail entry;
     ve_needs_install := ve_needs_install entry;
     ve_java_component := ve_java_component entry;
     ve_java_major := ve_java_major entry;
     ve_loader := ve_loader entry |}.

Definition enrich_version_entries {L} (entries : list (VersionEntry L))
    (releases : list ReleaseReference) : list (VersionEntry L) :=
  enrich_version_entry releases <$> entries.

(** ** Listing *)

Definition version_lifecycle_priority (lifecycle : LifecycleMeta) (meta : MinecraftVersionMeta) : Z :=
  match lc_channel lifecycle with
  | Stable => 0
  | Preview =>
      if has_label lifecycle LabelReleaseCandidate then 1
      else if has_label lifecycle LabelPreRelease then 2
      else 3
  | Experimental => 4
  | Legacy => if str_eqb (meta_family meta) "old_beta" then 5 else 6
  | UnknownChannel => 7
  end.

Definition known_families : list string :=
  ["release"; "release_candidate"; "pre_release"; "weekly_snapshot"; "release_snapshot";
   "potato_snapshot"; "experimental_snapshot"; "deep_dark_experimental_snapshot"; "combat_test";
   "snapshot"; "old_beta"; "old_alpha"].

Definition family_priority (family : string) : Z :=
  match position (str_eqb family) known_families with
  | Some index => Z.of_nat index
  | None => 12
  end.

Definition variant_priority (variant_kind : string) : Z :=
  if is_empty variant_kind then 0
  else if str_eqb variant_kind "original" then 1
  else if str_eqb variant_kind "unobfuscated" then 2
  else 3.

Definition effective_version_or_base (meta : MinecraftVersionMeta) : string :=
  if negb (is_empty (meta_effective_version meta)) then meta_effective_version meta
  else if negb (is_empty (meta_base_id meta)) then meta_base_id meta
  else "".

Definition compare_release_time_desc (left right : string) : comparison :=
  match is_empty left, is_empty right with
  | false, false => if negb (str_eqb left right) then str_cmp right left else Eq
  | false, true => Lt
  | true, false => Gt
  | true, true => Eq
  end.

Definition compare_version_meta_desc (left right : MinecraftVersionMeta) : comparison :=
  then_with (compare_version_like (effective_version_or_base right) (effective_version_or_base left))
    (then_with (Z.compare (family_priority (meta_family left)) (family_priority (meta_family right)))
      (then_with (compare_version_like (meta_base_id right) (meta_base_id left))
        (Z.compare (variant_priority (meta_variant_kind left))
           (variant_priority (meta_variant_kind right))))).

Definition compare_version_entries {L} (left right : VersionEntry L) : comparison :=
  then_with
    (Z.compare (version_lifecycle_priority (ve_lifecycle left) (ve_minecraft_meta left))
       (version_lifecycle_priority (ve_lifecycle right) (ve_minecraft_meta right)))
    (then_with (compare_release_time_desc (ve_release_time left) (ve_release_time right))
      (then_with (compare_version_meta_desc (ve_minecraft_meta left) (ve_minecraft_meta right))
        (compare_version_like (ve_id right) (ve_id left)))).

(** ** The order of identifiers *)

Section compare_lists.
Context {A : Type} (f : A → A → comparison) `{!CmpPreorder f}.

#[global] Instance compare_lists_preorder : CmpPreorder (compare_lists f).
Proof.
  split.
  - intros xs. induction xs as [|x xs IH]; intros [|y ys]; simpl; try done.
    rewrite (cmp_antisym f x y), IH. by destruct (f x y).
  - intros xs. induction xs as [|x xs IH]; intros [|y ys] [|z zs]; simpl; try done.
    intros Hxy Hyz. destruct (f x y) eqn:E1; simpl in *; [| |done].
    + rewrite (cmp_eq_l f x y z E1). destruct (f y z); simpl in *; [by apply (IH ys)|done|done].
    + rewrite (cmp_lt_trans f x y z E1); [done|]. by destruct (f y z).
Qed.
End compare_lists.

Lemma compare_lists_ext {A} (f g : A → A → comparison) xs ys :
  (∀ x y, x ∈ xs → y ∈ ys → f x y = g x y) → compare_lists f xs ys = compare_lists g xs ys.
Proof.
  revert ys. induction xs as [|x xs IH]; intros [|y ys] H; simpl; try done.
  rewrite H by left. f_equal. apply IH. intros a b Ha Hb. apply H; by right.
Qed.

(** Tokens compare by kind, number and word. *)
Definition token_rank (token : VersionToken) : Z :=
  match tok_kind token with Number => 1 | _ => 0 end.
Definition token_number (token : VersionToken) : Z :=
  match tok_kind token with Number => default 0 (parse_u32 (tok_normalized token)) | _ => 0 end.
Definition token_word (token : VersionToken) : string :=
  match tok_kind token with Word => tok_normalized token | _ => "" end.

Definition token_cmp : VersionToken → VersionToken → comparison :=
  cmp_then (cmp_on token_rank Z.compare)
    (cmp_then (cmp_on token_number Z.compare) (cmp_on token_word str_cmp)).

Lemma compare_token_cmp x y :
  is_any_separator x = false → is_any_separator y = false → compare_token x y = token_cmp x y.
Proof.
  unfold is_any_separator, compare_token, token_cmp, cmp_then, cmp_on, token_rank, token_number,
    token_word. intros Hx Hy.
  destruct (tok_kind x), (tok_kind y); try done; simpl.
  by destruct (Z.compare _ _).
Qed.

Lemma compare_tokenized_cmp l r :
  compare_tokenized_like l r = cmp_on label_tokens (compare_lists token_cmp) l r.
Proof.
  apply compare_lists_ext. intros x y Hx Hy. unfold label_tokens in *.
  apply list_elem_of_In, filter_In in Hx as [_ Hx%negb_true_iff].
  apply list_elem_of_In, filter_In in Hy as [_ Hy%negb_true_iff].
  by apply compare_token_cmp.
Qed.

#[global] Instance token_cmp_preorder : CmpPreorder token_cmp.
Proof. unfold token_cmp. apply _. Qed.

#[global] Instance compare_tokenized_preorder : CmpPreorder compare_tokenized_like.
Proof. apply (cmp_preorder_ext _ _ compare_tokenized_cmp). apply _. Qed.

#[global] Instance compare_label_preorder : CmpPreorder compare_label_like.
Proof.
  apply (cmp_preorder_ext _ (cmp_on normalize_numeric_label compare_tokenized_like)); [done|].
  apply _.
Qed.

(** A series, padded with zeros to a length. *)
Fixpoint pad (n : nat) (l : list Z) : list Z :=
  match n with O => [] | S n => hd 0 l :: pad n (tl l) end.

Lemma compare_zeros_pad n ys :
  (length ys ≤ n)%nat → compare_zeros ys = compare_lists Z.compare (pad n []) (pad n ys).
Proof.
  revert ys. induction n as [|n IH]; intros [|y ys] Hl; simpl in *; try done; try lia.
  - rewrite <-(IH []) by (simpl; lia). done.
  - by rewrite IH by lia.
Qed.

Lemma compare_series_pad n xs ys :
  (length xs ≤ n)%nat → (length ys ≤ n)%nat →
  compare_numeric_series xs ys = compare_lists Z.compare (pad n xs) (pad n ys).
Proof.
  revert xs ys. induction n as [|n IH]; intros [|x xs] [|y ys] Hx Hy; simpl in *; try done; try lia.
  - by rewrite (cmp_refl (compare_lists Z.compare)).
  - by rewrite (compare_zeros_pad n) by lia.
  - by rewrite (IH xs []) by (simpl; lia).
  - by rewrite IH by lia.
Qed.

#[global] Instance compare_series_preorder : CmpPreorder compare_numeric_series.
Proof.
  split.
  - intros xs ys. rewrite !(compare_series_pad (length xs + length ys)) by lia.
    apply (cmp_antisym (compare_lists Z.compare)).
  - intros xs ys zs. rewrite !(compare_series_pad (length xs + length ys + length zs)) by lia.
    apply (cmp_trans (compare_lists Z.compare)).
Qed.

(** What the comparison reads of an identifier; the fields of another class
    of identifiers are constant. *)
Definition weekly_key (id : string) : Z * Z * string :=
  match shape (parse_version_id id) with
  | WeeklySnapshot year week channel _ => (year, week, channel)
  | _ => (0, 0, "")
  end.

Definition anchor_key (id : string) : list Z * Z * string :=
  let parsed := parse_version_id id in
  match release_anchor parsed with
  | Some anchor => (anchor, stage_rank (shape parsed), stage_label (shape parsed))
  | None => ([], 0, "")
  end.

Inductive IdClass := Weekly | Anchored | Plain.

Definition id_class (id : string) : IdClass :=
  let parsed := parse_version_id id in
  match shape parsed with
  | WeeklySnapshot _ _ _ _ => Weekly
  | _ => match release_anchor parsed with Some _ => Anchored | None => Plain end
  end.

Definition class_cmp : string → string → comparison :=
  cmp_then (cmp_on (fst ∘ fst ∘ weekly_key) Z.compare)
  (cmp_then (cmp_on (snd ∘ fst ∘ weekly_key) Z.compare)
  (cmp_then (cmp_on (snd ∘ weekly_key) compare_label_like)
  (cmp_then (cmp_on (fst ∘ fst ∘ anchor_key) compare_numeric_series)
  (cmp_then (cmp_on (snd ∘ fst ∘ anchor_key) Z.compare)
  (cmp_then (cmp_on (snd ∘ anchor_key) compare_label_like)
  (cmp_then (cmp_on (variant_kind ∘ parse_version_id) str_cmp)
  (cmp_then compare_tokenized_like str_cmp))))))).

#[global] Instance class_cmp_preorder : CmpPreorder class_cmp.
Proof. unfold class_cmp. apply _. Qed.

Lemma then_with_assoc a b c : then_with (then_with a b) c = then_with a (then_with b c).
Proof. by destruct a. Qed.

Lemma weekly_not_anchored parsed year week channel potato :
  shape parsed = WeeklySnapshot year week channel potato → release_anchor parsed = None.
Proof. unfold release_anchor. by intros ->. Qed.

Lemma label_refl s : compare_label_like s s = Eq.
Proof. apply (cmp_refl compare_label_like). Qed.

Lemma compare_version_class l r :
  id_class l = id_class r → compare_version_like l r = class_cmp l r.
Proof.
  unfold id_class, compare_version_like, compare_special_shapes, class_cmp, cmp_then, cmp_on.
  unfold weekly_key, anchor_key. cbn [compose]. rewrite !then_with_assoc.
  set (pl := parse_version_id l). set (pr := parse_version_id r). intros Hc.
  assert (compare_weekly_snapshots pl pr =
    then_with (Z.compare (match shape pl with WeeklySnapshot y w c _ => (y, w, c) | _ => (0, 0, "") end).1.1
                 (match shape pr with WeeklySnapshot y w c _ => (y, w, c) | _ => (0, 0, "") end).1.1)
      (then_with (Z.compare (match shape pl with WeeklySnapshot y w c _ => (y, w, c) | _ => (0, 0, "") end).1.2
                 (match shape pr with WeeklySnapshot y w c _ => (y, w, c) | _ => (0, 0, "") end).1.2)
        (compare_label_like (match shape pl with WeeklySnapshot y w c _ => (y, w, c) | _ => (0, 0, "") end).2
           (match shape pr with WeeklySnapshot y w c _ => (y, w, c) | _ => (0, 0, "") end).2))) as ->.
  { unfold compare_weekly_snapshots.
    destruct (shape pl) eqn:El, (shape pr) eqn:Er; try done; exfalso;
      first [by destruct (release_anchor pr)|by destruct (release_anchor pl)]. }
  assert (match release_anchor pl, release_anchor pr with
          | Some _, None | None, Some _ => False | _, _ => True end) as Hanc.
  { destruct (shape pl) eqn:El, (shape pr) eqn:Er;
      try (rewrite (weekly_not_anchored pl _ _ _ _ El), (weekly_not_anchored pr _ _ _ _ Er); done);
      try (by destruct (release_anchor pl), (release_anchor pr)). }
  rewrite !then_with_assoc. do 3 f_equal. unfold compare_release_anchored_shapes.
  destruct (release_anchor pl), (release_anchor pr); try done; simpl; by rewrite ?then_with_assoc.
Qed.

(** A cycle of three identifiers, each less than the next. *)
Example compare_version_cycle_example :
  (compare_version_like "1.20" "1.20-foo", compare_version_like "1.20-foo" "1.20-pre1",
   compare_version_like "1.20-pre1" "1.20") = (Lt, Lt, Lt).
Proof. vm_compute. reflexivity. Qed.

Lemma weekly_opp l r : compare_weekly_snapshots r l = CompOpp (compare_weekly_snapshots l r).
Proof.
  unfold compare_weekly_snapshots. destruct (shape l), (shape r); try done.
  rewrite (cmp_antisym Z.compare year), (cmp_antisym Z.compare week),
    (cmp_antisym compare_label_like channel).
  by destruct (Z.compare year _), (Z.compare week _).
Qed.

Lemma anchored_opp l r :
  compare_release_anchored_shapes r l = CompOpp (compare_release_anchored_shapes l r).
Proof.
  unfold compare_release_anchored_shapes. destruct (release_anchor l) as [a|], (release_anchor r) as [b|];
    try done.
  rewrite (cmp_antisym compare_numeric_series a), (cmp_antisym Z.compare (stage_rank (shape l))),
    (cmp_antisym compare_label_like (stage_label (shape l))).
  by destruct (compare_numeric_series a b), (Z.compare _ _).
Qed.

Lemma then_with_opp a b : CompOpp (then_with a b) = then_with (CompOpp a) (CompOpp b).
Proof. by destruct a. Qed.

Lemma then_with_eq a b : then_with a b = Eq → a = Eq ∧ b = Eq.
Proof. by destruct a. Qed.

(** [compare_version_like] is antisymmetric on all identifiers, of
    whatever shapes, and calls two of them equal only if they are the same
    text: no two versions of a listing are ever tied. *)
Theorem compare_version_antisymmetric l r :
  compare_version_like r l = CompOpp (compare_version_like l r) ∧
  (compare_version_like l r = Eq ↔ l = r).
Proof.
  assert (∀ a b, compare_version_like b a = CompOpp (compare_version_like a b)) as Hopp.
  { intros a b. unfold compare_version_like, compare_special_shapes.
    rewrite !then_with_opp, weekly_opp, anchored_opp, (cmp_antisym str_cmp (variant_kind _)).
    by rewrite (cmp_antisym compare_tokenized_like a), (cmp_antisym str_cmp a). }
  split; [apply Hopp|]. split.
  - unfold compare_version_like. intros [_ [_ H]%then_with_eq]%then_with_eq. by apply (cmp_eq str_cmp).
  - intros ->. specialize (Hopp r r). by destruct (compare_version_like r r).
Qed.

(** Among the identifiers of one class (weekly snapshots, identifiers
    anchored to a release, the others) the comparison is transitive, so that
    sorting and minima over such a listing are well defined. *)
Theorem compare_version_transitive_in_class c x y z :
  id_class x = c → id_class y = c → id_class z = c →
  compare_version_like x y ≠ Gt → compare_version_like y z ≠ Gt → compare_version_like x z ≠ Gt.
Proof.
  intros Hx Hy Hz. rewrite !compare_version_class by congruence. apply (cmp_trans class_cmp).
Qed.

Lemma compare_version_transitive_in_class_witness :
  compare_version_like "1.20-pre1" "1.20.1" ≠ Gt.
Proof.
  apply (compare_version_transitive_in_class Anchored "1.20-pre1" "1.20" "1.20.1");
    vm_compute; done.
Defined.

(** Across the classes it is not: [1.20] is less than [1.20-foo], which
    is less than [1.20-pre1], which is less than [1.20].  The comparison
    handed to [sort_by] is not a total order. *)
Theorem compare_version_has_cycle :
  ∃ x y z, compare_version_like x y = Lt ∧ compare_version_like y z = Lt ∧
    compare_version_like z x = Lt.
Proof. exists "1.20", "1.20-foo", "1.20-pre1". repeat split; vm_compute; reflexivity. Qed.

(** ** The release a snapshot leads to *)

(** Over releases anchored to the numbered series, [next_release_after]
    is the least release above the given one; it is absent exactly when no
    release is above. *)
Theorem next_release_after_least release releases :
  Forall (λ entry, id_class (rel_id entry) = Anchored) releases →
  match next_release_after release releases with
  | Some next =>
      next ∈ rel_id <$> releases ∧ compare_version_like next release = Gt ∧
      ∀ entry, entry ∈ releases → compare_version_like (rel_id entry) release = Gt →
        compare_version_like next (rel_id entry) ≠ Gt
  | None => ∀ entry, entry ∈ releases → compare_version_like (rel_id entry) release ≠ Gt
  end.
Proof.
  intros Hf. assert (∀ e, e ∈ releases → id_class (rel_id e) = Anchored) as Hcl.
  { intros e He. apply list_elem_of_In in He. by apply (proj1 (List.Forall_forall _ _) Hf). }
  unfold next_release_after.
  set (later := List.filter _ releases).
  assert (∀ e, e ∈ later ↔ e ∈ releases ∧ compare_version_like (rel_id e) release = Gt) as Hlater.
  { intros e. unfold later. rewrite !list_elem_of_In, filter_In. unfold is_gt.
    destruct (compare_version_like (rel_id e) release); naive_solver. }
  rewrite (min_by_ext _ (cmp_on rel_id class_cmp)).
  2:{ intros x y [Hx _]%Hlater [Hy _]%Hlater. apply compare_version_class.
      by rewrite (Hcl x), (Hcl y). }
  destruct (min_by _ later) as [m|] eqn:Hm; simpl.
  - apply min_by_spec in Hm as [Hin Hle]; [|apply _]. apply Hlater in Hin as [Hin Hgt].
    split; [by apply list_elem_of_fmap_2|]. split; [done|]. intros e He Heg.
    rewrite compare_version_class by (by rewrite (Hcl e), (Hcl m)).
    apply (Hle e). by apply Hlater.
  - intros e He Hgt. assert (e ∈ later) as Hl by (by apply Hlater).
    unfold min_by in Hm. destruct later; [by apply not_elem_of_nil in Hl|done].
Qed.

Lemma next_release_after_least_witness :
  let releases := (λ id, {| rel_id := id; rel_release_time := "" |}) <$> ["1.20.2"; "1.19.4"; "1.20.1"; "1.21"] in
  next_release_after "1.20" releases = Some "1.20.1" ∧
  ∀ entry, entry ∈ releases → compare_version_like (rel_id entry) "1.20" = Gt →
    compare_version_like "1.20.1" (rel_id entry) ≠ Gt.
Proof.
  intros releases. assert (next_release_after "1.20" releases = Some "1.20.1") as E
    by (vm_compute; reflexivity).
  split; [exact E|].
  assert (Forall (λ entry, id_class (rel_id entry) = Anchored) releases) as H
    by (repeat constructor).
  pose proof (next_release_after_least "1.20" releases H) as T. rewrite E in T. apply T.
Defined.

(** ** Enriching a listing *)

Lemma trim_empty : trim "" = "".
Proof. reflexivity. Qed.

(** Enriching the listing a second time with the same releases changes
    nothing: the fields the first pass fills in lead to the same analysis. *)
Theorem enrich_version_entries_idempotent {L} (entries : list (VersionEntry L)) releases :
  enrich_version_entries (enrich_version_entries entries releases) releases =
  enrich_version_entries entries releases.
Proof.
  unfold enrich_version_entries. rewrite <-list_fmap_compose. apply list_fmap_ext.
  intros _ entry _. unfold compose. set (once := enrich_version_entry releases entry).
  assert (version_entry_analysis_id once = version_entry_analysis_id entry) as Hid by done.
  unfold enrich_version_entry at 1. rewrite Hid.
  unfold once, enrich_version_entry. cbn [ve_raw_kind ve_release_time ve_subject_kind ve_id
    ve_inherits_from ve_launchable ve_installed ve_status ve_status_detail ve_needs_install
    ve_java_component ve_java_major ve_loader].
  destruct (List.find _ releases) as [release|]; [|done].
  destruct (is_empty (trim (ve_raw_kind entry))) eqn:Ek; [|rewrite Ek];
    change (is_empty (trim "release")) with false;
    destruct (is_empty (trim (ve_release_time entry))) eqn:Et; rewrite ?Et; f_equal;
    by destruct (is_empty (trim (rel_release_time release))).
Qed.
