(* ===== verification/McLoaderIdentity.v ===== *)
(** * Loader identities ([core/minecraft/src/loaders/api.rs])

    The identifiers of installed loader versions and of loader builds: a
    component and two version texts, packed into bytes and written in base64.
    The base64 codec of the [base64] crate is a parameter. *)

From S2P Require Import Prelude RustStr McPortablePath.

(** ** Data *)

Inductive LoaderComponentId := Fabric | Quilt | Forge | NeoForge.

#[global] Instance LoaderComponentId_eq_dec : EqDecision LoaderComponentId.
Proof. solve_decision. Defined.

(** The errors whose payload is text. *)
Inductive LoaderError :=
| LoaderCancelled
| InvalidMinecraftVersion
| InvalidBuildId
| CatalogStale
| BuildNotFound (message : string)
| ArtifactMissing (message : string)
| InvalidProfile (message : string)
| VerifyFailed (message : string)
| ProcessorFailed (message : string)
| InstallExecutionFailed (message : string).

Record InstalledLoaderIdentity := {
  component_id : LoaderComponentId;
  minecraft_version : string;
  loader_version : string;
}.

(** A build record; [Rest] stands for the fields that do not identify it. *)
Record LoaderBuildRecord {Rest : Type} := {
  lbr_component_id : LoaderComponentId;
  lbr_build_id : string;
  lbr_minecraft_version : string;
  lbr_loader_version : string;
  lbr_version_id : string;
  lbr_rest : Rest;
}.
Arguments LoaderBuildRecord : clear implicits.

Definition INSTALLED_VERSION_ID_PREFIX : string := "loader-v2-".
Definition INSTALLED_VERSION_ID_DOMAIN : string := "axial-installed-loader".
Definition BUILD_ID_PREFIX : string := "loader-build-v1-".
Definition BUILD_ID_DOMAIN : string := "axial-loader-build".
Definition MAX_VERSION_ID_BYTES : Z := MAX_PORTABLE_FILE_NAME_BYTES - str_len ".json".

Definition parse_component (raw : string) : option LoaderComponentId :=
  if str_eqb raw "net.fabricmc.fabric-loader" then Some Fabric
  else if str_eqb raw "org.quiltmc.quilt-loader" then Some Quilt
  else if str_eqb raw "net.minecraftforge" then Some Forge
  else if str_eqb raw "net.neoforged" then Some NeoForge
  else None.

Definition component_as_str (self : LoaderComponentId) : string :=
  match self with
  | Fabric => "net.fabricmc.fabric-loader"
  | Quilt => "org.quiltmc.quilt-loader"
  | Forge => "net.minecraftforge"
  | NeoForge => "net.neoforged"
  end.

(** ** Operations *)

Definition is_reserved_installed_loader_id (version_id : string) : bool :=
  starts_with INSTALLED_VERSION_ID_PREFIX version_id.

Definition invalid_identity (message : string) : LoaderError := InvalidProfile message.

Definition component_tag (component_id : LoaderComponentId) : Z :=
  match component_id with Fabric => 1 | Quilt => 2 | Forge => 3 | NeoForge => 4 end.

Definition component_from_tag (tag : Z) : option LoaderComponentId :=
  if tag =? 1 then Some Fabric
  else if tag =? 2 then Some Quilt
  else if tag =? 3 then Some Forge
  else if tag =? 4 then Some NeoForge
  else None.

Definition validate_identity_coordinate (value name : string) : result LoaderError unit :=
  err_if (is_empty value) (invalid_identity (name +:+ " is empty")) ;;
  err_if (negb (str_eqb value (trim value)))
    (invalid_identity (name +:+ " contains surrounding whitespace")) ;;
  err_if (existsb is_control (chars value))
    (invalid_identity (name +:+ " contains control characters")).

(** The bytes taken and the bytes that remain. *)
Definition take_payload_bytes (remaining : string) (length : Z) : option (string * string) :=
  if str_len remaining <? length then None else Some (split_at (Z.to_nat length) remaining).

(** The domain and the zero byte after it. *)
Definition take_domain (domain remaining : string) : option string :=
  '(taken, remaining) ← take_payload_bytes remaining (str_len domain);
  if negb (str_eqb taken domain) then None
  else
    '(zero, remaining) ← take_payload_bytes remaining 1;
    if str_eqb zero (byte 0) then Some remaining else None.

Definition take_component (remaining : string) : option (LoaderComponentId * string) :=
  '(tag, remaining) ← take_payload_bytes remaining 1;
  component ← component_from_tag (from_be_bytes tag);
  Some (component, remaining).

Definition take_identity_coordinate (remaining name : string) :
    result LoaderError (string * string) :=
  '(length, remaining) ← ok_or (invalid_identity (name +:+ " length is missing"))
                           (take_payload_bytes remaining 2);
  '(value, remaining) ← ok_or (invalid_identity (name +:+ " length is invalid"))
                          (take_payload_bytes remaining (from_be_bytes length));
  err_if (negb (valid_utf8 value)) (invalid_identity (name +:+ " is not UTF-8")) ;;
  validate_identity_coordinate value name ;;
  Ok (value, remaining).

Definition append_build_coordinate (coordinate : string) : string :=
  be_bytes 8 (str_len coordinate) +:+ coordinate.

Definition take_build_coordinate (remaining : string) : option (string * string) :=
  '(length, remaining) ← take_payload_bytes remaining 8;
  '(coordinate, remaining) ← take_payload_bytes remaining (from_be_bytes length);
  if valid_utf8 coordinate &&
     is_ok (validate_identity_coordinate coordinate "loader build coordinate")
  then Some (coordinate, remaining) else None.

Section codec.
(** [URL_SAFE_NO_PAD]. *)
Variables (b64_encode : string → string) (b64_decode : string → option string).

(** The bytes of an installed version's identity. *)
Definition installed_payload (component_id : LoaderComponentId)
    (minecraft_version loader_version : string) : string :=
  INSTALLED_VERSION_ID_DOMAIN +:+ byte 0 +:+ be_bytes 1 (component_tag component_id) +:+
  be_bytes 2 (str_len minecraft_version) +:+ minecraft_version +:+
  be_bytes 2 (str_len loader_version) +:+ loader_version.

Definition installed_version_id_for (component_id : LoaderComponentId)
    (minecraft_version loader_version : string) : result LoaderError string :=
  validate_identity_coordinate minecraft_version "Minecraft version" ;;
  validate_identity_coordinate loader_version "loader version" ;;
  err_if (65535 <? str_len minecraft_version)
    (invalid_identity "Minecraft version is too long") ;;
  err_if (65535 <? str_len loader_version) (invalid_identity "loader version is too long") ;;
  let version_id :=
    INSTALLED_VERSION_ID_PREFIX +:+
    b64_encode (installed_payload component_id minecraft_version loader_version) in
  err_if (MAX_VERSION_ID_BYTES <? str_len version_id)
    (invalid_identity "encoded loader version id is too long") ;;
  Ok version_id.

Definition decode_installed_version_id (version_id : string) :
    result LoaderError InstalledLoaderIdentity :=
  err_if (MAX_VERSION_ID_BYTES <? str_len version_id)
    (invalid_identity "encoded loader version id is too long") ;;
  encoded ← ok_or (invalid_identity "installed loader version id has an invalid prefix")
              (strip_prefix INSTALLED_VERSION_ID_PREFIX version_id);
  payload ← ok_or (invalid_identity "installed loader version id payload is invalid")
              (b64_decode encoded);
  remaining ← ok_or (invalid_identity "installed loader version id domain is invalid")
                (take_domain INSTALLED_VERSION_ID_DOMAIN payload);
  '(component_id, remaining) ←
    ok_or (invalid_identity "installed loader version id component is invalid")
      (take_component remaining);
  '(minecraft_version, remaining) ← take_identity_coordinate remaining "Minecraft version";
  '(loader_version, remaining) ← take_identity_coordinate remaining "loader version";
  err_if (negb (is_empty remaining))
    (invalid_identity "installed loader version id has trailing data") ;;
  canonical ← installed_version_id_for component_id minecraft_version loader_version;
  err_if (negb (str_eqb canonical version_id))
    (invalid_identity "installed loader version id is not canonical") ;;
  Ok {| component_id := component_id; minecraft_version := minecraft_version;
        loader_version := loader_version |}.

Definition is_canonical_installed_loader_id (version_id : string) : bool :=
  is_ok (decode_installed_version_id version_id).

Definition validate_materialized_loader_profile (installed_version_id profile_id
    declared_parent : string) (materialized : bool) :
    result LoaderError InstalledLoaderIdentity :=
  identity ← decode_installed_version_id installed_version_id;
  err_if (negb materialized || negb (str_eqb profile_id installed_version_id) ||
          negb (str_eqb declared_parent (minecraft_version identity)))
    (invalid_identity "materialized loader profile does not match its canonical identity") ;;
  Ok {| component_id := component_id identity; minecraft_version := minecraft_version identity;
        loader_version := loader_version identity |}.

Definition build_payload (component_id : LoaderComponentId)
    (minecraft_version loader_version : string) : string :=
  BUILD_ID_DOMAIN +:+ byte 0 +:+ be_bytes 1 (component_tag component_id) +:+
  append_build_coordinate minecraft_version +:+ append_build_coordinate loader_version.

Definition build_id_for (component_id : LoaderComponentId)
    (minecraft_version loader_version : string) : string :=
  BUILD_ID_PREFIX +:+ b64_encode (build_payload component_id minecraft_version loader_version).

Definition parse_build_id (build_id : string) : option (LoaderComponentId * string * string) :=
  encoded ← strip_prefix BUILD_ID_PREFIX build_id;
  payload ← b64_decode encoded;
  remaining ← take_domain BUILD_ID_DOMAIN payload;
  '(component_id, remaining) ← take_component remaining;
  '(minecraft_version, remaining) ← take_build_coordinate remaining;
  '(loader_version, remaining) ← take_build_coordinate remaining;
  if negb (is_empty remaining) ||
     negb (str_eqb (build_id_for component_id minecraft_version loader_version) build_id)
  then None
  else Some (component_id, minecraft_version, loader_version).

Definition validate_loader_build_record_identity {R} (record : LoaderBuildRecord R) :
    result LoaderError unit :=
  err_if (negb (str_eqb (lbr_build_id record)
                  (build_id_for (lbr_component_id record) (lbr_minecraft_version record)
                     (lbr_loader_version record))))
    (invalid_identity "loader build id is not canonical") ;;
  installed_identity ← decode_installed_version_id (lbr_version_id record);
  err_if (negb (bool_decide (component_id installed_identity = lbr_component_id record)) ||
          negb (str_eqb (minecraft_version installed_identity) (lbr_minecraft_version record)) ||
          negb (str_eqb (loader_version installed_identity) (lbr_loader_version record)))
    (invalid_identity "installed loader version id does not match the build identity").
End codec.

(** ** Taking apart what was put together *)

Definition coordinate_ok (value : string) : bool :=
  negb (is_empty value) && str_eqb value (trim value) && negb (existsb is_control (chars value)).

Lemma validate_coordinate_ok value name u :
  validate_identity_coordinate value name = Ok u ↔ coordinate_ok value = true.
Proof.
  unfold validate_identity_coordinate, coordinate_ok.
  rewrite !bind_ok_unit, !err_if_ok, negb_false_iff, !andb_true_iff, !negb_true_iff. naive_solver.
Qed.

Lemma is_ok_coordinate value name :
  is_ok (validate_identity_coordinate value name) = coordinate_ok value.
Proof.
  destruct (validate_identity_coordinate value name) as [u|e] eqn:E; simpl.
  - by apply validate_coordinate_ok in E.
  - destruct (coordinate_ok value) eqn:E'; [|done].
    apply (validate_coordinate_ok value name tt) in E'. congruence.
Qed.

Lemma take_app a r : take_payload_bytes (a +:+ r) (str_len a) = Some (a, r).
Proof.
  unfold take_payload_bytes, str_len. rewrite str_app_length.
  destruct (Z.ltb_spec (Z.of_nat (String.length a + String.length r)) (Z.of_nat (String.length a)));
    [lia|]. by rewrite Nat2Z.id, split_at_app.
Qed.

Lemma take_be w n r m :
  m = Z.of_nat w → take_payload_bytes (be_bytes w n +:+ r) m = Some (be_bytes w n, r).
Proof. intros ->. rewrite <-(be_bytes_length w n) at 2. apply take_app. Qed.

Lemma take_domain_app domain r : take_domain domain (domain +:+ byte 0 +:+ r) = Some r.
Proof.
  unfold take_domain. rewrite take_app. cbn [mbind option_bind].
  rewrite (proj2 (str_eqb_spec domain domain) eq_refl).
  cbn [negb]. change (take_payload_bytes (byte 0 +:+ r) 1) with
    (take_payload_bytes (byte 0 +:+ r) (str_len (byte 0))).
  by rewrite take_app.
Qed.

Lemma take_component_app component r :
  take_component (be_bytes 1 (component_tag component) +:+ r) = Some (component, r).
Proof.
  unfold take_component. rewrite (take_be 1) by done. cbn [mbind option_bind result_bind ok_or].
  rewrite from_to_be_bytes by (by destruct component). by destruct component.
Qed.

Lemma take_identity_app value name r :
  coordinate_ok value = true → valid_utf8 value = true → str_len value ≤ 65535 →
  take_identity_coordinate (be_bytes 2 (str_len value) +:+ value +:+ r) name = Ok (value, r).
Proof.
  intros Hc Hu Hl. unfold take_identity_coordinate. rewrite (take_be 2) by done. cbn [mbind option_bind result_bind ok_or]. pose proof (str_len_nonneg value).
  rewrite from_to_be_bytes by (change (256 ^ Z.of_nat 2) with 65536; lia).
  rewrite take_app. cbn [mbind option_bind result_bind ok_or]. rewrite Hu. cbn [mbind option_bind result_bind ok_or]. by rewrite (proj2 (validate_coordinate_ok value name tt) Hc).
Qed.

Lemma take_identity_end value name :
  coordinate_ok value = true → valid_utf8 value = true → str_len value ≤ 65535 →
  take_identity_coordinate (be_bytes 2 (str_len value) +:+ value) name = Ok (value, "").
Proof. intros. rewrite <-(take_identity_app value name "") by done. by rewrite str_app_nil_r. Qed.

Lemma take_build_app value r :
  coordinate_ok value = true → valid_utf8 value = true → str_len value ≤ u64_max →
  take_build_coordinate (append_build_coordinate value +:+ r) = Some (value, r).
Proof.
  intros Hc Hu Hl. unfold take_build_coordinate, append_build_coordinate. rewrite str_app_assoc.
  rewrite (take_be 8) by done. cbn [mbind option_bind result_bind ok_or]. pose proof (str_len_nonneg value).
  rewrite from_to_be_bytes by (unfold u64_max in *; change (256 ^ Z.of_nat 8) with 18446744073709551616; lia).
  rewrite take_app. cbn [mbind option_bind result_bind ok_or]. by rewrite Hu, is_ok_coordinate, Hc.
Qed.

Section laws.
Context (b64_encode : string → string) (b64_decode : string → option string).
(** The documented round trip of the codec. *)
Hypothesis b64_roundtrip : ∀ payload, b64_decode (b64_encode payload) = Some payload.

Notation installed_version_id_for := (installed_version_id_for b64_encode).
Notation decode_installed_version_id := (decode_installed_version_id b64_encode b64_decode).
Notation build_id_for := (build_id_for b64_encode).
Notation parse_build_id := (parse_build_id b64_encode b64_decode).

Lemma strip_prefix_app prefix s : strip_prefix prefix (prefix +:+ s) = Some s.
Proof. by apply strip_prefix_spec. Qed.

Lemma installed_version_id_ok component minecraft loader id :
  installed_version_id_for component minecraft loader = Ok id ↔
  coordinate_ok minecraft = true ∧ coordinate_ok loader = true ∧
  str_len minecraft ≤ 65535 ∧ str_len loader ≤ 65535 ∧
  id = INSTALLED_VERSION_ID_PREFIX +:+ b64_encode (installed_payload component minecraft loader) ∧
  str_len id ≤ MAX_VERSION_ID_BYTES.
Proof.
  unfold McLoaderIdentity.installed_version_id_for.
  rewrite !bind_ok_unit, !validate_coordinate_ok, !err_if_ok, !Z.ltb_ge. naive_solver.
Qed.

Lemma installed_version_id_decodes_iff id identity :
  decode_installed_version_id id = Ok identity ↔
  valid_utf8 (minecraft_version identity) = true ∧ valid_utf8 (loader_version identity) = true ∧
  installed_version_id_for (component_id identity) (minecraft_version identity)
    (loader_version identity) = Ok id.
Proof.
  unfold McLoaderIdentity.decode_installed_version_id. split.
  - rewrite bind_ok_unit. intros [_ (e & _ & (p & _ & (r & _ & ([c r1] & _ & H)%bind_ok)%bind_ok)%bind_ok)%bind_ok].
    apply bind_ok in H as ([mc r2] & Hmc & H). apply bind_ok in H as ([ld r3] & Hld & H).
    apply bind_ok_unit in H as [_ (canonical & Hcan & H)%bind_ok].
    apply bind_ok_unit in H as [Heq%err_if_ok [= <-]].
    apply negb_false_iff, str_eqb_spec in Heq as ->. simpl.
    assert (∀ r v r' name, take_identity_coordinate r name = Ok (v, r') → valid_utf8 v = true) as Hu.
    { intros ? v ? ?. unfold take_identity_coordinate.
      intros ([? ?] & _ & ([? ?] & _ & [Hv%err_if_ok [_ [= <- _]]%bind_ok_unit]%bind_ok_unit)%bind_ok)%bind_ok.
      by apply negb_false_iff in Hv. }
    split_and!; [by eapply Hu|by eapply Hu|done].
  - destruct identity as [component minecraft loader].
    cbn [minecraft_version loader_version component_id]. intros (Hu1 & Hu2 & Hid).
    pose proof Hid as Hid'. apply installed_version_id_ok in Hid' as (Hc1 & Hc2 & Hl1 & Hl2 & E & Hmax).
    rewrite (proj2 (Z.ltb_ge _ _) Hmax).
    assert (strip_prefix INSTALLED_VERSION_ID_PREFIX id =
      Some (b64_encode (installed_payload component minecraft loader))) as ->
      by (rewrite E; apply strip_prefix_app). cbn [mbind option_bind result_bind ok_or].
    rewrite b64_roundtrip. cbn [mbind option_bind result_bind ok_or]. unfold installed_payload. rewrite take_domain_app. cbn [mbind option_bind result_bind ok_or].
    rewrite take_component_app. cbn [mbind option_bind result_bind ok_or]. rewrite take_identity_app by done. cbn [mbind option_bind result_bind ok_or].
    rewrite take_identity_end by done. cbn [mbind option_bind result_bind ok_or].
    rewrite Hid. cbn [mbind option_bind result_bind ok_or]. by rewrite (proj2 (str_eqb_spec id id) eq_refl).
Qed.

Lemma installed_version_id_decodes component minecraft loader id :
  valid_utf8 minecraft = true → valid_utf8 loader = true →
  installed_version_id_for component minecraft loader = Ok id →
  decode_installed_version_id id =
    Ok {| component_id := component; minecraft_version := minecraft; loader_version := loader |}.
Proof. intros. by apply installed_version_id_decodes_iff. Qed.

(** C39: The identifier of an installed loader version is decoded exactly by
    the identity it was made from: for versions that are UTF-8 text,
    [decode_installed_version_id] is the inverse of [installed_version_id_for],
    on every identifier, canonical or not. *)
Theorem installed_version_id_iff id identity :
  decode_installed_version_id id = Ok identity ↔
  valid_utf8 (minecraft_version identity) = true ∧ valid_utf8 (loader_version identity) = true ∧
  installed_version_id_for (component_id identity) (minecraft_version identity)
    (loader_version identity) = Ok id.
Proof. apply installed_version_id_decodes_iff. Qed.

Lemma take_build_end value :
  coordinate_ok value = true → valid_utf8 value = true → str_len value ≤ u64_max →
  take_build_coordinate (append_build_coordinate value) = Some (value, "").
Proof. intros. rewrite <-(take_build_app value "") by done. by rewrite str_app_nil_r. Qed.

Lemma take_build_spec r value r' :
  take_build_coordinate r = Some (value, r') →
  valid_utf8 value = true ∧ coordinate_ok value = true.
Proof.
  unfold take_build_coordinate. destruct (take_payload_bytes r 8) as [[length r1]|]; [|done].
  cbn [mbind option_bind]. destruct (take_payload_bytes r1 _) as [[c r2]|]; [|done].
  cbn [mbind option_bind]. rewrite is_ok_coordinate.
  destruct (valid_utf8 c) eqn:E1; [|done]. destruct (coordinate_ok c) eqn:E2; [|done].
  intros [= <- <-]. done.
Qed.

(** Build identifiers have no aliases.  A build identifier is parsed
    exactly when it is the one made from two well-formed UTF-8 coordinates,
    and parsing gives those coordinates and the component back, whatever
    separators they contain. *)
Theorem parse_build_id_iff id component minecraft loader :
  str_len minecraft ≤ u64_max → str_len loader ≤ u64_max →
  parse_build_id id = Some (component, minecraft, loader) ↔
  valid_utf8 minecraft = true ∧ valid_utf8 loader = true ∧
  coordinate_ok minecraft = true ∧ coordinate_ok loader = true ∧
  id = build_id_for component minecraft loader.
Proof.
  intros Hl1 Hl2. unfold McLoaderIdentity.parse_build_id. split.
  - destruct (strip_prefix BUILD_ID_PREFIX id) as [e|]; [|done]. cbn [mbind option_bind].
    destruct (b64_decode e) as [p|]; [|done]. cbn [mbind option_bind].
    destruct (take_domain BUILD_ID_DOMAIN p) as [r|]; [|done]. cbn [mbind option_bind].
    destruct (take_component r) as [[c r1]|]; [|done]. cbn [mbind option_bind].
    destruct (take_build_coordinate r1) as [[mc r2]|] eqn:E1; [|done]. cbn [mbind option_bind].
    destruct (take_build_coordinate r2) as [[ld r3]|] eqn:E2; [|done]. cbn [mbind option_bind].
    destruct (negb (is_empty r3)); [done|]. cbn [orb].
    destruct (str_eqb (build_id_for c mc ld) id) eqn:E; [|done].
    intros [= <- <- <-]. apply str_eqb_spec in E. apply take_build_spec in E1 as [? ?], E2 as [? ?].
    split_and!; done.
  - intros (Hu1 & Hu2 & Hc1 & Hc2 & ->). unfold McLoaderIdentity.build_id_for.
    rewrite strip_prefix_app. cbn [mbind option_bind]. rewrite b64_roundtrip. cbn [mbind option_bind].
    unfold build_payload. rewrite take_domain_app. cbn [mbind option_bind].
    rewrite take_component_app. cbn [mbind option_bind]. rewrite take_build_app by done.
    cbn [mbind option_bind]. rewrite take_build_end by done. cbn [mbind option_bind].
    cbn [is_empty negb orb]. by rewrite (proj2 (str_eqb_spec _ _) eq_refl).
Qed.

(** A build record passes the identity check exactly when both of its
    identifiers are the canonical ones of its component and versions: an
    accepted record cannot send an install under another record's name. *)
Theorem build_record_identity_iff {R} (record : LoaderBuildRecord R) :
  valid_utf8 (lbr_minecraft_version record) = true →
  valid_utf8 (lbr_loader_version record) = true →
  validate_loader_build_record_identity b64_encode b64_decode record = Ok tt ↔
  lbr_build_id record =
    build_id_for (lbr_component_id record) (lbr_minecraft_version record)
      (lbr_loader_version record) ∧
  installed_version_id_for (lbr_component_id record) (lbr_minecraft_version record)
    (lbr_loader_version record) = Ok (lbr_version_id record).
Proof.
  intros Hu1 Hu2. unfold validate_loader_build_record_identity.
  rewrite bind_ok_unit, err_if_ok, negb_false_iff, str_eqb_spec, bind_ok.
  split; intros [Hb H]; split; try done.
  - destruct H as ([c mc ld] & Hd & He). rewrite err_if_ok, !orb_false_iff, !negb_false_iff,
      bool_decide_eq_true, !str_eqb_spec in He. simpl in He. destruct He as [[<- <-] <-].
    by apply installed_version_id_decodes_iff in Hd as (_ & _ & ?).
  - exists {| component_id := lbr_component_id record;
              minecraft_version := lbr_minecraft_version record;
              loader_version := lbr_loader_version record |}. split.
    + by apply installed_version_id_decodes_iff.
    + rewrite err_if_ok, !orb_false_iff, !negb_false_iff, bool_decide_eq_true, !str_eqb_spec. done.
Qed.
End laws.

(** ** Sample identities, under a codec that writes two letters per byte *)

Definition nibble_letter (n : N) : ascii := ascii_of_N (97 + n).

Fixpoint letters_encode (s : string) : string :=
  match s with
  | "" => ""
  | String c s =>
      String (nibble_letter (byte_n c / 16)) (String (nibble_letter (byte_n c mod 16)) (letters_encode s))
  end.

Fixpoint letters_decode (s : string) : option string :=
  match s with
  | "" => Some ""
  | String a (String b s) =>
      String (ascii_of_N ((byte_n a - 97) * 16 + (byte_n b - 97))) <$> letters_decode s
  | String _ "" => None
  end.

Lemma letters_roundtrip payload : letters_decode (letters_encode payload) = Some payload.
Proof.
  induction payload as [|c s IH]; [done|]. cbn [letters_encode letters_decode]. rewrite IH.
  by destruct c as [[] [] [] [] [] [] [] []].
Qed.

Lemma installed_version_id_iff_witness :
  decode_installed_version_id letters_encode letters_decode
    (INSTALLED_VERSION_ID_PREFIX +:+ letters_encode (installed_payload Fabric "1.21.5" "0.16.14")) =
  Ok {| component_id := Fabric; minecraft_version := "1.21.5"; loader_version := "0.16.14" |}.
Proof.
  apply (installed_version_id_iff letters_encode letters_decode letters_roundtrip). split_and!; vm_compute; reflexivity.
Defined.

Lemma parse_build_id_iff_witness :
  parse_build_id letters_encode letters_decode (build_id_for letters_encode Forge "c:a" "b") = Some (Forge, "c:a", "b").
Proof.
  apply (parse_build_id_iff letters_encode letters_decode letters_roundtrip); [done|done|].
  split_and!; vm_compute; reflexivity.
Defined.

Lemma build_record_identity_iff_witness :
  validate_loader_build_record_identity letters_encode letters_decode
    {| lbr_component_id := Quilt;
       lbr_build_id := build_id_for letters_encode Quilt "1.20.1" "0.27";
       lbr_minecraft_version := "1.20.1"; lbr_loader_version := "0.27";
       lbr_version_id := INSTALLED_VERSION_ID_PREFIX +:+ letters_encode (installed_payload Quilt "1.20.1" "0.27");
       lbr_rest := () |} = Ok tt.
Proof.
  apply (build_record_identity_iff letters_encode letters_decode letters_roundtrip); [done|done|].
  split; vm_compute; reflexivity.
Defined.
