(* ===== verification/McRules.v ===== *)
(** * Rules ([core/minecraft/src/rules/mod.rs])

    The rules that allow an argument or a library in an environment.  The
    regular expressions of the [regex] crate are a parameter: whether a pattern
    is valid and matches. *)

From S2P Require Import Prelude RustStr.

(** ** Data *)

Record OsRule := { os_rule_name : string; os_rule_arch : string; os_rule_version : string }.

#[global] Instance OsRule_eq_dec : EqDecision OsRule.
Proof. solve_decision. Defined.

Record Rule := {
  action : string;
  rule_os : option OsRule;
  rule_features : option (gmap string bool);
}.

#[global] Instance Rule_eq_dec : EqDecision Rule.
Proof. solve_decision. Defined.

Record Environment := {
  os_name : string;
  os_arch : string;
  os_version : string;
  features : gmap string bool;
}.

(** ** Operations *)

Section rules.
(** [Regex::new(pattern)] and [is_match]: [None] for an invalid pattern. *)
Variable regex_match : string → string → option bool.

(** [cfg!(target_os)], [cfg!(target_arch)] and [consts::ARCH] of the build. *)
Definition current_os_name (target_os : string) : string :=
  if str_eqb target_os "windows" then "windows"
  else if str_eqb target_os "macos" then "osx"
  else "linux".

Definition current_os_arch (target_arch : string) : string :=
  if str_eqb target_arch "x86_64" then "x86_64"
  else if str_eqb target_arch "x86" then "x86"
  else if str_eqb target_arch "aarch64" then "arm64"
  else target_arch.

Definition native_classifier_key (target_os : string) : string :=
  "natives-" +:+
  (if str_eqb (current_os_name target_os) "osx" then "macos" else current_os_name target_os).

Definition is_native_library (name : string) : bool :=
  contains "natives-" (to_ascii_lowercase name).

Definition default_environment (target_os target_arch : string) : Environment := {|
  os_name := current_os_name target_os;
  os_arch := current_os_arch target_arch;
  os_version := "";
  features :=
    <["is_demo_user" := false]>
    (<["has_custom_resolution" := false]>
    (<["has_quick_plays_support" := false]>
    (<["is_quick_play_singleplayer" := false]>
    (<["is_quick_play_multiplayer" := false]>
    (<["is_quick_play_realms" := false]> ∅)))));
|}.

Definition os_matches (os : OsRule) (env : Environment) : bool :=
  if negb (is_empty (os_rule_name os)) && negb (str_eqb (os_rule_name os) (os_name env)) then false
  else if negb (is_empty (os_rule_arch os)) && negb (str_eqb (os_rule_arch os) (os_arch env))
  then false
  else if negb (is_empty (os_rule_version os)) && is_empty (os_version env) then false
  else if negb (is_empty (os_rule_version os)) then
    match regex_match (os_rule_version os) (os_version env) with
    | None => false
    | Some matches => matches
    end
  else true.

Definition feature_matches (env : Environment) (feature : string) (required : bool) : bool :=
  match features env !! feature with
  | Some actual => eqb actual required
  | None => negb required
  end.

Definition rule_matches (rule : Rule) (env : Environment) : bool :=
  match rule_os rule with Some os => os_matches os env | None => true end &&
  match rule_features rule with
  | Some required => forallb (λ p, feature_matches env p.1 p.2) (map_to_list required)
  | None => true
  end.

Definition evaluate_rules (rules : list Rule) (env : Environment) : bool :=
  if bool_decide (rules = []) then true
  else
    str_eqb
      (fold_left (λ act rule, if rule_matches rule env then action rule else act) rules "disallow")
      "allow".

(** ** Properties *)

Lemma feature_loop env required :
  forallb (λ p, feature_matches env p.1 p.2) (map_to_list required) = true ↔
  map_Forall (λ feature req, default false (features env !! feature) = req) required.
Proof.
  rewrite forallb_forall, map_Forall_to_list, list.Forall_forall. unfold feature_matches.
  split; intros H [feature req] Hin.
  - apply list_elem_of_In in Hin. specialize (H _ Hin). simpl in *.
    destruct (features env !! feature) as [b|]; simpl; [by apply eqb_prop|by destruct req].
  - apply list_elem_of_In in Hin. specialize (H _ Hin). simpl in *.
    destruct (features env !! feature) as [b|]; simpl in *; [subst; apply eqb_reflx|by subst].
Qed.

Lemma fold_last rules env act :
  fold_left (λ act rule, if rule_matches rule env then action rule else act) rules act =
  match List.find (λ rule, rule_matches rule env) (reverse rules) with
  | Some rule => action rule
  | None => act
  end.
Proof.
  revert act. induction rules as [|rule rules IH] using rev_ind; intros act; [done|].
  rewrite fold_left_app, reverse_app. simpl. rewrite IH. by destruct (rule_matches rule env).
Qed.

(** The last rule that matches the environment decides; without one the
    answer is no, and an empty list allows.  A rule matches when its system
    part does and every feature it names has the required value, a feature
    the environment does not know counting as off. *)
Theorem evaluate_rules_last_match rules env :
  evaluate_rules rules env = true ↔
  rules = [] ∨
  ∃ before rule after, rules = before ++ rule :: after ∧ action rule = "allow" ∧
    rule_matches rule env = true ∧ Forall (λ r, rule_matches r env = false) after ∧
    (∀ required, rule_features rule = Some required →
       map_Forall (λ feature req, default false (features env !! feature) = req) required).
Proof.
  unfold evaluate_rules. case_bool_decide as He; [naive_solver|].
  rewrite fold_last, str_eqb_spec. split.
  - destruct (List.find _ _) as [rule|] eqn:Hf; [|done]. intros Ha. right.
    apply List.find_some in Hf as Hs. destruct Hs as [_ Hm].
    assert (∃ pre post, reverse rules = pre ++ rule :: post ∧
              Forall (λ r, rule_matches r env = false) pre) as (pre & post & Hr & Hp).
    { clear -Hf. induction (reverse rules) as [|r l IH]; [done|]. simpl in Hf.
      destruct (rule_matches r env) eqn:E.
      - injection Hf as <-. exists [], l. done.
      - destruct (IH Hf) as (pre & post & -> & Hp). exists (r :: pre), post. by repeat constructor. }
    exists (reverse post), rule, (reverse pre). split_and!; [|done|done| |].
    + rewrite <-(reverse_involutive rules), Hr, reverse_app, reverse_cons. by rewrite <-app_assoc.
    + by apply Forall_reverse.
    + intros required Hreq. unfold rule_matches in Hm. rewrite Hreq in Hm.
      apply andb_true_iff in Hm as [_ Hm]. by apply feature_loop.
  - intros [?|(before & rule & after & -> & Ha & Hm & Hn & _)]; [done|].
    rewrite reverse_app, reverse_cons. rewrite <-app_assoc.
    assert (Forall (λ r, rule_matches r env = false) (reverse after)) as Hn' by by apply Forall_reverse.
    induction Hn' as [|r l Hr _ IH]; simpl; [by rewrite Hm|by rewrite Hr].
Qed.
End rules.
