(* ===== verification/McLaunch.v ===== *)
(** * Version descriptions ([core/minecraft/src/launch/mod.rs])

    A version's description, how it inherits from its parent, and the Java
    version it runs on.  Reading a description from disk is the parameter
    [load]; parsing JSON is not modelled.  The launch command itself is in
    McCommand. *)

From S2P Require Import Prelude RustStr McRules McLoaderIdentity.

(** ** Data *)

Record Argument := { arg_rules : list Rule; arg_value : list string }.

#[global] Instance Argument_eq_dec : EqDecision Argument.
Proof. solve_decision. Defined.

Record ArgumentsSection := { args_game : list Argument; args_jvm : list Argument }.

#[global] Instance ArgumentsSection_eq_dec : EqDecision ArgumentsSection.
Proof. solve_decision. Defined.

Record AssetIndex := {
  ai_id : string; ai_sha1 : string; ai_size : Z; ai_total_size : Z; ai_url : string;
}.

Record DownloadEntry := { de_sha1 : string; de_size : Z; de_url : string }.

Record Downloads := {
  dl_client : option DownloadEntry;
  dl_server : option DownloadEntry;
  dl_client_mappings : option DownloadEntry;
  dl_server_mappings : option DownloadEntry;
}.

Record JavaVersion := { component : string; major_version : Z }.

Record LibraryArtifact := { la_path : string; la_sha1 : string; la_size : Z; la_url : string }.

#[global] Instance LibraryArtifact_eq_dec : EqDecision LibraryArtifact.
Proof. solve_decision. Defined.

Record LibraryDownload := {
  ld_artifact : option LibraryArtifact;
  ld_classifiers : gmap string LibraryArtifact;
}.

#[global] Instance LibraryDownload_eq_dec : EqDecision LibraryDownload.
Proof. solve_decision. Defined.

Record ExtractRule := { exclude : list string }.

#[global] Instance ExtractRule_eq_dec : EqDecision ExtractRule.
Proof. solve_decision. Defined.

Record Library := {
  lib_name : string;
  lib_downloads : option LibraryDownload;
  lib_url : string;
  lib_rules : list Rule;
  lib_natives : gmap string string;
  lib_extract : option ExtractRule;
  lib_sha1 : string;
  lib_sha256 : string;
  lib_checksums : list string;
  lib_size : Z;
}.

#[global] Instance Library_eq_dec : EqDecision Library.
Proof. solve_decision. Defined.

Record LoggingFile := { lf_id : string; lf_sha1 : string; lf_size : Z; lf_url : string }.

Record LoggingEntry := { le_argument : string; le_file : LoggingFile; le_kind : string }.

Record LoggingConf := { log_client : option LoggingEntry }.

Record VersionJson := {
  vj_id : string;
  vj_inherits_from : string;
  vj_materialized : bool;
  vj_kind : string;
  vj_main_class : string;
  vj_minimum_launcher_version : Z;
  vj_compliance_level : Z;
  vj_release_time : string;
  vj_time : string;
  vj_arguments : option ArgumentsSection;
  vj_minecraft_arguments : string;
  vj_asset_index : AssetIndex;
  vj_assets : string;
  vj_downloads : Downloads;
  vj_java_version : JavaVersion;
  vj_libraries : list Library;
  vj_logging : option LoggingConf;
}.

Definition is_legacy_version (self : VersionJson) : bool :=
  match vj_arguments self with
  | None => negb (is_empty (vj_minecraft_arguments self))
  | Some _ => false
  end.

(** [ReadVersion] and [ParseVersion] carry the error of the reader. *)
Inductive LaunchModelError :=
| ReadVersion (version_id source : string)
| ParseVersion (version_id source : string)
| LoadParent (child_id parent_id : string) (source : LaunchModelError)
| InheritanceTooDeep (version_id : string)
| InvalidMaterializedProfile (version_id : string).

(** *** Changing one field *)

Definition set_java (version : VersionJson) (java : JavaVersion) : VersionJson := {|
  vj_id := vj_id version; vj_inherits_from := vj_inherits_from version;
  vj_materialized := vj_materialized version; vj_kind := vj_kind version;
  vj_main_class := vj_main_class version;
  vj_minimum_launcher_version := vj_minimum_launcher_version version;
  vj_compliance_level := vj_compliance_level version;
  vj_release_time := vj_release_time version; vj_time := vj_time version;
  vj_arguments := vj_arguments version;
  vj_minecraft_arguments := vj_minecraft_arguments version;
  vj_asset_index := vj_asset_index version; vj_assets := vj_assets version;
  vj_downloads := vj_downloads version; vj_java_version := java;
  vj_libraries := vj_libraries version; vj_logging := vj_logging version |}.

Definition set_asset_index (version : VersionJson) (index : AssetIndex) : VersionJson := {|
  vj_id := vj_id version; vj_inherits_from := vj_inherits_from version;
  vj_materialized := vj_materialized version; vj_kind := vj_kind version;
  vj_main_class := vj_main_class version;
  vj_minimum_launcher_version := vj_minimum_launcher_version version;
  vj_compliance_level := vj_compliance_level version;
  vj_release_time := vj_release_time version; vj_time := vj_time version;
  vj_arguments := vj_arguments version;
  vj_minecraft_arguments := vj_minecraft_arguments version;
  vj_asset_index := index; vj_assets := vj_assets version;
  vj_downloads := vj_downloads version; vj_java_version := vj_java_version version;
  vj_libraries := vj_libraries version; vj_logging := vj_logging version |}.

Definition clear_parent (version : VersionJson) : VersionJson := {|
  vj_id := vj_id version; vj_inherits_from := "";
  vj_materialized := false; vj_kind := vj_kind version;
  vj_main_class := vj_main_class version;
  vj_minimum_launcher_version := vj_minimum_launcher_version version;
  vj_compliance_level := vj_compliance_level version;
  vj_release_time := vj_release_time version; vj_time := vj_time version;
  vj_arguments := vj_arguments version;
  vj_minecraft_arguments := vj_minecraft_arguments version;
  vj_asset_index := vj_asset_index version; vj_assets := vj_assets version;
  vj_downloads := vj_downloads version; vj_java_version := vj_java_version version;
  vj_libraries := vj_libraries version; vj_logging := vj_logging version |}.

Definition set_asset_id (index : AssetIndex) (id : string) : AssetIndex := {|
  ai_id := id; ai_sha1 := ai_sha1 index; ai_size := ai_size index;
  ai_total_size := ai_total_size index; ai_url := ai_url index |}.

(** ** Java versions *)

Definition JAVA_RUNTIME_LEGACY : string := "jre-legacy".
Definition JAVA_RUNTIME_ALPHA : string := "java-runtime-alpha".
Definition JAVA_RUNTIME_BETA : string := "java-runtime-beta".
Definition JAVA_RUNTIME_GAMMA : string := "java-runtime-gamma".
Definition JAVA_RUNTIME_DELTA : string := "java-runtime-delta".
Definition JAVA_RUNTIME_EPSILON : string := "java-runtime-epsilon".

Definition java_component_for_major (major : Z) : option string :=
  if major =? 8 then Some JAVA_RUNTIME_LEGACY
  else if major =? 16 then Some JAVA_RUNTIME_ALPHA
  else if major =? 17 then Some JAVA_RUNTIME_GAMMA
  else if 21 <=? major then Some JAVA_RUNTIME_DELTA
  else None.

Definition java_major_for_component (component : string) : option Z :=
  let c := trim component in
  if str_eqb c JAVA_RUNTIME_LEGACY then Some 8
  else if str_eqb c JAVA_RUNTIME_ALPHA then Some 16
  else if str_eqb c JAVA_RUNTIME_BETA || str_eqb c JAVA_RUNTIME_GAMMA then Some 17
  else if str_eqb c JAVA_RUNTIME_DELTA || str_eqb c JAVA_RUNTIME_EPSILON then Some 21
  else None.

Definition java_version (component : string) (major_version : Z) : JavaVersion :=
  {| component := component; major_version := major_version |}.

(** The variables of the loop over the bytes; it ends early with [break] (the
    [inl]) or with a return of [None]. *)
Record PrefixScan := { px_components : list Z; px_current : string; px_saw_dot : bool }.

Fixpoint scan_release_prefix (s : string) (st : PrefixScan) : option PrefixScan :=
  match s with
  | "" => Some st
  | String byte s =>
      if is_digit byte then
        scan_release_prefix s
          {| px_components := px_components st; px_current := px_current st +:+ String byte "";
             px_saw_dot := px_saw_dot st |}
      else if Ascii.eqb byte "." then
        if is_empty (px_current st) then None
        else
          number ← parse_u32 (px_current st);
          scan_release_prefix s
            {| px_components := px_components st ++ [number]; px_current := "";
               px_saw_dot := true |}
      else Some st
  end.

Definition parse_release_prefix (version_id : string) : option (list Z) :=
  st ← scan_release_prefix version_id {| px_components := []; px_current := ""; px_saw_dot := false |};
  components ←
    (if negb (is_empty (px_current st)) then
       number ← parse_u32 (px_current st); Some (px_components st ++ [number])
     else Some (px_components st));
  if px_saw_dot st && (2 <=? length components)%nat then Some components else None.

Definition inferred_java_version_for (version_id raw_kind : string) : JavaVersion :=
  if existsb (str_eqb raw_kind) ["old_alpha"; "old_beta"] then java_version JAVA_RUNTIME_LEGACY 8
  else
    match parse_release_prefix version_id with
    | None => java_version JAVA_RUNTIME_DELTA 21
    | Some release =>
        match release with
        | major :: minor :: rest =>
            if (major =? 1) && (minor <? 17) then java_version JAVA_RUNTIME_LEGACY 8
            else if (major =? 1) && (minor =? 17) then java_version JAVA_RUNTIME_ALPHA 16
            else if (major =? 1) && (18 <=? minor) && (minor <=? 19) then
              java_version JAVA_RUNTIME_GAMMA 17
            else if (major =? 1) && (minor =? 20) then
              match rest with
              | [] => java_version JAVA_RUNTIME_GAMMA 17
              | patch :: _ =>
                  if patch <? 5 then java_version JAVA_RUNTIME_GAMMA 17
                  else java_version JAVA_RUNTIME_DELTA 21
              end
            else java_version JAVA_RUNTIME_DELTA 21
        | _ => java_version JAVA_RUNTIME_DELTA 21
        end
    end.

Definition effective_java_version_for (version_id raw_kind : string) (declared : JavaVersion) :
    JavaVersion :=
  let inferred := inferred_java_version_for version_id raw_kind in
  let declared_component := trim (component declared) in
  let component_major := java_major_for_component declared_component in
  let major :=
    if 0 <? major_version declared then major_version declared
    else default (major_version inferred) component_major in
  {| component :=
       if is_empty declared_component
       then default (component inferred) (java_component_for_major major)
       else declared_component;
     major_version := major |}.

Definition has_declared_java_version (java : JavaVersion) : bool :=
  negb (is_empty (trim (component java))) || (0 <? major_version java).

Definition merge_java_version (parent child : VersionJson) : JavaVersion :=
  if has_declared_java_version (vj_java_version child) then
    effective_java_version_for (vj_id child) (vj_kind child) (vj_java_version child)
  else vj_java_version parent.

(** ** Merging a description with its parent *)

Definition normalize_asset_index (version : VersionJson) : VersionJson :=
  if is_empty (ai_id (vj_asset_index version)) && negb (is_empty (vj_assets version))
  then set_asset_index version (set_asset_id (vj_asset_index version) (vj_assets version))
  else version.

Definition finalize_effective_version (version : VersionJson) : VersionJson :=
  let version := normalize_asset_index version in
  set_java version
    (effective_java_version_for (vj_id version) (vj_kind version) (vj_java_version version)).

Definition non_empty (preferred fallback : string) : string :=
  if is_empty preferred then fallback else preferred.

Definition prefer {A} (child parent : option A) : option A :=
  match child with Some _ => child | None => parent end.

Definition merge_downloads (parent child : Downloads) : Downloads := {|
  dl_client := prefer (dl_client child) (dl_client parent);
  dl_server := prefer (dl_server child) (dl_server parent);
  dl_client_mappings := prefer (dl_client_mappings child) (dl_client_mappings parent);
  dl_server_mappings := prefer (dl_server_mappings child) (dl_server_mappings parent) |}.

Definition legacy_arguments_as_modern (arguments : string) : list Argument :=
  (λ value, {| arg_rules := []; arg_value := [value] |}) <$> split_whitespace arguments.

Definition game_of (section : option ArgumentsSection) : list Argument :=
  match section with Some args => args_game args | None => [] end.

Definition jvm_of (section : option ArgumentsSection) : list Argument :=
  match section with Some args => args_jvm args | None => [] end.

Definition merge_arguments (parent child : VersionJson) : option ArgumentsSection * string :=
  let uses_modern_arguments :=
    bool_decide (is_Some (vj_arguments parent)) || bool_decide (is_Some (vj_arguments child)) in
  if negb uses_modern_arguments then
    (None,
     if is_empty (vj_minecraft_arguments child) then vj_minecraft_arguments parent
     else vj_minecraft_arguments child)
  else
    (Some {| args_game :=
               legacy_arguments_as_modern (vj_minecraft_arguments parent) ++
               game_of (vj_arguments parent) ++
               legacy_arguments_as_modern (vj_minecraft_arguments child) ++
               game_of (vj_arguments child);
             args_jvm := jvm_of (vj_arguments parent) ++ jvm_of (vj_arguments child) |}, "").

Definition library_has_native_classifier_variants (library : Library) : bool :=
  negb (bool_decide (lib_natives library = ∅)) ||
  match lib_downloads library with
  | Some downloads => negb (bool_decide (ld_classifiers downloads = ∅))
  | None => false
  end.

Definition library_merge_key (name : string) : string :=
  match split_on ":" name with
  | group :: artifact :: rest =>
      let key := group +:+ ":" +:+ artifact in
      match rest with
      | _ :: classifier :: _ => key +:+ ":" +:+ classifier
      | _ => key
      end
  | _ => name
  end.

Record LibraryMerge := {
  lm_seen : gset string;
  lm_unconditional_seen : gset string;
  lm_merged : list Library;
}.

(** The body of the loop. *)
Definition merge_library (st : LibraryMerge) (library : Library) : LibraryMerge :=
  if existsb (λ existing, bool_decide (existing = library)) (lm_merged st) then st
  else
    let key := library_merge_key (lib_name library) in
    let duplicate := bool_decide (key ∈ lm_seen st) in
    let seen := {[key]} ∪ lm_seen st in
    if duplicate && bool_decide (lib_rules library = []) &&
       negb (library_has_native_classifier_variants library) &&
       bool_decide (key ∈ lm_unconditional_seen st)
    then {| lm_seen := seen; lm_unconditional_seen := lm_unconditional_seen st;
            lm_merged := lm_merged st |}
    else {| lm_seen := seen;
            lm_unconditional_seen :=
              if bool_decide (lib_rules library = []) then {[key]} ∪ lm_unconditional_seen st
              else lm_unconditional_seen st;
            lm_merged := lm_merged st ++ [library] |}.

Definition merge_libraries_prefer_first (preferred fallback : list Library) : list Library :=
  lm_merged
    (fold_left merge_library (preferred ++ fallback)
       {| lm_seen := ∅; lm_unconditional_seen := ∅; lm_merged := [] |}).

Definition merge_versions (parent child : VersionJson) : VersionJson :=
  let '(arguments, minecraft_arguments) := merge_arguments parent child in
  normalize_asset_index {|
    vj_id := vj_id child;
    vj_inherits_from := "";
    vj_materialized := false;
    vj_kind := non_empty (vj_kind child) (vj_kind parent);
    vj_main_class := non_empty (vj_main_class child) (vj_main_class parent);
    vj_minimum_launcher_version :=
      if negb (vj_minimum_launcher_version child =? 0) then vj_minimum_launcher_version child
      else vj_minimum_launcher_version parent;
    vj_compliance_level :=
      if negb (vj_compliance_level child =? 0) then vj_compliance_level child
      else vj_compliance_level parent;
    vj_release_time := non_empty (vj_release_time child) (vj_release_time parent);
    vj_time := non_empty (vj_time child) (vj_time parent);
    vj_arguments := arguments;
    vj_minecraft_arguments := minecraft_arguments;
    vj_asset_index :=
      if negb (is_empty (ai_id (vj_asset_index child))) then vj_asset_index child
      else vj_asset_index parent;
    vj_assets := non_empty (vj_assets child) (vj_assets parent);
    vj_downloads := merge_downloads (vj_downloads parent) (vj_downloads child);
    vj_java_version := merge_java_version parent child;
    vj_libraries := merge_libraries_prefer_first (vj_libraries child) (vj_libraries parent);
    vj_logging := prefer (vj_logging child) (vj_logging parent);
  |}.

(** ** Inheritance *)

Section inheritance.
(** The base64 codec, and reading and parsing [versions/<id>/<id>.json]. *)
Variables (b64_encode : string → string) (b64_decode : string → option string).
Variable read_version : string → result LaunchModelError VersionJson.

Definition load_version_json (version_id : string) : result LaunchModelError VersionJson :=
  version ← read_version version_id;
  Ok (normalize_asset_index version).

(** [levels] counts down where the source counts [depth] up: it is the number
    of calls that [depth > 10] still allows, [11 - depth]. *)
Fixpoint resolve_inheritance_with (load : string → result LaunchModelError VersionJson)
    (child : VersionJson) (expected_version_id : string) (levels : nat) :
    result LaunchModelError VersionJson :=
  match levels with
  | O => Err (InheritanceTooDeep (vj_id child))
  | S levels =>
      let reserved_loader_id := is_reserved_installed_loader_id expected_version_id in
      if vj_materialized child || reserved_loader_id then
        if negb (is_ok (validate_materialized_loader_profile b64_encode b64_decode
                          expected_version_id (vj_id child) (vj_inherits_from child)
                          (vj_materialized child)))
        then Err (InvalidMaterializedProfile (vj_id child))
        else Ok (finalize_effective_version (clear_parent child))
      else if is_empty (vj_inherits_from child) then Ok (finalize_effective_version child)
      else
        let parent_id := vj_inherits_from child in
        parent ← map_err (LoadParent (vj_id child) parent_id) (load parent_id);
        parent ←
          (if vj_materialized parent || negb (is_empty (vj_inherits_from parent))
           then resolve_inheritance_with load parent parent_id levels
           else Ok parent);
        Ok (finalize_effective_version (merge_versions parent child))
  end.

(** The deepest call has depth ten. *)
Definition max_levels : nat := 11.

Definition resolve_version (version_id : string) : result LaunchModelError VersionJson :=
  version ← load_version_json version_id;
  let reserved_loader_id := is_reserved_installed_loader_id version_id in
  if is_empty (vj_inherits_from version) && negb (vj_materialized version) &&
     negb reserved_loader_id
  then Ok (finalize_effective_version version)
  else resolve_inheritance_with load_version_json version version_id max_levels.
End inheritance.

(** ** Properties of the merge of libraries *)

Definition key_of (library : Library) : string := library_merge_key (lib_name library).

Definition unconditional (library : Library) : bool := bool_decide (lib_rules library = []).

(** A library that another one of its key can stand for. *)
Definition plain (library : Library) : bool :=
  unconditional library && negb (library_has_native_classifier_variants library).

Definition merge_all (libraries : list Library) : LibraryMerge :=
  fold_left merge_library libraries
    {| lm_seen := ∅; lm_unconditional_seen := ∅; lm_merged := [] |}.

Record MergeInv (input : list Library) (st : LibraryMerge) : Prop := {
  mi_seen : lm_seen st = list_to_set (key_of <$> lm_merged st);
  mi_unconditional :
    lm_unconditional_seen st = list_to_set (key_of <$> filter (λ l, unconditional l = true) (lm_merged st));
  mi_sublist : sublist (lm_merged st) input;
  mi_nodup : NoDup (lm_merged st);
  mi_covers library : library ∈ input →
    library ∈ lm_merged st ∨
    plain library = true ∧ ∃ kept, kept ∈ lm_merged st ∧ unconditional kept = true ∧
      key_of kept = key_of library;
  mi_first before library after :
    lm_merged st = before ++ library :: after → plain library = true →
    ∀ kept, kept ∈ before → unconditional kept = true → key_of kept ≠ key_of library;
}.

Lemma existsb_eq_elem (l : list Library) x : existsb (λ y, bool_decide (y = x)) l = true ↔ x ∈ l.
Proof.
  rewrite existsb_exists. split.
  - intros (y & Hy & ->%bool_decide_eq_true). by apply list_elem_of_In.
  - intros Hx. exists x. split; [by apply list_elem_of_In|by apply bool_decide_eq_true].
Qed.

(** Whether the loop drops a library it has not kept already. *)
Lemma merge_library_cases st input library :
  MergeInv input st →
  (library ∈ lm_merged st ∧ merge_library st library = st) ∨
  (library ∉ lm_merged st ∧ plain library = true ∧ key_of library ∈ lm_unconditional_seen st ∧
   merge_library st library = st) ∨
  (library ∉ lm_merged st ∧
   (plain library = true → key_of library ∉ lm_unconditional_seen st) ∧
   merge_library st library =
     {| lm_seen := {[key_of library]} ∪ lm_seen st;
        lm_unconditional_seen :=
          if unconditional library then {[key_of library]} ∪ lm_unconditional_seen st
          else lm_unconditional_seen st;
        lm_merged := lm_merged st ++ [library] |}).
Proof.
  intros Hi. unfold merge_library. fold (key_of library). fold (unconditional library).
  destruct (existsb _ (lm_merged st)) eqn:E.
  { apply existsb_eq_elem in E. by left. }
  assert (library ∉ lm_merged st) as Hn by (intros H; apply existsb_eq_elem in H; congruence).
  right. destruct (decide (key_of library ∈ lm_unconditional_seen st)) as [Hu|Hu].
  - assert (key_of library ∈ lm_seen st) as Hs.
    { rewrite (mi_unconditional _ _ Hi) in Hu. rewrite (mi_seen _ _ Hi).
      apply elem_of_list_to_set, list_elem_of_fmap in Hu as (y & -> & Hy).
      apply list_elem_of_filter in Hy as [_ Hy].
      apply elem_of_list_to_set. by apply list_elem_of_fmap_2. }
    rewrite (bool_decide_eq_true_2 _ Hs), (bool_decide_eq_true_2 _ Hu), andb_true_r. cbn [andb].
    fold (plain library). destruct (plain library) eqn:Hp.
    + left. split_and!; try done. destruct st as [seen unc merged]. f_equal.
      simpl in Hs. simpl. apply set_eq. set_solver.
    + right. split_and!; [done|done|done].
  - right. rewrite (bool_decide_eq_false_2 _ Hu), andb_false_r. done.
Qed.

Lemma merge_library_inv input st library :
  MergeInv input st → MergeInv (input ++ [library]) (merge_library st library).
Proof.
  intros Hi. destruct (merge_library_cases st input library Hi)
    as [[Hin ->]|[(Hn & Hp & Hu & ->)|(Hn & Hu & ->)]].
  - destruct Hi as [H1 H2 H3 H4 H5 H6]. split; try done.
    + by apply sublist_inserts_r.
    + intros l [Hl|Hl]%elem_of_app; [by apply H5|]. apply list_elem_of_singleton in Hl as ->. by left.
  - destruct Hi as [H1 H2 H3 H4 H5 H6]. split; try done.
    + by apply sublist_inserts_r.
    + intros l [Hl|Hl]%elem_of_app; [by apply H5|]. apply list_elem_of_singleton in Hl as ->. right.
      split; [done|]. rewrite H2 in Hu.
      apply elem_of_list_to_set, list_elem_of_fmap in Hu as (y & Hk & Hy).
      apply list_elem_of_filter in Hy as [Hy1 Hy2]. by exists y.
  - destruct Hi as [H1 H2 H3 H4 H5 H6]. split; cbn [lm_merged lm_seen lm_unconditional_seen].
    + rewrite H1, fmap_app, list_to_set_app_L. apply set_eq. set_solver.
    + rewrite list.filter_app, fmap_app, list_to_set_app_L, <-H2. cbn [filter list_filter].
      destruct (unconditional library); simpl; apply set_eq; set_solver.
    + by apply sublist_app.
    + apply list.NoDup_app. split_and!; [done| |apply list.NoDup_singleton].
      intros y Hy ->%list_elem_of_singleton. done.
    + intros l [Hl|Hl]%elem_of_app.
      * destruct (H5 l Hl) as [?|(? & kept & ? & ? & ?)]; [left; set_solver|right].
        split; [done|]. exists kept. set_solver.
      * left. apply elem_of_app. by right.
    + intros before l after E Hp kept Hk Huk Heq.
      destruct after as [|l' after _] using rev_ind.
      * apply app_inj_tail in E as [<- <-]. apply (Hu Hp). rewrite H2, <-Heq.
        apply elem_of_list_to_set, list_elem_of_fmap_2. by apply list_elem_of_filter.
      * rewrite app_comm_cons, app_assoc in E. apply app_inj_tail in E as [E _].
        by apply (H6 before l after E Hp kept).
Qed.

Lemma merge_all_inv libraries : MergeInv libraries (merge_all libraries).
Proof.
  unfold merge_all. induction libraries as [|library libraries IH] using rev_ind.
  - split; try done; simpl; [constructor|by intros ? ?%elem_of_nil|].
    by intros [] ? ? ?.
  - rewrite fold_left_app. by apply merge_library_inv.
Qed.

Lemma merge_all_id libraries :
  NoDup libraries →
  (∀ before library after, libraries = before ++ library :: after → plain library = true →
     ∀ kept, kept ∈ before → unconditional kept = true → key_of kept ≠ key_of library) →
  lm_merged (merge_all libraries) = libraries.
Proof.
  induction libraries as [|library libraries IH] using rev_ind; [done|]. intros Hnd Hf.
  apply list.NoDup_app in Hnd as (Hnd & Hnew & _).
  assert (lm_merged (merge_all libraries) = libraries) as E.
  { apply IH; [done|]. intros before l after E. apply (Hf before l (after ++ [library])).
    by rewrite E, <-app_assoc. }
  pose proof (merge_all_inv libraries) as Hi. unfold merge_all in *. rewrite fold_left_app.
  cbn [fold_left]. set (st := fold_left _ libraries _) in *.
  destruct (merge_library_cases st libraries library Hi) as [[Hin _]|[(Hn & Hp & Hu & _)|(_ & _ & ->)]].
  - rewrite E in Hin. destruct (Hnew library Hin). by left.
  - exfalso. rewrite (mi_unconditional _ _ Hi), E in Hu.
    apply elem_of_list_to_set, list_elem_of_fmap in Hu as (y & Hk & Hy).
    apply list_elem_of_filter in Hy as [Hy1 Hy2].
    by apply (Hf libraries library [] eq_refl Hp y).
  - simpl. by rewrite E.
Qed.

(** The merge keeps every library that nothing else provides.  The result
    lists libraries of the input in their order, none twice; a library is left
    out only if it is equal to a kept one, or if it is plain and an
    unconditional library of the same group, artifact and classifier is kept;
    and no plain library follows an unconditional one of its key, so that the
    preferred list wins.  Merging again changes nothing. *)
Theorem merge_libraries_spec preferred fallback :
  let merged := merge_libraries_prefer_first preferred fallback in
  sublist merged (preferred ++ fallback) ∧ NoDup merged ∧
  (∀ library, library ∈ preferred ++ fallback →
     library ∈ merged ∨
     plain library = true ∧ ∃ kept, kept ∈ merged ∧ unconditional kept = true ∧
       key_of kept = key_of library) ∧
  (∀ before library after, merged = before ++ library :: after → plain library = true →
     ∀ kept, kept ∈ before → unconditional kept = true → key_of kept ≠ key_of library) ∧
  merge_libraries_prefer_first merged [] = merged.
Proof.
  intros merged. pose proof (merge_all_inv (preferred ++ fallback)) as [_ _ H3 H4 H5 H6].
  split_and!; [done|done|done|done|]. unfold merge_libraries_prefer_first. rewrite app_nil_r.
  by apply merge_all_id.
Qed.

(** ** Properties of inheritance *)

Lemma component_major_pos c m : java_major_for_component c = Some m → 0 < m.
Proof. unfold java_major_for_component. intros H. repeat case_match; simplify_eq; lia. Qed.

Lemma inferred_pos id kind :
  0 < major_version (inferred_java_version_for id kind) ∧
  is_empty (component (inferred_java_version_for id kind)) = false ∧
  trim (component (inferred_java_version_for id kind)) = component (inferred_java_version_for id kind).
Proof. unfold inferred_java_version_for. repeat case_match; simpl; by vm_compute. Qed.

Lemma component_for_major_ok m c :
  java_component_for_major m = Some c → is_empty c = false ∧ trim c = c.
Proof. unfold java_component_for_major. intros H. repeat case_match; simplify_eq; by vm_compute. Qed.

(** What a settled Java version looks like. *)
Lemma effective_java_ok id kind d :
  let j := effective_java_version_for id kind d in
  0 < major_version j ∧ is_empty (component j) = false ∧ trim (component j) = component j.
Proof.
  destruct (inferred_pos id kind) as (Hm & Hc & Ht). unfold effective_java_version_for. simpl. split.
  - destruct (Z.ltb_spec 0 (major_version d)); [done|].
    destruct (java_major_for_component _) as [m|] eqn:E; simpl; [by eapply component_major_pos|done].
  - destruct (is_empty (trim (component d))) eqn:E; [|by rewrite trim_idemp].
    destruct (java_component_for_major _) as [c|] eqn:Ec; simpl; [|done].
    by eapply component_for_major_ok.
Qed.

Lemma effective_java_idemp id kind d :
  effective_java_version_for id kind (effective_java_version_for id kind d) =
  effective_java_version_for id kind d.
Proof.
  destruct (effective_java_ok id kind d) as (Hm & Hc & Ht).
  set (j := effective_java_version_for id kind d) in *. unfold effective_java_version_for.
  rewrite Ht, Hc, (proj2 (Z.ltb_lt _ _) Hm). by destruct j.
Qed.

Lemma normalize_spec v :
  let v' := normalize_asset_index v in
  vj_id v' = vj_id v ∧ vj_inherits_from v' = vj_inherits_from v ∧
  vj_materialized v' = vj_materialized v ∧ vj_kind v' = vj_kind v ∧
  vj_java_version v' = vj_java_version v ∧ normalize_asset_index v' = v'.
Proof.
  unfold normalize_asset_index.
  destruct (is_empty (ai_id (vj_asset_index v)) && negb (is_empty (vj_assets v))) eqn:E; simpl.
  - apply andb_true_iff in E as [_ E]. apply negb_true_iff in E. rewrite E. done.
  - by rewrite E.
Qed.

Lemma normalize_set_java v j : normalize_asset_index (set_java v j) = set_java (normalize_asset_index v) j.
Proof. unfold normalize_asset_index. simpl. by case_match. Qed.

(** A description that needs no further work. *)
Definition settled (v : VersionJson) : Prop :=
  vj_inherits_from v = "" ∧ vj_materialized v = false ∧ finalize_effective_version v = v.

Lemma finalize_settled v :
  vj_inherits_from v = "" → vj_materialized v = false →
  settled (finalize_effective_version v) ∧ vj_id (finalize_effective_version v) = vj_id v.
Proof.
  intros Hi Hm. unfold settled, finalize_effective_version.
  destruct (normalize_spec v) as (H1 & H2 & H3 & H4 & H5 & H6).
  set (v' := normalize_asset_index v) in *. simpl. split_and!; [congruence|congruence| |done].
  rewrite normalize_set_java, H6. simpl. rewrite effective_java_idemp. done.
Qed.

Lemma merge_versions_fields parent child :
  vj_id (merge_versions parent child) = vj_id child ∧
  vj_inherits_from (merge_versions parent child) = "" ∧
  vj_materialized (merge_versions parent child) = false.
Proof.
  unfold merge_versions. destruct (merge_arguments parent child) as [args margs].
  match goal with |- context [normalize_asset_index ?x] =>
    destruct (normalize_spec x) as (-> & -> & -> & _) end. done.
Qed.

Section resolution.
Context (b64_encode : string → string) (b64_decode : string → option string).


(** C12: Resolving a version, however its parents are read, ends with a
    description that stands alone: it has the child's identity, inherits from
    nothing, and is settled (its Java version and asset index are complete:
    finalizing it again changes nothing). *)
Theorem resolved_version_settled load child expected levels v :
  resolve_inheritance_with b64_encode b64_decode load child expected levels = Ok v →
  settled v ∧ vj_id v = vj_id child ∧ 0 < major_version (vj_java_version v) ∧
  component (vj_java_version v) ≠ "".
Proof.
  intros H.
  assert (∃ x, v = finalize_effective_version x ∧ vj_id x = vj_id child ∧
            vj_inherits_from x = "" ∧ vj_materialized x = false) as (x & -> & Hid & Hi & Hm).
  { destruct levels as [|levels]; simpl in H; [done|].
    destruct (vj_materialized child || _) eqn:Eres.
    - case_match; [done|]. injection H as <-. by exists (clear_parent child).
    - apply orb_false_iff in Eres as [Em _]. destruct (is_empty (vj_inherits_from child)) eqn:Ei.
      + injection H as <-. exists child. apply is_empty_spec in Ei. done.
      + apply bind_ok in H as (parent & _ & (parent' & _ & [= <-])%bind_ok).
        exists (merge_versions parent' child). destruct (merge_versions_fields parent' child) as (? & ? & ?).
        done. }
  destruct (finalize_settled x Hi Hm) as [Hs Hx]. split_and!; [done|congruence| |].
  - unfold finalize_effective_version. simpl. apply effective_java_ok.
  - unfold finalize_effective_version. cbn [vj_java_version set_java].
    match goal with |- context [effective_java_version_for ?a ?b ?c] =>
      destruct (effective_java_ok a b c) as (_ & Hc & _) end.
    by apply is_empty_false.
Qed.

(** A cycle of parents is refused.  If following [inheritsFrom] never
    leaves a set of descriptions that all name a parent, no number of levels
    makes the resolution succeed: it ends with [InheritanceTooDeep]. *)
Theorem inheritance_cycle_refused load (inside : string → Prop) child expected levels :
  (∀ id, inside id → ∃ v, load id = Ok v ∧ inside (vj_inherits_from v)) →
  (∀ id v, inside id → load id = Ok v →
     vj_materialized v = false ∧ vj_inherits_from v ≠ "") →
  (∀ id, inside id → is_reserved_installed_loader_id id = false) →
  inside (vj_inherits_from child) → vj_inherits_from child ≠ "" →
  vj_materialized child = false → is_reserved_installed_loader_id expected = false →
  ∃ id, resolve_inheritance_with b64_encode b64_decode load child expected levels =
    Err (InheritanceTooDeep id).
Proof.
  intros Hload Hplain Hres. revert child expected.
  induction levels as [|levels IH]; intros child expected Hin Hne Hm He; [by exists (vj_id child)|].
  simpl. rewrite Hm, He. simpl. apply is_empty_false in Hne. rewrite Hne.
  destruct (Hload _ Hin) as (parent & Hl & Hpin). rewrite Hl. simpl.
  destruct (Hplain _ _ Hin Hl) as [Hpm Hpne].
  rewrite Hpm, (proj2 (is_empty_false _) Hpne). simpl.
  destruct (IH parent (vj_inherits_from child) Hpin Hpne Hpm (Hres _ Hin)) as [id ->].
  by exists id.
Qed.
End resolution.

(** ** Samples *)

Definition no_asset_index : AssetIndex :=
  {| ai_id := ""; ai_sha1 := ""; ai_size := 0; ai_total_size := 0; ai_url := "" |}.

Definition no_downloads : Downloads :=
  {| dl_client := None; dl_server := None; dl_client_mappings := None; dl_server_mappings := None |}.

(** A description that names its parent and nothing else. *)
Definition sample_version (id inherits_from : string) : VersionJson := {|
  vj_id := id; vj_inherits_from := inherits_from; vj_materialized := false; vj_kind := "release";
  vj_main_class := ""; vj_minimum_launcher_version := 0; vj_compliance_level := 0;
  vj_release_time := ""; vj_time := ""; vj_arguments := None; vj_minecraft_arguments := "";
  vj_asset_index := no_asset_index; vj_assets := ""; vj_downloads := no_downloads;
  vj_java_version := {| component := ""; major_version := 0 |}; vj_libraries := [];
  vj_logging := None |}.

Definition sample_read (id : string) : result LaunchModelError VersionJson :=
  if str_eqb id "1.7.10" then Ok (sample_version id "")
  else if str_eqb id "forge-1.7.10" then Ok (sample_version id "1.7.10")
  else if str_eqb id "loop" then Ok (sample_version id "loop")
  else Err (ReadVersion id "not found").

Lemma resolved_version_settled_witness :
  ∃ v, resolve_version (λ s, s) Some sample_read "forge-1.7.10" = Ok v ∧ settled v.
Proof.
  destruct (resolve_inheritance_with (λ s, s) Some (load_version_json sample_read)
              (sample_version "forge-1.7.10" "1.7.10") "forge-1.7.10" max_levels) as [v|e] eqn:E;
    [|vm_compute in E; discriminate E].
  exists v. split.
  - rewrite <-E. vm_compute. reflexivity.
  - exact (proj1 (resolved_version_settled (λ s, s) Some _ _ _ _ v E)).
Defined.

Lemma inheritance_cycle_refused_witness :
  ∃ id, resolve_inheritance_with (λ s, s) Some (load_version_json sample_read)
          (sample_version "child" "loop") "child" max_levels = Err (InheritanceTooDeep id).
Proof.
  apply (inheritance_cycle_refused (λ s, s) Some (load_version_json sample_read) (λ id, id = "loop")).
  - intros id ->. exists (sample_version "loop" "loop"). split; reflexivity.
  - intros id v -> H. vm_compute in H. injection H as <-. done.
  - intros id ->. vm_compute. reflexivity.
  - reflexivity.
  - done.
  - reflexivity.
  - vm_compute. reflexivity.
Defined.

(** When neither a profile nor its parent declares a Java version, it is
    inferred from the profile's own name: a profile over [1.7.10] gets Java 21,
    although [1.7.10] itself runs on Java 8. *)
Theorem inherited_java_ignores_parent :
  vj_java_version <$> resolve_version (λ s, s) Some sample_read "1.7.10" =
    Ok (java_version JAVA_RUNTIME_LEGACY 8) ∧
  vj_java_version <$> resolve_version (λ s, s) Some sample_read "forge-1.7.10" =
    Ok (java_version JAVA_RUNTIME_DELTA 21).
Proof. split; vm_compute; reflexivity. Qed.
