(* ===== verification/McCompose.v ===== *)
(** * Loader profiles ([core/minecraft/src/loaders/compose.rs])

    The description of an installed loader version, composed from the vanilla
    one and the loader's fragment, and how the launcher later resolves it. *)

From S2P Require Import Prelude RustStr McPortablePath McLoaderIdentity McRules McLaunch.

(** ** Data *)

Record LoaderProfileFragment := {
  fr_id : string;
  fr_inherits_from : string;
  fr_kind : string;
  fr_main_class : string;
  fr_minimum_launcher_version : Z;
  fr_compliance_level : Z;
  fr_release_time : string;
  fr_time : string;
  fr_arguments : option ArgumentsSection;
  fr_minecraft_arguments : string;
  fr_asset_index : option AssetIndex;
  fr_assets : string;
  fr_downloads : option Downloads;
  fr_java_version : option JavaVersion;
  fr_libraries : list Library;
  fr_logging : option LoggingConf;
}.

Section compose.
Context `{UnicodeNorm}.

(** ** Operations *)

Definition validate_version_id_shape (version_id context : string) : result string unit :=
  let trimmed := trim version_id in
  err_if (is_empty trimmed) (context +:+ " is empty") ;;
  err_if (negb (str_eqb version_id trimmed)) (context +:+ " contains surrounding whitespace") ;;
  err_if (MAX_VERSION_ID_BYTES <? str_len version_id) (context +:+ " is too long") ;;
  err_if (negb (is_ok (file_name_new_exact version_id)) ||
          negb (is_ok (file_name_new_exact (version_id +:+ ".json"))))
    (context +:+ " is not a portable path segment").

Definition validate_version_id (version_id context : string) : result LoaderError unit :=
  map_err InstallExecutionFailed (validate_version_id_shape version_id context).

Definition merge_fragment_arguments (base fragment : option ArgumentsSection) :
    option ArgumentsSection :=
  match base, fragment with
  | None, None => None
  | _, _ => Some {| args_game := game_of base ++ game_of fragment;
                    args_jvm := jvm_of base ++ jvm_of fragment |}
  end.

Definition compose_loader_version (base : VersionJson) (base_version_id version_id : string)
    (fragment : LoaderProfileFragment) : result LoaderError VersionJson :=
  validate_version_id base_version_id "base minecraft version id" ;;
  validate_version_id version_id "installed loader version id" ;;
  err_if (negb (str_eqb (vj_id base) base_version_id) || negb (is_empty (vj_inherits_from base)) ||
          vj_materialized base)
    (InvalidProfile "authenticated base identity does not match loader profile") ;;
  let composed := {|
    vj_id := version_id;
    vj_inherits_from := base_version_id;
    vj_materialized := true;
    vj_kind := non_empty (fr_kind fragment) (vj_kind base);
    vj_main_class := non_empty (fr_main_class fragment) (vj_main_class base);
    vj_minimum_launcher_version :=
      if negb (fr_minimum_launcher_version fragment =? 0) then fr_minimum_launcher_version fragment
      else vj_minimum_launcher_version base;
    vj_compliance_level :=
      if negb (fr_compliance_level fragment =? 0) then fr_compliance_level fragment
      else vj_compliance_level base;
    vj_release_time := non_empty (fr_release_time fragment) (vj_release_time base);
    vj_time := non_empty (fr_time fragment) (vj_time base);
    vj_arguments := merge_fragment_arguments (vj_arguments base) (fr_arguments fragment);
    vj_minecraft_arguments :=
      non_empty (fr_minecraft_arguments fragment) (vj_minecraft_arguments base);
    vj_asset_index := default (vj_asset_index base) (fr_asset_index fragment);
    vj_assets := non_empty (fr_assets fragment) (vj_assets base);
    vj_downloads := default (vj_downloads base) (fr_downloads fragment);
    vj_java_version := default (vj_java_version base) (fr_java_version fragment);
    vj_libraries := merge_libraries_prefer_first (fr_libraries fragment) (vj_libraries base);
    vj_logging := prefer (fr_logging fragment) (vj_logging base) |} in
  Ok (normalize_asset_index composed).

(** ** Properties *)

Section laws.
Context (b64_encode : string → string) (b64_decode : string → option string).
Hypothesis b64_roundtrip : ∀ payload, b64_decode (b64_encode payload) = Some payload.

Lemma compose_fields base base_id id fragment v :
  compose_loader_version base base_id id fragment = Ok v →
  vj_id v = id ∧ vj_inherits_from v = base_id ∧ vj_materialized v = true ∧
  vj_libraries v = merge_libraries_prefer_first (fr_libraries fragment) (vj_libraries base) ∧
  normalize_asset_index v = v.
Proof.
  unfold compose_loader_version. intros [_ [_ [_ [= <-]]%bind_ok_unit]%bind_ok_unit]%bind_ok_unit.
  match goal with |- context [normalize_asset_index ?x] =>
    destruct (normalize_spec x) as (-> & -> & -> & _ & _ & ->);
    assert (vj_libraries (normalize_asset_index x) = vj_libraries x) as ->
      by (unfold normalize_asset_index; by case_match)
  end. done.
Qed.

(** C34: What is installed can be launched.  A profile composed under the
    canonical identifier of its component and versions resolves, at any depth
    and without reading its parent, to itself with the Java version completed:
    it names the same libraries, and stands alone. *)
Theorem composed_profile_resolves load base base_id id fragment v component loader levels :
  valid_utf8 base_id = true → valid_utf8 loader = true →
  installed_version_id_for b64_encode component base_id loader = Ok id →
  compose_loader_version base base_id id fragment = Ok v →
  ∃ r, resolve_inheritance_with b64_encode b64_decode load v id (S levels) = Ok r ∧
    settled r ∧ vj_id r = id ∧ vj_libraries r = vj_libraries v ∧
    r = set_java (clear_parent v)
          (effective_java_version_for id (vj_kind v) (vj_java_version v)).
Proof.
  intros Hu1 Hu2 Hid Hv. destruct (compose_fields _ _ _ _ _ Hv) as (Hvid & Hvp & Hvm & _ & Hn).
  assert (decode_installed_version_id b64_encode b64_decode id =
    Ok {| component_id := component; minecraft_version := base_id; loader_version := loader |}) as Hd.
  { by apply (installed_version_id_decodes b64_encode b64_decode b64_roundtrip). }
  assert (normalize_asset_index (clear_parent v) = clear_parent v) as Hn'.
  { unfold normalize_asset_index in *. simpl. case_match; [|done].
    destruct v. simpl in *. unfold set_asset_index in *. simpl in *. by injection Hn as ->. }
  exists (finalize_effective_version (clear_parent v)).
  destruct (finalize_settled (clear_parent v) eq_refl eq_refl) as [Hs Hsid].
  split_and!; [|done|by rewrite Hsid| |].
  - simpl. rewrite Hvm. simpl. unfold validate_materialized_loader_profile. rewrite Hd. simpl.
    by rewrite Hvid, Hvp, !(proj2 (str_eqb_spec _ _) eq_refl).
  - unfold finalize_effective_version. by rewrite Hn'.
  - unfold finalize_effective_version. rewrite Hn'. simpl. by rewrite Hvid.
Qed.
End laws.
End compose.

(** ** Sample *)

Definition sample_fragment : LoaderProfileFragment := {|
  fr_id := "fabric"; fr_inherits_from := "1.21.5"; fr_kind := ""; fr_main_class := "Knot";
  fr_minimum_launcher_version := 0; fr_compliance_level := 0; fr_release_time := "";
  fr_time := ""; fr_arguments := None; fr_minecraft_arguments := ""; fr_asset_index := None;
  fr_assets := ""; fr_downloads := None; fr_java_version := None; fr_libraries := [];
  fr_logging := None |}.

Definition sample_id : string :=
  INSTALLED_VERSION_ID_PREFIX +:+ letters_encode (installed_payload Fabric "1.21.5" "0.16.14").

Lemma composed_profile_resolves_witness :
  let _ := plain_norm in
  ∃ v r, compose_loader_version (sample_version "1.21.5" "") "1.21.5" sample_id sample_fragment = Ok v ∧
    resolve_inheritance_with letters_encode letters_decode
      (λ id, Err (ReadVersion id "not read")) v sample_id max_levels = Ok r ∧ vj_id r = sample_id.
Proof.
  intros norm.
  destruct (compose_loader_version (sample_version "1.21.5" "") "1.21.5" sample_id sample_fragment)
    as [v|e] eqn:E; [|vm_compute in E; discriminate E].
  exists v.
  destruct (composed_profile_resolves letters_encode letters_decode letters_roundtrip
    (λ id, Err (ReadVersion id "not read")) (sample_version "1.21.5" "") "1.21.5" sample_id
    sample_fragment v Fabric "0.16.14" 10) as (r & Hr & _ & Hid & _).
  - reflexivity.
  - reflexivity.
  - vm_compute. reflexivity.
  - exact E.
  - exists r. split; [reflexivity|]. split; [exact Hr|exact Hid].
Defined.
