(* ===== verification/McCommand.v ===== *)
(** * The launch command ([core/minecraft/src/launch/mod.rs])

    The libraries, the class path and the arguments of a version, on a Unix
    build.  A path is its text.  A [HashMap] is iterated in an order that the
    standard library leaves open: [order] is a list of the entries of the
    variables in the order one map yields them. *)

From S2P Require Import Prelude RustStr McPortablePath McRules McLaunch.

(** ** Data *)

Record ResolvedLibrary := { abs_path : string; is_native : bool; res_name : string }.

Record LaunchVars := {
  auth_player_name : string;
  version_name : string;
  game_directory : string;
  assets_root : string;
  asset_index_name : string;
  auth_uuid : string;
  auth_access_token : string;
  client_id : string;
  auth_xuid : string;
  user_type : string;
  version_type : string;
  launcher_name : string;
  launcher_version : string;
  natives_directory : string;
  classpath : string;
  library_directory : string;
  classpath_separator : string;
  resolution_width : string;
  resolution_height : string;
  game_assets : string;
}.

Inductive LaunchPathError := Unsupported.

(** ** Paths *)

Definition libraries_dir (mc_dir : string) : string := path_join mc_dir "libraries".
Definition versions_dir (mc_dir : string) : string := path_join mc_dir "versions".

(** What [Path]'s equality and hash look at: whether it is absolute and its
    components; a leading [.] counts. *)
Definition path_key (path : string) : bool * list string :=
  let parts := split_on "/" path in
  let normal := List.filter (λ part, negb (is_empty part) && negb (str_eqb part ".")) parts in
  (starts_with "/" path,
   if str_eqb (hd "" parts) "." then "." :: normal else normal).

Definition java_path_argument (path : string) : result LaunchPathError string :=
  if valid_utf8 path && negb (existsb is_control (chars path)) then Ok path else Err Unsupported.

(** The body of the loop of [build_classpath]. *)
Definition classpath_entry (st : gset (bool * list string) * list string) (path : string) :
    result LaunchPathError (gset (bool * list string) * list string) :=
  let '(seen, parts) := st in
  if bool_decide (path_key path ∈ seen) then Ok st
  else
    encoded ← java_path_argument path;
    err_if (is_empty encoded || contains ":" encoded) Unsupported ;;
    Ok ({[path_key path]} ∪ seen, parts ++ [encoded]).

Definition build_classpath (libraries : list ResolvedLibrary) (client_jar_path : option string) :
    result LaunchPathError string :=
  '(_, parts) ← try_fold classpath_entry (∅, [])
                  ((abs_path <$> libraries) ++ option_list client_jar_path);
  Ok (str_join ":" parts).

Definition client_jar_path (mc_dir : string) (version : VersionJson)
    (requested_version_id : string) : string :=
  let version_id := if is_empty (vj_id version) then requested_version_id else vj_id version in
  path_join (path_join (versions_dir mc_dir) version_id) (version_id +:+ ".jar").

(** The text before the last [@], and the extension after it. *)
Definition split_extension (coordinate : string) : string * string :=
  match reverse (split_on "@" coordinate) with
  | raw :: ((_ :: _) as before) =>
      let raw_extension := trim_start_matches (char_in ["."]) (trim raw) in
      (str_join "@" (reverse before), if is_empty raw_extension then "jar" else raw_extension)
  | _ => (coordinate, "jar")
  end.

Definition maven_to_path (coordinate : string) : string :=
  let '(coordinate, extension) := split_extension coordinate in
  match split_on ":" coordinate with
  | group :: artifact :: version :: rest =>
      let group := str_replace group "." "/" in
      let filename := artifact +:+ "-" +:+ version +:+
        match rest with classifier :: _ => "-" +:+ classifier | [] => "" end +:+ "." +:+ extension in
      path_join (path_join (path_join group artifact) version) filename
  | _ => ""
  end.

(** ** Libraries *)

(** The values not seen before, in order. *)
Definition push_candidate (candidates : list string) (variant : string) : list string :=
  if negb (is_empty variant) && negb (bool_decide (variant ∈ candidates))
  then candidates ++ [variant] else candidates.

Definition native_classifier_candidates (base_classifier os_arch : string) : list string :=
  let variants :=
    if str_eqb os_arch "x86_64" then
      [str_replace base_classifier "${arch}" "64"; str_replace base_classifier "-${arch}" "";
       str_replace base_classifier "${arch}" "x86_64"]
    else if str_eqb os_arch "x86" then
      [str_replace base_classifier "${arch}" "32"; str_replace base_classifier "${arch}" "x86"]
    else if str_eqb os_arch "arm64" then
      [str_replace base_classifier "${arch}" "arm64"; str_replace base_classifier "${arch}" "64"]
    else [str_replace base_classifier "${arch}" os_arch] in
  fold_left push_candidate variants [].

Definition native_name_matches_env (name : string) (env : Environment) : bool :=
  let lower := to_ascii_lowercase name in
  let on os arch := str_eqb (os_name env) os && str_eqb (os_arch env) arch in
  if negb (contains "natives-" lower) then true
  else if contains "windows-arm64" lower then on "windows" "arm64"
  else if contains "windows-x86" lower then on "windows" "x86"
  else if contains "natives-windows" lower then on "windows" "x86_64"
  else if contains "macos-arm64" lower || contains "osx-arm64" lower then on "osx" "arm64"
  else if contains "natives-macos" lower || contains "natives-osx" lower then on "osx" "x86_64"
  else if contains "linux-arm64" lower then on "linux" "arm64"
  else if contains "linux-x86" lower then on "linux" "x86"
  else if contains "natives-linux" lower then on "linux" "x86_64"
  else true.

Definition resolve_legacy_natives (lib : Library) (lib_dir : string) (env : Environment) :
    list ResolvedLibrary :=
  match lib_natives lib !! os_name env with
  | None => []
  | Some base_classifier =>
      let candidates := native_classifier_candidates base_classifier (os_arch env) in
      let artifact_of classifier_key :=
        downloads ← lib_downloads lib; ld_classifiers downloads !! classifier_key in
      match List.find (λ key, bool_decide (is_Some (artifact_of key))) candidates with
      | Some classifier_key =>
          match artifact_of classifier_key with
          | Some artifact =>
              [{| abs_path := path_join lib_dir (la_path artifact); is_native := true;
                  res_name := lib_name lib +:+ ":" +:+ classifier_key |}]
          | None => []
          end
      | None =>
          match candidates with
          | [] => []
          | classifier_key :: _ =>
              let maven_path := maven_to_path (lib_name lib +:+ ":" +:+ classifier_key) in
              if is_empty maven_path then []
              else [{| abs_path := path_join lib_dir maven_path; is_native := true;
                       res_name := lib_name lib +:+ ":" +:+ classifier_key |}]
          end
      end
  end.

Record LibraryScan := {
  seen_libraries : gset string;
  seen_native_libraries : gset string;
  resolved : list ResolvedLibrary;
}.

Definition push_native (st : LibraryScan) (native : ResolvedLibrary) : LibraryScan :=
  if bool_decide (res_name native ∈ seen_native_libraries st) then st
  else {| seen_libraries := seen_libraries st;
          seen_native_libraries := {[res_name native]} ∪ seen_native_libraries st;
          resolved := resolved st ++ [native] |}.

Section launch.
Variable regex_match : string → string → option bool.

(** The body of the loop of [resolve_libraries]. *)
Definition resolve_library (lib_dir : string) (env : Environment) (st : LibraryScan)
    (lib : Library) : LibraryScan :=
  let native := is_native_library (lib_name lib) in
  if negb (evaluate_rules regex_match (lib_rules lib) env) then st
  else if native && negb (native_name_matches_env (lib_name lib) env) then st
  else
    let has_natives := negb (bool_decide (lib_natives lib = ∅)) in
    let st :=
      if has_natives then fold_left push_native (resolve_legacy_natives lib lib_dir env) st else st in
    let natives_only :=
      match lib_downloads lib with
      | Some downloads => bool_decide (ld_artifact downloads = None)
      | None => false
      end in
    if has_natives && natives_only then st
    else
      let key := library_merge_key (lib_name lib) in
      if bool_decide (key ∈ seen_libraries st) then st
      else
        let push path := {|
          seen_libraries := {[key]} ∪ seen_libraries st;
          seen_native_libraries := seen_native_libraries st;
          resolved := resolved st ++
            match path with
            | Some path =>
                [{| abs_path := path_join lib_dir path; is_native := native;
                    res_name := lib_name lib |}]
            | None => []
            end |} in
        match lib_downloads lib ≫= ld_artifact with
        | Some artifact => push (Some (la_path artifact))
        | None =>
            let maven_path := maven_to_path (lib_name lib) in
            push (if is_empty maven_path then None else Some maven_path)
        end.

Definition resolve_libraries (version : VersionJson) (mc_dir : string) (env : Environment) :
    list ResolvedLibrary :=
  resolved
    (fold_left (resolve_library (libraries_dir mc_dir) env) (vj_libraries version)
       {| seen_libraries := ∅; seen_native_libraries := ∅; resolved := [] |}).

(** ** Arguments *)

Definition game_assets_dir (self : LaunchVars) : string :=
  if is_empty (game_assets self) then assets_root self else game_assets self.

(** The entries inserted by [build_var_map]; the keys are distinct. *)
Definition var_entries (self : LaunchVars) : list (string * string) :=
  [("auth_player_name", auth_player_name self); ("version_name", version_name self);
   ("game_directory", game_directory self); ("assets_root", assets_root self);
   ("assets_index_name", asset_index_name self); ("auth_uuid", auth_uuid self);
   ("auth_access_token", auth_access_token self);
   ("auth_session", "token:" +:+ auth_access_token self +:+ ":" +:+ auth_uuid self);
   ("clientid", client_id self); ("auth_xuid", auth_xuid self); ("user_type", user_type self);
   ("version_type", version_type self); ("launcher_name", launcher_name self);
   ("launcher_version", launcher_version self); ("natives_directory", natives_directory self);
   ("classpath", classpath self); ("library_directory", library_directory self);
   ("classpath_separator", classpath_separator self); ("resolution_width", resolution_width self);
   ("resolution_height", resolution_height self); ("game_assets", game_assets_dir self);
   ("user_properties", "{}")].

Definition build_var_map (self : LaunchVars) : gmap string string :=
  list_to_map (var_entries self).

Definition placeholder (key : string) : string := "${" +:+ key +:+ "}".

Definition substitute_vars (input : string) (order : list (string * string)) : string :=
  fold_left (λ output entry, str_replace output (placeholder entry.1) entry.2) order input.

Definition resolve_arg_list (args : list Argument) (env : Environment)
    (order : list (string * string)) : list string :=
  concat ((λ arg,
    if evaluate_rules regex_match (arg_rules arg) env
    then (λ value, substitute_vars value order) <$> arg_value arg
    else []) <$> args).

Definition resolve_legacy_args (arguments : string) (order : list (string * string)) : list string :=
  (λ part, substitute_vars part order) <$> split_whitespace arguments.

Definition default_legacy_jvm_args (var_map : gmap string string) : list string :=
  let get key := default "" (var_map !! key) in
  ["-Dminecraft.applet.TargetDirectory=" +:+ get "game_directory";
   "-Djava.library.path=" +:+ get "natives_directory";
   "-Dminecraft.launcher.brand=" +:+ get "launcher_name";
   "-Dminecraft.launcher.version=" +:+ get "launcher_version";
   "-cp"; get "classpath"].

Definition resolve_logging_arg (entry : LoggingEntry) (assets_root : string) : string :=
  if is_empty (le_argument entry) || is_empty (lf_id (le_file entry)) then ""
  else str_replace (le_argument entry) "${path}"
         (path_join (path_join assets_root "log_configs") (lf_id (le_file entry))).

(** [order] lists the entries of [build_var_map vars]. *)
Definition resolve_arguments (version : VersionJson) (env : Environment) (vars : LaunchVars)
    (order : list (string * string)) : list string * list string :=
  let '(jvm_args, game_args) :=
    if is_legacy_version version then
      (default_legacy_jvm_args (build_var_map vars),
       resolve_legacy_args (vj_minecraft_arguments version) order)
    else
      match vj_arguments version with
      | Some arguments =>
          (resolve_arg_list (args_jvm arguments) env order,
           resolve_legacy_args (vj_minecraft_arguments version) order ++
           resolve_arg_list (args_game arguments) env order)
      | None => ([], [])
      end in
  let log_arg :=
    match vj_logging version ≫= log_client with
    | Some client_logging => resolve_logging_arg client_logging (assets_root vars)
    | None => ""
    end in
  (if is_empty log_arg then jvm_args else jvm_args ++ [log_arg],
   List.filter (λ arg, negb (str_eqb arg "--demo")) game_args).
End launch.

(** ** Offline identities *)

Definition hex_digit (n : Z) : string :=
  byte (if n <? 10 then Z.to_N (48 + n) else Z.to_N (87 + n)).

(** [{:02x}] of a byte. *)
Definition hex_byte (b : Z) : string := hex_digit (b / 16) +:+ hex_digit (b mod 16).

(** [md5] gives the sixteen bytes of the digest, of the third-party crate. *)
Definition offline_uuid (md5 : string → list Z) (username : string) : string :=
  let hash := md5 ("OfflinePlayer:" +:+ username) in
  let hash := <[6%nat := Z.lor (Z.land (hash !!! 6%nat) 15) 48]> hash in
  let hash := <[8%nat := Z.lor (Z.land (hash !!! 8%nat) 63) 128]> hash in
  str_concat (hex_byte <$> hash).

(** ** Substitution on templates *)

(** A text as its author means it: literal pieces and placeholders. *)
Inductive piece := Lit (text : string) | Hole (key : string).

Definition render_piece (p : piece) : string :=
  match p with Lit text => text | Hole key => placeholder key end.

Definition render (template : list piece) : string := str_concat (render_piece <$> template).

(** A literal piece has no dollar sign, a key no dollar sign and no brace. *)
Definition piece_ok (p : piece) : bool :=
  match p with
  | Lit text => no_byte "$" text
  | Hole key => no_byte "$" key && no_byte "}" key
  end.

Definition fill_with (lookup : string → option string) (p : piece) : piece :=
  match p with
  | Lit text => Lit text
  | Hole key => match lookup key with Some value => Lit value | None => Hole key end
  end.

Definition fill_one (key value : string) : piece → piece :=
  fill_with (λ k, if str_eqb k key then Some value else None).

Definition entry_ok (entry : string * string) : Prop :=
  no_byte "$" entry.1 = true ∧ no_byte "}" entry.1 = true ∧ no_byte "$" entry.2 = true.

Lemma no_byte_app c a b : no_byte c (a +:+ b) = no_byte c a && no_byte c b.
Proof. apply sforall_app. Qed.

Lemma closing_brace_inj a b r s :
  no_byte "}" a = true → no_byte "}" b = true → a +:+ "}" +:+ r = b +:+ "}" +:+ s → a = b.
Proof.
  unfold no_byte. revert b. induction a as [|c a IH]; intros [|d b]; simpl; try done.
  - intros _ [Hd _]%andb_true_iff E. injection E as <- _. done.
  - intros [Hc _]%andb_true_iff _ E. injection E as -> _. done.
  - intros [_ Ha]%andb_true_iff [_ Hb]%andb_true_iff E. injection E as -> E. f_equal. by apply IH.
Qed.

(** One replacement fills the placeholders of its key and nothing else. *)
Lemma replace_template key value template :
  entry_ok (key, value) → Forall (λ p, piece_ok p = true) template →
  str_replace (render template) (placeholder key) value = render (fill_one key value <$> template).
Proof.
  intros (Hk1 & Hk2 & Hv). simpl in *. unfold render.
  induction 1 as [|p template Hp _ IH]; [done|]. cbn [fmap list_fmap str_concat].
  destruct p as [text|k]; cbn [render_piece fill_one fill_with].
  - simpl in Hp. unfold placeholder at 1. rewrite (replace_copy "$" ("{" +:+ key +:+ "}")) by done. by rewrite <-IH.
  - simpl in Hp. apply andb_true_iff in Hp as [Hp1 Hp2].
    destruct (str_eqb k key) eqn:E; cbn [render_piece].
    + apply str_eqb_spec in E as ->. rewrite replace_at by done. by rewrite IH.
    + apply str_eqb_false in E. rewrite <-IH. set (rest := str_concat (render_piece <$> template)).
      change (placeholder k +:+ rest) with (String "$" (("{" +:+ k +:+ "}") +:+ rest)).
      rewrite replace_step.
      * unfold placeholder at 1. rewrite (replace_copy "$" ("{" +:+ key +:+ "}")); [done|].
        rewrite !no_byte_app, Hp1. done.
      * apply not_true_is_false. intros [r Hr]%starts_with_spec. apply E.
        unfold placeholder in Hr. simpl in Hr. injection Hr as Hr. rewrite !str_app_assoc in Hr.
        by apply (closing_brace_inj k key rest r).
Qed.

Lemma fill_one_ok key value p : no_byte "$" value = true → piece_ok p = true → piece_ok (fill_one key value p) = true.
Proof. intros Hv. destruct p as [text|k]; simpl; [done|]. by destruct (str_eqb k key). Qed.

(** The replacements in any order fill what the entries say. *)
Lemma substitute_template order template :
  Forall entry_ok order → NoDup order.*1 → Forall (λ p, piece_ok p = true) template →
  substitute_vars (render template) order =
  render (fill_with (λ k, (list_to_map order : gmap string string) !! k) <$> template).
Proof.
  unfold substitute_vars. intros Ho Hnd. revert template.
  induction order as [|[key value] order IH]; intros template Ht; simpl.
  { f_equal. rewrite <-list_fmap_id at 1. apply list_fmap_ext. by intros ? [] ?. }
  apply list.Forall_cons in Ho as [He Ho]. apply list.NoDup_cons in Hnd as [Hk Hnd].
  rewrite replace_template by done. rewrite IH; [|done|done|].
  - f_equal. rewrite <-list_fmap_compose. apply list_fmap_ext. intros _ [text|k] _; [done|].
    simpl. destruct (str_eqb k key) eqn:E; simpl.
    + apply str_eqb_spec in E as ->. by rewrite lookup_insert_eq.
    + apply str_eqb_false in E. by rewrite lookup_insert_ne.
  - apply Forall_fmap. eapply list.Forall_impl; [exact Ht|]. intros p Hp.
    apply fill_one_ok; [apply He|done].
Qed.

(** Substitution does not depend on the order in which the map yields its
    variables, as long as no value contains a dollar sign: every placeholder
    of the template gets its value, unknown ones stay as they are. *)
Theorem substitute_vars_order_free vars order template :
  Forall entry_ok (map_to_list vars) → order ≡ₚ map_to_list vars →
  Forall (λ p, piece_ok p = true) template →
  substitute_vars (render template) order = render (fill_with (λ k, vars !! k) <$> template).
Proof.
  intros Hok Hp Ht. rewrite substitute_template; [|by rewrite Hp| |done].
  - f_equal. apply list_fmap_ext. intros _ [text|k] _; [done|]. simpl.
    rewrite (list_to_map_proper order (map_to_list vars)); [by rewrite list_to_map_to_list| |done].
    rewrite Hp. apply NoDup_fst_map_to_list.
  - rewrite Hp. apply NoDup_fst_map_to_list.
Qed.

Lemma substitute_vars_order_free_witness :
  substitute_vars "--user ${auth_player_name} ${unknown}" [("version_name", "1.21"); ("auth_player_name", "Steve")] =
  "--user Steve ${unknown}".
Proof.
  set (entries := [("auth_player_name", "Steve"); ("version_name", "1.21")]).
  assert (map_to_list (list_to_map entries : gmap string string) ≡ₚ entries) as P.
  { apply map_to_list_to_map. simpl. apply (bool_decide_eq_true_1 (NoDup _)). reflexivity. }
  etrans.
  - apply (substitute_vars_order_free (list_to_map entries)
      [("version_name", "1.21"); ("auth_player_name", "Steve")]
      [Lit "--user "; Hole "auth_player_name"; Lit " "; Hole "unknown"]).
    + rewrite P. repeat constructor.
    + rewrite P. apply Permutation_swap.
    + repeat constructor.
  - vm_compute. reflexivity.
Defined.

(** With a dollar sign in a value it does: a game directory that spells
    another placeholder is, or is not, expanded in turn, depending on the
    order in which the map happens to be iterated. *)
Theorem substitute_vars_order_matters :
  ∃ order order', order ≡ₚ order' ∧ NoDup order.*1 ∧
    substitute_vars "--gameDir ${game_directory}" order = "--gameDir /games/1.21" ∧
    substitute_vars "--gameDir ${game_directory}" order' = "--gameDir /games/${version_name}".
Proof.
  exists [("game_directory", "/games/${version_name}"); ("version_name", "1.21")],
         [("version_name", "1.21"); ("game_directory", "/games/${version_name}")].
  split_and!; [apply Permutation_swap| |vm_compute; reflexivity|vm_compute; reflexivity].
  simpl. repeat constructor; set_solver.
Qed.

(** ** The class path *)

(** The paths that are not equal, as paths, to an earlier one. *)
Fixpoint distinct_paths (seen : gset (bool * list string)) (paths : list string) : list string :=
  match paths with
  | [] => []
  | path :: paths =>
      if bool_decide (path_key path ∈ seen) then distinct_paths seen paths
      else path :: distinct_paths ({[path_key path]} ∪ seen) paths
  end.

Definition entry_path_ok (path : string) : bool :=
  is_ok (java_path_argument path) && negb (is_empty path) && negb (contains ":" path).

Lemma classpath_fold seen parts paths seen' parts' :
  try_fold classpath_entry (seen, parts) paths = Ok (seen', parts') ↔
  Forall (λ p, entry_path_ok p = true) (distinct_paths seen paths) ∧
  parts' = parts ++ distinct_paths seen paths ∧ seen' = list_to_set (path_key <$> paths) ∪ seen.
Proof.
  revert seen parts. induction paths as [|path paths IH]; intros seen parts; cbn [try_fold distinct_paths].
  { rewrite app_nil_r. simpl. rewrite (left_id_L ∅ (∪)). split; [by intros [= <- <-]|].
    by intros (_ & -> & ->). }
  assert (classpath_entry (seen, parts) path =
    if bool_decide (path_key path ∈ seen) then Ok (seen, parts)
    else encoded ← java_path_argument path;
         err_if (is_empty encoded || contains ":" encoded) Unsupported ;;
         Ok ({[path_key path]} ∪ seen, parts ++ [encoded])) as -> by done.
  cbn [fmap list_fmap list_to_set]. case_bool_decide as Hin; cbn [mbind result_bind].
  - rewrite IH. replace ({[path_key path]} ∪ list_to_set (path_key <$> paths) ∪ seen)
      with (list_to_set (path_key <$> paths) ∪ seen : gset (bool * list string)); [done|].
    apply set_eq. set_solver.
  - rewrite list.Forall_cons. unfold entry_path_ok at 1, java_path_argument.
    destruct (valid_utf8 path && negb (existsb is_control (chars path))) eqn:Ev;
      cbn [mbind result_bind is_ok andb]; [|naive_solver].
    destruct (is_empty path || contains ":" path) eqn:Eb; cbn [mbind result_bind err_if].
    { rewrite <-negb_orb, Eb. naive_solver. }
    rewrite <-negb_orb, Eb. rewrite IH, <-app_assoc. cbn [negb app].
    replace (list_to_set (path_key <$> paths) ∪ ({[path_key path]} ∪ seen))
      with ({[path_key path]} ∪ list_to_set (path_key <$> paths) ∪ seen : gset (bool * list string));
      [naive_solver|]. apply set_eq. set_solver.
Qed.

Lemma contains_colon path : contains ":" path = false → no_byte ":" path = true.
Proof.
  change ":" with (char1 ":") at 1. rewrite contains_byte. apply negb_false_iff.
Qed.

(** What Java reads is what was meant.  The class path is built exactly
    when every distinct path can be written; splitting it at the separators
    gives back the distinct paths in order, the libraries before the client. *)
Theorem classpath_reads_back libraries client cp :
  let paths := (abs_path <$> libraries) ++ option_list client in
  build_classpath libraries client = Ok cp ↔
  Forall (λ p, entry_path_ok p = true) (distinct_paths ∅ paths) ∧
  cp = str_join ":" (distinct_paths ∅ paths) ∧
  (paths ≠ [] → split_on ":" cp = distinct_paths ∅ paths).
Proof.
  intros paths. unfold build_classpath. fold paths.
  assert (∀ l, Forall (λ p, entry_path_ok p = true) l → Forall (λ p, no_byte ":" p = true) l) as Hno.
  { intros l Hl. eapply list.Forall_impl; [exact Hl|]. intros p. unfold entry_path_ok.
    intros [_ Hc]%andb_true_iff. apply negb_true_iff in Hc. by apply contains_colon. }
  assert (paths ≠ [] → distinct_paths ∅ paths ≠ []) as Hne.
  { destruct paths as [|p l]; [done|]. intros _. simpl. by rewrite bool_decide_eq_false_2 by set_solver. }
  rewrite bind_ok. split.
  - intros ([seen parts] & H & [= <-]). apply classpath_fold in H as (Hf & -> & _). simpl.
    split_and!; [done|done|]. intros Hp. change ":" with (char1 ":"). apply split_on_join; auto.
  - intros (Hf & -> & _). eexists (_, _). split; [|reflexivity]. by apply classpath_fold.
Qed.

Lemma classpath_reads_back_witness :
  let lib path := {| abs_path := path; is_native := false; res_name := path |} in
  build_classpath [lib "/l/a.jar"; lib "/l//b.jar"; lib "/l/b.jar"] (Some "/v/client.jar") =
  Ok "/l/a.jar:/l//b.jar:/v/client.jar".
Proof.
  intros lib. apply (classpath_reads_back [lib "/l/a.jar"; lib "/l//b.jar"; lib "/l/b.jar"] (Some "/v/client.jar")).
  split_and!; [repeat constructor|vm_compute; reflexivity|intros _; vm_compute; reflexivity].
Defined.
