(* ===== verification/ContentPlan.v ===== *)
(** * Content plans and updates ([core/app/src/content/resolve.rs])

    A plan binds a resolution to the state of the instance it was made for:
    the identity and revision of the instance, its target and a digest of its
    manifest and of what is installed.  The files of a plan are handed out
    only while that state is observed again.  JSON of the preconditions and
    SHA-256 are parameters; instants are integers, seconds of a monotonic
    clock, and every call that reads a clock takes its reading. *)

From S2P Require Import Prelude RustStr Effect ContentModel ContentUrl ContentPackPath ContentProvenance.
From S2P Require Import ContentProvider ContentVersions ContentResolve SettingsModel InstanceModel.
From S2P Require McPortablePath AppPortablePath.
Import McPortablePath (UnicodeNorm).

Class PlanDigest := {
  preconditions_json : ContentManifest → list bool → string → string → option string → option string;
  sha256 : string → string;
}.

Record ContentPlanState := {
  plan_instance_id : InstanceId;
  plan_instance_revision : Z;
  plan_target : ResolutionTarget;
  plan_fingerprint : string;
}.

#[global] Instance ContentPlanState_eq_dec : EqDecision ContentPlanState.
Proof. solve_decision. Defined.

Inductive PlanValidationError :=
| InvalidTarget | PlanExpired | TargetChanged | PlanUnavailable | IncompatibilityDecisionRequired
| PlanContent (e : ContentError).

Definition validated_target (loader game_version : string) : result PlanValidationError ResolutionTarget :=
  let loader := trim loader in
  let game_version := trim game_version in
  err_if (is_empty game_version || (128 <? str_len game_version) || has_control game_version ||
          negb (existsb (str_eqb loader) [""; "vanilla"; "fabric"; "quilt"; "forge"; "neoforge"])) InvalidTarget ;;
  Ok {| target_loader := if str_eqb loader "vanilla" then "" else loader; target_game_version := game_version;
        supports_mods := negb (existsb (str_eqb loader) [""; "vanilla"]) |}.

Section plan.
Context `{UnicodeNorm} `{UrlParser} `{Rfc3339} `{ResolutionJson} `{PlanDigest} {W : Type} `{ContentService W}.

Notation M := (eff W ResolutionError).

Definition to_planned (now : string) (self : ResolvedContentItem) : result ContentError PlannedFile :=
  planned_new now (item_canonical_id self) (item_provider self) (item_project_id self) (item_version_id self)
    (item_kind self) (item_file self) (item_dependencies self) (Some (item_title self)).

Definition to_install (now : string) (self : ContentResolution) : result ContentError (list PlannedFile) :=
  try_map (to_planned now) (filter (λ item, negb (item_already_installed item) || item_update item = true) (items self)).

Definition from_instance (record : InstanceRecord) (manifest : ContentManifest) (live : LiveManagedContent) :
    result PlanValidationError ContentPlanState :=
  let instance := record_instance record in
  err_if (negb (bool_decide (record_lifecycle record = Live)) ||
          negb (instance_revision instance =? record_revision record)) InvalidTarget ;;
  target ← validated_target (instance_loader_key instance) (instance_minecraft_version instance);
  let live_entries := live_contains live <$> entries manifest in
  encoded ← ok_or (PlanContent (Invalid "content preconditions could not be represented"))
    (preconditions_json manifest live_entries (record_library_id record) (record_directory_name record)
       (record_directory_receipt record));
  err_if (MAX_RESOLUTION_OUTPUT_BYTES <? str_len encoded)
    (PlanContent (Invalid "content preconditions exceed their byte bound")) ;;
  Ok {| plan_instance_id := instance_id instance; plan_instance_revision := record_revision record;
        plan_target := target; plan_fingerprint := sha256 encoded |}.

Record TargetedPlan := {
  plan_state : ContentPlanState;
  plan_resolution : ContentResolution;
  plan_expires_at : Z;
  plan_selected_pack : bool;
}.

Definition plan_lifetime : Z := 300.

(** The lifetime starts before the network is asked. *)
Definition resolve_plan_for (started : Z) (state : ContentPlanState) (selections : list ResolutionSelection)
    (manifest : ContentManifest) (live : LiveManagedContent) : M (option TargetedPlan) :=
  resolution ← resolve_content (plan_target state) selections manifest live;
  mret ((λ resolution, {| plan_state := state; plan_resolution := resolution;
                          plan_expires_at := started + plan_lifetime; plan_selected_pack := false |}) <$> resolution).

Definition resolve_selected_pack (started : Z) (state : ContentPlanState) (selection : PackFileSelection)
    (manifest : ContentManifest) (live : LiveManagedContent) : M (option TargetedPlan) :=
  answer ← resolve_content_with_pack (plan_target state) (pack_selections selection) manifest live (Some selection);
  match answer with
  | None => mret None
  | Some resolution =>
      lift (map_err ResolutionPack (finish selection resolution)) ;;
      mret (Some {| plan_state := state; plan_resolution := resolution;
                    plan_expires_at := started + plan_lifetime; plan_selected_pack := true |})
  end.

Definition preserves_enabled_state (self : TargetedPlan) : bool := negb (plan_selected_pack self).

Definition validate_at (self : TargetedPlan) (current : ContentPlanState) (now : Z) : result PlanValidationError unit :=
  err_if (plan_expires_at self <=? now) PlanExpired ;;
  err_if (negb (bool_decide (plan_state self = current))) TargetChanged.

Definition authorized_files (now : Z) (today : string) (self : TargetedPlan) (current : ContentPlanState)
    (allow_incompatible : bool) : result PlanValidationError (list PlannedFile) :=
  let found := conflicts (plan_resolution self) in
  validate_at self current now ;;
  err_if (existsb (λ conflict, bool_decide (reason_kind (conflict_reason conflict) = ConflictUnavailable)) found)
    PlanUnavailable ;;
  err_if (negb allow_incompatible && negb (length found =? 0)%nat) IncompatibilityDecisionRequired ;;
  map_err PlanContent (to_install today (plan_resolution self)).

(** ** Updates *)

Record AvailableUpdate := {
  update_canonical_id : CanonicalId;
  update_kind : ContentKind;
  update_current_version_id : string;
  update_latest_version_id : string;
  update_latest_version_number : string;
  update_title : option string;
}.

(** A provider's failure is passed over, a cancellation is not. *)
Definition passed_over (error : ContentError) : bool :=
  match error with
  | Provider DownloadCancelled => false
  | Provider _ | ProviderMetadataInvalid _ => true
  | _ => false
  end.

Definition or_default {A} (otherwise : A) (m : eff W ContentError A) : eff W ContentError A :=
  answer ← eff_try m;
  match answer with
  | Ok value => mret value
  | Err error => if passed_over error then mret otherwise else lift (Err error)
  end.

(** One round of the loop over installed entries; [continue] on a failure is
    an empty answer, in which nothing is newer. *)
Definition update_candidate (target : ResolutionTarget)
    (state : list (ManifestEntry * ContentVersion) * ResolutionBudget) (entry : ManifestEntry) :
    eff W ContentError (list (ManifestEntry * ContentVersion) * ResolutionBudget) :=
  let '(candidates, budget) := state in
  if bool_decide (entry_kind entry = KindModpack) then mret state
  else
    listed ← or_default [] (versions (entry_canonical_id entry) (filter_for target (entry_kind entry)));
    match newer_version listed (entry_version_id entry) with
    | None => mret state
    | Some version =>
        budget ← lift (map_err
          (λ _, Invalid "content update candidates exceed their aggregate dependency bound")
          (admit_dependencies budget (Z.of_nat (length (version_dependencies version)))));
        '(budget, _) ← lift (map_err
          (λ _, Invalid "content update candidates exceed their aggregate metadata bound")
          (admit_output budget (version_writes version)));
        mret (candidates ++ [(entry, version)], budget)
    end.

Definition set_dependencies (version : ContentVersion) (dependencies : list ContentDependency) : ContentVersion := {|
  version_id := version_id version; version_name := version_name version; version_number := version_number version;
  version_game_versions := version_game_versions version; version_loaders := version_loaders version;
  version_channel := version_channel version; version_published := version_published version;
  version_downloads := version_downloads version; version_files := version_files version;
  version_dependencies := dependencies |}.

Definition installed_live (manifest : ContentManifest) (live : LiveManagedContent) : list ManifestEntry :=
  filter (λ entry, live_contains live entry = true) (entries manifest).

(** Version-only dependencies of the candidates, sorted. *)
Definition unnamed_dependencies (candidates : list (ManifestEntry * ContentVersion)) : list string :=
  sort_by str_cmp (elements (list_to_set (omap dep_version_id
    (filter (λ dependency, dep_project_id dependency = None)
       (candidates ≫= λ '(_, version), version_dependencies version))) : gset string)).

Definition offered (installed : list ManifestEntry) (identities : gmap string VersionIdentity)
    (candidate : ManifestEntry * ContentVersion) : option AvailableUpdate :=
  let '(entry, version) := candidate in
  let version := set_dependencies version
    (canonicalize_version_only_dependencies (version_dependencies version) identities) in
  if negb (has_unresolved_version_only_incompatibility (version_dependencies version)) &&
     negb (version_conflicts_with_installed version (entry_canonical_id entry) installed) then
    Some {| update_canonical_id := entry_canonical_id entry; update_kind := entry_kind entry;
            update_current_version_id := entry_version_id entry; update_latest_version_id := version_id version;
            update_latest_version_number := version_number version; update_title := entry_title entry |}
  else None.

Definition available_updates (target : ResolutionTarget) (manifest : ContentManifest) (live : LiveManagedContent) :
    eff W ContentError (list AvailableUpdate) :=
  let installed := installed_live manifest live in
  '(candidates, _) ← eff_fold (update_candidate target) ([], default_budget) installed;
  identities ← or_default ∅ (version_identities (unnamed_dependencies candidates));
  mret (omap (offered installed identities) candidates).

(** ** What a plan authorizes *)

(** Encoding tells the preconditions apart. *)
Definition preconditions_injective : Prop := ∀ m f l d r m' f' l' d' r' s,
  preconditions_json m f l d r = Some s → preconditions_json m' f' l' d' r' = Some s →
  m = m' ∧ f = f' ∧ l = l' ∧ d = d' ∧ r = r'.

(** What an instance looks like to a plan. *)
Definition same_observation (record record' : InstanceRecord) (manifest manifest' : ContentManifest)
    (live live' : LiveManagedContent) : Prop :=
  manifest = manifest' ∧ (∀ entry, entry ∈ entries manifest → live_contains live entry = live_contains live' entry) ∧
  record_library_id record = record_library_id record' ∧
  record_directory_name record = record_directory_name record' ∧
  record_directory_receipt record = record_directory_receipt record'.

Lemma from_instance_ok record manifest live s :
  from_instance record manifest live = Ok s →
  record_lifecycle record = Live ∧ plan_instance_id s = instance_id (record_instance record) ∧
  plan_instance_revision s = record_revision record ∧
  validated_target (instance_loader_key (record_instance record)) (instance_minecraft_version (record_instance record)) =
    Ok (plan_target s) ∧
  ∃ encoded, preconditions_json manifest (live_contains live <$> entries manifest) (record_library_id record)
    (record_directory_name record) (record_directory_receipt record) = Some encoded ∧ plan_fingerprint s = sha256 encoded.
Proof.
  unfold from_instance. intros Hf. ok_inv. rename select (bool_decide _ = true) into Hl.
  apply bool_decide_eq_true in Hl. split_and!; [done..|]. cbn. eauto.
Qed.

Lemma fmap_same {A B} (f g : A → B) (l : list A) : f <$> l = g <$> l → ∀ x, x ∈ l → f x = g x.
Proof.
  induction l as [|y l IH]; [by intros _ x ?%elem_of_nil|]. intros [= E1 E2] x [->|Hx]%elem_of_cons; [done|by apply IH].
Qed.

Lemma same_state_observation record record' manifest manifest' live live' s :
  preconditions_injective → from_instance record manifest live = Ok s → from_instance record' manifest' live' = Ok s →
  same_observation record record' manifest manifest' live live' ∨ ∃ a b, a ≠ b ∧ sha256 a = sha256 b.
Proof.
  intros Hinj (_ & _ & _ & _ & e & He & Hfe)%from_instance_ok (_ & _ & _ & _ & e' & He' & Hfe')%from_instance_ok.
  destruct (decide (e = e')) as [<-|Hne]; [left|right; exists e, e'; split; [done|congruence]].
  destruct (Hinj _ _ _ _ _ _ _ _ _ _ _ He He') as (<- & Hl & ? & ? & ?). split_and!; try done. by apply fmap_same.
Qed.

(** The file a resolved item is installed as. *)
Definition planned_for (item : ResolvedContentItem) (file : PlannedFile) : Prop :=
  planned_canonical_id file = item_canonical_id item ∧ planned_version_id file = item_version_id item ∧
  planned_kind file = item_kind item ∧ planned_file file = item_file item ∧
  is_ok (validate_planned_artifact (item_kind item) (item_file item)) = true.

Lemma to_planned_ok now item file : to_planned now item = Ok file → planned_for item file.
Proof.
  unfold to_planned, planned_new. intros Hp. apply bind_ok in Hp as (artifact & Ha & Hp).
  apply bind_ok in Hp as (managed & _ & [= <-]). unfold planned_for. by rewrite Ha.
Qed.

Lemma to_install_ok now resolution files :
  to_install now resolution = Ok files →
  Forall2 planned_for (filter (λ item, negb (item_already_installed item) || item_update item = true) (items resolution)) files.
Proof.
  unfold to_install. generalize (filter (λ item, negb (item_already_installed item) || item_update item = true)
    (items resolution)). intros l. revert files. induction l as [|item l IH]; intros files; simpl.
  - intros [= <-]. constructor.
  - intros (file & Hf & (rest & Hr & [= <-])%bind_ok)%bind_ok. constructor; [by eapply to_planned_ok|by apply IH].
Qed.

Lemma authorized_files_ok now today plan current allow files :
  authorized_files now today plan current allow = Ok files →
  now < plan_expires_at plan ∧ plan_state plan = current ∧
  (∀ conflict, conflict ∈ conflicts (plan_resolution plan) →
    allow = true ∧ reason_kind (conflict_reason conflict) = ConflictIncompatible) ∧
  to_install today (plan_resolution plan) = Ok files.
Proof.
  unfold authorized_files, validate_at. intros Ha. ok_inv.
  rename select (bool_decide _ = true) into Hs. apply bool_decide_eq_true in Hs.
  rename select (existsb _ _ = false) into Hu. rename select (negb allow && _ = false) into Hd.
  split_and!; [lia|done| |done]. intros conflict Hin. split.
  - destruct allow; [done|]. simpl in Hd. apply negb_false_iff, Nat.eqb_eq in Hd.
    destruct (conflicts (plan_resolution plan)); [by apply elem_of_nil in Hin|done].
  - apply not_true_iff_false in Hu. destruct (reason_kind (conflict_reason conflict)) eqn:E; [|done]. destruct Hu.
    apply existsb_exists. exists conflict. rewrite <-list_elem_of_In, E. done.
Qed.

(** C18: Files are handed out only from a plan that is less than five minutes old,
    to the instance it was made for at the same revision and target, while its
    manifest, what is installed of it and its directory are what they were when
    the plan was resolved, unless SHA-256 collides; never over an unavailable
    dependency, and over an incompatibility only by decision.  They are the
    artifacts of the items still to install, each of them admissible. *)
Theorem authorized_plan_current record manifest live s started selections w plan w' record' manifest' live' s' now today
    allow files :
  preconditions_injective →
  from_instance record manifest live = Ok s →
  resolve_plan_for started s selections manifest live w = (Ok (Some plan), w') →
  from_instance record' manifest' live' = Ok s' →
  authorized_files now today plan s' allow = Ok files →
  now < started + 300 ∧
  record_lifecycle record' = Live ∧ instance_id (record_instance record') = instance_id (record_instance record) ∧
  record_revision record' = record_revision record ∧ plan_target s' = plan_target s ∧
  (same_observation record record' manifest manifest' live live' ∨ ∃ a b, a ≠ b ∧ sha256 a = sha256 b) ∧
  ∃ resolution, resolve_content (plan_target s) selections manifest live w = (Ok (Some resolution), w') ∧
    (∀ conflict, conflict ∈ conflicts resolution →
      allow = true ∧ reason_kind (conflict_reason conflict) = ConflictIncompatible) ∧
    Forall2 planned_for (filter (λ item, negb (item_already_installed item) || item_update item = true) (items resolution))
      files.
Proof.
  intros Hinj Hs Hr Hs' (Hnow & Hst & Hc & Hfiles)%authorized_files_ok.
  apply eff_bind_ok in Hr as (answer & w1 & Hres & [E <-]%eff_ret_ok). destruct answer as [resolution|]; [|done].
  injection E as <-. cbn in *. subst s'.
  destruct (same_state_observation _ _ _ _ _ _ _ Hinj Hs Hs') as [Hsame|Hcoll].
  all: apply from_instance_ok in Hs as (_ & Hid & Hrev & _), Hs' as (Hl' & Hid' & Hrev' & _);
    split_and!; [done|done|congruence|congruence|done|auto|exists resolution; split_and!; [done|done|by eapply to_install_ok]].
Qed.
(** ** What is offered as an update *)

(** The provider's answer behind a candidate. *)
Definition candidate_of (target : ResolutionTarget) (entry : ManifestEntry) (version : ContentVersion) : Prop :=
  entry_kind entry ≠ KindModpack ∧
  ∃ w listed w', versions (entry_canonical_id entry) (filter_for target (entry_kind entry)) w = (Ok listed, w') ∧
    newer_version listed (entry_version_id entry) = Some version.

Lemma or_default_ok {A} (otherwise : A) m w value w' :
  or_default otherwise m w = (Ok value, w') → m w = (Ok value, w') ∨ value = otherwise.
Proof.
  unfold or_default. intros (answer & w1 & Ht%eff_try_ok & Hv)%eff_bind_ok. destruct answer as [a|e].
  - apply eff_ret_ok in Hv as [-> <-]. by left.
  - destruct (passed_over e); [|done]. apply eff_ret_ok in Hv as [-> _]. by right.
Qed.

Lemma update_candidate_ok target candidates budget entry candidates' budget' w w' :
  update_candidate target (candidates, budget) entry w = (Ok (candidates', budget'), w') →
  candidates' = candidates ∨
  ∃ version, candidates' = candidates ++ [(entry, version)] ∧ candidate_of target entry version.
Proof.
  unfold update_candidate. case_bool_decide as Hk; [intros [[= -> _] _]%eff_ret_ok; by left|].
  intros (listed & w1 & Hl & Hc)%eff_bind_ok. destruct (newer_version listed _) as [version|] eqn:En.
  2: { apply eff_ret_ok in Hc as [[= -> _] _]. by left. }
  apply eff_bind_ok in Hc as (b1 & w2 & _ & Hc). apply eff_bind_ok in Hc as ([b2 n] & w3 & _ & Hc).
  apply eff_ret_ok in Hc as [[= <- <-] _]. right. exists version. split; [done|]. split; [done|].
  apply or_default_ok in Hl as [Hl| ->]; [by exists w, listed, w1|done].
Qed.

Lemma update_candidates_ok target installed candidates budget w w' :
  eff_fold (update_candidate target) ([], default_budget) installed w = (Ok (candidates, budget), w') →
  candidates.*1 `sublist_of` installed ∧ Forall (λ '(entry, version), candidate_of target entry version) candidates.
Proof.
  intros Hf. apply (eff_fold_inv _ (λ done state, state.1.*1 `sublist_of` done ∧
    Forall (λ '(entry, version), candidate_of target entry version) state.1)) in Hf; [done|by split; constructor|].
  intros done x [c b] [c' b'] v v' [Hsub Hall] [->|(version & -> & Hc)]%update_candidate_ok; simpl in *.
  - split; [by apply sublist_inserts_r|done].
  - rewrite fmap_app. split; [by apply sublist_app|]. apply Forall_app. split; [done|by constructor].
Qed.

Lemma offered_some installed identities entry version u :
  offered installed identities (entry, version) = Some u →
  update_canonical_id u = entry_canonical_id entry ∧ update_current_version_id u = entry_version_id entry ∧
  update_latest_version_id u = version_id version ∧
  version_conflicts_with_installed (set_dependencies version
    (canonicalize_version_only_dependencies (version_dependencies version) identities)) (entry_canonical_id entry) installed
    = false.
Proof.
  unfold offered. destruct (negb _ && negb _) eqn:E; [|done]. apply andb_true_iff in E as [_ E%negb_true_iff].
  by intros [= <-].
Qed.

Lemma omap_sublist_fmap {A B C} (f : A → option B) (g : A → C) (h : B → C) (l : list A) :
  (∀ x y, f x = Some y → h y = g x) → h <$> omap f l `sublist_of` g <$> l.
Proof.
  intros Hf. induction l as [|x l IH]; [constructor|]. simpl. destruct (f x) as [y|] eqn:E; simpl.
  - rewrite (Hf _ _ E). by constructor.
  - by constructor.
Qed.

(** The updates offered are for entries that are installed in place, at most
    one for each and in their order; each is the best installable version of
    those the provider lists for the target, above the installed one, and its
    dependencies exclude nothing installed, nor does anything installed
    exclude it. *)
Theorem available_updates_spec `{!ContentServiceLaws W} target manifest live updates w w' :
  available_updates target manifest live w = (Ok updates, w') →
  update_canonical_id <$> updates `sublist_of` entry_canonical_id <$> installed_live manifest live ∧
  ∀ u, u ∈ updates →
    ∃ entry version, entry ∈ entries manifest ∧ live_contains live entry = true ∧ entry_kind entry ≠ KindModpack ∧
      update_canonical_id u = entry_canonical_id entry ∧ update_current_version_id u = entry_version_id entry ∧
      update_latest_version_id u = version_id version ∧ version_id version ≠ entry_version_id entry ∧
      (∃ w1 listed w2, versions (entry_canonical_id entry) (filter_for target (entry_kind entry)) w1 = (Ok listed, w2) ∧
        version ∈ listed ∧ has_primary version = true ∧
        (∀ other, other ∈ listed → has_primary other = true → compare_version_rank version other ≠ Lt) ∧
        (∀ other, other ∈ listed → version_id other = entry_version_id entry →
          compare_version_rank version other = Gt)) ∧
      ∃ identities, version_conflicts_with_installed
        (set_dependencies version (canonicalize_version_only_dependencies (version_dependencies version) identities))
        (entry_canonical_id entry) (installed_live manifest live) = false.
Proof.
  unfold available_updates. intros ([candidates budget] & w1 & Hf & Hu)%eff_bind_ok.
  apply update_candidates_ok in Hf as [Hsub Hall]. apply eff_bind_ok in Hu as (identities & w2 & _ & [<- _]%eff_ret_ok).
  split.
  - etrans; [|by apply fmap_sublist, Hsub]. rewrite <-list_fmap_compose. apply omap_sublist_fmap.
    intros [entry version] u Ho. by apply offered_some in Ho as (? & _).
  - intros u ([entry version] & Hin & Ho)%list_elem_of_omap. rewrite list.Forall_forall in Hall.
    destruct (Hall _ Hin) as (Hk & wa & listed & wb & Hv & Hn).
    assert (entry ∈ installed_live manifest live) as [Hlive He]%list_elem_of_filter.
    { eapply elem_of_sublist; [|exact Hsub]. by apply (list_elem_of_fmap_2 fst) in Hin. }
    pose proof (newer_version_some _ _ _ (versions_distinct _ _ _ _ _ Hv) Hn) as (Hin' & Hp & Hne & Hbest & Hgt).
    apply offered_some in Ho as (E1 & E2 & E3 & Hc). exists entry, version. split_and!; try done.
    + exists wa, listed, wb. by split_and!.
    + by exists identities.
Qed.
End plan.
