(* ===== verification/ContentDemo.v ===== *)
(** * Resolutions, plans and updates over a small catalog

    A provider with three projects, read from a table, and the resolver run
    on it: [A] needs [B] and any version of [C]; [B] needs the old version of
    [C]; [C] has an old and a new version.  The first pass picks the new one
    and learns that the old one is required, the second settles. *)

From S2P Require Import Prelude RustStr Effect ContentModel ContentUrl ContentPackPath ContentProvenance.
From S2P Require Import ContentProvider ContentVersions ContentResolve ContentTermination.
From S2P Require Import ContentConsistency.
From S2P Require Import SettingsModel InstanceModel ContentPlan.
From S2P Require McPortablePath.

Module Catalog.
#[local] Existing Instance McPortablePath.plain_norm.
#[local] Existing Instance ContentUrl.demo_parser.

(** Every item takes a chunk of 500 bytes, a resolution 500 for each item. *)
#[export] Instance demo_lengths : ResolutionJson := {|
  item_writes := λ _, ([500], true);
  resolution_writes := λ r, ((λ _, 500) <$> items r, true);
  version_writes := λ _, ([500], true);
|}.

Fixpoint hex_digits (n : nat) : string :=
  match n with O => "" | S n => String "a" (hex_digits n) end.

Definition demo_file (filename : string) : FileRef := {|
  file_url := "https://cdn.modrinth.com/a.jar"; file_filename := filename; file_sha1 := None;
  file_sha512 := Some (hex_digits 128); file_size := Some 3; file_primary := true |}.

Definition needs (project : string) (version : option string) : ContentDependency :=
  {| dep_project_id := Some project; dep_version_id := version; dep_kind := Required |}.

Definition excludes (project : string) (version : option string) : ContentDependency :=
  {| dep_project_id := Some project; dep_version_id := version; dep_kind := Incompatible |}.

Definition demo_version (id filename published : string) (dependencies : list ContentDependency) :
    ContentVersion := {|
  version_id := id; version_name := id; version_number := id; version_game_versions := ["1.21"];
  version_loaders := ["fabric"]; version_channel := Release; version_published := Some published;
  version_downloads := 0; version_files := [demo_file filename]; version_dependencies := dependencies |}.

Definition a1 := demo_version "a1" "a.jar" "2024-01-01" [needs "C" None; needs "B" None].
Definition b1 := demo_version "b1" "b.jar" "2024-01-01" [needs "C" (Some "c1"); excludes "C" (Some "c2")].
Definition c1 := demo_version "c1" "c-1.jar" "2024-01-01" [].
Definition c2 := demo_version "c2" "c-2.jar" "2024-06-01" [].

Definition catalog : list (CanonicalId * (string * list ContentVersion)) :=
  [("modrinth:A", ("A", [a1])); ("modrinth:B", ("B", [b1])); ("modrinth:C", ("C", [c1; c2]))].

Definition listed (id : CanonicalId) : option (string * list ContentVersion) :=
  snd <$> List.find (λ entry, str_eqb entry.1 id) catalog.

(** The world counts the requests. *)
#[export] Instance demo_service : ContentService nat := {|
  metadata := λ ids w,
    (Ok (list_to_map (omap (λ id, project ← listed id;
      Some (id, {| meta_kind := KindMod; meta_title := project.1 |})) ids)), S w);
  versions := λ id filter w,
    (Ok (match listed id with
         | Some project => base.filter (λ version, version_matches_filter version filter = true) project.2
         | None => []
         end), S w);
  version_identities := λ ids w, (Ok ∅, S w);
|}.

Lemma listed_spec id project : listed id = Some project → (id, project) ∈ catalog.
Proof.
  unfold listed. intros ([key value] & [Hin E]%List.find_some & ->)%fmap_Some. simpl in E.
  apply str_eqb_spec in E as <-. by apply list_elem_of_In.
Qed.

Lemma catalog_formed :
  Forall (λ entry, entry.1 = for_project ProviderModrinth (project_id entry.1) ∧
    NoDup (version_id <$> entry.2.2)) catalog.
Proof.
  repeat constructor; simpl; try done; set_solver.
Qed.

#[export] Instance demo_service_laws : ContentServiceLaws nat.
Proof.
  split.
  - intros ids w m w' id p [= <- <-] Hk%elem_of_list_to_map_2. apply list_elem_of_omap in Hk as (id' & Hid & Hk).
    apply bind_Some in Hk as (project & Hp & [= -> <-]). split; [done|].
    apply listed_spec in Hp. by destruct (proj1 (list.Forall_forall _ _) catalog_formed _ Hp).
  - intros id filter w l w' [= <- <-]. destruct (listed id) as [project|] eqn:Hp; [|constructor].
    apply NoDup_fmap_filter. apply listed_spec in Hp. by destruct (proj1 (list.Forall_forall _ _) catalog_formed _ Hp).
  - intros ids w m w' id i [= <- <-] Hk. by rewrite lookup_empty in Hk.
Qed.

Definition demo_target : ResolutionTarget :=
  {| target_loader := "fabric"; target_game_version := "1.21"; supports_mods := true |}.

Definition select (id : string) (version : option string) : ResolutionSelection :=
  {| selection_canonical_id := id; selection_kind := KindMod; selection_version_id := version |}.

Definition resolve (selections : list ResolutionSelection) : result ResolutionError (option ContentResolution) * nat :=
  resolve_content_with_pack demo_target selections default_manifest ∅ None 0%nat.

Definition summary (r : ContentResolution) : list (string * string) * list ResolutionConflictReason :=
  ((λ item, (item_canonical_id item, item_version_id item)) <$> items r, conflict_reason <$> conflicts r).

Definition resolved (selections : list ResolutionSelection) : ContentResolution :=
  match resolve selections with (Ok (Some r), _) => r | _ => {| items := []; conflicts := [] |} end.
Lemma resolve_ok : resolve [select "modrinth:A" None] = (Ok (Some (resolved [select "modrinth:A" None])), 10%nat).
Proof. vm_compute. reflexivity. Qed.

(** Two passes settle on the version that [B] requires. *)
Example demo_resolution :
  summary (resolved [select "modrinth:A" None]) =
  ([("modrinth:A", "a1"); ("modrinth:B", "b1"); ("modrinth:C", "c1")], []).
Proof. vm_compute. done. Qed.

(** A selected version that [B] rejects is reported, not replaced. *)
Example demo_conflict :
  snd (summary (resolved [select "modrinth:A" None; select "modrinth:C" (Some "c2")])) =
  [ExactVersionConflict "c1" "c2"; SelectedIncompatibility "C"].
Proof. vm_compute. done. Qed.

Lemma resolution_consistent_witness :
  consistent demo_target [select "modrinth:A" None] default_manifest ∅ (resolved [select "modrinth:A" None]) ∧
  length (items (resolved [select "modrinth:A" None])) = 3%nat.
Proof.
  split; [|vm_compute; reflexivity].
  apply (resolution_consistent demo_target [select "modrinth:A" None] default_manifest ∅ None 0%nat _ 10%nat resolve_ok).
  vm_compute. reflexivity.
Defined.

Lemma resolution_within_limits_witness :
  within_limits (resolved [select "modrinth:A" None]) ∧
  sum_Z (resolution_writes (resolved [select "modrinth:A" None])).1 ≤ MAX_RESOLUTION_OUTPUT_BYTES ∧
  sum_Z (item_size <$> items (resolved [select "modrinth:A" None])) = 9.
Proof.
  destruct (resolution_within_limits demo_target [select "modrinth:A" None] default_manifest ∅ None 0%nat _ 10%nat
    resolve_ok) as [Hw Hb].
  split_and!; [exact Hw|exact Hb|vm_compute; reflexivity].
Defined.

Lemma newer_version_best_witness :
  newer_version [c2; c1] "c1" = Some c2 ∧ newer_version [c1; c2] "c1" = Some c2 ∧
  newer_version [c1; c2] "c2" = None ∧ compare_version_rank c2 c1 = Gt.
Proof.
  destruct (newer_version_best [c1; c2] [c2; c1] "c1" c2) as (E & _ & _ & _ & _ & Hgt).
  - vm_compute. repeat constructor; set_solver.
  - apply Permutation_swap.
  - vm_compute. reflexivity.
  - split; [exact E|]. split; [vm_compute; reflexivity|]. split; [vm_compute; reflexivity|].
    apply (Hgt c1); [left|vm_compute; reflexivity].
Defined.
End Catalog.

(** ** Plans and updates over the catalog *)

Module PlanDemo.
Import Catalog.
#[local] Existing Instance McPortablePath.plain_norm.
#[local] Existing Instance ContentUrl.demo_parser.
#[local] Instance demo_dates : Rfc3339 := λ value, str_eqb value "2026-01-01T00:00:00Z".

Definition demo_instance : InstanceData := {|
  instance_id := "0f8fad5b-d9cb-469f-a165-70867728950e"; instance_name := "Modded"; instance_version_id := "loader-v2-x";
  instance_created_at := "2026-01-01"; instance_last_played_at := ""; instance_art_seed := 0;
  instance_settings := default_instance_settings; instance_java_selection := None; instance_icon := "";
  instance_accent := ""; instance_loader_key := "fabric"; instance_minecraft_version := "1.21"; instance_revision := 4 |}.

Definition demo_record : InstanceRecord := {|
  record_instance := demo_instance; record_revision := 4; record_lifecycle := Live; record_library_id := "library";
  record_directory_name := instance_id demo_instance; record_directory_receipt := Some "receipt" |}.

Definition installed_c1 : ManifestEntry := {|
  entry_canonical_id := "modrinth:C"; entry_provider := ProviderModrinth; entry_project_id := "C"; entry_version_id := "c1";
  entry_kind := KindMod; entry_filename := Some {| name_enabled := "c-1.jar"; name_disabled := "c-1.jar.disabled" |};
  entry_sha512 := Some (hex_digits 128); entry_size := Some 3; entry_dependencies := []; entry_enabled := true;
  entry_installed_at := "2026-01-01T00:00:00Z"; entry_title := Some "C"; entry_pack_installation := None |}.

Definition demo_manifest : ContentManifest := {| schema_version := 3; entries := [installed_c1] |}.
Definition demo_live : LiveManagedContent := {["modrinth:C" := installed_c1]}.

(** One text, for the preconditions of the demonstration. *)
#[local] Instance demo_digest : PlanDigest := {|
  preconditions_json := λ m f l d r,
    if bool_decide (m = demo_manifest ∧ f = [true] ∧ l = "library" ∧ d = instance_id demo_instance ∧ r = Some "receipt")
    then Some "[manifest]" else None;
  sha256 := λ s, s |}.

Lemma demo_injective : preconditions_injective.
Proof. intros m f l d r m' f' l' d' r' s. simpl. repeat case_bool_decide; naive_solver. Qed.

Definition demo_state : ContentPlanState := {|
  plan_instance_id := instance_id demo_instance; plan_instance_revision := 4; plan_target := demo_target;
  plan_fingerprint := "[manifest]" |}.

Lemma demo_state_ok : from_instance demo_record demo_manifest demo_live = Ok demo_state.
Proof. vm_compute. reflexivity. Qed.

Definition demo_plan : TargetedPlan :=
  match resolve_plan_for 1000 demo_state [select "modrinth:A" None] demo_manifest demo_live 0%nat with
  | (Ok (Some plan), _) => plan
  | _ => {| plan_state := demo_state; plan_resolution := {| items := []; conflicts := [] |}; plan_expires_at := 0;
            plan_selected_pack := false |}
  end.

Lemma demo_plan_ok :
  ∃ w, resolve_plan_for 1000 demo_state [select "modrinth:A" None] demo_manifest demo_live 0%nat = (Ok (Some demo_plan), w).
Proof. eexists. vm_compute. reflexivity. Qed.

Definition demo_files : list PlannedFile :=
  match authorized_files 1299 "2026-01-01T00:00:00Z" demo_plan demo_state false with Ok files => files | Err _ => [] end.

Lemma demo_authorized : authorized_files 1299 "2026-01-01T00:00:00Z" demo_plan demo_state false = Ok demo_files.
Proof. vm_compute. reflexivity. Qed.

(** The plan installs A and B; the C that B requires is there already. *)
Lemma authorized_plan_current_witness :
  (1299 < 1000 + 300) ∧ planned_canonical_id <$> demo_files = ["modrinth:A"; "modrinth:B"].
Proof.
  destruct demo_plan_ok as [w Hplan].
  destruct (authorized_plan_current _ _ _ _ _ _ _ _ _ _ _ _ _ _ _ _ _ demo_injective demo_state_ok Hplan demo_state_ok
    demo_authorized) as (Hnow & _). split; [exact Hnow|vm_compute; reflexivity].
Defined.

(** An item that excludes a version, by its identifier only, whose project the
    provider did not give, and an item of this very version: no conflict. *)
Definition excludes_b1 : ResolvedContentItem := {|
  item_canonical_id := "modrinth:A"; item_provider := ProviderModrinth; item_project_id := "A"; item_kind := KindMod;
  item_version_id := "a1"; item_version_number := "a1"; item_title := "A"; item_file := demo_file "a.jar";
  item_dependencies := [{| dep_project_id := None; dep_version_id := Some "b1"; dep_kind := Incompatible |}];
  item_reason := DependencyReason; item_already_installed := false; item_update := false |}.
Definition excluded_b1 : ResolvedContentItem := {|
  item_canonical_id := "modrinth:B"; item_provider := ProviderModrinth; item_project_id := "B"; item_kind := KindMod;
  item_version_id := "b1"; item_version_number := "b1"; item_title := "B"; item_file := demo_file "b.jar";
  item_dependencies := []; item_reason := DependencyReason; item_already_installed := false; item_update := false |}.

Example version_only_exclusion_missed :
  append_selected_incompatibility_conflicts [excludes_b1; excluded_b1] [] = Ok [] ∧
  incompatible_dependency_matches
    {| dep_project_id := None; dep_version_id := Some "b1"; dep_kind := Incompatible |} "B" "b1" = true.
Proof. vm_compute. done. Qed.

(** A second later the plan has expired; at another revision it is refused. *)
Example expired_plan_refused :
  authorized_files 1300 "2026-01-01T00:00:00Z" demo_plan demo_state true = Err PlanExpired.
Proof. vm_compute. reflexivity. Qed.

Definition offered_updates : list AvailableUpdate :=
  match available_updates demo_target demo_manifest demo_live 0%nat with (Ok updates, _) => updates | _ => [] end.

Lemma demo_updates :
  ∃ w, available_updates demo_target demo_manifest demo_live 0%nat = (Ok offered_updates, w) ∧
    update_latest_version_id <$> offered_updates = ["c2"].
Proof. eexists. split; vm_compute; reflexivity. Qed.

Lemma available_updates_spec_witness :
  update_canonical_id <$> offered_updates `sublist_of` ["modrinth:C"] ∧ offered_updates ≠ [].
Proof.
  destruct demo_updates as (w & Hu & Hc).
  destruct (available_updates_spec _ _ _ _ _ _ Hu) as [Hsub _]. split; [exact Hsub|].
  intros E. rewrite E in Hc. discriminate Hc.
Defined.
End PlanDemo.
