(* ===== verification/ContentCompat.v ===== *)
(** * Choosing an instance for content ([core/app/src/content/compatibility.rs])

    Content picked before there is an instance for it is scored against every
    pair of a mod loader and a game version that some of its files support.
    The provider is the interface [ContentService]. *)

From S2P Require Import Prelude RustStr Effect ContentModel ContentProvenance ContentProvider ContentVersions ContentResolve.
From S2P Require Import McLoaderIdentity.

Definition short_key (self : LoaderComponentId) : string :=
  match self with Fabric => "fabric" | Quilt => "quilt" | Forge => "forge" | NeoForge => "neoforge" end.

Definition loader_display_name (self : LoaderComponentId) : string :=
  match self with Fabric => "Fabric" | Quilt => "Quilt" | Forge => "Forge" | NeoForge => "NeoForge" end.

Definition LOADER_RANK : list LoaderComponentId := [Fabric; NeoForge; Forge; Quilt].

Definition loader_component_from_short_key (value : string) : option LoaderComponentId :=
  find (λ component, str_eqb (short_key component) value) LOADER_RANK.

Record CompatVersion := {
  cv_loaders : list LoaderComponentId;
  cv_game_versions : list string;
  cv_installable : bool;
}.

Definition from_provider_version (loaders game_versions : list string) (installable : bool) : CompatVersion := {|
  cv_loaders := omap loader_component_from_short_key loaders;
  cv_game_versions := game_versions; cv_installable := installable |}.

Record CompatItem := {
  ci_canonical_id : CanonicalId;
  ci_title : string;
  ci_kind : ContentKind;
  ci_versions : list CompatVersion;
}.

Record CompatDrop := { drop_canonical_id : CanonicalId; drop_title : string }.

Record CompatCandidate := {
  cc_loader : string;
  cc_loader_label : string;
  cc_game_version : string;
  cc_selection_id : string;
  cc_summary : string;
  cc_supported_count : nat;
  cc_total_count : nat;
  cc_complete : bool;
  cc_drops : list CompatDrop;
}.

(** ** Ranking *)

Definition item_supports (item : CompatItem) (loader : option LoaderComponentId) (game_version : string) : bool :=
  existsb (λ version,
    if negb (cv_installable version) then false
    else if negb (existsb (λ value, str_eqb value game_version) (cv_game_versions version)) then false
    else if negb (filters_by_loader (ci_kind item)) then true
    else match loader with
         | Some loader => bool_decide (loader ∈ cv_loaders version)
         | None => false
         end) (ci_versions item).

(** The loaders some picked content ships a file for. *)
Definition ships_for (items : list CompatItem) (loader : LoaderComponentId) : bool :=
  existsb (λ item, filters_by_loader (ci_kind item) &&
    existsb (λ value, bool_decide (value = loader))
      (filter (λ version, cv_installable version = true) (ci_versions item) ≫= cv_loaders)) items.

Definition candidate_loaders (items : list CompatItem) : list (option LoaderComponentId) :=
  if negb (existsb (λ item, filters_by_loader (ci_kind item)) items) then [None]
  else
    let loaders := Some <$> filter (λ loader, ships_for items loader = true) LOADER_RANK in
    match loaders with [] => [None] | _ => loaders end.

Definition is_release_version (value : string) : bool :=
  negb (is_empty value) &&
  forallb (λ part, negb (is_empty part) && sforall is_digit part) (split_on "." value).

Definition version_key (value : string) : list Z :=
  (λ part, default 0 (parse_u32 part)) <$> split_on "." value.

(** The comparison of [Vec<u32>]. *)
Fixpoint vec_cmp (a b : list Z) : comparison :=
  match a, b with
  | [], [] => Eq
  | [], _ :: _ => Lt
  | _ :: _, [] => Gt
  | x :: a, y :: b => then_with (Z.compare x y) (vec_cmp a b)
  end.

(** [Vec::dedup]: one element of each run of equal ones. *)
Definition dedup (l : list string) : list string :=
  foldr (λ x kept, match kept with y :: _ => if str_eqb x y then kept else x :: kept | [] => [x] end) [] l.

Definition candidate_game_versions (items : list CompatItem) : list string :=
  let versions := filter (λ value, is_release_version value = true)
    (filter (λ version, cv_installable version = true) (items ≫= ci_versions) ≫= cv_game_versions) in
  dedup (sort_by (cmp_rev (cmp_on version_key vec_cmp)) versions).

Definition loader_rank (loader : string) : nat :=
  default (length LOADER_RANK)
    (loader ← loader_component_from_short_key loader;
     fst <$> list_find (λ entry, entry = loader) LOADER_RANK).

Definition build_candidate (loader : option LoaderComponentId) (game_version : string)
    (supported_count total_count : nat) (drops : list CompatDrop) : CompatCandidate :=
  let complete := (supported_count =? total_count)%nat in {|
  cc_loader := from_option short_key "" loader;
  cc_loader_label := from_option loader_display_name "Vanilla" loader;
  cc_selection_id :=
    match loader with
    | Some id => "loader_version|" +:+ component_as_str id +:+ "|" +:+ game_version
    | None => "vanilla|" +:+ game_version
    end;
  cc_game_version := game_version;
  cc_summary :=
    if complete && (total_count =? 1)%nat then "Works here"
    else if complete then "All " +:+ display_nat total_count +:+ " work here"
    else display_nat supported_count +:+ " of " +:+ display_nat total_count +:+ " work here";
  cc_supported_count := supported_count; cc_total_count := total_count; cc_complete := complete; cc_drops := drops |}.

Definition dropped (items : list CompatItem) (loader : option LoaderComponentId) (game_version : string) :
    list CompatDrop :=
  (λ item, {| drop_canonical_id := ci_canonical_id item; drop_title := ci_title item |}) <$>
    filter (λ item, item_supports item loader game_version = false) items.

(** One round of the loops; [continue] is [None]. *)
Definition candidate_for (items : list CompatItem) (loader : option LoaderComponentId) (game_version : string) :
    option CompatCandidate :=
  let drops := dropped items loader game_version in
  let supported_count := (length items - length drops)%nat in
  if (supported_count =? 0)%nat then None
  else Some (build_candidate loader game_version supported_count (length items) drops).

Definition candidate_cmp : CompatCandidate → CompatCandidate → comparison :=
  cmp_then (cmp_rev (cmp_on cc_supported_count Nat.compare))
    (cmp_then (cmp_rev (cmp_on (λ c, version_key (cc_game_version c)) vec_cmp))
       (cmp_on (λ c, loader_rank (cc_loader c)) Nat.compare)).

Definition rank_candidates (items : list CompatItem) : list CompatCandidate :=
  match items with
  | [] => []
  | _ =>
      sort_by candidate_cmp
        (candidate_loaders items ≫= λ loader,
           omap (candidate_for items loader) (candidate_game_versions items))
  end.

(** ** The request *)

Section service.
Context {W : Type} `{ContentService W}.

Definition selection_versions (selection : ResolutionSelection) (listed : list ContentVersion) : list CompatVersion :=
  (λ version, from_provider_version (version_loaders version) (version_game_versions version)
                (has_primary version)) <$>
    filter (λ version, is_none_or (selection_version_id selection) (λ id, str_eqb (version_id version) id) = true) listed.

Definition compat_item (known : gmap CanonicalId ProjectMetadata) (selection : ResolutionSelection) :
    eff W ResolutionError CompatItem :=
  let id := selection_canonical_id selection in
  let project := known !! id in
  lift (err_if (is_some_and project (λ project, negb (bool_decide (meta_kind project = selection_kind selection))))
    SelectedKindChanged) ;;
  lift (err_if (bool_decide (selection_kind selection = KindModpack)) ModpackRequiresInstance) ;;
  listed ← (if is_none project then mret []
    else
      answer ← eff_try (versions id {| filter_loader := None; filter_game_version := None |});
      match answer with
      | Ok listed => mret listed
      | Err error => if not_found error then mret [] else lift (Err (ResolutionProvider error))
      end);
  mret {| ci_canonical_id := id; ci_title := from_option meta_title "Unavailable content" project;
          ci_kind := selection_kind selection; ci_versions := selection_versions selection listed |}.

Definition compatibility (selections : list ResolutionSelection) : eff W ResolutionError (list CompatCandidate) :=
  match selections with
  | [] => mret []
  | _ =>
      lift (err_if (256 <? Z.of_nat (length selections))
        (LimitExceeded LimitSelections 256 (Z.of_nat (length selections)))) ;;
      lift (err_if (negb (bool_decide (NoDup (selection_canonical_id <$> selections)))) DuplicateSelection) ;;
      known ← eff_map_err ResolutionProvider (metadata (selection_canonical_id <$> selections));
      items ← eff_fold (λ items selection, item ← compat_item known selection; mret (items ++ [item])) [] selections;
      mret (rank_candidates items)
  end.
End service.

(** ** Lemmas *)

#[global] Instance vec_cmp_total : CmpTotal vec_cmp.
Proof.
  split; [split|].
  - intros x. induction x as [|a x IH]; intros [|b y]; simpl; [done..|].
    rewrite (Z.compare_antisym a b), IH. by destruct (a ?= b).
  - intros x. induction x as [|a x IH]; intros [|b y] [|c z]; simpl; try done. specialize (IH y z).
    destruct (Z.compare_spec a b), (Z.compare_spec b c), (Z.compare_spec a c); simpl; done || lia.
  - intros x. induction x as [|a x IH]; intros [|b y]; simpl; try done.
    destruct (Z.compare_spec a b) as [->| |]; simpl; try done. by intros ->%IH.
Qed.

#[global] Instance candidate_cmp_preorder : CmpPreorder candidate_cmp.
Proof. unfold candidate_cmp. apply _. Qed.

Lemma elem_of_dedup l x : x ∈ dedup l ↔ x ∈ l.
Proof.
  induction l as [|y l IH]; [done|]. rewrite elem_of_cons. cbn [dedup foldr]. fold (dedup l).
  destruct (dedup l) as [|z kept] eqn:E; [rewrite elem_of_cons; set_solver|].
  destruct (str_eqb y z) eqn:Ey; [apply str_eqb_spec in Ey as ->; rewrite <-IH; set_solver|].
  rewrite elem_of_cons. naive_solver.
Qed.

Lemma elem_of_game_versions items v :
  v ∈ candidate_game_versions items ↔
  is_release_version v = true ∧
  ∃ item version, item ∈ items ∧ version ∈ ci_versions item ∧ cv_installable version = true ∧ v ∈ cv_game_versions version.
Proof.
  unfold candidate_game_versions. rewrite elem_of_dedup, sort_by_perm, list_elem_of_filter, list_elem_of_bind.
  setoid_rewrite list_elem_of_filter. setoid_rewrite list_elem_of_bind. naive_solver.
Qed.

Definition supports_with (item : CompatItem) (loader : option LoaderComponentId) (game_version : string)
    (version : CompatVersion) : Prop :=
  version ∈ ci_versions item ∧ cv_installable version = true ∧ game_version ∈ cv_game_versions version ∧
  (filters_by_loader (ci_kind item) = true → ∃ l, loader = Some l ∧ l ∈ cv_loaders version).

Lemma item_supports_iff item loader v : item_supports item loader v = true ↔ ∃ version, supports_with item loader v version.
Proof.
  unfold item_supports, supports_with. rewrite existsb_exists. setoid_rewrite <-list_elem_of_In.
  apply exist_proper. intros version. assert (existsb (λ value, str_eqb value v) (cv_game_versions version) = true ↔
    v ∈ cv_game_versions version) as Hv.
  { rewrite existsb_exists. setoid_rewrite <-list_elem_of_In. setoid_rewrite str_eqb_spec. naive_solver. }
  destruct (cv_installable version); simpl; [|naive_solver].
  destruct (existsb _ _); simpl; [|naive_solver].
  destruct (filters_by_loader (ci_kind item)); simpl; [|naive_solver].
  destruct loader as [l|]; [|naive_solver]. rewrite bool_decide_eq_true. naive_solver.
Qed.

Lemma ships_for_iff items l :
  ships_for items l = true ↔
  ∃ item version, item ∈ items ∧ filters_by_loader (ci_kind item) = true ∧ version ∈ ci_versions item ∧
    cv_installable version = true ∧ l ∈ cv_loaders version.
Proof.
  unfold ships_for. rewrite existsb_exists. setoid_rewrite <-list_elem_of_In. setoid_rewrite andb_true_iff.
  setoid_rewrite existsb_exists. setoid_rewrite <-list_elem_of_In. setoid_rewrite bool_decide_eq_true.
  setoid_rewrite list_elem_of_bind. setoid_rewrite list_elem_of_filter. naive_solver.
Qed.

Lemma loader_ranked (l : LoaderComponentId) : l ∈ LOADER_RANK.
Proof. destruct l; repeat ((by left) || right). Qed.

(** Some considered loader serves every item that a given one serves. *)
Lemma considered_loader_dominates items loader v :
  ∃ l, l ∈ candidate_loaders items ∧
    ∀ item, item ∈ items → item_supports item loader v = true → item_supports item l v = true.
Proof.
  assert (∀ l item, filters_by_loader (ci_kind item) = false → item_supports item loader v = true →
    item_supports item l v = true) as Hfree.
  { intros l item Hf. rewrite !item_supports_iff. intros (version & ? & ? & ? & _). exists version.
    split_and!; [done..|]. intros E. by rewrite Hf in E. }
  unfold candidate_loaders. destruct (existsb _ items) eqn:Eneeds; simpl.
  2: { exists None. split; [by left|]. intros item Hin. apply Hfree. apply not_true_iff_false. intros Hf.
       apply not_true_iff_false in Eneeds. apply Eneeds, existsb_exists. exists item. by rewrite <-list_elem_of_In. }
  set (shipped := filter (λ l, ships_for items l = true) LOADER_RANK).
  assert (∀ item, item ∈ items → item_supports item loader v = true → filters_by_loader (ci_kind item) = true →
    ∃ l, loader = Some l ∧ l ∈ shipped) as Hship.
  { intros item Hin (version & Hv & Hi & _ & Hl)%item_supports_iff Hf. destruct (Hl Hf) as (l & -> & Hlv).
    exists l. split; [done|]. apply list_elem_of_filter. split; [|apply loader_ranked]. apply ships_for_iff. by exists item, version. }
  assert ((∃ l, loader = Some l ∧ l ∈ shipped) ∨ ¬ ∃ l, loader = Some l ∧ l ∈ shipped) as [(l & -> & Hl)|Hno].
  { clear Hship. destruct loader as [l|]; [destruct (decide (l ∈ shipped)); [left; by exists l|]|];
      right; by intros (? & [= <-] & ?). }
  - exists (Some l). destruct shipped as [|s shipped']; [by apply elem_of_nil in Hl|]. split; [|done].
    change (Some l ∈ Some <$> (s :: shipped')). by apply list_elem_of_fmap_2.
  - assert (∃ l, l ∈ match Some <$> shipped with [] => [None] | _ => Some <$> shipped end) as [l Hl].
    { destruct shipped as [|s shipped']; [by exists None; left|exists (Some s); by left]. }
    exists l. split; [exact Hl|]. intros item Hin Hs. apply Hfree; [|done].
    apply not_true_iff_false. intros Hf. apply Hno. eapply Hship; [exact Hin|exact Hs|exact Hf].
Qed.

(** The items that load under a loader and a game version. *)
Definition supported (items : list CompatItem) (loader : option LoaderComponentId) (game_version : string) :
    list CompatItem :=
  filter (λ item, item_supports item loader game_version = true) items.

Lemma dropped_length items loader v :
  (length items - length (dropped items loader v))%nat = length (supported items loader v).
Proof.
  unfold dropped, supported. rewrite length_fmap. induction items as [|item items IH]; [done|]. rewrite !filter_cons.
  assert (length (filter (λ item, item_supports item loader v = false) items) ≤ length items)%nat as Hle
    by apply length_filter.
  destruct (item_supports item loader v); simpl; lia.
Qed.

Lemma supported_mono items l l' v :
  (∀ item, item ∈ items → item_supports item l v = true → item_supports item l' v = true) →
  (length (supported items l v) ≤ length (supported items l' v))%nat.
Proof.
  unfold supported. induction items as [|item items IH]; intros Himp; [done|]. rewrite !filter_cons.
  assert (length (filter (λ item, item_supports item l v = true) items) ≤
    length (filter (λ item, item_supports item l' v = true) items))%nat as Hle.
  { apply IH. intros x Hx. apply Himp. by right. }
  pose proof (Himp item (list_elem_of_here _ _)) as Hi.
  repeat case_decide; simpl; try lia. naive_solver.
Qed.

Lemma candidate_for_some items loader v c :
  candidate_for items loader v = Some c ↔
  supported items loader v ≠ [] ∧
  c = build_candidate loader v (length (supported items loader v)) (length items) (dropped items loader v).
Proof.
  unfold candidate_for. rewrite dropped_length. destruct (supported items loader v) as [|i l]; simpl; naive_solver.
Qed.

Lemma elem_of_candidates items c :
  c ∈ rank_candidates items ↔
  ∃ loader v, loader ∈ candidate_loaders items ∧ v ∈ candidate_game_versions items ∧ candidate_for items loader v = Some c.
Proof.
  unfold rank_candidates. destruct items as [|item items'] eqn:Ei.
  { split; [by intros ?%elem_of_nil|]. intros (loader & v & _ & Hv & _). apply elem_of_game_versions in Hv. set_solver. }
  rewrite <-Ei, sort_by_perm, list_elem_of_bind. setoid_rewrite list_elem_of_omap. naive_solver.
Qed.

Lemma all_supported_iff items loader v :
  length (supported items loader v) = length items ↔ ∀ item, item ∈ items → item_supports item loader v = true.
Proof.
  unfold supported. induction items as [|item items IH]; [set_solver|]. rewrite filter_cons.
  pose proof (length_filter (λ item, item_supports item loader v = true) items) as Hle.
  setoid_rewrite elem_of_cons. case_decide as Hi; simpl.
  - rewrite Nat.succ_inj_wd, IH. naive_solver.
  - split; [lia|]. intros Hall. destruct Hi. by apply Hall; left.
Qed.

Lemma rank_candidates_sorted items : StronglySorted (λ a b, candidate_cmp a b ≠ Gt) (rank_candidates items).
Proof. unfold rank_candidates. destruct items; [constructor|apply (sort_by_sorted candidate_cmp)]. Qed.

Lemma candidate_cmp_supported a b : candidate_cmp a b ≠ Gt → (cc_supported_count b ≤ cc_supported_count a)%nat.
Proof.
  unfold candidate_cmp, cmp_then, cmp_rev, cmp_on, then_with. destruct (Nat.compare_spec (cc_supported_count b) (cc_supported_count a));
    [lia|lia|done].
Qed.

Lemma best_candidate items c :
  c ∈ rank_candidates items →
  ∃ best rest, rank_candidates items = best :: rest ∧ (cc_supported_count c ≤ cc_supported_count best)%nat.
Proof.
  intros Hin. pose proof (rank_candidates_sorted items) as Hs. destruct (rank_candidates items) as [|best rest].
  { by apply elem_of_nil in Hin. }
  exists best, rest. split; [done|]. apply elem_of_cons in Hin as [->|Hin]; [lia|].
  apply StronglySorted_inv in Hs as [_ Hall]. rewrite list.Forall_forall in Hall. by apply candidate_cmp_supported, Hall.
Qed.

(** What each candidate says of its pair, in the order of preference; and the
    first candidate is the best: no loader and no released game version at all
    lets more of the picked content work. *)
Theorem rank_candidates_spec items :
  (∀ c, c ∈ rank_candidates items →
    ∃ loader v, cc_loader c = from_option short_key "" loader ∧ cc_game_version c = v ∧ is_release_version v = true ∧
      supported items loader v ≠ [] ∧ cc_supported_count c = length (supported items loader v) ∧
      cc_total_count c = length items ∧
      cc_drops c = (λ item, {| drop_canonical_id := ci_canonical_id item; drop_title := ci_title item |}) <$>
        filter (λ item, item_supports item loader v = false) items ∧
      (cc_complete c = true ↔ ∀ item, item ∈ items → item_supports item loader v = true)) ∧
  StronglySorted (λ a b, candidate_cmp a b ≠ Gt) (rank_candidates items) ∧
  (∀ loader v, is_release_version v = true → supported items loader v ≠ [] →
    ∃ best rest, rank_candidates items = best :: rest ∧ (length (supported items loader v) ≤ cc_supported_count best)%nat).
Proof.
  split_and!.
  - intros c (loader & v & _ & Hv & [Hne ->]%candidate_for_some)%elem_of_candidates.
    apply elem_of_game_versions in Hv as [Hrel _]. exists loader, v. split_and!; [done..|].
    cbn [cc_complete build_candidate]. rewrite Nat.eqb_eq. apply all_supported_iff.
  - apply rank_candidates_sorted.
  - intros loader v Hrel Hne. destruct (considered_loader_dominates items loader v) as (l & Hl & Himp).
    apply supported_mono in Himp as Hlen.
    destruct (supported items loader v) as [|item its] eqn:Es; [done|].
    assert (item ∈ supported items loader v) as [Hs Hin]%list_elem_of_filter by (rewrite Es; left).
    destruct (best_candidate items (build_candidate l v (length (supported items l v)) (length items) (dropped items l v)))
      as (best & rest & E & Hb); [|exists best, rest; split; [done|etrans; [exact Hlen|exact Hb]]].
    apply elem_of_candidates. exists l, v. split_and!; [done| |].
    + apply elem_of_game_versions. split; [done|]. apply item_supports_iff in Hs as (version & ? & ? & ? & _).
      by exists item, version.
    + apply candidate_for_some. split; [|done]. destruct (supported items l v); simpl in *; [lia|done].
Qed.
