(* ===== verification/InstallModel.v ===== *)
(** * Installs and what is shown of them ([core/app/src/install/model.rs], [queue.rs])

    Requests, the items they resolve to, their statuses, and the projections
    of the queue for its clients.  Instants are milliseconds. *)

From S2P Require Import Prelude RustStr ContentModel ContentVersions ContentResolve.
From S2P Require Import McLoaderIdentity ContentCompat.

Open Scope string_scope.
Open Scope list_scope.
Open Scope Z_scope.

(** ** Data *)

#[global] Instance resolution_selection_eq_dec : EqDecision ResolutionSelection.
Proof. solve_decision. Defined.

Inductive InstallQueueContentActionRequest :=
| ActionInstall (selections : list ResolutionSelection) (allow_incompatible : bool)
| ActionUninstall (canonical_ids : list string)
| ActionModpack (canonical_id version_id : string) (selected_file_ids : list string) (include_overrides : bool).
#[global] Instance content_action_eq_dec : EqDecision InstallQueueContentActionRequest.
Proof. solve_decision. Defined.

Inductive InstallQueueRequest :=
| Vanilla (version_id : string)
| Loader (component : LoaderComponentId) (build_id : string)
| Content (instance_id label : string) (action : InstallQueueContentActionRequest).
#[global] Instance install_request_eq_dec : EqDecision InstallQueueRequest.
Proof. solve_decision. Defined.

Record InstallQueueLoaderItem := {
  item_component_id : string;
  item_build_id : string;
  item_minecraft_version : string;
  item_loader_version : string;
}.
#[global] Instance loader_item_eq_dec : EqDecision InstallQueueLoaderItem.
Proof. solve_decision. Defined.

Record InstallQueueContentItem := {
  item_instance_id : string;
  item_content_label : string;
  item_action : InstallQueueContentActionRequest;
}.
#[global] Instance content_item_eq_dec : EqDecision InstallQueueContentItem.
Proof. solve_decision. Defined.

Record InstallQueueInstallItem := {
  item_version : string;
  item_loader : option InstallQueueLoaderItem;
  item_content : option InstallQueueContentItem;
}.
#[global] Instance install_item_eq_dec : EqDecision InstallQueueInstallItem.
Proof. solve_decision. Defined.

Inductive InstallError :=
| InvalidRequest | InstallNotFound | AtCapacity | LibraryUnavailable | InstallBusy | InstallStorage
| NotReady | ClientJarMissing | ClientJarCorrupt | VersionJsonMissing | LibrariesMissing
| LibrariesCorrupt | AssetIndexMissing | AssetIndexCorrupt | LoaderUnavailable | ContentUnavailable
| ContentConflict | ContentInterrupted | SettlementRequired | InstallClosed | InstallCancelled
| InstallFailed.
#[global] Instance install_error_eq_dec : EqDecision InstallError.
Proof. solve_decision. Defined.

Definition install_error_to_string (e : InstallError) : string :=
  match e with
  | InvalidRequest => "The install request is invalid."
  | InstallNotFound => "The install was not found."
  | AtCapacity => "The install queue is full. Wait for an installation to finish."
  | LibraryUnavailable => "The library is unavailable."
  | InstallBusy => "The library is in use. Wait for its current operation to finish."
  | InstallStorage => "Installation metadata could not be saved."
  | NotReady =>
      "The version is not fully installed or its files changed. Install it before launching."
  | ClientJarMissing => "Client game files are missing. Install this version before launching."
  | ClientJarCorrupt => "Client game files are corrupt. Repair this version before launching."
  | VersionJsonMissing =>
      "Installed version metadata is missing. Install this version before launching."
  | LibrariesMissing => "Required libraries are missing. Install this version before launching."
  | LibrariesCorrupt => "Required libraries are corrupt. Repair this version before launching."
  | AssetIndexMissing => "Asset index is missing. Install this version before launching."
  | AssetIndexCorrupt => "Asset index is corrupt. Repair this version before launching."
  | LoaderUnavailable => "The selected loader build is unavailable."
  | ContentUnavailable => "Content installation is unavailable."
  | ContentConflict =>
      "Content changed or conflicts with existing files. Review the selection and try again."
  | ContentInterrupted =>
      "Content installation was interrupted. Review installed content before retrying."
  | SettlementRequired =>
      "This installation requires publication settlement before another operation can begin."
  | InstallClosed => "Installations are unavailable while the application is shutting down."
  | InstallCancelled => "Installation resolution was cancelled."
  | InstallFailed => "The installation failed. Check your connection and try again."
  end.

Inductive InstallOutcome := Succeeded | Failed | Cancelled | Removed.
#[global] Instance install_outcome_eq_dec : EqDecision InstallOutcome.
Proof. solve_decision. Defined.

Record DownloadProgress := {
  progress_phase : string;
  progress_current : Z;
  progress_total : Z;
  progress_file : option string;
  progress_error : option string;
  progress_done : bool;
  bytes_done : option Z;
  bytes_total : option Z;
}.

Record InstallProgressStep := {
  step_phase_id : string;
  step_label : string;
  step_progress_pct : Z;
  step_current : Z;
  step_total : Z;
}.

Record InstallProgress := {
  phase_id : string;
  phase_label : string;
  phase_pct : Z;
  phase_terminal : bool;
  phase_failed : bool;
  active_step : option InstallProgressStep;
}.

Definition starting : InstallProgress := {|
  phase_id := "starting"; phase_label := "Preparing install"; phase_pct := 0;
  phase_terminal := false; phase_failed := false; active_step := None |}.

Record InstallAction := {
  action_name : string;
  action_label : string;
  action_enabled : bool;
  disabled_reason : option string;
}.

Definition enabled (action label : string) : InstallAction := {|
  action_name := action; action_label := label; action_enabled := true; disabled_reason := None |}.

Record InstallFailure := {
  failure_state_id : string;
  failure_title : string;
  failure_tone : string;
  failure_summary : string;
  failure_detail : option string;
  failure_details : list string;
  retry_action : InstallAction;
  dismiss_action : InstallAction;
}.

Record InstallStatus := {
  status_revision : Z;
  status_queue_id : string;
  status_outcome : option InstallOutcome;
  allowed_actions : list InstallAction;
  status_install_id : string;
  status_operation_id : string;
  status_done : bool;
  status_progress : list DownloadProgress;
  status_view : InstallProgress;
  failure_view : option InstallFailure;
  failure_point : option string;
}.

(** The status with its view, actions, progress and revision replaced. *)
Definition status_with (s : InstallStatus) (view : InstallProgress) (actions : list InstallAction)
    (progress : list DownloadProgress) (revision : Z) : InstallStatus := {|
  status_revision := revision; status_queue_id := status_queue_id s;
  status_outcome := status_outcome s; allowed_actions := actions;
  status_install_id := status_install_id s; status_operation_id := status_operation_id s;
  status_done := status_done s; status_progress := progress; status_view := view;
  failure_view := failure_view s; failure_point := failure_point s |}.

Definition set_view (s : InstallStatus) (view : InstallProgress) (actions : list InstallAction) : InstallStatus :=
  status_with s view actions (status_progress s) (status_revision s).

Definition bump_status (s : InstallStatus) : InstallStatus :=
  status_with s (status_view s) (allowed_actions s) (status_progress s) (saturating_add_u64 (status_revision s) 1).

(** The view with another phase and label. *)
Definition set_phase (v : InstallProgress) (phase label : string) : InstallProgress := {|
  phase_id := phase; phase_label := label; phase_pct := phase_pct v;
  phase_terminal := phase_terminal v; phase_failed := phase_failed v; active_step := active_step v |}.

(** ** Requests *)

Definition is_content (request : InstallQueueRequest) : bool :=
  match request with Content _ _ _ => true | _ => false end.

Definition request_kind (request : InstallQueueRequest) : string :=
  match request with Vanilla _ => "vanilla" | Loader _ _ => "loader" | Content _ _ _ => "content" end.

Definition content_text (value : string) (maximum : Z) : bool :=
  negb (is_empty (trim value)) && (str_len value <=? maximum) && negb (has_control value).

Definition canonical_byte (c : ascii) : bool :=
  is_alphanumeric c || Ascii.eqb c "-" || Ascii.eqb c "_".

Definition content_canonical (value : string) : bool :=
  is_some_and (strip_prefix "modrinth:" value) (λ id, content_text id 256 && sforall canonical_byte id).

(** [collect::<BTreeSet<_>>().len() == len()]. *)
Definition all_distinct (l : list string) : bool := (size (list_to_set l : gset string) =? length l)%nat.

Definition validate_content_request (label : string) (action : InstallQueueContentActionRequest)
    : result InstallError unit :=
  err_if (negb (content_text label 256)) InvalidRequest ;;
  err_if (negb
    match action with
    | ActionInstall selections _ =>
        negb (length selections =? 0)%nat && (length selections <=? 256)%nat &&
        forallb (λ s, negb (bool_decide (selection_kind s = KindModpack)) &&
                      content_canonical (selection_canonical_id s) &&
                      is_none_or (selection_version_id s) (λ id, content_text id 256)) selections &&
        all_distinct (selection_canonical_id <$> selections)
    | ActionUninstall canonical_ids =>
        negb (length canonical_ids =? 0)%nat && (length canonical_ids <=? 256)%nat &&
        forallb content_canonical canonical_ids && all_distinct canonical_ids
    | ActionModpack canonical_id version_id selected_file_ids include_overrides =>
        content_canonical canonical_id && content_text version_id 256 &&
        (length selected_file_ids <=? 500)%nat &&
        forallb (λ id, content_text id 2048) selected_file_ids && all_distinct selected_file_ids &&
        ((length selected_file_ids =? 0)%nat || negb include_overrides)
    end) InvalidRequest.

Definition item_for_loader {Rest} (record : LoaderBuildRecord Rest) : InstallQueueInstallItem := {|
  item_version := lbr_version_id record; item_content := None;
  item_loader := Some {|
    item_component_id := component_as_str (lbr_component_id record);
    item_build_id := lbr_build_id record; item_minecraft_version := lbr_minecraft_version record;
    item_loader_version := lbr_loader_version record |} |}.

Definition item_label (item : InstallQueueInstallItem) : string :=
  match item_content item, item_loader item with
  | Some content, _ => item_content_label content
  | None, Some loader =>
      match parse_component (item_component_id loader) with
      | None => "Unknown loader"
      | Some component =>
          let name := loader_display_name component in
          let version := trim (item_loader_version loader) in
          let label := if is_empty version then name +:+ " loader" else name +:+ " " +:+ version in
          let minecraft := trim (item_minecraft_version loader) in
          if is_empty minecraft then label else label +:+ " for Minecraft " +:+ minecraft
      end
  | None, None =>
      let version := trim (item_version item) in
      if is_empty version then "Minecraft" else "Minecraft " +:+ version
  end.

(** ** Statuses *)

Definition phase_text (phase : string) : string :=
  if str_eqb phase "version_json" then "Preparing Minecraft"
  else if str_eqb phase "client" then "Downloading Minecraft"
  else if str_eqb phase "libraries" then "Downloading libraries"
  else if str_eqb phase "assets" then "Downloading assets"
  else if str_eqb phase "runtime" || str_eqb phase "java" then "Preparing Java"
  else if str_eqb phase "processors" then "Preparing loader"
  else if str_eqb phase "content_planning" then "Planning content changes"
  else if str_eqb phase "content_download" then "Downloading content"
  else if str_eqb phase "content_commit" then "Applying content changes"
  else "Installing game files".

(** The quotient of nonnegative [i64] values, between 0 and 99. *)
Definition progress_percent (current total : Z) : Z :=
  if 0 <? total then Z.max 0 (Z.min 99 (Z.quot (Z.max current 0 * 100) total)) else 0.

Definition progress_view (event : DownloadProgress) : InstallProgress :=
  let label := phase_text (progress_phase event) in
  let percent := progress_percent (progress_current event) (progress_total event) in
  {| phase_id := progress_phase event; phase_label := label; phase_pct := percent;
     phase_terminal := false; phase_failed := false;
     active_step := Some {|
       step_phase_id := progress_phase event; step_label := label; step_progress_pct := percent;
       step_current := progress_current event; step_total := progress_total event |} |}.

Definition settlement_progress : InstallProgress := {|
  phase_id := "settlement_required"; phase_label := "Installation requires settlement"; phase_pct := 0;
  phase_terminal := false; phase_failed := false; active_step := None |}.

Definition finished_view (outcome : InstallOutcome) : InstallProgress := {|
  phase_id := match outcome with
    | Succeeded => "done" | Failed => "error" | Cancelled => "cancelled" | Removed => "removed" end;
  phase_label := match outcome with
    | Succeeded => "Installation complete" | Failed => "Installation failed"
    | Cancelled => "Installation cancelled" | Removed => "Removed from queue" end;
  phase_pct := if bool_decide (outcome = Succeeded) then 100 else 0;
  phase_terminal := true; phase_failed := bool_decide (outcome = Failed); active_step := None |}.

Definition failure_of (error : InstallError) : InstallFailure := {|
  failure_state_id := "failed"; failure_title := "Installation failed"; failure_tone := "danger";
  failure_summary := install_error_to_string error; failure_detail := None; failure_details := [];
  retry_action := enabled "retry" "Retry"; dismiss_action := enabled "dismiss" "Dismiss" |}.

Definition finish_status (s : InstallStatus) (outcome : InstallOutcome) (error : option InstallError)
    : InstallStatus := {|
  status_revision := saturating_add_u64 (status_revision s) 1; status_queue_id := status_queue_id s;
  status_outcome := Some outcome; allowed_actions := []; status_install_id := status_install_id s;
  status_operation_id := status_operation_id s; status_done := true;
  status_progress := status_progress s; status_view := finished_view outcome;
  failure_view := match error with Some e => Some (failure_of e) | None => failure_view s end;
  failure_point := failure_point s |}.

Definition remove_action : InstallAction := enabled "remove_from_queue" "Remove from queue".

Definition queued_status (id operation : string) : InstallStatus := {|
  status_revision := 1; status_queue_id := id; status_outcome := None;
  allowed_actions := [remove_action]; status_install_id := id; status_operation_id := operation;
  status_done := false; status_progress := [];
  status_view := set_phase starting "queued" "Queued for installation";
  failure_view := None; failure_point := None |}.

(** The status of an entry that a restart finds past the queue. *)
Definition interrupted_status (s : InstallStatus) : InstallStatus := {|
  status_revision := status_revision s; status_queue_id := status_queue_id s; status_outcome := None;
  allowed_actions := []; status_install_id := status_install_id s;
  status_operation_id := status_operation_id s; status_done := false;
  status_progress := status_progress s; status_view := settlement_progress;
  failure_view := failure_view s; failure_point := failure_point s |}.

(** The progress kept by phase, 32 phases at most. *)
Definition record_progress (l : list DownloadProgress) (event : DownloadProgress) : list DownloadProgress :=
  match list_find (λ previous, progress_phase previous = progress_phase event) l with
  | Some (i, _) => <[i := event]> l
  | None => if (length l <? 32)%nat then l ++ [event] else l
  end.

Definition private_event (event : DownloadProgress) : DownloadProgress := {|
  progress_phase := progress_phase event; progress_current := progress_current event;
  progress_total := progress_total event; progress_file := None; progress_error := None;
  progress_done := progress_done event; bytes_done := bytes_done event;
  bytes_total := bytes_total event |}.

Record InstallStart := {
  start_install_id : string;
  start_operation_id : string;
  start_view : InstallProgress;
}.

Definition start_response (s : InstallStatus) : InstallStart := {|
  start_install_id := status_install_id s; start_operation_id := status_operation_id s;
  start_view := status_view s |}.
