(* ===== verification/InstallQueue.v ===== *)
(** * The install queue ([core/app/src/install/queue.rs])

    Intents to install are rows of a table first and entries in memory second;
    one of them is active at a time.  [World] is the database, the queue in
    memory and the work the task owner holds.  Every function that runs under
    the queue's lock is one operation here; what it learns from elsewhere (the
    clock, the task owner, the exclusions, the library, the registry of
    instances, other tables) is its environment, and what an install did is the
    argument of the operation that ends it.  Where the code releases the lock
    and goes on with [resume_queued], [start_next] is a step of its own. *)

From S2P Require Import Prelude RustStr Effect McPortablePath McLoaderIdentity SettingsModel Storage.
From S2P Require Import InstanceModel ContentModel InstallModel.

Open Scope string_scope.
Open Scope list_scope.
Open Scope Z_scope.

(** ** Tables *)

Inductive RowPhase := PhaseQueued | PhaseRunning | PhaseSettlement | PhaseTerminal.
#[global] Instance row_phase_eq_dec : EqDecision RowPhase.
Proof. solve_decision. Defined.

Record QueueRow := {
  rowid : Z;
  row_operation : string;
  row_library : string;
  row_request : string;
  row_target : string;
  row_status : string;
  row_phase : RowPhase;
  accepted_at : Z;
  row_checkpoint : option string;
}.

Inductive VersionState := Activating | VersionReady.
#[global] Instance version_state_eq_dec : EqDecision VersionState.
Proof. solve_decision. Defined.

Record VersionRow := {
  version_contract : string;
  version_inventory : string;
  version_install : string;
  version_state : VersionState;
}.

(** The intents by identity, the installed versions by library and version. *)
Record InstallTables := {
  queue_rows : gmap string QueueRow;
  version_rows : gmap (string * string) VersionRow;
}.

Definition set_rows (t : InstallTables) (rows : gmap string QueueRow) : InstallTables :=
  {| queue_rows := rows; version_rows := version_rows t |}.
Definition set_versions (t : InstallTables) (rows : gmap (string * string) VersionRow) : InstallTables :=
  {| queue_rows := queue_rows t; version_rows := rows |}.

Inductive CheckpointKind := CheckpointFinal | CheckpointBase | CheckpointRolledBack.
#[global] Instance checkpoint_kind_eq_dec : EqDecision CheckpointKind.
Proof. solve_decision. Defined.

Record PublicationCheckpoint := {
  checkpoint_kind : CheckpointKind;
  checkpoint_version : string;
  checkpoint_evidence : string;
  checkpoint_contract : option string;
}.

(** serde_json on the columns. *)
Class InstallJson := {
  request_to_string : InstallQueueRequest → option string;
  request_from_str : string → option InstallQueueRequest;
  item_to_string : InstallQueueInstallItem → option string;
  item_from_str : string → option InstallQueueInstallItem;
  status_to_string : InstallStatus → option string;
  status_from_str : string → option InstallStatus;
  checkpoint_to_string : PublicationCheckpoint → option string;
  checkpoint_from_str : string → option PublicationCheckpoint;
}.

Inductive QueueStatement :=
| SelectPending | SelectStatus | UpdateFront | SelectFront | InsertIntent | UpdateStatus
| UpdateCheckpoint | UpsertVersion | UpdateReady.

(** One transaction: what SQLite does of it, and which statement fails. *)
Record Tx := { tx_call : SqliteCall; tx_fault : QueueStatement → option StorageError }.

Definition quiet_tx : Tx := {| tx_call := quiet_call; tx_fault := λ _, None |}.

(** ** The queue in memory *)

Record GenerationPin := { pin_library : string; pin_generation : Z }.
#[global] Instance generation_pin_eq_dec : EqDecision GenerationPin.
Proof. solve_decision. Defined.

(** The accepted setup of an instance, as far as the queue looks at it. *)
Record SetupWork := {
  work_instance : InstanceId;
  work_version : string;
  work_pin : GenerationPin;
  work_request : InstallQueueRequest;
  work_prerequisite : InstallQueueRequest;
}.

(** The keys an exclusion lease covers; it is released when nothing holds it. *)
Definition Lease : Type := list (string * string).

Inductive DurableOutcome := NoEffect | Mismatch | Committed | RolledBack | Indeterminate.

(** The recovery values of the game library are opaque: their kind remains. *)
Inductive RetainedInstall :=
| RetainRetry
| RetainContent (settled : option (InstallOutcome * option InstallError))
| RetainPublication
| RetainLoaderPublication
| RetainOutcome (outcome : DurableOutcome)
| RetainAcknowledgement (continues : bool).

Record Entry := {
  entry_request : InstallQueueRequest;
  entry_item : InstallQueueInstallItem;
  entry_status : InstallStatus;
  entry_pin : option GenerationPin;
  started_at : option Z;
  entry_cancelled : bool;
  retained : option RetainedInstall;
  recovery_lease : option Lease;
  recovery_running : bool;
  setup : option SetupWork;
}.

Definition set_status (e : Entry) (s : InstallStatus) : Entry := {|
  entry_request := entry_request e; entry_item := entry_item e; entry_status := s;
  entry_pin := entry_pin e; started_at := started_at e; entry_cancelled := entry_cancelled e;
  retained := retained e; recovery_lease := recovery_lease e;
  recovery_running := recovery_running e; setup := setup e |}.
Definition set_started (e : Entry) (at_ : option Z) : Entry := {|
  entry_request := entry_request e; entry_item := entry_item e; entry_status := entry_status e;
  entry_pin := entry_pin e; started_at := at_; entry_cancelled := entry_cancelled e;
  retained := retained e; recovery_lease := recovery_lease e;
  recovery_running := recovery_running e; setup := setup e |}.
Definition set_cancelled (e : Entry) : Entry := {|
  entry_request := entry_request e; entry_item := entry_item e; entry_status := entry_status e;
  entry_pin := entry_pin e; started_at := started_at e; entry_cancelled := true;
  retained := retained e; recovery_lease := recovery_lease e;
  recovery_running := recovery_running e; setup := setup e |}.
(** What an entry holds of the library: its pin, its lease and its setup. *)
Definition set_held (e : Entry) (pin : option GenerationPin) (lease : option Lease)
    (work : option SetupWork) : Entry := {|
  entry_request := entry_request e; entry_item := entry_item e; entry_status := entry_status e;
  entry_pin := pin; started_at := started_at e; entry_cancelled := entry_cancelled e;
  retained := retained e; recovery_lease := lease;
  recovery_running := recovery_running e; setup := work |}.
Definition set_retained (e : Entry) (r : option RetainedInstall) : Entry := {|
  entry_request := entry_request e; entry_item := entry_item e; entry_status := entry_status e;
  entry_pin := entry_pin e; started_at := started_at e; entry_cancelled := entry_cancelled e;
  retained := r; recovery_lease := recovery_lease e;
  recovery_running := recovery_running e; setup := setup e |}.
Definition set_running (e : Entry) (running : bool) : Entry := {|
  entry_request := entry_request e; entry_item := entry_item e; entry_status := entry_status e;
  entry_pin := entry_pin e; started_at := started_at e; entry_cancelled := entry_cancelled e;
  retained := retained e; recovery_lease := recovery_lease e;
  recovery_running := running; setup := setup e |}.
Definition set_lease (e : Entry) (lease : option Lease) : Entry :=
  set_held e (entry_pin e) lease (setup e).
Definition set_setup (e : Entry) (work : option SetupWork) : Entry :=
  set_held e (entry_pin e) (recovery_lease e) work.

Record InstallQueueFailure := {
  failed_at_ms : Z;
  failure_queue_id : string;
  failure_install_id : string;
  failure_operation_id : string;
  failure_label : string;
  failure_item : InstallQueueInstallItem;
  failure_view_model : InstallFailure;
}.

Record QueueState := {
  epoch : string;
  registry_revision : Z;
  revision : Z;
  queued : list string;
  active : option string;
  entries : gmap string Entry;
  latest_failure : option InstallQueueFailure;
  closed : bool;
}.

Definition set_line (s : QueueState) (q : list string) (a : option string) : QueueState := {|
  epoch := epoch s; registry_revision := registry_revision s; revision := revision s;
  queued := q; active := a; entries := entries s; latest_failure := latest_failure s;
  closed := closed s |}.
Definition set_entries (s : QueueState) (es : gmap string Entry) : QueueState := {|
  epoch := epoch s; registry_revision := registry_revision s; revision := revision s;
  queued := queued s; active := active s; entries := es; latest_failure := latest_failure s;
  closed := closed s |}.
Definition set_entry (s : QueueState) (id : string) (e : Entry) : QueueState :=
  set_entries s (<[id := e]> (entries s)).
Definition set_revisions (s : QueueState) (registry rev : Z) : QueueState := {|
  epoch := epoch s; registry_revision := registry; revision := rev;
  queued := queued s; active := active s; entries := entries s;
  latest_failure := latest_failure s; closed := closed s |}.
Definition set_failure (s : QueueState) (f : option InstallQueueFailure) : QueueState := {|
  epoch := epoch s; registry_revision := registry_revision s; revision := revision s;
  queued := queued s; active := active s; entries := entries s; latest_failure := f;
  closed := closed s |}.
Definition set_closed (s : QueueState) : QueueState := {|
  epoch := epoch s; registry_revision := registry_revision s; revision := revision s;
  queued := queued s; active := active s; entries := entries s;
  latest_failure := latest_failure s; closed := true |}.

Definition bump_registry (s : QueueState) : QueueState :=
  set_revisions s (saturating_add_u64 (registry_revision s) 1) (revision s).

(** The entries in the order of the map. *)
Definition entries_in_order (s : QueueState) : list (string * Entry) :=
  sort_by (cmp_on fst str_cmp) (map_to_list (entries s)).

(** ** Projections *)

Definition retained_retry_eligible (e : Entry) : bool :=
  negb (is_content (entry_request e)) && negb (status_done (entry_status e)) &&
  str_eqb (phase_id (status_view (entry_status e))) "settlement_required" &&
  negb (is_none (entry_pin e)) && negb (is_none (recovery_lease e)) && negb (recovery_running e).

Record ActiveView := {
  active_queue_id : string;
  active_retry_action : option InstallAction;
  active_install_id : option string;
  active_operation_id : option string;
  active_started_at : option Z;
  active_kind : string;
  active_title : string;
  active_label : string;
  active_summary : string;
  active_item : InstallQueueInstallItem;
  active_progress : InstallProgress;
}.

Record QueuedItemView := {
  queued_queue_id : string;
  queued_state_id : string;
  queued_kind : string;
  queued_title : string;
  queued_label : string;
  queued_summary : string;
  queued_detail : string;
  queued_position : nat;
  queued_total : nat;
  queued_item : InstallQueueInstallItem;
  queued_remove_action : InstallAction;
}.

Record QueueView := {
  queue_state_id : string;
  queue_status_label : string;
  queue_title : string;
  queue_summary : string;
  queue_count : nat;
  queue_count_label : string;
  queue_item_label : string;
  next_label : option string;
  active_queued_count_label : option string;
  queue_section_title : string;
  queue_empty_title : string;
  queue_empty_summary : string;
}.

Record QueueNotice := {
  notice_state_id : string;
  notice_tone : string;
  notice_message : string;
  notice_detail : option string;
}.

Record QueueResponse := {
  response_epoch : string;
  response_revision : Z;
  response_registry_revision : Z;
  response_failure : option InstallQueueFailure;
  response_active : option ActiveView;
  response_items : list QueuedItemView;
  response_view : QueueView;
  response_notice : option QueueNotice;
  response_started : option InstallStart;
  response_removed : option string;
}.

Definition active_view (s : QueueState) (id : string) (e : Entry) : ActiveView := {|
  active_queue_id := id; active_install_id := Some id;
  active_operation_id := Some (status_operation_id (entry_status e));
  active_started_at := started_at e; active_kind := request_kind (entry_request e);
  active_title := item_label (entry_item e); active_label := item_label (entry_item e);
  active_summary := phase_label (status_view (entry_status e)); active_item := entry_item e;
  active_progress := status_view (entry_status e);
  active_retry_action :=
    if negb (closed s) && retained_retry_eligible e
    then Some (enabled "retry" "Retry settlement") else None |}.

Definition queued_view (total index : nat) (id : string) (e : Entry) : QueuedItemView := {|
  queued_queue_id := id; queued_state_id := "queued"; queued_kind := request_kind (entry_request e);
  queued_title := item_label (entry_item e); queued_label := item_label (entry_item e);
  queued_summary := "Waiting to install"; queued_detail := ""; queued_position := S index;
  queued_total := total; queued_item := entry_item e; queued_remove_action := remove_action |}.

Definition queue_view (s : QueueState) : QueueView :=
  let total := length (queued s) in {|
  queue_state_id := if negb (is_none (active s)) then "active" else if (0 <? total)%nat then "queued" else "empty";
  queue_status_label := if negb (is_none (active s)) then "Installing" else "Install queue";
  queue_title := "Install queue"; queue_summary := ""; queue_count := total;
  queue_count_label := display_Z (Z.of_nat total) +:+ " queued"; queue_item_label := "Queued installs";
  next_label := None; active_queued_count_label := None;
  queue_section_title := "Up next"; queue_empty_title := "No queued installs";
  queue_empty_summary := "Installations will appear here." |}.

Definition project (s : QueueState) : QueueResponse := {|
  response_epoch := epoch s; response_revision := revision s;
  response_registry_revision := registry_revision s; response_failure := latest_failure s;
  response_active := id ← active s; e ← entries s !! id; Some (active_view s id e);
  response_items := omap (λ '(index, id),
    queued_view (length (queued s)) index id <$> entries s !! id)
    (zip (seq 0 (length (queued s))) (queued s));
  response_view := queue_view s; response_notice := None; response_started := None;
  response_removed := None |}.

Definition response_with (r : QueueResponse) (notice : option QueueNotice) (started : option InstallStart)
    (removed : option string) : QueueResponse := {|
  response_epoch := response_epoch r; response_revision := response_revision r;
  response_registry_revision := response_registry_revision r; response_failure := response_failure r;
  response_active := response_active r; response_items := response_items r;
  response_view := response_view r; response_notice := notice; response_started := started;
  response_removed := removed |}.

Definition project_with_started (s : QueueState) (started : option InstallStart) : QueueResponse :=
  response_with (project s) None started None.

(** ** The world *)

(** The work the task owner holds for an install: accepted and not looked at,
    running, or returned and not joined; [SettleContent] and [RunRecovery]
    are the two kinds of recovery, with what they read when they were
    accepted and, once returned, their result. *)
Inductive WorkerKind :=
| RunInstall
| RunRecovery (answer : option (result InstallError unit))
| SettleContent (settled : option (InstallOutcome * option InstallError)) (retained_any : bool)
    (work : option SetupWork).
Inductive WorkerStage := Accepted | Working | Returned.
#[global] Instance worker_stage_eq_dec : EqDecision WorkerStage.
Proof. solve_decision. Defined.

Record Worker := {
  worker_install : string;
  worker_kind : WorkerKind;
  worker_lease : Lease;
  worker_stage : WorkerStage;
}.

Record World := {
  store : MetadataStore InstallTables;
  state : QueueState;
  workers : gmap nat Worker;   (* by the number of the task *)
  next_worker : nat;
  observers_closed : bool;
  latest : QueueResponse;
}.

Definition with_store (w : World) (st : MetadataStore InstallTables) : World := {|
  store := st; state := state w; workers := workers w; next_worker := next_worker w; observers_closed := observers_closed w;
  latest := latest w |}.
Definition with_state (w : World) (s : QueueState) : World := {|
  store := store w; state := s; workers := workers w; next_worker := next_worker w; observers_closed := observers_closed w;
  latest := latest w |}.
(** A task that was accepted, one that went on, and one that was joined. *)
Definition add_worker (w : World) (k : Worker) : World := {|
  store := store w; state := state w; workers := <[next_worker w := k]> (workers w);
  next_worker := S (next_worker w); observers_closed := observers_closed w; latest := latest w |}.
Definition set_worker (w : World) (n : nat) (k : Worker) : World := {|
  store := store w; state := state w; workers := <[n := k]> (workers w); next_worker := next_worker w;
  observers_closed := observers_closed w; latest := latest w |}.
Definition remove_worker (w : World) (n : nat) : World := {|
  store := store w; state := state w; workers := delete n (workers w); next_worker := next_worker w;
  observers_closed := observers_closed w; latest := latest w |}.
Definition set_stage (k : Worker) (stage : WorkerStage) : Worker := {|
  worker_install := worker_install k; worker_kind := worker_kind k; worker_lease := worker_lease k;
  worker_stage := stage |}.

(** [publish], on the state a function leaves. *)
Definition publish (w : World) (s : QueueState) : World :=
  let s := set_revisions s (registry_revision s) (saturating_add_u64 (revision s) 1) in {|
  store := store w; state := s; workers := workers w; next_worker := next_worker w; observers_closed := observers_closed w;
  latest := project s |}.

Definition get_world : eff World InstallError World := λ w, (Ok w, w).
Definition put_state (s : QueueState) : eff World InstallError unit := λ w, (Ok tt, with_state w s).

(** ** Statements *)

Definition from_storage (_ : StorageError) : InstallError := InstallStorage.

Definition statement {A} (tx : Tx) (s : QueueStatement)
    (run : InstallTables → result InstallError A * InstallTables) : eff InstallTables InstallError A := λ t,
  match tx_fault tx s with
  | Some e => (Err (from_storage e), t)
  | None => run t
  end.

Definition in_transaction {A} (tx : Tx) (write : eff InstallTables InstallError A)
    (st : MetadataStore InstallTables) : result InstallError A * MetadataStore InstallTables :=
  transaction from_storage (tx_call tx) write st.

Definition stored {A} (tx : Tx) (write : eff InstallTables InstallError A) : eff World InstallError A := λ w,
  let '(r, st) := in_transaction tx write (store w) in (r, with_store w st).

(** [UPDATE install_queue SET … WHERE id=…]: how many rows changed. *)
Definition update_row (tx : Tx) (s : QueueStatement) (id : string) (change : QueueRow → QueueRow)
    : eff InstallTables InstallError nat :=
  statement tx s (λ t,
    match queue_rows t !! id with
    | Some row => (Ok 1%nat, set_rows t (<[id := change row]> (queue_rows t)))
    | None => (Ok 0%nat, t)
    end).

Definition set_row_status (status : string) (phase : RowPhase) (row : QueueRow) : QueueRow := {|
  rowid := rowid row; row_operation := row_operation row; row_library := row_library row;
  row_request := row_request row; row_target := row_target row; row_status := status;
  row_phase := phase; accepted_at := accepted_at row; row_checkpoint := row_checkpoint row |}.
Definition set_accepted_at (at_ : Z) (row : QueueRow) : QueueRow := {|
  rowid := rowid row; row_operation := row_operation row; row_library := row_library row;
  row_request := row_request row; row_target := row_target row; row_status := row_status row;
  row_phase := row_phase row; accepted_at := at_; row_checkpoint := row_checkpoint row |}.
Definition set_checkpoint (checkpoint : string) (row : QueueRow) : QueueRow := {|
  rowid := rowid row; row_operation := row_operation row; row_library := row_library row;
  row_request := row_request row; row_target := row_target row; row_status := row_status row;
  row_phase := row_phase row; accepted_at := accepted_at row; row_checkpoint := Some checkpoint |}.

(** [MIN(accepted_at)] of the queued rows. *)
Definition queued_times (rows : gmap string QueueRow) : list Z :=
  (λ kr, accepted_at kr.2) <$> filter (λ kr, row_phase kr.2 = PhaseQueued) (map_to_list rows).
Definition min_of (l : list Z) : option Z :=
  match l with [] => None | x :: l => Some (foldr Z.min x l) end.
Definition first_accepted (rows : gmap string QueueRow) : option Z := min_of (queued_times rows).

(** The identity SQLite gives the next row. *)
Definition next_rowid (rows : gmap string QueueRow) : Z :=
  1 + foldr Z.max 0 ((λ kr, rowid kr.2) <$> map_to_list rows).

(** Ahead of every queued row; with none left the column is null, which the
    table refuses. *)
Definition update_front (tx : Tx) (id : string) : eff InstallTables InstallError unit :=
  statement tx UpdateFront (λ t,
    match queue_rows t !! id with
    | None => (Ok tt, t)
    | Some row =>
        match first_accepted (queue_rows t) with
        | None => (Err (from_storage Sqlite), t)
        | Some first => (Ok tt, set_rows t (<[id := set_accepted_at (first - 1) row]> (queue_rows t)))
        end
    end).

(** An inserted row gets the next identity. *)
Definition insert_row (tx : Tx) (id : string) (row : Z → QueueRow) : eff InstallTables InstallError unit :=
  statement tx InsertIntent (λ t,
    match queue_rows t !! id with
    | Some _ => (Err (from_storage Sqlite), t)
    | None => (Ok tt, set_rows t (<[id := row (next_rowid (queue_rows t))]> (queue_rows t)))
    end).

(** [COALESCE(MIN(accepted_at)-1, now)]. *)
Definition select_front (tx : Tx) (now : Z) : eff InstallTables InstallError Z :=
  statement tx SelectFront (λ t,
    (Ok (match first_accepted (queue_rows t) with Some first => first - 1 | None => now end), t)).

(** Whether the content service is attached to the queue. *)
Class InstallContent := content_attached : bool.

Section queue.
Context `{UuidParser} `{UnicodeNorm} `{InstallJson} `{InstallContent}.

Definition persist_status (tx : Tx) (s : InstallStatus) (phase : RowPhase) (st : MetadataStore InstallTables)
    : result InstallError unit * MetadataStore InstallTables :=
  match status_to_string s with
  | None => (Err InstallStorage, st)
  | Some encoded =>
      in_transaction tx
        (update_row tx UpdateStatus (status_install_id s) (set_row_status encoded phase) ;; mret tt) st
  end.

(** The status of an entry, saved and then kept; [None] when saving failed. *)
Definition save_status (tx : Tx) (s : InstallStatus) (phase : RowPhase) (w : World) : bool * World :=
  let '(r, st) := persist_status tx s phase (store w) in (is_ok r, with_store w st).

Definition library_artifact (library : string) : string * string := (library, "managed-game-artifacts").
Definition install_artifacts (request : InstallQueueRequest) (library : string) : Lease :=
  if is_content request then [] else [library_artifact library].

(** ** Admission *)

Record AdmitEnv := {
  (** the library of a live instance *)
  live_library : InstanceId → option string;
  fresh_id : string;
  fresh_operation : string;
  admit_closing : bool;
  admit_now : Z;
  admit_tx : Tx;
}.

Definition admissible_content (env : AdmitEnv) (request : InstallQueueRequest) (pin : GenerationPin)
    : result InstallError unit :=
  match request with
  | Content instance_id _ _ =>
      err_if (negb content_attached) ContentUnavailable ;;
      id ← map_err (λ _, InvalidRequest) (instance_id_from_str instance_id);
      library ← ok_or InstallNotFound (live_library env id);
      err_if (negb (str_eqb library (pin_library pin))) LibraryUnavailable
  | _ => Ok tt
  end.

(** The undone entry of a request, the first in the order of the map. *)
Definition existing_entry (request : InstallQueueRequest) (s : QueueState) : option (string * Entry) :=
  find (λ '(_, e), negb (status_done (entry_status e)) && bool_decide (entry_request e = request))
    (entries_in_order s).

Definition move_front (env : AdmitEnv) (id : string) : eff World InstallError unit :=
  stored (admit_tx env) (update_front (admit_tx env) id) ;;
  w ← get_world;
  put_state (set_line (state w) (id :: filter (λ other, other ≠ id) (queued (state w))) (active (state w))).

Definition attach_setup (id : string) (e : Entry) (work : option SetupWork) : eff World InstallError unit :=
  w ← get_world;
  if work is Some _ then put_state (set_entry (state w) id (set_setup e work)) else mret tt.

(** A request that is queued or active already. *)
Definition rejoin (env : AdmitEnv) (item : InstallQueueInstallItem) (pin : GenerationPin)
    (work : option SetupWork) (front : bool) (id : string) (e : Entry) : eff World InstallError string :=
  lift (err_if (negb (bool_decide (entry_item e = item)) ||
                negb (is_some_and (entry_pin e) (λ p, bool_decide (p = pin)))) LibraryUnavailable) ;;
  w ← get_world;
  (if front && bool_decide (id ∈ queued (state w)) then move_front env id else mret tt) ;;
  attach_setup id e work ;;
  mret id.

Definition new_entry (env : AdmitEnv) (request : InstallQueueRequest) (item : InstallQueueInstallItem)
    (pin : GenerationPin) (work : option SetupWork) : Entry := {|
  entry_request := request; entry_item := item;
  entry_status := queued_status (fresh_id env) (fresh_operation env); entry_pin := Some pin;
  started_at := None; entry_cancelled := false; retained := None; recovery_lease := None;
  recovery_running := false; setup := work |}.

Definition insert_intent (env : AdmitEnv) (front : bool) (library request item status : string)
    : eff InstallTables InstallError unit :=
  at_ ← (if front then select_front (admit_tx env) (admit_now env) else mret (admit_now env));
  insert_row (admit_tx env) (fresh_id env) (λ n, {|
    rowid := n; row_operation := fresh_operation env; row_library := library;
    row_request := request; row_target := item; row_status := status; row_phase := PhaseQueued;
    accepted_at := at_; row_checkpoint := None |}).

Definition MAX_QUEUED : nat := 128.

Definition occupied (s : QueueState) : nat :=
  (length (queued s) + (if active s is Some _ then 1 else 0))%nat.

(** A new intent, saved before the queue has it. *)
Definition admit_new (env : AdmitEnv) (request : InstallQueueRequest) (item : InstallQueueInstallItem)
    (pin : GenerationPin) (work : option SetupWork) (front : bool) : eff World InstallError string :=
  let e := new_entry env request item pin work in
  request_json ← lift (ok_or InstallStorage (request_to_string request));
  item_json ← lift (ok_or InstallStorage (item_to_string item));
  status_json ← lift (ok_or InstallStorage (status_to_string (entry_status e)));
  stored (admit_tx env)
    (insert_intent env front (pin_library pin) request_json item_json status_json) ;;
  w ← get_world;
  let line := if front then fresh_id env :: queued (state w) else queued (state w) ++ [fresh_id env] in
  put_state (set_entry (set_line (state w) line (active (state w))) (fresh_id env) e) ;;
  mret (fresh_id env).

Definition admit_locked (env : AdmitEnv) (request : InstallQueueRequest) (item : InstallQueueInstallItem)
    (pin : GenerationPin) (work : option SetupWork) (front : bool) : eff World InstallError string :=
  lift (admissible_content env request pin) ;;
  w ← get_world;
  lift (err_if (closed (state w) || admit_closing env) InstallClosed) ;;
  match existing_entry request (state w) with
  | Some (id, e) => rejoin env item pin work front id e
  | None =>
      lift (err_if (MAX_QUEUED <=? occupied (state w))%nat AtCapacity) ;;
      admit_new env request item pin work front
  end.

(** What the caller sees: the projection with the install it asked for. *)
Definition answered (r : result InstallError string) (s : QueueState) : result InstallError QueueResponse :=
  id ← r;
  Ok (project_with_started s ((λ e, start_response (entry_status e)) <$> entries s !! id)).

Definition enqueue_resolved (env : AdmitEnv) (request : InstallQueueRequest) (item : InstallQueueInstallItem)
    (pin : GenerationPin) (work : option SetupWork) (front : bool) (w : World)
    : result InstallError QueueResponse * World :=
  let '(r, w) := admit_locked env request item pin work front w in
  let w := publish w (state w) in
  (answered r (state w), w).

(** What a request resolves to.  The record of a loader build comes from the
    provider, the record of an instance from its registry. *)
Record ResolveEnv := {
  loader_build : LoaderComponentId → string → result InstallError (LoaderBuildRecord unit);
  live_version : InstanceId → option string;
}.

Definition resolve_target (env : ResolveEnv) (request : InstallQueueRequest)
    : result InstallError InstallQueueInstallItem :=
  match request with
  | Vanilla version_id =>
      map_err (λ _, InvalidRequest) (file_name_new_exact version_id) ;;
      Ok {| item_version := version_id; item_loader := None; item_content := None |}
  | Loader component build_id => item_for_loader <$> loader_build env component build_id
  | Content instance_id label action =>
      validate_content_request label action ;;
      err_if (negb content_attached) ContentUnavailable ;;
      id ← map_err (λ _, InvalidRequest) (instance_id_from_str instance_id);
      version ← ok_or InstallNotFound (live_version env id);
      Ok {| item_version := version; item_loader := None;
            item_content := Some {| item_instance_id := instance_id; item_content_label := label;
                                    item_action := action |} |}
  end.

(** [enqueue_with_placement], up to its call of [resume_queued]. *)
Definition enqueue_with_placement (env : AdmitEnv) (renv : ResolveEnv) (admits : option GenerationPin)
    (request : InstallQueueRequest) (work : option SetupWork) (front : bool) (w : World)
    : result InstallError QueueResponse * World :=
  match resolve_target renv request with
  | Err e => (Err e, w)
  | Ok item =>
      match (if work is Some work then Ok (work_pin work) else ok_or LibraryUnavailable admits) with
      | Err e => (Err e, w)
      | Ok pin => enqueue_resolved env request item pin work front w
      end
  end.

(** The two admissions of a setup, under one lock; [ready] says that the
    version of the instance is installed. *)
Definition admit_setup (env env' : AdmitEnv) (request prerequisite : InstallQueueRequest)
    (work : SetupWork) (front : bool) (item : InstallQueueInstallItem)
    (prerequisite_item : option InstallQueueInstallItem) : eff World InstallError string :=
  let pin := work_pin work in
  if front then
    id ← admit_locked env request item pin (Some work) true;
    match prerequisite_item with
    | Some item => admit_locked env' prerequisite item pin None true ;; mret id
    | None => mret id
    end
  else
    w ← get_world;
    let existing := existsb (λ '(_, e), negb (status_done (entry_status e)) && bool_decide (entry_request e = request))
      (entries_in_order (state w)) in
    match prerequisite_item with
    | Some item => admit_locked env' prerequisite item pin None existing ;; mret tt
    | None => mret tt
    end ;;
    admit_locked env request item pin (Some work) false.

Definition setup_items (renv : ResolveEnv) (ready : result InstallError bool)
    (request prerequisite : InstallQueueRequest) (work : SetupWork)
    : result InstallError (InstallQueueInstallItem * option InstallQueueInstallItem) :=
  err_if (negb (bool_decide (request = work_request work)) ||
          negb (bool_decide (prerequisite = work_prerequisite work))) InvalidRequest ;;
  ready ← ready;
  prerequisite_item ← (if ready : bool then Ok None else Some <$> resolve_target renv prerequisite);
  item ← resolve_target renv request;
  Ok (item, prerequisite_item).

Definition enqueue_setup_with_placement (env env' : AdmitEnv) (renv : ResolveEnv) (ready : result InstallError bool)
    (request prerequisite : InstallQueueRequest) (work : SetupWork) (front : bool) (w : World)
    : result InstallError QueueResponse * World :=
  match setup_items renv ready request prerequisite work with
  | Err e => (Err e, w)
  | Ok (item, prerequisite_item) =>
      let '(r, w) := admit_setup env env' request prerequisite work front item prerequisite_item w in
      let w := publish w (state w) in
      (answered r (state w), w)
  end.

(** ** Scheduling *)

Record StartEnv := {
  start_closing : bool;
  setup_pending : InstanceId → bool;   (* of another service; true when it cannot be read *)
  lease_granted : bool;
  library_opens : bool;
  spawns : bool;
  start_now : Z;
  running_tx : Tx;
  waiting_tx : Tx;
}.

(** A content request waits for the setup of its instance. *)
Definition startable (env : StartEnv) (e : Entry) : bool :=
  match entry_request e with
  | Content instance_id _ _ =>
      content_attached &&
      match instance_id_from_str instance_id with
      | Ok id => negb (is_none (setup e) && setup_pending env id)
      | Err _ => false
      end
  | _ => true
  end.

Definition starting_entry (env : StartEnv) (e : Entry) : Entry :=
  set_started (set_status e (set_view (entry_status e) starting
    (if is_content (entry_request e) then [] else [enabled "cancel" "Cancel install"])))
    (Some (start_now env)).

(** The task owner refused the work of an entry that is saved as running. *)
Definition start_refused (env : StartEnv) (id : string) (e : Entry) (lease : Lease) (w : World) : World :=
  let waiting := set_view (entry_status e)
    (set_phase (status_view (entry_status e)) "queued" "Waiting for an install slot") [remove_action] in
  let '(saved, w) := save_status (waiting_tx env) waiting PhaseQueued w in
  let s := state w in
  if saved : bool then
    with_state w (set_line (set_entry s id (set_started (set_status e waiting) None)) (id :: queued s) None)
  else
    with_state w (set_entry s id
      (set_retained (set_lease (set_status e (set_view (entry_status e) settlement_progress [])) (Some lease))
        (Some (if is_content (entry_request e) then RetainContent (Some (Failed, Some InstallStorage))
               else RetainRetry)))).

Definition start_entry (env : StartEnv) (id : string) (rest : list string) (e : Entry) (pin : GenerationPin)
    (w : World) : World :=
  let lease := install_artifacts (entry_request e) (pin_library pin) in
  let e := starting_entry env e in
  let w := with_state w (set_entry (state w) id e) in
  let '(saved, w) := save_status (running_tx env) (entry_status e) PhaseRunning w in
  if saved : bool then
    let w := with_state w (set_line (state w) rest (Some id)) in
    let w :=
      if spawns env then
        add_worker w {| worker_install := id; worker_kind := RunInstall; worker_lease := lease;
                        worker_stage := Accepted |}
      else start_refused env id e lease w in
    publish w (state w)
  else w.

Definition start_next (env : StartEnv) (w : World) : World :=
  let s := state w in
  if closed s || negb (is_none (active s)) || start_closing env || observers_closed w then w
  else match queued s with
  | [] => w
  | id :: rest =>
      match entries s !! id with
      | None => w
      | Some e =>
          match entry_pin e with
          | Some pin =>
              if startable env e && lease_granted env && library_opens env
              then start_entry env id rest e pin w else w
          | None => w
          end
      end
  end.

(** ** Ending work *)

Definition failure_shown (now : Z) (id : string) (e : Entry) (s : InstallStatus) (failure : InstallFailure)
    : InstallQueueFailure := {|
  failed_at_ms := now; failure_queue_id := id; failure_install_id := id;
  failure_operation_id := status_operation_id s; failure_label := item_label (entry_item e);
  failure_item := entry_item e; failure_view_model := failure |}.

(** [complete]; the telemetry it emits after a failure is left out. *)
Definition complete (tx : Tx) (now : Z) (id : string) (outcome : InstallOutcome) (error : option InstallError)
    (w : World) : bool * World :=
  match entries (state w) !! id with
  | None => (false, w)
  | Some e =>
      if status_done (entry_status e) then (true, w)
      else
        let s := finish_status (entry_status e) outcome error in
        let '(saved, w) := save_status tx s PhaseTerminal w in
        if saved : bool then
          let e := set_retained (set_held (set_status e s) None None None) None in
          let st := set_line (set_entry (state w) id e) (queued (state w)) None in
          let st := match failure_view s with
                    | Some failure => set_failure st (Some (failure_shown now id e s failure))
                    | None => st end in
          (true, publish w (bump_registry st))
        else
          let e := set_status e (set_view (entry_status e) settlement_progress (allowed_actions (entry_status e))) in
          (false, publish w (set_entry (state w) id e))
  end.

(** Whether a settlement became visible on an entry with a setup. *)
Definition setup_changed (e : Entry) : bool :=
  negb (is_none (setup e)) && negb (str_eqb (phase_id (status_view (entry_status e))) "settlement_required").

Definition settlement_status (s : InstallStatus) : InstallStatus :=
  bump_status (set_view s settlement_progress []).

Definition retain_unsettled (tx : Tx) (id : string) (r : RetainedInstall) (w : World) : World :=
  match entries (state w) !! id with
  | None => publish w (state w)
  | Some e =>
      let changed := setup_changed e in
      let e := set_retained (set_status e (settlement_status (entry_status e))) (Some r) in
      let '(_, w) := save_status tx (entry_status e) PhaseSettlement w in
      let s := set_entry (state w) id e in
      publish w (if changed : bool then bump_registry s else s)
  end.

Definition retain_work (tx : Tx) (id : string) (lease : Lease) (r : RetainedInstall) (w : World) : World :=
  let w := match entries (state w) !! id with
           | Some e => with_state w (set_entry (state w) id (set_lease e (Some lease)))
           | None => w end in
  retain_unsettled tx id r w.

Inductive WorkFailure := WorkFailed (e : InstallError) | WorkUnsettled (r : RetainedInstall).

(** [From<InstallError> for WorkFailure]. *)
Definition failure_from (e : InstallError) : WorkFailure := WorkUnsettled RetainRetry.

Record EndEnv := { end_now : Z; complete_tx : Tx; retain_tx : Tx }.

Definition complete_or_retain (env : EndEnv) (id : string) (lease : Lease) (outcome : InstallOutcome)
    (error : option InstallError) (r : RetainedInstall) (w : World) : World :=
  let '(done, w) := complete (complete_tx env) (end_now env) id outcome error w in
  if done : bool then w else retain_work (retain_tx env) id lease r w.

(** The end of [run] for a version or a loader, on what its work came to. *)
Definition finish_run (env : EndEnv) (id : string) (lease : Lease) (r : result WorkFailure unit) (w : World) : World :=
  match r with
  | Ok _ => complete_or_retain env id lease Succeeded None RetainRetry w
  | Err (WorkFailed InstallCancelled) => complete_or_retain env id lease Cancelled None RetainRetry w
  | Err (WorkFailed e) => complete_or_retain env id lease Failed (Some e) RetainRetry w
  | Err (WorkUnsettled recovery) => retain_work (retain_tx env) id lease recovery w
  end.

Definition finish_content (env : EndEnv) (id : string) (lease : Lease) (r : result WorkFailure InstallOutcome)
    (w : World) : World :=
  match r with
  | Err (WorkUnsettled recovery) => retain_work (retain_tx env) id lease recovery w
  | Ok outcome =>
      complete_or_retain env id lease outcome None (RetainContent (Some (outcome, None))) w
  | Err (WorkFailed e) =>
      complete_or_retain env id lease Failed (Some e) (RetainContent (Some (Failed, Some e))) w
  end.

(** What the work of an entry came to; the kind says which end it has. *)
Inductive WorkResult :=
| InstallResult (r : result WorkFailure unit)
| ContentResult (r : result WorkFailure InstallOutcome).

Definition finish_work (env : EndEnv) (id : string) (lease : Lease) (r : WorkResult) (w : World) : World :=
  match r with
  | InstallResult r => finish_run env id lease r w
  | ContentResult r => finish_content env id lease r w
  end.

Definition progress (id : string) (event : DownloadProgress) (w : World) : World :=
  if progress_done event then w
  else match entries (state w) !! id with
  | None => w
  | Some e =>
      let s := entry_status e in
      if status_done s || str_eqb (phase_id (status_view s)) "settlement_required" then w
      else
        let event := private_event event in
        publish w (set_entry (state w) id (set_status e
          (status_with s (progress_view event) [] (record_progress (status_progress s) event)
            (saturating_add_u64 (status_revision s) 1))))
  end.

(** The first event of [run]. *)
Definition first_event (is_content : bool) : DownloadProgress := {|
  progress_phase := if is_content then "content_planning" else "version_json"; progress_current := 0;
  progress_total := 1; progress_file := None; progress_error := None; progress_done := false;
  bytes_done := None; bytes_total := None |}.

(** The beginning of [run]: an entry cancelled by now, or whose task owner is
    closing, ends here; another one begins its work. *)
Definition run_begin (env : EndEnv) (owner_cancelled : bool) (n : nat) (k : Worker) (w : World) : World :=
  let id := worker_install k in
  match entries (state w) !! id with
  | None => w
  | Some e =>
      if entry_cancelled e || owner_cancelled then
        set_worker (complete_or_retain env id (worker_lease k) Cancelled None
          (if is_content (entry_request e) then RetainContent (Some (Cancelled, None)) else RetainRetry) w)
          n (set_stage k Returned)
      else
        set_worker (progress id (first_event (is_content (entry_request e))) w) n (set_stage k Working)
  end.

(** Its end, on what the work came to. *)
Definition run_end (env : EndEnv) (n : nat) (k : Worker) (r : WorkResult) (w : World) : World :=
  set_worker (finish_work env (worker_install k) (worker_lease k) r w) n (set_stage k Returned).

(** [invalidate_registry] and [join_worker] before it resumes the queue. *)
Definition invalidate_registry (w : World) : World := publish w (bump_registry (state w)).

Definition status_of (id : string) (w : World) : option InstallStatus := entry_status <$> entries (state w) !! id.

Definition join_worker (n : nat) (id : string) (w : World) : World :=
  let w := remove_worker w n in
  if is_some_and (status_of id w) status_done then invalidate_registry w else w.

(** ** Removal, cancellation and shutdown *)

(** [position] and [VecDeque::remove]. *)
Fixpoint remove_first (id : string) (l : list string) : list string :=
  match l with
  | [] => []
  | x :: l => if bool_decide (x = id) then l else x :: remove_first id l
  end.

Definition remove_queued (tx : Tx) (id : string) (w : World) : result InstallError QueueResponse * World :=
  let s := state w in
  if bool_decide (active s = Some id) then (Err InstallBusy, w)
  else if negb (bool_decide (id ∈ queued s)) then (Err InstallNotFound, w)
  else match entries s !! id with
  | None => (Err InstallNotFound, w)
  | Some e =>
      let status := finish_status (entry_status e) Removed None in
      let '(saved, w) := save_status tx status PhaseTerminal w in
      if saved : bool then
        let e := set_held (set_status e status) None (recovery_lease e) None in
        let s := set_line (set_entry (state w) id e) (remove_first id (queued (state w)))
          (active (state w)) in
        let w := publish w (bump_registry s) in (Ok (project (state w)), w)
      else (Err InstallStorage, w)
  end.

(** [remove] of an entry with a setup, on what the removal of the instance
    answered. *)
Definition remove_with_setup (tx : Tx) (id : string) (removed : option (option InstanceId)) (w : World)
    : result InstallError QueueResponse * World :=
  match remove_queued tx id w with
  | (Err e, w) => (Err e, w)
  | (Ok _, w) =>
      let w := publish w (bump_registry (state w)) in
      (Ok match removed with
          | Some removed => response_with (project (state w)) None None removed
          | None => response_with (project (state w)) (Some {|
              notice_state_id := "removed_cleanup_pending"; notice_tone := "warn";
              notice_message := "Removed from queue. Instance cleanup is incomplete.";
              notice_detail := Some "The instance may need deletion to be resumed." |}) None None
          end, w)
  end.

Definition remove (tx : Tx) (spawns_removal : bool) (removed : option (option InstanceId)) (id : string) (w : World)
    : result InstallError QueueResponse * World :=
  let s := state w in
  if bool_decide (active s = Some id) then (Err InstallBusy, w)
  else if negb (bool_decide (id ∈ queued s)) then (Err InstallNotFound, w)
  else match entries s !! id ≫= setup with
  | None => remove_queued tx id w
  | Some _ =>
      match uuid_canonical id with
      | None => (Err InvalidRequest, w)
      | Some _ => if spawns_removal then remove_with_setup tx id removed w else (Err InstallBusy, w)
      end
  end.

Definition cancel (id : string) (w : World) : result InstallError InstallStatus * World :=
  match entries (state w) !! id with
  | None => (Err InstallNotFound, w)
  | Some e =>
      if is_content (entry_request e) || negb (str_eqb (phase_id (status_view (entry_status e))) "starting")
      then (Err InstallBusy, w)
      else (Ok (entry_status e), with_state w (set_entry (state w) id (set_cancelled e)))
  end.

Definition close_admission (w : World) : World := publish w (set_closed (state w)).

Definition has_unsettled_effects (w : World) : bool := negb (is_none (active (state w))).

Definition active_count (w : World) : nat :=
  length (filter (λ '(id, e), status_done (entry_status e) = false ∧ id ∉ queued (state w))
    (map_to_list (entries (state w)))).

Definition shutdown_queued (w : World) : result InstallError unit * World :=
  let s := set_closed (state w) in
  if negb (is_none (active s)) then (Err SettlementRequired, with_state w s)
  else
    (Ok tt, publish w (set_entries s ((λ e, set_held e None (recovery_lease e) None) <$> entries s))).

(** [join_observers] closes the observers and waits for them. *)
Definition join_observers (shut_down : bool) (w : World) : result InstallError unit * World :=
  if negb (closed (state w)) || negb shut_down then (Err InstallBusy, w)
  else (Ok tt, {| store := store w; state := state w; workers := workers w; next_worker := next_worker w;
                  observers_closed := true; latest := latest w |}).

Definition preserved_content_instance (s : QueueState) : result InstallError (option InstanceId) :=
  match active s with
  | None => Ok None
  | Some id =>
      e ← ok_or SettlementRequired (entries s !! id);
      err_if (status_done (entry_status e) || negb (is_none (status_outcome (entry_status e))) ||
              negb (str_eqb (phase_id (status_view (entry_status e))) "settlement_required") ||
              negb match retained e with None | Some (RetainContent None) => true | _ => false end ||
              existsb (λ '(other, e), recovery_running e ||
                (negb (str_eqb other id) && (negb (is_none (retained e)) || negb (is_none (recovery_lease e)))))
                (entries_in_order s)) SettlementRequired ;;
      match entry_request e with
      | Content instance_id _ _ => Some <$> map_err (λ _, InvalidRequest) (instance_id_from_str instance_id)
      | _ => Err SettlementRequired
      end
  end.

Record PreserveEnv := {
  receipt_belongs : bool;
  observers_idle : bool;
  pending_content : InstanceId → result InstallError bool;
  pending_performance : InstanceId → result InstallError bool;
  releases : bool;
}.

(** [preserve_shutdown]; nothing else runs between its two locks, because the
    task owner has shut down and the observers are joined. *)
Definition preserve_shutdown (env : PreserveEnv) (w : World) : result InstallError unit * World :=
  if negb (receipt_belongs env) then (Err InstallBusy, w)
  else if negb (closed (state w)) || negb (observers_closed w) || negb (observers_idle env) ||
          negb (bool_decide (workers w = ∅))
  then (Err InstallBusy, w)
  else match preserved_content_instance (state w) with
  | Err e => (Err e, w)
  | Ok None => shutdown_queued w
  | Ok (Some instance) =>
      match
        err_if (negb content_attached) ContentUnavailable ;;
        pending ← pending_content env instance;
        performance ← (if pending : bool then pending_performance env instance else Ok true);
        err_if performance SettlementRequired ;;
        err_if (negb (releases env)) SettlementRequired
      with
      | Err e => (Err e, w)
      | Ok _ =>
          (Ok tt, with_state w (set_entries (state w)
            ((λ e, set_held e None None None) <$> entries (state w))))
      end
  end.
End queue.

(** ** Recovery

    What a queue does with an install whose end is not known: the recovery of
    a retained one, a restart that finds one, and the operations over its life. *)

Section recovery.
Context `{UuidParser} `{UnicodeNorm} `{InstallJson} `{InstallContent}.

Record RecoverEnv := {
  recover_opens : bool;     (* [pin.managed_library()] *)
  recover_spawns : bool;
  recover_tx : Tx;
  recover_setup_pending : InstanceId → result InstallError bool;
}.

(** [recovery_finished], up to its call of [resume_queued]. *)
Definition recovery_finished (tx : Tx) (id : string) (settled : bool) (w : World) : World :=
  let '(changed, w) :=
    match entries (state w) !! id with
    | None => (false, w)
    | Some e =>
        let e := set_running e false in
        if negb settled && negb (status_done (entry_status e)) then
          let changed := setup_changed e in
          let e := set_status e (settlement_status (entry_status e)) in
          let '(_, w) := save_status tx (entry_status e) PhaseSettlement w in
          (changed, with_state w (set_entry (state w) id e))
        else (false, with_state w (set_entry (state w) id e))
    end in
  publish w (if changed || settled then bump_registry (state w) else state w).

(** [recover_interrupted_with], until its work is accepted. *)
Definition recover_begin (env : RecoverEnv) (id : string) (w : World) : result InstallError unit * World :=
  let s := state w in
  match entries s !! id with
  | None => (Err InstallNotFound, w)
  | Some e =>
      let phase := phase_id (status_view (entry_status e)) in
      if status_done (entry_status e) || str_eqb phase "queued" then (Ok tt, w)
      else if negb (bool_decide (active s = Some id)) || negb (str_eqb phase "settlement_required")
      then (Err InstallBusy, w)
      else if recovery_running e then (Err InstallBusy, w)
      else match entry_pin e, recovery_lease e with
      | None, _ => (Err LibraryUnavailable, w)
      | Some _, None => (Err SettlementRequired, w)
      | Some _, Some lease =>
          let w := publish w (set_entry s id (set_running e true)) in
          if negb (recover_opens env) then
            (Err LibraryUnavailable, recovery_finished (recover_tx env) id false w)
          else if observers_closed w then
            (Err InstallClosed, recovery_finished (recover_tx env) id false w)
          else if negb (recover_spawns env) then
            (Err InstallBusy, recovery_finished (recover_tx env) id false w)
          else (Ok tt, add_worker w {| worker_install := id; worker_kind := RunRecovery None;
                                       worker_lease := lease; worker_stage := Accepted |})
      end
  end.

(** The work takes what was retained. *)
Definition recovery_take (n : nat) (k : Worker) (w : World) : World :=
  let id := worker_install k in
  let w := match entries (state w) !! id with
           | Some e => with_state w (set_entry (state w) id (set_retained e None))
           | None => w end in
  set_worker w n (set_stage k Working).

Definition requeue_recovered (tx : Tx) (id : string) (w : World) : result InstallError unit * World :=
  match entries (state w) !! id with
  | None => (Err InstallNotFound, w)
  | Some e =>
      let s := set_view (entry_status e)
        (set_phase (status_view (entry_status e)) "queued" "Queued after restart") [remove_action] in
      let '(saved, w) := save_status tx s PhaseQueued w in
      if saved : bool then
        let e := set_retained (set_lease (set_status e s) None) None in
        (Ok tt, publish w (set_line (set_entry (state w) id e) (id :: queued (state w)) None))
      else (Err InstallStorage, w)
  end.

(** What [recover_publication], and the continuation of a loader after it,
    came to. *)
Inductive RecoveryAnswer := AnswerRequeue | AnswerSettled (r : result WorkFailure unit).

Definition recovery_answer (env : EndEnv) (id : string) (a : RecoveryAnswer) (w : World)
    : result InstallError unit * World :=
  let retry w := (Err InstallStorage, retain_unsettled (retain_tx env) id RetainRetry w) in
  let ended outcome error w :=
    let '(done, w) := complete (complete_tx env) (end_now env) id outcome error w in
    if done : bool then (Ok tt, w) else retry w in
  match a with
  | AnswerRequeue => requeue_recovered (complete_tx env) id w
  | AnswerSettled (Ok _) => ended Succeeded None w
  | AnswerSettled (Err (WorkFailed e)) => ended Failed (Some e) w
  | AnswerSettled (Err (WorkUnsettled r)) => (Err SettlementRequired, retain_unsettled (retain_tx env) id r w)
  end.

Definition recovery_end (env : EndEnv) (n : nat) (k : Worker) (a : RecoveryAnswer) (w : World) : World :=
  let '(r, w) := recovery_answer env (worker_install k) a w in
  set_worker w n {| worker_install := worker_install k; worker_kind := RunRecovery (Some r);
                    worker_lease := worker_lease k; worker_stage := Returned |}.

(** The waiter of a recovery; work that panicked has no result. *)
Definition recovery_join (tx : Tx) (n : nat) (id : string) (r : option (result InstallError unit)) (w : World) : World :=
  recovery_finished tx id (is_some_and r is_ok) (remove_worker w n).

(** What [recover_content] reads under its first lock. *)
Record ContentRecovery := {
  captured_lease : Lease;
  captured_setup : option SetupWork;
  captured_settled : option (InstallOutcome * option InstallError);
  captured_retained : bool;
}.

Definition recover_content_read (env : RecoverEnv) (id : string) (w : World) : result InstallError ContentRecovery :=
  err_if (negb content_attached) ContentUnavailable ;;
  e ← ok_or InstallNotFound (entries (state w) !! id);
  err_if (recovery_running e) InstallBusy ;;
  err_if (is_none (entry_pin e)) LibraryUnavailable ;;
  lease ← ok_or SettlementRequired (recovery_lease e);
  match entry_request e with
  | Content instance_id _ _ =>
      instance ← map_err (λ _, InvalidRequest) (instance_id_from_str instance_id);
      pending ← (if is_none (setup e) then recover_setup_pending env instance else Ok false);
      err_if pending SettlementRequired ;;
      Ok {| captured_lease := lease; captured_setup := setup e;
            captured_settled := match retained e with Some (RetainContent settled) => settled | _ => None end;
            captured_retained := negb (is_none (retained e)) |}
  | _ => Err InvalidRequest
  end.

(** The second lock, and the acceptance of the work. *)
Definition recover_content_start (env : RecoverEnv) (id : string) (c : ContentRecovery) (w : World)
    : result InstallError unit * World :=
  match entries (state w) !! id with
  | None => (Err InstallNotFound, w)
  | Some e =>
      if recovery_running e then (Err InstallBusy, w)
      else
        let changed := negb (is_none (setup e)) &&
          str_eqb (phase_id (status_view (entry_status e))) "settlement_required" in
        let e := set_running (set_status e
          (bump_status (set_view (entry_status e) starting (allowed_actions (entry_status e))))) true in
        let s := set_entry (state w) id e in
        let w := publish w (if changed : bool then bump_registry s else s) in
        if observers_closed w || negb (recover_spawns env) then
          (Err InstallClosed, recovery_finished (recover_tx env) id false w)
        else
          (Ok tt, add_worker w {|
            worker_install := id;
            worker_kind := SettleContent (captured_settled c) (captured_retained c) (captured_setup c);
            worker_lease := captured_lease c; worker_stage := Working |})
  end.

(** [others] is what the rest of the program does between the two locks. *)
Definition recover_content (env : RecoverEnv) (others : World → World) (id : string) (w : World)
    : result InstallError unit * World :=
  match recover_content_read env id w with
  | Err e => (Err e, w)
  | Ok c => recover_content_start env id c (others w)
  end.

Definition recover_install (env : RecoverEnv) (others : World → World) (id : string) (w : World)
    : result InstallError unit * World :=
  match entries (state w) !! id with
  | None => (Err InstallNotFound, w)
  | Some e => if is_content (entry_request e) then recover_content env others id w else recover_begin env id w
  end.

Definition recover_interrupted (env : RecoverEnv) (others : World → World) (w : World)
    : result InstallError unit * World :=
  match active (state w) with
  | Some id => recover_install env others id w
  | None => (Ok tt, w)
  end.

(** What the accepted work of a content recovery comes to: a settled outcome
    is saved again; otherwise a pending transaction is resumed ([resumed]),
    the setup of the instance is run to its end ([run]), or the interruption
    is reported. *)
Definition content_recovery_result (settled : option (InstallOutcome * option InstallError)) (retained_any : bool)
    (work : option SetupWork) (pending : bool) (resumed run : result WorkFailure InstallOutcome)
    : result WorkFailure InstallOutcome :=
  match settled with
  | Some (_, Some e) => Err (WorkFailed e)
  | Some (outcome, None) => Ok outcome
  | None =>
      if pending then
        match resumed, work with
        | Ok Succeeded, Some _ => run
        | resumed, _ => resumed
        end
      else if negb (is_none work) then run
      else if retained_any then Err (WorkUnsettled (RetainContent None))
      else Err (WorkFailed ContentInterrupted)
  end.

Definition content_recovery_end (env : EndEnv) (n : nat) (k : Worker) (pending : bool)
    (resumed run : result WorkFailure InstallOutcome) (w : World) : World :=
  match worker_kind k with
  | SettleContent settled retained_any work =>
      set_worker (finish_content env (worker_install k) (worker_lease k)
        (content_recovery_result settled retained_any work pending resumed run) w) n (set_stage k Returned)
  | _ => w
  end.

Definition content_recovery_join (tx : Tx) (n : nat) (id : string) (joined : bool) (w : World) : World :=
  let settled := joined && is_some_and (status_of id w) status_done in
  recovery_finished tx id settled (remove_worker w n).

(** [retry] of a request: the retained operation it names, or a new one in
    front of the queue. *)
Definition retained_request (request : InstallQueueRequest) (s : QueueState) : option string :=
  id ← active s;
  e ← entries s !! id;
  if bool_decide (entry_request e = request) && negb (is_content request) &&
     str_eqb (phase_id (status_view (entry_status e))) "settlement_required"
  then Some id else None.

Definition retry_retained (env : RecoverEnv) (others : World → World) (closing : bool) (id : string)
    (request : InstallQueueRequest) (w : World) : result InstallError unit * World :=
  let s := state w in
  if closed s || closing then (Err InstallClosed, w)
  else match entries s !! id with
  | None => (Err InstallNotFound, w)
  | Some e =>
      if negb (bool_decide (entry_request e = request)) || is_content request then (Err InvalidRequest, w)
      else if negb (bool_decide (active s = Some id)) || negb (retained_retry_eligible e)
      then (Err InstallBusy, w)
      else recover_install env others id w
  end.

Definition retry (aenv : AdmitEnv) (renv : ResolveEnv) (admits : option GenerationPin) (env : RecoverEnv)
    (others : World → World) (request : InstallQueueRequest) (w : World) : result InstallError unit * World :=
  match retained_request request (state w) with
  | Some id => retry_retained env others (admit_closing aenv) id request w
  | None =>
      match enqueue_with_placement aenv renv admits request None true w with
      | (Err e, w) => (Err e, w)
      | (Ok response, w) =>
          match response_started response with
          | Some started =>
              if is_content request && str_eqb (phase_id (start_view started)) "settlement_required"
              then recover_install env others (start_install_id started) w else (Ok tt, w)
          | None => (Ok tt, w)
          end
      end
  end.

Definition status (tx : Tx) (id : string) (w : World) : result InstallError InstallStatus * World :=
  match status_of id w with
  | Some s => (Ok s, w)
  | None =>
      let '(r, st) := read_callback from_storage (tx_call tx) (λ t,
        match tx_fault tx SelectStatus with
        | Some e => Err (from_storage e)
        | None => Ok (row_status <$> queue_rows t !! id)
        end) (store w) in
      (encoded ← r; encoded ← ok_or InstallNotFound encoded;
       ok_or InstallStorage (status_from_str encoded), with_store w st)
  end.

(** ** Start of the process *)

Record OpenEnv := {
  open_epoch : string;
  open_tx : Tx;
  open_admits : option GenerationPin;   (* [library.admit().ok()] *)
  open_grants : string → bool;          (* [exclusions.try_acquire] for an intent *)
}.

Definition row_cmp : string * QueueRow → string * QueueRow → Datatypes.comparison :=
  cmp_then (cmp_on (λ kr, accepted_at kr.2) Z.compare) (cmp_on (λ kr, rowid kr.2) Z.compare).

(** [WHERE phase != 'terminal' ORDER BY accepted_at, rowid LIMIT 129]. *)
Definition pending_rows (rows : gmap string QueueRow) : list (string * QueueRow) :=
  take 129 (sort_by row_cmp (filter (λ kr, row_phase kr.2 ≠ PhaseTerminal) (map_to_list rows))).

Definition restored_entry (request : InstallQueueRequest) (item : InstallQueueInstallItem)
    (s : InstallStatus) (pin : option GenerationPin) (lease : option Lease) : Entry := {|
  entry_request := request; entry_item := item; entry_status := s; entry_pin := pin;
  started_at := None; entry_cancelled := false; retained := None; recovery_lease := lease;
  recovery_running := false; setup := None |}.

Definition restore_row (env : OpenEnv) (s : QueueState) (kr : string * QueueRow) : result InstallError QueueState :=
  let '(id, row) := kr in
  request ← ok_or InstallStorage (request_from_str (row_request row));
  item ← ok_or InstallStorage (item_from_str (row_target row));
  status ← ok_or InstallStorage (status_from_str (row_status row));
  let pin := (pin ← open_admits env; if str_eqb (pin_library pin) (row_library row) then Some pin else None) in
  if bool_decide (row_phase row = PhaseQueued) then
    Ok (set_entry (set_line s (queued s ++ [id]) (active s)) id
      (restored_entry request item status pin None))
  else
    err_if (negb (open_grants env id)) InstallBusy ;;
    Ok (set_entry (set_line s (queued s) (Some id)) id
      (restored_entry request item (interrupted_status status) pin
        (Some (install_artifacts request (row_library row))))).

Definition initial_state (env : OpenEnv) : QueueState := {|
  epoch := open_epoch env; registry_revision := 0; revision := 1; queued := []; active := None;
  entries := ∅; latest_failure := None; closed := false |}.

Definition new (env : OpenEnv) (st : MetadataStore InstallTables) : result InstallError World * MetadataStore InstallTables :=
  let '(pending, st) := read_callback from_storage (tx_call (open_tx env)) (λ t,
    match tx_fault (open_tx env) SelectPending with
    | Some e => Err (from_storage e)
    | None => Ok (pending_rows (queue_rows t))
    end) st in
  (pending ← pending;
   err_if (128 <? length pending)%nat AtCapacity ;;
   s ← try_fold (restore_row env) (initial_state env) pending;
   Ok {| store := st; state := s; workers := ∅; next_worker := 0; observers_closed := false; latest := project s |}, st).

(** ** Histories *)

(** The operations of a queue over its life.  A task is named by its number;
    an operation of a task that is not at that point does nothing.  The
    recovery of a content install takes the lock twice: [OpRecover] reads and
    changes nothing, and what was read, at whatever point before, is the
    argument of [OpRecoverContent]. *)
Inductive QueueOp :=
| OpEnqueue (env : AdmitEnv) (request : InstallQueueRequest) (item : InstallQueueInstallItem)
    (pin : GenerationPin) (work : option SetupWork) (front : bool)
| OpEnqueueSetup (env env' : AdmitEnv) (request prerequisite : InstallQueueRequest) (work : SetupWork)
    (front : bool) (item : InstallQueueInstallItem) (prerequisite_item : option InstallQueueInstallItem)
| OpStart (env : StartEnv)
| OpRunBegin (env : EndEnv) (owner_cancelled : bool) (n : nat)
| OpRunEnd (env : EndEnv) (n : nat) (r : WorkResult)
| OpJoin (n : nat)
| OpProgress (id : string) (event : DownloadProgress)
| OpRemove (tx : Tx) (spawns_removal : bool) (removed : option (option InstanceId)) (id : string)
| OpCancel (id : string)
| OpInvalidate
| OpClose
| OpShutdown
| OpJoinObservers (shut_down : bool)
| OpPreserve (env : PreserveEnv)
| OpRecover (env : RecoverEnv) (id : string)
| OpRecoverContent (env : RecoverEnv) (id : string) (c : ContentRecovery)
| OpRecoveryTake (n : nat)
| OpRecoveryEnd (env : EndEnv) (n : nat) (a : RecoveryAnswer)
| OpContentEnd (env : EndEnv) (n : nat) (pending : bool) (resumed run : result WorkFailure InstallOutcome)
| OpRecoveryJoin (tx : Tx) (n : nat)
| OpInterrupt
| OpRestart (env : OpenEnv).

Definition reopen (st : MetadataStore InstallTables) : MetadataStore InstallTables :=
  {| database := database st; mutation_closed := false; poisoned := false |}.

(** A queue that fails to open leaves the database for the next attempt. *)
Definition restart (env : OpenEnv) (w : World) : World :=
  match new env (reopen (store w)) with (Ok w, _) => w | (Err _, _) => w end.

(** A recovery may also be joined before it returned: its work panicked. *)
Definition join_recovery (tx : Tx) (n : nat) (k : Worker) (w : World) : World :=
  match worker_kind k with
  | RunInstall => w
  | RunRecovery r => recovery_join tx n (worker_install k) r w
  | SettleContent _ _ _ =>
      content_recovery_join tx n (worker_install k) (bool_decide (worker_stage k = Returned)) w
  end.

Definition at_stage (k : Worker) (stage : WorkerStage) : bool := bool_decide (worker_stage k = stage).
Definition runs_install (k : Worker) : bool := match worker_kind k with RunInstall => true | _ => false end.
Definition runs_recovery (k : Worker) : bool := match worker_kind k with RunRecovery _ => true | _ => false end.

Definition run_op (op : QueueOp) (w : World) : World :=
  let on_worker n (guard : Worker → bool) (f : Worker → World) :=
    match workers w !! n with Some k => if guard k then f k else w | None => w end in
  match op with
  | OpEnqueue env request item pin work front => (enqueue_resolved env request item pin work front w).2
  | OpEnqueueSetup env env' request prerequisite work front item prerequisite_item =>
      let w := (admit_setup env env' request prerequisite work front item prerequisite_item w).2 in
      publish w (state w)
  | OpStart env => start_next env w
  | OpRunBegin env cancelled n =>
      on_worker n (λ k, runs_install k && at_stage k Accepted) (λ k, run_begin env cancelled n k w)
  | OpRunEnd env n r =>
      on_worker n (λ k, runs_install k && at_stage k Working) (λ k, run_end env n k r w)
  | OpJoin n =>
      on_worker n (λ k, runs_install k && at_stage k Returned) (λ k, join_worker n (worker_install k) w)
  | OpProgress id event => progress id event w
  | OpRemove tx spawns removed id => (remove tx spawns removed id w).2
  | OpCancel id => (cancel id w).2
  | OpInvalidate => invalidate_registry w
  | OpClose => close_admission w
  | OpShutdown => (shutdown_queued w).2
  | OpJoinObservers shut_down => (join_observers shut_down w).2
  | OpPreserve env => (preserve_shutdown env w).2
  | OpRecover env id =>
      match entries (state w) !! id with
      | Some e => if is_content (entry_request e) then w else (recover_begin env id w).2
      | None => w
      end
  | OpRecoverContent env id c => (recover_content_start env id c w).2
  | OpRecoveryTake n =>
      on_worker n (λ k, runs_recovery k && at_stage k Accepted) (λ k, recovery_take n k w)
  | OpRecoveryEnd env n a =>
      on_worker n (λ k, runs_recovery k && at_stage k Working) (λ k, recovery_end env n k a w)
  | OpContentEnd env n pending resumed run =>
      on_worker n (λ k, at_stage k Working) (λ k, content_recovery_end env n k pending resumed run w)
  | OpRecoveryJoin tx n => on_worker n (λ _, true) (λ k, join_recovery tx n k w)
  | OpInterrupt => with_store w (interrupt (store w))
  | OpRestart env => restart env w
  end.
End recovery.
