(* ===== verification/InstallQueueInv.v ===== *)
(** * What the install queue keeps

    The rows of the database and the queue in memory tell the same story: one
    install is active, it is fenced by a lease until its end is known, and no
    accepted install is lost, run twice or reported before it is saved.  A
    restart finds the same queue. *)

From S2P Require Import Prelude RustStr Effect McPortablePath McLoaderIdentity SettingsModel Storage.
From S2P Require Import InstanceModel ContentModel InstallModel InstallQueue.

Open Scope string_scope.
Open Scope list_scope.
Open Scope Z_scope.

(** serde_json writes what it reads back; the identity of an operation is read
    in its canonical form only. *)
Class InstallJsonLaws `{UuidParser, InstallJson} : Prop := {
  request_roundtrip r s : request_to_string r = Some s → request_from_str s = Some r;
  item_roundtrip i s : item_to_string i = Some s → item_from_str s = Some i;
  status_roundtrip st s :
    uuid_canonical (status_operation_id st) = Some (status_operation_id st) →
    status_to_string st = Some s → status_from_str s = Some st;
}.

Section core.
Context `{UuidParser} `{UnicodeNorm} `{InstallJson} `{InstallContent} `{!InstallJsonLaws}.

(** ** Rows and entries *)

Notation undone e := (status_done (entry_status e) = false).

(** A status as it is saved: of the install, with a canonical operation. *)
Definition status_of_install (id : string) (s : InstallStatus) : Prop :=
  status_install_id s = id ∧ uuid_canonical (status_operation_id s) = Some (status_operation_id s).

(** The row of an entry holds what a restart needs. *)
Record row_holds (id : string) (e : Entry) (row : QueueRow) : Prop := {
  rh_status : status_of_install id (entry_status e);
  rh_request : request_from_str (row_request row) = Some (entry_request e);
  rh_item : item_from_str (row_target row) = Some (entry_item e);
  rh_saved : ∃ s, status_from_str (row_status row) = Some s ∧ status_of_install id s ∧
    (row_phase row ≠ PhaseTerminal → status_done s = false);
  rh_pin : ∀ pin, entry_pin e = Some pin → pin_library pin = row_library row;
  rh_lease : ∀ lease, recovery_lease e = Some lease →
    lease = install_artifacts (entry_request e) (row_library row);
}.

(** Where an entry is, by the phase of its row; a finished entry is saved as
    it is shown. *)
Definition seated (p : RowPhase) (q : list string) (a : option string) (id : string) (e : Entry) : Prop :=
  match p with
  | PhaseTerminal => status_done (entry_status e) = true ∧ id ∉ q ∧ a ≠ Some id ∧ recovery_lease e = None
  | PhaseQueued => undone e ∧ id ∈ q ∧ a ≠ Some id ∧ recovery_lease e = None
  | PhaseRunning | PhaseSettlement => undone e ∧ id ∉ q ∧ a = Some id
  end.

Definition placed (q : list string) (a : option string) (id : string) (e : Entry) (row : QueueRow) : Prop :=
  seated (row_phase row) q a id e ∧
  (row_phase row = PhaseTerminal → status_from_str (row_status row) = Some (entry_status e)).

Lemma seated_ext p q a q' a' id e :
  (id ∈ q' ↔ id ∈ q) → (a' = Some id ↔ a = Some id) → seated p q a id e → seated p q' a' id e.
Proof. unfold seated. destruct p; tauto. Qed.

Record core (q : list string) (a : option string) (es : gmap string Entry) (rows : gmap string QueueRow) : Prop := {
  core_line : NoDup q;
  core_entries : ∀ id e, es !! id = Some e →
    ∃ row, rows !! id = Some row ∧ row_holds id e row ∧ placed q a id e row;
  core_rows : ∀ id row, rows !! id = Some row → row_phase row ≠ PhaseTerminal → is_Some (es !! id);
  core_located : ∀ id, id ∈ q ∨ a = Some id → is_Some (es !! id);
  core_unique : ∀ id id' e e', es !! id = Some e → es !! id' = Some e' → undone e → undone e' →
    entry_request e = entry_request e' → id = id';
  core_room : (length q + (if a is Some _ then 1 else 0) ≤ MAX_QUEUED)%nat;
  core_rowids : ∀ id id' row row', rows !! id = Some row → rows !! id' = Some row' →
    rowid row = rowid row' → id = id';
}.

(** What may replace the entry of an install, and its row. *)
Lemma core_update q a es rows id e row e' row' q' a' :
  core q a es rows → es !! id = Some e → rows !! id = Some row →
  NoDup q' → (length q' + (if a' is Some _ then 1 else 0) ≤ MAX_QUEUED)%nat →
  (∀ other, other ≠ id → other ∈ q' ↔ other ∈ q) → (∀ other, other ≠ id → a' = Some other ↔ a = Some other) →
  rowid row' = rowid row → entry_request e' = entry_request e → (undone e' → undone e) →
  row_holds id e' row' → placed q' a' id e' row' →
  core q' a' (<[id := e']> es) (<[id := row']> rows).
Proof.
  intros Hc He Hrow Hnd Hroom Hq Ha Hid Hreq Hdone Hholds Hplaced. split; [done|..|done|].
  - intros other x. destruct (decide (other = id)) as [->|Hne].
    + rewrite !lookup_insert_eq. intros [= <-]. by exists row'.
    + rewrite lookup_insert_ne by done. intros Hx. destruct (core_entries _ _ _ _ Hc _ _ Hx) as (r & Hr & Hh & Hp).
      exists r. split_and!; [by rewrite lookup_insert_ne|done|]. split.
      * eapply seated_ext; [by apply Hq|by apply Ha|apply Hp].
      * apply Hp.
  - intros other r. destruct (decide (other = id)) as [->|Hne]; [rewrite !lookup_insert_eq; eauto|].
    rewrite !lookup_insert_ne by done. apply (core_rows _ _ _ _ Hc).
  - intros other. destruct (decide (other = id)) as [->|Hne]; [rewrite !lookup_insert_eq; eauto|].
    rewrite (Hq _ Hne), (Ha _ Hne), lookup_insert_ne by done. apply (core_located _ _ _ _ Hc).
  - intros i j x y Hx Hy Ux Uy Hxy.
    assert (∀ k z, <[id := e']> es !! k = Some z → undone z →
      ∃ z0, es !! k = Some z0 ∧ undone z0 ∧ entry_request z0 = entry_request z) as Hback.
    { intros k z. destruct (decide (k = id)) as [->|Hne].
      - rewrite lookup_insert_eq. intros [= <-] Uz. exists e. by split_and!; [|apply Hdone|].
      - rewrite lookup_insert_ne by done. intros Hz Uz. by exists z. }
    destruct (Hback _ _ Hx Ux) as (x0 & Hx0 & Ux0 & Ex), (Hback _ _ Hy Uy) as (y0 & Hy0 & Uy0 & Ey).
    apply (core_unique _ _ _ _ Hc i j x0 y0); try done. congruence.
  - assert (∀ k r, <[id := row']> rows !! k = Some r → ∃ r0, rows !! k = Some r0 ∧ rowid r0 = rowid r) as Hback.
    { intros k r. destruct (decide (k = id)) as [->|Hne].
      - rewrite lookup_insert_eq. intros [= <-]. by exists row.
      - rewrite lookup_insert_ne by done. intros Hr. by exists r. }
    intros i j r r' Hr Hr' Hrr. destruct (Hback _ _ Hr) as (x & Hx & Ex), (Hback _ _ Hr') as (y & Hy & Ey).
    apply (core_rowids _ _ _ _ Hc i j x y); try done. congruence.
Qed.

(** Only the entry changes. *)
Lemma core_entry q a es rows id e e' :
  core q a es rows → es !! id = Some e →
  entry_request e' = entry_request e → entry_item e' = entry_item e →
  status_of_install id (entry_status e') → (status_done (entry_status e) = true → entry_status e' = entry_status e) →
  (undone e → undone e') →
  (∀ pin, entry_pin e' = Some pin → entry_pin e = Some pin) →
  (∀ lease, recovery_lease e' = Some lease → recovery_lease e = Some lease ∨
    (a = Some id ∧ ∀ row, rows !! id = Some row → lease = install_artifacts (entry_request e) (row_library row))) →
  core q a (<[id := e']> es) rows.
Proof.
  intros Hc He Hreq Hitem Hst Hdone Hundone Hpin Hlease.
  destruct (core_entries _ _ _ _ Hc _ _ He) as (row & Hrow & Hh & Hp).
  rewrite <-(insert_id rows id row) by done.
  apply (core_update q a es rows id e row e' row q a); try done; try apply Hc.
  - destruct (status_done (entry_status e)) eqn:Ed; [|done]. intros Hu. rewrite Hdone in Hu; congruence.
  - destruct Hh as [? ? ? ? Hhpin Hhlease]. split; try congruence; auto.
    + intros lease Hl. rewrite Hreq. destruct (Hlease _ Hl) as [?|[_ ?]]; auto.
  - assert (recovery_lease e = None → a ≠ Some id → recovery_lease e' = None) as Hnone.
    { intros Hn Ha. destruct (recovery_lease e') as [lease|] eqn:El; [|done].
      destruct (Hlease _ eq_refl) as [?|[? _]]; congruence. }
    destruct Hp as [Hp Hs]. split; [|intros E; rewrite (Hs E); rewrite E in Hp; destruct Hp as [Hd _]; by rewrite Hdone].
    unfold seated in *. destruct (row_phase row); destruct Hp as (? & ? & ?); split_and!; try tauto.
    by rewrite Hdone.
Qed.

(** An undone entry is queued or active. *)
Lemma core_undone q a es rows id e :
  core q a es rows → es !! id = Some e → undone e → id ∈ q ∨ a = Some id.
Proof.
  intros Hc He Hu. destruct (core_entries _ _ _ _ Hc _ _ He) as (row & _ & _ & Hp).
  destruct Hp as [Hp _]. unfold seated in Hp. destruct (row_phase row); destruct Hp; try tauto. congruence.
Qed.

Lemma core_active q a es rows id :
  core q a es rows → a = Some id → ∃ e row, es !! id = Some e ∧ undone e ∧ id ∉ q ∧
    rows !! id = Some row ∧ row_holds id e row ∧ (row_phase row = PhaseRunning ∨ row_phase row = PhaseSettlement).
Proof.
  intros Hc Ha. destruct (core_located _ _ _ _ Hc id (or_intror Ha)) as [e He].
  destruct (core_entries _ _ _ _ Hc _ _ He) as (row & Hrow & Hh & Hp). exists e, row.
  destruct Hp as [Hp _]. unfold seated in Hp. destruct (row_phase row); destruct Hp as (? & ? & ?); split_and!; auto; tauto.
Qed.

Lemma core_queued q a es rows id :
  core q a es rows → id ∈ q → ∃ e row, es !! id = Some e ∧ undone e ∧ a ≠ Some id ∧
    rows !! id = Some row ∧ row_holds id e row ∧ row_phase row = PhaseQueued ∧ recovery_lease e = None.
Proof.
  intros Hc Hq. destruct (core_located _ _ _ _ Hc id (or_introl Hq)) as [e He].
  destruct (core_entries _ _ _ _ Hc _ _ He) as (row & Hrow & Hh & Hp). exists e, row.
  destruct Hp as [Hp _]. unfold seated in Hp. destruct (row_phase row); destruct Hp as (? & ? & ?); split_and!; auto; tauto.
Qed.

Lemma core_leased q a es rows id e :
  core q a es rows → es !! id = Some e → recovery_lease e ≠ None → a = Some id ∧ undone e.
Proof.
  intros Hc He Hl. destruct (core_entries _ _ _ _ Hc _ _ He) as (row & Hrow & Hh & Hp).
  destruct Hp as [Hp _]. unfold seated in Hp. destruct (row_phase row); tauto.
Qed.

(** A new entry. *)
Lemma core_insert q a es rows id e row q' :
  core q a es rows → rows !! id = None → q' ≡ₚ id :: q →
  (length q + (if a is Some _ then 1 else 0) < MAX_QUEUED)%nat →
  (∀ other x, es !! other = Some x → undone x → entry_request x ≠ entry_request e) →
  (∀ other r, rows !! other = Some r → rowid r < rowid row) →
  row_phase row = PhaseQueued → undone e → recovery_lease e = None → row_holds id e row →
  core q' a (<[id := e]> es) (<[id := row]> rows).
Proof.
  intros Hc Hnone Hq Hroom Hnew Hid Hphase Hu Hl Hh.
  assert (es !! id = None) as He.
  { destruct (es !! id) as [x|] eqn:Ex; [|done]. destruct (core_entries _ _ _ _ Hc _ _ Ex) as (r & Hr & _). congruence. }
  assert (id ∉ q ∧ a ≠ Some id) as [Hnq Hna].
  { split; intros Hin; [destruct (core_located _ _ _ _ Hc id (or_introl Hin)) as [x Hx]|
      destruct (core_located _ _ _ _ Hc id (or_intror Hin)) as [x Hx]]; congruence. }
  assert (∀ o, o ∈ q' ↔ o = id ∨ o ∈ q) as Hin by (intros o; by rewrite Hq, elem_of_cons).
  split.
  - rewrite Hq. constructor; [done|apply Hc].
  - intros other x. destruct (decide (other = id)) as [->|Hne].
    + rewrite !lookup_insert_eq. intros [= <-]. exists row. split_and!; [done..|].
      split; rewrite Hphase; [|done].
      unfold seated. rewrite Hin. by split_and!; [|left|..].
    + rewrite lookup_insert_ne by done. intros Hx. destruct (core_entries _ _ _ _ Hc _ _ Hx) as (r & Hr & Hhr & Hp).
      exists r. split_and!; [by rewrite lookup_insert_ne|done|]. split; [|apply Hp].
      eapply seated_ext; [|done|apply Hp]. rewrite Hin. tauto.
  - intros other r. destruct (decide (other = id)) as [->|Hne]; [rewrite !lookup_insert_eq; eauto|].
    rewrite !lookup_insert_ne by done. apply (core_rows _ _ _ _ Hc).
  - intros other. destruct (decide (other = id)) as [->|Hne]; [rewrite !lookup_insert_eq; eauto|].
    rewrite Hin, lookup_insert_ne by done. intros [[?|?]|?]; [done|..]; apply (core_located _ _ _ _ Hc); auto.
  - intros i j x y. destruct (decide (i = id)) as [->|Hi], (decide (j = id)) as [->|Hj]; [done|..];
      rewrite ?lookup_insert_eq, ?lookup_insert_ne by done; intros Hx Hy Ux Uy Hxy.
    + injection Hx as <-. by destruct (Hnew _ _ Hy Uy).
    + injection Hy as <-. by destruct (Hnew _ _ Hx Ux).
    + by apply (core_unique _ _ _ _ Hc i j x y).
  - rewrite Hq. simpl. lia.
  - intros i j x y. destruct (decide (i = id)) as [->|Hi], (decide (j = id)) as [->|Hj]; [done|..];
      rewrite ?lookup_insert_eq, ?lookup_insert_ne by done; intros Hx Hy Hxy.
    + injection Hx as <-. specialize (Hid _ _ Hy). lia.
    + injection Hy as <-. specialize (Hid _ _ Hx). lia.
    + by apply (core_rowids _ _ _ _ Hc i j x y).
Qed.

(** A save of the status of an entry that moves it. *)
Lemma core_saved q a es rows id e row e' q' a' p enc :
  core q a es rows → es !! id = Some e → rows !! id = Some row →
  status_to_string (entry_status e') = Some enc → status_of_install id (entry_status e') →
  NoDup q' → (length q' + (if a' is Some _ then 1 else 0) ≤ MAX_QUEUED)%nat →
  (∀ other, other ≠ id → other ∈ q' ↔ other ∈ q) → (∀ other, other ≠ id → a' = Some other ↔ a = Some other) →
  entry_request e' = entry_request e → entry_item e' = entry_item e → undone e →
  (∀ pin, entry_pin e' = Some pin → entry_pin e = Some pin) →
  (∀ lease, recovery_lease e' = Some lease → lease = install_artifacts (entry_request e) (row_library row)) →
  seated p q' a' id e' →
  core q' a' (<[id := e']> es) (<[id := set_row_status enc p row]> rows).
Proof.
  intros Hc He Hrow Henc Hst Hnd Hroom Hq Ha Hreq Hitem Hu Hpin Hlease Hseat.
  pose proof (status_roundtrip _ _ (proj2 Hst) Henc) as Hback.
  apply (core_update q a es rows id e row); try done.
  destruct (core_entries _ _ _ _ Hc _ _ He) as (r & Hr & Hh & _). assert (r = row) as -> by congruence.
  destruct Hh as [? ? ? ? Hhpin Hhlease]. split; cbn [set_row_status row_request row_target row_status row_library];
    try congruence; eauto.
  - exists (entry_status e'). split_and!; try done; try apply Hst. cbn. unfold seated in Hseat. by destruct p; destruct Hseat.
  - intros lease Hl. rewrite Hreq. by apply Hlease.
Qed.

(** ** Saving *)

Definition rows_of (w : World) : gmap string QueueRow := queue_rows (database (store w)).

Lemma in_transaction_cases {A} tx (write : eff InstallTables InstallError A) st r st' :
  settles (tx_call tx) → in_transaction tx write st = (r, st') →
  match r with
  | Ok a => ∃ t, write (database st) = (Ok a, t) ∧ database st' = t
  | Err _ => database st' = database st
  end.
Proof.
  intros Hs Ht. apply (transaction_cases _ _ _ _ _ _ Hs) in Ht as [a t st1 Hw _ _ ->|e st1 Hd _ _ _]; [|done].
  by exists t.
Qed.

Lemma save_status_cases tx s p w saved w' :
  settles (tx_call tx) → save_status tx s p w = (saved, w') →
  ∃ st, w' = with_store w st ∧
    if saved then ∃ enc, status_to_string s = Some enc ∧ version_rows (database st) = version_rows (database (store w)) ∧
      ∀ row, rows_of w !! status_install_id s = Some row →
        queue_rows (database st) = <[status_install_id s := set_row_status enc p row]> (rows_of w)
    else database st = database (store w).
Proof.
  intros Hs. unfold save_status, persist_status. destruct (status_to_string s) as [enc|] eqn:Ee.
  2: { intros [= <- <-]. by eexists. }
  destruct (in_transaction _ _ _) as [r st] eqn:Et. intros [= <- <-]. exists st. split; [done|].
  apply in_transaction_cases in Et; [|done]. destruct r as [[]|e]; [|done]. cbn.
  destruct Et as (t & Ht & ->). exists enc. split; [done|].
  apply eff_bind_ok in Ht as (n & t1 & Hu & [_ ->]%eff_ret_ok). unfold update_row, statement in Hu.
  destruct (tx_fault tx UpdateStatus); [done|]. unfold rows_of.
  destruct (queue_rows (database (store w)) !! _) as [row|] eqn:Er; injection Hu as _ <-; split; try done.
  by intros row' [= <-].
Qed.

(** ** The tasks *)

Definition recovers (k : Worker) : bool := negb (runs_install k).

(** A task that is not through with the entry of its install. *)
Definition busy (es : gmap string Entry) (k : Worker) : Prop :=
  worker_stage k ≠ Returned ∨
  match worker_kind k with
  | RunInstall => False
  | RunRecovery r => r ≠ Some (Ok tt)
  | SettleContent _ _ _ => ∃ e, es !! worker_install k = Some e ∧ undone e
  end.

(** A busy task works for the active entry; the lease of a recovery is the one
    its entry keeps, the lease of an install is the task's alone. *)
Record at_work (a : option string) (es : gmap string Entry) (rows : gmap string QueueRow) (k : Worker) : Prop := {
  aw_active : a = Some (worker_install k);
  aw_lease : ∀ row, rows !! worker_install k = Some row → ∀ e, es !! worker_install k = Some e →
    worker_lease k = install_artifacts (entry_request e) (row_library row);
  aw_entry : ∃ e, es !! worker_install k = Some e ∧ undone e ∧
    recovery_lease e = (if recovers k then Some (worker_lease k) else None);
}.

Record crew (ws : gmap nat Worker) (next : nat) (a : option string) (es : gmap string Entry)
    (rows : gmap string QueueRow) : Prop := {
  crew_busy : ∀ n k, ws !! n = Some k → busy es k → at_work a es rows k;
  crew_running : ∀ n k, ws !! n = Some k → recovers k = true →
    ∃ e, es !! worker_install k = Some e ∧ recovery_running e = true;
  crew_one : ∀ n n' k k', ws !! n = Some k → ws !! n' = Some k' → worker_install k = worker_install k' →
    recovers k = recovers k' → recovers k = true ∨ (busy es k ∧ busy es k') → n = n';
  crew_next : ∀ n k, ws !! n = Some k → (n < next)%nat;
}.

(** One task is busy at most. *)
Lemma crew_single ws next a es rows n n' k k' :
  crew ws next a es rows → ws !! n = Some k → ws !! n' = Some k' → busy es k → busy es k' → n = n'.
Proof.
  intros Hc Hk Hk' Hb Hb'. destruct (crew_busy _ _ _ _ _ Hc _ _ Hk Hb) as [Ha _ (e & He & _ & Hl)].
  destruct (crew_busy _ _ _ _ _ Hc _ _ Hk' Hb') as [Ha' _ (e' & He' & _ & Hl')].
  assert (worker_install k = worker_install k') as E by congruence.
  apply (crew_one _ _ _ _ _ Hc n n' k k'); [done|done|done| |by right].
  rewrite E in He. assert (e = e') as -> by congruence.
  destruct (recovers k), (recovers k'); congruence.
Qed.

Lemma busy_entry es id e e' k :
  es !! id = Some e → (undone e' → undone e) → busy (<[id := e']> es) k → busy es k.
Proof.
  intros He Hu [Hs|Hb]; [by left|right]. destruct (worker_kind k); [done|done|].
  destruct Hb as (x & Hx & Ux). destruct (decide (id = worker_install k)) as [->|Hne].
  - rewrite lookup_insert_eq in Hx. injection Hx as <-. exists e. auto.
  - rewrite lookup_insert_ne in Hx by done. by exists x.
Qed.

(** An entry that is no recovery's keeps what the tasks rely on. *)
Lemma crew_entry ws next a es rows id e e' :
  crew ws next a es rows → es !! id = Some e →
  status_done (entry_status e') = status_done (entry_status e) → recovery_lease e' = recovery_lease e →
  entry_request e' = entry_request e →
  (recovery_running e = true → recovery_running e' = true ∨
    ∀ n k, ws !! n = Some k → recovers k = true → worker_install k ≠ id) →
  crew ws next a (<[id := e']> es) rows.
Proof.
  intros Hc He Hd Hl Hreq Hrun. split.
  - intros n k Hk Hb. apply busy_entry with (e := e) in Hb; [|done|congruence].
    destruct (crew_busy _ _ _ _ _ Hc _ _ Hk Hb) as [Ha Hlease (x & Hx & Ux & Hxl)]. split; [done|..].
    + intros row Hrow y. destruct (decide (id = worker_install k)) as [->|Hne].
      * rewrite lookup_insert_eq. intros [= <-]. rewrite Hreq. by apply Hlease.
      * rewrite lookup_insert_ne by done. by apply Hlease.
    + destruct (decide (id = worker_install k)) as [->|Hne].
      * exists e'. rewrite lookup_insert_eq. assert (x = e) as -> by congruence. split_and!; congruence.
      * exists x. by rewrite lookup_insert_ne.
  - intros n k Hk Hr. destruct (crew_running _ _ _ _ _ Hc _ _ Hk Hr) as (x & Hx & Rx).
    destruct (decide (id = worker_install k)) as [->|Hne].
    + exists e'. rewrite lookup_insert_eq. split; [done|]. assert (x = e) as -> by congruence.
      destruct (Hrun Rx) as [?|Hno]; [done|]. by destruct (Hno _ _ Hk Hr).
    + exists x. by rewrite lookup_insert_ne.
  - intros n n' k k' Hk Hk' Hid Hr Hb. apply (crew_one _ _ _ _ _ Hc n n' k k'); try done.
    destruct Hb as [?|[Hb Hb']]; [by left|right].
    split; (eapply busy_entry; [done| |done]); congruence.
  - apply Hc.
Qed.

(** Rows may change but for their library. *)
Lemma crew_rows ws next a es rows rows' :
  crew ws next a es rows →
  (∀ id row', rows' !! id = Some row' → is_Some (es !! id) →
    ∃ row, rows !! id = Some row ∧ row_library row' = row_library row) →
  crew ws next a es rows'.
Proof.
  intros [Hb ? ? ?] Hr. split; [|done..]. intros n k Hk Hbusy. destruct (Hb n k Hk Hbusy) as [Ha Hl He].
  split; [done| |done]. intros row' Hrow' e Hex.
  destruct (Hr _ _ Hrow' (mk_is_Some _ _ Hex)) as (row & Hrow & ->). by apply Hl.
Qed.

(** While nobody is busy the active entry may change. *)
Lemma crew_nobody ws next a es rows id e e' a' rows' :
  crew ws next a es rows → (∀ n k, ws !! n = Some k → ¬ busy es k) → es !! id = Some e →
  (undone e' → undone e) → (recovery_running e = true → recovery_running e' = true) →
  crew ws next a' (<[id := e']> es) rows'.
Proof.
  intros Hc Hno He Hu Hrun. split.
  - intros n k Hk Hb. apply busy_entry with (e := e) in Hb; [|done|done]. by destruct (Hno n k Hk).
  - intros n k Hk Hr. destruct (crew_running _ _ _ _ _ Hc _ _ Hk Hr) as (x & Hx & Rx).
    destruct (decide (id = worker_install k)) as [->|Hne].
    + exists e'. rewrite lookup_insert_eq. split; [done|]. apply Hrun. congruence.
    + exists x. by rewrite lookup_insert_ne.
  - intros n n' k k' Hk Hk' Hid Hr [Hb|[Hb _]].
    + apply (crew_one _ _ _ _ _ Hc n n' k k'); auto.
    + apply busy_entry with (e := e) in Hb; [|done|done]. by destruct (Hno n k Hk).
  - apply Hc.
Qed.

(** The busy task goes on, or is through. *)
Lemma crew_settle ws next a es rows n k k' e e' a' rows' :
  crew ws next a es rows → ws !! n = Some k → busy es k → es !! worker_install k = Some e →
  worker_install k' = worker_install k → recovers k' = recovers k → recovery_running e' = recovery_running e →
  (busy (<[worker_install k := e']> es) k' → at_work a' (<[worker_install k := e']> es) rows' k') →
  crew (<[n := k']> ws) next a' (<[worker_install k := e']> es) rows'.
Proof.
  intros Hc Hk Hbk He Hid Hr Hrun Hwork.
  assert (undone e) as Hu.
  { destruct (crew_busy _ _ _ _ _ Hc _ _ Hk Hbk) as [_ _ (x & Hx & Ux & _)]. congruence. }
  assert (∀ m j, m ≠ n → ws !! m = Some j → ¬ busy (<[worker_install k := e']> es) j) as Hother.
  { intros m j Hne Hj Hb. apply busy_entry with (e := e) in Hb; [|done|done]. apply Hne.
    by apply (crew_single _ _ _ _ _ _ _ _ _ Hc Hj Hk). }
  split.
  - intros m j. destruct (decide (m = n)) as [->|Hne].
    + rewrite lookup_insert_eq. by intros [= <-].
    + rewrite lookup_insert_ne by done. intros Hj Hb. by destruct (Hother m j Hne Hj).
  - intros m j. destruct (decide (m = n)) as [->|Hne].
    + rewrite lookup_insert_eq. intros [= <-] Hrec. exists e'. rewrite Hid, lookup_insert_eq. split; [done|].
      rewrite Hrun. destruct (crew_running _ _ _ _ _ Hc _ _ Hk) as (x & Hx & ?); congruence.
    + rewrite lookup_insert_ne by done. intros Hj Hrec. destruct (crew_running _ _ _ _ _ Hc _ _ Hj Hrec) as (x & Hx & Rx).
      destruct (decide (worker_install k = worker_install j)) as [E|Hnid].
      * exists e'. rewrite <-E, lookup_insert_eq. split; [done|]. congruence.
      * exists x. by rewrite lookup_insert_ne.
  - assert (∀ m j, m ≠ n → ws !! m = Some j → worker_install j = worker_install k → recovers j = recovers k →
      recovers j = true → False) as Halone.
    { intros m j Hne Hj Ej Er Et. apply Hne. by apply (crew_one _ _ _ _ _ Hc m n j k); auto. }
    intros m m' j j'. destruct (decide (m = n)) as [->|Hm], (decide (m' = n)) as [->|Hm']; [done|..];
      rewrite ?lookup_insert_eq, ?lookup_insert_ne by done; intros Hj Hj' Ej Er Hb.
    + injection Hj as <-. exfalso. destruct Hb as [Hb|[_ Hb]]; [|by eapply Hother].
      apply (Halone m' j'); congruence.
    + injection Hj' as <-. exfalso. destruct Hb as [Hb|[Hb _]]; [|by eapply Hother].
      apply (Halone m j); congruence.
    + destruct Hb as [Hb|[Hb _]]; [|by destruct (Hother m j)]. apply (crew_one _ _ _ _ _ Hc m m' j j'); auto.
  - intros m j. destruct (decide (m = n)) as [->|Hm]; [intros _; by eapply Hc|].
    rewrite lookup_insert_ne by done. by apply Hc.
Qed.

(** A new task, when no other is busy. *)
Lemma crew_add ws next a es rows k :
  crew ws next a es rows → (∀ n j, ws !! n = Some j → ¬ busy es j) → at_work a es rows k →
  (recovers k = true → ∃ e, es !! worker_install k = Some e ∧ recovery_running e = true ∧
    ∀ n j, ws !! n = Some j → recovers j = true → worker_install j ≠ worker_install k) →
  crew (<[next := k]> ws) (S next) a es rows.
Proof.
  intros Hc Hno Hw Hrec. assert (ws !! next = None) as Hnone.
  { destruct (ws !! next) as [j|] eqn:Ej; [|done]. apply (crew_next _ _ _ _ _ Hc) in Ej. lia. }
  split.
  - intros m j. destruct (decide (m = next)) as [->|Hm]; [rewrite lookup_insert_eq; by intros [= <-]|].
    rewrite lookup_insert_ne by done. apply Hc.
  - intros m j. destruct (decide (m = next)) as [->|Hm]; [|rewrite lookup_insert_ne by done; apply Hc].
    rewrite lookup_insert_eq. intros [= <-] Hr. destruct (Hrec Hr) as (e & He & Re & _). by exists e.
  - intros m m' j j'. destruct (decide (m = next)) as [->|Hm], (decide (m' = next)) as [->|Hm']; [done|..];
      rewrite ?lookup_insert_eq, ?lookup_insert_ne by done; intros Hj Hj' Ej Er Hb.
    + injection Hj as <-. exfalso. destruct Hb as [Hb|[_ Hb]]; [|by destruct (Hno m' j')].
      destruct (Hrec Hb) as (_ & _ & _ & Hout). apply (Hout m' j'); congruence.
    + injection Hj' as <-. exfalso. destruct Hb as [Hb|[Hb _]]; [|by destruct (Hno m j)].
      destruct (Hrec ltac:(congruence)) as (_ & _ & _ & Hout). by apply (Hout m j).
    + by apply (crew_one _ _ _ _ _ Hc m m' j j').
  - intros m j. destruct (decide (m = next)) as [->|Hm]; [lia|]. rewrite lookup_insert_ne by done.
    intros Hj. pose proof (crew_next _ _ _ _ _ Hc _ _ Hj). lia.
Qed.

Lemma crew_remove ws next a es rows n : crew ws next a es rows → crew (delete n ws) next a es rows.
Proof.
  intros [? ? ? ?]. split; intros *; rewrite ?lookup_delete_Some; naive_solver.
Qed.

(** An entry that is not active may be finished. *)
Lemma crew_off ws next a es rows id e e' :
  crew ws next a es rows → a ≠ Some id → es !! id = Some e → (undone e' → undone e) →
  recovery_running e' = recovery_running e → crew ws next a (<[id := e']> es) rows.
Proof.
  intros Hc Ha He Hu Hrun. assert (∀ n k, ws !! n = Some k → busy (<[id := e']> es) k →
    busy es k ∧ id ≠ worker_install k) as Hback.
  { intros n k Hk Hb. apply busy_entry with (e := e) in Hb; [|done|done]. split; [done|]. intros ->.
    apply Ha. by apply (crew_busy _ _ _ _ _ Hc _ _ Hk Hb). }
  split.
  - intros n k Hk [Hb Hne]%(Hback n k Hk). destruct (crew_busy _ _ _ _ _ Hc _ _ Hk Hb) as [? Hl (x & Hx & Ux & Lx)].
    split; [done| |].
    + intros row Hr y. rewrite lookup_insert_ne by done. by apply Hl.
    + exists x. by rewrite lookup_insert_ne.
  - intros n k Hk Hr. destruct (crew_running _ _ _ _ _ Hc _ _ Hk Hr) as (x & Hx & Rx).
    destruct (decide (id = worker_install k)) as [->|Hne]; [|exists x; by rewrite lookup_insert_ne].
    exists e'. rewrite lookup_insert_eq. split; [done|]. congruence.
  - intros n n' k k' Hk Hk' Hid Hr Hb. apply (crew_one _ _ _ _ _ Hc n n' k k'); try done.
    destruct Hb as [?|[Hb Hb']]; [by left|right]. split; by eapply Hback.
  - apply Hc.
Qed.

(** A new entry is nobody's work. *)
Lemma crew_insert ws next a es rows id e row :
  crew ws next a es rows → es !! id = None → crew ws next a (<[id := e]> es) (<[id := row]> rows).
Proof.
  intros Hc Hnone. assert (∀ n k, ws !! n = Some k → recovers k = true → id ≠ worker_install k) as Hrec.
  { intros n k Hk Hr ->. destruct (crew_running _ _ _ _ _ Hc _ _ Hk Hr) as (x & Hx & _). congruence. }
  assert (∀ n k, ws !! n = Some k → busy (<[id := e]> es) k → busy es k) as Hback.
  { intros n k Hk [?|Hb]; [by left|right]. destruct (worker_kind k) eqn:Ek; [done..|].
    destruct Hb as (x & Hx & Ux). rewrite lookup_insert_ne in Hx; [by exists x|].
    apply (Hrec n k Hk). unfold recovers, runs_install. by rewrite Ek. }
  split.
  - intros n k Hk Hb%(Hback n k Hk). destruct (crew_busy _ _ _ _ _ Hc _ _ Hk Hb) as [Ha Hl (x & Hx & Ux & Lx)].
    assert (id ≠ worker_install k) by congruence. split; [done| |].
    + intros row'. rewrite !lookup_insert_ne by done. by apply Hl.
    + exists x. by rewrite lookup_insert_ne.
  - intros n k Hk Hr. destruct (crew_running _ _ _ _ _ Hc _ _ Hk Hr) as (x & Hx & Rx). exists x.
    by rewrite lookup_insert_ne by (by eapply Hrec).
  - intros n n' k k' Hk Hk' Hid Hr Hb. apply (crew_one _ _ _ _ _ Hc n n' k k'); try done.
    destruct Hb as [?|[Hb Hb']]; [by left|right]. eauto.
  - apply Hc.
Qed.

(** An inactive queue has no busy task. *)
Lemma crew_inactive ws next es rows n k : crew ws next None es rows → ws !! n = Some k → ¬ busy es k.
Proof. intros Hc Hk Hb. by destruct (crew_busy _ _ _ _ _ Hc _ _ Hk Hb). Qed.

(** ** The invariant *)

Definition fence (a : option string) (es : gmap string Entry) (ws : gmap nat Worker) (handed_over : bool) : Prop :=
  ∀ id e, a = Some id → es !! id = Some e →
    recovery_lease e ≠ None ∨
    (∃ n k, ws !! n = Some k ∧ runs_install k = true ∧ worker_stage k ≠ Returned ∧ worker_install k = id) ∨
    handed_over = true.

Record Inv (w : World) : Prop := {
  inv_core : core (queued (state w)) (active (state w)) (entries (state w)) (rows_of w);
  inv_crew : crew (workers w) (next_worker w) (active (state w)) (entries (state w)) (rows_of w);
  inv_fence : fence (active (state w)) (entries (state w)) (workers w) (observers_closed w);
}.

Lemma inv_publish w s : Inv (with_state w s) → Inv (publish w s).
Proof. intros [? ? ?]. by split. Qed.

Lemma inv_same w w' :
  Inv w → queued (state w') = queued (state w) → active (state w') = active (state w) →
  entries (state w') = entries (state w) → rows_of w' = rows_of w → workers w' = workers w →
  next_worker w' = next_worker w → (observers_closed w = true → observers_closed w' = true) → Inv w'.
Proof.
  intros [Hc Hw Hf] Hq Ha He Hr Hws Hn Ho. split; rewrite ?Hq, ?Ha, ?He, ?Hr, ?Hws, ?Hn; try done.
  intros id e Hid Hin. destruct (Hf id e Hid Hin) as [?|[?|?]]; auto.
Qed.

(** What the work of the active install leaves behind. *)
Record worked (id : string) (lease : Lease) (e e' : Entry) (w w' : World) : Prop := {
  wk_core : core (queued (state w')) (active (state w')) (entries (state w')) (rows_of w');
  wk_entries : entries (state w') = <[id := e']> (entries (state w));
  wk_workers : workers w' = workers w;
  wk_next : next_worker w' = next_worker w;
  wk_observers : observers_closed w' = observers_closed w;
  wk_running : recovery_running e' = recovery_running e;
  wk_request : entry_request e' = entry_request e;
  wk_library : ∀ other row', rows_of w' !! other = Some row' →
    ∃ row, rows_of w !! other = Some row ∧ row_library row' = row_library row;
  wk_end : (active (state w') = None ∧ recovery_lease e' = None) ∨
    (active (state w') = Some id ∧ undone e' ∧ recovery_lease e' = Some lease);
}.

Lemma set_status_library enc p row : row_library (set_row_status enc p row) = row_library row.
Proof. done. Qed.

(** A save leaves the library of every row alone. *)
Lemma saved_library (rows : gmap string QueueRow) id row enc p other row' :
  rows !! id = Some row → <[id := set_row_status enc p row]> rows !! other = Some row' →
  ∃ r, rows !! other = Some r ∧ row_library row' = row_library r.
Proof.
  intros Hrow. destruct (decide (id = other)) as [<-|Hne].
  - rewrite lookup_insert_eq. intros [= <-]. by exists row.
  - rewrite lookup_insert_ne by done. intros Hr. by exists row'.
Qed.

(** The saved status of the entry at [id], in the three ways a save can go. *)
Lemma saving q a w id e row e' tx p q' a' saved w' :
  settles (tx_call tx) → core q a (entries (state w)) (rows_of w) →
  entries (state w) !! id = Some e → rows_of w !! id = Some row →
  status_of_install id (entry_status e') → save_status tx (entry_status e') p w = (saved, w') →
  NoDup q' → (length q' + (if a' is Some _ then 1 else 0) ≤ MAX_QUEUED)%nat →
  (∀ other, other ≠ id → other ∈ q' ↔ other ∈ q) → (∀ other, other ≠ id → a' = Some other ↔ a = Some other) →
  entry_request e' = entry_request e → entry_item e' = entry_item e → undone e →
  (∀ pin, entry_pin e' = Some pin → entry_pin e = Some pin) →
  (∀ lease, recovery_lease e' = Some lease → lease = install_artifacts (entry_request e) (row_library row)) →
  seated p q' a' id e' →
  ∃ st, w' = with_store w st ∧
    if saved then
      (∃ enc, queue_rows (database st) = <[id := set_row_status enc p row]> (rows_of w)) ∧
      core q' a' (<[id := e']> (entries (state w))) (queue_rows (database st))
    else queue_rows (database st) = rows_of w.
Proof.
  intros Hs Hc He Hrow Hst Hsave Hnd Hroom Hq Ha Hreq Hitem Hu Hpin Hlease Hseat.
  apply save_status_cases in Hsave as (st & -> & Hcase); [|done]. exists st. split; [done|].
  destruct saved; [|by rewrite Hcase]. destruct Hcase as (enc & Henc & _ & Hrows).
  rewrite (proj1 Hst) in Hrows. rewrite (Hrows _ Hrow). split; [by exists enc|].
  by eapply core_saved.
Qed.

Lemma finish_of_install id s outcome error :
  status_of_install id s → status_of_install id (finish_status s outcome error).
Proof. done. Qed.

Lemma settlement_of_install id s : status_of_install id s → status_of_install id (settlement_status s).
Proof. done. Qed.

(** The active entry and its row. *)
Lemma active_row w id e :
  core (queued (state w)) (active (state w)) (entries (state w)) (rows_of w) →
  active (state w) = Some id → entries (state w) !! id = Some e →
  ∃ row, rows_of w !! id = Some row ∧ row_holds id e row ∧ undone e ∧ id ∉ queued (state w) ∧
    (length (queued (state w)) + 1 ≤ MAX_QUEUED)%nat.
Proof.
  intros Hc Ha He. destruct (core_active _ _ _ _ _ Hc Ha) as (e' & row & He' & Hu & Hn & Hrow & Hh & _).
  assert (e' = e) as -> by congruence. exists row. split_and!; try done.
  pose proof (core_room _ _ _ _ Hc) as Hroom. rewrite Ha in Hroom. done.
Qed.

Lemma retain_unsettled_worked tx id r lease w e :
  settles (tx_call tx) → core (queued (state w)) (active (state w)) (entries (state w)) (rows_of w) →
  active (state w) = Some id → entries (state w) !! id = Some e → recovery_lease e = Some lease →
  ∃ e', worked id lease e e' w (retain_unsettled tx id r w) ∧ active (state (retain_unsettled tx id r w)) = Some id.
Proof.
  intros Hs Hc Ha He Hl. destruct (active_row _ _ _ Hc Ha He) as (row & Hrow & Hh & Hu & Hn & Hroom).
  unfold retain_unsettled. rewrite He.
  set (e' := set_retained (set_status e (settlement_status (entry_status e))) (Some r)).
  destruct (save_status tx (entry_status e') PhaseSettlement w) as [saved w1] eqn:Esave. exists e'.
  eapply (saving _ _ w id e row e' tx PhaseSettlement (queued (state w)) (Some id)) in Esave
    as (st & -> & Hcase); try done; try (by rewrite <-Ha); try apply Hc; try apply Hh.
  assert (∀ s, queued s = queued (state w) → active s = Some id → entries s = <[id := e']> (entries (state w)) →
    worked id lease e e' w (publish (with_store w st) s) ∧ active (state (publish (with_store w st) s)) = Some id) as Hdone.
  { intros s Hq Has Hes. split; [|done]. split; cbn; try done.
    - rewrite Hq, Has, Hes. unfold rows_of. cbn. destruct saved; [by apply Hcase|].
      rewrite Hcase, <-Ha. eapply core_entry; try done; [apply (rh_status _ _ _ Hh)|congruence|by left].
    - unfold rows_of. cbn. intros other row'. destruct saved; [|rewrite Hcase; eauto].
      destruct Hcase as [[enc ->] _]. by apply saved_library.
    - right. by split_and!. }
  destruct (setup_changed e); by apply Hdone.
Qed.

(** Work on an entry that was changed first, in memory only. *)
Lemma worked_before id lease e e1 e' w w1 w' :
  worked id lease e1 e' w1 w' → rows_of w1 = rows_of w → workers w1 = workers w → next_worker w1 = next_worker w →
  observers_closed w1 = observers_closed w → entries (state w1) = <[id := e1]> (entries (state w)) →
  recovery_running e1 = recovery_running e → entry_request e1 = entry_request e → worked id lease e e' w w'.
Proof.
  intros [Hc He ? ? ? ? ? Hlib ?] Er Ew En Eo Ee E1 E2. split; try congruence; [|by rewrite <-Er].
  by rewrite He, Ee, insert_insert_eq.
Qed.

Lemma retain_work_worked tx id r lease w e :
  settles (tx_call tx) → core (queued (state w)) (active (state w)) (entries (state w)) (rows_of w) →
  active (state w) = Some id → entries (state w) !! id = Some e →
  (∀ row, rows_of w !! id = Some row → lease = install_artifacts (entry_request e) (row_library row)) →
  ∃ e', worked id lease e e' w (retain_work tx id lease r w) ∧
    (active (state (retain_work tx id lease r w)) = None → status_done (entry_status e') = true).
Proof.
  intros Hs Hc Ha He Hl. destruct (active_row _ _ _ Hc Ha He) as (row & Hrow & Hh & Hu & Hn & Hroom).
  unfold retain_work. rewrite He.
  destruct (retain_unsettled_worked tx id r lease (with_state w (set_entry (state w) id (set_lease e (Some lease))))
    (set_lease e (Some lease))) as (e' & Hw & Hact); try done.
  - cbn. eapply core_entry; try done; [apply Hh|]. intros l [= <-]. right. split; [done|]. intros row' Hrow'. by apply Hl.
  - cbn. by rewrite lookup_insert_eq.
  - exists e'. split; [by eapply worked_before|by rewrite Hact].
Qed.

Lemma complete_worked tx now id outcome error lease w e done_ w' :
  settles (tx_call tx) → core (queued (state w)) (active (state w)) (entries (state w)) (rows_of w) →
  active (state w) = Some id → entries (state w) !! id = Some e →
  complete tx now id outcome error w = (done_, w') →
  if done_ then ∃ e', worked id lease e e' w w' ∧ status_done (entry_status e') = true
  else ∃ e1, w' = publish (with_store w (store w')) (set_entry (state w) id e1) ∧ rows_of w' = rows_of w ∧
    recovery_running e1 = recovery_running e ∧ recovery_lease e1 = recovery_lease e ∧
    entry_request e1 = entry_request e ∧
    core (queued (state w)) (active (state w)) (<[id := e1]> (entries (state w))) (rows_of w).
Proof.
  intros Hs Hc Ha He. destruct (active_row _ _ _ Hc Ha He) as (row & Hrow & Hh & Hu & Hn & Hroom).
  unfold complete. rewrite He, Hu. set (s := finish_status (entry_status e) outcome error).
  set (e' := set_retained (set_held (set_status e s) None None None) None).
  change s with (entry_status e'). destruct (save_status tx (entry_status e') PhaseTerminal w) as [saved w1] eqn:Esave.
  eapply (saving _ _ w id e row e' tx PhaseTerminal (queued (state w)) None) in Esave
    as (st & -> & Hcase); try done; try apply Hc; try apply Hh; try lia; try (rewrite Ha; naive_solver).
  destruct saved.
  - destruct Hcase as [[enc Henc] Hcore]. intros [= <- <-]. exists e'. split; [|done].
    assert (∀ st', queued st' = queued (state w) → active st' = None → entries st' = <[id := e']> (entries (state w)) →
      worked id lease e e' w (publish (with_store w st) st')) as Hdone.
    { intros st' Hq Has Hes. split; cbn; try done.
      - by rewrite Hq, Has, Hes.
      - unfold rows_of. cbn. rewrite Henc. intros other row'. by apply saved_library.
      - left. by split. }
    repeat case_match; by apply Hdone.
  - intros [= <- <-]. eexists. split_and!; [reflexivity|done|done|done|done|].
    eapply core_entry; try done; [apply Hh|congruence|by left].
Qed.

Lemma complete_or_retain_worked env id lease outcome error r w e :
  settles (tx_call (complete_tx env)) → settles (tx_call (retain_tx env)) →
  core (queued (state w)) (active (state w)) (entries (state w)) (rows_of w) →
  active (state w) = Some id → entries (state w) !! id = Some e →
  (∀ row, rows_of w !! id = Some row → lease = install_artifacts (entry_request e) (row_library row)) →
  ∃ e', worked id lease e e' w (complete_or_retain env id lease outcome error r w) ∧
    (active (state (complete_or_retain env id lease outcome error r w)) = None → status_done (entry_status e') = true).
Proof.
  intros Hs Hs' Hc Ha He Hl. unfold complete_or_retain.
  destruct (complete (complete_tx env) _ _ _ _ _) as [done_ w1] eqn:Ecomplete.
  apply (complete_worked _ _ _ _ _ lease _ e) in Ecomplete; try done.
  destruct done_; [destruct Ecomplete as (e' & ? & ?); eauto|].
  destruct Ecomplete as (e1 & Hw1 & Hrows & Hrun & Hlease & Hreq & Hcore).
  destruct (retain_work_worked (retain_tx env) id r lease w1 e1) as (e' & Hw & Hact); try done.
  - rewrite Hw1. cbn. unfold rows_of in *. cbn. by rewrite Hrows.
  - by rewrite Hw1.
  - rewrite Hw1. cbn. by rewrite lookup_insert_eq.
  - intros row. rewrite Hrows, Hreq. apply Hl.
  - exists e'. split; [|done]. eapply worked_before; try done; by rewrite Hw1.
Qed.

Lemma finish_work_worked env id lease r w e :
  settles (tx_call (complete_tx env)) → settles (tx_call (retain_tx env)) →
  core (queued (state w)) (active (state w)) (entries (state w)) (rows_of w) →
  active (state w) = Some id → entries (state w) !! id = Some e →
  (∀ row, rows_of w !! id = Some row → lease = install_artifacts (entry_request e) (row_library row)) →
  ∃ e', worked id lease e e' w (finish_work env id lease r w) ∧
    (active (state (finish_work env id lease r w)) = None → status_done (entry_status e') = true).
Proof.
  intros. unfold finish_work, finish_run, finish_content.
  repeat case_match; (by eapply complete_or_retain_worked) || by eapply retain_work_worked.
Qed.

(** ** Installs at work *)

Lemma inv_busy w n k :
  Inv w → workers w !! n = Some k → busy (entries (state w)) k →
  ∃ e row, active (state w) = Some (worker_install k) ∧ entries (state w) !! worker_install k = Some e ∧ undone e ∧
    rows_of w !! worker_install k = Some row ∧
    (∀ row, rows_of w !! worker_install k = Some row → worker_lease k = install_artifacts (entry_request e) (row_library row)) ∧
    recovery_lease e = (if recovers k then Some (worker_lease k) else None).
Proof.
  intros [Hc Hw _] Hk Hb. destruct (crew_busy _ _ _ _ _ Hw _ _ Hk Hb) as [Ha Hl (e & He & Hu & Hle)].
  destruct (active_row _ _ _ Hc Ha He) as (row & Hrow & _). exists e, row. split_and!; try done.
  intros row' Hrow'. by apply (Hl row').
Qed.

(** After its work a task is through, or keeps the entry it recovers. *)
Lemma inv_worked w n k k' e e' w' :
  Inv w → workers w !! n = Some k → busy (entries (state w)) k → entries (state w) !! worker_install k = Some e →
  worked (worker_install k) (worker_lease k) e e' w w' →
  worker_install k' = worker_install k → worker_lease k' = worker_lease k → recovers k' = recovers k →
  (busy (entries (state w')) k' → active (state w') ≠ None ∧ recovers k = true) →
  Inv (set_worker w' n k').
Proof.
  intros Hinv Hk Hb He Hw Hid Hlease Hrec Hbusy. destruct (inv_busy _ _ _ Hinv Hk Hb)
    as (x & row & Ha & Hx & Hu & Hrow & Hl & Hle). assert (x = e) as -> by congruence.
  destruct Hw as [Hcore Hes Hws Hn Ho Hrun Hreq Hlib Hend]. split; cbn.
  - done.
  - rewrite Hws, Hn, Hes. eapply crew_settle; try done; [apply Hinv|].
    rewrite <-Hes. intros Hbk. destruct (Hbusy Hbk) as [Hna Hr].
    destruct Hend as [[? _]|(Ha' & Hu' & Hl')]; [done|]. split.
    + by rewrite Hid.
    + rewrite Hid, Hes, Hlease. intros row' Hrow' y. rewrite lookup_insert_eq. intros [= <-]. rewrite Hreq.
      destruct (Hlib _ _ Hrow') as (r0 & Hr0 & ->). by apply Hl.
    + exists e'. rewrite Hid, Hes, lookup_insert_eq, Hrec, Hr, Hlease. by split_and!.
  - intros id y Hay Hy. left. destruct Hend as [[? _]|(Ha' & Hu' & Hl')]; [congruence|].
    rewrite Hes in Hy. assert (id = worker_install k) as -> by congruence.
    rewrite lookup_insert_eq in Hy. injection Hy as <-. by rewrite Hl'.
Qed.

Lemma run_end_inv env n k r w :
  settles (tx_call (complete_tx env)) → settles (tx_call (retain_tx env)) →
  Inv w → workers w !! n = Some k → runs_install k = true → worker_stage k ≠ Returned → Inv (run_end env n k r w).
Proof.
  intros Hs Hs' Hinv Hk Hi Hstage. assert (busy (entries (state w)) k) as Hb by by left.
  destruct (inv_busy _ _ _ Hinv Hk Hb) as (e & row & Ha & He & Hu & Hrow & Hl & _).
  destruct (finish_work_worked env (worker_install k) (worker_lease k) r w e) as (e' & Hw & _); try done; [apply Hinv|].
  unfold run_end. eapply inv_worked; try done. intros [?|Hbk]; [done|].
  cbn in Hbk. unfold runs_install in Hi. by destruct (worker_kind k).
Qed.

(** Progress touches the view of one entry. *)
Lemma inv_entry w w' id e e' :
  Inv w → entries (state w) !! id = Some e → queued (state w') = queued (state w) →
  active (state w') = active (state w) → entries (state w') = <[id := e']> (entries (state w)) →
  rows_of w' = rows_of w → workers w' = workers w → next_worker w' = next_worker w →
  observers_closed w' = observers_closed w →
  entry_request e' = entry_request e → entry_item e' = entry_item e → status_of_install id (entry_status e') →
  (status_done (entry_status e) = true → entry_status e' = entry_status e) → (undone e → undone e') →
  (∀ pin, entry_pin e' = Some pin → entry_pin e = Some pin) → recovery_lease e' = recovery_lease e →
  (recovery_running e = true → recovery_running e' = true ∨
    ∀ n k, workers w !! n = Some k → recovers k = true → worker_install k ≠ id) → Inv w'.
Proof.
  intros [Hc Hw Hf] He Hq Ha Hes Hr Hws Hn Ho Hreq Hitem Hst Hdone Hu Hpin Hl Hrun.
  split; rewrite ?Hq, ?Ha, ?Hes, ?Hr, ?Hws, ?Hn, ?Ho.
  - eapply core_entry; try done. intros lease. rewrite Hl. by left.
  - eapply crew_entry; try done. destruct (status_done (entry_status e)) eqn:Ed; [|by apply Hu].
    by rewrite Hdone.
  - intros other y Hay. destruct (decide (id = other)) as [<-|Hne].
    + rewrite lookup_insert_eq. intros [= <-]. rewrite Hl. by apply Hf.
    + rewrite lookup_insert_ne by done. by apply Hf.
Qed.

Lemma inv_status w id e : Inv w → entries (state w) !! id = Some e → status_of_install id (entry_status e).
Proof.
  intros [Hc _ _] He. destruct (core_entries _ _ _ _ Hc _ _ He) as (row & _ & Hh & _). apply Hh.
Qed.

Lemma progress_inv id event w : Inv w → Inv (progress id event w).
Proof.
  intros Hinv. unfold progress. destruct (progress_done event); [done|].
  destruct (entries (state w) !! id) as [e|] eqn:He; [|done]. destruct (_ || _) eqn:Ed; [done|].
  apply orb_false_iff in Ed as [Ed _]. apply inv_publish.
  eapply (inv_entry w _ id e); try done; [apply (inv_status w id e Hinv He)|by rewrite Ed|by left].
Qed.

Lemma run_begin_inv env cancelled n k w :
  settles (tx_call (complete_tx env)) → settles (tx_call (retain_tx env)) →
  Inv w → workers w !! n = Some k → runs_install k = true → worker_stage k ≠ Returned →
  Inv (run_begin env cancelled n k w).
Proof.
  intros Hs Hs' Hinv Hk Hi Hstage. assert (busy (entries (state w)) k) as Hb by by left.
  destruct (inv_busy _ _ _ Hinv Hk Hb) as (e & row & Ha & He & Hu & Hrow & Hl & Hle).
  unfold run_begin. rewrite He. destruct (_ || _).
  - edestruct (complete_or_retain_worked env (worker_install k) (worker_lease k) Cancelled None) as (e' & Hw & _);
      try done; [apply Hinv|].
    eapply inv_worked; try done. intros [?|Hbk]; [done|].
    cbn in Hbk. unfold runs_install in Hi. by destruct (worker_kind k).
  - set (w1 := progress (worker_install k) (first_event (is_content (entry_request e))) w).
    assert (Inv w1) as Hinv1 by by apply progress_inv.
    assert (workers w1 = workers w) as Hws by (unfold w1, progress; repeat case_match; done).
    clearbody w1. rewrite <-Hws in Hk. destruct Hinv1 as [Hc1 Hw1 Hf1]. split; cbn; [done| |].
    + destruct (crew_busy _ _ _ _ _ Hw1 _ _ Hk (or_introl Hstage)) as [Ha1 Hl1 (e1 & He1 & Hu1 & Hle1)].
      rewrite <-(insert_id (entries (state w1)) (worker_install k) e1) by done.
      eapply crew_settle; try done; [by left|]. rewrite insert_id by done. intros _. split; [done|done|].
      by exists e1.
    + intros id y Hay Hy. destruct (Hf1 id y Hay Hy) as [?|[(m & j & Hj & Hr & Hst & Hid)|?]]; auto.
      right. left. destruct (decide (m = n)) as [->|Hne].
      * exists n, (set_stage k Working). rewrite lookup_insert_eq. assert (j = k) as -> by congruence. by split_and!.
      * exists m, j. by rewrite lookup_insert_ne.
Qed.

Lemma join_worker_inv n k w :
  Inv w → workers w !! n = Some k → worker_stage k = Returned → Inv (join_worker n (worker_install k) w).
Proof.
  intros [Hc Hw Hf] Hk Hret. assert (Inv (remove_worker w n)) as Hinv.
  { split; cbn; [done|by apply crew_remove|]. intros id e Ha He.
    destruct (Hf id e Ha He) as [?|[(m & j & Hj & Hr & Hs & Hid)|?]]; auto. right. left. exists m, j.
    split_and!; try done. rewrite lookup_delete_ne; [done|]. intros ->. congruence. }
  unfold join_worker. destruct (is_some_and _ _); [|done]. by apply (inv_same _ _ Hinv).
Qed.

(** ** Starting *)

(** The front of an idle queue. *)
Lemma queued_front w id rest e :
  Inv w → active (state w) = None → queued (state w) = id :: rest → entries (state w) !! id = Some e →
  ∃ row, rows_of w !! id = Some row ∧ row_holds id e row ∧ undone e ∧ recovery_lease e = None ∧
    NoDup rest ∧ id ∉ rest ∧ (S (length rest) ≤ MAX_QUEUED)%nat.
Proof.
  intros [Hc _ _] Ha Hq He. destruct (core_queued _ _ _ _ id Hc) as (x & row & Hx & Hu & _ & Hrow & Hh & _ & Hl);
    [rewrite Hq; left|]. assert (x = e) as -> by congruence. exists row.
  pose proof (core_line _ _ _ _ Hc) as Hnd. rewrite Hq in Hnd. apply list.NoDup_cons in Hnd as [? ?].
  pose proof (core_room _ _ _ _ Hc) as Hroom. rewrite Hq, Ha in Hroom. cbn in Hroom. split_and!; try done. lia.
Qed.

Lemma seated_active p id rest e :
  (p = PhaseRunning ∨ p = PhaseSettlement) → undone e → id ∉ rest → seated p rest (Some id) id e.
Proof. by intros [->| ->]. Qed.

(** An entry saved as running whose work the task owner refused. *)
Lemma start_refused_inv env id e w :
  settles (tx_call (waiting_tx env)) →
  core (queued (state w)) (active (state w)) (entries (state w)) (rows_of w) →
  crew (workers w) (next_worker w) None (entries (state w)) (rows_of w) →
  active (state w) = Some id → entries (state w) !! id = Some e → recovery_lease e = None →
  ∀ lease, (∀ row, rows_of w !! id = Some row → lease = install_artifacts (entry_request e) (row_library row)) →
  Inv (start_refused env id e lease w).
Proof.
  intros Hs Hc Hw Ha He Hl lease Hlease. destruct (active_row _ _ _ Hc Ha He) as (row & Hrow & Hh & Hu & Hn & Hroom).
  unfold start_refused. set (waiting := set_view (entry_status e) _ _).
  set (e2 := set_started (set_status e waiting) None). change waiting with (entry_status e2).
  destruct (save_status _ _ _ _) as [saved w2] eqn:Esave.
  assert (NoDup (id :: queued (state w))) as Hnd by (constructor; [done|apply Hc]).
  eapply (saving _ _ w id e row e2 _ PhaseQueued (id :: queued (state w)) None) in Esave as (st & -> & Hcase);
    try done; try apply Hh; try (rewrite Ha; naive_solver); try (cbn; lia); try set_solver;
    try (cbn; rewrite Hl; done); try (by split_and!; [|left|..]).
  assert (∀ a' rows' e', recovery_running e' = recovery_running e → (undone e' → undone e) →
    crew (workers w) (next_worker w) a' (<[id := e']> (entries (state w))) rows') as Hcrew.
  { intros a' rows' e' Hr Hu'. eapply crew_nobody; try done; [|by rewrite Hr].
    intros n k. by eapply crew_inactive. }
  destruct saved.
  - split; cbn; unfold rows_of; cbn; [apply Hcase|by apply Hcrew|done].
  - split; cbn; unfold rows_of; cbn; rewrite ?Hcase.
    + eapply core_entry; try done; [apply Hh|congruence|]. intros l [= <-]. right. by split; [|apply Hlease].
    + rewrite Ha. by apply Hcrew.
    + intros other y Hay. assert (other = id) as -> by congruence. rewrite lookup_insert_eq. intros [= <-]. by left.
Qed.

Lemma start_entry_inv env id rest e pin w :
  settles (tx_call (running_tx env)) → settles (tx_call (waiting_tx env)) →
  Inv w → active (state w) = None → queued (state w) = id :: rest → entries (state w) !! id = Some e →
  entry_pin e = Some pin → Inv (start_entry env id rest e pin w).
Proof.
  intros Hs Hs' Hinv Ha Hq He Hpin. destruct (queued_front _ _ _ _ Hinv Ha Hq He)
    as (row & Hrow & Hh & Hu & Hl & Hnd & Hnin & Hroom). pose proof Hinv as [Hc Hw Hf]. rewrite Ha, Hq in *.
  unfold start_entry. set (e1 := starting_entry env e).
  set (w0 := with_state w (set_entry (state w) id e1)).
  assert (status_of_install id (entry_status e1)) as Hst by apply (rh_status _ _ _ Hh).
  assert (core (id :: rest) None (<[id := e1]> (entries (state w))) (rows_of w)) as Hcore0.
  { eapply core_entry; try done; [congruence|by left]. }
  destruct (save_status _ _ _ _) as [saved w1] eqn:Esave.
  eapply (saving (id :: rest) None w0 id e1 row e1 _ PhaseRunning rest (Some id)) in Esave as (st & -> & Hcase);
    try done; try (cbn; by rewrite lookup_insert_eq); try (cbn; lia); try (cbn; set_solver);
    try (by rewrite (rh_pin _ _ _ Hh)); try (cbn; rewrite Hl; done); try (apply (rh_pin _ _ _ Hh)).
  destruct saved.
  2: { split; cbn; unfold rows_of; cbn; rewrite ?Hcase, ?Ha, ?Hq; [done| |done].
       eapply crew_entry; try done. by left. }
  destruct Hcase as [[enc Hrows] Hcore]. cbn in Hcore. rewrite insert_insert_eq in Hcore.
  assert (∀ row', queue_rows (database st) !! id = Some row' → row_library row' = pin_library pin) as Hlib.
  { intros row'. rewrite Hrows, lookup_insert_eq. intros [= <-]. by rewrite (rh_pin _ _ _ Hh _ Hpin). }
  assert (∀ n k, workers w !! n = Some k → ¬ busy (entries (state w)) k) as Hno by (intros n k; by eapply crew_inactive).
  assert (∀ a', crew (workers w) (next_worker w) a' (<[id := e1]> (entries (state w))) (queue_rows (database st)))
    as Hcrew by (intros a'; by eapply crew_nobody).
  destruct (spawns env); apply inv_publish.
  - split; cbn; unfold rows_of; cbn; [done| |].
    + apply crew_add; [done| | |done].
      * intros n k Hk Hb. apply busy_entry with (e := e) in Hb; [|done|done]. by eapply Hno.
      * split; cbn; [done| |].
        -- intros row' Hrow' y. rewrite lookup_insert_eq, (Hlib _ Hrow'). by intros [= <-].
        -- exists e1. by rewrite lookup_insert_eq.
    + intros other y [= <-] _. right. left. eexists (next_worker w), _. by rewrite lookup_insert_eq.
  - eapply inv_same; [apply (start_refused_inv env id e1
      (with_state (with_store w0 st) (set_line (state (with_store w0 st)) rest (Some id)))
      Hs' Hcore (Hcrew None) eq_refl (lookup_insert_eq _ _ _) Hl (install_artifacts (entry_request e) (pin_library pin)))|..];
      try done. intros row' Hrow'. by rewrite (Hlib _ Hrow').
Qed.

Lemma start_next_inv env w :
  settles (tx_call (running_tx env)) → settles (tx_call (waiting_tx env)) → Inv w → Inv (start_next env w).
Proof.
  intros Hs Hs' Hinv. unfold start_next. destruct (_ || observers_closed w) eqn:Eg; [done|].
  apply orb_false_iff in Eg as [[[_ Ea]%orb_false_iff _]%orb_false_iff _].
  assert (active (state w) = None) as Ha by (unfold is_none in Ea; by destruct (active (state w))).
  destruct (queued (state w)) as [|id rest] eqn:Eq; [done|]. destruct (entries (state w) !! id) as [e|] eqn:Ee; [|done].
  destruct (entry_pin e) as [pin|] eqn:Ep; [|done]. destruct (_ && _); [|done]. by eapply start_entry_inv.
Qed.

(** ** Recovery *)

Definition no_recovery (id : string) (ws : gmap nat Worker) : Prop :=
  ∀ n k, ws !! n = Some k → recovers k = true → worker_install k ≠ id.

Lemma recovery_finished_inv tx id settled w :
  settles (tx_call tx) → Inv w → no_recovery id (workers w) →
  (settled = false → ∀ e, entries (state w) !! id = Some e → undone e → active (state w) = Some id) →
  Inv (recovery_finished tx id settled w).
Proof.
  intros Hs Hinv Hno Hact. unfold recovery_finished.
  destruct (entries (state w) !! id) as [e|] eqn:He.
  2: { cbn [orb]. destruct settled; by apply (inv_same _ _ Hinv). }
  assert (∀ w', rows_of w' = rows_of w → workers w' = workers w → next_worker w' = next_worker w →
    observers_closed w' = observers_closed w → queued (state w') = queued (state w) →
    active (state w') = active (state w) → entries (state w') = <[id := set_running e false]> (entries (state w)) → Inv w')
    as Hplain.
  { intros w' ? ? ? ? ? ? ?. eapply (inv_entry w w' id e); try done; [by apply (inv_status w id e)|by right]. }
  destruct (negb settled && negb (status_done (entry_status (set_running e false)))) eqn:Eb.
  2: { destruct settled; by apply Hplain. }
  apply andb_true_iff in Eb as [Es%negb_true_iff Eu%negb_true_iff]. subst settled. cbn in Eu.
  specialize (Hact eq_refl _ eq_refl Eu). pose proof Hinv as [Hc Hw Hf].
  destruct (active_row _ _ _ Hc Hact He) as (row & Hrow & Hh & Hu & Hn & Hroom).
  set (e' := set_status (set_running e false) _).
  destruct (save_status _ _ _ _) as [saved w1] eqn:Esave.
  eapply (saving _ _ w id e row e' tx PhaseSettlement (queued (state w)) (Some id)) in Esave
    as (st & -> & Hcase); try done; try (by rewrite <-Hact); try apply Hc; try apply Hh.
  assert (∀ s, queued s = queued (state w) → active s = Some id → entries s = <[id := e']> (entries (state w)) →
    Inv (publish (with_state (with_store w st) (set_entry (state (with_store w st)) id e')) s)) as Hdone.
  { intros s Hq Has Hes. apply inv_publish. split; cbn; unfold rows_of; cbn; rewrite ?Hq, ?Has, ?Hes.
    - destruct saved; [by apply Hcase|]. rewrite Hcase, <-Hact.
      eapply core_entry; try done; [apply Hh|congruence|by left].
    - eapply crew_rows; [rewrite <-Hact; eapply crew_entry; [exact Hw|exact He|done..|by right]|].
      intros other row' Hr _. destruct saved; [|rewrite Hcase in Hr; eauto].
      destruct Hcase as [[enc Henc] _]. rewrite Henc in Hr. by eapply saved_library.
    - intros other y [= <-]. rewrite lookup_insert_eq. intros [= <-]. rewrite Hact in Hf.
      destruct (Hf id e eq_refl He) as [?|?]; [by left|by right]. }
  destruct (setup_changed _ || false); by apply Hdone.
Qed.

(** A task of the active install that nobody recovers. *)
Lemma add_recovery_inv w k e :
  Inv w → active (state w) = Some (worker_install k) → entries (state w) !! worker_install k = Some e →
  recovery_lease e = Some (worker_lease k) → recovers k = true → no_recovery (worker_install k) (workers w) →
  ∀ w', rows_of w' = rows_of w → workers w' = workers w → next_worker w' = next_worker w →
    observers_closed w' = observers_closed w → queued (state w') = queued (state w) →
    active (state w') = active (state w) →
    ∀ e', entries (state w') = <[worker_install k := e']> (entries (state w)) →
    entry_request e' = entry_request e → entry_item e' = entry_item e → undone e' →
    status_of_install (worker_install k) (entry_status e') → entry_pin e' = entry_pin e →
    recovery_lease e' = recovery_lease e → recovery_running e' = true →
    Inv w' ∧ Inv (add_worker w' k).
Proof.
  intros Hinv Ha He Hl Hr Hno w' Hrows Hws Hn Ho Hq Ha' e' Hes Hreq Hitem Hu' Hst Hpin Hl' Hrun.
  pose proof Hinv as [Hc Hw Hf]. destruct (active_row _ _ _ Hc Ha He) as (row & Hrow & Hh & Hu & Hnq & Hroom).
  assert (Inv w') as Hinv'.
  { eapply (inv_entry w w' _ e); try done; [congruence|congruence|by left]. }
  split; [done|]. destruct Hinv' as [Hc' Hw' Hf']. split; [done| |].
  - change (crew (<[next_worker w' := k]> (workers w')) (S (next_worker w')) (active (state w'))
      (entries (state w')) (rows_of w')).
    assert (∀ n j, workers w !! n = Some j → ¬ busy (entries (state w)) j) as Hidle.
    { intros n j Hj Hb. destruct (crew_busy _ _ _ _ _ Hw _ _ Hj Hb) as [Haj _ (x & Hx & _ & Hxl)].
      assert (worker_install j = worker_install k) as E by congruence. rewrite E in Hx.
      assert (x = e) as -> by congruence. destruct (recovers j) eqn:Ej; [by apply (Hno n j)|congruence]. }
    apply crew_add; [done|..].
    + rewrite Hws, Hes. intros n j Hj Hb. apply busy_entry with (e := e) in Hb; [|done|done]. by eapply Hidle.
    + split; [congruence| |].
      * rewrite Hrows, Hes. intros row' Hrow' y. rewrite lookup_insert_eq. intros [= <-]. rewrite Hreq.
        assert (row' = row) as -> by congruence. by apply (rh_lease _ _ _ Hh).
      * exists e'. rewrite Hes, lookup_insert_eq, Hr, Hl'. by split_and!.
    + intros _. exists e'. rewrite Hes, lookup_insert_eq, Hws. by split_and!.
  - intros id y. cbn. intros Hid Hy. left. assert (id = worker_install k) as -> by congruence.
    rewrite Hes, lookup_insert_eq in Hy. injection Hy as <-. congruence.
Qed.

Lemma not_running w id e :
  Inv w → entries (state w) !! id = Some e → recovery_running e = false → no_recovery id (workers w).
Proof.
  intros [_ Hw _] He Hr n k Hk Hrec <-. destruct (crew_running _ _ _ _ _ Hw _ _ Hk Hrec) as (x & Hx & Rx). congruence.
Qed.

Lemma recover_begin_inv env id w :
  settles (tx_call (recover_tx env)) → Inv w → Inv (recover_begin env id w).2.
Proof.
  intros Hs Hinv. unfold recover_begin. destruct (entries (state w) !! id) as [e|] eqn:He; [|done].
  destruct (_ || str_eqb _ "queued") eqn:Ed; [done|]. apply orb_false_iff in Ed as [Hu _].
  destruct (negb (bool_decide (active (state w) = Some id)) || _) eqn:Ea; [done|].
  apply orb_false_iff in Ea as [Ea%negb_false_iff%bool_decide_eq_true _].
  destruct (recovery_running e) eqn:Er; [done|].
  destruct (entry_pin e) as [pin|]; [|done]. destruct (recovery_lease e) as [lease|] eqn:El; [|done].
  pose proof (not_running _ _ _ Hinv He Er) as Hno.
  set (k := {| worker_install := id; worker_kind := RunRecovery None; worker_lease := lease; worker_stage := Accepted |}).
  set (w1 := publish w (set_entry (state w) id (set_running e true))).
  destruct (add_recovery_inv w k e Hinv Ea He El eq_refl Hno w1 eq_refl eq_refl eq_refl eq_refl eq_refl eq_refl
    (set_running e true) eq_refl eq_refl eq_refl Hu (inv_status w id e Hinv He) eq_refl eq_refl eq_refl) as [Hinv1 Hadd].
  assert (∀ r, Inv (r : result InstallError unit, recovery_finished (recover_tx env) id false w1).2) as Hfail.
  { intros r. by apply recovery_finished_inv. }
  destruct (recover_opens env); [|apply Hfail]. destruct (observers_closed w1); [apply Hfail|].
  destruct (recover_spawns env); [done|apply Hfail].
Qed.

Lemma recover_content_read_ok env id w c :
  recover_content_read env id w = Ok c →
  ∃ e, entries (state w) !! id = Some e ∧ recovery_running e = false ∧ recovery_lease e = Some (captured_lease c).
Proof.
  unfold recover_content_read.
  intros [_ (e & He%ok_or_ok & [Hr%err_if_ok [_ (lease & Hl%ok_or_ok & Hm)%bind_ok]%bind_ok_unit]%bind_ok_unit)%bind_ok]%bind_ok_unit.
  exists e. split_and!; [done|done|]. destruct (entry_request e); [done..|]. ok_inv. done.
Qed.

(** The second lock finds the install under the lease that was read. *)
Definition still_held (id : string) (c : ContentRecovery) (w : World) : Prop :=
  ∃ e, entries (state w) !! id = Some e ∧ recovery_lease e = Some (captured_lease c).

Lemma read_still_held env id w c : recover_content_read env id w = Ok c → still_held id c w.
Proof. intros (e & He & _ & Hl)%recover_content_read_ok. by exists e. Qed.

Lemma recover_content_start_inv env id c w :
  settles (tx_call (recover_tx env)) → Inv w → still_held id c w → Inv (recover_content_start env id c w).2.
Proof.
  intros Hs Hinv (e & He & El). unfold recover_content_start. rewrite He.
  destruct (recovery_running e) eqn:Er; [done|].
  assert (recovery_lease e ≠ None) as Hsome by congruence.
  destruct (core_leased _ _ _ _ _ _ (inv_core _ Hinv) He Hsome) as [Ha Hu].
  pose proof (not_running _ _ _ Hinv He Er) as Hno.
  set (k := {| worker_install := id; worker_kind := SettleContent _ _ _; worker_lease := captured_lease c;
               worker_stage := Working |}).
  set (e' := set_running _ true). set (w1 := publish w _).
  assert (queued (state w1) = queued (state w) ∧ active (state w1) = active (state w) ∧
    entries (state w1) = <[id := e']> (entries (state w))) as (Hq1 & Ha1 & He1)
    by (unfold w1; by destruct (_ && str_eqb _ "settlement_required")).
  destruct (add_recovery_inv w k e Hinv Ha He El eq_refl Hno w1 eq_refl eq_refl eq_refl eq_refl Hq1 Ha1
    e' He1 eq_refl eq_refl Hu (inv_status w id e Hinv He) eq_refl eq_refl eq_refl) as [Hinv1 Hadd].
  destruct (observers_closed w1 || negb (recover_spawns env)); [|done].
  apply recovery_finished_inv; try done. intros _ x Hx Ux. by rewrite Ha1.
Qed.

(** The work of a recovery takes what was retained, and goes on. *)
Lemma recovery_take_inv n k w :
  Inv w → workers w !! n = Some k → runs_recovery k = true → worker_stage k ≠ Returned → Inv (recovery_take n k w).
Proof.
  intros Hinv Hk Hr Hstage. assert (busy (entries (state w)) k) as Hb by by left.
  destruct (inv_busy _ _ _ Hinv Hk Hb) as (e & row & Ha & He & Hu & Hrow & Hl & Hle).
  unfold recovery_take. rewrite He. set (e' := set_retained e None).
  set (w1 := with_state w (set_entry (state w) (worker_install k) e')).
  assert (recovers k = true) as Hrec by (unfold recovers, runs_install; unfold runs_recovery in Hr; by destruct (worker_kind k)).
  assert (Inv w1) as [Hc1 Hw1 Hf1].
  { eapply (inv_entry w w1 _ e); try done; [apply (inv_status w _ e Hinv He)|by left]. }
  split; cbn; [done| |].
  - eapply crew_settle; [apply (inv_crew _ Hinv)|done..|]. intros _. split; [done| |].
    + intros row' Hrow' y. cbn. rewrite lookup_insert_eq. intros [= <-]. by apply Hl.
    + exists e'. cbn. rewrite lookup_insert_eq. split_and!; [done|done|]. cbn. rewrite Hle. done.
  - intros id y Hay Hy. left. assert (id = worker_install k) as -> by congruence.
    rewrite lookup_insert_eq in Hy. injection Hy as <-. cbn. by rewrite Hle, Hrec.
Qed.

Lemma requeue_worked tx id lease w e r w' :
  settles (tx_call tx) → core (queued (state w)) (active (state w)) (entries (state w)) (rows_of w) →
  active (state w) = Some id → entries (state w) !! id = Some e → recovery_lease e = Some lease →
  requeue_recovered tx id w = (r, w') →
  ∃ e', worked id lease e e' w w' ∧ (is_ok r = true ↔ active (state w') = None).
Proof.
  intros Hs Hc Ha He Hl. destruct (active_row _ _ _ Hc Ha He) as (row & Hrow & Hh & Hu & Hn & Hroom).
  unfold requeue_recovered. rewrite He. set (s := set_view (entry_status e) _ _).
  set (e' := set_retained (set_lease (set_status e s) None) None). change s with (entry_status e').
  destruct (save_status _ _ _ _) as [saved w1] eqn:Esave.
  assert (NoDup (id :: queued (state w))) as Hnd by (constructor; [done|apply Hc]).
  eapply (saving _ _ w id e row e' tx PhaseQueued (id :: queued (state w)) None) in Esave as (st & -> & Hcase);
    try done; try apply Hh; try (rewrite Ha; naive_solver); try (cbn; lia); try set_solver;
    try (by split_and!; [|left|..]).
  destruct saved; intros [= <- <-].
  - destruct Hcase as [[enc Henc] Hcore]. exists e'. split; [|done].
    split; cbn; try done; [|by left]. unfold rows_of. cbn. rewrite Henc. intros other row'. by apply saved_library.
  - exists e. split; [|by cbn; rewrite Ha]. split; cbn; unfold rows_of; cbn; try done.
    + by rewrite Hcase.
    + by rewrite insert_id.
    + rewrite Hcase. eauto.
    + right. by split_and!.
Qed.

Lemma recovery_answer_worked env id lease a w e r w' :
  settles (tx_call (complete_tx env)) → settles (tx_call (retain_tx env)) →
  core (queued (state w)) (active (state w)) (entries (state w)) (rows_of w) →
  active (state w) = Some id → entries (state w) !! id = Some e → recovery_lease e = Some lease →
  recovery_answer env id a w = (r, w') →
  ∃ e', worked id lease e e' w w' ∧ (is_ok r = true ↔ active (state w') = None).
Proof.
  intros Hs Hs' Hc Ha He Hl.
  assert (∀ outcome error r w', (let '(done_, w) := complete (complete_tx env) (end_now env) id outcome error w in
      if done_ : bool then (Ok tt, w) else (Err InstallStorage, retain_unsettled (retain_tx env) id RetainRetry w)) = (r, w') →
    ∃ e', worked id lease e e' w w' ∧ (is_ok (r : result InstallError unit) = true ↔ active (state w') = None)) as Hended.
  { intros outcome error r1 w1. destruct (complete _ _ _ _ _ _) as [done_ w2] eqn:Ecomplete.
    apply (complete_worked _ _ _ _ _ lease _ e) in Ecomplete; try done. destruct done_; intros [= <- <-].
    - destruct Ecomplete as (e' & Hw & Hd). exists e'. split; [done|]. split; [intros _|done].
      destruct (wk_end _ _ _ _ _ _ Hw) as [[? _]|(_ & Hu' & _)]; [done|congruence].
    - destruct Ecomplete as (e1 & Hw2 & Hrows & Hrun & Hlease & Hreq & Hcore).
      destruct (retain_unsettled_worked (retain_tx env) id RetainRetry lease w2 e1) as (e' & Hw & Hact); try done.
      + rewrite Hw2. cbn. unfold rows_of in *. cbn. by rewrite Hrows.
      + by rewrite Hw2.
      + rewrite Hw2. cbn. by rewrite lookup_insert_eq.
      + congruence.
      + exists e'. split; [|by rewrite Hact]. eapply worked_before; try done; by rewrite Hw2. }
  unfold recovery_answer. destruct a as [|[[]|[error|retained]]]; [by apply requeue_worked|by apply Hended..|].
  intros [= <- <-]. destruct (retain_unsettled_worked (retain_tx env) id retained lease w e) as (e' & Hw & Hact); try done.
  exists e'. split; [done|]. by rewrite Hact.
Qed.

Lemma recovery_end_inv env n k a w :
  settles (tx_call (complete_tx env)) → settles (tx_call (retain_tx env)) →
  Inv w → workers w !! n = Some k → runs_recovery k = true → worker_stage k ≠ Returned → Inv (recovery_end env n k a w).
Proof.
  intros Hs Hs' Hinv Hk Hr Hstage. assert (busy (entries (state w)) k) as Hb by by left.
  destruct (inv_busy _ _ _ Hinv Hk Hb) as (e & row & Ha & He & Hu & Hrow & Hl & Hle).
  assert (recovers k = true) as Hrec by (unfold recovers, runs_install; unfold runs_recovery in Hr; by destruct (worker_kind k)).
  unfold recovery_end. destruct (recovery_answer _ _ _ _) as [r w'] eqn:Ea. rewrite Hrec in Hle.
  destruct (recovery_answer_worked env _ (worker_lease k) a w e r w' Hs Hs' (inv_core _ Hinv) Ha He Hle Ea) as (e' & Hw & Hok).
  eapply inv_worked; try done. intros [?|Hbk]; [done|]. cbn in Hbk. split; [|done].
  intros Hna. apply Hbk. apply Hok in Hna. by destruct r as [[]|].
Qed.

Lemma content_recovery_end_inv env n k pending resumed run w :
  settles (tx_call (complete_tx env)) → settles (tx_call (retain_tx env)) →
  Inv w → workers w !! n = Some k → worker_stage k ≠ Returned → Inv (content_recovery_end env n k pending resumed run w).
Proof.
  intros Hs Hs' Hinv Hk Hstage. unfold content_recovery_end.
  destruct (worker_kind k) as [| |settled any work] eqn:Ekind; [done..|].
  assert (busy (entries (state w)) k) as Hb by by left.
  destruct (inv_busy _ _ _ Hinv Hk Hb) as (e & row & Ha & He & Hu & Hrow & Hl & Hle).
  assert (recovers k = true) as Hrec by (unfold recovers, runs_install; by rewrite Ekind).
  set (r := content_recovery_result _ _ _ _ _ _).
  destruct (finish_work_worked env (worker_install k) (worker_lease k) (ContentResult r) w e) as (e' & Hw & Hdone);
    try done; [apply Hinv|]. cbn in Hw, Hdone.
  eapply inv_worked; try done. intros [?|Hbk]; [done|]. cbn in Hbk. rewrite Ekind in Hbk. split; [|done].
  destruct Hbk as (x & Hx & Ux). rewrite (wk_entries _ _ _ _ _ _ Hw), lookup_insert_eq in Hx.
  injection Hx as <-. intros Hna. specialize (Hdone Hna). congruence.
Qed.

Lemma inv_remove w n k :
  Inv w → workers w !! n = Some k → (runs_install k = true → worker_stage k = Returned) → Inv (remove_worker w n).
Proof.
  intros [Hc Hw Hf] Hk Hret. split; cbn; [done|by apply crew_remove|]. intros id e Ha He.
  destruct (Hf id e Ha He) as [?|[(m & j & Hj & Hr & Hs & Hid)|?]]; auto. right. left. exists m, j.
  split_and!; try done. rewrite lookup_delete_ne; [done|]. intros ->. assert (j = k) as -> by congruence. auto.
Qed.

Lemma join_recovery_inv tx n k w :
  settles (tx_call tx) → Inv w → workers w !! n = Some k → Inv (join_recovery tx n k w).
Proof.
  intros Hs Hinv Hk. unfold join_recovery, recovery_join, content_recovery_join.
  assert (∀ settled, recovers k = true →
    (settled = false → busy (entries (state w)) k ∨ ∀ e, entries (state w) !! worker_install k = Some e → ¬ undone e) →
    Inv (recovery_finished tx (worker_install k) settled (remove_worker w n))) as Hjoin.
  { intros settled Hrec Hset. apply recovery_finished_inv; [done| | |].
    - apply (inv_remove w n k); try done. unfold recovers in Hrec. by destruct (runs_install k).
    - intros m j. cbn. rewrite lookup_delete_Some. intros [Hne Hj] Hr Hid. apply Hne. symmetry.
      apply (crew_one _ _ _ _ _ (inv_crew _ Hinv) m n j k); try done; [congruence|by left].
    - cbn. intros -> e He Hu. destruct (Hset eq_refl) as [Hb|Hno]; [|by destruct (Hno e)].
      by destruct (crew_busy _ _ _ _ _ (inv_crew _ Hinv) _ _ Hk Hb). }
  destruct (worker_kind k) as [|r|settled any work] eqn:Ekind; [done|..].
  - apply Hjoin; [unfold recovers, runs_install; by rewrite Ekind|]. intros Hr. left. right. rewrite Ekind.
    intros ->. done.
  - apply Hjoin; [unfold recovers, runs_install; by rewrite Ekind|].
    intros [Hst%bool_decide_eq_false|Hd]%andb_false_iff; [by left; left|]. unfold status_of in Hd. cbn in Hd.
    destruct (entries (state w) !! worker_install k) as [e|] eqn:He; [|by right].
    left. right. rewrite Ekind. by exists e.
Qed.

(** ** Admission *)

Lemma core_perm q q' a es rows : q ≡ₚ q' → core q a es rows → core q' a es rows.
Proof.
  intros Hp [Hl He ? Hloc ? Hr ?].
  assert (∀ id, id ∈ q' ↔ id ∈ q) as Hin by (intros id; by rewrite Hp).
  split; try done.
  - by rewrite <-Hp.
  - intros id e Hid. destruct (He id e Hid) as (row & ? & ? & [Hs ?]). exists row. split_and!; try done.
    split; [|done]. by eapply seated_ext; [apply Hin| |exact Hs].
  - intros id. rewrite Hin. apply Hloc.
  - by rewrite <-Hp.
Qed.

Lemma move_front_perm (id : string) q : NoDup q → id ∈ q → id :: filter (λ other, other ≠ id) q ≡ₚ q.
Proof.
  intros Hnd Hin. apply list.NoDup_Permutation.
  - apply list.NoDup_cons. split; [rewrite list_elem_of_filter; tauto|by apply list.NoDup_filter].
  - done.
  - intros x. rewrite elem_of_cons, list_elem_of_filter. destruct (decide (x = id)) as [->|]; tauto.
Qed.

Lemma stored_cases {A} tx (m : eff InstallTables InstallError A) w r w' :
  settles (tx_call tx) → stored tx m w = (r, w') →
  ∃ st, w' = with_store w st ∧
    match r with
    | Ok a => ∃ t, m (database (store w)) = (Ok a, t) ∧ database st = t
    | Err _ => database st = database (store w)
    end.
Proof.
  intros Hs. unfold stored. destruct (in_transaction _ _ _) as [r1 st] eqn:Et. intros [= <- <-].
  exists st. split; [done|]. by apply in_transaction_cases in Et.
Qed.

Lemma inv_store w st : Inv w → database st = database (store w) → Inv (with_store w st).
Proof. intros Hinv Hd. apply (inv_same _ _ Hinv); try done. unfold rows_of. cbn. by rewrite Hd. Qed.

Lemma existing_entry_some request s id e :
  existing_entry request s = Some (id, e) →
  entries s !! id = Some e ∧ undone e ∧ entry_request e = request.
Proof.
  unfold existing_entry. intros Hf. apply find_some in Hf as [Hin Hp]. apply list_elem_of_In in Hin.
  unfold entries_in_order in Hin. rewrite sort_by_perm, elem_of_map_to_list in Hin.
  apply andb_true_iff in Hp as [Hu%negb_true_iff Hr%bool_decide_eq_true]. done.
Qed.

Lemma existing_entry_none request s id e :
  existing_entry request s = None → entries s !! id = Some e → undone e → entry_request e ≠ request.
Proof.
  unfold existing_entry. intros Hf He Hu Hr. assert (In (id, e) (entries_in_order s)) as Hin.
  { apply list_elem_of_In. unfold entries_in_order. by rewrite sort_by_perm, elem_of_map_to_list. }
  pose proof (find_none _ _ Hf _ Hin) as Hn. cbn in Hn. rewrite Hu in Hn. by rewrite bool_decide_true in Hn.
Qed.

Lemma update_front_ok tx id t t' :
  update_front tx id t = (Ok tt, t') →
  ∀ row, queue_rows t !! id = Some row →
  ∃ first, first_accepted (queue_rows t) = Some first ∧
    queue_rows t' = <[id := set_accepted_at (first - 1) row]> (queue_rows t).
Proof.
  unfold update_front, statement. destruct (tx_fault _ _); [done|]. intros Hu row Hrow. rewrite Hrow in Hu.
  destruct (first_accepted _) as [first|]; [|done]. injection Hu as <-. by exists first.
Qed.

Lemma next_rowid_above rows id row : rows !! id = Some row → rowid row < next_rowid rows.
Proof.
  intros Hr. unfold next_rowid.
  assert (∀ l x, x ∈ l → x ≤ foldr Z.max 0 l) as Hmax.
  { induction l as [|y l IH]; intros x; cbn; [by rewrite elem_of_nil|].
    rewrite elem_of_cons. intros [->|Hx%IH]; lia. }
  assert (rowid row ≤ foldr Z.max 0 ((λ kr, rowid kr.2) <$> map_to_list rows)); [|lia].
  apply Hmax. apply list_elem_of_fmap. exists (id, row). by rewrite elem_of_map_to_list.
Qed.

Definition front_time (front : bool) (now : Z) (rows : gmap string QueueRow) : Z :=
  if front then match first_accepted rows with Some first => first - 1 | None => now end else now.

Lemma insert_intent_ok env front library request item status t t' :
  insert_intent env front library request item status t = (Ok tt, t') →
  queue_rows t !! fresh_id env = None ∧
  queue_rows t' = <[fresh_id env := {|
    rowid := next_rowid (queue_rows t); row_operation := fresh_operation env; row_library := library;
    row_request := request; row_target := item; row_status := status; row_phase := PhaseQueued;
    accepted_at := front_time front (admit_now env) (queue_rows t); row_checkpoint := None |}]> (queue_rows t).
Proof.
  unfold insert_intent, front_time. intros (at_ & t1 & Ht & Hi)%eff_bind_ok.
  assert (t1 = t ∧ at_ = front_time front (admit_now env) (queue_rows t)) as [-> ->].
  { unfold front_time. destruct front; [|by apply eff_ret_ok in Ht as [<- <-]].
    unfold select_front, statement in Ht. destruct (tx_fault _ _); [done|]. injection Ht as <- <-. done. }
  unfold insert_row, statement in Hi. destruct (tx_fault _ _); [done|].
  destruct (queue_rows t !! fresh_id env); [done|]. by injection Hi as <-.
Qed.

(** The row of a queued entry moves to the front. *)
Lemma accepted_at_inv w id e row at_ st :
  Inv w → entries (state w) !! id = Some e → rows_of w !! id = Some row →
  queue_rows (database st) = <[id := set_accepted_at at_ row]> (rows_of w) → Inv (with_store w st).
Proof.
  intros [Hc Hw Hf] He Hrow Hst. destruct (core_entries _ _ _ _ Hc _ _ He) as (r & Hr & Hh & Hp).
  assert (r = row) as -> by congruence. split; cbn; unfold rows_of; cbn; [| |done].
  - rewrite Hst, <-(insert_id (entries (state w)) id e) by done.
    eapply core_update; try done; try apply Hc. destruct Hh. by split.
  - eapply crew_rows; [done|]. intros other row' Hr' _. rewrite Hst in Hr'. destruct (decide (id = other)) as [<-|Hne].
    + rewrite lookup_insert_eq in Hr'. injection Hr' as <-. by exists row.
    + rewrite lookup_insert_ne in Hr' by done. by exists row'.
Qed.

Lemma bind_snd {A B} (m : eff World InstallError A) (k : A → eff World InstallError B) w :
  ((m ≫= k) w).2 = match (m w).1 with Ok a => (k a (m w).2).2 | Err _ => (m w).2 end.
Proof. unfold mbind, eff_bind. by destruct (m w) as [[a|e] w1]. Qed.

Lemma move_front_inv env id w :
  settles (tx_call (admit_tx env)) → Inv w → id ∈ queued (state w) →
  Inv (move_front env id w).2 ∧ entries (state (move_front env id w).2) = entries (state w).
Proof.
  intros Hs Hinv Hin. unfold move_front. rewrite bind_snd. destruct (stored _ _ w) as [r w1] eqn:Est.
  destruct (core_queued _ _ _ _ _ (inv_core _ Hinv) Hin) as (x & row & Hx & _ & _ & Hrow & _).
  apply stored_cases in Est as (st & -> & Hcase); [|done]. destruct r as [[]|error]; cbn [fst snd].
  2: { split; [by apply inv_store|done]. }
  destruct Hcase as (t & Ht & Hd). destruct (update_front_ok _ _ _ _ Ht row Hrow) as (first & _ & Hrows). rewrite <-Hd in Hrows.
  pose proof (accepted_at_inv w id x row (first - 1) st Hinv Hx Hrow Hrows) as [Hc1 Hw1 Hf1].
  split; [|done]. split; cbn; [|done|done]. eapply core_perm; [|exact Hc1].
  symmetry. apply move_front_perm; [apply Hinv|done].
Qed.

Lemma rejoin_inv env item pin work front id e w :
  settles (tx_call (admit_tx env)) → Inv w → entries (state w) !! id = Some e →
  Inv (rejoin env item pin work front id e w).2.
Proof.
  intros Hs Hinv He. unfold rejoin. rewrite bind_snd. destruct (err_if _ _) as [[]|]; [|done]. cbn [fst snd lift].
  rewrite bind_snd. cbn [fst snd get_world]. rewrite bind_snd.
  assert (∀ w1, Inv w1 → entries (state w1) = entries (state w) → Inv ((attach_setup id e work ;; mret id) w1).2) as Htail.
  { intros w1 Hinv1 He1. rewrite bind_snd. unfold attach_setup. destruct work as [work|]; [|done]. cbn.
    eapply (inv_entry w1 _ id e); try done; [by rewrite He1|apply (inv_status w id e Hinv He)|by left]. }
  destruct (front && _) eqn:Efront; [|by apply (Htail w)].
  apply andb_true_iff in Efront as [_ Hin%bool_decide_eq_true].
  destruct (move_front_inv env id w Hs Hinv Hin) as [Hinv1 He1].
  destruct (move_front env id w) as [[[]|error] w1]; [|done]. by apply Htail.
Qed.

Lemma admit_new_inv env request item pin work front w :
  settles (tx_call (admit_tx env)) → uuid_canonical (fresh_operation env) = Some (fresh_operation env) →
  Inv w → (∀ id e, entries (state w) !! id = Some e → undone e → entry_request e ≠ request) →
  (length (queued (state w)) + (if active (state w) is Some _ then 1 else 0) < MAX_QUEUED)%nat →
  Inv (admit_new env request item pin work front w).2.
Proof.
  intros Hs Hop Hinv Hnew Hroom. unfold admit_new. set (e := new_entry env request item pin work).
  rewrite bind_snd. destruct (request_to_string request) as [request_json|] eqn:Er; [|done]. cbn [fst snd lift ok_or].
  rewrite bind_snd. destruct (item_to_string item) as [item_json|] eqn:Ei; [|done]. cbn [fst snd lift ok_or].
  rewrite bind_snd. destruct (status_to_string (entry_status e)) as [status_json|] eqn:Es; [|done]. cbn [fst snd lift ok_or].
  rewrite bind_snd. destruct (stored _ _ w) as [r w1] eqn:Est.
  apply stored_cases in Est as (st & -> & Hcase); [|done]. destruct r as [[]|error]; cbn [fst snd].
  2: { by apply inv_store. }
  destruct Hcase as (t & Ht & Hd). apply insert_intent_ok in Ht as [Hfresh Hrows]. rewrite <-Hd in Hrows.
  rewrite bind_snd. cbn [fst snd get_world]. rewrite bind_snd. cbn [fst snd put_state mret eff_ret].
  destruct Hinv as [Hc Hw Hf].
  assert (status_of_install (fresh_id env) (entry_status e)) as Hst by done.
  assert (entries (state w) !! fresh_id env = None) as Hnone.
  { destruct (entries (state w) !! fresh_id env) as [x|] eqn:Ex; [|done].
    destruct (core_entries _ _ _ _ Hc _ _ Ex) as (r & Hr & _). unfold rows_of in Hr. congruence. }
  split; cbn; unfold rows_of; cbn; rewrite ?Hrows.
  - eapply core_insert; try done.
    + destruct front; [done|]. by rewrite Permutation_app_comm.
    + intros other row' Hr. cbn. by eapply next_rowid_above.
    + split; cbn; try done; [by apply request_roundtrip|by apply item_roundtrip| |by intros ? [= <-]].
      exists (entry_status e). split; [by eapply status_roundtrip; [apply Hst|]|done].
  - by apply crew_insert.
  - intros id y Ha. destruct (decide (fresh_id env = id)) as [<-|Hne]; [|rewrite lookup_insert_ne by done; by apply Hf].
    intros _. destruct (core_located _ _ _ _ Hc (fresh_id env)) as [x Hx]; [by right|congruence].
Qed.

Definition admit_ok (env : AdmitEnv) : Prop :=
  settles (tx_call (admit_tx env)) ∧ uuid_canonical (fresh_operation env) = Some (fresh_operation env).

Lemma admit_locked_inv env request item pin work front w :
  admit_ok env → Inv w → Inv (admit_locked env request item pin work front w).2.
Proof.
  intros [Hs Hop] Hinv. unfold admit_locked. rewrite bind_snd. destruct (admissible_content _ _ _); [|done].
  cbn [fst snd lift]. rewrite bind_snd. cbn [fst snd get_world]. rewrite bind_snd.
  destruct (err_if (closed (state w) || _) _); [|done]. cbn [fst snd lift].
  destruct (existing_entry request (state w)) as [[id e]|] eqn:Ee.
  - apply existing_entry_some in Ee as (He & _ & _). by apply rejoin_inv.
  - rewrite bind_snd. destruct (err_if _ _) as [[]|] eqn:Ec; [|done]. cbn [fst snd lift].
    apply err_if_ok, Nat.leb_gt in Ec. apply admit_new_inv; try done.
    intros id e. by apply existing_entry_none.
Qed.

Lemma admit_setup_inv env env' request prerequisite work front item prerequisite_item w :
  admit_ok env → admit_ok env' → Inv w →
  Inv (admit_setup env env' request prerequisite work front item prerequisite_item w).2.
Proof.
  intros Hs Hs' Hinv. unfold admit_setup. destruct front.
  - rewrite bind_snd. pose proof (admit_locked_inv env request item (work_pin work) (Some work) true w Hs Hinv) as H1'.
    destruct (admit_locked env _ _ _ _ _ w) as [[id|e] w1]; [|done]. cbn [fst snd] in *.
    destruct prerequisite_item as [pitem|]; [|done]. rewrite bind_snd.
    pose proof (admit_locked_inv env' prerequisite pitem (work_pin work) None true w1 Hs' H1') as H2'.
    by destruct (admit_locked env' _ _ _ _ _ w1) as [[?|?] w2].
  - rewrite bind_snd. cbn [fst snd get_world]. rewrite bind_snd. set (front := existsb _ _).
    destruct prerequisite_item as [pitem|]; [|by apply admit_locked_inv].
    pose proof (admit_locked_inv env' prerequisite pitem (work_pin work) None front w Hs' Hinv) as H1'.
    destruct (admit_locked env' _ _ _ _ _ w) as [r w1] eqn:E1. rewrite (eff_bind_run _ _ _ _ _ E1).
    destruct r; [|done]. by apply admit_locked_inv.
Qed.

(** ** Removal and shutdown *)

Lemma remove_first_spec id l :
  NoDup l → id ∈ l → NoDup (remove_first id l) ∧ id ∉ remove_first id l ∧
    (∀ x, x ≠ id → x ∈ remove_first id l ↔ x ∈ l) ∧ length l = S (length (remove_first id l)).
Proof.
  induction l as [|y l IH]; [by rewrite elem_of_nil|].
  intros [Hy Hnd]%list.NoDup_cons Hin. cbn [remove_first]. case_bool_decide as E.
  - subst y. split_and!; [done|done| |done]. intros x Hx. rewrite elem_of_cons. tauto.
  - apply elem_of_cons in Hin as [?|Hin]; [congruence|]. destruct (IH Hnd Hin) as (H1' & H2' & H3' & H4').
    split_and!.
    + apply list.NoDup_cons. split; [|done]. by rewrite H3'.
    + rewrite elem_of_cons. naive_solver.
    + intros x Hx. rewrite !elem_of_cons, H3' by done. done.
    + cbn. by rewrite H4'.
Qed.

Lemma remove_queued_inv tx id w : settles (tx_call tx) → Inv w → Inv (remove_queued tx id w).2.
Proof.
  intros Hs Hinv. unfold remove_queued. case_bool_decide as Ea; [done|].
  destruct (negb _) eqn:Eq; [done|]. apply negb_false_iff, bool_decide_eq_true in Eq.
  destruct (entries (state w) !! id) as [e|] eqn:He; [|done]. pose proof Hinv as [Hc Hw Hf].
  destruct (core_queued _ _ _ _ _ Hc Eq) as (x & row & Hx & Hu & _ & Hrow & Hh & _ & Hl).
  assert (x = e) as -> by congruence. set (s := finish_status (entry_status e) Removed None).
  set (e' := set_held (set_status e s) None (recovery_lease e) None). change s with (entry_status e').
  destruct (save_status _ _ _ _) as [saved w1] eqn:Esave.
  destruct (remove_first_spec id (queued (state w)) (core_line _ _ _ _ Hc) Eq) as (Hnd & Hnin & Hrest & Hlen).
  pose proof (core_room _ _ _ _ Hc) as Hroom.
  eapply (saving _ _ w id e row e' tx PhaseTerminal (remove_first id (queued (state w))) (active (state w))) in Esave
    as (st & -> & Hcase); try done; try apply Hh; try (cbn; rewrite Hl; done); [|lia].
  destruct saved; [|by apply (inv_same _ _ Hinv)].
  destruct Hcase as [[enc Henc] Hcore]. cbn [snd]. apply inv_publish. split; cbn; unfold rows_of; cbn; [done| |].
  - eapply crew_rows; [by eapply crew_off|]. intros other row' Hr _. rewrite Henc in Hr. by eapply saved_library.
  - intros other y Hay. destruct (decide (id = other)) as [<-|Hne]; [done|]. rewrite lookup_insert_ne by done. by apply Hf.
Qed.

Lemma remove_inv tx spawns_removal removed id w :
  settles (tx_call tx) → Inv w → Inv (remove tx spawns_removal removed id w).2.
Proof.
  intros Hs Hinv. unfold remove. case_bool_decide; [done|]. destruct (negb _); [done|].
  pose proof (remove_queued_inv tx id w Hs Hinv) as Hr.
  destruct (_ ≫= setup); [|done]. destruct (uuid_canonical id); [|done]. destruct spawns_removal; [|done].
  unfold remove_with_setup. destruct (remove_queued tx id w) as [[response|e] w1]; [|done].
  destruct removed; by apply (inv_same _ _ Hr).
Qed.

Lemma cancel_inv id w : Inv w → Inv (cancel id w).2.
Proof.
  intros Hinv. unfold cancel. destruct (entries (state w) !! id) as [e|] eqn:He; [|done].
  destruct (_ || _); [done|]. eapply (inv_entry w _ id e); try done; [by apply (inv_status w id e)|by left].
Qed.

(** Entries that give up what they hold of the library. *)
Lemma core_let_go q a es rows (f : Entry → Entry) :
  core q a es rows →
  (∀ e, entry_request (f e) = entry_request e ∧ entry_item (f e) = entry_item e ∧ entry_status (f e) = entry_status e ∧
    entry_pin (f e) = None ∧ (recovery_lease (f e) = recovery_lease e ∨ recovery_lease (f e) = None)) →
  core q a (f <$> es) rows.
Proof.
  intros Hc Hf. split; try apply Hc.
  - intros id e'. rewrite lookup_fmap, fmap_Some. intros (e & He & ->).
    destruct (Hf e) as (Hreq & Hitem & Hst & Hpin & Hl).
    destruct (core_entries _ _ _ _ Hc _ _ He) as (row & Hrow & [? ? ? ? ? Hlease] & [Hs Hd]). exists row. split_and!; [done| |].
    + split; rewrite ?Hreq, ?Hitem, ?Hst; try done; [by rewrite Hpin|].
      intros lease. destruct Hl as [->| ->]; [apply Hlease|done].
    + split; rewrite ?Hst; [|done]. unfold seated in *. rewrite Hst.
      destruct (row_phase row); try done; destruct Hl as [->| ->]; tauto.
  - intros id row Hrow Hp. rewrite lookup_fmap, fmap_is_Some. by apply (core_rows _ _ _ _ Hc id row).
  - intros id Hin. rewrite lookup_fmap, fmap_is_Some. by apply (core_located _ _ _ _ Hc).
  - intros i j x y. rewrite !lookup_fmap, !fmap_Some. intros (x0 & Hx & ->) (y0 & Hy & ->).
    destruct (Hf x0) as (-> & _ & -> & _), (Hf y0) as (-> & _ & -> & _). by apply (core_unique _ _ _ _ Hc i j).
Qed.

Lemma shutdown_queued_inv w : Inv w → Inv (shutdown_queued w).2.
Proof.
  intros Hinv. pose proof Hinv as [Hc Hw Hf]. unfold shutdown_queued. cbn [active set_closed].
  destruct (active (state w)) as [id|] eqn:Ha; [by apply (inv_same _ _ Hinv)|]. cbn [is_none negb snd].
  apply inv_publish. split; cbn; unfold rows_of; cbn; rewrite Ha; [| |done].
  - apply core_let_go; [done|]. intros e. split_and!; try done. by left.
  - assert (∀ k, busy ((λ e, set_held e None (recovery_lease e) None) <$> entries (state w)) k → busy (entries (state w)) k) as Hback.
    { intros k [?|Hb]; [by left|right]. destruct (worker_kind k); [done..|]. destruct Hb as (x & Hx & Ux).
      rewrite lookup_fmap in Hx. apply fmap_Some in Hx as (y & Hy & ->). by exists y. }
    pose proof (crew_inactive _ _ _ _ : ∀ n k, crew (workers w) (next_worker w) None (entries (state w)) (rows_of w) → _ → _) as Hidle.
    split; [|intros n k Hk Hr|intros n n' k k' Hk Hk' Hid Hr Hb|apply Hw].
    + intros n k Hk Hb%Hback. by destruct (Hidle n k Hw Hk).
    + destruct (crew_running _ _ _ _ _ Hw _ _ Hk Hr) as (x & Hx & Rx). eexists. rewrite lookup_fmap, Hx. done.
    + apply (crew_one _ _ _ _ _ Hw n n' k k'); try done. destruct Hb as [?|[Hb Hb']]; [by left|right]. auto.
Qed.

Lemma preserve_shutdown_inv env w : Inv w → Inv (preserve_shutdown env w).2.
Proof.
  intros Hinv. pose proof Hinv as [Hc Hw Hf]. unfold preserve_shutdown. destruct (negb _); [done|].
  destruct (_ || negb (bool_decide (workers w = ∅))) eqn:Eg; [done|].
  apply orb_false_iff in Eg as [[[_ Ho]%orb_false_iff _]%orb_false_iff Hws].
  apply negb_false_iff in Ho. apply negb_false_iff, bool_decide_eq_true in Hws.
  destruct (preserved_content_instance (state w)) as [[instance|]|]; [|by apply shutdown_queued_inv|done].
  destruct (err_if (negb content_attached) ContentUnavailable ≫= _) as [[]|]; [|done]. split; cbn.
  - apply core_let_go; [done|]. intros e. split_and!; try done. by right.
  - rewrite Hws. split; intros *; by rewrite lookup_empty.
  - intros id e _ _. by right; right.
Qed.

Lemma join_observers_inv shut_down w : Inv w → Inv (join_observers shut_down w).2.
Proof. intros Hinv. unfold join_observers. destruct (_ || _); [done|]. by apply (inv_same _ _ Hinv). Qed.
End core.
