(* ===== verification/InstallQueueProps.v ===== *)
(** * The install queue over its histories

    What a restart reads back, and the properties of a queue over every history
    of operations, failures of the database and restarts. *)

From S2P Require Import Prelude RustStr Effect McPortablePath McLoaderIdentity SettingsModel Storage.
From S2P Require Import InstanceModel ContentModel InstallModel InstallQueue InstallQueueInv.

Open Scope string_scope.
Open Scope list_scope.
Open Scope Z_scope.

Section restart.
Context `{UuidParser} `{UnicodeNorm} `{InstallJson} `{InstallContent} `{!InstallJsonLaws}.

Notation undone e := (status_done (entry_status e) = false).
Notation waits kr := (row_phase kr.2 = PhaseQueued).

(** ** The rows a restart reads *)

Definition open_rows (rows : gmap string QueueRow) : list (string * QueueRow) :=
  filter (λ kr, row_phase kr.2 ≠ PhaseTerminal) (map_to_list rows).

Lemma elem_of_open_rows rows id row :
  (id, row) ∈ open_rows rows ↔ rows !! id = Some row ∧ row_phase row ≠ PhaseTerminal.
Proof. unfold open_rows. rewrite list_elem_of_filter, elem_of_map_to_list. tauto. Qed.

Lemma open_rows_keys rows : NoDup (open_rows rows).*1.
Proof.
  unfold open_rows. eapply sublist_NoDup; [apply (NoDup_fst_map_to_list rows)|].
  apply fmap_sublist, sublist_filter.
Qed.

Lemma open_row_entry q a es rows id row :
  core q a es rows → rows !! id = Some row → row_phase row ≠ PhaseTerminal →
  ∃ e, es !! id = Some e ∧ undone e ∧ row_holds id e row ∧
    (row_phase row = PhaseQueued ∧ id ∈ q ∧ a ≠ Some id ∨ row_phase row ≠ PhaseQueued ∧ id ∉ q ∧ a = Some id).
Proof.
  intros Hc Hr Hp. destruct (core_rows _ _ _ _ Hc _ _ Hr Hp) as [e He].
  destruct (core_entries _ _ _ _ Hc _ _ He) as (r & Hr' & Hh & Hs & _). assert (r = row) as -> by congruence.
  exists e. unfold seated in Hs. destruct (row_phase row); naive_solver.
Qed.

Lemma located_row q a es rows id :
  core q a es rows → id ∈ q ∨ a = Some id → ∃ row, rows !! id = Some row ∧ row_phase row ≠ PhaseTerminal.
Proof.
  intros Hc [Hq|Ha].
  - destruct (core_queued _ _ _ _ _ Hc Hq) as (e & row & _ & _ & _ & Hr & _ & Hp & _). exists row. by rewrite Hp.
  - destruct (core_active _ _ _ _ _ Hc Ha) as (e & row & _ & _ & _ & Hr & _ & Hp). exists row.
    split; [done|]. by destruct Hp as [->| ->].
Qed.

Lemma open_rows_perm q a es rows : core q a es rows → (open_rows rows).*1 ≡ₚ option_list a ++ q.
Proof.
  intros Hc. apply NoDup_Permutation; [apply open_rows_keys| |].
  - apply list.NoDup_app. split_and!; [destruct a; [apply NoDup_singleton|apply NoDup_nil_2]| |apply Hc].
    intros id Hin Hq. destruct a as [x|]; [|by apply elem_of_nil in Hin]. cbn in Hin. apply list_elem_of_singleton in Hin as ->.
    by destruct (core_active _ _ _ _ x Hc eq_refl) as (_ & _ & _ & _ & Hn & _).
  - intros id. rewrite elem_of_app. assert (id ∈ option_list a ↔ a = Some id) as ->.
    { destruct a; cbn; [rewrite list_elem_of_singleton; naive_solver|rewrite elem_of_nil; naive_solver]. }
    split.
    + intros ([i row] & -> & [Hr Hp]%elem_of_open_rows)%list_elem_of_fmap.
      destruct (open_row_entry _ _ _ _ _ _ Hc Hr Hp) as (e & _ & _ & _ & [?|?]); cbn; tauto.
    + intros Hin. destruct (located_row _ _ _ _ id Hc) as (row & Hr & Hp); [tauto|].
      apply list_elem_of_fmap. exists (id, row). by rewrite elem_of_open_rows.
Qed.

Lemma pending_all q a es rows : core q a es rows →
  pending_rows rows = sort_by row_cmp (open_rows rows) ∧ (length (pending_rows rows) ≤ 128)%nat.
Proof.
  intros Hc. assert (length (sort_by row_cmp (open_rows rows)) ≤ 128)%nat as Hlen.
  { rewrite sort_by_perm, <-(length_fmap fst), (open_rows_perm _ _ _ _ Hc), length_app.
    pose proof (core_room _ _ _ _ Hc). unfold MAX_QUEUED in *. destruct a; cbn in *; lia. }
  assert (pending_rows rows = sort_by row_cmp (open_rows rows)) as -> by (unfold pending_rows; apply take_ge; lia).
  done.
Qed.

(** ** Restoring *)

(** What a row is restored as. *)
Inductive restored_as (env : OpenEnv) (row : QueueRow) (e : Entry) : Prop :=
  | Restored_as request item s pin :
    request_from_str (row_request row) = Some request → item_from_str (row_target row) = Some item →
    status_from_str (row_status row) = Some s →
    (∀ p, pin = Some p → pin_library p = row_library row) →
    e = (if bool_decide (row_phase row = PhaseQueued) then restored_entry request item s pin None
         else restored_entry request item (interrupted_status s) pin
           (Some (install_artifacts request (row_library row)))) →
    restored_as env row e.


Definition restored_line (env : OpenEnv) (s : QueueState) (kr : string * QueueRow) (s' : QueueState) : Prop :=
  (∃ e, restored_as env kr.2 e ∧ entries s' = <[kr.1 := e]> (entries s)) ∧
  queued s' = queued s ++ (if bool_decide (waits kr) then [kr.1] else []) ∧
  active s' = (if bool_decide (waits kr) then active s else Some kr.1).

Lemma restore_row_ok env s kr s' : restore_row env s kr = Ok s' → restored_line env s kr s'.
Proof.
  destruct kr as [id row]. unfold restore_row. intros Hr. unfold restored_line. cbn [fst snd].
  destruct (request_from_str (row_request row)) as [request|] eqn:E1; [|done]. cbn in Hr.
  destruct (item_from_str (row_target row)) as [item|] eqn:E2; [|done]. cbn in Hr.
  destruct (status_from_str (row_status row)) as [st|] eqn:E3; [|done]. cbn in Hr.
  set (pin := pin ← open_admits env; _) in Hr.
  assert (∀ p, pin = Some p → pin_library p = row_library row) as Hpin.
  { intros p. unfold pin. destruct (open_admits env) as [p'|]; [|done]. cbn.
    destruct (str_eqb _ _) eqn:Ee; [|done]. apply str_eqb_spec in Ee. by intros [= <-]. }
  clearbody pin. case_bool_decide as Ep; cbn in Hr.
  - injection Hr as <-. split_and!; try done. eexists. split; [|done].
    eapply Restored_as; try done. by rewrite bool_decide_true.
  - destruct (open_grants env id); [|done]. injection Hr as <-. split_and!; cbn; [|by rewrite app_nil_r|done].
    eexists. split; [|done]. eapply Restored_as; try done. by rewrite bool_decide_false.
Qed.


Lemma restore_rows_ok env l s s' :
  try_fold (restore_row env) s l = Ok s' → NoDup l.*1 →
  queued s' = queued s ++ (filter (λ kr, waits kr) l).*1 ∧
  (active s' = active s ∧ Forall (λ kr, waits kr) l ∨ ∃ kr, kr ∈ l ∧ ¬ waits kr ∧ active s' = Some kr.1) ∧
  (∀ id, id ∉ l.*1 → entries s' !! id = entries s !! id) ∧
  (∀ kr, kr ∈ l → ∃ e, entries s' !! kr.1 = Some e ∧ restored_as env kr.2 e).
Proof.
  revert s. induction l as [|kr l IH]; intros s.
  { intros [= <-] _. split_and!; [by rewrite app_nil_r|by left|done|]. intros kr. by rewrite elem_of_nil. }
  cbn [try_fold]. intros (s1 & Hr & Hf)%bind_ok. rewrite fmap_cons. intros [Hnin Hnd]%list.NoDup_cons.
  apply restore_row_ok in Hr as ((e & Has & Hes) & Hq & Ha). destruct (IH _ Hf Hnd) as (IHq & IHa & IHo & IHe).
  split_and!.
  - rewrite IHq, Hq, <-app_assoc, filter_cons. by case_bool_decide; destruct (decide (waits kr)).
  - destruct IHa as [[Ha' Hall]|(kr' & Hin & Hw & Ha')].
    + case_bool_decide as Ew; [left; split; [congruence|by constructor]|].
      right. exists kr. split_and!; [by left|done|congruence].
    + right. exists kr'. split_and!; [by right|done..].
  - intros id. rewrite elem_of_cons. intros Hn. rewrite IHo by tauto. rewrite Hes, lookup_insert_ne; [done|naive_solver].
  - intros kr'. rewrite elem_of_cons. intros [->|Hin]; [|by apply IHe].
    exists e. split; [|done]. rewrite IHo by done. by rewrite Hes, lookup_insert_eq.
Qed.


(** What [new] leaves of a consistent queue. *)
Record restored (env : OpenEnv) (q : list string) (a : option string) (es : gmap string Entry)
    (rows : gmap string QueueRow) (s : QueueState) : Prop := {
  rs_queued : queued s = (filter (λ kr, waits kr) (sort_by row_cmp (open_rows rows))).*1;
  rs_perm : queued s ≡ₚ q;
  rs_active : active s = a;
  rs_entries : ∀ id e', entries s !! id = Some e' → ∃ e row, es !! id = Some e ∧ undone e ∧
    rows !! id = Some row ∧ row_phase row ≠ PhaseTerminal ∧ restored_as env row e';
  rs_located : ∀ id, id ∈ q ∨ a = Some id → is_Some (entries s !! id);
}.

Lemma waiting_perm q a es rows :
  core q a es rows → (filter (λ kr, waits kr) (open_rows rows)).*1 ≡ₚ q.
Proof.
  intros Hc. apply NoDup_Permutation.
  - eapply sublist_NoDup; [apply (open_rows_keys rows)|]. apply fmap_sublist, sublist_filter.
  - apply Hc.
  - intros id. split.
    + intros ([i row] & -> & [Hw [Hr Hp]%elem_of_open_rows]%list_elem_of_filter)%list_elem_of_fmap.
      destruct (open_row_entry _ _ _ _ _ _ Hc Hr Hp) as (e & _ & _ & _ & [?|?]); cbn in *; tauto.
    + intros Hq. destruct (core_queued _ _ _ _ _ Hc Hq) as (e & row & _ & _ & _ & Hr & _ & Hp & _).
      apply list_elem_of_fmap. exists (id, row). split; [done|]. apply list_elem_of_filter.
      split; [done|]. apply elem_of_open_rows. by rewrite Hp.
Qed.

Lemma filter_perm_sorted (P : string * QueueRow → Prop) `{∀ x, Decision (P x)} l :
  filter P (sort_by row_cmp l) ≡ₚ filter P l.
Proof. by rewrite sort_by_perm. Qed.

Lemma restore_restored env q a es rows s :
  core q a es rows → try_fold (restore_row env) (initial_state env) (sort_by row_cmp (open_rows rows)) = Ok s →
  restored env q a es rows s.
Proof.
  intros Hc Hf. assert (NoDup (sort_by row_cmp (open_rows rows)).*1) as Hnd by (rewrite sort_by_perm; apply open_rows_keys).
  destruct (restore_rows_ok _ _ _ _ Hf Hnd) as (Hq & Ha & Ho & He). cbn in Hq, Ha, Ho.
  assert (∀ id, id ∈ q ∨ a = Some id → ∃ row, (id, row) ∈ sort_by row_cmp (open_rows rows)) as Hloc.
  { intros id Hin. destruct (located_row _ _ _ _ id Hc Hin) as (row & Hr & Hp). exists row.
    by rewrite sort_by_perm, elem_of_open_rows. }
  split; [done| | | |].
  - rewrite Hq, filter_perm_sorted. by eapply waiting_perm.
  - destruct Ha as [[-> Hall]|([i row] & Hin & Hw & ->)].
    + destruct a as [id|]; [|done]. destruct (Hloc id) as [row Hin]; [by right|].
      rewrite list.Forall_forall in Hall. specialize (Hall _ Hin). cbn in Hall.
      rewrite sort_by_perm in Hin. apply elem_of_open_rows in Hin as [Hr Hp].
      destruct (open_row_entry _ _ _ _ _ _ Hc Hr Hp) as (e & _ & _ & _ & [?|?]); naive_solver.
    + rewrite sort_by_perm in Hin. apply elem_of_open_rows in Hin as [Hr Hp].
      destruct (open_row_entry _ _ _ _ _ _ Hc Hr Hp) as (e & _ & _ & _ & [?|?]); cbn in *; naive_solver.
  - intros id e' He'. destruct (decide (id ∈ (sort_by row_cmp (open_rows rows)).*1)) as [Hin|Hn].
    2: { rewrite Ho in He' by done. by rewrite lookup_empty in He'. }
    apply list_elem_of_fmap in Hin as ([i row] & -> & Hin). destruct (He _ Hin) as (x & Hx & Has). cbn in *.
    assert (x = e') as -> by congruence. rewrite sort_by_perm in Hin. apply elem_of_open_rows in Hin as [Hr Hp].
    destruct (open_row_entry _ _ _ _ _ _ Hc Hr Hp) as (e & Hes & Hu & _). exists e, row. by split_and!.
  - intros id Hin. destruct (Hloc id Hin) as [row Hrow]. destruct (He _ Hrow) as (e & ? & _). by exists e.
Qed.

(** A restored entry stands for the entry of its row. *)
Lemma restored_entry_of env row e id e' :
  row_holds id e row → row_phase row ≠ PhaseTerminal → restored_as env row e' →
  entry_request e' = entry_request e ∧ entry_item e' = entry_item e ∧ undone e' ∧
  recovery_running e' = false ∧
  recovery_lease e' = (if bool_decide (row_phase row = PhaseQueued) then None
                       else Some (install_artifacts (entry_request e) (row_library row))) ∧
  (row_phase row ≠ PhaseQueued → status_view (entry_status e') = settlement_progress) ∧
  row_holds id e' row.
Proof.
  intros [Hst Hreq Hitem (s0 & Hs0 & Hof & Hundone) Hpin Hlease] Hp [request item s pin Er Ei Es Hlib ->].
  assert (request = entry_request e) as -> by congruence. assert (item = entry_item e) as -> by congruence.
  assert (s = s0) as -> by congruence. specialize (Hundone Hp).
  case_bool_decide; split_and!; try done.
  - split; try done. exists s0. by split_and!.
  - split; cbn; try done. + exists s0. by split_and!. + by intros lease [= <-].
Qed.

Lemma restored_core env q a es rows s :
  core q a es rows → restored env q a es rows s →
  core (queued s) (active s) (entries s) rows.
Proof.
  intros Hc [Hq Hperm Ha Hes Hloc]. rewrite Ha.
  assert (∀ id e', entries s !! id = Some e' → ∃ e row, es !! id = Some e ∧ undone e ∧ undone e' ∧
    entry_request e' = entry_request e ∧ rows !! id = Some row ∧ row_holds id e' row ∧
    (row_phase row = PhaseQueued ∧ id ∈ q ∧ a ≠ Some id ∧ recovery_lease e' = None ∨
     (row_phase row = PhaseRunning ∨ row_phase row = PhaseSettlement) ∧ id ∉ q ∧ a = Some id)) as Hback.
  { intros id e' He'. destruct (Hes _ _ He') as (e & row & He & Hu & Hr & Hp & Has).
    destruct (open_row_entry _ _ _ _ _ _ Hc Hr Hp) as (x & Hx & _ & Hh & Hcase). assert (x = e) as -> by congruence.
    destruct (restored_entry_of _ _ _ _ _ Hh Hp Has) as (Hreq & _ & Hu' & _ & Hl & _ & Hh').
    exists e, row. split_and!; try done. destruct Hcase as [(E & ? & ?)|(E & ? & ?)].
    - left. split_and!; try done. by rewrite Hl, bool_decide_true.
    - right. split_and!; try done. by destruct (row_phase row); [|left|right|]. }
  split.
  - rewrite Hperm. apply Hc.
  - intros id e' He'. destruct (Hback _ _ He') as (e & row & He & Hu & Hu' & Hreq & Hr & Hh & Hcase).
    exists row. split_and!; [done|done|]. split.
    + apply (seated_ext _ q a); [by rewrite Hperm|done|]. unfold seated. destruct Hcase as [(-> & ? & ? & ?)|([->| ->] & ? & ?)]; by split_and!.
    + destruct Hcase as [(-> & _)|([->| ->] & _)]; done.
  - intros id row Hr Hp. apply Hloc. destruct (open_row_entry _ _ _ _ _ _ Hc Hr Hp) as (e & _ & _ & _ & [?|?]); tauto.
  - intros id. rewrite Hperm. apply Hloc.
  - intros i j x y Hx Hy _ _ Hxy. destruct (Hback _ _ Hx) as (x0 & _ & Hx0 & Ux & _ & Ex & _).
    destruct (Hback _ _ Hy) as (y0 & _ & Hy0 & Uy & _ & Ey & _).
    apply (core_unique _ _ _ _ Hc i j x0 y0); try done. congruence.
  - rewrite Hperm. apply Hc.
  - apply Hc.
Qed.

Lemma new_restored env w w' st :
  Inv w → new env (reopen (store w)) = (Ok w', st) →
  restored env (queued (state w)) (active (state w)) (entries (state w)) (rows_of w) (state w') ∧
  database (store w') = database (store w) ∧ workers w' = ∅ ∧ observers_closed w' = false ∧ closed (state w') = false.
Proof.
  intros [Hc _ _]. unfold new. destruct (read_callback _ _ _ _) as [r st1] eqn:Er. intros [= Hn ->].
  apply read_keeps in Er as (Hd & _ & Hr). cbn [reopen database] in Hd, Hr.
  destruct (pending_all _ _ _ _ Hc) as [Hall Hlen].
  destruct r as [pending|]; [|done]. specialize (Hr _ eq_refl). destruct (tx_fault _ _); [done|].
  injection Hr as <-. fold (rows_of w) in Hn. cbn in Hn. rewrite Hall in Hn.
  destruct (err_if _ _) as [[]|]; [|done]. cbn in Hn.
  destruct (try_fold _ _ _) as [s|] eqn:Ef; [|done]. injection Hn as <-.
  split_and!; try done; [by apply restore_restored|]. cbn.
  revert Ef. generalize (sort_by row_cmp (open_rows (rows_of w))) as l. intros l.
  assert (closed (initial_state env) = false) as Hcl by done. revert Hcl. generalize (initial_state env) as t.
  induction l as [|[id row] l IH]; intros t Ht; [by intros [= <-]|]. cbn [try_fold].
  intros (t1 & Hr & Hf)%bind_ok. apply (IH t1); [|done]. unfold restore_row in Hr.
  repeat (apply bind_ok in Hr as (? & _ & Hr)). case_bool_decide; [by injection Hr as <-|].
  by apply bind_ok in Hr as (? & _ & [= <-]).
Qed.

Lemma restored_inv env w w' :
  Inv w → restored env (queued (state w)) (active (state w)) (entries (state w)) (rows_of w) (state w') →
  database (store w') = database (store w) → workers w' = ∅ → Inv w'.
Proof.
  intros [Hc Hw Hf] Hres Hd Hws. split; unfold rows_of; rewrite ?Hd, ?Hws.
  - by eapply restored_core.
  - split; intros *; by rewrite lookup_empty.
  - intros id e' Ha He'. left. rewrite (rs_active _ _ _ _ _ _ Hres) in Ha.
    destruct (rs_entries _ _ _ _ _ _ Hres _ _ He') as (e & row & He & Hu & Hr & Hp & Has).
    destruct (open_row_entry _ _ _ _ _ _ Hc Hr Hp) as (x & Hx & _ & Hh & Hcase). assert (x = e) as -> by congruence.
    destruct (restored_entry_of _ _ _ _ _ Hh Hp Has) as (_ & _ & _ & _ & -> & _).
    destruct Hcase as [(_ & _ & ?)|(Hq & _)]; [done|]. by rewrite bool_decide_false.
Qed.

Lemma restart_inv env w : Inv w → Inv (restart env w).
Proof.
  intros Hinv. unfold restart. destruct (new env (reopen (store w))) as [[w'|e] st] eqn:En; [|done].
  destruct (new_restored _ _ _ _ Hinv En) as (Hres & Hd & Hws & _). by eapply restored_inv.
Qed.


(** ** The order of the queue *)

(** The place of a row among the queued ones. *)
Definition row_key (rows : gmap string QueueRow) (id : string) : option (Z * Z) :=
  (λ row, (accepted_at row, rowid row)) <$> rows !! id.










(** ** Operations that leave the line alone *)

Definition steady (w w' : World) : Prop :=
  (∀ id, row_key (rows_of w') id = row_key (rows_of w) id) ∧ queued (state w') = queued (state w).



Lemma steady_refl w : steady w w.
Proof. done. Qed.



















(** ** Operations that change the line *)


Lemma queued_key q a es rows id : core q a es rows → id ∈ q → ∃ row, rows !! id = Some row ∧
  row_phase row = PhaseQueued ∧ row_key rows id = Some (accepted_at row, rowid row).
Proof.
  intros Hc Hq. destruct (core_queued _ _ _ _ _ Hc Hq) as (e & row & _ & _ & _ & Hr & _ & Hp & _).
  exists row. unfold row_key. by rewrite Hr.
Qed.





















(** ** Histories *)

(** What is asked of an operation: SQLite settles its transactions, a new
    operation has an identity in canonical form, and the recovery of a content
    install marks it while it still holds the lease it was read under.  The
    code does not look again, and another recovery may have ended the install
    in between ([ContentRaceDemo.ended_install_recovered_again]). *)
Definition end_ok (env : EndEnv) : Prop := settles (tx_call (complete_tx env)) ∧ settles (tx_call (retain_tx env)).

Definition op_ok (op : QueueOp) (w : World) : Prop :=
  match op with
  | OpEnqueue env _ _ _ _ _ => admit_ok env
  | OpEnqueueSetup env env' _ _ _ _ _ _ => admit_ok env ∧ admit_ok env'
  | OpStart env => settles (tx_call (running_tx env)) ∧ settles (tx_call (waiting_tx env))
  | OpRunBegin env _ _ | OpRunEnd env _ _ | OpRecoveryEnd env _ _ | OpContentEnd env _ _ _ _ => end_ok env
  | OpRemove tx _ _ _ | OpRecoveryJoin tx _ => settles (tx_call tx)
  | OpRecover env _ => settles (tx_call (recover_tx env))
  | OpRecoverContent env id c => settles (tx_call (recover_tx env)) ∧ still_held id c w
  | _ => True
  end.



Lemma at_stage_true k stage : at_stage k stage = true → worker_stage k = stage.
Proof. apply bool_decide_eq_true. Qed.

Lemma queue_op_inv op w : op_ok op w → Inv w → Inv (run_op op w).
Proof.
  intros Hop Hinv. destruct op; cbn [run_op]; cbn in Hop;
    try match goal with
    | |- context [workers w !! ?n] =>
        destruct (workers w !! n) as [k|] eqn:Hk; [|done];
        try match goal with |- context [at_stage k ?s] => destruct (at_stage k s) eqn:Hstage;
          [apply at_stage_true in Hstage|rewrite ?andb_false_r; done] end;
        rewrite ?andb_true_r;
        try match goal with |- context [runs_install k] => destruct (runs_install k) eqn:Hkind; [|done] end;
        try match goal with |- context [runs_recovery k] => destruct (runs_recovery k) eqn:Hkind; [|done] end
    end.
  - unfold enqueue_resolved. pose proof (admit_locked_inv env request item pin work front w Hop Hinv) as Ha.
    destruct (admit_locked _ _ _ _ _ _ _) as [r w1]. by apply (inv_same w1).
  - destruct Hop as [Hop Hop'].
    pose proof (admit_setup_inv env env' request prerequisite work front item prerequisite_item w Hop Hop' Hinv) as Ha.
    destruct (admit_setup _ _ _ _ _ _ _ _ w) as [r w1]. by apply (inv_same w1).
  - by apply start_next_inv; [apply Hop..|].
  - apply run_begin_inv; try done; try apply Hop. by rewrite Hstage.
  - apply run_end_inv; try done; try apply Hop. by rewrite Hstage.
  - by apply join_worker_inv.
  - by apply progress_inv.
  - by apply remove_inv.
  - by apply cancel_inv.
  - by apply (inv_same _ _ Hinv).
  - by apply (inv_same _ _ Hinv).
  - by apply shutdown_queued_inv.
  - by apply join_observers_inv.
  - by apply preserve_shutdown_inv.
  - destruct (entries (state w) !! id) as [e|]; [|done]. destruct (is_content _); [done|]. by apply recover_begin_inv.
  - apply recover_content_start_inv; [apply Hop|done|apply Hop].
  - apply recovery_take_inv; try done. by rewrite Hstage.
  - apply recovery_end_inv; try done; try apply Hop. by rewrite Hstage.
  - apply content_recovery_end_inv; try done; try apply Hop. by rewrite Hstage.
  - by apply join_recovery_inv.
  - by apply (inv_same _ _ Hinv).
  - by apply restart_inv.
Qed.


(** The histories of a queue that starts with no intents; the last operation
    is the first of the list. *)
Inductive history : list QueueOp → World → Prop :=
  | history_new env versions w st :
    new env {| database := {| queue_rows := ∅; version_rows := versions |};
               mutation_closed := false; poisoned := false |} = (Ok w, st) → history [] w
  | history_step ops w op :
    history ops w → op_ok op w → history (op :: ops) (run_op op w).


Lemma new_empty env versions w st :
  new env {| database := {| queue_rows := ∅; version_rows := versions |};
             mutation_closed := false; poisoned := false |} = (Ok w, st) →
  rows_of w = ∅ ∧ state w = initial_state env ∧ workers w = ∅.
Proof.
  unfold new. destruct (read_callback _ _ _ _) as [r st1] eqn:Er. intros [= Hn ->].
  apply read_keeps in Er as (Hd & _ & Hr). destruct r as [pending|]; [|done]. specialize (Hr _ eq_refl).
  cbn in Hr. destruct (tx_fault _ _); [done|]. injection Hr as <-.
  assert (pending_rows ∅ = []) as Hnone by (unfold pending_rows; by rewrite map_to_list_empty).
  rewrite Hnone in Hn. cbn in Hn. injection Hn as <-.
  unfold rows_of. cbn. by rewrite Hd.
Qed.

Lemma history_inv ops w : history ops w → Inv w.
Proof.
  induction 1 as [env versions w st Hn|ops w op _ IH Hop]; [|by apply queue_op_inv].
  apply new_empty in Hn as (Hr & Hst & Hws). split; rewrite ?Hr, ?Hst, ?Hws.
  - split; cbn; [constructor|intros *; by rewrite lookup_empty..| |intros *; by rewrite lookup_empty|apply Nat.le_0_l|
      intros *; by rewrite lookup_empty]. intros id [Hin|?]; [by apply elem_of_nil in Hin|done].
  - split; intros *; by rewrite lookup_empty.
  - done.
Qed.


(** ** The theorems *)




Lemma existing_entry_unique w id e :
  Inv w → entries (state w) !! id = Some e → undone e → existing_entry (entry_request e) (state w) = Some (id, e).
Proof.
  intros [Hc _ _] He Hu. destruct (existing_entry _ _) as [[id' e']|] eqn:Ee.
  - apply existing_entry_some in Ee as (He' & Hu' & Hr).
    assert (id' = id) as -> by by apply (core_unique _ _ _ _ Hc id' id e' e). congruence.
  - by destruct (existing_entry_none _ _ _ _ Ee He Hu).
Qed.

(** What an admission leaves: nothing, or the install that was asked for. *)
Definition admitted (request : InstallQueueRequest) (item : InstallQueueInstallItem) (pin : GenerationPin)
    (front : bool) (id : string) (w w' : World) : Prop :=
  closed (state w) = false ∧ closed (state w') = false ∧ active (state w') = active (state w) ∧
  (∃ e, entries (state w') !! id = Some e ∧ undone e ∧ entry_request e = request ∧ entry_item e = item ∧
    entry_pin e = Some pin) ∧
  (queued (state w') = queued (state w) ∧ (id ∈ queued (state w) → front = false) ∨
   queued (state w') = queued (state w) ++ [id] ∧ front = false ∨
   queued (state w') = id :: filter (λ other, other ≠ id) (queued (state w)) ∧ front = true).

Definition unchanged (w w' : World) : Prop :=
  rows_of w' = rows_of w ∧ queued (state w') = queued (state w) ∧ active (state w') = active (state w) ∧
  entries (state w') = entries (state w).

Lemma rejoin_answer env item pin work front id e w r w' :
  settles (tx_call (admit_tx env)) → Inv w → closed (state w) = false → entries (state w) !! id = Some e → undone e →
  rejoin env item pin work front id e w = (r, w') →
  match r with
  | Err _ => unchanged w w'
  | Ok id' => id' = id ∧ admitted (entry_request e) item pin front id w w'
  end.
Proof.
  intros Hs Hinv Hcl He Hu. unfold rejoin. unfold mbind, eff_bind, lift.
  destruct (err_if _ _) as [[]|error] eqn:Eg; [|by intros [= <- <-]].
  apply err_if_ok, orb_false_iff in Eg as [Ei%negb_false_iff%bool_decide_eq_true Ep%negb_false_iff].
  destruct (entry_pin e) as [p|] eqn:Hpin; [|done]. apply bool_decide_eq_true in Ep as ->. cbn [get_world].
  assert (∀ w1 : World, entries (state w1) = entries (state w) → active (state w1) = active (state w) →
    closed (state w1) = false →
    (queued (state w1) = queued (state w) ∧ (id ∈ queued (state w) → front = false) ∨
     queued (state w1) = id :: filter (λ other, other ≠ id) (queued (state w)) ∧ front = true) →
    ∃ w2, (attach_setup id e work ;; mret id) w1 = (Ok id, w2) ∧ admitted (entry_request e) item pin front id w w2) as Htail.
  { intros w1 He1 Ha1 Hcl1 Hq1. destruct work as [work|].
    - eexists. split; [done|]. unfold admitted. cbn. split_and!; try done; [|tauto].
      exists (set_setup e (Some work)). rewrite lookup_insert_eq. by split_and!.
    - exists w1. split; [done|]. unfold admitted. split_and!; try done; [|tauto]. exists e. rewrite He1. by split_and!. }
  destruct (front && _) eqn:Efront.
  - apply andb_true_iff in Efront as [-> Hin%bool_decide_eq_true].
    destruct (move_front env id w) as [r1 w1] eqn:Em. unfold move_front in Em. unfold mbind, eff_bind in Em.
    destruct (stored _ _ w) as [r2 w2] eqn:Est. apply stored_cases in Est as (st & -> & Hcase); [|done].
    destruct r2 as [[]|error].
    + injection Em as <- <-.
      edestruct Htail as (w3 & Hw3 & Hadm); [..|intros Heq].
      5: { unfold mbind, eff_bind in Hw3. rewrite Hw3 in Heq. injection Heq as <- <-. by split. }
      all: try done. by right.
    + injection Em as <- <-. intros [= <- <-]. unfold unchanged, rows_of. cbn. by rewrite Hcase.
  - assert (id ∈ queued (state w) → front = false) as Hf.
    { intros Hin. destruct front; [|done]. cbn in Efront. by apply bool_decide_eq_false in Efront. }
    cbn [mret eff_ret]. edestruct (Htail w) as (w3 & Hw3 & Hadm); try done; [by left|].
    unfold mbind, eff_bind in Hw3. intros Heq. unfold mret, eff_ret in Heq, Hw3. rewrite Hw3 in Heq.
    injection Heq as <- <-. by split.
Qed.

Lemma filter_other (id : string) (l : list string) : id ∉ l → filter (λ other, other ≠ id) l = l.
Proof.
  induction l as [|x l IH]; [done|]. rewrite not_elem_of_cons. intros [Hne Hn].
  rewrite filter_cons_True by congruence. by rewrite IH.
Qed.

Lemma admit_answer env request item pin work front w r w' :
  admit_ok env → Inv w → admit_locked env request item pin work front w = (r, w') →
  match r with
  | Err _ => unchanged w w'
  | Ok id => admitted request item pin front id w w'
  end.
Proof.
  intros [Hs Hop] Hinv. unfold admit_locked. rewrite lift_bind_run. destruct (admissible_content _ _ _); [|by intros [= <- <-]].
  rewrite (eff_bind_run _ _ (Ok w) w w) by done. rewrite lift_bind_run.
  destruct (err_if (closed (state w) || _) _) as [[]|] eqn:Ec; [|by intros [= <- <-]].
  apply err_if_ok, orb_false_iff in Ec as [Hcl _].
  destruct (existing_entry request (state w)) as [[id e]|] eqn:Ee.
  { apply existing_entry_some in Ee as (He & Hu & <-). intros Hr. apply rejoin_answer in Hr; try done.
    destruct r; [by destruct Hr as [-> ?]|done]. }
  rewrite lift_bind_run. destruct (err_if _ _) as [[]|]; [|by intros [= <- <-]].
  unfold admit_new. set (e := new_entry env request item pin work).
  rewrite lift_bind_run. destruct (request_to_string request) as [request_json|]; [|by intros [= <- <-]]. cbn [ok_or].
  rewrite lift_bind_run. destruct (item_to_string item) as [item_json|]; [|by intros [= <- <-]]. cbn [ok_or].
  rewrite lift_bind_run. destruct (status_to_string (entry_status e)) as [status_json|]; [|by intros [= <- <-]]. cbn [ok_or].
  match goal with |- context [stored ?tx ?m ≫= _] => destruct (stored tx m w) as [r1 w1] eqn:Est end. rewrite (eff_bind_run _ _ _ _ _ Est).
  apply stored_cases in Est as (st & -> & Hcase); [|done]. destruct r1 as [[]|error].
  2: { intros [= <- <-]. unfold unchanged, rows_of. cbn. by rewrite Hcase. }
  destruct Hcase as (tb & Htb & Hd). apply insert_intent_ok in Htb as [Hfresh _]. intros [= <- <-].
  assert (fresh_id env ∉ queued (state w)) as Hnin.
  { intros Hin. destruct (queued_key _ _ _ _ _ (inv_core _ Hinv) Hin) as (row & Hr & _). unfold rows_of in Hr. congruence. }
  unfold admitted. cbn. split_and!; try done.
  - exists e. by rewrite lookup_insert_eq.
  - right. destruct front; [right|by left]. by rewrite filter_other.
Qed.

(** C13: After any history - content recoveries mark installs that still hold the
    lease they read - a request is admitted whole or not at all.  A refusal
    - an unavailable library, a full or closed queue, a failing transaction -
    changes neither the database nor the queue.  An admission answers the one
    unfinished install of the request, with its target and library, queued or
    active; it is ahead of all others when it was put in front.  To ask again
    answers the same install and changes nothing. *)
Theorem admission_all_or_nothing ops w env request item pin work front r w' :
  history ops w → admit_ok env → enqueue_resolved env request item pin work front w = (r, w') →
  match r with
  | Err _ => unchanged w w'
  | Ok response => ∃ started e, response_started response = Some started ∧
      let id := start_install_id started in
      entries (state w') !! id = Some e ∧ undone e ∧ entry_request e = request ∧ entry_item e = item ∧
      entry_pin e = Some pin ∧ active (state w') = active (state w) ∧
      (active (state w') = Some id ∨ id ∈ queued (state w')) ∧
      (front = true → active (state w') ≠ Some id → head (queued (state w')) = Some id) ∧
      (∀ env', admissible_content env' request pin = Ok tt → admit_closing env' = false →
        ∃ response' w2, enqueue_resolved env' request item pin None false w' = (Ok response', w2) ∧
          (start_install_id <$> response_started response') = Some id ∧ unchanged w' w2)
  end.
Proof.
  intros Hh Hok. apply history_inv in Hh as Hinv. unfold enqueue_resolved.
  pose proof (admit_locked_inv env request item pin work front w Hok Hinv) as Hinv1.
  destruct (admit_locked _ _ _ _ _ _ w) as [r1 w1] eqn:Ea. intros [= <- <-].
  pose proof (admit_answer _ _ _ _ _ _ _ _ _ Hok Hinv Ea) as Hans. cbn [snd] in Hinv1.
  destruct r1 as [id|error]; [|exact Hans]. destruct Hans as (Hcl & Hcl1 & Ha1 & (e & He & Hu & Hreq & Hitem & Hpin) & Hq).
  cbn [answered mbind result_bind]. cbn. rewrite He. cbn.
  assert (status_install_id (entry_status e) = id) as Hid by by apply (inv_status w1 id e Hinv1).
  eexists _, e. split; [done|]. cbn. rewrite Hid. split_and!; try done.
  - destruct (core_undone _ _ _ _ _ _ (inv_core _ Hinv1) He Hu); tauto.
  - intros -> Hna. destruct Hq as [[Hq Hin]|[[_ ?]|[-> _]]]; [|done|done]. rewrite Hq in *.
    destruct (core_undone _ _ _ _ _ _ (inv_core _ Hinv1) He Hu) as [Hin'|?]; [|done].
    rewrite Hq in Hin'. by specialize (Hin Hin').
  - intros env' Hadm Hcl'. set (w1' := publish w1 (state w1)).
    assert (admit_locked env' request item pin None false w1' = (Ok id, w1')) as Hagain.
    { unfold admit_locked. rewrite lift_bind_run, Hadm. rewrite (eff_bind_run _ _ (Ok w1') w1' w1') by done.
      rewrite lift_bind_run, Hcl'. replace (closed (state w1')) with false by (symmetry; exact Hcl1). cbn [orb err_if].
      assert (existing_entry request (state w1') = Some (id, e)) as ->.
      { rewrite <-Hreq. apply existing_entry_unique; [by apply (inv_same w1)|exact He|done]. }
      unfold rejoin. rewrite lift_bind_run, Hitem, Hpin. cbn [is_some_and]. rewrite !bool_decide_true by done. done. }
    rewrite Hagain. do 2 eexists. split; [done|]. cbn. rewrite He. cbn. by rewrite Hid.
Qed.

(** The end of a recovery that was not accepted: its entry waits as before. *)
Lemma recovery_refused tx id e w :
  settles (tx_call tx) → entries (state w) !! id = Some e → undone e →
  let w' := recovery_finished tx id false w in
  workers w' = workers w ∧ active (state w') = active (state w) ∧ closed (state w') = closed (state w) ∧
  entries (state w') = <[id := set_status (set_running e false) (settlement_status (entry_status e))]> (entries (state w)).
Proof.
  intros Hs He Hu. unfold recovery_finished. rewrite He.
  assert (status_done (entry_status (set_running e false)) = false) as -> by exact Hu. cbn [negb andb].
  set (e' := set_status _ _). destruct (save_status tx (entry_status e') PhaseSettlement w) as [saved w1] eqn:Esave.
  unfold save_status in Esave. destruct (persist_status _ _ _ _) as [r st]. injection Esave as <- <-. cbn.
  by destruct (setup_changed _ || false).
Qed.

(** C14: After any history - content recoveries mark installs that still hold the
    lease they read - while the queue offers to retry the active install, a retry
    of its request is accepted when the application is not closing, the library of
    the install opens and the task owner takes the work: the recovery of this
    install is one more task, under the lease that the entry kept, and the
    database is as it was.  When it is refused, as closed, as unavailable or as
    busy, no task is added, the install is still the active one, what it retained
    and its lease are kept, and the retry is offered again. *)
Theorem offered_retry_accepted ops w env others closing v id e :
  history ops w → settles (tx_call (recover_tx env)) →
  response_active (project (state w)) = Some v → active_retry_action v ≠ None →
  active_install_id v = Some id → entries (state w) !! id = Some e →
  retained_request (entry_request e) (state w) = Some id ∧
  let '(r, w') := retry_retained env others closing id (entry_request e) w in
  if negb closing && recover_opens env && negb (observers_closed w) && recover_spawns env then
    r = Ok tt ∧ rows_of w' = rows_of w ∧ entries (state w') = <[id := set_running e true]> (entries (state w)) ∧
    ∃ lease, recovery_lease e = Some lease ∧ workers w !! next_worker w = None ∧
      workers w' = <[next_worker w := {| worker_install := id; worker_kind := RunRecovery None;
                                        worker_lease := lease; worker_stage := Accepted |}]> (workers w)
  else
    r = Err (if closing then InstallClosed else if negb (recover_opens env) then LibraryUnavailable
             else if observers_closed w then InstallClosed else InstallBusy) ∧
    workers w' = workers w ∧
    ∃ v' e', response_active (project (state w')) = Some v' ∧ active_install_id v' = Some id ∧
      active_retry_action v' ≠ None ∧ entries (state w') !! id = Some e' ∧ entry_request e' = entry_request e ∧
      recovery_lease e' = recovery_lease e ∧ retained e' = retained e.
Proof.
  intros Hh Hs Hv Hretry Hid He. apply history_inv in Hh as Hinv. cbn in Hv.
  destruct (active (state w)) as [id'|] eqn:Ha; [|done]. cbn in Hv.
  destruct (entries (state w) !! id') as [e'|] eqn:He'; [|done]. injection Hv as <-. injection Hid as ->.
  assert (e' = e) as -> by congruence. cbn in Hretry.
  destruct (negb (closed (state w)) && retained_retry_eligible e) eqn:Eg; [|done].
  apply andb_true_iff in Eg as [Hcl%negb_true_iff Hel]. pose proof Hel as Hel'. unfold retained_retry_eligible in Hel'.
  repeat (apply andb_true_iff in Hel' as [Hel' ?]).
  destruct (is_content (entry_request e)) eqn:Econtent; [done|].
  destruct (status_done (entry_status e)) eqn:Ed; [done|].
  destruct (entry_pin e) as [pin|] eqn:Epin; [|done]. destruct (recovery_lease e) as [lease|] eqn:El; [|done].
  destruct (recovery_running e) eqn:Er; [done|].
  destruct (str_eqb (phase_id (status_view (entry_status e))) "settlement_required") eqn:Ephase; [|done].
  split.
  { unfold retained_request. rewrite Ha. cbn. rewrite He. cbn. by rewrite bool_decide_true, Econtent, Ephase. }
  unfold retry_retained. destruct closing.
  { rewrite orb_true_r. cbn [negb andb]. split_and!; [done..|]. eexists _, e. cbn. rewrite Ha. cbn. rewrite He. cbn.
    split_and!; try done. cbn. by rewrite Hcl, Hel. }
  rewrite Hcl, He, bool_decide_true, Econtent, Ha, bool_decide_true, Hel by done. cbn [orb negb].
  unfold recover_install. rewrite He, Econtent. unfold recover_begin. rewrite He, Ed, Ha, bool_decide_true, Ephase, Er, Epin, El by done.
  assert (str_eqb (phase_id (status_view (entry_status e))) "queued" = false) as ->.
  { apply str_eqb_spec in Ephase. by rewrite Ephase. }
  cbn [orb negb andb]. set (w1 := publish w (set_entry (state w) id (set_running e true))).
  change (observers_closed w1) with (observers_closed w).
  assert (∀ error : InstallError, let w' := recovery_finished (recover_tx env) id false w1 in
    Err error = (Err error : result InstallError unit) ∧ workers w' = workers w ∧
    ∃ v' e', response_active (project (state w')) = Some v' ∧ active_install_id v' = Some id ∧
      active_retry_action v' ≠ None ∧ entries (state w') !! id = Some e' ∧ entry_request e' = entry_request e ∧
      recovery_lease e' = Some lease ∧ retained e' = retained e) as Hrefused.
  { intros error. assert (entries (state w1) !! id = Some (set_running e true)) as He1 by (cbn; by rewrite lookup_insert_eq).
    destruct (recovery_refused (recover_tx env) id _ w1 Hs He1 Ed) as (Hws & Ha1 & Hc1 & Hes).
    set (w2 := recovery_finished _ _ _ _) in *. cbn zeta. split; [done|]. split; [by rewrite Hws|].
    cbn [project response_active]. rewrite Ha1. change (active (state w1)) with (active (state w)). rewrite Ha. cbn [mbind option_bind].
    rewrite Hes, lookup_insert_eq. cbn [mbind option_bind]. eexists _, _. split_and!; [done|done| |done|done|done|done].
    cbn [active_view active_retry_action]. rewrite Hc1. change (closed (state w1)) with (closed (state w)). rewrite Hcl.
    unfold retained_retry_eligible. cbn. by rewrite Econtent, Ed, Epin, El. }
  destruct (recover_opens env); [|apply Hrefused]. cbn [negb andb].
  destruct (observers_closed w); [apply Hrefused|]. cbn [negb andb].
  destruct (recover_spawns env); [|apply Hrefused]. cbn [negb andb].
  split_and!; [done..|].
  exists lease. split_and!; try done. destruct (workers w !! next_worker w) as [k|] eqn:Ek; [|done].
  pose proof (crew_next _ _ _ _ _ (inv_crew _ Hinv) _ _ Ek). lia.
Qed.
End restart.

(** ** A queue at concrete inputs

    Two installs: the second is put in front, starts, and its work ends
    unsettled.  The JSON is that of the values which occur. *)

Module InstallDemo.
#[local] Instance demo_uuid : UuidParser := λ id, if str_len id =? 36 then Some id else None.
#[local] Instance demo_norm : UnicodeNorm := plain_norm.
#[local] Instance demo_content : InstallContent := false.

#[local] Instance progress_eq_dec : EqDecision DownloadProgress.
Proof. solve_decision. Defined.
#[local] Instance step_eq_dec : EqDecision InstallProgressStep.
Proof. solve_decision. Defined.
#[local] Instance shown_eq_dec : EqDecision InstallProgress.
Proof. solve_decision. Defined.
#[local] Instance action_eq_dec : EqDecision InstallAction.
Proof. solve_decision. Defined.
#[local] Instance failure_eq_dec : EqDecision InstallFailure.
Proof. solve_decision. Defined.
#[local] Instance status_eq_dec : EqDecision InstallStatus.
Proof. solve_decision. Defined.

(** The text of a value of a list has as many letters as values come before. *)
Fixpoint letters (n : nat) : string := match n with O => "" | S n => String "x" (letters n) end.
Definition text_in {A} `{EqDecision A} (l : list A) (x : A) : option string := letters ∘ fst <$> list_find (λ y, y = x) l.
Definition value_in {A} (l : list A) (s : string) : option A := l !! String.length s.

Lemma value_of_text {A} `{EqDecision A} (l : list A) x s : text_in l x = Some s → value_in l s = Some x.
Proof.
  unfold text_in, value_in. destruct (list_find _ l) as [[i y]|] eqn:Ef; [|done]. intros [= <-].
  apply list_find_Some in Ef as (Hy & -> & _). cbn. rewrite <-Hy. f_equal. clear. induction i as [|i IH]; cbn; congruence.
Qed.

Definition operation_a : string := "853c80ef-3c37-49fd-aa49-938b674adae6".
Definition operation_b : string := "953c80ef-3c37-49fd-aa49-938b674adae6".
Definition request_a : InstallQueueRequest := Vanilla "1.21".
Definition request_b : InstallQueueRequest := Vanilla "1.20".
Definition item (version : string) : InstallQueueInstallItem :=
  {| item_version := version; item_loader := None; item_content := None |}.

Definition queued_a : InstallStatus := queued_status "a" operation_a.
Definition queued_b : InstallStatus := queued_status "b" operation_b.
Definition started_b : InstallStatus := set_view queued_b starting [enabled "cancel" "Cancel install"].
Definition unsettled_b : InstallStatus :=
  let event := private_event (first_event false) in
  settlement_status (status_with started_b (progress_view event) [] (record_progress [] event) 2).
Definition requeued_b : InstallStatus :=
  set_view unsettled_b (set_phase (status_view unsettled_b) "queued" "Queued after restart") [remove_action].

#[local] Instance demo_json : InstallJson := {|
  request_to_string := text_in [request_a; request_b]; request_from_str := value_in [request_a; request_b];
  item_to_string := text_in [item "1.21"; item "1.20"]; item_from_str := value_in [item "1.21"; item "1.20"];
  status_to_string := text_in [queued_a; queued_b; started_b; unsettled_b; requeued_b];
  status_from_str := value_in [queued_a; queued_b; started_b; unsettled_b; requeued_b];
  checkpoint_to_string := λ _, None; checkpoint_from_str := λ _, None |}.

#[local] Instance demo_json_laws : InstallJsonLaws.
Proof. split; [intros *; apply value_of_text..|intros * _; apply value_of_text]. Qed.

Definition pin : GenerationPin := {| pin_library := "games"; pin_generation := 1 |}.
Definition opens : OpenEnv := {|
  open_epoch := "e"; open_tx := quiet_tx; open_admits := Some pin; open_grants := λ _, true |}.
Definition admits (id operation : string) (now : Z) : AdmitEnv := {|
  live_library := λ _, None; fresh_id := id; fresh_operation := operation; admit_closing := false;
  admit_now := now; admit_tx := quiet_tx |}.
Definition starts : StartEnv := {|
  start_closing := false; setup_pending := λ _, false; lease_granted := true; library_opens := true;
  spawns := true; start_now := 3; running_tx := quiet_tx; waiting_tx := quiet_tx |}.
Definition ends : EndEnv := {| end_now := 4; complete_tx := quiet_tx; retain_tx := quiet_tx |}.
Definition recovers_env : RecoverEnv := {|
  recover_opens := true; recover_spawns := true; recover_tx := quiet_tx; recover_setup_pending := λ _, Ok false |}.

Definition nothing : MetadataStore InstallTables := {|
  database := {| queue_rows := ∅; version_rows := ∅ |}; mutation_closed := false; poisoned := false |}.
Definition opened : World := match new opens nothing with (Ok w, _) => w | (Err _, st) =>
  {| store := st; state := initial_state opens; workers := ∅; next_worker := 0; observers_closed := false;
     latest := project (initial_state opens) |} end.

(** The last operation first. *)
Definition working_ops : list QueueOp := [
  OpRunBegin ends false 0; OpStart starts;
  OpEnqueue (admits "b" operation_b 2) request_b (item "1.20") pin None true;
  OpEnqueue (admits "a" operation_a 1) request_a (item "1.21") pin None false].
Definition unsettled_op : QueueOp := OpRunEnd ends 0 (InstallResult (Err (WorkUnsettled RetainRetry))).
Definition unsettled_ops : list QueueOp := unsettled_op :: working_ops.
Definition after (ops : list QueueOp) : World := foldr run_op opened ops.
Definition working : World := after working_ops.
Definition unsettled : World := run_op unsettled_op working.

Example unsettled_queue :
  active (state unsettled) = Some "b" ∧ queued (state unsettled) = ["a"] ∧
  (entry_status <$> entries (state unsettled) !! "b") = Some unsettled_b ∧
  (row_phase <$> rows_of unsettled !! "b") = Some PhaseSettlement ∧
  (worker_install <$> workers working !! 0%nat) = Some "b".
Proof. vm_compute. done. Qed.

(** An install that is put back goes ahead of one that was moved to the front
    meanwhile; a restart then finds them the other way round, because the row
    keeps the time at which it was accepted. *)
Definition requeued : World := foldr run_op unsettled [
  OpRecoveryEnd ends 1 AnswerRequeue; OpRecoveryTake 1; OpRecover recovers_env "b";
  OpEnqueue (admits "c" operation_a 5) request_a (item "1.21") pin None true].

Example requeued_order :
  active (state requeued) = None ∧ queued (state requeued) = ["b"; "a"] ∧
  queued (state (restart opens requeued)) = ["a"; "b"].
Proof. vm_compute. done. Qed.

Lemma admits_ok id operation now : str_len operation = 36 → admit_ok (admits id operation now).
Proof. intros Hl. split; [done|]. unfold uuid_canonical, demo_uuid. cbn. by rewrite Hl. Qed.

Lemma working_history : history working_ops working.
Proof.
  assert (history [] opened) as Hnew.
  { by apply (history_new opens ∅ opened (store opened)). }
  unfold working, after, working_ops. cbn [foldr].
  eapply history_step; [eapply history_step; [eapply history_step; [eapply history_step; [exact Hnew|]|]|]|];
    first [by apply admits_ok | by split].
Qed.

Lemma unsettled_history : history unsettled_ops unsettled.
Proof. exact (history_step working_ops working unsettled_op working_history (conj eq_refl eq_refl)). Qed.





(** The request that waits is asked for again, in front. *)
Lemma admission_all_or_nothing_witness :
  ∃ response w', enqueue_resolved (admits "c" operation_a 5) request_a (item "1.21") pin None true unsettled = (Ok response, w') ∧
    start_install_id <$> response_started response = Some "a" ∧ head (queued (state w')) = Some "a".
Proof.
  destruct (enqueue_resolved (admits "c" operation_a 5) request_a (item "1.21") pin None true unsettled) as [r w'] eqn:E.
  pose proof (admission_all_or_nothing unsettled_ops unsettled (admits "c" operation_a 5) request_a (item "1.21") pin None true
    r w' unsettled_history (admits_ok "c" operation_a 5 eq_refl) E) as Hr.
  assert (match r with Ok response => start_install_id <$> response_started response | Err _ => None end = Some "a") as Hid
    by (change r with (r, w').1; rewrite <-E; vm_compute; reflexivity).
  assert (active (state w') = Some "b") as Hact by (change w' with (r, w').2; rewrite <-E; vm_compute; reflexivity).
  destruct r as [response|]; [|discriminate Hid]. exists response, w'. split; [reflexivity|]. split; [exact Hid|].
  destruct Hr as (started & e & Hs & _ & _ & _ & _ & _ & _ & _ & Hfront & _).
  rewrite Hs in Hid. injection Hid as Hid. rewrite Hid in Hfront. apply Hfront; [reflexivity|]. rewrite Hact. discriminate.
Defined.

(** The retry is accepted, and refused when the task owner is busy. *)
Lemma offered_retry_accepted_witness :
  let busy := {| recover_opens := true; recover_spawns := false; recover_tx := quiet_tx;
                 recover_setup_pending := λ _, Ok false |} in
  (retry_retained recovers_env id false "b" request_b unsettled).1 = Ok tt ∧
  (retry_retained busy id false "b" request_b unsettled).1 = Err InstallBusy.
Proof.
  intros busy. destruct (entries (state unsettled) !! "b") as [e|] eqn:He; [|vm_compute in He; discriminate He].
  assert (entry_request e = request_b) as Hreq.
  { assert (entry_request <$> entries (state unsettled) !! "b" = Some request_b) as E by (vm_compute; reflexivity).
    rewrite He in E. by injection E. }
  destruct (response_active (project (state unsettled))) as [v|] eqn:Hv; [|vm_compute in Hv; discriminate Hv].
  assert (active_retry_action v ≠ None) as Hoffered.
  { assert (option_map (λ v, bool_decide (active_retry_action v = None)) (response_active (project (state unsettled))) = Some false) as E
      by (vm_compute; reflexivity). rewrite Hv in E. injection E as E. by apply bool_decide_eq_false in E. }
  assert (active_install_id v = Some "b") as Hid.
  { assert (option_map active_install_id (response_active (project (state unsettled))) = Some (Some "b")) as E by (vm_compute; reflexivity).
    rewrite Hv in E. by injection E. }
  assert (observers_closed unsettled = false) as Hobs by (vm_compute; reflexivity).
  split.
  - destruct (offered_retry_accepted unsettled_ops unsettled recovers_env id false v "b" e unsettled_history eq_refl Hv Hoffered Hid He) as [_ Hr].
    rewrite Hreq in Hr. destruct (retry_retained recovers_env id false "b" request_b unsettled) as [r w'].
    rewrite Hobs in Hr. exact (proj1 Hr).
  - destruct (offered_retry_accepted unsettled_ops unsettled busy id false v "b" e unsettled_history eq_refl Hv Hoffered Hid He) as [_ Hr].
    rewrite Hreq in Hr. destruct (retry_retained busy id false "b" request_b unsettled) as [r w'].
    rewrite Hobs in Hr. exact (proj1 Hr).
Defined.
End InstallDemo.

(** ** Two recoveries of one content install

    Both read the install in settlement; the first one ends it, and then the
    second one marks it.  The finished install is shown as starting, its work
    runs again, finds nothing to resume, and puts the terminal row back into
    settlement although nothing is active: what the histories above leave out
    because the code does not look at the install again. *)

Module ContentRaceDemo.
#[local] Instance race_uuid : UuidParser := λ id, if str_len id =? 36 then Some id else None.
#[local] Instance race_norm : UnicodeNorm := plain_norm.
#[local] Instance race_content : InstallContent := true.

Definition instance : string := "853c80ef-3c37-49fd-aa49-938b674adae6".
Definition request : InstallQueueRequest := Content instance "Mods" (ActionUninstall ["modrinth:a"]).
Definition target : InstallQueueInstallItem := {| item_version := ""; item_loader := None; item_content := None |}.

(** Nothing is read back here. *)
#[local] Instance race_json : InstallJson := {|
  request_to_string := λ _, Some "request"; request_from_str := λ _, None;
  item_to_string := λ _, Some "item"; item_from_str := λ _, None;
  status_to_string := λ _, Some "status"; status_from_str := λ _, None;
  checkpoint_to_string := λ _, None; checkpoint_from_str := λ _, None |}.

Definition admits : AdmitEnv := {|
  live_library := λ _, Some "games"; fresh_id := "a"; fresh_operation := instance; admit_closing := false;
  admit_now := 1; admit_tx := quiet_tx |}.

(** The work leaves a pending transaction of the content. *)
Definition settling : World := foldr run_op InstallDemo.opened [
  OpRunEnd InstallDemo.ends 0 (ContentResult (Err (WorkUnsettled (RetainContent None)))); OpRunBegin InstallDemo.ends false 0; OpStart InstallDemo.starts;
  OpEnqueue admits request target InstallDemo.pin None false].

Definition read_by_both : ContentRecovery :=
  match recover_content_read InstallDemo.recovers_env "a" settling with
  | Ok c => c
  | Err _ => {| captured_lease := []; captured_setup := None; captured_settled := None; captured_retained := false |}
  end.
Definition recovered_once : World := foldr run_op settling [
  OpRecoveryJoin quiet_tx 1; OpContentEnd InstallDemo.ends 1 true (Ok Succeeded) (Ok Succeeded);
  OpRecoverContent InstallDemo.recovers_env "a" read_by_both].
Definition marked_again : World := run_op (OpRecoverContent InstallDemo.recovers_env "a" read_by_both) recovered_once.
Definition ended_again : World :=
  run_op (OpContentEnd InstallDemo.ends 2 false (Ok Succeeded) (Ok Succeeded)) marked_again.

Definition shown (w : World) : option (bool * string) :=
  (λ e, (status_done (entry_status e), phase_id (status_view (entry_status e)))) <$> entries (state w) !! "a".

Example ended_install_recovered_again :
  recover_content_read InstallDemo.recovers_env "a" settling = Ok read_by_both ∧
  shown recovered_once = Some (true, "done") ∧
  shown marked_again = Some (true, "starting") ∧ active (state marked_again) = None ∧
  is_Some (workers marked_again !! 2%nat) ∧
  (row_phase <$> rows_of recovered_once !! "a") = Some PhaseTerminal ∧
  (row_phase <$> rows_of ended_again !! "a") = Some PhaseSettlement ∧ active (state ended_again) = None.
Proof. vm_compute. split_and!; first [reflexivity | by eexists]. Qed.
End ContentRaceDemo.
