(* ===== verification/LaunchCrash.v ===== *)
(** * Crash evidence ([core/app/src/launch/reports.rs])

    What the launcher keeps of a crash report or of the fatal error log of a
    JVM: a few checked values, and nothing else of the text.  The parser reads
    a bounded prefix line by line; the deserialiser of stored evidence checks
    its values again.  The newtypes with a validator ([evidence_value!]) are
    texts, [checked] at the places that build them. *)

From S2P Require Import Prelude RustStr RustText.

Open Scope string_scope.
Open Scope list_scope.
Open Scope Z_scope.

(** ** Limits *)

Definition MAX_CRASH_ARTIFACT_BYTES : Z := 512 * 1024.
Definition MAX_LINES : nat := 4096.
Definition MAX_LINE_BYTES : Z := 4096.
Definition MAX_SUSPECTED_MODS : nat := 8.

(** ** Values that may be kept *)

Definition is_java_identifier (value : string) : bool :=
  match chars value with
  | [] => false
  | c :: cs =>
      (char_is is_alpha c || char_in ["_"; "$"] c) &&
      forallb (λ ch, char_is is_alphanumeric ch || char_in ["_"; "$"] ch) cs
  end.

Definition is_throwable_class (value : string) : bool :=
  (str_len value <=? 128) &&
  (2 <=? length (split_on "." value))%nat &&
  forallb is_java_identifier (split_on "." value) &&
  is_some_and (list.last (split_on "." value)) (λ name,
    ends_with "Error" name || ends_with "Exception" name || ends_with "Throwable" name).

Definition looks_like_jwt (value : string) : bool :=
  let parts := split_on "." value in
  (length parts =? 3)%nat && (12 <=? str_len value) &&
  forallb (λ part, negb (is_empty part) &&
    forallb (λ ch, char_is is_alphanumeric ch || char_in ["-"; "_"] ch) (chars part)) parts.

Definition looks_like_sensitive_public_value (value : string) : bool :=
  let lower := to_ascii_lowercase value in
  contains_any ["token"; "secret"; "password"; "credential"; "authorization"; "account_id";
    "account-id"; "username"; "xuid"; "bearer"] lower ||
  looks_like_jwt value ||
  ((48 <=? str_len value) && negb (contains " " value) &&
   forallb (λ ch, char_is is_alphanumeric ch || char_in ["-"; "_"; "."] ch) (chars value)).

Definition is_safe_mod_name (value : string) : bool :=
  let lower := to_ascii_lowercase value in
  negb (is_empty value) && (str_len value <=? 96) && str_eqb value (trim value) &&
  negb (contains "  " value) &&
  negb (contains_any ["/"; "\"; "@"; "="; "["; "]"] value) &&
  negb (contains "bearer" lower) && negb (contains "token" lower) &&
  negb (contains "username" lower) && negb (ends_with ".jar" lower) &&
  negb (ends_with ".dll" lower) && negb (contains ".so" lower) &&
  negb (ends_with ".dylib" lower) && negb (looks_like_sensitive_public_value value) &&
  forallb (λ ch, char_is is_alphanumeric ch ||
    char_in [" "; "."; "_"; "-"; "+"; ":"; "#"; "("; ")"] ch) (chars value).

Definition is_safe_mod_version (value : string) : bool :=
  negb (is_empty value) && (str_len value <=? 64) && str_eqb value (trim value) &&
  negb (starts_with "-D" value) && negb (contains ".." value) &&
  negb (looks_like_sensitive_public_value value) &&
  forallb (λ ch, char_is is_alphanumeric ch || char_in ["."; "_"; "-"; "+"] ch) (chars value).

Definition is_safe_native_identifier (value : string) : bool :=
  let lower := to_ascii_lowercase value in
  negb (is_empty value) && (str_len value <=? 96) &&
  negb (contains "token" lower) && negb (contains "bearer" lower) &&
  negb (looks_like_sensitive_public_value value) &&
  forallb (λ ch, char_is is_alphanumeric ch || char_in ["_"; "-"; "."; "$"; ":"] ch) (chars value).

Definition is_safe_native_module (value : string) : bool :=
  let lower := to_ascii_lowercase value in
  is_safe_native_identifier value && negb (ends_with ".dll" lower) &&
  negb (contains ".so" lower) && negb (ends_with ".dylib" lower).

(** [checked] of a newtype: the value, when its validator accepts it. *)
Definition checked (validator : string → bool) (value : string) : option string :=
  if validator value then Some value else None.

Definition normalized_mod_name (value : string) : option string :=
  checked is_safe_mod_name (str_join " " (split_whitespace value)).

Definition sanitized_mod_id (value : string) : option string :=
  let value := trim value in
  if negb (is_empty value) && (str_len value <=? 96) &&
     forallb (λ ch, char_is is_alphanumeric ch || char_in ["_"; "-"; "."] ch) (chars value)
  then Some (to_ascii_lowercase value) else None.

Definition is_hexdigit (c : ascii) : bool :=
  is_digit c || in_bytes c 65 70 || in_bytes c 97 102.

Definition is_native_offset (value : string) : bool :=
  is_some_and (strip_prefix "0x" value) (λ digits,
    negb (is_empty digits) && forallb (char_is is_hexdigit) (chars digits)).

Definition strip_native_extension (value : string) : string :=
  match split_once_at ".so" value with
  | Some (base, _) => base
  | None =>
      match strip_suffix ".dll" value with
      | Some base => base
      | None => default value (strip_suffix ".dylib" value)
      end
  end.

(** ** Evidence *)

Inductive CrashArtifactKind := MinecraftCrashReport | JvmFatalError.

Inductive CrashFailurePhase :=
| PhaseStartup | PhaseInitialization | PhaseLoading | PhaseRuntime | PhaseShutdown | PhaseNative.

Inductive CrashNativeFrameKind := FrameNative | FrameVm.

Record CrashProblematicFrame := {
  frame_kind : CrashNativeFrameKind;
  frame_module : string;
  frame_symbol : option string;
}.

Record CrashModEvidence := { mod_name : string; mod_version : option string }.

Record CrashEvidence := {
  ce_source : CrashArtifactKind;
  ce_truncated : bool;
  ce_failure_phase : option CrashFailurePhase;
  ce_exception_class : option string;
  ce_suspected_mods : list CrashModEvidence;
  ce_problematic_frame : option CrashProblematicFrame;
  ce_names_out_of_memory : bool;
}.

#[global] Instance artifact_kind_eq_dec : EqDecision CrashArtifactKind.
Proof. solve_decision. Defined.
#[global] Instance failure_phase_eq_dec : EqDecision CrashFailurePhase.
Proof. solve_decision. Defined.
#[global] Instance frame_kind_eq_dec : EqDecision CrashNativeFrameKind.
Proof. solve_decision. Defined.
#[global] Instance problematic_frame_eq_dec : EqDecision CrashProblematicFrame.
Proof. solve_decision. Defined.
#[global] Instance mod_evidence_eq_dec : EqDecision CrashModEvidence.
Proof. solve_decision. Defined.
#[global] Instance crash_evidence_eq_dec : EqDecision CrashEvidence.
Proof. solve_decision. Defined.

(** Nothing was found: neither kept nor read back. *)
Definition says_nothing (e : CrashEvidence) : bool :=
  is_none (ce_failure_phase e) && is_none (ce_exception_class e) &&
  match ce_suspected_mods e with [] => true | _ => false end &&
  is_none (ce_problematic_frame e) && negb (ce_names_out_of_memory e).

(** ** Reading stored evidence back *)

(** The values of the decoded document pass the validators of their types. *)
Definition mod_values_ok (m : CrashModEvidence) : bool :=
  is_safe_mod_name (mod_name m) && is_none_or (mod_version m) is_safe_mod_version.
Definition frame_values_ok (f : CrashProblematicFrame) : bool :=
  is_safe_native_module (frame_module f) && is_none_or (frame_symbol f) is_safe_native_identifier.
Definition values_ok (e : CrashEvidence) : bool :=
  is_none_or (ce_exception_class e) is_throwable_class &&
  forallb mod_values_ok (ce_suspected_mods e) &&
  is_none_or (ce_problematic_frame e) frame_values_ok.

(** What each source may report. *)
Definition source_is_coherent (e : CrashEvidence) : bool :=
  match ce_source e with
  | MinecraftCrashReport =>
      is_none (ce_problematic_frame e) &&
      negb (bool_decide (ce_failure_phase e = Some PhaseNative))
  | JvmFatalError =>
      is_none (ce_exception_class e) &&
      match ce_suspected_mods e with [] => true | _ => false end &&
      match ce_failure_phase e with None | Some PhaseNative => true | _ => false end
  end.

Inductive EvidenceError :=
| InvalidValue | TooManyMods | DuplicateMod | IncoherentSource | EmptyEvidence.

(** Some entry equals an earlier one. *)
Fixpoint repeats {A} `{EqDecision A} (seen l : list A) : bool :=
  match l with
  | [] => false
  | x :: l => bool_decide (x ∈ seen) || repeats (seen ++ [x]) l
  end.

(** [CrashEvidence::deserialize], from the decoded fields. *)
Definition deserialize_evidence (wire : CrashEvidence) : result EvidenceError CrashEvidence :=
  err_if (negb (values_ok wire)) InvalidValue ;;
  err_if (MAX_SUSPECTED_MODS <? length (ce_suspected_mods wire))%nat TooManyMods ;;
  err_if (repeats [] (ce_suspected_mods wire)) DuplicateMod ;;
  err_if (negb (source_is_coherent wire)) IncoherentSource ;;
  err_if (says_nothing wire) EmptyEvidence ;;
  Ok wire.

(** ** Lines *)

Definition has_throwable_boundary (remainder : string) : bool :=
  is_none_or (head (chars remainder)) (λ ch, String.eqb ch ":" || char_is is_ascii_whitespace ch).

Definition is_out_of_memory_failure_line (line : string) : bool :=
  let lower := to_ascii_lowercase (trim line) in
  let marker := "java.lang.outofmemoryerror" in
  let throwable :=
    is_some_and (strip_prefix marker lower) has_throwable_boundary ||
    is_some_and (value ← strip_prefix "caused by: " lower; strip_prefix marker value)
      has_throwable_boundary ||
    is_some_and (strip_prefix "exception in thread " lower) (λ value,
      is_some_and (split_once_at marker value) (λ '(before, after),
        negb (is_empty before) && has_throwable_boundary after)) in
  throwable ||
  str_eqb lower "gc overhead limit exceeded" ||
  str_eqb lower
    "# there is insufficient memory for the java runtime environment to continue." ||
  is_some_and (detail ← strip_prefix "# native memory allocation (" lower;
               split_once_at ") failed to " detail) (λ '(_, failure),
    starts_with "allocate " failure || starts_with "map " failure) ||
  is_some_and (strip_prefix "# out of memory error (" lower) (ends_with ")").

Definition parse_failure_phase (line : string) : option CrashFailurePhase :=
  value ← strip_prefix "Description:" line;
  let description := to_ascii_lowercase (trim value) in
  if contains "initializ" description then Some PhaseInitialization
  else if contains "load" description || contains "bootstrap" description then Some PhaseLoading
  else if contains "start" description then Some PhaseStartup
  else if contains "shut" description || contains "stopp" description then Some PhaseShutdown
  else if contains "tick" description || contains "render" description ||
    contains "game" description then Some PhaseRuntime
  else None.

(** [Option::or_else]. *)
Definition or_else {A} (o : option A) (f : option A) : option A :=
  match o with Some _ => o | None => f end.

Definition parse_exception_class (line : string) (allow_bare : bool) : option string :=
  let explicit :=
    or_else (strip_prefix "Exception:" line)
      (or_else (strip_prefix "Caused by:" line) (strip_prefix "Exception message:" line)) in
  if is_none explicit && negb allow_bare then None
  else
    let value := from_option trim line explicit in
    let '(candidate, remainder) := default (value, "") (split_once ":" value) in
    if is_none explicit && is_empty remainder then None
    else checked is_throwable_class (trim candidate).

Definition frame_kind_of (value : string) : option (CrashNativeFrameKind * string) :=
  match or_else (strip_prefix "C  " value) (strip_prefix "C " value) with
  | Some value => Some (FrameNative, trim value)
  | None =>
      match or_else (strip_prefix "V  " value) (strip_prefix "V " value) with
      | Some value => Some (FrameVm, trim value)
      | None => None
      end
  end.

Definition parse_problematic_frame (line : string) : option CrashProblematicFrame :=
  '(kind, value) ← frame_kind_of (trim (default line (strip_prefix "#" line)));
  '(_, bracketed) ← split_once "[" value;
  '(raw_frame, after) ← split_once "]" bracketed;
  '(raw_module, raw_offset) ← rsplit_once_at "+" raw_frame;
  if negb (is_native_offset raw_offset) || contains_any ["/"; "\"] raw_module then None
  else
    module ← checked is_safe_native_module (strip_native_extension raw_module);
    let symbol :=
      symbol ← head (split_on "+" (trim after));
      if is_empty symbol then None else checked is_safe_native_identifier symbol in
    Some {| frame_kind := kind; frame_module := module; frame_symbol := symbol |}.

(** ** The builder *)

Record PendingMod := {
  pm_id : option string;
  pm_name : string;
  pm_version : option string;
}.

Record CrashEvidenceBuilder := {
  b_source : CrashArtifactKind;
  b_truncated : bool;
  b_failure_phase : option CrashFailurePhase;
  b_exception_class : option string;
  b_suspected_mods : list PendingMod;
  b_problematic_frame : option CrashProblematicFrame;
  b_names_out_of_memory : bool;
  b_expect_problematic_frame : bool;
  b_expect_root_throwable : bool;
  b_current_failed_mod_id : option string;
}.

Definition builder_new (source : CrashArtifactKind) (truncated : bool) : CrashEvidenceBuilder := {|
  b_source := source; b_truncated := truncated; b_failure_phase := None;
  b_exception_class := None; b_suspected_mods := []; b_problematic_frame := None;
  b_names_out_of_memory := false; b_expect_problematic_frame := false;
  b_expect_root_throwable := false; b_current_failed_mod_id := None;
|}.

Definition set_truncated (b : CrashEvidenceBuilder) (v : bool) : CrashEvidenceBuilder := {|
  b_source := b_source b; b_truncated := v; b_failure_phase := b_failure_phase b;
  b_exception_class := b_exception_class b; b_suspected_mods := b_suspected_mods b;
  b_problematic_frame := b_problematic_frame b;
  b_names_out_of_memory := b_names_out_of_memory b;
  b_expect_problematic_frame := b_expect_problematic_frame b;
  b_expect_root_throwable := b_expect_root_throwable b;
  b_current_failed_mod_id := b_current_failed_mod_id b;
|}.

Definition set_failure_phase (b : CrashEvidenceBuilder) (v : option CrashFailurePhase)
    : CrashEvidenceBuilder := {|
  b_source := b_source b; b_truncated := b_truncated b; b_failure_phase := v;
  b_exception_class := b_exception_class b; b_suspected_mods := b_suspected_mods b;
  b_problematic_frame := b_problematic_frame b;
  b_names_out_of_memory := b_names_out_of_memory b;
  b_expect_problematic_frame := b_expect_problematic_frame b;
  b_expect_root_throwable := b_expect_root_throwable b;
  b_current_failed_mod_id := b_current_failed_mod_id b;
|}.

Definition set_exception_class (b : CrashEvidenceBuilder) (v : option string)
    : CrashEvidenceBuilder := {|
  b_source := b_source b; b_truncated := b_truncated b; b_failure_phase := b_failure_phase b;
  b_exception_class := v; b_suspected_mods := b_suspected_mods b;
  b_problematic_frame := b_problematic_frame b;
  b_names_out_of_memory := b_names_out_of_memory b;
  b_expect_problematic_frame := b_expect_problematic_frame b;
  b_expect_root_throwable := b_expect_root_throwable b;
  b_current_failed_mod_id := b_current_failed_mod_id b;
|}.

Definition set_suspected_mods (b : CrashEvidenceBuilder) (v : list PendingMod)
    : CrashEvidenceBuilder := {|
  b_source := b_source b; b_truncated := b_truncated b; b_failure_phase := b_failure_phase b;
  b_exception_class := b_exception_class b; b_suspected_mods := v;
  b_problematic_frame := b_problematic_frame b;
  b_names_out_of_memory := b_names_out_of_memory b;
  b_expect_problematic_frame := b_expect_problematic_frame b;
  b_expect_root_throwable := b_expect_root_throwable b;
  b_current_failed_mod_id := b_current_failed_mod_id b;
|}.

Definition set_problematic_frame (b : CrashEvidenceBuilder) (v : option CrashProblematicFrame)
    : CrashEvidenceBuilder := {|
  b_source := b_source b; b_truncated := b_truncated b; b_failure_phase := b_failure_phase b;
  b_exception_class := b_exception_class b; b_suspected_mods := b_suspected_mods b;
  b_problematic_frame := v; b_names_out_of_memory := b_names_out_of_memory b;
  b_expect_problematic_frame := b_expect_problematic_frame b;
  b_expect_root_throwable := b_expect_root_throwable b;
  b_current_failed_mod_id := b_current_failed_mod_id b;
|}.

Definition or_names_out_of_memory (b : CrashEvidenceBuilder) (v : bool)
    : CrashEvidenceBuilder := {|
  b_source := b_source b; b_truncated := b_truncated b; b_failure_phase := b_failure_phase b;
  b_exception_class := b_exception_class b; b_suspected_mods := b_suspected_mods b;
  b_problematic_frame := b_problematic_frame b;
  b_names_out_of_memory := b_names_out_of_memory b || v;
  b_expect_problematic_frame := b_expect_problematic_frame b;
  b_expect_root_throwable := b_expect_root_throwable b;
  b_current_failed_mod_id := b_current_failed_mod_id b;
|}.

(** The flags and the section the parser remembers between lines. *)
Definition set_expectations (b : CrashEvidenceBuilder) (frame throwable : bool)
    (section : option string) : CrashEvidenceBuilder := {|
  b_source := b_source b; b_truncated := b_truncated b; b_failure_phase := b_failure_phase b;
  b_exception_class := b_exception_class b; b_suspected_mods := b_suspected_mods b;
  b_problematic_frame := b_problematic_frame b;
  b_names_out_of_memory := b_names_out_of_memory b;
  b_expect_problematic_frame := frame;
  b_expect_root_throwable := throwable;
  b_current_failed_mod_id := section;
|}.

Definition expect_frame (b : CrashEvidenceBuilder) (v : bool) : CrashEvidenceBuilder :=
  set_expectations b v (b_expect_root_throwable b) (b_current_failed_mod_id b).
Definition expect_throwable (b : CrashEvidenceBuilder) (v : bool) : CrashEvidenceBuilder :=
  set_expectations b (b_expect_problematic_frame b) v (b_current_failed_mod_id b).
Definition enter_section (b : CrashEvidenceBuilder) (v : option string) : CrashEvidenceBuilder :=
  set_expectations b (b_expect_problematic_frame b) (b_expect_root_throwable b) v.

(** [failure_phase.get_or_insert(phase)]. *)
Definition insert_failure_phase (b : CrashEvidenceBuilder) (phase : CrashFailurePhase)
    : CrashEvidenceBuilder :=
  set_failure_phase b (or_else (b_failure_phase b) (Some phase)).

(** *** Suspected mods *)

Definition add_mod (b : CrashEvidenceBuilder) (id name : string) (version : option string)
    : CrashEvidenceBuilder :=
  if (MAX_SUSPECTED_MODS <=? length (b_suspected_mods b))%nat then b
  else
    match normalized_mod_name name with
    | None => b
    | Some name =>
        let id := sanitized_mod_id id in
        let version := value ← version; checked is_safe_mod_version (trim value) in
        if existsb (λ entry, bool_decide (pm_id entry = id) && str_eqb (pm_name entry) name)
             (b_suspected_mods b)
        then b
        else set_suspected_mods b (b_suspected_mods b ++
               [{| pm_id := id; pm_name := name; pm_version := version |}])
    end.

Definition add_suspected_mod (b : CrashEvidenceBuilder) (value : string) : CrashEvidenceBuilder :=
  let value := trim value in
  let '(value, version) :=
    match rsplit_once_at " version " value with
    | Some (name, version) => (name, Some version)
    | None => (value, None)
    end in
  let '(name, id) :=
    default (value, value) ('(name, id) ← rsplit_once_at " (" value;
                            id ← strip_suffix ")" id; Some (name, id)) in
  add_mod b id name version.

(** The loop over the parts of a list, left when the builder is full. *)
Fixpoint add_each (b : CrashEvidenceBuilder) (parts : list string) : CrashEvidenceBuilder :=
  match parts with
  | [] => b
  | candidate :: parts =>
      let b := add_suspected_mod b candidate in
      if (length (b_suspected_mods b) =? MAX_SUSPECTED_MODS)%nat then b else add_each b parts
  end.

Definition add_suspected_mod_list (b : CrashEvidenceBuilder) (value : string)
    : CrashEvidenceBuilder :=
  if eq_ignore_ascii_case (trim value) "none" then b else add_each b (split_on "," value).

Definition add_failed_section_mod (b : CrashEvidenceBuilder) (value : string)
    : CrashEvidenceBuilder :=
  match b_current_failed_mod_id b with
  | None => b
  | Some id =>
      let reported :=
        '(name, remainder) ← split_once_at " (" value;
        '(reported_id, _) ← split_once ")" remainder;
        if eq_ignore_ascii_case reported_id id then Some (trim name, reported_id) else None in
      let '(name, reported_id) := default (id, id) reported in
      add_mod b reported_id name None
  end.

(** [iter_mut().find(p)], with the change made to what it finds. *)
Fixpoint update_first {A} (p : A → bool) (f : A → A) (l : list A) : list A :=
  match l with
  | [] => []
  | x :: l => if p x then f x :: l else x :: update_first p f l
  end.

Definition enrich (version : string) (entry : PendingMod) : PendingMod :=
  {| pm_id := pm_id entry; pm_name := pm_name entry;
     pm_version := or_else (pm_version entry) (checked is_safe_mod_version version) |}.

Definition enrich_forge_mod_list (b : CrashEvidenceBuilder) (line : string)
    : CrashEvidenceBuilder :=
  match trim <$> split_on "|" line with
  | _ :: name :: id :: version :: _ :: _ =>
      set_suspected_mods b (update_first
        (λ entry, opt_eqb (pm_id entry) id || eq_ignore_ascii_case (pm_name entry) name)
        (enrich version) (b_suspected_mods b))
  | _ => b
  end.

Definition enrich_current_version (b : CrashEvidenceBuilder) (value : string)
    : CrashEvidenceBuilder :=
  match b_current_failed_mod_id b with
  | None => b
  | Some id =>
      set_suspected_mods b (update_first (λ entry, opt_eqb (pm_id entry) id)
        (enrich (trim value)) (b_suspected_mods b))
  end.

(** *** One line *)

Definition inspect_jvm_line (b : CrashEvidenceBuilder) (line : string) : CrashEvidenceBuilder :=
  let b :=
    if b_expect_problematic_frame b then
      let b := expect_frame b false in
      match parse_problematic_frame line with
      | Some frame => insert_failure_phase (set_problematic_frame b (Some frame)) PhaseNative
      | None => b
      end
    else b in
  if eq_ignore_ascii_case line "# Problematic frame:" then expect_frame b true else b.

(** A line of a Minecraft report that is neither a section nor a description. *)
Definition inspect_detail (b : CrashEvidenceBuilder) (line : string) : CrashEvidenceBuilder :=
  match strip_prefix "Suspected Mods:" line with
  | Some value => add_suspected_mod_list b value
  | None =>
  match strip_prefix "Suspected Mod:" line with
  | Some value => add_suspected_mod b value
  | None =>
  match strip_prefix "Failure message:" line with
  | Some value => add_failed_section_mod b value
  | None =>
  match strip_prefix "Mod Version:" line with
  | Some value => enrich_current_version b value
  | None => if contains "|" line then enrich_forge_mod_list b line else b
  end end end end.

Definition inspect_report_line (b : CrashEvidenceBuilder) (line : string) : CrashEvidenceBuilder :=
  match (value ← strip_prefix "-- " line; strip_suffix " --" value) with
  | Some section => enter_section b (id ← strip_prefix "MOD " section; sanitized_mod_id id)
  | None =>
      match parse_failure_phase line with
      | Some phase => expect_throwable (insert_failure_phase b phase) true
      | None =>
          let b :=
            match b_exception_class b with
            | None => set_exception_class b (parse_exception_class line (b_expect_root_throwable b))
            | Some _ => b
            end in
          inspect_detail (expect_throwable b false) line
      end
  end.

Definition inspect_line (b : CrashEvidenceBuilder) (raw_line : string) : CrashEvidenceBuilder :=
  let line := trim (from_utf8_lossy raw_line) in
  if is_empty line then b
  else
    let b := or_names_out_of_memory b (is_out_of_memory_failure_line line) in
    match b_source b with
    | JvmFatalError => inspect_jvm_line b line
    | MinecraftCrashReport => inspect_report_line b line
    end.

(** *** The artifact *)

Definition collected (b : CrashEvidenceBuilder) : CrashEvidence := {|
  ce_source := b_source b; ce_truncated := b_truncated b;
  ce_failure_phase := b_failure_phase b; ce_exception_class := b_exception_class b;
  ce_suspected_mods :=
    (λ entry, {| mod_name := pm_name entry; mod_version := pm_version entry |})
      <$> b_suspected_mods b;
  ce_problematic_frame := b_problematic_frame b;
  ce_names_out_of_memory := b_names_out_of_memory b;
|}.

Definition finish (b : CrashEvidenceBuilder) : option CrashEvidence :=
  let evidence := collected b in
  if says_nothing evidence then None else Some evidence.

Fixpoint inspect_lines (budget : nat) (b : CrashEvidenceBuilder) (lines : list string)
    : CrashEvidenceBuilder :=
  match budget, lines with
  | _, [] => b
  | O, _ :: _ => set_truncated b true
  | S budget, line :: lines =>
      let b := if MAX_LINE_BYTES <? str_len line then set_truncated b true else b in
      inspect_lines budget (inspect_line b (take_bytes MAX_LINE_BYTES line)) lines
  end.

Definition parse_crash_evidence (source : CrashArtifactKind) (raw : string)
    : option CrashEvidence :=
  let bounded := take_bytes MAX_CRASH_ARTIFACT_BYTES raw in
  finish (inspect_lines MAX_LINES
    (builder_new source (MAX_CRASH_ARTIFACT_BYTES <? str_len raw)) (split_on newline bounded)).

(** ** What the builder keeps *)

Lemma checked_some validator value v :
  checked validator value = Some v → v = value ∧ validator v = true.
Proof. unfold checked. destruct (validator value) eqn:E; [|done]. by intros [= <-]. Qed.

Lemma is_none_or_checked validator value : is_none_or (checked validator value) validator = true.
Proof. unfold checked. by destruct (validator value) eqn:E; simpl. Qed.

Definition pending_ok (m : PendingMod) : Prop :=
  is_safe_mod_name (pm_name m) = true ∧ is_none_or (pm_version m) is_safe_mod_version = true.

Definition source_ok (source : CrashArtifactKind) (phase : option CrashFailurePhase)
    (exception : option string) (mods : list PendingMod) (frame : option CrashProblematicFrame)
    : Prop :=
  match source with
  | MinecraftCrashReport => frame = None ∧ phase ≠ Some PhaseNative
  | JvmFatalError => exception = None ∧ mods = [] ∧ (phase = None ∨ phase = Some PhaseNative)
  end.

Definition builder_ok (b : CrashEvidenceBuilder) : Prop :=
  source_ok (b_source b) (b_failure_phase b) (b_exception_class b) (b_suspected_mods b)
    (b_problematic_frame b) ∧
  is_none_or (b_exception_class b) is_throwable_class = true ∧
  Forall pending_ok (b_suspected_mods b) ∧
  (length (b_suspected_mods b) ≤ MAX_SUSPECTED_MODS)%nat ∧
  is_none_or (b_problematic_frame b) frame_values_ok = true.

(** A step of the parser of reports. *)
Definition mods_step (b b' : CrashEvidenceBuilder) : Prop :=
  b_source b = MinecraftCrashReport → builder_ok b →
  builder_ok b' ∧ b_source b' = MinecraftCrashReport ∧ b_truncated b' = b_truncated b.

Lemma set_mods_ok b mods :
  b_source b = MinecraftCrashReport → builder_ok b →
  Forall pending_ok mods → (length mods ≤ MAX_SUSPECTED_MODS)%nat →
  builder_ok (set_suspected_mods b mods).
Proof.
  unfold builder_ok. cbn [b_source b_failure_phase b_exception_class b_suspected_mods
    b_problematic_frame set_suspected_mods].
  intros Hs (Hsource & ? & ? & ? & ?) Hm Hl. rewrite Hs in *. by split_and!.
Qed.

Lemma add_mod_step b id name version : mods_step b (add_mod b id name version).
Proof.
  intros Hs Hok. unfold add_mod. destruct (_ <=? _)%nat eqn:Hlen; [done|].
  apply Nat.leb_gt in Hlen. unfold normalized_mod_name.
  destruct (checked is_safe_mod_name _) as [n|] eqn:En; [|done].
  apply checked_some in En as [_ Hn].
  destruct (existsb _ _); [done|]. split_and!; [|done..]. apply set_mods_ok; [done..| |].
  - apply list.Forall_app. split; [apply Hok|]. constructor; [|done].
    split; [done|]. simpl. destruct version; simpl; [apply is_none_or_checked|done].
  - rewrite length_app. simpl. lia.
Qed.

Lemma add_suspected_mod_step b value : mods_step b (add_suspected_mod b value).
Proof.
  unfold add_suspected_mod. destruct (match rsplit_once_at _ _ with Some _ => _ | None => _ end) as [v o].
  destruct (default (v, v) _) as [name id]. apply add_mod_step.
Qed.

Lemma add_each_step b parts : mods_step b (add_each b parts).
Proof.
  revert b. induction parts as [|p parts IH]; intros b Hs Hok; [done|]. cbn [add_each].
  destruct (add_suspected_mod_step b p Hs Hok) as (Hok' & Hs' & Ht). case_match; [done|].
  destruct (IH _ Hs' Hok') as (? & ? & Ht'). split_and!; [done..|]. by rewrite Ht'.
Qed.

Lemma update_first_enrich p version mods :
  Forall pending_ok mods →
  Forall pending_ok (update_first p (enrich version) mods) ∧
  length (update_first p (enrich version) mods) = length mods.
Proof.
  induction 1 as [|m mods [Hn Hv] Hm [IH1 IH2]]; [done|]. cbn [update_first].
  destruct (p m); simpl; split; try lia; constructor; try done.
  split; [done|]. cbn [enrich pm_version]. destruct (pm_version m); [done|].
  apply is_none_or_checked.
Qed.

Lemma enrich_step b p version :
  mods_step b (set_suspected_mods b (update_first p (enrich version) (b_suspected_mods b))).
Proof.
  intros Hs Hok. split_and!; [|done..].
  destruct (update_first_enrich p version (b_suspected_mods b)) as [Hf Hl]; [apply Hok|].
  apply set_mods_ok; [done..|]. rewrite Hl. apply Hok.
Qed.

Lemma inspect_detail_step b line : mods_step b (inspect_detail b line).
Proof.
  unfold inspect_detail. repeat case_match; try done.
  - unfold add_suspected_mod_list. case_match; [done|apply add_each_step].
  - apply add_suspected_mod_step.
  - unfold add_failed_section_mod. case_match; [|done].
    destruct (default _ _) as [name id]. apply add_mod_step.
  - unfold enrich_current_version. case_match; [apply enrich_step|done].
  - unfold enrich_forge_mod_list. 
    destruct (trim <$> split_on "|" line) as [|? [|name [|id [|version [|? ?]]]]]; try done.
    apply enrich_step.
Qed.

Lemma parse_exception_class_ok line allow :
  is_none_or (parse_exception_class line allow) is_throwable_class = true.
Proof.
  unfold parse_exception_class. case_match; [done|].
  destruct (default _ _) as [candidate remainder]. case_match; [done|].
  apply is_none_or_checked.
Qed.

Lemma parse_failure_phase_ok line : parse_failure_phase line ≠ Some PhaseNative.
Proof.
  unfold parse_failure_phase. destruct (strip_prefix "Description:" line); [|done]. simpl.
  by repeat case_match.
Qed.

Lemma inspect_report_line_ok b line : mods_step b (inspect_report_line b line).
Proof.
  intros Hs Hok. unfold inspect_report_line. case_match; [done|].
  destruct (parse_failure_phase line) as [phase|] eqn:Ep.
  { split_and!; [|done..]. unfold builder_ok in *. cbn [expect_throwable set_expectations
      insert_failure_phase set_failure_phase b_source b_failure_phase b_exception_class
      b_suspected_mods b_problematic_frame].
    rewrite Hs in *. destruct Hok as ([? Hphase] & ? & ? & ? & ?). split_and!; try done.
    pose proof (parse_failure_phase_ok line) as Hn. rewrite Ep in Hn.
    by destruct (b_failure_phase b). }
  set (b' := match b_exception_class b with None => _ | Some _ => b end).
  assert (b_truncated b' = b_truncated b) as <- by (unfold b'; by destruct (b_exception_class b)).
  apply (inspect_detail_step (expect_throwable b' false)).
  - unfold b'. by destruct (b_exception_class b).
  - unfold b'. destruct (b_exception_class b) eqn:Ee; [done|].
    unfold builder_ok in *. cbn [expect_throwable set_expectations set_exception_class b_source
      b_failure_phase b_exception_class b_suspected_mods b_problematic_frame].
    rewrite Hs in *. destruct Hok as ([? Hphase] & ? & ? & ? & ?). split_and!; try done.
    apply parse_exception_class_ok.
Qed.

Lemma parse_problematic_frame_ok line :
  is_none_or (parse_problematic_frame line) frame_values_ok = true.
Proof.
  unfold parse_problematic_frame. destruct (frame_kind_of _) as [[kind value]|]; [|done]. simpl.
  destruct (split_once "[" value) as [[? bracketed]|]; [|done]. simpl.
  destruct (split_once "]" bracketed) as [[raw_frame after]|]; [|done]. simpl.
  destruct (rsplit_once_at "+" raw_frame) as [[raw_module raw_offset]|]; [|done].
  cbn [mbind option_bind]. case_match; [done|].
  destruct (checked is_safe_native_module _) as [module|] eqn:Em; [|done].
  apply checked_some in Em as [_ Hm].
  cbn [mbind option_bind is_none_or frame_values_ok frame_module frame_symbol].
  unfold frame_values_ok. cbn [frame_module frame_symbol]. rewrite Hm. cbn [andb].
  destruct (head _) as [symbol|]; [|done]. cbn [mbind option_bind].
  case_match; [done|]. apply is_none_or_checked.
Qed.

Lemma inspect_jvm_line_ok b line :
  b_source b = JvmFatalError → builder_ok b →
  builder_ok (inspect_jvm_line b line) ∧ b_truncated (inspect_jvm_line b line) = b_truncated b ∧
  b_source (inspect_jvm_line b line) = JvmFatalError.
Proof.
  intros Hs Hok. pose proof (parse_problematic_frame_ok line) as Hf.
  unfold inspect_jvm_line. unfold builder_ok in *.
  destruct Hok as (Hsource & ? & ? & ? & ?). rewrite Hs in Hsource.
  destruct Hsource as (He & Hm & Hp).
  destruct (b_expect_problematic_frame b), (parse_problematic_frame line), (eq_ignore_ascii_case _ _);
    cbn [expect_frame set_expectations insert_failure_phase set_problematic_frame
      set_failure_phase b_source b_failure_phase b_exception_class b_suspected_mods
      b_problematic_frame]; rewrite ?Hs; split_and!; try done;
    (split_and!; [done..|]); destruct Hp as [->| ->]; auto.
Qed.

Lemma inspect_line_ok b raw_line :
  builder_ok b → builder_ok (inspect_line b raw_line) ∧
  b_truncated (inspect_line b raw_line) = b_truncated b ∧
  b_source (inspect_line b raw_line) = b_source b.
Proof.
  intros Hok. unfold inspect_line. case_match; [done|].
  set (b' := or_names_out_of_memory _ _). assert (builder_ok b') as Hok' by done.
  change (b_truncated b) with (b_truncated b'). change (b_source b) with (b_source b').
  destruct (b_source b') eqn:Hs; [|by apply inspect_jvm_line_ok].
  by destruct (inspect_report_line_ok b' (trim (from_utf8_lossy raw_line)) Hs Hok') as (? & ? & ?).
Qed.

(** A limit of the parser was exceeded by these lines. *)
Definition lines_exceed (budget : nat) (lines : list string) : bool :=
  existsb (λ line, MAX_LINE_BYTES <? str_len line) (take budget lines) ||
  (budget <? length lines)%nat.

Lemma inspect_lines_ok budget b lines :
  builder_ok b →
  builder_ok (inspect_lines budget b lines) ∧
  b_truncated (inspect_lines budget b lines) = b_truncated b || lines_exceed budget lines ∧
  b_source (inspect_lines budget b lines) = b_source b.
Proof.
  revert b lines. induction budget as [|budget IH]; intros b [|line lines] Hok;
    cbn [inspect_lines]; try (split_and!; [done| |done]; by rewrite ?orb_false_r, ?orb_true_r).
  set (b' := if MAX_LINE_BYTES <? str_len line then _ else _).
  assert (builder_ok b') as Hok' by (unfold b'; by case_match).
  apply (inspect_line_ok b' (take_bytes MAX_LINE_BYTES line)) in Hok' as (Hok' & Ht' & Hs').
  destruct (IH _ lines Hok') as (? & Ht & Hs).
  split_and!; [done| |rewrite Hs, Hs'; unfold b'; by case_match].
  rewrite Ht, Ht'. unfold b', lines_exceed. cbn [take existsb length].
  destruct (MAX_LINE_BYTES <? str_len line); simpl; by rewrite ?orb_true_r.
Qed.

Lemma builder_new_ok source truncated : builder_ok (builder_new source truncated).
Proof.
  split_and!; try done; [|simpl; lia]. destruct source; simpl; [done|]. split_and!; auto.
Qed.

Lemma collected_ok b :
  builder_ok b →
  values_ok (collected b) = true ∧ source_is_coherent (collected b) = true ∧
  (length (ce_suspected_mods (collected b)) ≤ MAX_SUSPECTED_MODS)%nat.
Proof.
  intros (Hs & He & Hm & Hl & Hf). unfold values_ok, source_is_coherent, collected.
  cbn [ce_source ce_failure_phase ce_exception_class ce_suspected_mods ce_problematic_frame].
  rewrite length_fmap, He, Hf, andb_true_r. split_and!; [| |done].
  - simpl. apply forallb_forall. intros m (p & -> & Hp)%list_elem_of_In%list_elem_of_fmap.
    unfold mod_values_ok. simpl. rewrite list.Forall_forall in Hm.
    destruct (Hm p Hp) as [-> ->]. done.
  - destruct (b_source b).
    + destruct Hs as [-> Hp]. simpl. by rewrite bool_decide_false.
    + destruct Hs as (-> & -> & [-> | ->]); done.
Qed.

Lemma repeats_spec {A} `{EqDecision A} (seen l : list A) :
  NoDup seen → repeats seen l = false ↔ NoDup (seen ++ l).
Proof.
  revert seen. induction l as [|x l IH]; intros seen Hseen; cbn [repeats].
  { by rewrite app_nil_r. }
  rewrite orb_false_iff, bool_decide_eq_false. split.
  - intros [Hx Hl]. rewrite IH in Hl; [by rewrite <-app_assoc in Hl|].
    apply list.NoDup_app. split_and!; [done| |apply NoDup_singleton]. set_solver.
  - intros Hnd. assert (x ∉ seen) as Hx.
    { apply list.NoDup_app in Hnd as (_ & Hd & _). intros Hin. apply (Hd x Hin). by left. }
    split; [done|]. apply IH; [|by rewrite <-app_assoc].
    apply list.NoDup_app. split_and!; [done| |apply NoDup_singleton]. set_solver.
Qed.

Lemma finish_reads_back b evidence :
  builder_ok b → finish b = Some evidence →
  ce_source evidence = b_source b ∧ ce_truncated evidence = b_truncated b ∧
  deserialize_evidence evidence =
    (if decide (NoDup (ce_suspected_mods evidence)) then Ok evidence else Err DuplicateMod).
Proof.
  intros Hok. unfold finish.
  destruct (says_nothing (collected b)) eqn:Hnothing; [done|]. intros [= <-].
  destruct (collected_ok b Hok) as (Hv & Hc & Hl). split_and!; [done..|].
  unfold deserialize_evidence. rewrite Hv, Hc, Hnothing, (proj2 (Nat.ltb_ge _ _) Hl).
  cbn [negb err_if mbind result_bind].
  destruct (repeats [] _) eqn:Er; cbn [err_if mbind result_bind]; case_decide as Hnd;
    try done; exfalso.
  - apply (repeats_spec [] (ce_suspected_mods (collected b))) in Hnd; [congruence|constructor].
  - apply (repeats_spec [] (ce_suspected_mods (collected b))) in Er; [exact (Hnd Er)|constructor].
Qed.

(** ** Properties *)

(** What the parser makes of a crash artifact comes from the named source,
    is marked as truncated exactly when the artifact exceeds one of the three
    limits of the parser, and passes every check of the deserialiser of stored
    evidence, but for one: two suspected mods may carry the same name and
    version. *)
Theorem parsed_evidence_reads_back source raw evidence :
  parse_crash_evidence source raw = Some evidence →
  ce_source evidence = source ∧
  ce_truncated evidence =
    (MAX_CRASH_ARTIFACT_BYTES <? str_len raw) ||
    lines_exceed MAX_LINES (split_on newline (take_bytes MAX_CRASH_ARTIFACT_BYTES raw)) ∧
  deserialize_evidence evidence =
    (if decide (NoDup (ce_suspected_mods evidence)) then Ok evidence else Err DuplicateMod).
Proof.
  unfold parse_crash_evidence. intros Hfinish.
  destruct (inspect_lines_ok MAX_LINES _
    (split_on newline (take_bytes MAX_CRASH_ARTIFACT_BYTES raw))
    (builder_new_ok source (MAX_CRASH_ARTIFACT_BYTES <? str_len raw))) as (Hok & Ht & Hs).
  destruct (finish_reads_back _ _ Hok Hfinish) as (Hs' & Ht' & H).
  split_and!; [by rewrite Hs'|by rewrite Ht'|exact H].
Qed.

(** A report with two suspected mods, a description and a root throwable. *)
Definition demo_report : string :=
  "---- Minecraft Crash Report ----" +:+ char1 newline +:+
  "Description: Initializing game" +:+ char1 newline +:+
  "java.lang.NullPointerException: boom" +:+ char1 newline +:+
  "Suspected Mods: Sodium (sodium) version 0.5.8, Iris (iris)" +:+ char1 newline.

Lemma parsed_evidence_reads_back_witness :
  let evidence := {|
    ce_source := MinecraftCrashReport; ce_truncated := false;
    ce_failure_phase := Some PhaseInitialization;
    ce_exception_class := Some "java.lang.NullPointerException";
    ce_suspected_mods := [{| mod_name := "Sodium"; mod_version := Some "0.5.8" |};
                          {| mod_name := "Iris"; mod_version := None |}];
    ce_problematic_frame := None; ce_names_out_of_memory := false |} in
  parse_crash_evidence MinecraftCrashReport demo_report = Some evidence ∧
  deserialize_evidence evidence = Ok evidence.
Proof.
  intros evidence.
  assert (parse_crash_evidence MinecraftCrashReport demo_report = Some evidence) as Hparse
    by (vm_compute; reflexivity).
  split; [exact Hparse|].
  destruct (parsed_evidence_reads_back MinecraftCrashReport demo_report evidence Hparse)
    as (_ & _ & H).
  rewrite H. vm_compute. reflexivity.
Defined.

(** Two mods with one display name are kept apart by their identifiers, which
    the evidence does not carry: it cannot be read back. *)
Example same_name_unreadable :
  let raw := "Suspected Mods: Library (lib_a), Library (lib_b)" in
  deserialize_evidence <$> parse_crash_evidence MinecraftCrashReport raw
  = Some (Err DuplicateMod).
Proof. vm_compute. reflexivity. Qed.
