(* ===== verification/LaunchOutcome.v ===== *)
(** * How a session ended ([core/app/src/launch/outcome.rs])

    Failure classes read from lines of output and from crash evidence, their
    order of precedence, and the outcome of a session: a classification that
    is made only of settled facts.  Lower case beyond ASCII is the parameter
    [Unicode]. *)

From S2P Require Import Prelude RustStr RustText LaunchCrash.

Open Scope string_scope.
Open Scope list_scope.
Open Scope Z_scope.

(** ** Classes *)

Inductive FailureClass :=
| Unknown | JvmUnsupportedOption | JvmExperimentalUnlock | JvmOptionOrdering
| JavaRuntimeMismatch | RosettaRequired | OutOfMemory | GraphicsUnavailable
| GraphicsDriverCrash | MissingDependency | ModTransformationFailure | ModAttributedCrash
| ClasspathModuleConflict | LauncherManagedArtifactSignature | AuthModeIncompatible
| LoaderBootstrapFailure | StartupStalled.

#[global] Instance failure_class_eq_dec : EqDecision FailureClass.
Proof. solve_decision. Defined.

Definition failure_class_precedence (class : FailureClass) : Z :=
  match class with
  | StartupStalled => 0
  | JvmUnsupportedOption => 1
  | JvmExperimentalUnlock => 2
  | JvmOptionOrdering => 3
  | RosettaRequired => 4
  | JavaRuntimeMismatch => 5
  | OutOfMemory => 6
  | LauncherManagedArtifactSignature => 7
  | GraphicsUnavailable => 8
  | GraphicsDriverCrash => 9
  | MissingDependency => 10
  | ModTransformationFailure => 11
  | ModAttributedCrash => 12
  | ClasspathModuleConflict => 13
  | LoaderBootstrapFailure => 14
  | AuthModeIncompatible => 15
  | Unknown => 16
  end.

Definition stronger_failure_class (left right : FailureClass) : FailureClass :=
  if failure_class_precedence left <=? failure_class_precedence right then left else right.

Definition has_class (class : FailureClass) (classes : list FailureClass) : bool :=
  bool_decide (class ∈ classes).

(** ** Lines of output *)

Definition contains_out_of_memory_failure (text : string) : bool :=
  existsb is_out_of_memory_failure_line (str_lines text).

Definition contains_requires_java_version (text : string) : bool :=
  existsb (λ line,
    existsb (λ marker,
      is_some_and (split_once_at marker line) (λ '(_, after),
        is_some_and (head (drop_while is_whitespace (chars after))) (char_is is_digit)))
      ["requires java "; "requires java version "])
    (str_lines text).

Definition contains_artifact_signature_failure (text : string) : bool :=
  contains "invalid signature file digest" text ||
  (contains "securityexception" text && contains "signer information does not match" text &&
   contains "same package" text) ||
  (contains "securityexception" text && contains "signature file" text &&
   contains "digest" text) ||
  (contains "securityexception" text && contains "manifest main attributes" text &&
   contains "digest" text) ||
  (contains "securityexception" text && contains "digest error" text).

Definition throwable_line_names (line class : string) : bool :=
  existsb (λ token, str_eqb (trim_end_matches (String.eqb ":") token) class)
    (split_ascii_whitespace line).

Definition contains_missing_dependency_failure (text : string) : bool :=
  existsb (λ line,
    throwable_line_names line "net.minecraftforge.fml.common.missingmodsexception" ||
    throwable_line_names line "cpw.mods.fml.common.missingmodsexception" ||
    str_eqb line "missing or unsupported mandatory dependencies:" ||
    (starts_with "- mod '" line && contains " requires " line &&
     ends_with ", which is missing!" line))
    (trim <$> str_lines text).

Definition MIXIN_THROWABLES : list string := [
  "org.spongepowered.asm.mixin.transformer.throwables.mixinapplyerror";
  "org.spongepowered.asm.mixin.transformer.throwables.mixintransformererror";
  "org.spongepowered.asm.mixin.transformer.throwables.invalidmixinexception";
  "org.spongepowered.asm.mixin.injection.throwables.injectionerror";
  "org.spongepowered.asm.mixin.injection.throwables.invalidinjectionexception";
  "org.spongepowered.asm.mixin.injection.throwables.injectionvalidationexception"].

Definition contains_mod_transformation_failure (text : string) : bool :=
  existsb (λ line,
    existsb (throwable_line_names line) MIXIN_THROWABLES ||
    starts_with "failed to load coremod " line ||
    starts_with "error loading coremod " line)
    (trim <$> str_lines text).

Definition contains_loader_bootstrap_marker (text : string) : bool :=
  contains_any ["bootstraplauncher"; "modlauncher"; "fml loading"] text.

Definition contains_failure_context (text : string) : bool :=
  contains_any ["exception"; "error"; "fail"; "unable"; "could not"] text.

Definition is_graphics_unavailable_failure (text : string) : bool :=
  match strip_prefix "<log4j:Throwable><![CDATA[" (trim text) with
  | None => false
  | Some throwable =>
      match split_once_at ": " throwable with
      | None => false
      | Some (class, message) =>
          negb (is_empty class) &&
          forallb (λ ch, char_is is_alphanumeric ch || char_in ["."; "$"; "_"] ch)
            (chars class) &&
          str_eqb (default message (strip_suffix "]]></log4j:Throwable>" message))
            "GLFW error 65542: WGL: The driver does not appear to support OpenGL"
      end
  end.

Section unicode.
Context `{Unicode}.

Definition classify_startup_failure_text (text : string) : FailureClass :=
  if is_graphics_unavailable_failure text then GraphicsUnavailable
  else
    let lower := to_lowercase (trim text) in
    if is_empty lower then Unknown
    else if contains_any ["unrecognized vm option"; "unsupported vm option"] lower
    then JvmUnsupportedOption
    else if contains "must be enabled via -xx:+unlockexperimentalvmoptions" lower
    then JvmExperimentalUnlock
    else if contains_any ["unlock option must precede";
      "unlockexperimentalvmoptions must precede"; "unlockdiagnosticvmoptions must precede"] lower
    then JvmOptionOrdering
    else if contains_any ["unsupportedclassversionerror";
        "compiled by a more recent version of the java runtime"] lower ||
      contains_requires_java_version lower
    then JavaRuntimeMismatch
    else if contains_out_of_memory_failure lower then OutOfMemory
    else if contains_artifact_signature_failure lower then LauncherManagedArtifactSignature
    else if contains_missing_dependency_failure lower then MissingDependency
    else if contains_mod_transformation_failure lower then ModTransformationFailure
    else if contains_any ["resolutionexception: modules"; "export package";
      "modulelayerhandler.buildlayer"; "noclassdeffounderror"; "classnotfoundexception";
      "failed to locate library:"; "unsatisfiedlinkerror"] lower
    then ClasspathModuleConflict
    else if contains "nosuchelementexception: no value present" lower ||
      (contains_loader_bootstrap_marker lower && contains_failure_context lower)
    then LoaderBootstrapFailure
    else if contains_any ["microsoft account"; "check your microsoft account";
      "multiplayer is disabled"] lower
    then AuthModeIncompatible
    else Unknown.

Definition boot_marker_detected (text : string) : bool :=
  contains_any ["Setting user:"; "LWJGL Version"; "Minecraft Launcher"] text ||
  (contains "[Render thread" text && contains "Created:" text &&
   contains_any ["textures/atlas/"; "-atlas"] text).

(** ** Evidence *)

Record LaunchEvidence := {
  boot_observed : bool;
  failure_classes : list FailureClass;
}.

Definition evidence_default : LaunchEvidence :=
  {| boot_observed := false; failure_classes := [] |}.

Definition observe_failure (e : LaunchEvidence) (class : FailureClass) : LaunchEvidence :=
  if negb (bool_decide (class = Unknown)) && negb (has_class class (failure_classes e))
  then {| boot_observed := boot_observed e; failure_classes := failure_classes e ++ [class] |}
  else e.

Definition observe_line (e : LaunchEvidence) (line : string) : LaunchEvidence :=
  observe_failure
    {| boot_observed := boot_observed e || boot_marker_detected line;
       failure_classes := failure_classes e |}
    (classify_startup_failure_text line).
End unicode.

(** ** Crash evidence *)

Definition is_graphics_driver_module (module : string) : bool :=
  char_in ["nvoglv32"; "nvoglv64"; "nvwgf2um"; "nvwgf2umx"; "atioglxx"; "atio6axx"; "amdxx32";
    "amdxx64"; "ig4icd32"; "ig4icd64"; "ig9icd32"; "ig9icd64"; "igd10iumd32"; "igd10iumd64";
    "libglx_nvidia"; "libnvidia-glcore"; "radeonsi_dri"; "iris_dri"; "i965_dri"]
    (to_ascii_lowercase module).

Definition is_missing_dependency_exception (class : string) : bool :=
  char_in ["net.minecraftforge.fml.common.MissingModsException";
    "cpw.mods.fml.common.MissingModsException"] class.

Definition is_mod_transformation_exception (class : string) : bool :=
  char_in ["org.spongepowered.asm.mixin.transformer.throwables.MixinApplyError";
    "org.spongepowered.asm.mixin.transformer.throwables.MixinTransformerError";
    "org.spongepowered.asm.mixin.transformer.throwables.InvalidMixinException";
    "org.spongepowered.asm.mixin.injection.throwables.InjectionError";
    "org.spongepowered.asm.mixin.injection.throwables.InvalidInjectionException";
    "org.spongepowered.asm.mixin.injection.throwables.InjectionValidationException"] class.

Definition source_is (e : CrashEvidence) (kind : CrashArtifactKind) : bool :=
  bool_decide (ce_source e = kind).

Definition classify_crash_evidence (e : CrashEvidence) : option FailureClass :=
  if ce_names_out_of_memory e then Some OutOfMemory
  else if source_is e JvmFatalError && is_some_and (ce_problematic_frame e) (λ frame,
    bool_decide (frame_kind frame = FrameNative) &&
    is_graphics_driver_module (frame_module frame))
  then Some GraphicsDriverCrash
  else if source_is e MinecraftCrashReport &&
    is_some_and (ce_exception_class e) is_missing_dependency_exception
  then Some MissingDependency
  else if source_is e MinecraftCrashReport &&
    is_some_and (ce_exception_class e) is_mod_transformation_exception
  then Some ModTransformationFailure
  else if source_is e MinecraftCrashReport && negb (ce_truncated e) &&
    negb (match ce_suspected_mods e with [] => true | _ => false end)
  then Some ModAttributedCrash
  else None.

(** [Iterator::reduce]. *)
Definition reduce {A} (f : A → A → A) (l : list A) : option A :=
  match l with [] => None | x :: l => Some (foldl f x l) end.

Definition classify_launch_failure (stdout_classes : list FailureClass) (exit_code : option Z)
    (crash_evidence : option CrashEvidence) : option FailureClass :=
  if bool_decide (exit_code = Some 0) then
    if has_class GraphicsUnavailable stdout_classes then Some GraphicsUnavailable else None
  else
    let stdout_class := reduce stronger_failure_class
      (filter (λ class, class ≠ StartupStalled) stdout_classes) in
    let evidence_class := e ← crash_evidence; classify_crash_evidence e in
    Some (match stdout_class, evidence_class with
          | Some stdout, Some evidence => stronger_failure_class stdout evidence
          | Some class, None | None, Some class => class
          | None, None => Unknown
          end).

(** ** Outcomes *)

Record SessionExitFacts := {
  process_exited : bool;
  exit_code : option Z;
  signal : option Z;
  stop_requested : bool;
  was_running : bool;
  tree_settled : bool;
  outputs_drained : bool;
}.

Inductive SessionOutcomeKind := Clean | Stopped | Failed | KindUnknown.

Inductive SessionExitReason :=
| SpawnFailed | CleanExit | ExternalUserClosed | LauncherStopped | ReasonStartupStalled
| StartupFailed | CrashedBeforeBoot | CrashedAfterBoot | UnknownExit.

#[global] Instance outcome_kind_eq_dec : EqDecision SessionOutcomeKind.
Proof. solve_decision. Defined.
#[global] Instance exit_reason_eq_dec : EqDecision SessionExitReason.
Proof. solve_decision. Defined.

Record SessionOutcome := {
  kind : SessionOutcomeKind;
  reason : SessionExitReason;
  failure_class : option FailureClass;
  summary : string;
}.

#[global] Instance session_outcome_eq_dec : EqDecision SessionOutcome.
Proof. solve_decision. Defined.

Definition summary_of (reason : SessionExitReason) (failure_class : option FailureClass)
    : string :=
  if bool_decide (reason = StartupFailed) &&
     bool_decide (failure_class = Some GraphicsUnavailable)
  then "The game could not create a window because OpenGL is unavailable."
  else
    match reason with
    | SpawnFailed => "The game process could not be started."
    | CleanExit => "The game closed normally."
    | ExternalUserClosed => "The game was closed outside the launcher after startup."
    | LauncherStopped => "The game was stopped from the launcher."
    | ReasonStartupStalled => "Game startup did not complete."
    | StartupFailed => "The game could not finish starting."
    | CrashedBeforeBoot => "The game exited unexpectedly during startup."
    | CrashedAfterBoot => "The game exited unexpectedly after startup."
    | UnknownExit => "The game exited without enough evidence to classify the result."
    end.

(** [SessionOutcome::summary]. *)
Definition outcome_summary (o : SessionOutcome) : string :=
  summary_of (reason o) (failure_class o).

Definition spawn_failed : SessionOutcome := {|
  kind := Failed; reason := SpawnFailed; failure_class := None;
  summary := "The game process could not be started.";
|}.

(** The exit was not a normal one. *)
Definition abnormal (facts : SessionExitFacts) : bool :=
  negb (is_none (signal facts)) || is_some_and (exit_code facts) (λ code, negb (code =? 0)).

Definition classify_session_outcome (facts : SessionExitFacts) (evidence : LaunchEvidence)
    : option SessionOutcome :=
  if negb (process_exited facts) || negb (tree_settled facts) || negb (outputs_drained facts)
  then None
  else
    let stalled := has_class StartupStalled (failure_classes evidence) in
    let class :=
      if stalled then Some StartupStalled
      else classify_launch_failure (failure_classes evidence) (exit_code facts) None in
    let '(kind, reason) :=
      if stalled then (Failed, ReasonStartupStalled)
      else if stop_requested facts then (Stopped, LauncherStopped)
      else if bool_decide (class = Some GraphicsUnavailable) then (Failed, StartupFailed)
      else if boot_observed evidence && bool_decide (exit_code facts = Some 0) &&
        negb (abnormal facts)
      then (Clean, if was_running facts then ExternalUserClosed else CleanExit)
      else if boot_observed evidence && abnormal facts then (Failed, CrashedAfterBoot)
      else if negb (boot_observed evidence) &&
        is_some_and class (λ class, negb (bool_decide (class = Unknown)))
      then (Failed, StartupFailed)
      else if abnormal facts then (Failed, CrashedBeforeBoot)
      else (KindUnknown, UnknownExit) in
    let class := if bool_decide (kind = Failed) then class else None in
    Some {| kind := kind; reason := reason; failure_class := class;
            summary := summary_of reason class |}.

(** ** The strongest class *)

Lemma precedence_inj c d : failure_class_precedence c = failure_class_precedence d → c = d.
Proof. by destruct c, d. Qed.

Lemma stronger_cases c d :
  (stronger_failure_class c d = c ∧ failure_class_precedence c ≤ failure_class_precedence d) ∨
  (stronger_failure_class c d = d ∧ failure_class_precedence d ≤ failure_class_precedence c).
Proof.
  unfold stronger_failure_class. destruct (Z.leb_spec (failure_class_precedence c)
    (failure_class_precedence d)); [left|right]; split; (done || lia).
Qed.

(** [c] is the strongest of the classes [l]. *)
Definition strongest (c : FailureClass) (l : list FailureClass) : Prop :=
  c ∈ l ∧ ∀ d, d ∈ l → failure_class_precedence c ≤ failure_class_precedence d.

Lemma strongest_unique c d l l' :
  strongest c l → strongest d l' → (∀ x, x ∈ l ↔ x ∈ l') → c = d.
Proof.
  intros [Hc Hcl] [Hd Hdl] Hl. apply precedence_inj.
  pose proof (Hcl d (proj2 (Hl d) Hd)). pose proof (Hdl c (proj1 (Hl c) Hc)). lia.
Qed.

Lemma strongest_join c l d l' :
  strongest c l → strongest d l' → strongest (stronger_failure_class c d) (l ++ l').
Proof.
  intros [Hc Hcl] [Hd Hdl].
  destruct (stronger_cases c d) as [[-> Hle]|[-> Hle]]; (split; [set_solver|]);
    intros x [Hx|Hx]%elem_of_app; try (by apply Hcl); try (by apply Hdl).
  - pose proof (Hdl x Hx). lia.
  - pose proof (Hcl x Hx). lia.
Qed.

Lemma strongest_single c : strongest c [c].
Proof. split; [set_solver|]. intros d ->%list_elem_of_singleton. lia. Qed.

Lemma foldl_strongest c l : strongest (foldl stronger_failure_class c l) (c :: l).
Proof.
  cut (∀ done, strongest c done → strongest (foldl stronger_failure_class c l) (done ++ l)).
  { intros H. apply (H [c]), strongest_single. }
  revert c. induction l as [|x l IH]; intros c done Hc; cbn [foldl]; [by rewrite app_nil_r|].
  change (x :: l) with ([x] ++ l). rewrite app_assoc. apply IH, strongest_join; [done|].
  apply strongest_single.
Qed.

Lemma reduce_strongest l :
  match reduce stronger_failure_class l with Some c => strongest c l | None => l = [] end.
Proof. destruct l as [|c l]; [done|]. apply foldl_strongest. Qed.

(** The classes a failed exit is judged by. *)
Definition observed_classes (stdout_classes : list FailureClass)
    (crash_evidence : option CrashEvidence) : list FailureClass :=
  filter (λ class, class ≠ StartupStalled) stdout_classes ++
  option_list (e ← crash_evidence; classify_crash_evidence e).

Definition judged (c : FailureClass) (l : list FailureClass) : Prop :=
  strongest c l ∨ (l = [] ∧ c = Unknown).

Lemma classify_judged classes code crash :
  code ≠ Some 0 →
  ∃ c, classify_launch_failure classes code crash = Some c ∧
    judged c (observed_classes classes crash).
Proof.
  intros Hcode. unfold classify_launch_failure, observed_classes. rewrite bool_decide_false by done.
  pose proof (reduce_strongest (filter (λ class, class ≠ StartupStalled) classes)) as Hs.
  destruct (reduce _ _) as [c|], (crash ≫= _) as [d|]; cbn [option_list] in *;
    eexists; (split; [reflexivity|]).
  - left. apply strongest_join; [done|apply strongest_single].
  - left. by rewrite app_nil_r.
  - rewrite Hs. left. apply strongest_single.
  - rewrite Hs. by right.
Qed.

Lemma judged_unique c d l l' : judged c l → judged d l' → (∀ x, x ∈ l ↔ x ∈ l') → c = d.
Proof.
  intros [Hc|[-> ->]] [Hd|[-> ->]] Hl; [by eapply strongest_unique| | |done].
  - destruct Hc as [Hc _]. by apply Hl, elem_of_nil in Hc.
  - destruct Hd as [Hd _]. by apply Hl, elem_of_nil in Hd.
Qed.

(** ** Evidence as a set *)

(** Two records of evidence say the same. *)
Definition same_evidence (e f : LaunchEvidence) : Prop :=
  boot_observed e = boot_observed f ∧ ∀ c, c ∈ failure_classes e ↔ c ∈ failure_classes f.

Lemma has_class_same c l l' : (∀ x, x ∈ l ↔ x ∈ l') → has_class c l = has_class c l'.
Proof. intros Hl. unfold has_class. by apply bool_decide_ext. Qed.

Lemma classify_same classes classes' code :
  (∀ c, c ∈ classes ↔ c ∈ classes') →
  classify_launch_failure classes code None = classify_launch_failure classes' code None.
Proof.
  intros Hl. destruct (decide (code = Some 0)) as [->|Hcode].
  { unfold classify_launch_failure. rewrite bool_decide_true by done.
    by rewrite (has_class_same _ _ _ Hl). }
  destruct (classify_judged classes code None Hcode) as (c & -> & Hc).
  destruct (classify_judged classes' code None Hcode) as (d & -> & Hd).
  f_equal. apply (judged_unique _ _ _ _ Hc Hd). intros x. unfold observed_classes.
  rewrite !elem_of_app, !list_elem_of_filter, Hl. done.
Qed.

Lemma classify_session_outcome_same facts e f :
  same_evidence e f → classify_session_outcome facts e = classify_session_outcome facts f.
Proof.
  intros [Hboot Hl]. unfold classify_session_outcome.
  by rewrite Hboot, (has_class_same _ _ _ Hl), (classify_same _ _ _ Hl).
Qed.

Section evidence.
Context `{Unicode}.

Lemma observe_failure_elem e class c :
  c ∈ failure_classes (observe_failure e class) ↔
  c ∈ failure_classes e ∨ (c = class ∧ class ≠ Unknown).
Proof.
  unfold observe_failure, has_class. repeat case_bool_decide; cbn [negb andb failure_classes];
    rewrite ?elem_of_app, ?list_elem_of_singleton; naive_solver.
Qed.

Lemma observe_failure_boot e class : boot_observed (observe_failure e class) = boot_observed e.
Proof. unfold observe_failure. by case_match. Qed.

Definition observe_lines : LaunchEvidence → list string → LaunchEvidence := foldl observe_line.

(** What the lines of a session say, in no order. *)
Lemma observe_lines_spec e lines :
  boot_observed (observe_lines e lines) =
    boot_observed e || existsb boot_marker_detected lines ∧
  ∀ c, c ∈ failure_classes (observe_lines e lines) ↔
    c ∈ failure_classes e ∨
    (c ≠ Unknown ∧ ∃ line, line ∈ lines ∧ classify_startup_failure_text line = c).
Proof.
  revert e. induction lines as [|line lines IH]; intros e; cbn [observe_lines foldl existsb].
  { split; [by rewrite orb_false_r|]. intros c. set_solver. }
  destruct (IH (observe_line e line)) as [Hb Hc]. unfold observe_lines in *. split.
  - rewrite Hb. unfold observe_line. rewrite observe_failure_boot. cbn [boot_observed].
    by rewrite orb_assoc.
  - intros c. rewrite Hc. unfold observe_line at 1. rewrite observe_failure_elem.
    cbn [failure_classes]. setoid_rewrite elem_of_cons. naive_solver.
Qed.

Lemma observe_lines_perm e lines lines' :
  lines ≡ₚ lines' → same_evidence (observe_lines e lines) (observe_lines e lines').
Proof.
  intros Hp. destruct (observe_lines_spec e lines) as [Hb Hc].
  destruct (observe_lines_spec e lines') as [Hb' Hc']. split.
  - rewrite Hb, Hb'. f_equal. apply eq_true_iff_eq. rewrite !existsb_exists.
    setoid_rewrite <-list_elem_of_In. by setoid_rewrite Hp.
  - intros c. rewrite Hc, Hc'. by setoid_rewrite Hp.
Qed.
End evidence.

Lemma has_class_reflect c l :
  match has_class c l with true => c ∈ l | false => c ∉ l end.
Proof. unfold has_class. by case_bool_decide. Qed.

Lemma graphics_at_zero classes :
  classify_launch_failure classes (Some 0) None = Some GraphicsUnavailable ↔
  GraphicsUnavailable ∈ classes.
Proof.
  unfold classify_launch_failure, has_class. rewrite bool_decide_true by done.
  case_bool_decide; naive_solver.
Qed.

Lemma clean_exit_iff facts evidence :
  boot_observed evidence && bool_decide (exit_code facts = Some 0) && negb (abnormal facts) = true ↔
  boot_observed evidence = true ∧ exit_code facts = Some 0 ∧ signal facts = None.
Proof.
  rewrite !andb_true_iff, bool_decide_eq_true. unfold abnormal. split.
  - intros [[? Hcode] Hab]. rewrite Hcode in Hab. by destruct (signal facts).
  - intros (? & Hcode & Hsig). by rewrite Hcode, Hsig.
Qed.

(** ** Properties *)

(** The outcome of a session does not depend on how the lines of its two
    output streams were interleaved: any order of the same lines gives the same
    kind, reason, failure class and summary. *)
Theorem outcome_order_independent `{Unicode} facts lines lines' :
  lines ≡ₚ lines' →
  classify_session_outcome facts (observe_lines evidence_default lines) =
  classify_session_outcome facts (observe_lines evidence_default lines').
Proof. intros Hp. by apply classify_session_outcome_same, observe_lines_perm. Qed.

(** A failed exit is given the strongest of the classes observed on the
    output and in the crash evidence, a stalled start aside, and [Unknown] when
    there is none: nothing observed is stronger than what is reported. *)
Theorem strongest_class_reported classes code crash :
  code ≠ Some 0 →
  ∃ c, classify_launch_failure classes code crash = Some c ∧
    (c ∈ observed_classes classes crash ∨
     (observed_classes classes crash = [] ∧ c = Unknown)) ∧
    ∀ d, d ∈ observed_classes classes crash →
      failure_class_precedence c ≤ failure_class_precedence d.
Proof.
  intros Hcode. destruct (classify_judged classes code crash Hcode) as (c & -> & Hc).
  exists c. split; [done|]. destruct Hc as [[Hin Hle]|[-> ->]]; split; auto.
  by intros d ?%elem_of_nil.
Qed.

(** C28: A session has an outcome exactly when its process exited, its process
    tree settled and its output was drained; only a failure carries a class,
    and the summary is the one of the reason.  The outcome is clean exactly
    when the game booted and exited with code zero and no signal, unasked, and
    neither a stalled startup nor unavailable graphics was seen - other classes
    of failure that its output suggested do not count against such an exit; a
    stop asked for is reported as one exactly when startup had not stalled. *)
Theorem session_outcome_sound facts evidence :
  (is_Some (classify_session_outcome facts evidence) ↔
     process_exited facts = true ∧ tree_settled facts = true ∧ outputs_drained facts = true) ∧
  ∀ o, classify_session_outcome facts evidence = Some o →
    summary o = outcome_summary o ∧
    (is_Some (failure_class o) → kind o = Failed) ∧
    (kind o = Stopped ↔
       stop_requested facts = true ∧ StartupStalled ∉ failure_classes evidence) ∧
    (kind o = Clean ↔
       boot_observed evidence = true ∧ exit_code facts = Some 0 ∧ signal facts = None ∧
       stop_requested facts = false ∧ StartupStalled ∉ failure_classes evidence ∧
       GraphicsUnavailable ∉ failure_classes evidence).
Proof.
  unfold classify_session_outcome. split.
  { destruct (process_exited facts), (tree_settled facts), (outputs_drained facts);
      cbn [negb orb]; split; try (by intros [? [=]]); try (by intros (? & ? & ?)); try done.
    intros _. case_match. by eexists. }
  intros o. destruct (_ || negb (outputs_drained facts)); [done|].
  pose proof (graphics_at_zero (failure_classes evidence)) as Hgraphics.
  set (class := classify_launch_failure _ _ _).
  pose proof (has_class_reflect StartupStalled (failure_classes evidence)) as Hstalled.
  destruct (has_class StartupStalled _).
  { intros [= <-]. split_and!; cbn; naive_solver. }
  destruct (stop_requested facts) eqn:Hstop.
  { intros [= <-]. split_and!; cbn; naive_solver. }
  destruct (bool_decide (class = Some GraphicsUnavailable)) eqn:Hg;
    [apply bool_decide_eq_true in Hg|apply bool_decide_eq_false in Hg].
  { intros [= <-]. split_and!; cbn; try naive_solver. split; [done|].
    intros (_ & Hcode & _ & _ & _ & Hno). unfold class in Hg. rewrite Hcode in Hg.
    destruct (Hno (proj1 Hgraphics Hg)). }
  destruct (_ && _ && negb (abnormal facts)) eqn:Hclean.
  - apply clean_exit_iff in Hclean as (Hboot & Hcode & Hsignal).
    intros [= <-]. split_and!; cbn; try naive_solver. split; [|done]. intros _.
    split_and!; try done. intros Hin. apply Hg. unfold class. rewrite Hcode. by apply Hgraphics.
  - intros Ho.
    assert ((kind o = Failed ∨ (kind o = KindUnknown ∧ failure_class o = None)) ∧
      summary o = outcome_summary o) as [Hkind Hsum].
    { revert Ho. destruct (boot_observed evidence && abnormal facts); [intros [= <-]; auto|].
      destruct (negb (boot_observed evidence) && _); [intros [= <-]; auto|].
      destruct (abnormal facts); intros [= <-]; auto. }
    split_and!; [done| | |].
    + destruct Hkind as [?|[? ->]]; [done|]. by intros [? ?].
    + destruct Hkind as [->|[-> _]]; naive_solver.
    + split; [destruct Hkind as [->|[-> _]]; done|].
      intros (Hboot & Hcode & Hsignal & _). exfalso.
      apply not_true_iff_false in Hclean. by apply Hclean, clean_exit_iff.
Qed.

(** ** Witnesses *)

Module OutcomeDemo.
#[local] Existing Instance ascii_unicode.

(** A session that booted, ran out of memory and was killed. *)
Definition killed : SessionExitFacts := {|
  process_exited := true; exit_code := Some 137; signal := None; stop_requested := false;
  was_running := true; tree_settled := true; outputs_drained := true;
|}.
Definition killed_lines : list string := [
  "Setting user: Player"; "Could not locate: ClassNotFoundException: a.B";
  "java.lang.OutOfMemoryError: Java heap space"].

Lemma outcome_order_independent_witness :
  classify_session_outcome killed (observe_lines evidence_default (reverse killed_lines)) =
  Some {| kind := Failed; reason := CrashedAfterBoot; failure_class := Some OutOfMemory;
          summary := "The game exited unexpectedly after startup." |}.
Proof.
  rewrite (outcome_order_independent killed (reverse killed_lines) killed_lines).
  - vm_compute. reflexivity.
  - apply list.reverse_Permutation.
Defined.

Lemma strongest_class_reported_witness :
  classify_launch_failure [ClasspathModuleConflict; StartupStalled; OutOfMemory] (Some 1) None
  = Some OutOfMemory.
Proof.
  destruct (strongest_class_reported [ClasspathModuleConflict; StartupStalled; OutOfMemory]
    (Some 1) None ltac:(discriminate)) as (c & Hc & _). rewrite Hc. revert Hc.
  vm_compute. congruence.
Defined.

Lemma session_outcome_sound_witness :
  ∃ o, classify_session_outcome killed (observe_lines evidence_default killed_lines) = Some o ∧
    summary o = outcome_summary o ∧ kind o ≠ Clean.
Proof.
  destruct (session_outcome_sound killed (observe_lines evidence_default killed_lines))
    as [[_ Hsome] Hall].
  destruct Hsome as [o Ho]; [split_and!; reflexivity|].
  destruct (Hall o Ho) as (Hsum & _ & _ & Hclean). exists o. split_and!; [done..|].
  intros (_ & Hcode & _)%Hclean. discriminate.
Defined.
End OutcomeDemo.
