(* ===== verification/LaunchLogs.v ===== *)
(** * The output of a session ([core/app/src/launch/logs.rs])

    The collector of a session's output: chunks of bytes from two streams are
    cut into lines, redacted, numbered and kept in a bounded history, and the
    evidence of [LaunchOutcome] is read from every complete line.  Bytes are
    [string]s.  The numbers of lines are [u64]; running out of them panics,
    which is [None]. *)

From S2P Require Import Prelude RustStr RustText LaunchOutcome.

Open Scope string_scope.
Open Scope list_scope.
Open Scope Z_scope.

(** ** Sensitive text *)

Fixpoint contains_windows_drive_path (value : string) : bool :=
  match value with
  | String a ((String b (String c _)) as rest) =>
      (is_alpha a && Ascii.eqb b ":" && (Ascii.eqb c "\" || Ascii.eqb c "/")) ||
      contains_windows_drive_path rest
  | _ => false
  end.

Definition token_char (ch : string) : bool := char_is is_alphanumeric ch || char_in ["-"; "_"] ch.

Definition looks_like_jwt (value : string) : bool :=
  existsb (λ token,
    let token := trim_matches (λ ch, negb (token_char ch || String.eqb ch ".")) token in
    let parts := split_on "." token in
    (3 <=? length parts)%nat &&
    forallb (λ part, (12 <=? str_len part) && forallb token_char (chars part)) (take 3 parts))
    (split_whitespace value).

Definition secret_like_run (part : string) : bool :=
  (48 <=? str_len part) && existsb (char_is is_alpha) (chars part) &&
  existsb (char_is is_digit) (chars part).

Definition has_long_secret_like_run (value : string) : bool :=
  existsb secret_like_run (split_by (λ ch, negb (token_char ch)) value).

Definition log_text_looks_sensitive (value : string) : bool :=
  let lower := to_ascii_lowercase value in
  contains_any ["appdata"; "/private/"; "://"; "setting user:"; "uuid of player"; "/home/";
    "/users/"; "/var/"; "/tmp/"; "/opt/"; "/usr/"; "/etc/"; "/library/"; "/applications/"; "/mnt/";
    "/volumes/"; "~/"; "\users\"; "\appdata\"] lower ||
  contains_windows_drive_path value ||
  contains_any [".minecraft"; ".jar"; ".exe"; ".dll"; ".dylib"; ".so"] lower ||
  contains_any ["-xmx"; "-xms"; "-xx:"] lower || starts_with "-d" lower ||
  contains_any [" -d"; "--access"; "--username"; "--uuid"; "--xuid"; "--user_properties"; "--";
    "-x"; "--classpath"; " -cp "; " -classpath "] lower ||
  contains_any ["token"; "secret"; "password"; "provider_payload"; "account_id"; "username=";
    "xuid="; "authorization"; "credential"; "bearer "] lower ||
  (contains "@" value && contains "." value) ||
  looks_like_jwt value || has_long_secret_like_run value.

(** ** Redaction *)

Definition MAX_RAW_LINE_BYTES : Z := 16 * 1024.
Definition MAX_LOG_LINE_CHARS : nat := 1000.
Definition MAX_LOG_ENTRIES : Z := 2000.
Definition MAX_LOG_HISTORY_BYTES : Z := 512 * 1024.
Definition MAX_OUTPUT_CHUNK_BYTES : Z := 8 * 1024.
Definition REDACTED_LINE : string := "[Private launch output redacted]".
Definition OVERSIZED_LINE : string := "[Oversized launch output omitted]".

Record Redactor := { secrets : list string }.

Definition redactor_new (secrets : list string) : Redactor :=
  {| secrets := filter (λ value, value ≠ "") secrets |}.

Definition contains_secret (r : Redactor) (value : string) : bool :=
  contains_any (secrets r) value.

Definition forbidden_control (ch : string) : bool :=
  is_control ch && negb (char_in [char1 carriage_return; char1 "009"] ch).

(** One space between words. *)
Definition squeeze (value : string) : string := str_join " " (split_whitespace value).

Definition redact_line (r : Redactor) (value : string) : string :=
  if MAX_RAW_LINE_BYTES <? str_len value then OVERSIZED_LINE
  else if contains_secret r value || existsb forbidden_control (chars value) ||
    log_text_looks_sensitive value
  then REDACTED_LINE
  else take_chars MAX_LOG_LINE_CHARS (squeeze value).

Definition redact_bytes (r : Redactor) (value : string) : string :=
  if valid_utf8 value then redact_line r value else REDACTED_LINE.

(** ** The collector *)

Inductive LogStream := Stdout | Stderr.
#[global] Instance log_stream_eq_dec : EqDecision LogStream.
Proof. solve_decision. Defined.

Record LogEntry := {
  sequence : Z;
  entry_source : LogStream;
  text : string;
  entry_truncated : bool;
}.
#[global] Instance log_entry_eq_dec : EqDecision LogEntry.
Proof. solve_decision. Defined.

Record PendingLine := {
  pending_bytes : string;
  discarding : bool;
  finished : bool;
}.

Definition pending_default : PendingLine :=
  {| pending_bytes := ""; discarding := false; finished := false |}.

Record LogCollector := {
  redactor : Redactor;
  out_pending : PendingLine;
  err_pending : PendingLine;
  history : list LogEntry;
  history_bytes : Z;
  next_sequence : Z;
  dropped_entries : Z;
  evidence : LaunchEvidence;
}.

Definition collector_new (secrets : list string) : LogCollector := {|
  redactor := redactor_new secrets;
  out_pending := pending_default; err_pending := pending_default;
  history := []; history_bytes := 0; next_sequence := 1; dropped_entries := 0;
  evidence := evidence_default;
|}.

Definition pending (c : LogCollector) (stream : LogStream) : PendingLine :=
  match stream with Stdout => out_pending c | Stderr => err_pending c end.

Definition with_pending (c : LogCollector) (stream : LogStream) (p : PendingLine)
    : LogCollector := {|
  redactor := redactor c;
  out_pending := match stream with Stdout => p | Stderr => out_pending c end;
  err_pending := match stream with Stdout => err_pending c | Stderr => p end;
  history := history c; history_bytes := history_bytes c; next_sequence := next_sequence c;
  dropped_entries := dropped_entries c; evidence := evidence c;
|}.

Definition with_evidence (c : LogCollector) (e : LaunchEvidence) : LogCollector := {|
  redactor := redactor c; out_pending := out_pending c; err_pending := err_pending c;
  history := history c; history_bytes := history_bytes c; next_sequence := next_sequence c;
  dropped_entries := dropped_entries c; evidence := e;
|}.

Definition outputs_drained (c : LogCollector) : bool :=
  finished (out_pending c) && finished (err_pending c).

Definition clear_secrets (c : LogCollector) : bool * LogCollector :=
  if negb (outputs_drained c) then (false, c)
  else (true, {|
    redactor := {| secrets := [] |}; out_pending := out_pending c; err_pending := err_pending c;
    history := history c; history_bytes := history_bytes c; next_sequence := next_sequence c;
    dropped_entries := dropped_entries c; evidence := evidence c |}).

Definition entries (c : LogCollector) : list LogEntry := history c.
Definition has_entries (c : LogCollector) : bool :=
  negb (match history c with [] => true | _ => false end) || negb (dropped_entries c =? 0).

(** The loop that pops the front of the history while it exceeds a limit.  An
    empty history is within them ([history_bytes] is then zero). *)
Fixpoint trim_history (history : list LogEntry) (bytes dropped : Z) : list LogEntry * Z * Z :=
  match history with
  | [] => ([], bytes, dropped)
  | removed :: rest =>
      if (MAX_LOG_ENTRIES <? Z.of_nat (length history)) || (MAX_LOG_HISTORY_BYTES <? bytes)
      then trim_history rest (bytes - str_len (text removed)) (dropped + 1)
      else (history, bytes, dropped)
  end.

Definition publish (c : LogCollector) (source : LogStream) (text : string) (truncated : bool)
    : option (LogEntry * LogCollector) :=
  let entry := {| sequence := next_sequence c; entry_source := source; text := text;
                  entry_truncated := truncated |} in
  if u64_max <? next_sequence c + 1 then None
  else
    let '(history, bytes, dropped) :=
      trim_history (history c ++ [entry]) (history_bytes c + str_len text) (dropped_entries c) in
    Some (entry, {|
      redactor := redactor c; out_pending := out_pending c; err_pending := err_pending c;
      history := history; history_bytes := bytes; next_sequence := next_sequence c + 1;
      dropped_entries := dropped; evidence := evidence c |}).

Section unicode.
Context `{Unicode}.

(** The evidence of a line whose bytes are a text. *)
Definition observe_bytes (c : LogCollector) (bytes : string) : LogCollector :=
  if valid_utf8 bytes then with_evidence c (observe_line (evidence c) bytes) else c.

Definition complete_line (c : LogCollector) (stream : LogStream)
    : option (option LogEntry * LogCollector) :=
  let p := pending c stream in
  if discarding p then
    Some (None, with_pending c stream
      {| pending_bytes := ""; discarding := false; finished := finished p |})
  else if is_empty (pending_bytes p) then Some (None, c)
  else
    let bytes := pending_bytes p in
    let c := with_pending c stream
      {| pending_bytes := ""; discarding := discarding p; finished := finished p |} in
    let c := observe_bytes c bytes in
    let text := redact_bytes (redactor c) bytes in
    let truncated := valid_utf8 bytes && (MAX_LOG_LINE_CHARS <? chars_count bytes)%nat in
    '(entry, c) ← publish c stream text truncated;
    Some (Some entry, c).

Definition push_byte (c : LogCollector) (stream : LogStream) (byte : ascii)
    : option (list LogEntry * LogCollector) :=
  if Ascii.eqb byte newline then
    '(entry, c) ← complete_line c stream; Some (option_list entry, c)
  else
    let p := pending c stream in
    if discarding p then Some ([], c)
    else if str_len (pending_bytes p) =? MAX_RAW_LINE_BYTES then
      let c := with_pending c stream
        {| pending_bytes := ""; discarding := true; finished := finished p |} in
      let c := observe_bytes c (pending_bytes p) in
      '(entry, c) ← publish c stream OVERSIZED_LINE true;
      Some ([entry], c)
    else
      Some ([], with_pending c stream
        {| pending_bytes := pending_bytes p +:+ char1 byte; discarding := discarding p;
           finished := finished p |}).

Fixpoint push_bytes (c : LogCollector) (stream : LogStream) (bytes : string)
    : option (list LogEntry * LogCollector) :=
  match bytes with
  | "" => Some ([], c)
  | String byte bytes =>
      '(emitted, c) ← push_byte c stream byte;
      '(more, c) ← push_bytes c stream bytes;
      Some (emitted ++ more, c)
  end.

Definition push (c : LogCollector) (stream : LogStream) (bytes : string)
    : option (list LogEntry * LogCollector) :=
  if finished (pending c stream) then Some ([], c)
  else if MAX_OUTPUT_CHUNK_BYTES <? str_len bytes then
    let c := with_pending c stream
      {| pending_bytes := ""; discarding := negb (ends_with (char1 newline) bytes);
         finished := finished (pending c stream) |} in
    '(entry, c) ← publish c stream OVERSIZED_LINE true;
    Some ([entry], c)
  else push_bytes c stream bytes.

Definition finish_stream (c : LogCollector) (stream : LogStream)
    : option (list LogEntry * LogCollector) :=
  if finished (pending c stream) then Some ([], c)
  else
    '(entry, c) ← complete_line c stream;
    let p := pending c stream in
    Some (option_list entry, with_pending c stream
      {| pending_bytes := pending_bytes p; discarding := discarding p; finished := true |}).
End unicode.
