(* ===== verification/LaunchRedact.v ===== *)
(** * What redaction guarantees

    Laws of [LaunchLogs.redact_line]: a private text without a space never
    appears in a redacted line, and redacting twice settles a line, once does
    not.  Texts are taken apart into characters and words. *)

From S2P Require Import Prelude RustStr RustText LaunchLogs.

Open Scope string_scope.
Open Scope list_scope.
Open Scope Z_scope.

(** ** Words *)

(** Lists that are the characters of their concatenation. *)
Definition good_chars (l : list string) : Prop := Forall (λ ch, chunk_ok ch ∧ boundary ch) l.

Lemma chars_concat_good l : good_chars l → chars (str_concat l) = l.
Proof.
  intros Hl. apply chars_str_concat; [by eapply list.Forall_impl; [exact Hl|intros ? []]|].
  destruct l as [|c l]; simpl; [done|]. apply list.Forall_cons in Hl as [_ Hl].
  by eapply list.Forall_impl; [exact Hl|intros ? []].
Qed.

Lemma good_chars_chars s : boundary s → good_chars (chars s).
Proof.
  intros Hs. destruct (chars_ok s) as (Hc & Hb & Hh). unfold good_chars.
  destruct (chars s) as [|c l]; [constructor|]. apply list.Forall_cons in Hc as [Hc Hl].
  constructor; [split; [done|]; unfold boundary; by rewrite (Hh c l)|].
  simpl in Hb. rewrite list.Forall_forall in Hb, Hl |- *. auto.
Qed.

(** Words with one space between. *)
Fixpoint spaced (rs : list (list string)) : list string :=
  match rs with
  | [] => []
  | [r] => r
  | r :: rs => r ++ " " :: spaced rs
  end.

Definition words_ok (rs : list (list string)) : Prop :=
  Forall (λ r, r ≠ [] ∧ Forall (λ c, is_whitespace c = false) r) rs.

Lemma spaced_cons r r' rs : spaced (r :: r' :: rs) = r ++ " " :: spaced (r' :: rs).
Proof. done. Qed.

Lemma join_spaced rs : str_join " " (str_concat <$> rs) = str_concat (spaced rs).
Proof.
  induction rs as [|r rs IH]; [done|]. destruct rs as [|r' rs]; [done|].
  rewrite spaced_cons, str_concat_app. cbn [str_concat]. rewrite <-IH. done.
Qed.

Lemma runs_ok p l : Forall (λ r, r ≠ [] ∧ Forall (λ c, p c = false) r) (runs p l).
Proof.
  induction l as [|c l IH]; [constructor|]. cbn [runs]. destruct (p c) eqn:Ec; [done|].
  destruct l as [|d l]; [by repeat constructor|].
  destruct (p d); [by repeat constructor|].
  destruct (runs p (d :: l)) as [|r rs]; [by repeat constructor|].
  apply list.Forall_cons in IH as [[_ Hr] Hrs]. constructor; [|done]. split; [done|by constructor].
Qed.

Lemma runs_elem p l r : r ∈ runs p l → ∃ a b, l = a ++ r ++ b.
Proof.
  cut (∃ a, match runs p l with
            | [] => True
            | r0 :: rs => l = a ++ r0 ++ drop (length (a ++ r0)) l ∧
                (match l with c :: _ => p c = false → a = [] | [] => True end) ∧
                ∀ r, r ∈ rs → ∃ a' b', l = a' ++ r ++ b'
            end).
  { intros [a Ha] Hr. destruct (runs p l) as [|r0 rs]; [by apply elem_of_nil in Hr|].
    destruct Ha as (E & _ & Hrs). apply elem_of_cons in Hr as [->|Hr]; [eauto|by apply Hrs]. }
  induction l as [|c l [a IH]]; [by exists []|]. cbn [runs]. destruct (p c) eqn:Ec.
  { exists (c :: a). destruct (runs p l) as [|r0 rs]; [done|]. destruct IH as (E & _ & Hrs).
    split_and!; [simpl; by rewrite <-E|congruence|].
    intros r' (a' & b' & ->)%Hrs. by exists (c :: a'), b'. }
  exists []. destruct l as [|d l]; [split_and!; try done; by intros ? ?%elem_of_nil|].
  destruct (p d) eqn:Ed.
  - split_and!; [done..|]. intros r' Hr'. destruct (runs p (d :: l)) as [|r0 rs];
      [by apply elem_of_nil in Hr'|]. destruct IH as (E & _ & Hrs).
    apply elem_of_cons in Hr' as [->|(a' & b' & ->)%Hrs]; [|by exists (c :: a'), b'].
    eexists (c :: a), _. simpl. by rewrite <-E.
  - destruct (runs p (d :: l)) as [|r0 rs];
      [split_and!; try done; by intros ? ?%elem_of_nil|].
    destruct IH as (E & Ha & Hrs). rewrite (Ha eq_refl) in E.
    split_and!; [simpl in *; by rewrite <-E|done|].
    intros r' (a' & b' & ->)%Hrs. by exists (c :: a'), b'.
Qed.

Lemma runs_spaced rs : words_ok rs → runs is_whitespace (spaced rs) = rs.
Proof.
  induction 1 as [|r rs [Hne Hr] Hrs IH]; [done|].
  destruct rs as [|r' rs]; [by apply runs_word|].
  rewrite spaced_cons, runs_app_sep by done. by rewrite IH, runs_word.
Qed.

(** A prefix of spaced words is spaced words, with a space at the end when it
    stops there. *)
Lemma take_spaced n rs :
  words_ok rs →
  ∃ rs' b, take n (spaced rs) = spaced rs' ++ b ∧ words_ok rs' ∧
    (b = [] ∨ (b = [" "] ∧ rs' ≠ [])).
Proof.
  intros Hrs. revert n. induction Hrs as [|r rs [Hne Hr] Hrs IH]; intros n.
  { exists [], []. cbn [spaced]. rewrite list.take_nil. split_and!; [done|constructor|by left]. }
  destruct (decide (n ≤ length r)%nat) as [Hn|Hn].
  { exists (if decide (n = 0)%nat then [] else [take n r]), [].
    assert (take n (spaced (r :: rs)) = take n r) as ->.
    { destruct rs; [done|]. by rewrite spaced_cons, list.take_app_le. }
    rewrite app_nil_r. split_and!; [|case_decide; constructor|by left].
    - case_decide as E; [by rewrite E|done].
    - split; [|by apply Forall_take]. intros E. apply (f_equal length) in E.
      rewrite length_take in E. simpl in E. lia.
    - constructor. }
  destruct rs as [|r' rs].
  { exists [r], []. rewrite app_nil_r. cbn [spaced]. rewrite list.take_ge by lia.
    split_and!; [done|by repeat constructor|by left]. }
  destruct (IH (n - length r - 1)%nat) as (rs' & b & E & Hrs' & Hb).
  exists (r :: rs'), (if decide (rs' = []) then [" "] else b).
  rewrite spaced_cons, list.take_app, list.take_ge by lia.
  destruct (n - length r)%nat as [|m] eqn:Em; [lia|]. cbn [take].
  replace (S m - 1)%nat with m in E by lia. rewrite E.
  split_and!; [|by constructor|].
  - case_decide as Ed; [subst; destruct Hb as [->|[_ ?]]; done|].
    destruct rs'; [done|]. rewrite spaced_cons. by rewrite <-app_assoc.
  - case_decide; [by right|]. destruct Hb as [->|[-> _]]; auto.
Qed.

(** ** Squeezed lines *)

Lemma squeeze_spaced s : squeeze s = str_concat (spaced (runs is_whitespace (chars s))).
Proof. apply join_spaced. Qed.

Lemma Forall_spaced (P : string → Prop) rs : P " " → Forall (Forall P) rs → Forall P (spaced rs).
Proof.
  intros Hsp. induction 1 as [|r rs Hr Hrs IH]; [constructor|].
  destruct rs; [done|]. rewrite spaced_cons. apply Forall_app. split; [done|]. by constructor.
Qed.

Lemma good_runs l : good_chars l → Forall good_chars (runs is_whitespace l).
Proof.
  intros Hl. apply list.Forall_forall. intros r (a & b & E)%runs_elem. subst l.
  apply Forall_app in Hl as [_ Hl]. by apply Forall_app in Hl as [Hl _].
Qed.

Lemma good_spaced rs : Forall good_chars rs → good_chars (spaced rs).
Proof. apply Forall_spaced. by split. Qed.

(** What a line that was shown looks like. *)
Lemma shown_words s :
  boundary s →
  ∃ rs b, chars (take_chars MAX_LOG_LINE_CHARS (squeeze s)) = spaced rs ++ b ∧
    words_ok rs ∧ Forall good_chars rs ∧ (b = [] ∨ b = [" "]) ∧
    (length (spaced rs) ≤ MAX_LOG_LINE_CHARS)%nat.
Proof.
  intros Hs. unfold take_chars. rewrite squeeze_spaced.
  pose proof (good_runs _ (good_chars_chars s Hs)) as Hg. apply good_spaced in Hg.
  rewrite (chars_concat_good (spaced _)) by done.
  rewrite chars_concat_good by (by apply Forall_take).
  destruct (take_spaced MAX_LOG_LINE_CHARS (runs is_whitespace (chars s))) as (rs & b & E & Hrs & Hb).
  { apply runs_ok. }
  exists rs, b. split_and!; [done..| |naive_solver|].
  - assert (good_chars (spaced rs)) as Hgs.
    { assert (good_chars (spaced rs ++ b)) as Hgt by (rewrite <-E; by apply Forall_take).
      by apply Forall_app in Hgt as [? _]. }
    clear -Hgs. induction rs as [|r rs IH]; [constructor|]. destruct rs as [|r' rs].
    { by repeat constructor. }
    rewrite spaced_cons in Hgs. apply Forall_app in Hgs as [Hr Hgs].
    apply list.Forall_cons in Hgs as [_ Hgs]. constructor; [done|by apply IH].
  - apply (f_equal length) in E. rewrite length_take, length_app in E. lia.
Qed.

Lemma squeeze_words rs :
  words_ok rs → Forall good_chars rs →
  squeeze (str_concat (spaced rs)) = str_concat (spaced rs).
Proof.
  intros Hrs Hg. rewrite squeeze_spaced, chars_concat_good by (by apply good_spaced). by rewrite runs_spaced.
Qed.

(** ** A trailing space *)

Lemma contains_any_app needles a s : contains_any needles s = true → contains_any needles (s +:+ a) = true.
Proof.
  unfold contains_any. rewrite !existsb_exists. intros (n & Hn & Hs). exists n.
  split; [done|by apply contains_app_r].
Qed.

Lemma windows_path_app s a :
  contains_windows_drive_path s = true → contains_windows_drive_path (s +:+ a) = true.
Proof.
  induction s as [|x s IH]; [done|]. destruct s as [|y s]; [done|]. destruct s as [|z s]; [done|].
  intros H. apply orb_true_iff in H as [H|H]; [by apply orb_true_iff; left|].
  apply orb_true_iff. right. by apply IH.
Qed.

Lemma starts_with_app p s a : starts_with p s = true → starts_with p (s +:+ a) = true.
Proof. rewrite !starts_with_spec. intros [r ->]. exists (r +:+ a). by rewrite str_app_assoc. Qed.

Lemma split_whitespace_space s : split_whitespace (s +:+ " ") = split_whitespace s.
Proof.
  unfold split_whitespace. rewrite chars_app by done. rewrite runs_skip_r; [done|].
  by repeat constructor.
Qed.

Lemma split_chars_ne p l : split_chars p l ≠ [].
Proof. destruct l as [|c l]; simpl; [done|]. destruct (p c); [done|]. by destruct (split_chars p l). Qed.

Lemma split_chars_snoc p l c : p c = true → split_chars p (l ++ [c]) = split_chars p l ++ [[]].
Proof.
  intros Hc. induction l as [|d l IH]; simpl; [by rewrite Hc|].
  destruct (p d); [by rewrite IH|]. rewrite IH.
  pose proof (split_chars_ne p l). by destruct (split_chars p l).
Qed.

Lemma orb_imp (a b a' b' : bool) :
  (a = true → a' = true) → (b = true → b' = true) → a || b = true → a' || b' = true.
Proof. destruct a, b, a', b'; naive_solver. Qed.

Lemma sensitive_space s :
  log_text_looks_sensitive s = true → log_text_looks_sensitive (s +:+ " ") = true.
Proof.
  unfold log_text_looks_sensitive. rewrite to_ascii_lowercase_app.
  repeat first [simple apply contains_any_app | simple apply windows_path_app |
    simple apply starts_with_app | simple apply orb_imp].
  - intros [? ?]%andb_true_iff. apply andb_true_iff. split; by apply contains_app_r.
  - unfold looks_like_jwt. by rewrite split_whitespace_space.
  - unfold has_long_secret_like_run, split_by. rewrite chars_app by done.
    change (chars " ") with [" "]. rewrite split_chars_snoc by done.
    rewrite fmap_app, existsb_app, orb_true_iff. by left.
Qed.

(** ** Lengths *)

Lemma spaced_runs_length l :
  Forall chunk_ok l →
  (String.length (str_concat (spaced (runs is_whitespace l))) +
    match l with c :: _ => if is_whitespace c then 1 else 0 | [] => 0 end
   ≤ String.length (str_concat l))%nat.
Proof.
  induction 1 as [|c l Hc Hl IH]; [done|]. cbn [runs].
  assert (1 ≤ String.length c)%nat as Hc1 by (destruct c; [done|simpl; lia]).
  cbn [str_concat]. rewrite str_app_length.
  destruct (is_whitespace c) eqn:Ec; [lia|].
  destruct l as [|d l]; [simpl; rewrite !str_app_length; simpl; lia|].
  destruct (is_whitespace d) eqn:Ed.
  - destruct (runs is_whitespace (d :: l)) as [|r rs].
    { cbn [spaced str_concat]. rewrite str_app_length. simpl. lia. }
    rewrite spaced_cons. cbn [app str_concat] in *. rewrite ?Ed in IH.
    rewrite !str_app_length in *. change (String.length " ") with 1%nat. lia.
  - destruct (runs is_whitespace (d :: l)) as [|r rs].
    { cbn [spaced str_concat]. rewrite str_app_length. simpl. lia. }
    assert (spaced ((c :: r) :: rs) = c :: spaced (r :: rs)) as -> by (by destruct rs).
    cbn [str_concat] in *. rewrite !str_app_length in *. lia.
Qed.

Lemma take_chars_prefix n s : ∃ r, s = take_chars n s +:+ r.
Proof.
  exists (str_concat (drop n (chars s))). unfold take_chars.
  by rewrite <-str_concat_app, take_drop, str_concat_chars.
Qed.

Lemma shown_length n s : str_len (take_chars n (squeeze s)) ≤ str_len s.
Proof.
  destruct (take_chars_prefix n (squeeze s)) as [r E].
  destruct (chars_ok s) as (Hc & _ & _). pose proof (spaced_runs_length _ Hc) as Hl.
  rewrite <-squeeze_spaced, str_concat_chars in Hl.
  apply (f_equal String.length) in E. rewrite str_app_length in E. unfold str_len. lia.
Qed.

(** ** Redaction *)

(** A line is shown squeezed and cut, unless it is too long or refused. *)
Lemma redact_cases r v :
  redact_line r v = REDACTED_LINE ∨
  (redact_line r v = OVERSIZED_LINE ∧ MAX_RAW_LINE_BYTES < str_len v) ∨
  (contains_secret r v = false ∧ existsb forbidden_control (chars v) = false ∧
   log_text_looks_sensitive v = false ∧ str_len v ≤ MAX_RAW_LINE_BYTES ∧
   redact_line r v = take_chars MAX_LOG_LINE_CHARS (squeeze v)).
Proof.
  unfold redact_line. destruct (Z.ltb_spec MAX_RAW_LINE_BYTES (str_len v)); [auto|].
  destruct (_ || _ || _) eqn:E; [auto|]. right. right.
  apply orb_false_iff in E as [[? ?]%orb_false_iff ?]. auto.
Qed.

Lemma redact_redacted r : redact_line r REDACTED_LINE = REDACTED_LINE.
Proof.
  unfold redact_line. replace (MAX_RAW_LINE_BYTES <? str_len REDACTED_LINE) with false by done.
  by destruct (contains_secret r REDACTED_LINE).
Qed.

Lemma redact_oversized r :
  redact_line r OVERSIZED_LINE =
  if contains_secret r OVERSIZED_LINE then REDACTED_LINE else OVERSIZED_LINE.
Proof.
  unfold redact_line. replace (MAX_RAW_LINE_BYTES <? str_len OVERSIZED_LINE) with false by done.
  by destruct (contains_secret r OVERSIZED_LINE).
Qed.

Lemma contains_secret_sub r r' v :
  secrets r ⊆ secrets r' → contains_secret r' v = false → contains_secret r v = false.
Proof.
  unfold contains_secret, contains_any. intros Hsub Hv. apply not_true_iff_false.
  rewrite existsb_exists. intros (s & Hin & Hs). apply not_true_iff_false in Hv. apply Hv.
  apply existsb_exists. exists s. split; [|done]. apply list_elem_of_In, Hsub. by apply list_elem_of_In.
Qed.

(** Words that could be shown once, with a space after them or not, are shown
    as they are. *)
Lemma redact_words r rs b :
  words_ok rs → Forall good_chars rs → (b = [] ∨ b = [" "]) →
  (length (spaced rs) ≤ MAX_LOG_LINE_CHARS)%nat →
  let once := str_concat (spaced rs) +:+ str_concat b in
  contains_secret r once = false → existsb forbidden_control (chars once) = false →
  log_text_looks_sensitive once = false → str_len once ≤ MAX_RAW_LINE_BYTES →
  redact_line r (str_concat (spaced rs)) = str_concat (spaced rs).
Proof.
  intros Hrs Hg Hb Hlen once Hsecret Hcontrol Hsens Hsize.
  assert (chars once = spaced rs ++ b) as Hchars.
  { unfold once. rewrite <-str_concat_app. apply chars_concat_good. apply Forall_app.
    split; [by apply good_spaced|]. destruct Hb as [->| ->]; repeat constructor. }
  rewrite Hchars, existsb_app in Hcontrol. apply orb_false_iff in Hcontrol as [Hcontrol _].
  unfold once, str_len in Hsize. rewrite str_app_length in Hsize.
  unfold redact_line. rewrite (proj2 (Z.ltb_ge _ _)) by (unfold str_len; lia).
  rewrite chars_concat_good, Hcontrol by (by apply good_spaced).
  replace (contains_secret r (str_concat (spaced rs))) with false.
  2:{ symmetry. apply not_true_iff_false. intros Hin. apply not_true_iff_false in Hsecret.
      by apply Hsecret, contains_any_app. }
  replace (log_text_looks_sensitive (str_concat (spaced rs))) with false.
  2:{ symmetry. apply not_true_iff_false. intros Hin. apply not_true_iff_false in Hsens.
      apply Hsens. unfold once. destruct Hb as [->| ->]; simpl.
      - by rewrite str_app_nil_r.
      - by apply sensitive_space. }
  cbn [orb]. rewrite squeeze_words by done. unfold take_chars.
  rewrite chars_concat_good, list.take_ge by (done || by apply good_spaced). done.
Qed.

(** A second pass settles the line for any later pass that knows no more. *)
Lemma redact_settled a b c v :
  boundary v → secrets c ⊆ secrets b →
  let twice := redact_line b (redact_line a v) in redact_line c twice = twice.
Proof.
  intros Hv Hsub. cbn zeta.
  destruct (redact_cases a v) as [->|[[-> _]|(_ & _ & _ & Hav & ->)]].
  { by rewrite !redact_redacted. }
  { rewrite redact_oversized. destruct (contains_secret b OVERSIZED_LINE) eqn:E;
      [apply redact_redacted|].
    by rewrite redact_oversized, (contains_secret_sub _ _ _ Hsub E). }
  pose proof (shown_length MAX_LOG_LINE_CHARS v) as Hshort.
  destruct (shown_words v Hv) as (rs & tl & Hchars & Hrs & Hg & Htl & Hlen).
  set (once := take_chars _ _) in *.
  assert (once = str_concat (spaced rs) +:+ str_concat tl) as Honce.
  { by rewrite <-str_concat_app, <-Hchars, str_concat_chars. }
  destruct (redact_cases b once) as [->|[[_ ?]|(Hsecret & Hcontrol & Hsens & Hsize & Htwice)]];
    [apply redact_redacted|lia|].
  assert (redact_line b once = str_concat (spaced rs)) as ->.
  { rewrite Htwice. unfold take_chars. rewrite squeeze_spaced, Hchars, runs_skip_r, runs_spaced;
      [|done|destruct Htl as [->| ->]; repeat constructor].
    by rewrite chars_concat_good, list.take_ge by (done || by apply good_spaced). }
  rewrite Honce in *. apply (redact_words c rs tl); try done.
  by eapply contains_secret_sub.
Qed.

(** ** Secrets *)

Lemma starts_with_before_space s a b :
  no_byte " " s = true → starts_with s (a +:+ String " " b) = true → starts_with s a = true.
Proof.
  unfold starts_with. revert s. induction a as [|c a IH]; intros [|d s] Hs; try done; simpl in *.
  - destruct (Ascii.eqb_spec d " "); [by subst|done].
  - destruct (Ascii.eqb d c); [|done]. apply IH. by apply andb_true_iff in Hs as [_ ?].
Qed.

Lemma contains_around_space s a b :
  no_byte " " s = true → contains s (a +:+ String " " b) = true →
  contains s a = true ∨ contains s b = true.
Proof.
  intros Hs. induction a as [|c a IH].
  - intros H. cbn [contains String.append] in H. apply orb_true_iff in H as [H|H]; [|by right].
    left. cbn [contains]. by rewrite (starts_with_before_space s "" b Hs H).
  - intros H. change (String c a +:+ String " " b) with (String c (a +:+ String " " b)) in H.
    cbn [contains] in H |- *. apply orb_true_iff in H as [H|H].
    + left. apply (starts_with_before_space s (String c a) b Hs) in H. by rewrite H.
    + destruct (IH H) as [->|?]; [left; by rewrite orb_true_r|by right].
Qed.

Lemma contains_spaced s rs :
  s ≠ "" → no_byte " " s = true → contains s (str_concat (spaced rs)) = true →
  ∃ r, r ∈ rs ∧ contains s (str_concat r) = true.
Proof.
  intros Hne Hs. induction rs as [|r rs IH]; [by destruct s|].
  destruct rs as [|r' rs]; [exists r; split; [by left|done]|].
  rewrite spaced_cons, str_concat_app. cbn [str_concat].
  intros [H|H]%(contains_around_space s _ _ Hs).
  - exists r. split; [by left|done].
  - destruct (IH H) as (x & Hx & ?). exists x. split; [by right|done].
Qed.

(** A text without a space that is not in a line is not in what is shown. *)
Lemma shown_contains s n v :
  s ≠ "" → no_byte " " s = true → contains s v = false →
  contains s (take_chars n (squeeze v)) = false.
Proof.
  intros Hne Hs Hv. apply not_true_iff_false. intros H. apply not_true_iff_false in Hv. apply Hv.
  destruct (take_chars_prefix n (squeeze v)) as [r E].
  apply (contains_app_r s r) in H. rewrite <-E, squeeze_spaced in H.
  apply contains_spaced in H as (w & (a & b & Hab)%runs_elem & Hw); [|done..].
  rewrite <-(str_concat_chars v), Hab, !str_concat_app.
  by apply contains_app_l, contains_app_r.
Qed.

Lemma redact_hides r v s :
  s ∈ secrets r → s ≠ "" → no_byte " " s = true →
  redact_line r v = REDACTED_LINE ∨ redact_line r v = OVERSIZED_LINE ∨
  contains s (redact_line r v) = false.
Proof.
  intros Hin Hne Hs. destruct (redact_cases r v) as [?|[[? _]|(Hsecret & _ & _ & _ & ->)]]; auto.
  right. right. apply shown_contains; [done..|].
  apply not_true_iff_false. intros H. apply not_true_iff_false in Hsecret. apply Hsecret.
  apply existsb_exists. exists s. split; [by apply list_elem_of_In|done].
Qed.

Lemma shown_chars n v : (chars_count (take_chars n v) ≤ n)%nat.
Proof.
  unfold chars_count, take_chars.
  rewrite (chars_sublist _ v); [rewrite length_take; lia|].
  exists [], (drop n (chars v)). by rewrite take_drop.
Qed.

Lemma redact_chars r v : (chars_count (redact_line r v) ≤ MAX_LOG_LINE_CHARS)%nat.
Proof.
  destruct (redact_cases r v) as [->|[[-> _]|(_ & _ & _ & _ & ->)]]; [vm_compute; lia..|].
  apply shown_chars.
Qed.
