(* ===== verification/LaunchCollector.v ===== *)
(** * What the collector of output guarantees

    Histories of [LaunchLogs.LogCollector]: how output is cut into chunks does
    not matter, what is kept is the longest tail within the limits, and no
    secret is ever published. *)

From S2P Require Import Prelude RustStr RustText LaunchOutcome LaunchLogs LaunchRedact.

Open Scope string_scope.
Open Scope list_scope.
Open Scope Z_scope.

(** ** Operations in sequence *)

Inductive LogOp :=
| Push (stream : LogStream) (bytes : string)
| FinishStream (stream : LogStream)
| ClearSecrets.

Section ops.
Context `{Unicode}.

Definition run_op (c : LogCollector) (op : LogOp) : option (list LogEntry * LogCollector) :=
  match op with
  | Push stream bytes => push c stream bytes
  | FinishStream stream => finish_stream c stream
  | ClearSecrets => Some ([], (clear_secrets c).2)
  end.

(** The operations in order, with every entry they returned. *)
Fixpoint run_ops (c : LogCollector) (ops : list LogOp) : option (list LogEntry * LogCollector) :=
  match ops with
  | [] => Some ([], c)
  | op :: ops =>
      '(emitted, c) ← run_op c op;
      '(more, c) ← run_ops c ops;
      Some (emitted ++ more, c)
  end.

Definition push_all (c : LogCollector) (stream : LogStream) (chunks : list string) :
    option (list LogEntry * LogCollector) := run_ops c (Push stream <$> chunks).

(** ** Chunks *)

Lemma pending_with_pending c stream p : pending (with_pending c stream p) stream = p.
Proof. by destruct stream. Qed.

Lemma publish_pending c source t truncated e c' stream :
  publish c source t truncated = Some (e, c') → pending c' stream = pending c stream.
Proof.
  unfold publish. destruct (u64_max <? _); [done|].
  destruct (trim_history _ _ _) as [[h b] d]. intros [= _ <-]. by destruct stream.
Qed.

Lemma observe_bytes_pending c bytes stream :
  pending (observe_bytes c bytes) stream = pending c stream.
Proof. unfold observe_bytes. case_match; [by destruct stream|done]. Qed.

Lemma complete_line_finished c stream e c' :
  complete_line c stream = Some (e, c') →
  finished (pending c' stream) = finished (pending c stream).
Proof.
  unfold complete_line. destruct (discarding _).
  { intros [= _ <-]. by rewrite pending_with_pending. }
  destruct (is_empty _); [by intros [= _ <-]|].
  destruct (publish _ _ _ _) as [[e' c0]|] eqn:Hp; [|done]. intros [= _ <-].
  by rewrite (publish_pending _ _ _ _ _ _ stream Hp), observe_bytes_pending, pending_with_pending.
Qed.

Lemma push_byte_finished c stream byte e c' :
  push_byte c stream byte = Some (e, c') →
  finished (pending c' stream) = finished (pending c stream).
Proof.
  unfold push_byte. destruct (Ascii.eqb byte newline).
  { destruct (complete_line c stream) as [[e' c0]|] eqn:Hl; [|done]. intros [= _ <-].
    by eapply complete_line_finished. }
  destruct (discarding _); [by intros [= _ <-]|]. destruct (str_len _ =? _).
  - destruct (publish _ _ _ _) as [[e' c0]|] eqn:Hp; [|done]. intros [= _ <-].
    by rewrite (publish_pending _ _ _ _ _ _ stream Hp), observe_bytes_pending,
      pending_with_pending.
  - intros [= _ <-]. by rewrite pending_with_pending.
Qed.

Lemma push_bytes_finished c stream bytes e c' :
  push_bytes c stream bytes = Some (e, c') →
  finished (pending c' stream) = finished (pending c stream).
Proof.
  revert c e. induction bytes as [|b bytes IH]; intros c e; cbn [push_bytes].
  { by intros [= _ <-]. }
  destruct (push_byte c stream b) as [[e1 c1]|] eqn:H1; [|done]. cbn [mbind option_bind].
  destruct (push_bytes c1 stream bytes) as [[e2 c2]|] eqn:H2; [|done]. intros [= _ <-].
  rewrite (IH _ _ H2). by eapply push_byte_finished.
Qed.

Lemma push_bytes_app c stream a b :
  push_bytes c stream (a +:+ b) =
  '(e1, c1) ← push_bytes c stream a; '(e2, c2) ← push_bytes c1 stream b; Some (e1 ++ e2, c2).
Proof.
  revert c. induction a as [|x a IH]; intros c; cbn [push_bytes String.append].
  { cbn [mbind option_bind]. by destruct (push_bytes c stream b) as [[??]|]. }
  destruct (push_byte c stream x) as [[e1 c1]|]; [|done]. cbn [mbind option_bind]. rewrite IH.
  destruct (push_bytes c1 stream a) as [[e2 c2]|]; [|done]. cbn [mbind option_bind].
  destruct (push_bytes c2 stream b) as [[e3 c3]|]; [|done]. cbn [mbind option_bind].
  by rewrite app_assoc.
Qed.

(** Chunks within the limit are the same as all their bytes at once. *)
Lemma push_all_bytes c stream chunks :
  Forall (λ chunk, str_len chunk ≤ MAX_OUTPUT_CHUNK_BYTES) chunks →
  push_all c stream chunks =
  if finished (pending c stream) then Some ([], c)
  else push_bytes c stream (str_concat chunks).
Proof.
  unfold push_all. intros Hsmall. revert c. induction Hsmall as [|chunk chunks Hc _ IH]; intros c.
  { cbn. by case_match. }
  cbn [fmap list_fmap run_ops run_op]. unfold push.
  destruct (finished (pending c stream)) eqn:Hf.
  { cbn [mbind option_bind]. rewrite IH, Hf. done. }
  rewrite (proj2 (Z.ltb_ge _ _) Hc). cbn [str_concat]. rewrite push_bytes_app.
  destruct (push_bytes c stream chunk) as [[e1 c1]|] eqn:H1; [|done]. cbn [mbind option_bind].
  by rewrite IH, (push_bytes_finished _ _ _ _ _ H1), Hf.
Qed.
End ops.

(** ** The history *)

Definition text_bytes (l : list LogEntry) : Z := sum_Z ((λ e, str_len (text e)) <$> l).

Definition within_limits (l : list LogEntry) : Prop :=
  Z.of_nat (length l) ≤ MAX_LOG_ENTRIES ∧ text_bytes l ≤ MAX_LOG_HISTORY_BYTES.

Lemma text_bytes_app l k : text_bytes (l ++ k) = text_bytes l + text_bytes k.
Proof. unfold text_bytes. by rewrite fmap_app, sum_Z_app. Qed.

Lemma text_bytes_cons e l : text_bytes (e :: l) = str_len (text e) + text_bytes l.
Proof. done. Qed.

Lemma text_bytes_nonneg l : 0 ≤ text_bytes l.
Proof.
  induction l as [|e l IH]; [done|]. rewrite text_bytes_cons.
  pose proof (str_len_nonneg (text e)). lia.
Qed.

Lemma within_snoc l k : within_limits (l ++ k) → within_limits l.
Proof.
  unfold within_limits. rewrite length_app, text_bytes_app.
  pose proof (text_bytes_nonneg k). lia.
Qed.

(** The loop removes entries from the front until the rest is within the
    limits, and no more. *)
Lemma trim_history_spec l dropped :
  ∃ n, (n ≤ length l)%nat ∧
    trim_history l (text_bytes l) dropped
      = (drop n l, text_bytes (drop n l), dropped + Z.of_nat n) ∧
    within_limits (drop n l) ∧ ∀ m, (m < n)%nat → ¬ within_limits (drop m l).
Proof.
  revert dropped. induction l as [|e l IH]; intros dropped.
  { exists 0%nat. rewrite Z.add_0_r. split_and!; [done..|done|]. lia. }
  cbn [trim_history].
  destruct (_ || _) eqn:E.
  - assert (text_bytes (e :: l) - str_len (text e) = text_bytes l) as ->
      by (rewrite text_bytes_cons; lia).
    destruct (IH (dropped + 1)) as (n & Hn & -> & Hin & Hout). exists (S n). cbn [drop length].
    split_and!; [lia|f_equal; lia|done|].
    intros [|m] Hm; [|apply Hout; lia]. intros [Hlen Hbytes]. cbn [drop length] in Hlen, Hbytes.
    apply orb_true_iff in E as [E%Z.ltb_lt|E%Z.ltb_lt]; cbn [length] in E; lia.
  - exists 0%nat. rewrite Z.add_0_r. split_and!; [lia|done| |lia].
    apply orb_false_iff in E as [E1%Z.ltb_ge E2%Z.ltb_ge]. by split.
Qed.

(** ** Published texts *)

(** A published text is a marker, or hides every private text of the session
    that has no space. *)
Definition public_text (private : list string) (t : string) : Prop :=
  (chars_count t ≤ MAX_LOG_LINE_CHARS)%nat ∧
  (t = REDACTED_LINE ∨ t = OVERSIZED_LINE ∨
   ∀ s, s ∈ private → s ≠ "" → no_byte " " s = true → contains s t = false).

Lemma redacted_public private bytes :
  public_text private (redact_bytes (redactor_new private) bytes).
Proof.
  unfold redact_bytes. destruct (valid_utf8 bytes); [|split; [vm_compute; lia|by left]].
  split; [apply redact_chars|].
  destruct (redact_cases (redactor_new private) bytes) as [->|[[-> _]|Hshown]];
    [by left|by right; left|]. right. right.
  intros s Hin Hne Hs. destruct Hshown as (Hsecret & _ & _ & _ & ->).
  apply shown_contains; [done..|]. apply not_true_iff_false. intros H.
  apply not_true_iff_false in Hsecret. apply Hsecret, existsb_exists. exists s.
  split; [|done]. apply list_elem_of_In, list_elem_of_filter. done.
Qed.

Lemma oversized_public private : public_text private OVERSIZED_LINE.
Proof. split; [vm_compute; lia|]. by right; left. Qed.

(** ** The invariant *)

Definition pending_inv (p : PendingLine) : Prop := str_len (pending_bytes p) ≤ MAX_RAW_LINE_BYTES.

(** [emitted] are the entries published so far, in order. *)
Record log_inv (private : list string) (emitted : list LogEntry) (c : LogCollector) : Prop := {
  inv_history : ∃ n, (n ≤ length emitted)%nat ∧ history c = drop n emitted ∧
    dropped_entries c = Z.of_nat n ∧ within_limits (drop n emitted) ∧
    ∀ m, (m < n)%nat → ¬ within_limits (drop m emitted);
  inv_bytes : history_bytes c = text_bytes (history c);
  inv_next : next_sequence c = Z.of_nat (length emitted) + 1;
  inv_sequence : sequence <$> emitted = seqZ 1 (Z.of_nat (length emitted));
  inv_public : Forall (λ e, public_text private (text e)) emitted;
  inv_redactor : redactor c = redactor_new private ∨ outputs_drained c = true;
  inv_pending : pending_inv (out_pending c) ∧ pending_inv (err_pending c);
}.

Lemma collector_new_inv private : log_inv private [] (collector_new private).
Proof.
  split; try done; [|by left].
  exists 0%nat. split_and!; try done; lia.
Qed.

Lemma open_redactor private emitted c stream :
  log_inv private emitted c → finished (pending c stream) = false →
  redactor c = redactor_new private.
Proof.
  intros Hinv Hf. destruct (inv_redactor _ _ _ Hinv) as [|Hd]; [done|].
  unfold outputs_drained in Hd. apply andb_true_iff in Hd as [? ?].
  destruct stream; simpl in Hf; congruence.
Qed.

Lemma with_pending_inv private emitted c stream p :
  log_inv private emitted c → pending_inv p →
  (finished p = finished (pending c stream) ∨ finished p = true) →
  log_inv private emitted (with_pending c stream p).
Proof.
  intros [] Hp Hf. split; try done.
  - destruct inv_redactor0 as [|Hd]; [by left|]. right. unfold outputs_drained in *.
    apply andb_true_iff in Hd as [Ho He]. destruct stream; simpl in *; apply andb_true_iff;
      destruct Hf as [-> | ->]; auto.
  - by destruct stream, inv_pending0.
Qed.

Lemma observe_bytes_inv private emitted c bytes `{Unicode} :
  log_inv private emitted c → log_inv private emitted (observe_bytes c bytes).
Proof. intros []. unfold observe_bytes. by case_match. Qed.

Lemma publish_inv private emitted c source t truncated e c' :
  log_inv private emitted c → public_text private t →
  publish c source t truncated = Some (e, c') → log_inv private (emitted ++ [e]) c'.
Proof.
  intros [(n & Hn & Hhist & Hdrop & Hin & Hout)] Ht. unfold publish.
  destruct (u64_max <? _); [done|]. set (entry := {| text := t |}).
  assert (history_bytes c + str_len t = text_bytes (history c ++ [entry])) as ->.
  { rewrite inv_bytes0, text_bytes_app, text_bytes_cons. unfold entry, text_bytes at 3. simpl. lia. }
  assert (history c ++ [entry] = drop n (emitted ++ [entry])) as ->.
  { by rewrite Hhist, list.drop_app_le by done. }
  destruct (trim_history_spec (drop n (emitted ++ [entry])) (dropped_entries c))
    as (k & Hk & -> & Hin' & Hout').
  intros [= <- <-]. split; cbn [history history_bytes next_sequence dropped_entries redactor
    out_pending err_pending outputs_drained]; try done.
  - exists (n + k)%nat. rewrite length_drop in Hk. rewrite drop_drop in Hin' |- *.
    split_and!; [rewrite length_app in *; simpl in *; lia|done|lia|done|].
    intros m Hm. destruct (decide (m < n)%nat) as [Hmn|Hmn].
    + intros Hw. rewrite list.drop_app_le in Hw by lia. by apply within_snoc, (Hout m Hmn) in Hw.
    + specialize (Hout' (m - n)%nat ltac:(lia)). rewrite drop_drop in Hout'.
      by replace (n + (m - n))%nat with m in Hout' by lia.
  - rewrite length_app. simpl. lia.
  - rewrite fmap_app, inv_sequence0, length_app. cbn [fmap list_fmap sequence length].
    rewrite Nat2Z.inj_add, seqZ_app by lia. f_equal.
    change [sequence entry] with [next_sequence c]. rewrite inv_next0, Z.add_comm. done.
  - apply Forall_app. split; [done|]. by constructor.
Qed.

(** ** Steps *)

Section steps.
Context `{Unicode} (private : list string).

Lemma complete_line_inv emitted c stream e c' :
  log_inv private emitted c → finished (pending c stream) = false →
  complete_line c stream = Some (e, c') → log_inv private (emitted ++ option_list e) c'.
Proof.
  intros Hinv Hf. unfold complete_line.
  assert (∀ d, log_inv private emitted (with_pending c stream
    {| pending_bytes := ""; discarding := d; finished := finished (pending c stream) |})) as Hw.
  { intros d. apply with_pending_inv; [done| |by left]. done. }
  destruct (discarding _) eqn:Hd. { intros [= <- <-]. rewrite app_nil_r. apply Hw. }
  destruct (is_empty _). { intros [= <- <-]. by rewrite app_nil_r. }
  specialize (Hw false).
  apply (observe_bytes_inv _ _ _ (pending_bytes (pending c stream))) in Hw as Ho.
  set (c1 := observe_bytes _ _) in *.
  assert (redactor c1 = redactor_new private) as Hr.
  { rewrite <-(open_redactor _ _ _ _ Hinv Hf). unfold c1, observe_bytes. by case_match. }
  destruct (publish c1 _ _ _) as [[e' c2]|] eqn:Hp; [|done]. intros [= <- <-].
  eapply publish_inv; [done| |done]. rewrite Hr. apply redacted_public.
Qed.

Lemma push_byte_inv emitted c stream byte e c' :
  log_inv private emitted c → finished (pending c stream) = false →
  push_byte c stream byte = Some (e, c') → log_inv private (emitted ++ e) c'.
Proof.
  intros Hinv Hf. unfold push_byte. destruct (Ascii.eqb byte newline).
  { destruct (complete_line c stream) as [[e' c1]|] eqn:Hl; [|done]. intros [= <- <-].
    by eapply complete_line_inv. }
  destruct (discarding _) eqn:Hd. { intros [= <- <-]. by rewrite app_nil_r. }
  destruct (str_len _ =? _) eqn:Hlen.
  - destruct (publish _ _ _ _) as [[e' c1]|] eqn:Hp; [|done]. intros [= <- <-].
    eapply publish_inv; [|apply oversized_public|done]. apply observe_bytes_inv.
    apply with_pending_inv; [done| |by left]. done.
  - intros [= <- <-]. rewrite app_nil_r. apply with_pending_inv; [done| |by left].
    apply Z.eqb_neq in Hlen. destruct (inv_pending _ _ _ Hinv) as [Ho He].
    assert (pending_inv (pending c stream)) as Hp by (by destruct stream).
    unfold pending_inv, str_len in *. cbn [pending_bytes]. rewrite str_app_length. simpl. lia.
Qed.

Lemma push_bytes_inv emitted c stream bytes e c' :
  log_inv private emitted c → finished (pending c stream) = false →
  push_bytes c stream bytes = Some (e, c') → log_inv private (emitted ++ e) c'.
Proof.
  revert emitted c e. induction bytes as [|b bytes IH]; intros emitted c e Hinv Hf;
    cbn [push_bytes].
  { intros [= <- <-]. by rewrite app_nil_r. }
  destruct (push_byte c stream b) as [[e1 c1]|] eqn:H1; [|done]. cbn [mbind option_bind].
  destruct (push_bytes c1 stream bytes) as [[e2 c2]|] eqn:H2; [|done]. intros [= <- <-].
  rewrite app_assoc. eapply IH; [by eapply push_byte_inv| |done].
  by rewrite (push_byte_finished _ _ _ _ _ H1).
Qed.

Lemma run_op_inv emitted c op e c' :
  log_inv private emitted c → run_op c op = Some (e, c') → log_inv private (emitted ++ e) c'.
Proof.
  intros Hinv. destruct op as [stream bytes|stream|]; cbn [run_op].
  - unfold push. destruct (finished _) eqn:Hf. { intros [= <- <-]. by rewrite app_nil_r. }
    destruct (_ <? _); [|by apply push_bytes_inv].
    destruct (publish _ _ _ _) as [[e' c1]|] eqn:Hp; [|done]. intros [= <- <-].
    eapply publish_inv; [|apply oversized_public|done].
    apply with_pending_inv; [done|done|by left].
  - unfold finish_stream. destruct (finished _) eqn:Hf. { intros [= <- <-]. by rewrite app_nil_r. }
    destruct (complete_line c stream) as [[e' c1]|] eqn:Hl; [|done]. intros [= <- <-].
    apply (complete_line_inv _ _ _ _ _ Hinv Hf) in Hl.
    apply with_pending_inv; [done| |by right]. destruct (inv_pending _ _ _ Hl).
    by destruct stream.
  - intros [= <- <-]. rewrite app_nil_r. unfold clear_secrets.
    destruct (negb (outputs_drained c)) eqn:Hd; [done|]. destruct Hinv. split; try done.
    right. by apply negb_false_iff in Hd.
Qed.

Lemma run_ops_inv emitted c ops e c' :
  log_inv private emitted c → run_ops c ops = Some (e, c') → log_inv private (emitted ++ e) c'.
Proof.
  revert emitted c e. induction ops as [|op ops IH]; intros emitted c e Hinv; cbn [run_ops].
  { intros [= <- <-]. by rewrite app_nil_r. }
  destruct (run_op c op) as [[e1 c1]|] eqn:H1; [|done]. cbn [mbind option_bind].
  destruct (run_ops c1 ops) as [[e2 c2]|] eqn:H2; [|done]. intros [= <- <-].
  rewrite app_assoc. eapply IH; [|done]. by eapply run_op_inv.
Qed.
End steps.

(** ** Numbers do not run out *)

Definition op_cost (op : LogOp) : Z :=
  match op with
  | Push _ bytes => Z.max 1 (str_len bytes)
  | FinishStream _ => 1
  | ClearSecrets => 0
  end.

Section total.
Context `{Unicode}.

(** The step succeeds and uses at most [k] numbers. *)
Definition uses {A} (k : Z) (c : LogCollector) (step : option (A * LogCollector)) : Prop :=
  ∃ a c', step = Some (a, c') ∧ next_sequence c' ≤ next_sequence c + k.

Lemma publish_uses c source t truncated :
  next_sequence c + 1 ≤ u64_max → uses 1 c (publish c source t truncated).
Proof.
  intros Hn. unfold publish. rewrite (proj2 (Z.ltb_ge _ _) Hn).
  destruct (trim_history _ _ _) as [[h b] d]. eexists _, _. split; [done|]. done.
Qed.

Lemma uses_bind {A B} k k' c (step : option (A * LogCollector)) (next : A → LogCollector → option (B * LogCollector)) :
  uses k c step → (∀ a c', step = Some (a, c') → uses k' c' (next a c')) →
  uses (k + k') c ('(a, c') ← step; next a c').
Proof.
  intros (a & c1 & Hs & Hle) Hnext. destruct (Hnext a c1 Hs) as (b & c2 & Hn & Hle').
  exists b, c2. rewrite Hs. cbn [mbind option_bind]. split; [done|lia].
Qed.

Lemma uses_some {A} k c (a : A) c' : next_sequence c' ≤ next_sequence c + k → uses k c (Some (a, c')).
Proof. intros Hle. by exists a, c'. Qed.

Lemma observe_bytes_next c bytes : next_sequence (observe_bytes c bytes) = next_sequence c.
Proof. unfold observe_bytes. by case_match. Qed.

Lemma complete_line_uses c stream :
  next_sequence c + 1 ≤ u64_max → uses 1 c (complete_line c stream).
Proof.
  intros Hn. unfold complete_line. destruct (discarding _); [apply uses_some; simpl; lia|].
  destruct (is_empty _); [apply uses_some; lia|].
  set (c1 := observe_bytes _ _).
  assert (next_sequence c1 = next_sequence c) as Hc1
    by (etransitivity; [apply observe_bytes_next|done]).
  destruct (publish_uses c1 stream (redact_bytes (redactor c1) (pending_bytes (pending c stream)))
    (valid_utf8 (pending_bytes (pending c stream)) &&
     (MAX_LOG_LINE_CHARS <? chars_count (pending_bytes (pending c stream)))%nat))
    as (e & c2 & -> & Hle); [lia|].
  cbn [mbind option_bind]. apply uses_some. lia.
Qed.

Lemma push_byte_uses c stream byte :
  next_sequence c + 1 ≤ u64_max → uses 1 c (push_byte c stream byte).
Proof.
  intros Hn. unfold push_byte. destruct (Ascii.eqb byte newline).
  { destruct (complete_line_uses c stream Hn) as (e & c1 & -> & Hle). by apply uses_some. }
  destruct (discarding _); [apply uses_some; lia|].
  destruct (str_len _ =? _); [|apply uses_some; simpl; lia].
  set (c1 := observe_bytes _ _).
  assert (next_sequence c1 = next_sequence c) as Hc1
    by (etransitivity; [apply observe_bytes_next|done]).
  destruct (publish_uses c1 stream OVERSIZED_LINE true) as (e & c2 & -> & Hle); [lia|].
  cbn [mbind option_bind]. apply uses_some. lia.
Qed.

Lemma push_bytes_uses c stream bytes :
  next_sequence c + str_len bytes ≤ u64_max → uses (str_len bytes) c (push_bytes c stream bytes).
Proof.
  revert c. induction bytes as [|b bytes IH]; intros c Hn; cbn [push_bytes].
  { by apply uses_some; rewrite Z.add_0_r. }
  assert (str_len (String b bytes) = 1 + str_len bytes) as Hl by (unfold str_len; simpl; lia).
  pose proof (str_len_nonneg bytes).
  rewrite Hl in *. apply uses_bind; [apply push_byte_uses; lia|].
  intros e c1 H1. destruct (push_byte_uses c stream b) as (e' & c1' & H1' & Hle); [lia|].
  rewrite H1 in H1'. injection H1' as <- <-.
  destruct (IH c1) as (e2 & c2 & -> & Hle2); [lia|]. cbn [mbind option_bind]. by apply uses_some.
Qed.

Lemma run_op_uses c op :
  next_sequence c + op_cost op ≤ u64_max → uses (op_cost op) c (run_op c op).
Proof.
  intros Hn. destruct op as [stream bytes|stream|]; cbn [run_op op_cost] in *.
  - pose proof (str_len_nonneg bytes). unfold push.
    destruct (finished _); [apply uses_some; lia|]. destruct (_ <? _).
    + set (c1 := with_pending _ _ _).
      destruct (publish_uses c1 stream OVERSIZED_LINE true) as (e & c2 & -> & Hle);
        [unfold c1; simpl; lia|].
      cbn [mbind option_bind]. apply uses_some. unfold c1 in Hle. simpl in Hle. lia.
    + destruct (push_bytes_uses c stream bytes) as (e & c2 & -> & Hle); [lia|].
      apply uses_some. lia.
  - unfold finish_stream. destruct (finished _); [apply uses_some; lia|].
    destruct (complete_line_uses c stream Hn) as (e & c1 & -> & Hle). by apply uses_some.
  - apply uses_some. unfold clear_secrets. case_match; simpl; lia.
Qed.

Definition total_cost (ops : list LogOp) : Z := sum_Z (op_cost <$> ops).

Lemma op_cost_nonneg op : 0 ≤ op_cost op.
Proof. destruct op; simpl; lia. Qed.

Lemma total_cost_nonneg ops : 0 ≤ total_cost ops.
Proof.
  induction ops as [|op ops IH]; [done|].
  change (total_cost (op :: ops)) with (op_cost op + total_cost ops).
  pose proof (op_cost_nonneg op). lia.
Qed.

Lemma run_ops_uses c ops :
  next_sequence c + total_cost ops ≤ u64_max → uses (total_cost ops) c (run_ops c ops).
Proof.
  revert c. induction ops as [|op ops IH]; intros c Hn; cbn [run_ops].
  { apply uses_some. unfold total_cost. simpl. lia. }
  assert (total_cost (op :: ops) = op_cost op + total_cost ops) as Hl by done.
  pose proof (op_cost_nonneg op) as Hop. pose proof (total_cost_nonneg ops) as Hops.
  rewrite Hl in *. apply uses_bind; [apply run_op_uses; lia|].
  intros e c1 Hrun. destruct (run_op_uses c op) as (e' & c1' & H1' & Hle); [lia|].
  rewrite Hrun in H1'. injection H1' as <- <-.
  destruct (IH c1) as (e2 & c2 & -> & Hle2); [lia|]. cbn [mbind option_bind]. by apply uses_some.
Qed.
End total.

(** ** Properties *)

Section properties.
Context `{Unicode}.

(** C32: How a stream is cut into chunks does not matter: chunks within the
    limit with the same bytes give the same entries and leave the same
    collector, also when they cut a line, a character or a private text. *)
Theorem chunking_irrelevant c stream chunks chunks' :
  Forall (λ chunk, str_len chunk ≤ MAX_OUTPUT_CHUNK_BYTES) chunks →
  Forall (λ chunk, str_len chunk ≤ MAX_OUTPUT_CHUNK_BYTES) chunks' →
  str_concat chunks = str_concat chunks' →
  push_all c stream chunks = push_all c stream chunks'.
Proof. intros H1 H2 E. by rewrite !push_all_bytes, E. Qed.

(** While a session prints less than 2^64 - 1 bytes, its collector does not
    panic; the entries it returned are numbered from one without gaps, and its
    history is the longest tail of them within the limits on entries and
    bytes, with the number of the others counted. *)
Theorem history_longest_tail private ops :
  1 + total_cost ops ≤ u64_max →
  ∃ emitted c, run_ops (collector_new private) ops = Some (emitted, c) ∧
    (sequence <$> emitted) = seqZ 1 (Z.of_nat (length emitted)) ∧
    next_sequence c = Z.of_nat (length emitted) + 1 ∧
    history_bytes c = text_bytes (history c) ∧
    ∃ n, entries c = drop n emitted ∧ dropped_entries c = Z.of_nat n ∧
      within_limits (drop n emitted) ∧ ∀ m, (m < n)%nat → ¬ within_limits (drop m emitted).
Proof.
  intros Hcost. destruct (run_ops_uses (collector_new private) ops) as (emitted & c & Hrun & _);
    [done|].
  pose proof (run_ops_inv private [] _ _ _ _ (collector_new_inv private) Hrun) as Hinv. simpl in Hinv.
  exists emitted, c. destruct Hinv. split_and!; [done..|].
  destruct inv_history0 as (n & _ & ? & ? & ? & ?). by exists n.
Qed.

(** C27: No line that is published contains a private text of the session, if
    that has no space: every entry is one of the two markers or free of all of
    them, whatever was printed and however it was cut; and no entry is longer
    than a thousand characters. *)
Theorem secrets_never_published private ops emitted c :
  run_ops (collector_new private) ops = Some (emitted, c) →
  ∀ e, e ∈ emitted →
    (chars_count (text e) ≤ MAX_LOG_LINE_CHARS)%nat ∧
    (text e = REDACTED_LINE ∨ text e = OVERSIZED_LINE ∨
     ∀ s, s ∈ private → s ≠ "" → no_byte " " s = true → contains s (text e) = false).
Proof.
  intros Hrun e He.
  pose proof (run_ops_inv private [] _ _ _ _ (collector_new_inv private) Hrun) as Hinv. simpl in Hinv.
  pose proof (inv_public _ _ _ Hinv) as Hp. rewrite list.Forall_forall in Hp. by apply Hp.
Qed.

(** A line redacted twice is settled: a further pass that knows no private
    text the second did not know returns it as it is.  This is what lets the
    store of reports redact the entries of a collector again and compare. *)
Theorem redaction_settles first second later line :
  valid_utf8 line = true → secrets later ⊆ secrets second →
  redact_line later (redact_line second (redact_line first line)) =
  redact_line second (redact_line first line).
Proof.
  intros Hv Hsub. apply redact_settled; [|done].
  by apply valid_utf8_boundary.
Qed.
End properties.

(** ** Witnesses *)

Module CollectorDemo.
#[local] Existing Instance ascii_unicode.

Definition small (chunk : string) : Prop := str_len chunk ≤ MAX_OUTPUT_CHUNK_BYTES.

(** A private text cut in two, then a line that is shown. *)
Definition halves : list string :=
  ["Player synthetic-va"; "lue-12345 joined" +:+ char1 newline +:+ "hello  wor"; "ld" +:+ char1 newline].
Definition output : string := str_concat halves.

Definition shown (r : option (list LogEntry * LogCollector)) : option (list string) :=
  '(emitted, _) ← r; Some (map text emitted).

Lemma chunking_irrelevant_witness :
  shown (push_all (collector_new ["synthetic-value-12345"]) Stdout halves) =
  Some [REDACTED_LINE; "hello world"].
Proof.
  rewrite (chunking_irrelevant (collector_new ["synthetic-value-12345"]) Stdout halves [output]).
  - vm_compute. reflexivity.
  - repeat constructor; vm_compute; congruence.
  - repeat constructor; vm_compute; congruence.
  - reflexivity.
Defined.

Definition demo_ops : list LogOp :=
  [Push Stdout output; Push Stderr "tail"; FinishStream Stdout; FinishStream Stderr; ClearSecrets;
   Push Stdout "late"].

Lemma history_longest_tail_witness :
  ∃ emitted c, run_ops (collector_new ["synthetic-value-12345"]) demo_ops = Some (emitted, c) ∧
    (sequence <$> emitted) = seqZ 1 (Z.of_nat (length emitted)).
Proof.
  destruct (history_longest_tail ["synthetic-value-12345"] demo_ops) as (emitted & c & Hrun & Hseq & _).
  - vm_compute. congruence.
  - exists emitted, c. split; assumption.
Defined.

Lemma secrets_never_published_witness :
  ∃ emitted c, run_ops (collector_new ["synthetic-value-12345"]) demo_ops = Some (emitted, c) ∧
    length emitted = 3%nat ∧
    ∀ e, e ∈ emitted → (chars_count (text e) ≤ MAX_LOG_LINE_CHARS)%nat.
Proof.
  destruct (run_ops (collector_new ["synthetic-value-12345"]) demo_ops) as [[emitted c]|] eqn:Hrun.
  - exists emitted, c. split; [reflexivity|]. split.
    + revert Hrun. vm_compute. intros [= <- _]. reflexivity.
    + intros e He.
      exact (proj1 (secrets_never_published ["synthetic-value-12345"] demo_ops emitted c Hrun e He)).
  - exfalso. revert Hrun. vm_compute. discriminate.
Defined.

(** A tab before an option is no space: one pass shows what the next refuses. *)
Definition tabbed : string := "args:" +:+ char1 "009" +:+ "-dname=value".
Definition no_secrets : Redactor := redactor_new [].

Example redacting_once_does_not_settle :
  redact_line no_secrets tabbed = "args: -dname=value" ∧
  redact_line no_secrets (redact_line no_secrets tabbed) = REDACTED_LINE.
Proof. split; vm_compute; reflexivity. Qed.

Lemma redaction_settles_witness :
  redact_line no_secrets (redact_line no_secrets (redact_line no_secrets tabbed)) = REDACTED_LINE.
Proof.
  rewrite (redaction_settles no_secrets no_secrets no_secrets tabbed).
  - vm_compute. reflexivity.
  - vm_compute. reflexivity.
  - intros s Hs. exact Hs.
Defined.

(** A line with two spaces inside a private text shows it with one. *)
Example spaced_secret_shown :
  redact_line (redactor_new ["a b"]) "a  b" = "a b".
Proof. vm_compute. reflexivity. Qed.
End CollectorDemo.
