(* ===== verification/LaunchReports.v ===== *)
(** * Launch reports ([core/app/src/launch/reports.rs])

    The durable record of a session: its fields, the sanitisation every record
    passes on its way to storage and back, and the comparison with an earlier
    session.  RFC 3339 times are the parameter [Rfc3339Millis]; serde_json is
    [ReportJson], whose decoder sees the evidence of a crash as [LaunchCrash]
    checks it; base64 is that of [McLoaderIdentity].  Functions that edit the
    record behind [&mut] return the new one. *)

From S2P Require Import Prelude RustStr RustText RustFloat McLoaderIdentity SettingsModel.
From S2P Require Import LaunchCrash LaunchOutcome LaunchLogs.

Open Scope string_scope.
Open Scope list_scope.
Open Scope Z_scope.

Definition MAX_REPORT_BYTES : Z := 256 * 1024.
Definition MAX_RECENT_REPORTS : Z := 25.
Definition LAUNCH_STAGE_COMPARISON_METRIC_NAME : string := "total_completed_stage_duration_ms".
Definition LAUNCH_BOOT_COMPARISON_METRIC_NAME : string := "boot_duration_ms".

Inductive ReportError :=
| ReportInvalid | TooLarge | ConflictingSession | ReportStorage (error : StorageError).

(** ** Records *)

Record LaunchProofStageEvidence := {
  se_id : string;
  se_system : string;
  se_summary : string;
  se_details : list string;
}.

Record LaunchProofStage := {
  stage : string;
  stage_label : string;
  started_at_ms : Z;
  ended_at_ms : option Z;
  duration_ms : option Z;
  stage_result : option string;
  warnings : list string;
  fallback_reason : option string;
  stage_evidence : list LaunchProofStageEvidence;
}.

Record LaunchProofScenario := {
  scenario_id : string;
  performance_mode : string;
  requested_memory_mb : option Z;
  scenario_version_id : option string;
  benchmark_profile : option string;
  benchmark_run_type : option string;
  benchmark_mode : option string;
  benchmark_id : option string;
}.

Definition scenario_default : LaunchProofScenario := {|
  scenario_id := "unknown_launch"; performance_mode := "unknown"; requested_memory_mb := None;
  scenario_version_id := None; benchmark_profile := None; benchmark_run_type := None;
  benchmark_mode := None; benchmark_id := None;
|}.

Record LaunchProofDevice := {
  tier : string;
  total_memory_mb : option Z;
  cpu_threads : option Z;
}.

Definition device_default : LaunchProofDevice :=
  {| tier := "unknown"; total_memory_mb := None; cpu_threads := None |}.

Record LaunchProofResourceBudget := {
  host_total_memory_mb : option Z;
  host_available_memory_mb : option Z;
  host_used_memory_mb : option Z;
  host_cpu_threads : option Z;
  host_cpu_load_1m_x100 : option Z;
  host_cpu_load_5m_x100 : option Z;
  host_cpu_load_15m_x100 : option Z;
  launcher_process_memory_mb : option Z;
  active_session_count : Z;
  active_install_count : Z;
  active_memory_allocation_mb : Z;
  budget_requested_memory_mb : option Z;
  estimated_remaining_memory_mb : option Z;
  memory_headroom_mb : Z;
  memory_pressure : bool;
  cpu_pressure : bool;
  install_pressure : bool;
  launch_disk_available_mb : option Z;
  launch_disk_headroom_mb : Z;
  disk_pressure : bool;
}.

(** The tier is the lower of the observed ones. *)
Definition tier_name (tier : Z) : string :=
  if tier =? 0 then "low" else if tier =? 1 then "mid" else "high".

Definition device_from_budget (budget : LaunchProofResourceBudget) : LaunchProofDevice :=
  let positive (o : option Z) := v ← o; if 0 <? v then Some v else None in
  let cpu_threads := positive (host_cpu_threads budget) in
  let total_memory_mb := positive (host_total_memory_mb budget) in
  let cpu_tier := (λ threads, if threads <=? 4 then 0 else if 8 <=? threads then 2 else 1)
    <$> cpu_threads in
  let memory_tier := (λ memory, if memory <=? 8192 then 0 else if 32768 <=? memory then 2 else 1)
    <$> total_memory_mb in
  let tier := match cpu_tier, memory_tier with
              | Some c, Some m => tier_name (Z.min c m)
              | Some t, None | None, Some t => tier_name t
              | None, None => "unknown"
              end in
  {| tier := tier; total_memory_mb := total_memory_mb; cpu_threads := cpu_threads |}.

Record LaunchProofComparisonBaseline := {
  base_performance_mode : string;
  base_version_id : string;
  base_requested_memory_mb : option Z;
  base_device_tier : string;
  base_benchmark_profile : option string;
  base_benchmark_run_type : option string;
  base_benchmark_mode : option string;
}.

Record LaunchProofComparison := {
  baseline_session_id : string;
  baseline_recorded_at : string;
  baseline : LaunchProofComparisonBaseline;
  matched_sample_count : Z;
  metric_name : string;
  current_value_ms : Z;
  baseline_value_ms : Z;
  delta_ms : Z;
  delta_percent : f64;
}.

Record LaunchProofRecord := {
  schema : string;
  schema_version : Z;
  session_id : string;
  instance_id : string;
  version_id : string;
  launched_at : string;
  recorded_at : string;
  outcome : string;
  session_outcome : SessionOutcome;
  scenario : LaunchProofScenario;
  device : LaunchProofDevice;
  resource_budget : option LaunchProofResourceBudget;
  report_exit_code : option Z;
  boot_duration_ms : option Z;
  crash_evidence : option CrashEvidence;
  stages : list LaunchProofStage;
  comparison : option LaunchProofComparison;
  logs : list LogEntry;
  logs_dropped : Z;
}.

#[global] Instance stage_evidence_eq_dec : EqDecision LaunchProofStageEvidence.
Proof. solve_decision. Defined.
#[global] Instance stage_eq_dec : EqDecision LaunchProofStage.
Proof. solve_decision. Defined.
#[global] Instance scenario_eq_dec : EqDecision LaunchProofScenario.
Proof. solve_decision. Defined.
#[global] Instance device_eq_dec : EqDecision LaunchProofDevice.
Proof. solve_decision. Defined.
#[global] Instance resource_budget_eq_dec : EqDecision LaunchProofResourceBudget.
Proof. solve_decision. Defined.
#[global] Instance comparison_baseline_eq_dec : EqDecision LaunchProofComparisonBaseline.
Proof. solve_decision. Defined.

(** [==] of comparisons and of reports, which compares floats as floats. *)
Definition comparison_eqb (a b : LaunchProofComparison) : bool :=
  str_eqb (baseline_session_id a) (baseline_session_id b) &&
  str_eqb (baseline_recorded_at a) (baseline_recorded_at b) &&
  bool_decide (baseline a = baseline b) &&
  (matched_sample_count a =? matched_sample_count b) &&
  str_eqb (metric_name a) (metric_name b) &&
  (current_value_ms a =? current_value_ms b) && (baseline_value_ms a =? baseline_value_ms b) &&
  (delta_ms a =? delta_ms b) && f64_eqb (delta_percent a) (delta_percent b).

Definition report_eqb (a b : LaunchProofRecord) : bool :=
  str_eqb (schema a) (schema b) && (schema_version a =? schema_version b) &&
  str_eqb (session_id a) (session_id b) && str_eqb (instance_id a) (instance_id b) &&
  str_eqb (version_id a) (version_id b) && str_eqb (launched_at a) (launched_at b) &&
  str_eqb (recorded_at a) (recorded_at b) && str_eqb (outcome a) (outcome b) &&
  bool_decide (session_outcome a = session_outcome b) && bool_decide (scenario a = scenario b) &&
  bool_decide (device a = device b) && bool_decide (resource_budget a = resource_budget b) &&
  bool_decide (report_exit_code a = report_exit_code b) &&
  bool_decide (boot_duration_ms a = boot_duration_ms b) &&
  bool_decide (crash_evidence a = crash_evidence b) && bool_decide (stages a = stages b) &&
  match comparison a, comparison b with
  | None, None => true
  | Some x, Some y => comparison_eqb x y
  | _, _ => false
  end &&
  bool_decide (logs a = logs b) && (logs_dropped a =? logs_dropped b).

(** ** Reports of sessions *)

Record SessionReportInput := {
  in_session_id : string;
  in_instance_id : string;
  in_version_id : string;
  in_launched_at : string;
  in_ended_at : string;
  in_outcome : SessionOutcome;
  in_entries : list LogEntry;
  in_exit_code : option Z;
  in_boot_duration_ms : option Z;
  in_logs_dropped : Z;
}.

Definition outcome_name (o : SessionOutcome) : string :=
  match kind o with
  | Clean => "exited"
  | Stopped => "stopped"
  | Failed => "failed"
  | KindUnknown => "unknown"
  end.

Definition from_session (input : SessionReportInput) : LaunchProofRecord := {|
  schema := "axial.launch.proof"; schema_version := 4;
  session_id := in_session_id input; instance_id := in_instance_id input;
  version_id := in_version_id input; launched_at := in_launched_at input;
  recorded_at := in_ended_at input; outcome := outcome_name (in_outcome input);
  session_outcome := in_outcome input; scenario := scenario_default; device := device_default;
  resource_budget := None; report_exit_code := in_exit_code input;
  boot_duration_ms := in_boot_duration_ms input; crash_evidence := None; stages := [];
  comparison := None; logs := in_entries input; logs_dropped := in_logs_dropped input;
|}.

(** ** Comparison with earlier sessions *)

Definition normalized_dimension (value : string) : option string :=
  let value := trim value in
  if is_empty value || str_eqb value "unknown" then None else Some value.

Definition scenario_id_for_performance_mode (performance_mode : string) : string :=
  let mode := trim performance_mode in
  if str_eqb mode "managed" then "managed_launch"
  else if str_eqb mode "vanilla" then "vanilla_launch"
  else if str_eqb mode "custom" then "custom_launch"
  else "unknown_launch".

Definition required_dimensions_match (l r : string) : bool :=
  match normalized_dimension l, normalized_dimension r with
  | Some l, Some r => str_eqb l r
  | _, _ => false
  end.

Definition optional_benchmark_dimensions_match (l r : option string) : bool :=
  match l ≫= normalized_dimension, r ≫= normalized_dimension with
  | Some l, Some r => str_eqb l r
  | None, None => true
  | _, _ => false
  end.

Definition known_launch_mode (report : LaunchProofRecord) : option string :=
  mode ← normalized_dimension (performance_mode (scenario report));
  if char_in ["managed"; "vanilla"; "custom"] mode &&
     required_dimensions_match (scenario_id (scenario report))
       (scenario_id_for_performance_mode mode)
  then Some mode else None.

Definition normalized_version_target (report : LaunchProofRecord) : option string :=
  or_else (scenario_version_id (scenario report) ≫= normalized_dimension)
    (normalized_dimension (version_id report)).

Definition required_version_targets_match (current candidate : LaunchProofRecord) : bool :=
  match normalized_version_target current, normalized_version_target candidate with
  | Some current, Some candidate => str_eqb current candidate
  | _, _ => false
  end.

(** The pair of known modes. *)
Definition modes (current candidate : LaunchProofRecord) : option (string * string) :=
  current ← known_launch_mode current;
  candidate ← known_launch_mode candidate;
  Some (current, candidate).

Definition launch_modes_are_comparable (current candidate : LaunchProofRecord) : bool :=
  is_some_and (modes current candidate) (λ '(current, candidate),
    (str_eqb current "managed" && char_in ["vanilla"; "managed"] candidate) ||
    (str_eqb current "vanilla" && str_eqb candidate "vanilla") ||
    (str_eqb current "custom" && str_eqb candidate "custom")).

Definition is_str (o : option string) (value : string) : bool := opt_eqb o value.

Definition comparison_dimensions_match (current candidate : LaunchProofRecord) : bool :=
  negb (str_eqb (session_id current) (session_id candidate)) &&
  launch_modes_are_comparable current candidate &&
  required_version_targets_match current candidate &&
  bool_decide (requested_memory_mb (scenario current) =
               requested_memory_mb (scenario candidate)) &&
  required_dimensions_match (tier (device current)) (tier (device candidate)) &&
  (optional_benchmark_dimensions_match (benchmark_profile (scenario current))
     (benchmark_profile (scenario candidate)) ||
   (is_str (known_launch_mode current) "managed" &&
    is_str (known_launch_mode candidate) "vanilla" &&
    is_str (benchmark_profile (scenario current)) "managed_default" &&
    is_str (benchmark_profile (scenario candidate)) "vanilla_baseline" &&
    (is_str (benchmark_mode (scenario current)) "qualification" ||
     is_str (benchmark_mode (scenario current)) "release_validation"))) &&
  optional_benchmark_dimensions_match (benchmark_run_type (scenario current))
    (benchmark_run_type (scenario candidate)) &&
  optional_benchmark_dimensions_match (benchmark_mode (scenario current))
    (benchmark_mode (scenario candidate)).

Definition saturating_sub_u64 (a b : Z) : Z := Z.max 0 (a - b).

Definition launch_total_completed_stage_duration_ms (report : LaunchProofRecord) : option Z :=
  let '(total, completed) := foldl (λ '(total, completed) s,
    match ended_at_ms s with
    | None => (total, completed)
    | Some ended =>
        (saturating_add_u64 total
           (default (saturating_sub_u64 ended (started_at_ms s)) (duration_ms s)), true)
    end) (0, false) (stages report) in
  if completed then Some total else None.

Definition launch_boot_duration_ms (report : LaunchProofRecord) : option Z :=
  boot_duration_ms report.

Definition i64_max : Z := 9223372036854775807.

Definition metric_delta_ms (current_value_ms baseline_value_ms : Z) : Z :=
  if baseline_value_ms <=? current_value_ms
  then Z.min (current_value_ms - baseline_value_ms) i64_max
  else - Z.min (baseline_value_ms - current_value_ms) i64_max.

Definition metric_delta_percent (delta_ms baseline_value_ms : Z) : f64 :=
  f64_mul (f64_div (f64_of_Z delta_ms) (f64_of_Z baseline_value_ms)) (f64_of_Z 100).

Definition launch_proof_outcome_is_comparable (outcome : string) : bool :=
  str_eqb outcome "exited".

(** The name of a metric, its current value and how it is read. *)
Definition launch_comparison_metric_for_current (current : LaunchProofRecord)
    : option (string * Z * (LaunchProofRecord → option Z)) :=
  match boot_duration_ms current with
  | Some boot_duration_ms =>
      Some (LAUNCH_BOOT_COMPARISON_METRIC_NAME, boot_duration_ms, launch_boot_duration_ms)
  | None =>
      value ← launch_total_completed_stage_duration_ms current;
      Some (LAUNCH_STAGE_COMPARISON_METRIC_NAME, value, launch_total_completed_stage_duration_ms)
  end.

Definition comparison_baseline_mode_rank (current candidate : LaunchProofRecord) : Z :=
  if is_str (known_launch_mode current) "managed" && is_str (known_launch_mode candidate) "vanilla"
  then 0 else 1.

(** [<] on the pairs of time and session. *)
Definition report_cmp (a b : LaunchProofRecord) : Datatypes.comparison :=
  then_with (str_cmp (recorded_at a) (recorded_at b)) (str_cmp (session_id a) (session_id b)).

Definition report_precedes (candidate current : LaunchProofRecord) : bool :=
  is_lt (report_cmp candidate current).

Definition comparison_baseline_snapshot (report : LaunchProofRecord)
    : option LaunchProofComparisonBaseline :=
  mode ← known_launch_mode report;
  version ← normalized_version_target report;
  tier ← normalized_dimension (tier (device report));
  Some {|
    base_performance_mode := mode;
    base_version_id := version;
    base_requested_memory_mb := requested_memory_mb (scenario report);
    base_device_tier := tier;
    base_benchmark_profile := benchmark_profile (scenario report) ≫= normalized_dimension;
    base_benchmark_run_type := benchmark_run_type (scenario report) ≫= normalized_dimension;
    base_benchmark_mode := benchmark_mode (scenario report) ≫= normalized_dimension;
  |}.

(** The order of candidates: a better mode first, then the latest. *)
Definition match_cmp (current : LaunchProofRecord) (l r : LaunchProofRecord * Z)
    : Datatypes.comparison :=
  then_with
    (comparison_baseline_mode_rank current l.1 ?= comparison_baseline_mode_rank current r.1)
    (report_cmp r.1 l.1).

Definition comparison_matches (current : LaunchProofRecord)
    (metric_value : LaunchProofRecord → option Z) (candidates : list LaunchProofRecord)
    : list (LaunchProofRecord * Z) :=
  omap (λ candidate,
      value ← metric_value candidate; if 0 <? value then Some (candidate, value) else None)
    (filter (λ candidate,
       report_precedes candidate current &&
       launch_proof_outcome_is_comparable (outcome candidate) &&
       comparison_dimensions_match current candidate = true) candidates).

Definition build_comparison_from_candidates (current : LaunchProofRecord)
    (candidates : list LaunchProofRecord) : option LaunchProofComparison :=
  if negb (launch_proof_outcome_is_comparable (outcome current)) then None
  else
    '(metric_name, current_value_ms, metric_value) ← launch_comparison_metric_for_current current;
    let matches := sort_by (match_cmp current)
      (comparison_matches current metric_value candidates) in
    '(base, baseline_value_ms) ← head matches;
    let delta_ms := metric_delta_ms current_value_ms baseline_value_ms in
    snapshot ← comparison_baseline_snapshot base;
    Some {|
      baseline_session_id := session_id base;
      baseline_recorded_at := recorded_at base;
      baseline := snapshot;
      matched_sample_count := Z.of_nat (length matches);
      metric_name := metric_name;
      current_value_ms := current_value_ms;
      baseline_value_ms := baseline_value_ms;
      delta_ms := delta_ms;
      delta_percent := metric_delta_percent delta_ms baseline_value_ms;
    |}.

Definition comparison_baseline_matches_report (comparison : LaunchProofComparison)
    (base : LaunchProofRecord) : bool :=
  let metric_value :=
    if str_eqb (metric_name comparison) LAUNCH_STAGE_COMPARISON_METRIC_NAME
    then launch_total_completed_stage_duration_ms base
    else if str_eqb (metric_name comparison) LAUNCH_BOOT_COMPARISON_METRIC_NAME
    then boot_duration_ms base
    else None in
  launch_proof_outcome_is_comparable (outcome base) &&
  str_eqb (baseline_session_id comparison) (session_id base) &&
  str_eqb (baseline_recorded_at comparison) (recorded_at base) &&
  bool_decide (comparison_baseline_snapshot base = Some (baseline comparison)) &&
  bool_decide (metric_value = Some (baseline_value_ms comparison)).

(** ** Sanitisation *)

(** [DateTime::parse_from_rfc3339], rendered with milliseconds and [Z] for the
    offset zero: after a conversion to UTC, and as it was parsed. *)
Class Rfc3339Millis := {
  utc_millis : string → option string;
  local_millis : string → option string;
}.

(** serde_json on reports: the encoder, and the decoder before the checks of
    [CrashEvidence::deserialize]; the text of crash evidence. *)
Class ReportJson := {
  report_to_vec : LaunchProofRecord → option string;
  report_wire : string → option LaunchProofRecord;
  evidence_to_string : CrashEvidence → option string;
}.

Definition id_byte (c : ascii) : bool :=
  is_alphanumeric c || Ascii.eqb c "_" || Ascii.eqb c "-".

Definition valid_report_id (value : string) : bool :=
  negb (is_empty value) && (str_len value <=? 96) && sforall id_byte value.

Definition token_byte (c : ascii) : bool :=
  is_alphanumeric c || Ascii.eqb c "_" || Ascii.eqb c "." || Ascii.eqb c "-" || Ascii.eqb c "+".

Definition safe_token (r : Redactor) (value : string) : option string :=
  if negb (is_empty value) && (str_len value <=? 96) && sforall token_byte value &&
     str_eqb (redact_line r value) value
  then Some value else None.

Definition safe_detail (r : Redactor) (value : string) : option string :=
  let safe := redact_line r value in
  if str_eqb safe value && (chars_count safe <=? 180)%nat then Some safe else None.

(** Editing the comparison. *)
Definition set_comparison (r : LaunchProofRecord) (v : option LaunchProofComparison)
    : LaunchProofRecord := {|
  schema := schema r; schema_version := schema_version r; session_id := session_id r;
  instance_id := instance_id r; version_id := version_id r; launched_at := launched_at r;
  recorded_at := recorded_at r; outcome := outcome r; session_outcome := session_outcome r;
  scenario := scenario r; device := device r; resource_budget := resource_budget r;
  report_exit_code := report_exit_code r; boot_duration_ms := boot_duration_ms r;
  crash_evidence := crash_evidence r; stages := stages r; comparison := v;
  logs := logs r; logs_dropped := logs_dropped r;
|}.

(** [filter_map(f).take(n).collect()]. *)
Definition filter_take {A B} (f : A → option B) (n : nat) (l : list A) : list B :=
  take n (omap f l).

Definition sanitize_stage_evidence (r : Redactor) (e : LaunchProofStageEvidence)
    : option LaunchProofStageEvidence :=
  id ← safe_token r (se_id e);
  system ← safe_token r (se_system e);
  summary ← safe_detail r (se_summary e);
  Some {| se_id := id; se_system := system; se_summary := summary;
          se_details := filter_take (safe_detail r) 4 (se_details e) |}.

Definition sanitize_stage (r : Redactor) (s : LaunchProofStage)
    : result ReportError LaunchProofStage :=
  err_if (is_some_and (ended_at_ms s) (λ ended, ended <? started_at_ms s)) ReportInvalid ;;
  Ok {|
    stage := default "unknown" (safe_token r (stage s));
    stage_label := default "Launch stage" (safe_detail r (stage_label s));
    started_at_ms := started_at_ms s;
    ended_at_ms := ended_at_ms s;
    duration_ms := (λ ended, ended - started_at_ms s) <$> ended_at_ms s;
    stage_result := stage_result s ≫= safe_token r;
    warnings := filter_take (safe_detail r) 8 (warnings s);
    fallback_reason := fallback_reason s ≫= safe_detail r;
    stage_evidence := filter_take (sanitize_stage_evidence r) 4 (stage_evidence s);
  |}.

Definition sanitize_entry (r : Redactor) (previous : Z) (e : LogEntry)
    : result ReportError LogEntry :=
  err_if (sequence e <=? previous) ReportInvalid ;;
  Ok {|
    sequence := sequence e; entry_source := entry_source e;
    text := redact_line r (text e);
    entry_truncated := entry_truncated e || (MAX_LOG_LINE_CHARS <? chars_count (text e))%nat;
  |}.

Fixpoint sanitize_entries (r : Redactor) (previous : Z) (l : list LogEntry)
    : result ReportError (list LogEntry) :=
  match l with
  | [] => Ok []
  | e :: l =>
      e' ← sanitize_entry r previous e;
      l' ← sanitize_entries r (sequence e) l;
      Ok (e' :: l')
  end.

Definition entry_bytes (e : LogEntry) : Z := str_len (text e) + 100.
Definition entries_bytes (l : list LogEntry) : Z := sum_Z (entry_bytes <$> l).

(** How many more entries go while the bytes exceed a third of a report. *)
Fixpoint excess (log_bytes : Z) (rest : list LogEntry) : nat :=
  match rest with
  | [] => 0
  | e :: rest =>
      if MAX_REPORT_BYTES / 3 <? log_bytes
      then S (excess (Z.max 0 (log_bytes - entry_bytes e)) rest) else 0
  end.

(** The number of entries that are removed from the front. *)
Definition removed_entries (l : list LogEntry) : nat :=
  let remove := Z.to_nat (Z.max 0 (Z.of_nat (length l) - MAX_LOG_ENTRIES)) in
  let log_bytes := Z.max 0 (entries_bytes l - entries_bytes (take remove l)) in
  (remove + excess log_bytes (drop remove l))%nat.

Section sanitize.
Context `{Rfc3339Millis} `{ReportJson}.
Variables (b64_encode : string → string) (b64_decode : string → option string).

Definition canonical_time (value : string) : result ReportError string :=
  text ← ok_or ReportInvalid (utc_millis value);
  err_if (negb (str_len text =? 24)) ReportInvalid ;;
  Ok text.

Definition safe_version_id (r : Redactor) (value : string) : option string :=
  if negb (starts_with "loader-v2-" value) then safe_token r value
  else
    match decode_installed_version_id b64_encode b64_decode value with
    | Err _ => None
    | Ok identity =>
        if contains_secret r value then None
        else if forallb (λ coordinate, str_eqb (redact_line r coordinate) coordinate)
          [minecraft_version identity; loader_version identity]
        then Some value else None
    end.

Definition sanitize_scenario (r : Redactor) (s : LaunchProofScenario) : LaunchProofScenario :=
  let mode := default "unknown" (safe_token r (performance_mode s)) in {|
    scenario_id := scenario_id_for_performance_mode mode;
    performance_mode := mode;
    requested_memory_mb := requested_memory_mb s;
    scenario_version_id := scenario_version_id s ≫= safe_version_id r;
    benchmark_profile := benchmark_profile s ≫= safe_token r;
    benchmark_run_type := benchmark_run_type s ≫= safe_token r;
    benchmark_mode := benchmark_mode s ≫= safe_token r;
    benchmark_id := benchmark_id s ≫= safe_token r;
  |}.

Definition sanitize_baseline (r : Redactor) (b : LaunchProofComparisonBaseline)
    : result ReportError LaunchProofComparisonBaseline :=
  version ← ok_or ReportInvalid (safe_version_id r (base_version_id b));
  mode ← ok_or ReportInvalid (safe_token r (base_performance_mode b));
  tier ← ok_or ReportInvalid (safe_token r (base_device_tier b));
  Ok {|
    base_performance_mode := mode; base_version_id := version;
    base_requested_memory_mb := base_requested_memory_mb b; base_device_tier := tier;
    base_benchmark_profile := base_benchmark_profile b ≫= safe_token r;
    base_benchmark_run_type := base_benchmark_run_type b ≫= safe_token r;
    base_benchmark_mode := base_benchmark_mode b ≫= safe_token r;
  |}.

Definition sanitize_comparison (r : Redactor) (session : string)
    (comparison : option LaunchProofComparison)
    : result ReportError (option LaunchProofComparison) :=
  match comparison with
  | None => Ok None
  | Some c =>
      err_if (negb (valid_report_id (baseline_session_id c)) ||
              str_eqb (baseline_session_id c) session ||
              contains_secret r (baseline_session_id c) ||
              (baseline_value_ms c =? 0) || (matched_sample_count c =? 0) ||
              negb (is_finite (delta_percent c)) ||
              negb (char_in [LAUNCH_BOOT_COMPARISON_METRIC_NAME;
                             LAUNCH_STAGE_COMPARISON_METRIC_NAME] (metric_name c)))
        ReportInvalid ;;
      at_ ← canonical_time (baseline_recorded_at c);
      base ← sanitize_baseline r (baseline c);
      let delta := metric_delta_ms (current_value_ms c) (baseline_value_ms c) in
      Ok (Some {|
        baseline_session_id := baseline_session_id c; baseline_recorded_at := at_;
        baseline := base; matched_sample_count := matched_sample_count c;
        metric_name := metric_name c; current_value_ms := current_value_ms c;
        baseline_value_ms := baseline_value_ms c; delta_ms := delta;
        delta_percent := metric_delta_percent delta (baseline_value_ms c) |})
  end.

(** Crash evidence whose text names a private text is not kept. *)
Definition sanitize_evidence (r : Redactor) (e : option CrashEvidence) : option CrashEvidence :=
  e ← e;
  if is_some_and (evidence_to_string e) (contains_secret r) then None else Some e.

Definition sanitize_report (report : LaunchProofRecord) (r : Redactor)
    : result ReportError LaunchProofRecord :=
  err_if (negb (str_eqb (schema report) "axial.launch.proof") ||
          negb (schema_version report =? 4) ||
          negb (valid_report_id (session_id report)) ||
          negb (valid_report_id (instance_id report)) ||
          contains_secret r (session_id report) || contains_secret r (instance_id report))
    ReportInvalid ;;
  launched ← canonical_time (launched_at report);
  recorded ← canonical_time (recorded_at report);
  err_if (is_lt (str_cmp recorded launched)) ReportInvalid ;;
  stages' ← try_map (sanitize_stage r) (take 32 (stages report));
  entries ← sanitize_entries r 0 (logs report);
  let remove := removed_entries entries in
  comparison' ← sanitize_comparison r (session_id report) (comparison report);
  let o := session_outcome report in
  Ok {|
    schema := schema report; schema_version := schema_version report;
    session_id := session_id report; instance_id := instance_id report;
    version_id := default "unknown" (safe_version_id r (version_id report));
    launched_at := launched; recorded_at := recorded;
    outcome := outcome_name o;
    session_outcome := {| kind := kind o; reason := reason o; failure_class := failure_class o;
                          summary := outcome_summary o |};
    scenario := sanitize_scenario r (scenario report);
    device := {| tier := default "unknown" (safe_token r (tier (device report)));
                 total_memory_mb := total_memory_mb (device report);
                 cpu_threads := cpu_threads (device report) |};
    resource_budget := resource_budget report;
    report_exit_code := report_exit_code report;
    boot_duration_ms := boot_duration_ms report;
    crash_evidence := sanitize_evidence r (crash_evidence report);
    stages := stages';
    comparison := comparison';
    logs := drop remove entries;
    logs_dropped := saturating_add_u64 (logs_dropped report) (Z.of_nat remove);
  |}.

(** ** Encoding *)

Definition no_redactor : Redactor := redactor_new [].

Definition encode_report (report : LaunchProofRecord) : result ReportError string :=
  report ← sanitize_report report no_redactor;
  bytes ← ok_or ReportInvalid (report_to_vec report);
  err_if (MAX_REPORT_BYTES <? str_len bytes) TooLarge ;;
  Ok bytes.

(** [serde_json::from_slice]. *)
Definition report_from_slice (bytes : string) : option LaunchProofRecord :=
  report ← report_wire bytes;
  if is_none_or (crash_evidence report) (λ e, is_ok (deserialize_evidence e))
  then Some report else None.

Definition decode_report (bytes : string) : result ReportError LaunchProofRecord :=
  err_if (MAX_REPORT_BYTES <? str_len bytes) TooLarge ;;
  report ← ok_or ReportInvalid (report_from_slice bytes);
  sanitize_report report no_redactor.

Definition decode_stored_report (session instance recorded bytes : string)
    : result ReportError LaunchProofRecord :=
  saved ← decode_report bytes;
  original ← ok_or ReportInvalid (report_from_slice bytes);
  err_if (negb (str_eqb (session_id saved) session) || negb (str_eqb (instance_id saved) instance) ||
          negb (str_eqb (recorded_at saved) recorded) || negb (report_eqb saved original))
    ReportInvalid ;;
  Ok saved.
End sanitize.
