(* ===== verification/LaunchReportProps.v ===== *)
(** * What sanitisation and comparison of reports guarantee

    A sanitised report is a fixpoint of sanitising again, which is what the
    store compares stored reports by; and a comparison names the best earlier
    session among those it may be compared with. *)

From S2P Require Import Prelude RustStr RustText RustFloat McLoaderIdentity SettingsModel.
From S2P Require Import LaunchCrash LaunchOutcome LaunchLogs LaunchRedact LaunchReports.

Open Scope string_scope.
Open Scope list_scope.
Open Scope Z_scope.

(** ** Redaction that changes nothing *)

Lemma redact_fix_sub r r' v :
  secrets r' ⊆ secrets r → redact_line r v = v → redact_line r' v = v.
Proof.
  intros Hsub Hfix. destruct (redact_cases r v) as [E|[[E Hlen]|(Hsecret & Hcontrol & Hsens & Hsize & E)]].
  - rewrite E in Hfix. subst v. apply redact_redacted.
  - rewrite E in Hfix. subst v. by vm_compute in Hlen.
  - rewrite E in Hfix. unfold redact_line.
    rewrite (proj2 (Z.ltb_ge _ _) Hsize), (contains_secret_sub _ _ _ Hsub Hsecret), Hcontrol, Hsens.
    exact Hfix.
Qed.

(** [f] returns what it accepts, and [f'] accepts that too. *)
Definition keeps {A} (f f' : A → option A) : Prop := ∀ x y, f x = Some y → f' y = Some y.

Lemma keeps_bind {A} (f f' : A → option A) (o : option A) :
  keeps f f' → (o ≫= f) ≫= f' = o ≫= f.
Proof.
  intros Hk. destruct o as [x|]; [|done]. cbn [mbind option_bind].
  destruct (f x) as [y|] eqn:E; [|done]. by apply (Hk x).
Qed.

Lemma keeps_default {A} (f f' : A → option A) (d x : A) :
  keeps f f' → (f' d = Some d ∨ f' d = None) →
  default d (f' (default d (f x))) = default d (f x).
Proof.
  intros Hk Hd. destruct (f x) as [y|] eqn:E; cbn [default from_option id].
  - by rewrite (Hk x y E).
  - by destruct Hd as [-> | ->].
Qed.

Lemma keeps_filter_take {A} (f f' : A → option A) n l :
  keeps f f' → filter_take f' n (filter_take f n l) = filter_take f n l.
Proof.
  intros Hk. unfold filter_take.
  assert (∀ k : list A, (∀ y, y ∈ k → f' y = Some y) → omap f' k = k) as Hid.
  { induction k as [|y k IH]; intros H; [done|]. cbn [omap list_omap].
    rewrite (H y) by left. f_equal. apply IH. intros z Hz. apply H. by right. }
  rewrite Hid.
  - apply list.take_ge. rewrite length_take. lia.
  - intros y Hy%list.elem_of_take. destruct Hy as (i & Hy & _).
    apply list_elem_of_lookup_2, list_elem_of_omap in Hy as (x & _ & Hx). by apply (Hk x).
Qed.

Section sanitize.
Context `{Rfc3339Millis} `{ReportJson}.
Variables (b64_encode : string → string) (b64_decode : string → option string).
Variables (r r' : Redactor).
Hypothesis fewer : secrets r' ⊆ secrets r.
(** Documented of the time functions: what is rendered reads as itself. *)
Hypothesis millis_canonical : ∀ value t, utc_millis value = Some t → utc_millis t = Some t.

Lemma safe_token_some q v t :
  safe_token q v = Some t ↔
  t = v ∧ negb (is_empty v) && (str_len v <=? 96) && sforall token_byte v = true ∧ redact_line q v = v.
Proof.
  unfold safe_token. rewrite <-(str_eqb_spec (redact_line q v) v).
  destruct (_ && str_eqb _ _) eqn:E.
  - apply andb_true_iff in E as [-> ->]. naive_solver.
  - split; [done|]. intros (_ & Ha & Hb). by rewrite Ha, Hb in E.
Qed.

Lemma safe_token_keeps : keeps (safe_token r) (safe_token r').
Proof.
  intros v t (-> & Hv & Hfix)%safe_token_some. apply safe_token_some. split_and!; [done..|].
  by eapply redact_fix_sub.
Qed.

Lemma safe_detail_keeps : keeps (safe_detail r) (safe_detail r').
Proof.
  intros v t. unfold safe_detail. destruct (str_eqb _ v) eqn:E; [|done].
  apply str_eqb_spec in E. rewrite E. destruct (_ <=? _)%nat eqn:Hc; [|done]. intros [= <-].
  assert (redact_line r' v = v) as -> by (by eapply redact_fix_sub).
  by rewrite (proj2 (str_eqb_spec v v) eq_refl), Hc.
Qed.

Lemma or_none {A} (f : A → option A) d : (∀ y, f d = Some y → y = d) → f d = Some d ∨ f d = None.
Proof. intros Hf. destruct (f d) as [y|]; [left; by rewrite (Hf y)|by right]. Qed.

Lemma safe_token_same q v t : safe_token q v = Some t → t = v.
Proof. by intros (-> & _)%safe_token_some. Qed.

Lemma safe_detail_same q v t : safe_detail q v = Some t → t = v.
Proof.
  unfold safe_detail. destruct (str_eqb _ v) eqn:E; [|done]. apply str_eqb_spec in E. rewrite E.
  destruct (_ <=? _)%nat; [|done]. by intros [= <-].
Qed.

Notation safe_version_id := (safe_version_id b64_encode b64_decode).

Lemma safe_version_id_keeps : keeps (safe_version_id r) (safe_version_id r').
Proof.
  intros v t. unfold LaunchReports.safe_version_id.
  destruct (negb (starts_with "loader-v2-" v)) eqn:Ep.
  { intros Ht. pose proof (safe_token_same _ _ _ Ht) as ->. rewrite Ep.
    by apply (safe_token_keeps v). }
  destruct (decode_installed_version_id _ _ v) as [identity|] eqn:Ed; [|done].
  destruct (contains_secret r v) eqn:Es; [done|].
  destruct (forallb _ _) eqn:Ef; [|done]. intros [= <-]. rewrite Ep, Ed.
  rewrite (contains_secret_sub _ _ _ fewer Es).
  assert (forallb (λ coordinate, str_eqb (redact_line r' coordinate) coordinate)
    [minecraft_version identity; loader_version identity] = true) as ->; [|done].
  simpl in *. rewrite !andb_true_iff, !str_eqb_spec in *.
  destruct Ef as (E1 & E2 & _). split_and!; [by eapply redact_fix_sub..|done].
Qed.

Lemma safe_version_id_same q v t : safe_version_id q v = Some t → t = v.
Proof.
  unfold LaunchReports.safe_version_id. destruct (negb _); [apply safe_token_same|].
  destruct (decode_installed_version_id _ _ v); [|done]. destruct (contains_secret q v); [done|].
  destruct (forallb _ _); [|done]. congruence.
Qed.

Lemma canonical_time_fix value t : canonical_time value = Ok t → canonical_time t = Ok t.
Proof.
  unfold canonical_time. destruct (utc_millis value) as [u|] eqn:E; [|done].
  cbn [ok_or mbind result_bind]. destruct (negb (str_len u =? 24)) eqn:El; [done|].
  cbn [err_if mbind result_bind]. intros [= <-]. rewrite (millis_canonical _ _ E).
  cbn [ok_or mbind result_bind]. by rewrite El.
Qed.

Lemma scenario_fix s :
  sanitize_scenario b64_encode b64_decode r' (sanitize_scenario b64_encode b64_decode r s) =
  sanitize_scenario b64_encode b64_decode r s.
Proof.
  unfold sanitize_scenario. cbn [performance_mode requested_memory_mb scenario_version_id
    benchmark_profile benchmark_run_type benchmark_mode benchmark_id].
  rewrite !(keeps_bind _ _ _ safe_token_keeps), (keeps_bind _ _ _ safe_version_id_keeps).
  rewrite keeps_default; [done|apply safe_token_keeps|].
  apply or_none. apply safe_token_same.
Qed.

Lemma stage_evidence_keeps : keeps (sanitize_stage_evidence r) (sanitize_stage_evidence r').
Proof.
  intros e e'. unfold sanitize_stage_evidence.
  destruct (safe_token r (se_id e)) as [i|] eqn:E1; [|done].
  destruct (safe_token r (se_system e)) as [s|] eqn:E2; [|done].
  destruct (safe_detail r (se_summary e)) as [u|] eqn:E3; [|done].
  cbn [mbind option_bind]. intros [= <-]. cbn [se_id se_system se_summary se_details].
  rewrite (safe_token_keeps _ _ E1), (safe_token_keeps _ _ E2), (safe_detail_keeps _ _ E3).
  cbn [mbind option_bind]. by rewrite (keeps_filter_take _ _ _ _ safe_detail_keeps).
Qed.

Lemma stage_fix s s' : sanitize_stage r s = Ok s' → sanitize_stage r' s' = Ok s'.
Proof.
  unfold sanitize_stage. destruct (is_some_and _ _) eqn:E; [done|].
  cbn [err_if mbind result_bind]. intros [= <-].
  cbn [started_at_ms ended_at_ms stage stage_label duration_ms stage_result warnings
    fallback_reason stage_evidence]. rewrite E. cbn [err_if mbind result_bind]. do 2 f_equal.
  - apply keeps_default; [apply safe_token_keeps|]. apply or_none, safe_token_same.
  - apply keeps_default; [apply safe_detail_keeps|]. apply or_none, safe_detail_same.
  - apply keeps_bind, safe_token_keeps.
  - apply keeps_filter_take, safe_detail_keeps.
  - apply keeps_bind, safe_detail_keeps.
  - apply keeps_filter_take, stage_evidence_keeps.
Qed.

Lemma stages_fix l l' :
  try_map (sanitize_stage r) (take 32 l) = Ok l' →
  try_map (sanitize_stage r') (take 32 l') = Ok l'.
Proof.
  intros Hl. apply try_map_ok in Hl. assert (length (take 32 l) = length l') as Hlen by (by eapply list.Forall2_length).
  rewrite length_take in Hlen.
  rewrite list.take_ge by lia.
  apply try_map_ok. clear Hlen. induction Hl as [|s s' l0 l0' Hs _ IH]; [constructor|].
  constructor; [by eapply stage_fix|done].
Qed.

Lemma baseline_fix b b' :
  sanitize_baseline b64_encode b64_decode r b = Ok b' →
  sanitize_baseline b64_encode b64_decode r' b' = Ok b'.
Proof.
  unfold sanitize_baseline.
  destruct (safe_version_id r _) as [v|] eqn:E1; [|done].
  destruct (safe_token r (base_performance_mode b)) as [m|] eqn:E2; [|done].
  destruct (safe_token r (base_device_tier b)) as [t|] eqn:E3; [|done].
  cbn [ok_or mbind result_bind]. intros [= <-].
  cbn [base_version_id base_performance_mode base_device_tier base_requested_memory_mb
    base_benchmark_profile base_benchmark_run_type base_benchmark_mode].
  rewrite (safe_version_id_keeps _ _ E1), (safe_token_keeps _ _ E2), (safe_token_keeps _ _ E3).
  cbn [ok_or mbind result_bind]. by rewrite !(keeps_bind _ _ _ safe_token_keeps).
Qed.

(** *** Entries *)

Definition entries_ok (previous : Z) (l : list LogEntry) : Prop :=
  Forall (λ e, previous < sequence e ∧ (chars_count (text e) ≤ MAX_LOG_LINE_CHARS)%nat) l ∧
  StronglySorted (λ a b, sequence a < sequence b) l.

Lemma sanitize_entries_ok q previous l l' :
  sanitize_entries q previous l = Ok l' → entries_ok previous l'.
Proof.
  revert previous l'. induction l as [|e l IH]; intros previous l'; cbn [sanitize_entries].
  { intros [= <-]. split; constructor. }
  unfold sanitize_entry. destruct (sequence e <=? previous) eqn:E; [done|]. apply Z.leb_gt in E.
  cbn [err_if mbind result_bind].
  destruct (sanitize_entries q (sequence e) l) as [k|] eqn:Ek; [|done]. intros [= <-].
  destruct (IH _ _ Ek) as [Hf Hs]. split.
  - constructor; [split; [done|apply redact_chars]|].
    eapply list.Forall_impl; [exact Hf|]. intros x [? ?]. split; [lia|done].
  - constructor; [done|]. eapply list.Forall_impl; [exact Hf|]. by intros x [? ?].
Qed.

Lemma sanitize_entries_fix previous l :
  entries_ok previous l → Forall (λ e, redact_line r' (text e) = text e) l →
  sanitize_entries r' previous l = Ok l.
Proof.
  intros [Hf Hs] Hfix. revert previous Hf. induction Hs as [|e l Hs IH Hall]; intros previous Hf;
    [done|].
  apply list.Forall_cons in Hfix as [He Hfix]. apply list.Forall_cons in Hf as [[Hseq Hchars] Hf].
  cbn [sanitize_entries]. unfold sanitize_entry. rewrite (proj2 (Z.leb_gt _ _) Hseq).
  cbn [err_if mbind result_bind]. rewrite (IH Hfix (sequence e)).
  - rewrite He, (proj2 (Nat.ltb_ge _ _) Hchars), orb_false_r. by destruct e.
  - apply list.Forall_forall. intros x Hx. rewrite list.Forall_forall in Hall, Hf.
    destruct (Hf x Hx). auto.
Qed.

Lemma entries_ok_drop n previous l : entries_ok previous l → entries_ok previous (drop n l).
Proof.
  intros [Hf Hs]. split; [by apply list.Forall_drop|].
  revert n. induction Hs as [|e l Hs IH Hall]; intros n; [rewrite list.drop_nil; constructor|].
  destruct n; [by constructor|apply IH].
  by apply list.Forall_cons in Hf as [_ ?].
Qed.

Lemma entries_bytes_cons e l : entries_bytes (e :: l) = entry_bytes e + entries_bytes l.
Proof. done. Qed.

Lemma entries_bytes_nonneg l : 0 ≤ entries_bytes l.
Proof.
  induction l as [|e l IH]; [done|]. rewrite entries_bytes_cons. unfold entry_bytes.
  pose proof (str_len_nonneg (text e)). lia.
Qed.

Lemma entries_bytes_split n l :
  entries_bytes l - entries_bytes (take n l) = entries_bytes (drop n l).
Proof.
  rewrite <-(take_drop n l) at 1. unfold entries_bytes. rewrite fmap_app, sum_Z_app. lia.
Qed.

Lemma excess_enough l :
  entries_bytes (drop (excess (entries_bytes l) l) l) ≤ MAX_REPORT_BYTES / 3.
Proof.
  induction l as [|e l IH]; [done|]. cbn [excess].
  destruct (Z.ltb_spec (MAX_REPORT_BYTES / 3) (entries_bytes (e :: l))); [|done].
  pose proof (entries_bytes_nonneg l).
  replace (Z.max 0 (entries_bytes (e :: l) - entry_bytes e)) with (entries_bytes l); [done|].
  rewrite entries_bytes_cons. lia.
Qed.

Lemma excess_none b l : b ≤ MAX_REPORT_BYTES / 3 → excess b l = 0%nat.
Proof. intros Hb. destruct l; [done|]. cbn [excess]. by rewrite (proj2 (Z.ltb_ge _ _) Hb). Qed.

(** What is left is within both limits, and loses nothing more. *)
Lemma kept_entries l :
  let kept := drop (removed_entries l) l in
  Z.of_nat (length kept) ≤ MAX_LOG_ENTRIES ∧ entries_bytes kept ≤ MAX_REPORT_BYTES / 3 ∧
  removed_entries kept = 0%nat.
Proof.
  set (cut := Z.to_nat (Z.max 0 (Z.of_nat (length l) - MAX_LOG_ENTRIES))).
  assert (removed_entries l =
    (cut + excess (entries_bytes (drop cut l)) (drop cut l))%nat) as E.
  { unfold removed_entries. fold cut. rewrite entries_bytes_split.
    pose proof (entries_bytes_nonneg (drop cut l)). by rewrite Z.max_r by done. }
  cbn zeta. rewrite E, <-drop_drop. set (rest := drop cut l).
  pose proof (excess_enough rest) as Hbytes. set (kept := drop _ rest) in *.
  assert (Z.of_nat (length kept) ≤ MAX_LOG_ENTRIES) as Hlen.
  { unfold kept, rest. rewrite !length_drop. unfold cut.
    assert (0 ≤ MAX_LOG_ENTRIES) by done. lia. }
  split_and!; [done..|]. unfold removed_entries.
  rewrite Z.max_l by lia. change (Z.to_nat 0) with 0%nat. rewrite list.take_0, list.drop_0.
  change (entries_bytes []) with 0. assert (0 ≤ MAX_REPORT_BYTES / 3) by done.
  by rewrite excess_none by lia.
Qed.

(** *** Reports *)

Lemma comparison_fix session c c' :
  sanitize_comparison b64_encode b64_decode r session c = Ok c' →
  (∀ x, c' = Some x → is_finite (delta_percent x) = true) →
  sanitize_comparison b64_encode b64_decode r' session c' = Ok c'.
Proof.
  unfold sanitize_comparison. destruct c as [c|]; [|by intros [= <-]].
  destruct (_ || negb (char_in _ _)) eqn:E; [done|]. cbn [err_if mbind result_bind].
  destruct (canonical_time (baseline_recorded_at c)) as [t|] eqn:Et; [|done].
  destruct (sanitize_baseline _ _ _ (baseline c)) as [b|] eqn:Eb; [|done].
  cbn [mbind result_bind]. intros [= <-] Hfinite. specialize (Hfinite _ eq_refl).
  cbn [baseline_session_id baseline_recorded_at baseline matched_sample_count metric_name
    current_value_ms baseline_value_ms delta_ms delta_percent] in *.
  apply orb_false_iff in E as [E Hm].
  do 5 apply orb_false_iff in E as [E ?].
  rewrite Hfinite, (canonical_time_fix _ _ Et), (baseline_fix _ _ Eb).
  destruct (contains_secret r _) eqn:Es; [done|].
  rewrite (contains_secret_sub _ _ _ fewer Es).
  destruct (valid_report_id _), (str_eqb _ session), (baseline_value_ms c =? 0),
    (matched_sample_count c =? 0), (char_in _ _); done.
Qed.

(** What a sanitised report may still change under redaction. *)
Definition settled_report (report : LaunchProofRecord) : Prop :=
  Forall (λ e, redact_line r' (text e) = text e) (logs report) ∧
  ∀ c, comparison report = Some c → is_finite (delta_percent c) = true.

Lemma sanitize_fix report report' :
  sanitize_report b64_encode b64_decode report r = Ok report' → settled_report report' →
  sanitize_report b64_encode b64_decode report' r' = Ok report'.
Proof.
  unfold sanitize_report. destruct (_ || contains_secret r (instance_id report)) eqn:E; [done|].
  cbn [err_if mbind result_bind].
  destruct (canonical_time (launched_at report)) as [lt|] eqn:El; [|done].
  destruct (canonical_time (recorded_at report)) as [rt|] eqn:Er; [|done].
  cbn [mbind result_bind]. destruct (is_lt (str_cmp rt lt)) eqn:Elt; [done|].
  cbn [err_if mbind result_bind].
  destruct (try_map _ (take 32 (stages report))) as [st|] eqn:Est; [|done].
  destruct (sanitize_entries r 0 (logs report)) as [en|] eqn:Een; [|done].
  cbn [mbind result_bind].
  destruct (sanitize_comparison _ _ _ _ (comparison report)) as [co|] eqn:Eco; [|done].
  cbn [mbind result_bind]. intros [= <-] [Hlogs Hfinite].
  cbn [schema schema_version session_id instance_id version_id launched_at recorded_at outcome
    session_outcome scenario device resource_budget report_exit_code boot_duration_ms
    crash_evidence stages comparison logs logs_dropped] in *.
  apply orb_false_iff in E as [E Es2]. apply orb_false_iff in E as [E Es1].
  rewrite E, (contains_secret_sub _ _ _ fewer Es1), (contains_secret_sub _ _ _ fewer Es2).
  cbn [orb err_if mbind result_bind].
  rewrite (canonical_time_fix _ _ El), (canonical_time_fix _ _ Er). cbn [mbind result_bind].
  rewrite Elt, (stages_fix _ _ Est). cbn [err_if mbind result_bind].
  rewrite (sanitize_entries_fix 0 (drop (removed_entries en) en)) by
    (first [exact Hlogs|by eapply entries_ok_drop, sanitize_entries_ok]).
  cbn [mbind result_bind].
  rewrite (comparison_fix _ _ _ Eco Hfinite). cbn [mbind result_bind].
  destruct (kept_entries en) as (_ & _ & ->).
  rewrite drop_0. do 2 f_equal.
  - apply keeps_default; [apply safe_version_id_keeps|]. apply or_none, safe_version_id_same.
  - apply scenario_fix.
  - cbn [tier total_memory_mb cpu_threads]. f_equal.
    apply keeps_default; [apply safe_token_keeps|]. apply or_none, safe_token_same.
  - unfold sanitize_evidence. destruct (crash_evidence report) as [ce|]; [|done].
    cbn [mbind option_bind]. destruct (is_some_and _ _) eqn:Ee; [done|]. cbn [mbind option_bind].
    destruct (evidence_to_string ce) as [t|]; [|done]. simpl in *.
    by rewrite (contains_secret_sub _ _ _ fewer Ee).
  - unfold saturating_add_u64. lia.
Qed.
End sanitize.

(** ** Comparisons *)

#[global] Instance report_cmp_preorder : CmpPreorder report_cmp.
Proof.
  apply (cmp_preorder_ext report_cmp
    (cmp_then (cmp_on recorded_at str_cmp) (cmp_on session_id str_cmp))); [done|apply _].
Qed.

#[global] Instance match_cmp_preorder current : CmpPreorder (match_cmp current).
Proof.
  apply (cmp_preorder_ext (match_cmp current)
    (cmp_then (cmp_on (comparison_baseline_mode_rank current ∘ fst) Z.compare)
      (cmp_rev (cmp_on fst report_cmp)))); [done|apply _].
Qed.

(** [candidate] may be compared with, and its metric is [value]. *)
Definition eligible (current : LaunchProofRecord) (metric : LaunchProofRecord → option Z)
    (candidate : LaunchProofRecord) (value : Z) : Prop :=
  report_precedes candidate current = true ∧ outcome candidate = "exited" ∧
  comparison_dimensions_match current candidate = true ∧
  metric candidate = Some value ∧ 0 < value.

Lemma elem_of_matches current metric candidates x v :
  (x, v) ∈ comparison_matches current metric candidates ↔
  x ∈ candidates ∧ eligible current metric x v.
Proof.
  unfold comparison_matches, eligible. rewrite list_elem_of_omap. split.
  - intros (y & [Hf Hy]%list_elem_of_filter & Hv).
    apply andb_true_iff in Hf as [[Hp Ho]%andb_true_iff Hd].
    destruct (metric y) as [w|] eqn:Ew; [|done]. cbn [mbind option_bind] in Hv.
    destruct (Z.ltb_spec 0 w); [|done]. injection Hv as <- <-.
    apply str_eqb_spec in Ho. done.
  - intros (Hx & Hp & Ho & Hd & Hm & Hv). exists x. split.
    + apply list_elem_of_filter. split; [|done]. rewrite Hp, Hd.
      unfold launch_proof_outcome_is_comparable. by rewrite (proj2 (str_eqb_spec _ _) Ho).
    + rewrite Hm. cbn [mbind option_bind]. by rewrite (proj2 (Z.ltb_lt _ _) Hv).
Qed.

Lemma dimensions_snapshot current candidate :
  comparison_dimensions_match current candidate = true →
  is_Some (comparison_baseline_snapshot candidate).
Proof.
  unfold comparison_dimensions_match. rewrite !andb_true_iff.
  intros (((((((_ & Hmodes) & Hversion) & _) & Htier) & _) & _) & _).
  unfold comparison_baseline_snapshot.
  unfold launch_modes_are_comparable, modes in Hmodes.
  destruct (known_launch_mode current); [|done]. cbn [mbind option_bind] in Hmodes.
  destruct (known_launch_mode candidate); [|done].
  unfold required_version_targets_match in Hversion.
  destruct (normalized_version_target current); [|done].
  destruct (normalized_version_target candidate); [|done].
  unfold required_dimensions_match in Htier.
  destruct (normalized_dimension (tier (device current))); [|done].
  destruct (normalized_dimension (tier (device candidate))); [|done].
  cbn [mbind option_bind]. by eexists.
Qed.

(** The best of the matches: every other has a worse mode, or as good a one and
    does not come later. *)
Definition best_match (current : LaunchProofRecord) (l : list (LaunchProofRecord * Z))
    (x : LaunchProofRecord * Z) : Prop :=
  x ∈ l ∧ ∀ y, y ∈ l →
    comparison_baseline_mode_rank current x.1 < comparison_baseline_mode_rank current y.1 ∨
    comparison_baseline_mode_rank current x.1 = comparison_baseline_mode_rank current y.1 ∧
    report_cmp y.1 x.1 ≠ Gt.

Lemma match_cmp_best current x y :
  match_cmp current x y ≠ Gt →
  comparison_baseline_mode_rank current x.1 < comparison_baseline_mode_rank current y.1 ∨
  comparison_baseline_mode_rank current x.1 = comparison_baseline_mode_rank current y.1 ∧
  report_cmp y.1 x.1 ≠ Gt.
Proof.
  unfold match_cmp, then_with. intros Hc. destruct (Z.compare_spec
    (comparison_baseline_mode_rank current x.1) (comparison_baseline_mode_rank current y.1));
    [by right|by left|done].
Qed.

Lemma head_sorted_best current l :
  match head (sort_by (match_cmp current) l) with
  | Some x => best_match current l x
  | None => l = []
  end.
Proof.
  pose proof (sort_by_perm (match_cmp current) l) as Hp.
  pose proof (sort_by_sorted (match_cmp current) l) as Hs.
  destruct (sort_by (match_cmp current) l) as [|x k]; cbn [head].
  { by apply Permutation_nil_l in Hp. }
  apply StronglySorted_inv in Hs as [_ Hall].
  split; [rewrite <-Hp; by left|]. intros y Hy. apply match_cmp_best. rewrite <-Hp in Hy.
  apply elem_of_cons in Hy as [->|Hy]; [by rewrite (cmp_refl (match_cmp current))|].
  rewrite list.Forall_forall in Hall. by apply Hall.
Qed.

Lemma metric_reads current name value metric :
  launch_comparison_metric_for_current current = Some (name, value, metric) →
  metric current = Some value ∧
  ((name = LAUNCH_BOOT_COMPARISON_METRIC_NAME ∧ metric = launch_boot_duration_ms) ∨
   (name = LAUNCH_STAGE_COMPARISON_METRIC_NAME ∧
    metric = launch_total_completed_stage_duration_ms)).
Proof.
  unfold launch_comparison_metric_for_current.
  destruct (boot_duration_ms current) as [b|] eqn:Eb.
  - intros [= <- <- <-]. auto.
  - destruct (launch_total_completed_stage_duration_ms current) as [v|] eqn:Ev; [|done].
    intros [= <- <- <-]. auto.
Qed.

Lemma matches_baseline_report current name value metric base v snapshot count delta percent :
  launch_comparison_metric_for_current current = Some (name, value, metric) →
  eligible current metric base v → comparison_baseline_snapshot base = Some snapshot →
  comparison_baseline_matches_report {|
    baseline_session_id := session_id base; baseline_recorded_at := recorded_at base;
    baseline := snapshot; matched_sample_count := count; metric_name := name;
    current_value_ms := value; baseline_value_ms := v; delta_ms := delta;
    delta_percent := percent |} base = true.
Proof.
  intros Hmetric (_ & Ho & _ & Hv & _) Hsnapshot. unfold comparison_baseline_matches_report.
  cbn [metric_name baseline_session_id baseline_recorded_at baseline baseline_value_ms].
  unfold launch_proof_outcome_is_comparable.
  rewrite (proj2 (str_eqb_spec (outcome base) _) Ho), Hsnapshot.
  rewrite !(proj2 (str_eqb_spec _ _) eq_refl), bool_decide_true by done. cbn [andb].
  apply bool_decide_eq_true.
  by destruct (metric_reads _ _ _ _ Hmetric) as [_ [[-> ->]|[-> ->]]].
Qed.

(** A session is compared with an earlier one exactly when it exited, has a
    metric, and some earlier session that exited matches it in every dimension
    with a positive value of that metric.  The comparison then describes the
    best of these: a vanilla baseline for a managed session before others, and
    the latest among equals.  It counts all of them, passes the check against
    its baseline's own report, and its difference is that of the two values. *)
Theorem comparison_best_baseline current candidates :
  (is_Some (build_comparison_from_candidates current candidates) ↔
     outcome current = "exited" ∧
     ∃ name value metric candidate v,
       launch_comparison_metric_for_current current = Some (name, value, metric) ∧
       candidate ∈ candidates ∧ eligible current metric candidate v) ∧
  ∀ c, build_comparison_from_candidates current candidates = Some c →
    ∃ name value metric base v,
      launch_comparison_metric_for_current current = Some (name, value, metric) ∧
      best_match current (comparison_matches current metric candidates) (base, v) ∧
      base ∈ candidates ∧ eligible current metric base v ∧
      comparison_baseline_matches_report c base = true ∧
      matched_sample_count c = Z.of_nat (length (comparison_matches current metric candidates)) ∧
      delta_ms c = metric_delta_ms value v.
Proof.
  unfold build_comparison_from_candidates, launch_proof_outcome_is_comparable.
  destruct (str_eqb (outcome current) "exited") eqn:Eo; cbn [negb].
  2:{ apply str_eqb_false in Eo. split; [|done].
      split; [by intros [? [=]]|by intros [? _]]. }
  apply str_eqb_spec in Eo.
  destruct (launch_comparison_metric_for_current current) as [[[name value] metric]|] eqn:Em.
  2:{ split; [|done]. split; [by intros [? [=]]|by intros (_ & ? & ? & ? & ? & ? & [=] & _)]. }
  cbn [mbind option_bind].
  pose proof (head_sorted_best current (comparison_matches current metric candidates)) as Hhead.
  pose proof (Permutation_length
    (sort_by_perm (match_cmp current) (comparison_matches current metric candidates))) as Hlen.
  destruct (head _) as [[base v]|].
  - destruct Hhead as [Hin Hbest].
    pose proof Hin as [Hbase Hel]%elem_of_matches.
    destruct (dimensions_snapshot current base) as [snapshot Hsnap]; [by apply Hel|].
    cbn [mbind option_bind]. rewrite Hsnap. split.
    + split; [|by intros _; eexists]. intros _. split; [done|]. by exists name, value, metric, base, v.
    + intros c [= <-]. exists name, value, metric, base, v. split_and!; try done.
      * by eapply matches_baseline_report.
      * cbn [matched_sample_count]. by rewrite Hlen.
  - split; [|done]. split; [by intros [? [=]]|].
    intros (_ & n' & v' & m' & x & w & [= <- <- <-] & Hx & Hel). exfalso.
    assert ((x, w) ∈ comparison_matches current metric candidates) as Hin
      by (by apply elem_of_matches). rewrite Hhead in Hin. by apply elem_of_nil in Hin.
Qed.

(** ** Encoding *)

Lemma comparison_eqb_refl c : is_finite (delta_percent c) = true → comparison_eqb c c = true.
Proof.
  intros Hf. unfold comparison_eqb.
  by rewrite !(proj2 (str_eqb_spec _ _) eq_refl), bool_decide_true, !Z.eqb_refl, f64_eqb_refl.
Qed.

Lemma report_eqb_refl report :
  (∀ c, comparison report = Some c → is_finite (delta_percent c) = true) →
  report_eqb report report = true.
Proof.
  intros Hf. unfold report_eqb.
  rewrite !(proj2 (str_eqb_spec _ _) eq_refl), !bool_decide_true, !Z.eqb_refl by done.
  destruct (comparison report) as [c|]; [|done]. by rewrite (comparison_eqb_refl c (Hf c eq_refl)).
Qed.

(** The evidence of a report was made by the program: parsed from a crash
    artifact, or decoded. *)
Definition evidence_made (report : LaunchProofRecord) : Prop :=
  ∀ e, crash_evidence report = Some e →
    (∃ source raw, parse_crash_evidence source raw = Some e) ∨ deserialize_evidence e = Ok e.

(** No two suspected mods carry the same name and version. *)
Definition mods_distinct (report : LaunchProofRecord) : Prop :=
  ∀ e, crash_evidence report = Some e → NoDup (ce_suspected_mods e).

Lemma made_evidence_decodes report e :
  evidence_made report → crash_evidence report = Some e →
  (NoDup (ce_suspected_mods e) ∧ deserialize_evidence e = Ok e) ∨
  (¬ NoDup (ce_suspected_mods e) ∧ deserialize_evidence e = Err DuplicateMod).
Proof.
  intros Hmade He. destruct (Hmade e He) as [(source & raw & Hparse)|Hd].
  - destruct (parsed_evidence_reads_back _ _ _ Hparse) as (_ & _ & ->). case_decide; [by left|by right].
  - left. split; [|done]. unfold deserialize_evidence in Hd. ok_inv.
    rename select (repeats _ _ = false) into Hr. by apply (repeats_spec []) in Hr; [|constructor].
Qed.

Section encode.
Context `{Rfc3339Millis} `{ReportJson}.
Variables (b64_encode : string → string) (b64_decode : string → option string).
Hypothesis millis_canonical : ∀ value t, utc_millis value = Some t → utc_millis t = Some t.
(** Documented of serde_json with exact floats: a report of finite floats reads
    back as it was written. *)
Hypothesis report_json_reads : ∀ report bytes,
  (∀ c, comparison report = Some c → is_finite (delta_percent c) = true) →
  report_to_vec report = Some bytes → report_wire bytes = Some report.

Lemma sanitize_made input q report :
  sanitize_report b64_encode b64_decode input q = Ok report → evidence_made input → evidence_made report.
Proof.
  unfold sanitize_report. intros Hs Hmade. ok_inv. intros e. cbn [crash_evidence].
  unfold sanitize_evidence. destruct (crash_evidence input) as [e'|] eqn:E; [|done].
  repeat (cbn; case_match); try done; intros [= <-]; by apply Hmade.
Qed.

Lemma report_from_slice_reads report bytes :
  (∀ c, comparison report = Some c → is_finite (delta_percent c) = true) →
  report_to_vec report = Some bytes →
  report_from_slice bytes =
    if is_none_or (crash_evidence report) (λ e, is_ok (deserialize_evidence e)) then Some report else None.
Proof. intros Hf Hb. unfold report_from_slice. by rewrite (report_json_reads _ _ Hf Hb). Qed.

(** C31: Take a report whose crash evidence was parsed or decoded, sanitised with
    any secrets, whose entries redaction has settled and whose comparison is
    finite.  It is encoded as it is: sanitising it again before writing changes
    nothing, so encoding fails only when serde does or when the bytes exceed
    the limit of a report.  The stored bytes then pass every check of the
    reader and give the same report back exactly when no two suspected mods of
    its evidence carry the same name and version; otherwise the reader refuses
    what was stored. *)
Theorem encoded_report_reads_back input q report :
  sanitize_report b64_encode b64_decode input q = Ok report →
  settled_report no_redactor report → evidence_made input →
  encode_report b64_encode b64_decode report =
    match report_to_vec report with
    | None => Err ReportInvalid
    | Some bytes => if MAX_REPORT_BYTES <? str_len bytes then Err TooLarge else Ok bytes
    end ∧
  ∀ bytes, encode_report b64_encode b64_decode report = Ok bytes →
    let read := decode_stored_report b64_encode b64_decode (session_id report) (instance_id report)
      (recorded_at report) bytes in
    (mods_distinct report → read = Ok report) ∧ (¬ mods_distinct report → read = Err ReportInvalid).
Proof.
  intros Hs Hsettled Hinput. pose proof (sanitize_made _ _ _ Hs Hinput) as He.
  assert (sanitize_report b64_encode b64_decode report no_redactor = Ok report) as Hfix.
  { eapply (sanitize_fix b64_encode b64_decode q no_redactor); [|done..]. by intros ? ?%elem_of_nil. }
  assert (encode_report b64_encode b64_decode report =
    match report_to_vec report with
    | None => Err ReportInvalid
    | Some bytes => if MAX_REPORT_BYTES <? str_len bytes then Err TooLarge else Ok bytes
    end) as Hencode.
  { unfold encode_report. rewrite Hfix. cbn [mbind result_bind].
    destruct (report_to_vec report) as [bytes|]; [|done]. cbn [ok_or mbind result_bind].
    by destruct (MAX_REPORT_BYTES <? str_len bytes). }
  split; [exact Hencode|]. intros bytes. rewrite Hencode.
  destruct (report_to_vec report) as [b|] eqn:Eb; [|done].
  destruct (MAX_REPORT_BYTES <? str_len b) eqn:El; [done|]. intros [= <-].
  destruct Hsettled as [_ Hfinite].
  unfold decode_stored_report, decode_report. rewrite El, (report_from_slice_reads report b Hfinite Eb).
  cbn [err_if ok_or mbind result_bind]. unfold mods_distinct.
  assert (is_none_or (crash_evidence report) (λ e, is_ok (deserialize_evidence e)) = true →
    (saved ← sanitize_report b64_encode b64_decode report no_redactor;
     original ← ok_or ReportInvalid (Some report);
     err_if (negb (str_eqb (session_id saved) (session_id report)) || negb (str_eqb (instance_id saved) (instance_id report)) ||
          negb (str_eqb (recorded_at saved) (recorded_at report)) || negb (report_eqb saved original)) ReportInvalid ;;
     Ok saved) = Ok report) as Hread.
  { intros _. rewrite Hfix. cbn [ok_or mbind result_bind].
    by rewrite !(proj2 (str_eqb_spec _ _) eq_refl), (report_eqb_refl _ Hfinite). }
  destruct (crash_evidence report) as [e|] eqn:E; cbn [is_none_or] in *.
  - destruct (made_evidence_decodes report e He E) as [[Hnd Hd]|[Hnd Hd]]; rewrite Hd in *; cbn [is_ok] in *.
    + split; [intros _; by apply Hread|]. intros Hno. exfalso. apply Hno. by intros ? [= <-].
    + split; [intros Hall; exfalso; by apply Hnd, Hall|done].
  - split; [intros _; by apply Hread|]. intros Hno. exfalso. by apply Hno.
Qed.
End encode.
