(* ===== verification/LaunchSnapshot.v ===== *)
(** * Snapshots and settlements of sessions ([core/app/src/launch/session.rs])

    What a session shows of itself, and the immutable observation that is made
    of its end: the record a restart can rebuild the end of a session from.
    The current time is an argument where the code reads the clock. *)

From S2P Require Import Prelude RustStr McPortablePath McLoaderIdentity LaunchCrash LaunchOutcome.
From S2P Require Import LaunchReports.

Open Scope string_scope.
Open Scope list_scope.
Open Scope Z_scope.

(** ** Snapshots *)

Inductive SessionPhase := Starting | Running | Stopping | Settling | Unresolved | Exited.

Record SessionViewModel := {
  state_id : string;
  label : string;
  progress_pct : Z;
  terminal : bool;
  playing : bool;
  process_live : bool;
  can_stop : bool;
}.

Record SessionNotice := { message : string; tone : string }.

Record SessionSnapshot := {
  snap_session_id : string;
  snap_instance_id : string;
  revision : Z;
  phase : SessionPhase;
  snap_launched_at : string;
  snap_started_at_ms : option Z;
  pid : option Z;
  process_alive : bool;
  stop_allowed : bool;
  snap_exit_code : option Z;
  snap_tree_settled : bool;
  output_drained : bool;
  snap_boot_observed : bool;
  snap_outcome : option SessionOutcome;
  notice : option SessionNotice;
  view_model : SessionViewModel;
}.

#[global] Instance session_phase_eq_dec : EqDecision SessionPhase.
Proof. solve_decision. Defined.
#[global] Instance session_view_model_eq_dec : EqDecision SessionViewModel.
Proof. solve_decision. Defined.
#[global] Instance session_notice_eq_dec : EqDecision SessionNotice.
Proof. solve_decision. Defined.
#[global] Instance session_snapshot_eq_dec : EqDecision SessionSnapshot.
Proof. solve_decision. Defined.

Definition is_phase (p : SessionPhase) (s : SessionSnapshot) : bool := bool_decide (phase s = p).

(** The notice and the view that [project] derives from the other fields. *)
Definition projected_notice (s : SessionSnapshot) : option SessionNotice :=
  match phase s with
  | Unresolved =>
      Some {| message := "Session cleanup is unfinished. The instance remains in use.";
              tone := "warned" |}
  | Exited =>
      (λ o, {| message := outcome_summary o;
               tone := if bool_decide (kind o = Failed) then "error" else "info" |})
        <$> snap_outcome s
  | _ => None
  end.

Definition projected_view (s : SessionSnapshot) : SessionViewModel :=
  let '(state, label, progress) :=
    match phase s with
    | Starting => ("starting", "Starting Minecraft", if process_alive s then 65 else 25)
    | Running => ("running", "Playing", 100)
    | Stopping => ("stopping", "Stopping Minecraft", 100)
    | Settling => ("stopping", "Finishing session", 100)
    | Unresolved => ("unresolved", "Session cleanup needs attention", 100)
    | Exited => ("exited", "Session ended", 100)
    end in
  {| state_id := state; label := label; progress_pct := progress;
     terminal := is_phase Exited s; playing := is_phase Running s && process_alive s;
     process_live := process_alive s; can_stop := stop_allowed s |}.

Definition project (s : SessionSnapshot) : SessionSnapshot := {|
  snap_session_id := snap_session_id s; snap_instance_id := snap_instance_id s;
  revision := revision s; phase := phase s; snap_launched_at := snap_launched_at s;
  snap_started_at_ms := snap_started_at_ms s; pid := pid s; process_alive := process_alive s;
  stop_allowed := stop_allowed s; snap_exit_code := snap_exit_code s;
  snap_tree_settled := snap_tree_settled s; output_drained := output_drained s;
  snap_boot_observed := snap_boot_observed s; snap_outcome := snap_outcome s;
  notice := projected_notice s; view_model := projected_view s;
|}.

Definition report_unavailable (s : SessionSnapshot) : SessionSnapshot := {|
  snap_session_id := snap_session_id s; snap_instance_id := snap_instance_id s;
  revision := revision s; phase := phase s; snap_launched_at := snap_launched_at s;
  snap_started_at_ms := snap_started_at_ms s; pid := pid s; process_alive := process_alive s;
  stop_allowed := stop_allowed s; snap_exit_code := snap_exit_code s;
  snap_tree_settled := snap_tree_settled s; output_drained := output_drained s;
  snap_boot_observed := snap_boot_observed s; snap_outcome := snap_outcome s;
  notice := Some {|
    message := "The session ended and cleanup is complete, but its launch report is unavailable.";
    tone := "warned" |};
  view_model := view_model s;
|}.

(** [SessionSnapshot::starting] at the time [now]. *)
Definition starting (now : string) (instance_id session_id : string) : SessionSnapshot :=
  project {|
    snap_session_id := session_id; snap_instance_id := instance_id; revision := 1;
    phase := Starting; snap_launched_at := now; snap_started_at_ms := None; pid := None;
    process_alive := false; stop_allowed := true; snap_exit_code := None;
    snap_tree_settled := false; output_drained := false; snap_boot_observed := false;
    snap_outcome := None; notice := None;
    view_model := {| state_id := ""; label := ""; progress_pct := 0; terminal := false;
                     playing := false; process_live := false; can_stop := true |};
  |}.

(** A session that has ended, with nothing of it left. *)
Definition ended (s : SessionSnapshot) (launched : string) (code : option Z) (boot : bool)
    (o : SessionOutcome) : SessionSnapshot :=
  project {|
    snap_session_id := snap_session_id s; snap_instance_id := snap_instance_id s;
    revision := revision s; phase := Exited; snap_launched_at := launched;
    snap_started_at_ms := snap_started_at_ms s; pid := pid s; process_alive := process_alive s;
    stop_allowed := false; snap_exit_code := code; snap_tree_settled := true;
    output_drained := true; snap_boot_observed := boot; snap_outcome := Some o;
    notice := notice s; view_model := view_model s;
  |}.

Definition from_report (now : string) (report : LaunchProofRecord) (instance_id : string)
    : SessionSnapshot :=
  ended (starting now instance_id (session_id report)) (launched_at report)
    (report_exit_code report) (negb (is_none (boot_duration_ms report)))
    (session_outcome report).

(** ** Settlements *)

Inductive SettledProcess :=
| NoChild (stopped : bool)
| ChildExited (exit_code signal : option Z) (stop_requested was_running spawn_failed : bool).

Record ObservedSettlement := {
  obs_version_id : string;
  obs_launched_at : string;
  obs_ended_at : string;
  obs_process : SettledProcess;
  obs_boot_observed : bool;
  obs_failure_classes : list FailureClass;
}.

#[global] Instance settled_process_eq_dec : EqDecision SettledProcess.
Proof. solve_decision. Defined.
#[global] Instance observed_settlement_eq_dec : EqDecision ObservedSettlement.
Proof. solve_decision. Defined.

Definition settled_exit_code (o : ObservedSettlement) : option Z :=
  match obs_process o with NoChild _ => None | ChildExited code _ _ _ _ => code end.

(** [classify_session_outcome] of settled facts, for which it always answers
    ([classify_settled_some]). *)
Definition settled_facts (code signal : option Z) (stop running : bool) : SessionExitFacts := {|
  process_exited := true; exit_code := code; signal := signal; stop_requested := stop;
  was_running := running; tree_settled := true; outputs_drained := true;
|}.

Definition classify_settled (code signal : option Z) (stop running : bool)
    (e : LaunchEvidence) : SessionOutcome :=
  default spawn_failed (classify_session_outcome (settled_facts code signal stop running) e).

Definition settled_outcome (o : ObservedSettlement) : SessionOutcome :=
  let evidence := {| boot_observed := obs_boot_observed o;
                     failure_classes := obs_failure_classes o |} in
  match obs_process o with
  | NoChild false | ChildExited _ _ _ _ true => spawn_failed
  | NoChild true => classify_settled None None true false evidence
  | ChildExited code signal stop running false => classify_settled code signal stop running evidence
  end.

Definition settlement_snapshot (now : string) (o : ObservedSettlement)
    (session_id instance_id : string) : SessionSnapshot :=
  report_unavailable (ended (starting now instance_id session_id) (obs_launched_at o)
    (settled_exit_code o) (obs_boot_observed o) (settled_outcome o)).

Definition matches_report (o : ObservedSettlement) (report : LaunchProofRecord) : bool :=
  str_eqb (obs_version_id o) (version_id report) &&
  str_eqb (obs_launched_at o) (launched_at report) &&
  str_eqb (obs_ended_at o) (recorded_at report) &&
  bool_decide (settled_exit_code o = report_exit_code report) &&
  Bool.eqb (obs_boot_observed o) (negb (is_none (boot_duration_ms report))) &&
  bool_decide (settled_outcome o = session_outcome report).

Definition matches_requested_version (o : ObservedSettlement) (requested : option string) : bool :=
  is_none_or requested (λ version, str_eqb version (obs_version_id o)).

Section validate.
Context `{UnicodeNorm} `{Rfc3339Millis}.
Variables (b64_encode : string → string) (b64_decode : string → option string).

Definition canonical_instant (value : string) : bool :=
  (str_len value =? 24) && is_some_and (local_millis value) (str_eqb value).

Definition settlement_validate (o : ObservedSettlement) : bool :=
  is_ok (file_name_new_exact (obs_version_id o +:+ ".json")) &&
  is_ok (file_name_new_exact (obs_version_id o)) &&
  (negb (starts_with "loader-v2-" (obs_version_id o)) ||
   is_canonical_installed_loader_id b64_encode b64_decode (obs_version_id o)) &&
  canonical_instant (obs_launched_at o) && canonical_instant (obs_ended_at o) &&
  (length (obs_failure_classes o) <=? 17)%nat &&
  negb (has_class Unknown (obs_failure_classes o) || repeats [] (obs_failure_classes o)) &&
  match obs_process o with
  | NoChild _ =>
      negb (obs_boot_observed o) && bool_decide (obs_failure_classes o = [])
  | ChildExited _ signal _ _ _ => is_none_or signal (λ value, 0 <? value)
  end.
End validate.

Lemma classify_settled_some code signal stop running e :
  classify_session_outcome (settled_facts code signal stop running) e =
  Some (classify_settled code signal stop running e).
Proof.
  unfold classify_settled. destruct (classify_session_outcome _ e) as [o|] eqn:E; [done|].
  exfalso. revert E. unfold classify_session_outcome. cbn [settled_facts process_exited
    tree_settled outputs_drained negb orb]. by case_match.
Qed.
