(* ===== verification/LaunchModel.v ===== *)
(** * Launch requests and errors

    The request of a launch and its validation, the errors of launching and of
    Java discovery with their public text ([core/app/src/launch/coordinator.rs],
    [core/app/src/runtime/model.rs]), the check of a Java runtime against a
    requirement, and the status of a launch intent. *)

From S2P Require Import Prelude RustStr InstanceModel SettingsModel PhysicalWork LaunchReports.
From S2P Require Import LaunchSnapshot.

Open Scope string_scope.
Open Scope list_scope.
Open Scope Z_scope.

(** ** Java discovery *)

Inductive RuntimeSourceFailureKind :=
| SourceUnavailable | MetadataInvalid | IntegrityMismatch | PolicyRejected.

Definition failure_kind_as_str (k : RuntimeSourceFailureKind) : string :=
  match k with
  | SourceUnavailable => "unavailable"
  | MetadataInvalid => "metadata_invalid"
  | IntegrityMismatch => "integrity_mismatch"
  | PolicyRejected => "policy_rejected"
  end.

Definition is_retryable (k : RuntimeSourceFailureKind) : bool :=
  match k with SourceUnavailable => true | _ => false end.

Inductive JavaArchitecture := X86 | X86_64 | Aarch64 | UnknownArch.

Definition architecture_parse (value : string) : JavaArchitecture :=
  let value := to_ascii_lowercase (trim value) in
  if char_in ["x86"; "i386"; "i486"; "i586"; "i686"] value then X86
  else if char_in ["amd64"; "x86_64"; "x64"] value then X86_64
  else if char_in ["aarch64"; "arm64"] value then Aarch64
  else UnknownArch.

Inductive JavaDiscoveryError :=
| JavaMissing | JavaInvalidPath | JavaNotExecutable | ExecutableTooLarge | JavaReplaced
| JavaTimedOut | OutputLimit | JavaInvalidVersion | UnknownArchitecture | JavaFailed
| JavaCancelled | IncompatibleVersion (required actual : Z) | OutdatedJava8
| IncompatibleArchitecture (required actual : JavaArchitecture) | RosettaRequired
| ManagedNotReady | ManagedSource (k : RuntimeSourceFailureKind) | ManagedUnsupportedPlatform
| ManagedSettlementRequired | JavaLibraryUnavailable | JavaSettlementRequired.

#[global] Instance failure_kind_eq_dec : EqDecision RuntimeSourceFailureKind.
Proof. solve_decision. Defined.
#[global] Instance architecture_eq_dec : EqDecision JavaArchitecture.
Proof. solve_decision. Defined.
#[global] Instance java_error_eq_dec : EqDecision JavaDiscoveryError.
Proof. solve_decision. Defined.

Definition java_error_message (e : JavaDiscoveryError) : string :=
  match e with
  | JavaMissing => "The selected Java executable is missing."
  | JavaInvalidPath => "Select an absolute path to a Java executable."
  | JavaNotExecutable => "The selected Java file is not an executable regular file."
  | ExecutableTooLarge => "The selected Java executable exceeds the inspection limit."
  | JavaReplaced => "The selected Java executable changed. Select it again."
  | JavaTimedOut => "Java did not respond before the probe deadline."
  | OutputLimit => "Java produced too much diagnostic output."
  | JavaInvalidVersion => "Java did not report a valid version."
  | UnknownArchitecture => "Java did not report a recognized architecture."
  | JavaFailed => "The selected Java executable could not run."
  | JavaCancelled => "The Java probe was cancelled."
  | IncompatibleVersion required actual =>
      "Java " +:+ display_Z required +:+ " is required; the selected executable provides Java " +:+
      display_Z actual +:+ "."
  | OutdatedJava8 => "Java 8 update 312 or newer is required."
  | IncompatibleArchitecture _ _ =>
      "The selected Java architecture is incompatible with this launch."
  | RosettaRequired => "The selected Java runtime requires Rosetta 2 on this Mac."
  | ManagedNotReady => "The managed Java runtime is not ready."
  | ManagedSource k =>
      "Managed Java runtime acquisition failed: " +:+ failure_kind_as_str k +:+ "."
  | ManagedUnsupportedPlatform => "The managed Java runtime is unavailable for this platform."
  | ManagedSettlementRequired => "Managed Java runtime file changes have not settled."
  | JavaLibraryUnavailable => "The Java runtime library is unavailable."
  | JavaSettlementRequired => "The Java probe process has not finished shutting down."
  end.

(** What the check reads of a [JavaRuntimeInfo]. *)
Record JavaRuntimeInfo := { info_major : Z; info_update : Z }.

Record JavaSelectionRequirement := {
  required_major : Z;
  required_architecture : JavaArchitecture;
  allow_macos_x86_64_translation : bool;
}.

Definition requirement_validate (r : JavaSelectionRequirement) (info : JavaRuntimeInfo)
    (architecture : JavaArchitecture) : result JavaDiscoveryError unit :=
  err_if ((required_major r =? 0) || (info_major info =? 0)) JavaInvalidVersion ;;
  err_if (negb (info_major info =? required_major r))
    (IncompatibleVersion (required_major r) (info_major info)) ;;
  err_if ((required_major r =? 8) && (info_update info <? 312)) OutdatedJava8 ;;
  err_if (bool_decide (architecture = UnknownArch) ||
          bool_decide (required_architecture r = UnknownArch)) UnknownArchitecture ;;
  let translated := allow_macos_x86_64_translation r &&
    bool_decide (required_architecture r = Aarch64) && bool_decide (architecture = X86_64) in
  err_if (negb (bool_decide (architecture = required_architecture r)) && negb translated)
    (IncompatibleArchitecture (required_architecture r) architecture).

(** ** Errors of launching *)

Inductive LaunchError :=
| InvalidRequest | InvalidIntent | IntentConflict | LaunchInterrupted | IntentUnavailable
| RecoveryIncomplete | AtCapacity | InvalidUsername | InvalidMemory | InstanceNotFound
| LaunchInstanceBusy | InstanceChanged | AccountChanged | AccountUnavailable
| OnlineAccountUnavailable | ProfileUnsettled | LaunchLibraryUnavailable
| LaunchVersionsDegraded | InstallUnavailable | RuntimeUnavailable | SettingsChanged
| PerformanceUnsettled | PerformanceUnavailable | PlanRejected | LaunchCancelled | LaunchClosed
| PreparationFailed | RuntimeFailure (cause : JavaDiscoveryError).

#[global] Instance launch_error_eq_dec : EqDecision LaunchError.
Proof. solve_decision. Defined.

Definition launch_error_message (e : LaunchError) : string :=
  match e with
  | InvalidRequest => "The launch request is invalid."
  | InvalidIntent => "The launch intent identity is invalid."
  | IntentConflict => "This launch intent already belongs to a different request."
  | LaunchInterrupted =>
      "This launch was interrupted. Its process outcome is not known; it will not be repeated."
  | IntentUnavailable =>
      "The durable launch status is unavailable. Inspect the existing attempt before retrying."
  | RecoveryIncomplete =>
      "Launch history reconciliation is incomplete. Restart to continue. " +:+
      "Existing files are preserved."
  | AtCapacity => "The launch request capacity is full. Wait for accepted work to finish."
  | InvalidUsername =>
      "Enter a username between 3 and 16 letters, numbers or underscores."
  | InvalidMemory => "The requested memory bounds are invalid."
  | InstanceNotFound => "The instance was not found."
  | LaunchInstanceBusy => "The instance is busy. Wait for its current operation to finish."
  | InstanceChanged => "The instance changed while launch was being prepared. Try again."
  | AccountChanged => "The selected account changed while launch was being prepared. Try again."
  | AccountUnavailable => "Select an account before launching."
  | OnlineAccountUnavailable =>
      "Online launch requires a verified Minecraft Java account. Sign in again."
  | ProfileUnsettled =>
      "The saved profile change could not be settled. Open Skins before retrying."
  | LaunchLibraryUnavailable =>
      "The selected library is unavailable. Reconnect it before launching."
  | LaunchVersionsDegraded =>
      "Could not verify installed versions. Check the library folder and try again."
  | InstallUnavailable =>
      "The installed version requires a completed installation before launch."
  | RuntimeUnavailable =>
      "The selected Java runtime could not be verified. Check Java settings."
  | SettingsChanged => "The launch settings changed while launch was being prepared. Try again."
  | PerformanceUnsettled =>
      "Performance changes require settlement before this instance can launch."
  | PerformanceUnavailable =>
      "The selected Performance mode is not available for this launch."
  | PlanRejected =>
      "The launch command could not be validated. Check the instance settings and installation."
  | LaunchCancelled => "Launch was cancelled before a game process was started."
  | LaunchClosed => "Launches are unavailable while the application is shutting down."
  | PreparationFailed =>
      "The launch could not be prepared. Its status is retained for inspection."
  | RuntimeFailure cause => java_error_message cause
  end.

Record LaunchErrorResponse := { response_error : string; code : LaunchError }.

Definition error_response (e : LaunchError) : LaunchErrorResponse :=
  {| response_error := launch_error_message e; code := e |}.

Definition physical_work_error (e : PhysicalWorkError) : LaunchError :=
  match e with
  | Closed => LaunchClosed
  | Cancelled => LaunchCancelled
  | ScratchLimit | WorkerLimit | Unavailable => AtCapacity
  | Deadline | TaskStopped => PreparationFailed
  end.

Definition instance_error (e : InstanceError) : LaunchError :=
  match e with
  | NotFound => InstanceNotFound
  | InstanceBusy => LaunchInstanceBusy
  | LibraryUnavailable => LaunchLibraryUnavailable
  | InstanceClosed => LaunchClosed
  | _ => InstanceChanged
  end.

(** [SessionError] of [launch/session.rs]. *)
Inductive SessionError := SessionBusy | SessionClosing | SessionAtCapacity | SessionNotFound.

Definition session_error (e : SessionError) : LaunchError :=
  match e with
  | SessionBusy => LaunchInstanceBusy
  | SessionClosing => LaunchClosed
  | SessionAtCapacity => AtCapacity
  | SessionNotFound => PreparationFailed
  end.

(** ** Requests *)

Record LaunchRequest := {
  request_instance_id : InstanceId;
  request_version_id : option string;
  request_username : option string;
  request_max_memory_mb : option Z;
  request_min_memory_mb : option Z;
  client_started_at_ms : option Z;
  intent_key : option string;
}.

#[global] Instance launch_request_eq_dec : EqDecision LaunchRequest.
Proof. solve_decision. Defined.

Definition set_intent_key (request : LaunchRequest) (key : string) : LaunchRequest := {|
  request_instance_id := request_instance_id request;
  request_version_id := request_version_id request; request_username := request_username request;
  request_max_memory_mb := request_max_memory_mb request;
  request_min_memory_mb := request_min_memory_mb request;
  client_started_at_ms := client_started_at_ms request; intent_key := Some key;
|}.

Section requests.
Context `{UuidParser}.

Definition validate_intent_key (key : string) : result LaunchError unit :=
  id ← ok_or InvalidIntent (uuid_canonical key);
  err_if (str_eqb id nil_uuid || negb (str_eqb id key)) InvalidIntent.

Definition validate_memory (memory : option Z) : result LaunchError unit :=
  err_if (is_some_and memory (λ memory, negb ((0 <=? memory) && (memory <=? 1024 * 1024))))
    InvalidMemory.

Definition request_validate (request : LaunchRequest) : result LaunchError unit :=
  match intent_key request with Some key => validate_intent_key key | None => Ok tt end ;;
  match request_username request with
  | Some name =>
      if negb (is_empty (trim name))
      then map_err (λ _, InvalidUsername) (validate_username (trim name)) else Ok tt
  | None => Ok tt
  end ;;
  validate_memory (request_max_memory_mb request) ;;
  validate_memory (request_min_memory_mb request) ;;
  err_if (is_some_and (client_started_at_ms request) (λ value, value <? 0)) InvalidRequest.
End requests.

Definition same_effect (a b : LaunchRequest) : bool :=
  bool_decide (request_instance_id a = request_instance_id b) &&
  bool_decide (request_version_id a = request_version_id b) &&
  bool_decide (request_username a = request_username b) &&
  bool_decide (request_max_memory_mb a = request_max_memory_mb b) &&
  bool_decide (request_min_memory_mb a = request_min_memory_mb b).

(** ** The status of an intent *)

Inductive LaunchIntentStatus :=
| Preparing
| StatusAccepted (session : SessionSnapshot)
| StatusRejected (error : LaunchErrorResponse)
| StatusInterrupted (session_id : string).

Inductive IntentRejection :=
| RejectedRuntime (runtime_failure : JavaDiscoveryError)
| RejectedCode (error : LaunchError).

Definition rejection_of (e : LaunchError) : IntentRejection :=
  match e with
  | RuntimeFailure cause => RejectedRuntime cause
  | code => RejectedCode code
  end.

Definition error_of (r : IntentRejection) : LaunchError :=
  match r with
  | RejectedRuntime cause => RuntimeFailure cause
  | RejectedCode code => code
  end.
