(* ===== verification/LaunchTables.v ===== *)
(** * The tables of launching

    The stored reports of [core/app/src/launch/reports.rs] and the rows of
    launch intents of [coordinator.rs], which the report store acknowledges in
    its own transactions.  SQLite runs a statement or fails as [fault] says;
    the constraints of the tables are checked by the statements that write.
    serde_json on intents is the parameter [IntentJson], SHA-256 the argument
    [sha256]; the clock of a snapshot is [now]. *)

From S2P Require Import Prelude RustStr Effect McPortablePath SettingsModel Storage InstanceModel.
From S2P Require Import LaunchCrash LaunchOutcome LaunchLogs LaunchReports LaunchSnapshot.
From S2P Require Import LaunchModel.

Open Scope string_scope.
Open Scope list_scope.
Open Scope Z_scope.

(** ** Rows *)

Record ReportRow := {
  report_instance : string;
  report_recorded : string;
  report_payload : string;
}.

Inductive IntentState := StatePending | StateAccepted | StateRejected | StateInterrupted.
#[global] Instance intent_state_eq_dec : EqDecision IntentState.
Proof. solve_decision. Defined.

Record IntentRow := {
  intent_payload : string;
  intent_state : IntentState;
  intent_error : option string;
  terminal_ack : bool;
  intent_settlement : option string;
}.

(** The reports by session; the intents by key, once their table exists. *)
Record LaunchTables := {
  report_rows : gmap string ReportRow;
  intent_rows : option (gmap string IntentRow);
}.

Definition set_reports (t : LaunchTables) (rows : gmap string ReportRow) : LaunchTables :=
  {| report_rows := rows; intent_rows := intent_rows t |}.

Definition set_intents (t : LaunchTables) (rows : gmap string IntentRow) : LaunchTables :=
  {| report_rows := report_rows t; intent_rows := Some rows |}.

(** The tables as the two migrations create them. *)
Definition created_tables : LaunchTables := {| report_rows := ∅; intent_rows := Some ∅ |}.

(** The statements of one call, in the order they run. *)
Inductive LaunchStatement :=
| SelectReport | SelectCandidates | InsertReport | SelectReportBack
| SchemaHasIntents | SelectIntentOfSession | UpdateTerminalAck | SelectAcknowledged
| ListRecent | InsertIntent | SelectIntent | SelectPending | UpdateAccepted | SelectAccepted
| UpdateRejected | SelectRejected | SelectObserved | UpdateSettlement | SelectObservedBack
| SelectSettled | ScanUnresolved | SelectReportLength.

(** ** Intents *)

Record IntentBinding := {
  binding_version : Z;
  binding_library_id : string;
  library_root : string;
  application_root : string;
  binding_directory_name : string;
  binding_directory_receipt : string;
}.
#[global] Instance intent_binding_eq_dec : EqDecision IntentBinding.
Proof. solve_decision. Defined.

Record IntentRecord := {
  intent_request : LaunchRequest;
  intent_context : option string;
  intent_session_id : string;
  binding : option IntentBinding;
}.
#[global] Instance intent_record_eq_dec : EqDecision IntentRecord.
Proof. solve_decision. Defined.

Record SettlementRecord := {
  settlement_version : Z;
  accepted_payload : string;
  observation : ObservedSettlement;
}.

(** serde_json on the records of intents, and SQLite's [json_extract] of the
    session of a payload. *)
Class IntentJson := {
  intent_to_vec : IntentRecord → option string;
  intent_from_slice : string → option IntentRecord;
  settlement_to_vec : SettlementRecord → option string;
  settlement_from_slice : string → option SettlementRecord;
  rejection_to_string : IntentRejection → option string;
  rejection_from_str : string → option IntentRejection;
  scenario_from_str : string → option LaunchProofScenario;
  json_session_id : string → option string;
}.

Section tables.
Context `{UuidParser} `{UnicodeNorm} `{Rfc3339Millis} `{ReportJson} `{IntentJson}.
Variables (b64_encode : string → string) (b64_decode : string → option string).
Variable (sha256 : string → string).

Definition decode_intent (key payload : string) : result LaunchError IntentRecord :=
  err_if (16384 <? str_len payload) IntentUnavailable ;;
  record ← ok_or IntentUnavailable (intent_from_slice payload);
  map_err (λ _, IntentUnavailable) (request_validate (intent_request record)) ;;
  err_if (negb (opt_eqb (intent_key (intent_request record)) key) ||
          negb (is_ok (validate_intent_key (intent_session_id record)))) IntentUnavailable ;;
  Ok record.

Definition decode_settlement (record : IntentRecord) (payload bytes : string)
    : result LaunchError ObservedSettlement :=
  err_if ((4096 <? str_len bytes) ||
          is_none_or (binding record) (λ b, negb (binding_version b =? 1))) IntentUnavailable ;;
  settlement ← ok_or IntentUnavailable (settlement_from_slice bytes);
  err_if (negb (settlement_version settlement =? 1) ||
          negb (str_eqb (accepted_payload settlement) (sha256 payload)) ||
          negb (settlement_validate b64_encode b64_decode (observation settlement)) ||
          negb (matches_requested_version (observation settlement)
                  (request_version_id (intent_request record)))) IntentUnavailable ;;
  canonical ← ok_or IntentUnavailable (settlement_to_vec settlement);
  err_if (negb (str_eqb canonical bytes)) IntentUnavailable ;;
  Ok (observation settlement).

Definition scenario_of_context (record : IntentRecord) : result LaunchError LaunchProofScenario :=
  match intent_context record with
  | None => Ok scenario_default
  | Some context => ok_or IntentUnavailable (scenario_from_str context)
  end.

Definition terminal_snapshot (now : string) (record : IntentRecord) (report : LaunchProofRecord)
    : result LaunchError SessionSnapshot :=
  captured ← scenario_of_context record;
  let stored := scenario report in
  let request := intent_request record in
  err_if (negb (str_eqb (session_id report) (intent_session_id record)) ||
          negb (str_eqb (instance_id report) (request_instance_id request)) ||
          negb (bool_decide (benchmark_id stored = benchmark_id captured)) ||
          negb (bool_decide (benchmark_profile stored = benchmark_profile captured)) ||
          negb (bool_decide (benchmark_run_type stored = benchmark_run_type captured)) ||
          negb (bool_decide (benchmark_mode stored = benchmark_mode captured)) ||
          negb (opt_eqb (scenario_version_id stored) (version_id report)) ||
          is_some_and (request_version_id request)
            (λ version, negb (str_eqb version (version_id report))) ||
          is_some_and (request_max_memory_mb request)
            (λ memory, (0 <? memory) &&
                       negb (bool_decide (requested_memory_mb stored = Some memory))))
    IntentUnavailable ;;
  Ok (from_report now report (request_instance_id request)).

(** ** Statements *)

Section transaction.
Context (fault : LaunchStatement → option StorageError).

Definition statement {E A} (from : StorageError → E) (s : LaunchStatement)
    (run : LaunchTables → result E A * LaunchTables) : eff LaunchTables E A := λ t,
  match fault s with
  | Some e => (Err (from e), t)
  | None => run t
  end.

(** A statement on the table of intents, which must exist. *)
Definition intents_statement {E A} (from : StorageError → E) (s : LaunchStatement)
    (run : gmap string IntentRow → result E A * gmap string IntentRow) : eff LaunchTables E A :=
  statement from s (λ t,
    match intent_rows t with
    | None => (Err (from Sqlite), t)
    | Some rows => let '(r, rows) := run rows in (r, set_intents t rows)
    end).

(** [UPDATE] of the row of [key] when it satisfies [applies]: how many rows
    changed. *)
Definition update_intent {E} (from : StorageError → E) (s : LaunchStatement) (key : string)
    (applies : IntentRow → bool) (change : IntentRow → IntentRow) : eff LaunchTables E nat :=
  intents_statement from s (λ rows,
    match rows !! key with
    | Some row =>
        if applies row then (Ok 1%nat, <[key := change row]> rows) else (Ok 0%nat, rows)
    | None => (Ok 0%nat, rows)
    end).

Definition select_intent {E} (from : StorageError → E) (s : LaunchStatement) (key : string)
    : eff LaunchTables E (option IntentRow) :=
  intents_statement from s (λ rows, (Ok (rows !! key), rows)).

Definition once_accepted (row : IntentRow) : bool :=
  bool_decide (intent_state row = StateAccepted) || bool_decide (intent_state row = StateInterrupted).

Definition set_terminal_ack (row : IntentRow) : IntentRow := {|
  intent_payload := intent_payload row; intent_state := intent_state row;
  intent_error := intent_error row; terminal_ack := true;
  intent_settlement := intent_settlement row |}.

(** The key of a row as it is read: [CASE WHEN length(intent_key)=36]. *)
Definition read_intent {E} (from : StorageError → E) (kr : string * IntentRow)
    : result E (string * IntentRow) :=
  err_if (negb (chars_count kr.1 =? 36)%nat || (16384 <? str_len (intent_payload kr.2))) (from Sqlite) ;;
  Ok kr.

Definition intents_of_session (session : string) (rows : gmap string IntentRow)
    : list (string * IntentRow) :=
  filter (λ '(_, row), once_accepted row && opt_eqb (json_session_id (intent_payload row)) session = true)
    (map_to_list rows).

(** [acknowledge_terminal] after the row was found. *)
Definition acknowledge_row (now key : string) (row : IntentRow) (report : LaunchProofRecord)
    : eff LaunchTables ReportError unit :=
  record ← lift (map_err (λ _, ReportInvalid) (decode_intent key (intent_payload row)));
  lift (map_err (λ _, ReportInvalid) (terminal_snapshot now record report)) ;;
  match intent_settlement row with
  | None => mret tt
  | Some bytes =>
      o ← lift (map_err (λ _, ReportInvalid)
                  (decode_settlement record (intent_payload row) bytes));
      lift (err_if (negb (matches_report o report)) ReportInvalid)
  end ;;
  (if terminal_ack row then mret tt
   else
     changed ← update_intent ReportStorage UpdateTerminalAck key (λ saved,
       str_eqb (intent_payload saved) (intent_payload row) && once_accepted saved &&
       negb (terminal_ack saved)) set_terminal_ack;
     lift (err_if (negb (changed =? 1)%nat) ReportInvalid)) ;;
  saved ← select_intent ReportStorage SelectAcknowledged key;
  match saved with
  | None => lift (Err (ReportStorage Sqlite))
  | Some saved =>
      lift (err_if (negb (once_accepted saved)) (ReportStorage Sqlite)) ;;
      lift (err_if (negb (str_eqb (intent_payload saved) (intent_payload row)) ||
                    negb (terminal_ack saved) ||
                    negb (bool_decide (intent_settlement saved = intent_settlement row)))
              ReportInvalid)
  end.

Definition acknowledge_terminal (now : string) (report : LaunchProofRecord)
    : eff LaunchTables ReportError unit :=
  exists_ ← statement ReportStorage SchemaHasIntents
    (λ t, (Ok (negb (is_none (intent_rows t))), t));
  if negb exists_ then mret tt
  else
    rows ← intents_statement ReportStorage SelectIntentOfSession (λ rows,
      (try_map (read_intent ReportStorage) (take 2 (intents_of_session (session_id report) rows)),
       rows));
    match rows with
    | [] => mret tt
    | [(key, row)] => acknowledge_row now key row report
    | _ => lift (Err ReportInvalid)
    end.

(** ** Stored reports *)

Definition stored_report_row (s : LaunchStatement) (session : string) (max_bytes : Z)
    : eff LaunchTables ReportError (option (string * string * option string)) :=
  statement ReportStorage s (λ t,
    (Ok ((λ row, (report_instance row, report_recorded row,
                  if str_len (report_payload row) <=? max_bytes
                  then Some (report_payload row) else None)) <$> report_rows t !! session), t)).

Definition stored_report (s : LaunchStatement) (session : string)
    : eff LaunchTables ReportError (option LaunchProofRecord) :=
  row ← stored_report_row s session MAX_REPORT_BYTES;
  match row with
  | None => mret None
  | Some (instance, recorded, bytes) =>
      bytes ← lift (ok_or TooLarge bytes);
      saved ← lift (decode_stored_report b64_encode b64_decode session instance recorded bytes);
      mret (Some saved)
  end.

(** [length] of a text or of a blob between two bounds. *)
Definition length_between (low high n : Z) : bool := (low <=? n) && (n <=? high).

Definition row_constraints_hold (session : string) (row : ReportRow) : bool :=
  length_between 1 96 (Z.of_nat (chars_count session)) &&
  length_between 1 96 (Z.of_nat (chars_count (report_instance row))) &&
  (chars_count (report_recorded row) =? 24)%nat &&
  length_between 1 262144 (str_len (report_payload row)).

Definition insert_report (report : LaunchProofRecord) (payload : string)
    : eff LaunchTables ReportError unit :=
  changed ← statement ReportStorage InsertReport (λ t,
    let row := {| report_instance := instance_id report; report_recorded := recorded_at report;
                  report_payload := payload |} in
    match report_rows t !! session_id report with
    | None =>
        if row_constraints_hold (session_id report) row
        then (Ok 1%nat, set_reports t (<[session_id report := row]> (report_rows t)))
        else (Err (ReportStorage Sqlite), t)
    | Some _ => (Err (ReportStorage Sqlite), t)
    end);
  lift (err_if (negb (changed =? 1)%nat) ReportInvalid).

(** [ORDER BY recorded_at DESC, session_id DESC]. *)
Definition recent_cmp (a b : string * ReportRow) : Datatypes.comparison :=
  then_with (str_cmp (report_recorded b.2) (report_recorded a.2)) (str_cmp b.1 a.1).

Definition recent_rows (limit : nat) (t : LaunchTables) : list (string * ReportRow) :=
  take limit (sort_by recent_cmp (map_to_list (report_rows t))).

Definition set_logs (r : LaunchProofRecord) (entries : list LogEntry) : LaunchProofRecord := {|
  schema := schema r; schema_version := schema_version r; session_id := session_id r;
  instance_id := instance_id r; version_id := version_id r; launched_at := launched_at r;
  recorded_at := recorded_at r; outcome := outcome r; session_outcome := session_outcome r;
  scenario := scenario r; device := device r; resource_budget := resource_budget r;
  report_exit_code := report_exit_code r; boot_duration_ms := boot_duration_ms r;
  crash_evidence := crash_evidence r; stages := stages r; comparison := comparison r;
  logs := entries; logs_dropped := logs_dropped r;
|}.

Definition decode_candidate (kr : string * ReportRow) : result ReportError LaunchProofRecord :=
  candidate ← decode_report b64_encode b64_decode (report_payload kr.2);
  Ok (set_logs candidate []).

(** The transaction of [record], on a sanitised report without comparison. *)
Definition record_in (now : string) (report : LaunchProofRecord)
    : eff LaunchTables ReportError unit :=
  saved ← stored_report SelectReport (session_id report);
  match saved with
  | Some saved =>
      let saved := set_comparison saved None in
      lift (err_if (negb (report_eqb saved report)) ConflictingSession) ;;
      acknowledge_terminal now saved
  | None =>
      candidates ← statement ReportStorage SelectCandidates (λ t,
        (try_map decode_candidate (recent_rows 100 t), t));
      let report := set_comparison report (build_comparison_from_candidates report candidates) in
      payload ← lift (encode_report b64_encode b64_decode report);
      insert_report report payload ;;
      saved ← stored_report SelectReportBack (session_id report);
      saved ← lift (ok_or ReportInvalid saved);
      lift (err_if (negb (report_eqb saved report)) ReportInvalid) ;;
      acknowledge_terminal now saved
  end.

Definition get_in (session : string) : eff LaunchTables ReportError (option LaunchProofRecord) :=
  lift (err_if (negb (valid_report_id session)) ReportInvalid) ;;
  stored_report SelectReport session.

Definition acknowledge_intent_in (now session : string) : eff LaunchTables ReportError unit :=
  report ← stored_report SelectReport session;
  report ← lift (ok_or ReportInvalid report);
  acknowledge_terminal now report.

Definition listed_report (kr : string * ReportRow) : result ReportError LaunchProofRecord :=
  report ← decode_report b64_encode b64_decode (report_payload kr.2);
  err_if (negb (str_eqb (session_id report) kr.1)) ReportInvalid ;;
  Ok report.

Definition list_recent_in (limit : Z) : eff LaunchTables ReportError (list LaunchProofRecord) :=
  statement ReportStorage ListRecent (λ t,
    (try_map listed_report (recent_rows (Z.to_nat (Z.min limit MAX_RECENT_REPORTS)) t), t)).
End transaction.

(** ** The report store *)

Definition Store : Type := MetadataStore LaunchTables.

Definition report_record (call : SqliteCall) (fault : LaunchStatement → option StorageError)
    (now : string) (report : LaunchProofRecord) (r : Redactor) (store : Store)
    : result ReportError unit * Store :=
  match sanitize_report b64_encode b64_decode report r with
  | Err e => (Err e, store)
  | Ok report =>
      transaction ReportStorage call (record_in fault now (set_comparison report None)) store
  end.

Definition record_session call fault now (input : SessionReportInput) (store : Store)
    : result ReportError unit * Store :=
  report_record call fault now (from_session input) no_redactor store.

Definition report_get (call : SqliteCall) (fault : LaunchStatement → option StorageError)
    (session : string) (store : Store) : result ReportError (option LaunchProofRecord) * Store :=
  read_callback ReportStorage call (λ t, (get_in fault session t).1) store.

Definition acknowledge_intent (call : SqliteCall) (fault : LaunchStatement → option StorageError)
    (now session : string) (store : Store) : result ReportError unit * Store :=
  transaction ReportStorage call (acknowledge_intent_in fault now session) store.

Definition list_recent (call : SqliteCall) (fault : LaunchStatement → option StorageError)
    (limit : Z) (store : Store) : result ReportError (list LaunchProofRecord) * Store :=
  read_callback ReportStorage call (λ t, (list_recent_in fault limit t).1) store.
End tables.
