(* ===== verification/LaunchTablesProps.v ===== *)
(** * What the report store guarantees

    A report that was recorded is the one that is read, it can be recorded again
    to no effect, and another report for its session never replaces it. *)

From S2P Require Import Prelude RustStr RustFloat Effect McPortablePath SettingsModel Storage.
From S2P Require Import InstanceModel LaunchCrash LaunchOutcome LaunchLogs LaunchReports.
From S2P Require Import LaunchReportProps LaunchSnapshot LaunchModel LaunchTables.

Open Scope string_scope.
Open Scope list_scope.
Open Scope Z_scope.

Definition no_fault (_ : LaunchStatement) : option StorageError := None.

(** ** Statements *)

Section statements.
Context (fault : LaunchStatement → option StorageError).

Lemma statement_ok {E A} (from : StorageError → E) s run a t t' :
  statement fault from s run t = (Ok a : result E A, t') ↔ fault s = None ∧ run t = (Ok a, t').
Proof. unfold statement. destruct (fault s); naive_solver. Qed.

Lemma intents_statement_ok {E A} (from : StorageError → E) s run a t t' :
  intents_statement fault from s run t = (Ok a : result E A, t') ↔
  fault s = None ∧ ∃ rows rows', intent_rows t = Some rows ∧ run rows = (Ok a, rows') ∧
    t' = set_intents t rows'.
Proof.
  unfold intents_statement. rewrite statement_ok. split; intros [Hf Hrun]; (split; [done|]).
  - destruct (intent_rows t) as [rows|]; [|done]. destruct (run rows) as [r rows'] eqn:Er.
    injection Hrun as -> <-. by exists rows, rows'.
  - destruct Hrun as (rows & rows' & -> & Hrun & ->). by rewrite Hrun.
Qed.

Lemma set_intents_same t rows : intent_rows t = Some rows → set_intents t rows = t.
Proof. destruct t as [r [i|]]; naive_solver. Qed.

Lemma set_intents_twice t rows rows' : set_intents (set_intents t rows) rows' = set_intents t rows'.
Proof. done. Qed.

Lemma select_intent_ok {E} (from : StorageError → E) s key a t t' :
  select_intent fault from s key t = (Ok a, t') ↔
  fault s = None ∧ t' = t ∧ ∃ rows, intent_rows t = Some rows ∧ a = rows !! key.
Proof.
  unfold select_intent. rewrite intents_statement_ok. split.
  - intros (Hf & rows & rows' & Hr & [= <- <-] & ->). split_and!; [done|by apply set_intents_same|].
    by exists rows.
  - intros (Hf & -> & rows & Hr & ->). split; [done|]. exists rows, rows.
    by rewrite (set_intents_same t).
Qed.

(** An update that must change exactly one row. *)
Lemma update_one_ok {E} (from : StorageError → E) s key applies change n t t' :
  update_intent fault from s key applies change t = (Ok n, t') → (n =? 1)%nat = true →
  fault s = None ∧ ∃ rows row, intent_rows t = Some rows ∧ rows !! key = Some row ∧
    applies row = true ∧ t' = set_intents t (<[key := change row]> rows).
Proof.
  unfold update_intent. rewrite intents_statement_ok. intros (Hf & rows & rows' & Hr & Hrun & ->) Hn.
  split; [done|]. destruct (rows !! key) as [row|] eqn:Erow.
  2:{ injection Hrun as <- <-. done. }
  destruct (applies row) eqn:Ea; injection Hrun as <- <-; [|done]. by exists rows, row.
Qed.
End statements.

(** ** Acknowledgement *)

Section tables.
Context `{UuidParser} `{UnicodeNorm} `{Rfc3339Millis} `{ReportJson} `{IntentJson}.
Variables (b64_encode : string → string) (b64_decode : string → option string).
Variable (sha256 : string → string).

Notation decode_intent := (LaunchTables.decode_intent).
Notation decode_settlement := (LaunchTables.decode_settlement b64_encode b64_decode sha256).
Notation acknowledge_row := (LaunchTables.acknowledge_row b64_encode b64_decode sha256).
Notation acknowledge_terminal := (LaunchTables.acknowledge_terminal b64_encode b64_decode sha256).
Notation stored_report := (LaunchTables.stored_report b64_encode b64_decode).
Notation record_in := (LaunchTables.record_in b64_encode b64_decode sha256).
Notation report_record := (LaunchTables.report_record b64_encode b64_decode sha256).

(** The row of an intent is settled by the report. *)
Definition row_matches (key : string) (row : IntentRow) (report : LaunchProofRecord) : Prop :=
  ∃ record, decode_intent key (intent_payload row) = Ok record ∧
    (∀ now, ∃ snapshot, terminal_snapshot now record report = Ok snapshot) ∧
    ∀ bytes, intent_settlement row = Some bytes →
      ∃ o, decode_settlement record (intent_payload row) bytes = Ok o ∧
           matches_report o report = true.

Lemma terminal_snapshot_any now now' record report snapshot :
  terminal_snapshot now record report = Ok snapshot →
  ∃ snapshot', terminal_snapshot now' record report = Ok snapshot'.
Proof.
  unfold terminal_snapshot. destruct (scenario_of_context record); [|done].
  cbn [mbind result_bind]. destruct (err_if _ _); [|done]. cbn [mbind result_bind]. by eexists.
Qed.

Lemma set_terminal_ack_done row : terminal_ack row = true → set_terminal_ack row = row.
Proof. destruct row; simpl; by intros ->. Qed.

Lemma acknowledge_row_ok fault now key row report rows t t' :
  intent_rows t = Some rows → rows !! key = Some row → once_accepted row = true →
  acknowledge_row fault now key row report t = (Ok tt, t') →
  row_matches key row report ∧ t' = set_intents t (<[key := set_terminal_ack row]> rows).
Proof.
  intros Hrows Hrow Honce. unfold LaunchTables.acknowledge_row.
  intros (record & t1 & (Hdecode & <-)%lift_ok & Hack)%eff_bind_ok.
  apply eff_bind_ok in Hack as (snapshot & t1 & (Hsnapshot & <-)%lift_ok & Hack).
  apply eff_bind_ok in Hack as (u & t1 & Hsettlement & Hack).
  assert (t1 = t ∧ ∀ bytes, intent_settlement row = Some bytes →
    ∃ o, decode_settlement record (intent_payload row) bytes = Ok o ∧
         matches_report o report = true) as [-> Hmatches].
  { destruct (intent_settlement row) as [bytes|].
    - apply eff_bind_ok in Hsettlement as (o & t2 & [Ho <-]%lift_ok & [Hm <-]%lift_ok).
      ok_inv. split; [done|]. intros ? [= <-]. by exists o.
    - apply eff_ret_ok in Hsettlement as [_ <-]. done. }
  clear Hsettlement. apply eff_bind_ok in Hack as (u' & t2 & Hupdate & Hback).
  ok_inv. split.
  { exists record. split_and!; [done| |done]. intros now'. by eapply terminal_snapshot_any. }
  assert (t2 = set_intents t (<[key := set_terminal_ack row]> rows)) as ->.
  { destruct (terminal_ack row) eqn:Ea.
    - apply eff_ret_ok in Hupdate as [_ <-]. rewrite (set_terminal_ack_done _ Ea), insert_id by done.
      by rewrite set_intents_same.
    - apply eff_bind_ok in Hupdate as (n & t3 & Hn & [Hone <-]%lift_ok). ok_inv.
      eapply update_one_ok in Hn as (_ & rows' & row' & Hr' & Hrow' & _ & ->); [|done]. naive_solver. }
  apply eff_bind_ok in Hback as (saved & t3 & Hselect & Hcheck).
  apply select_intent_ok in Hselect as (_ & -> & rows' & [= <-] & ->).
  rewrite lookup_insert_eq in Hcheck. cbn beta iota in Hcheck.
  apply eff_bind_ok in Hcheck as (? & t4 & [_ <-]%lift_ok & [_ <-]%lift_ok). done.
Qed.

Lemma acknowledge_row_runs now key row report rows t :
  intent_rows t = Some rows → rows !! key = Some row → once_accepted row = true →
  row_matches key row report →
  acknowledge_row no_fault now key row report t =
    (Ok tt, set_intents t (<[key := set_terminal_ack row]> rows)).
Proof.
  intros Hrows Hrow Honce (record & Hdecode & Hsnapshot & Hsettlement).
  destruct (Hsnapshot now) as [snapshot Hs].
  assert (once_accepted (set_terminal_ack row) = true) as Honce' by done.
  unfold LaunchTables.acknowledge_row.
  apply eff_bind_ok. exists record, t. split; [apply lift_ok; by rewrite Hdecode|].
  apply eff_bind_ok. exists snapshot, t. split; [apply lift_ok; by rewrite Hs|].
  apply eff_bind_ok. exists tt, t. split.
  { destruct (intent_settlement row) as [bytes|]; [|done].
    destruct (Hsettlement bytes eq_refl) as (o & Ho & Hm).
    apply eff_bind_ok. exists o, t. split; apply lift_ok; [by rewrite Ho|by rewrite Hm]. }
  apply eff_bind_ok. exists tt, (set_intents t (<[key := set_terminal_ack row]> rows)). split.
  { destruct (terminal_ack row) eqn:Ea.
    - by rewrite (set_terminal_ack_done row Ea), (insert_id rows key row Hrow), (set_intents_same t rows Hrows).
    - apply eff_bind_ok. exists 1%nat, (set_intents t (<[key := set_terminal_ack row]> rows)).
      split; [|done]. apply intents_statement_ok. split; [done|].
      exists rows, (<[key := set_terminal_ack row]> rows). split_and!; [done| |done].
      by rewrite Hrow, (proj2 (str_eqb_spec _ _) eq_refl), Honce, Ea. }
  apply eff_bind_ok. exists (Some (set_terminal_ack row)), (set_intents t (<[key := set_terminal_ack row]> rows)).
  split.
  { apply select_intent_ok. split_and!; [done..|]. eexists. split; [done|]. by rewrite lookup_insert_eq. }
  rewrite Honce'. cbn [set_terminal_ack intent_payload terminal_ack intent_settlement].
  by rewrite (proj2 (str_eqb_spec _ _) eq_refl), bool_decide_true.
Qed.

Lemma elem_of_intents session rows key row :
  (key, row) ∈ intents_of_session session rows ↔
  rows !! key = Some row ∧ once_accepted row = true ∧
  json_session_id (intent_payload row) = Some session.
Proof.
  clear b64_encode b64_decode sha256.
  unfold intents_of_session. rewrite list_elem_of_filter, elem_of_map_to_list.
  rewrite andb_true_iff, opt_eqb_spec. tauto.
Qed.

Lemma intents_NoDup session rows : NoDup (intents_of_session session rows).
Proof. unfold intents_of_session. apply list.NoDup_filter, NoDup_map_to_list. Qed.

Lemma singleton_list {A} (l : list A) a : NoDup l → (∀ x, x ∈ l ↔ x = a) → l = [a].
Proof.
  intros Hd Hl. destruct l as [|x l].
  { exfalso. assert (a ∈ []) as Hin by (by apply Hl). by apply elem_of_nil in Hin. }
  assert (x = a) as -> by (apply Hl; by left). f_equal. destruct l as [|y l]; [done|].
  assert (y = a) as -> by (apply Hl; by right; left).
  apply list.NoDup_cons in Hd as [Hd _]. exfalso. apply Hd. by left.
Qed.

Lemma intents_acknowledged session rows key row :
  intents_of_session session rows = [(key, row)] →
  intents_of_session session (<[key := set_terminal_ack row]> rows) = [(key, set_terminal_ack row)].
Proof.
  intros Hl. assert ((key, row) ∈ intents_of_session session rows) as Hin by (rewrite Hl; by left).
  apply elem_of_intents in Hin as (Hrow & Honce & Hj).
  apply singleton_list; [apply intents_NoDup|]. intros [key' row']. rewrite elem_of_intents.
  destruct (decide (key' = key)) as [->|Hne].
  - rewrite lookup_insert_eq. split; [naive_solver|]. intros [= ->]. done.
  - rewrite lookup_insert_ne by done. split; [|congruence]. intros Hin%elem_of_intents.
    rewrite Hl in Hin. apply list_elem_of_singleton in Hin. congruence.
Qed.

(** What an acknowledgement makes of the intents. *)
Definition acknowledged (report : LaunchProofRecord) (rows rows' : gmap string IntentRow) : Prop :=
  (intents_of_session (session_id report) rows = [] ∧ rows' = rows) ∨
  ∃ key row, intents_of_session (session_id report) rows = [(key, row)] ∧
    read_intent ReportStorage (key, row) = Ok (key, row) ∧ row_matches key row report ∧
    rows' = <[key := set_terminal_ack row]> rows.

Definition tables_acknowledged (report : LaunchProofRecord) (t t' : LaunchTables) : Prop :=
  match intent_rows t with
  | None => t' = t
  | Some rows => ∃ rows', acknowledged report rows rows' ∧ t' = set_intents t rows'
  end.

Lemma acknowledged_again report rows rows' :
  acknowledged report rows rows' → acknowledged report rows' rows'.
Proof.
  intros [[Hl ->]|(key & row & Hl & Hread & Hmatch & ->)]; [by left|]. right.
  exists key, (set_terminal_ack row). split_and!; [by apply intents_acknowledged| |done|].
  - revert Hread. unfold read_intent. cbn [fst snd set_terminal_ack intent_payload].
    by destruct (err_if _ _).
  - by rewrite insert_insert_eq.
Qed.

Lemma tables_acknowledged_again report t t' :
  tables_acknowledged report t t' → tables_acknowledged report t' t'.
Proof.
  unfold tables_acknowledged. destruct (intent_rows t) as [rows|] eqn:E.
  - intros (rows' & Ha & ->). cbn [intent_rows set_intents]. exists rows'.
    split; [by eapply acknowledged_again|done].
  - intros ->. by rewrite E.
Qed.

Lemma acknowledge_terminal_ok fault now report t t' :
  acknowledge_terminal fault now report t = (Ok tt, t') → tables_acknowledged report t t'.
Proof.
  unfold LaunchTables.acknowledge_terminal, tables_acknowledged.
  intros (ex & t1 & Hex & Hrun)%eff_bind_ok. apply statement_ok in Hex as [_ [= <- <-]].
  destruct (intent_rows t) as [rows|] eqn:Hrows; cbn [is_none negb] in Hrun.
  2:{ by apply eff_ret_ok in Hrun as [_ <-]. }
  apply eff_bind_ok in Hrun as (found & t1 & Hfound & Hrun).
  apply intents_statement_ok in Hfound as (_ & rows1 & rows2 & Hr & Hfound & ->).
  rewrite Hrows in Hr. injection Hr as <-. injection Hfound as Hfound <-.
  rewrite (set_intents_same t rows Hrows) in Hrun. apply try_map_ok in Hfound.
  destruct (intents_of_session (session_id report) rows) as [|[key row] l] eqn:El.
  { apply list.Forall2_nil_inv_l in Hfound as ->. apply eff_ret_ok in Hrun as [_ <-]. exists rows.
    split; [by left|]. by rewrite set_intents_same. }
  destruct l as [|kr l].
  - apply list.Forall2_cons_inv_l in Hfound as ([k r] & ? & Hread & Hnil & ->).
    apply list.Forall2_nil_inv_l in Hnil as ->.
    assert (key = k ∧ row = r) as [<- <-].
    { unfold read_intent in Hread. destruct (err_if _ _); [|done]. by injection Hread. }
    assert ((key, row) ∈ intents_of_session (session_id report) rows) as Hin by (rewrite El; by left).
    apply elem_of_intents in Hin as (Hrow & Honce & _).
    eapply acknowledge_row_ok in Hrun as [Hmatch ->]; [|done..].
    eexists. split; [|done]. right. by exists key, row.
  - apply list.Forall2_cons_inv_l in Hfound as ([k r] & ? & _ & Hrest & ->).
    apply list.Forall2_cons_inv_l in Hrest as (? & ? & _ & _ & ->).
    by apply lift_ok in Hrun as [? _].
Qed.

Lemma acknowledge_terminal_runs now report t t' :
  tables_acknowledged report t t' →
  acknowledge_terminal no_fault now report t = (Ok tt, t').
Proof.
  unfold tables_acknowledged. intros Ha. unfold LaunchTables.acknowledge_terminal.
  apply eff_bind_ok. eexists _, t. split; [by apply statement_ok|].
  destruct (intent_rows t) as [rows|] eqn:Hrows; [|by subst t'].
  destruct Ha as (rows' & Ha & ->). cbn [is_none negb].
  apply eff_bind_ok. exists (intents_of_session (session_id report) rows), t. split.
  - apply intents_statement_ok. split; [done|]. exists rows, rows.
    split_and!; [done| |by rewrite set_intents_same]. f_equal.
    destruct Ha as [[-> _]|(key & row & -> & Hread & _)]; [done|].
    cbn [take try_map]. by rewrite Hread.
  - destruct Ha as [[-> ->]|(key & row & Hl & _ & Hmatch & ->)].
    + by rewrite set_intents_same.
    + rewrite Hl. assert ((key, row) ∈ intents_of_session (session_id report) rows) as Hin
        by (rewrite Hl; by left).
      apply elem_of_intents in Hin as (Hrow & Honce & _). by apply acknowledge_row_runs.
Qed.

(** ** Recording *)

(** The row of the session reads as the report. *)
Definition stored_in (t : LaunchTables) (session : string) (report : LaunchProofRecord) : Prop :=
  ∃ row, report_rows t !! session = Some row ∧ str_len (report_payload row) <= MAX_REPORT_BYTES ∧
    decode_stored_report b64_encode b64_decode session (report_instance row) (report_recorded row)
      (report_payload row) = Ok report.

Lemma stored_report_ok fault s session saved t t' :
  stored_report fault s session t = (Ok saved, t') ↔
  fault s = None ∧ t' = t ∧
  match saved with
  | None => report_rows t !! session = None
  | Some report => stored_in t session report
  end.
Proof.
  unfold LaunchTables.stored_report, stored_in. rewrite eff_bind_ok. split.
  - intros (row & t1 & Hrow & Hsaved). apply statement_ok in Hrow as [Hf [= <- <-]].
    split; [done|]. destruct (report_rows t !! session) as [row|]; cbn [fmap option_fmap option_map] in Hsaved.
    + apply eff_bind_ok in Hsaved as (bytes & t1 & [Hb <-]%lift_ok & Hsaved).
      apply eff_bind_ok in Hsaved as (report & t1 & [Hr <-]%lift_ok & [<- <-]%eff_ret_ok).
      ok_inv. destruct (Z.leb_spec (str_len (report_payload row)) MAX_REPORT_BYTES); [|done].
      injection Hb as <-. eauto.
    + by apply eff_ret_ok in Hsaved as [<- <-].
  - intros (Hf & -> & Hsaved). eexists _, t. split; [by apply statement_ok|].
    destruct saved as [report|].
    + destruct Hsaved as (row & -> & Hlen & Hdecode). cbn [fmap option_fmap option_map].
      rewrite (proj2 (Z.leb_le _ _) Hlen). apply eff_bind_ok. eexists _, t. split; [by apply lift_ok|].
      apply eff_bind_ok. exists report, t. split; [by apply lift_ok|done].
    + by rewrite Hsaved.
Qed.

Lemma report_eqb_without a b :
  report_eqb a b = true → report_eqb (set_comparison a None) (set_comparison b None) = true.
Proof.
  clear b64_encode b64_decode sha256.
  unfold report_eqb. cbn [set_comparison schema schema_version session_id instance_id version_id
    launched_at recorded_at outcome session_outcome scenario device resource_budget report_exit_code
    boot_duration_ms crash_evidence stages comparison logs logs_dropped].
  rewrite !andb_true_iff. tauto.
Qed.

Lemma tables_acknowledged_rows report t t' :
  tables_acknowledged report t t' → report_rows t' = report_rows t.
Proof. unfold tables_acknowledged. destruct (intent_rows t); [by intros (? & _ & ->)|by intros ->]. Qed.

(** What a transaction of [record] that succeeds has done. *)
Lemma record_in_ok fault now report t t' :
  comparison report = None → record_in fault now report t = (Ok tt, t') →
  ∃ saved t1, stored_in t1 (session_id report) saved ∧
    report_eqb (set_comparison saved None) report = true ∧ tables_acknowledged saved t1 t' ∧
    (t1 = t ∨ report_rows t !! session_id report = None ∧
       ∃ row, t1 = set_reports t (<[session_id report := row]> (report_rows t))).
Proof.
  intros Hnone. unfold LaunchTables.record_in.
  intros (saved & t1 & (_ & -> & Hsaved)%stored_report_ok & Hrun)%eff_bind_ok.
  destruct saved as [saved|].
  - apply eff_bind_ok in Hrun as (? & t1 & [Heq <-]%lift_ok & Hack). ok_inv.
    apply acknowledge_terminal_ok in Hack. exists saved, t. split_and!; [done|done|exact Hack|by left].
  - apply eff_bind_ok in Hrun as (candidates & t1 & Hc & Hrun).
    apply statement_ok in Hc as [_ [= _ <-]].
    apply eff_bind_ok in Hrun as (payload & t1 & [_ <-]%lift_ok & Hrun).
    apply eff_bind_ok in Hrun as (? & t1 & Hinsert & Hrun).
    unfold insert_report in Hinsert.
    apply eff_bind_ok in Hinsert as (n & t2 & Hn & [_ ->]%lift_ok).
    apply statement_ok in Hn as [_ Hn]. cbn [session_id set_comparison] in Hn. rewrite Hsaved in Hn.
    destruct (row_constraints_hold _ _); [|done]. injection Hn as <- <-.
    apply eff_bind_ok in Hrun as (saved & t1 & (_ & -> & Hback)%stored_report_ok & Hrun).
    apply eff_bind_ok in Hrun as (saved' & t1 & [Hs <-]%lift_ok & Hrun). ok_inv. subst saved.
    apply eff_bind_ok in Hrun as (? & t1 & [Heq <-]%lift_ok & Hack). ok_inv.
    apply acknowledge_terminal_ok in Hack. eexists saved', _. split_and!; [exact Hback| |exact Hack|].
    + apply report_eqb_without in Heq. destruct report. cbn in Hnone. by subst.
    + right. split; [done|]. by eexists.
Qed.

Lemma record_in_again now report saved t :
  stored_in t (session_id report) saved → tables_acknowledged saved t t →
  record_in no_fault now report t =
    (if report_eqb (set_comparison saved None) report then Ok tt else Err ConflictingSession, t).
Proof.
  intros Hstored Hack. unfold LaunchTables.record_in.
  assert (stored_report no_fault SelectReport (session_id report) t = (Ok (Some saved), t)) as Hs
    by (by apply stored_report_ok).
  unfold mbind, eff_bind at 1. rewrite Hs.
  destruct (report_eqb _ report) eqn:E; [|done]. cbn [negb err_if lift].
  by apply acknowledge_terminal_runs.
Qed.

Lemma sanitize_report_ids input q report :
  sanitize_report b64_encode b64_decode input q = Ok report →
  session_id report = session_id input ∧ valid_report_id (session_id input) = true.
Proof.
  unfold sanitize_report. intros Hs. ok_inv. subst. cbn [session_id]. done.
Qed.

Lemma get_in_stored t session report :
  valid_report_id session = true → stored_in t session report →
  get_in b64_encode b64_decode no_fault session t = (Ok (Some report), t).
Proof.
  intros Hv Hs. unfold get_in. apply eff_bind_ok. exists tt, t.
  split; [apply lift_ok; by rewrite Hv|]. by apply stored_report_ok.
Qed.

(** A read in which nothing fails returns what the callback does. *)
Lemma report_get_stored session report store :
  poisoned store = false → valid_report_id session = true →
  stored_in (database store) session report →
  report_get b64_encode b64_decode quiet_call no_fault session store = (Ok (Some report), store).
Proof.
  intros Hp Hv Hs. unfold report_get, read_callback, lock. rewrite Hp. cbn [quiet_call query_only_error].
  by rewrite (get_in_stored _ _ _ Hv Hs).
Qed.

Notation report_get := (LaunchTables.report_get b64_encode b64_decode).

(** C25: Recording a report, whatever the database does, either fails and leaves
    every table as it was, or the report is stored: the store reads back, for
    its session, a report that equals the sanitised one but for the comparison
    the store derived itself.  No other session's report changes, a stored
    report is never replaced, and of the intents nothing changes but the
    acknowledgement of the one that owns the session, which the report matches. *)
Theorem recorded_report_kept call fault now input q store r store' :
  settles call → report_record call fault now input q store = (r, store') →
  match r with
  | Err _ => database store' = database store
  | Ok _ => ∃ report saved,
      sanitize_report b64_encode b64_decode input q = Ok report ∧
      report_get quiet_call no_fault (session_id input) store' = (Ok (Some saved), store') ∧
      report_eqb (set_comparison saved None) (set_comparison report None) = true ∧
      (∀ session, session ≠ session_id input →
         report_rows (database store') !! session = report_rows (database store) !! session) ∧
      (∀ row, report_rows (database store) !! session_id input = Some row →
         report_rows (database store') !! session_id input = Some row) ∧
      tables_acknowledged saved
        (set_reports (database store) (report_rows (database store'))) (database store')
  end.
Proof.
  intros Hsettles. unfold LaunchTables.report_record.
  destruct (sanitize_report _ _ input q) as [report|e] eqn:Es; [|by intros [= <- <-]].
  destruct (sanitize_report_ids _ _ _ Es) as [Hid Hvalid].
  intros Hcases%transaction_cases; [|done].
  destruct Hcases as [[] changed store' Hwrite Hp Hm ->|]; [|done].
  apply record_in_ok in Hwrite as (saved & t1 & Hstored & Heq & Hack & Ht); [|done].
  cbn [session_id set_comparison] in Hstored, Ht. rewrite Hid in Hstored, Ht.
  pose proof (tables_acknowledged_rows _ _ _ Hack) as Hrows.
  exists report, saved. cbn [database with_database].
  split_and!; [done| |exact Heq| | |].
  - apply report_get_stored; [done|done|]. cbn [database with_database].
    destruct Hstored as (row & Hrow & ?). exists row. by rewrite Hrows.
  - intros session Hne. rewrite Hrows. destruct Ht as [->|(_ & row & ->)]; [done|].
    cbn [report_rows set_reports]. by rewrite lookup_insert_ne.
  - intros row Hrow. rewrite Hrows. destruct Ht as [->|(Hnone & _)]; [done|congruence].
  - assert (set_reports (database store) (report_rows changed) = t1) as ->; [|exact Hack].
    rewrite Hrows. destruct Ht as [->|(_ & row & ->)]; [by destruct (database store)|done].
Qed.

(** Recording again is settled by the report that is stored.  After a
    record has succeeded, recording any report for its session, with whatever
    secrets, changes nothing: it succeeds when the sanitised report equals the
    stored one up to the comparison, as the same report does, and is refused as
    a conflict otherwise. *)
Theorem record_again_settled call fault now input q store store' saved :
  settles call → report_record call fault now input q store = (Ok tt, store') →
  report_get quiet_call no_fault (session_id input) store' = (Ok (Some saved), store') →
  mutation_closed store' = false ∧
  (∀ now', report_record quiet_call no_fault now' input q store' = (Ok tt, store')) ∧
  ∀ now' other q' report, sanitize_report b64_encode b64_decode other q' = Ok report →
    session_id other = session_id input →
    report_record quiet_call no_fault now' other q' store' =
      (if report_eqb (set_comparison saved None) (set_comparison report None) then Ok tt
       else Err ConflictingSession, store').
Proof.
  intros Hsettles. unfold LaunchTables.report_record.
  destruct (sanitize_report _ _ input q) as [report|e] eqn:Es; [|done].
  destruct (sanitize_report_ids _ _ _ Es) as [Hid Hvalid].
  intros Hcases%transaction_cases Hget; [|done].
  inversion Hcases as [[] changed store1 Hwrite Hp Hm| ]; subst.
  apply record_in_ok in Hwrite as (saved' & t1 & Hstored & Heq & Hack & Ht); [|done].
  cbn [session_id set_comparison] in Hstored, Ht. rewrite Hid in Hstored, Ht.
  assert (stored_in changed (session_id input) saved') as Hstored'.
  { destruct Hstored as (row & Hrow & ?). exists row.
    by rewrite (tables_acknowledged_rows _ _ _ Hack). }
  rewrite (report_get_stored (session_id input) saved') in Hget by done. injection Hget as <-.
  apply tables_acknowledged_again in Hack.
  assert (∀ now' other, session_id other = session_id input →
    transaction ReportStorage quiet_call
      (record_in no_fault now' (set_comparison other None)) (with_database store changed) =
    (if report_eqb (set_comparison saved' None) (set_comparison other None) then Ok tt
     else Err ConflictingSession, with_database store changed)) as Hagain.
  { intros now' other Hother. unfold transaction, lock. cbn [poisoned mutation_closed database with_database].
    rewrite Hp. cbn [mutation_closed with_database]. rewrite Hm.
    cbn [quiet_call begin_error database with_database].
    rewrite (record_in_again now' (set_comparison other None) saved' changed)
      by (cbn [session_id set_comparison]; by rewrite ?Hother).
    by destruct (report_eqb (set_comparison saved' None) (set_comparison other None)). }
  split_and!; [done| |].
  - intros now'. rewrite Hagain by done. by rewrite Heq.
  - intros now' other q' report' Es' Hother. rewrite Es'.
    destruct (sanitize_report_ids _ _ _ Es') as [Hid' _]. apply Hagain. congruence.
Qed.
End tables.
