(* ===== verification/LaunchIntents.v ===== *)
(** * Launch intents ([core/app/src/launch/coordinator.rs])

    The identities of launches: reserved, claimed by one worker, accepted before
    the first instruction of a process, and settled.  The live entries are lost
    with the process; the rows of [LaunchTables] are not.  An operation runs
    under the lock of the entries; each call it makes to the store is described
    by [env].  Fresh identities and the clock are arguments.  Where the code
    hands out a receiver of the status, the status is the entry's own field. *)

From S2P Require Import Prelude RustStr Effect McPortablePath SettingsModel Storage InstanceModel.
From S2P Require Import LaunchCrash LaunchOutcome LaunchLogs LaunchReports LaunchSnapshot.
From S2P Require Import LaunchModel LaunchTables.

Open Scope string_scope.
Open Scope list_scope.
Open Scope Z_scope.

Definition MAX_RECOVERY_INTENTS : nat := 4096.
Definition MAX_RECOVERY_BYTES : Z := 32 * 1024 * 1024.

Record IntentEntry := {
  entry_record : IntentRecord;
  claimed : bool;
  accepted : bool;
  status : LaunchIntentStatus;
}.

(** The live entries and the store they are recorded in; [durable] tells
    whether there is one. *)
Record LaunchIntents := {
  live : gmap string IntentEntry;
  live_poisoned : bool;
  capacity : nat;
  durable : bool;
  metadata : Store;
}.

(** The calls an operation makes to the store. *)
Inductive LaunchCall :=
| LoadCall | LoadReportCall | RejectCall | InsertCall | AcceptCall | SettledCall
| ScanCall (n : nat) | LengthCall (n : nat) | ReportCall (n : nat) | AcknowledgeCall (n : nat).

Definition Env : Type := LaunchCall → SqliteCall * (LaunchStatement → option StorageError).
Definition quiet_env : Env := λ _, (quiet_call, λ _, None).

Definition set_live (m : LaunchIntents) (entries : gmap string IntentEntry) : LaunchIntents := {|
  live := entries; live_poisoned := live_poisoned m; capacity := capacity m; durable := durable m;
  metadata := metadata m |}.

Definition set_metadata (m : LaunchIntents) (store : Store) : LaunchIntents := {|
  live := live m; live_poisoned := live_poisoned m; capacity := capacity m; durable := durable m;
  metadata := store |}.

Definition set_claimed (e : IntentEntry) : IntentEntry := {|
  entry_record := entry_record e; claimed := true; accepted := accepted e; status := status e |}.
Definition set_accepted (e : IntentEntry) (record : IntentRecord) : IntentEntry := {|
  entry_record := record; claimed := claimed e; accepted := true; status := status e |}.
Definition set_status (e : IntentEntry) (s : LaunchIntentStatus) : IntentEntry := {|
  entry_record := entry_record e; claimed := claimed e; accepted := accepted e; status := s |}.

Definition set_binding (record : IntentRecord) (b : IntentBinding) : IntentRecord := {|
  intent_request := intent_request record; intent_context := intent_context record;
  intent_session_id := intent_session_id record; binding := Some b |}.

Definition is_preparing (s : LaunchIntentStatus) : bool :=
  match s with Preparing => true | _ => false end.

Inductive ReservedIntent :=
| Existing (status : LaunchIntentStatus)
| New (key session_id : string).

(** What the owning session is handed before it spawns. *)
Record AcceptedIntent := {
  accepted_durable : bool;
  accepted_key : string;
  accepted_bytes : string;
  accepted_record : IntentRecord;
}.

Inductive ObservationError := ObservationInvalid | ObservationConflict | ObservationStorage.

Section intents.
Context `{UuidParser} `{UnicodeNorm} `{Rfc3339Millis} `{ReportJson} `{IntentJson}.
Variables (b64_encode : string → string) (b64_decode : string → option string).
Variable (sha256 : string → string).

Notation decode_settlement := (decode_settlement b64_encode b64_decode sha256).
Notation get_in := (get_in b64_encode b64_decode).

(** ** Transactions on a row *)

Section rows.
Context (fault : LaunchStatement → option StorageError).

Definition set_rejected (error : string) (row : IntentRow) : IntentRow := {|
  intent_payload := intent_payload row; intent_state := StateRejected; intent_error := Some error;
  terminal_ack := terminal_ack row; intent_settlement := intent_settlement row |}.

Definition set_row_accepted (payload : string) (row : IntentRow) : IntentRow := {|
  intent_payload := payload; intent_state := StateAccepted; intent_error := intent_error row;
  terminal_ack := terminal_ack row; intent_settlement := intent_settlement row |}.

Definition set_settlement (bytes : string) (row : IntentRow) : IntentRow := {|
  intent_payload := intent_payload row; intent_state := intent_state row;
  intent_error := intent_error row; terminal_ack := terminal_ack row;
  intent_settlement := Some bytes |}.

Definition reject_in (key error : string) : eff LaunchTables StorageError unit :=
  changed ← update_intent fault (λ e, e) UpdateRejected key (λ _, true) (set_rejected error);
  lift (err_if (negb (changed =? 1)%nat) StorageCorrupt) ;;
  saved ← select_intent fault (λ e, e) SelectRejected key;
  saved ← lift (ok_or Sqlite saved);
  text ← lift (ok_or Sqlite (intent_error saved));
  lift (err_if (negb (bool_decide (intent_state saved = StateRejected)) || negb (str_eqb text error))
          StorageCorrupt).

(** The constraints of the table on a key and a payload. *)
Definition intent_constraints_hold (key payload : string) : bool :=
  (chars_count key =? 36)%nat && length_between 1 16384 (str_len payload).

Definition insert_in (key payload : string) : eff LaunchTables StorageError unit :=
  intents_statement fault (λ e, e) InsertIntent (λ rows,
    match rows !! key with
    | Some _ => (Err Sqlite, rows)
    | None =>
        if intent_constraints_hold key payload then
          (Ok tt, <[key := {| intent_payload := payload; intent_state := StatePending;
                              intent_error := None; terminal_ack := false;
                              intent_settlement := None |}]> rows)
        else (Err Sqlite, rows)
    end).

Definition pending_row (row : IntentRow) : bool :=
  bool_decide (intent_state row = StatePending) && is_none (intent_settlement row).

Definition accept_in (key : string) (expected : IntentRecord) (payload : string)
    : eff LaunchTables StorageError unit :=
  row ← select_intent fault (λ e, e) SelectPending key;
  row ← lift (ok_or Sqlite row);
  lift (err_if (negb (pending_row row) || (16384 <? str_len (intent_payload row))) Sqlite) ;;
  prior ← lift (map_err (λ _, StorageCorrupt) (decode_intent key (intent_payload row)));
  lift (err_if (negb (bool_decide (prior = expected))) StorageCorrupt) ;;
  lift (err_if (negb (intent_constraints_hold key payload)) Sqlite) ;;
  changed ← update_intent fault (λ e, e) UpdateAccepted key
    (λ saved, pending_row saved && str_eqb (intent_payload saved) (intent_payload row))
    (set_row_accepted payload);
  lift (err_if (negb (changed =? 1)%nat) StorageCorrupt) ;;
  saved ← select_intent fault (λ e, e) SelectAccepted key;
  saved ← lift (ok_or Sqlite saved);
  lift (err_if (negb (str_eqb (intent_payload saved) payload) ||
                negb (bool_decide (intent_state saved = StateAccepted)) ||
                negb (is_none (intent_settlement saved))) StorageCorrupt).

Definition accepted_unsettled (payload : string) (row : IntentRow) : bool :=
  str_eqb (intent_payload row) payload && bool_decide (intent_state row = StateAccepted) &&
  is_none (intent_settlement row).

Definition observe_in (acceptance : AcceptedIntent) (settlement : string)
    : eff LaunchTables ObservationError unit :=
  let key := accepted_key acceptance in
  let payload := accepted_bytes acceptance in
  row ← select_intent fault (λ _, ObservationStorage) SelectObserved key;
  row ← lift (ok_or ObservationConflict row);
  lift (err_if (negb (str_eqb (intent_payload row) payload) ||
                negb (bool_decide (intent_state row = StateAccepted))) ObservationConflict) ;;
  match intent_settlement row with
  | Some prior => lift (err_if (negb (str_eqb prior settlement)) ObservationConflict)
  | None =>
      changed ← (if length_between 1 4096 (str_len settlement)
                 then update_intent fault (λ _, ObservationStorage) UpdateSettlement key
                        (accepted_unsettled payload) (set_settlement settlement)
                 else lift (Err ObservationStorage));
      lift (err_if (negb (changed =? 1)%nat) ObservationConflict) ;;
      saved ← select_intent fault (λ _, ObservationStorage) SelectObservedBack key;
      lift (err_if (negb (is_some_and saved (λ saved,
              str_eqb (intent_payload saved) payload &&
              bool_decide (intent_state saved = StateAccepted) &&
              opt_eqb (intent_settlement saved) settlement))) ObservationConflict)
  end.
End rows.

(** ** Observation of the end of a session *)

Definition matches_session (acceptance : AcceptedIntent) (session instance : string) : bool :=
  str_eqb (intent_session_id (accepted_record acceptance)) session &&
  str_eqb (request_instance_id (intent_request (accepted_record acceptance))) instance.

Definition observe (call : SqliteCall) (fault : LaunchStatement → option StorageError)
    (acceptance : AcceptedIntent) (o : ObservedSettlement) (store : Store)
    : result ObservationError bool * Store :=
  match settlement_to_vec {| settlement_version := 1;
          accepted_payload := sha256 (accepted_bytes acceptance); observation := o |} with
  | None => (Err ObservationInvalid, store)
  | Some settlement =>
      match decode_settlement (accepted_record acceptance) (accepted_bytes acceptance) settlement with
      | Err _ => (Err ObservationInvalid, store)
      | Ok _ =>
          if negb (accepted_durable acceptance) then (Ok false, store)
          else
            let '(r, store) := transaction (λ _, ObservationStorage) call
              (observe_in fault acceptance settlement) store in
            (r ;; Ok true, store)
      end
  end.

(** ** Operations of the manager *)

Definition with_store {E F A} (f : E → F) (run : Store → result E A * Store)
    : eff LaunchIntents F A := λ m,
  let '(r, store) := run (metadata m) in (map_err f r, set_metadata m store).

Definition get_state : eff LaunchIntents LaunchError LaunchIntents := λ m, (Ok m, m).
Definition put_entry (key : string) (entry : IntentEntry) : eff LaunchIntents LaunchError unit :=
  λ m, (Ok tt, set_live m (<[key := entry]> (live m))).

(** [self.entries.lock()], whose error is that of a closed launcher. *)
Definition lock_entries : eff LaunchIntents LaunchError (gmap string IntentEntry) :=
  m ← get_state;
  lift (err_if (live_poisoned m) LaunchClosed) ;;
  mret (live m).

Section operations.
Context (env : Env) (now : string).

Definition reject (key : string) (error : LaunchError) : eff LaunchIntents LaunchError unit :=
  m ← get_state;
  if negb (durable m) then mret tt
  else
    text ← lift (ok_or IntentUnavailable (rejection_to_string (rejection_of error)));
    let '(call, fault) := env RejectCall in
    with_store (λ _, IntentUnavailable) (transaction (λ e, e) call (reject_in fault key text)).

Definition terminal_session (record : IntentRecord) (payload : string) (settlement : option string)
    : eff LaunchIntents LaunchError (option SessionSnapshot) :=
  observed ← lift (match settlement with
                   | None => Ok None
                   | Some bytes => o ← decode_settlement record payload bytes; Ok (Some o)
                   end);
  m ← get_state;
  report ← (if negb (durable m) then mret None
            else
              let '(call, fault) := env LoadReportCall in
              with_store (λ _, IntentUnavailable)
                (report_get b64_encode b64_decode call fault (intent_session_id record)));
  match report with
  | Some report =>
      lift (err_if (is_some_and observed (λ o, negb (matches_report o report))) IntentUnavailable) ;;
      snapshot ← lift (terminal_snapshot now record report);
      mret (Some snapshot)
  | None =>
      mret ((λ o, settlement_snapshot now o (intent_session_id record)
                    (request_instance_id (intent_request record))) <$> observed)
  end.

(** The status of a row that was read. *)
Definition row_status (key : string) (record : IntentRecord) (row : IntentRow)
    : eff LaunchIntents LaunchError LaunchIntentStatus :=
  match intent_state row with
  | StatePending =>
      if negb (is_none (intent_context record)) then mret Preparing
      else
        reject key PreparationFailed ;;
        mret (StatusRejected (error_response PreparationFailed))
  | StateAccepted | StateInterrupted =>
      session ← terminal_session record (intent_payload row) (intent_settlement row);
      mret (match session with
            | Some session => StatusAccepted session
            | None => StatusInterrupted (intent_session_id record)
            end)
  | StateRejected =>
      text ← lift (ok_or IntentUnavailable (intent_error row));
      rejection ← lift (ok_or IntentUnavailable (rejection_from_str text));
      mret (StatusRejected (error_response (error_of rejection)))
  end.

Definition load (key : string) : eff LaunchIntents LaunchError (option IntentEntry) :=
  m ← get_state;
  if negb (durable m) then mret None
  else
    let '(call, fault) := env LoadCall in
    row ← with_store (λ _, IntentUnavailable)
      (read_callback (λ e, e) call (λ t, (select_intent fault (λ e, e) SelectIntent key t).1));
    match row with
    | None => mret None
    | Some row =>
        record ← lift (decode_intent key (intent_payload row));
        lift (err_if (negb (is_none (intent_settlement row)) && negb (once_accepted row))
                IntentUnavailable) ;;
        s ← row_status key record row;
        mret (Some {| entry_record := record; claimed := false; accepted := false; status := s |})
    end.

(** The check against the request of an entry. *)
Definition entry_conflicts (request : LaunchRequest) (context : option string) (entry : IntentEntry)
    : bool :=
  negb (same_effect request (intent_request (entry_record entry))) ||
  negb (bool_decide (context = intent_context (entry_record entry))).

Definition new_intent (key fresh_session : string) (request : LaunchRequest)
    (context : option string) : eff LaunchIntents LaunchError string :=
  let record := {| intent_request := request; intent_context := context;
                   intent_session_id := fresh_session; binding := None |} in
  m ← get_state;
  (if negb (durable m) then mret tt
   else
     payload ← lift (ok_or IntentUnavailable (intent_to_vec record));
     let '(call, fault) := env InsertCall in
     with_store (λ _, IntentUnavailable) (transaction (λ e, e) call (insert_in fault key payload))) ;;
  put_entry key {| entry_record := record; claimed := false; accepted := false;
                   status := Preparing |} ;;
  mret fresh_session.

(** A key without a live entry is looked up in the store. *)
Definition load_live (key : string) (entries : gmap string IntentEntry)
    : eff LaunchIntents LaunchError unit :=
  match entries !! key with
  | Some _ => mret tt
  | None =>
      m ← get_state;
      lift (err_if (capacity m <=? size entries)%nat AtCapacity) ;;
      loaded ← load key;
      match loaded with
      | Some entry => put_entry key entry
      | None => mret tt
      end
  end.

Definition reserve_identity (fresh_session : string) (request : LaunchRequest)
    (context : option string) : eff LaunchIntents LaunchError string :=
  lift (request_validate request) ;;
  key ← lift (ok_or InvalidIntent (intent_key request));
  entries ← lock_entries;
  load_live key entries ;;
  m ← get_state;
  match live m !! key with
  | Some entry =>
      lift (err_if (entry_conflicts request context entry) IntentConflict) ;;
      mret (intent_session_id (entry_record entry))
  | None => new_intent key fresh_session request context
  end.

(** The second half of [reserve_context], under a lock of its own. *)
Definition claim (key : string) : eff LaunchIntents LaunchError ReservedIntent :=
  entries ← lock_entries;
  entry ← lift (ok_or IntentUnavailable (entries !! key));
  if claimed entry || negb (is_preparing (status entry)) then mret (Existing (status entry))
  else
    put_entry key (set_claimed entry) ;;
    mret (New key (intent_session_id (entry_record entry))).

(** [get_or_insert_with] of the key. *)
Definition with_key (fresh_key : string) (request : LaunchRequest) : LaunchRequest :=
  match intent_key request with Some _ => request | None => set_intent_key request fresh_key end.

Definition reserve_context (fresh_key fresh_session : string) (request : LaunchRequest)
    (context : option string) : eff LaunchIntents LaunchError ReservedIntent :=
  let request := with_key fresh_key request in
  reserve_identity fresh_session request context ;;
  key ← lift (ok_or InvalidIntent (intent_key request));
  claim key.

Definition accept (key : string) (b : IntentBinding) : eff LaunchIntents LaunchError AcceptedIntent :=
  entries ← lock_entries;
  entry ← lift (ok_or IntentUnavailable (entries !! key));
  lift (err_if (negb (claimed entry) || accepted entry || negb (is_preparing (status entry)) ||
                negb (binding_version b =? 1) ||
                negb (str_eqb (binding_directory_name b)
                        (request_instance_id (intent_request (entry_record entry)))))
          IntentConflict) ;;
  let record := set_binding (entry_record entry) b in
  payload ← lift (ok_or IntentUnavailable (intent_to_vec record));
  m ← get_state;
  (if negb (durable m) then mret tt
   else
     let '(call, fault) := env AcceptCall in
     with_store (λ _, IntentUnavailable)
       (transaction (λ e, e) call (accept_in fault key (entry_record entry) payload))) ;;
  put_entry key (set_accepted entry record) ;;
  mret {| accepted_durable := durable m; accepted_key := key; accepted_bytes := payload;
          accepted_record := record |}.

(** [settle], which returns nothing. *)
Definition settle (key : string) (r : result LaunchError SessionSnapshot) (m : LaunchIntents)
    : LaunchIntents :=
  if live_poisoned m then m
  else
    match live m !! key with
    | None => m
    | Some entry =>
        if negb (is_preparing (status entry)) then m
        else
          let '(r, m) := match r with
            | Ok session => (Ok session, m)
            | Err error =>
                let '(rejected, m) := reject key error m in
                (rejected ;; Err error, m)
            end in
          let s := match r with
            | Ok session => StatusAccepted session
            | Err error => StatusRejected (error_response error)
            end in
          set_live m (<[key := set_status entry s]> (live m))
    end.

(** The preparation of a launch went away without settling. *)
Definition abandon (key : string) (m : LaunchIntents) : LaunchIntents :=
  if live_poisoned m then m
  else
    match live m !! key with
    | None => m
    | Some entry =>
        if accepted entry
        then set_live m (<[key := set_status entry
               (StatusInterrupted (intent_session_id (entry_record entry)))]> (live m))
        else settle key (Err PreparationFailed) m
    end.

(** Whether the end of an accepted entry was observed. *)
Definition settlement_stored (key : string) (entry : IntentEntry)
    : eff LaunchIntents LaunchError bool :=
  m ← get_state;
  if accepted entry && durable m
  then
    let '(call, fault) := env SettledCall in
    with_store (λ _, IntentUnavailable) (read_callback (λ e, e) call (λ t,
      row ← (select_intent fault (λ e, e) SelectSettled key t).1;
      row ← ok_or Sqlite row;
      Ok (negb (is_none (intent_settlement row)))))
  else mret false.

Definition intent_snapshot (key : string)
    : eff LaunchIntents LaunchError (option LaunchIntentStatus) :=
  lift (validate_intent_key key) ;;
  entries ← lock_entries;
  match entries !! key with
  | Some entry =>
      settled ← settlement_stored key entry;
      if (settled : bool)
      then
        loaded ← load key;
        mret (status <$> loaded)
      else mret (Some (status entry))
  | None =>
      loaded ← load key;
      mret (status <$> loaded)
  end.

Definition intent_record (key : string) : eff LaunchIntents LaunchError (option IntentRecord) :=
  lift (validate_intent_key key) ;;
  entries ← lock_entries;
  match entries !! key with
  | Some entry => mret (Some (entry_record entry))
  | None =>
      loaded ← load key;
      mret (entry_record <$> loaded)
  end.

(** ** Recovery after a restart *)

Definition unresolved (row : IntentRow) : bool := once_accepted row && negb (terminal_ack row).

(** The unresolved rows after a key, in the order of the index. *)
Definition unresolved_after (after : string) (rows : gmap string IntentRow)
    : list (string * IntentRow) :=
  sort_by (λ a b, str_cmp a.1 b.1)
    (filter (λ '(key, row), unresolved row && is_lt (str_cmp after key) = true) (map_to_list rows)).

(** The first of them, as the scan reads it. *)
Definition scan_in (fault : LaunchStatement → option StorageError) (after : string)
    : eff LaunchTables StorageError (option (string * IntentRow)) :=
  intents_statement fault (λ e, e) ScanUnresolved (λ rows,
    match head (unresolved_after after rows) with
    | None => (Ok None, rows)
    | Some kr => (kr ← read_intent (λ e, e) kr; Ok (Some kr), rows)
    end).

Definition scan_row (n : nat) (after : string)
    : eff LaunchIntents LaunchError (option (string * IntentRow)) :=
  let '(call, fault) := env (ScanCall n) in
  with_store (λ _, IntentUnavailable)
    (read_callback (λ e, e) call (λ t, (scan_in fault after t).1)).

Definition report_length (n : nat) (session : string) : eff LaunchIntents LaunchError Z :=
  let '(call, fault) := env (LengthCall n) in
  length ← with_store (λ _, IntentUnavailable)
    (read_callback (λ e, e) call (λ t, (statement fault (λ e, e) SelectReportLength (λ t,
       (Ok ((λ row, str_len (report_payload row)) <$> report_rows t !! session), t)) t).1));
  mret (default 0 length).

Definition exhausted (acknowledged : bool) : LaunchError :=
  if acknowledged then RecoveryIncomplete else AtCapacity.

(** What the scan has seen: the bytes, the last key, whether it acknowledged
    anything, and the interrupted records. *)
Record Scan := {
  scan_after : string;
  scan_bytes : Z;
  scan_acknowledged : bool;
  scan_interrupted : list IntentRecord;
}.

Definition scan_start : Scan :=
  {| scan_after := ""; scan_bytes := 0; scan_acknowledged := false; scan_interrupted := [] |}.

(** One row, the [n]th that is examined; its own bytes fit. *)
Definition examine (byte_limit : Z) (n : nat) (s : Scan) (key : string) (row : IntentRow)
    : eff LaunchIntents LaunchError Scan :=
  let bytes := scan_bytes s + str_len (intent_payload row) +
               default 0 (str_len <$> intent_settlement row) in
  record ← lift (decode_intent key (intent_payload row));
  match intent_settlement row with
  | Some settlement =>
      lift (decode_settlement record (intent_payload row) settlement) ;;
      mret {| scan_after := key; scan_bytes := bytes; scan_acknowledged := scan_acknowledged s;
              scan_interrupted := scan_interrupted s |}
  | None =>
      lift (scenario_of_context record) ;;
      report_bytes ← report_length n (intent_session_id record);
      lift (err_if (byte_limit <? bytes + report_bytes) (exhausted (scan_acknowledged s))) ;;
      let '(call, fault) := env (ReportCall n) in
      report ← with_store (λ _, IntentUnavailable)
        (report_get b64_encode b64_decode call fault (intent_session_id record));
      match report with
      | Some report =>
          lift (terminal_snapshot now record report) ;;
          let '(call, fault) := env (AcknowledgeCall n) in
          with_store (λ _, IntentUnavailable)
            (acknowledge_intent b64_encode b64_decode sha256 call fault now
               (intent_session_id record)) ;;
          mret {| scan_after := key; scan_bytes := bytes + report_bytes;
                  scan_acknowledged := true; scan_interrupted := scan_interrupted s |}
      | None =>
          mret {| scan_after := key; scan_bytes := bytes + report_bytes;
                  scan_acknowledged := scan_acknowledged s;
                  scan_interrupted := scan_interrupted s ++ [record] |}
      end
  end.

(** The loop; [n] rows were examined, and the fuel is what is left of the
    limit, with which it never runs out ([recovery_terminates]). *)
Fixpoint scan_loop (fuel : nat) (record_limit : nat) (byte_limit : Z) (n : nat) (s : Scan)
    : eff LaunchIntents LaunchError (option (list IntentRecord)) :=
  match fuel with
  | O => mret None
  | S fuel =>
      found ← scan_row n (scan_after s);
      match found with
      | None => mret (Some (scan_interrupted s))
      | Some (key, row) =>
          lift (err_if ((n =? record_limit)%nat ||
                        (byte_limit <? scan_bytes s + str_len (intent_payload row) +
                                       default 0 (str_len <$> intent_settlement row)))
                  (exhausted (scan_acknowledged s))) ;;
          s ← examine byte_limit n s key row;
          scan_loop fuel record_limit byte_limit (S n) s
      end
  end.

Definition interrupted_records_with_limits (record_limit : nat) (byte_limit : Z)
    : eff LaunchIntents LaunchError (option (list IntentRecord)) :=
  m ← get_state;
  lift (err_if (negb (durable m)) IntentUnavailable) ;;
  scan_loop (S record_limit) record_limit byte_limit 0 scan_start.

Definition interrupted_records : eff LaunchIntents LaunchError (option (list IntentRecord)) :=
  interrupted_records_with_limits MAX_RECOVERY_INTENTS MAX_RECOVERY_BYTES.
End operations.
End intents.
