(* ===== verification/LaunchIntentsProps.v ===== *)
(** * An identity launches once

    Histories of a launcher over restarts: every operation on the intents, the
    observations and reports of sessions, panics and restarts, with a database
    that may fail at any statement.  The state of a row only moves forward, so
    that an accepted identity never authorises a process again. *)

From S2P Require Import Prelude RustStr Effect McPortablePath SettingsModel Storage InstanceModel.
From S2P Require Import LaunchCrash LaunchOutcome LaunchLogs LaunchReports LaunchReportProps.
From S2P Require Import LaunchSnapshot LaunchModel LaunchTables LaunchTablesProps LaunchIntents.

Open Scope string_scope.
Open Scope list_scope.
Open Scope Z_scope.

(** ** The states of rows *)

Definition row_state (t : LaunchTables) (key : string) : option IntentState :=
  rows ← intent_rows t; intent_state <$> rows !! key.

Definition state_of (m : LaunchIntents) : string → option IntentState :=
  row_state (database (metadata m)).

(** Rows move from absence over pending to acceptance and rejection. *)
Definition rank (s : option IntentState) : nat :=
  match s with
  | None => 0
  | Some StatePending => 1
  | Some StateAccepted | Some StateInterrupted => 2
  | Some StateRejected => 3
  end.

(** At most the row of [key] changes, and moves forward. *)
Definition moves (key : string) (t t' : LaunchTables) : Prop :=
  (∀ k, k ≠ key → row_state t' k = row_state t k) ∧
  (rank (row_state t key) ≤ rank (row_state t' key))%nat.

#[global] Instance moves_refl key : Reflexive (moves key).
Proof. by split. Qed.
#[global] Instance moves_trans key : Transitive (moves key).
Proof.
  intros t1 t2 t3 [H1 R1] [H2 R2]. split; [|lia]. intros k Hk. by rewrite H2, H1.
Qed.

Lemma moves_same key t t' : (∀ k, row_state t' k = row_state t k) → moves key t t'.
Proof. intros H. split; [done|]. by rewrite H. Qed.

Lemma row_state_insert t rows key row k :
  intent_rows t = Some rows →
  row_state (set_intents t (<[key := row]> rows)) k =
    if decide (k = key) then Some (intent_state row) else row_state t k.
Proof.
  intros Hr. unfold row_state. rewrite Hr. cbn [set_intents intent_rows mbind option_bind].
  destruct (decide (k = key)) as [->|Hne]; [by rewrite lookup_insert_eq|by rewrite lookup_insert_ne].
Qed.

Lemma moves_insert key t rows row :
  intent_rows t = Some rows →
  (rank (row_state t key) ≤ rank (Some (intent_state row)))%nat →
  moves key t (set_intents t (<[key := row]> rows)).
Proof.
  intros Hr Hrank. split; [intros k Hk|]; rewrite (row_state_insert t rows) by done;
    [by rewrite decide_False|by rewrite decide_True].
Qed.

(** ** The transactions *)

Section rows.
Context `{UuidParser} `{UnicodeNorm} `{Rfc3339Millis} `{ReportJson} `{IntentJson}.
Variables (b64_encode : string → string) (b64_decode : string → option string).
Variable (sha256 : string → string).
Context (fault : LaunchStatement → option StorageError).

Lemma row_state_lookup t rows key row :
  intent_rows t = Some rows → rows !! key = Some row → row_state t key = Some (intent_state row).
Proof. intros Hr Hk. unfold row_state. rewrite Hr. cbn. by rewrite Hk. Qed.

Lemma reject_in_ok key error t t' :
  reject_in fault key error t = (Ok tt, t') →
  (∀ k, k ≠ key → row_state t' k = row_state t k) ∧ row_state t' key = Some StateRejected.
Proof.
  unfold reject_in. intros (n & t1 & Hn & Hrest)%eff_bind_ok.
  apply eff_bind_ok in Hrest as (? & t2 & [Hone <-]%lift_ok & Hrest). ok_inv.
  eapply update_one_ok in Hn as (_ & rows & row & Hr & Hrow & _ & ->); [|done].
  apply eff_bind_ok in Hrest as (saved & t3 & (_ & -> & _)%select_intent_ok & Hrest).
  apply eff_bind_ok in Hrest as (? & t3 & [_ <-]%lift_ok & Hrest).
  apply eff_bind_ok in Hrest as (? & t3 & [_ <-]%lift_ok & [_ <-]%lift_ok).
  split; [intros k Hk|]; rewrite (row_state_insert t rows) by done;
    [by rewrite decide_False|by rewrite decide_True].
Qed.

Lemma insert_in_ok key payload t t' :
  insert_in fault key payload t = (Ok tt, t') →
  row_state t key = None ∧ (∀ k, k ≠ key → row_state t' k = row_state t k) ∧
  row_state t' key = Some StatePending.
Proof.
  unfold insert_in. intros (_ & rows & rows' & Hr & Hrun & ->)%intents_statement_ok.
  destruct (rows !! key) eqn:Ek; [done|]. destruct (intent_constraints_hold _ _); [|done].
  injection Hrun as <-. split; [unfold row_state; rewrite Hr; cbn; by rewrite Ek|].
  split; [intros k Hk|]; rewrite (row_state_insert t rows) by done;
    [by rewrite decide_False|by rewrite decide_True].
Qed.

Lemma accept_in_ok key expected payload t t' :
  accept_in fault key expected payload t = (Ok tt, t') →
  row_state t key = Some StatePending ∧ (∀ k, k ≠ key → row_state t' k = row_state t k) ∧
  row_state t' key = Some StateAccepted.
Proof.
  unfold accept_in. intros (row & t1 & (_ & -> & rows & Hr & ->)%select_intent_ok & Hrest)%eff_bind_ok.
  apply eff_bind_ok in Hrest as (row & t2 & [Hrow <-]%lift_ok & Hrest). ok_inv.
  apply eff_bind_ok in Hrest as (? & t2 & [Hpending <-]%lift_ok & Hrest). ok_inv.
  apply eff_bind_ok in Hrest as (? & t2 & [_ <-]%lift_ok & Hrest).
  apply eff_bind_ok in Hrest as (? & t2 & [_ <-]%lift_ok & Hrest).
  apply eff_bind_ok in Hrest as (? & t2 & [_ <-]%lift_ok & Hrest).
  apply eff_bind_ok in Hrest as (n & t2 & Hn & Hrest).
  apply eff_bind_ok in Hrest as (? & t3 & [Hone <-]%lift_ok & Hrest). ok_inv.
  eapply update_one_ok in Hn as (_ & rows' & row' & Hr' & Hrow' & _ & ->); [|done].
  apply eff_bind_ok in Hrest as (saved & t3 & (_ & -> & _)%select_intent_ok & Hrest).
  apply eff_bind_ok in Hrest as (? & t3 & [_ <-]%lift_ok & [_ <-]%lift_ok).
  split.
  - rewrite (row_state_lookup t rows key row) by done. unfold pending_row in *. ok_inv.
    by case_bool_decide; [f_equal|].
  - split; [intros k Hk|]; rewrite (row_state_insert t rows') by done;
      [by rewrite decide_False|by rewrite decide_True].
Qed.

Lemma observe_in_ok acceptance settlement t t' :
  observe_in fault acceptance settlement t = (Ok tt, t') → ∀ k, row_state t' k = row_state t k.
Proof.
  unfold observe_in. intros (row & t1 & (_ & -> & _)%select_intent_ok & Hrest)%eff_bind_ok k.
  apply eff_bind_ok in Hrest as (row' & t1 & [_ <-]%lift_ok & Hrest).
  apply eff_bind_ok in Hrest as (? & t1 & [_ <-]%lift_ok & Hrest).
  destruct (intent_settlement row'); [by apply lift_ok in Hrest as [_ <-]|].
  apply eff_bind_ok in Hrest as (n & t1 & Hn & Hrest).
  apply eff_bind_ok in Hrest as (? & t2 & [Hone <-]%lift_ok & Hrest). ok_inv.
  apply eff_bind_ok in Hrest as (saved & t3 & (_ & -> & _)%select_intent_ok & [_ <-]%lift_ok).
  destruct (length_between _ _ _); [|by apply lift_ok in Hn as [[=] _]].
  eapply update_one_ok in Hn as (_ & rows & saved' & Hr & Hrow & _ & ->); [|done].
  rewrite (row_state_insert t rows) by done. destruct (decide _) as [->|]; [|done].
  by rewrite (row_state_lookup t rows _ saved').
Qed.

Lemma tables_acknowledged_states report t t' :
  tables_acknowledged b64_encode b64_decode sha256 report t t' →
  ∀ k, row_state t' k = row_state t k.
Proof.
  unfold tables_acknowledged. destruct (intent_rows t) as [rows|] eqn:Hr; [|by intros ->].
  intros (rows' & Hack & ->) k. destruct Hack as [[_ ->]|(key & row & Hl & _ & _ & ->)].
  { by rewrite set_intents_same. }
  assert ((key, row) ∈ intents_of_session (session_id report) rows) as Hin by (rewrite Hl; by left).
  apply elem_of_intents in Hin as (Hrow & _).
  rewrite (row_state_insert t rows) by done. destruct (decide _) as [->|]; [|done].
  by rewrite (row_state_lookup t rows _ row).
Qed.

Lemma record_in_states now report t t' :
  comparison report = None →
  record_in b64_encode b64_decode sha256 fault now report t = (Ok tt, t') →
  ∀ k, row_state t' k = row_state t k.
Proof.
  intros Hnone (saved & t1 & _ & _ & Hack & Ht)%record_in_ok k; [|done].
  rewrite (tables_acknowledged_states _ _ _ Hack). destruct Ht as [->|(_ & row & ->)]; done.
Qed.

Lemma acknowledge_intent_in_states now session t t' :
  acknowledge_intent_in b64_encode b64_decode sha256 fault now session t = (Ok tt, t') →
  ∀ k, row_state t' k = row_state t k.
Proof.
  unfold acknowledge_intent_in.
  intros (report & t1 & (_ & -> & _)%stored_report_ok & Hrest)%eff_bind_ok.
  apply eff_bind_ok in Hrest as (r & t1 & [_ <-]%lift_ok & Hack).
  apply acknowledge_terminal_ok in Hack. by eapply tables_acknowledged_states.
Qed.
End rows.

(** ** The operations of the manager *)

(** [op] takes every state to one that is related to it, whatever it returns. *)
Definition follows {E A} (R : relation LaunchIntents) (op : eff LaunchIntents E A) : Prop :=
  ∀ m r m', op m = (r, m') → R m m'.

Section follows.
Context (R : relation LaunchIntents) `{!PreOrder R}.

Lemma follows_ret {E A} (a : A) : follows R (mret a : eff LaunchIntents E A).
Proof. intros m r m' [= _ <-]. reflexivity. Qed.

Lemma follows_lift {E A} (r : result E A) : follows R (lift r).
Proof. intros m r' m' [= _ <-]. reflexivity. Qed.

Lemma follows_state : follows R get_state.
Proof. intros m r m' [= _ <-]. reflexivity. Qed.

Lemma follows_bind {E A B} (op : eff LaunchIntents E A) (k : A → eff LaunchIntents E B) :
  follows R op → (∀ a, follows R (k a)) → follows R (op ≫= k).
Proof.
  intros Hop Hk m r m'. unfold mbind, eff_bind. destruct (op m) as [[a|e] m1] eqn:Eop.
  - intros Hr. transitivity m1; [by eapply Hop|by eapply Hk].
  - intros [= _ <-]. by eapply Hop.
Qed.
End follows.

(** The store alone changes, and of its rows only that of [key], forward. *)
Record moved (key : string) (m m' : LaunchIntents) : Prop := {
  moved_live : live m' = live m;
  moved_poisoned : live_poisoned m' = live_poisoned m;
  moved_durable : durable m' = durable m;
  moved_tables : moves key (database (metadata m)) (database (metadata m'));
}.

#[global] Instance moved_preorder key : PreOrder (moved key).
Proof.
  split; [by split|]. intros m1 m2 m3 [] []. split; [congruence..|]. by etransitivity.
Qed.

(** The store alone changes, and no row its state. *)
Record steady (m m' : LaunchIntents) : Prop := {
  steady_live : live m' = live m;
  steady_poisoned : live_poisoned m' = live_poisoned m;
  steady_durable : durable m' = durable m;
  steady_tables : ∀ k, state_of m' k = state_of m k;
}.

#[global] Instance steady_preorder : PreOrder steady.
Proof. split; [by split|]. intros m1 m2 m3 [] []. split; congruence. Qed.

Lemma steady_moved key m m' : steady m m' → moved key m m'.
Proof. intros []. split; [done..|]. by apply moves_same. Qed.

Lemma follows_read {F G A} (R : relation LaunchIntents) (f : F → G) (from : StorageError → F) call read
    (Hsteady : ∀ m m', steady m m' → R m m') :
  follows (E := G) (A := A) R (with_store f (read_callback from call read)).
Proof.
  intros m r m'. unfold with_store.
  destruct (read_callback from call read (metadata m)) as [r1 store] eqn:Er. intros [= _ <-].
  apply read_keeps in Er as (Hd & _). apply Hsteady. split; try done.
  intros k. unfold state_of. cbn [metadata set_metadata]. by rewrite Hd.
Qed.

Lemma follows_transaction {F G A} (R : relation LaunchIntents) (f : F → G) (from : StorageError → F) call
    (write : LaunchTables → result F A * LaunchTables) :
  settles call → (∀ m, R m m) →
  (∀ m store, database store = database (metadata m) → R m (set_metadata m store)) →
  (∀ m store value, write (database (metadata m)) = (Ok value, database store) →
     R m (set_metadata m store)) →
  follows R (with_store f (transaction from call write)).
Proof.
  intros Hcall Hrefl Hsame Hwrite m r m'. unfold with_store.
  destruct (transaction from call write (metadata m)) as [r1 store] eqn:Er. intros [= _ <-].
  apply transaction_cases in Er; [|done]. destruct Er as [value changed store Hw _ _ ->|e store Hd _ _ _].
  - by eapply Hwrite.
  - by apply Hsame.
Qed.

Lemma moved_store key m store :
  moves key (database (metadata m)) (database store) → moved key m (set_metadata m store).
Proof. intros Hm. by split. Qed.

Lemma moved_transaction {F G A} key (f : F → G) (from : StorageError → F) call
    (write : LaunchTables → result F A * LaunchTables) :
  settles call → (∀ t value t', write t = (Ok value, t') → moves key t t') →
  follows (moved key) (with_store f (transaction from call write)).
Proof.
  intros Hcall Hw. apply follows_transaction; [done|reflexivity| |].
  - intros m store Hd. apply moved_store. by rewrite Hd.
  - intros m store value Hv. apply moved_store. by eapply Hw.
Qed.

Lemma steady_transaction {F G A} (f : F → G) (from : StorageError → F) call
    (write : LaunchTables → result F A * LaunchTables) :
  settles call → (∀ t value t', write t = (Ok value, t') → ∀ k, row_state t' k = row_state t k) →
  follows steady (with_store f (transaction from call write)).
Proof.
  intros Hcall Hw. apply follows_transaction; [done|reflexivity| |].
  - intros m store Hd. split; try done. intros k. unfold state_of. cbn [metadata set_metadata]. by rewrite Hd.
  - intros m store value Hv. split; try done. intros k. by eapply Hw.
Qed.

(** Take an operation apart into those that follow the relation. *)
Create HintDb follow.
Ltac follow :=
  repeat first
    [ solve [auto with follow nocore] | apply follows_ret; apply _ | apply follows_lift; apply _ | apply follows_state; apply _
    | apply follows_bind; [apply _| |intros ?]
    | match goal with
      | |- follows _ (if ?b then _ else _) => destruct b
      | |- follows _ (match ?o with Some _ => _ | None => _ end) => destruct o
      | |- follows _ (let '(_, _) := ?p in _) => destruct p eqn:?
      end ].

Definition settled_env (env : Env) : Prop := ∀ c, settles (env c).1.

Section operations.
Context `{UuidParser} `{UnicodeNorm} `{Rfc3339Millis} `{ReportJson} `{IntentJson}.
Variables (b64_encode : string → string) (b64_decode : string → option string).
Variable (sha256 : string → string).
Context (env : Env) (now : string).
Hypothesis calls_settle : settled_env env.

Notation terminal_session := (LaunchIntents.terminal_session b64_encode b64_decode sha256 env now).
Notation row_status := (LaunchIntents.row_status b64_encode b64_decode sha256 env now).
Notation load := (LaunchIntents.load b64_encode b64_decode sha256 env now).
Notation reject := (LaunchIntents.reject env).

Lemma env_settles c call fault : env c = (call, fault) → settles call.
Proof. intros E. pose proof (calls_settle c) as Hc. by rewrite E in Hc. Qed.

Lemma reject_moved key error : follows (moved key) (reject key error).
Proof.
  unfold LaunchIntents.reject. follow. apply moved_transaction; [by eapply env_settles|].
  intros t [] t' [Hother Hkey]%reject_in_ok. split; [done|]. rewrite Hkey.
  cbn [rank]. destruct (row_state t key) as [[]|]; simpl; lia.
Qed.

#[local] Hint Resolve reject_moved : follow.

Lemma terminal_session_steady record payload settlement :
  follows steady (terminal_session record payload settlement).
Proof. unfold LaunchIntents.terminal_session. follow. by apply follows_read. Qed.

Lemma steady_follows {E A} key (op : eff LaunchIntents E A) :
  follows steady op → follows (moved key) op.
Proof. intros Hop m r m' Hr. by eapply steady_moved, Hop. Qed.

Lemma terminal_session_moved key record payload settlement :
  follows (moved key) (terminal_session record payload settlement).
Proof. apply steady_follows, terminal_session_steady. Qed.
#[local] Hint Resolve terminal_session_moved : follow.

Lemma row_status_moved key record row : follows (moved key) (row_status key record row).
Proof. unfold LaunchIntents.row_status. destruct (intent_state row); follow. Qed.
#[local] Hint Resolve row_status_moved : follow.

Lemma load_moved key : follows (moved key) (load key).
Proof.
  unfold LaunchIntents.load. follow. apply follows_read. intros ? ?. apply steady_moved.
Qed.
#[local] Hint Resolve load_moved : follow.

(** An entry that is loaded is unclaimed, and waits for a worker only while its
    row is pending. *)
Lemma load_entry key m entry m' :
  load key m = (Ok (Some entry), m') →
  claimed entry = false ∧ accepted entry = false ∧
  (is_preparing (status entry) = true → state_of m' key = Some StatePending).
Proof.
  unfold LaunchIntents.load. intros (m0 & m1 & Hm & Hload)%eff_bind_ok.
  injection Hm as <- <-. destruct (negb (durable m)); [by apply eff_ret_ok in Hload as [? _]|].
  destruct (env LoadCall) as [call fault].
  apply eff_bind_ok in Hload as (row & m1 & Hrow & Hload).
  unfold with_store in Hrow. destruct (read_callback _ call _ (metadata m)) as [r store] eqn:Er.
  injection Hrow as Hr <-. destruct r as [row'|]; [|done]. injection Hr as ->.
  apply read_keeps in Er as (Hd & _ & Hread). specialize (Hread row eq_refl).
  destruct (select_intent _ _ _ key (database (metadata m))) as [r t] eqn:Es. cbn [fst] in Hread. subst r.
  apply select_intent_ok in Es as (_ & _ & rows & Hrows & Hrow).
  destruct row as [row|]; [|by apply eff_ret_ok in Hload as [? _]].
  apply eff_bind_ok in Hload as (record & m1 & [_ <-]%lift_ok & Hload).
  apply eff_bind_ok in Hload as (? & m1 & [_ <-]%lift_ok & Hload).
  apply eff_bind_ok in Hload as (s & m1 & Hs & [Hentry <-]%eff_ret_ok).
  injection Hentry as <-. cbn [claimed accepted status]. split_and!; [done..|]. intros Hprep.
  unfold LaunchIntents.row_status in Hs. destruct (intent_state row) eqn:Estate.
  - destruct (negb (is_none (intent_context record))).
    + apply eff_ret_ok in Hs as [_ <-]. unfold state_of. cbn [metadata set_metadata].
      by rewrite Hd, (row_state_lookup _ rows key row), Estate.
    + apply eff_bind_ok in Hs as (? & ? & _ & [<- _]%eff_ret_ok). done.
  - apply eff_bind_ok in Hs as ([session|] & ? & _ & [<- _]%eff_ret_ok); done.
  - apply eff_bind_ok in Hs as (? & ? & _ & Hs).
    apply eff_bind_ok in Hs as (? & ? & _ & [<- _]%eff_ret_ok). done.
  - apply eff_bind_ok in Hs as ([session|] & ? & _ & [<- _]%eff_ret_ok); done.
Qed.

(** ** The invariant *)

(** An accepted entry is claimed and its row has left the pending state; an
    unclaimed entry that waits for a worker has a pending row. *)
Definition entry_inv (m : LaunchIntents) (key : string) (e : IntentEntry) : Prop :=
  (accepted e = true → claimed e = true ∧ (2 ≤ rank (state_of m key))%nat) ∧
  (claimed e = false → is_preparing (status e) = true → state_of m key = Some StatePending).

Record manager_inv (m : LaunchIntents) : Prop := {
  inv_durable : durable m = true;
  inv_entries : ∀ key e, live m !! key = Some e → entry_inv m key e;
}.

Lemma inv_moved key m m' :
  moved key m m' →
  (∀ e, live m !! key = Some e → claimed e = false → is_preparing (status e) = true →
     state_of m' key = Some StatePending) →
  manager_inv m → manager_inv m'.
Proof.
  intros [Hlive _ Hdurable [Hother Hrank]] Hkey [Hd He]. split; [congruence|].
  intros k e Hk. rewrite Hlive in Hk. destruct (He k e Hk) as [Ha Hp].
  unfold entry_inv, state_of in *. destruct (decide (k = key)) as [->|Hne].
  - split; [intros Hacc; destruct (Ha Hacc); split; [done|lia]|]. by apply Hkey.
  - rewrite Hother by done. split; [done|]. by apply Hp.
Qed.

(** Where no entry waits, the row may move. *)
Lemma inv_moved_idle key m m' :
  moved key m m' → (∀ e, live m !! key = Some e → claimed e = true ∨ is_preparing (status e) = false) →
  manager_inv m → manager_inv m'.
Proof.
  intros Hm Hidle. apply (inv_moved key); [done|]. intros e He Hc Hp.
  destruct (Hidle e He); congruence.
Qed.

Lemma manager_inv_put m key e :
  manager_inv m → entry_inv m key e → manager_inv (set_live m (<[key := e]> (live m))).
Proof.
  intros [Hd He] Hentry. split; [done|]. intros k e'. cbn [live set_live].
  destruct (decide (k = key)) as [->|Hne].
  - rewrite lookup_insert_eq. by intros [= <-].
  - rewrite lookup_insert_ne by done. apply He.
Qed.

(** The invariant is kept and no row moves back. *)
Definition advances (m m' : LaunchIntents) : Prop :=
  ∀ k, (rank (state_of m k) ≤ rank (state_of m' k))%nat.
Definition safe (m m' : LaunchIntents) : Prop :=
  manager_inv m → manager_inv m' ∧ advances m m'.

#[local] Instance safe_preorder : PreOrder safe.
Proof.
  split; [by intros m Hm; split; [|intros k]|]. intros m1 m2 m3 H12 H23 Hm1.
  destruct (H12 Hm1) as [Hm2 A2]. destruct (H23 Hm2) as [Hm3 A3].
  split; [done|]. intros k. specialize (A2 k). specialize (A3 k). lia.
Qed.

Lemma moved_advances key m m' : moved key m m' → advances m m'.
Proof.
  intros [_ _ _ [Hother Hrank]] k. unfold state_of. destruct (decide (k = key)) as [->|Hne]; [done|].
  by rewrite Hother.
Qed.

Lemma moved_safe key m m' :
  moved key m m' → (∀ e, live m !! key = Some e → claimed e = true ∨ is_preparing (status e) = false) →
  safe m m'.
Proof. intros Hm Hidle Hinv. split; [by eapply inv_moved_idle|by eapply moved_advances]. Qed.

Lemma steady_safe m m' : steady m m' → safe m m'.
Proof.
  intros Hs Hinv. pose proof (steady_moved "" _ _ Hs) as Hm. split; [|by eapply moved_advances].
  apply (inv_moved "" m m' Hm); [|done]. intros e He Hc Hp.
  rewrite (steady_tables _ _ Hs). by apply (inv_entries _ Hinv "" e).
Qed.

Lemma put_safe key e m :
  (manager_inv m → entry_inv m key e) → safe m (set_live m (<[key := e]> (live m))).
Proof. intros He Hinv. split; [apply manager_inv_put; auto|by intros k]. Qed.

Lemma lock_entries_ok m entries m' :
  lock_entries m = (Ok entries, m') → m' = m ∧ entries = live m.
Proof.
  unfold lock_entries. intros (m0 & m1 & [= <- <-] & Hrest)%eff_bind_ok.
  apply eff_bind_ok in Hrest as (? & m1 & [_ <-]%lift_ok & [<- <-]%eff_ret_ok). done.
Qed.

Lemma lock_entries_safe : follows safe lock_entries.
Proof. unfold lock_entries. follow. Qed.

(** Loading an identity that has no live entry, and keeping it. *)
Lemma load_live_safe key m r m' :
  LaunchIntents.load_live b64_encode b64_decode sha256 env now key (live m) m = (r, m') → safe m m'.
Proof.
  unfold LaunchIntents.load_live. destruct (live m !! key) eqn:Hnone; [by intros [= _ <-]|].
  unfold mbind, eff_bind at 1, get_state, eff_bind at 1, lift.
  destruct (err_if _ _); [|by intros [= _ <-]]. unfold eff_bind.
  destruct (load key m) as [[loaded|e] m1] eqn:Eload.
  - pose proof (load_moved key m _ m1 Eload) as Hm.
    assert (safe m m1) as Hsafe by (eapply moved_safe; [done|naive_solver]).
    destruct loaded as [entry|]; intros [= _ <-]; [|done].
    destruct (load_entry key m entry m1 Eload) as (Hc & Ha & Hp).
    transitivity m1; [done|]. apply put_safe. intros _. split; [congruence|auto].
  - intros [= _ <-]. eapply moved_safe; [by eapply load_moved|naive_solver].
Qed.

Lemma new_intent_safe key fresh request context m r m' :
  live m !! key = None → LaunchIntents.new_intent env key fresh request context m = (r, m') → safe m m'.
Proof.
  intros Hnone. unfold LaunchIntents.new_intent, mbind, eff_bind at 1, get_state.
  cbn [fst snd]. unfold eff_bind at 1. intros Hrun Hinv. revert Hrun.
  rewrite (inv_durable _ Hinv). cbn [negb]. unfold eff_bind, lift at 1.
  destruct (ok_or IntentUnavailable _) as [payload|]; [|intros [= _ <-]; by split; [|intros k]].
  destruct (env InsertCall) as [call fault] eqn:Ec.
  unfold with_store. destruct (transaction _ call _ (metadata m)) as [r1 store] eqn:Et.
  apply transaction_cases in Et; [|by eapply env_settles].
  destruct Et as [[] changed store Hw _ _ ->|e store Hd _ _ _].
  - apply insert_in_ok in Hw as (Hwas & Hother & Hnow). cbn [map_err].
    set (m1 := set_metadata m _). assert (moved key m m1) as Hm.
    { split; try done. split; [done|]. cbn [m1 metadata set_metadata database with_database].
      rewrite Hwas. simpl. lia. }
    assert (safe m m1) as Hsafe by (eapply moved_safe; [done|naive_solver]).
    intros [= _ <-]. revert Hinv. change (safe m (set_live m1 (<[key := {|
      entry_record := {| intent_request := request; intent_context := context;
                         intent_session_id := fresh; binding := None |};
      claimed := false; accepted := false; status := Preparing |}]> (live m1)))).
    transitivity m1; [done|]. apply put_safe. intros _. split; [done|]. intros _ _. exact Hnow.
  - cbn [map_err]. intros [= _ <-]. revert Hinv. change (safe m (set_metadata m store)).
    eapply (moved_safe key); [apply moved_store; by rewrite Hd|naive_solver].
Qed.

Lemma reserve_identity_safe fresh request context :
  follows safe (LaunchIntents.reserve_identity b64_encode b64_decode sha256 env now fresh request context).
Proof.
  unfold LaunchIntents.reserve_identity.
  apply follows_bind; [apply _|apply follows_lift; apply _|intros _].
  apply follows_bind; [apply _|apply follows_lift; apply _|intros key].
  intros m r m'. unfold mbind, eff_bind at 1.
  destruct (lock_entries m) as [[entries|e] m0] eqn:El.
  2:{ intros [= _ <-]. by eapply lock_entries_safe. }
  apply lock_entries_ok in El as [-> ->]. unfold eff_bind at 1.
  destruct (LaunchIntents.load_live _ _ _ _ _ key (live m) m) as [r1 m1] eqn:Efirst.
  apply load_live_safe in Efirst as Hfirst.
  destruct r1 as [[]|]; [|by intros [= _ <-]]. unfold eff_bind at 1, get_state.
  intros Hrun. transitivity m1; [exact Hfirst|]. revert Hrun.
  destruct (live m1 !! key) as [entry|] eqn:Ek.
  - unfold eff_bind, lift. destruct (err_if _ _); intros [= _ <-]; reflexivity.
  - by eapply new_intent_safe.
Qed.

(** A claim is New only for a row that is pending. *)
Lemma claim_safe key m r m' :
  claim key m = (r, m') → safe m m' ∧
  ∀ k session, r = Ok (New k session) → manager_inv m → k = key ∧ state_of m key = Some StatePending.
Proof.
  unfold claim, mbind, eff_bind at 1.
  destruct (lock_entries m) as [[entries|e] m0] eqn:El.
  2:{ intros [= <- <-]. split; [by eapply lock_entries_safe|done]. }
  apply lock_entries_ok in El as [-> ->]. unfold eff_bind at 1, lift.
  destruct (live m !! key) as [entry|] eqn:Ek; cbn [ok_or]; [|by intros [= <- <-]].
  destruct (claimed entry) eqn:Ec; cbn [orb]; [by intros [= <- <-]|].
  destruct (is_preparing (status entry)) eqn:Ep; cbn [negb]; [|by intros [= <- <-]].
  intros [= <- <-]. split.
  - apply put_safe. intros Hinv. destruct (inv_entries _ Hinv key entry Ek) as [Ha Hp].
    split; cbn [set_claimed accepted claimed]; [|done]. intros Hacc. by destruct (Ha Hacc).
  - intros k session [= <- <-] Hinv. split; [done|].
    by apply (inv_entries _ Hinv key entry Ek).
Qed.

Lemma accept_safe key b m r m' :
  accept env key b m = (r, m') → safe m m' ∧
  ∀ acc, r = Ok acc → manager_inv m → accepted_key acc = key ∧
    state_of m key = Some StatePending ∧ state_of m' key = Some StateAccepted.
Proof.
  unfold accept, mbind, eff_bind at 1.
  destruct (lock_entries m) as [[entries|e] m0] eqn:El.
  2:{ intros [= <- <-]. split; [by eapply lock_entries_safe|done]. }
  apply lock_entries_ok in El as [-> ->]. unfold eff_bind at 1, lift at 1.
  destruct (live m !! key) as [entry|] eqn:Ek; cbn [ok_or]; [|by intros [= <- <-]].
  unfold eff_bind at 1, lift at 1.
  destruct (err_if _ IntentConflict) eqn:Eguard; [|by intros [= <- <-]].
  apply err_if_ok in Eguard. ok_inv. unfold eff_bind at 1, lift at 1.
  destruct (ok_or IntentUnavailable _) as [payload|]; [|by intros [= <- <-]].
  unfold eff_bind at 1, get_state. unfold eff_bind at 1. intros Hrun.
  assert (∀ P : Prop, (manager_inv m → P) → manager_inv m → P) as _ by auto.
  destruct (durable m) eqn:Ed; cbn [negb] in Hrun.
  2:{ injection Hrun as <- <-. split.
      - intros Hinv. pose proof (inv_durable _ Hinv). congruence.
      - intros acc _ Hinv. pose proof (inv_durable _ Hinv). congruence. }
  destruct (env AcceptCall) as [call fault] eqn:Ec. unfold with_store in Hrun.
  destruct (transaction _ call _ (metadata m)) as [r1 store] eqn:Et.
  apply transaction_cases in Et; [|by eapply env_settles].
  destruct Et as [[] changed store Hw _ _ ->|e store Hd _ _ _]; cbn [map_err] in Hrun.
  - apply accept_in_ok in Hw as (Hwas & Hother & Hnow).
    set (m1 := set_metadata m (with_database (metadata m) changed)) in *.
    assert (moved key m m1) as Hm.
    { split; try done. split; [done|]. cbn [m1 metadata set_metadata database with_database].
      rewrite Hwas, Hnow. simpl. lia. }
    injection Hrun as <- <-. split.
    + transitivity m1.
      * apply (moved_safe key); [done|]. rewrite Ek. intros ? [= <-]. by left.
      * apply (put_safe key (set_accepted entry _) m1). intros Hinv.
        split; cbn [set_accepted accepted claimed].
        -- intros _. split; [done|]. unfold state_of, m1. cbn [metadata set_metadata database with_database].
           by rewrite Hnow.
        -- congruence.
    + intros acc [= <-] _. split_and!; [done|exact Hwas|exact Hnow].
  - injection Hrun as <- <-. split; [|done].
    apply (moved_safe key); [apply moved_store; by rewrite Hd|]. rewrite Ek. intros ? [= <-]. by left.
Qed.

Lemma settle_safe key r m : safe m (settle env key r m).
Proof.
  unfold settle. destruct (live_poisoned m); [reflexivity|].
  destruct (live m !! key) as [entry|] eqn:Ek; [|reflexivity].
  destruct (is_preparing (status entry)) eqn:Ep; cbn [negb]; [|reflexivity].
  assert (∀ m1 s, moved key m m1 → is_preparing s = false →
    safe m (set_live m1 (<[key := set_status entry s]> (live m1)))) as Hput.
  { intros m1 s Hm Hs Hinv. pose proof (inv_entries _ Hinv key entry Ek) as [Ha _].
    pose proof (moved_advances _ _ _ Hm) as Hadv. split; [|exact Hadv].
    split; [cbn [durable set_live]; rewrite (moved_durable _ _ _ Hm); by apply Hinv|].
    intros k e. cbn [live set_live]. unfold entry_inv, state_of. cbn [metadata set_live].
    destruct (decide (k = key)) as [->|Hne].
    - rewrite lookup_insert_eq. intros [= <-]. cbn [set_status accepted claimed status].
      split; [|congruence]. intros Hacc. destruct (Ha Hacc). split; [done|].
      specialize (Hadv key). unfold state_of in *. lia.
    - rewrite lookup_insert_ne by done. rewrite (moved_live _ _ _ Hm). intros He.
      destruct (moved_tables _ _ _ Hm) as [Hother _]. rewrite Hother by done.
      by apply (inv_entries _ Hinv k e). }
  destruct r as [session|error].
  - apply Hput; [reflexivity|done].
  - destruct (reject key error m) as [r m1] eqn:Er. apply reject_moved in Er.
    apply Hput; [done|]. by destruct r.
Qed.

Lemma abandon_safe key m : safe m (abandon env key m).
Proof.
  unfold abandon. destruct (live_poisoned m); [reflexivity|].
  destruct (live m !! key) as [entry|] eqn:Ek; [|reflexivity].
  destruct (accepted entry) eqn:Ea; [|apply settle_safe].
  apply put_safe. intros Hinv. destruct (inv_entries _ Hinv key entry Ek) as [Ha _].
  split; [by apply Ha|]. done.
Qed.

(** A load changes the row of no entry that waits. *)
Lemma load_safe key m r m' :
  (∀ e, live m !! key = Some e → claimed e = true ∨ is_preparing (status e) = false) →
  load key m = (r, m') → safe m m'.
Proof. intros Hidle Hl. eapply moved_safe; [by eapply load_moved|done]. Qed.

Lemma load_then_safe {A} key m (f : IntentEntry → A) (r : result LaunchError (option A)) m' :
  (∀ e, live m !! key = Some e → manager_inv m → claimed e = true ∨ is_preparing (status e) = false) →
  (loaded ← load key; mret (f <$> loaded)) m = (r, m') → safe m m'.
Proof.
  intros Hidle. unfold mbind, eff_bind. destruct (load key m) as [[loaded|e] m1] eqn:El;
    intros [= _ <-] Hinv; eapply load_safe; try done; naive_solver.
Qed.

Lemma settlement_stored_steady key entry : follows steady (settlement_stored env key entry).
Proof. unfold settlement_stored. follow. by apply follows_read. Qed.

Lemma settlement_stored_true key entry m m' :
  settlement_stored env key entry m = (Ok true, m') → accepted entry = true.
Proof.
  unfold settlement_stored. intros (m0 & m1 & _ & Hrun)%eff_bind_ok.
  destruct (accepted entry); [done|]. by apply eff_ret_ok in Hrun as [? _].
Qed.

Lemma intent_snapshot_safe key :
  follows safe (intent_snapshot b64_encode b64_decode sha256 env now key).
Proof.
  unfold intent_snapshot.
  apply follows_bind; [apply _|apply follows_lift; apply _|intros _].
  intros m r m'. unfold mbind, eff_bind at 1.
  destruct (lock_entries m) as [[entries|e] m0] eqn:El.
  2:{ intros [= _ <-]. by eapply lock_entries_safe. }
  apply lock_entries_ok in El as [-> ->].
  destruct (live m !! key) as [entry|] eqn:Ek; [|by apply load_then_safe; rewrite Ek].
  unfold eff_bind at 1. destruct (settlement_stored env key entry m) as [r1 m1] eqn:Efirst.
  assert (steady m m1) as Hsteady by (by eapply settlement_stored_steady).
  destruct r1 as [settled|e]; [|intros [= _ <-]; by apply steady_safe].
  destruct settled; [|intros [= _ <-]; by apply steady_safe].
  intros Hrun. transitivity m1; [by apply steady_safe|].
  eapply load_then_safe; [|exact Hrun]. rewrite (steady_live _ _ Hsteady), Ek. intros ? [= <-] Hinv.
  apply settlement_stored_true in Efirst. left. rewrite <-(steady_live _ _ Hsteady) in Ek.
  by apply (inv_entries _ Hinv key entry Ek).
Qed.

Lemma intent_record_safe key :
  follows safe (intent_record b64_encode b64_decode sha256 env now key).
Proof.
  unfold intent_record.
  apply follows_bind; [apply _|apply follows_lift; apply _|intros _].
  intros m r m'. unfold mbind, eff_bind at 1.
  destruct (lock_entries m) as [[entries|e] m0] eqn:El.
  2:{ intros [= _ <-]. by eapply lock_entries_safe. }
  apply lock_entries_ok in El as [-> ->].
  destruct (live m !! key) as [entry|] eqn:Ek; [by intros [= _ <-]|].
  by apply load_then_safe; rewrite Ek.
Qed.

(** Recovery acknowledges reports, which moves no row. *)
Lemma scan_row_steady n after : follows steady (scan_row env n after).
Proof. unfold scan_row. follow. by apply follows_read. Qed.

Lemma examine_steady byte_limit n s key row :
  follows steady (examine b64_encode b64_decode sha256 env now byte_limit n s key row).
Proof.
  unfold examine, report_length. follow.
  - by apply follows_read.
  - by apply follows_read.
  - apply steady_transaction; [by eapply env_settles|].
    intros t [] t'. apply acknowledge_intent_in_states.
Qed.

Lemma scan_loop_steady fuel record_limit byte_limit n s :
  follows steady (scan_loop b64_encode b64_decode sha256 env now fuel record_limit byte_limit n s).
Proof.
  revert n s. induction fuel as [|fuel IH]; intros n s; cbn [scan_loop]; [apply follows_ret; apply _|].
  apply follows_bind; [apply _|apply scan_row_steady|intros [[key row]|]]; [|apply follows_ret; apply _].
  apply follows_bind; [apply _|apply follows_lift; apply _|intros _].
  apply follows_bind; [apply _|apply examine_steady|intros ?]. apply IH.
Qed.
End operations.

(** ** Histories *)

(** What can happen to the launcher.  A reservation is two steps, as its two
    locks are; [Panicked] is a panic of a callback that holds the store,
    [Poison] one that holds the lock of the entries. *)
Inductive LaunchStep :=
| Reserve (env : Env) (now fresh_session : string) (request : LaunchRequest) (context : option string)
| Claim (key : string)
| Accept (env : Env) (key : string) (b : IntentBinding)
| Settle (env : Env) (key : string) (r : result LaunchError SessionSnapshot)
| Abandon (env : Env) (key : string)
| Inspect (env : Env) (now key : string)
| ReadRecord (env : Env) (now key : string)
| Observe (call : SqliteCall) (fault : LaunchStatement → option StorageError)
    (acceptance : AcceptedIntent) (o : ObservedSettlement)
| Report (call : SqliteCall) (fault : LaunchStatement → option StorageError) (now : string)
    (report : LaunchProofRecord) (redactor : Redactor)
| Recover (env : Env) (now : string) (record_limit : nat) (byte_limit : Z)
| Panicked
| Poison
| RestartLauncher.

Inductive LaunchEvent :=
| Claimed (key session_id : string)
| AcceptedEvent (key : string)
| Nothing.

Definition poison (m : LaunchIntents) : LaunchIntents := {|
  live := live m; live_poisoned := true; capacity := capacity m; durable := durable m;
  metadata := metadata m |}.

(** The process ends; what is committed is found by the next one. *)
Definition restart (m : LaunchIntents) : LaunchIntents := {|
  live := ∅; live_poisoned := false; capacity := capacity m; durable := durable m;
  metadata := {| database := database (metadata m); mutation_closed := false; poisoned := false |} |}.

Definition step_settles (s : LaunchStep) : Prop :=
  match s with
  | Reserve env _ _ _ _ | Accept env _ _ | Settle env _ _ | Abandon env _ | Inspect env _ _
  | ReadRecord env _ _ | Recover env _ _ _ => settled_env env
  | Observe call _ _ _ | Report call _ _ _ _ => settles call
  | Claim _ | Panicked | Poison | RestartLauncher => True
  end.

Section histories.
Context `{UuidParser} `{UnicodeNorm} `{Rfc3339Millis} `{ReportJson} `{IntentJson}.
Variables (b64_encode : string → string) (b64_decode : string → option string).
Variable (sha256 : string → string).

Definition run_step (s : LaunchStep) (m : LaunchIntents) : LaunchEvent * LaunchIntents :=
  match s with
  | Reserve env now fresh_session request context =>
      (Nothing, (reserve_identity b64_encode b64_decode sha256 env now fresh_session request context m).2)
  | Claim key =>
      match claim key m with
      | (Ok (New key session), m) => (Claimed key session, m)
      | (_, m) => (Nothing, m)
      end
  | Accept env key b =>
      match accept env key b m with
      | (Ok a, m) => (AcceptedEvent (accepted_key a), m)
      | (Err _, m) => (Nothing, m)
      end
  | Settle env key r => (Nothing, settle env key r m)
  | Abandon env key => (Nothing, abandon env key m)
  | Inspect env now key =>
      (Nothing, (intent_snapshot b64_encode b64_decode sha256 env now key m).2)
  | ReadRecord env now key => (Nothing, (intent_record b64_encode b64_decode sha256 env now key m).2)
  | Observe call fault acceptance o =>
      (Nothing, set_metadata m
         (observe b64_encode b64_decode sha256 call fault acceptance o (metadata m)).2)
  | Report call fault now report redactor =>
      (Nothing, set_metadata m
         (report_record b64_encode b64_decode sha256 call fault now report redactor (metadata m)).2)
  | Recover env now record_limit byte_limit =>
      (Nothing, (interrupted_records_with_limits b64_encode b64_decode sha256 env now
                   record_limit byte_limit m).2)
  | Panicked => (Nothing, set_metadata m (interrupt (metadata m)))
  | Poison => (Nothing, poison m)
  | RestartLauncher => (Nothing, restart m)
  end.

Fixpoint run_steps (l : list LaunchStep) (m : LaunchIntents) : list LaunchEvent * LaunchIntents :=
  match l with
  | [] => ([], m)
  | s :: l =>
      let '(e, m) := run_step s m in
      let '(es, m) := run_steps l m in
      (e :: es, m)
  end.

(** What an event says of the row of its key, before and after. *)
Definition event_states (e : LaunchEvent) (m m' : LaunchIntents) : Prop :=
  match e with
  | Claimed key _ => state_of m key = Some StatePending
  | AcceptedEvent key => state_of m key = Some StatePending ∧ state_of m' key = Some StateAccepted
  | Nothing => True
  end.

Lemma follows_snd {E A} (op : eff LaunchIntents E A) m : follows safe op → safe m (op m).2.
Proof. intros Hop. destruct (op m) as [r m'] eqn:Er. by eapply Hop. Qed.

Lemma store_safe m store :
  (∀ k, row_state (database store) k = state_of m k) → safe m (set_metadata m store).
Proof. intros Hk. by apply steady_safe. Qed.

Lemma observe_states call fault acceptance o store :
  settles call → ∀ k,
  row_state (database (observe b64_encode b64_decode sha256 call fault acceptance o store).2) k =
  row_state (database store) k.
Proof.
  intros Hcall k. unfold observe. destruct (settlement_to_vec _) as [bytes|]; [|done].
  destruct (decode_settlement _ _ _ _ _ _); [|done]. destruct (negb _); [done|].
  destruct (transaction _ call _ store) as [r store'] eqn:Et. apply transaction_cases in Et; [|done].
  destruct Et as [[] changed store' Hw _ _ ->|e store' Hd _ _ _]; cbn [snd database with_database].
  - by eapply observe_in_ok.
  - by rewrite Hd.
Qed.

Lemma report_states call fault now report redactor store :
  settles call → ∀ k,
  row_state (database (report_record b64_encode b64_decode sha256 call fault now report redactor store).2) k =
  row_state (database store) k.
Proof.
  intros Hcall k. unfold report_record. destruct (sanitize_report _ _ _ _); [|done].
  destruct (transaction _ call _ store) as [r store'] eqn:Et. apply transaction_cases in Et; [|done].
  destruct Et as [[] changed store' Hw _ _ ->|e store' Hd _ _ _]; cbn [snd database with_database].
  - eapply record_in_states; [|exact Hw]. done.
  - by rewrite Hd.
Qed.

Lemma run_step_safe s m e m' :
  step_settles s → run_step s m = (e, m') → manager_inv m →
  manager_inv m' ∧ advances m m' ∧ event_states e m m'.
Proof.
  intros Hs Hrun Hinv.
  assert (∀ m1, safe m m1 → (e, m') = (Nothing, m1) → manager_inv m' ∧ advances m m' ∧ event_states e m m')
    as Hsafe by (intros m1 Hm [= -> ->]; destruct (Hm Hinv); by split_and!).
  destruct s; cbn [step_settles] in Hs; cbn [run_step] in Hrun; try (symmetry in Hrun).
  - eapply Hsafe; [|exact Hrun]. by apply follows_snd, reserve_identity_safe.
  - destruct (claim key m) as [r m1] eqn:Ec. destruct (claim_safe _ _ _ _ Ec) as [Hm Hnew].
    destruct (Hm Hinv) as [Hinv' Hadv].
    destruct r as [[?|k session]|]; injection Hrun as -> ->; split_and!; try done.
    destruct (Hnew k session eq_refl Hinv) as [-> Hst]. done.
  - destruct (accept env key b m) as [r m1] eqn:Ec. destruct (accept_safe _ Hs _ _ _ _ _ Ec) as [Hm Hacc].
    destruct (Hm Hinv) as [Hinv' Hadv]. destruct r as [a|]; injection Hrun as -> ->; split_and!; try done.
    destruct (Hacc a eq_refl Hinv) as (-> & Hwas & Hnow). done.
  - eapply Hsafe; [|exact Hrun]. by apply settle_safe.
  - eapply Hsafe; [|exact Hrun]. by apply abandon_safe.
  - eapply Hsafe; [|exact Hrun]. by apply follows_snd, intent_snapshot_safe.
  - eapply Hsafe; [|exact Hrun]. by apply follows_snd, intent_record_safe.
  - eapply Hsafe; [|exact Hrun]. apply store_safe. by apply observe_states.
  - eapply Hsafe; [|exact Hrun]. apply store_safe. by apply report_states.
  - eapply Hsafe; [|exact Hrun]. apply follows_snd. intros m1 r m2 Hr. apply steady_safe. revert m1 r m2 Hr.
    change (follows steady (interrupted_records_with_limits b64_encode b64_decode sha256 env now
      record_limit byte_limit)). unfold interrupted_records_with_limits.
    apply follows_bind; [apply _|apply follows_state; apply _|intros ?].
    apply follows_bind; [apply _|apply follows_lift; apply _|intros _]. by apply scan_loop_steady.
  - eapply Hsafe; [|exact Hrun]. by apply store_safe.
  - eapply Hsafe; [|exact Hrun]. intros [Hd He]. split; [|by intros k]. by split.
  - eapply Hsafe; [|exact Hrun]. intros [Hd He]. split; [|by intros k]. split; [done|].
    intros key entry. cbn [live restart]. by rewrite lookup_empty.
Qed.

Lemma run_steps_safe l m es m' :
  Forall step_settles l → run_steps l m = (es, m') → manager_inv m → manager_inv m' ∧ advances m m'.
Proof.
  revert m es. induction l as [|s l IH]; intros m es Hl; cbn [run_steps].
  { intros [= _ <-] Hinv. split; [done|by intros k]. }
  apply list.Forall_cons in Hl as [Hs Hl].
  destruct (run_step s m) as [e m1] eqn:Es. destruct (run_steps l m1) as [es' m2] eqn:El.
  intros [= _ <-] Hinv. destruct (run_step_safe s m e m1 Hs Es Hinv) as (Hinv1 & Hadv & _).
  destruct (IH m1 es' Hl El Hinv1) as [Hinv2 Hadv2]. split; [done|].
  intros k. specialize (Hadv k). specialize (Hadv2 k). lia.
Qed.

(** An identity whose row has left the pending state is in no later event. *)
Lemma left_pending_silent l m es m' key :
  Forall step_settles l → run_steps l m = (es, m') → manager_inv m →
  (2 ≤ rank (state_of m key))%nat →
  AcceptedEvent key ∉ es ∧ ∀ session, Claimed key session ∉ es.
Proof.
  revert m es. induction l as [|s l IH]; intros m es Hl; cbn [run_steps].
  { intros [= <- _] _ _. split; [|intros ?]; apply not_elem_of_nil. }
  apply list.Forall_cons in Hl as [Hs Hl].
  destruct (run_step s m) as [e m1] eqn:Es. destruct (run_steps l m1) as [es' m2] eqn:El.
  intros [= <- ->] Hinv Hrank. destruct (run_step_safe s m e m1 Hs Es Hinv) as (Hinv1 & Hadv & Hev).
  destruct (IH m1 es' Hl El Hinv1) as [Ha Hc]; [specialize (Hadv key); lia|].
  split.
  - intros [<-|Hin]%elem_of_cons; [|by apply Ha]. destruct Hev as [Hev _]. rewrite Hev in Hrank. cbn in Hrank. lia.
  - intros session [<-|Hin]%elem_of_cons; [|by eapply Hc]. cbn [event_states] in Hev. rewrite Hev in Hrank. cbn in Hrank. lia.
Qed.

Lemma run_steps_snd s l m : (run_steps (s :: l) m).2 = (run_steps l (run_step s m).2).2.
Proof. cbn [run_steps]. destruct (run_step s m) as [e m1]. cbn. by destruct (run_steps l m1). Qed.

(** The events of a run, one by one. *)
Lemma run_steps_event l m es m' i e :
  Forall step_settles l → run_steps l m = (es, m') → manager_inv m → es !! i = Some e →
  event_states e (run_steps (take i l) m).2 (run_steps (take (S i) l) m).2 ∧
  manager_inv (run_steps (take (S i) l) m).2 ∧
  run_steps (drop (S i) l) (run_steps (take (S i) l) m).2 = (drop (S i) es, m').
Proof.
  revert m es i. induction l as [|s l IH]; intros m es i; cbn [run_steps].
  { intros _ [= <- _]. by rewrite lookup_nil. }
  intros [Hs Hl]%list.Forall_cons. destruct (run_step s m) as [e1 m1] eqn:Es.
  destruct (run_steps l m1) as [es' m2] eqn:El. intros [= <- <-] Hinv Hi.
  destruct (run_step_safe s m e1 m1 Hs Es Hinv) as (Hinv1 & _ & Hev).
  rewrite firstn_cons, run_steps_snd, Es. cbn [snd skipn]. destruct i as [|i]; simpl in Hi.
  - injection Hi as ->. by rewrite !firstn_O.
  - rewrite firstn_cons, run_steps_snd, Es. by apply (IH m1 es' i).
Qed.

(** C24: Over any history of a launcher, with failing databases, panics and any
    number of restarts, once an identity was accepted it is never accepted
    again, and no later reservation hands it to a worker: the process of one
    intent is authorised at most once.  A reservation that is handed out, and
    an acceptance, happen only while the durable row is pending, and the
    acceptance leaves it accepted. *)
Theorem launch_authorised_once capacity_ tables l es m' i :
  let m := {| live := ∅; live_poisoned := false; capacity := capacity_; durable := true;
              metadata := {| database := tables; mutation_closed := false; poisoned := false |} |} in
  let row n := state_of (run_steps (take n l) m).2 in
  Forall step_settles l → run_steps l m = (es, m') →
  (∀ key session, es !! i = Some (Claimed key session) → row i key = Some StatePending) ∧
  (∀ key, es !! i = Some (AcceptedEvent key) →
    row i key = Some StatePending ∧ row (S i) key = Some StateAccepted ∧
    ∀ j, (i < j)%nat → es !! j ≠ Some (AcceptedEvent key) ∧ ∀ session, es !! j ≠ Some (Claimed key session)).
Proof.
  intros m row Hl Hrun.
  assert (manager_inv m) as Hinv by (split; [done|intros k e; cbn [m live]; by rewrite lookup_empty]).
  split; intros key.
  - intros session Hi. by destruct (run_steps_event l m es m' i _ Hl Hrun Hinv Hi) as [Hev _].
  - intros Hi. destruct (run_steps_event l m es m' i _ Hl Hrun Hinv Hi) as ([Hbefore Hafter] & Hinv1 & Hrest).
    split_and!; [done..|]. intros j Hj.
    destruct (left_pending_silent (drop (S i) l) _ _ _ key (list.Forall_drop _ _ _ Hl) Hrest Hinv1) as [Ha Hc].
    { by rewrite Hafter. }
    assert (∀ e, es !! j = Some e → e ∈ drop (S i) es) as Hin.
    { intros e He. apply (list_elem_of_lookup_2 _ (j - S i)). rewrite lookup_drop. by replace (S i + (j - S i))%nat with j by lia. }
    split; [|intros session]; intros He%Hin; [done|by eapply Hc].
Qed.
End histories.
