(* ===== verification/LaunchRecovery.v ===== *)
(** * Recovery of interrupted launches

    What the scan after a restart returns: exactly the intents whose end is not
    known, in the order of their keys, and what it acknowledges. *)

From S2P Require Import Prelude RustStr Effect McPortablePath SettingsModel Storage InstanceModel.
From S2P Require Import LaunchCrash LaunchOutcome LaunchLogs LaunchReports LaunchReportProps.
From S2P Require Import LaunchSnapshot LaunchModel LaunchTables LaunchTablesProps LaunchIntents.
From S2P Require Import LaunchIntentsProps.

Open Scope string_scope.
Open Scope list_scope.
Open Scope Z_scope.

(** ** The rows of the scan *)

Definition key_cmp (a b : string * IntentRow) : Datatypes.comparison := str_cmp a.1 b.1.
#[local] Instance key_cmp_preorder : CmpPreorder key_cmp.
Proof. apply (cmp_preorder_ext key_cmp (cmp_on fst str_cmp)); [done|apply _]. Qed.

Lemma str_cmp_lt_trans a b c : str_cmp a b = Lt → str_cmp b c = Lt → str_cmp a c = Lt.
Proof.
  intros Hab Hbc. destruct (str_cmp a c) eqn:Hac; [|done|].
  - apply (cmp_eq str_cmp) in Hac as ->. rewrite (cmp_antisym str_cmp), Hab in Hbc. done.
  - exfalso. by apply (cmp_trans str_cmp a b c); rewrite ?Hab, ?Hbc.
Qed.

Lemma str_cmp_irrefl a : str_cmp a a ≠ Lt.
Proof. by rewrite (cmp_refl str_cmp). Qed.

Lemma elem_of_unresolved after rows k row :
  (k, row) ∈ unresolved_after after rows ↔
  rows !! k = Some row ∧ unresolved row = true ∧ str_cmp after k = Lt.
Proof.
  unfold unresolved_after. rewrite sort_by_perm, list_elem_of_filter, elem_of_map_to_list.
  rewrite andb_true_iff. destruct (str_cmp after k); simpl; naive_solver.
Qed.

Lemma unresolved_NoDup after rows : NoDup (unresolved_after after rows).
Proof. unfold unresolved_after. rewrite sort_by_perm. apply list.NoDup_filter, NoDup_map_to_list. Qed.

Lemma unresolved_sorted after rows :
  StronglySorted (λ a b, key_cmp a b ≠ Gt) (unresolved_after after rows).
Proof. unfold unresolved_after. apply (sort_by_sorted key_cmp). Qed.

(** The list is the sorted one of its elements. *)
Lemma unresolved_unique after rows l :
  StronglySorted (λ a b, key_cmp a b ≠ Gt) l → NoDup l →
  (∀ x, x ∈ l ↔ x ∈ unresolved_after after rows) → unresolved_after after rows = l.
Proof.
  intros Hs Hd Hl. rewrite <-(sort_by_id key_cmp l Hs).
  rewrite <-(sort_by_id key_cmp (unresolved_after after rows)) by apply unresolved_sorted.
  apply (sort_by_unique key_cmp).
  - intros [k r] [k' r'] Hx Hy E. apply (cmp_eq str_cmp) in E. cbn [fst] in E. subst k'.
    apply elem_of_unresolved in Hx as (Hx & _). apply elem_of_unresolved in Hy as (Hy & _). congruence.
  - apply NoDup_Permutation; [apply unresolved_NoDup|done|]. intros x. by rewrite Hl.
Qed.

Lemma unresolved_next after rows k row rest :
  unresolved_after after rows = (k, row) :: rest → unresolved_after k rows = rest.
Proof.
  intros E. pose proof (unresolved_sorted after rows) as Hs. pose proof (unresolved_NoDup after rows) as Hd.
  rewrite E in Hs, Hd. apply StronglySorted_inv in Hs as [Hs Hall]. apply list.NoDup_cons in Hd as [Hnot Hd].
  apply unresolved_unique; [done|done|]. intros [k' r']. rewrite elem_of_unresolved. split.
  - intros Hin. rewrite list.Forall_forall in Hall. specialize (Hall _ Hin). unfold key_cmp in Hall.
    cbn [fst] in Hall. assert ((k', r') ∈ unresolved_after after rows) as H' by (rewrite E; by right).
    apply elem_of_unresolved in H' as (Hr' & Hu' & _). split_and!; [done..|].
    destruct (str_cmp k k') eqn:Ec; [|done..]. apply (cmp_eq str_cmp) in Ec as <-.
    assert ((k, row) ∈ unresolved_after after rows) as H2 by (rewrite E; by left).
    apply elem_of_unresolved in H2 as (Hr & _). congruence.
  - intros (Hr & Hu & Hlt). assert ((k, row) ∈ unresolved_after after rows) as H2 by (rewrite E; by left).
    apply elem_of_unresolved in H2 as (_ & _ & Hak).
    assert ((k', r') ∈ unresolved_after after rows) as H'.
    { apply elem_of_unresolved. split_and!; [done..|]. by eapply str_cmp_lt_trans. }
    rewrite E in H'. apply elem_of_cons in H' as [[= -> ->]|H']; [|done].
    by apply str_cmp_irrefl in Hlt.
Qed.

(** Rows up to the last key do not matter. *)
Lemma unresolved_insert k row rows :
  unresolved_after k (<[k := row]> rows) = unresolved_after k rows.
Proof.
  apply unresolved_unique; [apply unresolved_sorted|apply unresolved_NoDup|]. intros [k' r'].
  rewrite !elem_of_unresolved. destruct (decide (k' = k)) as [->|Hne].
  - split; intros (_ & _ & Hlt); by apply str_cmp_irrefl in Hlt.
  - by rewrite lookup_insert_ne.
Qed.

(** ** Calls that succeed *)

Lemma with_store_read_ok {F G A} (f : F → G) (from : StorageError → F) call
    (read : LaunchTables → result F A) m a m' :
  with_store f (read_callback from call read) m = (Ok a, m') →
  read (database (metadata m)) = Ok a ∧ database (metadata m') = database (metadata m).
Proof.
  unfold with_store. destruct (read_callback from call read (metadata m)) as [r store] eqn:Er.
  intros [= Hr <-]. destruct r as [v|]; [|done]. injection Hr as <-.
  apply read_keeps in Er as (Hd & _ & Hv). by split; [apply Hv|].
Qed.

Lemma with_store_transaction_ok {F G A} (f : F → G) (from : StorageError → F) call
    (write : LaunchTables → result F A * LaunchTables) m a m' :
  settles call → with_store f (transaction from call write) m = (Ok a, m') →
  write (database (metadata m)) = (Ok a, database (metadata m')).
Proof.
  intros Hcall. unfold with_store. destruct (transaction from call write (metadata m)) as [r store] eqn:Er.
  intros [= Hr <-]. destruct r as [v|]; [|done]. injection Hr as <-.
  apply transaction_cases in Er; [|done]. by inversion Er; subst.
Qed.

Section recovery.
Context `{UuidParser} `{UnicodeNorm} `{Rfc3339Millis} `{ReportJson} `{IntentJson}.
Variables (b64_encode : string → string) (b64_decode : string → option string).
Variable (sha256 : string → string).
Context (env : Env) (now : string).
Hypothesis calls_settle : settled_env env.
(** Documented of JSON: SQLite extracts the session that serde reads. *)
Hypothesis session_extracted : ∀ payload record,
  intent_from_slice payload = Some record → json_session_id payload = Some (intent_session_id record).

Notation scan_loop := (scan_loop b64_encode b64_decode sha256 env now).
Notation examine := (examine b64_encode b64_decode sha256 env now).

(** The report of a row is stored. *)
Definition row_reported (t : LaunchTables) (kr : string * IntentRow) : bool :=
  match decode_intent kr.1 (intent_payload kr.2) with
  | Ok record => negb (is_none (report_rows t !! intent_session_id record))
  | Err _ => false
  end.

(** The record of a row whose end is not known. *)
Definition interrupted_of (t : LaunchTables) (kr : string * IntentRow) : option IntentRecord :=
  match decode_intent kr.1 (intent_payload kr.2) with
  | Ok record =>
      if is_none (intent_settlement kr.2) && is_none (report_rows t !! intent_session_id record)
      then Some record else None
  | Err _ => None
  end.

(** A row after the scan. *)
Definition recovered_row (t : LaunchTables) (after key : string) (row : IntentRow) : IntentRow :=
  if unresolved row && is_lt (str_cmp after key) && is_none (intent_settlement row) &&
     row_reported t (key, row)
  then set_terminal_ack row else row.

Lemma decode_intent_session key payload record :
  decode_intent key payload = Ok record → json_session_id payload = Some (intent_session_id record).
Proof. unfold decode_intent. intros Hd. ok_inv. subst. by apply session_extracted. Qed.

(** What the examination of a row does: it records the intent, or acknowledges
    its report, or neither. *)
Lemma examine_ok byte_limit n s key row rows m s' m' :
  intent_rows (database (metadata m)) = Some rows → rows !! key = Some row → unresolved row = true →
  str_cmp (scan_after s) key = Lt → examine byte_limit n s key row m = (Ok s', m') →
  scan_after s' = key ∧ is_ok (decode_intent key (intent_payload row)) = true ∧
  scan_interrupted s' = scan_interrupted s ++
    option_list (interrupted_of (database (metadata m)) (key, row)) ∧
  database (metadata m') = set_intents (database (metadata m))
    (<[key := recovered_row (database (metadata m)) (scan_after s) key row]> rows).
Proof.
  intros Hrows Hrow Hunresolved Hafter. unfold LaunchIntents.examine.
  intros (record & m1 & [Hdecode <-]%lift_ok & Hrun)%eff_bind_ok.
  assert (recovered_row (database (metadata m)) (scan_after s) key row =
    if is_none (intent_settlement row) && negb (is_none (report_rows (database (metadata m)) !! intent_session_id record))
    then set_terminal_ack row else row) as Hrecovered.
  { unfold recovered_row, row_reported. cbn [fst snd]. by rewrite Hunresolved, Hafter, Hdecode. }
  unfold interrupted_of. cbn [fst snd]. rewrite Hdecode, Hrecovered. clear Hrecovered.
  destruct (intent_settlement row) as [settlement|]; cbn [is_none andb].
  - apply eff_bind_ok in Hrun as (o & m1 & [_ <-]%lift_ok & [<- <-]%eff_ret_ok).
    cbn [scan_after scan_interrupted]. rewrite (insert_id rows key row Hrow), app_nil_r.
    by rewrite (set_intents_same _ _ Hrows).
  - apply eff_bind_ok in Hrun as (sc & m1 & [_ <-]%lift_ok & Hrun).
    apply eff_bind_ok in Hrun as (len & m1 & Hlen & Hrun).
    unfold report_length in Hlen. destruct (env (LengthCall n)) as [c1 f1].
    apply eff_bind_ok in Hlen as (l & m2 & [_ Hd1]%with_store_read_ok & [_ <-]%eff_ret_ok).
    apply eff_bind_ok in Hrun as (? & m3 & [_ <-]%lift_ok & Hrun).
    destruct (env (ReportCall n)) as [c2 f2].
    apply eff_bind_ok in Hrun as (report & m3 & [Hreport Hd2]%with_store_read_ok & Hrun).
    rewrite Hd1 in Hreport.
    destruct (get_in b64_encode b64_decode f2 (intent_session_id record) (database (metadata m))) as [r t] eqn:Eget.
    cbn [fst] in Hreport. subst r. unfold get_in in Eget.
    apply eff_bind_ok in Eget as (? & t1 & [_ <-]%lift_ok & (_ & _ & Hstored)%stored_report_ok).
    destruct report as [report|].
    + destruct Hstored as (rrow & Hrrow & _). rewrite Hrrow. cbn [is_none negb option_list].
      apply eff_bind_ok in Hrun as (snapshot & m4 & [Hsnap <-]%lift_ok & Hrun).
      destruct (env (AcknowledgeCall n)) as [c3 f3] eqn:Eenv.
      apply eff_bind_ok in Hrun as ([] & m5 & Hack & [<- <-]%eff_ret_ok).
      apply with_store_transaction_ok in Hack; [|by eapply env_settles].
      unfold acknowledge_intent_in in Hack.
      apply eff_bind_ok in Hack as (saved & t2 & (_ & -> & Hsaved)%stored_report_ok & Hack).
      apply eff_bind_ok in Hack as (report' & t2 & [Hr <-]%lift_ok & Hack). ok_inv. subst saved.
      apply acknowledge_terminal_ok in Hack. rewrite Hd2, Hd1 in Hack, Hsaved.
      unfold tables_acknowledged in Hack. rewrite Hrows in Hack. destruct Hack as (rows' & Hack & ->).
      assert (session_id report' = intent_session_id record) as Hsession.
      { destruct Hsaved as (row' & _ & _ & Hdec). unfold decode_stored_report in Hdec. ok_inv. subst.
        match goal with E : str_eqb (session_id _) _ = true |- _ => by apply str_eqb_spec in E end. }
      cbn [scan_after scan_interrupted]. rewrite app_nil_r. split_and!; [done|by rewrite ?Hdecode|done|].
      f_equal. assert ((key, row) ∈ intents_of_session (session_id report') rows) as Hin.
      { apply elem_of_intents. unfold unresolved in Hunresolved. ok_inv.
        rewrite Hsession. split_and!; [done..|by eapply decode_intent_session]. }
      destruct Hack as [[Hl _]|(key' & row' & Hl & _ & _ & ->)]; rewrite Hl in Hin.
      * by apply elem_of_nil in Hin.
      * apply list_elem_of_singleton in Hin. by injection Hin as -> ->.
    + rewrite Hstored. apply eff_ret_ok in Hrun as [<- <-]. cbn [is_none negb scan_after scan_interrupted option_list].
      rewrite (insert_id rows key row Hrow), (set_intents_same _ _ Hrows). split_and!; [done..|congruence].
Qed.

(** The loop never runs out of fuel: the limit stops it before. *)
Lemma scan_loop_answers fuel record_limit byte_limit n s m r m' :
  (n + fuel = record_limit)%nat →
  scan_loop (S fuel) record_limit byte_limit n s m = (r, m') → r ≠ Ok None.
Proof.
  revert n s m. induction fuel as [|fuel IH]; intros n s m Hn; cbn [LaunchIntents.scan_loop];
    unfold mbind, eff_bind at 1, lift;
    (destruct (scan_row env n (scan_after s) m) as [[[[key row]|]|e] m1];
       [|by intros [= <- _]..]); unfold eff_bind at 1.
  - rewrite (proj2 (Nat.eqb_eq n record_limit)) by lia. by intros [= <- _].
  - destruct (err_if _ _) as [|e]; [|by intros [= <- _]]. unfold eff_bind.
    destruct (examine byte_limit n s key row m1) as [[s'|e] m2]; [|by intros [= <- _]].
    apply IH. lia.
Qed.

Lemma scan_row_ok n after m found m' :
  scan_row env n after m = (Ok found, m') →
  database (metadata m') = database (metadata m) ∧
  ∃ rows, intent_rows (database (metadata m)) = Some rows ∧ found = head (unresolved_after after rows).
Proof.
  unfold scan_row. destruct (env (ScanCall n)) as [call fault].
  intros [Hread Hd]%with_store_read_ok. split; [done|].
  destruct (scan_in fault after (database (metadata m))) as [r t] eqn:Es. cbn [fst] in Hread. subst r.
  unfold scan_in in Es. apply intents_statement_ok in Es as (_ & rows & rows' & Hr & Hrun & _).
  exists rows. split; [done|]. destruct (head (unresolved_after after rows)) as [kr|].
  - injection Hrun as Hrun _. unfold read_intent in Hrun. ok_inv. by subst.
  - by injection Hrun as <- _.
Qed.

(** A scan that succeeds, from the rows after a key on. *)
Lemma scan_loop_ok fuel record_limit byte_limit n s m records m' rows :
  intent_rows (database (metadata m)) = Some rows →
  scan_loop fuel record_limit byte_limit n s m = (Ok (Some records), m') →
  let t := database (metadata m) in
  let found := unresolved_after (scan_after s) rows in
  records = scan_interrupted s ++ omap (interrupted_of t) found ∧
  Forall (λ kr, is_ok (decode_intent kr.1 (intent_payload kr.2)) = true) found ∧
  report_rows (database (metadata m')) = report_rows t ∧
  ∃ rows', intent_rows (database (metadata m')) = Some rows' ∧
    ∀ k, rows' !! k = recovered_row t (scan_after s) k <$> rows !! k.
Proof.
  cbn zeta. revert n s m rows. induction fuel as [|fuel IH]; intros n s m rows Hrows; [done|].
  cbn [LaunchIntents.scan_loop].
  intros (found & m1 & (Hd1 & rows0 & Hr0 & ->)%scan_row_ok & Hrun)%eff_bind_ok.
  rewrite Hrows in Hr0. injection Hr0 as <-.
  destruct (unresolved_after (scan_after s) rows) as [|[key row] rest] eqn:El; cbn [head] in Hrun.
  - apply eff_ret_ok in Hrun as [[= <-] <-]. rewrite Hd1. cbn [omap list_omap]. rewrite app_nil_r.
    split_and!; [done|constructor|done|]. exists rows. split; [done|]. intros k.
    destruct (rows !! k) as [row|] eqn:Ek; [|done]. cbn. f_equal. unfold recovered_row.
    destruct (unresolved row && is_lt (str_cmp (scan_after s) k)) eqn:E; [|done]. exfalso.
    apply andb_true_iff in E as [Hu Hlt].
    assert ((k, row) ∈ unresolved_after (scan_after s) rows) as Hin.
    { apply elem_of_unresolved. split_and!; [done..|]. by destruct (str_cmp _ k). }
    rewrite El in Hin. by apply elem_of_nil in Hin.
  - apply eff_bind_ok in Hrun as (? & m2 & [_ <-]%lift_ok & Hrun).
    apply eff_bind_ok in Hrun as (s' & m2 & Hexamine & Hrun).
    assert ((key, row) ∈ unresolved_after (scan_after s) rows) as Hin by (rewrite El; by left).
    apply elem_of_unresolved in Hin as (Hrow & Hu & Hlt).
    rewrite <-Hd1 in Hrows. pose proof (examine_ok _ _ _ _ _ _ _ _ _ Hrows Hrow Hu Hlt Hexamine)
      as (Hafter & Hdecode & Hinterrupted & Hd2). rewrite Hd1 in *.
    set (t := database (metadata m)) in *. set (row' := recovered_row t (scan_after s) key row) in *.
    assert (unresolved_after (scan_after s') (<[key := row']> rows) = rest) as Hrest.
    { rewrite Hafter, unresolved_insert. by eapply unresolved_next. }
    specialize (IH (S n) s' m2 (<[key := row']> rows)). rewrite Hd2 in IH.
    destruct (IH eq_refl Hrun) as (-> & Hall & Hreports & rows' & Hrows' & Hlook). rewrite Hrest in *.
    assert (∀ kr, interrupted_of (set_intents t (<[key := row']> rows)) kr = interrupted_of t kr) as Hsame
      by done.
    split_and!.
    + rewrite Hinterrupted, <-app_assoc. f_equal. cbn [omap list_omap].
      by destruct (interrupted_of t (key, row)).
    + by constructor.
    + by rewrite Hreports.
    + exists rows'. split; [done|]. intros k. rewrite Hlook, Hafter.
      destruct (decide (k = key)) as [->|Hne].
      * rewrite lookup_insert_eq, Hrow. cbn. f_equal. unfold recovered_row at 1.
        by rewrite (cmp_refl str_cmp), andb_false_r.
      * rewrite lookup_insert_ne by done. destruct (rows !! k) as [rk|] eqn:Ek; [|done]. cbn. f_equal.
        unfold recovered_row. change (row_reported (set_intents t _)) with (row_reported t).
        destruct (unresolved rk) eqn:Euk; [|done]. cbn [andb].
        assert (is_lt (str_cmp key k) = is_lt (str_cmp (scan_after s) k)) as ->; [|done].
        destruct (str_cmp (scan_after s) k) eqn:Eak.
        -- apply (cmp_eq str_cmp) in Eak as <-. rewrite (cmp_antisym str_cmp), Hlt. done.
        -- assert ((k, rk) ∈ unresolved_after (scan_after s) rows) as Hin
             by (by apply elem_of_unresolved).
           rewrite El in Hin. apply elem_of_cons in Hin as [[= ? ?]|Hin]; [done|].
           rewrite <-(unresolved_next _ _ _ _ _ El) in Hin.
           apply elem_of_unresolved in Hin as (_ & _ & ->). done.
        -- destruct (str_cmp key k) eqn:Ekk; [done| |done].
           rewrite (str_cmp_lt_trans _ _ _ Hlt Ekk) in Eak. done.
Qed.

(** C26: The scan of a restart always answers, within its limits.  When it
    succeeds every unresolved row was readable, and it returns exactly the
    records of those whose end is not known (neither observed nor reported) in
    the order of their keys.  It acknowledges the intents whose report is
    stored, and changes nothing else in the tables. *)
Theorem recovery_exact record_limit byte_limit m r m' :
  interrupted_records_with_limits b64_encode b64_decode sha256 env now record_limit byte_limit m = (r, m') →
  r ≠ Ok None ∧
  ∀ records, r = Ok (Some records) →
    let t := database (metadata m) in
    ∃ rows rows',
      intent_rows t = Some rows ∧
      records = omap (interrupted_of t) (unresolved_after "" rows) ∧
      (∀ key row, rows !! key = Some row → unresolved row = true → key ≠ "" →
         is_ok (decode_intent key (intent_payload row)) = true) ∧
      database (metadata m') = {| report_rows := report_rows t; intent_rows := Some rows' |} ∧
      ∀ key, rows' !! key = recovered_row t "" key <$> rows !! key.
Proof.
  unfold interrupted_records_with_limits, mbind, eff_bind at 1, get_state, eff_bind at 1, lift.
  destruct (err_if (negb (durable m)) _) as [[]|e]; [|by intros [= <- <-]]. intros Hrun.
  split; [eapply scan_loop_answers; [|exact Hrun]; lia|]. intros records ->. cbn zeta.
  assert (∃ rows, intent_rows (database (metadata m)) = Some rows) as [rows Hrows].
  { cbn [LaunchIntents.scan_loop] in Hrun.
    apply eff_bind_ok in Hrun as (found & m1 & (_ & rows & Hr & _)%scan_row_ok & _). by exists rows. }
  destruct (scan_loop_ok _ _ _ _ _ _ _ _ _ Hrows Hrun) as (-> & Hall & Hreports & rows' & Hrows' & Hlook).
  exists rows, rows'. split_and!; [done..| | |exact Hlook].
  - intros key row Hrow Hu Hkey. rewrite list.Forall_forall in Hall.
    apply (Hall (key, row)), elem_of_unresolved. split_and!; [done..|]. by destruct key.
  - destruct (database (metadata m')) as [reports intents]. cbn in *. by rewrite Hreports, Hrows'.
Qed.
End recovery.
