(* ===== verification/LaunchDemo.v ===== *)
(** * Reports and launches on concrete data

    Witnesses of the theorems of [LaunchReportProps]: a managed session with its
    private paths redacted, and the vanilla and managed sessions before it.  The
    clock accepts canonical times only, and the encoder knows one report.  Then
    one launch from its reservation to its recovery. *)

From S2P Require Import Prelude RustStr RustText RustFloat Effect McPortablePath McLoaderIdentity.
From S2P Require Import SettingsModel Storage InstanceModel.
From S2P Require Import LaunchCrash LaunchOutcome LaunchLogs LaunchRedact LaunchReports.
From S2P Require Import LaunchReportProps.
From S2P Require Import LaunchSnapshot LaunchModel.
From S2P Require Import LaunchTables LaunchTablesProps LaunchIntents LaunchIntentsProps LaunchRecovery.

Open Scope string_scope.
Open Scope list_scope.
Open Scope Z_scope.

Module ReportDemo.
#[local] Instance demo_millis : Rfc3339Millis := {|
  utc_millis value := if (str_len value =? 24) then Some value else None;
  local_millis value := if (str_len value =? 24) then Some value else None;
|}.

Definition demo_scenario (mode : string) : LaunchProofScenario := {|
  scenario_id := scenario_id_for_performance_mode mode; performance_mode := mode;
  requested_memory_mb := Some 4096; scenario_version_id := Some "1.20.1";
  benchmark_profile := None; benchmark_run_type := None; benchmark_mode := None;
  benchmark_id := None |}.

(** A clean session of [mode], with a boot time and one line of output. *)
Definition demo_session (id recorded mode : string) (boot : Z) (line : string)
    : LaunchProofRecord := {|
  schema := "axial.launch.proof"; schema_version := 4; session_id := id;
  instance_id := "3f2c"; version_id := "1.20.1"; launched_at := "2026-01-01T00:00:00.000Z";
  recorded_at := recorded; outcome := "exited";
  session_outcome := {| kind := Clean; reason := CleanExit; failure_class := None;
    summary := outcome_summary {| kind := Clean; reason := CleanExit;
                                  failure_class := None; summary := "" |} |};
  scenario := demo_scenario mode;
  device := {| tier := "mid"; total_memory_mb := Some 16384; cpu_threads := Some 6 |};
  resource_budget := None; report_exit_code := Some 0; boot_duration_ms := Some boot;
  crash_evidence := None; stages := []; comparison := None;
  logs := [{| sequence := 1; entry_source := Stdout; text := line;
              entry_truncated := false |}];
  logs_dropped := 0 |}.

Definition current : LaunchProofRecord :=
  demo_session "c" "2026-01-03T00:00:00.000Z" "managed" 900 "Loaded world save-alpha".
Definition vanilla : LaunchProofRecord :=
  demo_session "v" "2026-01-01T12:00:00.000Z" "vanilla" 1200 "done".
Definition managed : LaunchProofRecord :=
  demo_session "m" "2026-01-02T00:00:00.000Z" "managed" 1000 "done".

(** The vanilla session is the baseline, although the managed one is later. *)
Lemma comparison_best_baseline_witness :
  ∃ c, build_comparison_from_candidates current [managed; vanilla] = Some c ∧
    baseline_session_id c = "v" ∧ delta_ms c = -300 ∧
    ∃ base, base ∈ [managed; vanilla] ∧ comparison_baseline_matches_report c base = true.
Proof.
  destruct (build_comparison_from_candidates current [managed; vanilla]) as [c|] eqn:E.
  2:{ exfalso. revert E. vm_compute. discriminate. }
  destruct (proj2 (comparison_best_baseline current [managed; vanilla]) c E)
    as (name & value & metric & base & v & _ & _ & Hin & _ & Hmatch & _).
  exists c. split_and!; [done| | |by exists base];
    revert E; vm_compute; intros [= <-]; reflexivity.
Defined.

(** The secret is gone from what is stored. *)
Definition demo_redactor : Redactor := redactor_new ["save-alpha"].

Definition stored : LaunchProofRecord :=
  demo_session "c" "2026-01-03T00:00:00.000Z" "managed" 900 REDACTED_LINE.

#[local] Instance comparison_eq_dec : EqDecision LaunchProofComparison.
Proof. solve_decision. Defined.
#[local] Instance report_eq_dec : EqDecision LaunchProofRecord.
Proof. solve_decision. Defined.

#[local] Instance demo_json : ReportJson := {|
  report_to_vec report := if decide (report = stored) then Some "{}" else None;
  report_wire bytes := if str_eqb bytes "{}" then Some stored else None;
  evidence_to_string _ := None;
|}.

Definition no_b64 (value : string) : string := value.

Lemma encoded_report_reads_back_witness :
  sanitize_report no_b64 Some current demo_redactor = Ok stored ∧
  encode_report no_b64 Some stored = Ok "{}" ∧
  decode_stored_report no_b64 Some "c" "3f2c" "2026-01-03T00:00:00.000Z" "{}" = Ok stored.
Proof.
  assert (sanitize_report no_b64 Some current demo_redactor = Ok stored) as Hs
    by (vm_compute; reflexivity).
  assert (report_to_vec stored = Some "{}") as Hv
    by (cbn [report_to_vec demo_json]; by rewrite decide_True).
  split; [exact Hs|].
  destruct (encoded_report_reads_back no_b64 Some) with (input := current) (q := demo_redactor)
    (report := stored) as [Hencode Hdecode].
  - intros value t. cbn [utc_millis demo_millis]. destruct (str_len value =? 24) eqn:E; [|done].
    intros [= <-]. by rewrite E.
  - intros report bytes _. cbn [report_to_vec report_wire demo_json].
    destruct (decide (report = stored)) as [->|]; [|done]. by intros [= <-].
  - exact Hs.
  - split; [|done]. repeat constructor.
  - done.
  - rewrite Hv in Hencode. split; [exact Hencode|]. apply (Hdecode _ Hencode). done.
Defined.
End ReportDemo.

(** ** A launch on concrete tables

    One identity is reserved, accepted, interrupted by a restart, recovered,
    and its report recorded.  The codecs know the records of this launch only. *)

Module LaunchDemo.
#[local] Existing Instance ReportDemo.demo_millis.
#[local] Existing Instance ReportDemo.report_eq_dec.
#[local] Existing Instance plain_norm.
#[local] Instance demo_uuid : UuidParser := λ value,
  if (str_len value =? 36) then Some value else None.

Definition demo_key : string := "11111111-1111-4111-8111-111111111111".
Definition demo_session : string := "22222222-2222-4222-8222-222222222222".
Definition demo_instance : string := "33333333-3333-4333-8333-333333333333".

Definition demo_request : LaunchRequest := {|
  request_instance_id := demo_instance; request_version_id := Some "1.20.1";
  request_username := Some "Player"; request_max_memory_mb := Some 4096;
  request_min_memory_mb := None; client_started_at_ms := None; intent_key := Some demo_key |}.

Definition demo_binding : IntentBinding := {|
  binding_version := 1; binding_library_id := "library"; library_root := "root";
  application_root := "application"; binding_directory_name := demo_instance;
  binding_directory_receipt := "receipt" |}.

Definition demo_pending : IntentRecord := {|
  intent_request := demo_request; intent_context := None; intent_session_id := demo_session;
  binding := None |}.
Definition demo_accepted : IntentRecord := set_binding demo_pending demo_binding.

#[local] Instance demo_intents : IntentJson := {|
  intent_to_vec record :=
    if decide (record = demo_pending) then Some "pending"
    else if decide (record = demo_accepted) then Some "accepted" else None;
  intent_from_slice payload :=
    if str_eqb payload "pending" then Some demo_pending
    else if str_eqb payload "accepted" then Some demo_accepted else None;
  settlement_to_vec _ := None;
  settlement_from_slice _ := None;
  rejection_to_string _ := Some "rejected";
  rejection_from_str _ := Some (RejectedCode PreparationFailed);
  scenario_from_str _ := None;
  json_session_id payload :=
    if char_in ["pending"; "accepted"] payload then Some demo_session else None;
|}.

(** The session's report, and the one it becomes when it is stored. *)
Definition demo_report (line : string) : LaunchProofRecord :=
  let r := ReportDemo.current in {|
  schema := schema r; schema_version := schema_version r; session_id := demo_session;
  instance_id := demo_instance; version_id := version_id r; launched_at := launched_at r;
  recorded_at := recorded_at r; outcome := outcome r; session_outcome := session_outcome r;
  scenario := scenario r; device := device r; resource_budget := resource_budget r;
  report_exit_code := report_exit_code r; boot_duration_ms := boot_duration_ms r;
  crash_evidence := None; stages := []; comparison := None;
  logs := [{| sequence := 1; entry_source := Stdout; text := line; entry_truncated := false |}];
  logs_dropped := 0 |}.
Definition demo_stored : LaunchProofRecord := demo_report REDACTED_LINE.

#[local] Instance demo_reports : ReportJson := {|
  report_to_vec report := if decide (report = demo_stored) then Some "report" else None;
  report_wire bytes := if str_eqb bytes "report" then Some demo_stored else None;
  evidence_to_string _ := None;
|}.

Definition no_b64 (value : string) : string := value.
Definition no_hash (value : string) : string := value.
Definition demo_now : string := "2026-01-03T00:00:00.000Z".

(** A launcher that has just started on the tables. *)
Definition started (tables : LaunchTables) : LaunchIntents := {|
  live := ∅; live_poisoned := false; capacity := 4; durable := true;
  metadata := {| database := tables; mutation_closed := false; poisoned := false |} |}.

(** The launch is accepted, the launcher restarts, and the player tries again. *)
Definition demo_steps : list LaunchStep := [
  Reserve quiet_env demo_now demo_session demo_request None; Claim demo_key;
  Accept quiet_env demo_key demo_binding; RestartLauncher;
  Reserve quiet_env demo_now "44444444-4444-4444-8444-444444444444" demo_request None;
  Claim demo_key; Accept quiet_env demo_key demo_binding].

Definition demo_run : list LaunchEvent * LaunchIntents :=
  run_steps no_b64 Some no_hash demo_steps (started created_tables).

Lemma quiet_settled : settled_env quiet_env.
Proof. intros c. reflexivity. Qed.

Lemma launch_authorised_once_witness :
  demo_run.1 = [Nothing; Claimed demo_key demo_session; AcceptedEvent demo_key; Nothing; Nothing;
                Nothing; Nothing] ∧
  ∀ j, (2 < j)%nat → demo_run.1 !! j ≠ Some (AcceptedEvent demo_key).
Proof.
  split; [vm_compute; reflexivity|]. intros j Hj.
  destruct demo_run as [es m'] eqn:Hrun.
  destruct (launch_authorised_once no_b64 Some no_hash 4 created_tables demo_steps es m' 2) as [_ Haccepted].
  - repeat constructor; apply quiet_settled.
  - exact Hrun.
  - destruct (Haccepted demo_key) as (_ & _ & Hlater); [|exact (proj1 (Hlater j Hj))].
    assert (es = demo_run.1) as -> by (by rewrite Hrun). vm_compute. reflexivity.
Defined.

(** The tables once the launch was accepted. *)
Definition accepted_tables : LaunchTables := {|
  report_rows := ∅;
  intent_rows := Some {[demo_key := {|
    intent_payload := "accepted"; intent_state := StateAccepted; intent_error := None;
    terminal_ack := false; intent_settlement := None |}]} |}.

Lemma demo_extracted payload record :
  intent_from_slice payload = Some record → json_session_id payload = Some (intent_session_id record).
Proof.
  cbn [intent_from_slice json_session_id demo_intents].
  destruct (str_eqb payload "pending") eqn:E1; [apply str_eqb_spec in E1 as ->; by intros [= <-]|].
  destruct (str_eqb payload "accepted") eqn:E2; [apply str_eqb_spec in E2 as ->; by intros [= <-]|done].
Qed.

(** The restart finds the launch, whose end is not known. *)
Lemma recovery_exact_witness :
  (interrupted_records_with_limits no_b64 Some no_hash quiet_env demo_now 16 1000 (started accepted_tables)).1
  = Ok (Some [demo_accepted]).
Proof.
  destruct (interrupted_records_with_limits no_b64 Some no_hash quiet_env demo_now 16 1000 (started accepted_tables))
    as [r m'] eqn:Hrun.
  assert (r = (interrupted_records_with_limits no_b64 Some no_hash quiet_env demo_now 16 1000 (started accepted_tables)).1)
    as Hr by (by rewrite Hrun).
  destruct (recovery_exact no_b64 Some no_hash quiet_env demo_now quiet_settled demo_extracted
    16 1000 (started accepted_tables) r m' Hrun) as [_ Hexact].
  assert (∃ records, r = Ok (Some records)) as [records Hok].
  { rewrite Hr. eexists. vm_compute. reflexivity. }
  destruct (Hexact records Hok) as (rows & rows' & Hrows & Hrecords & _).
  cbn [fst]. rewrite Hok, Hrecords. injection Hrows as <-. vm_compute. reflexivity.
Defined.

(** The report is stored, its secret redacted and its intent acknowledged. *)
Definition demo_redactor : Redactor := redactor_new ["save-alpha"].
Definition demo_record : result ReportError unit * Store :=
  report_record no_b64 Some no_hash quiet_call (λ _, None) demo_now (demo_report "Loaded world save-alpha")
    demo_redactor {| database := accepted_tables; mutation_closed := false; poisoned := false |}.

Lemma recorded_report_kept_witness :
  demo_record.1 = Ok tt ∧
  (∃ saved, report_get no_b64 Some quiet_call no_fault demo_session demo_record.2
            = (Ok (Some saved), demo_record.2) ∧
            report_eqb (set_comparison saved None) demo_stored = true) ∧
  (λ rows, terminal_ack <$> rows !! demo_key) <$> intent_rows (database demo_record.2) = Some (Some true).
Proof.
  split_and!; [vm_compute; reflexivity| |vm_compute; reflexivity].
  destruct demo_record as [r store'] eqn:Hrun.
  assert (r = Ok tt) as Hr.
  { assert (r = demo_record.1) as -> by (by rewrite Hrun). vm_compute. reflexivity. }
  pose proof (recorded_report_kept no_b64 Some no_hash quiet_call _ _ _ _ _ r store'
    ltac:(reflexivity) Hrun) as Hkept. rewrite Hr in Hkept.
  destruct Hkept as (report & saved & Hs & Hget & Heq & _). exists saved. split; [exact Hget|].
  assert (sanitize_report no_b64 Some (demo_report "Loaded world save-alpha") demo_redactor = Ok demo_stored)
    as Hs' by (vm_compute; reflexivity).
  rewrite Hs in Hs'. injection Hs' as ->. exact Heq.
Defined.

(** Recording it again changes nothing, and another report is refused. *)
Lemma record_again_settled_witness :
  report_record no_b64 Some no_hash quiet_call no_fault demo_now (demo_report "Loaded world save-alpha")
    demo_redactor demo_record.2 = (Ok tt, demo_record.2) ∧
  report_record no_b64 Some no_hash quiet_call no_fault demo_now (demo_report "Another line")
    no_redactor demo_record.2 = (Err ConflictingSession, demo_record.2).
Proof.
  destruct demo_record as [r store'] eqn:Hrun.
  assert (r = Ok tt) as ->.
  { assert (r = demo_record.1) as -> by (by rewrite Hrun). vm_compute. reflexivity. }
  assert (report_get no_b64 Some quiet_call no_fault demo_session store' = (Ok (Some demo_stored), store'))
    as Hget.
  { assert (store' = demo_record.2) as -> by (by rewrite Hrun). vm_compute. reflexivity. }
  destruct (record_again_settled no_b64 Some no_hash quiet_call _ _ _ _ _ store' demo_stored
    ltac:(reflexivity) Hrun Hget) as (_ & Hagain & Hother).
  cbn [snd]. split; [apply Hagain|].
  rewrite (Hother demo_now (demo_report "Another line") no_redactor (demo_report "Another line"));
    vm_compute; reflexivity.
Defined.
End LaunchDemo.
