(* ===== verification/AccountModel.v ===== *)
(** * Accounts ([core/app/src/accounts/model.rs], [directory.rs], [selection.rs])

    The account directory: records of offline and Microsoft identities, the
    selection, the captures that fence work, and every command on them inside a
    transaction of the metadata store.  A mutation behind [&mut] is a function
    to the new snapshot.  MD5, UUID and URL parsing, RFC 3339 and serde_json on
    records are parameters; the time of a change is an argument. *)

From S2P Require Import Prelude RustStr RustText Effect SettingsModel Storage.

Open Scope string_scope.
Open Scope list_scope.
Open Scope Z_scope.

Definition MAX_ACCOUNTS : nat := 256.
Definition MAX_SAFE_REVISION : Z := 9007199254740991.

Inductive AccountError :=
| AccountInvalidInput (message : string) | AccountNotFound | NoSelection | StaleCapture
| AccountExists | NotOffline | NotMicrosoft | InvalidStoredData | AccountStorage.

#[global] Instance account_error_eq_dec : EqDecision AccountError.
Proof. solve_decision. Defined.

(** ** Profiles *)

Record MinecraftSkin := {
  skin_id : string; skin_state : string; skin_url : string; skin_variant : string
}.
Record MinecraftCape := { cape_id : string; cape_state : string; cape_url : string }.
Record MinecraftProfile := {
  profile_id : string;
  profile_name : string;
  skins : list MinecraftSkin;
  capes : list MinecraftCape;
}.
#[global] Instance skin_eq_dec : EqDecision MinecraftSkin.
Proof. solve_decision. Defined.
#[global] Instance cape_eq_dec : EqDecision MinecraftCape.
Proof. solve_decision. Defined.
#[global] Instance profile_eq_dec : EqDecision MinecraftProfile.
Proof. solve_decision. Defined.

(** What [url::Url::parse] tells of a texture address. *)
Record TextureUrl := {
  texture_scheme : string;
  texture_host : option string;
  texture_port : option Z;
  texture_username : string;
  texture_password : option string;
  texture_query : option string;
  texture_fragment : option string;
  texture_path : string;
}.

(** The parsers and digests outside the repository. *)
Class AccountParsers := {
  texture_url_parse : string → option TextureUrl;
  rfc3339_valid : string → bool;
  md5 : string → string;
}.

(** ** Records *)

Inductive AccountKind := OfflineAccount | MicrosoftAccount.
Inductive LaunchAuthMode := ModeOffline | ModeOnline.
#[global] Instance account_kind_eq_dec : EqDecision AccountKind.
Proof. solve_decision. Defined.
#[global] Instance launch_auth_mode_eq_dec : EqDecision LaunchAuthMode.
Proof. solve_decision. Defined.

Definition launch_mode (kind : AccountKind) : LaunchAuthMode :=
  match kind with OfflineAccount => ModeOffline | MicrosoftAccount => ModeOnline end.

(** [AccountId], the text of a parsed identity. *)
Notation AccountId := string (only parsing).

Record AccountRecord := {
  account_id : AccountId;
  account_kind : AccountKind;
  display_name : string;
  login_id : option string;
  minecraft_profile_id : option string;
  offline_uuid_field : option string;
  minecraft_profile : option MinecraftProfile;
  owns_minecraft_java : bool;
  account_revision : Z;
  profile_revision : Z;
  credential_revision : Z;
  created_revision : Z;
  created_at : string;
  updated_at : string;
}.
#[global] Instance account_record_eq_dec : EqDecision AccountRecord.
Proof. solve_decision. Defined.

(** [minecraft_uuid], [None] where the code panics. *)
Definition minecraft_uuid (a : AccountRecord) : option string :=
  match account_kind a with
  | OfflineAccount => offline_uuid_field a
  | MicrosoftAccount => minecraft_profile_id a
  end.

Record AccountSnapshot := {
  directory_revision : Z;
  selection_revision : Z;
  active_account_id : option AccountId;
  launch_auth_mode : LaunchAuthMode;
  accounts : list AccountRecord;
}.
#[global] Instance account_snapshot_eq_dec : EqDecision AccountSnapshot.
Proof. solve_decision. Defined.

Definition has_account_id (id : AccountId) (a : AccountRecord) : bool := str_eqb (account_id a) id.

Definition active_account (s : AccountSnapshot) : option AccountRecord :=
  id ← active_account_id s; List.find (has_account_id id) (accounts s).

Record AccountPreconditions := {
  expected_selection_revision : option Z;
  expected_account_revision : option Z;
}.
Definition no_preconditions : AccountPreconditions :=
  {| expected_selection_revision := None; expected_account_revision := None |}.

Record MicrosoftIdentity := {
  ms_login_id : string;
  ms_profile_id : string;
  ms_display_name : string;
  ms_credential_revision : Z;
  ms_profile : MinecraftProfile;
  ms_owns_minecraft_java : bool;
}.

Definition set_accounts (s : AccountSnapshot) (l : list AccountRecord) : AccountSnapshot := {|
  directory_revision := directory_revision s; selection_revision := selection_revision s;
  active_account_id := active_account_id s; launch_auth_mode := launch_auth_mode s; accounts := l |}.

Definition set_revision (s : AccountSnapshot) (revision : Z) : AccountSnapshot := {|
  directory_revision := revision; selection_revision := revision;
  active_account_id := active_account_id s; launch_auth_mode := launch_auth_mode s;
  accounts := accounts s |}.

(** ** Identities *)

Definition lower_hex (c : ascii) : bool :=
  is_digit c || ((97 <=? byte_n c) && (byte_n c <=? 102))%N.
Definition any_hex (c : ascii) : bool := lower_hex (lower_byte c).

Definition text_of (l : list ascii) : string := str_concat (char1 <$> l).

(** Sixteen bytes as lower-case hexadecimal digits. *)
Definition hex_digit (n : N) : ascii :=
  if (n <? 10)%N then ascii_of_N (48 + n) else ascii_of_N (87 + n).
Definition hex_byte (c : ascii) : string :=
  String (hex_digit (byte_n c / 16)) (String (hex_digit (byte_n c mod 16)) EmptyString).
Definition hex_string (s : string) : string := str_concat (hex_byte <$> bytes_of s).

(** [bytes[i] = f(bytes[i])]. *)
Definition edit_byte (i : nat) (f : N → N) (l : list ascii) : list ascii :=
  alter (λ c, ascii_of_N (f (byte_n c))) i l.

Section accounts.
Context `{UuidParser} `{AccountParsers}.

Definition account_id_parse (value : string) : result AccountError AccountId :=
  let invalid := AccountInvalidInput "Account identity is invalid." in
  match strip_prefix "offline-" value with
  | Some uuid =>
      if (str_len uuid =? 32) && sforall lower_hex uuid then Ok value else Err invalid
  | None => ok_or invalid (uuid_canonical value)
  end.

Definition name_char (c : ascii) : bool := is_alphanumeric c || Ascii.eqb c "_".

Definition account_validate_username (raw : string) : result AccountError string :=
  let value := trim raw in
  err_if (is_empty value) (AccountInvalidInput "Enter a name.") ;;
  err_if (str_len value <? 3) (AccountInvalidInput "At least 3 characters.") ;;
  err_if (16 <? str_len value) (AccountInvalidInput "At most 16 characters.") ;;
  err_if (negb (sforall name_char value))
    (AccountInvalidInput "Letters, numbers, and underscores only.") ;;
  Ok value.

(** The version and variant bits of the digest are set. *)
Definition offline_uuid (username : string) : string :=
  let bytes := bytes_of (md5 ("OfflinePlayer:" +:+ username)) in
  let bytes := edit_byte 6 (λ b, N.lor (N.land b 15) 48) bytes in
  let bytes := edit_byte 8 (λ b, N.lor (N.land b 63) 128) bytes in
  hex_string (text_of bytes).

Definition offline_id (username : string) : string := "offline-" +:+ offline_uuid username.

Definition microsoft_account_id (profile : string) : result AccountError string :=
  ok_or (AccountInvalidInput "Minecraft profile identity is invalid.") (uuid_canonical profile).

(** [simple()] of a hyphenated UUID. *)
Definition uuid_simple (hyphenated : string) : string := text_of (filter (λ c, c ≠ "-"%char) (bytes_of hyphenated)).

Definition texture_hash_ok (path : string) : bool :=
  is_some_and (strip_prefix "/texture/" path) (λ hash,
    negb (is_empty hash) && (str_len hash <=? 128) && sforall any_hex hash).

Definition texture_url_ok (raw : string) : bool :=
  is_some_and (texture_url_parse raw) (λ url,
    char_in ["https"; "http"] (texture_scheme url) &&
    opt_eqb (texture_host url) "textures.minecraft.net" && is_none (texture_port url) &&
    is_empty (texture_username url) && is_none (texture_password url) &&
    is_none (texture_query url) && is_none (texture_fragment url) &&
    texture_hash_ok (texture_path url)).

(** [validate_profile]; its error is not inspected here. *)
Definition validate_profile (profile : MinecraftProfile) : bool :=
  is_some_and (uuid_canonical (profile_id profile)) (λ id, negb (str_eqb id nil_uuid)) &&
  negb (is_empty (profile_name profile)) && (str_len (profile_name profile) <=? 16) &&
  sforall name_char (profile_name profile) &&
  (length (skins profile) <=? 128)%nat && (length (capes profile) <=? 128)%nat &&
  forallb texture_url_ok ((skin_url <$> skins profile) ++ (cape_url <$> capes profile)).
End accounts.
