(* ===== verification/AccountDirectory.v ===== *)
(** * The account directory ([core/app/src/accounts/directory.rs], [selection.rs])

    The tables of accounts, the validated snapshot they are read as, the
    mutations on it with their compare-and-set preconditions, and the captures
    that are validated against a later snapshot. *)

From S2P Require Import Prelude RustStr RustText Effect SettingsModel Storage AccountModel.

Open Scope string_scope.
Open Scope list_scope.
Open Scope Z_scope.

(** ** Tables *)

Record AccountRow := { row_json : string; row_owns : Z }.
Record SelectionRow := { sel_revision : Z; sel_active : option string; sel_mode : string }.

Record AccountTables := {
  account_directory : gmap string AccountRow;
  account_selection : option SelectionRow;
}.

(** The tables as the migration [accounts-directory-v1] creates them. *)
Definition migrated_accounts : AccountTables := {|
  account_directory := ∅;
  account_selection := Some {| sel_revision := 0; sel_active := None; sel_mode := "offline" |} |}.

Inductive AccountStatement :=
| SelectSelection | SelectAccounts | DeleteAccount | UpsertAccount | UpdateAccountSelection
| SelectSelectionBack | SelectAccountsBack.

(** serde_json on records, which leaves the ownership of the game out. *)
Class AccountJson := {
  account_to_string : AccountRecord → option string;
  account_from_str : string → option AccountRecord;
  profile_to_vec : MinecraftProfile → option string;
}.

Definition set_owns (a : AccountRecord) (owns : bool) : AccountRecord := {|
  account_id := account_id a; account_kind := account_kind a; display_name := display_name a;
  login_id := login_id a; minecraft_profile_id := minecraft_profile_id a;
  offline_uuid_field := offline_uuid_field a; minecraft_profile := minecraft_profile a;
  owns_minecraft_java := owns; account_revision := account_revision a;
  profile_revision := profile_revision a; credential_revision := credential_revision a;
  created_revision := created_revision a; created_at := created_at a; updated_at := updated_at a |}.

Section accounts.
Context `{UuidParser} `{AccountParsers} `{AccountJson}.

(** ** Snapshots *)

Definition kind_order (kind : AccountKind) : Z :=
  match kind with MicrosoftAccount => 0 | OfflineAccount => 1 end.

Definition account_cmp (a b : AccountRecord) : comparison :=
  then_with (Z.compare (kind_order (account_kind a)) (kind_order (account_kind b)))
    (then_with (str_cmp (created_at a) (created_at b))
      (then_with (str_cmp (display_name a) (display_name b))
        (str_cmp (account_id a) (account_id b)))).

Definition sort_accounts : list AccountRecord → list AccountRecord := sort_by account_cmp.

Definition invalid_microsoft : AccountError :=
  AccountInvalidInput "Microsoft account identity is invalid.".

Definition validate_microsoft (identity : MicrosoftIdentity) : result AccountError AccountId :=
  parsed ← microsoft_account_id (ms_profile_id identity);
  id ← account_id_parse parsed;
  err_if (is_none_or (uuid_canonical (ms_login_id identity)) (λ login, str_eqb login nil_uuid) ||
          negb (validate_profile (ms_profile identity)) ||
          negb (str_eqb (profile_name (ms_profile identity)) (ms_display_name identity)))
    invalid_microsoft ;;
  profile ← microsoft_account_id (profile_id (ms_profile identity));
  err_if (negb (str_eqb profile id) || (ms_credential_revision identity =? 0) ||
          (MAX_SAFE_REVISION <? ms_credential_revision identity)) invalid_microsoft ;;
  bytes ← ok_or InvalidStoredData (profile_to_vec (ms_profile identity));
  err_if (131072 <? str_len bytes) (AccountInvalidInput "Minecraft profile is too large.") ;;
  Ok id.

Definition valid_timestamp (value : string) : bool := (str_len value <=? 64) && rfc3339_valid value.

Definition revisions_ok (revision : Z) (a : AccountRecord) : bool :=
  negb ((account_revision a =? 0) || (revision <? account_revision a) || (profile_revision a =? 0) ||
        (account_revision a <? profile_revision a) || (created_revision a =? 0) ||
        (account_revision a <? created_revision a) || negb (valid_timestamp (created_at a)) ||
        negb (valid_timestamp (updated_at a))).

(** The identity that a stored Microsoft account stands for. *)
Definition identity_of (a : AccountRecord) : option MicrosoftIdentity :=
  login ← login_id a;
  profile_id ← minecraft_profile_id a;
  profile ← minecraft_profile a;
  Some {| ms_login_id := login; ms_profile_id := profile_id; ms_display_name := display_name a;
          ms_credential_revision := credential_revision a; ms_profile := profile;
          ms_owns_minecraft_java := owns_minecraft_java a |}.

Definition identity_ok (a : AccountRecord) : bool :=
  match account_kind a with
  | OfflineAccount =>
      match account_validate_username (display_name a) with
      | Err _ => false
      | Ok name =>
          let uuid := offline_uuid (display_name a) in
          str_eqb (display_name a) name && str_eqb (account_id a) ("offline-" +:+ uuid) &&
          opt_eqb (offline_uuid_field a) uuid && is_none (login_id a) &&
          is_none (minecraft_profile_id a) && is_none (minecraft_profile a) &&
          (credential_revision a =? 0) && negb (owns_minecraft_java a)
      end
  | MicrosoftAccount =>
      match identity_of a with
      | None => false
      | Some identity =>
          match validate_microsoft identity with
          | Ok id => str_eqb id (account_id a) && is_none (offline_uuid_field a)
          | Err _ => false
          end
      end
  end.

Definition selection_ok (s : AccountSnapshot) : bool :=
  match active_account_id s, active_account s with
  | Some _, None => false
  | _, Some a => bool_decide (launch_auth_mode s = launch_mode (account_kind a))
  | None, None => bool_decide (launch_auth_mode s = ModeOffline)
  end.

Definition validate_snapshot (s : AccountSnapshot) : result AccountError unit :=
  err_if ((MAX_ACCOUNTS <? length (accounts s))%nat || (MAX_SAFE_REVISION <? directory_revision s) ||
          negb (selection_revision s =? directory_revision s)) InvalidStoredData ;;
  err_if (negb (forallb (λ a, revisions_ok (directory_revision s) a && identity_ok a) (accounts s)))
    InvalidStoredData ;;
  err_if (negb (selection_ok s)) InvalidStoredData.

(** ** Reading *)

Definition mode_text (mode : LaunchAuthMode) : string :=
  match mode with ModeOffline => "offline" | ModeOnline => "online" end.

Definition mode_of_text (text : string) : result AccountError LaunchAuthMode :=
  if str_eqb text "offline" then Ok ModeOffline
  else if str_eqb text "online" then Ok ModeOnline
  else Err InvalidStoredData.

Definition decode_account (kr : string * AccountRow) : result AccountError AccountRecord :=
  err_if (262144 <? str_len (row_json kr.2)) InvalidStoredData ;;
  a ← ok_or InvalidStoredData (account_from_str (row_json kr.2));
  owns ← (if row_owns kr.2 =? 0 then Ok false
          else if row_owns kr.2 =? 1 then Ok true else Err InvalidStoredData);
  err_if (negb (str_eqb (account_id a) kr.1)) InvalidStoredData ;;
  Ok (set_owns a owns).

(** A snapshot of the rows that were selected, whose revision is unsigned. *)
Definition assemble (sel : SelectionRow) (rows : list (string * AccountRow))
    : result AccountError AccountSnapshot :=
  decoded ← try_map decode_account rows;
  active ← match sel_active sel with
           | None => Ok None
           | Some id => parsed ← map_err (λ _, InvalidStoredData) (account_id_parse id); Ok (Some parsed)
           end;
  mode ← mode_of_text (sel_mode sel);
  let s := {| directory_revision := sel_revision sel; selection_revision := sel_revision sel;
              active_account_id := active; launch_auth_mode := mode;
              accounts := sort_accounts decoded |} in
  validate_snapshot s ;;
  Ok s.

Section transaction.
Context (fault : AccountStatement → option StorageError).

Definition account_statement {A} (s : AccountStatement)
    (run : AccountTables → result AccountError A * AccountTables) : eff AccountTables AccountError A := λ t,
  match fault s with
  | Some _ => (Err AccountStorage, t)
  | None => run t
  end.

Definition read_snapshot (first second : AccountStatement)
    : eff AccountTables AccountError AccountSnapshot :=
  sel ← account_statement first (λ t, (Ok (account_selection t), t));
  sel ← lift (ok_or AccountStorage sel);
  lift (err_if (sel_revision sel <? 0) AccountStorage) ;;
  rows ← account_statement second (λ t, (Ok (take 257 (map_to_list (account_directory t))), t));
  lift (assemble sel rows).

Definition set_directory (t : AccountTables) (rows : gmap string AccountRow) : AccountTables :=
  {| account_directory := rows; account_selection := account_selection t |}.

Definition same_id (a b : AccountRecord) : bool := str_eqb (account_id a) (account_id b).

Definition delete_account (id : AccountId) : eff AccountTables AccountError unit :=
  account_statement DeleteAccount (λ t, (Ok tt, set_directory t (delete id (account_directory t)))).

(** The constraint on the length of a record is SQLite's. *)
Definition upsert_account (a : AccountRecord) : eff AccountTables AccountError unit :=
  json ← lift (ok_or InvalidStoredData (account_to_string a));
  account_statement UpsertAccount (λ t,
    if (262144 <? Z.of_nat (chars_count json)) then (Err AccountStorage, t)
    else (Ok tt, set_directory t (<[account_id a :=
           {| row_json := json; row_owns := if owns_minecraft_java a then 1 else 0 |}]>
           (account_directory t)))).

Definition selection_row (s : AccountSnapshot) : SelectionRow := {|
  sel_revision := directory_revision s; sel_active := active_account_id s;
  sel_mode := mode_text (launch_auth_mode s) |}.

(** The number of rows changed. *)
Definition update_account_selection (s : AccountSnapshot) : eff AccountTables AccountError nat :=
  account_statement UpdateAccountSelection (λ t,
    match account_selection t with
    | None => (Ok 0%nat, t)
    | Some _ => (Ok 1%nat, {| account_directory := account_directory t;
                              account_selection := Some (selection_row s) |})
    end).

Definition write_snapshot (before next : AccountSnapshot) : eff AccountTables AccountError unit :=
  eff_fold (λ _ a, delete_account (account_id a)) tt
    (filter (λ a, existsb (same_id a) (accounts next) = false) (accounts before)) ;;
  eff_fold (λ _ a, upsert_account a) tt (filter (λ a, a ∉ accounts before) (accounts next)) ;;
  changed ← update_account_selection next;
  lift (err_if (negb (changed =? 1)%nat) InvalidStoredData) ;;
  saved ← read_snapshot SelectSelectionBack SelectAccountsBack;
  lift (err_if (negb (bool_decide (saved = next))) InvalidStoredData).

Definition Mutation : Type := AccountSnapshot → Z → result AccountError AccountSnapshot.

(** The revision a mutation of the snapshot would have. *)
Definition next_account_revision (s : AccountSnapshot) : result AccountError Z :=
  ok_or InvalidStoredData
    (next ← checked_add_u64 (directory_revision s) 1;
     if next <=? MAX_SAFE_REVISION then Some next else None).

Definition commit_snapshot (s : AccountSnapshot) (revision : Z) : AccountSnapshot :=
  set_accounts (set_revision s revision) (sort_accounts (accounts s)).

Definition mutate_transaction (mutation : Mutation) : eff AccountTables AccountError AccountSnapshot :=
  before ← read_snapshot SelectSelection SelectAccounts;
  revision ← lift (next_account_revision before);
  next ← lift (mutation before revision);
  if bool_decide (next = before) then mret before
  else
    let next := commit_snapshot next revision in
    lift (validate_snapshot next) ;;
    write_snapshot before next ;;
    mret next.
End transaction.

(** ** Mutations *)

Definition position (s : AccountSnapshot) (id : AccountId) : result AccountError nat :=
  ok_or AccountNotFound (fst <$> list_find (λ a, account_id a = id) (accounts s)).

Definition check_preconditions (s : AccountSnapshot) (id : option AccountId)
    (expected : AccountPreconditions) : result AccountError unit :=
  err_if (is_some_and (expected_selection_revision expected)
            (λ revision, negb (revision =? selection_revision s))) StaleCapture ;;
  match expected_account_revision expected with
  | None => Ok tt
  | Some revision =>
      id ← ok_or (AccountInvalidInput "An account identity is required for this precondition.") id;
      index ← position s id;
      err_if (is_none_or (accounts s !! index) (λ a, negb (account_revision a =? revision)))
        StaleCapture
  end.

Definition check_capacity (s : AccountSnapshot) : result AccountError unit :=
  err_if (MAX_ACCOUNTS <=? length (accounts s))%nat
    (AccountInvalidInput "Remove an account before adding another.").

Definition select_identity (s : AccountSnapshot) (id : option AccountId) : AccountSnapshot := {|
  directory_revision := directory_revision s; selection_revision := selection_revision s;
  active_account_id := id;
  launch_auth_mode := default ModeOffline
    (id ← id; a ← List.find (has_account_id id) (accounts s); Some (launch_mode (account_kind a)));
  accounts := accounts s |}.

Definition is_offline (a : AccountRecord) : bool := bool_decide (account_kind a = OfflineAccount).

(** [remove_identity], of an index within the accounts. *)
Definition remove_identity (s : AccountSnapshot) (index : nat) : AccountSnapshot :=
  match accounts s !! index with
  | None => s
  | Some removed =>
      let s := set_accounts s (delete index (accounts s)) in
      if bool_decide (active_account_id s = Some (account_id removed))
      then select_identity s (account_id <$> List.find is_offline (accounts s))
      else s
  end.

Definition new_offline (now : string) (revision : Z) (name : string) (id : AccountId) : AccountRecord := {|
  account_id := id; account_kind := OfflineAccount; display_name := name; login_id := None;
  minecraft_profile_id := None; offline_uuid_field := Some (offline_uuid name);
  minecraft_profile := None; owns_minecraft_java := false; account_revision := revision;
  profile_revision := revision; credential_revision := 0; created_revision := revision;
  created_at := now; updated_at := now |}.

Definition create_offline (now name : string) (expected : AccountPreconditions) : Mutation := λ s revision,
  check_preconditions s None expected ;;
  id ← account_id_parse (offline_id name);
  s ← (if existsb (has_account_id id) (accounts s) then Ok s
       else
         check_capacity s ;;
         Ok (set_accounts s (accounts s ++ [new_offline now revision name id])));
  Ok (select_identity s (Some id)).

Definition renamed (now : string) (revision : Z) (id : AccountId) (name : string) (a : AccountRecord)
    : AccountRecord := {|
  account_id := id; account_kind := account_kind a; display_name := name; login_id := login_id a;
  minecraft_profile_id := minecraft_profile_id a; offline_uuid_field := Some (offline_uuid name);
  minecraft_profile := minecraft_profile a; owns_minecraft_java := owns_minecraft_java a;
  account_revision := revision; profile_revision := revision;
  credential_revision := credential_revision a; created_revision := created_revision a;
  created_at := created_at a; updated_at := now |}.

Definition rename_offline (now : string) (id : AccountId) (name : string) : Mutation := λ s revision,
  index ← position s id;
  a ← ok_or AccountNotFound (accounts s !! index);
  err_if (negb (is_offline a)) NotOffline ;;
  if str_eqb (display_name a) name then Ok s
  else
    next_id ← account_id_parse (offline_id name);
    err_if (existsb (has_account_id next_id) (accounts s)) AccountExists ;;
    let s' := set_accounts s (<[index := renamed now revision next_id name a]> (accounts s)) in
    Ok (if bool_decide (active_account_id s = Some id) then select_identity s' (Some next_id) else s').

Definition select_account (id : AccountId) (expected : AccountPreconditions) : Mutation := λ s _,
  check_preconditions s (Some id) expected ;;
  position s id ;;
  Ok (select_identity s (Some id)).

Definition remove_offline (id : AccountId) (expected : AccountPreconditions) : Mutation := λ s _,
  check_preconditions s (Some id) expected ;;
  index ← position s id;
  a ← ok_or AccountNotFound (accounts s !! index);
  err_if (negb (is_offline a)) NotOffline ;;
  Ok (remove_identity s index).

Definition microsoft_record (now : string) (revision : Z) (id : AccountId)
    (identity : MicrosoftIdentity) (simple : string) (prior : option AccountRecord) : AccountRecord := {|
  account_id := id; account_kind := MicrosoftAccount; display_name := ms_display_name identity;
  login_id := Some (ms_login_id identity); minecraft_profile_id := Some simple;
  offline_uuid_field := None; minecraft_profile := Some (ms_profile identity);
  owns_minecraft_java := ms_owns_minecraft_java identity; account_revision := revision;
  profile_revision :=
    match prior with
    | Some a => if bool_decide (minecraft_profile a = Some (ms_profile identity))
                then profile_revision a else revision
    | None => revision
    end;
  credential_revision := ms_credential_revision identity;
  created_revision := default revision (created_revision <$> prior);
  created_at := default now (created_at <$> prior); updated_at := now |}.

Definition upsert_microsoft (now : string) (id : AccountId) (identity : MicrosoftIdentity)
    : Mutation := λ s revision,
  let existing := list_find (λ a, account_id a = id) (accounts s) in
  err_if (is_none existing && (MAX_ACCOUNTS <=? length (accounts s))%nat)
    (AccountInvalidInput "Remove an account before adding another.") ;;
  err_if (existsb (λ a, negb (has_account_id id a) && opt_eqb (login_id a) (ms_login_id identity))
            (accounts s)) AccountExists ;;
  let prior := snd <$> existing in
  err_if (is_some_and prior (λ a, ms_credential_revision identity <? credential_revision a))
    StaleCapture ;;
  hyphenated ← ok_or InvalidStoredData (uuid_canonical (ms_profile_id identity));
  let record := microsoft_record now revision id identity (uuid_simple hyphenated) prior in
  Ok (set_accounts s (match existing with
                      | Some (index, _) => <[index := record]> (accounts s)
                      | None => accounts s ++ [record]
                      end)).

Definition commit_microsoft_in (now : string) (expected_selection : Z) (id : AccountId)
    (identity : MicrosoftIdentity) : Mutation := λ s revision,
  check_preconditions s None {| expected_selection_revision := Some expected_selection;
                                expected_account_revision := None |} ;;
  s ← upsert_microsoft now id identity s revision;
  Ok (select_identity s (Some id)).

(** Called in the transactions of the settings. *)
Definition sync_active_offline_username (now name : string) : Mutation := λ s revision,
  match active_account s with
  | None => Ok s
  | Some active =>
      if negb (is_offline active) then Ok s
      else
        next_id ← account_id_parse (offline_id name);
        if existsb (has_account_id next_id) (accounts s) then Ok (select_identity s (Some next_id))
        else rename_offline now (account_id active) name s revision
  end.

Definition mode_is (mode : LaunchAuthMode) (a : AccountRecord) : bool :=
  bool_decide (launch_mode (account_kind a) = mode).

Definition select_launch_mode (mode : LaunchAuthMode) : Mutation := λ s _,
  if bool_decide (mode = ModeOffline) && is_none (active_account_id s) then Ok s
  else if is_some_and (active_account s) (mode_is mode) then Ok s
  else
    a ← ok_or NoSelection (List.find (mode_is mode) (accounts s));
    Ok (select_identity s (Some (account_id a))).

(** ** Captures *)

Record CapturedAccount := {
  captured_record : AccountRecord;
  captured_revision : Z;
  captured_selected : option AccountId;
  captured_mode : LaunchAuthMode;
}.

Definition capture_new (s : AccountSnapshot) (id : string) : result AccountError CapturedAccount :=
  id ← account_id_parse id;
  record ← ok_or AccountNotFound (List.find (has_account_id id) (accounts s));
  Ok {| captured_record := record; captured_revision := selection_revision s;
        captured_selected := active_account_id s; captured_mode := launch_auth_mode s |}.

Definition is_selected (c : CapturedAccount) : bool :=
  bool_decide (captured_selected c = Some (account_id (captured_record c))).

Definition capture_validate_account (c : CapturedAccount) (s : AccountSnapshot)
    : result AccountError unit :=
  err_if (negb (bool_decide (captured_record c ∈ accounts s))) StaleCapture.

Definition capture_validate (c : CapturedAccount) (s : AccountSnapshot) : result AccountError unit :=
  err_if (negb (captured_revision c =? selection_revision s) ||
          negb (bool_decide (captured_selected c = active_account_id s)) ||
          negb (bool_decide (captured_mode c = launch_auth_mode s)) ||
          negb (bool_decide (captured_record c ∈ accounts s))) StaleCapture.

(** [CapturedSelection], which may be of no account at all. *)
Record CapturedSelection := {
  selection_account : option CapturedAccount;
  selection_captured_revision : Z;
}.

Definition selection_capture (s : AccountSnapshot) : result AccountError CapturedSelection :=
  account ← match active_account_id s with
            | None => Ok None
            | Some id => c ← capture_new s id; Ok (Some c)
            end;
  err_if (is_none account && negb (bool_decide (launch_auth_mode s = ModeOffline))) NoSelection ;;
  Ok {| selection_account := account; selection_captured_revision := selection_revision s |}.

Definition from_account (c : CapturedAccount) : CapturedSelection :=
  {| selection_account := Some c; selection_captured_revision := captured_revision c |}.

Definition selection_validate (c : CapturedSelection) (s : AccountSnapshot)
    : result AccountError unit :=
  match selection_account c with
  | Some account => capture_validate account s
  | None =>
      err_if (negb (selection_revision s =? selection_captured_revision c) ||
              negb (is_none (active_account_id s)) ||
              negb (bool_decide (launch_auth_mode s = ModeOffline))) StaleCapture
  end.

Definition refresh_microsoft_in (now : string) (c : CapturedAccount) (id : AccountId)
    (identity : MicrosoftIdentity) (selection_bound : bool) : Mutation := λ s revision,
  (if selection_bound then capture_validate c s else capture_validate_account c s) ;;
  err_if (ms_credential_revision identity <? credential_revision (captured_record c)) StaleCapture ;;
  upsert_microsoft now id identity s revision.

(** Removal of a captured Microsoft account; an invalidation is bound to the
    selection. *)
Definition remove_microsoft_in (c : CapturedAccount) (selection_bound : bool) : Mutation := λ s _,
  (if selection_bound then capture_validate c s else capture_validate_account c s) ;;
  index ← position s (account_id (captured_record c));
  Ok (remove_identity s index).

(** ** The directory *)

Definition Accounts : Type := MetadataStore AccountTables.
Definition AccountCall : Type := SqliteCall * (AccountStatement → option StorageError).

Definition snapshot (c : AccountCall) (store : Accounts)
    : result AccountError AccountSnapshot * Accounts :=
  read_callback (λ _, AccountStorage) c.1
    (λ t, (read_snapshot c.2 SelectSelection SelectAccounts t).1) store.

Definition mutate (c : AccountCall) (mutation : Mutation) (store : Accounts)
    : result AccountError AccountSnapshot * Accounts :=
  transaction (λ _, AccountStorage) c.1 (mutate_transaction c.2 mutation) store.

(** The checks that a command makes before its transaction, and its mutation. *)
Inductive AccountCommand :=
| CreateOffline (username : string) (expected : AccountPreconditions)
| RenameOffline (id username : string) (expected : AccountPreconditions)
| Select (id : string) (expected : AccountPreconditions)
| RemoveOffline (id : string) (expected : AccountPreconditions)
| CommitMicrosoft (expected_selection : Z) (identity : MicrosoftIdentity)
| RefreshMicrosoft (c : CapturedAccount) (identity : MicrosoftIdentity) (selection_bound : bool)
| RemoveMicrosoft (c : CapturedAccount) (selection_bound : bool)
| SyncActiveOfflineUsername (username : string)
| SelectLaunchMode (mode : LaunchAuthMode).

Definition is_microsoft (c : CapturedAccount) : bool :=
  bool_decide (account_kind (captured_record c) = MicrosoftAccount).

Definition command_mutation (now : string) (cmd : AccountCommand) : result AccountError Mutation :=
  match cmd with
  | CreateOffline username expected =>
      name ← account_validate_username username; Ok (create_offline now name expected)
  | RenameOffline id username expected =>
      name ← account_validate_username username;
      id ← account_id_parse id;
      Ok (λ s revision,
        check_preconditions s (Some id) expected ;; rename_offline now id name s revision)
  | Select id expected => id ← account_id_parse id; Ok (select_account id expected)
  | RemoveOffline id expected => id ← account_id_parse id; Ok (remove_offline id expected)
  | CommitMicrosoft expected_selection identity =>
      id ← validate_microsoft identity; Ok (commit_microsoft_in now expected_selection id identity)
  | RefreshMicrosoft c identity selection_bound =>
      id ← validate_microsoft identity;
      err_if (negb (is_microsoft c)) NotMicrosoft ;;
      err_if (negb (str_eqb (account_id (captured_record c)) id) ||
              negb (opt_eqb (login_id (captured_record c)) (ms_login_id identity))) StaleCapture ;;
      Ok (refresh_microsoft_in now c id identity selection_bound)
  | RemoveMicrosoft c selection_bound =>
      err_if (negb (is_microsoft c)) NotMicrosoft ;;
      Ok (remove_microsoft_in c selection_bound)
  | SyncActiveOfflineUsername username =>
      name ← account_validate_username username; Ok (sync_active_offline_username now name)
  | SelectLaunchMode mode => Ok (select_launch_mode mode)
  end.

Definition run_account_command (c : AccountCall) (now : string) (cmd : AccountCommand) (store : Accounts)
    : result AccountError AccountSnapshot * Accounts :=
  match command_mutation now cmd with
  | Err e => (Err e, store)
  | Ok mutation => mutate c mutation store
  end.

(** [commit_microsoft] and [refresh_microsoft] return a capture of the identity. *)
Definition captured_command (c : AccountCall) (now : string) (cmd : AccountCommand)
    (identity : MicrosoftIdentity) (store : Accounts) : result AccountError CapturedAccount * Accounts :=
  let '(r, store) := run_account_command c now cmd store in
  (s ← r; id ← validate_microsoft identity; capture_new s id, store).

(** [capture], [validate_capture] and [validate_account_capture]. *)
Definition capture (c : AccountCall) (id : string) (store : Accounts)
    : result AccountError CapturedAccount * Accounts :=
  let '(r, store) := snapshot c store in (s ← r; capture_new s id, store).

Definition validate_capture (c : AccountCall) (captured : CapturedAccount) (store : Accounts)
    : result AccountError unit * Accounts :=
  let '(r, store) := snapshot c store in (s ← r; capture_validate captured s, store).

Definition validate_account_capture (c : AccountCall) (captured : CapturedAccount) (store : Accounts)
    : result AccountError unit * Accounts :=
  let '(r, store) := snapshot c store in (s ← r; capture_validate_account captured s, store).

(** [with_selected_account], which admits work under the metadata lock. *)
Definition with_selected_account {T} (c : AccountCall) (expected_account_id : string)
    (expected_selection : Z) (accept : CapturedAccount → T) (store : Accounts)
    : result AccountError T * Accounts :=
  read_callback (λ _, AccountStorage) c.1 (λ t,
    s ← (read_snapshot c.2 SelectSelection SelectAccounts t).1;
    err_if (negb (selection_revision s =? expected_selection) ||
            negb (opt_eqb (active_account_id s) expected_account_id)) StaleCapture ;;
    capture ← capture_new s expected_account_id;
    Ok (accept capture)) store.

Definition capture_selected (c : AccountCall) (store : Accounts)
    : result AccountError CapturedAccount * Accounts :=
  let '(r, store) := snapshot c store in
  (s ← r; id ← ok_or NoSelection (active_account_id s); capture_new s id, store).

Definition selection_in (t : AccountTables) : result AccountError (option (string * LaunchAuthMode)) :=
  s ← (read_snapshot (λ _, None) SelectSelection SelectAccounts t).1;
  Ok ((λ a, (display_name a, launch_mode (account_kind a))) <$> active_account s).
End accounts.
