(* ===== verification/AccountProps.v ===== *)
(** * What the mutations of the account directory keep

    The validity that every read checks, stated of a snapshot, and that every
    mutation of the directory keeps it: the check before a write never fails. *)

From S2P Require Import Prelude RustStr RustText Effect SettingsModel Storage AccountModel AccountDirectory.

Open Scope string_scope.
Open Scope list_scope.
Open Scope Z_scope.

(** Documented behaviour of the [uuid] and [md-5] crates: the hyphenated form
    is of hexadecimal digits and hyphens, is its own canonical form and that of
    its simple form; a digest has sixteen bytes. *)
Class IdentityLaws `{UuidParser, AccountParsers} : Prop := {
  canonical_bytes s h :
    uuid_canonical s = Some h → sforall (λ c, lower_hex c || Ascii.eqb c "-") h = true;
  canonical_idemp s h : uuid_canonical s = Some h → uuid_canonical h = Some h;
  canonical_simple s h : uuid_canonical s = Some h → uuid_canonical (uuid_simple h) = Some h;
  md5_length s : String.length (md5 s) = 16%nat;
}.

(** ** Bytes *)

Lemma edit_byte_length i f l : length (edit_byte i f l) = length l.
Proof. apply length_alter. Qed.

Lemma bytes_of_text l : bytes_of (text_of l) = l.
Proof.
  induction l as [|c l IH]; [done|]. change (text_of (c :: l)) with (String c (text_of l)).
  simpl. by rewrite IH.
Qed.

Lemma bytes_of_length s : length (bytes_of s) = String.length s.
Proof. induction s as [|c s IH]; [done|]. simpl. by rewrite IH. Qed.

Lemma hex_digit_lower n : (n < 16)%N → lower_hex (hex_digit n) = true.
Proof.
  intros Hn. rewrite <-(N2Nat.id n). assert (N.to_nat n ∈ seq 0 16) as Hin by (apply elem_of_seq; lia).
  revert Hin. generalize (N.to_nat n). apply list.Forall_forall. repeat constructor.
Qed.

Lemma hex_string_spec s :
  sforall lower_hex (hex_string s) = true ∧ String.length (hex_string s) = (2 * String.length s)%nat.
Proof.
  unfold hex_string. induction s as [|c s [IH1 IH2]]; [done|].
  cbn [bytes_of fmap list_fmap str_concat hex_byte String.append sforall String.length].
  pose proof (byte_n_bound c) as Hc. split.
  - rewrite !hex_digit_lower; [exact IH1| |].
    + by apply N.mod_lt.
    + apply N.Div0.div_lt_upper_bound. lia.
  - rewrite IH2. lia.
Qed.

Section props.
Context `{IdentityLaws} `{AccountJson}.
Implicit Types (s : AccountSnapshot) (a : AccountRecord).

(** ** Identities *)

Lemma offline_uuid_spec name :
  sforall lower_hex (offline_uuid name) = true ∧ str_len (offline_uuid name) = 32.
Proof.
  unfold offline_uuid. split; [apply hex_string_spec|]. unfold str_len.
  rewrite (proj2 (hex_string_spec _)). rewrite <-bytes_of_length, bytes_of_text, !edit_byte_length.
  rewrite bytes_of_length, md5_length. done.
Qed.

Lemma offline_prefix uuid : strip_prefix "offline-" ("offline-" +:+ uuid) = Some uuid.
Proof. by apply strip_prefix_spec. Qed.

Lemma parse_offline_id name : account_id_parse (offline_id name) = Ok (offline_id name).
Proof.
  unfold account_id_parse, offline_id. rewrite offline_prefix.
  destruct (offline_uuid_spec name) as [-> ->]. done.
Qed.

Lemma canonical_not_offline x h : uuid_canonical x = Some h → strip_prefix "offline-" h = None.
Proof.
  intros Hh. apply canonical_bytes in Hh. destruct (strip_prefix "offline-" h) as [r|] eqn:E; [|done].
  apply strip_prefix_spec in E. subst. done.
Qed.

Lemma parse_canonical x h : uuid_canonical x = Some h → account_id_parse h = Ok h.
Proof.
  intros Hh. unfold account_id_parse. rewrite (canonical_not_offline x h Hh).
  by rewrite (canonical_idemp x h Hh).
Qed.

Lemma account_username_ok raw name :
  account_validate_username raw = Ok name → name = trim raw ∧ account_validate_username name = Ok name.
Proof.
  unfold account_validate_username. intros Hv. ok_inv. subst. split; [done|].
  rewrite trim_idemp. repeat match goal with E : _ = _ |- _ => rewrite E; clear E end. done.
Qed.

Lemma validate_microsoft_ok identity id :
  validate_microsoft identity = Ok id → uuid_canonical (ms_profile_id identity) = Some id.
Proof.
  unfold validate_microsoft, microsoft_account_id. intros Hv. ok_inv. subst.
  match goal with Hu : _ = Some ?x, Hp : account_id_parse ?x = _ |- _ =>
    rewrite (parse_canonical _ _ Hu) in Hp; injection Hp as <-; exact Hu end.
Qed.

(** ** Validity *)

Definition account_ok (r : Z) (a : AccountRecord) : Prop := revisions_ok r a = true ∧ identity_ok a = true.

(** The accounts of a snapshot of revision [r]. *)
Record records_ok (r : Z) (l : list AccountRecord) : Prop := {
  rec_capacity : (length l ≤ MAX_ACCOUNTS)%nat;
  rec_ids : NoDup (account_id <$> l);
  rec_accounts : Forall (account_ok r) l;
}.

(** The selection is of an account that is there, with its launch mode. *)
Definition selected_ok s : Prop :=
  match active_account_id s with
  | None => launch_auth_mode s = ModeOffline
  | Some id =>
      ∃ a, a ∈ accounts s ∧ account_id a = id ∧ launch_auth_mode s = launch_mode (account_kind a)
  end.

Record snapshot_ok s : Prop := {
  ok_revision : 0 ≤ directory_revision s ≤ MAX_SAFE_REVISION;
  ok_selection : selection_revision s = directory_revision s;
  ok_records : records_ok (directory_revision s) (accounts s);
  ok_selected : selected_ok s;
  ok_sorted : sort_accounts (accounts s) = accounts s;
}.

Lemma revisions_ok_spec r a :
  revisions_ok r a = true ↔
  0 ≠ account_revision a ∧ account_revision a ≤ r ∧
  0 ≠ profile_revision a ∧ profile_revision a ≤ account_revision a ∧
  0 ≠ created_revision a ∧ created_revision a ≤ account_revision a ∧
  valid_timestamp (created_at a) = true ∧ valid_timestamp (updated_at a) = true.
Proof.
  unfold revisions_ok. rewrite negb_true_iff, !orb_false_iff, !negb_false_iff, !Z.eqb_neq, !Z.ltb_ge.
  split; intros Ha; (decompose [and] Ha; split_and!; (done || lia)).
Qed.

Lemma records_ok_mono r r' l : records_ok r l → r ≤ r' → records_ok r' l.
Proof.
  intros [Hc Hi Ha] Hr. split; [done|done|]. eapply list.Forall_impl; [exact Ha|].
  intros a [Hv Hid]. split; [|done]. apply revisions_ok_spec in Hv. apply revisions_ok_spec.
  decompose [and] Hv. split_and!; (done || lia).
Qed.

(** *** Looking accounts up *)

Lemma has_account_id_spec id a : has_account_id id a = true ↔ account_id a = id.
Proof. apply str_eqb_spec. Qed.

Lemma existsb_id id l : existsb (has_account_id id) l = true ↔ id ∈ account_id <$> l.
Proof.
  rewrite existsb_exists, list_elem_of_fmap. setoid_rewrite <-list_elem_of_In.
  setoid_rewrite has_account_id_spec. naive_solver.
Qed.

Lemma existsb_id_false id l : existsb (has_account_id id) l = false ↔ id ∉ account_id <$> l.
Proof. rewrite <-existsb_id. by destruct (existsb _ _). Qed.

Lemma find_id id l a :
  NoDup (account_id <$> l) →
  List.find (has_account_id id) l = Some a ↔ a ∈ l ∧ account_id a = id.
Proof.
  intros Hnd. split.
  - intros [Hin Hid]%find_some. rewrite <-list_elem_of_In in Hin. by apply has_account_id_spec in Hid.
  - intros [Hin Hid]. destruct (List.find _ _) as [b|] eqn:E.
    + apply find_some in E as [Hb Eb]. rewrite <-list_elem_of_In in Hb. apply has_account_id_spec in Eb.
      f_equal. apply (NoDup_fmap_inj account_id l); congruence.
    + apply list_elem_of_In in Hin. apply (find_none _ _ E) in Hin.
      by apply has_account_id_spec in Hid; rewrite Hin in Hid.
Qed.

Lemma position_ok s id i :
  position s id = Ok i → ∃ a, accounts s !! i = Some a ∧ account_id a = id.
Proof.
  unfold position. intros Hp. ok_inv. apply fmap_Some in Hp as ([j a] & Hf & ->).
  apply list_find_Some in Hf as (Hl & Hid & _). by exists a.
Qed.

Lemma active_account_spec s a :
  NoDup (account_id <$> accounts s) →
  active_account s = Some a ↔ a ∈ accounts s ∧ active_account_id s = Some (account_id a).
Proof.
  intros Hnd. unfold active_account. destruct (active_account_id s) as [id|]; simpl.
  - rewrite find_id by done. naive_solver.
  - naive_solver.
Qed.

Lemma select_identity_ok s id :
  NoDup (account_id <$> accounts s) →
  match id with Some id => id ∈ account_id <$> accounts s | None => True end →
  selected_ok (select_identity s id).
Proof.
  intros Hnd. unfold selected_ok. destruct id as [id|]; [|done]. cbn [select_identity active_account_id].
  intros (a & -> & Ha)%list_elem_of_fmap. exists a. split_and!; [done|done|]. simpl.
  by rewrite (proj2 (find_id (account_id a) (accounts s) a Hnd)).
Qed.

(** *** Changing the records *)

Lemma insert_split {A} (l : list A) i x y :
  l !! i = Some x → ∃ l1 l2, l = l1 ++ x :: l2 ∧ <[i := y]> l = l1 ++ y :: l2.
Proof.
  intros Hi. exists (take i l), (drop (S i) l). split.
  - symmetry. by apply take_drop_middle.
  - apply insert_take_drop. by eapply lookup_lt_Some.
Qed.

Lemma records_replace r l i a b :
  records_ok r l → l !! i = Some a → account_ok r b →
  account_id b = account_id a ∨ account_id b ∉ account_id <$> l →
  records_ok r (<[i := b]> l).
Proof.
  intros [Hc Hi Ha] Hl Hb Hid. destruct (insert_split l i a b Hl) as (l1 & l2 & -> & E).
  rewrite E. clear E Hl. split.
  - by rewrite length_app in *.
  - rewrite !fmap_app, !fmap_cons in *. rewrite Permutation_app_comm in Hi |- *. simpl in *.
    apply list.NoDup_cons in Hi as [Hn Hi]. apply list.NoDup_cons. split; [|done].
    destruct Hid as [->|Hid]; [done|]. set_solver.
  - apply list.Forall_app in Ha as [Ha1 Ha2]. apply list.Forall_cons in Ha2 as [_ Ha2].
    by apply list.Forall_app; split; [|apply list.Forall_cons].
Qed.

Lemma records_add r l b :
  records_ok r l → (length l < MAX_ACCOUNTS)%nat → account_ok r b →
  account_id b ∉ account_id <$> l → records_ok r (l ++ [b]).
Proof.
  intros [Hc Hi Ha] Hlen Hb Hid. split.
  - rewrite length_app. simpl. lia.
  - rewrite fmap_app. apply list.NoDup_app. split_and!; [done| |apply list.NoDup_singleton]. set_solver.
  - apply list.Forall_app. split; [done|]. by apply list.Forall_singleton.
Qed.

Lemma records_sublist r l k : sublist k l → records_ok r l → records_ok r k.
Proof.
  intros Hk [Hc Hi Ha]. split.
  - apply sublist_length in Hk. lia.
  - eapply sublist_NoDup; [exact Hi|]. by apply fmap_sublist.
  - apply list.Forall_forall. intros a Hin. eapply list.Forall_forall; [exact Ha|]. by eapply elem_of_sublist.
Qed.

Lemma records_perm r l k : k ≡ₚ l → records_ok r l → records_ok r k.
Proof. intros Hk [Hc Hi Ha]. split; by rewrite Hk. Qed.

Lemma elem_of_insert_or {A} (l : list A) i x y : y ∈ <[i := x]> l → y = x ∨ y ∈ l.
Proof.
  intros [j Hj]%list_elem_of_lookup. apply list_lookup_insert_Some in Hj as [(_ & -> & _)|[_ Hj]]; [by left|].
  right. by eapply list_elem_of_lookup_2.
Qed.

(** *** Mutations keep validity *)

(** What a mutation under revision [r] may make of a snapshot: valid records
    and selection, and each record as it was or of that revision. *)
Record draft_of (r : Z) s n : Prop := {
  draft_records : records_ok r (accounts n);
  draft_selected : selected_ok n;
  draft_changed : ∀ a, a ∈ accounts n → a ∈ accounts s ∨ account_revision a = r;
}.

Definition after s : Z := directory_revision s + 1.

Definition keeps_valid (m : Mutation) : Prop :=
  ∀ s n, snapshot_ok s → m s (after s) = Ok n → draft_of (after s) s n.

Lemma valid_records s : snapshot_ok s → records_ok (after s) (accounts s).
Proof. intros Hs. eapply records_ok_mono; [apply Hs|unfold after; lia]. Qed.

Lemma after_pos s : snapshot_ok s → 0 < after s ∧ directory_revision s ≤ after s.
Proof. intros Hs. pose proof (ok_revision _ Hs). unfold after. lia. Qed.

Lemma valid_ids s : snapshot_ok s → NoDup (account_id <$> accounts s).
Proof. intros Hs. apply Hs. Qed.

Lemma draft_same s : snapshot_ok s → draft_of (after s) s s.
Proof. intros Hs. split; [by apply valid_records|apply Hs|by left]. Qed.

(** Selecting an identity of a draft. *)
Lemma draft_select r s n id :
  records_ok r (accounts n) → (∀ a, a ∈ accounts n → a ∈ accounts s ∨ account_revision a = r) →
  match id with Some id => id ∈ account_id <$> accounts n | None => True end →
  draft_of r s (select_identity n id).
Proof. intros Hr Hc Hid. split; [done|by apply select_identity_ok; [apply Hr|]|done]. Qed.

Lemma select_draft s id :
  snapshot_ok s → id ∈ account_id <$> accounts s →
  draft_of (after s) s (select_identity s (Some id)).
Proof. intros Hs Hid. apply draft_select; [by apply valid_records|by left|done]. Qed.

Lemma identity_ok_offline a :
  account_kind a = OfflineAccount →
  identity_ok a = true ↔
  account_validate_username (display_name a) = Ok (display_name a) ∧
  account_id a = offline_id (display_name a) ∧
  offline_uuid_field a = Some (offline_uuid (display_name a)) ∧ login_id a = None ∧
  minecraft_profile_id a = None ∧ minecraft_profile a = None ∧ credential_revision a = 0 ∧
  owns_minecraft_java a = false.
Proof.
  intros Ek. unfold identity_ok, offline_id. rewrite Ek. destruct (account_validate_username _) as [name|] eqn:En.
  2: { split; [done|]. naive_solver. }
  rewrite !andb_true_iff, !str_eqb_spec, opt_eqb_spec, negb_true_iff, Z.eqb_eq.
  unfold is_none. split; intros Ha.
  - decompose [and] Ha. destruct (login_id a), (minecraft_profile_id a), (minecraft_profile a); try done.
    split_and!; congruence.
  - destruct Ha as ([= ->] & ? & ? & -> & -> & -> & ? & ?). by split_and!.
Qed.

Lemma new_offline_ok now r name :
  valid_timestamp now = true → 0 < r → account_validate_username name = Ok name →
  account_ok r (new_offline now r name (offline_id name)).
Proof.
  intros Hnow Hr Hname. split; [apply revisions_ok_spec; simpl; split_and!; (done || lia)|].
  by apply identity_ok_offline.
Qed.

Lemma renamed_ok now r r0 name a :
  valid_timestamp now = true → 0 < r → account_validate_username name = Ok name →
  account_kind a = OfflineAccount → account_ok r0 a → r0 ≤ r →
  account_ok r (renamed now r (offline_id name) name a).
Proof.
  intros Hnow Hr Hname Ek [Hv Hid] Hle. apply revisions_ok_spec in Hv. split.
  - apply revisions_ok_spec. simpl. decompose [and] Hv. split_and!; (done || lia).
  - apply identity_ok_offline in Hid as (_ & _ & _ & ? & ? & ? & ? & ?); [|done].
    by apply identity_ok_offline.
Qed.

Lemma create_offline_keeps now name expected :
  valid_timestamp now = true → account_validate_username name = Ok name →
  keeps_valid (create_offline now name expected).
Proof.
  intros Hnow Hname s n Hs. unfold create_offline. rewrite parse_offline_id. intros Hc. ok_inv.
  rename select (_ = Ok _) into Hn. destruct (existsb _ _) eqn:Ex; ok_inv.
  - apply existsb_id in Ex. by apply select_draft.
  - apply existsb_id_false in Ex. rename select (check_capacity _ = _) into Hcap. unfold check_capacity in Hcap.
    ok_inv. apply Nat.leb_gt in Hcap. pose proof (after_pos _ Hs). apply draft_select; cbn [accounts set_accounts].
    + apply records_add; [by apply valid_records|done| |done].
      apply new_offline_ok; [done|lia|done].
    + intros a [Ha|Ha%list_elem_of_singleton]%elem_of_app; [by left|right; by subst].
    + rewrite fmap_app. apply elem_of_app. right. by left.
Qed.

(** A record that was replaced. *)
Lemma draft_replace s i a b :
  snapshot_ok s → accounts s !! i = Some a → account_ok (after s) b →
  account_revision b = after s → account_id b = account_id a ∨ account_id b ∉ account_id <$> accounts s →
  records_ok (after s) (<[i := b]> (accounts s)) ∧
  (∀ c, c ∈ <[i := b]> (accounts s) → c ∈ accounts s ∨ account_revision c = after s) ∧
  b ∈ <[i := b]> (accounts s) ∧ ∀ c, c ∈ accounts s → account_id c ≠ account_id a → c ∈ <[i := b]> (accounts s).
Proof.
  intros Hs Hi Hb Eb Hid. split_and!.
  - eapply records_replace; try done. by apply valid_records.
  - intros c [->|Hc]%elem_of_insert_or; auto.
  - apply (list_elem_of_lookup_2 _ i), list_lookup_insert_eq. by eapply lookup_lt_Some.
  - intros c [j Hj]%list_elem_of_lookup Hne. apply (list_elem_of_lookup_2 _ j).
    rewrite list_lookup_insert_ne; [done|]. intros ->. congruence.
Qed.

Lemma selected_keep s l :
  selected_ok s →
  (∀ c, c ∈ accounts s → active_account_id s = Some (account_id c) →
    ∃ c', c' ∈ l ∧ account_id c' = account_id c ∧ account_kind c' = account_kind c) →
  selected_ok (set_accounts s l).
Proof.
  unfold selected_ok. cbn [active_account_id launch_auth_mode accounts set_accounts].
  destruct (active_account_id s) as [id|]; [|done]. intros (a & Ha & <- & Em) Hk.
  destruct (Hk a Ha eq_refl) as (c & Hc & Ei & Ek). exists c. by rewrite Ek.
Qed.

Lemma is_offline_spec a : is_offline a = true ↔ account_kind a = OfflineAccount.
Proof. apply bool_decide_eq_true. Qed.

Lemma account_ok_in s a : snapshot_ok s → a ∈ accounts s → account_ok (directory_revision s) a.
Proof. intros Hs Ha. eapply list.Forall_forall; [|exact Ha]. apply Hs. Qed.

Lemma rename_offline_keeps now id name :
  valid_timestamp now = true → account_validate_username name = Ok name →
  keeps_valid (rename_offline now id name).
Proof.
  intros Hnow Hname s n Hs. unfold rename_offline. rewrite parse_offline_id. intros Hc. ok_inv.
  rename select (position _ _ = _) into Hp. apply position_ok in Hp as (a & Hi & <-).
  rename select (accounts s !! _ = Some _) into Hi'. rewrite Hi in Hi'. injection Hi' as <-.
  rename select (is_offline _ = _) into Hk. apply is_offline_spec in Hk.
  destruct (str_eqb _ _); ok_inv; [by apply draft_same|].
  rename select (existsb _ _ = _) into Ex. apply existsb_id_false in Ex.
  pose proof (list_elem_of_lookup_2 _ _ _ Hi) as Hin. pose proof (after_pos _ Hs).
  destruct (draft_replace s x a (renamed now (after s) (offline_id name) name a)) as (Hrec & Hch & Hnew & Hold);
    try done; [|by right|].
  { eapply renamed_ok; [done|lia|done|done|by apply account_ok_in|lia]. }
  case_bool_decide as Eact.
  - apply draft_select; [done|done|]. by eapply (list_elem_of_fmap_2 account_id) in Hnew.
  - split; [done| |done]. apply selected_keep; [apply Hs|]. intros c Hc Hact. exists c. split; [|done].
    apply Hold; [done|]. intros E. apply Eact. by rewrite Hact, E.
Qed.

Lemma select_account_keeps id expected : keeps_valid (select_account id expected).
Proof.
  intros s n Hs. unfold select_account. intros Hc. ok_inv.
  rename select (position _ _ = _) into Hp. apply position_ok in Hp as (a & Hi & <-).
  apply select_draft; [done|]. apply list_elem_of_fmap. exists a. split; [done|].
  by eapply list_elem_of_lookup_2.
Qed.

Lemma remove_identity_keeps s i :
  snapshot_ok s → draft_of (after s) s (remove_identity s i).
Proof.
  intros Hs. unfold remove_identity. destruct (accounts s !! i) as [a|] eqn:Hi; [|by apply draft_same].
  pose proof (sublist_delete (accounts s) i) as Hsub.
  assert (records_ok (after s) (delete i (accounts s))) as Hrec by (eapply records_sublist; [done|by apply valid_records]).
  assert (∀ c, c ∈ delete i (accounts s) → c ∈ accounts s ∨ account_revision c = after s) as Hch.
  { intros c Hc. left. by eapply elem_of_sublist. }
  case_bool_decide as Eact.
  - apply draft_select; [done|done|]. destruct (List.find _ _) as [b|] eqn:Ef; [|done].
    apply find_some in Ef as [Hb _]. apply list_elem_of_In in Hb. simpl. by apply list_elem_of_fmap_2.
  - split; [done| |done]. apply selected_keep; [apply Hs|]. intros c Hc Hact. exists c. split; [|done].
    apply list_elem_of_lookup in Hc as [j Hj]. rewrite delete_take_drop.
    rewrite <-(take_drop_middle _ _ _ Hi) in Hj. apply list_elem_of_lookup_2 in Hj.
    apply elem_of_app in Hj as [Hj|[->|Hj]%elem_of_cons]; [set_solver|by destruct Eact|set_solver].
Qed.

Lemma remove_offline_keeps id expected : keeps_valid (remove_offline id expected).
Proof. intros s n Hs. unfold remove_offline. intros Hc. ok_inv. by apply remove_identity_keeps. Qed.

Lemma remove_microsoft_keeps c selection_bound : keeps_valid (remove_microsoft_in c selection_bound).
Proof. intros s n Hs. unfold remove_microsoft_in. intros Hc. ok_inv. by apply remove_identity_keeps. Qed.

Lemma sync_keeps now name :
  valid_timestamp now = true → account_validate_username name = Ok name →
  keeps_valid (sync_active_offline_username now name).
Proof.
  intros Hnow Hname s n Hs. unfold sync_active_offline_username. rewrite parse_offline_id.
  destruct (active_account s) as [a|]; [|intros [= <-]; by apply draft_same].
  destruct (negb _); [intros [= <-]; by apply draft_same|]. simpl.
  destruct (existsb _ _) eqn:Ex; [|by apply rename_offline_keeps].
  intros [= <-]. apply existsb_id in Ex. by apply select_draft.
Qed.

Lemma select_launch_mode_keeps mode : keeps_valid (select_launch_mode mode).
Proof.
  intros s n Hs. unfold select_launch_mode. destruct (_ && _); [intros [= <-]; by apply draft_same|].
  destruct (is_some_and _ _); [intros [= <-]; by apply draft_same|]. intros Hc. ok_inv.
  rename select (List.find _ _ = _) into Hf. apply find_some in Hf as [Hin%list_elem_of_In _].
  apply select_draft; [done|]. by apply list_elem_of_fmap_2.
Qed.

(** A Microsoft record is validated again from the simple form of its profile's
    identity. *)
Lemma validate_microsoft_simple identity id :
  validate_microsoft identity = Ok id →
  validate_microsoft {| ms_login_id := ms_login_id identity; ms_profile_id := uuid_simple id;
    ms_display_name := ms_display_name identity; ms_credential_revision := ms_credential_revision identity;
    ms_profile := ms_profile identity; ms_owns_minecraft_java := ms_owns_minecraft_java identity |} = Ok id.
Proof.
  intros Hv. pose proof (validate_microsoft_ok _ _ Hv) as Hu. revert Hv.
  unfold validate_microsoft, microsoft_account_id. cbn [ms_login_id ms_profile_id ms_display_name
    ms_credential_revision ms_profile]. by rewrite (canonical_simple _ _ Hu), Hu.
Qed.

Lemma microsoft_record_ok now r r0 id identity prior :
  valid_timestamp now = true → 0 < r → r0 ≤ r → validate_microsoft identity = Ok id →
  match prior with Some a => account_ok r0 a | None => True end →
  account_ok r (microsoft_record now r id identity (uuid_simple id) prior).
Proof.
  intros Hnow Hr Hle Hv Hp. split.
  - apply revisions_ok_spec. simpl. destruct prior as [a|]; simpl; [|split_and!; (done || lia)].
    destruct Hp as [Hp _]. apply revisions_ok_spec in Hp. decompose [and] Hp.
    case_bool_decide; split_and!; (done || lia).
  - unfold identity_ok, identity_of. simpl. rewrite validate_microsoft_simple by done.
    by rewrite (proj2 (str_eqb_spec id id)).
Qed.

(** An account of a Microsoft identity is no offline one. *)
Lemma microsoft_kind a identity id :
  identity_ok a = true → validate_microsoft identity = Ok id → account_id a = id →
  account_kind a = MicrosoftAccount.
Proof.
  intros Ha Hv <-. destruct (account_kind a) eqn:Ek; [|done]. exfalso.
  apply identity_ok_offline in Ha as (_ & Hid & _); [|done]. apply validate_microsoft_ok in Hv.
  apply canonical_not_offline in Hv. rewrite Hid in Hv. unfold offline_id in Hv. by rewrite offline_prefix in Hv.
Qed.

Lemma upsert_microsoft_keeps now id identity :
  valid_timestamp now = true → validate_microsoft identity = Ok id →
  keeps_valid (upsert_microsoft now id identity) ∧
  ∀ s r n, upsert_microsoft now id identity s r = Ok n → id ∈ account_id <$> accounts n.
Proof.
  intros Hnow Hv. pose proof (validate_microsoft_ok _ _ Hv) as Hu. split.
  - intros s n Hs. unfold upsert_microsoft. rewrite Hu. intros Hc. ok_inv.
    match goal with E : Some _ = Some _ |- _ => injection E as <- end. pose proof (after_pos _ Hs).
    destruct (list_find _ _) as [[i a]|] eqn:Ef; simpl.
    + apply list_find_Some in Ef as (Hi & Eid & _). pose proof (list_elem_of_lookup_2 _ _ _ Hi) as Hin.
      pose proof (account_ok_in _ _ Hs Hin) as Ha.
      destruct (draft_replace s i a (microsoft_record now (after s) id identity (uuid_simple id) (Some a)))
        as (Hrec & Hch & Hnew & Hold); try done; [|by left|].
      { apply (microsoft_record_ok _ _ (directory_revision s)); (done || lia). }
      split; [done| |done]. apply selected_keep; [apply Hs|]. intros c Hc _.
      destruct (decide (account_id c = account_id a)) as [Ec|Hne]; [|by exists c; split; [apply Hold|]].
      assert (c = a) as -> by (eapply (NoDup_fmap_inj account_id); [by apply valid_ids|done..]).
      eexists. split; [exact Hnew|]. split; [done|]. by rewrite (microsoft_kind a identity id); [|apply Ha|..].
    + rename select (_ && _ = false) into Hcap. apply list_find_None in Ef.
      assert (length (accounts s) < MAX_ACCOUNTS)%nat as Hlen by (by apply Nat.leb_gt).
      assert (id ∉ account_id <$> accounts s) as Hid.
      { intros (a & -> & Ha)%list_elem_of_fmap. by eapply list.Forall_forall in Ef. }
      split.
      * apply records_add; [by apply valid_records|done| |done].
        apply (microsoft_record_ok _ _ (directory_revision s)); (done || lia).
      * apply selected_keep; [apply Hs|]. intros c Hc _. exists c. split; [|done]. apply elem_of_app. by left.
      * intros a [Ha|Ha%list_elem_of_singleton]%elem_of_app; [by left|right; by subst].
  - intros s r n. unfold upsert_microsoft. rewrite Hu. intros Hc. ok_inv.
    match goal with E : Some _ = Some _ |- _ => injection E as <- end. apply list_elem_of_fmap.
    exists (microsoft_record now r id identity (uuid_simple id) (snd <$> list_find (λ a, account_id a = id) (accounts s))).
    split; [done|]. destruct (list_find _ _) as [[i a]|] eqn:Ef; simpl; [|apply elem_of_app; right; by left].
    apply list_find_Some in Ef as (Hi & _). apply (list_elem_of_lookup_2 _ i), list_lookup_insert_eq.
    by eapply lookup_lt_Some.
Qed.

(** The mutation of every command keeps the directory valid. *)
Lemma command_keeps now cmd m :
  valid_timestamp now = true → command_mutation now cmd = Ok m → keeps_valid m.
Proof.
  intros Hnow. destruct cmd as [username expected|raw username expected|raw expected|raw expected
    |selection identity|c identity bound|c bound|username|mode]; simpl; intros Hc.
  - ok_inv. rename select (account_validate_username _ = _) into Hn. apply account_username_ok in Hn as [-> Hn].
    by apply create_offline_keeps.
  - ok_inv. rename select (account_validate_username _ = _) into Hn. apply account_username_ok in Hn as [-> Hn].
    intros s n Hs Hm. ok_inv. by eapply rename_offline_keeps.
  - ok_inv. apply select_account_keeps.
  - ok_inv. apply remove_offline_keeps.
  - ok_inv. intros s n Hs. unfold commit_microsoft_in. intros Hm. ok_inv.
    rename select (validate_microsoft _ = _) into Hv. destruct (upsert_microsoft_keeps now _ _ Hnow Hv) as [Hk Hin].
    rename select (upsert_microsoft _ _ _ _ _ = _) into Hup. destruct (Hk _ _ Hs Hup) as [Hr _ Hch].
    apply draft_select; [done|done|]. by eapply Hin.
  - ok_inv. intros s n Hs. unfold refresh_microsoft_in. intros Hm.
    rename select (validate_microsoft _ = _) into Hv. destruct (upsert_microsoft_keeps now _ _ Hnow Hv) as [Hk _].
    apply bind_ok_unit in Hm as [_ Hm]. ok_inv. by apply Hk.
  - ok_inv. apply remove_microsoft_keeps.
  - ok_inv. rename select (account_validate_username _ = _) into Hn. apply account_username_ok in Hn as [-> Hn].
    by apply sync_keeps.
  - ok_inv. apply select_launch_mode_keeps.
Qed.

(** *** Committing *)

Lemma account_cmp_total : CmpPreorder account_cmp ∧ ∀ a b, account_cmp a b = Eq → account_id a = account_id b.
Proof.
  split.
  - change account_cmp with (cmp_then (cmp_on (λ a, kind_order (account_kind a)) Z.compare)
      (cmp_then (cmp_on created_at str_cmp) (cmp_then (cmp_on display_name str_cmp) (cmp_on account_id str_cmp)))).
    apply _.
  - intros a b. unfold account_cmp, then_with. destruct (Z.compare _ _); [|done..].
    destruct (str_cmp _ _); [|done..]. destruct (str_cmp _ _); [|done..]. apply (cmp_eq str_cmp).
Qed.

#[local] Instance account_cmp_preorder : CmpPreorder account_cmp := proj1 account_cmp_total.

Lemma sort_accounts_idemp l : sort_accounts (sort_accounts l) = sort_accounts l.
Proof. apply sort_by_id, sort_by_sorted, _. Qed.

(** What a directory of distinct accounts is sorted to does not depend on the
    order in which they are read. *)
Lemma sort_accounts_perm l k : NoDup (account_id <$> l) → l ≡ₚ k → sort_accounts l = sort_accounts k.
Proof.
  intros Hnd Hp. apply sort_by_unique; [apply _| |done]. intros a b Ha Hb E%account_cmp_total.
  by eapply (NoDup_fmap_inj account_id).
Qed.

Lemma commit_snapshot_ok s n :
  snapshot_ok s → draft_of (after s) s n → after s ≤ MAX_SAFE_REVISION → snapshot_ok (commit_snapshot n (after s)).
Proof.
  intros Hs [Hr Hsel _] Hmax. pose proof (after_pos _ Hs). split; cbn [commit_snapshot set_accounts set_revision
    directory_revision selection_revision accounts]; [lia|done| | |apply sort_accounts_idemp].
  - eapply records_perm; [apply sort_by_perm|done].
  - apply selected_keep; [exact Hsel|]. intros c Hc _. exists c. split; [|done]. unfold sort_accounts.
    by rewrite sort_by_perm.
Qed.
End props.
