(* ===== verification/AccountHistory.v ===== *)
(** * The directory of accounts over its history

    The tables stand for a valid snapshot; a command without faults does to
    it exactly what its mutation says, and over any interleaving of commands,
    with failures, what a capture remembers decides whether it still holds. *)

From S2P Require Import Prelude RustStr RustText Effect SettingsModel Storage AccountModel AccountDirectory.
From S2P Require Import AccountProps.

Open Scope string_scope.
Open Scope list_scope.
Open Scope Z_scope.

(** serde_json writes a record so that it is read again, without the ownership
    of the game, which is a column of its own. *)
Class AccountJsonLaws `{UuidParser, AccountParsers, AccountJson} : Prop :=
  account_roundtrip a json :
    identity_ok a = true → account_to_string a = Some json →
    account_from_str json = Some (set_owns a false).

(** A fold of [Some] results. *)
Lemma try_map_exists {E A B} (f : A → result E B) (P : B → Prop) l :
  (∀ x, x ∈ l → ∃ y, P y ∧ f x = Ok y) → ∃ k, try_map f l = Ok k ∧ Forall P k.
Proof.
  induction l as [|x l IH]; intros Hl; [by exists []|].
  destruct (Hl x) as (y & Hy & Ey); [left|]. destruct IH as (k & Ek & Hk); [intros z Hz; apply Hl; by right|].
  exists (y :: k). simpl. rewrite Ey. simpl. rewrite Ek. split; [done|by constructor].
Qed.

Section history.
Context `{IdentityLaws} `{!AccountJson} `{!AccountJsonLaws}.
Implicit Types (s n : AccountSnapshot) (a : AccountRecord) (t : AccountTables) (d : gmap string AccountRow).

(** ** What the tables stand for *)

Definition stored t s : Prop := (read_snapshot (λ _, None) SelectSelection SelectAccounts t).1 = Ok s.

(** Each account is in a row that decodes to it, and no other row is there. *)
Record rows_hold d (l : list AccountRecord) : Prop := {
  rh_each a : a ∈ l → ∃ row, d !! account_id a = Some row ∧ decode_account (account_id a, row) = Ok a;
  rh_only id : is_Some (d !! id) → id ∈ account_id <$> l;
}.

Lemma decode_account_id kr a : decode_account kr = Ok a → account_id a = kr.1.
Proof. unfold decode_account. intros Hd. ok_inv. subst. by apply str_eqb_spec. Qed.

Lemma decoded_ids L k : try_map decode_account L = Ok k → account_id <$> k = L.*1.
Proof.
  rewrite try_map_ok. induction 1 as [|kr a L k Ha _ IH]; [done|].
  rewrite !fmap_cons. f_equal; [by apply decode_account_id|exact IH].
Qed.

Lemma rows_hold_decoded d l :
  rows_hold d l → NoDup (account_id <$> l) → ∃ k, try_map decode_account (map_to_list d) = Ok k ∧ k ≡ₚ l.
Proof.
  intros [He Ho] Hnd.
  destruct (try_map_exists decode_account (λ a, a ∈ l) (map_to_list d)) as (k & Ek & Hk).
  { intros [id row] Hin%elem_of_map_to_list. destruct (proj1 (list_elem_of_fmap _ _ _) (Ho id ltac:(by eexists)))
      as (a & -> & Ha). destruct (He a Ha) as (row' & Hrow & Hd). exists a. split; [done|].
    rewrite Hrow in Hin. injection Hin as <-. exact Hd. }
  exists k. split; [done|]. pose proof (decoded_ids _ _ Ek) as Eids. apply NoDup_Permutation.
  - apply (NoDup_fmap_1 account_id). rewrite Eids. apply NoDup_fst_map_to_list.
  - by apply NoDup_fmap_1 in Hnd.
  - intros a. split; [intros Ha; by eapply list.Forall_forall in Hk|]. intros Ha.
    destruct (He a Ha) as (row & Hrow & Hd). apply elem_of_map_to_list in Hrow. apply try_map_ok in Ek.
    apply list_elem_of_lookup in Hrow as [i Hi]. eapply Forall2_lookup_l in Ek as (b & Hb & Eb); [|exact Hi].
    rewrite Hd in Eb. injection Eb as <-. by eapply list_elem_of_lookup_2.
Qed.

Lemma decoded_rows_hold d k : try_map decode_account (map_to_list d) = Ok k → rows_hold d k.
Proof.
  intros Ek. pose proof (decoded_ids _ _ Ek) as Eids. apply try_map_ok in Ek. split.
  - intros a [i Hi]%list_elem_of_lookup. eapply Forall2_lookup_r in Ek as ([id row] & Hr & Hd); [|exact Hi].
    apply list_elem_of_lookup_2, elem_of_map_to_list in Hr. pose proof (decode_account_id _ _ Hd) as E. simpl in E.
    subst id. by exists row.
  - intros id [row Hr]. rewrite Eids. apply elem_of_map_to_list in Hr. by apply (list_elem_of_fmap_2 fst) in Hr.
Qed.

Lemma rows_hold_perm d l k : l ≡ₚ k → rows_hold d l → rows_hold d k.
Proof. intros Hp [He Ho]. split; intros x; rewrite <-Hp; auto. Qed.

Lemma rows_count d l : rows_hold d l → NoDup (account_id <$> l) → length (map_to_list d) = length l.
Proof.
  intros Hr Hnd. destruct (rows_hold_decoded d l Hr Hnd) as (k & Ek & Hp). rewrite <-Hp.
  apply decoded_ids in Ek. by rewrite <-(length_fmap account_id k), Ek, length_fmap.
Qed.

(** *** Validation *)

Lemma selection_ok_spec s :
  NoDup (account_id <$> accounts s) → selection_ok s = true ↔ selected_ok s.
Proof.
  intros Hnd. unfold selection_ok, selected_ok. pose proof (λ a, active_account_spec s a Hnd) as Ha.
  destruct (active_account_id s) as [id|] eqn:Eid.
  - destruct (active_account s) as [a|].
    + destruct (proj1 (Ha a) eq_refl) as [Hin [= ->]]. rewrite bool_decide_eq_true. split; [eauto|].
      intros (b & Hb & E & Em).
      by assert (a = b) as -> by (by apply (NoDup_fmap_inj account_id (accounts s))).
    + split; [done|]. intros (a & Hin & <- & _). discriminate (proj2 (Ha a) (conj Hin eq_refl)).
  - destruct (active_account s) as [a|]; [by destruct (proj1 (Ha a) eq_refl)|].
    apply bool_decide_eq_true.
Qed.

Lemma validate_snapshot_spec s :
  NoDup (account_id <$> accounts s) →
  validate_snapshot s = Ok tt ↔
  directory_revision s ≤ MAX_SAFE_REVISION ∧ selection_revision s = directory_revision s ∧
  records_ok (directory_revision s) (accounts s) ∧ selected_ok s.
Proof.
  intros Hnd. unfold validate_snapshot. rewrite !bind_ok_unit, !err_if_ok, !orb_false_iff, !negb_false_iff.
  rewrite selection_ok_spec by done. rewrite Nat.ltb_ge, Z.ltb_ge, Z.eqb_eq, forallb_forall.
  split.
  - intros (((Hl & Hr) & Hs) & Ha & Hsel). split_and!; [done|done| |done]. split; [done|done|].
    apply list.Forall_forall. intros a Hin%list_elem_of_In. apply Ha in Hin. by apply andb_true_iff in Hin.
  - intros (Hr & Hs & [Hl _ Ha] & Hsel). split_and!; try done. intros a Hin%list_elem_of_In.
    apply andb_true_iff. by eapply list.Forall_forall in Ha.
Qed.

(** The identity of a valid account is one that parses to itself. *)
Lemma account_id_stable a : identity_ok a = true → account_id_parse (account_id a) = Ok (account_id a).
Proof.
  intros Ha. destruct (account_kind a) eqn:Ek.
  - apply identity_ok_offline in Ha as (_ & -> & _); [|done]. apply parse_offline_id.
  - unfold identity_ok in Ha. rewrite Ek in Ha. destruct (identity_of a) as [identity|]; [|done].
    destruct (validate_microsoft identity) as [id|] eqn:Ev; [|done]. apply andb_true_iff in Ha as [Ha _].
    apply str_eqb_spec in Ha. apply validate_microsoft_ok in Ev. subst id. by eapply parse_canonical.
Qed.

(** ** Reading *)

(** The only statement that can run is the one that does not fail. *)
Lemma account_statement_ok {A} fault stmt (run : AccountTables → result AccountError A * AccountTables) t x t' :
  account_statement fault stmt run t = (Ok x, t') → run t = (Ok x, t').
Proof. unfold account_statement. by destruct (fault stmt). Qed.

(** A read does the same under every fault that lets it through. *)
Lemma read_snapshot_ok fault first second t s t' :
  read_snapshot fault first second t = (Ok s, t') → t' = t ∧ stored t s.
Proof.
  intros Hr. unfold read_snapshot in Hr. apply eff_bind_ok in Hr as (o & t1 & Ho & Hr).
  apply account_statement_ok in Ho. injection Ho as <- <-.
  apply eff_bind_ok in Hr as (sel & t1 & [Hsel <-]%lift_ok & Hr). apply ok_or_ok in Hsel.
  apply eff_bind_ok in Hr as ([] & t1 & [Hrev <-]%lift_ok & Hr).
  apply eff_bind_ok in Hr as (rows & t1 & Hrows & Hr). apply account_statement_ok in Hrows. injection Hrows as <- <-.
  apply lift_ok in Hr as [Ha ->]. split; [done|]. unfold stored, read_snapshot, account_statement, mbind, eff_bind.
  cbn. rewrite Hsel. cbn. rewrite Hrev. cbn. exact Ha.
Qed.

Lemma stored_read t s :
  stored t s ↔
  ∃ sel, account_selection t = Some sel ∧ 0 ≤ sel_revision sel ∧
    assemble sel (take 257 (map_to_list (account_directory t))) = Ok s.
Proof.
  unfold stored, read_snapshot, account_statement, mbind, eff_bind, lift. cbn.
  destruct (account_selection t) as [sel|]; cbn; [|naive_solver]. unfold err_if.
  destruct (sel_revision sel <? 0) eqn:E; cbn; [|naive_solver lia]. split; [done|]. intros (? & [= <-] & ? & _). lia.
Qed.

Lemma stored_inj t s n : stored t s → stored t n → s = n.
Proof. unfold stored. congruence. Qed.

Lemma stored_sound t s :
  stored t s → snapshot_ok s ∧ rows_hold (account_directory t) (accounts s) ∧ is_Some (account_selection t).
Proof.
  intros (sel & Hsel & Hrev & Ha)%stored_read. unfold assemble in Ha. ok_inv.
  rename select (try_map _ _ = _) into Hd. rename select (validate_snapshot _ = _) into Hv. cbn in *.
  rename x into k.
  assert (sort_accounts k ≡ₚ k) as Hp by apply sort_by_perm.
  assert (NoDup (account_id <$> k)) as Hnd.
  { rewrite (decoded_ids _ _ Hd). eapply sublist_NoDup; [apply (NoDup_fst_map_to_list (account_directory t))|].
    apply fmap_sublist, sublist_take. }
  apply validate_snapshot_spec in Hv; [|cbn; by rewrite Hp]. cbn in Hv. destruct Hv as (Hmax & _ & Hr & Hs).
  split; [|split; [|by eexists]].
  - split; [done|done|done|done|apply sort_accounts_idemp].
  - eapply rows_hold_perm; [by symmetry|]. apply decoded_rows_hold.
    rewrite take_ge in Hd; [done|]. destruct (decide (257 ≤ length (map_to_list (account_directory t)))%nat); [|lia].
    pose proof (decoded_ids _ _ Hd) as E%(f_equal length). rewrite !length_fmap, length_take in E.
    destruct Hr as [Hc _ _]. rewrite Hp in Hc. unfold MAX_ACCOUNTS in Hc. lia.
Qed.

Lemma mode_of_text_roundtrip mode : mode_of_text (mode_text mode) = Ok mode.
Proof. by destruct mode. Qed.

Lemma stored_complete t s :
  snapshot_ok s → rows_hold (account_directory t) (accounts s) → account_selection t = Some (selection_row s) →
  stored t s.
Proof.
  intros Hs Hr Hsel. pose proof (valid_ids _ Hs) as Hnd. destruct Hs as [Hrev Hq Hrec Hact Hsort].
  apply stored_read. exists (selection_row s). split; [done|]. split; [apply Hrev|].
  rewrite take_ge. 2: { rewrite (rows_count _ _ Hr Hnd). pose proof (rec_capacity _ _ Hrec). unfold MAX_ACCOUNTS in *. lia. }
  destruct (rows_hold_decoded _ _ Hr Hnd) as (k & Ek & Hp). unfold assemble. rewrite Ek. cbn.
  assert (sort_accounts k = accounts s) as ->.
  { rewrite <-Hsort. symmetry. by apply sort_accounts_perm. }
  assert (match active_account_id s with
          | None => Ok None
          | Some id => parsed ← map_err (λ _, InvalidStoredData) (account_id_parse id); Ok (Some parsed)
          end = Ok (active_account_id s)) as ->.
  { unfold selected_ok in Hact. destruct (active_account_id s) as [id|]; [|done]. destruct Hact as (a & Ha & <- & _).
    rewrite account_id_stable; [done|]. pose proof (rec_accounts _ _ Hrec) as Hall.
    by eapply list.Forall_forall in Hall as [_ Hid]. }
  cbn. rewrite mode_of_text_roundtrip. cbn.
  destruct s as [dir sel active mode l]. cbn in *. subst sel.
  match goal with |- context [validate_snapshot ?n] => rewrite (proj2 (validate_snapshot_spec n Hnd)) end; [done|]. cbn. split_and!; (done || lia).
Qed.

(** ** Writing *)

Definition row_of a : AccountRow := {|
  row_json := default "" (account_to_string a); row_owns := if owns_minecraft_java a then 1 else 0 |}.

(** A record that fits the column. *)
Definition encodable a : Prop := ∃ json, account_to_string a = Some json ∧ str_len json ≤ 262144.

Definition removals s n : list AccountRecord :=
  filter (λ a, existsb (same_id a) (accounts n) = false) (accounts s).
Definition additions s n : list AccountRecord := filter (λ a, a ∉ accounts s) (accounts n).

Definition rows_after d s n : gmap string AccountRow :=
  foldl (λ d a, <[account_id a := row_of a]> d) (foldl (λ d a, delete (account_id a) d) d (removals s n))
    (additions s n).

Lemma lookup_deletes d l id :
  foldl (λ d a, delete (account_id a) d) d l !! id =
  if decide (id ∈ account_id <$> l) then None else d !! id.
Proof.
  revert d. induction l as [|a l IH]; intros d; [done|]. cbn [foldl]. rewrite IH, fmap_cons.
  destruct (decide (id = account_id a)) as [->|Hne].
  - rewrite lookup_delete_eq. rewrite (decide_True (P := account_id a ∈ account_id a :: _)) by left. by destruct (decide _).
  - rewrite lookup_delete_ne by done. destruct (decide (id ∈ account_id <$> l)) as [Hin|Hn].
    + by rewrite decide_True by (by right).
    + by rewrite decide_False by (by intros [->|?]%elem_of_cons).
Qed.

Lemma lookup_inserts d l id :
  NoDup (account_id <$> l) →
  (∀ a, a ∈ l → account_id a = id → foldl (λ d a, <[account_id a := row_of a]> d) d l !! id = Some (row_of a)) ∧
  (id ∉ account_id <$> l → foldl (λ d a, <[account_id a := row_of a]> d) d l !! id = d !! id).
Proof.
  revert d. induction l as [|b l IH]; intros d Hnd.
  { split; [by intros a ?%elem_of_nil|done]. }
  rewrite fmap_cons in *. apply list.NoDup_cons in Hnd as [Hb Hnd]. cbn [foldl].
  destruct (IH (<[account_id b := row_of b]> d) Hnd) as [IH1 IH2]. split.
  - intros a [->|Ha]%elem_of_cons E; [|by apply IH1]. subst id. rewrite IH2 by done. apply lookup_insert_eq.
  - intros [Hne Hn]%not_elem_of_cons. rewrite IH2 by done. by apply lookup_insert_ne.
Qed.

Lemma same_id_spec a b : same_id a b = true ↔ account_id a = account_id b.
Proof. apply str_eqb_spec. Qed.

Lemma removals_ids s n id :
  id ∈ account_id <$> removals s n ↔ id ∈ account_id <$> accounts s ∧ id ∉ account_id <$> accounts n.
Proof.
  assert (∀ a, existsb (same_id a) (accounts n) = true ↔ account_id a ∈ account_id <$> accounts n) as Hex.
  { intros a. rewrite existsb_exists, list_elem_of_fmap. setoid_rewrite <-list_elem_of_In.
    setoid_rewrite same_id_spec. naive_solver. }
  unfold removals. rewrite !list_elem_of_fmap. setoid_rewrite list_elem_of_filter.
  setoid_rewrite <-not_true_iff_false. setoid_rewrite Hex. split.
  - intros (a & -> & Hn & Ha). split; [by exists a|]. by rewrite <-list_elem_of_fmap.
  - intros [(a & -> & Ha) Hn]. exists a. split_and!; [done| |done]. by rewrite list_elem_of_fmap.
Qed.

(** An added record decodes from its row, if and only if it fits. *)
Lemma row_of_decodes a : identity_ok a = true → encodable a → decode_account (account_id a, row_of a) = Ok a.
Proof.
  intros Hid (json & Ej & Hlen). unfold decode_account, row_of. cbn. rewrite Ej. cbn.
  rewrite (proj2 (Z.ltb_ge 262144 (str_len json))) by done. cbn. rewrite (account_roundtrip _ _ Hid Ej). cbn.
  assert ((if (if owns_minecraft_java a then 1 else 0) =? 0 then Ok false
           else if (if owns_minecraft_java a then 1 else 0) =? 1 then Ok true else Err InvalidStoredData)
          = @Ok AccountError _ (owns_minecraft_java a)) as -> by (by destruct (owns_minecraft_java a)).
  cbn. rewrite (proj2 (str_eqb_spec (account_id a) (account_id a)) eq_refl). cbn. by destruct a.
Qed.

Lemma decodes_encodable a json :
  account_to_string a = Some json → decode_account (account_id a, row_of a) = Ok a → encodable a.
Proof.
  intros Ej. unfold decode_account, row_of. cbn. rewrite Ej. cbn. intros Hd. ok_inv. exists json. split; [done|lia].
Qed.

Definition storable s n : Prop := ∀ a, a ∈ accounts n → a ∉ accounts s → encodable a.

Lemma additions_ids s n : NoDup (account_id <$> accounts n) → NoDup (account_id <$> additions s n).
Proof. intros Hn. eapply sublist_NoDup; [exact Hn|]. apply fmap_sublist, sublist_filter. Qed.

Lemma rows_after_hold d s n :
  rows_hold d (accounts s) → NoDup (account_id <$> accounts n) →
  Forall (λ a, identity_ok a = true) (accounts n) → storable s n → rows_hold (rows_after d s n) (accounts n).
Proof.
  intros [He Ho] Hn Hid Hst.
  pose proof (additions_ids s n Hn) as Ha.
  assert (∀ a, a ∈ additions s n ↔ a ∉ accounts s ∧ a ∈ accounts n) as Hadd
    by (intros a; unfold additions; by rewrite list_elem_of_filter).
  split.
  - intros a Hin. destruct (lookup_inserts (foldl (λ d a, delete (account_id a) d) d (removals s n)) _ (account_id a) Ha)
      as [Hins Hkeep]. destruct (decide (a ∈ accounts s)) as [Hold|Hnew].
    + destruct (He a Hold) as (row & Hrow & Hd). exists row. split; [|done]. unfold rows_after.
      rewrite Hkeep, lookup_deletes, decide_False; [done| |].
      * rewrite removals_ids. intros [_ Hno]. apply Hno. by apply list_elem_of_fmap_2.
      * intros (b & E & [Hb Hbn]%Hadd)%list_elem_of_fmap.
        by assert (a = b) as -> by (by apply (NoDup_fmap_inj account_id (accounts n))).
    + exists (row_of a). split; [by apply Hins; [apply Hadd|]|]. apply row_of_decodes; [|by apply Hst].
      by eapply list.Forall_forall in Hid.
  - intros id Hsome. destruct (decide (id ∈ account_id <$> additions s n)) as [Hin|Hout].
    + apply list_elem_of_fmap in Hin as (a & -> & [_ Hin]%Hadd). by apply list_elem_of_fmap_2.
    + unfold rows_after in Hsome. rewrite (proj2 (lookup_inserts _ _ id Ha) Hout), lookup_deletes in Hsome.
      destruct (decide _) as [|Hno]; [by destruct Hsome|]. apply Ho in Hsome.
      destruct (decide (id ∈ account_id <$> accounts n)); [done|]. by destruct Hno; apply removals_ids.
Qed.

Lemma chars_count_bytes text : (chars_count text ≤ String.length text)%nat.
Proof.
  unfold chars_count. induction text as [|c text IH]; simpl; [done|]. destruct (chars text) as [|ch l]; simpl in *; [lia|].
  destruct (starts_with_continuation ch); simpl; lia.
Qed.

Lemma set_directory_twice t d d' : set_directory (set_directory t d) d' = set_directory t d'.
Proof. done. Qed.

Lemma delete_fold l t :
  eff_fold (λ _ a, delete_account (λ _, None) (account_id a)) tt l t =
  (Ok tt, set_directory t (foldl (λ d a, delete (account_id a) d) (account_directory t) l)).
Proof.
  revert t. induction l as [|a l IH]; intros t; [by destruct t|]. cbn [eff_fold foldl]. unfold mbind, eff_bind.
  unfold delete_account at 1, account_statement at 1. rewrite IH. done.
Qed.

Lemma row_of_json a json :
  account_to_string a = Some json →
  row_of a = {| row_json := json; row_owns := if owns_minecraft_java a then 1 else 0 |}.
Proof. intros Ej. unfold row_of. by rewrite Ej. Qed.

Lemma upsert_fold l t :
  Forall encodable l →
  eff_fold (λ _ a, upsert_account (λ _, None) a) tt l t =
  (Ok tt, set_directory t (foldl (λ d a, <[account_id a := row_of a]> d) (account_directory t) l)).
Proof.
  intros Hl. revert t. induction Hl as [|a l (json & Ej & Hlen) _ IH]; intros t; [by destruct t|].
  cbn [eff_fold foldl]. unfold mbind, eff_bind. unfold upsert_account at 1, mbind, eff_bind, lift, account_statement.
  rewrite Ej. cbn. pose proof (chars_count_bytes json). unfold str_len in Hlen.
  rewrite (proj2 (Z.ltb_ge 262144 (Z.of_nat (chars_count json)))) by lia.
  by rewrite IH, (row_of_json a json Ej).
Qed.

Lemma upserts_ok l t u t' :
  eff_fold (λ _ a, upsert_account (λ _, None) a) tt l t = (Ok u, t') →
  Forall (λ a, is_Some (account_to_string a)) l ∧
  t' = set_directory t (foldl (λ d a, <[account_id a := row_of a]> d) (account_directory t) l).
Proof.
  revert t. induction l as [|a l IH]; intros t; cbn [eff_fold foldl].
  { intros [_ <-]%eff_ret_ok. split; [done|]. by destruct t. }
  intros ([] & t1 & Ha & Hl)%eff_bind_ok. unfold upsert_account in Ha.
  apply eff_bind_ok in Ha as (json & t0 & [Ej <-]%lift_ok & Ha). apply ok_or_ok in Ej.
  unfold account_statement in Ha. destruct (_ <? _) in Ha; [done|]. injection Ha as <-.
  apply IH in Hl as [Hf ->]. split; [constructor; [by eexists|done]|]. by rewrite (row_of_json a json Ej).
Qed.

Lemma write_snapshot_ok fault s n t t' : write_snapshot fault s n t = (Ok tt, t') → stored t' n.
Proof.
  intros Hw. unfold write_snapshot in Hw.
  apply eff_bind_ok in Hw as ([] & t1 & _ & Hw). apply eff_bind_ok in Hw as ([] & t2 & _ & Hw).
  apply eff_bind_ok in Hw as (changed & t3 & _ & Hw). apply eff_bind_ok in Hw as ([] & t4 & _ & Hw).
  apply eff_bind_ok in Hw as (saved & t5 & Hr & Hw). apply lift_ok in Hw as [He ->].
  apply read_snapshot_ok in Hr as [-> Hr]. apply err_if_ok, negb_false_iff, bool_decide_eq_true in He. by subst saved.
Qed.

(** Without faults the changes are stored exactly when they fit. *)
Lemma write_snapshot_iff s n t :
  stored t s → snapshot_ok n →
  (storable s n → ∃ t', write_snapshot (λ _, None) s n t = (Ok tt, t')) ∧
  (∀ t', write_snapshot (λ _, None) s n t = (Ok tt, t') → storable s n).
Proof.
  intros Hst Hn. destruct (stored_sound _ _ Hst) as (Hs & Hr & sel & Hsel). split.
  - intros Hfit. set (t1 := set_directory t (rows_after (account_directory t) s n)).
    set (t2 := {| account_directory := account_directory t1; account_selection := Some (selection_row n) |}).
    assert (stored t2 n) as Hst2.
    { apply stored_complete; [done| |done]. apply rows_after_hold; [done|by apply valid_ids| |done].
      eapply list.Forall_impl; [apply Hn|]. by intros a [_ ?]. }
    exists t2. unfold write_snapshot, mbind, eff_bind. rewrite delete_fold, upsert_fold.
    2: { apply list.Forall_forall. intros a [Hno Hin]%list_elem_of_filter. by apply Hfit. }
    unfold update_account_selection, account_statement at 1. cbn [account_selection set_directory]. rewrite Hsel.
    cbn [lift err_if negb Nat.eqb]. change (read_snapshot _ _ _ _) with
      (read_snapshot (λ _, None) SelectSelection SelectAccounts t2).
    destruct (read_snapshot (λ _, None) SelectSelection SelectAccounts t2) as [r t3] eqn:Er.
    assert (r = Ok n) as -> by (unfold stored in Hst2; by rewrite Er in Hst2).
    apply read_snapshot_ok in Er as [-> _]. cbn. by rewrite bool_decide_true.
  - intros t' Hw. pose proof (write_snapshot_ok _ _ _ _ _ Hw) as Hst'. unfold write_snapshot in Hw.
    apply eff_bind_ok in Hw as ([] & t1 & Hd & Hw). rewrite delete_fold in Hd. injection Hd as <-.
    apply eff_bind_ok in Hw as ([] & t2 & Hu & Hw). apply upserts_ok in Hu as [Hjson ->].
    apply eff_bind_ok in Hw as (changed & t3 & Hup & Hw). apply eff_bind_ok in Hw as ([] & t4 & [_ <-]%lift_ok & Hw).
    apply eff_bind_ok in Hw as (saved & t5 & Hrd & [_ <-]%lift_ok). apply read_snapshot_ok in Hrd as [-> _].
    unfold update_account_selection, account_statement in Hup. cbn [account_selection set_directory] in Hup.
    rewrite Hsel in Hup. injection Hup as _ <-. destruct (stored_sound _ _ Hst') as (_ & [He _] & _).
    intros a Hin Hnew. destruct (He a Hin) as (row & Hrow & Hdec).
    assert (a ∈ additions s n) as Hadd by (by apply list_elem_of_filter).
    pose proof (additions_ids s n (valid_ids n Hn)) as Hnd.
    cbn in Hrow. rewrite (proj1 (lookup_inserts _ _ _ Hnd) a Hadd eq_refl) in Hrow. injection Hrow as <-.
    eapply list.Forall_forall in Hjson as [json Ej]; [|exact Hadd]. by eapply decodes_encodable.
Qed.

(** ** Commands *)

(** What a command promises: its mutation of the snapshot, committed under the
    next revision when it changes something. *)
Definition account_spec (now : string) (cmd : AccountCommand) s : result AccountError AccountSnapshot :=
  m ← command_mutation now cmd;
  revision ← next_account_revision s;
  n ← m s revision;
  Ok (if bool_decide (n = s) then s else commit_snapshot n revision).

Lemma next_account_revision_ok s r :
  next_account_revision s = Ok r → r = after s ∧ after s ≤ MAX_SAFE_REVISION.
Proof.
  unfold next_account_revision, checked_add_u64. intros Hn. apply ok_or_ok, bind_Some in Hn as (n & Hn & Hm).
  destruct (_ <=? u64_max); [|done]. injection Hn as <-. destruct (_ <=? MAX_SAFE_REVISION) eqn:E; [|done].
  injection Hm as <-. unfold after. lia.
Qed.

(** The snapshot that a valid mutation commits. *)
Lemma mutation_commits m s n r :
  keeps_valid m → snapshot_ok s → next_account_revision s = Ok r → m s r = Ok n →
  snapshot_ok (commit_snapshot n r) ∧ directory_revision (commit_snapshot n r) = after s ∧
  ∀ a, a ∈ accounts (commit_snapshot n r) → a ∈ accounts s ∨ account_revision a = after s.
Proof.
  intros Hk Hs [-> Hmax]%next_account_revision_ok Hm. pose proof (Hk _ _ Hs Hm) as Hd. split_and!.
  - by apply (commit_snapshot_ok s).
  - done.
  - intros a. cbn. unfold sort_accounts. rewrite sort_by_perm. apply (draft_changed _ _ _ Hd).
Qed.

(** A transaction that succeeds, faults or not, does what the mutation says. *)
Lemma mutate_transaction_ok fault m t s n t' :
  stored t s → mutate_transaction fault m t = (Ok n, t') →
  ∃ r edited, next_account_revision s = Ok r ∧ m s r = Ok edited ∧ stored t' n ∧
    n = (if bool_decide (edited = s) then s else commit_snapshot edited r).
Proof.
  intros Hst Hm. unfold mutate_transaction in Hm.
  apply eff_bind_ok in Hm as (s' & t1 & Hr & Hm). apply read_snapshot_ok in Hr as [-> Hr].
  rewrite (stored_inj _ _ _ Hr Hst) in Hm. clear s' Hr.
  apply eff_bind_ok in Hm as (r & t1 & [Hrev <-]%lift_ok & Hm).
  apply eff_bind_ok in Hm as (edited & t1 & [Hd <-]%lift_ok & Hm). exists r, edited.
  case_bool_decide; [by apply eff_ret_ok in Hm as [<- <-]|].
  apply eff_bind_ok in Hm as ([] & t1 & [_ <-]%lift_ok & Hm).
  apply eff_bind_ok in Hm as ([] & t1 & Hw & Hm). apply eff_ret_ok in Hm as [<- ->].
  split_and!; try done. by eapply write_snapshot_ok.
Qed.

Lemma read_quiet t s :
  stored t s → read_snapshot (λ _, None) SelectSelection SelectAccounts t = (Ok s, t).
Proof.
  intros Hst. destruct (read_snapshot _ _ _ t) as [r t'] eqn:Er.
  assert (r = Ok s) as -> by (unfold stored in Hst; by rewrite Er in Hst).
  by apply read_snapshot_ok in Er as [-> _].
Qed.

(** Without faults only the size of the records can stand in the way. *)
Lemma mutate_transaction_quiet m t s :
  keeps_valid m → stored t s →
  match (r ← next_account_revision s; x ← m s r; Ok (if bool_decide (x = s) then s else commit_snapshot x r)) with
  | Err e => (mutate_transaction (λ _, None) m t).1 = Err e
  | Ok n =>
      (storable s n → (mutate_transaction (λ _, None) m t).1 = Ok n) ∧
      (is_ok (mutate_transaction (λ _, None) m t).1 = true → storable s n)
  end.
Proof.
  intros Hk Hst. destruct (stored_sound _ _ Hst) as (Hs & _).
  unfold mutate_transaction. rewrite (eff_bind_run _ _ _ _ _ (read_quiet _ _ Hst)), lift_bind_run.
  destruct (next_account_revision s) as [r|] eqn:Er; [|done]. rewrite lift_bind_run. cbn [mbind result_bind].
  destruct (m s r) as [x|] eqn:Ed; [|done]. cbn [mbind result_bind].
  case_bool_decide as E; [split; [done|]; intros _ a Hin Hout; by destruct Hout|].
  destruct (mutation_commits _ _ _ _ Hk Hs Er Ed) as (Hn & _). rewrite lift_bind_run.
  rewrite (proj2 (validate_snapshot_spec _ (valid_ids _ Hn)))
    by (destruct Hn as [? ? ? ? ?]; split_and!; (done || lia)).
  destruct (write_snapshot_iff s _ t Hst Hn) as [Hw1 Hw2].
  destruct (write_snapshot (λ _, None) s (commit_snapshot x r) t) as [w t'] eqn:Ew.
  rewrite (eff_bind_run _ _ _ _ _ Ew). split.
  - intros Hfit. destruct (Hw1 Hfit) as [t1 E1]. injection E1 as -> _. done.
  - destruct w as [[]|e]; [|done]. intros _. by eapply Hw2.
Qed.

Lemma transaction_quiet {D E T} (from : StorageError → E) (write : D → result E T * D) store :
  poisoned store = false → mutation_closed store = false →
  transaction from quiet_call write store =
  (fst (write (database store)),
   if is_ok (fst (write (database store))) then with_database store (snd (write (database store))) else store).
Proof.
  intros Hp Hc. unfold transaction, lock. rewrite Hp, Hc. cbn. by destruct (write _) as [[|] ?].
Qed.

(** C22: A command on a directory that stands for a snapshot, without faults of
    the database: it returns the snapshot that its mutation makes under the
    next revision, which is valid and what the directory stands for then, and
    the mutation's error otherwise, with nothing changed; only a record too
    large to store can stand in the way, and then nothing changes either. *)
Theorem account_command_refines now cmd store s :
  valid_timestamp now = true → poisoned store = false → mutation_closed store = false →
  stored (database store) s →
  let '(r, store') := run_account_command (quiet_call, λ _, None) now cmd store in
  match account_spec now cmd s with
  | Err e => r = Err e ∧ store' = store
  | Ok n =>
      snapshot_ok n ∧
      ((r = Ok n ∧ storable s n ∧ stored (database store') n) ∨
       (is_ok r = false ∧ ¬ storable s n ∧ store' = store))
  end.
Proof.
  intros Hnow Hp Hc Hst. unfold run_account_command, account_spec.
  destruct (command_mutation now cmd) as [m|e] eqn:Em; cbn [mbind result_bind]; [|done].
  pose proof (command_keeps _ _ _ Hnow Em) as Hk. pose proof (mutate_transaction_quiet m _ s Hk Hst) as Hq.
  unfold mutate. cbn [fst snd]. rewrite transaction_quiet by done.
  destruct (mutate_transaction (λ _, None) m (database store)) as [r t'] eqn:Et. cbn [fst snd] in *.
  destruct (next_account_revision s) as [rev|e] eqn:Er; cbn [mbind result_bind] in *; [|by subst r].
  destruct (m s rev) as [x|e] eqn:Ex; cbn [mbind result_bind] in *; [|by subst r].
  destruct (stored_sound _ _ Hst) as (Hs & _). split.
  { case_bool_decide; [done|]. by apply (mutation_commits m s x rev). }
  destruct Hq as [Hfit Hno]. destruct r as [n|e]; cbn [is_ok] in *.
  - left. specialize (Hno eq_refl). specialize (Hfit Hno). split_and!; [done|done|].
    apply (mutate_transaction_ok _ _ _ s) in Et as (r0 & x0 & _ & _ & Hn & _); [|done]. injection Hfit as <-. exact Hn.
  - right. split_and!; [done| |done]. intros Hok. by specialize (Hfit Hok).
Qed.

(** ** Histories *)

Inductive account_step (store store' : Accounts) : Prop :=
| AccountCommandStep c now cmd r :
    settles c.1 → valid_timestamp now = true → run_account_command c now cmd store = (r, store') →
    account_step store store'
| AccountSnapshotStep c r : snapshot c store = (r, store') → account_step store store'
| AccountAdmitStep {T} c id selection (accept : CapturedAccount → T) r :
    with_selected_account c id selection accept store = (r, store') → account_step store store'
| AccountInterruptStep : store' = interrupt store → account_step store store'.

(** A later snapshot: its revision is no lower, the same revision is the same
    snapshot, and an account that is not as it was has a newer revision. *)
Record later s n : Prop := {
  later_revision : directory_revision s ≤ directory_revision n;
  later_same : directory_revision s = directory_revision n → n = s;
  later_records a : a ∈ accounts n → a ∈ accounts s ∨ directory_revision s < account_revision a;
}.

#[local] Instance later_preorder : PreOrder later.
Proof.
  split.
  - intros s. split; [lia|done|by left].
  - intros s1 s2 s3 [R1 S1 C1] [R2 S2 C2]. split; [lia| |].
    + intros E. rewrite S2 by lia. apply S1. lia.
    + intros a [Ha|Ha]%C2; [|right; lia]. by apply C1.
Qed.

Lemma command_later c now cmd store store' r s :
  settles c.1 → valid_timestamp now = true → run_account_command c now cmd store = (r, store') →
  stored (database store) s → ∃ n, stored (database store') n ∧ later s n.
Proof.
  intros Hset Hnow Hrun Hst. unfold run_account_command in Hrun.
  destruct (command_mutation now cmd) as [m|e] eqn:Em; [|injection Hrun as <- <-; by exists s].
  pose proof (command_keeps _ _ _ Hnow Em) as Hk. destruct (stored_sound _ _ Hst) as (Hs & _).
  unfold mutate in Hrun. apply transaction_cases in Hrun; [|done].
  destruct Hrun as [n t' store1 Hw _ _ ->|e store1 Hd _ _ _].
  - destruct (mutate_transaction_ok _ _ _ _ _ _ Hst Hw) as (rev & x & Hrev & Hx & Hn & ->). eexists. split; [exact Hn|].
    case_bool_decide; [done|]. destruct (mutation_commits _ _ _ _ Hk Hs Hrev Hx) as (_ & Ern & Hch).
    unfold after in *. split; [lia|lia|]. intros a [Ha|Ha]%Hch; [by left|right; lia].
  - exists s. by rewrite Hd.
Qed.

Lemma account_step_later store store' s :
  account_step store store' → stored (database store) s → ∃ n, stored (database store') n ∧ later s n.
Proof.
  intros [c now cmd r Hset Hnow Hrun|c r Hr|T c id selection accept r Hr| ->] Hst.
  - by eapply command_later.
  - apply read_keeps in Hr as (-> & _). by exists s.
  - apply read_keeps in Hr as (-> & _). by exists s.
  - by exists s.
Qed.

Lemma account_history store store' s :
  rtc account_step store store' → stored (database store) s → ∃ n, stored (database store') n ∧ later s n.
Proof.
  intros Hs. revert s. induction Hs as [store|store store1 store' Hstep _ IH]; intros s Hst; [by exists s|].
  destruct (account_step_later _ _ _ Hstep Hst) as (s1 & Hst1 & L1). destruct (IH s1 Hst1) as (n & Hn & L2).
  exists n. split; [done|]. by etrans.
Qed.

(** C23: Whatever commands run in between, with faults and interrupted calls
    of others, the directory goes on standing for a valid snapshot; a capture
    taken before holds exactly as long as the directory is what it was, and
    the account of the capture exactly as long as it has the revision it had. *)
Theorem capture_fences_changes store store' s id c :
  rtc account_step store store' → stored (database store) s → capture_new s id = Ok c →
  ∃ n, stored (database store') n ∧ snapshot_ok n ∧
    (capture_validate c n = Ok tt ↔ n = s) ∧
    (capture_validate_account c n = Ok tt ↔
     ∃ a, a ∈ accounts n ∧ account_id a = account_id (captured_record c) ∧
       account_revision a = account_revision (captured_record c)).
Proof.
  intros Hsteps Hst Hc. destruct (account_history _ _ _ Hsteps Hst) as (n & Hn & [Hrev Hsame Hch]).
  destruct (stored_sound _ _ Hst) as (Hs & _), (stored_sound _ _ Hn) as (Hnok & _).
  exists n. split; [done|]. split; [done|]. unfold capture_new in Hc. ok_inv. cbn.
  rename select (List.find _ _ = _) into Hf. apply find_id in Hf as [Hin Hid]; [|by apply valid_ids].
  unfold capture_validate, capture_validate_account. cbn. rewrite !err_if_ok. split.
  - rewrite !orb_false_iff, !negb_false_iff, Z.eqb_eq, !bool_decide_eq_true. split.
    + intros (((E & _) & _) & _). apply Hsame. by rewrite <-(ok_selection _ Hs), <-(ok_selection _ Hnok).
    + intros ->. by split_and!.
  - rewrite negb_false_iff, bool_decide_eq_true. split; [eauto|]. intros (a & Ha & Eid & Erev).
    destruct (Hch a Ha) as [Hold|Hnew].
    + assert (a = x0) as <-; [|done]. apply (NoDup_fmap_inj account_id (accounts s)); try done. by apply valid_ids.
    + exfalso. destruct (account_ok_in _ _ Hs Hin) as [Hv _]. apply revisions_ok_spec in Hv. lia.
Qed.
End history.

(** ** The directory at concrete inputs

    A digest, a UUID and a JSON of two texts that satisfy their laws, and the
    theorems applied to a directory with one account. *)

Module DirectoryDemo.
Definition demo_uuid_text : string := "853c80ef-3c37-49fd-aa49-938b674adae6".

#[local] Instance demo_uuid : UuidParser := λ id,
  if str_eqb id demo_uuid_text || str_eqb id (uuid_simple demo_uuid_text) then Some demo_uuid_text else None.

(** Sixteen bytes from the end of the text. *)
#[local] Instance demo_parsers : AccountParsers := {|
  texture_url_parse := λ _, None;
  rfc3339_valid := λ text, str_len text =? 20;
  md5 := λ text, text_of (take 16 (reverse (bytes_of text) ++ replicate 16 "0"%char)) |}.

#[local] Instance demo_identity_laws : IdentityLaws.
Proof.
  assert (∀ s h, uuid_canonical s = Some h → h = demo_uuid_text) as Hc.
  { intros s h. unfold uuid_canonical, demo_uuid. destruct (_ || _); congruence. }
  split.
  - intros s h ->%Hc. reflexivity.
  - intros s h ->%Hc. reflexivity.
  - intros s h ->%Hc. reflexivity.
  - intros s. cbn [md5 demo_parsers]. rewrite <-bytes_of_length, bytes_of_text, length_take, length_app, length_replicate.
    lia.
Qed.

Definition demo_now : string := "2024-01-01T00:00:00Z".
Definition steve : AccountRecord := new_offline demo_now 1 "Steve" (offline_id "Steve").

#[local] Instance demo_account_json : AccountJson := {|
  account_to_string := λ a, if bool_decide (a = steve) then Some "{steve}" else None;
  account_from_str := λ s, if str_eqb s "{steve}" then Some (set_owns steve false) else None;
  profile_to_vec := λ _, None |}.

#[local] Instance demo_account_json_laws : AccountJsonLaws.
Proof. intros a json _. cbn. case_bool_decide as E; [|done]. by intros [= <-]; subst. Qed.

Definition empty_directory : Accounts :=
  {| database := migrated_accounts; mutation_closed := false; poisoned := false |}.
Definition empty_snapshot : AccountSnapshot := {|
  directory_revision := 0; selection_revision := 0; active_account_id := None;
  launch_auth_mode := ModeOffline; accounts := [] |}.

Definition quiet_account_call : AccountCall := (quiet_call, λ _, None).
Definition create_steve : AccountCommand := CreateOffline " Steve " no_preconditions.
Definition one_account : Accounts := (run_account_command quiet_account_call demo_now create_steve empty_directory).2.
Definition one_snapshot : AccountSnapshot := {|
  directory_revision := 1; selection_revision := 1; active_account_id := Some (offline_id "Steve");
  launch_auth_mode := ModeOffline; accounts := [steve] |}.
Definition remove_steve : AccountCommand := RemoveOffline (offline_id "Steve") no_preconditions.
Definition no_account : Accounts := (run_account_command quiet_account_call demo_now remove_steve one_account).2.
Definition steve_capture : CapturedAccount := {|
  captured_record := steve; captured_revision := 1; captured_selected := Some (offline_id "Steve");
  captured_mode := ModeOffline |}.

Example empty_stored : stored migrated_accounts empty_snapshot.
Proof. vm_compute. reflexivity. Qed.

Example one_stored : stored (database one_account) one_snapshot.
Proof. vm_compute. reflexivity. Qed.

Lemma account_command_refines_witness :
  let '(r, store') := run_account_command (quiet_call, λ _, None) demo_now create_steve empty_directory in
  match account_spec demo_now create_steve empty_snapshot with
  | Err e => r = Err e ∧ store' = empty_directory
  | Ok n =>
      snapshot_ok n ∧
      ((r = Ok n ∧ storable empty_snapshot n ∧ stored (database store') n) ∨
       (is_ok r = false ∧ ¬ storable empty_snapshot n ∧ store' = empty_directory))
  end.
Proof.
  apply (account_command_refines demo_now create_steve empty_directory empty_snapshot);
    [vm_compute; reflexivity|reflexivity|reflexivity|exact empty_stored].
Defined.

Lemma capture_fences_changes_witness :
  ∃ n, stored (database no_account) n ∧ snapshot_ok n ∧
    (capture_validate steve_capture n = Ok tt ↔ n = one_snapshot) ∧
    (capture_validate_account steve_capture n = Ok tt ↔
     ∃ a, a ∈ accounts n ∧ account_id a = account_id (captured_record steve_capture) ∧
       account_revision a = account_revision (captured_record steve_capture)).
Proof.
  apply (capture_fences_changes one_account no_account one_snapshot (offline_id "Steve") steve_capture).
  - apply rtc_once. apply (AccountCommandStep one_account no_account quiet_account_call demo_now remove_steve
      (run_account_command quiet_account_call demo_now remove_steve one_account).1);
      [reflexivity|vm_compute; reflexivity|apply surjective_pairing].
  - exact one_stored.
  - vm_compute. reflexivity.
Defined.

(** The removal went through: the capture no longer holds. *)
Example removed : (read_snapshot (λ _, None) SelectSelection SelectAccounts (database no_account)).1 =
  Ok {| directory_revision := 2; selection_revision := 2; active_account_id := None;
        launch_auth_mode := ModeOffline; accounts := [] |}.
Proof. vm_compute. reflexivity. Qed.
End DirectoryDemo.
