(* ===== verification/CredentialStore.v ===== *)
(** * The credential store ([core/app/src/accounts/credentials.rs], [credential_store.rs])

    The bundle of tokens of an account and the head that the keyring keeps for
    it: the revision of its last change, and the blobs of the secrets that the
    change replaces, writes or retires; then the store, whose operations are
    sequences of keyring calls.  serde_json, SHA-256 and the parser of UUIDs
    are parameters. *)

From S2P Require Import Prelude RustStr RustText Effect AccountModel.

Open Scope string_scope.
Open Scope list_scope.
Open Scope Z_scope.

Definition MAX_CREDENTIAL_BYTES : Z := 65536.
Definition MAX_TOKEN_BYTES : Z := 24576.
Definition CHUNK_BYTES : Z := 900.
Definition MAX_HEAD_BYTES : Z := 900.

Inductive CredentialError :=
| Unavailable | Malformed | Ambiguous | StaleChange | Unresolved | CleanupPending
| RevisionExhausted | InvalidAccount.
#[global] Instance credential_error_eq_dec : EqDecision CredentialError.
Proof. solve_decision. Defined.

Inductive CredentialState := StateAbsent | StatePending | StateReady | StateDeleted.

Record CredentialStatus := {
  status_revision : Z;
  status_state : CredentialState;
  status_cleanup_pending : bool;
}.

(** ** Bundles *)

Record Credentials := {
  microsoft_access_token : string;
  microsoft_refresh_token : option string;
  microsoft_expires_at : Z;
  minecraft_access_token : string;
  minecraft_expires_at : Z;
}.
#[global] Instance credentials_eq_dec : EqDecision Credentials.
Proof. solve_decision. Defined.

(** [u8::is_ascii_whitespace] and [u8::is_ascii_control]. *)
Definition ascii_space (c : ascii) : bool :=
  existsb (N.eqb (byte_n c)) [9; 10; 12; 13; 32]%N.
Definition ascii_control (c : ascii) : bool := (byte_n c <? 32)%N || (byte_n c =? 127)%N.

Definition validate_token (token : string) : result CredentialError unit :=
  err_if (is_empty token || (MAX_TOKEN_BYTES <? str_len token) ||
          sexists (λ c, ascii_space c || ascii_control c) token) Malformed.

Definition credentials_new (microsoft_access : string) (microsoft_refresh : option string)
    (microsoft_expires : Z) (minecraft_access : string) (minecraft_expires : Z)
    : result CredentialError Credentials :=
  validate_token microsoft_access ;;
  match microsoft_refresh with Some token => validate_token token | None => Ok tt end ;;
  validate_token minecraft_access ;;
  err_if ((microsoft_expires =? 0) || (minecraft_expires =? 0)) Malformed ;;
  Ok {| microsoft_access_token := microsoft_access; microsoft_refresh_token := microsoft_refresh;
        microsoft_expires_at := microsoft_expires; minecraft_access_token := minecraft_access;
        minecraft_expires_at := minecraft_expires |}.

(** [KeyringCredentials]: the schema before the bundle. *)
Definition KeyringCredentials : Type := Z * Credentials.

(** ** Heads *)

Inductive BlobLayout := LayoutChunks | LayoutSingle.
#[global] Instance blob_layout_eq_dec : EqDecision BlobLayout.
Proof. solve_decision. Defined.

Record Blob := {
  blob_id : string;
  blob_chunks : Z;
  blob_digest : string;
  blob_layout : BlobLayout;
}.
#[global] Instance blob_eq_dec : EqDecision Blob.
Proof. solve_decision. Defined.

Inductive HeadState :=
| Live (blob : Blob)
| Pending (previous candidate : option Blob)
| Deleted.

Record Head := {
  head_schema : Z;
  head_revision : Z;
  head_operation : string;
  head_state : HeadState;
  head_retired : list Blob;
}.

Definition chunk_bytes (layout : BlobLayout) : Z :=
  match layout with LayoutChunks => CHUNK_BYTES | LayoutSingle => MAX_CREDENTIAL_BYTES end.

(** [usize::div_ceil]. *)
Definition div_ceil (a b : Z) : Z := (a + b - 1) / b.

Definition blob_validate (blob : Blob) : result CredentialError unit :=
  err_if (str_eqb (blob_id blob) nil_uuid || (blob_chunks blob =? 0) ||
          (div_ceil MAX_CREDENTIAL_BYTES (chunk_bytes (blob_layout blob)) <? blob_chunks blob) ||
          negb (str_len (blob_digest blob) =? 64) || negb (sforall any_hex (blob_digest blob))) Malformed.

Definition validate_optional (blob : option Blob) : result CredentialError unit :=
  match blob with Some blob => blob_validate blob | None => Ok tt end.

(** The identity of the live blob. *)
Definition state_validate (head : Head) : result CredentialError (option string) :=
  match head_state head with
  | Live blob =>
      err_if (negb (str_eqb (blob_id blob) (head_operation head)) ||
              (1 <? length (head_retired head))%nat) Malformed ;;
      blob_validate blob ;;
      Ok (Some (blob_id blob))
  | Pending previous candidate =>
      err_if (negb (match head_retired head with [] => true | _ => false end)) Malformed ;;
      validate_optional previous ;;
      match candidate with
      | Some blob =>
          blob_validate blob ;;
          err_if (negb (str_eqb (blob_id blob) (head_operation head)) ||
                  is_some_and previous (λ previous, str_eqb (blob_id previous) (blob_id blob))) Malformed
      | None => Ok tt
      end ;;
      Ok None
  | Deleted => Ok None
  end.

Definition retired_validate (live : option string) (ids : list string) (blob : Blob)
    : result CredentialError (list string) :=
  blob_validate blob ;;
  err_if (opt_eqb live (blob_id blob) || char_in ids (blob_id blob)) Malformed ;;
  Ok (ids ++ [blob_id blob]).

Definition head_validate (head : Head) : result CredentialError unit :=
  err_if (negb (head_schema head =? 1) || (head_revision head =? 0) ||
          str_eqb (head_operation head) nil_uuid || (2 <? length (head_retired head))%nat) Malformed ;;
  live ← state_validate head;
  try_fold (retired_validate live) [] (head_retired head) ;;
  Ok tt.

Definition with_state (head : Head) (state : HeadState) (retired : list Blob) : Head := {|
  head_schema := head_schema head; head_revision := head_revision head;
  head_operation := head_operation head; head_state := state; head_retired := retired |}.

Definition new_head (revision : Z) (operation : string) (state : HeadState) (retired : list Blob) : Head := {|
  head_schema := 1; head_revision := revision; head_operation := operation; head_state := state;
  head_retired := retired |}.

(** The JSON that serde derives of a head, compact and in the order of the
    fields; texts without a character to escape are written as they are. *)
Definition json_text (s : string) : string := char1 "034" +:+ s +:+ char1 "034".
Definition json_object (fields : list (string * string)) : string :=
  "{" +:+ str_join "," ((λ '(name, value), json_text name +:+ ":" +:+ value) <$> fields) +:+ "}".
Definition json_array (values : list string) : string := "[" +:+ str_join "," values +:+ "]".
Definition json_option (value : option string) : string := default "null" value.

Definition layout_json (layout : BlobLayout) : string :=
  json_text match layout with LayoutChunks => "chunks" | LayoutSingle => "single" end.
Definition blob_json (blob : Blob) : string := json_object [
  ("id", json_text (blob_id blob)); ("chunks", display_Z (blob_chunks blob));
  ("digest", json_text (blob_digest blob)); ("layout", layout_json (blob_layout blob))].
Definition state_json (state : HeadState) : string := json_object
  match state with
  | Live blob => [("kind", json_text "live"); ("blob", blob_json blob)]
  | Pending previous candidate =>
      [("kind", json_text "pending"); ("previous", json_option (blob_json <$> previous));
       ("candidate", json_option (blob_json <$> candidate))]
  | Deleted => [("kind", json_text "deleted")]
  end.
Definition head_json (head : Head) : string := json_object [
  ("schema", display_Z (head_schema head)); ("revision", display_Z (head_revision head));
  ("operation", json_text (head_operation head)); ("state", state_json (head_state head));
  ("retired", json_array (blob_json <$> head_retired head))].

(** What is written and read of them outside the repository. *)
Class CredentialCodec := {
  head_to_vec : Head → option string;
  head_from_slice : string → option Head;
  keyring_to_vec : KeyringCredentials → option string;
  keyring_from_slice : string → option KeyringCredentials;
  sha256_hex : string → string;
}.

Section credentials.
Context `{UuidParser} `{CredentialCodec}.

Definition encode_for_keyring (credentials : Credentials) : result CredentialError string :=
  encoded ← ok_or Malformed (keyring_to_vec (1, credentials));
  err_if (MAX_CREDENTIAL_BYTES <? str_len encoded) Malformed ;;
  Ok encoded.

Definition decode_from_keyring (bytes : string) : result CredentialError Credentials :=
  err_if (MAX_CREDENTIAL_BYTES <? str_len bytes) Malformed ;;
  stored ← ok_or Malformed (keyring_from_slice bytes);
  err_if (negb (stored.1 =? 1)) Malformed ;;
  credentials_new (microsoft_access_token stored.2) (microsoft_refresh_token stored.2)
    (microsoft_expires_at stored.2) (minecraft_access_token stored.2) (minecraft_expires_at stored.2).

Definition parse_account (account_id : string) : result CredentialError string :=
  ok_or InvalidAccount
    (id ← uuid_canonical account_id; if str_eqb id nil_uuid then None else Some id).
End credentials.

(** ** The keyring and the store

    The entries of the operating system's keyring, which may refuse a call or
    carry it out and report failure all the same, and the operations of the
    store as the sequences of its calls.  The mutex around an operation makes
    it atomic; a process that stops in the middle of one is a keyring that
    refuses every call from then on. *)

(** What the keyring does of a call: a read refused or answered, a change
    refused, or carried out and reported as failed, or acknowledged. *)
Inductive KeyringAnswer := Answers | Refuses | FailsAfterwards.

Record Keyring := {
  entries : gmap string string;
  answers : list KeyringAnswer;
}.

(** A call takes the next answer; a keyring without faults has none left. *)
Definition next_answer (w : Keyring) : KeyringAnswer := default Answers (head (answers w)).
Definition set_entries (w : Keyring) (e : gmap string string) : Keyring :=
  {| entries := e; answers := tail (answers w) |}.

Definition keyring_get (key : string) : eff Keyring CredentialError (option string) := λ w,
  match next_answer w with
  | Answers => (Ok (entries w !! key), set_entries w (entries w))
  | _ => (Err Unavailable, set_entries w (entries w))
  end.

Definition keyring_change (change : gmap string string → gmap string string) : eff Keyring CredentialError unit := λ w,
  match next_answer w with
  | Answers => (Ok tt, set_entries w (change (entries w)))
  | Refuses => (Err Unavailable, set_entries w (entries w))
  | FailsAfterwards => (Err Unavailable, set_entries w (change (entries w)))
  end.

Definition keyring_set (key bytes : string) : eff Keyring CredentialError unit :=
  keyring_change (<[key := bytes]>).
Definition keyring_delete (key : string) : eff Keyring CredentialError unit := keyring_change (delete key).

(** ** Fences and receipts *)

Record CredentialFence := {
  fence_profile : string;
  fence_account : string;
  fence_revision : Z;
  fence_operation : string;
}.

Record CredentialReceipt := {
  receipt_account_id : string;
  receipt_revision : Z;
  receipt_cleanup_pending : bool;
}.

Record StoredCredentials := { stored_revision : Z; stored_credentials : Credentials }.

Definition receipt (account : string) (revision : Z) (cleanup_pending : bool) : CredentialReceipt := {|
  receipt_account_id := account; receipt_revision := revision;
  receipt_cleanup_pending := cleanup_pending |}.

(** [bytes.chunks(size)]. *)
Fixpoint chunks_of (fuel : nat) (size : Z) (bytes : string) : list string :=
  match fuel with
  | O => []
  | S fuel =>
      if is_empty bytes then []
      else take_bytes size bytes :: chunks_of fuel size ((split_at (Z.to_nat size) bytes).2)
  end.

Section store.
Context `{UuidParser} `{CredentialCodec}.
Variable (profile : string) (macos : bool).
Notation eff := (eff Keyring CredentialError).

Definition head_key (account : string) : string := str_join ":" [profile; account; "head-v1"].
Definition chunk_key (account blob : string) (index : nat) : string :=
  str_join ":" [profile; account; blob; display_nat index].

Definition read_head (account : string) : eff (option Head) :=
  found ← keyring_get (head_key account);
  match found with
  | None => mret None
  | Some bytes =>
      lift (err_if (MAX_HEAD_BYTES <? str_len bytes) Malformed) ;;
      head ← lift (ok_or Malformed (head_from_slice bytes));
      lift (head_validate head) ;;
      mret (Some head)
  end.

(** Exact readback is the only acknowledgement of a write. *)
Definition write_entry (key bytes : string) : eff unit :=
  eff_try (F := CredentialError) (keyring_set key bytes) ;;
  found ← eff_try (keyring_get key);
  lift (match found with
        | Ok (Some actual) => if str_eqb actual bytes then Ok tt else Err Ambiguous
        | _ => Err Ambiguous
        end).

Definition write_head (account : string) (head : Head) : eff unit :=
  lift (head_validate head) ;;
  bytes ← lift (ok_or Malformed (head_to_vec head));
  lift (err_if (MAX_HEAD_BYTES <? str_len bytes) Malformed) ;;
  write_entry (head_key account) bytes.

Definition chunk_indices (blob : Blob) : list nat := seq 0 (Z.to_nat (blob_chunks blob)).

Definition read_chunk (account : string) (blob : Blob) (bytes : string) (index : nat) : eff string :=
  found ← keyring_get (chunk_key account (blob_id blob) index);
  chunk ← lift (ok_or Malformed found);
  lift (err_if (is_empty chunk || (chunk_bytes (blob_layout blob) <? str_len chunk) ||
                ((Z.of_nat index + 1 <? blob_chunks blob) &&
                 negb (str_len chunk =? chunk_bytes (blob_layout blob)))) Malformed) ;;
  mret (bytes +:+ chunk).

Definition read_blob (account : string) (blob : Blob) : eff Credentials :=
  lift (blob_validate blob) ;;
  bytes ← eff_fold (read_chunk account blob) "" (chunk_indices blob);
  lift (err_if (negb (str_eqb (sha256_hex bytes) (blob_digest blob))) Malformed) ;;
  lift (decode_from_keyring bytes).

Definition clean_chunk (key : string) : eff unit :=
  eff_try (F := CredentialError) (keyring_delete key) ;;
  found ← eff_try (keyring_get key);
  lift (match found with Ok None => Ok tt | _ => Err CleanupPending end).

Definition retired_keys (account : string) (blobs : list Blob) : list string :=
  blobs ≫= λ blob, chunk_key account (blob_id blob) <$> chunk_indices blob.

(** The head afterwards. *)
Definition clean_retired (account : string) (head : Head) : eff Head :=
  match head_retired head with
  | [] => mret head
  | retired =>
      eff_fold (λ _ key, clean_chunk key) tt (retired_keys account retired) ;;
      let cleaned := with_state head (head_state head) [] in
      eff_map_err (λ _, CleanupPending) (write_head account cleaned) ;;
      mret cleaned
  end.

(** ** Operations *)

Definition status (account_id : string) : eff CredentialStatus :=
  account ← lift (parse_account account_id);
  found ← read_head account;
  mret (match found with
        | None => {| status_revision := 0; status_state := StateAbsent; status_cleanup_pending := false |}
        | Some head => {|
            status_revision := head_revision head;
            status_state := match head_state head with
                            | Live _ => StateReady | Pending _ _ => StatePending | Deleted => StateDeleted
                            end;
            status_cleanup_pending := match head_retired head with [] => false | _ => true end |}
        end).

Definition load (account_id : string) : eff (option StoredCredentials) :=
  account ← lift (parse_account account_id);
  found ← read_head account;
  match found with
  | None => mret None
  | Some head =>
      match head_state head with
      | Live blob =>
          credentials ← read_blob account blob;
          mret (Some {| stored_revision := head_revision head; stored_credentials := credentials |})
      | Pending _ _ => lift (Err Unresolved)
      | Deleted => mret None
      end
  end.

Definition revision_of (head : option Head) : Z := default 0 (head_revision <$> head).

Definition next_credential_revision (revision : Z) : result CredentialError Z :=
  ok_or RevisionExhausted (checked_add_u64 revision 1).

Definition is_pending (head : Head) : bool :=
  match head_state head with Pending _ _ => true | _ => false end.

(** The new operation is a fresh UUID. *)
Definition begin_change (operation account_id : string) (expected_revision : Z) : eff CredentialFence :=
  account ← lift (parse_account account_id);
  current ← read_head account;
  lift (err_if (negb (revision_of current =? expected_revision)) StaleChange) ;;
  lift (err_if (is_some_and current is_pending) Unresolved) ;;
  current ← match current with
            | Some head => head ← clean_retired account head; mret (Some head)
            | None => mret None
            end;
  let previous := head ← current; match head_state head with Live blob => Some blob | _ => None end in
  revision ← lift (next_credential_revision expected_revision);
  write_head account (new_head revision operation (Pending previous None) []) ;;
  mret {| fence_profile := profile; fence_account := account; fence_revision := revision;
          fence_operation := operation |}.

Definition check_profile (fence : CredentialFence) : result CredentialError unit :=
  err_if (negb (str_eqb (fence_profile fence) profile)) StaleChange.

Definition fenced_head (fence : CredentialFence) : eff Head :=
  found ← read_head (fence_account fence);
  head ← lift (ok_or StaleChange found);
  lift (err_if (negb (head_revision head =? fence_revision fence) ||
                negb (str_eqb (head_operation head) (fence_operation fence))) StaleChange) ;;
  mret head.

Definition layout_of (head : Head) : BlobLayout :=
  match head_state head with
  | Live blob | Pending _ (Some blob) => blob_layout blob
  | _ => if macos then LayoutSingle else LayoutChunks
  end.

Definition blob_for (fence : CredentialFence) (layout : BlobLayout) (bytes : string) : Blob := {|
  blob_id := fence_operation fence; blob_chunks := div_ceil (str_len bytes) (chunk_bytes layout);
  blob_digest := sha256_hex bytes; blob_layout := layout |}.

Definition write_chunks (account : string) (blob : Blob) (bytes : string) : eff unit :=
  eff_fold (λ _ '(index, chunk), write_entry (chunk_key account (blob_id blob) index) chunk) tt
    (imap pair (chunks_of (String.length bytes) (chunk_bytes (blob_layout blob)) bytes)).

(** The receipt of a head whose retired blobs are cleaned up if possible. *)
Definition settled_receipt (account : string) (head : Head) : eff CredentialReceipt :=
  cleaned ← eff_try (clean_retired account head);
  mret (receipt account (head_revision head) (negb (is_ok cleaned))).

Definition publish (fence : CredentialFence) (head : Head) (previous : option Blob) (blob : Blob)
    (bytes : string) (credentials : Credentials) : eff CredentialReceipt :=
  let account := fence_account fence in
  let candidate := with_state head (Pending previous (Some blob)) (head_retired head) in
  write_head account candidate ;;
  write_chunks account blob bytes ;;
  actual ← read_blob account blob;
  lift (err_if (negb (bool_decide (actual = credentials))) Malformed) ;;
  let live := with_state head (Live blob) (option_list previous) in
  write_head account live ;;
  settled_receipt account live.

Definition save (fence : CredentialFence) (credentials : Credentials) : eff CredentialReceipt :=
  lift (check_profile fence) ;;
  bytes ← lift (encode_for_keyring credentials);
  head ← fenced_head fence;
  let blob := blob_for fence (layout_of head) bytes in
  match head_state head with
  | Live committed =>
      if bool_decide (committed = blob) then
        actual ← read_blob (fence_account fence) committed;
        lift (err_if (negb (bool_decide (actual = credentials))) Malformed) ;;
        settled_receipt (fence_account fence) head
      else lift (Err StaleChange)
  | Pending previous candidate =>
      lift (err_if (is_some_and candidate (λ existing, negb (bool_decide (existing = blob)))) StaleChange) ;;
      publish fence head previous blob bytes credentials
  | Deleted => lift (Err StaleChange)
  end.

Definition reconcile (fence : CredentialFence) : eff CredentialReceipt :=
  lift (check_profile fence) ;;
  head ← fenced_head fence;
  match head_state head with
  | Live blob => read_blob (fence_account fence) blob ;; settled_receipt (fence_account fence) head
  | _ => lift (Err Unresolved)
  end.

(** The blobs a head names. *)
Definition named (head : Head) : list Blob :=
  head_retired head ++
  match head_state head with
  | Live blob => [blob]
  | Pending previous candidate => option_list previous ++ option_list candidate
  | Deleted => []
  end.

Definition is_deleted (head : Head) : bool := match head_state head with Deleted => true | _ => false end.

Definition delete_credentials (operation account_id : string) (expected_revision : option Z)
    : eff CredentialReceipt :=
  account ← lift (parse_account account_id);
  current ← read_head account;
  let revision := revision_of current in
  lift (err_if (is_some_and expected_revision (λ expected, negb (expected =? revision))) StaleChange) ;;
  match current with
  | Some head =>
      if is_deleted head then settled_receipt account head
      else
        revision ← lift (next_credential_revision revision);
        let deleted := new_head revision operation Deleted (named head) in
        write_head account deleted ;;
        settled_receipt account deleted
  | None =>
      revision ← lift (next_credential_revision revision);
      let deleted := new_head revision operation Deleted [] in
      write_head account deleted ;;
      settled_receipt account deleted
  end.

Definition flush_cleanup (account_id : string) : eff unit :=
  account ← lift (parse_account account_id);
  found ← read_head account;
  match found with
  | Some head => clean_retired account head ;; mret tt
  | None => mret tt
  end.
End store.
