(* ===== verification/CredentialSteps.v ===== *)
(** * Credential operations as transitions of the keyring

    Each operation of the store, whatever the keyring answers and wherever it
    stops, takes the entries through a few kinds of transitions: a secret of a
    retired blob is erased, a chunk of the candidate is written, or the head
    moves.  What holds of every transition holds of every history. *)

From S2P Require Import Prelude RustStr RustText Effect AccountModel CredentialStore.

Open Scope string_scope.
Open Scope list_scope.
Open Scope Z_scope.

(** Documented behaviour of [uuid] and serde_json: no form of a UUID has a
    colon; a head is read back as written, with UUIDs in it and an unsigned
    revision. *)
Definition no_colon (text : string) : Prop := no_byte ":" text = true.

Class CredentialLaws `{UuidParser, CredentialCodec} : Prop := {
  canonical_no_colon s h : uuid_canonical s = Some h → no_colon h;
  head_roundtrip h s : head_validate h = Ok tt → head_to_vec h = Some s → head_from_slice s = Some h;
  head_read s h :
    head_from_slice s = Some h →
    0 ≤ head_revision h ∧ no_colon (head_operation h) ∧ Forall (λ b, no_colon (blob_id b)) (named h);
}.

(** ** Running computations that touch only part of the world *)

Lemma keyring_get_ok key w o w' :
  keyring_get key w = (Ok o, w') → o = entries w !! key.
Proof. unfold keyring_get. destruct (next_answer w); congruence. Qed.

Lemma keyring_get_entries key w r w' : keyring_get key w = (r, w') → entries w' = entries w.
Proof. unfold keyring_get. by destruct (next_answer w); intros [= _ <-]. Qed.

Lemma keyring_change_entries change w r w' :
  keyring_change change w = (r, w') → entries w' = entries w ∨ entries w' = change (entries w).
Proof. unfold keyring_change. destruct (next_answer w); intros [= _ <-]; auto. Qed.

(** A computation that leaves the entries alone. *)
Definition reads {A} (m : eff Keyring CredentialError A) : Prop :=
  ∀ w r w', m w = (r, w') → entries w' = entries w.

Lemma reads_get key : reads (keyring_get key).
Proof. intros w r w'. apply keyring_get_entries. Qed.

Lemma reads_lift {A} (r : result CredentialError A) : reads (lift r).
Proof. by intros w r' w' [= _ <-]. Qed.

Lemma reads_ret {A} (a : A) : reads (mret a : eff Keyring CredentialError A).
Proof. by intros w r' w' [= _ <-]. Qed.

Lemma reads_bind {A B} (m : eff Keyring CredentialError A) (k : A → eff Keyring CredentialError B) :
  reads m → (∀ a, reads (k a)) → reads (m ≫= k).
Proof.
  intros Hm Hk w r w'. unfold mbind, eff_bind. destruct (m w) as [[a|e] w1] eqn:E.
  - intros Hr. rewrite (Hk _ _ _ _ Hr). by eapply Hm.
  - intros [= _ <-]. by eapply Hm.
Qed.

Lemma reads_fold {S A} (f : S → A → eff Keyring CredentialError S) l s : (∀ s x, reads (f s x)) → reads (eff_fold f s l).
Proof.
  intros Hf. revert s. induction l as [|x l IH]; intros s; [apply reads_ret|]. by apply reads_bind.
Qed.

Create HintDb reads.
#[export] Hint Resolve reads_get reads_lift reads_ret reads_fold : reads.
#[export] Hint Extern 2 (reads (_ ≫= _)) => apply reads_bind; [|intros ?] : reads.
#[export] Hint Extern 3 (reads (match ?x with _ => _ end)) => destruct x : reads.

Section steps.
Context `{CredentialLaws}.
Variable (profile : string) (macos : bool).
Hypothesis profile_plain : no_colon profile.
Notation head_key := (head_key profile).
Notation chunk_key := (chunk_key profile).
Notation retired_keys := (retired_keys profile).
Implicit Types (e : gmap string string) (h : Head) (w : Keyring).

(** ** Keys *)

Lemma no_colon_app a b : no_byte ":" (a +:+ b) = no_byte ":" a && no_byte ":" b.
Proof. apply sforall_app. Qed.

Lemma head_key_inj A B : no_colon A → no_colon B → head_key A = head_key B → A = B.
Proof.
  unfold no_colon. intros HA HB E. apply (f_equal (split_on ":")) in E. unfold CredentialStore.head_key in E.
  change ":" with (char1 ":") in E. rewrite !split_on_join in E by (first [done|by repeat constructor]). congruence.
Qed.

Lemma chunk_not_head A B b i : no_colon A → no_colon B → chunk_key A b i ≠ head_key B.
Proof.
  unfold no_colon. intros HA HB E. apply (f_equal (split_on ":")) in E.
  change (split_on ":" (profile +:+ String ":" (A +:+ String ":" (b +:+ String ":" (display_nat i)))) =
    split_on ":" (profile +:+ String ":" (B +:+ String ":" "head-v1"))) in E.
  rewrite !(split_on_app ":" profile), (split_on_app ":" A), (split_on_app ":" B) in E by done.
  apply (f_equal (drop 2)) in E. cbn [drop skipn] in E. rewrite !drop_0 in E.
  apply (f_equal (str_join (char1 ":"))) in E. rewrite !join_split_on in E.
  apply (f_equal (no_byte ":")) in E. rewrite no_colon_app in E. cbn in E. by rewrite andb_false_r in E.
Qed.

Lemma index_plain i : Z.of_nat i ≤ u64_max → no_byte ":" (display_nat i) = true.
Proof.
  intros Hi. unfold display_nat. destruct (display_Z_spec (Z.of_nat i)) as [Hd _]; [lia|].
  unfold all_digits in Hd. apply andb_true_iff in Hd as [_ Hd]. unfold no_byte. eapply sforall_impl; [|exact Hd].
  intros c. destruct (Ascii.eqb_spec c ":") as [->|]; done.
Qed.

Lemma chunk_key_inj A B b c i j :
  no_colon A → no_colon B → no_colon b → no_colon c → Z.of_nat i ≤ u64_max → Z.of_nat j ≤ u64_max →
  chunk_key A b i = chunk_key B c j → A = B ∧ b = c ∧ i = j.
Proof.
  unfold no_colon. intros HA HB Hb Hc Hi Hj E. apply (f_equal (split_on ":")) in E.
  unfold CredentialStore.chunk_key in E. change ":" with (char1 ":") in E.
  rewrite !split_on_join in E by (first [done|repeat constructor; first [done|by apply index_plain]]).
  injection E as -> -> E. split_and!; [done|done|].
  apply (f_equal (parse_unsigned u64_max)) in E. unfold display_nat in E.
  rewrite !parse_unsigned_display in E by lia. injection E as E. lia.
Qed.

(** The blobs a valid head names are valid. *)
Lemma retired_valid live l ids ids' :
  try_fold (retired_validate live) ids l = Ok ids' →
  Forall (λ b, blob_validate b = Ok tt ∧ live ≠ Some (blob_id b)) l ∧ NoDup (blob_id <$> l) ∧
  ∀ b, b ∈ l → blob_id b ∉ ids.
Proof.
  revert ids. induction l as [|b l IH]; intros ids; simpl.
  { intros _. split_and!; [done|constructor|by intros b ?%elem_of_nil]. }
  intros (ids1 & Hb & Hl)%bind_ok. unfold retired_validate in Hb. ok_inv.
  destruct (IH _ Hl) as (Hall & Hnd & Hnot). rename select (blob_validate b = _) into Hv.
  assert (live ≠ Some (blob_id b)) as Hlive.
  { intros ->. rename select (opt_eqb _ _ = false) into Ho. cbn in Ho.
    by rewrite (proj2 (str_eqb_spec _ _) eq_refl) in Ho. }
  rename select (char_in _ _ = false) into Hin.
  assert (blob_id b ∉ ids) as Hbid.
  { intros Hid. apply not_true_iff_false in Hin. apply Hin. unfold char_in. apply existsb_exists. exists (blob_id b).
    split; [by apply list_elem_of_In|by apply String.eqb_refl]. }
  split_and!.
  - by constructor.
  - apply list.NoDup_cons. split; [|done]. intros (c & Ec & Hc)%list_elem_of_fmap. apply (Hnot c Hc). rewrite <-Ec.
    apply elem_of_app. right. by left.
  - intros c [->|Hc]%elem_of_cons; [done|]. intros Hci. apply (Hnot c Hc). apply elem_of_app. by left.
Qed.

Lemma valid_head_named h :
  head_validate h = Ok tt →
  Forall (λ b, blob_validate b = Ok tt) (named h) ∧ NoDup (blob_id <$> named h).
Proof.
  unfold head_validate, named. intros Hv. ok_inv. rename select (try_fold _ _ _ = _) into Hr.
  apply retired_valid in Hr as (Hall & Hnd & _). rename select (state_validate h = _) into Hs.
  assert (Forall (λ b, blob_validate b = Ok tt) (head_retired h)) as Hret
    by (eapply list.Forall_impl; [exact Hall|]; by intros ? [? _]).
  unfold state_validate in Hs. destruct (head_state h) as [blob|previous candidate|].
  - ok_inv. subst. split.
    + apply list.Forall_app. split; [done|]. by apply list.Forall_singleton.
    + rewrite fmap_app. apply list.NoDup_app. split; [done|]. split; [|apply list.NoDup_singleton].
      intros i (b & -> & Hb)%list_elem_of_fmap E%list_elem_of_singleton.
      eapply list.Forall_forall in Hall as [_ Hne]; [|exact Hb]. apply Hne. by rewrite E.
  - ok_inv. destruct (head_retired h); [|done]. cbn [app].
    destruct previous as [b|], candidate as [c|]; cbn [validate_optional option_list app] in *; ok_inv;
      (split; [by repeat constructor|]); cbn; repeat constructor; try set_solver.
    rename select (is_some_and _ _ = false) into Hne. cbn in Hne. apply str_eqb_false in Hne. set_solver.
  - ok_inv. by rewrite app_nil_r.
Qed.

Lemma blob_chunks_bound b : blob_validate b = Ok tt → blob_chunks b ≤ 73.
Proof.
  unfold blob_validate. intros Hv. ok_inv. rename select (_ <? blob_chunks b = false) into Hb. apply Z.ltb_ge in Hb.
  etrans; [exact Hb|]. by destruct (blob_layout b).
Qed.

Lemma retired_keys_spec A l key :
  key ∈ retired_keys A l ↔ ∃ b i, b ∈ l ∧ i ∈ chunk_indices b ∧ key = chunk_key A (blob_id b) i.
Proof.
  unfold CredentialStore.retired_keys. rewrite list_elem_of_bind. setoid_rewrite list_elem_of_fmap. naive_solver.
Qed.

Lemma retired_keys_app A l k key : key ∈ retired_keys A (l ++ k) ↔ key ∈ retired_keys A l ∨ key ∈ retired_keys A k.
Proof. rewrite !retired_keys_spec. setoid_rewrite elem_of_app. naive_solver. Qed.

(** ** What an account's head is *)

Definition head_in e (A : string) : option Head := bytes ← e !! head_key A; head_from_slice bytes.

Lemma read_head_reads A : reads (read_head profile A).
Proof. unfold read_head. auto 8 with reads. Qed.

Lemma read_head_ok A w o w' :
  read_head profile A w = (Ok o, w') →
  entries w' = entries w ∧ o = head_in (entries w) A ∧
  match o with Some h => head_validate h = Ok tt | None => entries w !! head_key A = None end.
Proof.
  intros Hr. pose proof (read_head_reads _ _ _ _ Hr) as Hw. split; [done|]. unfold read_head in Hr.
  apply eff_bind_ok in Hr as (found & w1 & Hg & Hr). apply keyring_get_ok in Hg as ->. unfold head_in.
  destruct (entries w !! head_key A) as [bytes|] eqn:E; [|by apply eff_ret_ok in Hr as [<- _]].
  apply eff_bind_ok in Hr as ([] & w2 & [_ <-]%lift_ok & Hr).
  apply eff_bind_ok in Hr as (h & w2 & [Hh <-]%lift_ok & Hr). apply ok_or_ok in Hh.
  apply eff_bind_ok in Hr as ([] & w2 & [Hv <-]%lift_ok & Hr). by apply eff_ret_ok in Hr as [<- _].
Qed.

Lemma read_head_fits A w o w' :
  read_head profile A w = (Ok o, w') → ∀ bytes, entries w !! head_key A = Some bytes → str_len bytes ≤ MAX_HEAD_BYTES.
Proof.
  intros Hr bytes E. unfold read_head in Hr. apply eff_bind_ok in Hr as (found & w1 & Hg & Hr).
  apply keyring_get_ok in Hg as ->. rewrite E in Hr. apply eff_bind_ok in Hr as ([] & w2 & [Hl _]%lift_ok & _).
  apply err_if_ok in Hl. lia.
Qed.

(** ** Transitions *)

(** Every chunk of the blob is there, and they decode to the bundle. *)
Definition reads_back e (A : string) (b : Blob) (c : Credentials) : Prop :=
  ∀ w r w', entries w = e → read_blob profile A b w = (r, w') → r = Ok c ∨ r = Err Unavailable.

Inductive head_moves e (A : string) : option Head → Head → Prop :=
| MoveBegin current operation :
    no_colon operation → is_some_and current is_pending = false →
    match current with Some h => head_retired h = [] | None => True end →
    head_moves e A current (new_head (revision_of current + 1) operation
      (Pending (h ← current; match head_state h with Live blob => Some blob | _ => None end) None) [])
| MoveCandidate h previous candidate blob :
    head_state h = Pending previous candidate → (∀ b, candidate = Some b → b = blob) →
    head_moves e A (Some h) (with_state h (Pending previous (Some blob)) (head_retired h))
| MoveLive h previous blob c :
    head_state h = Pending previous (Some blob) → head_retired h = [] → reads_back e A blob c →
    head_moves e A (Some h) (with_state h (Live blob) (option_list previous))
| MoveClean h :
    (∀ key, key ∈ retired_keys A (head_retired h) → e !! key = None) →
    head_moves e A (Some h) (with_state h (head_state h) [])
| MoveDelete current operation :
    no_colon operation →
    head_moves e A current (new_head (revision_of current + 1) operation Deleted
      (match current with Some h => named h | None => [] end)).

Inductive credential_step (A : string) e : gmap string string → Prop :=
| StepErase h key :
    head_in e A = Some h → head_validate h = Ok tt → key ∈ retired_keys A (head_retired h) →
    credential_step A e (delete key e)
| StepChunk h previous blob i chunk :
    head_in e A = Some h → head_validate h = Ok tt → head_state h = Pending previous (Some blob) →
    i ∈ chunk_indices blob →
    credential_step A e (<[chunk_key A (blob_id blob) i := chunk]> e)
| StepHead current h bytes :
    current = head_in e A → match current with Some h => head_validate h = Ok tt | None => e !! head_key A = None end →
    head_moves e A current h → head_validate h = Ok tt → head_to_vec h = Some bytes →
    str_len bytes ≤ MAX_HEAD_BYTES →
    credential_step A e (<[head_key A := bytes]> e).


(** ** What every transition keeps *)

Lemma head_in_other e key f B :
  key ≠ head_key B → (∀ k, k ≠ key → f e !! k = e !! k) → head_in (f e) B = head_in e B.
Proof. intros Hne Hf. unfold head_in. by rewrite Hf. Qed.

Lemma head_in_written e A h bytes :
  head_validate h = Ok tt → head_to_vec h = Some bytes → head_in (<[head_key A := bytes]> e) A = Some h.
Proof. intros Hv Hb. unfold head_in. rewrite lookup_insert_eq. simpl. by apply head_roundtrip. Qed.

Lemma head_in_insert e key bytes B : key ≠ head_key B → head_in (<[key := bytes]> e) B = head_in e B.
Proof. intros Hne. unfold head_in. by rewrite lookup_insert_ne. Qed.

Lemma head_in_delete e key B : key ≠ head_key B → head_in (delete key e) B = head_in e B.
Proof. intros Hne. unfold head_in. by rewrite lookup_delete_ne. Qed.

Lemma retired_not_head A B l key : no_colon A → no_colon B → key ∈ retired_keys A l → key ≠ head_key B.
Proof. intros HA HB (b & i & _ & _ & ->)%retired_keys_spec. by apply chunk_not_head. Qed.

Lemma head_in_law e A h :
  head_in e A = Some h →
  0 ≤ head_revision h ∧ no_colon (head_operation h) ∧ Forall (λ b, no_colon (blob_id b)) (named h).
Proof. intros (bytes & _ & Hh)%bind_Some. by eapply head_read. Qed.

(** Every entry is the head of an account or a chunk that its head names. *)
Definition accounted e : Prop :=
  ∀ key, is_Some (e !! key) → ∃ A h, no_colon A ∧ head_in e A = Some h ∧ head_validate h = Ok tt ∧
    (key = head_key A ∨ key ∈ retired_keys A (named h)).

(** The chunks that are there of the old head are named by the new one. *)
Lemma moves_named e A current h' h key :
  head_moves e A current h' → current = Some h → is_Some (e !! key) → key ∈ retired_keys A (named h) →
  key ∈ retired_keys A (named h').
Proof.
  intros [current' operation _ Hp Hr|h0 previous candidate blob Es Hc|h0 previous blob c Es Hr _|h0 Hgone|current' operation _]
    E Hkey Hin; injection E as ->||subst current'; unfold named in *; cbn [with_state new_head head_retired head_state revision_of].
  - cbn in *. rewrite Hr in Hin. unfold is_pending in Hp. by destruct (head_state h).
  - rewrite Es in Hin. rewrite !retired_keys_app in *. destruct Hin as [Hin|[Hin|Hin]]; [by left|by right; left|].
    destruct candidate as [b|]; [|by apply retired_keys_spec in Hin as (? & ? & ?%elem_of_nil & _)].
    right; right. by rewrite <-(Hc b eq_refl).
  - rewrite Es, Hr in Hin. rewrite !retired_keys_app in *. destruct Hin as [Hin|[Hin|Hin]]; [|by left|by right].
    by apply retired_keys_spec in Hin as (? & ? & ?%elem_of_nil & _).
  - rewrite !retired_keys_app in *. destruct Hin as [Hin|Hin]; [|by right]. rewrite Hgone in Hkey by done. by destruct Hkey.
  - cbn. by rewrite app_nil_r.
Qed.

Lemma step_accounted A e e' : no_colon A → credential_step A e e' → accounted e → accounted e'.
Proof.
  intros HA Hstep Hacc key Hkey.
  destruct Hstep as [h gone Hh Hv Hin|h previous blob i chunk Hh Hv Es Hi|current h bytes -> Hcur Hm Hv Hb Hlen].
  - destruct (decide (key = gone)) as [->|Hne]; [rewrite lookup_delete_eq in Hkey; by destruct Hkey|].
    rewrite lookup_delete_ne in Hkey by done. destruct (Hacc key Hkey) as (B & hB & HB & EB & Hw).
    exists B, hB. split; [done|]. split; [|done]. rewrite head_in_delete; [done|].
    by apply (retired_not_head A B (head_retired h)).
  - destruct (decide (key = chunk_key A (blob_id blob) i)) as [->|Hne].
    + exists A, h. rewrite head_in_insert by by apply chunk_not_head. split_and!; try done. right.
      apply retired_keys_spec. exists blob, i. split_and!; [|done|done]. unfold named. rewrite Es.
      rewrite !elem_of_app. right; right. by left.
    + rewrite lookup_insert_ne in Hkey by done. destruct (Hacc key Hkey) as (B & hB & HB & EB & Hw).
      exists B, hB. rewrite head_in_insert by by apply chunk_not_head. done.
  - destruct (decide (key = head_key A)) as [->|Hne].
    { exists A, h. rewrite (head_in_written _ _ _ _ Hv Hb). split_and!; auto. }
    rewrite lookup_insert_ne in Hkey by done. destruct (Hacc key Hkey) as (B & hB & HB & EB & HvB & Hw).
    destruct (decide (A = B)) as [<-|HAB].
    + exists A, h. rewrite (head_in_written _ _ _ _ Hv Hb). split_and!; [done|done|done|]. right.
      destruct Hw as [->|Hw]; [done|]. by eapply moves_named.
    + exists B, hB. rewrite head_in_insert; [done|]. intros E. by apply HAB, head_key_inj.
Qed.

(** ** What was saved is kept *)

Definition same_chunks (A : string) (b : Blob) e e' : Prop :=
  ∀ i, i ∈ chunk_indices b → e' !! chunk_key A (blob_id b) i = e !! chunk_key A (blob_id b) i.

Lemma read_chunk_agree A b bytes i w w' :
  entries w' !! chunk_key A (blob_id b) i = entries w !! chunk_key A (blob_id b) i → answers w = answers w' →
  ∃ r, read_chunk profile A b bytes i w = (r, set_entries w (entries w)) ∧
    read_chunk profile A b bytes i w' = (r, set_entries w' (entries w')).
Proof.
  intros He Ha. unfold read_chunk.
  assert (∀ v, keyring_get (chunk_key A (blob_id b) i) v =
    (match next_answer v with
     | Answers => Ok (entries v !! chunk_key A (blob_id b) i)
     | _ => Err Unavailable end, set_entries v (entries v))) as Hg
    by (intros v; unfold keyring_get; by destruct (next_answer v)).
  rewrite (eff_bind_run _ _ _ _ _ (Hg w)), (eff_bind_run _ _ _ _ _ (Hg w')).
  unfold next_answer. rewrite He, Ha. destruct (default Answers _); [|by eexists|by eexists].
  rewrite !lift_bind_run. destruct (ok_or _ _) as [chunk|]; [|by eexists].
  rewrite !lift_bind_run. destruct (err_if _ _) as [u|]; by eexists.
Qed.

Lemma read_chunks_agree A b l bytes w w' :
  (∀ i, i ∈ l → entries w' !! chunk_key A (blob_id b) i = entries w !! chunk_key A (blob_id b) i) →
  answers w = answers w' →
  (eff_fold (read_chunk profile A b) bytes l w').1 = (eff_fold (read_chunk profile A b) bytes l w).1.
Proof.
  revert bytes w w'. induction l as [|i l IH]; intros bytes w w' Hl Ha; [done|]. cbn [eff_fold].
  destruct (read_chunk_agree A b bytes i w w') as (r & E & E'); [apply Hl; by left|done|].
  rewrite (eff_bind_run _ _ _ _ _ E), (eff_bind_run _ _ _ _ _ E'). destruct r as [s|]; [|done].
  apply IH; [|cbn; by rewrite Ha]. intros j Hj. apply Hl. by right.
Qed.

Lemma reads_back_agree e e' A b c : same_chunks A b e e' → reads_back e A b c → reads_back e' A b c.
Proof.
  intros Hsame Hr w' r w1 Hw' Hrun. set (w := {| entries := e; answers := answers w' |}).
  assert ((read_blob profile A b w').1 = (read_blob profile A b w).1) as E.
  { unfold read_blob. rewrite !lift_bind_run. destruct (blob_validate b) as [u|]; [|done].
    pose proof (read_chunks_agree A b (chunk_indices b) "" w w') as Hc.
    specialize (Hc ltac:(intros i Hi; rewrite Hw'; by apply Hsame) eq_refl).
    destruct (eff_fold _ "" _ w) as [x wx] eqn:Ex, (eff_fold _ "" _ w') as [y wy] eqn:Ey. cbn in Hc. subst y.
    rewrite (eff_bind_run _ _ _ _ _ Ex), (eff_bind_run _ _ _ _ _ Ey). destruct x as [x|]; [|done].
    rewrite !lift_bind_run. by destruct (err_if _ _). }
  rewrite Hrun in E. destruct (read_blob profile A b w) as [r2 w2] eqn:E2. cbn in E. subst r2.
  by apply (Hr w r w2).
Qed.

Definition revision_in e (A : string) : Z := revision_of (head_in e A).

(** The head of an account as a read accepts it. *)
Definition at_head e (A : string) (h : Head) : Prop :=
  head_in e A = Some h ∧ head_validate h = Ok tt ∧
  ∀ bytes, e !! head_key A = Some bytes → str_len bytes ≤ MAX_HEAD_BYTES.

Lemma at_head_other e e' A h : e' !! head_key A = e !! head_key A → at_head e A h → at_head e' A h.
Proof. unfold at_head, head_in. by intros ->. Qed.

Lemma at_head_written e A h bytes :
  head_validate h = Ok tt → head_to_vec h = Some bytes → str_len bytes ≤ MAX_HEAD_BYTES →
  at_head (<[head_key A := bytes]> e) A h.
Proof.
  intros Hv Hb Hlen. split; [by apply head_in_written|]. split; [done|]. rewrite lookup_insert_eq. by intros ? [= <-].
Qed.

(** Under this revision the bundle is published. *)
Definition published e (A : string) (revision : Z) (c : Credentials) : Prop :=
  ∃ h b, at_head e A h ∧ head_revision h = revision ∧ head_state h = Live b ∧ reads_back e A b c.

Lemma chunk_index_bound b i : blob_validate b = Ok tt → i ∈ chunk_indices b → Z.of_nat i ≤ u64_max.
Proof.
  intros Hv%blob_chunks_bound Hi. unfold chunk_indices in Hi. apply elem_of_seq in Hi. unfold u64_max. lia.
Qed.

Lemma named_blob e A h b :
  head_in e A = Some h → head_validate h = Ok tt → b ∈ named h → blob_validate b = Ok tt ∧ no_colon (blob_id b).
Proof.
  intros Hh Hv Hb. apply head_in_law in Hh as (_ & _ & Hc). apply valid_head_named in Hv as [Hv _].
  rewrite list.Forall_forall in Hv, Hc. auto.
Qed.

(** A chunk of a live blob is neither erased nor overwritten. *)
Lemma live_chunk_apart e A B h b h' b' i i' :
  no_colon A → no_colon B → head_in e B = Some h → head_validate h = Ok tt → head_state h = Live b →
  i ∈ chunk_indices b →
  head_in e A = Some h' → head_validate h' = Ok tt → b' ∈ named h' → i' ∈ chunk_indices b' →
  (A = B → b' ∈ head_retired h') → chunk_key B (blob_id b) i ≠ chunk_key A (blob_id b') i'.
Proof.
  intros HA HB Hh Hv Es Hi Hh' Hv' Hb' Hi' Hret E.
  assert (b ∈ named h) as Hb by (unfold named; rewrite Es; apply elem_of_app; right; by left).
  destruct (named_blob _ _ _ _ Hh Hv Hb) as [Vb Cb], (named_blob _ _ _ _ Hh' Hv' Hb') as [Vb' Cb'].
  apply chunk_key_inj in E as (-> & Eid & _); try done;
    [|by apply (chunk_index_bound b)|by apply (chunk_index_bound b')].
  rewrite Hh in Hh'. injection Hh' as <-. specialize (Hret eq_refl). destruct (valid_head_named _ Hv) as [_ Hnd].
  unfold named in Hnd. rewrite Es, fmap_app in Hnd. apply list.NoDup_app in Hnd as (_ & Hdis & _).
  apply (Hdis (blob_id b')); [by apply list_elem_of_fmap_2|]. rewrite <-Eid. by left.
Qed.

Lemma moves_revision e A current h :
  head_moves e A current h → revision_of current ≤ head_revision h.
Proof. destruct 1; cbn; lia. Qed.

(** A live head is cleaned or gives way to a later revision. *)
Lemma moves_live e A h h' b :
  head_moves e A (Some h) h' → head_state h = Live b →
  h' = with_state h (Live b) [] ∨ head_revision h < head_revision h'.
Proof.
  intros Hm Es. remember (Some h) as current eqn:E.
  destruct Hm as [current operation _ _ _|h0 previous candidate blob Es0 _|h0 previous blob c0 Es0 _ _|h0 _|current operation _];
    try (injection E as ->); subst; cbn; try (right; lia); try congruence. left. by rewrite Es.
Qed.

Lemma step_revision A B e e' :
  no_colon A → no_colon B → credential_step A e e' → revision_in e B ≤ revision_in e' B.
Proof.
  intros HA HB Hstep. unfold revision_in.
  destruct Hstep as [h gone Hh Hv Hin|h previous blob i chunk Hh Hv Es Hi|current h bytes -> Hcur Hm Hv Hb Hlen].
  - by rewrite (head_in_delete _ _ _ (retired_not_head _ _ _ _ HA HB Hin)).
  - by rewrite head_in_insert by by apply chunk_not_head.
  - destruct (decide (A = B)) as [<-|HAB].
    + rewrite (head_in_written _ _ _ _ Hv Hb). by apply moves_revision in Hm.
    + rewrite head_in_insert; [done|]. intros E. by apply HAB, head_key_inj.
Qed.

Lemma step_published A B e e' revision c :
  no_colon A → no_colon B → credential_step A e e' → published e B revision c →
  published e' B revision c ∨ revision < revision_in e' B.
Proof.
  intros HA HB Hstep (h & b & Hat & Erev & Es & Hread). pose proof Hat as (Hh & Hv & _).
  destruct Hstep as [h' gone Hh' Hv' Hin|h' previous blob i chunk Hh' Hv' Es' Hi|current h' bytes -> Hcur Hm Hv' Hb' Hlen].
  - left. exists h, b. split; [|split_and!; [done|done|]].
    { eapply at_head_other; [|exact Hat]. apply lookup_delete_ne. by apply (retired_not_head A B (head_retired h')). }
    eapply reads_back_agree; [|exact Hread]. intros j Hj. apply lookup_delete_ne.
    apply retired_keys_spec in Hin as (b' & i' & Hb' & Hi' & ->). symmetry.
    eapply (live_chunk_apart e A B h b h' b' j i'); try done. unfold named. apply elem_of_app. by left.
  - left. exists h, b. split; [|split_and!; [done|done|]].
    { eapply at_head_other; [|exact Hat]. apply lookup_insert_ne. by apply chunk_not_head. }
    eapply reads_back_agree; [|exact Hread]. intros j Hj. apply lookup_insert_ne. symmetry.
    eapply (live_chunk_apart e A B h b h' blob j i); try done.
    + unfold named. rewrite Es'. rewrite !elem_of_app. right; right. by left.
    + intros ->. rewrite Hh in Hh'. injection Hh' as <-. congruence.
  - assert (same_chunks B b e (<[head_key A := bytes]> e)) as Hsame.
    { intros j Hj. apply lookup_insert_ne. intros E. by apply (chunk_not_head B A (blob_id b) j). }
    destruct (decide (A = B)) as [<-|HAB].
    + pose proof (at_head_written e A h' bytes Hv' Hb' Hlen) as Hat'. unfold revision_in.
      rewrite (head_in_written _ _ _ _ Hv' Hb'). rewrite Hh in Hm.
      destruct (moves_live _ _ _ _ _ Hm Es) as [->|Hlt]; [left|right; cbn; lia].
      eexists _, b. split_and!; [exact Hat'|done|done|]. by eapply reads_back_agree.
    + left. exists h, b. split; [|split_and!; [done|done|by eapply reads_back_agree]].
      eapply at_head_other; [|exact Hat]. apply lookup_insert_ne. intros E. by apply HAB, head_key_inj.
Qed.
End steps.
