(* ===== verification/CredentialProps.v ===== *)
(** * What the credential store promises

    Every operation is a sequence of transitions, so that no fault of the
    keyring orphans a secret, a revision is never used for two bundles, and
    what a save acknowledged is what a load returns until the next change. *)

From S2P Require Import Prelude RustStr RustText Effect AccountModel CredentialStore CredentialSteps.

Open Scope string_scope.
Open Scope list_scope.
Open Scope Z_scope.

Section props.
Context `{CredentialLaws}.
Variable (profile : string) (macos : bool).
Hypothesis profile_plain : no_colon profile.
Notation head_key := (head_key profile).
Notation chunk_key := (chunk_key profile).
Notation retired_keys := (retired_keys profile).
Notation head_in := (head_in profile).
Notation at_head := (at_head profile).
Notation steps A := (rtc (credential_step profile A)).
Implicit Types (e : gmap string string) (h : Head) (w : Keyring).

(** ** Writes *)

Lemma try_bind_inv {A B} (m : eff Keyring CredentialError A) (k : result CredentialError A → eff Keyring CredentialError B)
    w r w' :
  (eff_try (F := CredentialError) m ≫= k) w = (r, w') → ∃ a w1, m w = (a, w1) ∧ k a w1 = (r, w').
Proof.
  unfold mbind, eff_bind, eff_try. destruct (m w) as [a w1]. intros Hk. by exists a, w1.
Qed.

Lemma bind_inv {A B} (m : eff Keyring CredentialError A) (k : A → eff Keyring CredentialError B) w r w' :
  (m ≫= k) w = (r, w') →
  (∃ a w1, m w = (Ok a, w1) ∧ k a w1 = (r, w')) ∨ (∃ err, m w = (Err err, w') ∧ r = Err err).
Proof.
  unfold mbind, eff_bind. destruct (m w) as [[a|err] w1]; [left; by exists a, w1|].
  intros [= <- <-]. right. by exists err.
Qed.

(** A write that was acknowledged is there, one that was not may be. *)
Lemma write_entry_run key bytes w r w' :
  write_entry key bytes w = (r, w') →
  (entries w' = entries w ∨ entries w' = <[key := bytes]> (entries w)) ∧
  (is_ok r = true → entries w' = <[key := bytes]> (entries w)).
Proof.
  unfold write_entry. intros (a & w1 & Hset & Hr)%try_bind_inv. apply try_bind_inv in Hr as (found & w2 & Hget & Hr).
  injection Hr as <- <-. pose proof (keyring_get_entries _ _ _ _ Hget) as E2. rewrite E2.
  apply keyring_change_entries in Hset as Hw1. split; [done|].
  destruct found as [o|]; [|done]. apply keyring_get_ok in Hget as ->.
  destruct (entries w1 !! key) as [actual|] eqn:E; [|done]. destruct (str_eqb actual bytes) eqn:Eb; [|done].
  apply str_eqb_spec in Eb as ->. intros _. destruct Hw1 as [Hw1|Hw1]; [|done].
  rewrite Hw1 in *. by rewrite insert_id.
Qed.

(** What a step that may fail does to the entries: transitions in any case,
    and more when it succeeds. *)
Definition moves {T} (A : string) w (m : eff Keyring CredentialError T) (Q : T → gmap string string → Prop) : Prop :=
  ∀ r w', m w = (r, w') → steps A (entries w) (entries w') ∧ (∀ a, r = Ok a → Q a (entries w')).

Lemma moves_bind {T U} A w (m : eff Keyring CredentialError T) (k : T → eff Keyring CredentialError U) Q R :
  moves A w m Q → (∀ a w1, Q a (entries w1) → steps A (entries w) (entries w1) → moves A w1 (k a) R) →
  moves A w (m ≫= k) R.
Proof.
  intros Hm Hk r w' [(a & w1 & E & Hr)|(err & E & ->)]%bind_inv.
  - destruct (Hm _ _ E) as [Hs HQ]. destruct (Hk a w1 (HQ a eq_refl) Hs _ _ Hr) as [Hs' HR]. split; [by etrans|done].
  - destruct (Hm _ _ E) as [Hs _]. by split.
Qed.

Lemma moves_conseq {T} A w (m : eff Keyring CredentialError T) Q R :
  moves A w m Q → (∀ a e, Q a e → R a e) → moves A w m R.
Proof. intros Hm HQ r w' E. destruct (Hm r w' E) as [Hs Hr]. split; [done|]. eauto. Qed.

Lemma moves_reads {T} A w (m : eff Keyring CredentialError T) (Q : T → gmap string string → Prop) :
  reads m → (∀ a w1, m w = (Ok a, w1) → Q a (entries w)) → moves A w m Q.
Proof.
  intros Hr HQ r w' E. rewrite (Hr _ _ _ E). split; [done|]. intros a ->. by eapply HQ.
Qed.

Lemma moves_lift {T} A w (x : result CredentialError T) (Q : T → gmap string string → Prop) :
  (∀ a, x = Ok a → Q a (entries w)) → moves A w (lift x) Q.
Proof. intros HQ. apply moves_reads; [apply reads_lift|]. intros a w1 [E _]%lift_ok. auto. Qed.

Lemma moves_ret {T} A w (x : T) (Q : T → gmap string string → Prop) : Q x (entries w) → moves A w (mret x) Q.
Proof. intros HQ. apply moves_reads; [apply reads_ret|]. by intros a w1 [<- _]%eff_ret_ok. Qed.


Lemma moves_lift_bind {T U} A w (x : result CredentialError T) (k : T → eff Keyring CredentialError U) R :
  (∀ a, x = Ok a → moves A w (k a) R) → moves A w (lift x ≫= k) R.
Proof.
  intros Hk r w'. rewrite lift_bind_run. destruct x as [a|err]; [by apply Hk|]. intros [= <- <-]. by split.
Qed.

Lemma moves_reads_bind {T U} A w (m : eff Keyring CredentialError T) (k : T → eff Keyring CredentialError U) R :
  reads m → (∀ a w1, m w = (Ok a, w1) → entries w1 = entries w → moves A w1 (k a) R) → moves A w (m ≫= k) R.
Proof.
  intros Hm Hk r w' [(a & w1 & E & Hr)|(err & E & ->)]%bind_inv.
  - pose proof (Hm _ _ _ E) as Hw. destruct (Hk a w1 E Hw _ _ Hr) as [Hs HR]. rewrite Hw in Hs. by split.
  - rewrite (Hm _ _ _ E). by split.
Qed.

Lemma write_head_run A h w r w' :
  write_head profile A h w = (r, w') →
  entries w' = entries w ∨
  ∃ bytes, head_validate h = Ok tt ∧ head_to_vec h = Some bytes ∧ str_len bytes ≤ MAX_HEAD_BYTES ∧
    entries w' = <[head_key A := bytes]> (entries w).
Proof.
  unfold write_head. rewrite lift_bind_run. destruct (head_validate h) as [[]|] eqn:Ev; [|intros [= _ <-]; by left].
  rewrite lift_bind_run. destruct (head_to_vec h) as [bytes|] eqn:Eb; [|intros [= _ <-]; by left].
  cbn [ok_or]. rewrite lift_bind_run. destruct (_ <? _) eqn:El; [intros [= _ <-]; by left|].
  intros [[->| ->] _]%write_entry_run; [by left|right; exists bytes]. split_and!; (done || lia).
Qed.

Lemma write_head_moves A h' w current :
  no_colon A → head_in (entries w) A = current →
  match current with Some h => head_validate h = Ok tt | None => entries w !! head_key A = None end →
  head_moves profile (entries w) A current h' →
  moves A w (write_head profile A h')
    (λ _ e, at_head e A h' ∧ ∀ key, key ≠ head_key A → e !! key = entries w !! key).
Proof.
  intros HA Hcur Hok Hm. unfold write_head. apply moves_lift_bind. intros [] Hv.
  apply moves_lift_bind. intros bytes Hb%ok_or_ok. apply moves_lift_bind. intros [] Hlen%err_if_ok r w' Hr.
  apply Z.ltb_ge in Hlen.
  apply write_entry_run in Hr as [Hw Hok']. subst current. split.
  - destruct Hw as [->| ->]; [done|]. apply rtc_once. by eapply StepHead.
  - intros a ->. rewrite (Hok' eq_refl). split.
    + by apply at_head_written.
    + intros key Hne. by apply lookup_insert_ne.
Qed.

(** ** Cleaning up *)

Definition shrinks e e' : Prop := ∀ key, e' !! key = e !! key ∨ e' !! key = None.

Lemma clean_chunks_moves A h keys w :
  no_colon A → at_head (entries w) A h → (∀ key, key ∈ keys → key ∈ retired_keys A (head_retired h)) →
  moves A w (eff_fold (λ _ key, clean_chunk key) tt keys)
    (λ _ e, at_head e A h ∧ shrinks (entries w) e ∧ ∀ key, key ∈ keys → e !! key = None).
Proof.
  intros HA. revert w. induction keys as [|key keys IH]; intros w Hh Hin.
  { apply moves_ret. split_and!; [done|by left|by intros key ?%elem_of_nil]. }
  intros r w' Hr. cbn [eff_fold] in Hr. apply bind_inv in Hr.
  assert (∀ x w1, clean_chunk key w = (x, w1) →
    steps A (entries w) (entries w1) ∧ at_head (entries w1) A h ∧ shrinks (entries w) (entries w1) ∧
    (is_ok x = true → entries w1 !! key = None)) as Hone.
  { intros x w1 Hx. unfold clean_chunk in Hx. apply try_bind_inv in Hx as (a & w2 & Hdel & Hx).
    apply try_bind_inv in Hx as (found & w3 & Hget & Hx). injection Hx as <- <-.
    rewrite (keyring_get_entries _ _ _ _ Hget). pose proof (Hin key ltac:(left)) as Hkey.
    assert (steps A (entries w) (entries w2) ∧ at_head (entries w2) A h ∧ shrinks (entries w) (entries w2)) as (? & ? & ?).
    { apply keyring_change_entries in Hdel as [->| ->].
      { split_and!; [done|done|by left]. } split_and!.
      - destruct Hh as (Eh & Vh & _). apply rtc_once. by eapply StepErase.
      - eapply at_head_other; [|exact Hh]. apply lookup_delete_ne.
        by apply (retired_not_head profile profile_plain A A (head_retired h)).
      - intros k. destruct (decide (k = key)) as [->|Hne]; [right; apply lookup_delete_eq|left; by apply lookup_delete_ne]. }
    split_and!; try done. destruct found as [[o|]|]; try done. apply keyring_get_ok in Hget as <-. done. }
  destruct Hr as [([] & w1 & Hx & Hr)|(err & Hx & ->)].
  - destruct (Hone _ _ Hx) as (Hs1 & Hh1 & Hsh1 & Hgone). 
    destruct (IH w1 Hh1 (λ k Hk, Hin k (list_elem_of_further _ _ _ Hk)) r w' Hr) as [Hs2 HQ]. split; [by etrans|].
    intros a ->. destruct (HQ a eq_refl) as (Hh2 & Hsh2 & Hg2). split_and!; [done| |].
    + intros k. destruct (Hsh2 k) as [->| ->]; [apply Hsh1|by right].
    + intros k [->|Hk]%elem_of_cons; [|by apply Hg2]. destruct (Hsh2 key) as [->| ->]; [by apply Hgone|done].
  - destruct (Hone _ _ Hx) as (Hs1 & _). by split.
Qed.

Lemma cleaned_same h : head_retired h = [] → with_state h (head_state h) [] = h.
Proof. intros E. destruct h as [schema revision operation state retired]. cbn in *. by rewrite E. Qed.

Lemma clean_retired_moves A h w :
  no_colon A → at_head (entries w) A h →
  moves A w (clean_retired profile A h)
    (λ h' e, h' = with_state h (head_state h) [] ∧ at_head e A h' ∧
      ∀ key, key ∈ retired_keys A (head_retired h) → e !! key = None).
Proof.
  intros HA Hh. unfold clean_retired. destruct (head_retired h) as [|b l] eqn:E.
  { apply moves_ret. rewrite cleaned_same by done. split; [done|]. split; [done|].
    by intros key (? & ? & ?%elem_of_nil & _)%retired_keys_spec. }
  rewrite <-E. eapply moves_bind; [by apply clean_chunks_moves|]. intros [] w1 (Hh1 & _ & Hgone) _.
  apply (moves_bind _ _ _ _ (λ _ e, at_head e A (with_state h (head_state h) []) ∧
    ∀ key, key ≠ head_key A → e !! key = entries w1 !! key)).
  - intros r w' Hr. unfold eff_map_err in Hr. destruct (write_head _ _ _ w1) as [r1 w2] eqn:Ew. injection Hr as <- <-.
    destruct Hh1 as (Eh1 & Vh1 & _).
    destruct (write_head_moves A (with_state h (head_state h) []) w1 (Some h) HA Eh1 Vh1 (MoveClean _ _ _ _ Hgone) _ _ Ew)
      as [Hs HQ]. split; [done|]. intros a Ha. destruct r1 as [u|]; [by eapply HQ|done].
  - intros [] w2 [Hh2 Hsame] _. apply moves_ret. split; [done|]. split; [done|]. intros key Hkey.
    rewrite Hsame by by apply (retired_not_head profile profile_plain A A (head_retired h)). by apply Hgone.
Qed.

Lemma clean_chunks_other keys w r w' key :
  eff_fold (λ _ key, clean_chunk key) tt keys w = (r, w') → key ∉ keys → entries w' !! key = entries w !! key.
Proof.
  revert w. induction keys as [|k keys IH]; intros w Hr Hkey; [by injection Hr as _ <-|].
  apply not_elem_of_cons in Hkey as [Hne Hkey]. cbn [eff_fold] in Hr.
  assert (∀ x w1, clean_chunk k w = (x, w1) → entries w1 !! key = entries w !! key) as Hone.
  { intros x w1 Hx. unfold clean_chunk in Hx. apply try_bind_inv in Hx as (a & w2 & Hdel & Hx).
    apply try_bind_inv in Hx as (found & w3 & Hget & Hx). injection Hx as _ <-.
    rewrite (keyring_get_entries _ _ _ _ Hget). apply keyring_change_entries in Hdel as [->| ->]; [done|].
    by apply lookup_delete_ne. }
  apply bind_inv in Hr as [([] & w1 & Hx & Hr)|(err & Hx & _)]; [|by eapply Hone].
  rewrite (IH w1 Hr Hkey). by eapply Hone.
Qed.

(** A clean-up that fails leaves the head as it was or cleaned. *)
Lemma clean_retired_head A h w r w' :
  no_colon A → at_head (entries w) A h → clean_retired profile A h w = (r, w') →
  head_in (entries w') A = Some h ∨ head_in (entries w') A = Some (with_state h (head_state h) []).
Proof.
  intros HA (Eh & Vh & _) Hc. unfold clean_retired in Hc. destruct (head_retired h) as [|b l] eqn:E.
  { unfold mret, eff_ret in Hc. injection Hc as _ <-. by left. }
  rewrite <-E in Hc. assert (∀ x w1, eff_fold (λ _ key, clean_chunk key) tt (retired_keys A (head_retired h)) w = (x, w1) →
    head_in (entries w1) A = Some h) as Hfold.
  { intros x w1 Hx. rewrite <-Eh. unfold CredentialSteps.head_in.
    rewrite (clean_chunks_other _ _ _ _ (head_key A) Hx); [done|]. intros Hin.
    by apply (retired_not_head profile profile_plain A A _ _ HA HA) in Hin. }
  apply bind_inv in Hc as [([] & w1 & Hx & Hc)|(err & Hx & _)]; [|left; by eapply Hfold].
  specialize (Hfold _ _ Hx).
  assert (∀ x w2, eff_map_err (λ _, CleanupPending) (write_head profile A (with_state h (head_state h) [])) w1 = (x, w2) →
    head_in (entries w2) A = Some h ∨ head_in (entries w2) A = Some (with_state h (head_state h) [])) as Hwrite.
  { intros x w2 Hw. unfold eff_map_err in Hw. destruct (write_head _ _ _ w1) as [y w3] eqn:Ew. injection Hw as _ <-.
    apply write_head_run in Ew as [->|(bytes & Hv & Hb & _ & ->)]; [by left|right; by apply head_in_written]. }
  apply bind_inv in Hc as [([] & w2 & Hx2 & Hc)|(err & Hx2 & _)]; [|by eapply Hwrite].
  unfold mret, eff_ret in Hc. injection Hc as _ <-. by eapply Hwrite.
Qed.

Lemma settled_receipt_moves A h w :
  no_colon A → at_head (entries w) A h →
  moves A w (settled_receipt profile A h)
    (λ rc e, receipt_revision rc = head_revision h ∧ (receipt_cleanup_pending rc = false →
       at_head e A (with_state h (head_state h) []))).
Proof.
  intros HA Hh r w' Hr. unfold settled_receipt in Hr. apply try_bind_inv in Hr as (x & w1 & Hc & Hr).
  injection Hr as <- <-. destruct (clean_retired_moves A h w HA Hh _ _ Hc) as [Hs HQ]. split; [done|].
  intros rc [= <-]. split; [done|]. cbn. destruct x as [h'|]; [|done]. intros _.
  destruct (HQ h' eq_refl) as (-> & Hh' & _). done.
Qed.

(** ** Blobs *)

(** Two reads of the same entries agree, where the keyring answers both. *)
Lemma read_chunks_det A b l bytes w text w1 w' r w2 :
  eff_fold (read_chunk profile A b) bytes l w = (Ok text, w1) → entries w' = entries w →
  eff_fold (read_chunk profile A b) bytes l w' = (r, w2) → r = Ok text ∨ r = Err Unavailable.
Proof.
  revert bytes w w'. induction l as [|i l IH]; intros bytes w w' Hok Hw Hr.
  { injection Hok as <- _. injection Hr as <- _. by left. }
  cbn [eff_fold] in *. apply eff_bind_ok in Hok as (s1 & v1 & Hc & Hok).
  assert (entries v1 = entries w ∧ ∀ x v2, read_chunk profile A b bytes i w' = (x, v2) →
    entries v2 = entries w ∧ (x = Ok s1 ∨ x = Err Unavailable)) as [Hv1 Hdet].
  { unfold read_chunk in *. apply eff_bind_ok in Hc as (found & v & Hg & Hc).
    pose proof (keyring_get_entries _ _ _ _ Hg) as Hv. apply keyring_get_ok in Hg as ->.
    assert (∀ found, reads (chunk ← lift (ok_or Malformed found);
      lift (err_if (is_empty chunk || (chunk_bytes (blob_layout b) <? str_len chunk) ||
        ((Z.of_nat i + 1 <? blob_chunks b) && negb (str_len chunk =? chunk_bytes (blob_layout b)))) Malformed) ;;
      mret (bytes +:+ chunk))) as Hreads by (intros; auto 8 with reads).
    split; [by rewrite <-Hv; apply (Hreads _ _ _ _ Hc)|]. intros x v2 Hx.
    apply bind_inv in Hx as [(found & v3 & Hg' & Hx)|(err & Hg' & ->)].
    - pose proof (keyring_get_entries _ _ _ _ Hg') as Hv3. apply keyring_get_ok in Hg' as ->. rewrite Hw in *.
      split; [by rewrite <-Hv3; apply (Hreads _ _ _ _ Hx)|]. left.
      rewrite lift_bind_run in Hc, Hx. destruct (ok_or _ _) as [chunk|]; [|done].
      rewrite lift_bind_run in Hc, Hx. destruct (err_if _ _); [|done]. injection Hc as <- _. by injection Hx as <- _.
    - pose proof (keyring_get_entries _ _ _ _ Hg') as Hv3. rewrite Hw in *. split; [done|]. right.
      unfold keyring_get in Hg'. destruct (next_answer w'); congruence. }
  apply bind_inv in Hr as [(s2 & v2 & Hc2 & Hr)|(err & Hc2 & ->)].
  - destruct (Hdet _ _ Hc2) as [Hv2 [[= ->]|[=]]]. eapply (IH s1 v1 v2); [done|congruence|done].
  - destruct (Hdet _ _ Hc2) as [_ [[=]|[= ->]]]. by right.
Qed.

Lemma read_chunk_reads A b bytes i : reads (read_chunk profile A b bytes i).
Proof. unfold read_chunk. auto 8 with reads. Qed.

Lemma read_blob_reads A b : reads (read_blob profile A b).
Proof. unfold read_blob. auto 8 using read_chunk_reads with reads. Qed.

Lemma read_reads_back A b c w w1 :
  read_blob profile A b w = (Ok c, w1) → reads_back profile (entries w) A b c.
Proof.
  intros Hok w' r w2 Hw' Hr. unfold read_blob in *. rewrite lift_bind_run in Hok, Hr.
  destruct (blob_validate b) as [u|]; [|done]. apply eff_bind_ok in Hok as (text & v & Hf & Hok).
  apply bind_inv in Hr as [(text' & v' & Hf' & Hr)|(err & Hf' & ->)].
  - destruct (read_chunks_det _ _ _ _ _ _ _ _ _ _ Hf Hw' Hf') as [[= ->]|[=]].
    rewrite lift_bind_run in Hok, Hr. destruct (err_if _ _); [|done]. left. injection Hr as <- _.
    by injection Hok as -> _.
  - destruct (read_chunks_det _ _ _ _ _ _ _ _ _ _ Hf Hw' Hf') as [[=]|[= ->]]. by right.
Qed.

Lemma split_at_length n s : String.length (split_at n s).2 = (String.length s - n)%nat.
Proof.
  revert s. induction n as [|n IH]; intros [|c s]; try done. simpl. specialize (IH s).
  by destruct (split_at n s).
Qed.

Lemma chunks_of_length fuel size bytes :
  0 < size → (String.length bytes ≤ fuel)%nat →
  Z.of_nat (length (chunks_of fuel size bytes)) = div_ceil (str_len bytes) size.
Proof.
  intros Hsize. revert bytes. induction fuel as [|fuel IH]; intros bytes Hlen; unfold str_len, div_ceil in *.
  - assert (String.length bytes = 0%nat) as -> by lia. cbn. rewrite Z.div_small; lia.
  - cbn [chunks_of]. destruct (is_empty bytes) eqn:Ee.
    + apply is_empty_spec in Ee as ->. cbn. rewrite Z.div_small; lia.
    + apply is_empty_false in Ee. assert (0 < String.length bytes)%nat by (destruct bytes; [done|cbn; lia]).
      cbn [length]. rewrite Nat2Z.inj_succ, IH by (rewrite split_at_length; lia). rewrite split_at_length.
      destruct (decide (Z.of_nat (String.length bytes) ≤ size)).
      * replace (String.length bytes - Z.to_nat size)%nat with 0%nat by lia. cbn.
        rewrite (Z.div_small (size - 1)) by lia.
        replace (Z.of_nat (String.length bytes) + size - 1) with (1 * size + (Z.of_nat (String.length bytes) - 1)) by lia.
        rewrite Z.div_add_l, Z.div_small by lia. lia.
      * replace (Z.of_nat (String.length bytes) + size - 1)
          with (1 * size + (Z.of_nat (String.length bytes - Z.to_nat size) + size - 1)) by lia.
        rewrite Z.div_add_l by lia. lia.
Qed.

(** The chunks of the candidate are written where it names them. *)
Lemma write_chunks_moves A h previous blob bytes w :
  no_colon A → at_head (entries w) A h → head_state h = Pending previous (Some blob) →
  blob_chunks blob = div_ceil (str_len bytes) (chunk_bytes (blob_layout blob)) →
  moves A w (write_chunks profile A blob bytes) (λ _ e, at_head e A h).
Proof.
  intros HA Hh Es Hn. unfold write_chunks.
  set (l := imap pair _). assert (∀ i c, (i, c) ∈ l → i ∈ chunk_indices blob) as Hl.
  { intros i c [j Hj]%list_elem_of_lookup. unfold l in Hj. rewrite list_lookup_imap in Hj.
    apply fmap_Some in Hj as (chunk & Hj & [= -> _]). apply lookup_lt_Some in Hj. unfold chunk_indices.
    apply elem_of_seq. rewrite Hn, <-(chunks_of_length (String.length bytes)); [lia| |lia].
    by destruct (blob_layout blob). }
  clearbody l. revert w Hh. induction l as [|[i c] l IH]; intros w Hh; [by apply moves_ret|]. cbn [eff_fold].
  apply (moves_bind _ _ _ _ (λ _ e, at_head e A h)).
  - intros r w' Hr. pose proof Hh as (Eh & Vh & _).
    assert (steps A (entries w) (<[chunk_key A (blob_id blob) i := c]> (entries w))) as Hstep.
    { apply rtc_once. eapply StepChunk; [done|done|done|]. eapply Hl. by left. }
    assert (at_head (<[chunk_key A (blob_id blob) i := c]> (entries w)) A h) as Hafter.
    { eapply at_head_other; [|exact Hh]. apply lookup_insert_ne. by apply chunk_not_head. }
    apply write_entry_run in Hr as [[Hw|Hw] _]; rewrite Hw; by split.
  - intros [] w1 Hh1 _. apply IH; [|done]. intros j d Hj. eapply Hl. by right.
Qed.

(** ** Publication *)

Lemma steps_revision A e e' : no_colon A → steps A e e' → revision_in profile e A ≤ revision_in profile e' A.
Proof.
  intros HA. induction 1 as [e|e e1 e2 Hstep _ IH]; [lia|]. etrans; [|exact IH]. by eapply step_revision.
Qed.

Lemma published_kept A e e' revision c :
  no_colon A → steps A e e' → published profile e A revision c → revision_in profile e' A ≤ revision →
  published profile e' A revision c.
Proof.
  intros HA. induction 1 as [e|e e1 e2 Hstep Hs IH]; intros Hp Hle; [done|].
  pose proof (steps_revision _ _ _ HA Hs) as Hmono.
  destruct (step_published profile profile_plain A A e e1 revision c HA HA Hstep Hp) as [Hp1|Hlt]; [by apply IH|lia].
Qed.

(** The end of a publication: the live head is written and what it replaced
    cleaned up; the receipt stands for a published bundle. *)
Lemma settle_published A h w b c :
  no_colon A → at_head (entries w) A h → head_state h = Live b → reads_back profile (entries w) A b c →
  moves A w (settled_receipt profile A h)
    (λ rc e, receipt_revision rc = head_revision h ∧ published profile e A (head_revision h) c).
Proof.
  intros HA Hh Es Hread r w' Hr. destruct (settled_receipt_moves A h w HA Hh r w' Hr) as [Hs HQ].
  split; [done|]. intros rc ->. destruct (HQ rc eq_refl) as [Hrc _]. split; [done|].
  assert (published profile (entries w) A (head_revision h) c) as Hp by (by exists h, b).
  eapply published_kept; [done|exact Hs|exact Hp|].
  unfold settled_receipt in Hr. apply try_bind_inv in Hr as (x & w1 & Hc & Hr). injection Hr as _ <-.
  destruct (clean_retired_head A h w x w1 HA Hh Hc) as [E|E]; unfold revision_in; rewrite E; cbn; lia.
Qed.

Lemma pending_retired h previous candidate :
  head_validate h = Ok tt → head_state h = Pending previous candidate → head_retired h = [].
Proof.
  unfold head_validate, state_validate. intros Hv Es. rewrite Es in Hv. ok_inv. by destruct (head_retired h).
Qed.

Lemma publish_moves fence h previous candidate blob bytes c w :
  let A := fence_account fence in
  no_colon A → at_head (entries w) A h → head_state h = Pending previous candidate →
  (∀ b, candidate = Some b → b = blob) →
  blob_chunks blob = div_ceil (str_len bytes) (chunk_bytes (blob_layout blob)) →
  moves A w (publish profile fence h previous blob bytes c)
    (λ rc e, receipt_revision rc = head_revision h ∧ published profile e A (head_revision h) c).
Proof.
  intros A HA (Eh & Vh & _) Es Hc Hn. unfold publish. fold A.
  set (h1 := with_state h (Pending previous (Some blob)) (head_retired h)).
  eapply moves_bind; [eapply write_head_moves; [done|exact Eh|exact Vh|by eapply MoveCandidate]|].
  intros [] w1 [Hh1 _] _. eapply moves_bind; [by eapply (write_chunks_moves A h1)|]. intros [] w2 Hh2 _.
  apply moves_reads_bind; [apply read_blob_reads|]. intros actual w3 Hread Hw3.
  apply moves_lift_bind. intros [] Heq%err_if_ok. apply negb_false_iff, bool_decide_eq_true in Heq as ->.
  apply read_reads_back in Hread. rewrite <-Hw3 in Hread, Hh2. destruct Hh2 as (Eh2 & Vh2 & _).
  pose proof (pending_retired h1 previous (Some blob) Vh2 eq_refl) as Hret.
  set (h2 := with_state h (Live blob) (option_list previous)).
  eapply moves_bind.
  { eapply write_head_moves; [done|exact Eh2|exact Vh2|].
    exact (MoveLive _ _ _ h1 previous blob c eq_refl Hret Hread). }
  intros [] w4 [Hh4 Hsame] _. change (head_revision h) with (head_revision h2).
  apply (settle_published A h2 w4 blob c); [done|done|done|]. eapply reads_back_agree; [|exact Hread].
  intros i _. apply Hsame. by apply chunk_not_head.
Qed.

(** ** Operations *)

Lemma parse_account_plain id A : parse_account id = Ok A → no_colon A.
Proof.
  unfold parse_account. intros Hp%ok_or_ok. apply bind_Some in Hp as (h & Hh & Hn).
  destruct (str_eqb h nil_uuid); [done|]. injection Hn as <-. by eapply canonical_no_colon.
Qed.

(** Reading the head before anything else. *)
Lemma moves_head_bind {T} A w (k : option Head → eff Keyring CredentialError T) R :
  (∀ w1, entries w1 = entries w → entries w !! head_key A = None → moves A w1 (k None) R) →
  (∀ h w1, entries w1 = entries w → at_head (entries w) A h → moves A w1 (k (Some h)) R) →
  moves A w (read_head profile A ≫= k) R.
Proof.
  intros Hnone Hsome. apply moves_reads_bind; [apply read_head_reads|]. intros o w1 Hr Hw1.
  pose proof (read_head_fits profile _ _ _ _ Hr) as Hfits.
  apply read_head_ok in Hr as (_ & Eo & Hv). destruct o as [h|]; [apply Hsome; [done|by split_and!]|by apply Hnone].
Qed.

Lemma next_credential_revision_ok revision next :
  next_credential_revision revision = Ok next → next = revision + 1.
Proof. unfold next_credential_revision, checked_add_u64. intros Hn%ok_or_ok. destruct (_ <=? _); congruence. Qed.

Lemma begin_change_moves operation id expected A w :
  parse_account id = Ok A → no_colon operation →
  moves A w (begin_change profile operation id expected)
    (λ fence e, fence_account fence = A ∧ fence_revision fence = expected + 1 ∧ revision_in profile e A = expected + 1).
Proof.
  intros HA Hop. pose proof (parse_account_plain _ _ HA) as Hplain. unfold begin_change. rewrite HA.
  apply moves_lift_bind. intros A' [= <-]. apply moves_head_bind.
  - intros w1 Hw1 Hnone. apply moves_lift_bind. intros [] Hrev%err_if_ok. apply moves_lift_bind. intros [] _.
    apply (moves_bind _ _ _ _ (λ o e, o = None ∧ e !! head_key A = None)).
    { apply moves_ret. by rewrite Hw1. }
    intros o w2 [-> Hnone2] _. apply moves_lift_bind. intros revision ->%next_credential_revision_ok.
    apply negb_false_iff, Z.eqb_eq in Hrev. cbn in Hrev. eapply moves_bind.
    + eapply write_head_moves; [done|unfold CredentialSteps.head_in; by rewrite Hnone2|done|].
      cbn. rewrite <-Hrev. by apply (MoveBegin profile _ A None).
    + intros [] w3 [(Eh & _) _] _. apply moves_ret. unfold revision_in. rewrite Eh. done.
  - intros h w1 Hw1 Hh. apply moves_lift_bind. intros [] Hrev%err_if_ok. apply moves_lift_bind. intros [] Hp%err_if_ok.
    cbn in Hp, Hrev. apply negb_false_iff, Z.eqb_eq in Hrev.
    apply (moves_bind _ _ _ _ (λ o e, o = Some (with_state h (head_state h) []) ∧ at_head e A (with_state h (head_state h) []))).
    { eapply moves_bind; [apply clean_retired_moves; [done|by rewrite Hw1]|]. intros h' w2 (-> & Hh2 & _) _.
      by apply moves_ret. }
    intros o w2 [-> (Eh2 & Vh2 & _)] _. apply moves_lift_bind. intros revision ->%next_credential_revision_ok.
    eapply moves_bind.
    + eapply write_head_moves; [done|exact Eh2|exact Vh2|]. rewrite <-Hrev.
      by apply (MoveBegin profile _ A (Some (with_state h (head_state h) []))).
    + intros [] w3 [(Eh & _) _] _. apply moves_ret. unfold revision_in. by rewrite Eh.
Qed.

Lemma fenced_head_ok fence w h w1 :
  fenced_head profile fence w = (Ok h, w1) →
  entries w1 = entries w ∧ at_head (entries w) (fence_account fence) h ∧ head_revision h = fence_revision fence ∧
  head_operation h = fence_operation fence.
Proof.
  unfold fenced_head. intros (o & w2 & Hr & Hk)%eff_bind_ok. pose proof (read_head_fits profile _ _ _ _ Hr) as Hfits.
  apply read_head_ok in Hr as (Hw & Eo & Hv). apply eff_bind_ok in Hk as (h' & w3 & [Ho <-]%lift_ok & Hk).
  apply ok_or_ok in Ho as ->. apply eff_bind_ok in Hk as ([] & w3 & [Hc <-]%lift_ok & Hk).
  apply eff_ret_ok in Hk as [<- <-]. apply err_if_ok, orb_false_iff in Hc as [Hc1 Hc2].
  apply negb_false_iff in Hc1, Hc2. apply Z.eqb_eq in Hc1. apply str_eqb_spec in Hc2. by split_and!.
Qed.

Lemma fenced_head_reads fence : reads (fenced_head profile fence).
Proof. unfold fenced_head. auto 8 using read_head_reads with reads. Qed.

Lemma save_moves fence c w :
  no_colon (fence_account fence) →
  moves (fence_account fence) w (save profile macos fence c)
    (λ rc e, receipt_revision rc = fence_revision fence ∧
      published profile e (fence_account fence) (fence_revision fence) c).
Proof.
  intros HA. unfold save. apply moves_lift_bind. intros [] _. apply moves_lift_bind. intros bytes _.
  apply moves_reads_bind; [apply fenced_head_reads|]. intros h w1 Hf Hw1.
  apply fenced_head_ok in Hf as (_ & Hh & Hrev & _). rewrite <-Hw1 in Hh. rewrite <-Hrev.
  destruct (head_state h) as [committed|previous candidate|] eqn:Es.
  - case_bool_decide as Eb; [|by apply moves_lift].
    apply moves_reads_bind; [apply read_blob_reads|]. intros actual w2 Hread Hw2. apply read_reads_back in Hread.
    apply moves_lift_bind. intros [] Hc%err_if_ok. apply negb_false_iff, bool_decide_eq_true in Hc as ->.
    rewrite <-Hw2 in *. by apply (settle_published _ _ _ committed).
  - apply moves_lift_bind. intros [] Hc%err_if_ok. apply (publish_moves fence h previous candidate); try done.
    intros b ->. cbn in Hc. by apply negb_false_iff, bool_decide_eq_true in Hc.
  - by apply moves_lift.
Qed.

Lemma reconcile_moves fence w :
  no_colon (fence_account fence) →
  moves (fence_account fence) w (reconcile profile fence) (λ rc _, receipt_revision rc = fence_revision fence).
Proof.
  intros HA. unfold reconcile. apply moves_lift_bind. intros [] _.
  apply moves_reads_bind; [apply fenced_head_reads|]. intros h w1 Hf Hw1.
  apply fenced_head_ok in Hf as (_ & Hh & Hrev & _). rewrite <-Hw1 in Hh. rewrite <-Hrev.
  destruct (head_state h) as [blob| |]; [|by apply moves_lift..].
  apply moves_reads_bind; [apply read_blob_reads|]. intros c w2 _ Hw2. rewrite <-Hw2 in Hh.
  eapply moves_conseq; [by apply settled_receipt_moves|]. by intros rc e [-> _].
Qed.

(** After an acknowledged deletion the head is a tombstone; cleaned up, it
    names nothing. *)
Lemma delete_moves operation id expected A w :
  parse_account id = Ok A → no_colon operation →
  moves A w (delete_credentials profile operation id expected)
    (λ rc e, receipt_cleanup_pending rc = false → ∃ h, at_head e A h ∧ named h = []).
Proof.
  intros HA Hop. pose proof (parse_account_plain _ _ HA) as Hplain. unfold delete_credentials. rewrite HA.
  apply moves_lift_bind. intros A' [= <-].
  assert (∀ h w, at_head (entries w) A h → head_state h = Deleted →
    moves A w (settled_receipt profile A h) (λ rc e, receipt_cleanup_pending rc = false → ∃ h, at_head e A h ∧ named h = []))
    as Hsettle.
  { intros h w0 Hh Es. eapply moves_conseq; [by apply settled_receipt_moves|]. intros rc e [_ Hc] Hno.
    exists (with_state h (head_state h) []). split; [by apply Hc|]. unfold named. cbn. by rewrite Es. }
  apply moves_head_bind.
  - intros w1 Hw1 Hnone. apply moves_lift_bind. intros [] _. apply moves_lift_bind.
    intros revision ->%next_credential_revision_ok. eapply moves_bind.
    + eapply write_head_moves; [done|unfold CredentialSteps.head_in; by rewrite Hw1, Hnone|by rewrite Hw1|].
      by apply (MoveDelete profile _ A None).
    + intros [] w2 [Hh _] _. by apply Hsettle.
  - intros h w1 Hw1 Hh. apply moves_lift_bind. intros [] _. rewrite <-Hw1 in Hh. unfold is_deleted.
    destruct (head_state h) eqn:Es; [| |by apply Hsettle].
    all: apply moves_lift_bind; intros revision ->%next_credential_revision_ok; destruct Hh as (Eh & Vh & _);
      (eapply moves_bind; [eapply write_head_moves; [done|exact Eh|exact Vh|by apply (MoveDelete profile _ A (Some h))]|]);
      intros [] w2 [Hh _] _; by apply Hsettle.
Qed.

Lemma flush_moves id A w :
  parse_account id = Ok A → moves A w (flush_cleanup profile id) (λ _ _, True).
Proof.
  intros HA. pose proof (parse_account_plain _ _ HA) as Hplain. unfold flush_cleanup. rewrite HA.
  apply moves_lift_bind. intros A' [= <-]. apply moves_head_bind.
  - intros w1 _ _. by apply moves_ret.
  - intros h w1 Hw1 Hh. rewrite <-Hw1 in Hh. eapply moves_bind; [by apply clean_retired_moves|].
    intros h' w2 _ _. by apply moves_ret.
Qed.

(** ** Histories *)

Inductive store_op w w' : Prop :=
| OpStatus id r : status profile id w = (r, w') → store_op w w'
| OpLoad id r : load profile id w = (r, w') → store_op w w'
| OpBegin operation id expected r :
    no_colon operation → begin_change profile operation id expected w = (r, w') → store_op w w'
| OpSave fence c r :
    no_colon (fence_account fence) → save profile macos fence c w = (r, w') → store_op w w'
| OpReconcile fence r :
    no_colon (fence_account fence) → reconcile profile fence w = (r, w') → store_op w w'
| OpDelete operation id expected r :
    no_colon operation → delete_credentials profile operation id expected w = (r, w') → store_op w w'
| OpFlush id r : flush_cleanup profile id w = (r, w') → store_op w w'
| OpKeyring l : w' = {| entries := entries w; answers := l |} → store_op w w'.

Definition any_step e e' : Prop := ∃ A, no_colon A ∧ credential_step profile A e e'.

Lemma steps_any A e e' : no_colon A → steps A e e' → rtc any_step e e'.
Proof. intros HA. induction 1 as [|e1 e2 e3 Hs _ IH]; [done|]. eapply rtc_l; [|exact IH]. by exists A. Qed.

Lemma moves_any {T} A w (m : eff Keyring CredentialError T) Q r w' :
  no_colon A → moves A w m Q → m w = (r, w') → rtc any_step (entries w) (entries w').
Proof. intros HA Hm E. by apply (steps_any A), (Hm r w' E). Qed.

(** An operation on an account that does not parse does nothing. *)
Lemma parse_first {T} id (k : string → eff Keyring CredentialError T) w r w' :
  (lift (parse_account id) ≫= k) w = (r, w') →
  entries w' = entries w ∨ ∃ A, parse_account id = Ok A.
Proof. rewrite lift_bind_run. destruct (parse_account id) as [A|]; [right; by exists A|intros [= _ <-]; by left]. Qed.

Lemma op_steps w w' : store_op w w' → rtc any_step (entries w) (entries w').
Proof.
  assert (∀ {T} (m : eff Keyring CredentialError T) r, reads m → m w = (r, w') → rtc any_step (entries w) (entries w')) as Hreads.
  { intros T m r Hm E. by rewrite (Hm _ _ _ E). }
  intros [id r E|id r E|operation id expected r Hop E|fence c r HA E|fence r HA E|operation id expected r Hop E|id r E|l ->].
  - eapply Hreads; [|exact E]. unfold status. auto 8 using read_head_reads with reads.
  - eapply Hreads; [|exact E]. unfold load. auto 10 using read_head_reads, read_blob_reads with reads.
  - destruct (parse_first _ _ _ _ _ E) as [->|[A HA]]; [done|].
    eapply (moves_any A); [by eapply parse_account_plain|by apply begin_change_moves|exact E].
  - by eapply (moves_any (fence_account fence)), E; [|apply save_moves].
  - by eapply (moves_any (fence_account fence)), E; [|apply reconcile_moves].
  - destruct (parse_first _ _ _ _ _ E) as [->|[A HA]]; [done|].
    eapply (moves_any A); [by eapply parse_account_plain|by apply delete_moves|exact E].
  - destruct (parse_first _ _ _ _ _ E) as [->|[A HA]]; [done|].
    eapply (moves_any A); [by eapply parse_account_plain|by apply flush_moves|exact E].
  - done.
Qed.

Lemma ops_steps w w' : rtc store_op w w' → rtc any_step (entries w) (entries w').
Proof. induction 1 as [|w w1 w' Hop _ IH]; [done|]. etrans; [by apply op_steps|exact IH]. Qed.

Lemma steps_accounted e e' : rtc any_step e e' → accounted profile e → accounted profile e'.
Proof. induction 1 as [|e e1 e' (A & HA & Hs) _ IH]; [done|]. intros Hacc. by eapply IH, step_accounted. Qed.

Lemma steps_publish e e' A revision c :
  no_colon A → rtc any_step e e' → published profile e A revision c →
  published profile e' A revision c ∨ revision < revision_in profile e' A.
Proof.
  intros HA Hs Hp. assert (∀ e1 e2, rtc any_step e1 e2 → revision_in profile e1 A ≤ revision_in profile e2 A) as Hmono.
  { induction 1 as [|e1 e2 e3 (B & HB & Hs') _ IH]; [lia|]. etrans; [|exact IH]. by eapply (step_revision profile). }
  induction Hs as [e|e e1 e' (B & HB & Hstep) Hs IH]; [by left|].
  destruct (step_published profile profile_plain B A e e1 revision c HB HA Hstep Hp) as [Hp1|Hlt]; [by apply IH|].
  right. specialize (Hmono _ _ Hs). lia.
Qed.

(** C19: Whatever operations run on a keyring that was empty, each of whose
    calls may be refused or carried out and reported as failed, and wherever
    an operation stops: every entry of the profile is the head of an account
    or a chunk that this head still names.  So once a deletion reports that
    nothing is left to clean up, no secret of the account is in the keyring. *)
Theorem no_secret_orphaned w w' operation id expected A rc w'' :
  entries w = ∅ → rtc store_op w w' → parse_account id = Ok A → no_colon operation →
  delete_credentials profile operation id expected w' = (Ok rc, w'') →
  accounted profile (entries w') ∧
  (receipt_cleanup_pending rc = false →
    ∀ blob index, no_colon blob → Z.of_nat index ≤ u64_max → entries w'' !! chunk_key A blob index = None).
Proof.
  intros He Hops HA Hop Hdel. pose proof (parse_account_plain _ _ HA) as Hplain.
  assert (accounted profile (entries w')) as Hacc.
  { eapply steps_accounted; [by apply ops_steps|]. rewrite He. intros key [v Hv]. by rewrite lookup_empty in Hv. }
  split; [done|]. intros Hclean blob index Hblob Hindex.
  destruct (delete_moves operation id expected A w' HA Hop _ _ Hdel) as [Hs HQ].
  destruct (HQ rc eq_refl Hclean) as (h & (Eh & _) & Hnamed).
  apply (steps_any A) in Hs; [|done]. apply steps_accounted in Hs; [|done].
  apply eq_None_not_Some. intros Hsome. destruct (Hs _ Hsome) as (B & hB & HB & EB & VB & [E|Hin]).
  - by apply chunk_not_head in E.
  - apply retired_keys_spec in Hin as (b & i & Hb & Hi & E).
    destruct (named_blob profile profile_plain _ _ _ _ EB VB Hb) as [Vb Cb].
    apply chunk_key_inj in E as (<- & _ & _); try done; [|by apply (chunk_index_bound b)].
    rewrite Eh in EB. injection EB as <-. rewrite Hnamed in Hb. by apply elem_of_nil in Hb.
Qed.

(** A read of a published bundle. *)
Lemma load_published id A w revision c r w' :
  parse_account id = Ok A → published profile (entries w) A revision c → load profile id w = (r, w') →
  r = Ok (Some {| stored_revision := revision; stored_credentials := c |}) ∨ r = Err Unavailable.
Proof.
  intros HA (h & b & (Eh & Vh & Fh) & Erev & Es & Hread) Hl. unfold load in Hl. rewrite HA, lift_bind_run in Hl.
  assert (∀ o w1, read_head profile A w = (o, w1) → o = Ok (Some h) ∨ o = Err Unavailable) as Hhead.
  { intros o w1 Ho. unfold read_head in Ho. apply bind_inv in Ho as [(found & w2 & Hg & Ho)|(err & Hg & ->)].
    - apply keyring_get_ok in Hg as ->. unfold CredentialSteps.head_in in Eh. apply bind_Some in Eh as (bytes & Eb & Eh).
      rewrite Eb, lift_bind_run in Ho. rewrite (proj2 (Z.ltb_ge _ _) (Fh _ Eb)) in Ho. cbn [err_if] in Ho.
      rewrite lift_bind_run, Eh in Ho. cbn [ok_or] in Ho. rewrite lift_bind_run, Vh in Ho. by injection Ho as <- _; left.
    - right. unfold keyring_get in Hg. destruct (next_answer w); congruence. }
  apply bind_inv in Hl as [(o & w1 & Ho & Hl)|(err & Ho & ->)].
  - destruct (Hhead _ _ Ho) as [[= ->]|[=]]. rewrite Es in Hl.
    pose proof (read_head_reads profile A _ _ _ Ho) as Hw1.
    apply bind_inv in Hl as [(c' & w2 & Hb & Hl)|(err & Hb & ->)].
    + destruct (Hread _ _ _ Hw1 Hb) as [[= ->]|[=]]. left. injection Hl as <- _. by rewrite Erev.
    + destruct (Hread _ _ _ Hw1 Hb) as [[=]|[= ->]]. by right.
  - destruct (Hhead _ _ Ho) as [[=]|[= ->]]. by right.
Qed.

(** C20: What a save acknowledged is what a load returns, under the revision of
    its fence, after any operations and faults, until a later change of the
    account has begun; only a keyring that refuses the read comes between. *)
Theorem saved_credentials_load fence c w rc w1 w2 id r w3 :
  no_colon (fence_account fence) → parse_account id = Ok (fence_account fence) →
  save profile macos fence c w = (Ok rc, w1) → rtc store_op w1 w2 → load profile id w2 = (r, w3) →
  receipt_revision rc = fence_revision fence ∧
  (r = Ok (Some {| stored_revision := fence_revision fence; stored_credentials := c |}) ∨ r = Err Unavailable ∨
   fence_revision fence < revision_in profile (entries w2) (fence_account fence)).
Proof.
  intros HA Hid Hsave Hops Hload. destruct (save_moves fence c w HA _ _ Hsave) as [_ HQ].
  destruct (HQ rc eq_refl) as [Hrc Hp]. split; [done|].
  destruct (steps_publish _ _ _ _ _ HA (ops_steps _ _ Hops) Hp) as [Hp2|Hlt]; [|by right; right].
  destruct (load_published id _ _ _ _ _ _ Hid Hp2 Hload) as [->| ->]; [by left|by right; left].
Qed.
End props.
