(* ===== verification/CredentialRecovery.v ===== *)
(** * Signing out works from any state, and the store at concrete inputs

    A keyring that answers lets every account be deleted, whatever state an
    interrupted change left it in.  The witnesses run the store on a codec of
    a few texts. *)

From S2P Require Import Prelude RustStr RustText Effect AccountModel CredentialStore CredentialSteps.
From S2P Require Import CredentialProps.

Open Scope string_scope.
Open Scope list_scope.
Open Scope Z_scope.

(** serde_json writes a head as [head_json] says, and reads identifiers in the
    hyphenated form of UUIDs. *)
Class HeadJsonLaws `{CredentialCodec} : Prop := {
  head_written h s : head_to_vec h = Some s → s = head_json h;
  head_sizes s h :
    head_from_slice s = Some h → str_len (head_operation h) = 36 ∧ Forall (λ b, str_len (blob_id b) = 36) (named h);
}.

Section recovery.
Context `{CredentialLaws} `{!HeadJsonLaws}.
Variable (profile : string).
Hypothesis profile_plain : no_colon profile.
Notation head_key := (head_key profile).
Implicit Types (e : gmap string string) (h : Head) (w : Keyring).

(** ** A keyring without faults *)

Definition quiet_keyring e : Keyring := {| entries := e; answers := [] |}.

Lemma quiet_get key e : keyring_get key (quiet_keyring e) = (Ok (e !! key), quiet_keyring e).
Proof. done. Qed.

Lemma quiet_change change e : keyring_change change (quiet_keyring e) = (Ok tt, quiet_keyring (change e)).
Proof. done. Qed.

Lemma try_bind_run {A B} (m : eff Keyring CredentialError A) (k : result CredentialError A → eff Keyring CredentialError B)
    r w w1 :
  m w = (r, w1) → (eff_try (F := CredentialError) m ≫= k) w = k r w1.
Proof. intros Hm. unfold mbind, eff_bind, eff_try. by rewrite Hm. Qed.

Lemma quiet_write_entry key bytes e :
  write_entry key bytes (quiet_keyring e) = (Ok tt, quiet_keyring (<[key := bytes]> e)).
Proof.
  unfold write_entry. rewrite (try_bind_run (keyring_set key bytes) _ _ _ _ (quiet_change _ e)), (try_bind_run _ _ _ _ _ (quiet_get key _)).
  rewrite lookup_insert_eq. unfold lift. by rewrite (proj2 (str_eqb_spec bytes bytes) eq_refl).
Qed.

(** A head that can be written. *)
Definition writable h : Prop := ∃ bytes, head_to_vec h = Some bytes ∧ str_len bytes ≤ MAX_HEAD_BYTES.

(** ** The size of a tombstone

    Counted on its JSON: at most two blobs of at most 169 bytes each. *)

Lemma str_len_app s t : str_len (s +:+ t) = str_len s + str_len t.
Proof. unfold str_len. rewrite str_app_length. lia. Qed.

Lemma json_text_len s : str_len (json_text s) = str_len s + 2.
Proof. unfold json_text. rewrite !str_len_app. change (str_len (char1 "034")) with 1. lia. Qed.

Lemma nat_digits_len fuel n acc : str_len (nat_digits fuel n acc) ≤ Z.of_nat fuel + str_len acc.
Proof.
  revert n acc. induction fuel as [|fuel IH]; intros n acc; cbn [nat_digits]; [lia|].
  set (acc' := String _ acc). assert (str_len acc' = 1 + str_len acc) as Hacc.
  { unfold acc', str_len. cbn [String.length]. lia. }
  destruct (n <? 10); [lia|]. specialize (IH (n / 10) acc'). lia.
Qed.

Lemma display_len n : str_len (display_Z n) ≤ 20.
Proof. pose proof (nat_digits_len 20 n ""). change (str_len "") with 0 in *. unfold display_Z. lia. Qed.

Ltac json_len :=
  unfold json_object, json_array; cbn [str_join fmap list_fmap]; rewrite ?str_len_app, ?json_text_len;
  repeat match goal with
  | |- context [str_len (String ?c ?s)] =>
      let n := eval vm_compute in (str_len (String c s)) in change (str_len (String c s)) with n
  end.

Lemma blob_json_len b :
  blob_validate b = Ok tt → str_len (blob_id b) = 36 → str_len (blob_json b) ≤ 169.
Proof.
  unfold blob_validate. intros Hv Hid. ok_inv.
  assert (str_len (blob_digest b) = 64) as Hd by lia.
  pose proof (display_len (blob_chunks b)).
  unfold blob_json, layout_json. json_len. destruct (blob_layout b); json_len; lia.
Qed.

Lemma tombstone_len revision operation retired :
  str_len operation = 36 → (length retired ≤ 2)%nat →
  Forall (λ b, str_len (blob_json b) ≤ 169) retired →
  str_len (head_json (new_head revision operation Deleted retired)) ≤ MAX_HEAD_BYTES.
Proof.
  intros Ho Hn Hr. pose proof (display_len revision). pose proof (display_len 1). unfold head_json, MAX_HEAD_BYTES.
  assert (str_len (json_array (blob_json <$> retired)) ≤ 341) as Ha.
  { destruct retired as [|b [|c [|]]]; cbn [length] in Hn; [by vm_compute| | |lia];
      json_len; rewrite !list.Forall_cons in Hr; lia. }
  cbn [new_head head_schema head_revision head_operation head_state head_retired].
  revert Ha. generalize (json_array (blob_json <$> retired)). intros array Ha.
  assert (str_len (state_json Deleted) = 18) as Hs by reflexivity. json_len. lia.
Qed.

Lemma quiet_write_head A h e :
  head_validate h = Ok tt → writable h → ∃ e', write_head profile A h (quiet_keyring e) = (Ok tt, quiet_keyring e').
Proof.
  intros Hv (bytes & Hb & Hlen). eexists. unfold write_head. rewrite lift_bind_run, Hv, lift_bind_run, Hb. cbn [ok_or].
  rewrite lift_bind_run. rewrite (proj2 (Z.ltb_ge _ _) Hlen). apply quiet_write_entry.
Qed.

Lemma quiet_clean_chunks keys e :
  ∃ e', eff_fold (λ _ key, clean_chunk key) tt keys (quiet_keyring e) = (Ok tt, quiet_keyring e').
Proof.
  revert e. induction keys as [|key keys IH]; intros e; [by exists e|]. cbn [eff_fold].
  assert (clean_chunk key (quiet_keyring e) = (Ok tt, quiet_keyring (delete key e))) as Hc.
  { unfold clean_chunk. rewrite (try_bind_run (keyring_delete key) _ _ _ _ (quiet_change _ e)), (try_bind_run _ _ _ _ _ (quiet_get key _)).
    by rewrite lookup_delete_eq. }
  rewrite (eff_bind_run _ _ _ _ _ Hc). apply IH.
Qed.

Lemma quiet_keyring_settled A h e :
  head_validate (with_state h (head_state h) []) = Ok tt → writable (with_state h (head_state h) []) →
  ∃ e', settled_receipt profile A h (quiet_keyring e) = (Ok (receipt A (head_revision h) false), quiet_keyring e').
Proof.
  intros Hv Hw. assert (∃ h' e', clean_retired profile A h (quiet_keyring e) = (Ok h', quiet_keyring e')) as (h' & e' & Hc).
  { unfold clean_retired. destruct (head_retired h) as [|b l]; [by exists h, e|].
    destruct (quiet_clean_chunks (retired_keys profile A (b :: l)) e) as [e1 E1]. rewrite (eff_bind_run _ _ _ _ _ E1).
    destruct (quiet_write_head A (with_state h (head_state h) []) e1 Hv Hw) as [e2 E2].
    assert (eff_map_err (λ _, CleanupPending) (write_head profile A (with_state h (head_state h) [])) (quiet_keyring e1) =
      (Ok tt, quiet_keyring e2)) as E3 by (unfold eff_map_err; by rewrite E2).
    rewrite (eff_bind_run _ _ _ _ _ E3). by eexists _, e2. }
  exists e'. unfold settled_receipt. by rewrite (try_bind_run _ _ _ _ _ Hc).
Qed.

(** ** Tombstones *)

Lemma retired_fold l live ids :
  Forall (λ b, blob_validate b = Ok tt) l → NoDup (blob_id <$> l) → live = None → (∀ b, b ∈ l → blob_id b ∉ ids) →
  ∃ ids', try_fold (retired_validate live) ids l = Ok ids'.
Proof.
  intros Hv Hnd -> Hids. revert ids Hids. induction l as [|b l IH]; intros ids Hids; [by exists ids|].
  apply list.Forall_cons in Hv as [Hb Hv]. rewrite fmap_cons in Hnd. apply list.NoDup_cons in Hnd as [Hnot Hnd].
  assert (char_in ids (blob_id b) = false) as Hin.
  { apply not_true_iff_false. unfold char_in. rewrite existsb_exists. intros (i & Hi%list_elem_of_In & E).
    apply String.eqb_eq in E. subst i. apply (Hids b); [by left|done]. }
  assert (retired_validate None ids b = Ok (ids ++ [blob_id b])) as E
    by (unfold retired_validate; by rewrite Hb, Hin).
  cbn [try_fold]. rewrite E. cbn [mbind result_bind]. apply IH; [done|done|]. intros c Hc [Hi|Hi%list_elem_of_singleton]%elem_of_app.
  - apply (Hids c); [by right|done].
  - apply Hnot. rewrite <-Hi. by apply list_elem_of_fmap_2.
Qed.

Lemma named_count h : head_validate h = Ok tt → (length (named h) ≤ 2)%nat.
Proof.
  unfold head_validate, state_validate, named. intros Hv. rewrite length_app.
  destruct (head_state h) as [b|previous candidate|]; ok_inv;
    destruct (head_retired h) as [|? [|? [|??]]]; try done; cbn; try lia.
  rewrite length_app. destruct previous, candidate; cbn; lia.
Qed.

(** Whatever change a head records, its tombstone is a valid head. *)
Lemma tombstone_valid h revision operation :
  head_validate h = Ok tt → revision ≠ 0 → operation ≠ nil_uuid →
  head_validate (new_head revision operation Deleted (named h)) = Ok tt.
Proof.
  intros Hv Hr Hop. pose proof (named_count _ Hv) as Hn. destruct (valid_head_named profile profile_plain _ Hv) as [Hb Hnd].
  unfold head_validate at 1, new_head. cbn [head_schema head_revision head_operation head_retired].
  rewrite (proj2 (Z.eqb_neq _ _) Hr), (proj2 (str_eqb_false _ _) Hop), (proj2 (Nat.ltb_ge _ _) Hn). cbn.
  destruct (retired_fold (named h) None [] Hb Hnd eq_refl) as [ids E]; [by intros b _ ?%elem_of_nil|].
  by rewrite E.
Qed.

Lemma clean_tombstone_valid revision operation :
  revision ≠ 0 → operation ≠ nil_uuid → head_validate (new_head revision operation Deleted []) = Ok tt.
Proof.
  intros Hr Hop. unfold head_validate, new_head. cbn.
  by rewrite (proj2 (Z.eqb_neq _ _) Hr), (proj2 (str_eqb_false _ _) Hop).
Qed.

Lemma clean_valid h : head_validate h = Ok tt → head_validate (with_state h Deleted []) = Ok tt.
Proof.
  unfold head_validate. cbn [with_state head_schema head_revision head_operation head_retired]. intros Hv. ok_inv.
  repeat match goal with E : _ = _ |- _ => rewrite E; clear E end. done.
Qed.

(** The head that a deletion leaves before its clean-up. *)
Definition tombstone e (A operation : string) : Head :=
  match head_in profile e A with
  | Some h => if is_deleted h then h else new_head (head_revision h + 1) operation Deleted (named h)
  | None => new_head 1 operation Deleted []
  end.

Lemma quiet_read_head A e :
  e !! head_key A = None ∨ (∃ h, at_head profile e A h) →
  read_head profile A (quiet_keyring e) = (Ok (head_in profile e A), quiet_keyring e).
Proof.
  intros Hread. unfold read_head. rewrite (eff_bind_run _ _ _ _ _ (quiet_get (head_key A) e)). unfold head_in.
  destruct Hread as [->|(h & Eh & Vh & Fh)]; [done|]. unfold head_in in Eh. apply bind_Some in Eh as (bytes & Eb & Eh).
  rewrite Eb. cbn. rewrite lift_bind_run, (proj2 (Z.ltb_ge _ _) (Fh _ Eb)). cbn [err_if].
  rewrite lift_bind_run, Eh. cbn [ok_or]. by rewrite lift_bind_run, Vh.
Qed.

(** A tombstone is written: its JSON has room in a head. *)
Lemma tombstone_writable h :
  head_state h = Deleted → head_schema h = 1 → head_validate h = Ok tt → str_len (head_operation h) = 36 →
  Forall (λ b, str_len (blob_id b) = 36) (head_retired h) → is_Some (head_to_vec h) → writable h.
Proof.
  intros Hs Hsch Hv Ho Hids [bytes Hb]. exists bytes. split; [done|]. rewrite (head_written _ _ Hb).
  pose proof (named_count _ Hv) as Hn. destruct (valid_head_named profile profile_plain _ Hv) as [Hblobs _].
  destruct h as [schema revision op state retired]. cbn [head_state head_schema head_operation head_retired] in *.
  subst state schema. unfold named in Hn, Hblobs. cbn [head_state head_retired] in Hn, Hblobs. rewrite app_nil_r in Hn, Hblobs.
  apply (tombstone_len revision op retired); [done|done|].
  rewrite !list.Forall_forall in *. intros b Hin. apply blob_json_len; [by apply Hblobs|by apply Hids].
Qed.

Lemma tombstone_writes operation A e :
  operation ≠ nil_uuid → str_len operation = 36 →
  e !! head_key A = None ∨ (∃ h, at_head profile e A h) → revision_in profile e A < u64_max →
  is_Some (head_to_vec (tombstone e A operation)) →
  is_Some (head_to_vec (with_state (tombstone e A operation) Deleted [])) →
  writable (tombstone e A operation) ∧ writable (with_state (tombstone e A operation) Deleted []).
Proof.
  intros Hop Hlen Hread Hmax Hs1 Hs2.
  assert (head_state (tombstone e A operation) = Deleted ∧ head_schema (tombstone e A operation) = 1 ∧
    head_validate (tombstone e A operation) = Ok tt ∧ str_len (head_operation (tombstone e A operation)) = 36 ∧
    Forall (λ b, str_len (blob_id b) = 36) (head_retired (tombstone e A operation))) as (Hst & Hsch & Hv & Ho & Hids).
  { unfold tombstone. destruct (head_in profile e A) as [h|] eqn:Eh.
    - assert (head_validate h = Ok tt) as Hv.
      { destruct Hread as [Hnone|(h' & Eh' & Vh' & _)]; [unfold head_in in Eh; by rewrite Hnone in Eh|congruence]. }
      pose proof Eh as Eh'. apply bind_Some in Eh as (bytes & _ & Eh). destruct (head_sizes _ _ Eh) as [Ho Hids].
      destruct (is_deleted h) eqn:Ed.
      + unfold is_deleted in Ed. destruct (head_state h) eqn:Es; try done. split_and!; [done| |done|done|].
        * unfold head_validate in Hv. ok_inv. lia.
        * unfold named in Hids. by rewrite Es, app_nil_r in Hids.
      + apply head_in_law in Eh' as (Hpos & _). split_and!; [done|done| |done|done].
        apply tombstone_valid; [done|lia|done].
    - split_and!; [done|done| |done|constructor]. by apply clean_tombstone_valid. }
  split; apply tombstone_writable; try done. by apply clean_valid.
Qed.

(** C21: An account can be signed out from whatever state the changes of the past
    left its head in, absent, live, pending, deleted or half cleaned up, unless
    its revisions are exhausted: a deletion on a keyring that answers succeeds
    and leaves nothing to clean up.  That the heads it writes pass the limit on
    the size of a head follows from their JSON, with identifiers of 36 bytes;
    that serde_json writes them at all is assumed. *)
Theorem sign_out_recovers operation id A e :
  parse_account id = Ok A → operation ≠ nil_uuid → str_len operation = 36 →
  e !! head_key A = None ∨ (∃ h, at_head profile e A h) → revision_in profile e A < u64_max →
  is_Some (head_to_vec (tombstone e A operation)) →
  is_Some (head_to_vec (with_state (tombstone e A operation) Deleted [])) →
  ∃ e', delete_credentials profile operation id None (quiet_keyring e) =
    (Ok (receipt A (head_revision (tombstone e A operation)) false), quiet_keyring e').
Proof.
  intros HA Hop Hlen Hread Hmax Hs1 Hs2.
  destruct (tombstone_writes operation A e Hop Hlen Hread Hmax Hs1 Hs2) as [Hw1 Hw2]. unfold delete_credentials. rewrite HA, lift_bind_run.
  rewrite (eff_bind_run _ _ _ _ _ (quiet_read_head A e Hread)), lift_bind_run. cbn [is_some_and err_if].
  unfold tombstone, revision_in in *. destruct (head_in profile e A) as [h|] eqn:Eh.
  - assert (head_validate h = Ok tt) as Hv.
    { destruct Hread as [Hnone|(h' & Eh' & Vh' & _)]; [unfold head_in in Eh; by rewrite Hnone in Eh|congruence]. }
    apply head_in_law in Eh as (Hpos & _).
    assert (head_revision h + 1 ≠ 0) as Hne by lia. cbn [revision_of default fmap option_fmap option_map] in *.
    unfold revision_of in Hmax |- *. cbn in Hmax |- *.
    destruct (is_deleted h) eqn:Ed.
    + unfold is_deleted in Ed. destruct (head_state h) eqn:Es; try done. apply quiet_keyring_settled; rewrite Es; [|done].
      by apply clean_valid.
    + rewrite lift_bind_run. unfold next_credential_revision, checked_add_u64.
      rewrite (proj2 (Z.leb_le (head_revision h + 1) u64_max)) by lia. cbn [ok_or].
      destruct (quiet_write_head A _ e (tombstone_valid h _ operation Hv Hne Hop) Hw1) as [e1 E1].
      rewrite (eff_bind_run _ _ _ _ _ E1).
      apply (quiet_keyring_settled A (new_head (head_revision h + 1) operation Deleted (named h))); [|done].
      by apply clean_tombstone_valid.
  - rewrite lift_bind_run. change (next_credential_revision (revision_of None)) with (@Ok CredentialError _ 1).
    destruct (quiet_write_head A _ e (clean_tombstone_valid 1 operation ltac:(lia) Hop) Hw1) as [e1 E1].
    rewrite (eff_bind_run _ _ _ _ _ E1).
    apply (quiet_keyring_settled A (new_head 1 operation Deleted [])); [by apply clean_tombstone_valid|done].
Qed.
End recovery.

Module CredentialDemo.
Definition demo_account : string := "853c80ef-3c37-49fd-aa49-938b674adae6".
Definition demo_profile : string := "profile".

#[local] Instance demo_uuid : UuidParser := λ id, if str_eqb id demo_account then Some demo_account else None.

Definition demo_bundle : Credentials := {|
  microsoft_access_token := "access"; microsoft_refresh_token := Some "refresh"; microsoft_expires_at := 10;
  minecraft_access_token := "game"; minecraft_expires_at := 10 |}.

Definition first : string := "153c80ef-3c37-49fd-aa49-938b674adae6".
Definition second : string := "253c80ef-3c37-49fd-aa49-938b674adae6".
Definition demo_digest : string := str_concat (replicate 64 "a").
Definition demo_blob : Blob :=
  {| blob_id := first; blob_chunks := 1; blob_digest := demo_digest; blob_layout := LayoutChunks |}.

(** The heads of a sign-in and a sign-out. *)
Definition demo_heads : list Head := [
  new_head 1 first (Pending None None) [];
  new_head 1 first (Pending None (Some demo_blob)) [];
  new_head 1 first (Live demo_blob) [];
  new_head 2 second Deleted [demo_blob];
  new_head 2 second Deleted []].

#[local] Instance head_state_eq_dec : EqDecision HeadState.
Proof. solve_decision. Defined.
#[local] Instance head_eq_dec : EqDecision Head.
Proof. solve_decision. Defined.

#[local] Instance demo_codec : CredentialCodec := {|
  head_to_vec := λ h, if bool_decide (h ∈ demo_heads) then Some (head_json h) else None;
  head_from_slice := λ s, List.find (λ h, str_eqb (head_json h) s) demo_heads;
  keyring_to_vec := λ p, if bool_decide (p = (1, demo_bundle)) then Some "{bundle}" else None;
  keyring_from_slice := λ s, if str_eqb s "{bundle}" then Some (1, demo_bundle) else None;
  sha256_hex := λ _, demo_digest |}.

Lemma demo_head_read s h : head_from_slice s = Some h → h ∈ demo_heads.
Proof. intros Hf. apply find_some in Hf as [Hin _]. by apply list_elem_of_In. Qed.

Ltac each_demo_head Hin :=
  repeat (apply elem_of_cons in Hin as [->|Hin]; [|]); [..|by apply elem_of_nil in Hin].

#[local] Instance demo_laws : CredentialLaws.
Proof.
  split.
  - intros s h. unfold uuid_canonical, demo_uuid. destruct (str_eqb s demo_account); [|done]. by intros [= <-].
  - intros h s _. cbn [head_to_vec demo_codec]. case_bool_decide as Hin; [|done]. intros [= <-].
    each_demo_head Hin; vm_compute; reflexivity.
  - intros s h Hin%demo_head_read. each_demo_head Hin; (split_and!; [done|reflexivity|by repeat constructor]).
Qed.

#[local] Instance demo_head_laws : HeadJsonLaws.
Proof.
  split.
  - intros h s. cbn [head_to_vec demo_codec]. case_bool_decide; [|done]. by intros [= <-].
  - intros s h Hin%demo_head_read. each_demo_head Hin; (split; [reflexivity|by repeat constructor]).
Qed.

Definition fresh_keyring : Keyring := quiet_keyring ∅.
Definition demo_fence : CredentialFence := {|
  fence_profile := demo_profile; fence_account := demo_account; fence_revision := 1; fence_operation := first |}.
Definition begun : Keyring := (begin_change demo_profile first demo_account 0 fresh_keyring).2.
Definition signed_in : Keyring := (save demo_profile false demo_fence demo_bundle begun).2.
Definition signed_out : Keyring := (delete_credentials demo_profile second demo_account (Some 1) signed_in).2.

(** The sign-in leaves the head and one chunk, the sign-out only the head. *)
Example sign_in_and_out :
  (save demo_profile false demo_fence demo_bundle begun).1 = Ok (receipt demo_account 1 false) ∧
  size (entries signed_in) = 2%nat ∧ size (entries signed_out) = 1%nat.
Proof. vm_compute. done. Qed.

Lemma signed_in_history : rtc (store_op demo_profile false) fresh_keyring signed_in.
Proof.
  eapply rtc_l; [apply (OpBegin demo_profile false fresh_keyring begun first demo_account 0
    (begin_change demo_profile first demo_account 0 fresh_keyring).1); [reflexivity|apply surjective_pairing]|].
  apply rtc_once. apply (OpSave demo_profile false begun signed_in demo_fence demo_bundle
    (save demo_profile false demo_fence demo_bundle begun).1); [reflexivity|apply surjective_pairing].
Qed.

Lemma no_secret_orphaned_witness :
  accounted demo_profile (entries signed_in) ∧
  (receipt_cleanup_pending (receipt demo_account 2 false) = false →
    ∀ blob index, no_colon blob → Z.of_nat index ≤ u64_max →
      entries signed_out !! chunk_key demo_profile demo_account blob index = None).
Proof.
  apply (no_secret_orphaned demo_profile false eq_refl fresh_keyring signed_in second demo_account (Some 1)
    demo_account (receipt demo_account 2 false) signed_out);
    [reflexivity|exact signed_in_history|reflexivity|reflexivity|vm_compute; reflexivity].
Defined.

Lemma saved_credentials_load_witness :
  receipt_revision (receipt demo_account 1 false) = fence_revision demo_fence ∧
  ((load demo_profile demo_account signed_in).1 =
     Ok (Some {| stored_revision := fence_revision demo_fence; stored_credentials := demo_bundle |}) ∨
   (load demo_profile demo_account signed_in).1 = Err Unavailable ∨
   fence_revision demo_fence < revision_in demo_profile (entries signed_in) (fence_account demo_fence)).
Proof.
  apply (saved_credentials_load demo_profile false eq_refl demo_fence demo_bundle begun
    (receipt demo_account 1 false) signed_in signed_in demo_account _
    (load demo_profile demo_account signed_in).2);
    [reflexivity|reflexivity|vm_compute; reflexivity|apply rtc_refl|apply surjective_pairing].
Defined.

Lemma sign_out_recovers_witness :
  ∃ e', delete_credentials demo_profile second demo_account None (quiet_keyring (entries signed_in)) =
    (Ok (receipt demo_account (head_revision (tombstone demo_profile (entries signed_in) demo_account second)) false),
     quiet_keyring e').
Proof.
  apply (sign_out_recovers demo_profile eq_refl second demo_account demo_account (entries signed_in));
    [reflexivity|discriminate|reflexivity| |vm_compute; reflexivity| |].
  - right. exists (new_head 1 first (Live demo_blob) []). split; [vm_compute; reflexivity|].
    split; [vm_compute; reflexivity|]. intros bytes Hb. vm_compute in Hb. injection Hb as <-. vm_compute. discriminate.
  - vm_compute. by eexists.
  - vm_compute. by eexists.
Defined.
End CredentialDemo.
